(* ===== verification/_CoqProject ===== *)
-Q . S2P
Prelude.v
Errors.v
Regex.v
BigInts.v
Primitives.v
Identity.v
PolicyTime.v
PolicyEvaluationJob.v
PolicyJobSnapshot.v
PolicyJobInvariant.v
PolicyScheduler.v
PolicySchedulerProofs.v
PolicySchedulerContract.v
PolicyJobHistory.v
PolicySchedulerSystem.v
PolicyHistoryProofs.v
PolicyJobOutbox.v
MemoryPolicyJobRepository.v
PolicyRepositoryProofs.v
PolicyRepositorySystem.v
PolicyRepositoryHistory.v
PolicyRepositoryCommit.v
PolicyJobUseCases.v
PolicyUseCaseProofs.v
PolicyWitnesses.v
ReviewerMatching.v
ReviewerAssignment.v
ReviewerMatchingProofs.v
ExactArithmetic.v
ExactArithmeticProofs.v
PolicyExactArithmetic.v
ReplayPlan.v
ReplayJob.v
ReplayJobState.v
ReplayJobStateProofs.v
ReplayRetry.v
ReplayAccounting.v
ReplayBudget.v
ReplayJobSnapshot.v
ReplayJobSnapshotProofs.v
ReplayJobOutbox.v
MemoryReplayJobRepository.v
MemoryReplayJobProofs.v
ReplayRepositorySystem.v
ReplayIdempotence.v
ReplayJobControl.v
OrderedMap.v
ComparisonContracts.v
ComparisonSnapshot.v
ComparisonResults.v
ComparisonPairing.v
ComparisonKeys.v
ComparisonPairingProofs.v
ComparisonVerdicts.v
ComparisonTransport.v
ComparisonVerdictProofs.v
ComparisonMetrics.v
ComparisonMetricProofs.v
Samples.v
Witnesses.v
ComparisonWitnesses.v
CanonicalJson.v
CanonicalJsonProofs.v
CanonicalIdentity.v
PolicySources.v
ReleasePolicyRules.v
ComparisonSelection.v
PolicyProjection.v
PolicyRuleResult.v
PolicyRuleResultProofs.v
PolicyPredicate.v
PolicyPredicateProofs.v
ReleaseDecisionContracts.v
ReleaseDecisionEncoding.v
ReleaseDecision.v
ReleaseDecisionProofs.v
DefinitionEncoders.v
DefinitionIdentity.v
DefinitionEncodingProofs.v
DecisionWitnesses.v
