(* ===== verification/Prelude.v ===== *)
(** * A verification library for ProofStack

    ProofStack is a TypeScript monorepo that retains evidence of AI-assisted
    changes, replays recorded executions in an isolated target, evaluates the
    outcome under a release policy and decides releases.  This library models
    the parts of it in which a mistake would be hardest to see: the state
    machines that workers drive concurrently, the ledgers and histories they
    leave behind, and the exact arithmetic and matching that decide a release.
    Source paths below are relative to [src/packages].

    ** The parts and how they interact

    - DURABLE REPLAY ([replay/src], [contracts/src/replay-*.ts]).  A client asks
      for a job under a stored plan; workers claim it with a lease and a fencing
      token, extend the lease, reserve and reconcile budget, report observations
      and complete it; a client may ask for its cancellation.  The use cases
      authorize a principal and check what the repository port answers; the
      in-memory repository is the atomic reference adapter of that port.
    - POLICY EVALUATION ([core/src/policy], [contracts/src/policy-evaluation-*.ts]).
      A request with frozen execution limits becomes a job graph; pure
      transitions claim, extend, charge, seal, complete, interrupt, reclaim,
      recover, exhaust and cancel it; each committed version has one history
      entry, which can be replayed.  A repository commits job, entry, page and
      outbox together; use cases authorize callers and workers and check what
      it answers.
    - COMPARISON ([core/src/evaluation], [contracts/src/evaluation-comparison*.ts]).
      A comparison definition binds a baseline and a candidate subject; two
      evidence snapshots are paired fixture by fixture, and verdict transitions
      and metrics are derived from the pairs.
    - RELEASE DECISIONS ([core/src/release],
      [core/src/evaluation/comparison-exact-arithmetic.ts],
      [core/src/policy/policy-exact-arithmetic.ts]).  Exact rational arithmetic
      compares evidence with thresholds, and an assignment algorithm decides
      whether distinct reviewers can stand for the approval groups.
    - RULES AND DECISIONS ([core/src/policy/evaluate-policy-predicate-projection.ts],
      [core/src/release], [contracts/src/release-decision*.ts]).  Each rule of a
      policy is evaluated on a projection of retained evidence; the result is
      classified with the reviews and the state of the policy; the classified
      rules of all planned policies determine the disposition of a release.
    - IDENTITY OF DEFINITIONS ([contracts/src/evaluation-definition-encoding.ts]
      and the [*-encoding.ts] modules).  A definition is identified by the digest
      of its canonical encoding, and evidence by the key of its source reference.

    ** Files

    Shared: [Prelude] (JavaScript exceptions as [result], numbers, lists,
    tactics, hints), [Errors] (the error classes), [Regex] (the regular
    expressions of the schemas, as derivatives), [BigInts] ([bigint] text and
    Euclid's loop), [Primitives] ([contracts/src/primitives.ts] and the small
    schemas all records use), [Identity] ([contracts/src/identity.ts],
    [core/src/auth/*.ts]).

    Policy evaluation: [PolicyTime] ([policy-evaluation-time.ts],
    [policy-evaluation-scheduler-time.ts]); [PolicyEvaluationJob] and
    [PolicyJobSnapshot] (the record schemas with every refinement; the loop over
    the attempts is [check_attempt]); [PolicyJobInvariant] (the same contract as
    a proposition per record, [graph_valid_iff]); [PolicyScheduler] (one
    definition per exported transition of [core/src/policy/policy-evaluation-*],
    under the source's names); [PolicyJobHistory] (entries, heads, pages, their
    validation and replay; [run_operation] is the [switch] of the replay);
    [PolicyJobOutbox]; [MemoryPolicyJobRepository] (the in-memory repository, a
    state monad over [PolicyJobMemory]; [mutate] and [prepare] commit one
    transition); [PolicyJobUseCases] (the control and worker use cases, over the
    repository ports as type classes).
    Proofs: [PolicySchedulerProofs] (which shapes of graph are valid),
    [PolicySchedulerContract] (every transition is one of four [moves]),
    [PolicySchedulerSystem] (the transition system [step]),
    [PolicyHistoryProofs]; [PolicyRepositoryProofs] (the invariant of a stored
    job), [PolicyRepositorySystem] (calls on the memory),
    [PolicyRepositoryHistory] (with its pages), [PolicyRepositoryCommit];
    [PolicyUseCaseProofs] (against any repository, and for the in-memory
    repository as an instance of the ports); [PolicyWitnesses].

    Comparison: [OrderedMap] (JavaScript maps in insertion order),
    [ComparisonContracts], [ComparisonSnapshot] and [ComparisonResults] (the
    schemas), [ComparisonPairing] ([comparison-pairing.ts]),
    [ComparisonVerdicts] ([comparison-verdict-transitions.ts]),
    [ComparisonMetrics] ([comparison-safety-metrics.ts],
    [comparison-trace-metrics.ts], and what a retained trace counts);
    [ComparisonSelection] ([policy-evaluation-comparison-selection.ts], contract
    and core).  Proofs: [ComparisonKeys] (joined keys are injective, sums of
    counts are exact), [ComparisonPairingProofs], [ComparisonTransport]
    (matrices of transitions), [ComparisonVerdictProofs],
    [ComparisonMetricProofs],
    [ComparisonWitnesses].

    Release decisions: [ReviewerMatching] (the Hungarian loop with its arrays,
    [match-reviewer-groups.ts]), [ReviewerAssignment] and
    [ReviewerMatchingProofs]; [ExactArithmetic] and [ExactArithmeticProofs]
    ([comparison-exact-arithmetic.ts]); [PolicyExactArithmetic].

    Rules and decisions: [ReleasePolicyRules] (rules and predicates,
    [release-policy.ts]), [PolicyProjection] (the frozen input of one rule,
    [policy-evaluation-snapshot-rules.ts]), [PolicyRuleResult] (results with
    their consistency and size, [policy-evaluation-result.ts]),
    [PolicyPredicate] ([evaluatePolicyPredicateProjection]),
    [ReleaseDecisionContracts] and [ReleaseDecisionEncoding] (inputs, findings
    and decisions, and the JSON they are encoded as), [ReleaseDecision]
    ([classify-release-rule.ts], [derive-release-disposition.ts]).  Proofs:
    [PolicyRuleResultProofs] (the size of an encoding from its shape: no
    consistent result exceeds its ceiling), [PolicyPredicateProofs] (with the
    conversion of event counts), [ReleaseDecisionProofs];
    [DecisionWitnesses].

    Identity of definitions: [CanonicalJson] (the encoder with its key cache, the
    text of numbers and both UTF-8 paths), [PolicySources] (source references and
    their keys), [DefinitionEncoders] (the encoders of policy-evaluation requests
    and jobs, decision inputs and decisions).  Proofs:
    [CanonicalJsonProofs] (the text is the printed normal form and can be read
    back), [CanonicalIdentity] (UTF-8 and bytes), [DefinitionIdentity] (the class
    [Identified] of encodings that determine a record, its instances, and the
    text of an instant),
    [DefinitionEncodingProofs].

    Durable replay: the contracts [ReplayPlan], [ReplayJob], [ReplayAccounting],
    [ReplayJobSnapshot]; the pure transitions [ReplayJobState], [ReplayRetry],
    [ReplayBudget], [ReplayJobOutbox]; the repository
    [MemoryReplayJobRepository] (a state monad over [MemoryState]; a method that
    awaits the plan repository is a [_lookup] and a commit); the use cases
    [ReplayJobControl], proved against the class [ReplayJobControlRepository],
    which the in-memory repository implements.  Proofs: [ReplayJobStateProofs],
    [ReplayJobSnapshotProofs], [MemoryReplayJobProofs], [ReplayRepositorySystem]
    (calls that interleave between lookup and commit, and fencing),
    [ReplayIdempotence].  [Samples] and [Witnesses] hold
    concrete inputs.

    ** What the theorems show

    - The replay repository as a concurrent system: however the admissible calls
      it served interleaved, stored jobs satisfy the snapshot contract
      ([reachable_snapshots_valid]), histories only grow
      ([history_append_only]), plans looked up before an [await] are still
      current ([pending_plans_current]), the publication queue holds each due
      intent once ([publication_exact]), calls are isolated and a failed one
      changes nothing; a command repeated at once answers again
      ([repeated_command_answers_again]); on memories whose jobs satisfy the
      contract the adapter implements the port ([memory_keeps_contract]).
    - Fencing, in both schedulers: an old fence is refused for ever
      ([superseded_worker_fenced], [superseded_fence_refused]) and a worker call
      needs the current, unexpired lease ([worker_call_needs_lease],
      [worker_call_in_time]).
    - The policy scheduler: the parse that ends each transition never refuses,
      but for sealing with an outstanding acquisition ([scheduler_keeps_contract]), executions only advance
      ([job_only_advances]), an overdue job can always be ended
      ([overdue_job_ends]), the history rebuilds the job ([history_replays]),
      instants are exact ([add_milliseconds_exact]).
    - The policy repository: of its own revalidation only the byte ceilings can
      refuse what the scheduler accepts ([accepted_transition_commits]) or a page
      it retains; the whole history of a job is retained in pages and rebuilds
      the job
      ([stored_history_complete], [history_pages_read_back]); the history is
      finite ([job_history_finite]) and a request keeps its one job
      ([request_keeps_its_job]).
    - The policy use cases return only what an authorized caller asked for,
      whatever a repository answers ([policy_control_sound],
      [policy_worker_sound]), and never reject what the in-memory one answers
      ([memory_keeps_policy_contract]).
    - Comparison: pairing answers exactly for evidence that belongs together
      ([pairing_answers]) and classifies each fixture exactly
      ([pairing_cases_exact], [comparability_exact]); transitions are written
      only where the counts determine them ([aggregate_transitions_unique]) and
      balance with the marginals ([verdict_transitions_balance]); count metrics
      are exact ([safety_metrics_exact], [trace_metrics_exact]).
    - Ledgers: committed budget stays within limits and equals what the open and
      reconciled reservations are charged; two implementations of the replay of
      a ledger agree, but for fences and identifiers that only one of them
      checks ([ledger_validators_agree]).
    - Decisions: the matching decides quorum and is independent of the order of
      its input; comparison and aggregation are exact on the rationals;
      authorization and delegation grant exactly what they state.
    - Rules: the selection of comparisons is total and determined
      ([comparison_selection_exact]); the evaluation of an accepted projection
      never fails and answers what the evidence decides
      ([predicate_evaluation_exact]).
    - Releases: a rule is satisfied, violated for good or unresolved exactly as
      stated ([classification_exact]), its finding is accepted
      ([classified_finding_accepted]), a release proceeds and is rejected
      exactly under the stated conditions ([release_proceeds_exactly]), and of
      decisions otherwise valid only that disposition is accepted
      ([derived_disposition_accepted]).
    - Identity: encodings determine values up to the order of members and the
      sign of zero ([canonical_bytes_identify]), the hashed object its domain,
      version and scope ([definition_encoding_separates]), policy requests and
      jobs, decision inputs and decisions to their last field
      ([hashed_definitions_separate]), and keys of sources the record they name
      ([source_keys_identify]).

    ** Conventions, bounds and fuel

    A [number] is a [Z]: every number of the modelled records is an integer and
    every schema bounds it by [Number.MAX_SAFE_INTEGER].  A number inside plain
    JSON ([JsNumber]) is any finite one, given by a sign and the digits and the
    exponent of its shortest decimal; that such digits come from a double is not
    required, so the theorems about JSON hold of more values than there are.  Where the code adds numbers before
    it checks the sum, [js_add] rounds the sum as the code's addition does;
    [bigint] is [Z] without a bound.  Zod objects are
    records with the literal fields (versions, algorithm names) left out;
    [null] and absence are [option]; a strict schema is a boolean predicate and
    a failing [parse] throws the contract error.  Where only their
    comparison matters, canonical serializations stand for the values
    ([canonical_bytes_identify] is the reason).  A policy-evaluation instant is
    its whole second and its digits, up to thirty; it is written as the text it
    was read from.  Dates are milliseconds.  Text from users is a list of UTF-16
    code units; identifiers, whose schemas admit ASCII alone, are strings.
    [Number(text)] of a decimal is the nearest double, ties to even.

    Loops whose end is not structural carry fuel that a theorem shows to be
    enough: Euclid's loop (the size of the numbers), the search of the matching
    (one step per column and the sentinel), the back-off loop (the attempt
    number), regular expressions (structural in the text), the canonical encoder
    (its own nesting limit of 64).

    ** Parameters

    SHA-256 digests, integration-event hashes and encoded sizes
    ([PolicyDigests], the hash of [ReplayJobOutbox]); the plan lookup
    ([ReplayDefinitionRepository]); Unicode normalization
    ([UnicodeNormalization]); the host's UTF-8 encoder, where there is one
    ([NativeTextEncoder], which is assumed to encode scalar text as UTF-8); the
    caller's clock, which the callers pass as an argument.  Of the digests,
    [accepted_transition_commits] assumes that they are SHA-256 in hexadecimal.
    The sizes of history entries and pages ([entryBytes], [pageBytes]) stand for
    those of the repository's own canonical encoding, which is modelled for
    other records but not for these; no theorem assumes that they stay below
    their ceilings, and those that read them say what happens on both sides.

    ** Not modelled

    PostgreSQL, S3 and HTTP adapters (their meaning is the server's), OTLP
    decoding, cookies and cryptography, the web interface, and the schemas of
    evidence, evaluation and assurance records that carry no state, and with them
    the 33 encoders of [evaluation-definition-encoding.ts] that parse them (what
    they share, [encodeDefinition], is modelled).  Of policy
    evaluation, the acquisition of evidence and its budget, reading candidate
    members and rule projections from retained records, the publication of
    snapshots and results, the start of a computation and the copying of a
    repository ([fork]); of comparison, the numeric, usage, coverage, assurance
    and artifact metrics and the assembled result; of release decisions, the
    captured approvals and exceptions that give the state of a review, the
    authority snapshot, and publication; of durable replay, the target runtime
    and its boundary resolver.  In the stores, the order of the keys of a
    JSON object is not represented, so [sameJson] compares values.  The
    [completedAt] of an evaluation run is an instant in UTC, where the schema
    also admits offsets; it is only compared for equality.

    ** What modelling showed

    [claimJob] of the in-memory replay repository refuses a used attempt id but
    not a used lease id, [completeJob] accepts [cancelled] for a job nobody asked
    to cancel, and acknowledgements are appended in call order: in each case the
    stored job violates the snapshot contract ([Witnesses]).  The theorems about
    the repository exclude exactly these three commands ([admissible]) and take
    a clock that does not go back.  Sealing a policy job
    while an acquisition is outstanding fails with the raw contract error rather
    than the scheduler's own; the publishing use case tests for it first. *)

From stdpp Require Export base tactics decidable option list numbers strings.
From stdpp Require sorting.
From Stdlib Require Export ZArith Lia.

#[global] Open Scope Z_scope.

(** ** JavaScript exceptions as values

    A function that may [throw] returns a [result]: the value it returns, or
    the exception that escapes from it. *)

Inductive result (E A : Type) : Type :=
| Ok (a : A)
| Throw (e : E).
Arguments Ok {E A} a.
Arguments Throw {E A} e.

#[global] Instance result_ret {E} : MRet (result E) := fun A a => Ok a.
#[global] Instance result_bind {E} : MBind (result E) := fun A B f m =>
  match m with Ok a => f a | Throw e => Throw e end.

(** [if (condition) throw error;] *)
Definition reject_when {E} (condition : bool) (error : E) : result E unit :=
  if condition then Throw error else Ok tt.

(** [Schema.parse(value)]: the value itself when the schema accepts it. *)
Definition parse_with {E A} (error : E) (accepts : A -> bool) (value : A) : result E A :=
  if accepts value then Ok value else Throw error.

Definition is_ok {E A} (m : result E A) : bool :=
  match m with Ok _ => true | Throw _ => false end.

(** Monadic map and left fold, in the order a [for] loop visits the items. *)
Fixpoint map_result {E A B} (f : A -> result E B) (l : list A) : result E (list B) :=
  match l with
  | [] => Ok []
  | x :: l => y ← f x; ys ← map_result f l; Ok (y :: ys)
  end.

Fixpoint fold_result {E A S} (f : S -> A -> result E S) (s : S) (l : list A) : result E S :=
  match l with
  | [] => Ok s
  | x :: l => s' ← f s x; fold_result f s' l
  end.

(** ** The comparison operators of the source *)

Declare Scope js_scope.
Delimit Scope js_scope with js.
Notation "x === y" := (bool_decide (x = y)) (at level 70, no associativity) : js_scope.
Notation "x !== y" := (negb (bool_decide (x = y))) (at level 70, no associativity) : js_scope.
#[global] Open Scope js_scope.

(** ** Numbers

    Every number of the modelled code that is not a [bigint] is compared with
    the safe-integer range before it is used, so a number is an integer here,
    and [js_round] is the rounding to the nearest double (ties to even) that
    an addition or subtraction of two safe integers can still undergo. *)

Definition MAX_SAFE_INTEGER : Z := 9007199254740991.

Definition isSafeInteger (value : Z) : bool :=
  (- MAX_SAFE_INTEGER <=? value) && (value <=? MAX_SAFE_INTEGER).

Definition round_magnitude (m : Z) : Z :=
  if m <? 2 ^ 53 then m else
  let ulp := 2 ^ (Z.log2 m - 52) in
  let q := m / ulp in
  let r := m mod ulp in
  if 2 * r <? ulp then q * ulp
  else if ulp <? 2 * r then (q + 1) * ulp
  else if Z.even q then q * ulp else (q + 1) * ulp.

Definition js_round (value : Z) : Z :=
  if value <? 0 then - round_magnitude (- value) else round_magnitude value.

Definition js_add (left right : Z) : Z := js_round (left + right).
Definition js_sub (left right : Z) : Z := js_round (left - right).

(** ** Lemmas on the monad *)

Section result_lemmas.
Context {E A B : Type}.
Implicit Types (m : result E A) (f : A -> result E B).

Lemma bind_Ok m f b : (m ≫= f) = Ok b <-> exists a, m = Ok a /\ f a = Ok b.
Proof. destruct m; unfold mbind, result_bind; naive_solver. Qed.

Lemma bind_Throw m f e :
  (m ≫= f) = Throw e <-> m = Throw e \/ exists a, m = Ok a /\ f a = Throw e.
Proof. destruct m; unfold mbind, result_bind; naive_solver. Qed.

Lemma reject_when_Ok (c : bool) (e : E) u : reject_when c e = Ok u <-> c = false.
Proof. destruct c, u; unfold reject_when; naive_solver. Qed.

Lemma reject_when_Throw (c : bool) (e e' : E) :
  reject_when c e = Throw e' <-> c = true /\ e' = e.
Proof. destruct c; unfold reject_when; naive_solver. Qed.

Lemma parse_with_Ok (e : E) (ok : A -> bool) x y :
  parse_with e ok x = Ok y <-> ok x = true /\ y = x.
Proof. unfold parse_with; destruct (ok x); naive_solver. Qed.

Lemma parse_with_Throw (e e' : E) (ok : A -> bool) x :
  parse_with e ok x = Throw e' <-> ok x = false /\ e' = e.
Proof. unfold parse_with; destruct (ok x); naive_solver. Qed.

Lemma is_ok_true m : is_ok m = true <-> exists a, m = Ok a.
Proof. destruct m; naive_solver. Qed.
End result_lemmas.

Lemma map_result_Forall2 {E A B} (f : A -> result E B) l k :
  map_result f l = Ok k <-> Forall2 (fun x y => f x = Ok y) l k.
Proof.
  revert k; induction l as [|x l IH]; intros k; simpl.
  { split; [intros [= <-]; constructor | by inversion 1]. }
  rewrite bind_Ok. setoid_rewrite bind_Ok. split.
  - intros (y & Hy & ys & Hys & [= <-]). constructor; [done | by apply IH].
  - inversion 1 as [|? y ? ys Hy Hys]; subst. exists y; split; [done|].
    exists ys; split; [by apply IH | done].
Qed.

(** Inputs and outputs of a successful map. *)
Lemma map_result_in {E A B} (f : A -> result E B) l k x :
  map_result f l = Ok k -> x ∈ l -> exists y, y ∈ k /\ f x = Ok y.
Proof.
  intros Hm%map_result_Forall2 [i Hi]%list_elem_of_lookup.
  destruct (Forall2_lookup_l _ _ _ _ _ Hm Hi) as (y & Hy & Hf). exists y. split; [|done].
  by eapply list_elem_of_lookup_2.
Qed.

Lemma map_result_out {E A B} (f : A -> result E B) l k y :
  map_result f l = Ok k -> y ∈ k -> exists x, x ∈ l /\ f x = Ok y.
Proof.
  intros Hm%map_result_Forall2 [i Hi]%list_elem_of_lookup.
  destruct (Forall2_lookup_r _ _ _ _ _ Hm Hi) as (x & Hx & Hf). exists x. split; [|done].
  by eapply list_elem_of_lookup_2.
Qed.

Lemma fold_result_app {E A S} (f : S -> A -> result E S) s l k :
  fold_result f s (l ++ k) = (s' ← fold_result f s l; fold_result f s' k).
Proof.
  revert s; induction l as [|x l IH]; intros s; simpl; [done|].
  unfold mbind, result_bind in *. destruct (f s x); [apply IH | done].
Qed.

(** ** Automation

    [breflect] turns the boolean guards of the source into propositions;
    [inv_ok] takes a successful run of a monadic definition apart, one bind,
    guard or schema validation at a time. *)



Create Rewrite HintDb breflect.

#[export] Hint Rewrite andb_true_iff orb_true_iff negb_true_iff
  andb_false_iff orb_false_iff negb_false_iff
  Z.leb_le Z.ltb_lt Z.leb_gt Z.ltb_ge Z.eqb_eq Z.eqb_neq
  @bool_decide_eq_true @bool_decide_eq_false : breflect.

Ltac breflect := autorewrite with breflect in *.

Ltac inv_ok_step :=
  match goal with
  | H : (_ ≫= _) = Ok _ |- _ => apply bind_Ok in H as (? & ? & H)
  | H : reject_when _ _ = Ok _ |- _ => apply reject_when_Ok in H
  | H : parse_with _ _ _ = Ok _ |- _ => apply parse_with_Ok in H as [? ?]
  | H : mret _ = Ok _ |- _ => unfold mret, result_ret in H
  | H : Ok _ = Ok _ |- _ => injection H as H
  | H : Throw _ = Ok _ |- _ => discriminate H
  | H : Ok _ = Throw _ |- _ => discriminate H
  | H : (?x, ?y) = (_, _) |- _ => injection H as ? ?
  | H : _ /\ _ |- _ => destruct H
  | x : unit |- _ => destruct x
  | _ => progress subst
  end.

Ltac inv_ok := repeat inv_ok_step.

(** A [bind] whose first computation is known to succeed. *)
Lemma bind_known {E A B} (m : result E A) (f : A -> result E B) a :
  m = Ok a -> (m ≫= f) = f a.
Proof. by intros ->. Qed.

Lemma reject_known {E} (c : bool) (e : E) : c = false -> reject_when c e = Ok tt.
Proof. by intros ->. Qed.

Lemma parse_known {E A} (e : E) (ok : A -> bool) x : ok x = true -> parse_with e ok x = Ok x.
Proof. unfold parse_with. by intros ->. Qed.

(** ** Lemmas on numbers *)

Lemma isSafeInteger_spec v :
  isSafeInteger v = true <-> - MAX_SAFE_INTEGER <= v <= MAX_SAFE_INTEGER.
Proof. unfold isSafeInteger. breflect. lia. Qed.

Lemma round_magnitude_small m : m < 2 ^ 53 -> round_magnitude m = m.
Proof. intros H. unfold round_magnitude. by rewrite (proj2 (Z.ltb_lt _ _) H). Qed.

Lemma round_magnitude_large m : 2 ^ 53 <= m -> 2 ^ 53 <= round_magnitude m.
Proof.
  intros H. unfold round_magnitude. rewrite (proj2 (Z.ltb_ge _ _) H).
  assert (Hl : 53 <= Z.log2 m) by (apply Z.log2_le_pow2; lia).
  set (u := 2 ^ (Z.log2 m - 52)).
  assert (Hu : 0 < u) by (apply Z.pow_pos_nonneg; lia).
  assert (Hq : 2 ^ 52 <= m / u).
  { apply Z.div_le_lower_bound; [lia|]. unfold u.
    rewrite <- Z.pow_add_r by lia. replace (Z.log2 m - 52 + 52) with (Z.log2 m) by lia.
    apply Z.log2_spec. lia. }
  assert (H2 : 2 <= u).
  { unfold u. replace 2 with (2 ^ 1) at 1 by lia. apply Z.pow_le_mono_r; lia. }
  assert (2 ^ 53 = 2 ^ 52 * 2) by lia.
  assert (2 ^ 53 <= m / u * u) by nia.
  repeat case_match; nia.
Qed.

Lemma js_round_exact v : Z.abs v <= MAX_SAFE_INTEGER + 1 -> js_round v = v.
Proof.
  unfold js_round, MAX_SAFE_INTEGER. intros H.
  destruct (Z.ltb_spec v 0).
  - destruct (decide (v = - 2 ^ 53)) as [->|]; [reflexivity|].
    rewrite round_magnitude_small; lia.
  - destruct (decide (v = 2 ^ 53)) as [->|]; [reflexivity|].
    rewrite round_magnitude_small; lia.
Qed.

(** Rounding never brings an unsafe integer back into the safe range. *)
Lemma js_round_safe v : isSafeInteger (js_round v) = isSafeInteger v.
Proof.
  apply eq_true_iff_eq. rewrite !isSafeInteger_spec.
  destruct (decide (Z.abs v <= MAX_SAFE_INTEGER + 1)) as [H|H];
    [by rewrite js_round_exact|].
  unfold js_round, MAX_SAFE_INTEGER in *. destruct (Z.ltb_spec v 0).
  - pose proof (round_magnitude_large (- v)). lia.
  - pose proof (round_magnitude_large v). lia.
Qed.

Lemma js_add_exact a b : Z.abs (a + b) <= MAX_SAFE_INTEGER + 1 -> js_add a b = a + b.
Proof. apply js_round_exact. Qed.

Lemma js_sub_exact a b : Z.abs (a - b) <= MAX_SAFE_INTEGER + 1 -> js_sub a b = a - b.
Proof. apply js_round_exact. Qed.

(** An addition that overflows the safe range is seen to overflow. *)
Lemma js_add_gt a b : (MAX_SAFE_INTEGER <? js_add a b) = (MAX_SAFE_INTEGER <? a + b).
Proof.
  apply eq_true_iff_eq. breflect.
  destruct (decide (Z.abs (a + b) <= MAX_SAFE_INTEGER + 1)) as [H|H];
    [by rewrite js_add_exact|].
  unfold js_add, js_round, MAX_SAFE_INTEGER in *. destruct (Z.ltb_spec (a + b) 0).
  - pose proof (round_magnitude_large (- (a + b))). lia.
  - pose proof (round_magnitude_large (a + b)). lia.
Qed.

(** ** Lemmas on lists *)

(** The sum of [f] over a list. *)
Definition sum_by {A} (f : A -> Z) (l : list A) : Z := foldr (fun x acc => f x + acc) 0 l.

Lemma sum_by_app {A} (f : A -> Z) l k : sum_by f (l ++ k) = sum_by f l + sum_by f k.
Proof. induction l as [|x l IH]; simpl; [done|]. rewrite IH. lia. Qed.

Lemma sum_by_ext {A} (f g : A -> Z) l :
  (forall x, x ∈ l -> f x = g x) -> sum_by f l = sum_by g l.
Proof.
  induction l as [|x l IH]; intros H; simpl; [done|].
  rewrite (H x) by constructor. rewrite IH; [done|]. intros y Hy. apply H. by constructor.
Qed.

Lemma sum_by_nonneg {A} (f : A -> Z) l : (forall x, x ∈ l -> 0 <= f x) -> 0 <= sum_by f l.
Proof.
  induction l as [|x l IH]; intros H; simpl; [done|].
  assert (0 <= f x) by (apply H; constructor).
  assert (0 <= sum_by f l) by (apply IH; intros y Hy; apply H; by constructor). lia.
Qed.

Lemma sum_by_zero {A} (f : A -> Z) l : (forall x, x ∈ l -> f x = 0) -> sum_by f l = 0.
Proof.
  induction l as [|x l IH]; intros H; simpl; [done|].
  rewrite (H x) by constructor. apply IH. intros y Hy. apply H. by constructor.
Qed.

Lemma sum_by_elem_le {A} (f : A -> Z) l x :
  (forall y, y ∈ l -> 0 <= f y) -> x ∈ l -> f x <= sum_by f l.
Proof.
  induction l as [|y l IH]; intros Hf Hx; [by apply elem_of_nil in Hx|]. simpl.
  assert (0 <= f y) by (apply Hf; constructor).
  assert (0 <= sum_by f l) by (apply sum_by_nonneg; intros z Hz; apply Hf; by constructor).
  apply elem_of_cons in Hx as [->|Hx]; [lia|].
  assert (f x <= sum_by f l) by (apply IH; [intros z Hz; apply Hf; by constructor|done]). lia.
Qed.

Lemma sum_by_perm {A} (f : A -> Z) l k : l ≡ₚ k -> sum_by f l = sum_by f k.
Proof. induction 1; simpl; lia. Qed.

Lemma sum_by_fmap {A B} (g : A -> B) (f : B -> Z) l : sum_by f (g <$> l) = sum_by (fun x => f (g x)) l.
Proof. induction l as [|x l IH]; csimpl; [done|]. by rewrite IH. Qed.

Lemma sum_by_add {A} (f g : A -> Z) l : sum_by (fun x => f x + g x) l = sum_by f l + sum_by g l.
Proof. induction l as [|x l IH]; simpl; [done|]. rewrite IH. lia. Qed.

Lemma sum_by_le {A} (f g : A -> Z) l :
  (forall x, x ∈ l -> f x <= g x) -> sum_by f l <= sum_by g l.
Proof.
  induction l as [|x l IH]; intros H; simpl; [done|].
  assert (f x <= g x) by (apply H; constructor).
  assert (sum_by f l <= sum_by g l) by (apply IH; intros y Hy; apply H; by constructor). lia.
Qed.

(** Changing [f] at the one element with a given key. *)
Lemma sum_by_update {A K} (key : A -> K) (f g : A -> Z) l x :
  NoDup (key <$> l) -> x ∈ l -> (forall y, y ∈ l -> key y <> key x -> g y = f y) ->
  sum_by g l = sum_by f l - f x + g x.
Proof.
  induction l as [|y l IH]; intros Hnd Hx Hg; [by apply elem_of_nil in Hx|].
  simpl in *. apply NoDup_cons in Hnd as [Hy Hnd].
  apply elem_of_cons in Hx as [->|Hx].
  - rewrite (sum_by_ext g f l); [lia|]. intros z Hz. apply Hg; [by constructor|].
    intros He. apply Hy. rewrite <- He. apply list_elem_of_fmap. eauto.
  - rewrite IH; [|done|done|intros z Hz; apply Hg; by constructor].
    rewrite (Hg y); [lia|constructor|]. intros He. apply Hy. rewrite He.
    apply list_elem_of_fmap. eauto.
Qed.

Lemma forallb_Forall {A} (p : A -> bool) l : forallb p l = true <-> Forall (fun x => p x = true) l.
Proof.
  rewrite forallb_forall, Forall_forall. by setoid_rewrite list_elem_of_In.
Qed.

Lemma forallb_perm {A} (p : A -> bool) l k : l ≡ₚ k -> forallb p l = forallb p k.
Proof. induction 1; simpl; [done|congruence| |congruence]. destruct (p x), (p y); done. Qed.

(** [values.includes(value)] *)
Definition includes {A} `{EqDecision A} (values : list A) (value : A) : bool :=
  existsb (fun v => v === value) values.

Lemma includes_true {A} `{EqDecision A} (l : list A) x : includes l x = true <-> x ∈ l.
Proof.
  unfold includes. rewrite existsb_exists. split.
  - intros (y & Hy & He). apply bool_decide_eq_true in He as ->. by apply list_elem_of_In.
  - intros Hx. exists x. split; [by apply list_elem_of_In|]. by apply bool_decide_eq_true.
Qed.

Lemma includes_false {A} `{EqDecision A} (l : list A) x : includes l x = false <-> x ∉ l.
Proof. rewrite <- not_true_iff_false, includes_true. done. Qed.

(** [entries.entries()] *)
Definition indexed {A} (entries : list A) : list (nat * A) := imap pair entries.

Lemma indexed_snoc {A} (l : list A) x : indexed (l ++ [x]) = indexed l ++ [(length l, x)].
Proof. unfold indexed. rewrite imap_app. simpl. by rewrite Nat.add_0_r. Qed.

Lemma indexed_lookup {A} (l : list A) i : indexed l !! i = pair i <$> l !! i.
Proof. unfold indexed. by rewrite list_lookup_imap. Qed.

(** [List.find] on a key. *)
Lemma find_Some_key {A} (p : A -> bool) l x :
  List.find p l = Some x -> x ∈ l /\ p x = true.
Proof. intros [? ?]%List.find_some. split; [by apply list_elem_of_In|done]. Qed.

Lemma find_None_key {A} (p : A -> bool) l :
  List.find p l = None <-> forall x, x ∈ l -> p x = false.
Proof.
  split.
  - intros H x Hx. eapply List.find_none; [done|]. by apply list_elem_of_In.
  - induction l as [|y l IH]; intros H; simpl; [done|].
    rewrite (H y) by constructor. apply IH. intros x Hx. apply H. by constructor.
Qed.

Lemma find_app_key {A} (p : A -> bool) l k :
  List.find p (l ++ k) = match List.find p l with Some x => Some x | None => List.find p k end.
Proof. induction l as [|y l IH]; simpl; [done|]. by destruct (p y). Qed.

(** A check over the items of a list and their positions finds nothing. *)
Lemma existsb_indexed {A} (p : nat * A -> bool) l :
  existsb p (indexed l) = false <-> forall i x, l !! i = Some x -> p (i, x) = false.
Proof.
  split.
  - intros H i x Hx. apply not_true_iff_false. intros Hp.
    apply not_true_iff_false in H. apply H, existsb_exists. exists (i, x). split; [|done].
    apply list_elem_of_In, (list_elem_of_lookup_2 _ i). by rewrite indexed_lookup, Hx.
  - intros H. apply not_true_iff_false. intros ([i x] & Hin & Hp)%existsb_exists.
    apply list_elem_of_In, list_elem_of_lookup in Hin as [j Hj].
    rewrite indexed_lookup in Hj. destruct (l !! j) as [y|] eqn:Hy; [|discriminate].
    injection Hj as -> ->. by rewrite (H _ _ Hy) in Hp.
Qed.

Lemma NoDup_omap {A B} (f : A -> option B) l :
  NoDup l -> (forall x y z, x ∈ l -> y ∈ l -> f x = Some z -> f y = Some z -> x = y) ->
  NoDup (omap f l).
Proof.
  induction 1 as [|x l Hx Hl IH]; intros Hf; csimpl; [constructor|].
  assert (IH' : NoDup (omap f l)).
  { apply IH. intros y y' z Hy Hy'. apply Hf; by right. }
  destruct (f x) as [z|] eqn:E; [|done]. apply NoDup_cons. split; [|done].
  intros (y & Hy & Ez)%list_elem_of_omap. apply Hx.
  by rewrite (Hf x y z ltac:(left) ltac:(by right) E Ez).
Qed.

(** With unique keys, looking an element up by its key finds it. *)
Lemma find_unique {A K} `{EqDecision K} (key : A -> K) l x :
  NoDup (key <$> l) -> x ∈ l -> List.find (fun y => bool_decide (key y = key x)) l = Some x.
Proof.
  induction l as [|y l IH]; simpl; intros Hnd Hx; [by apply elem_of_nil in Hx|].
  apply NoDup_cons in Hnd as [Hy Hnd]. apply elem_of_cons in Hx as [->|Hx].
  - by rewrite bool_decide_eq_true_2.
  - rewrite bool_decide_eq_false_2; [by apply IH|]. intros He. apply Hy. rewrite He.
    apply list_elem_of_fmap. eauto.
Qed.

(** Unique keys name one element. *)
Lemma key_unique {A K} (key : A -> K) l x y :
  NoDup (key <$> l) -> x ∈ l -> y ∈ l -> key x = key y -> x = y.
Proof.
  intros Hnd [i Hi]%list_elem_of_lookup [j Hj]%list_elem_of_lookup E.
  assert (i = j); [|congruence].
  eapply NoDup_lookup; [exact Hnd|by rewrite list_lookup_fmap, Hi|by rewrite list_lookup_fmap, Hj, E].
Qed.

Lemma last_elem_of {A} (l : list A) x : last l = Some x -> x ∈ l.
Proof. rewrite last_lookup. apply list_elem_of_lookup_2. Qed.

(** ** Strings in order *)

(** [<] on strings: code units, which are bytes for identifiers. *)
Definition string_lt (left right : string) : bool :=
  match String.compare left right with Lt => true | _ => false end.

Lemma string_lt_asym left right : string_lt left right = true -> string_lt right left = false.
Proof. unfold string_lt. rewrite (String.compare_antisym right left). by destruct (left ?= right)%string. Qed.

Lemma string_lt_compare left right : string_lt left right = true <-> String.compare left right = Lt.
Proof. unfold string_lt. destruct (String.compare left right); naive_solver. Qed.

(** The order in which [sort] leaves two items with these keys. *)
Definition key_le {A} (key : A -> string) (left right : A) : Prop :=
  string_lt (key right) (key left) = false.

#[global] Instance key_le_dec {A} (key : A -> string) : RelDecision (key_le key).
Proof. intros l r. unfold key_le. apply _. Defined.

(** [values.sort((l, r) => key(l) < key(r) ? -1 : key(l) > key(r) ? 1 : 0)]: a stable sort. *)
Definition sort_by {A} (key : A -> string) (values : list A) : list A :=
  sorting.merge_sort (key_le key) values.

Lemma sort_by_perm {A} (key : A -> string) l : sort_by key l ≡ₚ l.
Proof. apply sorting.merge_sort_Permutation. Qed.

Lemma key_le_spec {A} (key : A -> string) l r : key_le key l r <-> strings.String.le (key l) (key r).
Proof.
  unfold key_le, string_lt, strings.String.le, String.leb.
  rewrite (String.compare_antisym (key l) (key r)).
  destruct (String.compare (key r) (key l)); simpl; naive_solver.
Qed.

#[global] Instance key_le_trans {A} (key : A -> string) : Transitive (key_le key).
Proof. intros x y z. rewrite !key_le_spec. apply transitivity. Qed.

#[global] Instance key_le_total {A} (key : A -> string) : Total (key_le key).
Proof. intros x y. rewrite !key_le_spec. apply total, _. Qed.

(** With unique keys the order of the input does not matter. *)
Lemma sort_by_unique {A} (key : A -> string) l k :
  l ≡ₚ k -> NoDup (key <$> l) -> sort_by key l = sort_by key k.
Proof.
  intros E Hnd. apply (sorting.Sorted_unique_strong (key_le key)).
  - intros x y Hx Hy. rewrite !key_le_spec. intros H1 H2.
    rewrite sort_by_perm in Hx. rewrite sort_by_perm, <- E in Hy.
    apply (key_unique key l); [done|done|done|]. by apply (anti_symm strings.String.le).
  - apply sorting.Sorted_merge_sort. apply _.
  - apply sorting.Sorted_merge_sort. apply _.
  - by rewrite !sort_by_perm.
Qed.

(** ** Arrays read with a default, and counted loops *)

(** [array[index] ?? fallback] *)
Definition read {A} (fallback : A) (array : list A) (index : nat) : A :=
  default fallback (array !! index).

Lemma read_insert_eq {A} (d : A) l i x : (i < length l)%nat -> read d (<[i:=x]> l) i = x.
Proof. intros H. unfold read. by rewrite list_lookup_insert_eq. Qed.

Lemma read_insert_ne {A} (d : A) l i j x : i <> j -> read d (<[i:=x]> l) j = read d l j.
Proof. intros H. unfold read. by rewrite list_lookup_insert_ne. Qed.

Lemma read_replicate {A} (d : A) n i : read d (replicate n d) i = d.
Proof.
  unfold read. destruct (replicate n d !! i) eqn:H; [|done]. by apply lookup_replicate in H as [-> _].
Qed.

(** [for (let i = first; i < first + count; i += 1) s = body(s, i);] *)
Definition for_range {S} (first count : nat) (body : S -> nat -> S) (s : S) : S :=
  foldl body s (seq first count).

(** An invariant of the iterations done so far. *)
Lemma for_range_ind {S} (P : nat -> S -> Prop) first count (body : S -> nat -> S) s :
  P first s ->
  (forall i t, (first <= i < first + count)%nat -> P i t -> P (Datatypes.S i) (body t i)) ->
  P (first + count)%nat (for_range first count body s).
Proof.
  unfold for_range. revert first s. induction count as [|n IH]; intros first s H0 Hs; simpl.
  - by rewrite Nat.add_0_r.
  - rewrite <- Nat.add_succ_comm. apply IH.
    + apply Hs; [lia|done].
    + intros i t Hi. apply Hs. lia.
Qed.
