(* ===== verification/Errors.v ===== *)
(** * The exceptions of the modelled packages

    [packages/replay/src/errors.ts], [packages/core/src/errors.ts] and the
    error classes declared next to the functions that throw them.  A class
    whose instances only differ in a code is a constructor over that code;
    [ZodError] is what a contract schema's [parse] throws, [TypeError] and
    [PlainError] are the language's own errors (messages are not modelled). *)

From S2P Require Import Prelude.

Inductive DurableReplayStateErrorCode : Type :=
| attempt_limit_reached
| cancellation_conflict
| cancellation_required
| counter_exhausted
| effect_uncertain
| invalid_attempt_state
| invalid_lease_duration
| lease_active
| lease_expired
| stale_fence
| state_conflict.

Inductive DurableReplayAccountingErrorCode : Type :=
| accounting_conflict
| arithmetic_overflow
| duplicate_entry
| invalid_amounts
| invalid_budget
| invalid_usage
| ledger_order
| missing_reservation.

Inductive RecordedBoundaryTargetContractErrorCode : Type :=
| invalid_boundary_request
| duplicate_boundary_request_id
| resolver_closed.

Inductive RecordedBoundaryMismatchCode : Type :=
| extra_boundary_request
| wrong_boundary_kind
| wrong_adapter_name
| wrong_adapter_version
| normalized_request_digest_mismatch.

Inductive RecordedBoundaryRuntimeControlErrorCode : Type :=
| random_request_out_of_range
| random_budget_exhausted
| runtime_controls_closed.

Inductive ComparisonExactArithmeticErrorCode : Type :=
| empty_sample
| invalid_aggregation
| invalid_value
| mixed_units
| result_out_of_bounds
| sample_limit_exceeded.

Inductive ComparisonPairingErrorCode : Type :=
| comparison_reference_mismatch
| dataset_reference_mismatch
| invalid_comparison_definition
| invalid_evidence_snapshot
| role_mismatch
| scope_mismatch
| snapshot_subject_mismatch.

Inductive PolicyNumericInputErrorCode : Type :=
| invalid_basis_points
| invalid_comparator
| invalid_count
| invalid_population
| invalid_probability_bound
| invalid_threshold
| invalid_unit
| policy_invalid_value
| policy_mixed_units.

(** [PolicyEvaluationSchedulerTransitionError.reason] *)
Inductive PolicyEvaluationSchedulerTransitionReason : Type :=
| transition_state_conflict
| transition_deadline_reached
| transition_retry_not_ready
| transition_retries_exhausted
| transition_stale_fence
| transition_lease_expired
| transition_identifier_reused
| transition_counter_exhausted
| transition_heartbeat_not_ready
| transition_empty_reservation
| transition_budget_exhausted.

Inductive PolicyEvaluationComparisonSelectionErrorCode : Type :=
| candidate_inventory_mismatch
| captured_observation_invalid
| selection_invalid_candidate
| selection_invalid_policy
| selection_invalid_request
| policy_comparison_reference_conflict
| root_not_yet_available
| root_reference_mismatch
| root_scope_mismatch
| selection_contract_invalid.

Inductive exn : Type :=
| ZodError
| TypeError
| RangeError
| PlainError
| DurableReplayStateError (code : DurableReplayStateErrorCode)
| DurableReplayAccountingError (code : DurableReplayAccountingErrorCode)
| ReplayDefinitionLineageError
| ReplayRepositoryContractError
| ReplayJobConflictError
| ReplayJobNotFoundError
| InvalidReplayJobInputError
| ForbiddenError
| RecordedBoundaryTargetContractError (code : RecordedBoundaryTargetContractErrorCode)
| RecordedBoundaryMismatchError (code : RecordedBoundaryMismatchCode)
| RecordedBoundaryRuntimeControlError (code : RecordedBoundaryRuntimeControlErrorCode)
| ComparisonExactArithmeticError (code : ComparisonExactArithmeticErrorCode)
| ComparisonPairingError (code : ComparisonPairingErrorCode)
| PolicyNumericInputError (code : PolicyNumericInputErrorCode)
| PolicyEvaluationComparisonSelectionError (code : PolicyEvaluationComparisonSelectionErrorCode)
| InvalidReviewerGroupGraphError
| InvalidReleaseRuleObservationError
| InvalidReleaseDecisionInventoryError
| PolicyEvaluationSchedulerTransitionError (reason : PolicyEvaluationSchedulerTransitionReason)
| PolicyEvaluationJobHistoryError
| InvalidPolicyEvaluationJobGraphError
| InvalidPolicyEvaluationRequestRecordError
| PolicyEvaluationJobNotFoundError
| PolicyEvaluationRequestConflictError
| PolicyEvaluationCancellationConflictError.

#[global] Instance exn_eq_dec : EqDecision exn.
Proof. unfold EqDecision, Decision. repeat decide equality. Defined.

(** What a modelled function returns. *)
Abbreviation res := (result exn).

(** [XSchema.parse(value)]. *)
Definition parse {A} (accepts : A -> bool) (value : A) : res A :=
  parse_with ZodError accepts value.

Definition state_error {A} (code : DurableReplayStateErrorCode) : res A :=
  Throw (DurableReplayStateError code).

Definition accounting_error {A} (code : DurableReplayAccountingErrorCode) : res A :=
  Throw (DurableReplayAccountingError code).

Lemma parse_Ok {A} (ok : A -> bool) x y : parse ok x = Ok y <-> ok x = true /\ y = x.
Proof. apply parse_with_Ok. Qed.

Lemma parse_accepted {A} (ok : A -> bool) x : ok x = true -> parse ok x = Ok x.
Proof. apply parse_known. Qed.

#[export] Hint Rewrite @parse_Ok : breflect.

(** [run_ok] extends [inv_ok] with the schema validations of this file. *)
Ltac inv_res_step :=
  match goal with
  | H : parse _ _ = Ok _ |- _ => apply parse_Ok in H as [? ?]
  | H : state_error _ = Ok _ |- _ => discriminate H
  | H : accounting_error _ = Ok _ |- _ => discriminate H
  | _ => inv_ok_step
  end.

Ltac inv_res := repeat inv_res_step.
