(* ===== verification/Regex.v ===== *)
(** * Regular expressions

    The contract schemas constrain strings with anchored regular expressions
    ([/^...$/]).  This file gives the fragment they use (character classes,
    sequences, alternatives, stars, bounded repetition) an executable matcher
    by derivatives, and proves it decides the language of the expression, so
    that the schema files can transcribe each pattern as it is written. *)

From S2P Require Import Prelude.
From Stdlib Require Import Ascii.

Inductive re : Type :=
| Empty
| Eps
| Cls (accepts : ascii -> bool)
| Cat (r s : re)
| Alt (r s : re)
| Star (r : re).

(** [[a-z0-9_]] is [one_of [("a","z"); ("0","9"); ("_","_")]]. *)
Definition one_of (ranges : list (ascii * ascii)) : re :=
  Cls (fun c => existsb (fun '(lo, hi) =>
    (N_of_ascii lo <=? N_of_ascii c)%N && (N_of_ascii c <=? N_of_ascii hi)%N) ranges).

Definition chr (c : ascii) : re := one_of [(c, c)].

(** [r{n}], [r{0,n}], [r{m,n}], [r?], [r+]. *)
Fixpoint times (n : nat) (r : re) : re :=
  match n with O => Eps | S n => Cat r (times n r) end.
Fixpoint at_most (n : nat) (r : re) : re :=
  match n with O => Eps | S n => Alt Eps (Cat r (at_most n r)) end.
Definition between (m n : nat) (r : re) : re := Cat (times m r) (at_most (n - m) r).
Definition maybe (r : re) : re := Alt Eps r.
Definition plus (r : re) : re := Cat r (Star r).

(** The language of an expression. *)
Inductive matched : re -> list ascii -> Prop :=
| matched_eps : matched Eps []
| matched_cls p c : p c = true -> matched (Cls p) [c]
| matched_cat r s u v : matched r u -> matched s v -> matched (Cat r s) (u ++ v)
| matched_alt_l r s u : matched r u -> matched (Alt r s) u
| matched_alt_r r s u : matched s u -> matched (Alt r s) u
| matched_star_nil r : matched (Star r) []
| matched_star_cons r u v : matched r u -> matched (Star r) v -> matched (Star r) (u ++ v).

Create HintDb regex.
#[export] Hint Constructors matched : regex.

Lemma matched_cat_inv r s u :
  matched (Cat r s) u -> exists u1 u2, u = u1 ++ u2 /\ matched r u1 /\ matched s u2.
Proof. inversion 1; eauto. Qed.

(** Constructors that keep derivatives small. *)
Definition cat (r s : re) : re :=
  match r with
  | Empty => Empty
  | Eps => s
  | _ => match s with Empty => Empty | _ => Cat r s end
  end.

Definition alt (r s : re) : re :=
  match r, s with
  | Empty, _ => s
  | _, Empty => r
  | _, _ => Alt r s
  end.

Fixpoint nullable (r : re) : bool :=
  match r with
  | Empty => false
  | Eps => true
  | Cls _ => false
  | Cat r s => nullable r && nullable s
  | Alt r s => nullable r || nullable s
  | Star _ => true
  end.

Fixpoint deriv (c : ascii) (r : re) : re :=
  match r with
  | Empty => Empty
  | Eps => Empty
  | Cls p => if p c then Eps else Empty
  | Cat r s =>
      if nullable r then alt (cat (deriv c r) s) (deriv c s) else cat (deriv c r) s
  | Alt r s => alt (deriv c r) (deriv c s)
  | Star r => cat (deriv c r) (Star r)
  end.

Fixpoint matches_list (r : re) (l : list ascii) : bool :=
  match l with
  | [] => nullable r
  | c :: l => matches_list (deriv c r) l
  end.

(** [/^r$/.test(s)] *)
Definition test (r : re) (s : string) : bool := matches_list r (String.list_ascii_of_string s).

(** ** The matcher decides the language *)

Lemma matched_empty u : ~ matched Empty u.
Proof. by inversion 1. Qed.

Lemma matched_cat_iff r s u : matched (cat r s) u <-> matched (Cat r s) u.
Proof.
  unfold cat. split.
  - destruct r; try (destruct s); try done; intros H;
      try (by apply matched_empty in H);
      solve [ change u with ([] ++ u); eauto with regex ].
  - intros (u1 & u2 & -> & H1 & H2)%matched_cat_inv.
    destruct r; try (by inversion H1); try (inversion H1; subst; done);
      destruct s; try done; solve [by inversion H2 | eauto with regex].
Qed.

Lemma matched_alt_iff r s u : matched (alt r s) u <-> matched r u \/ matched s u.
Proof.
  assert (HA : matched (Alt r s) u <-> matched r u \/ matched s u).
  { split; [by inversion 1; subst; auto | intros []; eauto with regex]. }
  unfold alt. destruct r, s; try exact HA;
    pose proof (matched_empty u); tauto.
Qed.

Lemma nullable_spec r : nullable r = true <-> matched r [].
Proof.
  induction r as [| |p|r IHr s IHs|r IHr s IHs|r IHr]; simpl.
  - split; [done | by intros ?%matched_empty].
  - split; eauto with regex.
  - split; [done | by inversion 1].
  - rewrite andb_true_iff, IHr, IHs. split.
    + intros []. change (@nil ascii) with (@nil ascii ++ []). eauto with regex.
    + intros (u1 & u2 & Hu & H1 & H2)%matched_cat_inv.
      symmetry in Hu. apply app_eq_nil in Hu as [-> ->]. done.
  - rewrite orb_true_iff, IHr, IHs. split; [intros []; eauto with regex|].
    inversion 1; subst; auto.
  - split; eauto with regex.
Qed.

Lemma matched_star_head r c u :
  matched (Star r) (c :: u) ->
  exists v w, u = v ++ w /\ matched r (c :: v) /\ matched (Star r) w.
Proof.
  remember (Star r) as rs eqn:Er. remember (c :: u) as cu eqn:Ec.
  intros H. revert r c u Er Ec.
  induction H as [| | | | | |r u1 u2 H1 _ H2 IH2]; intros r' c0 u0 Er Ec; try discriminate.
  injection Er as ->. destruct u1 as [|d u1].
  - simpl in Ec. by apply IH2.
  - simpl in Ec. injection Ec as Hc Hu. subst. eauto 6.
Qed.

Lemma deriv_spec c r u : matched (deriv c r) u <-> matched r (c :: u).
Proof.
  revert u; induction r as [| |p|r IHr s IHs|r IHr s IHs|r IHr]; intros u; simpl.
  - split; by intros ?%matched_empty.
  - split; [by intros ?%matched_empty | by inversion 1].
  - destruct (p c) eqn:Hp; split.
    + inversion 1; subst. eauto with regex.
    + inversion 1; subst. eauto with regex.
    + by intros ?%matched_empty.
    + inversion 1; subst. congruence.
  - assert (HC : matched (cat (deriv c r) s) u <->
        exists v w, u = v ++ w /\ matched r (c :: v) /\ matched s w).
    { rewrite matched_cat_iff. split.
      - intros (u1 & u2 & -> & H1 & H2)%matched_cat_inv. rewrite IHr in H1. eauto.
      - intros (v & w & -> & H1 & H2). rewrite <- IHr in H1. eauto with regex. }
    assert (HD : matched (Cat r s) (c :: u) <->
        (exists v w, u = v ++ w /\ matched r (c :: v) /\ matched s w) \/
        (matched r [] /\ matched s (c :: u))).
    { split.
      - intros (u1 & u2 & Hu & H1 & H2)%matched_cat_inv.
        destruct u1 as [|c' u1]; simpl in *; [right; by subst|].
        injection Hu as -> ->. left; eauto 6.
      - intros [(v & w & -> & H1 & H2)|[H1 H2]].
        + change (c :: v ++ w) with ((c :: v) ++ w). eauto with regex.
        + change (c :: u) with ([] ++ c :: u). eauto with regex. }
    rewrite HD. destruct (nullable r) eqn:Hn.
    + rewrite matched_alt_iff, HC, IHs. apply nullable_spec in Hn. tauto.
    + rewrite HC. assert (~ matched r []).
      { intros H. apply nullable_spec in H. congruence. } tauto.
  - rewrite matched_alt_iff, IHr, IHs. split; [intros []; eauto with regex|].
    inversion 1; subst; auto.
  - rewrite matched_cat_iff. split.
    + intros (u1 & u2 & -> & H1 & H2)%matched_cat_inv. rewrite IHr in H1.
      change (c :: u1 ++ u2) with ((c :: u1) ++ u2). eauto with regex.
    + intros (v & w & -> & H1 & H2)%matched_star_head. rewrite <- IHr in H1. eauto with regex.
Qed.

Lemma matches_list_spec r l : matches_list r l = true <-> matched r l.
Proof.
  revert r; induction l as [|c l IH]; intros r; simpl.
  - apply nullable_spec.
  - rewrite IH. apply deriv_spec.
Qed.

Lemma test_spec r s : test r s = true <-> matched r (String.list_ascii_of_string s).
Proof. apply matches_list_spec. Qed.
