(* ===== verification/BigInts.v ===== *)
(** * Integers of arbitrary size and their decimal text

    [BigInt(text)], [value.toString()], [**] and the Euclidean loop that
    [packages/core/src/evaluation/comparison-exact-arithmetic.ts] and
    [packages/contracts/src/evaluation-comparison.ts] both declare.  A [bigint]
    is an integer. *)

From S2P Require Import Prelude Regex.
From Stdlib Require Import Ascii Znumtheory.

(** ** Decimal digits *)

Definition digit_value (c : ascii) : Z := Z.of_N (N_of_ascii c) - 48.
Definition digit_char (d : Z) : ascii := ascii_of_N (Z.to_N (d + 48)).
Definition is_digit (c : ascii) : bool := (48 <=? N_of_ascii c)%N && (N_of_ascii c <=? 57)%N.

Definition digits_value (digits : list ascii) : Z :=
  foldl (fun total c => 10 * total + digit_value c) 0 digits.

(** [BigInt(text)] of an optional sign and decimal digits. *)
Definition BigInt_list (characters : list ascii) : Z :=
  match characters with
  | "-"%char :: digits => - digits_value digits
  | digits => digits_value digits
  end.

Definition BigInt (value : string) : Z := BigInt_list (String.list_ascii_of_string value).

(** The digits of [value], least significant last.  Each step divides by ten,
    so the binary length of [value] bounds their number. *)
Fixpoint digits_from (fuel : nat) (value : Z) : list ascii :=
  match fuel with
  | O => [digit_char (value mod 10)]
  | S fuel =>
      if value <? 10 then [digit_char value]
      else digits_from fuel (value / 10) ++ [digit_char (value mod 10)]
  end.

Definition decimal_digits (value : Z) : list ascii :=
  digits_from (S (Z.to_nat (Z.log2 value))) value.

(** [value.toString()] *)
Definition toString_list (value : Z) : list ascii :=
  if value <? 0 then "-"%char :: decimal_digits (- value) else decimal_digits value.

Definition toString (value : Z) : string := String.string_of_list_ascii (toString_list value).

(** ** The greatest common divisor

    The source's loop on the absolute values.  The second argument at least
    halves every two iterations, which bounds their number by its binary
    length. *)

Fixpoint gcd_loop (fuel : nat) (a b : Z) : Z :=
  match fuel with
  | O => a
  | S fuel => if b =? 0 then a else gcd_loop fuel b (Z.rem a b)
  end.

Definition greatestCommonDivisor (left right : Z) : Z :=
  let a := if left <? 0 then - left else left in
  let b := if right <? 0 then - right else right in
  gcd_loop (2 * Z.to_nat (Z.log2 b + 1) + 1) a b.

(** ** Lemmas *)

Lemma gcd_loop_gcd k a b :
  0 <= a -> 0 <= b < 2 ^ Z.of_nat k -> gcd_loop (2 * k + 1) a b = Z.gcd a b.
Proof.
  revert a b. induction k as [|k IH]; intros a b Ha Hb.
  - assert (b = 0) as -> by (simpl in Hb; lia). simpl. rewrite Z.gcd_0_r. lia.
  - replace (2 * S k + 1)%nat with (S (S (2 * k + 1))) by lia. cbn [gcd_loop].
    destruct (Z.eqb_spec b 0) as [->|Hb0]; [rewrite Z.gcd_0_r; lia|].
    rewrite Z.rem_mod_nonneg by lia. pose proof (Z.mod_pos_bound a b ltac:(lia)) as Hr.
    rewrite (Z.gcd_comm a b), <- (Z.gcd_mod a b) by lia. rewrite (Z.gcd_comm (a mod b) b).
    destruct (Z.eqb_spec (a mod b) 0) as [->|Hr0]; [rewrite Z.gcd_0_r; lia|].
    rewrite Z.rem_mod_nonneg by lia. set (r := a mod b) in *.
    pose proof (Z.mod_pos_bound b r ltac:(lia)). pose proof (Z.div_mod b r ltac:(lia)).
    assert (1 <= b / r) by (apply Z.div_le_lower_bound; lia).
    rewrite IH.
    + rewrite (Z.gcd_comm b r), <- (Z.gcd_mod b r) by lia. apply Z.gcd_comm.
    + lia.
    + rewrite Nat2Z.inj_succ, Z.pow_succ_r in Hb by lia. split; [lia|]. nia.
Qed.

Lemma greatestCommonDivisor_gcd left right : greatestCommonDivisor left right = Z.gcd left right.
Proof.
  unfold greatestCommonDivisor.
  assert (Habs : forall v, (if v <? 0 then - v else v) = Z.abs v).
  { intros v. destruct (Z.ltb_spec v 0); lia. }
  rewrite !Habs, gcd_loop_gcd; [by rewrite Z.gcd_abs_l, Z.gcd_abs_r|lia|].
  split; [lia|]. rewrite Z2Nat.id by (pose proof (Z.log2_nonneg (Z.abs right)); lia).
  destruct (decide (right = 0)) as [->|]; [simpl; lia|].
  apply Z.log2_spec. lia.
Qed.

Lemma digit_char_value d : 0 <= d <= 9 -> digit_value (digit_char d) = d /\ is_digit (digit_char d) = true.
Proof.
  intros H. unfold digit_value, digit_char, is_digit. rewrite N_ascii_embedding by lia.
  rewrite andb_true_iff, !N.leb_le. lia.
Qed.

Lemma digits_value_app l k :
  digits_value (l ++ k) = digits_value l * 10 ^ Z.of_nat (length k) + digits_value k.
Proof.
  unfold digits_value. rewrite foldl_app. generalize (foldl (fun t c => 10 * t + digit_value c) 0 l).
  assert (H : forall k t, foldl (fun t c => 10 * t + digit_value c) t k =
    t * 10 ^ Z.of_nat (length k) + foldl (fun t c => 10 * t + digit_value c) 0 k).
  { clear. induction k as [|c k IH]; intros t; [simpl; lia|]. cbn [foldl length].
    rewrite IH, (IH (10 * 0 + digit_value c)), Nat2Z.inj_succ, Z.pow_succ_r by lia. lia. }
  intros t. apply H.
Qed.

Lemma digits_value_bound l : forallb is_digit l = true -> 0 <= digits_value l < 10 ^ Z.of_nat (length l).
Proof.
  induction l as [|c l IH] using rev_ind; [by vm_compute|]. rewrite forallb_app. simpl.
  rewrite !andb_true_iff. intros [Hl [Hc _]]. specialize (IH Hl).
  rewrite digits_value_app, length_app. simpl (length [c]).
  replace (Z.of_nat (length l + 1)) with (Z.succ (Z.of_nat (length l))) by lia.
  rewrite Z.pow_succ_r by lia. change (10 ^ Z.of_nat 1) with 10.
  unfold digits_value at 2 4. simpl. unfold is_digit, digit_value in *.
  rewrite andb_true_iff, !N.leb_le in Hc. lia.
Qed.

Lemma digits_from_spec fuel v :
  0 <= v < 2 ^ Z.of_nat fuel \/ 0 <= v < 10 ->
  digits_value (digits_from fuel v) = v /\ forallb is_digit (digits_from fuel v) = true /\
  (0 < v -> exists c l, digits_from fuel v = c :: l /\ 1 <= digit_value c) /\
  digits_from fuel v <> [].
Proof.
  revert v. induction fuel as [|fuel IH]; intros v Hv; simpl.
  - assert (Hd : 0 <= v <= 9) by (simpl in Hv; lia). rewrite Z.mod_small by lia.
    destruct (digit_char_value v Hd) as [H1 H2]. unfold digits_value. simpl. rewrite H1, H2.
    split_and!; try done. intros. exists (digit_char v), []. split; [done|lia].
  - destruct (Z.ltb_spec v 10) as [Hlt|Hge].
    + destruct (digit_char_value v ltac:(lia)) as [H1 H2]. unfold digits_value. simpl. rewrite H1, H2.
      split_and!; try done. intros. exists (digit_char v), []. split; [done|lia].
    + pose proof (Z.div_mod v 10 ltac:(lia)) as Hdm. pose proof (Z.mod_pos_bound v 10 ltac:(lia)).
      destruct (IH (v / 10)) as (H1 & H2 & H3 & H4).
      { left. rewrite Nat2Z.inj_succ, Z.pow_succ_r in Hv by lia. lia. }
      destruct (digit_char_value (v mod 10) ltac:(lia)) as [H5 H6].
      rewrite digits_value_app, H1, forallb_app, H2. unfold digits_value at 1. simpl.
      rewrite H5, H6. split_and!; [lia|done| |].
      * intros _. destruct H3 as (c & l & -> & Hc); [lia|]. by exists c, (l ++ [digit_char (v mod 10)]).
      * intros Hn. by apply app_eq_nil in Hn as [? ?].
Qed.

Lemma decimal_digits_spec v :
  0 <= v ->
  digits_value (decimal_digits v) = v /\ forallb is_digit (decimal_digits v) = true /\
  (0 < v -> exists c l, decimal_digits v = c :: l /\ 1 <= digit_value c) /\ decimal_digits v <> [].
Proof.
  intros Hv. apply digits_from_spec. destruct (decide (v = 0)) as [->|]; [right; lia|left].
  rewrite Nat2Z.inj_succ, Z2Nat.id by apply Z.log2_nonneg. split; [done|]. apply Z.log2_spec. lia.
Qed.

(** The integer patterns of the contracts: an optional sign and digits without
    leading zeros, and such digits of a positive number. *)
Definition digit_re : re := one_of [("0", "9")]%char.
Definition positive_re : re := Cat (one_of [("1", "9")]%char) (Star digit_re).
Definition integer_re : re := Cat (maybe (chr "-"%char)) (Alt (chr "0"%char) positive_re).

Lemma matched_one_of ranges l :
  matched (one_of ranges) l <-> exists c, l = [c] /\
    existsb (fun '(lo, hi) => (N_of_ascii lo <=? N_of_ascii c)%N && (N_of_ascii c <=? N_of_ascii hi)%N)
      ranges = true.
Proof.
  split.
  - inversion 1; subst. eauto.
  - intros (c & -> & Hc). by constructor.
Qed.

Lemma matched_chr c l : matched (chr c) l <-> l = [c].
Proof.
  unfold chr. rewrite matched_one_of. split.
  - intros (d & -> & Hd). simpl in Hd. rewrite orb_false_r, andb_true_iff, !N.leb_le in Hd.
    f_equal. rewrite <- (ascii_N_embedding c), <- (ascii_N_embedding d). f_equal. lia.
  - intros ->. exists c. split; [done|]. simpl. by rewrite N.leb_refl.
Qed.

Lemma matched_digit l : matched digit_re l <-> exists c, l = [c] /\ is_digit c = true.
Proof.
  unfold digit_re. rewrite matched_one_of. unfold is_digit. simpl. setoid_rewrite orb_false_r. done.
Qed.

Lemma matched_digits l : matched (Star digit_re) l <-> forallb is_digit l = true.
Proof.
  split.
  - remember (Star digit_re) as r eqn:Hr. induction 1; try discriminate; [done|].
    injection Hr as ->. rewrite forallb_app. rewrite IHmatched2 by done.
    apply matched_digit in H as (c & -> & Hc). simpl. by rewrite Hc.
  - induction l as [|c l IH]; [by constructor|]. simpl. intros [Hc Hl]%andb_true_iff.
    change (c :: l) with ([c] ++ l). constructor; [|by apply IH]. apply matched_digit. eauto.
Qed.

Lemma matched_positive l :
  matched positive_re l <-> exists c k, l = c :: k /\ forallb is_digit l = true /\ 1 <= digit_value c.
Proof.
  unfold positive_re. split.
  - intros (u & k & -> & Hu & Hk)%matched_cat_inv. apply matched_one_of in Hu as (c & -> & Hc).
    rewrite matched_digits in Hk. exists c, k. simpl in *. rewrite Hk, andb_true_r.
    rewrite orb_false_r, andb_true_iff, !N.leb_le in Hc. simpl in Hc.
    unfold is_digit, digit_value. rewrite andb_true_iff, !N.leb_le. split_and!; [done|lia..].
  - intros (c & k & -> & Hd & Hc). simpl in Hd. apply andb_true_iff in Hd as [Hcd Hk].
    change (c :: k) with ([c] ++ k). constructor; [|by apply matched_digits].
    apply matched_one_of. exists c. split; [done|]. simpl. unfold is_digit, digit_value in *.
    rewrite orb_false_r, andb_true_iff, !N.leb_le in *. simpl. lia.
Qed.

(** The shape of integer text. *)
Lemma matched_integer l :
  matched integer_re l -> exists sign digits, l = sign ++ digits /\ (sign = [] \/ sign = ["-"%char]) /\
    forallb is_digit digits = true /\ digits <> [].
Proof.
  unfold integer_re, maybe. intros (u & k & -> & Hu & Hk)%matched_cat_inv. exists u, k. split; [done|].
  split.
  - inversion Hu as [| | |? ? ? H|? ? ? H| |]; subst.
    + left. by inversion H.
    + right. by apply matched_chr.
  - inversion Hk as [| | |? ? ? H|? ? ? H| |]; subst.
    + apply matched_chr in H as ->. done.
    + apply matched_positive in H as (c & k' & -> & Hd & _). done.
Qed.

Lemma minus_not_digit : is_digit "-"%char = false.
Proof. reflexivity. Qed.

Lemma BigInt_digits l : forallb is_digit l = true -> BigInt_list l = digits_value l.
Proof.
  destruct l as [|c l]; [done|]. intros H. unfold BigInt_list.
  destruct (decide (c = "-"%char)) as [->|Hc]; [done|].
  destruct c as [[] [] [] [] [] [] [] []]; try done.
Qed.

Lemma list_of_toString v : String.list_ascii_of_string (toString v) = toString_list v.
Proof. apply String.list_ascii_of_string_of_list_ascii. Qed.

(** The text of an integer reads back as the integer. *)
Lemma BigInt_toString v : BigInt (toString v) = v.
Proof.
  unfold BigInt. rewrite list_of_toString. unfold toString_list. destruct (Z.ltb_spec v 0).
  - destruct (decimal_digits_spec (- v)) as (H1 & _); [lia|]. simpl. rewrite H1. lia.
  - destruct (decimal_digits_spec v) as (H1 & H2 & _); [lia|]. by rewrite BigInt_digits, H1.
Qed.

Lemma toString_positive v : 0 < v -> test positive_re (toString v) = true.
Proof.
  intros Hv. apply test_spec. rewrite list_of_toString. unfold toString_list.
  destruct (Z.ltb_spec v 0); [lia|]. apply matched_positive.
  destruct (decimal_digits_spec v) as (_ & H2 & H3 & _); [lia|].
  destruct (H3 Hv) as (c & l & Hl & Hc). exists c, l. by rewrite Hl in *.
Qed.

Lemma toString_integer v : test integer_re (toString v) = true.
Proof.
  apply test_spec. rewrite list_of_toString. unfold integer_re, maybe.
  assert (Hpos : forall v, 0 < v -> matched positive_re (decimal_digits v)).
  { intros w Hw. apply toString_positive in Hw as Hm. apply test_spec in Hm.
    rewrite list_of_toString in Hm. unfold toString_list in Hm. destruct (Z.ltb_spec w 0); [lia|done]. }
  unfold toString_list. destruct (Z.ltb_spec v 0).
  - change ("-"%char :: decimal_digits (- v)) with (["-"%char] ++ decimal_digits (- v)).
    constructor; [apply matched_alt_r, matched_chr; done|apply matched_alt_r, Hpos; lia].
  - change (decimal_digits v) with ([] ++ decimal_digits v).
    constructor; [apply matched_alt_l; constructor|].
    destruct (decide (v = 0)) as [->|]; [apply matched_alt_l, matched_chr; done|].
    apply matched_alt_r, Hpos. lia.
Qed.

Lemma string_length_list s : String.length s = length (String.list_ascii_of_string s).
Proof. induction s as [|c s IH]; simpl; [done|by rewrite IH]. Qed.

(** How many characters an integer takes. *)
Lemma decimal_digits_length v m :
  0 <= v < 10 ^ Z.of_nat m -> (1 <= m)%nat -> (length (decimal_digits v) <= m)%nat.
Proof.
  intros Hv Hm. destruct (decimal_digits_spec v) as (H1 & H2 & H3 & _); [lia|].
  destruct (decide (v = 0)) as [->|]; [simpl; lia|].
  destruct H3 as (c & l & Hl & Hc); [lia|]. rewrite Hl in *. simpl in H2.
  apply andb_true_iff in H2 as [_ H2]. apply digits_value_bound in H2.
  change (c :: l) with ([c] ++ l) in H1. rewrite digits_value_app in H1.
  change (digits_value [c]) with (digit_value c) in H1. simpl.
  destruct (decide (m <= length l)%nat) as [Hle|]; [|lia].
  assert (10 ^ Z.of_nat m <= 10 ^ Z.of_nat (length l)) by (apply Z.pow_le_mono_r; lia). nia.
Qed.

(** A smaller integer takes no more characters. *)
Lemma toString_shorter s v :
  test integer_re s = true -> Z.abs v <= Z.abs (BigInt s) -> (v < 0 -> BigInt s < 0) ->
  (String.length (toString v) <= String.length s)%nat.
Proof.
  intros Hs Hv Hneg. apply test_spec in Hs. rewrite !string_length_list, list_of_toString.
  unfold BigInt in *. apply matched_integer in Hs as (sign & l & Hl & Hsign & Hd & Hne).
  rewrite Hl in *. pose proof (digits_value_bound l Hd) as Hb.
  assert (Hlen : (1 <= length l)%nat) by (destruct l; simpl; [done|lia]).
  assert (Hval : Z.abs (BigInt_list (sign ++ l)) = digits_value l /\
    (BigInt_list (sign ++ l) < 0 -> sign = ["-"%char])).
  { destruct Hsign as [ -> | -> ].
    - simpl. rewrite BigInt_digits by done. split; lia.
    - change (BigInt_list (["-"%char] ++ l)) with (- digits_value l). split; [lia|done]. }
  destruct Hval as [Hval Hm]. rewrite Hval in Hv. rewrite length_app.
  unfold toString_list. destruct (Z.ltb_spec v 0).
  - rewrite Hm by auto. simpl. pose proof (decimal_digits_length (- v) (length l)). lia.
  - pose proof (decimal_digits_length v (length l)). lia.
Qed.

Lemma toString_bound v m :
  Z.abs v < 10 ^ Z.of_nat m -> (1 <= m)%nat -> (String.length (toString v) <= S m)%nat.
Proof.
  intros Hv Hm. rewrite string_length_list, list_of_toString. unfold toString_list.
  destruct (Z.ltb_spec v 0); simpl.
  - pose proof (decimal_digits_length (- v) m). lia.
  - pose proof (decimal_digits_length v m). lia.
Qed.

Lemma positive_text s : test positive_re s = true -> test integer_re s = true /\ 0 < BigInt s.
Proof.
  intros H%test_spec. split.
  - apply test_spec. change (String.list_ascii_of_string s) with ([] ++ String.list_ascii_of_string s).
    apply matched_cat; [apply matched_alt_l, matched_eps|apply matched_alt_r, H].
  - apply matched_positive in H as (c & k & Hl & Hd & Hc). unfold BigInt. rewrite Hl in *. rewrite BigInt_digits by done.
    change (c :: k) with ([c] ++ k). rewrite digits_value_app. change (digits_value [c]) with (digit_value c).
    simpl in Hd. apply andb_true_iff in Hd as [_ Hk]. apply digits_value_bound in Hk.
    assert (0 < 10 ^ Z.of_nat (length k)) by (apply Z.pow_pos_nonneg; lia). nia.
Qed.
