(* ===== verification/Primitives.v ===== *)
(** * Contract primitives

    [packages/contracts/src/primitives.ts] and the small schemas every record
    of the contracts package shares: opaque identifiers, digests, canonical
    timestamps, evidence scopes, content references and human text.

    A schema [XSchema] is the boolean [XSchema] of the values it accepts; the
    structural part of the schema (an object with exactly these fields) is the
    Rocq type of the value. *)

From S2P Require Import Prelude Errors Regex.
From Stdlib Require Import Ascii.

(** ** Identifiers and digests *)

Definition lower : list (ascii * ascii) := [("a", "z")]%char.
Definition upper : list (ascii * ascii) := [("A", "Z")]%char.
Definition digit : list (ascii * ascii) := [("0", "9")]%char.
Definition each (cs : list ascii) : list (ascii * ascii) := (fun c => (c, c)) <$> cs.

Definition OpaqueIdSchema (s : string) : bool :=
  test (Cat (one_of lower) (between 2 63 (one_of (lower ++ digit ++ each ["_"%char])))) s.

Definition Sha256Schema (s : string) : bool :=
  test (times 64 (one_of (digit ++ [("a", "f")]%char))) s.

(** [z.string().min(m).max(n)] *)
Definition length_in (m n : nat) (s : string) : bool :=
  (m <=? String.length s)%nat && (String.length s <=? n)%nat.

Definition ProtocolTokenSchema (s : string) : bool :=
  length_in 1 256 s &&
  test (Cat (one_of (upper ++ lower ++ digit))
          (at_most 255 (one_of (upper ++ lower ++ digit ++ each
            ["."; "_"; "+"; ":"; "/"; "@"; "-"]%char)))) s.

Definition ProtocolVersionSchema (s : string) : bool :=
  length_in 1 64 s &&
  test (Cat (one_of (upper ++ lower ++ digit))
          (at_most 63 (one_of (upper ++ lower ++ digit ++ each
            ["."; "_"; "+"; "-"]%char)))) s.

Definition ArtifactMediaTypeSchema (s : string) : bool :=
  let first := one_of (lower ++ digit) in
  let rest := at_most 126 (one_of (lower ++ digit ++ each
    ["!"; "#"; "$"; "&"; "^"; "_"; "."; "+"; "-"]%char)) in
  length_in 3 255 s && test (Cat first (Cat rest (Cat (chr "/"%char) (Cat first rest)))) s.

(** ** Timestamps

    A canonical server timestamp ([YYYY-MM-DDTHH:MM:SS.mmmZ], year 0001 to
    9999) denotes one instant and each instant of that range has one such
    timestamp, in the same order, so a timestamp is the number of
    milliseconds [Date.parse] gives it.  [Date.prototype.toISOString] of an
    instant outside the range is not a canonical timestamp. *)

Abbreviation timestamp := Z.

Definition MIN_TIMESTAMP : timestamp := -62135596800000.
Definition MAX_TIMESTAMP : timestamp := 253402300799999.

Definition UtcMillisecondTimestampSchema (t : timestamp) : bool :=
  (MIN_TIMESTAMP <=? t) && (t <=? MAX_TIMESTAMP).

(** ** Counters *)

Definition SafePositiveIntegerSchema (v : Z) : bool := (1 <=? v) && (v <=? MAX_SAFE_INTEGER).
Definition SafeNonnegativeIntegerSchema (v : Z) : bool := (0 <=? v) && (v <=? MAX_SAFE_INTEGER).

(** [schema.optional()] *)
Definition optional {A} (accepts : A -> bool) (o : option A) : bool :=
  match o with Some a => accepts a | None => true end.

(** ** Human text

    Text is the list of its UTF-16 code units, so that lengths and control
    characters are counted as the language counts them. *)

Abbreviation text := (list Z).

Definition text_of (s : string) : text :=
  (fun c => Z.of_N (N_of_ascii c)) <$> String.list_ascii_of_string s.

(** Text in the order of its code units. *)
Fixpoint text_lt (t t' : text) : bool :=
  match t, t' with
  | _, [] => false
  | [], _ :: _ => true
  | u :: rest, v :: rest' => (u <? v) || (u =? v) && text_lt rest rest'
  end.

(** White space and line terminators, the characters [String.prototype.trim] removes. *)
Definition is_white_space (u : Z) : bool :=
  ((9 <=? u) && (u <=? 13)) || (u =? 32) || (u =? 160) || (u =? 5760) ||
  ((8192 <=? u) && (u <=? 8202)) || (u =? 8232) || (u =? 8233) || (u =? 8239) ||
  (u =? 8287) || (u =? 12288) || (u =? 65279).

Fixpoint trim_start (t : text) : text :=
  match t with
  | [] => []
  | u :: t' => if is_white_space u then trim_start t' else t
  end.

Definition trim (t : text) : text := rev (trim_start (rev (trim_start t))).

Definition containsUnsafeTextControl (value : text) : bool :=
  existsb (fun codeUnit =>
    (codeUnit <=? 31) || ((127 <=? codeUnit) && (codeUnit <=? 159)) ||
    (codeUnit =? 8232) || (codeUnit =? 8233)) value.

Definition canonicalHumanText (maximumCharacters : nat) (value : text) : bool :=
  (1 <=? length value)%nat && (length value <=? maximumCharacters)%nat &&
  (trim value === value) && negb (containsUnsafeTextControl value).

(** ** Evidence scopes *)

Record EvidenceScope := {
  environmentId : string;
  projectId : string;
  tenantId : string;
}.

#[global] Instance EvidenceScope_eq_dec : EqDecision EvidenceScope.
Proof. solve_decision. Defined.

Definition EvidenceScopeSchema (s : EvidenceScope) : bool :=
  OpaqueIdSchema (environmentId s) && OpaqueIdSchema (projectId s) && OpaqueIdSchema (tenantId s).

(** [sameScope] / [scopesEqual], declared once per module of the source. *)
Definition sameScope (left right : EvidenceScope) : bool :=
  (tenantId left === tenantId right) &&
  (projectId left === projectId right) &&
  (environmentId left === environmentId right).

Lemma sameScope_spec s t : sameScope s t = true <-> s = t.
Proof.
  unfold sameScope. breflect. split; [|by intros ->].
  destruct s, t; simpl. intros [[-> ->] ->]. done.
Qed.

Lemma sameScope_refl s : sameScope s s = true.
Proof. by apply sameScope_spec. Qed.

#[export] Hint Rewrite sameScope_spec : breflect.

(** ** Content references *)

Inductive DataClassification : Type := metadata | internal | confidential | restricted.
Inductive RedactionStage : Type := source | ingest | retention.

Record ArtifactContentReference := {
  artifactId : string;
  classification : DataClassification;
  mediaType : string;
  redactedAt : option RedactionStage;
  sha256 : string;
  sizeBytes : Z;
}.

#[global] Instance DataClassification_eq_dec : EqDecision DataClassification.
Proof. solve_decision. Defined.
#[global] Instance RedactionStage_eq_dec : EqDecision RedactionStage.
Proof. solve_decision. Defined.
#[global] Instance ArtifactContentReference_eq_dec : EqDecision ArtifactContentReference.
Proof. solve_decision. Defined.

Definition MAX_ARTIFACT_CONTENT_BYTES : Z := 16 * 1024 * 1024.

Definition ArtifactContentReferenceSchema (r : ArtifactContentReference) : bool :=
  OpaqueIdSchema (artifactId r) && ArtifactMediaTypeSchema (mediaType r) &&
  Sha256Schema (sha256 r) &&
  (1 <=? sizeBytes r) && (sizeBytes r <=? MAX_ARTIFACT_CONTENT_BYTES).

(** The schemas are only ever used through these bounds in proofs. *)

Lemma SafePositiveIntegerSchema_spec v :
  SafePositiveIntegerSchema v = true <-> 1 <= v <= MAX_SAFE_INTEGER.
Proof. unfold SafePositiveIntegerSchema. breflect. lia. Qed.

Lemma SafeNonnegativeIntegerSchema_spec v :
  SafeNonnegativeIntegerSchema v = true <-> 0 <= v <= MAX_SAFE_INTEGER.
Proof. unfold SafeNonnegativeIntegerSchema. breflect. lia. Qed.

Lemma UtcMillisecondTimestampSchema_spec t :
  UtcMillisecondTimestampSchema t = true <-> MIN_TIMESTAMP <= t <= MAX_TIMESTAMP.
Proof. unfold UtcMillisecondTimestampSchema. breflect. lia. Qed.

#[export] Hint Rewrite SafePositiveIntegerSchema_spec SafeNonnegativeIntegerSchema_spec
  UtcMillisecondTimestampSchema_spec : breflect.

#[global] Opaque OpaqueIdSchema Sha256Schema ProtocolTokenSchema ProtocolVersionSchema
  ArtifactMediaTypeSchema canonicalHumanText.
