(* ===== verification/Identity.v ===== *)
(** * Principals, authorization and workload delegation

    [packages/contracts/src/identity.ts],
    [packages/core/src/auth/authorization.ts] and
    [packages/core/src/auth/workload-delegation.ts]: what a principal is, what
    its resource scope lets it reach, and when a user may hand a scope and
    capabilities to a workload credential. *)

From stdpp Require Import infinite.
From S2P Require Import Prelude Errors Regex Primitives.
#[local] Open Scope Z_scope.

(** ** Contracts *)

Inductive PrincipalType : Type := user | workload | service.
Inductive AuthenticationMethod : Type := development | api_key | oidc | service_token.
Inductive Role : Type := owner | admin | member | viewer | ingest_role.

Inductive Capability : Type :=
| project_read | project_manage | evidence_ingest | evidence_read | artifact_write
| artifact_read | artifact_read_restricted | artifact_delete | dataset_read | dataset_manage
| replay_read | replay_run | replay_cancel | replay_manage | evaluation_read | evaluation_run
| evaluation_model_run | evaluation_human_review | evaluation_manage | comparison_read
| comparison_manage | release_read | release_manage | policy_read | policy_author
| policy_evaluate | policy_evaluation_execute | policy_evaluation_cancel | approval_decide
| release_selection_manage | approval_authority_manage | release_decision_publish | audit_read
| identity_read | identity_manage.

#[global] Instance PrincipalType_eq_dec : EqDecision PrincipalType.
Proof. solve_decision. Defined.
#[global] Instance AuthenticationMethod_eq_dec : EqDecision AuthenticationMethod.
Proof. solve_decision. Defined.
#[global] Instance Role_eq_dec : EqDecision Role.
Proof. solve_decision. Defined.
#[global] Instance Capability_eq_dec : EqDecision Capability.
Proof. solve_decision. Defined.

(** [CapabilitySchema.options.length], [RoleSchema.options.length] *)
Definition capability_count : nat := 35.
Definition role_count : nat := 5.

Definition WORKLOAD_DELEGABLE_CAPABILITIES : list Capability :=
  [project_read; evidence_ingest; evidence_read; artifact_write; artifact_read; dataset_read;
   replay_read; replay_run; replay_cancel; evaluation_read; evaluation_run; evaluation_model_run;
   comparison_read; release_read; policy_read; policy_evaluate; policy_evaluation_cancel].

Definition WorkloadCapabilitySchema (capability : Capability) : bool :=
  includes WORKLOAD_DELEGABLE_CAPABILITIES capability.

(** [new Set(values).size === values.length] *)
Definition no_duplicates {A} `{EqDecision A} (values : list A) : bool := bool_decide (NoDup values).

Definition uniqueOpaqueIds (values : list string) : bool := no_duplicates values.

Record ProjectResourceScope := { environmentIds : option (list string); scope_projectId : string }.

Inductive ResourceScope : Type :=
| tenant_scope
| restricted_scope (projects : list ProjectResourceScope).

Definition ProjectResourceScopeSchema (value : ProjectResourceScope) : bool :=
  match environmentIds value with
  | Some ids => (1 <=? length ids)%nat && (length ids <=? 100)%nat &&
      forallb OpaqueIdSchema ids && uniqueOpaqueIds ids
  | None => true
  end && OpaqueIdSchema (scope_projectId value).

Definition ResourceScopeSchema (value : ResourceScope) : bool :=
  match value with
  | tenant_scope => true
  | restricted_scope projects =>
      (1 <=? length projects)%nat && (length projects <=? 100)%nat &&
      forallb ProjectResourceScopeSchema projects && uniqueOpaqueIds (scope_projectId <$> projects)
  end.

Record AuthenticationContext := {
  authenticatedAt : string;
  credentialId : option string;
  authentication_method : AuthenticationMethod;
}.

Record PrincipalContext := {
  authentication : AuthenticationContext;
  capabilities : list Capability;
  principalId : string;
  principalType : PrincipalType;
  requestId : string;
  resourceScope : ResourceScope;
  roles : list Role;
  principal_tenantId : string;
}.

Section contexts.
(** [z.iso.datetime({ offset: true })], a format of the schema library. *)
Context (TimestampSchema : string -> bool).

Definition AuthenticationContextSchema (value : AuthenticationContext) : bool :=
  TimestampSchema (authenticatedAt value) && optional OpaqueIdSchema (credentialId value) &&
  negb ((authentication_method value !== development) && (credentialId value === None)).

Definition PrincipalContextSchema (value : PrincipalContext) : bool :=
  AuthenticationContextSchema (authentication value) &&
  (length (capabilities value) <=? capability_count)%nat &&
  OpaqueIdSchema (principalId value) && length_in 8 128 (requestId value) &&
  ResourceScopeSchema (resourceScope value) &&
  (1 <=? length (roles value))%nat && (length (roles value) <=? role_count)%nat &&
  OpaqueIdSchema (principal_tenantId value) &&
  no_duplicates (capabilities value) && no_duplicates (roles value).
End contexts.

(** ** Authorization *)

Definition requireCapability (principal : PrincipalContext) (requiredCapability : Capability) : res unit :=
  reject_when (negb (includes (capabilities principal) requiredCapability)) ForbiddenError.

Definition find_project (projects : list ProjectResourceScope) (id : string) : option ProjectResourceScope :=
  List.find (fun project => scope_projectId project === id) projects.

Definition requireProjectAccess (scope : ResourceScope) (id : string) : res unit :=
  match scope with
  | tenant_scope => Ok tt
  | restricted_scope projects =>
      reject_when (negb (existsb (fun project => scope_projectId project === id) projects)) ForbiddenError
  end.

Definition requireEnvironmentAccess (scope : ResourceScope) (id environment : string) : res unit :=
  requireProjectAccess scope id ;;
  match scope with
  | tenant_scope => Ok tt
  | restricted_scope projects =>
      reject_when
        match find_project projects id with
        | Some project =>
            match environmentIds project with
            | Some ids => negb (includes ids environment)
            | None => false
            end
        | None => false
        end ForbiddenError
  end.

(** ** Delegation *)

Definition canDelegateResourceScope (issuerScope requestedScope : ResourceScope) : bool :=
  match issuerScope, requestedScope with
  | tenant_scope, _ => true
  | restricted_scope _, tenant_scope => false
  | restricted_scope issuerProjects, restricted_scope requestedProjects =>
      forallb (fun requestedProject =>
        match find_project issuerProjects (scope_projectId requestedProject) with
        | None => false
        | Some issuerProject =>
            match environmentIds issuerProject with
            | None => true
            | Some issuerIds =>
                match environmentIds requestedProject with
                | None => false
                | Some requestedIds => forallb (includes issuerIds) requestedIds
                end
            end
        end) requestedProjects
  end.

Definition requireWorkloadDelegation (issuer : PrincipalContext) (requestedCapabilities : list Capability)
    (requestedScope : ResourceScope) : res unit :=
  requireCapability issuer identity_manage ;;
  reject_when (principalType issuer !== user) ForbiddenError ;;
  reject_when
    ((length requestedCapabilities =? 0)%nat || negb (no_duplicates requestedCapabilities) ||
     existsb (fun capability => negb (WorkloadCapabilitySchema capability)) requestedCapabilities)
    ForbiddenError ;;
  reject_when
    (existsb (fun capability => negb (includes (capabilities issuer) capability)) requestedCapabilities)
    ForbiddenError ;;
  reject_when (negb (canDelegateResourceScope (resourceScope issuer) requestedScope)) ForbiddenError.

(** ** What a scope reaches *)

Definition grants (scope : ResourceScope) (project environment : string) : Prop :=
  match scope with
  | tenant_scope => True
  | restricted_scope projects => exists p, p ∈ projects /\ scope_projectId p = project /\
      forall ids, environmentIds p = Some ids -> environment ∈ ids
  end.

Lemma find_project_Some projects id p :
  find_project projects id = Some p -> p ∈ projects /\ scope_projectId p = id.
Proof. intros [? ?]%find_Some_key. by breflect. Qed.

Lemma find_project_unique projects p :
  uniqueOpaqueIds (scope_projectId <$> projects) = true -> p ∈ projects ->
  find_project projects (scope_projectId p) = Some p.
Proof. intros Hu%bool_decide_eq_true Hp. by apply find_unique. Qed.

Lemma scope_unique projects :
  ResourceScopeSchema (restricted_scope projects) = true ->
  uniqueOpaqueIds (scope_projectId <$> projects) = true /\
  forall p, p ∈ projects -> ProjectResourceScopeSchema p = true.
Proof.
  simpl. rewrite !andb_true_iff. intros [[_ Hp] Hu]. split; [done|].
  intros p Hin. rewrite forallb_forall in Hp. apply Hp. by apply list_elem_of_In.
Qed.

(** The project of a valid scope that decides about an identifier. *)
Lemma grants_find projects id environment :
  ResourceScopeSchema (restricted_scope projects) = true ->
  grants (restricted_scope projects) id environment <->
  exists p, find_project projects id = Some p /\
    forall ids, environmentIds p = Some ids -> environment ∈ ids.
Proof.
  intros [Hu _]%scope_unique. split.
  - intros (p & Hp & <- & He). exists p. split; [by apply find_project_unique|done].
  - intros (p & [Hp <-]%find_project_Some & He). by exists p.
Qed.

Lemma environment_access_Ok scope id environment u :
  ResourceScopeSchema scope = true ->
  requireEnvironmentAccess scope id environment = Ok u <-> grants scope id environment.
Proof.
  intros Hs. unfold requireEnvironmentAccess, requireProjectAccess. destruct scope as [|projects].
  { destruct u. done. }
  rewrite grants_find by done. rewrite bind_Ok. setoid_rewrite reject_when_Ok.
  setoid_rewrite negb_false_iff. split.
  - intros ([] & Hx & He). apply existsb_exists in Hx as (p & Hp & Hid). breflect. subst id.
    destruct (find_project projects (scope_projectId p)) as [q|] eqn:Hq.
    + exists q. split; [done|]. intros ids Hids. rewrite Hids in He.
      apply negb_false_iff in He. by apply includes_true.
    + unfold find_project in Hq. rewrite find_None_key in Hq. apply list_elem_of_In in Hp.
      specialize (Hq p Hp). by breflect.
  - intros (p & Hp & He). exists tt. split.
    + apply existsb_exists. exists p. apply find_project_Some in Hp as [Hp <-].
      split; [by apply list_elem_of_In|by breflect].
    + rewrite Hp. destruct (environmentIds p) as [ids|]; [|done].
      apply negb_false_iff, includes_true. by apply He.
Qed.

(** ** Properties *)

(** Environment access is decided by the scope alone: on a valid scope the
    check passes exactly when the scope reaches that environment. *)
Theorem environment_access_exact scope id environment :
  ResourceScopeSchema scope = true ->
  requireEnvironmentAccess scope id environment = Ok tt <-> grants scope id environment.
Proof. apply environment_access_Ok. Qed.

(** An environment identifier outside a list. *)
Lemma fresh_environment (ids : list string) : exists e, e ∉ ids.
Proof. exists (fresh ids). apply infinite_is_fresh. Qed.

(** Delegation never widens a scope, and is refused only when it would:
    between valid scopes it is allowed exactly when every environment the
    requested scope reaches is one the issuer's scope reaches. *)
Theorem delegation_exact issuer requested :
  ResourceScopeSchema issuer = true -> ResourceScopeSchema requested = true ->
  canDelegateResourceScope issuer requested = true <->
  forall project environment, grants requested project environment -> grants issuer project environment.
Proof.
  intros Hi Hr. destruct issuer as [|iprojects]; [done|]. destruct requested as [|rprojects].
  - split; [done|]. intros Hall. exfalso. destruct (fresh_environment (scope_projectId <$> iprojects)) as [e He].
    destruct (Hall e e I) as (p & Hp & <- & _). apply He. apply list_elem_of_fmap. eauto.
  - destruct (scope_unique _ Hr) as [Hru Hrp]. simpl canDelegateResourceScope. rewrite forallb_forall. split.
    + intros Hall project environment (p & Hp & <- & Henv). apply list_elem_of_In in Hp.
      specialize (Hall p Hp). apply grants_find; [done|].
      destruct (find_project iprojects (scope_projectId p)) as [q|]; [|done].
      exists q. split; [done|]. intros ids Hids. rewrite Hids in Hall.
      destruct (environmentIds p) as [pids|]; [|done]. rewrite forallb_forall in Hall.
      apply includes_true, Hall, list_elem_of_In. by apply Henv.
    + intros Hall p Hp%list_elem_of_In.
      assert (Hreach : forall e, (forall ids, environmentIds p = Some ids -> e ∈ ids) -> exists q,
        find_project iprojects (scope_projectId p) = Some q /\
        forall ids, environmentIds q = Some ids -> e ∈ ids).
      { intros e He. apply grants_find; [done|]. apply Hall. exists p. done. }
      destruct (environmentIds p) as [ids|] eqn:Hids.
      * assert (Hne : exists e, e ∈ ids).
        { specialize (Hrp p Hp). unfold ProjectResourceScopeSchema in Hrp. rewrite Hids in Hrp.
          destruct ids as [|e ids]; [done|]. exists e. constructor. }
        destruct Hne as [e0 He0]. destruct (Hreach e0) as (q & Hq & _); [by intros ? [= <-]|].
        rewrite Hq. destruct (environmentIds q) as [qids|] eqn:Hqi; [|done]. apply forallb_forall.
        intros e He%list_elem_of_In. apply includes_true.
        destruct (Hreach e) as (q' & Hq' & Hin); [by intros ? [= <-]|].
        assert (q' = q) as -> by congruence. by apply Hin.
      * destruct (Hreach "") as (q & Hq & _); [done|]. rewrite Hq.
        destruct (environmentIds q) as [qids|] eqn:Hqi; [|done].
        destruct (fresh_environment qids) as [e He]. destruct (Hreach e) as (q' & Hq' & Hin); [done|].
        assert (q' = q) as -> by congruence. exfalso. by apply He, Hin.
Qed.

(** A workload delegation is accepted exactly when a user who manages
    identities hands on distinct delegable capabilities it holds itself, at
    least one, in a scope no broader than its own. *)
Theorem workload_delegation_exact issuer requestedCapabilities requestedScope :
  requireWorkloadDelegation issuer requestedCapabilities requestedScope = Ok tt <->
  identity_manage ∈ capabilities issuer /\ principalType issuer = user /\
  requestedCapabilities <> [] /\ NoDup requestedCapabilities /\
  (forall c, c ∈ requestedCapabilities -> c ∈ WORKLOAD_DELEGABLE_CAPABILITIES /\ c ∈ capabilities issuer) /\
  canDelegateResourceScope (resourceScope issuer) requestedScope = true.
Proof.
  assert (Hex : forall p : Capability -> bool,
    existsb (fun c => negb (p c)) requestedCapabilities = false <->
    forall c, c ∈ requestedCapabilities -> p c = true).
  { intros p. rewrite <- not_true_iff_false, existsb_exists. split.
    - intros H c Hc. destruct (p c) eqn:Hp; [done|]. exfalso. apply H. exists c.
      rewrite Hp. split; [by apply list_elem_of_In|done].
    - intros H (c & Hc%list_elem_of_In & Hp). by rewrite (H c Hc) in Hp. }
  assert (Hlen : (length requestedCapabilities =? 0)%nat = false <-> requestedCapabilities <> [])
    by (destruct requestedCapabilities; done).
  unfold requireWorkloadDelegation, requireCapability, no_duplicates. split.
  - intros H. inv_res. rewrite !orb_false_iff, ?Hex, ?negb_false_iff, ?includes_true, ?bool_decide_eq_true, ?Hlen in *.
    destruct_and!. split_and!; try done. intros c Hc. split; apply includes_true; auto.
  - intros (Hi & Hu & Hne & Hnd & Hc & Hd).
    rewrite (bind_known _ _ tt) by (apply reject_known; by rewrite negb_false_iff, includes_true).
    rewrite (bind_known _ _ tt) by (apply reject_known; by breflect).
    rewrite (bind_known _ _ tt).
    2: { apply reject_known. rewrite !orb_false_iff, Hex, Hlen, negb_false_iff, bool_decide_eq_true.
         split_and!; try done. intros c ?. by apply includes_true, Hc. }
    rewrite (bind_known _ _ tt).
    2: { apply reject_known, Hex. intros c ?. by apply includes_true, Hc. }
    apply reject_known. by rewrite Hd.
Qed.
