(* ===== verification/PolicyTime.v ===== *)
(** * Exact policy-evaluation time

    [contracts/src/policy-evaluation-time.ts] and
    [core/src/policy/policy-evaluation-scheduler-time.ts].  A policy-evaluation
    instant is a UTC text with up to thirty fractional digits; it is modelled as
    the instant its date and time name, in seconds since the epoch, and the
    digits after the point (none when there is no point), so two texts of the
    same instant remain different values.  The theorems show that scheduler
    arithmetic is exact: no rounding to milliseconds, and a result exactly when
    the instant still has a four-digit year. *)

From S2P Require Import Prelude Errors Primitives.

Record PolicyEvaluationTime := {
  wholeSeconds : Z;
  fractionDigits : list Z;
}.

#[global] Instance PolicyEvaluationTime_eq_dec : EqDecision PolicyEvaluationTime.
Proof. solve_decision. Defined.

Definition MAX_POSTGRES_TIMESTAMP_FRACTION_DIGITS : nat := 30.

(** 0001-01-01T00:00:00Z and 9999-12-31T23:59:59Z. *)
Definition MIN_WHOLE_SECONDS : Z := -62135596800.
Definition MAX_WHOLE_SECONDS : Z := 253402300799.

Definition is_decimal_digit (d : Z) : bool := (0 <=? d) && (d <=? 9).

Definition PolicyEvaluationTimeSchema (value : PolicyEvaluationTime) : bool :=
  (MIN_WHOLE_SECONDS <=? wholeSeconds value) && (wholeSeconds value <=? MAX_WHOLE_SECONDS) &&
  (length (fractionDigits value) <=? MAX_POSTGRES_TIMESTAMP_FRACTION_DIGITS)%nat &&
  forallb is_decimal_digit (fractionDigits value).

(** [UtcMillisecondTimestampSchema] on such a text: exactly three digits. *)
Definition UtcMillisecondTextSchema (value : PolicyEvaluationTime) : bool :=
  PolicyEvaluationTimeSchema value && (length (fractionDigits value) =? 3)%nat.

Definition POLICY_EVALUATION_TIME_UNITS_PER_MILLISECOND : Z := 10 ^ 27.
Definition unitsPerSecond : Z := POLICY_EVALUATION_TIME_UNITS_PER_MILLISECOND * 1000.

(** [BigInt(digits)] of decimal digits, the most significant first. *)
Definition decimal_value (digits : list Z) : Z := foldl (fun acc d => acc * 10 + d) 0 digits.

(** [digits.padEnd(length, "0")] *)
Definition padEnd (width : nat) (digits : list Z) : list Z :=
  digits ++ replicate (width - length digits) 0.

(** [value.toString().padStart(width, "0")] for [0 <= value < 10 ^ width]. *)
Fixpoint fixed_digits (width : nat) (value : Z) : list Z :=
  match width with
  | O => []
  | S width => fixed_digits width (value / 10) ++ [value mod 10]
  end.

(** [digits.replace(/0+$/u, "")] *)
Fixpoint strip_zeros (digits : list Z) : list Z :=
  match digits with
  | [] => []
  | d :: rest =>
      match strip_zeros rest with
      | [] => if d =? 0 then [] else [d]
      | rest' => d :: rest'
      end
  end.

Definition policyEvaluationTimestampOrderKey (value : PolicyEvaluationTime) : Z :=
  wholeSeconds value * 1000 * POLICY_EVALUATION_TIME_UNITS_PER_MILLISECOND +
  decimal_value (padEnd MAX_POSTGRES_TIMESTAMP_FRACTION_DIGITS (fractionDigits value)).

Abbreviation time := policyEvaluationTimestampOrderKey.

(** The largest time value of a [Date], in milliseconds. *)
Definition MAX_DATE_MILLISECONDS : Z := 8640000000000000.

Definition addPolicyEvaluationMilliseconds (value : PolicyEvaluationTime) (duration : Z) :
    res PolicyEvaluationTime :=
  reject_when (negb (isSafeInteger duration) || (duration <? 0)) RangeError ;;
  parsed ← parse PolicyEvaluationTimeSchema value;
  let key := time parsed + duration * POLICY_EVALUATION_TIME_UNITS_PER_MILLISECOND in
  let seconds := Z.quot key unitsPerSecond in
  let fraction := Z.rem key unitsPerSecond in
  let '(seconds, fraction) :=
    if fraction <? 0 then (seconds - 1, fraction + unitsPerSecond) else (seconds, fraction) in
  reject_when (MAX_DATE_MILLISECONDS <? Z.abs (seconds * 1000)) RangeError ;;
  let digits := strip_zeros (fixed_digits 30 fraction) in
  parse PolicyEvaluationTimeSchema {|
    wholeSeconds := seconds;
    fractionDigits := if (length digits =? 0)%nat then [0; 0; 0] else digits
  |}.

Definition earlierPolicyEvaluationTime (left right : PolicyEvaluationTime) : PolicyEvaluationTime :=
  if time left <=? time right then left else right.

Definition addPolicyEvaluationMillisecondsUpTo (value : PolicyEvaluationTime) (duration : Z)
    (ceiling : PolicyEvaluationTime) : res PolicyEvaluationTime :=
  reject_when (negb (isSafeInteger duration) || (duration <? 0)) RangeError ;;
  limit ← parse PolicyEvaluationTimeSchema ceiling;
  parsed ← parse PolicyEvaluationTimeSchema value;
  let target := time parsed + duration * POLICY_EVALUATION_TIME_UNITS_PER_MILLISECOND in
  if time limit <=? target then Ok limit else addPolicyEvaluationMilliseconds value duration.

#[global] Arguments POLICY_EVALUATION_TIME_UNITS_PER_MILLISECOND : simpl never.
#[global] Arguments unitsPerSecond : simpl never.
#[global] Arguments policyEvaluationTimestampOrderKey : simpl never.
#[global] Arguments PolicyEvaluationTimeSchema : simpl never.
#[local] Arguments Z.mul : simpl never.
#[local] Arguments Z.pow : simpl never.
#[local] Arguments Z.quot : simpl never.
#[local] Arguments Z.rem : simpl never.
#[local] Arguments Z.div : simpl never.

(** ** Digits *)

Lemma decimal_value_app l k :
  decimal_value (l ++ k) = decimal_value l * 10 ^ Z.of_nat (length k) + decimal_value k.
Proof.
  induction k as [|d k IH] using rev_ind; [rewrite app_nil_r; unfold decimal_value at 3; simpl; lia|].
  rewrite app_assoc. unfold decimal_value in *. rewrite !(foldl_app _ _ [d]), IH, length_app, Nat2Z.inj_add, Z.pow_add_r by lia.
  simpl. rewrite Z.pow_1_r. ring.
Qed.

Lemma decimal_value_bound l :
  forallb is_decimal_digit l = true -> 0 <= decimal_value l < 10 ^ Z.of_nat (length l).
Proof.
  induction l as [|d l IH] using rev_ind; [unfold decimal_value; simpl; lia|]. rewrite forallb_app, andb_true_iff.
  intros [Hl Hd]. specialize (IH Hl). rewrite decimal_value_app, length_app. simpl in *.
  unfold is_decimal_digit in Hd. breflect.
  rewrite Nat2Z.inj_add, Z.pow_add_r by lia. change (decimal_value [d]) with d.
  change (10 ^ Z.of_nat 1) with 10. lia.
Qed.

Lemma length_fixed_digits n v : length (fixed_digits n v) = n.
Proof. revert v; induction n as [|n IH]; intros v; simpl; [done|]. rewrite length_app, IH. simpl. lia. Qed.

Lemma fixed_digits_valid n v : forallb is_decimal_digit (fixed_digits n v) = true.
Proof.
  revert v; induction n as [|n IH]; intros v; simpl; [done|]. rewrite forallb_app, IH. simpl.
  unfold is_decimal_digit. pose proof (Z.mod_pos_bound v 10). breflect. split; [lia|done].
Qed.

Lemma decimal_value_fixed n v : 0 <= v < 10 ^ Z.of_nat n -> decimal_value (fixed_digits n v) = v.
Proof.
  revert v; induction n as [|n IH]; intros v Hv; simpl fixed_digits.
  { simpl in Hv. unfold decimal_value. simpl. lia. }
  rewrite Nat2Z.inj_succ, Z.pow_succ_r in Hv by lia.
  rewrite decimal_value_app, IH.
  - unfold decimal_value. simpl. pose proof (Z.div_mod v 10). lia.
  - split; [apply Z.div_pos; lia|apply Z.div_lt_upper_bound; lia].
Qed.

Lemma strip_zeros_spec l : exists n, l = strip_zeros l ++ replicate n 0.
Proof.
  induction l as [|d l [n IH]]; simpl; [by exists 0%nat|].
  destruct (strip_zeros l) as [|e k].
  - destruct (Z.eqb_spec d 0) as [->|]; simpl in IH; [exists (S n)|exists n]; by rewrite IH at 1.
  - exists n. simpl. by rewrite IH at 1.
Qed.

Lemma strip_zeros_pad n l : length l = n -> padEnd n (strip_zeros l) = l.
Proof.
  intros Hl. destruct (strip_zeros_spec l) as [m E]. unfold padEnd.
  assert (n - length (strip_zeros l) = m)%nat as ->.
  { rewrite <- Hl. rewrite E at 1. rewrite length_app, length_replicate. lia. }
  by rewrite <- E.
Qed.

Lemma strip_zeros_valid l :
  forallb is_decimal_digit l = true -> forallb is_decimal_digit (strip_zeros l) = true.
Proof.
  destruct (strip_zeros_spec l) as [m E]. rewrite E at 1. rewrite forallb_app, andb_true_iff. tauto.
Qed.

Lemma strip_zeros_length l : (length (strip_zeros l) <= length l)%nat.
Proof. destruct (strip_zeros_spec l) as [m E]. rewrite E at 2. rewrite length_app. lia. Qed.

(** ** Order keys *)

Lemma units_second : unitsPerSecond = 10 ^ 30.
Proof. reflexivity. Qed.

Definition fraction_value (value : PolicyEvaluationTime) : Z :=
  decimal_value (padEnd MAX_POSTGRES_TIMESTAMP_FRACTION_DIGITS (fractionDigits value)).

Lemma time_seconds value : time value = wholeSeconds value * unitsPerSecond + fraction_value value.
Proof. unfold policyEvaluationTimestampOrderKey, fraction_value, unitsPerSecond. lia. Qed.

Lemma fraction_bound value :
  PolicyEvaluationTimeSchema value = true -> 0 <= fraction_value value < unitsPerSecond.
Proof.
  unfold PolicyEvaluationTimeSchema. intros H.
  apply andb_true_iff in H as [[_ Hl]%andb_true_iff Hd]. apply Nat.leb_le in Hl.
  rewrite units_second. change (10 ^ 30) with (10 ^ Z.of_nat 30).
  replace 30%nat with (length (padEnd MAX_POSTGRES_TIMESTAMP_FRACTION_DIGITS (fractionDigits value))).
  - apply decimal_value_bound. unfold padEnd. rewrite forallb_app, Hd. simpl.
    induction (_ - _)%nat as [|n IH]; simpl; auto.
  - unfold padEnd. rewrite length_app, length_replicate.
    unfold MAX_POSTGRES_TIMESTAMP_FRACTION_DIGITS in *. lia.
Qed.

Lemma seconds_bound value :
  PolicyEvaluationTimeSchema value = true ->
  MIN_WHOLE_SECONDS <= wholeSeconds value <= MAX_WHOLE_SECONDS.
Proof. unfold PolicyEvaluationTimeSchema. rewrite !andb_true_iff, !Z.leb_le. tauto. Qed.

(** The truncating division of [BigInt], corrected to a floor. *)
Lemma floor_division key :
  (let seconds := Z.quot key unitsPerSecond in
   let fraction := Z.rem key unitsPerSecond in
   if fraction <? 0 then (seconds - 1, fraction + unitsPerSecond) else (seconds, fraction)) =
  (key / unitsPerSecond, key mod unitsPerSecond).
Proof.
  assert (Hu : 0 < unitsPerSecond) by (rewrite units_second; lia). cbv zeta.
  pose proof (Z.quot_rem' key unitsPerSecond) as E.
  assert (Hr : Z.abs (Z.rem key unitsPerSecond) < unitsPerSecond).
  { pose proof (Z.rem_bound_abs key unitsPerSecond). lia. }
  destruct (Z.ltb_spec (Z.rem key unitsPerSecond) 0); f_equal.
  - apply (Z.div_unique _ _ _ (Z.rem key unitsPerSecond + unitsPerSecond)); lia.
  - apply (Z.mod_unique _ _ (Z.quot key unitsPerSecond - 1)); lia.
  - apply (Z.div_unique _ _ _ (Z.rem key unitsPerSecond)); lia.
  - apply (Z.mod_unique _ _ (Z.quot key unitsPerSecond)); lia.
Qed.

(** The text the arithmetic prints for a key. *)
Definition time_of_key (key : Z) : PolicyEvaluationTime :=
  let digits := strip_zeros (fixed_digits 30 (key mod unitsPerSecond)) in
  {| wholeSeconds := key / unitsPerSecond;
     fractionDigits := if (length digits =? 0)%nat then [0; 0; 0] else digits |}.

Lemma time_of_key_fraction key : fraction_value (time_of_key key) = key mod unitsPerSecond.
Proof.
  assert (Hb : 0 <= key mod unitsPerSecond < 10 ^ Z.of_nat 30)
    by (apply (Z.mod_pos_bound key unitsPerSecond); rewrite units_second; lia).
  assert (Hv := decimal_value_fixed 30 _ Hb).
  unfold fraction_value, time_of_key, MAX_POSTGRES_TIMESTAMP_FRACTION_DIGITS. cbn [fractionDigits].
  pose proof (strip_zeros_pad 30 _ (length_fixed_digits 30 (key mod unitsPerSecond))) as Hp.
  destruct (Nat.eqb_spec (length (strip_zeros (fixed_digits 30 (key mod unitsPerSecond)))) 0) as [Hz|Hz].
  - apply nil_length_inv in Hz. rewrite Hz in Hp. rewrite <- Hv, <- Hp. reflexivity.
  - by rewrite Hp, Hv.
Qed.

Lemma time_of_key_time key : time (time_of_key key) = key.
Proof.
  rewrite time_seconds, time_of_key_fraction. cbn [time_of_key wholeSeconds].
  pose proof (Z.div_mod key unitsPerSecond). rewrite units_second in *. lia.
Qed.

Lemma time_of_key_valid key :
  PolicyEvaluationTimeSchema (time_of_key key) = true <->
  MIN_WHOLE_SECONDS <= key / unitsPerSecond <= MAX_WHOLE_SECONDS.
Proof.
  unfold PolicyEvaluationTimeSchema. cbn [time_of_key wholeSeconds fractionDigits].
  rewrite !andb_true_iff, !Z.leb_le, Nat.leb_le. split; [tauto|]. intros H. split; [split|].
  - tauto.
  - case_match; [simpl; unfold MAX_POSTGRES_TIMESTAMP_FRACTION_DIGITS; lia|].
    etrans; [apply strip_zeros_length|]. by rewrite length_fixed_digits.
  - case_match; [done|]. apply strip_zeros_valid, fixed_digits_valid.
Qed.

(** [PolicyEvaluationTimeSchema] bounds the key. *)
Definition MIN_TIME_KEY : Z := MIN_WHOLE_SECONDS * unitsPerSecond.
Definition MAX_TIME_KEY : Z := (MAX_WHOLE_SECONDS + 1) * unitsPerSecond.

Lemma time_bound value :
  PolicyEvaluationTimeSchema value = true -> MIN_TIME_KEY <= time value < MAX_TIME_KEY.
Proof.
  intros H. pose proof (fraction_bound _ H). pose proof (seconds_bound _ H).
  rewrite time_seconds. unfold MIN_TIME_KEY, MAX_TIME_KEY. rewrite units_second in *. lia.
Qed.

Lemma key_seconds_bound key :
  MIN_TIME_KEY <= key < MAX_TIME_KEY <->
  MIN_WHOLE_SECONDS <= key / unitsPerSecond <= MAX_WHOLE_SECONDS.
Proof.
  unfold MIN_TIME_KEY, MAX_TIME_KEY. assert (0 < unitsPerSecond) by (rewrite units_second; lia). split.
  - intros [Hl Hu]. split.
    + apply Z.div_le_lower_bound; lia.
    + enough (key / unitsPerSecond < MAX_WHOLE_SECONDS + 1) by lia. apply Z.div_lt_upper_bound; lia.
  - pose proof (Z.div_mod key unitsPerSecond). pose proof (Z.mod_pos_bound key unitsPerSecond). nia.
Qed.

Definition duration_ok (duration : Z) : Prop := 0 <= duration <= MAX_SAFE_INTEGER.

Lemma duration_guard duration :
  negb (isSafeInteger duration) || (duration <? 0) = false <-> duration_ok duration.
Proof.
  unfold duration_ok. rewrite orb_false_iff, negb_false_iff, isSafeInteger_spec, Z.ltb_ge. lia.
Qed.

(** The sum while it has a four-digit year; then the text of the exact key. *)
Lemma add_milliseconds_run value duration :
  PolicyEvaluationTimeSchema value = true -> duration_ok duration ->
  time value + duration * POLICY_EVALUATION_TIME_UNITS_PER_MILLISECOND < MAX_TIME_KEY ->
  addPolicyEvaluationMilliseconds value duration =
    Ok (time_of_key (time value + duration * POLICY_EVALUATION_TIME_UNITS_PER_MILLISECOND)).
Proof.
  intros Hv Hd Hmax. unfold addPolicyEvaluationMilliseconds.
  rewrite (reject_known _ _ (proj2 (duration_guard _) Hd)). cbn [mbind result_bind].
  rewrite (parse_accepted _ _ Hv). cbn [mbind result_bind].
  set (key := _ + _) in *. pose proof (floor_division key) as E. cbv zeta in E |- *. rewrite E.
  assert (Hb : MIN_WHOLE_SECONDS <= key / unitsPerSecond <= MAX_WHOLE_SECONDS).
  { apply key_seconds_bound. pose proof (time_bound _ Hv). unfold duration_ok in Hd.
    assert (0 < POLICY_EVALUATION_TIME_UNITS_PER_MILLISECOND) by reflexivity. nia. }
  rewrite reject_known.
  2:{ apply Z.ltb_ge. unfold MIN_WHOLE_SECONDS, MAX_WHOLE_SECONDS, MAX_DATE_MILLISECONDS in *. lia. }
  cbn [mbind result_bind]. fold (time_of_key key). apply parse_accepted. by apply time_of_key_valid.
Qed.

(** Adding milliseconds to a policy-evaluation time is exact to its last
    fractional digit: the result denotes precisely the shifted instant, and the
    addition fails exactly when that instant leaves the four-digit years. *)
Theorem add_milliseconds_exact value duration :
  PolicyEvaluationTimeSchema value = true -> duration_ok duration ->
  match addPolicyEvaluationMilliseconds value duration with
  | Ok sum =>
      PolicyEvaluationTimeSchema sum = true /\
      time sum = time value + duration * POLICY_EVALUATION_TIME_UNITS_PER_MILLISECOND
  | Throw _ =>
      MAX_TIME_KEY <= time value + duration * POLICY_EVALUATION_TIME_UNITS_PER_MILLISECOND
  end.
Proof.
  intros Hv Hd. set (key := time value + duration * POLICY_EVALUATION_TIME_UNITS_PER_MILLISECOND).
  assert (Hmin : MIN_TIME_KEY <= key).
  { pose proof (time_bound _ Hv). unfold duration_ok in Hd. unfold key.
    assert (0 < POLICY_EVALUATION_TIME_UNITS_PER_MILLISECOND) by reflexivity. nia. }
  destruct (Z.lt_ge_cases key MAX_TIME_KEY) as [Hlt|Hge].
  - unfold key in Hlt. rewrite (add_milliseconds_run _ _ Hv Hd Hlt). fold key.
    rewrite time_of_key_time, time_of_key_valid. split; [|done]. by apply key_seconds_bound.
  - destruct (addPolicyEvaluationMilliseconds value duration) as [sum|] eqn:E; [|done].
    exfalso. unfold addPolicyEvaluationMilliseconds in E.
    rewrite (reject_known _ _ (proj2 (duration_guard _) Hd)) in E. cbn [mbind result_bind] in E.
    rewrite (parse_accepted _ _ Hv) in E. cbn [mbind result_bind] in E. fold key in E.
    pose proof (floor_division key) as Ef. cbv zeta in Ef, E. rewrite Ef in E. inv_res.
    match goal with H : PolicyEvaluationTimeSchema _ = true |- _ =>
      first [change (PolicyEvaluationTimeSchema (time_of_key key) = true) in H;
             apply time_of_key_valid, key_seconds_bound in H; lia | clear H] end.
Qed.

(** The sum capped by a ceiling always exists. *)
Lemma add_up_to_run value duration ceiling :
  PolicyEvaluationTimeSchema value = true -> PolicyEvaluationTimeSchema ceiling = true ->
  duration_ok duration ->
  exists sum, addPolicyEvaluationMillisecondsUpTo value duration ceiling = Ok sum /\
    PolicyEvaluationTimeSchema sum = true /\
    time sum = Z.min (time value + duration * POLICY_EVALUATION_TIME_UNITS_PER_MILLISECOND)
                 (time ceiling).
Proof.
  intros Hv Hc Hd. unfold addPolicyEvaluationMillisecondsUpTo.
  rewrite (reject_known _ _ (proj2 (duration_guard _) Hd)). cbn [mbind result_bind].
  rewrite (parse_accepted _ _ Hc), (parse_accepted _ _ Hv). cbn [mbind result_bind].
  set (key := time value + _). pose proof (time_bound _ Hc). pose proof (time_bound _ Hv).
  assert (0 < POLICY_EVALUATION_TIME_UNITS_PER_MILLISECOND) by reflexivity.
  destruct (Z.leb_spec (time ceiling) key) as [Hle|Hgt].
  - exists ceiling. split; [done|]. split; [done|]. lia.
  - unfold key in *. rewrite (add_milliseconds_run _ _ Hv Hd) by lia. eexists. split; [done|].
    rewrite time_of_key_time, time_of_key_valid, <- key_seconds_bound. unfold duration_ok in Hd.
    split; [nia|lia].
Qed.

Lemma units_positive : 0 < POLICY_EVALUATION_TIME_UNITS_PER_MILLISECOND.
Proof. reflexivity. Qed.

#[global] Opaque POLICY_EVALUATION_TIME_UNITS_PER_MILLISECOND.
