(* ===== verification/PolicyEvaluationJob.v ===== *)
(** * The policy-evaluation job contract

    [contracts/src/policy-evaluation-{request,job-fence,acquisition-allowance,
    attempt,job,job-snapshot}.ts]: the request with its frozen limits, worker
    fences and leases, attempts with their usage and closure, the scheduler
    projection of a job, and [PolicyEvaluationJobSnapshotSchema], the complete
    graph every scheduler transition parses and must produce.  A schema is a
    boolean function: the issues a refinement collects matter only by being
    some or none.  The loop of the snapshot refinement over the attempts is a
    fold, whose first issue is the failure. *)

From S2P Require Import Prelude Errors Primitives PolicyTime.

(** ** Requests *)

Definition MAX_POLICY_RULES : Z := 128.
Definition MAX_POLICY_EVALUATION_ATTEMPTS : Z := 8.
Definition MAX_POLICY_EVALUATION_ACQUISITION_RECORDS : Z := 100000.
Definition MAX_POLICY_EVALUATION_ACQUISITION_RECORD_BYTES : Z := 64 * 1024 * 1024.
Definition MAX_POLICY_EVALUATION_ARTIFACT_READ_BYTES : Z := 256 * 1024 * 1024.
Definition MAX_POLICY_EVALUATION_RULE_EVALUATIONS : Z :=
  MAX_POLICY_RULES * MAX_POLICY_EVALUATION_ATTEMPTS.
Definition MAX_POLICY_EVALUATION_LEASE_MILLISECONDS : Z := 60000.
Definition MAX_POLICY_EVALUATION_HEARTBEAT_MILLISECONDS : Z := 10000.
Definition MAX_POLICY_EVALUATION_ATTEMPT_MILLISECONDS : Z := 15 * 60000.
Definition MAX_POLICY_EVALUATION_DEADLINE_MILLISECONDS : Z := 60 * 60000.
Definition MAX_POLICY_EVALUATION_BACKOFF_MILLISECONDS : Z := 60000.

Inductive PolicyEvaluationRetryableError : Type :=
| retryable_lease_expired
| retryable_source_revision_changed
| retryable_source_temporarily_unavailable
| retryable_worker_interrupted.

#[global] Instance PolicyEvaluationRetryableError_eq_dec : EqDecision PolicyEvaluationRetryableError.
Proof. solve_decision. Defined.

Definition policy_retryable_name (e : PolicyEvaluationRetryableError) : string :=
  match e with
  | retryable_lease_expired => "lease_expired"
  | retryable_source_revision_changed => "source_revision_changed"
  | retryable_source_temporarily_unavailable => "source_temporarily_unavailable"
  | retryable_worker_interrupted => "worker_interrupted"
  end.

(** [values.every((value, index) => index === 0 || (values[index - 1] ?? "") < value)] *)
Fixpoint strictly_sorted (values : list string) : bool :=
  match values with
  | [] => true
  | v :: rest =>
      match rest with
      | [] => true
      | w :: _ => string_lt v w && strictly_sorted rest
      end
  end.

Definition boundedInteger (minimum maximum value : Z) : bool :=
  (minimum <=? value) && (value <=? maximum).

Record PolicyEvaluationExecutionLimits := {
  heartbeatIntervalMilliseconds : Z;
  leaseDurationMilliseconds : Z;
  maxAcquisitionRecordBytes : Z;
  maxAcquisitionRecords : Z;
  maxArtifactReadBytes : Z;
  maxAttempts : Z;
  maxRuleEvaluations : Z;
  perAttemptTimeoutMilliseconds : Z;
  retryBackoffMilliseconds : Z;
  retryableErrors : list PolicyEvaluationRetryableError;
  totalDeadlineMilliseconds : Z;
}.

Definition PolicyEvaluationExecutionLimitsSchema (value : PolicyEvaluationExecutionLimits) : bool :=
  boundedInteger 100 MAX_POLICY_EVALUATION_HEARTBEAT_MILLISECONDS
    (heartbeatIntervalMilliseconds value) &&
  boundedInteger 1000 MAX_POLICY_EVALUATION_LEASE_MILLISECONDS (leaseDurationMilliseconds value) &&
  boundedInteger 1 MAX_POLICY_EVALUATION_ACQUISITION_RECORD_BYTES (maxAcquisitionRecordBytes value) &&
  boundedInteger 2 MAX_POLICY_EVALUATION_ACQUISITION_RECORDS (maxAcquisitionRecords value) &&
  boundedInteger 0 MAX_POLICY_EVALUATION_ARTIFACT_READ_BYTES (maxArtifactReadBytes value) &&
  boundedInteger 1 MAX_POLICY_EVALUATION_ATTEMPTS (maxAttempts value) &&
  boundedInteger 1 MAX_POLICY_EVALUATION_RULE_EVALUATIONS (maxRuleEvaluations value) &&
  boundedInteger 1000 MAX_POLICY_EVALUATION_ATTEMPT_MILLISECONDS
    (perAttemptTimeoutMilliseconds value) &&
  boundedInteger 0 MAX_POLICY_EVALUATION_BACKOFF_MILLISECONDS (retryBackoffMilliseconds value) &&
  (length (retryableErrors value) <=? 4)%nat &&
  strictly_sorted (policy_retryable_name <$> retryableErrors value) &&
  boundedInteger 1000 MAX_POLICY_EVALUATION_DEADLINE_MILLISECONDS
    (totalDeadlineMilliseconds value) &&
  negb (leaseDurationMilliseconds value <? heartbeatIntervalMilliseconds value * 3) &&
  negb (perAttemptTimeoutMilliseconds value <? leaseDurationMilliseconds value) &&
  negb (totalDeadlineMilliseconds value <? perAttemptTimeoutMilliseconds value) &&
  negb (MAX_POLICY_RULES * maxAttempts value <? maxRuleEvaluations value) &&
  (if maxAttempts value =? 1 then
     (length (retryableErrors value) =? 0)%nat && (retryBackoffMilliseconds value =? 0)
   else
     negb (length (retryableErrors value) =? 0)%nat &&
     negb (totalDeadlineMilliseconds value <=? retryBackoffMilliseconds value)).

Record ReleaseCandidateReference := {
  candidateRef_candidateId : string;
  candidateRef_candidateVersionId : string;
  candidateRef_definitionSha256 : string;
}.

Definition ReleaseCandidateReferenceSchema (r : ReleaseCandidateReference) : bool :=
  OpaqueIdSchema (candidateRef_candidateId r) && OpaqueIdSchema (candidateRef_candidateVersionId r) &&
  Sha256Schema (candidateRef_definitionSha256 r).

Record ReleasePolicyReference := {
  policyRef_definitionSha256 : string;
  policyRef_policyId : string;
  policyRef_policyVersionId : string;
}.

Definition ReleasePolicyReferenceSchema (r : ReleasePolicyReference) : bool :=
  Sha256Schema (policyRef_definitionSha256 r) && OpaqueIdSchema (policyRef_policyId r) &&
  OpaqueIdSchema (policyRef_policyVersionId r).

Record PolicyEvaluationRequestReference := {
  requestRef_definitionSha256 : string;
  requestRef_evaluationRequestId : string;
}.

Definition PolicyEvaluationRequestReferenceSchema (r : PolicyEvaluationRequestReference) : bool :=
  Sha256Schema (requestRef_definitionSha256 r) && OpaqueIdSchema (requestRef_evaluationRequestId r).

(** The algorithm and the schema version are literals and are left out. *)
Record PolicyEvaluationRequest := {
  request_candidate : ReleaseCandidateReference;
  request_evaluationRequestId : string;
  request_evaluationTime : PolicyEvaluationTime;
  request_limits : PolicyEvaluationExecutionLimits;
  request_policy : ReleasePolicyReference;
  request_createdAt : PolicyEvaluationTime;
  request_createdByPrincipalId : string;
  request_definitionSha256 : string;
  request_scope : EvidenceScope;
}.

(** The caller's part of a request. *)
Record PolicyEvaluationRequestDefinition := {
  definition_candidate : ReleaseCandidateReference;
  definition_evaluationRequestId : string;
  definition_evaluationTime : PolicyEvaluationTime;
  definition_limits : PolicyEvaluationExecutionLimits;
  definition_policy : ReleasePolicyReference;
}.

Definition PolicyEvaluationRequestDefinitionSchema (value : PolicyEvaluationRequestDefinition) : bool :=
  ReleaseCandidateReferenceSchema (definition_candidate value) &&
  OpaqueIdSchema (definition_evaluationRequestId value) &&
  PolicyEvaluationTimeSchema (definition_evaluationTime value) &&
  PolicyEvaluationExecutionLimitsSchema (definition_limits value) &&
  ReleasePolicyReferenceSchema (definition_policy value).

(** [policyEvaluationTimestampOrderKey("9999-12-31T23:59:59.999Z")] *)
Definition MAX_SERVER_TIME_KEY : Z :=
  time {| wholeSeconds := MAX_WHOLE_SECONDS; fractionDigits := [9; 9; 9] |}.

(** The instant [time(request.createdAt)] plus the frozen total deadline. *)
Definition request_deadline (request : PolicyEvaluationRequest) : Z :=
  time (request_createdAt request) +
  totalDeadlineMilliseconds (request_limits request) * POLICY_EVALUATION_TIME_UNITS_PER_MILLISECOND.

Definition PolicyEvaluationRequestSchema (value : PolicyEvaluationRequest) : bool :=
  ReleaseCandidateReferenceSchema (request_candidate value) &&
  OpaqueIdSchema (request_evaluationRequestId value) &&
  PolicyEvaluationTimeSchema (request_evaluationTime value) &&
  PolicyEvaluationExecutionLimitsSchema (request_limits value) &&
  ReleasePolicyReferenceSchema (request_policy value) &&
  UtcMillisecondTextSchema (request_createdAt value) &&
  OpaqueIdSchema (request_createdByPrincipalId value) &&
  Sha256Schema (request_definitionSha256 value) &&
  EvidenceScopeSchema (request_scope value) &&
  negb (MAX_SERVER_TIME_KEY <? request_deadline value).

(** ** References *)

Record PolicyEvaluationSnapshotReference := {
  snapshotRef_snapshotId : string;
  snapshotRef_definitionSha256 : string;
}.

Definition PolicyEvaluationSnapshotReferenceSchema (r : PolicyEvaluationSnapshotReference) : bool :=
  OpaqueIdSchema (snapshotRef_snapshotId r) && Sha256Schema (snapshotRef_definitionSha256 r).

Record PolicyEvaluationResultReference := {
  resultRef_evaluationId : string;
  resultRef_definitionSha256 : string;
}.

Definition PolicyEvaluationResultReferenceSchema (r : PolicyEvaluationResultReference) : bool :=
  OpaqueIdSchema (resultRef_evaluationId r) && Sha256Schema (resultRef_definitionSha256 r).

#[global] Instance PolicyEvaluationRequestReference_eq_dec :
  EqDecision PolicyEvaluationRequestReference.
Proof. solve_decision. Defined.
#[global] Instance PolicyEvaluationSnapshotReference_eq_dec :
  EqDecision PolicyEvaluationSnapshotReference.
Proof. solve_decision. Defined.
#[global] Instance PolicyEvaluationResultReference_eq_dec :
  EqDecision PolicyEvaluationResultReference.
Proof. solve_decision. Defined.

(** ** Fences and leases *)

Record PolicyEvaluationWorkerMutationFence := {
  pfence_jobId : string;
  pfence_attemptId : string;
  pfence_workerId : string;
  pfence_leaseId : string;
  pfence_fencingToken : Z;
  pfence_recoveryEpoch : Z;
}.

#[global] Instance PolicyEvaluationWorkerMutationFence_eq_dec :
  EqDecision PolicyEvaluationWorkerMutationFence.
Proof. solve_decision. Defined.

Definition PolicyEvaluationWorkerMutationFenceSchema (f : PolicyEvaluationWorkerMutationFence) : bool :=
  OpaqueIdSchema (pfence_jobId f) && OpaqueIdSchema (pfence_attemptId f) &&
  OpaqueIdSchema (pfence_workerId f) && OpaqueIdSchema (pfence_leaseId f) &&
  SafePositiveIntegerSchema (pfence_fencingToken f) &&
  SafeNonnegativeIntegerSchema (pfence_recoveryEpoch f).

Record PolicyEvaluationLease := {
  please_scope : EvidenceScope;
  please_mutationFence : PolicyEvaluationWorkerMutationFence;
  please_attemptSequence : Z;
  please_acquiredAt : PolicyEvaluationTime;
  please_heartbeatAt : PolicyEvaluationTime;
  please_expiresAt : PolicyEvaluationTime;
  please_attemptDeadlineAt : PolicyEvaluationTime;
  please_jobDeadlineAt : PolicyEvaluationTime;
}.

Definition PolicyEvaluationLeaseSchema (value : PolicyEvaluationLease) : bool :=
  EvidenceScopeSchema (please_scope value) &&
  PolicyEvaluationWorkerMutationFenceSchema (please_mutationFence value) &&
  boundedInteger 0 (MAX_POLICY_EVALUATION_ATTEMPTS - 1) (please_attemptSequence value) &&
  PolicyEvaluationTimeSchema (please_acquiredAt value) &&
  PolicyEvaluationTimeSchema (please_heartbeatAt value) &&
  PolicyEvaluationTimeSchema (please_expiresAt value) &&
  PolicyEvaluationTimeSchema (please_attemptDeadlineAt value) &&
  PolicyEvaluationTimeSchema (please_jobDeadlineAt value) &&
  negb (time (please_heartbeatAt value) <? time (please_acquiredAt value)) &&
  negb (time (please_expiresAt value) <=? time (please_heartbeatAt value)) &&
  negb (time (please_attemptDeadlineAt value) <? time (please_expiresAt value)) &&
  negb (time (please_jobDeadlineAt value) <? time (please_attemptDeadlineAt value)).

(** ** Usage *)

Record PolicyEvaluationUsage := {
  usage_reads : Z;
  usage_records : Z;
  usage_recordBytes : Z;
  usage_references : Z;
  usage_referenceBytes : Z;
  usage_artifactReadBytes : Z;
  usage_ruleEvaluations : Z;
}.

(** [Object.keys(usage)], as the fields they name. *)
Definition usage_keys : list (PolicyEvaluationUsage -> Z) :=
  [usage_reads; usage_records; usage_recordBytes; usage_references; usage_referenceBytes;
   usage_artifactReadBytes; usage_ruleEvaluations].

(** [some key: left[key] < right[key]] *)
Definition usage_below (left right : PolicyEvaluationUsage) : bool :=
  existsb (fun key => key left <? key right) usage_keys.

Definition count_ok : Z -> bool := boundedInteger 0 MAX_POLICY_EVALUATION_ACQUISITION_RECORDS.
Definition bytes_ok : Z -> bool := boundedInteger 0 MAX_POLICY_EVALUATION_ACQUISITION_RECORD_BYTES.

Definition PolicyEvaluationUsageSchema (value : PolicyEvaluationUsage) : bool :=
  count_ok (usage_reads value) && count_ok (usage_records value) &&
  bytes_ok (usage_recordBytes value) && count_ok (usage_references value) &&
  bytes_ok (usage_referenceBytes value) &&
  boundedInteger 0 MAX_POLICY_EVALUATION_ARTIFACT_READ_BYTES (usage_artifactReadBytes value) &&
  boundedInteger 0 MAX_POLICY_EVALUATION_RULE_EVALUATIONS (usage_ruleEvaluations value) &&
  negb (MAX_POLICY_EVALUATION_ACQUISITION_RECORD_BYTES <?
        usage_recordBytes value + usage_referenceBytes value).

Record PolicyEvaluationAcquisitionUsage := {
  acquired_reads : Z;
  acquired_records : Z;
  acquired_references : Z;
  acquired_recordBytes : Z;
  acquired_referenceBytes : Z;
}.

#[global] Instance PolicyEvaluationAcquisitionUsage_eq_dec :
  EqDecision PolicyEvaluationAcquisitionUsage.
Proof. solve_decision. Defined.

Definition PolicyEvaluationAcquisitionUsageSchema (value : PolicyEvaluationAcquisitionUsage) : bool :=
  count_ok (acquired_reads value) && count_ok (acquired_records value) &&
  count_ok (acquired_references value) && bytes_ok (acquired_recordBytes value) &&
  bytes_ok (acquired_referenceBytes value) &&
  negb (MAX_POLICY_EVALUATION_ACQUISITION_RECORD_BYTES <?
        acquired_recordBytes value + acquired_referenceBytes value).

Record PolicyEvaluationAcquisitionLimits := {
  allowed_reads : Z;
  allowed_records : Z;
  allowed_references : Z;
  allowed_recordAndReferenceBytes : Z;
}.

Definition PolicyEvaluationAcquisitionLimitsSchema (value : PolicyEvaluationAcquisitionLimits) : bool :=
  count_ok (allowed_reads value) && count_ok (allowed_records value) &&
  count_ok (allowed_references value) && bytes_ok (allowed_recordAndReferenceBytes value).

Record PolicyEvaluationAcquisitionAllowance := {
  allowance_allowanceId : string;
  allowance_mutationFence : PolicyEvaluationWorkerMutationFence;
  allowance_reservedAt : PolicyEvaluationTime;
  allowance_usageAtReservation : PolicyEvaluationAcquisitionUsage;
  allowance_limits : PolicyEvaluationAcquisitionLimits;
}.

Definition PolicyEvaluationAcquisitionAllowanceSchema (value : PolicyEvaluationAcquisitionAllowance) :
    bool :=
  OpaqueIdSchema (allowance_allowanceId value) &&
  PolicyEvaluationWorkerMutationFenceSchema (allowance_mutationFence value) &&
  PolicyEvaluationTimeSchema (allowance_reservedAt value) &&
  PolicyEvaluationAcquisitionUsageSchema (allowance_usageAtReservation value) &&
  PolicyEvaluationAcquisitionLimitsSchema (allowance_limits value).

(** ** Attempts *)

Inductive PolicyClosureStatus : Type :=
| closed_failed | closed_cancelled | closed_timed_out | closed_budget_exhausted.

Inductive PolicyClosureReason : Type :=
| reason_contract_rejected
| reason_acquisition_failed
| reason_execution_failed
| reason_cancellation_committed
| reason_deadline_reached
| reason_budget_limit_reached.

Inductive PolicyClosure : Type :=
| closure_completed (committedAt : PolicyEvaluationTime)
| closure_interrupted (reason : PolicyEvaluationRetryableError) (committedAt : PolicyEvaluationTime)
| closure_ended (status : PolicyClosureStatus) (reason : PolicyClosureReason)
    (committedAt : PolicyEvaluationTime).

Definition closure_committedAt (closure : PolicyClosure) : PolicyEvaluationTime :=
  match closure with
  | closure_completed t | closure_interrupted _ t | closure_ended _ _ t => t
  end.

Definition is_completed_closure (closure : PolicyClosure) : bool :=
  match closure with closure_completed _ => true | _ => false end.

Definition closure_reason_ok (status : PolicyClosureStatus) (reason : PolicyClosureReason) : bool :=
  match status, reason with
  | closed_failed,
    (reason_contract_rejected | reason_acquisition_failed | reason_execution_failed) => true
  | closed_cancelled, reason_cancellation_committed => true
  | closed_timed_out, reason_deadline_reached => true
  | closed_budget_exhausted, reason_budget_limit_reached => true
  | _, _ => false
  end.

Inductive PolicyAttemptPhase : Type := phase_acquiring | phase_computing.

#[global] Instance PolicyAttemptPhase_eq_dec : EqDecision PolicyAttemptPhase.
Proof. solve_decision. Defined.

Record PolicyEvaluationAttempt := {
  pattempt_scope : EvidenceScope;
  pattempt_mutationFence : PolicyEvaluationWorkerMutationFence;
  pattempt_attemptSequence : Z;
  pattempt_startedAt : PolicyEvaluationTime;
  pattempt_deadlineAt : PolicyEvaluationTime;
  pattempt_phase : PolicyAttemptPhase;
  pattempt_snapshot : option PolicyEvaluationSnapshotReference;
  pattempt_usageAtStart : PolicyEvaluationUsage;
  pattempt_usageAtClose : option PolicyEvaluationUsage;
  pattempt_closure : option PolicyClosure;
}.

(** [value !== null] *)
Definition present {A} (value : option A) : bool :=
  match value with Some _ => true | None => false end.

(** What a closure demands of its attempt. *)
Definition closure_ok (attempt : PolicyEvaluationAttempt) (closure : PolicyClosure) : bool :=
  PolicyEvaluationTimeSchema (closure_committedAt closure) &&
  negb (time (closure_committedAt closure) <? time (pattempt_startedAt attempt)) &&
  match closure with
  | closure_completed _ => pattempt_phase attempt === phase_computing
  | closure_interrupted reason _ =>
      negb ((pattempt_phase attempt === phase_computing) &&
            (reason === retryable_source_revision_changed))
  | closure_ended status reason _ => closure_reason_ok status reason
  end.

Definition PolicyEvaluationAttemptSchema (value : PolicyEvaluationAttempt) : bool :=
  EvidenceScopeSchema (pattempt_scope value) &&
  PolicyEvaluationWorkerMutationFenceSchema (pattempt_mutationFence value) &&
  boundedInteger 0 (MAX_POLICY_EVALUATION_ATTEMPTS - 1) (pattempt_attemptSequence value) &&
  PolicyEvaluationTimeSchema (pattempt_startedAt value) &&
  PolicyEvaluationTimeSchema (pattempt_deadlineAt value) &&
  optional PolicyEvaluationSnapshotReferenceSchema (pattempt_snapshot value) &&
  PolicyEvaluationUsageSchema (pattempt_usageAtStart value) &&
  optional PolicyEvaluationUsageSchema (pattempt_usageAtClose value) &&
  negb (time (pattempt_deadlineAt value) <=? time (pattempt_startedAt value)) &&
  Bool.eqb (pattempt_phase value === phase_computing) (present (pattempt_snapshot value)) &&
  Bool.eqb (present (pattempt_closure value)) (present (pattempt_usageAtClose value)) &&
  optional (closure_ok value) (pattempt_closure value) &&
  optional (fun atClose => negb (usage_below atClose (pattempt_usageAtStart value)))
    (pattempt_usageAtClose value).

Inductive PolicyCancellationReason : Type :=
| operator_requested | superseded_request | incident_response.

#[global] Instance PolicyCancellationReason_eq_dec : EqDecision PolicyCancellationReason.
Proof. solve_decision. Defined.

Record PolicyEvaluationCancellation := {
  pcancel_jobId : string;
  pcancel_cancellationId : string;
  pcancel_scope : EvidenceScope;
  pcancel_requestedAt : PolicyEvaluationTime;
  pcancel_requestedByPrincipalId : string;
  pcancel_reason : PolicyCancellationReason;
}.

Definition PolicyEvaluationCancellationSchema (value : PolicyEvaluationCancellation) : bool :=
  OpaqueIdSchema (pcancel_jobId value) && OpaqueIdSchema (pcancel_cancellationId value) &&
  EvidenceScopeSchema (pcancel_scope value) &&
  PolicyEvaluationTimeSchema (pcancel_requestedAt value) &&
  OpaqueIdSchema (pcancel_requestedByPrincipalId value).

(** ** Jobs *)

Inductive PolicyEvaluationJobStatus : Type :=
| job_queued | job_acquiring | job_sealed | job_running | job_retry_ready
| job_completed | job_failed | job_timed_out | job_budget_exhausted | job_cancelled.

#[global] Instance PolicyEvaluationJobStatus_eq_dec : EqDecision PolicyEvaluationJobStatus.
Proof. solve_decision. Defined.

(** [PolicyEvaluationJobTerminalStatusSchema.safeParse(status).success] *)
Definition terminal_status (status : PolicyEvaluationJobStatus) : bool :=
  match status with
  | job_completed | job_failed | job_timed_out | job_budget_exhausted | job_cancelled => true
  | _ => false
  end.

(** [["acquiring", "sealed", "running"].includes(status)] *)
Definition leased_status (status : PolicyEvaluationJobStatus) : bool :=
  match status with job_acquiring | job_sealed | job_running => true | _ => false end.

Inductive PolicyEvaluationJobTerminalCode : Type :=
| code_evaluation_completed
| code_contract_rejected
| code_acquisition_failed
| code_execution_failed
| code_retries_exhausted
| code_deadline_reached
| code_budget_limit_reached
| code_cancellation_committed.

Definition terminal_code_ok (status : PolicyEvaluationJobStatus)
    (code : PolicyEvaluationJobTerminalCode) : bool :=
  match status, code with
  | job_completed, code_evaluation_completed => true
  | job_failed, (code_contract_rejected | code_acquisition_failed | code_execution_failed |
                 code_retries_exhausted) => true
  | job_timed_out, code_deadline_reached => true
  | job_budget_exhausted, code_budget_limit_reached => true
  | job_cancelled, code_cancellation_committed => true
  | _, _ => false
  end.

Record PolicyTerminal := {
  pterminal_status : PolicyEvaluationJobStatus;
  pterminal_code : PolicyEvaluationJobTerminalCode;
  pterminal_attemptId : option string;
  pterminal_committedAt : PolicyEvaluationTime;
}.

Definition PolicyTerminalSchema (value : PolicyTerminal) : bool :=
  terminal_status (pterminal_status value) && optional OpaqueIdSchema (pterminal_attemptId value) &&
  PolicyEvaluationTimeSchema (pterminal_committedAt value) &&
  terminal_code_ok (pterminal_status value) (pterminal_code value) &&
  negb ((pterminal_status value === job_completed) && negb (present (pterminal_attemptId value))).

Record PolicyEvaluationJob := {
  pjob_jobId : string;
  pjob_request : PolicyEvaluationRequestReference;
  pjob_definitionSha256 : string;
  pjob_scope : EvidenceScope;
  pjob_createdAt : PolicyEvaluationTime;
  pjob_createdByPrincipalId : string;
  pjob_deadlineAt : PolicyEvaluationTime;
  pjob_updatedAt : PolicyEvaluationTime;
  pjob_stateVersion : Z;
  pjob_recoveryEpoch : Z;
  pjob_lastFencingToken : Z;
  pjob_attemptCount : Z;
  pjob_status : PolicyEvaluationJobStatus;
  pjob_currentLease : option PolicyEvaluationLease;
  pjob_snapshot : option PolicyEvaluationSnapshotReference;
  pjob_result : option PolicyEvaluationResultReference;
  pjob_retryAt : option PolicyEvaluationTime;
  pjob_terminal : option PolicyTerminal;
}.

Definition lease_of_job_ok (job : PolicyEvaluationJob) (lease : PolicyEvaluationLease) : bool :=
  (pfence_jobId (please_mutationFence lease) === pjob_jobId job) &&
  (pfence_fencingToken (please_mutationFence lease) =? pjob_lastFencingToken job) &&
  (pfence_recoveryEpoch (please_mutationFence lease) =? pjob_recoveryEpoch job) &&
  sameScope (please_scope lease) (pjob_scope job) &&
  (please_attemptSequence lease + 1 =? pjob_attemptCount job) &&
  (please_jobDeadlineAt lease === pjob_deadlineAt job) &&
  negb (time (please_acquiredAt lease) <? time (pjob_createdAt job)) &&
  negb (time (pjob_updatedAt job) <? time (please_heartbeatAt lease)).

Definition terminal_of_job_ok (job : PolicyEvaluationJob) (terminal : PolicyTerminal) : bool :=
  (pterminal_status terminal === pjob_status job) &&
  negb (time (pjob_updatedAt job) <? time (pterminal_committedAt terminal)) &&
  negb (time (pterminal_committedAt terminal) <? time (pjob_createdAt job)).

Definition retry_of_job_ok (job : PolicyEvaluationJob) (retryAt : PolicyEvaluationTime) : bool :=
  negb (pjob_attemptCount job =? 0) && negb (time retryAt <? time (pjob_updatedAt job)) &&
  negb (time (pjob_deadlineAt job) <=? time retryAt).

Definition refinePolicyEvaluationJob (value : PolicyEvaluationJob) : bool :=
  let status := pjob_status value in
  negb (time (pjob_updatedAt value) <? time (pjob_createdAt value)) &&
  negb (time (pjob_deadlineAt value) <=? time (pjob_createdAt value)) &&
  Bool.eqb (terminal_status status) (present (pjob_terminal value)) &&
  optional (terminal_of_job_ok value) (pjob_terminal value) &&
  Bool.eqb (leased_status status) (present (pjob_currentLease value)) &&
  optional (lease_of_job_ok value) (pjob_currentLease value) &&
  Bool.eqb (pjob_attemptCount value =? 0) (pjob_lastFencingToken value =? 0) &&
  negb (((status === job_queued) || (status === job_acquiring)) && present (pjob_snapshot value)) &&
  negb (((status === job_sealed) || (status === job_running) || (status === job_completed)) &&
        negb (present (pjob_snapshot value))) &&
  Bool.eqb (status === job_completed) (present (pjob_result value)) &&
  Bool.eqb (status === job_retry_ready) (present (pjob_retryAt value)) &&
  optional (retry_of_job_ok value) (pjob_retryAt value) &&
  negb ((status === job_queued) && negb (pjob_attemptCount value =? 0)) &&
  optional (fun terminal =>
    Bool.eqb (pjob_attemptCount value =? 0) (negb (present (pterminal_attemptId terminal))))
    (pjob_terminal value).

Definition PolicyEvaluationJobSchema (value : PolicyEvaluationJob) : bool :=
  OpaqueIdSchema (pjob_jobId value) &&
  PolicyEvaluationRequestReferenceSchema (pjob_request value) &&
  Sha256Schema (pjob_definitionSha256 value) && EvidenceScopeSchema (pjob_scope value) &&
  PolicyEvaluationTimeSchema (pjob_createdAt value) &&
  OpaqueIdSchema (pjob_createdByPrincipalId value) &&
  PolicyEvaluationTimeSchema (pjob_deadlineAt value) &&
  PolicyEvaluationTimeSchema (pjob_updatedAt value) &&
  SafePositiveIntegerSchema (pjob_stateVersion value) &&
  SafeNonnegativeIntegerSchema (pjob_recoveryEpoch value) &&
  SafeNonnegativeIntegerSchema (pjob_lastFencingToken value) &&
  boundedInteger 0 MAX_POLICY_EVALUATION_ATTEMPTS (pjob_attemptCount value) &&
  optional PolicyEvaluationLeaseSchema (pjob_currentLease value) &&
  optional PolicyEvaluationSnapshotReferenceSchema (pjob_snapshot value) &&
  optional PolicyEvaluationResultReferenceSchema (pjob_result value) &&
  optional PolicyEvaluationTimeSchema (pjob_retryAt value) &&
  optional PolicyTerminalSchema (pjob_terminal value) &&
  refinePolicyEvaluationJob value.
