(* ===== verification/PolicyJobSnapshot.v ===== *)
(** * The complete scheduler graph

    [contracts/src/policy-evaluation-job-snapshot.ts]:
    [PolicyEvaluationJobSnapshotSchema], which ties a job to its request, its
    attempt history, its cumulative usage, its acquisition allowance and its
    cancellation. *)

From S2P Require Import Prelude Errors Primitives PolicyTime PolicyEvaluationJob.

(** [acquisitionAllowance] is absent ([None]), null ([Some None]) or a value. *)
Record PolicyEvaluationJobSnapshot := {
  graph_request : PolicyEvaluationRequest;
  graph_job : PolicyEvaluationJob;
  graph_attempts : list PolicyEvaluationAttempt;
  graph_cancellation : option PolicyEvaluationCancellation;
  graph_usage : PolicyEvaluationUsage;
  graph_acquisitionAllowance : option (option PolicyEvaluationAcquisitionAllowance);
}.

Definition outstanding_allowance (value : PolicyEvaluationJobSnapshot) :
    option PolicyEvaluationAcquisitionAllowance :=
  match graph_acquisitionAllowance value with Some (Some a) => Some a | _ => None end.

(** The job's lease carries exactly this fence. *)
Definition lease_fence_is (job : PolicyEvaluationJob) (fence : PolicyEvaluationWorkerMutationFence) :
    bool :=
  match pjob_currentLease job with
  | Some lease => please_mutationFence lease === fence
  | None => false
  end.

(** [time(attempts.at(-1)?.startedAt ?? job.createdAt)] *)
Definition latest_start (value : PolicyEvaluationJobSnapshot) : Z :=
  match last (graph_attempts value) with
  | Some attempt => time (pattempt_startedAt attempt)
  | None => time (pjob_createdAt (graph_job value))
  end.

Definition remaining_limits (limits : PolicyEvaluationExecutionLimits)
    (before : PolicyEvaluationAcquisitionUsage) (allowed : PolicyEvaluationAcquisitionLimits) : bool :=
  (allowed_reads allowed =? maxAcquisitionRecords limits - acquired_reads before) &&
  (allowed_records allowed =? maxAcquisitionRecords limits - acquired_records before) &&
  (allowed_references allowed =? maxAcquisitionRecords limits - acquired_references before) &&
  (allowed_recordAndReferenceBytes allowed =?
   maxAcquisitionRecordBytes limits - acquired_recordBytes before - acquired_referenceBytes before).

Definition usage_unchanged (before : PolicyEvaluationAcquisitionUsage) (usage : PolicyEvaluationUsage) :
    bool :=
  (acquired_reads before =? usage_reads usage) && (acquired_records before =? usage_records usage) &&
  (acquired_references before =? usage_references usage) &&
  (acquired_recordBytes before =? usage_recordBytes usage) &&
  (acquired_referenceBytes before =? usage_referenceBytes usage).

Definition allowance_of_graph_ok (value : PolicyEvaluationJobSnapshot)
    (allowance : PolicyEvaluationAcquisitionAllowance) : bool :=
  let job := graph_job value in
  (pjob_status job === job_acquiring) && negb (present (pjob_snapshot job)) &&
  negb (present (graph_cancellation value)) &&
  lease_fence_is job (allowance_mutationFence allowance) &&
  negb (time (pjob_updatedAt job) <? time (allowance_reservedAt allowance)) &&
  negb (time (allowance_reservedAt allowance) <? latest_start value) &&
  usage_unchanged (allowance_usageAtReservation allowance) (graph_usage value) &&
  remaining_limits (request_limits (graph_request value)) (allowance_usageAtReservation allowance)
    (allowance_limits allowance).

Definition usage_exceeds (limits : PolicyEvaluationExecutionLimits) (usage : PolicyEvaluationUsage) :
    bool :=
  (maxAcquisitionRecords limits <? usage_records usage) ||
  (maxAcquisitionRecords limits <? usage_reads usage) ||
  (maxAcquisitionRecords limits <? usage_references usage) ||
  (maxAcquisitionRecordBytes limits <? usage_recordBytes usage + usage_referenceBytes usage) ||
  (maxArtifactReadBytes limits <? usage_artifactReadBytes usage) ||
  (maxRuleEvaluations limits <? usage_ruleEvaluations usage).

(** The variables of the loop over the attempts. *)
Record HistoryCheck := {
  check_previousFence : Z;
  check_previousEpoch : Z;
  check_previousClosed : option PolicyEvaluationTime;
  check_boundSnapshot : option PolicyEvaluationSnapshotReference;
  check_attemptIds : list string;
  check_leaseIds : list string;
  check_priorUsage : option PolicyEvaluationUsage;
}.

Definition emptyHistory : HistoryCheck := {|
  check_previousFence := 0; check_previousEpoch := 0; check_previousClosed := None;
  check_boundSnapshot := None; check_attemptIds := []; check_leaseIds := [];
  check_priorUsage := None
|}.

(** What the loop demands of an attempt by itself. *)
Definition attempt_of_job_ok (request : PolicyEvaluationRequest) (job : PolicyEvaluationJob)
    (usage : PolicyEvaluationUsage) (attempt : PolicyEvaluationAttempt) : bool :=
  sameScope (pattempt_scope attempt) (pjob_scope job) &&
  (pfence_jobId (pattempt_mutationFence attempt) === pjob_jobId job) &&
  negb (pjob_recoveryEpoch job <? pfence_recoveryEpoch (pattempt_mutationFence attempt)) &&
  negb (time (pattempt_startedAt attempt) <? time (pjob_createdAt job)) &&
  negb (time (pjob_updatedAt job) <? time (pattempt_startedAt attempt)) &&
  (time (pattempt_deadlineAt attempt) =?
   Z.min (time (pattempt_startedAt attempt) +
          perAttemptTimeoutMilliseconds (request_limits request) *
          POLICY_EVALUATION_TIME_UNITS_PER_MILLISECOND) (request_deadline request)) &&
  optional (fun closure => negb (time (pjob_updatedAt job) <? time (closure_committedAt closure)))
    (pattempt_closure attempt) &&
  optional (fun atClose => negb (usage_below usage atClose)) (pattempt_usageAtClose attempt) &&
  negb (usage_below usage (pattempt_usageAtStart attempt)).

(** What it demands of an attempt after the ones before it. *)
Definition attempt_continues (check : HistoryCheck) (index : nat) (attempt : PolicyEvaluationAttempt) :
    bool :=
  let fence := pattempt_mutationFence attempt in
  negb (includes (check_attemptIds check) (pfence_attemptId fence)) &&
  negb (includes (check_leaseIds check) (pfence_leaseId fence)) &&
  (pattempt_attemptSequence attempt =? Z.of_nat index) &&
  negb (pfence_fencingToken fence <=? check_previousFence check) &&
  negb (pfence_recoveryEpoch fence <? check_previousEpoch check) &&
  ((index =? 0)%nat ||
   match check_previousClosed check with
   | Some closed => negb (time (pattempt_startedAt attempt) <? time closed)
   | None => false
   end) &&
  match pattempt_snapshot attempt, check_boundSnapshot check with
  | Some snapshot, Some bound => snapshot === bound
  | None, Some _ => false
  | _, None => true
  end &&
  ((index =? 0)%nat ||
   optional (fun prior => negb (usage_below (pattempt_usageAtStart attempt) prior))
     (check_priorUsage check)).

(** What the loop remembers of an attempt. *)
Definition remember (check : HistoryCheck) (attempt : PolicyEvaluationAttempt) : HistoryCheck := {|
  check_previousFence := pfence_fencingToken (pattempt_mutationFence attempt);
  check_previousEpoch := pfence_recoveryEpoch (pattempt_mutationFence attempt);
  check_previousClosed := closure_committedAt <$> pattempt_closure attempt;
  check_boundSnapshot :=
    match pattempt_snapshot attempt with
    | Some snapshot => Some snapshot
    | None => check_boundSnapshot check
    end;
  check_attemptIds := check_attemptIds check ++ [pfence_attemptId (pattempt_mutationFence attempt)];
  check_leaseIds := check_leaseIds check ++ [pfence_leaseId (pattempt_mutationFence attempt)];
  check_priorUsage := pattempt_usageAtClose attempt
|}.

Definition check_attempt (request : PolicyEvaluationRequest) (job : PolicyEvaluationJob)
    (usage : PolicyEvaluationUsage) (check : HistoryCheck)
    (indexed : nat * PolicyEvaluationAttempt) : result unit HistoryCheck :=
  let '(index, attempt) := indexed in
  reject_when (negb (attempt_of_job_ok request job usage attempt &&
                     attempt_continues check index attempt)) tt ;;
  Ok (remember check attempt).

Definition check_history (request : PolicyEvaluationRequest) (job : PolicyEvaluationJob)
    (usage : PolicyEvaluationUsage) (attempts : list PolicyEvaluationAttempt) :
    result unit HistoryCheck :=
  fold_result (check_attempt request job usage) emptyHistory (indexed attempts).

Definition request_of_job_ok (request : PolicyEvaluationRequest) (job : PolicyEvaluationJob) : bool :=
  sameScope (request_scope request) (pjob_scope job) &&
  (request_evaluationRequestId request === requestRef_evaluationRequestId (pjob_request job)) &&
  (request_definitionSha256 request === requestRef_definitionSha256 (pjob_request job)) &&
  negb (time (pjob_createdAt job) <? time (request_createdAt request)) &&
  (pjob_createdByPrincipalId job === request_createdByPrincipalId request) &&
  (time (pjob_deadlineAt job) =? request_deadline request).

Definition lease_of_attempt_ok (limits : PolicyEvaluationExecutionLimits)
    (latest : option PolicyEvaluationAttempt) (lease : PolicyEvaluationLease) : bool :=
  match latest with
  | Some latest =>
      negb (present (pattempt_closure latest)) &&
      (pattempt_mutationFence latest === please_mutationFence lease) &&
      (pattempt_deadlineAt latest === please_attemptDeadlineAt lease) &&
      (pattempt_startedAt latest === please_acquiredAt lease)
  | None => false
  end &&
  negb (leaseDurationMilliseconds limits * POLICY_EVALUATION_TIME_UNITS_PER_MILLISECOND <?
        time (please_expiresAt lease) - time (please_heartbeatAt lease)).

Definition terminal_of_attempt_ok (latest : option PolicyEvaluationAttempt) (terminal : PolicyTerminal) :
    bool :=
  match pterminal_attemptId terminal with
  | None => true
  | Some attemptId =>
      match latest with
      | Some latest =>
          (attemptId === pfence_attemptId (pattempt_mutationFence latest)) &&
          present (pattempt_closure latest)
      | None => false
      end
  end.

(** What the latest attempt and the job demand of each other. *)
Definition latest_of_job_ok (request : PolicyEvaluationRequest) (job : PolicyEvaluationJob)
    (check : HistoryCheck) (latest : option PolicyEvaluationAttempt) : bool :=
  match latest with
  | Some latest =>
      (pfence_fencingToken (pattempt_mutationFence latest) =? pjob_lastFencingToken job) &&
      (pjob_snapshot job === check_boundSnapshot check) &&
      negb (negb (present (pjob_currentLease job)) && negb (present (pattempt_closure latest))) &&
      optional (fun closure =>
        negb (is_completed_closure closure &&
              (time (pattempt_deadlineAt latest) <=? time (closure_committedAt closure))))
        (pattempt_closure latest)
  | None => true
  end &&
  optional (lease_of_attempt_ok (request_limits request) latest) (pjob_currentLease job) &&
  optional (terminal_of_attempt_ok latest) (pjob_terminal job) &&
  negb ((pjob_status job === job_completed) &&
        negb match latest with
             | Some latest =>
                 match pattempt_closure latest with
                 | Some closure => is_completed_closure closure
                 | None => false
                 end
             | None => false
             end).

Definition cancellation_of_job_ok (job : PolicyEvaluationJob)
    (cancellation : PolicyEvaluationCancellation) : bool :=
  sameScope (pcancel_scope cancellation) (pjob_scope job) &&
  (pcancel_jobId cancellation === pjob_jobId job) &&
  negb (time (pcancel_requestedAt cancellation) <? time (pjob_createdAt job)) &&
  negb (time (pjob_updatedAt job) <? time (pcancel_requestedAt cancellation)).

Definition refinePolicyEvaluationJobSnapshot (value : PolicyEvaluationJobSnapshot) : bool :=
  let request := graph_request value in
  let job := graph_job value in
  let attempts := graph_attempts value in
  optional (allowance_of_graph_ok value) (outstanding_allowance value) &&
  request_of_job_ok request job &&
  (pjob_attemptCount job =? Z.of_nat (length attempts)) &&
  negb (maxAttempts (request_limits request) <? Z.of_nat (length attempts)) &&
  negb ((pjob_status job === job_retry_ready) &&
        (maxAttempts (request_limits request) <=? Z.of_nat (length attempts))) &&
  negb (usage_exceeds (request_limits request) (graph_usage value)) &&
  match check_history request job (graph_usage value) attempts with
  | Ok check => latest_of_job_ok request job check (last attempts)
  | Throw _ => false
  end &&
  negb ((pjob_status job === job_cancelled) && negb (present (graph_cancellation value))) &&
  optional (cancellation_of_job_ok job) (graph_cancellation value).

Definition PolicyEvaluationJobSnapshotSchema (value : PolicyEvaluationJobSnapshot) : bool :=
  PolicyEvaluationRequestSchema (graph_request value) &&
  PolicyEvaluationJobSchema (graph_job value) &&
  (Z.of_nat (length (graph_attempts value)) <=? MAX_POLICY_EVALUATION_ATTEMPTS) &&
  forallb PolicyEvaluationAttemptSchema (graph_attempts value) &&
  optional PolicyEvaluationCancellationSchema (graph_cancellation value) &&
  PolicyEvaluationUsageSchema (graph_usage value) &&
  optional PolicyEvaluationAcquisitionAllowanceSchema (outstanding_allowance value) &&
  refinePolicyEvaluationJobSnapshot value.

(** ** Equality of graphs *)

#[global] Instance PolicyEvaluationExecutionLimits_eq_dec : EqDecision PolicyEvaluationExecutionLimits.
Proof. solve_decision. Defined.
#[global] Instance ReleaseCandidateReference_eq_dec : EqDecision ReleaseCandidateReference.
Proof. solve_decision. Defined.
#[global] Instance ReleasePolicyReference_eq_dec : EqDecision ReleasePolicyReference.
Proof. solve_decision. Defined.
#[global] Instance PolicyEvaluationRequest_eq_dec : EqDecision PolicyEvaluationRequest.
Proof. solve_decision. Defined.
#[global] Instance PolicyEvaluationLease_eq_dec : EqDecision PolicyEvaluationLease.
Proof. solve_decision. Defined.
#[global] Instance PolicyEvaluationUsage_eq_dec : EqDecision PolicyEvaluationUsage.
Proof. solve_decision. Defined.
#[global] Instance PolicyEvaluationAcquisitionLimits_eq_dec :
  EqDecision PolicyEvaluationAcquisitionLimits.
Proof. solve_decision. Defined.
#[global] Instance PolicyEvaluationAcquisitionAllowance_eq_dec :
  EqDecision PolicyEvaluationAcquisitionAllowance.
Proof. solve_decision. Defined.
#[global] Instance PolicyClosureStatus_eq_dec : EqDecision PolicyClosureStatus.
Proof. solve_decision. Defined.
#[global] Instance PolicyClosureReason_eq_dec : EqDecision PolicyClosureReason.
Proof. solve_decision. Defined.
#[global] Instance PolicyClosure_eq_dec : EqDecision PolicyClosure.
Proof. solve_decision. Defined.
#[global] Instance PolicyEvaluationAttempt_eq_dec : EqDecision PolicyEvaluationAttempt.
Proof. solve_decision. Defined.
#[global] Instance PolicyEvaluationCancellation_eq_dec : EqDecision PolicyEvaluationCancellation.
Proof. solve_decision. Defined.
#[global] Instance PolicyEvaluationJobTerminalCode_eq_dec : EqDecision PolicyEvaluationJobTerminalCode.
Proof. solve_decision. Defined.
#[global] Instance PolicyTerminal_eq_dec : EqDecision PolicyTerminal.
Proof. solve_decision. Defined.
#[global] Instance PolicyEvaluationJob_eq_dec : EqDecision PolicyEvaluationJob.
Proof. solve_decision. Defined.
#[global] Instance PolicyEvaluationJobSnapshot_eq_dec : EqDecision PolicyEvaluationJobSnapshot.
Proof. solve_decision. Defined.
