(* ===== verification/PolicyJobInvariant.v ===== *)
(** * The job graph contract in normal form

    [PolicyEvaluationJobSnapshotSchema] checks a graph record by record and
    collects issues.  Here the same condition is a proposition per record, with
    the job read by its status ([phase_ok]) and the attempt history read from
    its end ([latest_ok]); [graph_valid_iff] shows that the two agree.  The
    scheduler's theorems work on the normal form. *)

From S2P Require Import Prelude Errors Primitives PolicyTime PolicyEvaluationJob.
From S2P Require Import PolicyJobSnapshot.

#[global] Arguments PolicyEvaluationLeaseSchema : simpl never.
#[global] Arguments PolicyEvaluationAttemptSchema : simpl never.
#[global] Arguments PolicyEvaluationUsageSchema : simpl never.
#[global] Arguments PolicyEvaluationWorkerMutationFenceSchema : simpl never.

Lemma optional_Some {A} (ok : A -> bool) o :
  optional ok o = true <-> forall x, o = Some x -> ok x = true.
Proof. destruct o; simpl; naive_solver. Qed.

Lemma present_true {A} (o : option A) : present o = true <-> exists x, o = Some x.
Proof. destruct o; naive_solver. Qed.

Lemma present_false {A} (o : option A) : present o = false <-> o = None.
Proof. destruct o; naive_solver. Qed.

Lemma boundedInteger_spec low high v : boundedInteger low high v = true <-> low <= v <= high.
Proof. unfold boundedInteger. breflect. lia. Qed.

#[export] Hint Rewrite @present_true @present_false boundedInteger_spec sameScope_spec eqb_true_iff : breflect.

(** ** Usage *)

(** Every counter of [right] is at least that of [left]. *)
Definition usage_le (left right : PolicyEvaluationUsage) : Prop :=
  Forall (fun key => key left <= key right) usage_keys.

#[global] Instance usage_le_preorder : PreOrder usage_le.
Proof.
  split; [intros u; by repeat constructor|]. intros u v w Hu Hv. unfold usage_le in *.
  rewrite Forall_forall in *. intros key Hk. specialize (Hu _ Hk). specialize (Hv _ Hk). simpl in *. lia.
Qed.

Lemma usage_below_false left right : usage_below left right = false <-> usage_le right left.
Proof.
  unfold usage_below, usage_le. rewrite <- not_true_iff_false, existsb_exists, Forall_forall. split.
  - intros H key Hk. apply Z.nlt_ge. intros Hlt. apply H. exists key.
    split; [by apply list_elem_of_In|by apply Z.ltb_lt].
  - intros H (key & Hk & Hlt). apply list_elem_of_In, H in Hk. breflect. lia.
Qed.

#[export] Hint Rewrite usage_below_false : breflect.

(** ** Leases *)

Record lease_valid (lease : PolicyEvaluationLease) : Prop := {
  lv_scope : EvidenceScopeSchema (please_scope lease) = true;
  lv_fence : PolicyEvaluationWorkerMutationFenceSchema (please_mutationFence lease) = true;
  lv_sequence : 0 <= please_attemptSequence lease <= MAX_POLICY_EVALUATION_ATTEMPTS - 1;
  lv_acquired : PolicyEvaluationTimeSchema (please_acquiredAt lease) = true;
  lv_heartbeat : PolicyEvaluationTimeSchema (please_heartbeatAt lease) = true;
  lv_expires : PolicyEvaluationTimeSchema (please_expiresAt lease) = true;
  lv_attemptDeadline : PolicyEvaluationTimeSchema (please_attemptDeadlineAt lease) = true;
  lv_jobDeadline : PolicyEvaluationTimeSchema (please_jobDeadlineAt lease) = true;
  lv_order : time (please_acquiredAt lease) <= time (please_heartbeatAt lease) <
             time (please_expiresAt lease);
  lv_ends : time (please_expiresAt lease) <= time (please_attemptDeadlineAt lease) <=
            time (please_jobDeadlineAt lease);
}.

Lemma lease_valid_iff lease : PolicyEvaluationLeaseSchema lease = true <-> lease_valid lease.
Proof.
  unfold PolicyEvaluationLeaseSchema. breflect. split.
  - intros H. decompose [and] H. constructor; auto; lia.
  - intros []. tauto || (decompose [and] lv_order0; decompose [and] lv_ends0; tauto).
Qed.

(** A lease belongs to its job. *)
Record lease_bound (job : PolicyEvaluationJob) (lease : PolicyEvaluationLease) : Prop := {
  lb_valid : lease_valid lease;
  lb_job : pfence_jobId (please_mutationFence lease) = pjob_jobId job;
  lb_token : pfence_fencingToken (please_mutationFence lease) = pjob_lastFencingToken job;
  lb_epoch : pfence_recoveryEpoch (please_mutationFence lease) = pjob_recoveryEpoch job;
  lb_scope : please_scope lease = pjob_scope job;
  lb_sequence : please_attemptSequence lease + 1 = pjob_attemptCount job;
  lb_deadline : please_jobDeadlineAt lease = pjob_deadlineAt job;
  lb_acquired : time (pjob_createdAt job) <= time (please_acquiredAt lease);
  lb_heartbeat : time (please_heartbeatAt lease) <= time (pjob_updatedAt job);
}.

Lemma lease_bound_iff job lease :
  PolicyEvaluationLeaseSchema lease = true /\ lease_of_job_ok job lease = true <-> lease_bound job lease.
Proof.
  rewrite lease_valid_iff. unfold lease_of_job_ok. breflect. split.
  - intros [Hl H]. decompose [and] H. constructor; auto.
  - intros []. auto 10.
Qed.

(** ** Terminal records *)

Record terminal_bound (job : PolicyEvaluationJob) (terminal : PolicyTerminal) : Prop := {
  tb_status : pterminal_status terminal = pjob_status job;
  tb_id : optional OpaqueIdSchema (pterminal_attemptId terminal) = true;
  tb_time : PolicyEvaluationTimeSchema (pterminal_committedAt terminal) = true;
  tb_code : terminal_code_ok (pjob_status job) (pterminal_code terminal) = true;
  tb_order : time (pjob_createdAt job) <= time (pterminal_committedAt terminal) <=
             time (pjob_updatedAt job);
  tb_attempted : pjob_attemptCount job = 0 <-> pterminal_attemptId terminal = None;
  tb_completed : pjob_status job = job_completed -> pterminal_attemptId terminal <> None;
}.

(** ** Jobs, read by their status *)

Definition live_phase (job : PolicyEvaluationJob) : Prop :=
  pjob_result job = None /\ pjob_retryAt job = None /\ pjob_terminal job = None /\
  exists lease, pjob_currentLease job = Some lease /\ lease_bound job lease.

Definition ended_phase (job : PolicyEvaluationJob) : Prop :=
  pjob_currentLease job = None /\ pjob_retryAt job = None /\
  exists terminal, pjob_terminal job = Some terminal /\ terminal_bound job terminal.

Definition phase_ok (job : PolicyEvaluationJob) : Prop :=
  match pjob_status job with
  | job_queued =>
      pjob_currentLease job = None /\ pjob_snapshot job = None /\ pjob_result job = None /\
      pjob_retryAt job = None /\ pjob_terminal job = None /\ pjob_attemptCount job = 0
  | job_acquiring => live_phase job /\ pjob_snapshot job = None
  | job_sealed | job_running => live_phase job /\ pjob_snapshot job <> None
  | job_retry_ready =>
      pjob_currentLease job = None /\ pjob_result job = None /\ pjob_terminal job = None /\
      pjob_attemptCount job <> 0 /\
      exists retryAt, pjob_retryAt job = Some retryAt /\ PolicyEvaluationTimeSchema retryAt = true /\
        time (pjob_updatedAt job) <= time retryAt < time (pjob_deadlineAt job)
  | job_completed =>
      ended_phase job /\ pjob_snapshot job <> None /\
      exists result, pjob_result job = Some result /\
        PolicyEvaluationResultReferenceSchema result = true
  | job_failed | job_timed_out | job_budget_exhausted | job_cancelled =>
      ended_phase job /\ pjob_result job = None
  end.

(** What no transition changes. *)
Definition identity_ok (job : PolicyEvaluationJob) : bool :=
  OpaqueIdSchema (pjob_jobId job) && PolicyEvaluationRequestReferenceSchema (pjob_request job) &&
  Sha256Schema (pjob_definitionSha256 job) && EvidenceScopeSchema (pjob_scope job) &&
  PolicyEvaluationTimeSchema (pjob_createdAt job) &&
  OpaqueIdSchema (pjob_createdByPrincipalId job) && PolicyEvaluationTimeSchema (pjob_deadlineAt job).

Record job_valid (job : PolicyEvaluationJob) : Prop := {
  jv_identity : identity_ok job = true;
  jv_updated : PolicyEvaluationTimeSchema (pjob_updatedAt job) = true;
  jv_version : 1 <= pjob_stateVersion job <= MAX_SAFE_INTEGER;
  jv_epoch : 0 <= pjob_recoveryEpoch job <= MAX_SAFE_INTEGER;
  jv_token : 0 <= pjob_lastFencingToken job <= MAX_SAFE_INTEGER;
  jv_count : 0 <= pjob_attemptCount job <= MAX_POLICY_EVALUATION_ATTEMPTS;
  jv_snapshot : optional PolicyEvaluationSnapshotReferenceSchema (pjob_snapshot job) = true;
  jv_created : time (pjob_createdAt job) <= time (pjob_updatedAt job);
  jv_deadline : time (pjob_createdAt job) < time (pjob_deadlineAt job);
  jv_counters : pjob_attemptCount job = 0 <-> pjob_lastFencingToken job = 0;
  jv_phase : phase_ok job;
}.

Lemma terminal_bound_iff job terminal :
  terminal_status (pjob_status job) = true ->
  PolicyTerminalSchema terminal = true /\ terminal_of_job_ok job terminal = true /\
    Bool.eqb (pjob_attemptCount job =? 0) (negb (present (pterminal_attemptId terminal))) = true <->
  terminal_bound job terminal.
Proof.
  intros Ht. unfold PolicyTerminalSchema, terminal_of_job_ok. rewrite eqb_true_iff. breflect. split.
  - intros ([[[[_ Hid] Htime] Hcode] Hdone] & [[Hs Hu] Hc] & Ha). rewrite Hs in *.
    destruct (pterminal_attemptId terminal) eqn:E, (Z.eqb_spec (pjob_attemptCount job) 0); simpl in Ha;
      try discriminate; constructor; rewrite ?E; auto; try naive_solver; lia.
  - intros []. rewrite tb_status0. split_and!; auto; try lia.
    + destruct (decide (pjob_status job = job_completed)) as [E|]; [right|by left].
      destruct (pterminal_attemptId terminal); [eauto|by apply tb_completed0 in E].
    + destruct (pterminal_attemptId terminal) eqn:E, (Z.eqb_spec (pjob_attemptCount job) 0); simpl; naive_solver.
Qed.

(** The comparisons with a known status, computed. *)
Ltac known_status :=
  repeat match goal with
  | H : context [@bool_decide (@eq PolicyEvaluationJobStatus ?a ?b) ?d] |- _ =>
      let v := eval vm_compute in (@bool_decide (@eq PolicyEvaluationJobStatus a b) d) in
      change (@bool_decide (@eq PolicyEvaluationJobStatus a b) d) with v in H
  | |- context [@bool_decide (@eq PolicyEvaluationJobStatus ?a ?b) ?d] =>
      let v := eval vm_compute in (@bool_decide (@eq PolicyEvaluationJobStatus a b) d) in
      change (@bool_decide (@eq PolicyEvaluationJobStatus a b) d) with v
  end.

(** Which records each status has. *)
Definition flags_ok (job : PolicyEvaluationJob) : bool :=
  let status := pjob_status job in
  Bool.eqb (terminal_status status) (present (pjob_terminal job)) &&
  Bool.eqb (leased_status status) (present (pjob_currentLease job)) &&
  negb (((status === job_queued) || (status === job_acquiring)) && present (pjob_snapshot job)) &&
  negb (((status === job_sealed) || (status === job_running) || (status === job_completed)) &&
        negb (present (pjob_snapshot job))) &&
  Bool.eqb (status === job_completed) (present (pjob_result job)) &&
  Bool.eqb (status === job_retry_ready) (present (pjob_retryAt job)).

Lemma job_schema_parts job :
  PolicyEvaluationJobSchema job = true <->
  (identity_ok job = true /\ PolicyEvaluationTimeSchema (pjob_updatedAt job) = true /\
   1 <= pjob_stateVersion job <= MAX_SAFE_INTEGER /\
   0 <= pjob_recoveryEpoch job <= MAX_SAFE_INTEGER /\
   0 <= pjob_lastFencingToken job <= MAX_SAFE_INTEGER /\
   0 <= pjob_attemptCount job <= MAX_POLICY_EVALUATION_ATTEMPTS /\
   optional PolicyEvaluationSnapshotReferenceSchema (pjob_snapshot job) = true /\
   time (pjob_createdAt job) <= time (pjob_updatedAt job) /\
   time (pjob_createdAt job) < time (pjob_deadlineAt job) /\
   (pjob_attemptCount job = 0 <-> pjob_lastFencingToken job = 0)) /\
  flags_ok job = true /\
  (optional PolicyEvaluationResultReferenceSchema (pjob_result job) = true /\
   negb ((pjob_status job === job_queued) && negb (pjob_attemptCount job =? 0)) = true) /\
  (optional PolicyEvaluationLeaseSchema (pjob_currentLease job) = true /\
   optional (lease_of_job_ok job) (pjob_currentLease job) = true) /\
  (optional PolicyEvaluationTimeSchema (pjob_retryAt job) = true /\
   optional (retry_of_job_ok job) (pjob_retryAt job) = true) /\
  (optional PolicyTerminalSchema (pjob_terminal job) = true /\
   optional (terminal_of_job_ok job) (pjob_terminal job) = true /\
   optional (fun terminal =>
     Bool.eqb (pjob_attemptCount job =? 0) (negb (present (pterminal_attemptId terminal))))
     (pjob_terminal job) = true).
Proof.
  unfold PolicyEvaluationJobSchema, refinePolicyEvaluationJob, flags_ok, identity_ok.
  cbv zeta. rewrite <- !SafeNonnegativeIntegerSchema_spec, <- SafePositiveIntegerSchema_spec.
  rewrite <- (boundedInteger_spec 0 MAX_POLICY_EVALUATION_ATTEMPTS).
  rewrite <- (Z.ltb_ge (time (pjob_updatedAt job))), <- (Z.leb_gt (time (pjob_deadlineAt job))).
  assert (Hc : (pjob_attemptCount job = 0 <-> pjob_lastFencingToken job = 0) <->
    Bool.eqb (pjob_attemptCount job =? 0) (pjob_lastFencingToken job =? 0) = true).
  { destruct (Z.eqb_spec (pjob_attemptCount job) 0), (Z.eqb_spec (pjob_lastFencingToken job) 0);
      simpl; naive_solver. }
  rewrite Hc, <- !negb_true_iff, !andb_true_iff. tauto.
Qed.

Lemma retry_bound_iff job retryAt :
  PolicyEvaluationTimeSchema retryAt = true /\ retry_of_job_ok job retryAt = true <->
  pjob_attemptCount job <> 0 /\ PolicyEvaluationTimeSchema retryAt = true /\
  time (pjob_updatedAt job) <= time retryAt < time (pjob_deadlineAt job).
Proof. unfold retry_of_job_ok. breflect. tauto. Qed.

(** The records the status of a job calls for. *)
Definition records_of_status (job : PolicyEvaluationJob) : Prop :=
  match pjob_status job with
  | job_queued =>
      present (pjob_terminal job) = false /\ present (pjob_currentLease job) = false /\ present (pjob_snapshot job) = false /\
      present (pjob_result job) = false /\ present (pjob_retryAt job) = false
  | job_acquiring =>
      present (pjob_terminal job) = false /\ present (pjob_currentLease job) = true /\
      present (pjob_snapshot job) = false /\ present (pjob_result job) = false /\ present (pjob_retryAt job) = false
  | job_sealed | job_running =>
      present (pjob_terminal job) = false /\ present (pjob_currentLease job) = true /\
      present (pjob_snapshot job) = true /\ present (pjob_result job) = false /\ present (pjob_retryAt job) = false
  | job_retry_ready =>
      present (pjob_terminal job) = false /\ present (pjob_currentLease job) = false /\ present (pjob_result job) = false /\
      present (pjob_retryAt job) = true
  | job_completed =>
      present (pjob_terminal job) = true /\ present (pjob_currentLease job) = false /\
      present (pjob_snapshot job) = true /\ present (pjob_result job) = true /\
      present (pjob_retryAt job) = false
  | job_failed | job_timed_out | job_budget_exhausted | job_cancelled =>
      present (pjob_terminal job) = true /\ present (pjob_currentLease job) = false /\
      present (pjob_result job) = false /\ present (pjob_retryAt job) = false
  end.

Lemma flags_iff job : flags_ok job = true <-> records_of_status job.
Proof.
  unfold flags_ok, records_of_status. cbv zeta.
  generalize (present (pjob_terminal job)) (present (pjob_currentLease job))
    (present (pjob_snapshot job)) (present (pjob_result job)) (present (pjob_retryAt job)).
  intros [] [] [] [] []; destruct (pjob_status job); known_status; cbn; intuition congruence.
Qed.

Ltac known_presence :=
  repeat match goal with
  | H : _ /\ _ |- _ => destruct H
  | H : present ?o = false |- _ => apply present_false in H
  | H : present ?o = true |- _ => apply present_true in H as [? H]
  | H : ?o = None |- context [?o] => rewrite H
  | H : ?o = Some _ |- context [?o] => rewrite H
  | H : ?o = None, K : context [?o] |- _ => lazymatch K with H => fail | _ => rewrite H in K end
  | H : ?o = Some _, K : context [?o] |- _ => lazymatch K with H => fail | _ => rewrite H in K end
  end.

Lemma phase_iff job :
  (flags_ok job = true /\
   (optional PolicyEvaluationResultReferenceSchema (pjob_result job) = true /\
    negb ((pjob_status job === job_queued) && negb (pjob_attemptCount job =? 0)) = true) /\
   (optional PolicyEvaluationLeaseSchema (pjob_currentLease job) = true /\
    optional (lease_of_job_ok job) (pjob_currentLease job) = true) /\
   (optional PolicyEvaluationTimeSchema (pjob_retryAt job) = true /\
    optional (retry_of_job_ok job) (pjob_retryAt job) = true) /\
   (optional PolicyTerminalSchema (pjob_terminal job) = true /\
    optional (terminal_of_job_ok job) (pjob_terminal job) = true /\
    optional (fun terminal =>
      Bool.eqb (pjob_attemptCount job =? 0) (negb (present (pterminal_attemptId terminal))))
      (pjob_terminal job) = true)) <->
  phase_ok job.
Proof.
  rewrite flags_iff. assert (Hend := terminal_bound_iff job).
  assert (Hlease := lease_bound_iff job). assert (Hretry := retry_bound_iff job).
  unfold records_of_status, phase_ok, live_phase, ended_phase. destruct (pjob_status job) eqn:Es;
    cbn [terminal_status] in Hend; try specialize (fun t => Hend t eq_refl); known_status; split.
  all: intros H; decompose [and ex] H; clear H; known_presence; cbn [optional present andb negb] in *.
  all: repeat match goal with
    | H : lease_bound _ ?x |- _ => apply Hlease in H as [? ?]
    | H : terminal_bound _ ?x |- _ => apply Hend in H as (? & ? & ?)
    end.
  all: split_and?; try done; try (by destruct (pjob_snapshot job)).
  all: try (eexists; split; [reflexivity|]; first [by apply Hlease|by apply Hend|done]).
  all: try (rewrite ?negb_involutive in *; by apply Z.eqb_eq).
  all: specialize (Hretry x); first [tauto|exists x; tauto].
Qed.

Lemma job_valid_iff job : PolicyEvaluationJobSchema job = true <-> job_valid job.
Proof.
  rewrite job_schema_parts, phase_iff. split.
  - intros [H ?]. decompose [and] H. by constructor.
  - intros []. tauto.
Qed.

(** ** The attempt history, from its end *)

(** A job later in its life. *)
Record job_extends (job job' : PolicyEvaluationJob) : Prop := {
  je_scope : pjob_scope job' = pjob_scope job;
  je_job : pjob_jobId job' = pjob_jobId job;
  je_created : pjob_createdAt job' = pjob_createdAt job;
  je_epoch : pjob_recoveryEpoch job <= pjob_recoveryEpoch job';
  je_updated : time (pjob_updatedAt job) <= time (pjob_updatedAt job');
}.

Section history.
Context (request : PolicyEvaluationRequest).
Implicit Types (job : PolicyEvaluationJob) (usage : PolicyEvaluationUsage).

(** What the history demands of one attempt. *)
Record attempt_bound job usage (attempt : PolicyEvaluationAttempt) : Prop := {
  ab_scope : pattempt_scope attempt = pjob_scope job;
  ab_job : pfence_jobId (pattempt_mutationFence attempt) = pjob_jobId job;
  ab_epoch : pfence_recoveryEpoch (pattempt_mutationFence attempt) <= pjob_recoveryEpoch job;
  ab_started : time (pjob_createdAt job) <= time (pattempt_startedAt attempt) <=
               time (pjob_updatedAt job);
  ab_deadline : time (pattempt_deadlineAt attempt) =
    Z.min (time (pattempt_startedAt attempt) +
           perAttemptTimeoutMilliseconds (request_limits request) *
           POLICY_EVALUATION_TIME_UNITS_PER_MILLISECOND) (request_deadline request);
  ab_closed : forall closure, pattempt_closure attempt = Some closure ->
    time (closure_committedAt closure) <= time (pjob_updatedAt job);
  ab_usage : usage_le (pattempt_usageAtStart attempt) usage;
  ab_usageClosed : forall atClose, pattempt_usageAtClose attempt = Some atClose ->
    usage_le atClose usage;
}.

Lemma attempt_bound_iff job usage attempt :
  attempt_of_job_ok request job usage attempt = true <-> attempt_bound job usage attempt.
Proof.
  unfold attempt_of_job_ok. rewrite !andb_true_iff, !optional_Some.
  setoid_rewrite negb_true_iff. setoid_rewrite usage_below_false. setoid_rewrite Z.ltb_ge.
  breflect. split.
  - intros H. decompose [and] H. by constructor.
  - intros []. destruct ab_started0. tauto.
Qed.

Lemma attempt_bound_mono job job' usage usage' attempt :
  job_extends job job' -> usage_le usage usage' ->
  attempt_bound job usage attempt -> attempt_bound job' usage' attempt.
Proof.
  intros [] Hu []. constructor; try congruence; try lia.
  - rewrite je_created0. lia.
  - intros closure Hc. specialize (ab_closed0 _ Hc). lia.
  - by etrans.
  - intros atClose Hc. etrans; [by apply ab_usageClosed0|done].
Qed.

Lemma check_history_snoc job usage attempts attempt check :
  check_history request job usage (attempts ++ [attempt]) = Ok check <->
  exists before, check_history request job usage attempts = Ok before /\
    attempt_bound job usage attempt /\ attempt_continues before (length attempts) attempt = true /\
    check = remember before attempt.
Proof.
  unfold check_history. rewrite indexed_snoc, fold_result_app, bind_Ok.
  setoid_rewrite <- attempt_bound_iff. cbn [fold_result check_attempt].
  split; intros (before & H & Hb); exists before; (split; [done|]).
  - inv_ok. breflect. tauto.
  - destruct Hb as (Ha & Hc & ->). rewrite Ha, Hc. done.
Qed.

Lemma check_history_mono job job' usage usage' attempts check :
  job_extends job job' -> usage_le usage usage' ->
  check_history request job usage attempts = Ok check ->
  check_history request job' usage' attempts = Ok check.
Proof.
  intros Hj Hu. revert check. induction attempts as [|a l IH] using rev_ind; intros check; [done|].
  rewrite !check_history_snoc. intros (before & H & Ha & Hc & ->). exists before.
  split_and!; eauto using attempt_bound_mono.
Qed.

(** After a last attempt, the sealed snapshot the loop has bound is its own. *)
Lemma check_history_bound job usage attempts attempt check :
  check_history request job usage (attempts ++ [attempt]) = Ok check ->
  check_boundSnapshot check = pattempt_snapshot attempt.
Proof.
  rewrite check_history_snoc. intros (before & _ & _ & Hc & ->). cbn.
  unfold attempt_continues in Hc. rewrite !andb_true_iff in Hc.
  destruct Hc as [[_ Hs] _]. destruct (pattempt_snapshot attempt), (check_boundSnapshot before); done.
Qed.

Lemma check_history_ids job usage attempts check :
  check_history request job usage attempts = Ok check ->
  check_attemptIds check = (fun a => pfence_attemptId (pattempt_mutationFence a)) <$> attempts /\
  check_leaseIds check = (fun a => pfence_leaseId (pattempt_mutationFence a)) <$> attempts.
Proof.
  revert check. induction attempts as [|a l IH] using rev_ind; intros check; [by intros [= <-]|].
  rewrite check_history_snoc. intros (before & H & _ & _ & ->). destruct (IH _ H) as [E1 E2].
  cbn. by rewrite !fmap_app, E1, E2.
Qed.
End history.

(** ** Attempts *)

Definition attempt_frame_ok (attempt : PolicyEvaluationAttempt) : bool :=
  EvidenceScopeSchema (pattempt_scope attempt) &&
  PolicyEvaluationWorkerMutationFenceSchema (pattempt_mutationFence attempt) &&
  boundedInteger 0 (MAX_POLICY_EVALUATION_ATTEMPTS - 1) (pattempt_attemptSequence attempt) &&
  PolicyEvaluationTimeSchema (pattempt_startedAt attempt) &&
  PolicyEvaluationTimeSchema (pattempt_deadlineAt attempt) &&
  PolicyEvaluationUsageSchema (pattempt_usageAtStart attempt).

Record attempt_valid (attempt : PolicyEvaluationAttempt) : Prop := {
  av_frame : attempt_frame_ok attempt = true;
  av_order : time (pattempt_startedAt attempt) < time (pattempt_deadlineAt attempt);
  av_snapshot : optional PolicyEvaluationSnapshotReferenceSchema (pattempt_snapshot attempt) = true;
  av_phase : (pattempt_phase attempt === phase_computing) = present (pattempt_snapshot attempt);
  av_closure :
    match pattempt_closure attempt, pattempt_usageAtClose attempt with
    | None, None => True
    | Some closure, Some atClose =>
        closure_ok attempt closure = true /\ PolicyEvaluationUsageSchema atClose = true /\
        usage_le (pattempt_usageAtStart attempt) atClose
    | _, _ => False
    end;
}.

Lemma attempt_valid_iff attempt : PolicyEvaluationAttemptSchema attempt = true <-> attempt_valid attempt.
Proof.
  unfold PolicyEvaluationAttemptSchema.
  set (computing := pattempt_phase attempt === phase_computing).
  rewrite !andb_true_iff, !eqb_true_iff, !negb_true_iff, Z.leb_gt. split.
  - intros H. decompose [and] H. clear H. unfold computing in *. constructor; auto.
    + unfold attempt_frame_ok. rewrite !andb_true_iff. tauto.
    + destruct (pattempt_closure attempt), (pattempt_usageAtClose attempt); try done; simpl in *.
      breflect. tauto.
  - intros []. unfold attempt_frame_ok in av_frame0. rewrite !andb_true_iff in av_frame0.
    destruct (pattempt_closure attempt), (pattempt_usageAtClose attempt); try done; simpl; try tauto.
    rewrite negb_true_iff, usage_below_false. tauto.
Qed.

(** ** The graph *)

(** The latest attempt and its job. *)
Record latest_bound (request : PolicyEvaluationRequest) (job : PolicyEvaluationJob)
    (latest : PolicyEvaluationAttempt) : Prop := {
  lt_token : pfence_fencingToken (pattempt_mutationFence latest) = pjob_lastFencingToken job;
  lt_snapshot : pjob_snapshot job = pattempt_snapshot latest;
  lt_closed : pjob_currentLease job = None -> pattempt_closure latest <> None;
  lt_in_time : forall committedAt, pattempt_closure latest = Some (closure_completed committedAt) ->
    time committedAt < time (pattempt_deadlineAt latest);
  lt_lease : forall lease, pjob_currentLease job = Some lease ->
    pattempt_closure latest = None /\ pattempt_mutationFence latest = please_mutationFence lease /\
    pattempt_deadlineAt latest = please_attemptDeadlineAt lease /\
    pattempt_startedAt latest = please_acquiredAt lease /\
    time (please_expiresAt lease) - time (please_heartbeatAt lease) <=
      leaseDurationMilliseconds (request_limits request) * POLICY_EVALUATION_TIME_UNITS_PER_MILLISECOND;
  lt_terminal : forall terminal attemptId, pjob_terminal job = Some terminal ->
    pterminal_attemptId terminal = Some attemptId ->
    attemptId = pfence_attemptId (pattempt_mutationFence latest) /\ pattempt_closure latest <> None;
  lt_completed : pjob_status job = job_completed ->
    exists committedAt, pattempt_closure latest = Some (closure_completed committedAt);
}.

Definition unattempted (job : PolicyEvaluationJob) : Prop :=
  pjob_currentLease job = None /\ pjob_status job <> job_completed /\
  forall terminal, pjob_terminal job = Some terminal -> pterminal_attemptId terminal = None.

Definition latest_ok (request : PolicyEvaluationRequest) (job : PolicyEvaluationJob)
    (attempts : list PolicyEvaluationAttempt) : Prop :=
  match last attempts with
  | Some latest => latest_bound request job latest
  | None => unattempted job
  end.

Lemma latest_bound_iff request job check latest :
  check_boundSnapshot check = pattempt_snapshot latest ->
  latest_of_job_ok request job check (Some latest) = true <-> latest_bound request job latest.
Proof.
  intros Hb. unfold latest_of_job_ok. rewrite Hb, !andb_true_iff, !optional_Some.
  rewrite (negb_true_iff (_ && _)), (andb_false_iff (negb _)), !negb_false_iff.
  rewrite (negb_true_iff (bool_decide _ && _)), (andb_false_iff (bool_decide _)), negb_false_iff.
  split.
  - intros ([[([[Ht Hs] Hc] & Hin) Hl] Hterm] & Hd). breflect. constructor; auto.
    + intros E. rewrite E in Hc. destruct Hc as [[? [=]]|[? Hc]]. by rewrite Hc.
    + intros at_ E. specialize (Hin _ E). simpl in Hin. by breflect.
    + intros lease E. specialize (Hl _ E). unfold lease_of_attempt_ok in Hl. breflect. tauto.
    + intros terminal id E Ei. specialize (Hterm _ E). unfold terminal_of_attempt_ok in Hterm.
      rewrite Ei in Hterm. breflect. destruct Hterm as [-> [? ->]]. done.
    + intros E. destruct Hd as [Hd|Hd]; [done|]. destruct (pattempt_closure latest) as [[]|]; try done. eauto.
  - intros []. breflect. split_and!; auto.
    + destruct (pjob_currentLease job); [left; eauto|right].
      destruct (pattempt_closure latest); [eauto|]. by destruct lt_closed0.
    + intros closure E. breflect. destruct closure; simpl; auto.
    + intros lease E. unfold lease_of_attempt_ok. breflect. specialize (lt_lease0 _ E). tauto.
    + intros terminal E. unfold terminal_of_attempt_ok.
      destruct (pterminal_attemptId terminal) as [id|] eqn:Ei; [|done].
      destruct (lt_terminal0 _ _ E Ei) as [-> Hc]. breflect. split; [done|].
      destruct (pattempt_closure latest); [eauto|done].
    + destruct (decide (pjob_status job = job_completed)) as [E|E]; [right|by left].
      by destruct (lt_completed0 E) as [? ->].
Qed.

Lemma unattempted_iff request job check :
  latest_of_job_ok request job check None = true <-> unattempted job.
Proof.
  unfold latest_of_job_ok, unattempted, lease_of_attempt_ok, terminal_of_attempt_ok.
  rewrite !andb_true_iff, !optional_Some, andb_true_r, negb_true_iff, bool_decide_eq_false. split.
  - intros [[[_ Hl] Ht] Hs]. split_and!; [|done|].
    + destruct (pjob_currentLease job) as [lease|]; [|done]. by specialize (Hl lease eq_refl).
    + intros terminal E. specialize (Ht _ E). by destruct (pterminal_attemptId terminal).
  - intros (Hl & Hs & Ht). split_and!; [done| |  |done].
    + intros lease E. congruence.
    + intros terminal E. by rewrite (Ht _ E).
Qed.

Lemma latest_iff request job usage attempts check :
  check_history request job usage attempts = Ok check ->
  latest_of_job_ok request job check (last attempts) = true <-> latest_ok request job attempts.
Proof.
  unfold latest_ok. destruct attempts as [|a l _] using rev_ind; intros H.
  - apply unattempted_iff.
  - rewrite last_snoc. eapply latest_bound_iff, check_history_bound, H.
Qed.

Record graph_valid (graph : PolicyEvaluationJobSnapshot) : Prop := {
  gv_request : PolicyEvaluationRequestSchema (graph_request graph) = true;
  gv_binding : request_of_job_ok (graph_request graph) (graph_job graph) = true;
  gv_job : job_valid (graph_job graph);
  gv_attempts : Forall attempt_valid (graph_attempts graph);
  gv_count : pjob_attemptCount (graph_job graph) = Z.of_nat (length (graph_attempts graph));
  gv_max : Z.of_nat (length (graph_attempts graph)) <=
           maxAttempts (request_limits (graph_request graph));
  gv_retry : pjob_status (graph_job graph) = job_retry_ready ->
    Z.of_nat (length (graph_attempts graph)) < maxAttempts (request_limits (graph_request graph));
  gv_usage : PolicyEvaluationUsageSchema (graph_usage graph) = true;
  gv_limits : usage_exceeds (request_limits (graph_request graph)) (graph_usage graph) = false;
  gv_history : exists check,
    check_history (graph_request graph) (graph_job graph) (graph_usage graph) (graph_attempts graph) =
      Ok check;
  gv_latest : latest_ok (graph_request graph) (graph_job graph) (graph_attempts graph);
  gv_allowance : forall allowance, outstanding_allowance graph = Some allowance ->
    PolicyEvaluationAcquisitionAllowanceSchema allowance = true /\
    allowance_of_graph_ok graph allowance = true;
  gv_cancellation : forall cancellation, graph_cancellation graph = Some cancellation ->
    PolicyEvaluationCancellationSchema cancellation = true /\
    cancellation_of_job_ok (graph_job graph) cancellation = true;
  gv_cancelled : pjob_status (graph_job graph) = job_cancelled -> graph_cancellation graph <> None;
}.

Lemma Forall_forallb {A} (P : A -> Prop) (p : A -> bool) l :
  (forall x, p x = true <-> P x) -> forallb p l = true <-> Forall P l.
Proof.
  intros H. rewrite forallb_forall, Forall_forall. setoid_rewrite list_elem_of_In. naive_solver.
Qed.

Lemma graph_valid_iff graph : PolicyEvaluationJobSnapshotSchema graph = true <-> graph_valid graph.
Proof.
  unfold PolicyEvaluationJobSnapshotSchema, refinePolicyEvaluationJobSnapshot. cbv zeta.
  rewrite !andb_true_iff, !optional_Some, job_valid_iff, (Forall_forallb _ _ _ attempt_valid_iff).
  rewrite (negb_true_iff (_ <? _)), Z.ltb_ge, !(negb_true_iff (_ && _)), !andb_false_iff, Z.leb_gt.
  rewrite !bool_decide_eq_false, !negb_false_iff, negb_true_iff, Z.eqb_eq. split.
  - intros H. decompose [and] H. clear H.
    destruct (check_history _ _ _ _) as [check|] eqn:E; [|done].
    constructor; try done; try tauto; try by eauto.
    + by eapply latest_iff.
    + intros Hs. destruct (graph_cancellation graph); [done|]. simpl in *. intuition congruence.
  - intros []. destruct gv_history0 as [check E]. rewrite E, (latest_iff _ _ _ _ _ E).
    pose proof (jv_count _ gv_job0) as Hc. rewrite gv_count0 in Hc. rewrite Z.leb_le. split_and!; try done; try lia.
    all: try (intros ? Hx; by apply gv_allowance0 || by apply gv_cancellation0).
    + destruct (decide (pjob_status (graph_job graph) = job_retry_ready)); auto.
    + destruct (decide (pjob_status (graph_job graph) = job_cancelled)); [right|by left].
      destruct (graph_cancellation graph); [done|by destruct gv_cancelled0].
Qed.
