(* ===== verification/PolicyScheduler.v ===== *)
(** * The policy-evaluation scheduler

    [core/src/policy/policy-evaluation-scheduler-{claim,reclaim,interrupt,budget,
    cancel,complete,seal}.ts], [policy-evaluation-live-fence.ts],
    [policy-evaluation-acquisition-allowance.ts],
    [policy-evaluation-history-limit.ts] and
    [policy-evaluation-job-recovery.ts]: the pure transitions of a job graph.
    Each parses the graph, checks its guards in the order of the source,
    changes the parsed copy and parses the result.  A function takes the fields
    of the source's [input] object as arguments, in the order of its type. *)

From S2P Require Import Prelude Errors Primitives PolicyTime PolicyEvaluationJob.
From S2P Require Import PolicyJobSnapshot.

Definition MAX_POLICY_EVALUATION_JOB_HISTORY_ENTRIES : Z := 100000.

Definition transition_error {A} (reason : PolicyEvaluationSchedulerTransitionReason) : res A :=
  Throw (PolicyEvaluationSchedulerTransitionError reason).

Definition refuse_when (condition : bool) (reason : PolicyEvaluationSchedulerTransitionReason) :
    res unit :=
  reject_when condition (PolicyEvaluationSchedulerTransitionError reason).

(** ** Changing the parsed copy *)

(** The fields every transition writes. *)
Definition advance (job : PolicyEvaluationJob) (now : PolicyEvaluationTime)
    (status : PolicyEvaluationJobStatus) (lease : option PolicyEvaluationLease)
    (retryAt : option PolicyEvaluationTime) (terminal : option PolicyTerminal) : PolicyEvaluationJob := {|
  pjob_jobId := pjob_jobId job;
  pjob_request := pjob_request job;
  pjob_definitionSha256 := pjob_definitionSha256 job;
  pjob_scope := pjob_scope job;
  pjob_createdAt := pjob_createdAt job;
  pjob_createdByPrincipalId := pjob_createdByPrincipalId job;
  pjob_deadlineAt := pjob_deadlineAt job;
  pjob_updatedAt := now;
  pjob_stateVersion := pjob_stateVersion job + 1;
  pjob_recoveryEpoch := pjob_recoveryEpoch job;
  pjob_lastFencingToken := pjob_lastFencingToken job;
  pjob_attemptCount := pjob_attemptCount job;
  pjob_status := status;
  pjob_currentLease := lease;
  pjob_snapshot := pjob_snapshot job;
  pjob_result := pjob_result job;
  pjob_retryAt := retryAt;
  pjob_terminal := terminal
|}.

(** The fields one transition writes besides. *)
Definition rebind (job : PolicyEvaluationJob) (recoveryEpoch lastFencingToken attemptCount : Z)
    (snapshot : option PolicyEvaluationSnapshotReference)
    (result : option PolicyEvaluationResultReference) : PolicyEvaluationJob := {|
  pjob_jobId := pjob_jobId job;
  pjob_request := pjob_request job;
  pjob_definitionSha256 := pjob_definitionSha256 job;
  pjob_scope := pjob_scope job;
  pjob_createdAt := pjob_createdAt job;
  pjob_createdByPrincipalId := pjob_createdByPrincipalId job;
  pjob_deadlineAt := pjob_deadlineAt job;
  pjob_updatedAt := pjob_updatedAt job;
  pjob_stateVersion := pjob_stateVersion job;
  pjob_recoveryEpoch := recoveryEpoch;
  pjob_lastFencingToken := lastFencingToken;
  pjob_attemptCount := attemptCount;
  pjob_status := pjob_status job;
  pjob_currentLease := pjob_currentLease job;
  pjob_snapshot := snapshot;
  pjob_result := result;
  pjob_retryAt := pjob_retryAt job;
  pjob_terminal := pjob_terminal job
|}.

Definition set_graph (graph : PolicyEvaluationJobSnapshot) (job : PolicyEvaluationJob)
    (attempts : list PolicyEvaluationAttempt) : PolicyEvaluationJobSnapshot := {|
  graph_request := graph_request graph;
  graph_job := job;
  graph_attempts := attempts;
  graph_cancellation := graph_cancellation graph;
  graph_usage := graph_usage graph;
  graph_acquisitionAllowance := graph_acquisitionAllowance graph
|}.

Definition set_usage (graph : PolicyEvaluationJobSnapshot) (usage : PolicyEvaluationUsage)
    (allowance : option (option PolicyEvaluationAcquisitionAllowance)) :
    PolicyEvaluationJobSnapshot := {|
  graph_request := graph_request graph;
  graph_job := graph_job graph;
  graph_attempts := graph_attempts graph;
  graph_cancellation := graph_cancellation graph;
  graph_usage := usage;
  graph_acquisitionAllowance := allowance
|}.

Definition set_cancellation (graph : PolicyEvaluationJobSnapshot)
    (cancellation : PolicyEvaluationCancellation) : PolicyEvaluationJobSnapshot := {|
  graph_request := graph_request graph;
  graph_job := graph_job graph;
  graph_attempts := graph_attempts graph;
  graph_cancellation := Some cancellation;
  graph_usage := graph_usage graph;
  graph_acquisitionAllowance := graph_acquisitionAllowance graph
|}.

Definition close_attempt (closure : PolicyClosure) (usage : PolicyEvaluationUsage)
    (attempt : PolicyEvaluationAttempt) : PolicyEvaluationAttempt := {|
  pattempt_scope := pattempt_scope attempt;
  pattempt_mutationFence := pattempt_mutationFence attempt;
  pattempt_attemptSequence := pattempt_attemptSequence attempt;
  pattempt_startedAt := pattempt_startedAt attempt;
  pattempt_deadlineAt := pattempt_deadlineAt attempt;
  pattempt_phase := pattempt_phase attempt;
  pattempt_snapshot := pattempt_snapshot attempt;
  pattempt_usageAtStart := pattempt_usageAtStart attempt;
  pattempt_usageAtClose := Some usage;
  pattempt_closure := Some closure
|}.

Definition seal_attempt (snapshot : PolicyEvaluationSnapshotReference)
    (attempt : PolicyEvaluationAttempt) : PolicyEvaluationAttempt := {|
  pattempt_scope := pattempt_scope attempt;
  pattempt_mutationFence := pattempt_mutationFence attempt;
  pattempt_attemptSequence := pattempt_attemptSequence attempt;
  pattempt_startedAt := pattempt_startedAt attempt;
  pattempt_deadlineAt := pattempt_deadlineAt attempt;
  pattempt_phase := phase_computing;
  pattempt_snapshot := Some snapshot;
  pattempt_usageAtStart := pattempt_usageAtStart attempt;
  pattempt_usageAtClose := pattempt_usageAtClose attempt;
  pattempt_closure := pattempt_closure attempt
|}.

(** A write through [attempts.at(-1)]. *)
Fixpoint update_last {A} (f : A -> A) (l : list A) : list A :=
  match l with
  | [] => []
  | x :: rest => match rest with [] => [f x] | _ => x :: update_last f rest end
  end.

(** [if (latest?.closure === null) { latest.closure = closure; latest.usageAtClose = usage; }] *)
Definition close_open (closure : PolicyClosure) (usage : PolicyEvaluationUsage) :
    list PolicyEvaluationAttempt -> list PolicyEvaluationAttempt :=
  update_last (fun attempt =>
    if present (pattempt_closure attempt) then attempt else close_attempt closure usage attempt).

(** [latest?.mutationFence.attemptId ?? null] *)
Definition latest_attemptId (graph : PolicyEvaluationJobSnapshot) : option string :=
  (fun attempt => pfence_attemptId (pattempt_mutationFence attempt)) <$> last (graph_attempts graph).

Definition parse_snapshot (value : PolicyEvaluationJobSnapshot) : res PolicyEvaluationJobSnapshot :=
  parse PolicyEvaluationJobSnapshotSchema value.

(** ** The live fence *)

(** The guards [heartbeat], [reserve] and [requirePolicyEvaluationLiveFence] share. *)
Definition live_guards (job : PolicyEvaluationJob) (now : PolicyEvaluationTime) (recoveryEpoch : Z)
    (fence : PolicyEvaluationWorkerMutationFence) : res PolicyEvaluationLease :=
  match pjob_currentLease job with
  | None => transition_error transition_state_conflict
  | Some lease =>
      refuse_when (negb (leased_status (pjob_status job))) transition_state_conflict ;;
      refuse_when (negb (recoveryEpoch =? pjob_recoveryEpoch job) ||
                   (fence !== please_mutationFence lease)) transition_stale_fence ;;
      refuse_when (time now <? time (pjob_updatedAt job)) transition_state_conflict ;;
      refuse_when (time (please_expiresAt lease) <=? time now) transition_lease_expired ;;
      refuse_when ((time (please_attemptDeadlineAt lease) <=? time now) ||
                   (time (pjob_deadlineAt job) <=? time now)) transition_deadline_reached ;;
      Ok lease
  end.

Definition requirePolicyEvaluationLiveFence (snapshot : PolicyEvaluationJobSnapshot)
    (now : PolicyEvaluationTime) (recoveryEpoch : Z) (fence : PolicyEvaluationWorkerMutationFence) :
    res unit :=
  snapshot ← parse_snapshot snapshot;
  now ← parse PolicyEvaluationTimeSchema now;
  fence ← parse PolicyEvaluationWorkerMutationFenceSchema fence;
  live_guards (graph_job snapshot) now recoveryEpoch fence ;;
  Ok tt.

(** ** Claim and heartbeat *)

Definition increment (value : Z) : res Z :=
  refuse_when (MAX_SAFE_INTEGER <=? value) transition_counter_exhausted ;; Ok (value + 1).

Definition claimPolicyEvaluationJob (snapshot : PolicyEvaluationJobSnapshot)
    (now : PolicyEvaluationTime) (recoveryEpoch : Z) (attemptId leaseId workerId : string) :
    res PolicyEvaluationJobSnapshot :=
  result ← parse_snapshot snapshot;
  now ← parse PolicyEvaluationTimeSchema now;
  let job := graph_job result in
  let request := graph_request result in
  let attempts := graph_attempts result in
  refuse_when (negb (isSafeInteger recoveryEpoch) || (recoveryEpoch <? 0) ||
               negb (recoveryEpoch =? pjob_recoveryEpoch job)) transition_stale_fence ;;
  refuse_when ((pjob_status job !== job_queued) && (pjob_status job !== job_retry_ready))
    transition_state_conflict ;;
  refuse_when (time now <? time (pjob_updatedAt job)) transition_state_conflict ;;
  refuse_when (time (pjob_deadlineAt job) <=? time now) transition_deadline_reached ;;
  refuse_when match pjob_retryAt job with
              | Some retryAt => time now <? time retryAt
              | None => false
              end transition_retry_not_ready ;;
  refuse_when (maxAttempts (request_limits request) <=? Z.of_nat (length attempts))
    transition_retries_exhausted ;;
  attemptId ← parse OpaqueIdSchema attemptId;
  leaseId ← parse OpaqueIdSchema leaseId;
  workerId ← parse OpaqueIdSchema workerId;
  refuse_when
    (existsb (fun attempt =>
       (pfence_attemptId (pattempt_mutationFence attempt) === attemptId) ||
       (pfence_leaseId (pattempt_mutationFence attempt) === leaseId)) attempts)
    transition_identifier_reused ;;
  fencingToken ← increment (pjob_lastFencingToken job);
  let fence := {|
    pfence_jobId := pjob_jobId job;
    pfence_attemptId := attemptId;
    pfence_workerId := workerId;
    pfence_leaseId := leaseId;
    pfence_fencingToken := fencingToken;
    pfence_recoveryEpoch := recoveryEpoch
  |} in
  attemptDeadline ← addPolicyEvaluationMillisecondsUpTo now
    (perAttemptTimeoutMilliseconds (request_limits request)) (pjob_deadlineAt job);
  expiry ← addPolicyEvaluationMillisecondsUpTo now
    (leaseDurationMilliseconds (request_limits request)) attemptDeadline;
  let attempt := {|
    pattempt_scope := pjob_scope job;
    pattempt_mutationFence := fence;
    pattempt_attemptSequence := Z.of_nat (length attempts);
    pattempt_startedAt := now;
    pattempt_deadlineAt := attemptDeadline;
    pattempt_phase := if present (pjob_snapshot job) then phase_computing else phase_acquiring;
    pattempt_snapshot := pjob_snapshot job;
    pattempt_usageAtStart := graph_usage result;
    pattempt_usageAtClose := None;
    pattempt_closure := None
  |} in
  let lease := {|
    please_scope := pjob_scope job;
    please_mutationFence := fence;
    please_attemptSequence := Z.of_nat (length (attempts ++ [attempt])) - 1;
    please_acquiredAt := now;
    please_heartbeatAt := now;
    please_expiresAt := expiry;
    please_attemptDeadlineAt := attemptDeadline;
    please_jobDeadlineAt := pjob_deadlineAt job
  |} in
  increment (pjob_stateVersion job) ;;
  let job' := advance job now (if present (pjob_snapshot job) then job_running else job_acquiring)
    (Some lease) None (pjob_terminal job) in
  parse_snapshot (set_graph result
    (rebind job' (pjob_recoveryEpoch job) fencingToken (Z.of_nat (length (attempts ++ [attempt])))
       (pjob_snapshot job) (pjob_result job))
    (attempts ++ [attempt])).

Definition beat (lease : PolicyEvaluationLease) (now expiresAt : PolicyEvaluationTime) :
    PolicyEvaluationLease := {|
  please_scope := please_scope lease;
  please_mutationFence := please_mutationFence lease;
  please_attemptSequence := please_attemptSequence lease;
  please_acquiredAt := please_acquiredAt lease;
  please_heartbeatAt := now;
  please_expiresAt := expiresAt;
  please_attemptDeadlineAt := please_attemptDeadlineAt lease;
  please_jobDeadlineAt := please_jobDeadlineAt lease
|}.

Definition heartbeatPolicyEvaluationJob (snapshot : PolicyEvaluationJobSnapshot)
    (now : PolicyEvaluationTime) (recoveryEpoch : Z) (fence : PolicyEvaluationWorkerMutationFence) :
    res PolicyEvaluationJobSnapshot :=
  result ← parse_snapshot snapshot;
  now ← parse PolicyEvaluationTimeSchema now;
  fence ← parse PolicyEvaluationWorkerMutationFenceSchema fence;
  let job := graph_job result in
  let limits := request_limits (graph_request result) in
  lease ← live_guards job now recoveryEpoch fence;
  refuse_when
    (time now <? time (please_heartbeatAt lease) +
                 heartbeatIntervalMilliseconds limits * POLICY_EVALUATION_TIME_UNITS_PER_MILLISECOND)
    transition_heartbeat_not_ready ;;
  expiresAt ← addPolicyEvaluationMillisecondsUpTo now (leaseDurationMilliseconds limits)
    (please_attemptDeadlineAt lease);
  increment (pjob_stateVersion job) ;;
  parse_snapshot (set_graph result
    (advance job now (pjob_status job) (Some (beat lease now expiresAt)) (pjob_retryAt job)
       (pjob_terminal job)) (graph_attempts result)).

(** ** The acquisition allowance *)

Definition policyEvaluationMetadataUsage (snapshot : PolicyEvaluationJobSnapshot) :
    PolicyEvaluationAcquisitionUsage :=
  let usage := graph_usage snapshot in {|
    acquired_reads := usage_reads usage;
    acquired_records := usage_records usage;
    acquired_references := usage_references usage;
    acquired_recordBytes := usage_recordBytes usage;
    acquired_referenceBytes := usage_referenceBytes usage
  |}.

Definition reservePolicyEvaluationAcquisition (snapshot : PolicyEvaluationJobSnapshot)
    (now : PolicyEvaluationTime) (recoveryEpoch : Z) (fence : PolicyEvaluationWorkerMutationFence)
    (allowanceId : string) : res PolicyEvaluationJobSnapshot :=
  snapshot ← parse_snapshot snapshot;
  requirePolicyEvaluationLiveFence snapshot now recoveryEpoch fence ;;
  let job := graph_job snapshot in
  refuse_when ((pjob_status job !== job_acquiring) || present (pjob_snapshot job) ||
               present (outstanding_allowance snapshot)) transition_state_conflict ;;
  let usage := policyEvaluationMetadataUsage snapshot in
  let request := request_limits (graph_request snapshot) in
  let limits := {|
    allowed_reads := maxAcquisitionRecords request - acquired_reads usage;
    allowed_records := maxAcquisitionRecords request - acquired_records usage;
    allowed_references := maxAcquisitionRecords request - acquired_references usage;
    allowed_recordAndReferenceBytes :=
      maxAcquisitionRecordBytes request - acquired_recordBytes usage - acquired_referenceBytes usage
  |} in
  refuse_when ((allowed_reads limits <? 1) || (allowed_records limits <? 1) ||
               (allowed_recordAndReferenceBytes limits <? 1)) transition_budget_exhausted ;;
  refuse_when (MAX_SAFE_INTEGER <=? pjob_stateVersion job) transition_counter_exhausted ;;
  allowanceId ← parse OpaqueIdSchema allowanceId;
  let granted := set_usage snapshot (graph_usage snapshot) (Some (Some {|
    allowance_allowanceId := allowanceId;
    allowance_mutationFence := fence;
    allowance_reservedAt := now;
    allowance_usageAtReservation := usage;
    allowance_limits := limits |})) in
  parse_snapshot (set_graph granted
    (advance job now (pjob_status job) (pjob_currentLease job) (pjob_retryAt job) (pjob_terminal job))
    (graph_attempts snapshot)).

Definition fullAllowanceUsage (allowance : PolicyEvaluationAcquisitionAllowance) :
    PolicyEvaluationAcquisitionUsage := {|
  acquired_reads := allowed_reads (allowance_limits allowance);
  acquired_records := allowed_records (allowance_limits allowance);
  acquired_references := allowed_references (allowance_limits allowance);
  acquired_recordBytes := allowed_recordAndReferenceBytes (allowance_limits allowance);
  acquired_referenceBytes := 0
|}.

Definition add_metadata (usage : PolicyEvaluationUsage) (spent : PolicyEvaluationAcquisitionUsage) :
    PolicyEvaluationUsage := {|
  usage_reads := usage_reads usage + acquired_reads spent;
  usage_records := usage_records usage + acquired_records spent;
  usage_recordBytes := usage_recordBytes usage + acquired_recordBytes spent;
  usage_references := usage_references usage + acquired_references spent;
  usage_referenceBytes := usage_referenceBytes usage + acquired_referenceBytes spent;
  usage_artifactReadBytes := usage_artifactReadBytes usage;
  usage_ruleEvaluations := usage_ruleEvaluations usage
|}.

Definition charge (snapshot : PolicyEvaluationJobSnapshot) (usage : PolicyEvaluationAcquisitionUsage) :
    PolicyEvaluationJobSnapshot :=
  set_usage snapshot (add_metadata (graph_usage snapshot) usage) (Some None).

(** The charged graph, and whether an allowance was outstanding. *)
Definition chargeUncertainPolicyEvaluationAcquisition (snapshot : PolicyEvaluationJobSnapshot) :
    PolicyEvaluationJobSnapshot * bool :=
  match outstanding_allowance snapshot with
  | None => (snapshot, false)
  | Some allowance => (charge snapshot (fullAllowanceUsage allowance), true)
  end.

Definition budget_terminal (attemptId : option string) (now : PolicyEvaluationTime) : PolicyTerminal := {|
  pterminal_status := job_budget_exhausted;
  pterminal_code := code_budget_limit_reached;
  pterminal_attemptId := attemptId;
  pterminal_committedAt := now
|}.

Definition settlePolicyEvaluationAcquisition (snapshot : PolicyEvaluationJobSnapshot)
    (now : PolicyEvaluationTime) (recoveryEpoch : Z) (fence : PolicyEvaluationWorkerMutationFence)
    (allowanceId : string) (usage : option PolicyEvaluationAcquisitionUsage) :
    res PolicyEvaluationJobSnapshot :=
  snapshot ← parse_snapshot snapshot;
  requirePolicyEvaluationLiveFence snapshot now recoveryEpoch fence ;;
  match outstanding_allowance snapshot with
  | None => transition_error transition_state_conflict
  | Some allowance =>
      allowanceId ← parse OpaqueIdSchema allowanceId;
      refuse_when ((allowance_allowanceId allowance !== allowanceId) ||
                   (allowance_mutationFence allowance !== fence)) transition_state_conflict ;;
      spent ← match usage with
              | None => Ok (fullAllowanceUsage allowance)
              | Some usage => parse PolicyEvaluationAcquisitionUsageSchema usage
              end;
      let limits := allowance_limits allowance in
      refuse_when
        ((allowed_reads limits <? acquired_reads spent) ||
         (allowed_records limits <? acquired_records spent) ||
         (allowed_references limits <? acquired_references spent) ||
         (allowed_recordAndReferenceBytes limits <?
          acquired_recordBytes spent + acquired_referenceBytes spent)) transition_budget_exhausted ;;
      let job := graph_job snapshot in
      refuse_when (MAX_SAFE_INTEGER <=? pjob_stateVersion job) transition_counter_exhausted ;;
      let charged := charge snapshot spent in
      match usage with
      | Some _ =>
          parse_snapshot (set_graph charged
            (advance job now (pjob_status job) (pjob_currentLease job) (pjob_retryAt job)
               (pjob_terminal job)) (graph_attempts charged))
      | None =>
          match last (graph_attempts charged) with
          | None => transition_error transition_state_conflict
          | Some latest =>
              refuse_when (present (pattempt_closure latest)) transition_state_conflict ;;
              parse_snapshot (set_graph charged
                (advance job now job_budget_exhausted None None
                   (Some (budget_terminal (latest_attemptId charged) now)))
                (update_last (close_attempt
                   (closure_ended closed_budget_exhausted reason_budget_limit_reached now)
                   (graph_usage charged)) (graph_attempts charged)))
          end
      end
  end.

(** ** Work reservations *)

Definition no_work (delta : PolicyEvaluationUsage) : bool :=
  forallb (fun key => key delta =? 0) usage_keys.

Definition metadata_work (delta : PolicyEvaluationUsage) : bool :=
  existsb (fun value => negb (value =? 0))
    [usage_reads delta; usage_records delta; usage_references delta; usage_recordBytes delta;
     usage_referenceBytes delta].

Definition add_usage (usage delta : PolicyEvaluationUsage) : PolicyEvaluationUsage := {|
  usage_reads := usage_reads usage + usage_reads delta;
  usage_records := usage_records usage + usage_records delta;
  usage_recordBytes := usage_recordBytes usage + usage_recordBytes delta;
  usage_references := usage_references usage + usage_references delta;
  usage_referenceBytes := usage_referenceBytes usage + usage_referenceBytes delta;
  usage_artifactReadBytes := usage_artifactReadBytes usage + usage_artifactReadBytes delta;
  usage_ruleEvaluations := usage_ruleEvaluations usage + usage_ruleEvaluations delta
|}.

Definition reservePolicyEvaluationUsage (snapshot : PolicyEvaluationJobSnapshot)
    (now : PolicyEvaluationTime) (recoveryEpoch : Z) (fence : PolicyEvaluationWorkerMutationFence)
    (delta : PolicyEvaluationUsage) : res PolicyEvaluationJobSnapshot :=
  result ← parse_snapshot snapshot;
  now ← parse PolicyEvaluationTimeSchema now;
  fence ← parse PolicyEvaluationWorkerMutationFenceSchema fence;
  delta ← parse PolicyEvaluationUsageSchema delta;
  let job := graph_job result in
  live_guards job now recoveryEpoch fence ;;
  refuse_when (no_work delta) transition_empty_reservation ;;
  refuse_when (present (outstanding_allowance result) && metadata_work delta)
    transition_state_conflict ;;
  refuse_when ((0 <? usage_ruleEvaluations delta) && (pjob_status job !== job_running))
    transition_state_conflict ;;
  let next := add_usage (graph_usage result) delta in
  refuse_when (usage_exceeds (request_limits (graph_request result)) next)
    transition_budget_exhausted ;;
  refuse_when (MAX_SAFE_INTEGER <=? pjob_stateVersion job) transition_counter_exhausted ;;
  parse_snapshot (set_graph (set_usage result next (graph_acquisitionAllowance result))
    (advance job now (pjob_status job) (pjob_currentLease job) (pjob_retryAt job) (pjob_terminal job))
    (graph_attempts result)).

(** ** Sealing, computing and completing *)

Definition sealPolicyEvaluationJob (snapshot : PolicyEvaluationJobSnapshot)
    (now : PolicyEvaluationTime) (recoveryEpoch : Z) (fence : PolicyEvaluationWorkerMutationFence)
    (sealedSnapshot : PolicyEvaluationSnapshotReference) : res PolicyEvaluationJobSnapshot :=
  result ← parse_snapshot snapshot;
  requirePolicyEvaluationLiveFence result now recoveryEpoch fence ;;
  reference ← parse PolicyEvaluationSnapshotReferenceSchema sealedSnapshot;
  let job := graph_job result in
  match last (graph_attempts result) with
  | None => transition_error transition_state_conflict
  | Some latest =>
      refuse_when
        ((pjob_status job !== job_acquiring) || present (pjob_snapshot job) ||
         present (pattempt_closure latest) || (pattempt_phase latest !== phase_acquiring) ||
         present (pattempt_snapshot latest)) transition_state_conflict ;;
      refuse_when (MAX_SAFE_INTEGER <=? pjob_stateVersion job) transition_counter_exhausted ;;
      let job' := advance job now job_sealed (pjob_currentLease job) (pjob_retryAt job)
                    (pjob_terminal job) in
      parse_snapshot (set_graph result
        (rebind job' (pjob_recoveryEpoch job) (pjob_lastFencingToken job) (pjob_attemptCount job)
           (Some reference) (pjob_result job))
        (update_last (seal_attempt reference) (graph_attempts result)))
  end.

Definition startPolicyEvaluationComputation (snapshot : PolicyEvaluationJobSnapshot)
    (now : PolicyEvaluationTime) (recoveryEpoch : Z) (fence : PolicyEvaluationWorkerMutationFence) :
    res PolicyEvaluationJobSnapshot :=
  result ← parse_snapshot snapshot;
  requirePolicyEvaluationLiveFence result now recoveryEpoch fence ;;
  let job := graph_job result in
  match last (graph_attempts result) with
  | None => transition_error transition_state_conflict
  | Some latest =>
      refuse_when
        ((pjob_status job !== job_sealed) || negb (present (pjob_snapshot job)) ||
         present (pattempt_closure latest) || (pattempt_phase latest !== phase_computing))
        transition_state_conflict ;;
      refuse_when (MAX_SAFE_INTEGER <=? pjob_stateVersion job) transition_counter_exhausted ;;
      parse_snapshot (set_graph result
        (advance job now job_running (pjob_currentLease job) (pjob_retryAt job) (pjob_terminal job))
        (graph_attempts result))
  end.

Definition completePolicyEvaluationJob (snapshot : PolicyEvaluationJobSnapshot)
    (now : PolicyEvaluationTime) (recoveryEpoch : Z) (fence : PolicyEvaluationWorkerMutationFence)
    (result : PolicyEvaluationResultReference) (ruleCount : Z) : res PolicyEvaluationJobSnapshot :=
  snapshot ← parse_snapshot snapshot;
  requirePolicyEvaluationLiveFence snapshot now recoveryEpoch fence ;;
  reference ← parse PolicyEvaluationResultReferenceSchema result;
  let job := graph_job snapshot in
  match last (graph_attempts snapshot) with
  | None => transition_error transition_state_conflict
  | Some latest =>
      refuse_when
        ((pjob_status job !== job_running) || negb (present (pjob_snapshot job)) ||
         present (pjob_result job) || (pattempt_phase latest !== phase_computing) ||
         present (pattempt_closure latest) || (pattempt_snapshot latest !== pjob_snapshot job) ||
         negb (isSafeInteger ruleCount) || (ruleCount <? 1) || (MAX_POLICY_RULES <? ruleCount))
        transition_state_conflict ;;
      refuse_when
        (usage_ruleEvaluations (graph_usage snapshot) -
         usage_ruleEvaluations (pattempt_usageAtStart latest) <? ruleCount)
        transition_budget_exhausted ;;
      refuse_when (MAX_SAFE_INTEGER <=? pjob_stateVersion job) transition_counter_exhausted ;;
      let job' := advance job now job_completed None None (Some {|
        pterminal_status := job_completed;
        pterminal_code := code_evaluation_completed;
        pterminal_attemptId := Some (pfence_attemptId (pattempt_mutationFence latest));
        pterminal_committedAt := now |}) in
      parse_snapshot (set_graph snapshot
        (rebind job' (pjob_recoveryEpoch job) (pjob_lastFencingToken job) (pjob_attemptCount job)
           (pjob_snapshot job) (Some reference))
        (update_last (close_attempt (closure_completed now) (graph_usage snapshot))
           (graph_attempts snapshot)))
  end.

(** ** Retry or failure after an interruption *)

Definition failed_terminal (attemptId : option string) (now : PolicyEvaluationTime) : PolicyTerminal := {|
  pterminal_status := job_failed;
  pterminal_code := code_retries_exhausted;
  pterminal_attemptId := attemptId;
  pterminal_committedAt := now
|}.

Definition deadline_terminal (attemptId : option string) (now : PolicyEvaluationTime) : PolicyTerminal := {|
  pterminal_status := job_timed_out;
  pterminal_code := code_deadline_reached;
  pterminal_attemptId := attemptId;
  pterminal_committedAt := now
|}.

(** The tail that reclaim, interrupt and recovery share: another attempt after
    the back-off, when limits, deadline and [retryableErrors] allow it. *)
Definition retry_or_fail (graph : PolicyEvaluationJobSnapshot) (now : PolicyEvaluationTime)
    (reason : PolicyEvaluationRetryableError) : res PolicyEvaluationJob :=
  let job := graph_job graph in
  let limits := request_limits (graph_request graph) in
  retryAt ← addPolicyEvaluationMillisecondsUpTo now (retryBackoffMilliseconds limits)
              (pjob_deadlineAt job);
  if (time (pjob_deadlineAt job) <=? time retryAt) ||
     (maxAttempts limits <=? Z.of_nat (length (graph_attempts graph))) ||
     negb (includes (retryableErrors limits) reason)
  then Ok (advance job now job_failed None None (Some (failed_terminal (latest_attemptId graph) now)))
  else Ok (advance job now job_retry_ready None (Some retryAt) (pjob_terminal job)).

(** ** Reclaiming an expired lease *)

Definition reclaimPolicyEvaluationJob (snapshot : PolicyEvaluationJobSnapshot)
    (now : PolicyEvaluationTime) (recoveryEpoch : Z) : res PolicyEvaluationJobSnapshot :=
  result ← parse_snapshot snapshot;
  now ← parse PolicyEvaluationTimeSchema now;
  let job := graph_job result in
  refuse_when (negb (recoveryEpoch =? pjob_recoveryEpoch job)) transition_stale_fence ;;
  if present (pjob_terminal job) then Ok result else
  refuse_when (time now <? time (pjob_updatedAt job)) transition_state_conflict ;;
  let deadlineReached := time (pjob_deadlineAt job) <=? time now in
  let expired := match pjob_currentLease job with
                 | Some lease => time (please_expiresAt lease) <=? time now
                 | None => false
                 end in
  refuse_when (expired && negb (present (last (graph_attempts result)))) transition_state_conflict ;;
  refuse_when (negb deadlineReached && negb expired) transition_state_conflict ;;
  refuse_when (MAX_SAFE_INTEGER <=? pjob_stateVersion job) transition_counter_exhausted ;;
  let '(charged, acquisitionExhausted) := chargeUncertainPolicyEvaluationAcquisition result in
  let attempts := close_open
    (if deadlineReached then closure_ended closed_timed_out reason_deadline_reached now
     else closure_interrupted retryable_lease_expired now) (graph_usage charged)
    (graph_attempts charged) in
  job' ←
    (if deadlineReached then
       Ok (advance job now job_timed_out None None
             (Some (deadline_terminal (latest_attemptId charged) now)))
     else if acquisitionExhausted then
       Ok (advance job now job_budget_exhausted None None
             (Some (budget_terminal (latest_attemptId charged) now)))
     else retry_or_fail charged now retryable_lease_expired);
  parse_snapshot (set_graph charged job' attempts).

(** ** A worker giving its attempt up *)

Definition interruptPolicyEvaluationJob (snapshot : PolicyEvaluationJobSnapshot)
    (now : PolicyEvaluationTime) (recoveryEpoch : Z) (fence : PolicyEvaluationWorkerMutationFence)
    (reason : PolicyEvaluationRetryableError) : res PolicyEvaluationJobSnapshot :=
  result ← parse_snapshot snapshot;
  now ← parse PolicyEvaluationTimeSchema now;
  fence ← parse PolicyEvaluationWorkerMutationFenceSchema fence;
  let job := graph_job result in
  match pjob_currentLease job, last (graph_attempts result) with
  | Some lease, Some latest =>
      refuse_when (present (pattempt_closure latest) || negb (leased_status (pjob_status job)))
        transition_state_conflict ;;
      refuse_when (negb (recoveryEpoch =? pjob_recoveryEpoch job) ||
                   (fence !== please_mutationFence lease)) transition_stale_fence ;;
      refuse_when (time now <? time (pjob_updatedAt job)) transition_state_conflict ;;
      refuse_when (time (please_expiresAt lease) <=? time now) transition_lease_expired ;;
      refuse_when (reason === retryable_lease_expired) transition_state_conflict ;;
      refuse_when (present (pjob_snapshot job) && (reason === retryable_source_revision_changed))
        transition_state_conflict ;;
      refuse_when (MAX_SAFE_INTEGER <=? pjob_stateVersion job) transition_counter_exhausted ;;
      let '(charged, acquisitionExhausted) := chargeUncertainPolicyEvaluationAcquisition result in
      let attempts := update_last (close_attempt (closure_interrupted reason now) (graph_usage charged))
                        (graph_attempts charged) in
      job' ←
        (if acquisitionExhausted then
           Ok (advance job now job_budget_exhausted None None
                 (Some (budget_terminal (latest_attemptId charged) now)))
         else retry_or_fail charged now reason);
      parse_snapshot (set_graph charged job' attempts)
  | _, _ => transition_error transition_state_conflict
  end.

(** ** Cancellation *)

Definition cancelPolicyEvaluationJob (snapshot : PolicyEvaluationJobSnapshot)
    (intent : PolicyEvaluationCancellation) : res PolicyEvaluationJobSnapshot :=
  result ← parse_snapshot snapshot;
  intent ← parse PolicyEvaluationCancellationSchema intent;
  let job := graph_job result in
  refuse_when ((pcancel_jobId intent !== pjob_jobId job) ||
               negb (sameScope (pcancel_scope intent) (pjob_scope job))) transition_state_conflict ;;
  match graph_cancellation result with
  | Some previous =>
      refuse_when
        ((pcancel_cancellationId previous !== pcancel_cancellationId intent) ||
         (pcancel_reason previous !== pcancel_reason intent) ||
         (pcancel_requestedByPrincipalId previous !== pcancel_requestedByPrincipalId intent))
        transition_state_conflict ;;
      Ok result
  | None =>
      refuse_when (terminal_status (pjob_status job)) transition_state_conflict ;;
      now ← parse PolicyEvaluationTimeSchema (pcancel_requestedAt intent);
      refuse_when (time now <? time (pjob_updatedAt job)) transition_state_conflict ;;
      refuse_when (MAX_SAFE_INTEGER <=? pjob_stateVersion job) transition_counter_exhausted ;;
      let '(charged, _) := chargeUncertainPolicyEvaluationAcquisition result in
      let attempts := close_open (closure_ended closed_cancelled reason_cancellation_committed now)
                        (graph_usage charged) (graph_attempts charged) in
      let job' := advance job now job_cancelled None None (Some {|
        pterminal_status := job_cancelled;
        pterminal_code := code_cancellation_committed;
        pterminal_attemptId := latest_attemptId charged;
        pterminal_committedAt := now |}) in
      parse_snapshot (set_graph (set_cancellation charged intent)
        (rebind job' (pjob_recoveryEpoch job) (pjob_lastFencingToken job) (pjob_attemptCount job)
           (pjob_snapshot job) None) attempts)
  end.

(** ** The last history slot *)

Definition exhaustPolicyEvaluationJobHistory (snapshot : PolicyEvaluationJobSnapshot)
    (now : PolicyEvaluationTime) : res PolicyEvaluationJobSnapshot :=
  snapshot ← parse_snapshot snapshot;
  now ← parse PolicyEvaluationTimeSchema now;
  let job := graph_job snapshot in
  reject_when
    (present (pjob_terminal job) ||
     negb (pjob_stateVersion job =? MAX_POLICY_EVALUATION_JOB_HISTORY_ENTRIES - 1) ||
     (time now <? time (pjob_updatedAt job))) PolicyEvaluationJobHistoryError ;;
  let '(charged, _) := chargeUncertainPolicyEvaluationAcquisition snapshot in
  let attempts := close_open (closure_ended closed_budget_exhausted reason_budget_limit_reached now)
                    (graph_usage charged) (graph_attempts charged) in
  parse_snapshot (set_graph charged
    (advance job now job_budget_exhausted None None
       (Some (budget_terminal (latest_attemptId charged) now))) attempts).

(** ** Recovery into a new epoch *)

Definition recoverPolicyEvaluationJob (snapshot : PolicyEvaluationJobSnapshot)
    (now : PolicyEvaluationTime) (recoveryEpoch : Z) : res PolicyEvaluationJobSnapshot :=
  result ← parse_snapshot snapshot;
  now ← parse PolicyEvaluationTimeSchema now;
  let job := graph_job result in
  reject_when (negb (isSafeInteger recoveryEpoch) || (recoveryEpoch <=? pjob_recoveryEpoch job) ||
               (time now <? time (pjob_updatedAt job))) PolicyEvaluationJobHistoryError ;;
  if present (pjob_terminal job) then Ok result else
  reject_when (MAX_POLICY_EVALUATION_JOB_HISTORY_ENTRIES <=? pjob_stateVersion job)
    PolicyEvaluationJobHistoryError ;;
  let '(charged, acquisitionExhausted) := chargeUncertainPolicyEvaluationAcquisition result in
  let wasActive := present (pjob_currentLease job) in
  let deadlineReached := time (pjob_deadlineAt job) <=? time now in
  let historyReached := pjob_stateVersion job =? MAX_POLICY_EVALUATION_JOB_HISTORY_ENTRIES - 1 in
  let attempts := close_open
    (if deadlineReached then closure_ended closed_timed_out reason_deadline_reached now
     else if historyReached then closure_ended closed_budget_exhausted reason_budget_limit_reached now
     else closure_interrupted retryable_worker_interrupted now) (graph_usage charged)
    (graph_attempts charged) in
  job' ←
    (if deadlineReached then
       Ok (advance job now job_timed_out None None
             (Some (deadline_terminal (latest_attemptId charged) now)))
     else if historyReached || acquisitionExhausted then
       Ok (advance job now job_budget_exhausted None None
             (Some (budget_terminal (latest_attemptId charged) now)))
     else if wasActive then retry_or_fail charged now retryable_worker_interrupted
     else
       let retryAt := match pjob_retryAt job with
         | Some retryAt =>
             if (pjob_status job === job_retry_ready) && (time retryAt <? time now) then Some now
             else Some retryAt
         | None => None
         end in
       Ok (advance job now (pjob_status job) None retryAt (pjob_terminal job)));
  parse_snapshot (set_graph charged
    (rebind job' recoveryEpoch (pjob_lastFencingToken job') (pjob_attemptCount job')
       (pjob_snapshot job') (pjob_result job')) attempts).

(** ** The initial graph *)

(** What [createJob] stores; the definition digest is the caller's. *)
Definition createPolicyEvaluationJobGraph (request : PolicyEvaluationRequest) (jobId : string)
    (now : PolicyEvaluationTime) (recoveryEpoch : Z) (definitionSha256 : string) :
    res PolicyEvaluationJobSnapshot :=
  deadlineAt ← addPolicyEvaluationMilliseconds (request_createdAt request)
                 (totalDeadlineMilliseconds (request_limits request));
  parse_snapshot {|
    graph_request := request;
    graph_job := {|
      pjob_jobId := jobId;
      pjob_request := {| requestRef_definitionSha256 := request_definitionSha256 request;
                         requestRef_evaluationRequestId := request_evaluationRequestId request |};
      pjob_definitionSha256 := definitionSha256;
      pjob_scope := request_scope request;
      pjob_createdAt := now;
      pjob_createdByPrincipalId := request_createdByPrincipalId request;
      pjob_deadlineAt := deadlineAt;
      pjob_updatedAt := now;
      pjob_stateVersion := 1;
      pjob_recoveryEpoch := recoveryEpoch;
      pjob_lastFencingToken := 0;
      pjob_attemptCount := 0;
      pjob_status := job_queued;
      pjob_currentLease := None;
      pjob_snapshot := None;
      pjob_result := None;
      pjob_retryAt := None;
      pjob_terminal := None
    |};
    graph_attempts := [];
    graph_cancellation := None;
    graph_usage := {|
      usage_reads := 0; usage_records := 0; usage_recordBytes := 0; usage_references := 0;
      usage_referenceBytes := 0; usage_artifactReadBytes := 0; usage_ruleEvaluations := 0
    |};
    graph_acquisitionAllowance := None
  |}.
