(* ===== verification/PolicySchedulerProofs.v ===== *)
(** * The scheduler keeps the job graph contract

    Every transition ends by parsing the graph it has built.  The theorems of
    this file show that this last parse never refuses: on a valid graph and
    valid arguments a transition either refuses with its own error or returns
    a valid graph.  The transitions build their graphs in three ways, one lemma
    each: a live job goes on under its lease ([live_valid]), the latest attempt
    is closed ([closed_valid]), or a new attempt starts ([claimed_valid]). *)

From S2P Require Import Prelude Errors Primitives PolicyTime PolicyEvaluationJob.
From S2P Require Import PolicyJobSnapshot PolicyJobInvariant PolicyScheduler.

(** ** Updating the last attempt *)

Lemma update_last_snoc {A} (f : A -> A) l a : update_last f (l ++ [a]) = l ++ [f a].
Proof.
  induction l as [|x l IH]; [done|]. cbn [app update_last].
  rewrite IH. by destruct l.
Qed.

Lemma length_update_last {A} (f : A -> A) l : length (update_last f l) = length l.
Proof.
  destruct l as [|a l _] using rev_ind; [done|]. by rewrite update_last_snoc, !length_app.
Qed.

(** The latest attempt after [close_open]. *)
Definition closed (closure : PolicyClosure) (usage : PolicyEvaluationUsage)
    (attempt : PolicyEvaluationAttempt) : PolicyEvaluationAttempt :=
  if present (pattempt_closure attempt) then attempt else close_attempt closure usage attempt.

Lemma close_open_last closure usage attempts :
  last (close_open closure usage attempts) = closed closure usage <$> last attempts.
Proof.
  destruct attempts as [|a l _] using rev_ind; [done|].
  unfold close_open. by rewrite update_last_snoc, !last_snoc.
Qed.

(** Closing an attempt known to be open. *)
Lemma close_open_known closure usage attempts latest :
  last attempts = Some latest -> pattempt_closure latest = None ->
  update_last (close_attempt closure usage) attempts = close_open closure usage attempts.
Proof.
  destruct attempts as [|a l _] using rev_ind; [done|]. rewrite last_snoc. intros [= ->] E.
  unfold close_open. rewrite !update_last_snoc, E. done.
Qed.

Lemma closed_fields closure usage attempt :
  pattempt_scope (closed closure usage attempt) = pattempt_scope attempt /\
  pattempt_mutationFence (closed closure usage attempt) = pattempt_mutationFence attempt /\
  pattempt_attemptSequence (closed closure usage attempt) = pattempt_attemptSequence attempt /\
  pattempt_startedAt (closed closure usage attempt) = pattempt_startedAt attempt /\
  pattempt_deadlineAt (closed closure usage attempt) = pattempt_deadlineAt attempt /\
  pattempt_snapshot (closed closure usage attempt) = pattempt_snapshot attempt /\
  pattempt_usageAtStart (closed closure usage attempt) = pattempt_usageAtStart attempt.
Proof. unfold closed. by destruct (present (pattempt_closure attempt)). Qed.

(** ** What the guards of every transition establish *)

Record tick (job : PolicyEvaluationJob) (now : PolicyEvaluationTime) : Prop := {
  tk_now : PolicyEvaluationTimeSchema now = true;
  tk_order : time (pjob_updatedAt job) <= time now;
  tk_version : pjob_stateVersion job < MAX_SAFE_INTEGER;
}.

(** Counters only grow and stay within the limits of the request. *)
Record usage_grows (graph : PolicyEvaluationJobSnapshot) (usage : PolicyEvaluationUsage) : Prop := {
  ug_le : usage_le (graph_usage graph) usage;
  ug_valid : PolicyEvaluationUsageSchema usage = true;
  ug_limits : usage_exceeds (request_limits (graph_request graph)) usage = false;
}.

Lemma usage_grows_refl graph : graph_valid graph -> usage_grows graph (graph_usage graph).
Proof. intros []. by constructor. Qed.

(** How a closure fits the attempt it closes. *)
Definition closure_fits (attempt : PolicyEvaluationAttempt) (closure : PolicyClosure) : Prop :=
  match closure with
  | closure_completed committedAt =>
      pattempt_phase attempt = phase_computing /\
      time committedAt < time (pattempt_deadlineAt attempt)
  | closure_interrupted reason _ =>
      pattempt_phase attempt = phase_computing -> reason <> retryable_source_revision_changed
  | closure_ended status reason _ => closure_reason_ok status reason = true
  end.

Lemma closed_valid_attempt attempt closure usage :
  attempt_valid attempt -> PolicyEvaluationTimeSchema (closure_committedAt closure) = true ->
  time (pattempt_startedAt attempt) <= time (closure_committedAt closure) ->
  closure_fits attempt closure ->
  PolicyEvaluationUsageSchema usage = true -> usage_le (pattempt_usageAtStart attempt) usage ->
  attempt_valid (closed closure usage attempt).
Proof.
  intros Ha Ht Hs Hf Hu Hle. unfold closed. destruct (present (pattempt_closure attempt)) eqn:E; [done|].
  destruct Ha. constructor; try done. cbn. split_and!; [|done|done].
  unfold closure_ok. cbn [close_attempt pattempt_phase pattempt_startedAt]. breflect.
  split_and!; [done|done|]. destruct closure; simpl in *; breflect; [tauto| |done].
  destruct (decide (pattempt_phase attempt = phase_computing)); auto.
Qed.

(** ** The job after a transition *)

Lemma advance_extends job now status lease retryAt terminal epoch token count snapshot result :
  time (pjob_updatedAt job) <= time now -> pjob_recoveryEpoch job <= epoch ->
  job_extends job (rebind (advance job now status lease retryAt terminal) epoch token count snapshot result).
Proof. by constructor. Qed.

Lemma advanced_job_valid job now status lease retryAt terminal epoch token count snapshot result :
  let job' := rebind (advance job now status lease retryAt terminal) epoch token count snapshot result in
  job_valid job -> tick job now ->
  pjob_recoveryEpoch job <= epoch <= MAX_SAFE_INTEGER ->
  0 <= token <= MAX_SAFE_INTEGER -> 0 <= count <= MAX_POLICY_EVALUATION_ATTEMPTS ->
  (count = 0 <-> token = 0) ->
  optional PolicyEvaluationSnapshotReferenceSchema snapshot = true ->
  phase_ok job' -> job_valid job'.
Proof.
  intros job' [] [] He Ht Hc Hz Hs Hp. constructor; try done; cbn; try lia.
Qed.

Lemma cancellation_extends job job' cancellation :
  job_extends job job' -> cancellation_of_job_ok job cancellation = true ->
  cancellation_of_job_ok job' cancellation = true.
Proof.
  intros [Es Ej Ec _ Eu]. unfold cancellation_of_job_ok. rewrite Es, Ej, Ec. breflect.
  intros H. split; [tauto|]. decompose [and] H. lia.
Qed.

(** ** A live job going on *)

(** The lease a transition leaves to its holder. *)
Record lease_continues (request : PolicyEvaluationRequest) (now : PolicyEvaluationTime)
    (lease lease' : PolicyEvaluationLease) : Prop := {
  lc_valid : lease_valid lease';
  lc_scope : please_scope lease' = please_scope lease;
  lc_fence : please_mutationFence lease' = please_mutationFence lease;
  lc_sequence : please_attemptSequence lease' = please_attemptSequence lease;
  lc_acquired : please_acquiredAt lease' = please_acquiredAt lease;
  lc_attemptDeadline : please_attemptDeadlineAt lease' = please_attemptDeadlineAt lease;
  lc_jobDeadline : please_jobDeadlineAt lease' = please_jobDeadlineAt lease;
  lc_heartbeat : time (please_heartbeatAt lease') <= time now;
  lc_duration : time (please_expiresAt lease') - time (please_heartbeatAt lease') <=
    leaseDurationMilliseconds (request_limits request) * POLICY_EVALUATION_TIME_UNITS_PER_MILLISECOND;
}.

Lemma live_lease graph lease :
  graph_valid graph -> pjob_currentLease (graph_job graph) = Some lease ->
  leased_status (pjob_status (graph_job graph)) = true /\
  live_phase (graph_job graph) /\ lease_bound (graph_job graph) lease /\
  exists before latest, graph_attempts graph = before ++ [latest] /\
    latest_bound (graph_request graph) (graph_job graph) latest /\ pattempt_closure latest = None /\
    pattempt_mutationFence latest = please_mutationFence lease /\
    pattempt_deadlineAt latest = please_attemptDeadlineAt lease /\
    pattempt_startedAt latest = please_acquiredAt lease.
Proof.
  intros Hg El. pose proof (jv_phase _ (gv_job _ Hg)) as Hp. pose proof (gv_latest _ Hg) as Hlatest.
  assert (leased_status (pjob_status (graph_job graph)) = true /\ live_phase (graph_job graph)) as [Hs Hl].
  { unfold phase_ok, ended_phase in Hp. destruct (pjob_status (graph_job graph)); try done;
      solve [tauto|destruct Hp; congruence|destruct Hp as [[] ?]; congruence]. }
  split; [done|]. split; [done|]. split.
  { destruct Hl as (_ & _ & _ & lease0 & E & Hb). congruence. }
  unfold latest_ok, unattempted in Hlatest.
  destruct (graph_attempts graph) as [|latest before _] using rev_ind; [destruct Hlatest; congruence|].
  rewrite last_snoc in Hlatest. exists before, latest. split; [done|]. split; [done|].
  destruct (lt_lease _ _ _ Hlatest _ El) as (? & ? & ? & ? & _). done.
Qed.

(** Which of acquiring, sealed and running a snapshot calls for. *)
Definition status_fits (status : PolicyEvaluationJobStatus)
    (snapshot : option PolicyEvaluationSnapshotReference) : Prop :=
  match status with
  | job_acquiring => snapshot = None
  | job_sealed | job_running => snapshot <> None
  | _ => False
  end.

Lemma status_fits_live job lease :
  phase_ok job -> pjob_currentLease job = Some lease -> status_fits (pjob_status job) (pjob_snapshot job).
Proof.
  unfold phase_ok, ended_phase, status_fits.
  destruct (pjob_status job); try tauto; intros H E; try (destruct H; congruence);
    destruct H as [[] ?]; congruence.
Qed.

Definition live_job (job : PolicyEvaluationJob) (now : PolicyEvaluationTime)
    (status : PolicyEvaluationJobStatus) (lease : PolicyEvaluationLease)
    (snapshot : option PolicyEvaluationSnapshotReference) : PolicyEvaluationJob :=
  rebind (advance job now status (Some lease) (pjob_retryAt job) (pjob_terminal job))
    (pjob_recoveryEpoch job) (pjob_lastFencingToken job) (pjob_attemptCount job) snapshot
    (pjob_result job).

Lemma live_job_valid graph now status lease lease' snapshot :
  graph_valid graph -> tick (graph_job graph) now ->
  pjob_currentLease (graph_job graph) = Some lease ->
  lease_continues (graph_request graph) now lease lease' -> status_fits status snapshot ->
  optional PolicyEvaluationSnapshotReferenceSchema snapshot = true ->
  job_valid (live_job (graph_job graph) now status lease' snapshot).
Proof.
  intros Hg Ht El Hc Hs Hsnap. destruct (live_lease _ _ Hg El) as (_ & Hl & Hb & _).
  assert (Hjob := gv_job _ Hg). assert (Hj := Hjob). destruct Hj.
  apply advanced_job_valid; try done; [lia|].
  assert (Hl' : live_phase (live_job (graph_job graph) now status lease' snapshot)).
  { destruct Hl as (? & ? & ? & _). do 3 (split; [done|]). exists lease'. split; [done|].
    destruct Hb, Hc. constructor; cbn; congruence. }
  unfold live_job, phase_ok in *. cbn [rebind advance pjob_status pjob_snapshot] in *.
  destruct status; try done.
Qed.

Lemma latest_bound_live request job now status lease lease' latest snapshot before next :
  latest_bound request job latest -> pattempt_closure latest = None ->
  pjob_currentLease job = Some lease -> lease_continues request now lease lease' ->
  status <> job_completed -> pjob_terminal job = None ->
  pattempt_closure next = None ->
  pattempt_mutationFence next = pattempt_mutationFence latest ->
  pattempt_deadlineAt next = pattempt_deadlineAt latest ->
  pattempt_startedAt next = pattempt_startedAt latest ->
  pattempt_snapshot next = snapshot ->
  latest_ok request (live_job job now status lease' snapshot) (before ++ [next]).
Proof.
  intros [] Ho El [] Hs Hterm Hu Ef Ed Est Esn. unfold latest_ok. rewrite last_snoc.
  constructor; cbn; try congruence.
  intros l [= <-]. destruct (lt_lease _ El) as (_ & ? & ? & ? & _). split_and!; congruence.
Qed.

(** The graph with the latest attempt's phase and snapshot possibly changed. *)
Lemma live_valid graph now status lease lease' usage allowance :
  graph_valid graph -> tick (graph_job graph) now ->
  pjob_currentLease (graph_job graph) = Some lease ->
  lease_continues (graph_request graph) now lease lease' ->
  status_fits status (pjob_snapshot (graph_job graph)) ->
  usage_grows graph usage ->
  let graph' := set_graph (set_usage graph usage allowance)
    (live_job (graph_job graph) now status lease' (pjob_snapshot (graph_job graph)))
    (graph_attempts graph) in
  (forall a, outstanding_allowance graph' = Some a ->
     PolicyEvaluationAcquisitionAllowanceSchema a = true /\ allowance_of_graph_ok graph' a = true) ->
  graph_valid graph'.
Proof.
  intros Hg Ht El Hc Hs Hu graph' Ha.
  destruct (live_lease _ _ Hg El) as (_ & (_ & _ & Hterm & _) & _ & before & latest & Eb & Hl & Ho & _).
  assert (Hje : job_extends (graph_job graph) (graph_job graph'))
    by (apply advance_extends; [apply Ht|lia]).
  assert (Hjob : job_valid (graph_job graph')).
  { eapply live_job_valid; eauto. apply (jv_snapshot _ (gv_job _ Hg)). }
  destruct Hu as [Hle Hus Hlim]. destruct Hg. constructor; try done.
  - cbn. intros ->. done.
  - destruct gv_history as [check E]. exists check. eapply check_history_mono; eauto.
  - unfold graph'. cbn [set_graph graph_request graph_job graph_attempts set_usage]. rewrite Eb.
    eapply latest_bound_live; eauto; [by intros ->|]. symmetry. apply Hl.
  - intros c E. destruct (gv_cancellation c E) as [? ?]. split; [done|]. eapply cancellation_extends; eauto.
  - cbn. intros ->. done.
Qed.

(** ** A job whose latest attempt ends *)

(** What the job becomes, besides losing its lease. *)
Record Outcome := {
  out_status : PolicyEvaluationJobStatus;
  out_retryAt : option PolicyEvaluationTime;
  out_terminal : option PolicyTerminal;
  out_epoch : Z;
  out_result : option PolicyEvaluationResultReference;
}.

Definition ended_job (job : PolicyEvaluationJob) (now : PolicyEvaluationTime) (outcome : Outcome) :
    PolicyEvaluationJob :=
  rebind (advance job now (out_status outcome) None (out_retryAt outcome) (out_terminal outcome))
    (out_epoch outcome) (pjob_lastFencingToken job) (pjob_attemptCount job) (pjob_snapshot job)
    (out_result outcome).

Definition closed_graph (graph : PolicyEvaluationJobSnapshot) (now : PolicyEvaluationTime)
    (outcome : Outcome) (closure : PolicyClosure) (usage : PolicyEvaluationUsage)
    (allowance : option (option PolicyEvaluationAcquisitionAllowance))
    (cancellation : option PolicyEvaluationCancellation) : PolicyEvaluationJobSnapshot := {|
  graph_request := graph_request graph;
  graph_job := ended_job (graph_job graph) now outcome;
  graph_attempts := close_open closure usage (graph_attempts graph);
  graph_cancellation := cancellation;
  graph_usage := usage;
  graph_acquisitionAllowance := allowance
|}.

(** A terminal record of the latest attempt, written at [now]. *)
Definition terminal_at (graph : PolicyEvaluationJobSnapshot) (now : PolicyEvaluationTime)
    (status : PolicyEvaluationJobStatus) (terminal : option PolicyTerminal) : Prop :=
  exists code, terminal_code_ok status code = true /\
    terminal = Some {| pterminal_status := status; pterminal_code := code;
                       pterminal_attemptId := latest_attemptId graph; pterminal_committedAt := now |}.

Definition outcome_ok (graph : PolicyEvaluationJobSnapshot) (now : PolicyEvaluationTime)
    (outcome : Outcome) (closure : PolicyClosure)
    (cancellation : option PolicyEvaluationCancellation) : Prop :=
  match out_status outcome with
  | job_queued =>
      graph_attempts graph = [] /\ out_retryAt outcome = None /\ out_terminal outcome = None /\
      out_result outcome = None
  | job_retry_ready =>
      out_terminal outcome = None /\ out_result outcome = None /\
      0 < Z.of_nat (length (graph_attempts graph)) <
        maxAttempts (request_limits (graph_request graph)) /\
      exists retryAt, out_retryAt outcome = Some retryAt /\
        PolicyEvaluationTimeSchema retryAt = true /\
        time now <= time retryAt < time (pjob_deadlineAt (graph_job graph))
  | job_completed =>
      out_retryAt outcome = None /\ terminal_at graph now job_completed (out_terminal outcome) /\
      pjob_snapshot (graph_job graph) <> None /\
      pjob_currentLease (graph_job graph) <> None /\ closure = closure_completed now /\
      exists result, out_result outcome = Some result /\
        PolicyEvaluationResultReferenceSchema result = true
  | job_failed | job_timed_out | job_budget_exhausted | job_cancelled =>
      out_retryAt outcome = None /\
      terminal_at graph now (out_status outcome) (out_terminal outcome) /\
      out_result outcome = None /\ (out_status outcome = job_cancelled -> cancellation <> None)
  | _ => False
  end.

Lemma latest_attemptId_None graph :
  graph_valid graph -> pjob_attemptCount (graph_job graph) = 0 <-> latest_attemptId graph = None.
Proof.
  intros Hg. rewrite (gv_count _ Hg). unfold latest_attemptId.
  destruct (graph_attempts graph) as [|a l _] using rev_ind; [done|].
  rewrite last_snoc, length_app. simpl. split; [lia|done].
Qed.

Lemma latest_attemptId_valid graph :
  graph_valid graph -> optional OpaqueIdSchema (latest_attemptId graph) = true.
Proof.
  intros Hg. pose proof (gv_attempts _ Hg) as Ha. unfold latest_attemptId.
  destruct (last (graph_attempts graph)) as [a|] eqn:E; [|done].
  apply last_elem_of in E. rewrite Forall_forall in Ha. destruct (Ha _ E). cbn.
  unfold attempt_frame_ok, PolicyEvaluationWorkerMutationFenceSchema in av_frame.
  rewrite !andb_true_iff in av_frame. tauto.
Qed.

(** A graph without attempts that has not ended is queued. *)
Lemma unattempted_queued graph :
  graph_valid graph -> graph_attempts graph = [] -> pjob_terminal (graph_job graph) = None ->
  pjob_status (graph_job graph) = job_queued.
Proof.
  intros Hg Ea Ht. pose proof (jv_phase _ (gv_job _ Hg)) as Hp. pose proof (gv_latest _ Hg) as Hl.
  pose proof (gv_count _ Hg) as Hc. rewrite Ea in *. destruct Hl as (El & _).
  unfold phase_ok, live_phase, ended_phase in Hp.
  destruct (pjob_status (graph_job graph)); try done; naive_solver.
Qed.

Lemma ended_policy_job_valid graph now outcome closure cancellation :
  graph_valid graph -> tick (graph_job graph) now -> pjob_terminal (graph_job graph) = None ->
  pjob_recoveryEpoch (graph_job graph) <= out_epoch outcome <= MAX_SAFE_INTEGER ->
  outcome_ok graph now outcome closure cancellation ->
  job_valid (ended_job (graph_job graph) now outcome).
Proof.
  intros Hg Ht Hn He Ho. assert (Hid := latest_attemptId_None _ Hg).
  assert (Hjob := gv_job _ Hg). assert (Hj := Hjob). destruct Hj. assert (Hclock := Ht). destruct Hclock.
  assert (Hend : forall status, out_status outcome = status ->
    (status = job_completed -> graph_attempts graph <> []) ->
    terminal_at graph now status (out_terminal outcome) -> out_retryAt outcome = None ->
    ended_phase (ended_job (graph_job graph) now outcome)).
  { intros status Es Hd (code & Hc & E) Er. split; [done|]. split; [done|]. eexists. split; [exact E|].
    subst status. constructor; cbn; try done; [by apply latest_attemptId_valid|lia|].
    intros Eq. rewrite <- Hid, (gv_count _ Hg). specialize (Hd Eq). destruct (graph_attempts graph); [done|simpl; lia]. }
  apply advanced_job_valid; try done. unfold outcome_ok in Ho. unfold phase_ok.
  fold (ended_job (graph_job graph) now outcome).
  cbn [ended_job rebind advance pjob_status] in *. destruct (out_status outcome) eqn:Es; try done.
  - destruct Ho as (Ea & Er & Et & Eres). cbn. rewrite Er, Et, Eres, (gv_count _ Hg), Ea.
    pose proof jv_phase as Hp. unfold phase_ok in Hp. rewrite (unattempted_queued _ Hg Ea Hn) in Hp. tauto.
  - destruct Ho as (Et & Eres & Hlen & r & Er & Hr & Hb). cbn. rewrite (gv_count _ Hg).
    split_and!; try done; [lia|]. exists r. done.
  - destruct Ho as (Er & Et & Hs & Hl & _ & Eres). split; [|done]. apply (Hend _ eq_refl); try done.
    intros _ Ea. pose proof (gv_latest _ Hg) as H. rewrite Ea in H. by destruct H.
  - destruct Ho as (Er & Et & Eres & _). split; [|done]. by apply (Hend _ eq_refl).
  - destruct Ho as (Er & Et & Eres & _). split; [|done]. by apply (Hend _ eq_refl).
  - destruct Ho as (Er & Et & Eres & _). split; [|done]. by apply (Hend _ eq_refl).
  - destruct Ho as (Er & Et & Eres & _). split; [|done]. by apply (Hend _ eq_refl).
Qed.

(** Closing the latest attempt keeps the history. *)
Lemma closed_history graph job' closure usage :
  graph_valid graph -> job_extends (graph_job graph) job' -> usage_le (graph_usage graph) usage ->
  time (closure_committedAt closure) <= time (pjob_updatedAt job') ->
  exists check, check_history (graph_request graph) job' usage
    (close_open closure usage (graph_attempts graph)) = Ok check.
Proof.
  intros Hg Hj Hu Ht. destruct (gv_history _ Hg) as [check E].
  unfold close_open. destruct (graph_attempts graph) as [|a l _] using rev_ind; [by exists check|].
  rewrite update_last_snoc. change (exists check, check_history (graph_request graph) job' usage
    (l ++ [closed closure usage a]) = Ok check).
  apply check_history_snoc in E as (before & E & Ha & Hc & _).
  exists (remember before (closed closure usage a)). apply check_history_snoc. exists before.
  split; [by eapply check_history_mono|].
  apply (attempt_bound_mono _ _ _ _ _ _ Hj Hu) in Ha. destruct (closed_fields closure usage a) as
    (E1 & E2 & E3 & E4 & E5 & E6 & E7).
  split; [|split; [|done]].
  - destruct Ha. constructor; rewrite ?E1, ?E2, ?E4, ?E5, ?E7; try done;
      unfold closed; destruct (present (pattempt_closure a)); try done.
    + by intros ? [= <-].
    + by intros ? [= <-].
  - unfold attempt_continues in *. by rewrite E2, E3, E4, E6, E7.
Qed.

Lemma closed_attempts_valid graph closure usage :
  graph_valid graph -> usage_grows graph usage ->
  PolicyEvaluationTimeSchema (closure_committedAt closure) = true ->
  time (pjob_updatedAt (graph_job graph)) <= time (closure_committedAt closure) ->
  (forall latest, last (graph_attempts graph) = Some latest -> pattempt_closure latest = None ->
     closure_fits latest closure) ->
  Forall attempt_valid (close_open closure usage (graph_attempts graph)).
Proof.
  intros Hg [Hle Hu _] Ht Hnow Hfit. pose proof (gv_attempts _ Hg) as Ha.
  destruct (gv_history _ Hg) as [check E]. unfold close_open.
  destruct (graph_attempts graph) as [|a l _] using rev_ind; [done|].
  rewrite update_last_snoc. apply check_history_snoc in E as (_ & _ & Hb & _ & _).
  apply Forall_app in Ha as [Hl Ha]. apply Forall_app. split; [done|]. rewrite Forall_singleton in Ha.
  rewrite Forall_singleton. change (attempt_valid (closed closure usage a)).
  destruct (pattempt_closure a) eqn:Ec; [unfold closed; by rewrite Ec|].
  apply closed_valid_attempt; try done.
  - pose proof (ab_started _ _ _ _ Hb). lia.
  - apply Hfit; [by rewrite last_snoc|done].
  - etrans; [apply Hb|done].
Qed.

(** A terminal record names the latest attempt. *)
Lemma outcome_attempt graph now outcome closure cancellation terminal :
  outcome_ok graph now outcome closure cancellation -> out_terminal outcome = Some terminal ->
  pterminal_attemptId terminal = latest_attemptId graph.
Proof.
  intros Ho E. assert (Hat : forall status, terminal_at graph now status (out_terminal outcome) ->
    pterminal_attemptId terminal = latest_attemptId graph).
  { intros status (code & _ & Et). rewrite E in Et. by injection Et as ->. }
  unfold outcome_ok in Ho. destruct (out_status outcome); try done; eauto;
    repeat match goal with H : _ /\ _ |- _ => destruct H end; solve [congruence|by eapply Hat].
Qed.

(** The job of the closed graph and its latest attempt. *)
Lemma closed_latest graph now outcome closure usage cancellation :
  graph_valid graph -> outcome_ok graph now outcome closure cancellation ->
  (forall latest, last (graph_attempts graph) = Some latest -> pattempt_closure latest = None ->
     closure_fits latest closure) ->
  latest_ok (graph_request graph) (ended_job (graph_job graph) now outcome)
    (close_open closure usage (graph_attempts graph)).
Proof.
  intros Hg Ho Hfit. pose proof (gv_latest _ Hg) as Hl. unfold latest_ok in *.
  rewrite close_open_last. destruct (last (graph_attempts graph)) as [latest|] eqn:E; cbn [fmap option_fmap option_map].
  - destruct (closed_fields closure usage latest) as (_ & E2 & _ & _ & E5 & E6 & _).
    assert (Hclosed : pattempt_closure (closed closure usage latest) <> None).
    { unfold closed. destruct (pattempt_closure latest) eqn:Ec; simpl; congruence. }
    assert (Hopen : pattempt_closure latest = None ->
      pattempt_closure (closed closure usage latest) = Some closure).
    { intros Ec. unfold closed. by rewrite Ec. }
    destruct Hl. constructor; rewrite ?E2, ?E5, ?E6; try done.
    + intros at_ Eat. destruct (pattempt_closure latest) eqn:Ec.
      * unfold closed in Eat. rewrite Ec in Eat. simpl in Eat. eapply lt_in_time. congruence.
      * rewrite (Hopen eq_refl) in Eat. injection Eat as ->. by apply (Hfit _ eq_refl Ec).
    + intros terminal id Et Eid. split; [|done]. cbn in Et. rewrite (outcome_attempt _ _ _ _ _ _ Ho Et) in Eid.
      unfold latest_attemptId in Eid. rewrite E in Eid. by injection Eid.
    + intros Es. cbn in Es. unfold outcome_ok in Ho. rewrite Es in Ho.
      destruct Ho as (_ & _ & _ & Hlease & -> & _). exists now. apply Hopen.
      destruct (pjob_currentLease (graph_job graph)) as [lease|] eqn:El; [|done].
      by destruct (lt_lease _ eq_refl).
  - destruct Hl as (El & Hs & Ht). split; [done|]. cbn. split.
    + intros Es. unfold outcome_ok in Ho. rewrite Es in Ho. tauto.
    + intros terminal Et. rewrite (outcome_attempt _ _ _ _ _ _ Ho Et). unfold latest_attemptId.
      by rewrite E.
Qed.

Lemma closed_valid graph now outcome closure usage allowance cancellation :
  graph_valid graph -> tick (graph_job graph) now -> pjob_terminal (graph_job graph) = None ->
  pjob_recoveryEpoch (graph_job graph) <= out_epoch outcome <= MAX_SAFE_INTEGER ->
  closure_committedAt closure = now ->
  (forall latest, last (graph_attempts graph) = Some latest -> pattempt_closure latest = None ->
     closure_fits latest closure) ->
  usage_grows graph usage -> (forall a, allowance <> Some (Some a)) ->
  outcome_ok graph now outcome closure cancellation ->
  (forall c, cancellation = Some c -> PolicyEvaluationCancellationSchema c = true /\
     cancellation_of_job_ok (ended_job (graph_job graph) now outcome) c = true) ->
  graph_valid (closed_graph graph now outcome closure usage allowance cancellation).
Proof.
  intros Hg Ht Hn He Hat Hfit Hu Ha Ho Hc. pose proof Ht as [Hnow Hord Hver].
  assert (Hje : job_extends (graph_job graph) (ended_job (graph_job graph) now outcome))
    by (apply advance_extends; [done|lia]).
  assert (Hjob := ended_policy_job_valid _ _ _ _ _ Hg Ht Hn He Ho). pose proof Hu as [Hle Hus Hlim].
  constructor; try apply Hg; try done.
  - apply closed_attempts_valid; [done|done|by rewrite Hat|by rewrite Hat|done].
  - cbn. unfold close_open. rewrite length_update_last. apply Hg.
  - cbn. unfold close_open. rewrite length_update_last. apply Hg.
  - cbn. unfold close_open. rewrite length_update_last. intros Es. unfold outcome_ok in Ho.
    rewrite Es in Ho. lia.
  - apply (closed_history _ _ _ _ Hg Hje Hle). cbn. by rewrite Hat.
  - apply (closed_latest _ _ _ _ _ _ Hg Ho Hfit).
  - unfold outstanding_allowance. cbn. intros a E. destruct allowance as [[b|]|]; try done.
    by destruct (Ha b).
  - cbn. intros Es. unfold outcome_ok in Ho. rewrite Es in Ho. destruct Ho as (_ & _ & _ & H). by apply H.
Qed.

(** ** A new attempt *)

Definition new_attempt (graph : PolicyEvaluationJobSnapshot) (now : PolicyEvaluationTime)
    (fence : PolicyEvaluationWorkerMutationFence) (deadlineAt : PolicyEvaluationTime) :
    PolicyEvaluationAttempt := {|
  pattempt_scope := pjob_scope (graph_job graph);
  pattempt_mutationFence := fence;
  pattempt_attemptSequence := Z.of_nat (length (graph_attempts graph));
  pattempt_startedAt := now;
  pattempt_deadlineAt := deadlineAt;
  pattempt_phase := if present (pjob_snapshot (graph_job graph)) then phase_computing else phase_acquiring;
  pattempt_snapshot := pjob_snapshot (graph_job graph);
  pattempt_usageAtStart := graph_usage graph;
  pattempt_usageAtClose := None;
  pattempt_closure := None
|}.

Definition new_lease (graph : PolicyEvaluationJobSnapshot) (now : PolicyEvaluationTime)
    (fence : PolicyEvaluationWorkerMutationFence) (deadlineAt expiresAt : PolicyEvaluationTime) :
    PolicyEvaluationLease := {|
  please_scope := pjob_scope (graph_job graph);
  please_mutationFence := fence;
  please_attemptSequence :=
    Z.of_nat (length (graph_attempts graph ++ [new_attempt graph now fence deadlineAt])) - 1;
  please_acquiredAt := now;
  please_heartbeatAt := now;
  please_expiresAt := expiresAt;
  please_attemptDeadlineAt := deadlineAt;
  please_jobDeadlineAt := pjob_deadlineAt (graph_job graph)
|}.

Definition claimed_graph (graph : PolicyEvaluationJobSnapshot) (now : PolicyEvaluationTime)
    (fence : PolicyEvaluationWorkerMutationFence) (deadlineAt expiresAt : PolicyEvaluationTime) :
    PolicyEvaluationJobSnapshot :=
  let job := graph_job graph in
  let attempts := graph_attempts graph ++ [new_attempt graph now fence deadlineAt] in
  set_graph graph
    (rebind (advance job now (if present (pjob_snapshot job) then job_running else job_acquiring)
        (Some (new_lease graph now fence deadlineAt expiresAt)) None (pjob_terminal job))
       (pjob_recoveryEpoch job) (pfence_fencingToken fence) (Z.of_nat (length attempts))
       (pjob_snapshot job) (pjob_result job))
    attempts.

(** What a claim has checked or computed. *)
Record claimable (graph : PolicyEvaluationJobSnapshot) (now : PolicyEvaluationTime)
    (fence : PolicyEvaluationWorkerMutationFence) (deadlineAt expiresAt : PolicyEvaluationTime) : Prop := {
  cl_status : pjob_status (graph_job graph) = job_queued \/ pjob_status (graph_job graph) = job_retry_ready;
  cl_deadline : time now < time (pjob_deadlineAt (graph_job graph));
  cl_max : Z.of_nat (length (graph_attempts graph)) < maxAttempts (request_limits (graph_request graph));
  cl_fence : PolicyEvaluationWorkerMutationFenceSchema fence = true;
  cl_job : pfence_jobId fence = pjob_jobId (graph_job graph);
  cl_token : pfence_fencingToken fence = pjob_lastFencingToken (graph_job graph) + 1;
  cl_epoch : pfence_recoveryEpoch fence = pjob_recoveryEpoch (graph_job graph);
  cl_attemptId : pfence_attemptId fence
    ∉ ((fun a => pfence_attemptId (pattempt_mutationFence a)) <$> graph_attempts graph);
  cl_leaseId : pfence_leaseId fence
    ∉ ((fun a => pfence_leaseId (pattempt_mutationFence a)) <$> graph_attempts graph);
  cl_deadline_valid : PolicyEvaluationTimeSchema deadlineAt = true;
  cl_deadlineAt : time deadlineAt =
    Z.min (time now + perAttemptTimeoutMilliseconds (request_limits (graph_request graph)) *
           POLICY_EVALUATION_TIME_UNITS_PER_MILLISECOND) (time (pjob_deadlineAt (graph_job graph)));
  cl_expires_valid : PolicyEvaluationTimeSchema expiresAt = true;
  cl_expiresAt : time expiresAt =
    Z.min (time now + leaseDurationMilliseconds (request_limits (graph_request graph)) *
           POLICY_EVALUATION_TIME_UNITS_PER_MILLISECOND) (time deadlineAt);
}.

(** The bounds the contract puts on the limits of a request. *)
Record limits_bounded (limits : PolicyEvaluationExecutionLimits) : Prop := {
  lm_attempts : 1 <= maxAttempts limits <= MAX_POLICY_EVALUATION_ATTEMPTS;
  lm_lease : 1000 <= leaseDurationMilliseconds limits <= MAX_POLICY_EVALUATION_LEASE_MILLISECONDS;
  lm_timeout : 1000 <= perAttemptTimeoutMilliseconds limits <= MAX_POLICY_EVALUATION_ATTEMPT_MILLISECONDS;
  lm_backoff : 0 <= retryBackoffMilliseconds limits <= MAX_POLICY_EVALUATION_BACKOFF_MILLISECONDS;
  lm_total : 1000 <= totalDeadlineMilliseconds limits <= MAX_POLICY_EVALUATION_DEADLINE_MILLISECONDS;
  lm_records : 2 <= maxAcquisitionRecords limits <= MAX_POLICY_EVALUATION_ACQUISITION_RECORDS;
  lm_bytes : 1 <= maxAcquisitionRecordBytes limits <= MAX_POLICY_EVALUATION_ACQUISITION_RECORD_BYTES;
  lm_artifacts : 0 <= maxArtifactReadBytes limits <= MAX_POLICY_EVALUATION_ARTIFACT_READ_BYTES;
  lm_rules : 1 <= maxRuleEvaluations limits <= MAX_POLICY_EVALUATION_RULE_EVALUATIONS;
}.

Lemma request_limits_bounded request :
  PolicyEvaluationRequestSchema request = true -> limits_bounded (request_limits request).
Proof.
  unfold PolicyEvaluationRequestSchema, PolicyEvaluationExecutionLimitsSchema.
  rewrite !andb_true_iff, !boundedInteger_spec. intros H. decompose [and] H. constructor; lia.
Qed.

Lemma graph_limits graph : graph_valid graph -> limits_bounded (request_limits (graph_request graph)).
Proof. intros Hg. apply request_limits_bounded, Hg. Qed.

Lemma graph_deadline graph :
  graph_valid graph -> request_deadline (graph_request graph) = time (pjob_deadlineAt (graph_job graph)).
Proof.
  intros Hg. pose proof (gv_binding _ Hg) as H. unfold request_of_job_ok in H.
  rewrite !andb_true_iff, Z.eqb_eq in H. symmetry. apply H.
Qed.

Lemma identity_parts job : identity_ok job = true ->
  EvidenceScopeSchema (pjob_scope job) = true /\ PolicyEvaluationTimeSchema (pjob_deadlineAt job) = true /\
  PolicyEvaluationTimeSchema (pjob_createdAt job) = true /\ OpaqueIdSchema (pjob_jobId job) = true.
Proof. unfold identity_ok. rewrite !andb_true_iff. tauto. Qed.

Lemma claim_positive graph : graph_valid graph ->
  0 < perAttemptTimeoutMilliseconds (request_limits (graph_request graph)) *
      POLICY_EVALUATION_TIME_UNITS_PER_MILLISECOND /\
  0 < leaseDurationMilliseconds (request_limits (graph_request graph)) *
      POLICY_EVALUATION_TIME_UNITS_PER_MILLISECOND.
Proof.
  intros Hg. destruct (graph_limits _ Hg). pose proof units_positive.
  split; apply Z.mul_pos_pos; lia.
Qed.

(** Nothing leased, nothing ended: the job waits for a claim. *)
Lemma waiting_job graph :
  graph_valid graph ->
  pjob_status (graph_job graph) = job_queued \/ pjob_status (graph_job graph) = job_retry_ready ->
  pjob_currentLease (graph_job graph) = None /\ pjob_result (graph_job graph) = None /\
  pjob_terminal (graph_job graph) = None.
Proof.
  intros Hg Hs. pose proof (jv_phase _ (gv_job _ Hg)) as Hp. unfold phase_ok in Hp.
  destruct Hs as [E|E]; rewrite E in Hp; tauto.
Qed.

Lemma new_lease_valid graph now fence deadlineAt expiresAt :
  graph_valid graph -> tick (graph_job graph) now -> claimable graph now fence deadlineAt expiresAt ->
  lease_valid (new_lease graph now fence deadlineAt expiresAt).
Proof.
  intros Hg [Hnow Hord _] []. destruct (claim_positive _ Hg).
  destruct (identity_parts _ (jv_identity _ (gv_job _ Hg))) as (Hsc & Hdl & _).
  destruct (graph_limits _ Hg). constructor; cbn [new_lease please_scope please_mutationFence
    please_attemptSequence please_acquiredAt please_heartbeatAt please_expiresAt please_attemptDeadlineAt
    please_jobDeadlineAt]; try done.
  - rewrite length_app. simpl. lia.
  - rewrite cl_expiresAt0, cl_deadlineAt0. lia.
  - rewrite cl_expiresAt0, cl_deadlineAt0. lia.
Qed.

Lemma claimed_job_valid graph now fence deadlineAt expiresAt :
  graph_valid graph -> tick (graph_job graph) now -> claimable graph now fence deadlineAt expiresAt ->
  job_valid (graph_job (claimed_graph graph now fence deadlineAt expiresAt)).
Proof.
  intros Hg Ht Hc. assert (Hl := new_lease_valid _ _ _ _ _ Hg Ht Hc).
  destruct Hc, (graph_limits _ Hg). assert (Hjob := gv_job _ Hg). assert (Hj := Hjob). destruct Hj.
  destruct (waiting_job _ Hg cl_status0) as (_ & Hres & Hterm). destruct Ht.
  assert (Hfence := cl_fence0). unfold PolicyEvaluationWorkerMutationFenceSchema in Hfence.
  rewrite !andb_true_iff, SafePositiveIntegerSchema_spec in Hfence.
  unfold claimed_graph. cbn [set_graph graph_job].
  set (attempts := graph_attempts graph ++ _). assert (Hlen : length attempts = S (length (graph_attempts graph))).
  { unfold attempts. rewrite length_app. simpl. lia. }
  apply advanced_job_valid; try done; try lia.
  set (job' := rebind _ _ _ _ _ _).
  assert (Hlive : live_phase job').
  { split; [done|]. split; [done|]. split; [done|]. eexists. split; [done|].
    constructor; cbn; try done; try lia. fold attempts. lia. }
  unfold phase_ok. unfold job'. cbn [rebind advance pjob_status pjob_snapshot]. fold job'.
  destruct (pjob_snapshot (graph_job graph)); done.
Qed.

Lemma new_attempt_valid graph now fence deadlineAt expiresAt :
  graph_valid graph -> tick (graph_job graph) now -> claimable graph now fence deadlineAt expiresAt ->
  attempt_valid (new_attempt graph now fence deadlineAt).
Proof.
  intros Hg [Hnow Hord _] []. destruct (claim_positive _ Hg), (graph_limits _ Hg).
  destruct (identity_parts _ (jv_identity _ (gv_job _ Hg))) as (Hsc & _). constructor; try done.
  - unfold attempt_frame_ok. rewrite !andb_true_iff, boundedInteger_spec. cbn. split_and!; try done; try lia. apply Hg.
  - cbn. rewrite cl_deadlineAt0. lia.
  - apply (jv_snapshot _ (gv_job _ Hg)).
  - cbn. by destruct (pjob_snapshot (graph_job graph)).
Qed.

Lemma new_attempt_bound graph now fence deadlineAt expiresAt job' :
  graph_valid graph -> tick (graph_job graph) now -> claimable graph now fence deadlineAt expiresAt ->
  job_extends (graph_job graph) job' -> pjob_updatedAt job' = now ->
  attempt_bound (graph_request graph) job' (graph_usage graph) (new_attempt graph now fence deadlineAt).
Proof.
  intros Hg [Hnow Hord _] [] [Es Ej Ec Ee Eu] Ht. pose proof (jv_created _ (gv_job _ Hg)).
  constructor; cbn; try congruence; try done; try lia.
  - rewrite Ec, Ht. lia.
  - rewrite cl_deadlineAt0, (graph_deadline _ Hg). done.
Qed.

Lemma claimed_history graph now fence deadlineAt expiresAt :
  graph_valid graph -> tick (graph_job graph) now -> claimable graph now fence deadlineAt expiresAt ->
  let graph' := claimed_graph graph now fence deadlineAt expiresAt in
  exists check, check_history (graph_request graph') (graph_job graph') (graph_usage graph')
    (graph_attempts graph') = Ok check.
Proof.
  intros Hg Ht Hc graph'. destruct (gv_history _ Hg) as [check E].
  assert (Hje : job_extends (graph_job graph) (graph_job graph'))
    by (apply advance_extends; [apply Ht|lia]).
  exists (remember check (new_attempt graph now fence deadlineAt)).
  unfold graph', claimed_graph. cbn [set_graph graph_request graph_attempts graph_usage].
  apply check_history_snoc. exists check. split; [by eapply check_history_mono|].
  split; [by eapply new_attempt_bound|]. split; [|done].
  destruct (check_history_ids _ _ _ _ _ E) as [Eids Elease].
  assert (Hnow := tk_order _ _ Ht). assert (Htoken := jv_token _ (gv_job _ Hg)).
  destruct (waiting_job _ Hg (cl_status _ _ _ _ _ Hc)) as (Hno & _). destruct Hc.
  unfold attempt_continues. rewrite Eids, Elease. cbn [new_attempt pattempt_mutationFence
    pattempt_attemptSequence pattempt_startedAt pattempt_snapshot pattempt_usageAtStart].
  pose proof (gv_latest _ Hg) as Hl. unfold latest_ok in Hl.
  rewrite !andb_true_iff, !negb_true_iff, !includes_false, Z.eqb_refl, Z.leb_gt, Z.ltb_ge.
  destruct (graph_attempts graph) as [|a l _] using rev_ind.
  { injection E as <-. cbn. pose proof (jv_epoch _ (gv_job _ Hg)). split_and!; try done; try lia.
    by destruct (pjob_snapshot (graph_job graph)). }
  rewrite last_snoc in Hl. rewrite (check_history_bound _ _ _ _ _ _ E), <- (lt_snapshot _ _ _ Hl).
  apply check_history_snoc in E as (before & _ & Hb & _ & ->). destruct Hb, Hl.
  cbn [remember check_previousFence check_previousEpoch check_previousClosed check_priorUsage].
  split_and!; try done; try lia.
  - apply orb_true_iff; right. specialize (lt_closed Hno).
    destruct (pattempt_closure a) as [closure|]; [|done]. cbn. specialize (ab_closed _ eq_refl).
    breflect. lia.
  - destruct (pjob_snapshot (graph_job graph)); [by apply bool_decide_eq_true|done].
  - apply orb_true_iff; right. apply optional_Some. intros u Eu. rewrite negb_true_iff, usage_below_false.
    by apply ab_usageClosed.
Qed.

Lemma claimed_valid graph now fence deadlineAt expiresAt :
  graph_valid graph -> tick (graph_job graph) now -> claimable graph now fence deadlineAt expiresAt ->
  graph_valid (claimed_graph graph now fence deadlineAt expiresAt).
Proof.
  intros Hg Ht Hc. assert (Hjob := claimed_job_valid _ _ _ _ _ Hg Ht Hc).
  assert (Hhist := claimed_history _ _ _ _ _ Hg Ht Hc).
  assert (Hlease := new_lease_valid _ _ _ _ _ Hg Ht Hc).
  destruct (waiting_job _ Hg (cl_status _ _ _ _ _ Hc)) as (Hno & _ & Hterm).
  assert (Hstatus : pjob_status (graph_job (claimed_graph graph now fence deadlineAt expiresAt)) =
    if present (pjob_snapshot (graph_job graph)) then job_running else job_acquiring) by done.
  constructor; try apply Hg; try done.
  - apply Forall_app. split; [apply Hg|]. apply Forall_singleton. by eapply new_attempt_valid.
  - cbn. rewrite length_app. simpl. destruct Hc. lia.
  - rewrite Hstatus. by destruct (present _).
  - unfold latest_ok. cbn. rewrite last_snoc. constructor; try done.
    + intros lease [= <-]. split_and!; try done. cbn. destruct Hc. lia.
    + cbn. congruence.
    + cbn. by destruct (present _).
  - intros a E. exfalso. destruct (gv_allowance _ Hg a E) as [_ Ha]. unfold allowance_of_graph_ok in Ha.
    rewrite !andb_true_iff in Ha. destruct Ha as [[[[[[[Ha _] _] _] _] _] _] _].
    apply bool_decide_eq_true in Ha. destruct (cl_status _ _ _ _ _ Hc); congruence.
  - intros c E. destruct (gv_cancellation _ Hg c E). split; [done|].
    eapply cancellation_extends; [|done]. apply advance_extends; [apply Ht|lia].
  - rewrite Hstatus. by destruct (present _).
Qed.

(** ** Sealing a snapshot *)

Definition sealed_graph (graph : PolicyEvaluationJobSnapshot) (now : PolicyEvaluationTime)
    (lease : PolicyEvaluationLease) (reference : PolicyEvaluationSnapshotReference) :
    PolicyEvaluationJobSnapshot :=
  set_graph graph (live_job (graph_job graph) now job_sealed lease (Some reference))
    (update_last (seal_attempt reference) (graph_attempts graph)).

Lemma lease_continues_refl graph now lease :
  graph_valid graph -> tick (graph_job graph) now -> pjob_currentLease (graph_job graph) = Some lease ->
  lease_continues (graph_request graph) now lease lease.
Proof.
  intros Hg Ht El. destruct (live_lease _ _ Hg El) as (_ & _ & Hb & before & latest & _ & Hl & _).
  destruct (lt_lease _ _ _ Hl _ El) as (_ & _ & _ & _ & Hd).
  constructor; try done; [apply Hb|]. pose proof (lb_heartbeat _ _ Hb). pose proof (tk_order _ _ Ht). lia.
Qed.

Lemma sealed_valid graph now lease reference :
  graph_valid graph -> tick (graph_job graph) now ->
  pjob_currentLease (graph_job graph) = Some lease -> pjob_snapshot (graph_job graph) = None ->
  PolicyEvaluationSnapshotReferenceSchema reference = true -> outstanding_allowance graph = None ->
  graph_valid (sealed_graph graph now lease reference).
Proof.
  intros Hg Ht El Hs Href Hnone.
  destruct (live_lease _ _ Hg El) as (_ & (_ & _ & Hterm & _) & _ & before & latest & Eb & Hl & Ho & _).
  assert (Hcont := lease_continues_refl _ _ _ Hg Ht El).
  assert (Hje : job_extends (graph_job graph)
    (live_job (graph_job graph) now job_sealed lease (Some reference)))
    by (apply advance_extends; [apply Ht|lia]).
  assert (Hjob : job_valid (live_job (graph_job graph) now job_sealed lease (Some reference)))
    by (eapply live_job_valid; eauto; done).
  assert (Ea : graph_attempts (sealed_graph graph now lease reference) =
    before ++ [seal_attempt reference latest]).
  { cbn. by rewrite Eb, update_last_snoc. }
  assert (Elen : length (graph_attempts (sealed_graph graph now lease reference)) =
    length (graph_attempts graph)) by apply length_update_last.
  pose proof (gv_attempts _ Hg) as Hat. destruct (gv_history _ Hg) as [check E].
  rewrite Eb in Hat, E. apply Forall_app in Hat as [Hbefore Hlatest]. rewrite Forall_singleton in Hlatest.
  constructor; try apply Hg; try done.
  - rewrite Ea, Forall_app, Forall_singleton. split; [done|]. destruct Hlatest.
    rewrite Ho in av_closure. constructor; try done. cbn. by rewrite Ho.
  - rewrite Elen. apply Hg.
  - rewrite Elen. apply Hg.
  - apply check_history_snoc in E as (prior & E & Hb & Hc & _). rewrite Ea.
    exists (remember prior (seal_attempt reference latest)). apply check_history_snoc. exists prior.
    split; [by eapply check_history_mono|]. apply (attempt_bound_mono _ _ _ _ _ _ Hje (reflexivity _)) in Hb.
    split; [by destruct Hb; constructor|]. split; [|done].
    unfold attempt_continues in *. rewrite <- (lt_snapshot _ _ _ Hl), Hs in Hc.
    cbn [seal_attempt pattempt_mutationFence pattempt_attemptSequence pattempt_startedAt
      pattempt_snapshot pattempt_usageAtStart].
    destruct (check_boundSnapshot prior); [|done]. rewrite !andb_true_iff in Hc. by destruct Hc as [[_ ?] _].
  - rewrite Ea. by eapply latest_bound_live.
  - intros a Eo. exfalso. unfold outstanding_allowance in *. cbn in Eo. congruence.
  - intros c Ec. destruct (gv_cancellation _ Hg c Ec). split; [done|]. by eapply cancellation_extends.
Qed.
