(* ===== verification/PolicySchedulerContract.v ===== *)
(** * What each scheduler transition does to a graph

    A transition on a valid graph either refuses with the scheduler's own error
    or moves the graph in one of four ways ([moves]): the live job goes on,
    seals its snapshot, ends or loses its attempt, or starts a new one.  Each
    way leads to a valid graph ([moves_valid]), so the parse at the end of a
    transition succeeds ([sound_final]). *)

From S2P Require Import Prelude Errors Primitives PolicyTime PolicyEvaluationJob.
From S2P Require Import PolicyJobSnapshot PolicyJobInvariant PolicyScheduler.
From S2P Require Import PolicySchedulerProofs.

Inductive moves (graph : PolicyEvaluationJobSnapshot) (now : PolicyEvaluationTime) :
    PolicyEvaluationJobSnapshot -> Prop :=
| moved_live status lease lease' usage allowance graph'
    (Ht : tick (graph_job graph) now) (El : pjob_currentLease (graph_job graph) = Some lease)
    (Hc : lease_continues (graph_request graph) now lease lease')
    (Hfits : status_fits status (pjob_snapshot (graph_job graph)))
    (Hs : status = pjob_status (graph_job graph) \/ status = job_running)
    (Hu : usage_grows graph usage)
    (E : graph' = set_graph (set_usage graph usage allowance)
      (live_job (graph_job graph) now status lease' (pjob_snapshot (graph_job graph)))
      (graph_attempts graph))
    (Ha : forall a, outstanding_allowance graph' = Some a ->
       PolicyEvaluationAcquisitionAllowanceSchema a = true /\ allowance_of_graph_ok graph' a = true) :
    moves graph now graph'
| moved_sealed lease reference graph'
    (Ht : tick (graph_job graph) now) (El : pjob_currentLease (graph_job graph) = Some lease)
    (Hsnapshot : pjob_snapshot (graph_job graph) = None)
    (Href : PolicyEvaluationSnapshotReferenceSchema reference = true)
    (Ha : outstanding_allowance graph = None)
    (E : graph' = sealed_graph graph now lease reference) :
    moves graph now graph'
| moved_closed outcome closure usage allowance cancellation graph'
    (Ht : tick (graph_job graph) now) (Hopen : pjob_terminal (graph_job graph) = None)
    (Hepoch : pjob_recoveryEpoch (graph_job graph) <= out_epoch outcome <= MAX_SAFE_INTEGER)
    (Hat : closure_committedAt closure = now)
    (Hfits : forall latest, last (graph_attempts graph) = Some latest ->
       pattempt_closure latest = None -> closure_fits latest closure)
    (Hu : usage_grows graph usage) (Ha : forall a, allowance <> Some (Some a))
    (Ho : outcome_ok graph now outcome closure cancellation)
    (Hcancel : cancellation = graph_cancellation graph \/
       graph_cancellation graph = None /\ out_status outcome = job_cancelled)
    (Hbound : forall c, cancellation = Some c -> PolicyEvaluationCancellationSchema c = true /\
       cancellation_of_job_ok (ended_job (graph_job graph) now outcome) c = true)
    (E : graph' = closed_graph graph now outcome closure usage allowance cancellation) :
    moves graph now graph'
| moved_claimed fence deadlineAt expiresAt graph'
    (Ht : tick (graph_job graph) now) (Hclaim : claimable graph now fence deadlineAt expiresAt)
    (E : graph' = claimed_graph graph now fence deadlineAt expiresAt) :
    moves graph now graph'.

Lemma moves_valid graph now graph' : graph_valid graph -> moves graph now graph' -> graph_valid graph'.
Proof.
  intros Hg H. destruct H; subst.
  - by eapply live_valid.
  - by apply sealed_valid.
  - by apply closed_valid.
  - by apply claimed_valid.
Qed.

(** Only a cancelled job carries a cancellation.  The contract itself does not
    say so; every graph the scheduler builds satisfies it. *)
Definition uncancelled (graph : PolicyEvaluationJobSnapshot) : Prop :=
  graph_cancellation graph <> None -> pjob_status (graph_job graph) = job_cancelled.

Lemma open_uncancelled graph :
  graph_valid graph -> uncancelled graph -> pjob_terminal (graph_job graph) = None ->
  graph_cancellation graph = None.
Proof.
  intros Hg Hu Ht. destruct (graph_cancellation graph) eqn:E; [|done]. unfold uncancelled in Hu.
  specialize (Hu ltac:(congruence)). pose proof (jv_phase _ (gv_job _ Hg)) as Hp.
  unfold phase_ok in Hp. rewrite Hu in Hp. destruct Hp as [(_ & _ & t & Et & _) _]. congruence.
Qed.

Lemma moves_uncancelled graph now graph' :
  graph_valid graph -> uncancelled graph -> moves graph now graph' -> uncancelled graph'.
Proof.
  intros Hg Hu H. assert (Hopen := open_uncancelled _ Hg Hu). unfold uncancelled in *.
  destruct H; subst; cbn.
  - rewrite Hopen; [done|]. by apply (live_lease _ _ Hg El).
  - rewrite Hopen; [done|]. by apply (live_lease _ _ Hg El).
  - destruct Hcancel as [->|[_ ?]]; [|done]. by rewrite Hopen.
  - rewrite Hopen; [done|]. by apply (waiting_job _ Hg (cl_status _ _ _ _ _ Hclaim)).
Qed.

(** ** Outcomes of a computation that may refuse *)

(** The errors a transition declares. *)
Definition scheduler_error (error : exn) : Prop :=
  match error with
  | PolicyEvaluationSchedulerTransitionError _ | PolicyEvaluationJobHistoryError => True
  | _ => False
  end.

(** A result that satisfies [P], or a declared refusal. *)
Definition sound {A} (P : A -> Prop) (m : res A) : Prop :=
  match m with Ok a => P a | Throw error => scheduler_error error end.

Section sound.
Context {A B : Type}.
Implicit Types (P : B -> Prop) (Q : A -> Prop).

Lemma sound_bind P Q (m : res A) (f : A -> res B) :
  sound Q m -> (forall a, Q a -> sound P (f a)) -> sound P (m ≫= f).
Proof. destruct m; simpl; eauto. Qed.

Lemma sound_known P (m : res A) (f : A -> res B) a : m = Ok a -> sound P (f a) -> sound P (m ≫= f).
Proof. by intros ->. Qed.

Lemma sound_parse P (ok : A -> bool) x (f : A -> res B) :
  ok x = true -> sound P (f x) -> sound P (parse ok x ≫= f).
Proof. intros H. apply sound_known. by apply parse_accepted. Qed.

Lemma sound_refuse P c reason (f : unit -> res B) :
  (c = false -> sound P (f tt)) -> sound P (refuse_when c reason ≫= f).
Proof. destruct c; simpl; auto. Qed.

Lemma sound_reject P c (f : unit -> res B) :
  (c = false -> sound P (f tt)) -> sound P (reject_when c PolicyEvaluationJobHistoryError ≫= f).
Proof. destruct c; simpl; auto. Qed.

Lemma sound_mono P P' (m : res B) : (forall b, P b -> P' b) -> sound P m -> sound P' m.
Proof. destruct m; simpl; auto. Qed.
End sound.

Lemma increment_sound value : sound (fun next => next = value + 1 /\ value < MAX_SAFE_INTEGER) (increment value).
Proof.
  unfold increment. apply sound_refuse. intros H. breflect. done.
Qed.

Lemma sound_snapshot {B} (P : B -> Prop) graph (f : PolicyEvaluationJobSnapshot -> res B) :
  graph_valid graph -> sound P (f graph) -> sound P (parse_snapshot graph ≫= f).
Proof. intros Hg. apply sound_parse. by apply graph_valid_iff. Qed.

Lemma sound_final graph now graph' :
  graph_valid graph -> moves graph now graph' -> sound (moves graph now) (parse_snapshot graph').
Proof.
  intros Hg Hm. unfold parse_snapshot. rewrite parse_accepted; [done|].
  apply graph_valid_iff. by eapply moves_valid.
Qed.

(** ** The live fence *)

Record guarded (job : PolicyEvaluationJob) (now : PolicyEvaluationTime) (recoveryEpoch : Z)
    (fence : PolicyEvaluationWorkerMutationFence) (lease : PolicyEvaluationLease) : Prop := {
  gd_lease : pjob_currentLease job = Some lease;
  gd_status : leased_status (pjob_status job) = true;
  gd_epoch : recoveryEpoch = pjob_recoveryEpoch job;
  gd_fence : fence = please_mutationFence lease;
  gd_order : time (pjob_updatedAt job) <= time now;
  gd_expires : time now < time (please_expiresAt lease);
  gd_attemptDeadline : time now < time (please_attemptDeadlineAt lease);
  gd_deadline : time now < time (pjob_deadlineAt job);
}.

Lemma live_guards_sound job now recoveryEpoch fence :
  sound (guarded job now recoveryEpoch fence) (live_guards job now recoveryEpoch fence).
Proof.
  unfold live_guards. destruct (pjob_currentLease job) as [lease|] eqn:El; [|done].
  repeat (apply sound_refuse; intros ?). cbn [sound]. breflect.
  by destruct_and?; constructor.
Qed.

Lemma live_fence_sound graph now recoveryEpoch fence :
  graph_valid graph -> PolicyEvaluationTimeSchema now = true ->
  PolicyEvaluationWorkerMutationFenceSchema fence = true ->
  sound (fun _ => exists lease, guarded (graph_job graph) now recoveryEpoch fence lease)
    (requirePolicyEvaluationLiveFence graph now recoveryEpoch fence).
Proof.
  intros Hg Hn Hf. unfold requirePolicyEvaluationLiveFence. apply sound_snapshot; [done|].
  apply sound_parse; [done|]. apply sound_parse; [done|].
  eapply sound_bind; [apply live_guards_sound|]. simpl. eauto.
Qed.

Lemma guarded_tick job now recoveryEpoch fence lease :
  guarded job now recoveryEpoch fence lease -> PolicyEvaluationTimeSchema now = true ->
  pjob_stateVersion job < MAX_SAFE_INTEGER -> tick job now.
Proof. intros []. by constructor. Qed.

(** ** Going on under the lease *)

(** The usage a transition leaves to the outstanding allowance. *)
Definition same_metadata (usage usage' : PolicyEvaluationUsage) : Prop :=
  usage_reads usage' = usage_reads usage /\ usage_records usage' = usage_records usage /\
  usage_references usage' = usage_references usage /\
  usage_recordBytes usage' = usage_recordBytes usage /\
  usage_referenceBytes usage' = usage_referenceBytes usage.

Lemma allowance_carried graph now lease lease' usage a :
  let graph' := set_graph (set_usage graph usage (graph_acquisitionAllowance graph))
    (live_job (graph_job graph) now (pjob_status (graph_job graph)) lease'
       (pjob_snapshot (graph_job graph))) (graph_attempts graph) in
  graph_valid graph -> tick (graph_job graph) now ->
  pjob_currentLease (graph_job graph) = Some lease ->
  lease_continues (graph_request graph) now lease lease' ->
  same_metadata (graph_usage graph) usage -> outstanding_allowance graph' = Some a ->
  PolicyEvaluationAcquisitionAllowanceSchema a = true /\ allowance_of_graph_ok graph' a = true.
Proof.
  intros graph' Hg Ht El Hc (E1 & E2 & E3 & E4 & E5) Eo.
  destruct (gv_allowance _ Hg a Eo) as [Hs Ha]. split; [done|].
  unfold allowance_of_graph_ok, usage_unchanged, lease_fence_is, latest_start in *.
  cbn [graph' set_graph set_usage graph_job graph_request graph_attempts graph_cancellation graph_usage
    live_job rebind advance pjob_status pjob_snapshot pjob_currentLease pjob_updatedAt pjob_createdAt].
  rewrite E1, E2, E3, E4, E5, (lc_fence _ _ _ _ Hc). rewrite El in Ha.
  rewrite !andb_true_iff in *. pose proof (tk_order _ _ Ht). breflect. split_and?; try tauto. lia.
Qed.

(** The expiry a heartbeat or a claim computes. *)
Lemma capped_time_sound now duration ceiling :
  PolicyEvaluationTimeSchema now = true -> PolicyEvaluationTimeSchema ceiling = true ->
  duration_ok duration ->
  sound (fun sum => PolicyEvaluationTimeSchema sum = true /\
    time sum = Z.min (time now + duration * POLICY_EVALUATION_TIME_UNITS_PER_MILLISECOND) (time ceiling))
    (addPolicyEvaluationMillisecondsUpTo now duration ceiling).
Proof. intros Hn Hc Hd. by destruct (add_up_to_run _ _ _ Hn Hc Hd) as (sum & -> & ? & ?). Qed.

Lemma limits_durations graph : graph_valid graph ->
  duration_ok (leaseDurationMilliseconds (request_limits (graph_request graph))) /\
  duration_ok (perAttemptTimeoutMilliseconds (request_limits (graph_request graph))) /\
  duration_ok (retryBackoffMilliseconds (request_limits (graph_request graph))).
Proof.
  intros Hg. destruct (graph_limits _ Hg). unfold duration_ok, MAX_SAFE_INTEGER.
  unfold MAX_POLICY_EVALUATION_LEASE_MILLISECONDS, MAX_POLICY_EVALUATION_ATTEMPT_MILLISECONDS,
    MAX_POLICY_EVALUATION_BACKOFF_MILLISECONDS in *. lia.
Qed.

(** ** Usage within the limits *)

Lemma usage_valid_spec usage :
  PolicyEvaluationUsageSchema usage = true <->
  (0 <= usage_reads usage <= MAX_POLICY_EVALUATION_ACQUISITION_RECORDS /\
   0 <= usage_records usage <= MAX_POLICY_EVALUATION_ACQUISITION_RECORDS /\
   0 <= usage_recordBytes usage <= MAX_POLICY_EVALUATION_ACQUISITION_RECORD_BYTES /\
   0 <= usage_references usage <= MAX_POLICY_EVALUATION_ACQUISITION_RECORDS /\
   0 <= usage_referenceBytes usage <= MAX_POLICY_EVALUATION_ACQUISITION_RECORD_BYTES /\
   0 <= usage_artifactReadBytes usage <= MAX_POLICY_EVALUATION_ARTIFACT_READ_BYTES /\
   0 <= usage_ruleEvaluations usage <= MAX_POLICY_EVALUATION_RULE_EVALUATIONS) /\
  usage_recordBytes usage + usage_referenceBytes usage <= MAX_POLICY_EVALUATION_ACQUISITION_RECORD_BYTES.
Proof.
  unfold PolicyEvaluationUsageSchema, count_ok, bytes_ok.
  rewrite !andb_true_iff, !boundedInteger_spec, negb_true_iff, Z.ltb_ge. tauto.
Qed.

Lemma usage_exceeds_spec limits usage :
  usage_exceeds limits usage = false <->
  usage_records usage <= maxAcquisitionRecords limits /\ usage_reads usage <= maxAcquisitionRecords limits /\
  usage_references usage <= maxAcquisitionRecords limits /\
  usage_recordBytes usage + usage_referenceBytes usage <= maxAcquisitionRecordBytes limits /\
  usage_artifactReadBytes usage <= maxArtifactReadBytes limits /\
  usage_ruleEvaluations usage <= maxRuleEvaluations limits.
Proof. unfold usage_exceeds. rewrite !orb_false_iff, !Z.ltb_ge. tauto. Qed.

Lemma usage_le_spec left right :
  usage_le left right <->
  usage_reads left <= usage_reads right /\ usage_records left <= usage_records right /\
  usage_recordBytes left <= usage_recordBytes right /\ usage_references left <= usage_references right /\
  usage_referenceBytes left <= usage_referenceBytes right /\
  usage_artifactReadBytes left <= usage_artifactReadBytes right /\
  usage_ruleEvaluations left <= usage_ruleEvaluations right.
Proof. unfold usage_le, usage_keys. rewrite !Forall_cons, Forall_nil. tauto. Qed.

(** Growing from the current usage without exceeding a limit is growing validly. *)
Lemma usage_grows_within graph usage :
  graph_valid graph -> usage_le (graph_usage graph) usage ->
  usage_exceeds (request_limits (graph_request graph)) usage = false -> usage_grows graph usage.
Proof.
  intros Hg Hle Hlim. constructor; try done. destruct (graph_limits _ Hg).
  pose proof (gv_usage _ Hg) as Hu. rewrite usage_valid_spec in Hu |- *.
  rewrite usage_le_spec in Hle. rewrite usage_exceeds_spec in Hlim. lia.
Qed.

(** ** Charging an allowance *)

(** What an outstanding allowance says of its graph. *)
Lemma outstanding_facts graph a :
  graph_valid graph -> outstanding_allowance graph = Some a ->
  pjob_status (graph_job graph) = job_acquiring /\
  remaining_limits (request_limits (graph_request graph)) (policyEvaluationMetadataUsage graph)
    (allowance_limits a) = true.
Proof.
  intros Hg Eo. destruct (gv_allowance _ Hg a Eo) as [_ H]. unfold allowance_of_graph_ok in H.
  rewrite !andb_true_iff in H. destruct H as [[[[[[[Hs _] _] _] _] _] Hsame] Hrem]. breflect.
  split; [done|]. unfold remaining_limits, usage_unchanged in *. cbn.
  rewrite !andb_true_iff, !Z.eqb_eq in *. lia.
Qed.

Lemma not_acquiring_none graph :
  graph_valid graph -> pjob_status (graph_job graph) <> job_acquiring -> outstanding_allowance graph = None.
Proof.
  intros Hg Hs. destruct (outstanding_allowance graph) as [a|] eqn:E; [|done].
  by destruct (outstanding_facts _ _ Hg E).
Qed.

Lemma outstanding_None graph :
  outstanding_allowance graph = None -> forall a, graph_acquisitionAllowance graph <> Some (Some a).
Proof. unfold outstanding_allowance. intros E a Ea. by rewrite Ea in E. Qed.

Definition spent_within (limits : PolicyEvaluationAcquisitionLimits)
    (spent : PolicyEvaluationAcquisitionUsage) : Prop :=
  0 <= acquired_reads spent <= allowed_reads limits /\
  0 <= acquired_records spent <= allowed_records limits /\
  0 <= acquired_references spent <= allowed_references limits /\
  0 <= acquired_recordBytes spent /\ 0 <= acquired_referenceBytes spent /\
  acquired_recordBytes spent + acquired_referenceBytes spent <= allowed_recordAndReferenceBytes limits.

Lemma charge_grows graph a spent :
  graph_valid graph -> outstanding_allowance graph = Some a -> spent_within (allowance_limits a) spent ->
  usage_grows graph (add_metadata (graph_usage graph) spent).
Proof.
  intros Hg Eo Hw. destruct (outstanding_facts _ _ Hg Eo) as [_ Hrem]. unfold remaining_limits in Hrem.
  rewrite !andb_true_iff, !Z.eqb_eq in Hrem. cbn in Hrem. unfold spent_within in Hw.
  pose proof (gv_limits _ Hg) as Hlim. rewrite usage_exceeds_spec in Hlim.
  apply usage_grows_within; [done| |].
  - apply usage_le_spec. cbn. lia.
  - apply usage_exceeds_spec. cbn. lia.
Qed.

Lemma full_within graph a :
  graph_valid graph -> outstanding_allowance graph = Some a ->
  spent_within (allowance_limits a) (fullAllowanceUsage a).
Proof.
  intros Hg Eo. destruct (gv_allowance _ Hg a Eo) as [Hs _].
  unfold PolicyEvaluationAcquisitionAllowanceSchema, PolicyEvaluationAcquisitionLimitsSchema in Hs.
  unfold count_ok, bytes_ok in Hs. rewrite !andb_true_iff, !boundedInteger_spec in Hs.
  unfold spent_within. cbn. lia.
Qed.

Lemma set_usage_same graph : set_usage graph (graph_usage graph) (graph_acquisitionAllowance graph) = graph.
Proof. by destruct graph. Qed.

(** Charging what an interrupted acquisition may have spent. *)
Lemma charge_uncertain graph :
  graph_valid graph -> exists usage allowance,
    chargeUncertainPolicyEvaluationAcquisition graph =
      (set_usage graph usage allowance, present (outstanding_allowance graph)) /\
    usage_grows graph usage /\ forall a, allowance <> Some (Some a).
Proof.
  intros Hg. unfold chargeUncertainPolicyEvaluationAcquisition.
  destruct (outstanding_allowance graph) as [a|] eqn:E.
  - eexists _, (Some None). split; [reflexivity|]. split; [|done].
    eapply charge_grows; [done|done|by eapply full_within].
  - exists (graph_usage graph), (graph_acquisitionAllowance graph). rewrite set_usage_same.
    split; [done|]. split; [by apply usage_grows_refl|by apply outstanding_None].
Qed.

(** ** Ending an attempt *)

Lemma open_result graph :
  graph_valid graph -> pjob_terminal (graph_job graph) = None -> pjob_result (graph_job graph) = None.
Proof.
  intros Hg Ht. pose proof (jv_phase _ (gv_job _ Hg)) as Hp. unfold phase_ok, live_phase, ended_phase in Hp.
  destruct (pjob_status (graph_job graph)); naive_solver.
Qed.

(** The outcome a transition writes into the advanced job. *)
Definition ends (job : PolicyEvaluationJob) (status : PolicyEvaluationJobStatus)
    (retryAt : option PolicyEvaluationTime) (terminal : option PolicyTerminal) : Outcome := {|
  out_status := status; out_retryAt := retryAt; out_terminal := terminal;
  out_epoch := pjob_recoveryEpoch job; out_result := pjob_result job
|}.

(** The four ways to end without a result. *)
Lemma ended_outcome graph now status code epoch closure cancellation :
  status = job_failed \/ status = job_timed_out \/ status = job_budget_exhausted \/
    status = job_cancelled /\ cancellation <> None ->
  terminal_code_ok status code = true ->
  outcome_ok graph now {|
    out_status := status; out_retryAt := None;
    out_terminal := Some {| pterminal_status := status; pterminal_code := code;
      pterminal_attemptId := latest_attemptId graph; pterminal_committedAt := now |};
    out_epoch := epoch; out_result := None |} closure cancellation.
Proof.
  intros Hs Hc. unfold outcome_ok. cbn. unfold terminal_at.
  destruct Hs as [->|[->|[->|[-> ?]]]]; naive_solver.
Qed.

(** Another attempt after the back-off, or failure. *)
Lemma retry_outcome graph now reason usage allowance :
  graph_valid graph -> PolicyEvaluationTimeSchema now = true ->
  pjob_terminal (graph_job graph) = None -> graph_attempts graph <> [] ->
  time now < time (pjob_deadlineAt (graph_job graph)) ->
  exists status retryAt terminal,
    retry_or_fail (set_usage graph usage allowance) now reason =
      Ok (advance (graph_job graph) now status None retryAt terminal) /\
    forall epoch closure cancellation, outcome_ok graph now {|
      out_status := status; out_retryAt := retryAt; out_terminal := terminal;
      out_epoch := epoch; out_result := None |} closure cancellation.
Proof.
  intros Hg Hnow Ht Hne Hd. unfold retry_or_fail. cbn [set_usage graph_job graph_request graph_attempts].
  destruct (identity_parts _ (jv_identity _ (gv_job _ Hg))) as (_ & Hdl & _).
  destruct (limits_durations _ Hg) as (_ & _ & Hback).
  destruct (add_up_to_run _ _ _ Hnow Hdl Hback) as (retryAt & -> & Hr & Etime). cbn [mbind result_bind].
  destruct (_ || _) eqn:Eguard.
  - eexists _, _, _. split; [reflexivity|]. intros epoch closure cancellation.
    apply (ended_outcome graph now job_failed code_retries_exhausted); [by left|done].
  - eexists _, _, _. split; [reflexivity|]. intros epoch closure cancellation. unfold outcome_ok. cbn. breflect.
    assert (0 < length (graph_attempts graph))%nat by (destruct (graph_attempts graph); [done|simpl; lia]).
    destruct Eguard as [[? ?] _]. split_and!; try done; try lia. exists retryAt. split; [done|]. split; [done|].
    pose proof units_positive. unfold duration_ok in Hback. split; [|done].
    assert (0 <= retryBackoffMilliseconds (request_limits (graph_request graph)) *
      POLICY_EVALUATION_TIME_UNITS_PER_MILLISECOND) by (apply Z.mul_nonneg_nonneg; lia). lia.
Qed.

Lemma cancellation_kept graph now outcome :
  graph_valid graph -> time (pjob_updatedAt (graph_job graph)) <= time now ->
  pjob_recoveryEpoch (graph_job graph) <= out_epoch outcome ->
  forall c, graph_cancellation graph = Some c -> PolicyEvaluationCancellationSchema c = true /\
    cancellation_of_job_ok (ended_job (graph_job graph) now outcome) c = true.
Proof.
  intros Hg Ht He c Ec. destruct (gv_cancellation _ Hg c Ec). split; [done|].
  eapply cancellation_extends; [|done]. by apply advance_extends.
Qed.

(** An ending that leaves the cancellation alone. *)
Lemma ending_sound graph now outcome closure usage allowance graph' :
  graph_valid graph -> tick (graph_job graph) now -> pjob_terminal (graph_job graph) = None ->
  pjob_recoveryEpoch (graph_job graph) <= out_epoch outcome <= MAX_SAFE_INTEGER ->
  closure_committedAt closure = now ->
  (forall latest, last (graph_attempts graph) = Some latest -> pattempt_closure latest = None ->
     closure_fits latest closure) ->
  usage_grows graph usage -> (forall a, allowance <> Some (Some a)) ->
  outcome_ok graph now outcome closure (graph_cancellation graph) ->
  graph' = closed_graph graph now outcome closure usage allowance (graph_cancellation graph) ->
  sound (moves graph now) (parse_snapshot graph').
Proof.
  intros Hg Ht Hopen He Hat Hfits Hu Ha Ho E. apply sound_final; [done|].
  eapply (moved_closed _ _ outcome closure usage allowance (graph_cancellation graph)); try done; [by left|].
  apply cancellation_kept; [done|apply Ht|lia].
Qed.

Lemma epoch_bound graph : graph_valid graph ->
  pjob_recoveryEpoch (graph_job graph) <= pjob_recoveryEpoch (graph_job graph) <= MAX_SAFE_INTEGER.
Proof. intros Hg. pose proof (jv_epoch _ (gv_job _ Hg)). lia. Qed.

Section worker.
Context (graph : PolicyEvaluationJobSnapshot) (now : PolicyEvaluationTime) (recoveryEpoch : Z)
  (fence : PolicyEvaluationWorkerMutationFence).
Context (Hg : graph_valid graph) (Hnow : PolicyEvaluationTimeSchema now = true)
  (Hfence : PolicyEvaluationWorkerMutationFenceSchema fence = true).

Lemma heartbeat_sound :
  sound (moves graph now) (heartbeatPolicyEvaluationJob graph now recoveryEpoch fence).
Proof.
  unfold heartbeatPolicyEvaluationJob. apply sound_snapshot; [done|].
  apply sound_parse; [done|]. apply sound_parse; [done|].
  eapply sound_bind; [apply live_guards_sound|]. intros lease Hgd. apply sound_refuse. intros _.
  destruct (live_lease _ _ Hg (gd_lease _ _ _ _ _ Hgd)) as (_ & _ & Hb & _).
  pose proof (lb_valid _ _ Hb) as Hl.
  eapply sound_bind; [apply capped_time_sound|].
  { done. } { apply Hl. } { by apply limits_durations. }
  intros expiresAt [He Et]. eapply sound_bind; [apply increment_sound|]. intros _ [_ Hver].
  assert (Ht := guarded_tick _ _ _ _ _ Hgd Hnow Hver). apply sound_final; [done|].
  assert (Hc : lease_continues (graph_request graph) now lease (beat lease now expiresAt)).
  { destruct Hl. destruct (claim_positive _ Hg). destruct Hgd.
    assert (time (please_acquiredAt lease) <= time now) by (pose proof (lb_heartbeat _ _ Hb); lia).
    constructor; try done; [constructor; try done|]; cbn; rewrite ?Et; lia. }
  eapply (moved_live _ _ (pjob_status (graph_job graph)) lease (beat lease now expiresAt)
    (graph_usage graph) (graph_acquisitionAllowance graph)); try done.
  - apply Hgd.
  - eapply status_fits_live; [apply Hg|apply Hgd].
  - by left.
  - by apply usage_grows_refl.
  - intros a. eapply allowance_carried; try done. apply Hgd.
Qed.

Lemma reserve_usage_sound delta :
  PolicyEvaluationUsageSchema delta = true ->
  sound (moves graph now) (reservePolicyEvaluationUsage graph now recoveryEpoch fence delta).
Proof.
  intros Hd. unfold reservePolicyEvaluationUsage. apply sound_snapshot; [done|].
  apply sound_parse; [done|]. apply sound_parse; [done|]. apply sound_parse; [done|].
  eapply sound_bind; [apply live_guards_sound|]. intros lease Hgd.
  apply sound_refuse; intros _. apply sound_refuse; intros Hmeta. apply sound_refuse; intros _.
  apply sound_refuse; intros Hlim. apply sound_refuse; intros Hver. breflect.
  assert (Ht := guarded_tick _ _ _ _ _ Hgd Hnow ltac:(lia)).
  rewrite (gd_lease _ _ _ _ _ Hgd). apply sound_final; [done|].
  assert (Hc := lease_continues_refl _ _ _ Hg Ht (gd_lease _ _ _ _ _ Hgd)).
  eapply (moved_live _ _ (pjob_status (graph_job graph)) lease lease (add_usage (graph_usage graph) delta)
    (graph_acquisitionAllowance graph)); try done.
  - apply Hgd.
  - eapply status_fits_live; [apply Hg|apply Hgd].
  - by left.
  - apply usage_grows_within; [done| |done]. apply usage_valid_spec in Hd. apply usage_le_spec. simpl. lia.
  - intros a Ha. eapply allowance_carried; try done; [apply Hgd|].
    destruct Hmeta as [Hnone|Hmeta]; [change (outstanding_allowance graph = Some a) in Ha; congruence|].
    unfold metadata_work in Hmeta. simpl in Hmeta.
    breflect. unfold same_metadata. simpl. lia.
Qed.

Lemma start_sound :
  sound (moves graph now) (startPolicyEvaluationComputation graph now recoveryEpoch fence).
Proof.
  unfold startPolicyEvaluationComputation. apply sound_snapshot; [done|].
  eapply sound_bind; [by apply live_fence_sound|]. intros _ [lease Hgd].
  destruct (last (graph_attempts graph)) as [latest|]; [|done].
  apply sound_refuse; intros Hguard. apply sound_refuse; intros Hver. breflect.
  destruct Hguard as [[[Hs [snapshot Esnap]] _] _].
  assert (Ht := guarded_tick _ _ _ _ _ Hgd Hnow ltac:(lia)).
  rewrite (gd_lease _ _ _ _ _ Hgd). apply sound_final; [done|].
  assert (Hc := lease_continues_refl _ _ _ Hg Ht (gd_lease _ _ _ _ _ Hgd)).
  eapply (moved_live _ _ job_running lease lease (graph_usage graph) (graph_acquisitionAllowance graph));
    try done.
  - apply Hgd.
  - by rewrite Esnap.
  - by right.
  - by apply usage_grows_refl.
  - intros a Ha. exfalso. destruct (gv_allowance _ Hg a Ha) as [_ H]. unfold allowance_of_graph_ok in H.
    rewrite Hs in H. done.
Qed.

Lemma seal_sound reference :
  PolicyEvaluationSnapshotReferenceSchema reference = true -> outstanding_allowance graph = None ->
  sound (moves graph now) (sealPolicyEvaluationJob graph now recoveryEpoch fence reference).
Proof.
  intros Href Hnone. unfold sealPolicyEvaluationJob. apply sound_snapshot; [done|].
  eapply sound_bind; [by apply live_fence_sound|]. intros _ [lease Hgd]. apply sound_parse; [done|].
  destruct (last (graph_attempts graph)) as [latest|]; [|done].
  apply sound_refuse; intros Hguard. apply sound_refuse; intros Hver. breflect.
  destruct Hguard as [[[[_ Esnap] _] _] _].
  assert (Ht := guarded_tick _ _ _ _ _ Hgd Hnow ltac:(lia)).
  rewrite (gd_lease _ _ _ _ _ Hgd). apply sound_final; [done|].
  apply (moved_sealed _ _ lease reference); try done; apply Hgd.
Qed.

(** A live worker call has a last attempt, open, under the fence it presents. *)
Lemma guarded_latest lease :
  guarded (graph_job graph) now recoveryEpoch fence lease ->
  pjob_terminal (graph_job graph) = None /\ pjob_result (graph_job graph) = None /\
  exists before latest, graph_attempts graph = before ++ [latest] /\
    last (graph_attempts graph) = Some latest /\ pattempt_closure latest = None /\
    time (pattempt_startedAt latest) <= time (pjob_updatedAt (graph_job graph)) /\
    time now < time (pattempt_deadlineAt latest) /\
    latest_bound (graph_request graph) (graph_job graph) latest.
Proof.
  intros Hgd. destruct (live_lease _ _ Hg (gd_lease _ _ _ _ _ Hgd))
    as (_ & (Hr & _ & Ht & _) & _ & before & latest & Eb & Hl & Ho & _ & Ed & _).
  split; [done|]. split; [done|]. exists before, latest. rewrite Eb, last_snoc, Ed.
  destruct (gv_history _ Hg) as [check E]. rewrite Eb in E.
  apply check_history_snoc in E as (_ & _ & Hb & _). pose proof (ab_started _ _ _ _ Hb).
  split_and!; try done; [lia|apply Hgd].
Qed.

Lemma reserve_acquisition_sound allowanceId :
  OpaqueIdSchema allowanceId = true -> uncancelled graph ->
  sound (moves graph now) (reservePolicyEvaluationAcquisition graph now recoveryEpoch fence allowanceId).
Proof.
  intros Hid Hun. unfold reservePolicyEvaluationAcquisition. apply sound_snapshot; [done|].
  eapply sound_bind; [by apply live_fence_sound|]. intros _ [lease Hgd].
  apply sound_refuse; intros Hguard. apply sound_refuse; intros Hbudget. apply sound_refuse; intros Hver.
  apply sound_parse; [done|]. cbn [allowed_reads allowed_records allowed_recordAndReferenceBytes
    policyEvaluationMetadataUsage acquired_reads acquired_records acquired_references
    acquired_recordBytes acquired_referenceBytes] in *.
  apply Z.leb_gt in Hver. assert (Ht := guarded_tick _ _ _ _ _ Hgd Hnow ltac:(lia)).
  destruct (guarded_latest _ Hgd) as (Hterm & _ & before & latest & _ & Elast & _ & Hstart & _).
  assert (Hnone := open_uncancelled _ Hg Hun Hterm). breflect. destruct Hguard as [[Hs Hsnap] _].
  rewrite (gd_lease _ _ _ _ _ Hgd). apply sound_final; [done|].
  assert (Hc := lease_continues_refl _ _ _ Hg Ht (gd_lease _ _ _ _ _ Hgd)).
  pose proof (gv_usage _ Hg) as Hu. rewrite usage_valid_spec in Hu.
  pose proof (gv_limits _ Hg) as Hlim. rewrite usage_exceeds_spec in Hlim. destruct (graph_limits _ Hg).
  eapply (moved_live _ _ (pjob_status (graph_job graph)) lease lease (graph_usage graph)); try done.
  - apply Hgd.
  - by rewrite Hs, Hsnap.
  - by left.
  - by apply usage_grows_refl.
  - intros a Ea. cbn in Ea. injection Ea as <-. split.
    + unfold PolicyEvaluationAcquisitionAllowanceSchema, PolicyEvaluationAcquisitionUsageSchema,
        PolicyEvaluationAcquisitionLimitsSchema, count_ok, bytes_ok.
      rewrite !andb_true_iff, !boundedInteger_spec, negb_true_iff, Z.ltb_ge. cbn. split_and!; try done; lia.
    + unfold allowance_of_graph_ok, lease_fence_is, latest_start, usage_unchanged, remaining_limits.
      cbn. rewrite Elast, Hs, Hsnap, Hnone, !Z.eqb_refl. cbn. pose proof (tk_order _ _ Ht).
      rewrite !andb_true_iff, !negb_true_iff, !Z.ltb_ge, bool_decide_eq_true.
      pose proof (gd_fence _ _ _ _ _ Hgd) as Ef. split_and!; try done; try lia. by apply bool_decide_eq_true.
Qed.

(** The request of a settlement, when it states one. *)
Definition settlement_ok (usage : option PolicyEvaluationAcquisitionUsage) : Prop :=
  forall spent, usage = Some spent -> PolicyEvaluationAcquisitionUsageSchema spent = true.

Lemma settle_sound allowanceId usage :
  OpaqueIdSchema allowanceId = true -> settlement_ok usage ->
  sound (moves graph now) (settlePolicyEvaluationAcquisition graph now recoveryEpoch fence allowanceId usage).
Proof.
  intros Hid Husage. unfold settlePolicyEvaluationAcquisition. apply sound_snapshot; [done|].
  eapply sound_bind; [by apply live_fence_sound|]. intros _ [lease Hgd].
  destruct (outstanding_allowance graph) as [a|] eqn:Ea; [|done].
  destruct (outstanding_facts _ _ Hg Ea) as [Hs _].
  apply sound_parse; [done|]. apply sound_refuse; intros _.
  apply (sound_bind _ (fun spent => match usage with
    | Some u => spent = u /\ PolicyEvaluationAcquisitionUsageSchema u = true
    | None => spent = fullAllowanceUsage a end)).
  { destruct usage as [u|]; [|done]. specialize (Husage u eq_refl). by rewrite parse_accepted. }
  intros spent Hspent. apply sound_refuse; intros Hwithin. apply sound_refuse; intros Hver.
  rewrite !orb_false_iff, !Z.ltb_ge in Hwithin. apply Z.leb_gt in Hver.
  assert (Hw : spent_within (allowance_limits a) spent).
  { destruct usage as [u|]; [|subst; by eapply full_within]. destruct Hspent as [-> Hu].
    unfold PolicyEvaluationAcquisitionUsageSchema, count_ok, bytes_ok in Hu.
    rewrite !andb_true_iff, !boundedInteger_spec in Hu. unfold spent_within. lia. }
  assert (Hgrow := charge_grows _ _ _ Hg Ea Hw).
  assert (Ht := guarded_tick _ _ _ _ _ Hgd Hnow Hver).
  assert (El := gd_lease _ _ _ _ _ Hgd).
  destruct (guarded_latest _ Hgd) as (Hterm & Hres & before & latest & Eb & Elast & Ho & _).
  destruct usage as [u|].
  - rewrite El. apply sound_final; [done|]. assert (Hc := lease_continues_refl _ _ _ Hg Ht El).
    eapply (moved_live _ _ (pjob_status (graph_job graph)) lease lease); try done.
    + eapply status_fits_live; [apply Hg|apply Hgd].
    + by left.
  - cbn [charge set_usage graph_attempts]. rewrite Elast. apply sound_refuse; intros _.
    eapply (ending_sound _ _ (ends (graph_job graph) job_budget_exhausted None
      (Some (budget_terminal (latest_attemptId graph) now)))
      (closure_ended closed_budget_exhausted reason_budget_limit_reached now)
      _ (Some None)); try done.
    + by apply epoch_bound.
    + unfold ends. rewrite Hres. apply ended_outcome; [tauto|done].
    + unfold closed_graph. by rewrite <- (close_open_known _ _ _ _ Elast Ho).
Qed.

Lemma complete_sound result ruleCount :
  PolicyEvaluationResultReferenceSchema result = true ->
  sound (moves graph now)
    (completePolicyEvaluationJob graph now recoveryEpoch fence result ruleCount).
Proof.
  intros Hresult. unfold completePolicyEvaluationJob. apply sound_snapshot; [done|].
  eapply sound_bind; [by apply live_fence_sound|]. intros _ [lease Hgd]. apply sound_parse; [done|].
  destruct (guarded_latest _ Hgd) as (Hterm & Hres & before & latest & Eb & Elast & Ho & _ & Hd & _).
  rewrite Elast. apply sound_refuse; intros Hguard. apply sound_refuse; intros _.
  apply sound_refuse; intros Hver. apply Z.leb_gt in Hver.
  assert (Ht := guarded_tick _ _ _ _ _ Hgd Hnow Hver). breflect.
  destruct Hguard as [[[[[[[[Hs [snapshot Esnap]] _] Hphase] _] _] _] _] _].
  eapply (ending_sound _ _ {| out_status := job_completed; out_retryAt := None;
      out_terminal := Some {| pterminal_status := job_completed;
        pterminal_code := code_evaluation_completed;
        pterminal_attemptId := Some (pfence_attemptId (pattempt_mutationFence latest));
        pterminal_committedAt := now |};
      out_epoch := pjob_recoveryEpoch (graph_job graph); out_result := Some result |}
    (closure_completed now) (graph_usage graph) (graph_acquisitionAllowance graph)); try done.
  - by apply epoch_bound.
  - intros latest' E' _. rewrite Elast in E'. injection E' as <-. done.
  - by apply usage_grows_refl.
  - apply outstanding_None, not_acquiring_none; [done|congruence].
  - unfold outcome_ok. cbn. split; [done|]. split.
    { exists code_evaluation_completed. split; [done|]. unfold latest_attemptId. by rewrite Elast. }
    split; [congruence|]. split; [rewrite (gd_lease _ _ _ _ _ Hgd); done|]. eauto.
  - unfold closed_graph. by rewrite <- (close_open_known _ _ _ _ Elast Ho).
Qed.

Lemma interrupt_sound reason :
  sound (moves graph now) (interruptPolicyEvaluationJob graph now recoveryEpoch fence reason).
Proof.
  unfold interruptPolicyEvaluationJob. apply sound_snapshot; [done|].
  apply sound_parse; [done|]. apply sound_parse; [done|].
  destruct (pjob_currentLease (graph_job graph)) as [lease|] eqn:El; [|done].
  destruct (live_lease _ _ Hg El) as (_ & (_ & _ & Hterm & _) & Hb & before & latest & Eb & Hl & Ho & _ & Ed & _).
  assert (Elast : last (graph_attempts graph) = Some latest) by (by rewrite Eb, last_snoc).
  rewrite Elast. apply sound_refuse; intros _. apply sound_refuse; intros _.
  apply sound_refuse; intros Hord. apply sound_refuse; intros Hexp. apply sound_refuse; intros _.
  apply sound_refuse; intros Hsource. apply sound_refuse; intros Hver.
  apply Z.leb_gt in Hver, Hexp. apply Z.ltb_ge in Hord. assert (Ht : tick (graph_job graph) now) by done.
  destruct (charge_uncertain _ Hg) as (usage & allowance & -> & Hu & Ha).
  assert (Hres := open_result _ Hg Hterm).
  assert (Hfits : forall latest', last (graph_attempts graph) = Some latest' ->
    pattempt_closure latest' = None -> closure_fits latest' (closure_interrupted reason now)).
  { intros latest' E' _. rewrite Elast in E'. injection E' as <-. cbn. intros Ep Er. subst reason.
    pose proof (gv_attempts _ Hg) as Hat. rewrite Forall_forall in Hat.
    pose proof (av_phase _ (Hat _ (last_elem_of _ _ Elast))) as Hp. rewrite Ep in Hp.
    rewrite <- (lt_snapshot _ _ _ Hl) in Hp. rewrite <- Hp in Hsource. done. }
  assert (Hclose := fun u => close_open_known (closure_interrupted reason now) u _ _ Elast Ho).
  destruct (present (outstanding_allowance graph)).
  - cbn [mbind result_bind].
    eapply (ending_sound _ _ (ends (graph_job graph) job_budget_exhausted None
      (Some (budget_terminal (latest_attemptId graph) now))) (closure_interrupted reason now)
      usage allowance); try done.
    + by apply epoch_bound.
    + unfold ends. rewrite Hres. apply ended_outcome; [tauto|done].
    + unfold closed_graph. by rewrite <- Hclose.
  - destruct (retry_outcome graph now reason usage allowance) as (status & retryAt & terminal & -> & Hout);
      try done.
    { by rewrite Eb; destruct before. } { rewrite <- (lb_deadline _ _ Hb). destruct (lb_valid _ _ Hb). lia. }
    cbn [mbind result_bind]. eapply (ending_sound _ _ (ends (graph_job graph) status retryAt terminal)
      (closure_interrupted reason now) usage allowance); try done.
    + by apply epoch_bound.
    + unfold ends. rewrite Hres. apply Hout.
    + unfold closed_graph. by rewrite <- Hclose.
Qed.
End worker.

(** ** The scheduler's own transitions *)

Section scheduler.
Context (graph : PolicyEvaluationJobSnapshot) (now : PolicyEvaluationTime).
Context (Hg : graph_valid graph) (Hnow : PolicyEvaluationTimeSchema now = true).

Lemma fresh_identifiers attemptId leaseId attempts :
  existsb (fun attempt =>
    (pfence_attemptId (pattempt_mutationFence attempt) === attemptId) ||
    (pfence_leaseId (pattempt_mutationFence attempt) === leaseId)) attempts = false ->
  attemptId ∉ ((fun a => pfence_attemptId (pattempt_mutationFence a)) <$> attempts) /\
  leaseId ∉ ((fun a => pfence_leaseId (pattempt_mutationFence a)) <$> attempts).
Proof.
  rewrite <- not_true_iff_false, existsb_exists. intros H.
  split; intros (a & -> & Ha)%list_elem_of_fmap; apply H; exists a; apply list_elem_of_In in Ha;
    (split; [done|]); breflect; tauto.
Qed.

Lemma claim_sound recoveryEpoch attemptId leaseId workerId :
  OpaqueIdSchema attemptId = true -> OpaqueIdSchema leaseId = true -> OpaqueIdSchema workerId = true ->
  sound (moves graph now)
    (claimPolicyEvaluationJob graph now recoveryEpoch attemptId leaseId workerId).
Proof.
  intros Hid1 Hid2 Hid3. unfold claimPolicyEvaluationJob. apply sound_snapshot; [done|].
  apply sound_parse; [done|]. apply sound_refuse; intros Hepoch. apply sound_refuse; intros Hstatus.
  apply sound_refuse; intros Hord. apply sound_refuse; intros Hdl. apply sound_refuse; intros _.
  apply sound_refuse; intros Hmax. do 3 (apply sound_parse; [done|]). apply sound_refuse; intros Hfresh.
  eapply sound_bind; [apply increment_sound|]. intros token [-> Htoken].
  destruct (identity_parts _ (jv_identity _ (gv_job _ Hg))) as (_ & Hd & _ & Hjobid).
  destruct (limits_durations _ Hg) as (Hlease & Htimeout & _).
  eapply sound_bind; [by apply capped_time_sound|]. intros deadlineAt [Hdv Hdt].
  eapply sound_bind; [by apply capped_time_sound|]. intros expiresAt [Hev Het].
  eapply sound_bind; [apply increment_sound|]. intros _ [_ Hver].
  apply fresh_identifiers in Hfresh as [Hf1 Hf2]. rewrite Z.leb_gt in Hmax, Hdl. rewrite Z.ltb_ge in Hord.
  assert (Ht : tick (graph_job graph) now) by done.
  rewrite !orb_false_iff, !negb_false_iff, Z.eqb_eq, isSafeInteger_spec, Z.ltb_ge in Hepoch.
  destruct Hepoch as [[Hsafe Hpos] Hepoch]. apply sound_final; [done|].
  eapply (moved_claimed _ _ {| pfence_jobId := pjob_jobId (graph_job graph);
    pfence_attemptId := attemptId; pfence_workerId := workerId; pfence_leaseId := leaseId;
    pfence_fencingToken := pjob_lastFencingToken (graph_job graph) + 1;
    pfence_recoveryEpoch := recoveryEpoch |} deadlineAt expiresAt); try done.
  pose proof (jv_token _ (gv_job _ Hg)). constructor; try done.
  - breflect. tauto.
  - unfold PolicyEvaluationWorkerMutationFenceSchema. cbn.
    rewrite !andb_true_iff, SafePositiveIntegerSchema_spec, SafeNonnegativeIntegerSchema_spec.
    split_and!; try done; lia.
Qed.

(** The end of a job that reached its deadline or its history limit. *)
Lemma expiry_sound status code closure epoch usage allowance graph' :
  tick (graph_job graph) now -> pjob_terminal (graph_job graph) = None ->
  pjob_recoveryEpoch (graph_job graph) <= epoch <= MAX_SAFE_INTEGER ->
  closure_committedAt closure = now ->
  (forall latest, last (graph_attempts graph) = Some latest -> pattempt_closure latest = None ->
     closure_fits latest closure) ->
  usage_grows graph usage -> (forall a, allowance <> Some (Some a)) ->
  status = job_timed_out \/ status = job_budget_exhausted -> terminal_code_ok status code = true ->
  graph' = closed_graph graph now {|
    out_status := status; out_retryAt := None;
    out_terminal := Some {| pterminal_status := status; pterminal_code := code;
      pterminal_attemptId := latest_attemptId graph; pterminal_committedAt := now |};
    out_epoch := epoch; out_result := pjob_result (graph_job graph) |} closure usage allowance
    (graph_cancellation graph) ->
  sound (moves graph now) (parse_snapshot graph').
Proof.
  intros Ht Hopen He Hat Hfits Hu Ha Hs Hc E. rewrite (open_result _ Hg Hopen) in E.
  eapply ending_sound; [ | | | | | | | | |exact E]; try done. apply ended_outcome; [tauto|done].
Qed.

Lemma reclaim_sound recoveryEpoch :
  sound (fun graph' => graph' = graph \/ moves graph now graph')
    (reclaimPolicyEvaluationJob graph now recoveryEpoch).
Proof.
  unfold reclaimPolicyEvaluationJob. apply sound_snapshot; [done|]. apply sound_parse; [done|].
  apply sound_refuse; intros _. destruct (pjob_terminal (graph_job graph)) eqn:Hopen; [by left|].
  cbn [present]. apply sound_refuse; intros Hord. apply sound_refuse; intros Hatt.
  apply sound_refuse; intros Hcase. apply sound_refuse; intros Hver.
  apply Z.ltb_ge in Hord. apply Z.leb_gt in Hver. assert (Ht : tick (graph_job graph) now) by done.
  destruct (charge_uncertain _ Hg) as (usage & allowance & -> & Hu & Ha).
  eapply (sound_mono (moves graph now)); [by right|].
  assert (Hepoch := epoch_bound _ Hg).
  destruct (Z.leb_spec (time (pjob_deadlineAt (graph_job graph))) (time now)) as [Hd|Hd]; cbn [mbind result_bind].
  { eapply expiry_sound; try done; try done; tauto. }
  destruct (present (outstanding_allowance graph)); cbn [mbind result_bind].
  { eapply expiry_sound; try done; try done; tauto. }
  assert (Hne : graph_attempts graph <> []).
  { intros E. rewrite E in Hatt. cbn in Hatt, Hcase. rewrite andb_true_r in Hatt. rewrite Hatt in Hcase.
    done. }
  destruct (retry_outcome graph now retryable_lease_expired usage allowance) as
    (status & retryAt & terminal & -> & Hout); try done. cbn [mbind result_bind].
  eapply (ending_sound _ _ (ends (graph_job graph) status retryAt terminal) _ usage allowance); try done; try done.
  unfold ends. rewrite (open_result _ Hg Hopen). apply Hout.
Qed.

Lemma cancel_sound intent :
  PolicyEvaluationCancellationSchema intent = true -> now = pcancel_requestedAt intent ->
  sound (fun graph' => graph' = graph \/ moves graph now graph') (cancelPolicyEvaluationJob graph intent).
Proof.
  intros Hi Enow. unfold cancelPolicyEvaluationJob. apply sound_snapshot; [done|].
  apply sound_parse; [done|]. apply sound_refuse; intros Hsame.
  destruct (graph_cancellation graph) as [previous|] eqn:Ec; [apply sound_refuse; intros _; by left|].
  apply sound_refuse; intros Hopen. rewrite <- Enow. apply sound_parse; [done|].
  apply sound_refuse; intros Hord. apply sound_refuse; intros Hver.
  apply Z.ltb_ge in Hord. apply Z.leb_gt in Hver. assert (Ht : tick (graph_job graph) now) by done.
  destruct (charge_uncertain _ Hg) as (usage & allowance & -> & Hu & Ha).
  eapply (sound_mono (moves graph now)); [by right|]. apply sound_final; [done|].
  assert (Hterm : pjob_terminal (graph_job graph) = None).
  { pose proof (jv_phase _ (gv_job _ Hg)) as Hp. unfold phase_ok, live_phase in Hp.
    destruct (pjob_status (graph_job graph)); try done; tauto. }
  set (outcome := {| out_status := job_cancelled; out_retryAt := None;
    out_terminal := Some {| pterminal_status := job_cancelled;
      pterminal_code := code_cancellation_committed;
      pterminal_attemptId := latest_attemptId graph; pterminal_committedAt := now |};
    out_epoch := pjob_recoveryEpoch (graph_job graph); out_result := None |}).
  eapply (moved_closed _ _ outcome (closure_ended closed_cancelled reason_cancellation_committed now)
    usage allowance (Some intent)); try done.
  - by apply epoch_bound.
  - apply ended_outcome; [by right; right; right|done].
  - by right.
  - intros c [= <-]. split; [done|]. breflect. destruct Hsame as [Hjob Hscope].
    pose proof (jv_created _ (gv_job _ Hg)). unfold cancellation_of_job_ok. cbn.
    rewrite <- Enow, !andb_true_iff, bool_decide_eq_true, sameScope_spec, !negb_true_iff, !Z.ltb_ge.
    split_and!; try done; lia.
Qed.

Lemma exhaust_sound :
  sound (moves graph now) (exhaustPolicyEvaluationJobHistory graph now).
Proof.
  unfold exhaustPolicyEvaluationJobHistory. apply sound_snapshot; [done|]. apply sound_parse; [done|].
  apply sound_reject; intros Hguard. breflect. destruct Hguard as [[Hopen Hver] Hord].
  assert (Ht : tick (graph_job graph) now) by (constructor; try done; rewrite Hver; done).
  destruct (charge_uncertain _ Hg) as (usage & allowance & -> & Hu & Ha).
  assert (Hepoch := epoch_bound _ Hg). eapply expiry_sound; try done; try done; tauto.
Qed.

(** Without a lease and without a terminal record the job waits. *)
Lemma idle_job :
  pjob_terminal (graph_job graph) = None -> pjob_currentLease (graph_job graph) = None ->
  pjob_status (graph_job graph) = job_queued /\ graph_attempts graph = [] /\
    pjob_retryAt (graph_job graph) = None \/
  pjob_status (graph_job graph) = job_retry_ready /\
    exists retryAt, pjob_retryAt (graph_job graph) = Some retryAt /\
      PolicyEvaluationTimeSchema retryAt = true /\
      time retryAt < time (pjob_deadlineAt (graph_job graph)) /\
      0 < Z.of_nat (length (graph_attempts graph)) < maxAttempts (request_limits (graph_request graph)).
Proof.
  intros Ht El. pose proof (jv_phase _ (gv_job _ Hg)) as Hp. unfold phase_ok, live_phase, ended_phase in Hp.
  pose proof (gv_count _ Hg) as Hc. pose proof (gv_retry _ Hg) as Hr.
  destruct (pjob_status (graph_job graph)) eqn:Es; try (exfalso; clear Hr; naive_solver).
  - left. destruct Hp as (_ & _ & _ & Er & _ & E0). split; [done|]. split; [|done].
    rewrite E0 in Hc. destruct (graph_attempts graph); [done|simpl in Hc; lia].
  - right. split; [done|]. destruct Hp as (_ & _ & _ & Hne & retryAt & E & Hv & Hb). exists retryAt.
    specialize (Hr eq_refl). split_and!; try done; lia.
Qed.

(** A job that waits goes on waiting, a retry time in the past moved up to now. *)
Lemma idle_outcome epoch closure :
  PolicyEvaluationTimeSchema now = true -> time now < time (pjob_deadlineAt (graph_job graph)) ->
  pjob_terminal (graph_job graph) = None -> pjob_currentLease (graph_job graph) = None ->
  outcome_ok graph now {|
    out_status := pjob_status (graph_job graph);
    out_retryAt := match pjob_retryAt (graph_job graph) with
      | Some retryAt =>
          if (pjob_status (graph_job graph) === job_retry_ready) && (time retryAt <? time now)
          then Some now else Some retryAt
      | None => None
      end;
    out_terminal := None; out_epoch := epoch; out_result := None |} closure (graph_cancellation graph).
Proof.
  intros Hn Hd Ht El. unfold outcome_ok. cbn.
  destruct (idle_job Ht El) as [(-> & Ea & ->)|(-> & retryAt & -> & Hv & Hlt & Hlen)]; [done|].
  cbn. split_and!; try done; try lia. destruct (Z.ltb_spec (time retryAt) (time now)).
  - exists now. split; [done|]. split; [done|]. lia.
  - exists retryAt. split; [done|]. split; [done|]. lia.
Qed.

Lemma recover_sound recoveryEpoch :
  sound (fun graph' => graph' = graph \/ moves graph now graph')
    (recoverPolicyEvaluationJob graph now recoveryEpoch).
Proof.
  unfold recoverPolicyEvaluationJob. apply sound_snapshot; [done|]. apply sound_parse; [done|].
  apply sound_reject; intros Hguard.
  destruct (pjob_terminal (graph_job graph)) eqn:Hopen; [by left|]. cbn [present].
  apply sound_reject; intros Hver.
  rewrite !orb_false_iff, negb_false_iff, isSafeInteger_spec, Z.leb_gt, Z.ltb_ge in Hguard.
  destruct Hguard as [[Hsafe Hgt] Hord]. apply Z.leb_gt in Hver.
  assert (Ht : tick (graph_job graph) now)
    by (constructor; try done; unfold MAX_POLICY_EVALUATION_JOB_HISTORY_ENTRIES, MAX_SAFE_INTEGER in *; lia).
  destruct (charge_uncertain _ Hg) as (usage & allowance & -> & Hu & Ha).
  eapply (sound_mono (moves graph now)); [by right|].
  assert (He : pjob_recoveryEpoch (graph_job graph) <= recoveryEpoch <= MAX_SAFE_INTEGER) by lia.
  destruct (Z.leb_spec (time (pjob_deadlineAt (graph_job graph))) (time now)) as [Hd|Hd]; cbn [mbind result_bind].
  { eapply expiry_sound; try done; try done; tauto. }
  destruct (_ =? _) eqn:Ehist; cbn [orb mbind result_bind].
  { eapply expiry_sound; try done; try done; tauto. }
  destruct (present (outstanding_allowance graph)); cbn [mbind result_bind].
  { eapply expiry_sound; try done; try done; tauto. }
  assert (Hres := open_result _ Hg Hopen).
  destruct (pjob_currentLease (graph_job graph)) as [lease|] eqn:El; cbn [present].
  - destruct (live_lease _ _ Hg El) as (_ & _ & _ & before & latest & Eb & _).
    destruct (retry_outcome graph now retryable_worker_interrupted usage allowance) as
      (status & retryAt & terminal & -> & Hout); try done; [by rewrite Eb; destruct before|].
    cbn [mbind result_bind]. eapply (ending_sound _ _ {| out_status := status; out_retryAt := retryAt;
      out_terminal := terminal; out_epoch := recoveryEpoch;
      out_result := pjob_result (graph_job graph) |} _ usage allowance); try done; try done.
    rewrite Hres. apply Hout.
  - cbn [mbind result_bind]. eapply (ending_sound _ _ {| out_status := pjob_status (graph_job graph);
      out_retryAt := _; out_terminal := None; out_epoch := recoveryEpoch;
      out_result := pjob_result (graph_job graph) |} _ usage allowance); try done; try done.
    rewrite Hres. by apply idle_outcome.
Qed.
End scheduler.
