(* ===== verification/PolicyJobHistory.v ===== *)
(** * The history of a policy-evaluation job

    [contracts/src/policy-evaluation-job-history.ts],
    [core/src/policy/policy-evaluation-job-history.ts],
    [policy-evaluation-job-history-replay.ts] and
    [policy-evaluation-job-record-validation.ts].  Every committed state
    version of a job has one entry that names the operation that led to it and
    the digests of the graphs before and after; replaying an entry runs the
    operation again and compares.

    The SHA-256 digests of the canonical encodings and the encoded sizes are
    parameters ([PolicyDigests]); comparing two canonical serializations is
    comparing the values. *)

From S2P Require Import Prelude Errors Primitives PolicyTime PolicyEvaluationJob.
From S2P Require Import PolicyJobSnapshot PolicyScheduler.

(** ** Entries *)

Inductive PolicyOperation : Type :=
| op_created
| op_claim (fence : PolicyEvaluationWorkerMutationFence)
| op_heartbeat (fence : PolicyEvaluationWorkerMutationFence)
| op_reserve (fence : PolicyEvaluationWorkerMutationFence) (reservationId : string)
    (delta : PolicyEvaluationUsage)
| op_reserve_acquisition (fence : PolicyEvaluationWorkerMutationFence) (allowanceId : string)
| op_settle_acquisition (fence : PolicyEvaluationWorkerMutationFence) (allowanceId : string)
    (usage : option PolicyEvaluationAcquisitionUsage)
| op_seal (fence : PolicyEvaluationWorkerMutationFence) (snapshot : PolicyEvaluationSnapshotReference)
| op_start_computation (fence : PolicyEvaluationWorkerMutationFence)
| op_complete (fence : PolicyEvaluationWorkerMutationFence) (result : PolicyEvaluationResultReference)
    (ruleCount : Z)
| op_interrupt (fence : PolicyEvaluationWorkerMutationFence) (reason : PolicyEvaluationRetryableError)
| op_reclaim
| op_history_limit
| op_recovery (recoveryEpoch : Z)
| op_cancel (intent : PolicyEvaluationCancellation).

(** [operation.fence], where the kind has one. *)
Definition operation_fence (operation : PolicyOperation) : option PolicyEvaluationWorkerMutationFence :=
  match operation with
  | op_claim fence | op_heartbeat fence | op_reserve fence _ _ | op_reserve_acquisition fence _
  | op_settle_acquisition fence _ _ | op_seal fence _ | op_start_computation fence
  | op_complete fence _ _ | op_interrupt fence _ => Some fence
  | _ => None
  end.

Definition is_created (operation : PolicyOperation) : bool :=
  match operation with op_created => true | _ => false end.

(** [Operation] of the contract. *)
Definition OperationSchema (operation : PolicyOperation) : bool :=
  optional PolicyEvaluationWorkerMutationFenceSchema (operation_fence operation) &&
  match operation with
  | op_reserve _ reservationId delta =>
      OpaqueIdSchema reservationId && PolicyEvaluationUsageSchema delta
  | op_reserve_acquisition _ allowanceId => OpaqueIdSchema allowanceId
  | op_settle_acquisition _ allowanceId usage =>
      OpaqueIdSchema allowanceId && optional PolicyEvaluationAcquisitionUsageSchema usage
  | op_seal _ snapshot => PolicyEvaluationSnapshotReferenceSchema snapshot
  | op_complete _ result ruleCount =>
      PolicyEvaluationResultReferenceSchema result && boundedInteger 1 MAX_POLICY_RULES ruleCount
  | op_recovery recoveryEpoch => SafePositiveIntegerSchema recoveryEpoch
  | op_cancel intent => PolicyEvaluationCancellationSchema intent
  | _ => true
  end.

Record PolicyEvaluationJobReference := {
  jobRef_jobId : string;
  jobRef_definitionSha256 : string;
}.

#[global] Instance PolicyEvaluationJobReference_eq_dec : EqDecision PolicyEvaluationJobReference.
Proof. solve_decision. Defined.

Definition PolicyEvaluationJobReferenceSchema (r : PolicyEvaluationJobReference) : bool :=
  OpaqueIdSchema (jobRef_jobId r) && Sha256Schema (jobRef_definitionSha256 r).

Definition job_reference (job : PolicyEvaluationJob) : PolicyEvaluationJobReference := {|
  jobRef_jobId := pjob_jobId job;
  jobRef_definitionSha256 := pjob_definitionSha256 job
|}.

Record PolicyEvaluationJobHistoryEntryDefinition := {
  history_scope : EvidenceScope;
  history_job : PolicyEvaluationJobReference;
  history_sequence : Z;
  history_predecessorEntrySha256 : option string;
  history_previousGraphSha256 : option string;
  history_graphSha256 : string;
  history_stateVersion : Z;
  history_committedAt : PolicyEvaluationTime;
  history_previousStatus : option PolicyEvaluationJobStatus;
  history_status : PolicyEvaluationJobStatus;
  history_operation : PolicyOperation;
}.

Definition SequenceSchema : Z -> bool := boundedInteger 0 (MAX_POLICY_EVALUATION_JOB_HISTORY_ENTRIES - 1).

(** What the kind of operation demands of its entry. *)
Definition operation_of_entry_ok (value : PolicyEvaluationJobHistoryEntryDefinition) : bool :=
  optional (fun fence => pfence_jobId fence === jobRef_jobId (history_job value))
    (operation_fence (history_operation value)) &&
  match history_operation value with
  | op_reserve _ _ delta => negb (no_work delta)
  | op_cancel intent =>
      (pcancel_jobId intent === jobRef_jobId (history_job value)) &&
      sameScope (pcancel_scope intent) (history_scope value) &&
      (pcancel_requestedAt intent === history_committedAt value)
  | _ => true
  end.

Definition PolicyEvaluationJobHistoryEntryDefinitionSchema
    (value : PolicyEvaluationJobHistoryEntryDefinition) : bool :=
  let initial := history_sequence value =? 0 in
  EvidenceScopeSchema (history_scope value) && PolicyEvaluationJobReferenceSchema (history_job value) &&
  SequenceSchema (history_sequence value) &&
  optional Sha256Schema (history_predecessorEntrySha256 value) &&
  optional Sha256Schema (history_previousGraphSha256 value) &&
  Sha256Schema (history_graphSha256 value) &&
  boundedInteger 1 MAX_POLICY_EVALUATION_JOB_HISTORY_ENTRIES (history_stateVersion value) &&
  PolicyEvaluationTimeSchema (history_committedAt value) &&
  OperationSchema (history_operation value) &&
  (history_stateVersion value =? history_sequence value + 1) &&
  Bool.eqb initial (is_created (history_operation value)) &&
  Bool.eqb initial (negb (present (history_predecessorEntrySha256 value))) &&
  Bool.eqb initial (negb (present (history_previousGraphSha256 value))) &&
  Bool.eqb initial (negb (present (history_previousStatus value))) &&
  negb (initial && (history_status value !== job_queued)) &&
  operation_of_entry_ok value.

Record PolicyEvaluationJobHistoryEntry := {
  entry_definition : PolicyEvaluationJobHistoryEntryDefinition;
  entry_entrySha256 : string;
}.

Definition PolicyEvaluationJobHistoryEntrySchema (entry : PolicyEvaluationJobHistoryEntry) : bool :=
  PolicyEvaluationJobHistoryEntryDefinitionSchema (entry_definition entry) &&
  Sha256Schema (entry_entrySha256 entry).

#[global] Instance PolicyOperation_eq_dec : EqDecision PolicyOperation.
Proof. solve_decision. Defined.
#[global] Instance PolicyEvaluationJobHistoryEntryDefinition_eq_dec :
  EqDecision PolicyEvaluationJobHistoryEntryDefinition.
Proof. solve_decision. Defined.
#[global] Instance PolicyEvaluationJobHistoryEntry_eq_dec : EqDecision PolicyEvaluationJobHistoryEntry.
Proof. solve_decision. Defined.

Record PolicyEvaluationJobHistoryHead := {
  head_scope : EvidenceScope;
  head_job : PolicyEvaluationJobReference;
  head_sequence : Z;
  head_entrySha256 : string;
  head_graphSha256 : string;
}.

#[global] Instance PolicyEvaluationJobHistoryHead_eq_dec : EqDecision PolicyEvaluationJobHistoryHead.
Proof. solve_decision. Defined.

Definition PolicyEvaluationJobHistoryHeadSchema (head : PolicyEvaluationJobHistoryHead) : bool :=
  EvidenceScopeSchema (head_scope head) && PolicyEvaluationJobReferenceSchema (head_job head) &&
  SequenceSchema (head_sequence head) && Sha256Schema (head_entrySha256 head) &&
  Sha256Schema (head_graphSha256 head).

(** ** Pages *)

Definition POLICY_EVALUATION_JOB_HISTORY_PAGE_SIZE : Z := 100.

Record PolicyEvaluationJobHistoryPage := {
  page_head : PolicyEvaluationJobHistoryHead;
  page_pageIndex : Z;
  page_entries : list PolicyEvaluationJobHistoryEntry;
}.

(** [Math.ceil(100_000 / 100) - 1] *)
Definition PolicyEvaluationJobHistoryPageIndexSchema : Z -> bool :=
  boundedInteger 0 (MAX_POLICY_EVALUATION_JOB_HISTORY_ENTRIES / POLICY_EVALUATION_JOB_HISTORY_PAGE_SIZE - 1).

Definition entry_of_page_ok (head : PolicyEvaluationJobHistoryHead) (first : Z)
    (indexed : nat * PolicyEvaluationJobHistoryEntry) : bool :=
  let '(index, entry) := indexed in
  let definition := entry_definition entry in
  (history_sequence definition =? first + Z.of_nat index) &&
  (history_job definition === head_job head) && sameScope (history_scope definition) (head_scope head).

(** An entry continues the one before it. *)
Definition entry_continues (previous entry : PolicyEvaluationJobHistoryEntry) : bool :=
  let before := entry_definition previous in
  let definition := entry_definition entry in
  (history_predecessorEntrySha256 definition === Some (entry_entrySha256 previous)) &&
  (history_previousGraphSha256 definition === Some (history_graphSha256 before)) &&
  (history_previousStatus definition === Some (history_status before)) &&
  negb (time (history_committedAt definition) <? time (history_committedAt before)).

Fixpoint entries_continue (entries : list PolicyEvaluationJobHistoryEntry) : bool :=
  match entries with
  | [] => true
  | previous :: rest =>
      match rest with
      | [] => true
      | entry :: _ => entry_continues previous entry && entries_continue rest
      end
  end.

Definition PolicyEvaluationJobHistoryPageSchema (page : PolicyEvaluationJobHistoryPage) : bool :=
  let head := page_head page in
  let entries := page_entries page in
  let first := page_pageIndex page * POLICY_EVALUATION_JOB_HISTORY_PAGE_SIZE in
  let count := Z.min POLICY_EVALUATION_JOB_HISTORY_PAGE_SIZE (head_sequence head + 1 - first) in
  PolicyEvaluationJobHistoryHeadSchema head &&
  PolicyEvaluationJobHistoryPageIndexSchema (page_pageIndex page) &&
  forallb PolicyEvaluationJobHistoryEntrySchema entries &&
  boundedInteger 1 POLICY_EVALUATION_JOB_HISTORY_PAGE_SIZE (Z.of_nat (length entries)) &&
  negb (count <=? 0) && (Z.of_nat (length entries) =? count) &&
  forallb (entry_of_page_ok head first) (indexed entries) && entries_continue entries &&
  match last entries with
  | Some final =>
      negb (history_sequence (entry_definition final) =? head_sequence head) ||
      (entry_entrySha256 final === head_entrySha256 head) &&
      (history_graphSha256 (entry_definition final) === head_graphSha256 head)
  | None => true
  end.

(** ** Digests *)

(** SHA-256 of the canonical encodings, and the lengths of two of them. *)
Class PolicyDigests := {
  digestPolicyEvaluationRequestDefinition : EvidenceScope -> PolicyEvaluationRequestDefinition -> string;
  digestJob : EvidenceScope -> string -> PolicyEvaluationRequestReference -> string;
  digestGraph : PolicyEvaluationJobSnapshot -> string;
  digestEntry : PolicyEvaluationJobHistoryEntryDefinition -> string;
  entryBytes : PolicyEvaluationJobHistoryEntry -> Z;
  pageBytes : PolicyEvaluationJobHistoryPage -> Z;
}.

Definition MAX_POLICY_EVALUATION_JOB_HISTORY_ENTRY_BYTES : Z := 4096.
Definition MAX_POLICY_EVALUATION_JOB_HISTORY_PAGE_BYTES : Z := 512 * 1024.

(** The request without the receipts of the server. *)
Definition definitionOf (record : PolicyEvaluationRequest) : PolicyEvaluationRequestDefinition := {|
  definition_candidate := request_candidate record;
  definition_evaluationRequestId := request_evaluationRequestId record;
  definition_evaluationTime := request_evaluationTime record;
  definition_limits := request_limits record;
  definition_policy := request_policy record
|}.

Section history.
Context `{PolicyDigests}.

Definition digestRequest (record : PolicyEvaluationRequest) : string :=
  digestPolicyEvaluationRequestDefinition (request_scope record) (definitionOf record).

Definition validatePolicyEvaluationJobSnapshotRecord (scope : EvidenceScope)
    (job : PolicyEvaluationJobReference) (snapshot : PolicyEvaluationJobSnapshot) :
    res PolicyEvaluationJobSnapshot :=
  let request := graph_request snapshot in
  let digest := digestJob (pjob_scope (graph_job snapshot)) (pjob_jobId (graph_job snapshot))
                  (pjob_request (graph_job snapshot)) in
  reject_when
    (negb (PolicyEvaluationJobSnapshotSchema snapshot) ||
     negb (PolicyEvaluationRequestSchema request) ||
     (digestRequest request !== request_definitionSha256 request) ||
     (digest !== pjob_definitionSha256 (graph_job snapshot)) ||
     (pjob_jobId (graph_job snapshot) !== jobRef_jobId job) ||
     (digest !== jobRef_definitionSha256 job) ||
     negb (sameScope (pjob_scope (graph_job snapshot)) scope)) InvalidPolicyEvaluationJobGraphError ;;
  Ok snapshot.

(** [encodePolicyEvaluationJobGraph] admits the graph before it is digested. *)
Definition digestPolicyEvaluationJobGraph (snapshot : PolicyEvaluationJobSnapshot) : res string :=
  admitted ← validatePolicyEvaluationJobSnapshotRecord (pjob_scope (graph_job snapshot))
               (job_reference (graph_job snapshot)) snapshot;
  Ok (digestGraph admitted).

(** [sha(encodePolicyEvaluationJobHistoryEntry(definition))] *)
Definition digestHistoryEntry (definition : PolicyEvaluationJobHistoryEntryDefinition) : res string :=
  definition ← parse PolicyEvaluationJobHistoryEntryDefinitionSchema definition;
  Ok (digestEntry definition).

Definition validatePolicyEvaluationJobHistoryEntry (entry : PolicyEvaluationJobHistoryEntry) :
    res PolicyEvaluationJobHistoryEntry :=
  entry ← parse PolicyEvaluationJobHistoryEntrySchema entry;
  digest ← digestHistoryEntry (entry_definition entry);
  reject_when (entry_entrySha256 entry !== digest) PolicyEvaluationJobHistoryError ;;
  reject_when (MAX_POLICY_EVALUATION_JOB_HISTORY_ENTRY_BYTES <? entryBytes entry)
    PolicyEvaluationJobHistoryError ;;
  Ok entry.

(** [previous === null ? null : digestPolicyEvaluationJobGraph(previous)] *)
Definition digest_previous (previous : option PolicyEvaluationJobSnapshot) : res (option string) :=
  match previous with
  | Some previous => digest ← digestPolicyEvaluationJobGraph previous; Ok (Some digest)
  | None => Ok None
  end.

Definition validate_predecessor (entry : option PolicyEvaluationJobHistoryEntry) :
    res (option PolicyEvaluationJobHistoryEntry) :=
  match entry with
  | Some entry => entry ← validatePolicyEvaluationJobHistoryEntry entry; Ok (Some entry)
  | None => Ok None
  end.

(** The predecessor is the entry of exactly the previous graph. *)
Definition continues_graph (previous next : PolicyEvaluationJobSnapshot)
    (previousGraphSha256 : option string) (predecessor : PolicyEvaluationJobHistoryEntry) : bool :=
  let definition := entry_definition predecessor in
  (Some (history_graphSha256 definition) === previousGraphSha256) &&
  (history_stateVersion definition =? pjob_stateVersion (graph_job previous)) &&
  (history_job definition === job_reference (graph_job next)) &&
  sameScope (history_scope definition) (pjob_scope (graph_job next)) &&
  (pjob_stateVersion (graph_job next) =? pjob_stateVersion (graph_job previous) + 1).

Definition entry_definition_of (previous : option PolicyEvaluationJobSnapshot)
    (predecessor : option PolicyEvaluationJobHistoryEntry) (next : PolicyEvaluationJobSnapshot)
    (previousGraphSha256 : option string) (graphSha256 : string) (operation : PolicyOperation) :
    PolicyEvaluationJobHistoryEntryDefinition := {|
  history_scope := pjob_scope (graph_job next);
  history_job := job_reference (graph_job next);
  history_sequence := pjob_stateVersion (graph_job next) - 1;
  history_predecessorEntrySha256 := entry_entrySha256 <$> predecessor;
  history_previousGraphSha256 := previousGraphSha256;
  history_graphSha256 := graphSha256;
  history_stateVersion := pjob_stateVersion (graph_job next);
  history_committedAt := pjob_updatedAt (graph_job next);
  history_previousStatus := (fun graph => pjob_status (graph_job graph)) <$> previous;
  history_status := pjob_status (graph_job next);
  history_operation := operation
|}.

Definition createPolicyEvaluationJobHistoryEntry (previous : option PolicyEvaluationJobSnapshot)
    (previousEntry : option PolicyEvaluationJobHistoryEntry) (next : PolicyEvaluationJobSnapshot)
    (operation : PolicyOperation) : res PolicyEvaluationJobHistoryEntry :=
  graphSha256 ← digestPolicyEvaluationJobGraph next;
  previousGraphSha256 ← digest_previous previous;
  predecessor ← validate_predecessor previousEntry;
  reject_when (negb (Bool.eqb (present previous) (present predecessor))) PolicyEvaluationJobHistoryError ;;
  reject_when
    match previous, predecessor with
    | Some previous, Some predecessor =>
        negb (continues_graph previous next previousGraphSha256 predecessor)
    | _, _ => false
    end PolicyEvaluationJobHistoryError ;;
  let definition :=
    entry_definition_of previous predecessor next previousGraphSha256 graphSha256 operation in
  digest ← digestHistoryEntry definition;
  validatePolicyEvaluationJobHistoryEntry
    {| entry_definition := definition; entry_entrySha256 := digest |}.

Definition policyEvaluationJobHistoryHead (entry : PolicyEvaluationJobHistoryEntry) :
    res PolicyEvaluationJobHistoryHead :=
  entry ← validatePolicyEvaluationJobHistoryEntry entry;
  let definition := entry_definition entry in
  parse PolicyEvaluationJobHistoryHeadSchema {|
    head_scope := history_scope definition;
    head_job := history_job definition;
    head_sequence := history_sequence definition;
    head_entrySha256 := entry_entrySha256 entry;
    head_graphSha256 := history_graphSha256 definition
  |}.

Definition validatePolicyEvaluationJobHistoryPage (expected : PolicyEvaluationJobHistoryHead)
    (page : PolicyEvaluationJobHistoryPage) : res PolicyEvaluationJobHistoryPage :=
  expected ← parse PolicyEvaluationJobHistoryHeadSchema expected;
  page ← parse PolicyEvaluationJobHistoryPageSchema page;
  reject_when (expected !== page_head page) PolicyEvaluationJobHistoryError ;;
  map_result validatePolicyEvaluationJobHistoryEntry (page_entries page) ;;
  reject_when (MAX_POLICY_EVALUATION_JOB_HISTORY_PAGE_BYTES <? pageBytes page)
    PolicyEvaluationJobHistoryError ;;
  Ok page.

(** ** Replay *)

(** The transition an operation names, at an instant and in an epoch. *)
Definition run_operation (previous : PolicyEvaluationJobSnapshot) (now : PolicyEvaluationTime)
    (recoveryEpoch : Z) (operation : PolicyOperation) : res PolicyEvaluationJobSnapshot :=
  match operation with
  | op_complete fence result ruleCount =>
      completePolicyEvaluationJob previous now recoveryEpoch fence result ruleCount
  | op_seal fence snapshot => sealPolicyEvaluationJob previous now recoveryEpoch fence snapshot
  | op_start_computation fence => startPolicyEvaluationComputation previous now recoveryEpoch fence
  | op_claim fence =>
      next ← claimPolicyEvaluationJob previous now recoveryEpoch (pfence_attemptId fence)
               (pfence_leaseId fence) (pfence_workerId fence);
      reject_when
        ((please_mutationFence <$> pjob_currentLease (graph_job next)) !== Some fence)
        PolicyEvaluationJobHistoryError ;;
      Ok next
  | op_heartbeat fence => heartbeatPolicyEvaluationJob previous now recoveryEpoch fence
  | op_reserve fence _ delta => reservePolicyEvaluationUsage previous now recoveryEpoch fence delta
  | op_reserve_acquisition fence allowanceId =>
      reservePolicyEvaluationAcquisition previous now recoveryEpoch fence allowanceId
  | op_settle_acquisition fence allowanceId usage =>
      settlePolicyEvaluationAcquisition previous now recoveryEpoch fence allowanceId usage
  | op_interrupt fence reason => interruptPolicyEvaluationJob previous now recoveryEpoch fence reason
  | op_reclaim => reclaimPolicyEvaluationJob previous now recoveryEpoch
  | op_history_limit => exhaustPolicyEvaluationJobHistory previous now
  | op_recovery newEpoch => recoverPolicyEvaluationJob previous now newEpoch
  | op_cancel intent => cancelPolicyEvaluationJob previous intent
  | op_created => Throw PolicyEvaluationJobHistoryError
  end.

Definition replayPolicyEvaluationJobHistoryEntry (previous : PolicyEvaluationJobSnapshot)
    (entry : PolicyEvaluationJobHistoryEntry) : res PolicyEvaluationJobSnapshot :=
  entry ← validatePolicyEvaluationJobHistoryEntry entry;
  let definition := entry_definition entry in
  previousGraphSha256 ← digestPolicyEvaluationJobGraph previous;
  let job := graph_job previous in
  reject_when
    ((history_previousGraphSha256 definition !== Some previousGraphSha256) ||
     (history_previousStatus definition !== Some (pjob_status job)) ||
     negb (history_stateVersion definition =? pjob_stateVersion job + 1) ||
     negb (sameScope (history_scope definition) (pjob_scope job)) ||
     (history_job definition !== job_reference job)) PolicyEvaluationJobHistoryError ;;
  next ← run_operation previous (history_committedAt definition) (pjob_recoveryEpoch job)
           (history_operation definition);
  reject_when (pjob_status (graph_job next) !== history_status definition)
    PolicyEvaluationJobHistoryError ;;
  nextGraphSha256 ← digestPolicyEvaluationJobGraph next;
  reject_when (nextGraphSha256 !== history_graphSha256 definition) PolicyEvaluationJobHistoryError ;;
  Ok next.
End history.
