(* ===== verification/PolicySchedulerSystem.v ===== *)
(** * The scheduler as a transition system

    A graph is created queued and then changes by the operations its history
    records, each run at some instant.  The theorems: operations keep the
    contract, what they never undo, whose fence they accept and until when, and
    that a job past its deadline can always be ended. *)

From stdpp Require Import relations.
From S2P Require Import Prelude Errors Primitives PolicyTime PolicyEvaluationJob.
From S2P Require Import PolicyJobSnapshot PolicyJobInvariant PolicyScheduler.
From S2P Require Import PolicySchedulerProofs PolicySchedulerContract PolicyJobHistory.

(** A cancellation carries the instant it is committed at. *)
Definition cancellation_stamped (now : PolicyEvaluationTime) (operation : PolicyOperation) : Prop :=
  forall intent, operation = op_cancel intent -> now = pcancel_requestedAt intent.

(** A valid graph in which only a cancelled job carries a cancellation. *)
Definition good_graph (graph : PolicyEvaluationJobSnapshot) : Prop :=
  PolicyEvaluationJobSnapshotSchema graph = true /\ uncancelled graph.

Definition changes (graph : PolicyEvaluationJobSnapshot) (now : PolicyEvaluationTime)
    (graph' : PolicyEvaluationJobSnapshot) : Prop :=
  graph' = graph \/ moves graph now graph'.

Lemma run_sound graph now recoveryEpoch operation :
  good_graph graph -> PolicyEvaluationTimeSchema now = true -> OperationSchema operation = true ->
  cancellation_stamped now operation ->
  (forall fence snapshot, operation = op_seal fence snapshot -> outstanding_allowance graph = None) ->
  sound (changes graph now) (run_operation graph now recoveryEpoch operation).
Proof.
  intros [Hg%graph_valid_iff Hun] Hn Hop Hc Hseal. unfold OperationSchema in Hop.
  apply andb_true_iff in Hop as [Hf Hop].
  assert (Hmono := sound_mono (moves graph now) (changes graph now)).
  assert (Hmove : forall g, moves graph now g -> changes graph now g) by (by right).
  destruct operation; cbn [run_operation operation_fence optional] in *.
  - done.
  - unfold PolicyEvaluationWorkerMutationFenceSchema in Hf. rewrite !andb_true_iff in Hf.
    destruct_and? Hf. eapply sound_bind; [by apply claim_sound|]. intros next Hm. apply sound_reject; intros _. by right.
  - by apply Hmono, heartbeat_sound.
  - apply andb_true_iff in Hop as [_ Hd]. by apply Hmono, reserve_usage_sound.
  - by apply Hmono, reserve_acquisition_sound.
  - apply andb_true_iff in Hop as [Hid Hu]. apply Hmono, settle_sound; try done.
    unfold settlement_ok. by rewrite optional_Some in Hu.
  - apply Hmono, seal_sound; try done. by eapply Hseal.
  - by apply Hmono, start_sound.
  - apply andb_true_iff in Hop as [Hr _]. by apply Hmono, complete_sound.
  - by apply Hmono, interrupt_sound.
  - by apply reclaim_sound.
  - by apply Hmono, exhaust_sound.
  - by apply recover_sound.
  - apply cancel_sound; try done. by apply Hc.
Qed.

(** A seal that succeeds found no acquisition outstanding. *)
Lemma sealed_none graph now recoveryEpoch fence reference next :
  sealPolicyEvaluationJob graph now recoveryEpoch fence reference = Ok next ->
  outstanding_allowance graph = None.
Proof.
  unfold sealPolicyEvaluationJob, parse_snapshot. intros H. inv_res.
  destruct (last (graph_attempts graph)); [|done]. inv_res.
  match goal with H : PolicyEvaluationJobSnapshotSchema (set_graph _ _ _) = true |- _ =>
    apply graph_valid_iff in H; by apply (not_acquiring_none _ H) end.
Qed.

(** What sealing refuses a valid graph with. *)
Lemma seal_refusal graph now recoveryEpoch fence reference error :
  PolicyEvaluationJobSnapshotSchema graph = true -> PolicyEvaluationTimeSchema now = true ->
  PolicyEvaluationWorkerMutationFenceSchema fence = true ->
  PolicyEvaluationSnapshotReferenceSchema reference = true ->
  sealPolicyEvaluationJob graph now recoveryEpoch fence reference = Throw error ->
  scheduler_error error \/ error = ZodError.
Proof.
  intros Hg Hn Hf Href. unfold sealPolicyEvaluationJob, parse_snapshot, refuse_when, transition_error.
  rewrite (parse_accepted _ _ Hg). cbn [mbind result_bind].
  pose proof (live_fence_sound graph now recoveryEpoch fence (proj1 (graph_valid_iff _) Hg) Hn Hf) as Hl.
  destruct (requirePolicyEvaluationLiveFence _ _ _ _) as [u|e]; cbn [mbind result_bind];
    [|intros [= <-]; by left].
  rewrite (parse_accepted _ _ Href). cbn [mbind result_bind].
  destruct (last _); [|intros [= <-]; by left]. unfold reject_when.
  repeat (case_match; cbn [mbind result_bind]; try (intros [= <-]; by left)).
  unfold parse, parse_with. case_match; intros [= <-]. by right.
Qed.


(** ** Steps *)

Inductive step (graph : PolicyEvaluationJobSnapshot) : PolicyEvaluationJobSnapshot -> Prop :=
| step_operation now recoveryEpoch operation next
    (Hnow : PolicyEvaluationTimeSchema now = true) (Hop : OperationSchema operation = true)
    (Hstamp : cancellation_stamped now operation)
    (Hrun : run_operation graph now recoveryEpoch operation = Ok next) :
    step graph next.

Lemma run_changes graph now recoveryEpoch operation next :
  good_graph graph -> PolicyEvaluationTimeSchema now = true -> OperationSchema operation = true ->
  cancellation_stamped now operation -> run_operation graph now recoveryEpoch operation = Ok next ->
  changes graph now next.
Proof.
  intros Hgood Hn Hop Hc E. pose proof (run_sound graph now recoveryEpoch operation Hgood Hn Hop Hc) as H.
  rewrite E in H. apply H. intros fence snapshot ->. by eapply sealed_none.
Qed.

Lemma changes_good graph now next : good_graph graph -> changes graph now next -> good_graph next.
Proof.
  intros Hgood [->|Hm]; [done|]. destruct Hgood as [Hg%graph_valid_iff Hun].
  split; [apply graph_valid_iff; by eapply moves_valid|by eapply moves_uncancelled].
Qed.

Lemma step_changes graph next : good_graph graph -> step graph next -> exists now, changes graph now next.
Proof. intros Hgood []. exists now. by eapply run_changes. Qed.

Lemma step_good graph next : good_graph graph -> step graph next -> good_graph next.
Proof. intros Hgood Hs. destruct (step_changes _ _ Hgood Hs). by eapply changes_good. Qed.

Lemma steps_good graph next : good_graph graph -> rtc step graph next -> good_graph next.
Proof. intros Hgood H. induction H; eauto using step_good. Qed.

(** ** What no operation undoes *)

(** An attempt later in its life: its beginning stands, and once closed all of it does. *)
Record attempt_later (attempt attempt' : PolicyEvaluationAttempt) : Prop := {
  al_fence : pattempt_mutationFence attempt' = pattempt_mutationFence attempt;
  al_sequence : pattempt_attemptSequence attempt' = pattempt_attemptSequence attempt;
  al_started : pattempt_startedAt attempt' = pattempt_startedAt attempt;
  al_deadline : pattempt_deadlineAt attempt' = pattempt_deadlineAt attempt;
  al_usage : pattempt_usageAtStart attempt' = pattempt_usageAtStart attempt;
  al_closed : pattempt_closure attempt <> None -> attempt' = attempt;
}.

#[global] Instance attempt_later_preorder : PreOrder attempt_later.
Proof.
  split; [by constructor|]. intros a b c [] []. constructor; try congruence.
  intros Hc. rewrite al_closed1; [by apply al_closed0|]. by rewrite al_closed0.
Qed.

(** No attempt is lost, and new ones come at the end. *)
Definition attempts_later (attempts attempts' : list PolicyEvaluationAttempt) : Prop :=
  exists kept added, attempts' = kept ++ added /\ Forall2 attempt_later attempts kept.

#[global] Instance attempts_later_preorder : PreOrder attempts_later.
Proof.
  split.
  - intros l. exists l, []. split; [by rewrite app_nil_r|]. reflexivity.
  - intros l1 l2 l3 (k1 & a1 & -> & H1) (k2 & a2 & -> & H2).
    apply Forall2_app_inv_l in H2 as (k & a & H2 & H3 & ->).
    exists k, (a ++ a2). split; [by rewrite app_assoc|]. by etrans.
Qed.

Record graph_later (graph graph' : PolicyEvaluationJobSnapshot) : Prop := {
  gl_request : graph_request graph' = graph_request graph;
  gl_identity : pjob_jobId (graph_job graph') = pjob_jobId (graph_job graph) /\
    pjob_request (graph_job graph') = pjob_request (graph_job graph) /\
    pjob_definitionSha256 (graph_job graph') = pjob_definitionSha256 (graph_job graph) /\
    pjob_scope (graph_job graph') = pjob_scope (graph_job graph) /\
    pjob_createdAt (graph_job graph') = pjob_createdAt (graph_job graph) /\
    pjob_createdByPrincipalId (graph_job graph') = pjob_createdByPrincipalId (graph_job graph) /\
    pjob_deadlineAt (graph_job graph') = pjob_deadlineAt (graph_job graph);
  gl_clock : time (pjob_updatedAt (graph_job graph)) <= time (pjob_updatedAt (graph_job graph'));
  gl_version : graph' = graph \/
    pjob_stateVersion (graph_job graph) < pjob_stateVersion (graph_job graph');
  gl_epoch : pjob_recoveryEpoch (graph_job graph) <= pjob_recoveryEpoch (graph_job graph');
  gl_token : pjob_lastFencingToken (graph_job graph) <= pjob_lastFencingToken (graph_job graph');
  gl_usage : usage_le (graph_usage graph) (graph_usage graph');
  gl_attempts : attempts_later (graph_attempts graph) (graph_attempts graph');
  gl_snapshot : pjob_snapshot (graph_job graph) <> None ->
    pjob_snapshot (graph_job graph') = pjob_snapshot (graph_job graph);
  gl_terminal : pjob_terminal (graph_job graph) <> None -> graph' = graph;
}.

#[global] Instance graph_later_preorder : PreOrder graph_later.
Proof.
  split.
  - intros g. constructor; first [done|by left|reflexivity].
  - intros g1 g2 g3 H1 H2. destruct H1, H2. constructor; try lia; try congruence.
    + destruct_and?. split_and?; congruence.
    + destruct gl_version0 as [->|], gl_version1 as [->|]; auto. right. lia.
    + by etrans.
    + by etrans.
    + intros Hs. rewrite gl_snapshot1; [by apply gl_snapshot0|]. by rewrite gl_snapshot0.
    + intros Ht. rewrite gl_terminal1; [by apply gl_terminal0|]. by rewrite gl_terminal0.
Qed.

Lemma closed_later closure usage attempt : attempt_later attempt (closed closure usage attempt).
Proof.
  unfold closed. destruct (present (pattempt_closure attempt)) eqn:E; [reflexivity|].
  constructor; try done. intros Hc. by destruct (pattempt_closure attempt).
Qed.

Lemma update_last_later f attempts :
  (forall attempt, last attempts = Some attempt -> attempt_later attempt (f attempt)) ->
  attempts_later attempts (update_last f attempts).
Proof.
  destruct attempts as [|a l _] using rev_ind; intros Hf; [reflexivity|]. rewrite last_snoc in Hf.
  rewrite update_last_snoc. exists (l ++ [f a]), []. split; [by rewrite app_nil_r|].
  apply Forall2_app; [reflexivity|]. constructor; [by apply Hf|constructor].
Qed.

Lemma moves_later graph now graph' : graph_valid graph -> moves graph now graph' -> graph_later graph graph'.
Proof.
  intros Hg H.
  assert (Hlive : pjob_currentLease (graph_job graph) <> None -> pjob_terminal (graph_job graph) = None).
  { intros Hl. destruct (pjob_currentLease (graph_job graph)) as [lease|] eqn:El; [|done].
    by apply (live_lease _ _ Hg El). }
  destruct H; destruct Ht as [_ Hord _]; subst.
  - destruct Hu. constructor; try done; cbn; try lia; try reflexivity.
    rewrite Hlive; congruence.
  - assert (Hl := live_lease _ _ Hg El). destruct Hl as (_ & (_ & _ & Hterm & _) & _ & before & latest & Eb & _ & Ho & _).
    constructor; try done; cbn; try lia; try congruence.
    apply update_last_later. intros a Ea. rewrite Eb, last_snoc in Ea. injection Ea as <-.
    by constructor.
  - destruct Hu. constructor; try done; cbn; try lia; try reflexivity; try congruence.
    apply update_last_later. intros a _. apply closed_later.
  - destruct (waiting_job _ Hg (cl_status _ _ _ _ _ Hclaim)) as (_ & _ & Hterm). destruct Hclaim.
    constructor; try done; cbn; try lia; try congruence.
    exists (graph_attempts graph). eexists. split; [reflexivity|]. reflexivity.
Qed.

Lemma changes_later graph now next : good_graph graph -> changes graph now next -> graph_later graph next.
Proof. intros [Hg%graph_valid_iff _] [->|Hm]; [reflexivity|by eapply moves_later]. Qed.

Lemma steps_later graph next : good_graph graph -> rtc step graph next -> graph_later graph next.
Proof.
  intros Hgood H. induction H as [|g1 g2 g3 Hs H IH]; [reflexivity|].
  destruct (step_changes _ _ Hgood Hs) as [now Hc]. etrans; [by eapply changes_later|].
  apply IH. by eapply changes_good.
Qed.

(** C34. Along every execution of the scheduler a job keeps its request and
    identity, its clock, epoch, fencing token and usage never go back, every
    change raises the state version, attempts are only added at the end and
    never change once closed, a sealed snapshot is never replaced, and a job
    with a terminal record never changes again. *)
Theorem job_only_advances graph next :
  good_graph graph -> rtc step graph next -> good_graph next /\ graph_later graph next.
Proof. intros Hgood H. split; [by eapply steps_good|by apply steps_later]. Qed.

(** ** Fences *)

Lemma sound_Ok {A} (P : A -> Prop) (m : res A) a : sound P m -> m = Ok a -> P a.
Proof. by intros H ->. Qed.

(** The fence under which a worker asks for an operation. *)
Definition worker_fence (operation : PolicyOperation) : option PolicyEvaluationWorkerMutationFence :=
  match operation with op_claim _ => None | _ => operation_fence operation end.

(** What an accepted worker operation has established. *)
Record accepted (graph : PolicyEvaluationJobSnapshot) (now : PolicyEvaluationTime) (recoveryEpoch : Z)
    (fence : PolicyEvaluationWorkerMutationFence) (lease : PolicyEvaluationLease) : Prop := {
  ac_lease : pjob_currentLease (graph_job graph) = Some lease;
  ac_epoch : recoveryEpoch = pjob_recoveryEpoch (graph_job graph);
  ac_fence : fence = please_mutationFence lease;
  ac_order : time (pjob_updatedAt (graph_job graph)) <= time now;
  ac_expires : time now < time (please_expiresAt lease);
}.

Lemma guarded_accepted graph now recoveryEpoch fence lease :
  guarded (graph_job graph) now recoveryEpoch fence lease -> accepted graph now recoveryEpoch fence lease.
Proof. intros []. by constructor. Qed.

Lemma live_call_accepted {B} graph now recoveryEpoch fence (f : PolicyEvaluationJobSnapshot -> unit -> res B) next :
  (graph ← parse_snapshot graph;
   u ← requirePolicyEvaluationLiveFence graph now recoveryEpoch fence; f graph u) = Ok next ->
  exists lease, accepted graph now recoveryEpoch fence lease.
Proof.
  intros (g & [Hg ->]%parse_Ok & H)%bind_Ok. apply bind_Ok in H as ([] & H & _).
  unfold requirePolicyEvaluationLiveFence in H. apply bind_Ok in H as (g & [_ ->]%parse_Ok & H).
  apply bind_Ok in H as (t & [_ ->]%parse_Ok & H). apply bind_Ok in H as (d & [_ ->]%parse_Ok & H).
  apply bind_Ok in H as (lease & H & _). exists lease. apply guarded_accepted.
  by eapply sound_Ok; [apply live_guards_sound|].
Qed.

Lemma guarded_call_accepted {B} graph now recoveryEpoch fence (f : PolicyEvaluationLease -> res B) next :
  (lease ← live_guards (graph_job graph) now recoveryEpoch fence; f lease) = Ok next ->
  exists lease, accepted graph now recoveryEpoch fence lease.
Proof.
  intros (lease & H & _)%bind_Ok. exists lease. apply guarded_accepted.
  by eapply sound_Ok; [apply live_guards_sound|].
Qed.

Lemma worker_accepted graph now recoveryEpoch operation next fence :
  run_operation graph now recoveryEpoch operation = Ok next -> worker_fence operation = Some fence ->
  exists lease, accepted graph now recoveryEpoch fence lease.
Proof.
  intros H E. destruct operation; try done; injection E as ->; cbn [run_operation] in H.
  - unfold heartbeatPolicyEvaluationJob in H. apply bind_Ok in H as (g & [_ ->]%parse_Ok & H).
    apply bind_Ok in H as (t & [_ ->]%parse_Ok & H). apply bind_Ok in H as (d & [_ ->]%parse_Ok & H).
    eapply guarded_call_accepted. exact H.
  - unfold reservePolicyEvaluationUsage in H. apply bind_Ok in H as (g & [_ ->]%parse_Ok & H).
    apply bind_Ok in H as (t & [_ ->]%parse_Ok & H). apply bind_Ok in H as (d & [_ ->]%parse_Ok & H).
    apply bind_Ok in H as (u & [_ ->]%parse_Ok & H). eapply guarded_call_accepted. exact H.
  - unfold reservePolicyEvaluationAcquisition in H. eapply live_call_accepted. exact H.
  - unfold settlePolicyEvaluationAcquisition in H. eapply live_call_accepted. exact H.
  - unfold sealPolicyEvaluationJob in H. eapply live_call_accepted. exact H.
  - unfold startPolicyEvaluationComputation in H. eapply live_call_accepted. exact H.
  - unfold completePolicyEvaluationJob in H. eapply live_call_accepted. exact H.
  - unfold interruptPolicyEvaluationJob in H. apply bind_Ok in H as (g & [_ ->]%parse_Ok & H).
    apply bind_Ok in H as (t & [_ ->]%parse_Ok & H). apply bind_Ok in H as (d & [_ ->]%parse_Ok & H).
    destruct (pjob_currentLease (graph_job graph)) as [lease|] eqn:El; [|done].
    destruct (last (graph_attempts graph)); [|done]. unfold refuse_when in H.
    do 4 apply bind_Ok in H as ([] & ?%reject_when_Ok & H). breflect. exists lease. by constructor; naive_solver.
Qed.

Lemma claim_accepted graph now recoveryEpoch fence next :
  run_operation graph now recoveryEpoch (op_claim fence) = Ok next ->
  pfence_fencingToken fence = pjob_lastFencingToken (graph_job graph) + 1 /\
  pjob_lastFencingToken (graph_job next) = pfence_fencingToken fence.
Proof.
  cbn [run_operation]. intros (g & Hc & H)%bind_Ok. inv_res. breflect.
  unfold claimPolicyEvaluationJob, increment, parse_snapshot in Hc. inv_res.
  match goal with H : _ <$> _ = Some fence |- _ => cbn in H; injection H as <- end. done.
Qed.

(** C13. A fence that a later claim has superseded is never accepted again: in
    no later state, at no instant and in no epoch does an operation that
    presents it succeed. *)
Theorem superseded_fence_refused graph next now recoveryEpoch operation fence :
  good_graph graph -> rtc step graph next -> operation_fence operation = Some fence ->
  pfence_fencingToken fence < pjob_lastFencingToken (graph_job graph) ->
  is_ok (run_operation next now recoveryEpoch operation) = false.
Proof.
  intros Hgood Hsteps Hf Hold. pose proof (gl_token _ _ (steps_later _ _ Hgood Hsteps)) as Hle.
  destruct (steps_good _ _ Hgood Hsteps) as [Hg%graph_valid_iff _].
  destruct (run_operation next now recoveryEpoch operation) as [after|] eqn:E; [exfalso|done].
  destruct (worker_fence operation) as [f|] eqn:Ew.
  - destruct (worker_accepted _ _ _ _ _ _ E Ew) as [lease []].
    destruct (live_lease _ _ Hg ac_lease0) as (_ & _ & Hb & _). pose proof (lb_token _ _ Hb).
    assert (f = fence) by (destruct operation; cbn in *; congruence). subst. lia.
  - destruct operation; try done. injection Hf as ->. apply claim_accepted in E. lia.
Qed.

(** A worker's operation succeeds only for the holder of the current lease,
    in the job's own epoch and strictly before that lease expires; a lease never
    outlives the attempt's timeout, the request's total deadline or the lease
    duration after its last heartbeat. *)
Theorem worker_call_in_time graph now recoveryEpoch operation next fence :
  good_graph graph -> run_operation graph now recoveryEpoch operation = Ok next ->
  worker_fence operation = Some fence ->
  exists lease attempt,
    pjob_currentLease (graph_job graph) = Some lease /\ last (graph_attempts graph) = Some attempt /\
    fence = please_mutationFence lease /\ pattempt_mutationFence attempt = fence /\
    recoveryEpoch = pjob_recoveryEpoch (graph_job graph) /\
    time now < time (please_expiresAt lease) /\
    time (please_expiresAt lease) <= time (please_heartbeatAt lease) +
      leaseDurationMilliseconds (request_limits (graph_request graph)) *
      POLICY_EVALUATION_TIME_UNITS_PER_MILLISECOND /\
    time (please_expiresAt lease) <= time (pattempt_startedAt attempt) +
      perAttemptTimeoutMilliseconds (request_limits (graph_request graph)) *
      POLICY_EVALUATION_TIME_UNITS_PER_MILLISECOND /\
    time (please_expiresAt lease) <= time (request_createdAt (graph_request graph)) +
      totalDeadlineMilliseconds (request_limits (graph_request graph)) *
      POLICY_EVALUATION_TIME_UNITS_PER_MILLISECOND.
Proof.
  intros [Hg%graph_valid_iff _] E Ew. destruct (worker_accepted _ _ _ _ _ _ E Ew) as [lease []].
  destruct (live_lease _ _ Hg ac_lease0) as (_ & _ & Hb & before & latest & Eb & Hl & _ & Ef & Ed & Es).
  destruct (lt_lease _ _ _ Hl _ ac_lease0) as (_ & _ & _ & _ & Hdur).
  destruct (gv_history _ Hg) as [check Ec]. rewrite Eb in Ec.
  apply check_history_snoc in Ec as (_ & _ & Ha & _). pose proof (ab_deadline _ _ _ _ Ha) as Hd.
  destruct (lb_valid _ _ Hb). unfold request_deadline in Hd. rewrite Ed in Hd.
  exists lease, latest. rewrite Eb, last_snoc. split_and!; try done; try congruence; lia.
Qed.

(** ** Progress *)

(** A transition known to be sound succeeds when its guards pass: a job that
    has not ended is timed out by a reclaim at any instant from its deadline. *)
Lemma reclaim_run graph now :
  graph_valid graph -> tick (graph_job graph) now -> pjob_terminal (graph_job graph) = None ->
  time (pjob_deadlineAt (graph_job graph)) <= time now ->
  exists usage allowance,
    reclaimPolicyEvaluationJob graph now (pjob_recoveryEpoch (graph_job graph)) =
      Ok (closed_graph graph now (ends (graph_job graph) job_timed_out None
            (Some (deadline_terminal (latest_attemptId graph) now)))
          (closure_ended closed_timed_out reason_deadline_reached now) usage allowance
          (graph_cancellation graph)) /\
    usage_grows graph usage.
Proof.
  intros Hg Ht Hopen Hd.
  pose proof (reclaim_sound graph now Hg (tk_now _ _ Ht) (pjob_recoveryEpoch (graph_job graph))) as Hs.
  unfold reclaimPolicyEvaluationJob, parse_snapshot in *.
  rewrite (parse_accepted _ _ (proj2 (graph_valid_iff _) Hg)) in Hs |- *. cbn [mbind result_bind] in Hs |- *.
  rewrite (parse_accepted _ _ (tk_now _ _ Ht)) in Hs |- *. cbn [mbind result_bind] in Hs |- *.
  rewrite Hopen in Hs |- *. cbn [present] in Hs |- *.
  assert (E1 : negb (pjob_recoveryEpoch (graph_job graph) =? pjob_recoveryEpoch (graph_job graph)) = false)
    by (by rewrite Z.eqb_refl).
  assert (E2 : (time now <? time (pjob_updatedAt (graph_job graph))) = false)
    by (apply Z.ltb_ge, Ht).
  assert (E3 : (time (pjob_deadlineAt (graph_job graph)) <=? time now) = true) by (by apply Z.leb_le).
  assert (E4 : (MAX_SAFE_INTEGER <=? pjob_stateVersion (graph_job graph)) = false)
    by (apply Z.leb_gt, Ht).
  assert (E5 : match pjob_currentLease (graph_job graph) with
      | Some lease => time (please_expiresAt lease) <=? time now | None => false end &&
      negb (present (last (graph_attempts graph))) = false).
  { destruct (pjob_currentLease (graph_job graph)) as [lease|] eqn:El; [|done].
    destruct (live_lease _ _ Hg El) as (_ & _ & _ & before & latest & -> & _). rewrite last_snoc.
    apply andb_false_r. }
  unfold refuse_when in Hs |- *. rewrite E1, E2, E3, E4, E5 in Hs |- *.
  cbn [reject_when mbind result_bind negb andb] in Hs |- *.
  destruct (charge_uncertain _ Hg) as (usage & allowance & E & Hu & Ha). rewrite E in Hs |- *.
  exists usage, allowance. split; [|done]. cbn [mbind result_bind] in Hs |- *.
  unfold parse, parse_with in Hs |- *. destruct (PolicyEvaluationJobSnapshotSchema _); [done|].
  destruct (Hs : False).
Qed.

(** C14. No job is stuck: from its deadline on, a job that has not ended is
    timed out by a reclaim at any later instant, whatever state its workers
    left it in; the reclaimed job holds no lease, its attempts are all closed
    and its history so far is kept. *)
Theorem overdue_job_ends graph now :
  good_graph graph -> PolicyEvaluationTimeSchema now = true ->
  pjob_terminal (graph_job graph) = None ->
  pjob_stateVersion (graph_job graph) < MAX_SAFE_INTEGER ->
  time (pjob_updatedAt (graph_job graph)) <= time now ->
  time (pjob_deadlineAt (graph_job graph)) <= time now ->
  exists next,
    reclaimPolicyEvaluationJob graph now (pjob_recoveryEpoch (graph_job graph)) = Ok next /\
    good_graph next /\ graph_later graph next /\
    pjob_status (graph_job next) = job_timed_out /\ pjob_currentLease (graph_job next) = None /\
    pjob_terminal (graph_job next) = Some (deadline_terminal (latest_attemptId graph) now) /\
    forall attempt, last (graph_attempts next) = Some attempt -> pattempt_closure attempt <> None.
Proof.
  intros Hgood Hn Hopen Hv Hord Hd. assert (Hg := proj1 (graph_valid_iff _) (proj1 Hgood)).
  destruct (reclaim_run graph now) as (usage & allowance & E & Hu); try done.
  eexists. split; [exact E|].
  pose proof (sound_Ok _ _ _ (reclaim_sound graph now Hg Hn (pjob_recoveryEpoch (graph_job graph))) E) as Hc.
  split; [by eapply changes_good|]. split; [by eapply changes_later|]. do 3 (split; [done|]).
  intros attempt Ha. cbn in Ha. rewrite close_open_last in Ha.
  destruct (last (graph_attempts graph)) as [a|]; [|done]. injection Ha as <-. unfold closed.
  by destruct (pattempt_closure a) eqn:Ec; cbn; rewrite ?Ec.
Qed.
