(* ===== verification/PolicyHistoryProofs.v ===== *)
(** * The history replays to the job

    An execution that writes one history entry per state version can be redone
    from the entries alone ([history_replays]), and the entries form the
    unbroken chain the page contract demands. *)

From stdpp Require Import relations.
From S2P Require Import Prelude Errors Primitives PolicyTime PolicyEvaluationJob.
From S2P Require Import PolicyJobSnapshot PolicyJobInvariant PolicyScheduler.
From S2P Require Import PolicySchedulerProofs PolicySchedulerContract PolicyJobHistory.
From S2P Require Import PolicySchedulerSystem.

(** ** Changes and their instant *)

Lemma moves_stamped graph now next : moves graph now next ->
  pjob_updatedAt (graph_job next) = now /\
  pjob_stateVersion (graph_job next) = pjob_stateVersion (graph_job graph) + 1.
Proof. intros []; by subst. Qed.

(** Operations only run in the job's own epoch. *)
Lemma run_own_epoch graph now recoveryEpoch operation next :
  run_operation graph now recoveryEpoch operation = Ok next ->
  run_operation graph now (pjob_recoveryEpoch (graph_job graph)) operation = Ok next.
Proof.
  intros H. destruct (worker_fence operation) as [fence|] eqn:E.
  - destruct (worker_accepted _ _ _ _ _ _ H E) as [lease []]. by subst.
  - destruct operation; try done; cbn [run_operation] in *.
    + apply bind_Ok in H as (g & Hc & H).
      assert (recoveryEpoch = pjob_recoveryEpoch (graph_job graph)) as <-.
      { unfold claimPolicyEvaluationJob in Hc. apply bind_Ok in Hc as (g' & [_ ->]%parse_Ok & Hc).
        apply bind_Ok in Hc as (t & [_ ->]%parse_Ok & Hc). apply bind_Ok in Hc as ([] & Hc & _).
        apply reject_when_Ok in Hc. breflect. tauto. }
      by rewrite Hc.
    + assert (recoveryEpoch = pjob_recoveryEpoch (graph_job graph)) as <-; [|done].
      unfold reclaimPolicyEvaluationJob in H. apply bind_Ok in H as (g' & [_ ->]%parse_Ok & H).
      apply bind_Ok in H as (t & [_ ->]%parse_Ok & H). apply bind_Ok in H as ([] & H & _).
      apply reject_when_Ok in H. by breflect.
Qed.

(** ** Entries *)

Section history.
Context `{PolicyDigests}.

Lemma validated_entry entry entry' :
  validatePolicyEvaluationJobHistoryEntry entry = Ok entry' ->
  entry' = entry /\ validatePolicyEvaluationJobHistoryEntry entry = Ok entry.
Proof.
  intros E. assert (entry' = entry) as ->; [|done].
  unfold validatePolicyEvaluationJobHistoryEntry in E. by inv_res.
Qed.

(** What the entry of a graph says. *)
Record entry_of (entry : PolicyEvaluationJobHistoryEntry) (graph : PolicyEvaluationJobSnapshot) : Prop := {
  eo_valid : validatePolicyEvaluationJobHistoryEntry entry = Ok entry;
  eo_scope : history_scope (entry_definition entry) = pjob_scope (graph_job graph);
  eo_job : history_job (entry_definition entry) = job_reference (graph_job graph);
  eo_version : history_stateVersion (entry_definition entry) = pjob_stateVersion (graph_job graph);
  eo_sequence : history_sequence (entry_definition entry) = pjob_stateVersion (graph_job graph) - 1;
  eo_digest : digestPolicyEvaluationJobGraph graph = Ok (history_graphSha256 (entry_definition entry));
  eo_committed : history_committedAt (entry_definition entry) = pjob_updatedAt (graph_job graph);
  eo_status : history_status (entry_definition entry) = pjob_status (graph_job graph);
}.

Lemma created_entry previous previousEntry next operation entry :
  createPolicyEvaluationJobHistoryEntry previous previousEntry next operation = Ok entry ->
  entry_of entry next /\ history_operation (entry_definition entry) = operation /\
  match previous, previousEntry with
  | Some previous, Some before =>
      pjob_stateVersion (graph_job next) = pjob_stateVersion (graph_job previous) + 1 /\
      digestPolicyEvaluationJobGraph previous = Ok (history_graphSha256 (entry_definition before)) /\
      history_predecessorEntrySha256 (entry_definition entry) = Some (entry_entrySha256 before) /\
      history_previousGraphSha256 (entry_definition entry) =
        Some (history_graphSha256 (entry_definition before)) /\
      history_previousStatus (entry_definition entry) = Some (pjob_status (graph_job previous))
  | None, None => True
  | _, _ => False
  end.
Proof.
  unfold createPolicyEvaluationJobHistoryEntry, digest_previous, validate_predecessor. intros E.
  apply bind_Ok in E as (graphSha & Hgraph & E). apply bind_Ok in E as (previousSha & Hprev & E).
  apply bind_Ok in E as (predecessor & Hpred & E). apply bind_Ok in E as ([] & Hpresent%reject_when_Ok & E).
  apply bind_Ok in E as ([] & Hcont%reject_when_Ok & E). apply bind_Ok in E as (digest & _ & E).
  destruct (validated_entry _ _ E) as [-> Hvalid]. split; [by constructor|]. split; [done|].
  destruct previous as [previous|].
  - apply bind_Ok in Hprev as (d & Hprev & [= <-]). destruct previousEntry as [before|].
    + apply bind_Ok in Hpred as (before' & Hb & [= <-]). apply validated_entry in Hb as [-> _].
      rewrite negb_false_iff in Hcont. unfold continues_graph in Hcont. breflect.
      destruct Hcont as ((((Esha & _) & _) & _) & Ever). injection Esha as <-. done.
    + injection Hpred as <-. done.
  - injection Hprev as <-. destruct previousEntry; [|done].
    apply bind_Ok in Hpred as (before' & Hb & [= <-]). done.
Qed.

(** One committed operation, replayed. *)
Lemma entry_replays previous before now recoveryEpoch operation next entry :
  good_graph previous -> PolicyEvaluationTimeSchema now = true -> OperationSchema operation = true ->
  cancellation_stamped now operation ->
  run_operation previous now recoveryEpoch operation = Ok next ->
  createPolicyEvaluationJobHistoryEntry (Some previous) (Some before) next operation = Ok entry ->
  replayPolicyEvaluationJobHistoryEntry previous entry = Ok next.
Proof.
  intros Hgood Hn Hop Hc Hrun Hcreate.
  destruct (created_entry _ _ _ _ _ Hcreate) as ([] & Eop & Ever & Edig & _ & Eprev & Est).
  destruct (run_changes _ _ _ _ _ Hgood Hn Hop Hc Hrun) as [->|Hm]; [lia|].
  destruct (moves_stamped _ _ _ Hm) as [Enow _].
  destruct (gl_identity _ _ (changes_later _ _ _ Hgood (or_intror Hm)))
    as (Ejob & Ereq & Edef & Escope & _).
  unfold replayPolicyEvaluationJobHistoryEntry. rewrite eo_valid0. cbn [mbind result_bind].
  rewrite Edig. cbn [mbind result_bind]. rewrite reject_known.
  2:{ rewrite Eprev, Est, eo_version0, eo_scope0, eo_job0, Ever, Escope, Z.eqb_refl, sameScope_refl.
      unfold job_reference. rewrite Ejob, Edef, !bool_decide_eq_true_2 by done. done. }
  cbn [mbind result_bind]. rewrite eo_committed0, Enow, Eop, (run_own_epoch _ _ _ _ _ Hrun).
  cbn [mbind result_bind]. rewrite eo_status0, reject_known by (by rewrite bool_decide_eq_true_2).
  cbn [mbind result_bind]. rewrite eo_digest0. cbn [mbind result_bind].
  by rewrite reject_known by (by rewrite bool_decide_eq_true_2).
Qed.

(** ** Executions with their entries *)

Inductive recorded (graph : PolicyEvaluationJobSnapshot) (entry : PolicyEvaluationJobHistoryEntry) :
    list PolicyEvaluationJobHistoryEntry -> PolicyEvaluationJobSnapshot ->
    PolicyEvaluationJobHistoryEntry -> Prop :=
| recorded_start : recorded graph entry [] graph entry
| recorded_operation entries previous before now recoveryEpoch operation next after
    (Hbefore : recorded graph entry entries previous before)
    (Hnow : PolicyEvaluationTimeSchema now = true) (Hop : OperationSchema operation = true)
    (Hstamp : cancellation_stamped now operation)
    (Hrun : run_operation previous now recoveryEpoch operation = Ok next)
    (Hcreate : createPolicyEvaluationJobHistoryEntry (Some previous) (Some before) next operation =
       Ok after) :
    recorded graph entry (entries ++ [after]) next after.

Lemma entries_continue_snoc entries before after :
  entries_continue (entries ++ [before]) = true -> entry_continues before after = true ->
  entries_continue ((entries ++ [before]) ++ [after]) = true.
Proof.
  induction entries as [|a l IH]; intros Hl Hb; [cbn; by rewrite Hb|].
  destruct l as [|b l]; cbn in *; apply andb_true_iff in Hl as [H1 H2]; rewrite H1; cbn.
  - by rewrite Hb.
  - by apply IH.
Qed.

(** The entry of an operation continues the entry of the graph it ran on. *)
Lemma operation_continues previous before now recoveryEpoch operation next after :
  good_graph previous -> entry_of before previous -> PolicyEvaluationTimeSchema now = true ->
  OperationSchema operation = true -> cancellation_stamped now operation ->
  run_operation previous now recoveryEpoch operation = Ok next ->
  createPolicyEvaluationJobHistoryEntry (Some previous) (Some before) next operation = Ok after ->
  entry_continues before after = true.
Proof.
  intros Hgood [] Hn Hop Hc Hrun Hcreate.
  destruct (created_entry _ _ _ _ _ Hcreate) as (Hafter & _ & _ & _ & Epred & Eprev & Est).
  pose proof (gl_clock _ _ (changes_later _ _ _ Hgood (run_changes _ _ _ _ _ Hgood Hn Hop Hc Hrun))).
  unfold entry_continues. rewrite Epred, Eprev, Est, eo_status0, eo_committed0.
  rewrite (eo_committed _ _ Hafter), !bool_decide_eq_true_2 by done. cbn. by apply negb_true_iff, Z.ltb_ge.
Qed.

Lemma recorded_replays graph entry entries next after :
  good_graph graph -> entry_of entry graph -> recorded graph entry entries next after ->
  good_graph next /\ entry_of after next /\
  fold_result replayPolicyEvaluationJobHistoryEntry graph entries = Ok next /\
  entries_continue (entry :: entries) = true /\ last (entry :: entries) = Some after /\
  pjob_stateVersion (graph_job next) =
    pjob_stateVersion (graph_job graph) + Z.of_nat (length entries).
Proof.
  intros Hgood Hentry Hrec. induction Hrec as [|entries previous before now recoveryEpoch operation next after
    Hbefore (Hg & He & Hfold & Hcont & Hlast & Hver) Hnow Hop Hstamp Hrun Hcreate].
  - split_and!; try done. cbn. lia.
  - destruct (created_entry _ _ _ _ _ Hcreate) as (Hafter & _ & Ever & _).
    split; [eapply changes_good; [done|by eapply run_changes]|]. split; [done|]. split; [|split; [|split]].
    + rewrite fold_result_app, Hfold. cbn.
      by rewrite (entry_replays _ _ _ _ _ _ _ Hg Hnow Hop Hstamp Hrun Hcreate).
    + rewrite app_comm_cons. destruct (entry :: entries) as [|x l _] using rev_ind; [done|].
      rewrite last_snoc in Hlast. injection Hlast as ->. apply entries_continue_snoc; [done|].
      by eapply operation_continues.
    + by rewrite app_comm_cons, last_snoc.
    + rewrite Ever, Hver, length_app. cbn. lia.
Qed.

(** C15. The retained history of a job is enough to rebuild it: replaying, in
    order, the entries an execution recorded from the job's creation on yields
    exactly the current graph, one entry per state version, and each entry
    continues the one before it as the page contract demands. *)
Theorem history_replays graph entry entries next after :
  good_graph graph ->
  createPolicyEvaluationJobHistoryEntry None None graph op_created = Ok entry ->
  recorded graph entry entries next after ->
  fold_result replayPolicyEvaluationJobHistoryEntry graph entries = Ok next /\
  entries_continue (entry :: entries) = true /\ last (entry :: entries) = Some after /\
  Z.of_nat (length (entry :: entries)) = pjob_stateVersion (graph_job next).
Proof.
  intros Hgood Hcreate Hrec. destruct (created_entry _ _ _ _ _ Hcreate) as (Hentry & Hop & _).
  destruct (recorded_replays _ _ _ _ _ Hgood Hentry Hrec) as (_ & _ & ? & ? & ? & Hver).
  split_and!; try done. rewrite Hver. cbn [length].
  destruct Hentry. unfold validatePolicyEvaluationJobHistoryEntry in eo_valid0. inv_res.
  match goal with H : PolicyEvaluationJobHistoryEntrySchema entry = true |- _ =>
    unfold PolicyEvaluationJobHistoryEntrySchema, PolicyEvaluationJobHistoryEntryDefinitionSchema in H end.
  rewrite !andb_true_iff in *. destruct_and?.
  match goal with H : Bool.eqb (_ =? 0) (is_created _) = true |- _ =>
    rewrite Hop in H; apply eqb_prop, Z.eqb_eq in H end. lia.
Qed.
End history.
