(* ===== verification/PolicyJobOutbox.v ===== *)
(** * Policy-evaluation job publication intents

    [core/src/policy/policy-evaluation-job-outbox.ts]: the intents that a
    change of a job graph calls for.  An intent's payload is an object; its
    common fields are fields of the intent here, those of its event type the
    arguments of [event]. *)

From Stdlib Require Import String.
From S2P Require Import Prelude Errors Primitives PolicyTime PolicyEvaluationJob.
From S2P Require Import PolicyJobSnapshot PolicyScheduler PolicyJobHistory.

Inductive PolicyOutboxEvent : Type :=
| policy_job_created
| policy_cancellation_requested (cancellationId requestedByPrincipalId : string)
    (reason : PolicyCancellationReason)
| policy_job_terminal (status : PolicyEvaluationJobStatus) (code : PolicyEvaluationJobTerminalCode)
    (stateVersion : Z) (result : option PolicyEvaluationResultReference).

#[global] Instance PolicyOutboxEvent_eq_dec : EqDecision PolicyOutboxEvent.
Proof. solve_decision. Defined.

(** The part of [payload] every intent carries. *)
Record PolicyOutboxPayload := {
  payload_environmentId : string;
  payload_projectId : string;
  payload_jobId : string;
  payload_jobDefinitionSha256 : string;
  payload_evaluationRequestId : string;
  payload_requestDefinitionSha256 : string;
}.

#[global] Instance PolicyOutboxPayload_eq_dec : EqDecision PolicyOutboxPayload.
Proof. solve_decision. Defined.

Record PolicyEvaluationJobOutboxIntent := {
  intent_aggregateId : string;
  intent_tenantId : string;
  intent_createdAt : PolicyEvaluationTime;
  intent_event : PolicyOutboxEvent;
  intent_payload : PolicyOutboxPayload;
}.

#[global] Instance PolicyEvaluationJobOutboxIntent_eq_dec : EqDecision PolicyEvaluationJobOutboxIntent.
Proof. solve_decision. Defined.

(** [`pej_${job.definitionSha256.slice(0, 60)}`] *)
Definition aggregate_id (job : PolicyEvaluationJob) : string :=
  ("pej_" ++ substring 0 60 (pjob_definitionSha256 job))%string.

Definition outbox_payload (job : PolicyEvaluationJob) : PolicyOutboxPayload := {|
  payload_environmentId := environmentId (pjob_scope job);
  payload_projectId := projectId (pjob_scope job);
  payload_jobId := pjob_jobId job;
  payload_jobDefinitionSha256 := pjob_definitionSha256 job;
  payload_evaluationRequestId := requestRef_evaluationRequestId (pjob_request job);
  payload_requestDefinitionSha256 := requestRef_definitionSha256 (pjob_request job)
|}.

(** [{ ...common, createdAt, eventType, payload }] *)
Definition outbox_intent (job : PolicyEvaluationJob) (createdAt : PolicyEvaluationTime)
    (event : PolicyOutboxEvent) : PolicyEvaluationJobOutboxIntent := {|
  intent_aggregateId := aggregate_id job;
  intent_tenantId := tenantId (pjob_scope job);
  intent_createdAt := createdAt;
  intent_event := event;
  intent_payload := outbox_payload job
|}.

Definition cancellation_intents (previous : option PolicyEvaluationJobSnapshot)
    (next : PolicyEvaluationJobSnapshot) : list PolicyEvaluationJobOutboxIntent :=
  match graph_cancellation next, previous ≫= graph_cancellation with
  | Some cancellation, None =>
      [outbox_intent (graph_job next) (pcancel_requestedAt cancellation)
         (policy_cancellation_requested (pcancel_cancellationId cancellation)
            (pcancel_requestedByPrincipalId cancellation) (pcancel_reason cancellation))]
  | _, _ => []
  end.

Definition terminal_intents (previous : option PolicyEvaluationJobSnapshot)
    (next : PolicyEvaluationJobSnapshot) : list PolicyEvaluationJobOutboxIntent :=
  let job := graph_job next in
  match pjob_terminal job, previous ≫= (fun graph => pjob_terminal (graph_job graph)) with
  | Some terminal, None =>
      [outbox_intent job (pterminal_committedAt terminal)
         (policy_job_terminal (pterminal_status terminal) (pterminal_code terminal)
            (pjob_stateVersion job) (pjob_result job))]
  | _, _ => []
  end.

Definition created_intents (previous : option PolicyEvaluationJobSnapshot)
    (next : PolicyEvaluationJobSnapshot) : list PolicyEvaluationJobOutboxIntent :=
  if present previous then []
  else [outbox_intent (graph_job next) (pjob_createdAt (graph_job next)) policy_job_created].

Definition buildPolicyEvaluationJobOutboxIntents `{PolicyDigests}
    (previous : option PolicyEvaluationJobSnapshot) (nextInput : PolicyEvaluationJobSnapshot) :
    res (list PolicyEvaluationJobOutboxIntent) :=
  next ← validatePolicyEvaluationJobSnapshotRecord (pjob_scope (graph_job nextInput))
           (job_reference (graph_job nextInput)) nextInput;
  Ok (created_intents previous next ++ cancellation_intents previous next ++
      terminal_intents previous next).
