(* ===== verification/MemoryPolicyJobRepository.v ===== *)
(** * The in-memory policy job repository

    [core/src/testing/memory-policy-evaluation-job-repository.ts], the reference
    adapter of the policy-evaluation job ports.  A method runs synchronously, so
    it is one state transformer; an exception leaves the state as far as it was
    written.  Keys are the pairs whose canonical serialization the source uses,
    a JavaScript object of pages is a finite map, and each reading of the
    injected clock is an argument.  Publication of sealed snapshots and results,
    and the two fields of a stored job it fills, are not modelled: without them
    [sealedInput] and [evaluation] are absent. *)

From stdpp Require Import gmap.
From S2P Require Import Prelude Errors Primitives PolicyTime PolicyEvaluationJob.
From S2P Require Import PolicyJobSnapshot PolicyScheduler PolicyJobHistory PolicyJobOutbox.
#[local] Open Scope Z_scope.

(** ** State *)

#[global] Instance EvidenceScope_countable : Countable EvidenceScope.
Proof.
  apply (inj_countable' (fun s => (environmentId s, projectId s, tenantId s))
    (fun t => {| environmentId := t.1.1; projectId := t.1.2; tenantId := t.2 |})). by intros [].
Defined.

Definition JobKey : Type := EvidenceScope * string.

Record StoredPolicyJob := {
  stored_snapshot : PolicyEvaluationJobSnapshot;
  stored_latest : PolicyEvaluationJobHistoryEntry;
  stored_pages : gmap Z (list PolicyEvaluationJobHistoryEntry);
  stored_outbox : list PolicyEvaluationJobOutboxIntent;
}.

Record PolicyJobMemory := {
  memory_records : gmap JobKey StoredPolicyJob;
  memory_requests : gmap JobKey JobKey;
  memory_reservations : gmap (JobKey * string) PolicyEvaluationJobHistoryEntry;
  memory_recoveryEpoch : Z;
}.

Definition emptyPolicyMemory : PolicyJobMemory := {|
  memory_records := ∅; memory_requests := ∅; memory_reservations := ∅; memory_recoveryEpoch := 0
|}.

(** ** The monad of a method call *)

Definition R (A : Type) : Type := PolicyJobMemory -> res A * PolicyJobMemory.

#[global] Instance R_ret : MRet R := fun A a st => (Ok a, st).
#[global] Instance R_bind : MBind R := fun A B f m st =>
  match m st with
  | (Ok a, st') => f a st'
  | (Throw e, st') => (Throw e, st')
  end.

Definition lift {A} (r : res A) : R A := fun st => (r, st).
Definition reads {A} (f : PolicyJobMemory -> res A) : R A := fun st => (f st, st).
Definition writes (f : PolicyJobMemory -> PolicyJobMemory) : R unit := fun st => (Ok tt, f st).
Definition refuse {A} (error : exn) : R A := lift (Throw error).
Definition rejects (condition : bool) (error : exn) : R unit := lift (reject_when condition error).

Definition set_record (key : JobKey) (stored : StoredPolicyJob) (st : PolicyJobMemory) :
    PolicyJobMemory := {|
  memory_records := <[key := stored]> (memory_records st);
  memory_requests := memory_requests st;
  memory_reservations := memory_reservations st;
  memory_recoveryEpoch := memory_recoveryEpoch st
|}.

Definition set_request (requestKey key : JobKey) (st : PolicyJobMemory) : PolicyJobMemory := {|
  memory_records := memory_records st;
  memory_requests := <[requestKey := key]> (memory_requests st);
  memory_reservations := memory_reservations st;
  memory_recoveryEpoch := memory_recoveryEpoch st
|}.

Definition set_reservation (key : JobKey * string) (entry : PolicyEvaluationJobHistoryEntry)
    (st : PolicyJobMemory) : PolicyJobMemory := {|
  memory_records := memory_records st;
  memory_requests := memory_requests st;
  memory_reservations := <[key := entry]> (memory_reservations st);
  memory_recoveryEpoch := memory_recoveryEpoch st
|}.

Definition job_key (scope : EvidenceScope) (id : string) : res JobKey :=
  scope ← parse EvidenceScopeSchema scope;
  id ← parse OpaqueIdSchema id;
  Ok (scope, id).

Definition reservationKey (scope : EvidenceScope) (jobId reservationId : string) :
    res (JobKey * string) :=
  key ← job_key scope jobId;
  reservationId ← parse OpaqueIdSchema reservationId;
  Ok (key, reservationId).

(** [array.slice(0, end)] *)
Definition js_slice {A} (l : list A) (end_ : Z) : list A :=
  take (Z.to_nat (if end_ <? 0 then Z.of_nat (length l) + end_ else end_)) l.

Section repository.
Context `{PolicyDigests}.

(** ** Inspection *)

Definition inspect (snapshot : PolicyEvaluationJobSnapshot) (scope : EvidenceScope) (id : string) :
    res PolicyEvaluationJobSnapshot :=
  validatePolicyEvaluationJobSnapshotRecord scope
    {| jobRef_jobId := id; jobRef_definitionSha256 := pjob_definitionSha256 (graph_job snapshot) |}
    snapshot.

Definition page_of (sequence : Z) : Z := sequence / POLICY_EVALUATION_JOB_HISTORY_PAGE_SIZE.

(** The last page ends with the latest entry. *)
Definition last_page_ok (stored : StoredPolicyJob) (head : PolicyEvaluationJobHistoryHead) : bool :=
  match stored_pages stored !! page_of (head_sequence head) with
  | Some page =>
      (Z.of_nat (length page) =?
       head_sequence head mod POLICY_EVALUATION_JOB_HISTORY_PAGE_SIZE + 1) &&
      (last page === Some (stored_latest stored))
  | None => false
  end.

Definition inspectStored (stored : StoredPolicyJob) (scope : EvidenceScope) (id : string) :
    res PolicyEvaluationJobSnapshot :=
  snapshot ← inspect (stored_snapshot stored) scope id;
  head ← policyEvaluationJobHistoryHead (stored_latest stored);
  reject_when
    ((head_scope head !== scope) || (jobRef_jobId (head_job head) !== id) ||
     (jobRef_definitionSha256 (head_job head) !== pjob_definitionSha256 (graph_job snapshot)) ||
     negb (last_page_ok stored head)) PolicyEvaluationJobHistoryError ;;
  digest ← digestPolicyEvaluationJobGraph snapshot;
  reject_when
    ((head_graphSha256 head !== digest) ||
     negb (head_sequence head + 1 =? pjob_stateVersion (graph_job snapshot)))
    PolicyEvaluationJobHistoryError ;;
  intents ← buildPolicyEvaluationJobOutboxIntents None snapshot;
  reject_when (stored_outbox stored !== intents) PolicyEvaluationJobHistoryError ;;
  Ok snapshot.

(** The key, the stored job and its inspected graph. *)
Definition read (scope : EvidenceScope) (id : string) (st : PolicyJobMemory) :
    res (JobKey * StoredPolicyJob * PolicyEvaluationJobSnapshot) :=
  key ← job_key scope id;
  match memory_records st !! key with
  | None => Throw PolicyEvaluationJobNotFoundError
  | Some stored => snapshot ← inspectStored stored scope id; Ok (key, stored, snapshot)
  end.

(** ** Creation *)

Definition validatePolicyEvaluationRequestRecord (record : PolicyEvaluationRequest) :
    res PolicyEvaluationRequest :=
  reject_when (negb (PolicyEvaluationRequestSchema record) ||
               (digestRequest record !== request_definitionSha256 record))
    InvalidPolicyEvaluationRequestRecordError ;;
  Ok record.

Definition initial_record (snapshot : PolicyEvaluationJobSnapshot)
    (entry : PolicyEvaluationJobHistoryEntry) (intents : list PolicyEvaluationJobOutboxIntent) :
    StoredPolicyJob := {|
  stored_snapshot := snapshot;
  stored_latest := entry;
  stored_pages := {[0 := [entry]]};
  stored_outbox := intents
|}.

Definition createJob (request : PolicyEvaluationRequest) (jobId : string) (now : PolicyEvaluationTime) :
    R (bool * PolicyEvaluationJobSnapshot) :=
  request ← lift (validatePolicyEvaluationRequestRecord request);
  jobId ← lift (parse OpaqueIdSchema jobId);
  requestKey ← lift (job_key (request_scope request) (request_evaluationRequestId request));
  existing ← reads (fun st => Ok (memory_requests st !! requestKey));
  match existing with
  | Some existing =>
      snapshot ← reads (fun st =>
        match memory_records st !! existing with
        | None => Throw PlainError
        | Some record =>
            inspectStored record (request_scope request)
              (pjob_jobId (graph_job (stored_snapshot record)))
        end);
      rejects (request_definitionSha256 (graph_request snapshot) !== request_definitionSha256 request)
        PolicyEvaluationRequestConflictError ;;
      mret (false, snapshot)
  | None =>
      key ← lift (job_key (request_scope request) jobId);
      taken ← reads (fun st => Ok (present (memory_records st !! key)));
      rejects taken PolicyEvaluationRequestConflictError ;;
      now ← lift (parse PolicyEvaluationTimeSchema now);
      epoch ← reads (fun st => Ok (memory_recoveryEpoch st));
      snapshot ← lift (createPolicyEvaluationJobGraph request jobId now epoch
        (digestJob (request_scope request) jobId {|
           requestRef_definitionSha256 := request_definitionSha256 request;
           requestRef_evaluationRequestId := request_evaluationRequestId request |}));
      admitted ← lift (inspect snapshot (pjob_scope (graph_job snapshot))
                         (pjob_jobId (graph_job snapshot)));
      entry ← lift (createPolicyEvaluationJobHistoryEntry None None admitted op_created);
      intents ← lift (buildPolicyEvaluationJobOutboxIntents None admitted);
      let stored := initial_record admitted entry intents in
      lift (inspectStored stored (request_scope request) jobId) ;;
      writes (set_record key stored) ;;
      writes (set_request requestKey key) ;;
      mret (true, admitted)
  end.

(** ** Queries *)

Definition findJob (scope : EvidenceScope) (jobId : string) (st : PolicyJobMemory) :
    res (option PolicyEvaluationJobSnapshot) :=
  key ← job_key scope jobId;
  match memory_records st !! key with
  | None => Ok None
  | Some record => snapshot ← inspectStored record scope jobId; Ok (Some snapshot)
  end.

Definition findJobForRequest (scope : EvidenceScope) (request : PolicyEvaluationRequestReference)
    (st : PolicyJobMemory) : res (option PolicyEvaluationJobSnapshot) :=
  scope ← parse EvidenceScopeSchema scope;
  request ← parse PolicyEvaluationRequestReferenceSchema request;
  requestKey ← job_key scope (requestRef_evaluationRequestId request);
  match memory_requests st !! requestKey with
  | None => Ok None
  | Some key =>
      match memory_records st !! key with
      | None => Throw InvalidPolicyEvaluationJobGraphError
      | Some stored =>
          snapshot ← inspectStored stored scope (pjob_jobId (graph_job (stored_snapshot stored)));
          reject_when (request_evaluationRequestId (graph_request snapshot) !==
                       requestRef_evaluationRequestId request) InvalidPolicyEvaluationJobGraphError ;;
          reject_when (request_definitionSha256 (graph_request snapshot) !==
                       requestRef_definitionSha256 request) PolicyEvaluationRequestConflictError ;;
          Ok (Some snapshot)
      end
  end.

Definition findHistoryHead (scope : EvidenceScope) (jobId : string) (st : PolicyJobMemory) :
    res (option PolicyEvaluationJobHistoryHead) :=
  key ← job_key scope jobId;
  match memory_records st !! key with
  | None => Ok None
  | Some stored =>
      inspectStored stored scope jobId ;;
      head ← policyEvaluationJobHistoryHead (stored_latest stored);
      Ok (Some head)
  end.

(** [stored.pages[Math.floor(sequence / 100)]?.[sequence % 100]] *)
Definition entry_at (stored : StoredPolicyJob) (sequence : Z) : option PolicyEvaluationJobHistoryEntry :=
  page ← stored_pages stored !! page_of sequence;
  page !! Z.to_nat (sequence mod POLICY_EVALUATION_JOB_HISTORY_PAGE_SIZE).

Definition readHistoryPage (head : PolicyEvaluationJobHistoryHead) (pageIndex : Z)
    (st : PolicyJobMemory) : res PolicyEvaluationJobHistoryPage :=
  head ← parse PolicyEvaluationJobHistoryHeadSchema head;
  '(_, stored, _) ← read (head_scope head) (jobRef_jobId (head_job head)) st;
  match entry_at stored (head_sequence head) with
  | None => Throw PolicyEvaluationJobHistoryError
  | Some anchor =>
      anchored ← policyEvaluationJobHistoryHead anchor;
      reject_when (anchored !== head) PolicyEvaluationJobHistoryError ;;
      let entries :=
        match stored_pages stored !! pageIndex with
        | Some page =>
            js_slice page (Z.min POLICY_EVALUATION_JOB_HISTORY_PAGE_SIZE
              (head_sequence head + 1 - pageIndex * POLICY_EVALUATION_JOB_HISTORY_PAGE_SIZE))
        | None => []
        end in
      validatePolicyEvaluationJobHistoryPage head
        {| page_head := head; page_pageIndex := pageIndex; page_entries := entries |}
  end.

Definition findOutboxIntents (scope : EvidenceScope) (jobId : string) (st : PolicyJobMemory) :
    res (option (list PolicyEvaluationJobOutboxIntent)) :=
  key ← job_key scope jobId;
  match memory_records st !! key with
  | None => Ok None
  | Some stored => inspectStored stored scope jobId ;; Ok (Some (stored_outbox stored))
  end.

(** ** Mutation *)

Definition Work : Type :=
  PolicyEvaluationJobSnapshot -> PolicyEvaluationTime -> Z -> res PolicyEvaluationJobSnapshot.

(** The stored job after one more entry. *)
Definition extend_record (stored : StoredPolicyJob) (result : PolicyEvaluationJobSnapshot)
    (entry : PolicyEvaluationJobHistoryEntry) (intents : list PolicyEvaluationJobOutboxIntent) :
    StoredPolicyJob :=
  let page := page_of (history_sequence (entry_definition entry)) in {|
  stored_snapshot := result;
  stored_latest := entry;
  stored_pages := <[page := default [] (stored_pages stored !! page) ++ [entry]]> (stored_pages stored);
  stored_outbox := stored_outbox stored ++ intents
|}.

(** The last history slot is only for a terminal graph. *)
Definition history_exhausted (result : PolicyEvaluationJobSnapshot) : bool :=
  negb (present (pjob_terminal (graph_job result))) &&
  (pjob_stateVersion (graph_job result) =? MAX_POLICY_EVALUATION_JOB_HISTORY_ENTRIES).

(** What a mutation commits: the graph, its entry and the extended record. *)
Definition prepare (stored : StoredPolicyJob) (snapshot result : PolicyEvaluationJobSnapshot)
    (operation : PolicyEvaluationJobSnapshot -> res PolicyOperation) (scope : EvidenceScope)
    (id : string) (now : PolicyEvaluationTime) :
    res (PolicyEvaluationJobSnapshot * PolicyEvaluationJobHistoryEntry * StoredPolicyJob) :=
  let exhausted := history_exhausted result in
  result ← (if exhausted then
              ended ← exhaustPolicyEvaluationJobHistory snapshot now; inspect ended scope id
            else Ok result);
  operation ← (if exhausted then Ok op_history_limit else operation result);
  entry ← createPolicyEvaluationJobHistoryEntry (Some snapshot) (Some (stored_latest stored)) result
            operation;
  replayPolicyEvaluationJobHistoryEntry snapshot entry ;;
  intents ← buildPolicyEvaluationJobOutboxIntents (Some snapshot) result;
  let nextStored := extend_record stored result entry intents in
  inspectStored nextStored scope id ;;
  Ok (result, entry, nextStored).

Definition mutate (scope : EvidenceScope) (id : string) (work : Work)
    (operation : PolicyEvaluationJobSnapshot -> res PolicyOperation) (now : PolicyEvaluationTime) :
    R PolicyEvaluationJobSnapshot :=
  '(key, stored, snapshot) ← reads (read scope id);
  now ← lift (parse PolicyEvaluationTimeSchema now);
  epoch ← reads (fun st => Ok (memory_recoveryEpoch st));
  next ← lift (work snapshot now epoch);
  result ← lift (inspect next scope id);
  if pjob_stateVersion (graph_job result) =? pjob_stateVersion (graph_job snapshot) then
    rejects (result !== snapshot) PolicyEvaluationJobHistoryError ;;
    mret result
  else
    '(result, entry, nextStored) ← lift (prepare stored snapshot result operation scope id now);
    writes (set_record key nextStored) ;;
    match history_operation (entry_definition entry) with
    | op_reserve _ reservationId _ =>
        reserved ← lift (reservationKey scope id reservationId);
        writes (set_reservation reserved entry)
    | _ => mret tt
    end ;;
    mret result.

(** ** Worker and control methods *)

Definition claimJob (scope : EvidenceScope) (jobId workerId attemptId leaseId : string)
    (now : PolicyEvaluationTime) : R PolicyEvaluationJobSnapshot :=
  mutate scope jobId
    (fun snapshot now epoch => claimPolicyEvaluationJob snapshot now epoch attemptId leaseId workerId)
    (fun next =>
       match pjob_currentLease (graph_job next) with
       | Some lease => Ok (op_claim (please_mutationFence lease))
       | None => Throw TypeError
       end) now.

Definition heartbeatJob (scope : EvidenceScope) (fence : PolicyEvaluationWorkerMutationFence)
    (now : PolicyEvaluationTime) : R PolicyEvaluationJobSnapshot :=
  mutate scope (pfence_jobId fence)
    (fun snapshot now epoch => heartbeatPolicyEvaluationJob snapshot now epoch fence)
    (fun _ => Ok (op_heartbeat fence)) now.

(** [reservationId] is the fresh identifier the source draws. *)
Definition reserveUsage (scope : EvidenceScope) (fence : PolicyEvaluationWorkerMutationFence)
    (delta : PolicyEvaluationUsage) (reservationId : string) (now : PolicyEvaluationTime) :
    R PolicyEvaluationJobSnapshot :=
  mutate scope (pfence_jobId fence)
    (fun snapshot now epoch => reservePolicyEvaluationUsage snapshot now epoch fence delta)
    (fun _ => Ok (op_reserve fence reservationId delta)) now.

Definition interruptJob (scope : EvidenceScope) (fence : PolicyEvaluationWorkerMutationFence)
    (reason : PolicyEvaluationRetryableError) (now : PolicyEvaluationTime) :
    R PolicyEvaluationJobSnapshot :=
  mutate scope (pfence_jobId fence)
    (fun snapshot now epoch => interruptPolicyEvaluationJob snapshot now epoch fence reason)
    (fun _ => Ok (op_interrupt fence reason)) now.

Definition reclaimJob (scope : EvidenceScope) (jobId : string) (now : PolicyEvaluationTime) :
    R PolicyEvaluationJobSnapshot :=
  mutate scope jobId (fun snapshot now epoch => reclaimPolicyEvaluationJob snapshot now epoch)
    (fun _ => Ok op_reclaim) now.

Definition settleAcquisition (scope : EvidenceScope) (fence : PolicyEvaluationWorkerMutationFence)
    (allowanceId : string) (usage : option PolicyEvaluationAcquisitionUsage)
    (now : PolicyEvaluationTime) : R PolicyEvaluationJobSnapshot :=
  mutate scope (pfence_jobId fence)
    (fun snapshot now epoch =>
       settlePolicyEvaluationAcquisition snapshot now epoch fence allowanceId usage)
    (fun _ => Ok (op_settle_acquisition fence allowanceId usage)) now.

Definition cancelJob (scope : EvidenceScope) (jobId principalId cancellationId : string)
    (reason : PolicyCancellationReason) (now : PolicyEvaluationTime) : R PolicyEvaluationJobSnapshot :=
  mutate scope jobId
    (fun snapshot now _ => cancelPolicyEvaluationJob snapshot {|
       pcancel_jobId := jobId;
       pcancel_cancellationId :=
         default cancellationId (pcancel_cancellationId <$> graph_cancellation snapshot);
       pcancel_scope := scope;
       pcancel_requestedAt := now;
       pcancel_requestedByPrincipalId := principalId;
       pcancel_reason := reason |})
    (fun next =>
       match graph_cancellation next with
       | Some intent => Ok (op_cancel intent)
       | None => Throw ZodError
       end) now.

(** The two readings of the clock: for the fence and for the mutation. *)
Definition reserveWork (scope : EvidenceScope) (fence : PolicyEvaluationWorkerMutationFence)
    (reservationId : string) (delta : PolicyEvaluationUsage) (checked now : PolicyEvaluationTime) :
    R (bool * PolicyEvaluationJobSnapshot * option PolicyEvaluationJobHistoryEntry) :=
  reservationId ← lift (parse OpaqueIdSchema reservationId);
  '(_, _, snapshot) ← reads (read scope (pfence_jobId fence));
  checked ← lift (parse PolicyEvaluationTimeSchema checked);
  epoch ← reads (fun st => Ok (memory_recoveryEpoch st));
  lift (requirePolicyEvaluationLiveFence snapshot checked epoch fence) ;;
  delta ← lift (parse PolicyEvaluationUsageSchema delta);
  reserved ← lift (reservationKey scope (pfence_jobId fence) reservationId);
  previous ← reads (fun st => Ok (memory_reservations st !! reserved));
  match previous with
  | Some previous =>
      match history_operation (entry_definition previous) with
      | op_reserve fence' _ delta' =>
          rejects ((fence' !== fence) || (delta' !== delta)) PolicyEvaluationRequestConflictError ;;
          mret (false, snapshot, Some previous)
      | _ => refuse PolicyEvaluationRequestConflictError
      end
  | None =>
      result ← mutate scope (pfence_jobId fence)
        (fun current now epoch => reservePolicyEvaluationUsage current now epoch fence delta)
        (fun _ => Ok (op_reserve fence reservationId delta)) now;
      '(_, stored, _) ← reads (read scope (pfence_jobId fence));
      let reservation :=
        match history_operation (entry_definition (stored_latest stored)) with
        | op_reserve _ _ _ => Some (stored_latest stored)
        | _ => None
        end in
      mret (present reservation, result, reservation)
  end.

(** Some retained entry reserved this allowance. *)
Definition allowance_used (stored : StoredPolicyJob) (allowanceId : string) : bool :=
  existsb (fun page => existsb (fun entry =>
    match history_operation (entry_definition entry) with
    | op_reserve_acquisition _ used => used === allowanceId
    | _ => false
    end) (snd page)) (map_to_list (stored_pages stored)).

Definition reserveAcquisition (scope : EvidenceScope) (fence : PolicyEvaluationWorkerMutationFence)
    (allowanceId : string) (checked now : PolicyEvaluationTime) :
    R (bool * PolicyEvaluationJobSnapshot * option PolicyEvaluationAcquisitionAllowance) :=
  allowanceId ← lift (parse OpaqueIdSchema allowanceId);
  '(_, stored, snapshot) ← reads (read scope (pfence_jobId fence));
  epoch ← reads (fun st => Ok (memory_recoveryEpoch st));
  lift (requirePolicyEvaluationLiveFence snapshot checked epoch fence) ;;
  match outstanding_allowance snapshot with
  | Some allowance =>
      rejects (allowance_allowanceId allowance !== allowanceId) PolicyEvaluationRequestConflictError ;;
      mret (false, snapshot, Some allowance)
  | None =>
      rejects (allowance_used stored allowanceId) PolicyEvaluationRequestConflictError ;;
      next ← mutate scope (pfence_jobId fence)
        (fun current now epoch => reservePolicyEvaluationAcquisition current now epoch fence allowanceId)
        (fun _ => Ok (op_reserve_acquisition fence allowanceId)) now;
      mret (present (outstanding_allowance next), next, outstanding_allowance next)
  end.
End repository.
