(* ===== verification/PolicyRepositoryProofs.v ===== *)
(** * The in-memory policy job repository: proofs

    What a stored job is ([record_valid]): a graph with the execution that led
    to it, filed entry by entry into pages of a hundred.  Every method keeps
    this, and changes a stored job only by steps of the scheduler
    ([evolves]). *)

From stdpp Require Import relations gmap.
From S2P Require Import Prelude Errors Primitives PolicyTime PolicyEvaluationJob.
From S2P Require Import PolicyJobSnapshot PolicyJobInvariant PolicyScheduler.
From S2P Require Import PolicySchedulerProofs PolicySchedulerContract PolicyJobHistory.
From S2P Require Import PolicySchedulerSystem PolicyHistoryProofs PolicyJobOutbox.
From S2P Require Import MemoryPolicyJobRepository.
#[local] Open Scope Z_scope.

(** ** Pages *)

Section pages.
Context {E : Type}.
Implicit Types (history : list E) (pages : gmap Z (list E)).

Definition page_content history (index : Z) : option (list E) :=
  if decide (0 <= index /\ index * 100 < Z.of_nat (length history))
  then Some (take 100 (drop (Z.to_nat (index * 100)) history)) else None.

(** The pages are the history cut after every hundred entries. *)
Definition pages_hold pages history : Prop := forall index, pages !! index = page_content history index.

Lemma pages_hold_one (e : E) : pages_hold {[0 := [e]]} [e].
Proof.
  intros i. unfold page_content. destruct (decide (i = 0)) as [->|Hi].
  - rewrite lookup_singleton_eq. by rewrite decide_True by (cbn; lia).
  - rewrite lookup_singleton_ne by done. rewrite decide_False; [done|]. cbn. lia.
Qed.

Lemma page_default pages history :
  pages_hold pages history ->
  default [] (pages !! (Z.of_nat (length history) / 100)) =
    drop (Z.to_nat (Z.of_nat (length history) / 100 * 100)) history.
Proof.
  intros Hp. rewrite Hp. unfold page_content.
  pose proof (Z.div_mod (Z.of_nat (length history)) 100). pose proof (Z.mod_pos_bound (Z.of_nat (length history)) 100).
  assert (0 <= Z.of_nat (length history) / 100) by (apply Z.div_pos; lia).
  destruct (decide _) as [Hd|Hd]; cbn [default].
  - apply take_ge. rewrite length_drop. lia.
  - symmetry. apply drop_ge. lia.
Qed.

Lemma pages_hold_snoc pages history (e : E) :
  pages_hold pages history ->
  let page := Z.of_nat (length history) / 100 in
  pages_hold (<[page := default [] (pages !! page) ++ [e]]> pages) (history ++ [e]).
Proof.
  intros Hp page i. subst page. rewrite (page_default _ _ Hp).
  set (n := Z.of_nat (length history)) in *.
  pose proof (Z.div_mod n 100). pose proof (Z.mod_pos_bound n 100).
  assert (0 <= n / 100) by (apply Z.div_pos; lia).
  destruct (decide (i = n / 100)) as [->|Hi].
  - rewrite lookup_insert_eq. unfold page_content. rewrite decide_True by (rewrite length_app; cbn; lia).
    rewrite drop_app_le by lia. rewrite take_ge; [done|].
    rewrite length_app, length_drop. cbn. lia.
  - rewrite lookup_insert_ne by done. rewrite Hp. unfold page_content. rewrite length_app. cbn [length].
    destruct (decide (0 <= i /\ i * 100 < n)) as [Hd|Hd].
    + rewrite !decide_True by lia. rewrite drop_app_le by lia.
      rewrite take_app_le; [done|]. rewrite length_drop. nia.
    + rewrite !decide_False by nia. done.
Qed.

Lemma pages_hold_last pages history (e : E) :
  pages_hold pages (history ++ [e]) ->
  exists page, pages !! (Z.of_nat (length history) / 100) = Some page /\
    Z.of_nat (length page) = Z.of_nat (length history) mod 100 + 1 /\ last page = Some e.
Proof.
  intros Hp. set (n := Z.of_nat (length history)).
  pose proof (Z.div_mod n 100). pose proof (Z.mod_pos_bound n 100).
  assert (0 <= n / 100) by (apply Z.div_pos; lia).
  eexists. split.
  - rewrite Hp. unfold page_content. rewrite decide_True by (rewrite length_app; cbn; lia). done.
  - rewrite drop_app_le by lia. rewrite take_ge.
    + rewrite length_app, length_drop, last_snoc. cbn [length]. split; [lia|done].
    + rewrite length_app, length_drop. cbn [length]. lia.
Qed.

Lemma pages_hold_lookup pages history (sequence : Z) (e : E) :
  pages_hold pages history -> 0 <= sequence -> history !! Z.to_nat sequence = Some e ->
  exists page, pages !! (sequence / 100) = Some page /\ page !! Z.to_nat (sequence mod 100) = Some e.
Proof.
  intros Hp Hs He. pose proof (lookup_lt_Some _ _ _ He).
  pose proof (Z.div_mod sequence 100). pose proof (Z.mod_pos_bound sequence 100).
  assert (0 <= sequence / 100) by (apply Z.div_pos; lia).
  eexists. split.
  - rewrite Hp. unfold page_content. rewrite decide_True by lia. done.
  - rewrite lookup_take_lt by lia. rewrite lookup_drop, <- He. apply (f_equal (fun i => history !! i)). lia.
Qed.
End pages.

Section proofs.
Context `{PolicyDigests}.

(** ** Inspection *)

(** What [inspect] admits. *)
Record admitted (graph : PolicyEvaluationJobSnapshot) (scope : EvidenceScope) (id : string) : Prop := {
  ad_schema : PolicyEvaluationJobSnapshotSchema graph = true;
  ad_request : digestRequest (graph_request graph) = request_definitionSha256 (graph_request graph);
  ad_digest : digestJob (pjob_scope (graph_job graph)) (pjob_jobId (graph_job graph))
                (pjob_request (graph_job graph)) = pjob_definitionSha256 (graph_job graph);
  ad_job : pjob_jobId (graph_job graph) = id;
  ad_scope : pjob_scope (graph_job graph) = scope;
}.

Lemma snapshot_request graph :
  PolicyEvaluationJobSnapshotSchema graph = true -> PolicyEvaluationRequestSchema (graph_request graph) = true.
Proof. unfold PolicyEvaluationJobSnapshotSchema. rewrite !andb_true_iff. tauto. Qed.

Lemma inspect_iff graph scope id next :
  inspect graph scope id = Ok next <-> next = graph /\ admitted graph scope id.
Proof.
  unfold inspect, validatePolicyEvaluationJobSnapshotRecord. split.
  - intros E. apply bind_Ok in E as ([] & Hr%reject_when_Ok & [= <-]). split; [done|].
    cbn in Hr. rewrite !orb_false_iff, !negb_false_iff in Hr.
    destruct Hr as ((((((H1 & _) & H2) & H3) & H4) & _) & H5).
    apply bool_decide_eq_true in H2, H3, H4. apply sameScope_spec in H5. by constructor.
  - intros [-> []]. cbn. rewrite reject_known; [done|].
    rewrite ad_schema0, (snapshot_request _ ad_schema0), !orb_false_iff, !negb_false_iff.
    subst. rewrite sameScope_refl. split_and!; try done; by apply bool_decide_eq_true_2.
Qed.

Lemma inspect_admitted graph scope id : admitted graph scope id -> inspect graph scope id = Ok graph.
Proof. intros Ha. by apply inspect_iff. Qed.

Lemma digest_graph_admitted graph scope id :
  admitted graph scope id -> digestPolicyEvaluationJobGraph graph = Ok (digestGraph graph).
Proof.
  intros Ha. unfold digestPolicyEvaluationJobGraph, job_reference.
  change (validatePolicyEvaluationJobSnapshotRecord _ _ graph)
    with (inspect graph (pjob_scope (graph_job graph)) (pjob_jobId (graph_job graph))).
  rewrite inspect_admitted; [done|]. destruct Ha. by constructor.
Qed.

(** The intents a graph calls for since its creation. *)
Definition intents_of (graph : PolicyEvaluationJobSnapshot) : list PolicyEvaluationJobOutboxIntent :=
  created_intents None graph ++ cancellation_intents None graph ++ terminal_intents None graph.

Lemma build_intents previous graph scope id :
  admitted graph scope id ->
  buildPolicyEvaluationJobOutboxIntents previous graph =
    Ok (created_intents previous graph ++ cancellation_intents previous graph ++
        terminal_intents previous graph).
Proof.
  intros Ha. unfold buildPolicyEvaluationJobOutboxIntents, job_reference.
  change (validatePolicyEvaluationJobSnapshotRecord _ _ graph)
    with (inspect graph (pjob_scope (graph_job graph)) (pjob_jobId (graph_job graph))).
  rewrite inspect_admitted; [done|]. destruct Ha. by constructor.
Qed.

(** The head of an entry. *)
Definition head_of (entry : PolicyEvaluationJobHistoryEntry) : PolicyEvaluationJobHistoryHead := {|
  head_scope := history_scope (entry_definition entry);
  head_job := history_job (entry_definition entry);
  head_sequence := history_sequence (entry_definition entry);
  head_entrySha256 := entry_entrySha256 entry;
  head_graphSha256 := history_graphSha256 (entry_definition entry)
|}.

Lemma entry_head_valid entry :
  validatePolicyEvaluationJobHistoryEntry entry = Ok entry ->
  PolicyEvaluationJobHistoryEntrySchema entry = true /\
  PolicyEvaluationJobHistoryHeadSchema (head_of entry) = true.
Proof.
  unfold validatePolicyEvaluationJobHistoryEntry. intros E. apply bind_Ok in E as (e & [He ->]%parse_Ok & _).
  split; [done|]. unfold PolicyEvaluationJobHistoryEntrySchema, PolicyEvaluationJobHistoryEntryDefinitionSchema in He.
  unfold PolicyEvaluationJobHistoryHeadSchema, head_of. cbn.
  rewrite !andb_true_iff in *. tauto.
Qed.

Lemma history_head entry :
  validatePolicyEvaluationJobHistoryEntry entry = Ok entry ->
  policyEvaluationJobHistoryHead entry = Ok (head_of entry).
Proof.
  intros E. unfold policyEvaluationJobHistoryHead. rewrite E. cbn.
  apply parse_accepted. by apply entry_head_valid.
Qed.

(** Inspection of a stored job accepts exactly a job whose graph, latest entry,
    last page and outbox agree. *)
Record inspected (stored : StoredPolicyJob) (scope : EvidenceScope) (id : string) : Prop := {
  in_graph : admitted (stored_snapshot stored) scope id;
  in_latest : entry_of (stored_latest stored) (stored_snapshot stored);
  in_page : last_page_ok stored (head_of (stored_latest stored)) = true;
  in_outbox : stored_outbox stored = intents_of (stored_snapshot stored);
}.

Lemma inspectStored_run stored scope id :
  inspected stored scope id -> inspectStored stored scope id = Ok (stored_snapshot stored).
Proof.
  intros [Hg [] Hp Ho]. unfold inspectStored. rewrite (inspect_admitted _ _ _ Hg). cbn [mbind result_bind].
  rewrite (history_head _ eo_valid). cbn [mbind result_bind head_scope head_job head_of].
  rewrite (digest_graph_admitted _ _ _ Hg) in eo_digest |- *. injection eo_digest as Edig.
  rewrite reject_known.
  2:{ rewrite eo_scope, eo_job, Hp. destruct Hg. cbn. rewrite ad_job0, ad_scope0.
      by rewrite !bool_decide_eq_true_2 by done. }
  cbn [mbind result_bind head_graphSha256 head_of head_sequence]. rewrite reject_known.
  2:{ rewrite eo_sequence, Edig, bool_decide_eq_true_2 by done. cbn.
      apply negb_false_iff, Z.eqb_eq. lia. }
  cbn [mbind result_bind]. rewrite (build_intents _ _ _ _ Hg). cbn [mbind result_bind].
  rewrite reject_known; [done|]. rewrite Ho. by rewrite bool_decide_eq_true_2.
Qed.

Lemma inspectStored_Ok stored scope id graph :
  inspectStored stored scope id = Ok graph ->
  graph = stored_snapshot stored /\ admitted (stored_snapshot stored) scope id /\
  stored_outbox stored = intents_of (stored_snapshot stored).
Proof.
  unfold inspectStored. intros E. apply bind_Ok in E as (g & Hg & E). apply inspect_iff in Hg as [-> Ha].
  apply bind_Ok in E as (head & _ & E). apply bind_Ok in E as ([] & _ & E).
  apply bind_Ok in E as (d & _ & E). apply bind_Ok in E as ([] & _ & E).
  rewrite (build_intents _ _ _ _ Ha) in E. cbn [mbind result_bind] in E.
  apply bind_Ok in E as ([] & Ho%reject_when_Ok & [= <-]).
  apply negb_false_iff, bool_decide_eq_true in Ho. done.
Qed.

(** ** Stored jobs *)

Record stored_history (stored : StoredPolicyJob) (created : PolicyEvaluationJobSnapshot)
    (first : PolicyEvaluationJobHistoryEntry) (rest : list PolicyEvaluationJobHistoryEntry) : Prop := {
  sh_good : good_graph created;
  sh_first : createPolicyEvaluationJobHistoryEntry None None created op_created = Ok first;
  sh_recorded : recorded created first rest (stored_snapshot stored) (stored_latest stored);
  sh_pages : pages_hold (stored_pages stored) (first :: rest);
}.

Record record_valid (key : JobKey) (stored : StoredPolicyJob) : Prop := {
  rv_history : exists created first rest, stored_history stored created first rest;
  rv_admitted : admitted (stored_snapshot stored) (fst key) (snd key);
  rv_outbox : stored_outbox stored = intents_of (stored_snapshot stored);
  rv_bound : pjob_stateVersion (graph_job (stored_snapshot stored)) <=
    MAX_POLICY_EVALUATION_JOB_HISTORY_ENTRIES;
  rv_last : pjob_stateVersion (graph_job (stored_snapshot stored)) =
    MAX_POLICY_EVALUATION_JOB_HISTORY_ENTRIES -> pjob_terminal (graph_job (stored_snapshot stored)) <> None;
}.

(** What the history of a stored job amounts to. *)
Lemma stored_facts stored created first rest :
  stored_history stored created first rest ->
  good_graph (stored_snapshot stored) /\ entry_of (stored_latest stored) (stored_snapshot stored) /\
  last (first :: rest) = Some (stored_latest stored) /\
  pjob_stateVersion (graph_job (stored_snapshot stored)) = Z.of_nat (length (first :: rest)).
Proof.
  intros []. destruct (created_entry _ _ _ _ _ sh_first0) as (Hentry & Hop & _).
  destruct (recorded_replays _ _ _ _ _ sh_good0 Hentry sh_recorded0) as (Hg & He & _ & _ & Hl & Hver).
  split_and!; try done. rewrite Hver. cbn [length].
  destruct Hentry as [Hvalid _ _ _ Hseq _ _ _]. apply entry_head_valid in Hvalid as [Hvalid _].
  unfold PolicyEvaluationJobHistoryEntrySchema, PolicyEvaluationJobHistoryEntryDefinitionSchema in Hvalid.
  rewrite !andb_true_iff in Hvalid. destruct_and? Hvalid.
  match goal with H : Bool.eqb (_ =? 0) (is_created _) = true |- _ =>
    rewrite Hop in H; apply eqb_prop, Z.eqb_eq in H end. lia.
Qed.

Lemma record_inspected key stored : record_valid key stored -> inspected stored (fst key) (snd key).
Proof.
  intros [(created & first & rest & Hh) Ha Ho _ _].
  destruct (stored_facts _ _ _ _ Hh) as (_ & He & Hl & Hver). constructor; try done.
  destruct Hh as [_ _ _ Hp].
  destruct (first :: rest) as [|x l _] eqn:E using rev_ind; [done|]. rewrite last_snoc in Hl. injection Hl as ->.
  destruct (pages_hold_last _ _ _ Hp) as (page & Hpage & Hlen & Hlast).
  rewrite length_app in Hver. cbn in Hver.
  unfold last_page_ok. cbn [head_of head_sequence]. rewrite (eo_sequence _ _ He).
  replace (pjob_stateVersion (graph_job (stored_snapshot stored)) - 1) with (Z.of_nat (length l)) by lia.
  change (page_of (Z.of_nat (length l))) with (Z.of_nat (length l) / 100).
  rewrite Hpage, Hlast, bool_decide_eq_true_2 by done. rewrite andb_true_r. by apply Z.eqb_eq.
Qed.

Lemma record_inspects key stored :
  record_valid key stored -> inspectStored stored (fst key) (snd key) = Ok (stored_snapshot stored).
Proof. intros Hr. by apply inspectStored_run, record_inspected. Qed.

(** ** The memory *)

(** A reservation the memory retains is an entry of its job's history. *)
Definition reservation_backed (records : gmap JobKey StoredPolicyJob) (key : JobKey * string)
    (entry : PolicyEvaluationJobHistoryEntry) : Prop :=
  exists stored index page fence delta, records !! fst key = Some stored /\
    stored_pages stored !! index = Some page /\ entry ∈ page /\
    history_operation (entry_definition entry) = op_reserve fence (snd key) delta.

Definition request_key (key : JobKey) (stored : StoredPolicyJob) : JobKey :=
  (fst key, request_evaluationRequestId (graph_request (stored_snapshot stored))).

Record memory_valid (st : PolicyJobMemory) : Prop := {
  mv_records : forall key stored, memory_records st !! key = Some stored -> record_valid key stored;
  mv_indexed : forall key stored, memory_records st !! key = Some stored ->
    memory_requests st !! request_key key stored = Some key;
  mv_requests : forall requestKey key, memory_requests st !! requestKey = Some key ->
    exists stored, memory_records st !! key = Some stored /\ requestKey = request_key key stored;
  mv_reservations : forall key entry, memory_reservations st !! key = Some entry ->
    reservation_backed (memory_records st) key entry;
}.

(** Jobs only move by steps of the scheduler, and bindings stay. *)
Record memory_later (st st' : PolicyJobMemory) : Prop := {
  ml_records : forall key stored, memory_records st !! key = Some stored ->
    exists stored', memory_records st' !! key = Some stored' /\
      rtc step (stored_snapshot stored) (stored_snapshot stored');
  ml_requests : memory_requests st ⊆ memory_requests st';
  ml_epoch : memory_recoveryEpoch st' = memory_recoveryEpoch st;
}.

Definition evolves (st st' : PolicyJobMemory) : Prop :=
  memory_valid st -> memory_valid st' /\ memory_later st st'.

#[export] Instance memory_later_preorder : PreOrder memory_later.
Proof.
  split.
  - intros st. constructor; try done. intros key stored E. exists stored. split; [done|constructor].
  - intros st1 st2 st3 [H1 R1 E1] [H2 R2 E2]. constructor; [|by etrans|congruence].
    intros key stored E. destruct (H1 _ _ E) as (stored2 & Es2 & Hs2).
    destruct (H2 _ _ Es2) as (stored3 & Es3 & Hs3). exists stored3. split; [done|by etrans].
Qed.

#[export] Instance evolves_preorder : PreOrder evolves.
Proof.
  split.
  - intros st Hv. split; [done|reflexivity].
  - intros st1 st2 st3 H1 H2 Hv. destruct (H1 Hv) as [Hv2 Hl]. destruct (H2 Hv2) as [Hv3 Hl3].
    split; [done|by etrans].
Qed.

(** A method keeps a relation between the memory before and after. *)
Definition keeps (P : PolicyJobMemory -> PolicyJobMemory -> Prop) {A} (m : R A) : Prop :=
  forall st, P st (snd (m st)).

Section keeps.
Context {P : PolicyJobMemory -> PolicyJobMemory -> Prop} `{!PreOrder P}.

Lemma keeps_lift {A} (r : res A) : keeps P (lift r).
Proof. intros st. reflexivity. Qed.

Lemma keeps_reads {A} (f : PolicyJobMemory -> res A) : keeps P (reads f).
Proof. intros st. reflexivity. Qed.

Lemma keeps_ret {A} (a : A) : keeps P (mret a).
Proof. intros st. reflexivity. Qed.

Lemma keeps_bind {A B} (m : R A) (f : A -> R B) :
  keeps P m -> (forall a, keeps P (f a)) -> keeps P (m ≫= f).
Proof.
  intros Hm Hf st. unfold mbind, R_bind. specialize (Hm st).
  destruct (m st) as [[a|e] st']; [|done]. etrans; [exact Hm|]. apply Hf.
Qed.
End keeps.

(** ** One mutation *)

(** [work] runs the operation that [operation] records of its result. *)
Definition performs (work : Work) (operation : PolicyEvaluationJobSnapshot -> res PolicyOperation) : Prop :=
  forall graph now recoveryEpoch next recorded_as,
    work graph now recoveryEpoch = Ok next ->
    pjob_stateVersion (graph_job next) <> pjob_stateVersion (graph_job graph) ->
    operation next = Ok recorded_as ->
    run_operation graph now recoveryEpoch recorded_as = Ok next /\ cancellation_stamped now recorded_as.

Lemma created_entry_schema previous previousEntry next operation entry :
  createPolicyEvaluationJobHistoryEntry previous previousEntry next operation = Ok entry ->
  OperationSchema operation = true.
Proof.
  intros E. destruct (created_entry _ _ _ _ _ E) as (He & <- & _).
  destruct (entry_head_valid _ (eo_valid _ _ He)) as [Hs _].
  unfold PolicyEvaluationJobHistoryEntrySchema, PolicyEvaluationJobHistoryEntryDefinitionSchema in Hs.
  rewrite !andb_true_iff in Hs. tauto.
Qed.

(** What a prepared mutation commits. *)
Record commits (stored : StoredPolicyJob) (result : PolicyEvaluationJobSnapshot)
    (entry : PolicyEvaluationJobHistoryEntry) (nextStored : StoredPolicyJob) : Prop := {
  cm_operation : exists now recoveryEpoch operation,
    PolicyEvaluationTimeSchema now = true /\ OperationSchema operation = true /\
    cancellation_stamped now operation /\
    run_operation (stored_snapshot stored) now recoveryEpoch operation = Ok result /\
    createPolicyEvaluationJobHistoryEntry (Some (stored_snapshot stored)) (Some (stored_latest stored))
      result operation = Ok entry;
  cm_stored : exists intents, nextStored = extend_record stored result entry intents;
  cm_outbox : stored_outbox nextStored = intents_of result;
  cm_version : pjob_stateVersion (graph_job result) =
    pjob_stateVersion (graph_job (stored_snapshot stored)) + 1;
  cm_last : history_exhausted result = false;
}.

Lemma exhausted_terminal graph now ended :
  exhaustPolicyEvaluationJobHistory graph now = Ok ended -> history_exhausted ended = false.
Proof.
  unfold exhaustPolicyEvaluationJobHistory, parse_snapshot. intros E.
  apply bind_Ok in E as (g & [_ ->]%parse_Ok & E). apply bind_Ok in E as (t & [_ ->]%parse_Ok & E).
  apply bind_Ok in E as ([] & _ & E).
  destruct (chargeUncertainPolicyEvaluationAcquisition graph) as [charged b].
  apply parse_Ok in E as [_ ->]. done.
Qed.

Lemma prepare_commits work operation stored snapshot next scope id now recoveryEpoch result entry nextStored :
  performs work operation -> snapshot = stored_snapshot stored ->
  PolicyEvaluationTimeSchema now = true -> work snapshot now recoveryEpoch = Ok next ->
  pjob_stateVersion (graph_job next) <> pjob_stateVersion (graph_job snapshot) ->
  prepare stored snapshot next operation scope id now = Ok (result, entry, nextStored) ->
  commits stored result entry nextStored /\ admitted result scope id.
Proof.
  intros Hperf -> Hn Hwork Hver E. unfold prepare in E.
  apply bind_Ok in E as (result' & Hresult & E). apply bind_Ok in E as (recorded_as & Hop & E).
  apply bind_Ok in E as (entry' & Hentry & E). apply bind_Ok in E as (replayed & _ & E).
  apply bind_Ok in E as (intents & _ & E). apply bind_Ok in E as (g & Hins & [= <- <- <-]).
  apply inspectStored_Ok in Hins as (_ & Ha & Ho). split; [|done].
  assert (Hrun : run_operation (stored_snapshot stored) now recoveryEpoch recorded_as = Ok result' /\
    cancellation_stamped now recorded_as /\ history_exhausted result' = false).
  { destruct (history_exhausted next) eqn:Ex.
    - apply bind_Ok in Hresult as (ended & Hended & Hr). apply inspect_iff in Hr as [-> _].
      injection Hop as <-. split; [done|]. split; [by intros ? [=]|]. by eapply exhausted_terminal.
    - injection Hresult as <-. destruct (Hperf _ _ _ _ _ Hwork Hver Hop). done. }
  destruct Hrun as (Hrun & Hstamp & Hlast).
  constructor; try done.
  - exists now, recoveryEpoch, recorded_as. split_and!; try done. by eapply created_entry_schema.
  - by eexists.
  - by destruct (created_entry _ _ _ _ _ Hentry) as (_ & _ & ? & _).
Qed.

(** A commit extends the history of the stored job by its entry. *)
Lemma commit_history stored created first rest result entry nextStored :
  stored_history stored created first rest -> commits stored result entry nextStored ->
  stored_history nextStored created first (rest ++ [entry]) /\ step (stored_snapshot stored) result.
Proof.
  intros Hh [(now & epoch & op & Hn & Hop & Hs & Hrun & Hentry) (intents & ->) _ Hver _].
  destruct (stored_facts _ _ _ _ Hh) as (_ & _ & _ & Hlen). split; [|by econstructor].
  destruct Hh. constructor; [done|done| |].
  - by eapply recorded_operation.
  - cbn [stored_pages extend_record]. rewrite app_comm_cons.
    destruct (created_entry _ _ _ _ _ Hentry) as (He & _). rewrite (eo_sequence _ _ He), Hver.
    replace (pjob_stateVersion (graph_job (stored_snapshot stored)) + 1 - 1)
      with (Z.of_nat (length (first :: rest))) by lia.
    change (page_of (Z.of_nat (length (first :: rest)))) with (Z.of_nat (length (first :: rest)) / 100).
    by apply pages_hold_snoc.
Qed.

Lemma commit_valid key stored result entry nextStored :
  record_valid key stored -> commits stored result entry nextStored ->
  admitted result (fst key) (snd key) ->
  record_valid key nextStored /\ step (stored_snapshot stored) (stored_snapshot nextStored) /\
  graph_request (stored_snapshot nextStored) = graph_request (stored_snapshot stored).
Proof.
  intros [(created & first & rest & Hh) _ _ Hb Hl] Hc Ha.
  destruct (commit_history _ _ _ _ _ _ _ Hh Hc) as [Hh' Hstep].
  destruct (stored_facts _ _ _ _ Hh) as (Hg & _).
  pose proof (steps_later _ _ Hg (rtc_once _ _ Hstep)) as Hlater.
  destruct Hc as [_ (intents & ->) Ho Hver Hlast]. split; [|split; [done|apply Hlater]].
  constructor; cbn [stored_snapshot extend_record]; try done.
  - by exists created, first, (rest ++ [entry]).
  - assert (pjob_stateVersion (graph_job (stored_snapshot stored)) <> MAX_POLICY_EVALUATION_JOB_HISTORY_ENTRIES).
    { intros Emax. rewrite (gl_terminal _ _ Hlater (Hl Emax)) in Hver. lia. }
    lia.
  - intros Emax. unfold history_exhausted in Hlast. rewrite Emax, Z.eqb_refl, andb_true_r in Hlast.
    apply negb_false_iff, present_true in Hlast as [t ->]. done.
Qed.

Lemma read_Ok scope id st key stored graph :
  memory_valid st -> read scope id st = Ok (key, stored, graph) ->
  key = (scope, id) /\ memory_records st !! ((scope, id) : JobKey) = Some stored /\ graph = stored_snapshot stored /\
  EvidenceScopeSchema scope = true /\ OpaqueIdSchema id = true.
Proof.
  intros Hv E. unfold read, job_key in E. apply bind_Ok in E as (k & Hk & E).
  apply bind_Ok in Hk as (s & [Hs ->]%parse_Ok & Hk). apply bind_Ok in Hk as (i & [Hi ->]%parse_Ok & [= <-]).
  destruct (memory_records st !! ((scope, id) : JobKey)) as [stored'|] eqn:El; [|done].
  apply bind_Ok in E as (g & Hg & [= <- <- <-]). by apply inspectStored_Ok in Hg as [-> _].
Qed.

(** Every outcome of a mutation: nothing, or one commit. *)
Lemma mutate_outcome work operation scope id now st :
  performs work operation -> memory_valid st ->
  let st' := snd (mutate scope id work operation now st) in
  st' = st \/
  exists stored result entry nextStored,
    memory_records st !! ((scope, id) : JobKey) = Some stored /\
    commits stored result entry nextStored /\ admitted result scope id /\
    (st' = set_record (scope, id) nextStored st \/
     exists fence reservationId delta,
       history_operation (entry_definition entry) = op_reserve fence reservationId delta /\
       st' = set_reservation ((scope, id), reservationId) entry (set_record (scope, id) nextStored st)).
Proof.
  intros Hperf Hv. unfold mutate, mbind, R_bind, reads, lift, mret, R_ret, writes, rejects, lift.
  destruct (read scope id st) as [[[key stored] snapshot]|e] eqn:Hread; [|by left].
  destruct (read_Ok _ _ _ _ _ _ Hv Hread) as (-> & Hl & -> & Hscope & Hid).
  destruct (parse PolicyEvaluationTimeSchema now) as [now'|] eqn:Hn; [|by left].
  apply parse_Ok in Hn as [Hn ->].
  destruct (work _ now (memory_recoveryEpoch st)) as [next|] eqn:Hw; [|by left].
  destruct (inspect next scope id) as [next'|] eqn:Hi; [|by left]. apply inspect_iff in Hi as [-> Ha].
  destruct (Z.eqb_spec (pjob_stateVersion (graph_job next))
    (pjob_stateVersion (graph_job (stored_snapshot stored)))) as [Ev|Ev].
  { left. by destruct (reject_when _ _). }
  destruct (prepare _ _ _ _ _ _ _) as [[[result entry] nextStored]|] eqn:Hp; [|by left].
  right. exists stored, result, entry, nextStored.
  destruct (prepare_commits _ _ _ _ _ _ _ _ _ _ _ _ Hperf eq_refl Hn Hw Ev Hp) as [Hc Har].
  split; [done|]. split; [done|]. split; [done|].
  destruct (history_operation (entry_definition entry)) eqn:Hop; try (left; reflexivity).
  unfold reservationKey, job_key. rewrite (parse_accepted _ _ Hscope). cbn [mbind result_bind].
  rewrite (parse_accepted _ _ Hid). cbn [mbind result_bind].
  destruct (parse OpaqueIdSchema reservationId) as [r|] eqn:Hr; cbn [mbind result_bind]; [|by left].
  apply parse_Ok in Hr as [_ ->]. right. by exists fence, reservationId, delta.
Qed.
End proofs.
