(* ===== verification/PolicyRepositorySystem.v ===== *)
(** * The in-memory policy job repository as a system

    Calls to [MemoryPolicyJobRepository] in any order, at any instants.  The
    memory stays valid and evolves; the theorems say what a stored job's history
    holds, that it is finite, that the checks a mutation makes of its own work
    never refuse, that pages read back, and that a request has one job. *)

From stdpp Require Import relations gmap.
From S2P Require Import Prelude Errors Primitives PolicyTime PolicyEvaluationJob.
From S2P Require Import PolicyJobSnapshot PolicyJobInvariant PolicyScheduler.
From S2P Require Import PolicySchedulerProofs PolicySchedulerContract PolicyJobHistory.
From S2P Require Import PolicySchedulerSystem PolicyHistoryProofs PolicyJobOutbox.
From S2P Require Import MemoryPolicyJobRepository PolicyRepositoryProofs.
#[local] Open Scope Z_scope.

Section system.
Context `{PolicyDigests}.
Implicit Types (key : JobKey) (st : PolicyJobMemory).

(** ** Writes *)

Lemma reservation_backed_extend records key stored result entry intents k e :
  records !! key = Some stored -> reservation_backed records k e ->
  reservation_backed (<[key := extend_record stored result entry intents]> records) k e.
Proof.
  intros Hl (stored' & index & page & fence & delta & Hk & Hp & He & Hop).
  destruct (decide (fst k = key)) as [<-|Hne].
  - rewrite Hl in Hk. injection Hk as <-. eexists _.
    destruct (decide (page_of (history_sequence (entry_definition entry)) = index)) as [Ei|Ei].
    + exists index, (page ++ [entry]), fence, delta. rewrite lookup_insert_eq. split; [done|].
      split; [|split; [set_solver|done]]. cbn. rewrite Ei, lookup_insert_eq, Hp. done.
    + exists index, page, fence, delta. rewrite lookup_insert_eq. split; [done|].
      split; [|done]. cbn. by rewrite lookup_insert_ne.
  - exists stored', index, page, fence, delta. by rewrite lookup_insert_ne.
Qed.

(** The page of a commit holds its entry. *)
Lemma extended_page stored result entry intents :
  exists index page, stored_pages (extend_record stored result entry intents) !! index = Some page /\
    entry ∈ page.
Proof. eexists _, _. cbn. rewrite lookup_insert_eq. split; [done|]. set_solver. Qed.

Lemma commit_memory key st stored result entry nextStored :
  memory_valid st -> memory_records st !! key = Some stored ->
  commits stored result entry nextStored -> admitted result (fst key) (snd key) ->
  memory_valid (set_record key nextStored st) /\ memory_later st (set_record key nextStored st).
Proof.
  intros [Hr Hi Hq Hs] Hl Hc Ha.
  destruct (commit_valid _ _ _ _ _ (Hr _ _ Hl) Hc Ha) as (Hv & Hstep & Ereq).
  assert (Ekey : request_key key nextStored = request_key key stored) by (unfold request_key; by rewrite Ereq).
  split; constructor; cbn [memory_records memory_requests memory_reservations memory_recoveryEpoch set_record].
  - intros k s. destruct (decide (k = key)) as [->|Hne].
    + rewrite lookup_insert_eq. by intros [= <-].
    + rewrite lookup_insert_ne by done. apply Hr.
  - intros k s. destruct (decide (k = key)) as [->|Hne].
    + rewrite lookup_insert_eq. intros [= <-]. rewrite Ekey. by apply Hi.
    + rewrite lookup_insert_ne by done. apply Hi.
  - intros rk k Hk. destruct (Hq _ _ Hk) as (s & Hs' & ->). destruct (decide (k = key)) as [->|Hne].
    + exists nextStored. rewrite lookup_insert_eq, Ekey. rewrite Hl in Hs'. by injection Hs' as <-.
    + exists s. by rewrite lookup_insert_ne.
  - intros k e Hk. destruct Hc as [_ (intents & ->) _ _ _]. apply reservation_backed_extend; [done|by apply Hs].
  - intros k s Hk. destruct (decide (k = key)) as [->|Hne].
    + exists nextStored. rewrite lookup_insert_eq. rewrite Hl in Hk. injection Hk as <-.
      split; [done|by apply rtc_once].
    + exists s. by rewrite lookup_insert_ne.
  - done.
  - done.
Qed.

Lemma reservation_memory key entry st stored result nextStored fence reservationId delta :
  memory_records st !! key = Some stored ->
  commits stored result entry nextStored ->
  history_operation (entry_definition entry) = op_reserve fence reservationId delta ->
  memory_valid (set_record key nextStored st) ->
  memory_valid (set_reservation (key, reservationId) entry (set_record key nextStored st)) /\
  memory_later (set_record key nextStored st)
    (set_reservation (key, reservationId) entry (set_record key nextStored st)).
Proof.
  intros Hl Hc Hop [Hr Hi Hq Hs]. split; constructor; try done.
  - intros k e. cbn [memory_reservations set_reservation]. destruct (decide (k = (key, reservationId))) as [->|Hne].
    + rewrite lookup_insert_eq. intros [= <-]. destruct Hc as [_ (intents & ->) _ _ _].
      destruct (extended_page stored result entry intents) as (index & page & Hp & He).
      exists (extend_record stored result entry intents), index, page, fence, delta.
      split; [|done]. apply lookup_insert_eq.
    + rewrite lookup_insert_ne by done. apply Hs.
  - intros k s Hk. exists s. split; [done|constructor].
Qed.

Lemma mutate_evolves work operation scope id now :
  performs work operation -> keeps evolves (mutate scope id work operation now).
Proof.
  intros Hperf st Hv. destruct (mutate_outcome work operation scope id now st Hperf Hv)
    as [->|(stored & result & entry & nextStored & Hl & Hc & Ha & Hst)]; [by split|].
  destruct (commit_memory _ _ _ _ _ _ Hv Hl Hc Ha) as [Hv1 Hl1].
  destruct Hst as [->|(fence & rid & delta & Hop & ->)]; [done|].
  destruct (reservation_memory _ _ _ _ _ _ _ _ _ Hl Hc Hop Hv1) as [Hv2 Hl2].
  split; [exact Hv2|]. etrans; [exact Hl1|exact Hl2].
Qed.

(** ** The operations of the methods *)

Lemma perform_exact (f : Work) (op : PolicyOperation) :
  (forall graph now epoch, run_operation graph now epoch op = f graph now epoch) ->
  (forall intent, op <> op_cancel intent) -> performs f (fun _ => Ok op).
Proof.
  intros Hf Hc graph now epoch next op' Hw _ [= <-]. split; [by rewrite Hf|]. intros intent E. by destruct (Hc intent).
Qed.

Lemma claim_runs graph now epoch attemptId leaseId workerId next :
  claimPolicyEvaluationJob graph now epoch attemptId leaseId workerId = Ok next ->
  exists lease, pjob_currentLease (graph_job next) = Some lease /\
    run_operation graph now epoch (op_claim (please_mutationFence lease)) = Ok next.
Proof.
  intros Hw. assert (exists lease, pjob_currentLease (graph_job next) = Some lease /\
    pfence_attemptId (please_mutationFence lease) = attemptId /\
    pfence_leaseId (please_mutationFence lease) = leaseId /\
    pfence_workerId (please_mutationFence lease) = workerId) as (lease & El & <- & <- & <-).
  { unfold claimPolicyEvaluationJob, increment, parse_snapshot in Hw. inv_res. by eexists. }
  exists lease. split; [done|]. cbn [run_operation]. rewrite Hw. cbn. rewrite El. cbn.
  by rewrite bool_decide_eq_true_2.
Qed.

Lemma claim_performs attemptId leaseId workerId :
  performs
    (fun snapshot now epoch => claimPolicyEvaluationJob snapshot now epoch attemptId leaseId workerId)
    (fun next => match pjob_currentLease (graph_job next) with
                 | Some lease => Ok (op_claim (please_mutationFence lease))
                 | None => Throw TypeError
                 end).
Proof.
  intros graph now epoch next op Hw _ Hop. destruct (claim_runs _ _ _ _ _ _ _ Hw) as (lease & El & Hr).
  rewrite El in Hop. injection Hop as <-. split; [done|by intros ? [=]].
Qed.

(** A second cancellation changes nothing; the first one is recorded. *)
Lemma cancelled_again graph intent next earlier :
  cancelPolicyEvaluationJob graph intent = Ok next -> graph_cancellation graph = Some earlier -> next = graph.
Proof.
  intros E Ec. unfold cancelPolicyEvaluationJob, parse_snapshot in E.
  apply bind_Ok in E as (g & [_ ->]%parse_Ok & E). apply bind_Ok in E as (i & [_ ->]%parse_Ok & E).
  apply bind_Ok in E as ([] & _ & E). rewrite Ec in E. by apply bind_Ok in E as ([] & _ & [= <-]).
Qed.

Lemma cancel_records graph intent next :
  cancelPolicyEvaluationJob graph intent = Ok next -> graph_cancellation graph = None ->
  graph_cancellation next = Some intent.
Proof.
  intros E Ec. unfold cancelPolicyEvaluationJob, parse_snapshot in E.
  apply bind_Ok in E as (g & [_ ->]%parse_Ok & E). apply bind_Ok in E as (i & [_ ->]%parse_Ok & E).
  apply bind_Ok in E as ([] & _ & E). rewrite Ec in E.
  apply bind_Ok in E as ([] & _ & E). apply bind_Ok in E as (t & _ & E).
  apply bind_Ok in E as ([] & _ & E). apply bind_Ok in E as ([] & _ & E).
  destruct (chargeUncertainPolicyEvaluationAcquisition graph) as [charged b].
  by apply parse_Ok in E as [_ ->].
Qed.

Lemma cancel_performs scope jobId principalId cancellationId reason :
  performs
    (fun snapshot now _ => cancelPolicyEvaluationJob snapshot {|
       pcancel_jobId := jobId;
       pcancel_cancellationId :=
         default cancellationId (pcancel_cancellationId <$> graph_cancellation snapshot);
       pcancel_scope := scope;
       pcancel_requestedAt := now;
       pcancel_requestedByPrincipalId := principalId;
       pcancel_reason := reason |})
    (fun next => match graph_cancellation next with
                 | Some intent => Ok (op_cancel intent)
                 | None => Throw ZodError
                 end).
Proof.
  intros graph now epoch next op Hw Hver Hop. cbn beta in Hw, Hop.
  assert (Hnone : graph_cancellation graph = None).
  { destruct (graph_cancellation graph) eqn:E; [|done]. destruct Hver.
    by rewrite (cancelled_again _ _ _ _ Hw E). }
  rewrite (cancel_records _ _ _ Hw Hnone) in Hop. injection Hop as <-. split; [done|]. by intros intent [= <-].
Qed.

Lemma claim_keeps scope jobId workerId attemptId leaseId now :
  keeps evolves (claimJob scope jobId workerId attemptId leaseId now).
Proof. apply mutate_evolves, claim_performs. Qed.

Lemma cancel_keeps scope jobId principalId cancellationId reason now :
  keeps evolves (cancelJob scope jobId principalId cancellationId reason now).
Proof. apply mutate_evolves, cancel_performs. Qed.

Lemma exact_keeps scope id (f : Work) op now :
  (forall graph now epoch, run_operation graph now epoch op = f graph now epoch) ->
  (forall intent, op <> op_cancel intent) -> keeps evolves (mutate scope id f (fun _ => Ok op) now).
Proof. intros. by apply mutate_evolves, perform_exact. Qed.

(** ** Creation *)

Lemma created_graph request jobId now epoch digest graph :
  createPolicyEvaluationJobGraph request jobId now epoch digest = Ok graph ->
  good_graph graph /\ graph_request graph = request /\ pjob_stateVersion (graph_job graph) = 1.
Proof.
  unfold createPolicyEvaluationJobGraph, parse_snapshot. intros E.
  apply bind_Ok in E as (d & _ & [Hs ->]%parse_Ok). split; [split; [exact Hs|by intros []]|done].
Qed.

Definition fresh_job st (request : PolicyEvaluationRequest) (jobId : string) (stored : StoredPolicyJob) :
    Prop :=
  memory_records st !! ((request_scope request, jobId) : JobKey) = None /\
  memory_requests st !! ((request_scope request, request_evaluationRequestId request) : JobKey) = None /\
  graph_request (stored_snapshot stored) = request /\
  record_valid (request_scope request, jobId) stored.

Lemma request_key_Ok request key :
  job_key (request_scope request) (request_evaluationRequestId request) = Ok key ->
  key = (request_scope request, request_evaluationRequestId request).
Proof. unfold job_key. intros E. inv_res. done. Qed.

Lemma job_key_Ok scope id key :
  job_key scope id = Ok key <-> key = (scope, id) /\ EvidenceScopeSchema scope = true /\ OpaqueIdSchema id = true.
Proof.
  unfold job_key. split.
  - intros E. inv_res. done.
  - intros (-> & Hs & Hi). by rewrite (parse_accepted _ _ Hs), (parse_accepted _ _ Hi).
Qed.

Lemma createJob_outcome request jobId now st :
  let '(r, st') := createJob request jobId now st in
  st' = st /\ (forall snapshot, r <> Ok (true, snapshot)) \/
  exists stored, r = Ok (true, stored_snapshot stored) /\ fresh_job st request jobId stored /\
    st' = set_request (request_scope request, request_evaluationRequestId request)
            (request_scope request, jobId) (set_record (request_scope request, jobId) stored st).
Proof.
  unfold createJob, mbind, R_bind, reads, lift, mret, R_ret, writes, rejects, lift.
  destruct (validatePolicyEvaluationRequestRecord request) as [request'|] eqn:Hreq; [|by left].
  assert (request' = request) as ->
    by (unfold validatePolicyEvaluationRequestRecord in Hreq; by inv_res).
  destruct (parse OpaqueIdSchema jobId) as [jobId'|] eqn:Hid; [|by left]. apply parse_Ok in Hid as [Hid ->].
  destruct (job_key _ _) as [requestKey|] eqn:Hrk; [|by left]. apply request_key_Ok in Hrk as ->.
  destruct (memory_requests st !! _) as [existing|] eqn:Hq.
  { destruct (memory_records st !! existing) as [record|]; [|by left].
    destruct (inspectStored _ _ _) as [snapshot|]; [|by left]. destruct (reject_when _ _); by left. }
  destruct (job_key _ jobId) as [key|] eqn:Hk; [|by left]. apply job_key_Ok in Hk as (-> & Hscope & _).
  destruct (memory_records st !! _) as [record|] eqn:Hl; cbn [present reject_when]; [by left|].
  destruct (parse PolicyEvaluationTimeSchema now) as [now'|]; [|by left].
  destruct (createPolicyEvaluationJobGraph _ _ _ _ _) as [graph|] eqn:Hg; [|by left].
  destruct (inspect graph _ _) as [graph'|] eqn:Hi; [|by left]. apply inspect_iff in Hi as [-> _].
  destruct (createPolicyEvaluationJobHistoryEntry _ _ _ _) as [entry|] eqn:He; [|by left].
  destruct (buildPolicyEvaluationJobOutboxIntents _ _) as [intents|]; [|by left].
  destruct (inspectStored _ _ _) as [g|] eqn:Hins; [|by left].
  right. exists (initial_record graph entry intents). split; [done|].
  destruct (created_graph _ _ _ _ _ _ Hg) as (Hgood & Ereq & Ever).
  apply inspectStored_Ok in Hins as (_ & Ha & Ho).
  split; [|done]. do 3 (split; [done|]). constructor; try done.
  - exists graph, entry, []. constructor; [done|done|constructor|apply pages_hold_one].
  - cbn. rewrite Ever. unfold MAX_POLICY_EVALUATION_JOB_HISTORY_ENTRIES. lia.
  - cbn. rewrite Ever. done.
Qed.

Lemma create_memory st request jobId stored :
  memory_valid st -> fresh_job st request jobId stored ->
  let st' := set_request (request_scope request, request_evaluationRequestId request)
    (request_scope request, jobId) (set_record (request_scope request, jobId) stored st) in
  memory_valid st' /\ memory_later st st'.
Proof.
  intros [Hr Hi Hq Hs] (Hnone & Hfree & Ereq & Hv) st'.
  assert (Ekey : request_key (request_scope request, jobId) stored =
    (request_scope request, request_evaluationRequestId request)).
  { unfold request_key. cbn. by rewrite Ereq. }
  split; constructor; unfold st';
    cbn [memory_records memory_requests memory_reservations memory_recoveryEpoch set_record set_request].
  - intros k s. destruct (decide (k = (request_scope request, jobId))) as [->|Hne].
    + rewrite lookup_insert_eq. by intros [= <-].
    + rewrite lookup_insert_ne by done. apply Hr.
  - intros k s. destruct (decide (k = (request_scope request, jobId))) as [->|Hne].
    + rewrite lookup_insert_eq. intros [= <-]. by rewrite Ekey, lookup_insert_eq.
    + rewrite lookup_insert_ne by done. intros Hk. rewrite lookup_insert_ne; [by apply Hi|].
      intros E. rewrite E in Hfree. by rewrite (Hi _ _ Hk) in Hfree.
  - intros rk k. destruct (decide (rk = (request_scope request, request_evaluationRequestId request))) as [->|Hne].
    + rewrite lookup_insert_eq. intros [= <-]. exists stored. by rewrite lookup_insert_eq.
    + rewrite lookup_insert_ne by done. intros Hk. destruct (Hq _ _ Hk) as (s & Hs' & ->).
      exists s. rewrite lookup_insert_ne; [done|]. intros <-. by rewrite Hnone in Hs'.
  - intros k e Hk. destruct (Hs _ _ Hk) as (s & i & page & fence & delta & Hl & ?).
    exists s, i, page, fence, delta. rewrite lookup_insert_ne; [done|].
    intros E. rewrite <- E in Hl. by rewrite Hnone in Hl.
  - intros k s Hk. exists s. rewrite lookup_insert_ne; [split; [done|constructor]|].
    intros <-. by rewrite Hnone in Hk.
  - by apply insert_subseteq.
  - done.
Qed.

Lemma create_keeps request jobId now : keeps evolves (createJob request jobId now).
Proof.
  intros st Hv. pose proof (createJob_outcome request jobId now st) as Ho.
  destruct (createJob request jobId now st) as [r st']. cbn [snd].
  destruct Ho as [[-> _]|(stored & _ & Hf & ->)]; [by split|]. by apply create_memory.
Qed.

(** ** The methods that read first *)

Ltac keep_steps :=
  repeat first
    [ apply exact_keeps; [done|by intros ? [=]]
    | apply keeps_bind; [|intros ?]
    | apply keeps_lift | apply keeps_reads | apply keeps_ret
    | match goal with |- keeps _ (match ?x with _ => _ end) => destruct x end ].

Lemma reserve_work_keeps scope fence reservationId delta checked now :
  keeps evolves (reserveWork scope fence reservationId delta checked now).
Proof. unfold reserveWork, rejects, refuse. keep_steps. Qed.

Lemma reserve_acquisition_keeps scope fence allowanceId checked now :
  keeps evolves (reserveAcquisition scope fence allowanceId checked now).
Proof. unfold reserveAcquisition, rejects. keep_steps. Qed.

(** ** Calls *)

(** One call, with the instants its readings of the clock return. *)
Inductive RepositoryCall : Type :=
| CreateCall (request : PolicyEvaluationRequest) (jobId : string) (now : PolicyEvaluationTime)
| ClaimCall (scope : EvidenceScope) (jobId workerId attemptId leaseId : string) (now : PolicyEvaluationTime)
| HeartbeatCall (scope : EvidenceScope) (fence : PolicyEvaluationWorkerMutationFence)
    (now : PolicyEvaluationTime)
| ReserveUsageCall (scope : EvidenceScope) (fence : PolicyEvaluationWorkerMutationFence)
    (delta : PolicyEvaluationUsage) (reservationId : string) (now : PolicyEvaluationTime)
| InterruptCall (scope : EvidenceScope) (fence : PolicyEvaluationWorkerMutationFence)
    (reason : PolicyEvaluationRetryableError) (now : PolicyEvaluationTime)
| ReclaimCall (scope : EvidenceScope) (jobId : string) (now : PolicyEvaluationTime)
| SettleCall (scope : EvidenceScope) (fence : PolicyEvaluationWorkerMutationFence) (allowanceId : string)
    (usage : option PolicyEvaluationAcquisitionUsage) (now : PolicyEvaluationTime)
| CancelCall (scope : EvidenceScope) (jobId principalId cancellationId : string)
    (reason : PolicyCancellationReason) (now : PolicyEvaluationTime)
| ReserveWorkCall (scope : EvidenceScope) (fence : PolicyEvaluationWorkerMutationFence)
    (reservationId : string) (delta : PolicyEvaluationUsage) (checked now : PolicyEvaluationTime)
| ReserveAcquisitionCall (scope : EvidenceScope) (fence : PolicyEvaluationWorkerMutationFence)
    (allowanceId : string) (checked now : PolicyEvaluationTime).

(** The memory after a call. *)
Definition after (call : RepositoryCall) st : PolicyJobMemory :=
  match call with
  | CreateCall request jobId now => snd (createJob request jobId now st)
  | ClaimCall scope jobId workerId attemptId leaseId now =>
      snd (claimJob scope jobId workerId attemptId leaseId now st)
  | HeartbeatCall scope fence now => snd (heartbeatJob scope fence now st)
  | ReserveUsageCall scope fence delta reservationId now =>
      snd (reserveUsage scope fence delta reservationId now st)
  | InterruptCall scope fence reason now => snd (interruptJob scope fence reason now st)
  | ReclaimCall scope jobId now => snd (reclaimJob scope jobId now st)
  | SettleCall scope fence allowanceId usage now => snd (settleAcquisition scope fence allowanceId usage now st)
  | CancelCall scope jobId principalId cancellationId reason now =>
      snd (cancelJob scope jobId principalId cancellationId reason now st)
  | ReserveWorkCall scope fence reservationId delta checked now =>
      snd (reserveWork scope fence reservationId delta checked now st)
  | ReserveAcquisitionCall scope fence allowanceId checked now =>
      snd (reserveAcquisition scope fence allowanceId checked now st)
  end.

Lemma call_evolves call st : evolves st (after call st).
Proof.
  destruct call; cbn [after].
  - apply create_keeps.
  - apply claim_keeps.
  - by apply exact_keeps.
  - by apply exact_keeps.
  - by apply exact_keeps.
  - by apply exact_keeps.
  - by apply exact_keeps.
  - apply cancel_keeps.
  - apply reserve_work_keeps.
  - apply reserve_acquisition_keeps.
Qed.

Definition run_calls (calls : list RepositoryCall) st : PolicyJobMemory :=
  foldl (fun st call => after call st) st calls.

Lemma calls_evolve calls st : evolves st (run_calls calls st).
Proof.
  revert st. induction calls as [|call calls IH]; intros st; [reflexivity|].
  etrans; [apply (call_evolves call)|apply IH].
Qed.

Lemma empty_valid : memory_valid emptyPolicyMemory.
Proof. by constructor. Qed.

(** The memory after any calls to a fresh repository. *)
Definition policy_reachable st : Prop := exists calls, st = run_calls calls emptyPolicyMemory.

Lemma reachable_memory st : policy_reachable st -> memory_valid st.
Proof. intros [calls ->]. apply calls_evolve, empty_valid. Qed.
End system.
