(* ===== verification/PolicyRepositoryHistory.v ===== *)
(** * What the repository retains

    The history of every stored job is complete, finite and can be read back
    page by page under the head of any retained entry; a request keeps the one
    job it created. *)

From stdpp Require Import relations gmap.
From S2P Require Import Prelude Errors Primitives PolicyTime PolicyEvaluationJob.
From S2P Require Import PolicyJobSnapshot PolicyJobInvariant PolicyScheduler.
From S2P Require Import PolicySchedulerProofs PolicySchedulerContract PolicyJobHistory.
From S2P Require Import PolicySchedulerSystem PolicyHistoryProofs PolicyJobOutbox.
From S2P Require Import MemoryPolicyJobRepository PolicyRepositoryProofs PolicyRepositorySystem.
#[local] Open Scope Z_scope.

Section history.
Context `{PolicyDigests}.
Implicit Types (key : JobKey) (st : PolicyJobMemory).

(** ** Completeness *)

(** C16. Whatever calls it served, the repository holds for each job its whole
    history: one entry per state version, cut into pages of a hundred, each
    entry continuing the one before; replaying them from the created graph
    yields exactly the stored graph; the outbox holds exactly the intents that
    graph calls for; and the inspection every read makes accepts the job. *)
Theorem stored_history_complete st key stored :
  policy_reachable st -> memory_records st !! key = Some stored ->
  exists created first rest,
    createPolicyEvaluationJobHistoryEntry None None created op_created = Ok first /\
    fold_result replayPolicyEvaluationJobHistoryEntry created rest = Ok (stored_snapshot stored) /\
    entries_continue (first :: rest) = true /\
    (forall index, stored_pages stored !! index = page_content (first :: rest) index) /\
    pjob_stateVersion (graph_job (stored_snapshot stored)) = Z.of_nat (length (first :: rest)) /\
    stored_outbox stored = intents_of (stored_snapshot stored) /\
    inspectStored stored (fst key) (snd key) = Ok (stored_snapshot stored).
Proof.
  intros Hr%reachable_memory Hl. pose proof (mv_records _ Hr _ _ Hl) as Hv.
  pose proof (record_inspects _ _ Hv) as Hi. destruct Hv as [(created & first & rest & Hh) _ Ho _ _].
  destruct (stored_facts _ _ _ _ Hh) as (_ & _ & _ & Hver). destruct Hh as [Hg Hf Hrec Hp].
  destruct (created_entry _ _ _ _ _ Hf) as (He & _).
  destruct (recorded_replays _ _ _ _ _ Hg He Hrec) as (_ & _ & Hfold & Hcont & _ & _).
  by exists created, first, rest.
Qed.

(** ** Finiteness *)

Definition job_at key st : option PolicyEvaluationJobSnapshot := stored_snapshot <$> memory_records st !! key.

(** How many of the calls changed the job. *)
Fixpoint job_commits key (calls : list RepositoryCall) st : Z :=
  match calls with
  | [] => 0
  | call :: calls =>
      (if job_at key (after call st) === job_at key st then 0 else 1) + job_commits key calls (after call st)
  end.

Lemma call_version key call st stored :
  memory_valid st -> memory_records st !! key = Some stored ->
  exists stored', memory_records (after call st) !! key = Some stored' /\
    graph_later (stored_snapshot stored) (stored_snapshot stored') /\
    pjob_stateVersion (graph_job (stored_snapshot stored)) +
      (if job_at key (after call st) === job_at key st then 0 else 1) <=
    pjob_stateVersion (graph_job (stored_snapshot stored')).
Proof.
  intros Hv Hl. destruct (call_evolves call st Hv) as [_ Hlater].
  destruct (ml_records _ _ Hlater _ _ Hl) as (stored' & Hl' & Hs). exists stored'. split; [done|].
  destruct (mv_records _ Hv _ _ Hl) as [(created & first & rest & Hh) _ _ _ _].
  destruct (stored_facts _ _ _ _ Hh) as (Hg & _).
  pose proof (steps_later _ _ Hg Hs) as Hgl. split; [done|].
  unfold job_at. rewrite Hl, Hl'. cbn. destruct (gl_version _ _ Hgl) as [->|Hlt].
  - rewrite bool_decide_eq_true_2 by done. lia.
  - destruct (bool_decide _); lia.
Qed.

(** C33. No job lives for ever: at most 99,999 calls can change it after its
    creation, however they are chosen, and the history's last version is
    terminal. *)
Theorem job_history_finite st key stored calls :
  policy_reachable st -> memory_records st !! key = Some stored ->
  pjob_stateVersion (graph_job (stored_snapshot stored)) + job_commits key calls st <=
    MAX_POLICY_EVALUATION_JOB_HISTORY_ENTRIES /\
  (pjob_stateVersion (graph_job (stored_snapshot stored)) = MAX_POLICY_EVALUATION_JOB_HISTORY_ENTRIES ->
   pjob_terminal (graph_job (stored_snapshot stored)) <> None).
Proof.
  intros Hr%reachable_memory Hl. split; [|by apply (mv_records _ Hr _ _ Hl)].
  revert st stored Hr Hl. induction calls as [|call calls IH]; intros st stored Hv Hl; cbn [job_commits].
  - pose proof (rv_bound _ _ (mv_records _ Hv _ _ Hl)). lia.
  - destruct (call_version _ call _ _ Hv Hl) as (stored' & Hl' & _ & Hle).
    destruct (call_evolves call st Hv) as [Hv' _]. specialize (IH _ _ Hv' Hl'). lia.
Qed.

(** ** One job per request *)

Lemma calls_keep_job calls st key stored :
  memory_valid st -> memory_records st !! key = Some stored ->
  exists stored', memory_records (run_calls calls st) !! key = Some stored' /\
    graph_later (stored_snapshot stored) (stored_snapshot stored').
Proof.
  revert st stored. induction calls as [|call calls IH]; intros st stored Hv Hl.
  - exists stored. split; [done|reflexivity].
  - destruct (call_version _ call _ _ Hv Hl) as (s & Hs & Hgl & _).
    destruct (call_evolves call st Hv) as [Hv' _]. destruct (IH _ _ Hv' Hs) as (s' & Hs' & Hgl').
    exists s'. split; [done|by etrans].
Qed.

(** The record a known request is bound to. *)
Lemma bound_request st request key stored :
  memory_valid st -> memory_requests st !! ((request_scope request,
    request_evaluationRequestId request) : JobKey) = Some key ->
  memory_records st !! key = Some stored ->
  fst key = request_scope request /\
  inspectStored stored (request_scope request) (pjob_jobId (graph_job (stored_snapshot stored))) =
    Ok (stored_snapshot stored).
Proof.
  intros Hv Hq Hl. destruct (mv_requests _ Hv _ _ Hq) as (s & Hs & E). rewrite Hl in Hs. injection Hs as <-.
  injection E as Escope _. split; [done|].
  pose proof (mv_records _ Hv _ _ Hl) as Hr. pose proof (ad_job _ _ _ (rv_admitted _ _ Hr)) as ->.
  rewrite Escope. by apply record_inspects.
Qed.

Lemma createJob_bound request jobId now st :
  memory_valid st ->
  match createJob request jobId now st with
  | (Ok (_, snapshot), st') =>
      validatePolicyEvaluationRequestRecord request = Ok request /\
      EvidenceScopeSchema (request_scope request) = true /\
      OpaqueIdSchema (request_evaluationRequestId request) = true /\
      exists key stored,
        memory_requests st' !! ((request_scope request, request_evaluationRequestId request) : JobKey) =
          Some key /\
        memory_records st' !! key = Some stored /\ stored_snapshot stored = snapshot /\
        request_definitionSha256 (graph_request snapshot) = request_definitionSha256 request
  | _ => True
  end.
Proof.
  intros Hv. pose proof (createJob_outcome request jobId now st) as Ho.
  destruct (createJob request jobId now st) as [[[created snapshot]|e] st'] eqn:E; [|done].
  unfold createJob, mbind, R_bind, reads, lift, mret, R_ret, writes, rejects, lift in E.
  destruct (validatePolicyEvaluationRequestRecord request) as [request'|] eqn:Hreq; [|done].
  assert (request' = request) as ->
    by (unfold validatePolicyEvaluationRequestRecord in Hreq; by inv_res).
  destruct (parse OpaqueIdSchema jobId) as [jobId'|]; [|done].
  destruct (job_key _ _) as [requestKey|] eqn:Hrk; [|done].
  apply job_key_Ok in Hrk as (-> & Hscope & Hid). do 3 (split; [done|]).
  destruct Ho as [[-> Hnot]|(stored & [= -> ->] & (_ & _ & Hr & _) & ->)].
  - destruct (memory_requests st !! _) as [existing|] eqn:Hq.
    + exists existing. destruct (memory_records st !! existing) as [record|] eqn:Hl; [|done].
      exists record. destruct (bound_request _ _ _ _ Hv Hq Hl) as [_ Hi]. rewrite Hi in E.
      destruct (reject_when _ _) as [[]|] eqn:Hd; [|done]. injection E as <- <-.
      apply reject_when_Ok, negb_false_iff, bool_decide_eq_true in Hd. done.
    + exfalso. destruct created; [by eapply Hnot|].
      destruct (job_key _ jobId') as [key|]; [|done]. destruct (reject_when _ _); [|done].
      destruct (parse PolicyEvaluationTimeSchema now); [|done].
      destruct (createPolicyEvaluationJobGraph _ _ _ _ _); [|done].
      destruct (inspect _ _ _); [|done]. destruct (createPolicyEvaluationJobHistoryEntry _ _ _ _); [|done].
      destruct (buildPolicyEvaluationJobOutboxIntents _ _); [|done]. by destruct (inspectStored _ _ _).
  - exists (request_scope request, jobId), stored. cbn. rewrite !lookup_insert_eq, Hr. done.
Qed.

(** A request keeps the one job it created: once a creation has succeeded,
    the same request submitted again, at any later time, after any calls and
    under any other job id, creates nothing and answers with that job as it has
    become. *)
Theorem request_keeps_its_job st request jobId now created snapshot calls jobId' now' :
  policy_reachable st -> fst (createJob request jobId now st) = Ok (created, snapshot) ->
  OpaqueIdSchema jobId' = true ->
  let st' := run_calls calls (after (CreateCall request jobId now) st) in
  exists snapshot', createJob request jobId' now' st' = (Ok (false, snapshot'), st') /\
    graph_later snapshot snapshot'.
Proof.
  intros Hr%reachable_memory E Hid st'. pose proof (createJob_bound request jobId now st Hr) as Hb.
  destruct (call_evolves (CreateCall request jobId now) st Hr) as [Hv _].
  unfold st'. cbn [after] in *. destruct (createJob request jobId now st) as [r st1]. cbn [fst snd] in *. subst r.
  destruct Hb as (Hreq & Hscope & Hrid & key & stored & Hq & Hl & <- & Hdef).
  destruct (calls_evolve calls st1 Hv) as [Hv' Hlater].
  destruct (calls_keep_job calls _ _ _ Hv Hl) as (stored' & Hl' & Hgl).
  pose proof (lookup_weaken _ _ _ _ Hq (ml_requests _ _ Hlater)) as Hq'.
  destruct (bound_request _ _ _ _ Hv' Hq' Hl') as [_ Hi].
  exists (stored_snapshot stored'). split; [|done].
  unfold createJob, mbind, R_bind, reads, lift, mret, R_ret, writes, rejects, lift.
  rewrite Hreq, (parse_accepted _ _ Hid), (proj2 (job_key_Ok _ _ _) (conj eq_refl (conj Hscope Hrid))).
  rewrite Hq', Hl', Hi, reject_known; [done|].
  rewrite (gl_request _ _ Hgl), Hdef. by rewrite bool_decide_eq_true_2.
Qed.
End history.

(** * Reading a history back

    [readHistoryPage] under the head of any retained entry: the pages are those
    of the history as it was when the entry was the latest. *)

(** ** Pieces of a chain *)

Lemma entries_continue_lookup entries :
  entries_continue entries = true <->
  forall i before after, entries !! i = Some before -> entries !! S i = Some after ->
    entry_continues before after = true.
Proof.
  induction entries as [|x [|y rest] IH]; [by split| |].
  - split; [|done]. intros _ [|i] ? ? E1 E2; [done|]. by destruct i.
  - change (entries_continue (x :: y :: rest)) with (entry_continues x y && entries_continue (y :: rest)).
    rewrite andb_true_iff, IH. split.
    + intros [H1 H2] [|i] before after E1 E2; [|by apply (H2 i)]. injection E1 as <-. by injection E2 as <-.
    + intros H1. split; [by apply (H1 0%nat)|]. intros i before after E1 E2. by apply (H1 (S i)).
Qed.

Lemma entries_continue_slice entries from count :
  entries_continue entries = true -> entries_continue (take count (drop from entries)) = true.
Proof.
  rewrite !entries_continue_lookup. intros Hc i before after E1 E2.
  apply lookup_take_Some in E1 as [E1 _]. apply lookup_take_Some in E2 as [E2 _].
  rewrite lookup_drop in E1, E2. apply (Hc (from + i)%nat); [done|]. rewrite <- E2.
  apply (f_equal (fun j => entries !! j)). lia.
Qed.

Lemma forallb_lookup {A} (p : A -> bool) l :
  (forall i x, l !! i = Some x -> p x = true) -> forallb p l = true.
Proof. intros Hp. apply forallb_forall. intros x [i Hx]%list_elem_of_In%list_elem_of_lookup. by eapply Hp. Qed.

Lemma lookup_indexed {A} (l : list A) i x : indexed l !! i = Some x <-> exists y, x = (i, y) /\ l !! i = Some y.
Proof.
  unfold indexed. rewrite list_lookup_imap. destruct (l !! i) as [y|]; cbn.
  - split; [intros [= <-]; eauto|]. by intros (z & -> & [= ->]).
  - split; [done|]. by intros (z & _ & E).
Qed.

Section pages.
Context `{PolicyDigests}.
Implicit Types (key : JobKey) (st : PolicyJobMemory).

(** ** The entries of a stored job *)

Definition same_job (graph graph' : PolicyEvaluationJobSnapshot) : Prop :=
  job_reference (graph_job graph') = job_reference (graph_job graph) /\
  pjob_scope (graph_job graph') = pjob_scope (graph_job graph).

Lemma later_same_job graph graph' : graph_later graph graph' -> same_job graph graph'.
Proof.
  intros Hl. destruct (gl_identity _ _ Hl) as (Ej & _ & Ed & Es & _). unfold same_job, job_reference.
  by rewrite Ej, Ed, Es.
Qed.

(** What an entry at a position of its job's history says. *)
Record placed (entry : PolicyEvaluationJobHistoryEntry) (graph : PolicyEvaluationJobSnapshot)
    (sequence : Z) : Prop := {
  pl_valid : validatePolicyEvaluationJobHistoryEntry entry = Ok entry;
  pl_sequence : history_sequence (entry_definition entry) = sequence;
  pl_job : history_job (entry_definition entry) = job_reference (graph_job graph);
  pl_scope : history_scope (entry_definition entry) = pjob_scope (graph_job graph);
}.

Lemma entry_placed entry graph graph' :
  entry_of entry graph' -> same_job graph graph' ->
  placed entry graph (pjob_stateVersion (graph_job graph') - 1).
Proof. intros [] [Ej Es]. constructor; congruence. Qed.

Lemma recorded_placed created first rest next after :
  good_graph created -> entry_of first created -> recorded created first rest next after ->
  forall i entry, (first :: rest) !! i = Some entry ->
    placed entry created (pjob_stateVersion (graph_job created) - 1 + Z.of_nat i).
Proof.
  intros Hg Hf Hrec. induction Hrec as [|rest previous before now epoch op next after
    Hbefore IH Hn Hop Hs Hrun Hentry]; intros i entry Hi.
  - destruct i as [|i]; [|done]. injection Hi as <-.
    replace (_ - 1 + Z.of_nat 0) with (pjob_stateVersion (graph_job created) - 1) by lia.
    by apply entry_placed.
  - rewrite app_comm_cons in Hi. apply lookup_app_Some in Hi as [Hi|[Hlen Hi]]; [by apply IH|].
    destruct (recorded_replays _ _ _ _ _ Hg Hf Hbefore) as (Hgp & _ & _ & _ & _ & Hver).
    destruct (created_entry _ _ _ _ _ Hentry) as (He & _ & Hver' & _).
    assert (Hsteps : same_job created next).
    { apply later_same_job. etrans.
      - apply (steps_later created previous Hg). clear -Hbefore.
        induction Hbefore as [|? previous ? ? ? ? next ? ? IH]; [constructor|]. eapply rtc_r; [exact IH|]. by econstructor.
      - by eapply changes_later; [|eapply run_changes]. }
    destruct (i - length (first :: rest))%nat as [|j] eqn:Ej; [|by destruct j]. injection Hi as <-.
    replace (pjob_stateVersion (graph_job created) - 1 + Z.of_nat i)
      with (pjob_stateVersion (graph_job next) - 1) by (cbn [length] in *; lia).
    by apply entry_placed.
Qed.

Lemma stored_placed stored created first rest i entry :
  stored_history stored created first rest -> (first :: rest) !! i = Some entry ->
  placed entry (stored_snapshot stored) (Z.of_nat i).
Proof.
  intros Hh Hi. destruct (stored_facts _ _ _ _ Hh) as (_ & _ & _ & Hlen).
  destruct Hh as [Hg Hf Hrec _]. destruct (created_entry _ _ _ _ _ Hf) as (He & _).
  destruct (recorded_replays _ _ _ _ _ Hg He Hrec) as (_ & Hlatest & _ & _ & Hlast & Hver).
  destruct (recorded_placed _ _ _ _ _ Hg He Hrec _ _ Hi) as [Hv Hs Hj Hsc].
  assert (Hat : (first :: rest) !! length rest = Some (stored_latest stored)).
  { rewrite <- Hlast, last_lookup. done. }
  destruct (recorded_placed _ _ _ _ _ Hg He Hrec _ _ Hat) as [_ _ Hj' Hsc'].
  pose proof (eo_job _ _ Hlatest) as Ej. pose proof (eo_scope _ _ Hlatest) as Es.
  cbn [length] in Hlen. constructor; try done; [lia|congruence|congruence].
Qed.

(** ** Pages of a prefix *)

Definition prefix_page (history : list PolicyEvaluationJobHistoryEntry) (sequence : nat) (index : Z) :
    list PolicyEvaluationJobHistoryEntry :=
  take 100 (drop (Z.to_nat (index * 100)) (take (S sequence) history)).

Lemma prefix_page_slice history sequence index :
  0 <= index -> index * 100 <= Z.of_nat sequence ->
  js_slice (take 100 (drop (Z.to_nat (index * 100)) history))
    (Z.min POLICY_EVALUATION_JOB_HISTORY_PAGE_SIZE
       (Z.of_nat sequence + 1 - index * POLICY_EVALUATION_JOB_HISTORY_PAGE_SIZE)) =
  prefix_page history sequence index.
Proof.
  intros Hi Hs. unfold js_slice, prefix_page, POLICY_EVALUATION_JOB_HISTORY_PAGE_SIZE.
  rewrite (proj2 (Z.ltb_ge _ _)) by lia.
  rewrite take_take, !take_drop_commute, take_take.
  apply (f_equal (fun n => drop (Z.to_nat (index * 100)) (take n history))). lia.
Qed.

(** Where an entry of a page stands in the history. *)
Lemma prefix_page_lookup history sequence index i entry :
  prefix_page history sequence index !! i = Some entry ->
  history !! (Z.to_nat (index * 100) + i)%nat = Some entry.
Proof.
  unfold prefix_page. intros [Hi _]%lookup_take_Some. rewrite lookup_drop in Hi.
  by apply lookup_take_Some in Hi as [Hi _].
Qed.

Lemma prefix_page_length history sequence index :
  0 <= index -> index * 100 <= Z.of_nat sequence -> (sequence < length history)%nat ->
  Z.of_nat (length (prefix_page history sequence index)) =
    Z.min 100 (Z.of_nat sequence + 1 - index * 100).
Proof. intros. unfold prefix_page. rewrite length_take, length_drop, length_take. lia. Qed.

(** The page schema accepts the pages of a prefix. *)
Lemma prefix_page_valid graph history sequence anchor index :
  (forall i entry, history !! i = Some entry -> placed entry graph (Z.of_nat i)) ->
  entries_continue history = true ->
  history !! sequence = Some anchor -> 0 <= index -> index * 100 <= Z.of_nat sequence ->
  PolicyEvaluationJobHistoryPageSchema {|
    page_head := head_of anchor; page_pageIndex := index;
    page_entries := prefix_page history sequence index |} = true.
Proof.
  intros Hpl Hc Ha Hi Hs. destruct (Hpl _ _ Ha) as [Hva Hsa Hja Hsca].
  destruct (entry_head_valid _ Hva) as [Hes Hhead].
  pose proof (prefix_page_length history sequence index Hi Hs (lookup_lt_Some _ _ _ Ha)) as Hlen.
  unfold PolicyEvaluationJobHistoryPageSchema, PolicyEvaluationJobHistoryPageIndexSchema.
  cbn [page_head page_pageIndex page_entries head_of head_sequence head_entrySha256 head_graphSha256].
  rewrite Hsa. rewrite !andb_true_iff, !boundedInteger_spec.
  change POLICY_EVALUATION_JOB_HISTORY_PAGE_SIZE with 100. rewrite Hlen.
  assert (Hmax : Z.of_nat sequence < 100000).
  { unfold PolicyEvaluationJobHistoryHeadSchema, SequenceSchema in Hhead. rewrite !andb_true_iff in Hhead.
    destruct_and? Hhead. cbn in *. rewrite boundedInteger_spec in *.
    unfold MAX_POLICY_EVALUATION_JOB_HISTORY_ENTRIES in *. lia. }
  split_and!; try done; try lia.
  - change (MAX_POLICY_EVALUATION_JOB_HISTORY_ENTRIES / 100 - 1) with 999. lia.
  - apply forallb_lookup. intros i e He%prefix_page_lookup. by apply entry_head_valid, (Hpl _ _ He).
  - apply forallb_lookup. intros i x Hx. apply lookup_indexed in Hx as (e & -> & He%prefix_page_lookup).
    destruct (Hpl _ _ He) as [_ Hse Hje Hsce]. unfold entry_of_page_ok. cbn [head_of head_job head_scope].
    rewrite Hse, Hje, Hja, Hsce, Hsca, sameScope_refl, bool_decide_eq_true_2 by done.
    rewrite !andb_true_r. apply Z.eqb_eq. lia.
  - rewrite <- (take_ge history (S sequence + length history)) in Hc by lia.
    unfold prefix_page. apply entries_continue_slice.
    pose proof (entries_continue_slice _ 0 (S sequence) Hc) as H'. rewrite drop_0, take_take in H'.
    by rewrite Nat.min_l in H' by lia.
  - destruct (last _) as [final|] eqn:El; [|done]. rewrite last_lookup in El.
    apply prefix_page_lookup in El as He. destruct (Hpl _ _ He) as [_ Hse _ _]. rewrite Hse.
    destruct (Z.eqb_spec (Z.of_nat (Z.to_nat (index * 100) +
      Nat.pred (length (prefix_page history sequence index)))) (Z.of_nat sequence)) as [E|E]; [|done].
    apply Nat2Z.inj in E. rewrite E, Ha in He. injection He as <-.
    by rewrite !bool_decide_eq_true_2.
Qed.

Lemma map_result_known {A B} (f : A -> res B) (g : A -> B) l :
  (forall x, x ∈ l -> f x = Ok (g x)) -> exists ys, map_result f l = Ok ys.
Proof.
  intros Hf. exists (g <$> l). apply map_result_Forall2, Forall2_fmap_r, Forall_Forall2_diag, Forall_forall, Hf.
Qed.

(** C32. A history can be read back under the head of any entry the repository
    retains, also one the job has since left behind: every page index up to the
    head answers with exactly that page of the history as it was when the head
    was the latest entry, unless the encoding of the page exceeds the byte
    ceiling of pages; of all the checks of the read this one alone can refuse. *)
Theorem history_pages_read_back st key stored :
  policy_reachable st -> memory_records st !! key = Some stored ->
  exists created first rest,
    fold_result replayPolicyEvaluationJobHistoryEntry created rest = Ok (stored_snapshot stored) /\
    Z.of_nat (length (first :: rest)) = pjob_stateVersion (graph_job (stored_snapshot stored)) /\
    forall sequence anchor index,
      (first :: rest) !! sequence = Some anchor -> 0 <= index -> index * 100 <= Z.of_nat sequence ->
      let page := {|
        page_head := head_of anchor; page_pageIndex := index;
        page_entries := prefix_page (first :: rest) sequence index |} in
      readHistoryPage (head_of anchor) index st =
        if MAX_POLICY_EVALUATION_JOB_HISTORY_PAGE_BYTES <? pageBytes page
        then Throw PolicyEvaluationJobHistoryError else Ok page.
Proof.
  intros Hr%reachable_memory Hl. pose proof (mv_records _ Hr _ _ Hl) as Hv.
  pose proof (record_inspects _ _ Hv) as Hins. destruct Hv as [(created & first & rest & Hh) Had _ _ _].
  destruct (stored_facts _ _ _ _ Hh) as (_ & _ & _ & Hver).
  pose proof Hh as [Hg Hf Hrec Hp]. destruct (created_entry _ _ _ _ _ Hf) as (He & _).
  destruct (recorded_replays _ _ _ _ _ Hg He Hrec) as (_ & _ & Hfold & Hcont & _ & _).
  exists created, first, rest. split; [done|]. split; [done|].
  intros sequence anchor index Ha Hi Hs page.
  pose proof (stored_placed _ _ _ _ _ _ Hh Ha) as [Hva Hsa Hja Hsca].
  destruct (entry_head_valid _ Hva) as [_ Hhead].
  pose proof (prefix_page_valid _ _ _ _ _ (fun i e => stored_placed _ _ _ _ i e Hh) Hcont Ha Hi Hs) as Hpage.
  unfold readHistoryPage. rewrite (parse_accepted _ _ Hhead). cbn [mbind result_bind].
  assert (Hread : read (head_scope (head_of anchor)) (jobRef_jobId (head_job (head_of anchor))) st =
    Ok (key, stored, stored_snapshot stored)).
  { cbn [head_of head_scope head_job]. rewrite Hja, Hsca. unfold job_reference. cbn [jobRef_jobId].
    rewrite (ad_scope _ _ _ Had), (ad_job _ _ _ Had). unfold read.
    rewrite (proj2 (job_key_Ok _ _ key)).
    - cbn [mbind result_bind]. by rewrite Hl, Hins.
    - unfold PolicyEvaluationJobHistoryHeadSchema, PolicyEvaluationJobReferenceSchema in Hhead.
      rewrite !andb_true_iff in Hhead. cbn [head_of head_scope head_job] in Hhead.
      rewrite Hja, Hsca in Hhead. unfold job_reference in Hhead. cbn [jobRef_jobId] in Hhead.
      rewrite (ad_scope _ _ _ Had), (ad_job _ _ _ Had) in Hhead.
      split; [by destruct key|tauto]. }
  rewrite Hread. cbn [mbind result_bind].
  assert (Hat : entry_at stored (head_sequence (head_of anchor)) = Some anchor).
  { cbn [head_of head_sequence]. rewrite Hsa.
    destruct (pages_hold_lookup _ _ (Z.of_nat sequence) anchor Hp ltac:(lia)) as (held & Hpg & Hent).
    { by rewrite Nat2Z.id. }
    unfold entry_at, page_of. change POLICY_EVALUATION_JOB_HISTORY_PAGE_SIZE with 100. rewrite Hpg. exact Hent. }
  rewrite Hat, (history_head _ Hva). cbn [mbind result_bind].
  rewrite reject_known by (by rewrite bool_decide_eq_true_2). cbn [mbind result_bind].
  rewrite (Hp index). unfold page_content.
  rewrite decide_True by (pose proof (lookup_lt_Some _ _ _ Ha); lia).
  cbn [head_of head_sequence]. rewrite Hsa, prefix_page_slice by done. fold (head_of anchor).
  unfold validatePolicyEvaluationJobHistoryPage. rewrite (parse_accepted _ _ Hhead). cbn [mbind result_bind].
  rewrite (parse_accepted _ _ Hpage). cbn [mbind result_bind page_head page_entries].
  rewrite (reject_known (head_of anchor !== head_of anchor)) by (by rewrite bool_decide_eq_true_2). cbn [mbind result_bind].
  destruct (map_result_known validatePolicyEvaluationJobHistoryEntry id
    (prefix_page (first :: rest) sequence index)) as [ys ->].
  { intros e [i Hin%prefix_page_lookup]%list_elem_of_lookup. by apply (stored_placed _ _ _ _ _ _ Hh Hin). }
  cbn [mbind result_bind]. fold page. unfold reject_when. by destruct (_ <? _).
Qed.
End pages.
