(* ===== verification/PolicyRepositoryCommit.v ===== *)
(** * Accepted transitions commit

    A mutation checks its own work five times over before it writes: the graph,
    the entry, the replay of the entry, the page and the outbox.  With digests
    that look like SHA-256 and entries within their size, none of these checks
    refuses: a transition the scheduler accepts is committed. *)

From stdpp Require Import relations gmap.
From S2P Require Import Prelude Errors Primitives PolicyTime PolicyEvaluationJob.
From S2P Require Import PolicyJobSnapshot PolicyJobInvariant PolicyScheduler.
From S2P Require Import PolicySchedulerProofs PolicySchedulerContract PolicyJobHistory.
From S2P Require Import PolicySchedulerSystem PolicyHistoryProofs PolicyJobOutbox.
From S2P Require Import MemoryPolicyJobRepository PolicyRepositoryProofs PolicyRepositorySystem.
#[local] Open Scope Z_scope.

(** ** Operations that ran *)

(** What the contract demands of an operation's identifiers besides its fence. *)
Definition identified (operation : PolicyOperation) : bool :=
  match operation with
  | op_reserve _ reservationId _ => OpaqueIdSchema reservationId
  | op_seal _ _ | op_complete _ _ _ | op_recovery _ | op_created => false
  | _ => true
  end.

(** The entry of an operation names its job. *)
Definition about_job (graph : PolicyEvaluationJobSnapshot) (operation : PolicyOperation) : Prop :=
  optional (fun fence => pfence_jobId fence === pjob_jobId (graph_job graph)) (operation_fence operation) = true /\
  match operation with
  | op_reserve _ _ delta => no_work delta = false
  | op_cancel intent => pcancel_jobId intent = pjob_jobId (graph_job graph) /\
      pcancel_scope intent = pjob_scope (graph_job graph)
  | _ => True
  end.

Lemma live_fence_valid graph lease :
  graph_valid graph -> pjob_currentLease (graph_job graph) = Some lease ->
  PolicyEvaluationWorkerMutationFenceSchema (please_mutationFence lease) = true /\
  pfence_jobId (please_mutationFence lease) = pjob_jobId (graph_job graph).
Proof.
  intros Hg El. destruct (live_lease _ _ Hg El) as (_ & _ & Hb & _). split; [apply Hb|apply Hb].
Qed.

Lemma claim_fence_valid graph now epoch attemptId leaseId workerId next lease :
  claimPolicyEvaluationJob graph now epoch attemptId leaseId workerId = Ok next ->
  pjob_currentLease (graph_job next) = Some lease ->
  PolicyEvaluationWorkerMutationFenceSchema (please_mutationFence lease) = true /\
  pfence_jobId (please_mutationFence lease) = pjob_jobId (graph_job graph).
Proof.
  intros E El. assert (PolicyEvaluationJobSnapshotSchema next = true /\
    pjob_jobId (graph_job next) = pjob_jobId (graph_job graph)) as [Hv Ej].
  { unfold claimPolicyEvaluationJob, increment, parse_snapshot in E. inv_res. done. }
  rewrite <- Ej. apply live_fence_valid; [by apply graph_valid_iff|done].
Qed.

(** Arguments the transitions have parsed. *)
Lemma operation_ran graph now epoch operation next :
  good_graph graph -> identified operation = true -> run_operation graph now epoch operation = Ok next ->
  OperationSchema operation = true /\ about_job graph operation.
Proof.
  intros [Hg%graph_valid_iff _] Hid E. unfold OperationSchema, about_job.
  assert (Hf : optional PolicyEvaluationWorkerMutationFenceSchema (operation_fence operation) = true /\
    optional (fun fence => pfence_jobId fence === pjob_jobId (graph_job graph)) (operation_fence operation) = true).
  { destruct (worker_fence operation) as [fence|] eqn:Ew.
    - destruct (worker_accepted _ _ _ _ _ _ E Ew) as [lease []]. subst fence.
      destruct (live_fence_valid _ _ Hg ac_lease) as [Hs Hj].
      assert (operation_fence operation = Some (please_mutationFence lease)) as -> by (by destruct operation).
      cbn. by rewrite Hs, Hj, bool_decide_eq_true_2.
    - destruct operation; try done. cbn [run_operation] in E.
      apply bind_Ok in E as (g & Hc & E). apply bind_Ok in E as ([] & Hl%reject_when_Ok & [= ->]).
      apply negb_false_iff, bool_decide_eq_true in Hl.
      destruct (pjob_currentLease (graph_job next)) as [lease|] eqn:El; [|done]. injection Hl as <-.
      destruct (claim_fence_valid _ _ _ _ _ _ _ _ Hc El) as [Hs Hj]. cbn.
      by rewrite Hs, Hj, bool_decide_eq_true_2. }
  destruct Hf as [Hs Hj]. rewrite Hs, Hj. cbn [andb].
  destruct operation; try done; cbn [identified run_operation] in *.
  - unfold reservePolicyEvaluationUsage, refuse_when in E. rewrite Hid. inv_res. done.
  - unfold reservePolicyEvaluationAcquisition, refuse_when in E. inv_res. done.
  - unfold settlePolicyEvaluationAcquisition, refuse_when in E. inv_res.
    destruct (outstanding_allowance _); [|done]. inv_res. destruct usage; cbn; [|by rewrite andb_true_r].
    inv_res. rewrite andb_true_iff. done.
  - unfold cancelPolicyEvaluationJob, refuse_when in E. apply bind_Ok in E as (g & [_ ->]%parse_Ok & E).
    apply bind_Ok in E as (i & [Hi ->]%parse_Ok & E). apply bind_Ok in E as ([] & Hr%reject_when_Ok & _).
    split; [done|]. split; [done|]. apply orb_false_iff in Hr as [Hr1 Hr2].
    rewrite negb_false_iff in Hr1, Hr2. by apply bool_decide_eq_true in Hr1; apply sameScope_spec in Hr2.
Qed.

Section commit.
Context `{PolicyDigests}.
Implicit Types (key : JobKey) (st : PolicyJobMemory).

(** Digests are SHA-256 in hexadecimal. *)
Record digests_sound : Prop := {
  ds_graph : forall graph, Sha256Schema (digestGraph graph) = true;
  ds_entry : forall definition, Sha256Schema (digestEntry definition) = true;
}.

(** The entry that would record [next] after [stored] is too large to retain. *)
Definition over_ceiling (stored : StoredPolicyJob) (next : PolicyEvaluationJobSnapshot) : Prop :=
  exists entry operation,
    createPolicyEvaluationJobHistoryEntry (Some (stored_snapshot stored)) (Some (stored_latest stored))
      next operation = Throw PolicyEvaluationJobHistoryError /\
    PolicyEvaluationJobHistoryEntrySchema entry = true /\
    history_operation (entry_definition entry) = operation /\
    history_sequence (entry_definition entry) + 1 = pjob_stateVersion (graph_job next) /\
    digestPolicyEvaluationJobGraph next = Ok (history_graphSha256 (entry_definition entry)) /\
    MAX_POLICY_EVALUATION_JOB_HISTORY_ENTRY_BYTES < entryBytes entry.

Lemma admitted_later graph graph' scope id :
  admitted graph scope id -> graph_later graph graph' ->
  PolicyEvaluationJobSnapshotSchema graph' = true -> admitted graph' scope id.
Proof.
  intros [] Hl Hs. destruct (gl_identity _ _ Hl) as (Ej & Er & Ed & Es & _).
  constructor; try done; rewrite ?(gl_request _ _ Hl), ?Ej, ?Er, ?Ed, ?Es; done.
Qed.

Lemma job_parts graph :
  PolicyEvaluationJobSnapshotSchema graph = true ->
  OpaqueIdSchema (pjob_jobId (graph_job graph)) = true /\
  Sha256Schema (pjob_definitionSha256 (graph_job graph)) = true /\
  EvidenceScopeSchema (pjob_scope (graph_job graph)) = true /\
  PolicyEvaluationTimeSchema (pjob_updatedAt (graph_job graph)) = true /\
  1 <= pjob_stateVersion (graph_job graph).
Proof.
  intros Hg%graph_valid_iff. destruct (gv_job _ Hg). unfold identity_ok in jv_identity.
  rewrite !andb_true_iff in jv_identity. split_and!; tauto || lia.
Qed.

(** ** The entry of an operation *)

Lemma create_entry_run previous before next operation scope id :
  digests_sound -> admitted previous scope id -> entry_of before previous -> graph_later previous next ->
  PolicyEvaluationJobSnapshotSchema next = true ->
  pjob_stateVersion (graph_job next) = pjob_stateVersion (graph_job previous) + 1 ->
  pjob_stateVersion (graph_job next) <= MAX_POLICY_EVALUATION_JOB_HISTORY_ENTRIES ->
  OperationSchema operation = true -> is_created operation = false ->
  about_job previous operation -> cancellation_stamped (pjob_updatedAt (graph_job next)) operation ->
  exists entry,
    PolicyEvaluationJobHistoryEntrySchema entry = true /\
    history_operation (entry_definition entry) = operation /\
    history_sequence (entry_definition entry) + 1 = pjob_stateVersion (graph_job next) /\
    digestPolicyEvaluationJobGraph next = Ok (history_graphSha256 (entry_definition entry)) /\
    createPolicyEvaluationJobHistoryEntry (Some previous) (Some before) next operation =
      if MAX_POLICY_EVALUATION_JOB_HISTORY_ENTRY_BYTES <? entryBytes entry
      then Throw PolicyEvaluationJobHistoryError else Ok entry.
Proof.
  intros [Hdg Hde] Hp [] Hl Hs Hver Hmax Hop Hnc [Hfence Habout] Hstamp.
  pose proof (admitted_later _ _ _ _ Hp Hl Hs) as Hn.
  destruct (job_parts _ Hs) as (Hid & Hsha & Hscope & Htime & _).
  destruct (job_parts _ (ad_schema _ _ _ Hp)) as (_ & _ & _ & _ & Hpos).
  destruct (gl_identity _ _ Hl) as (Ej & _ & Ed & Es & _).
  destruct (entry_head_valid _ eo_valid) as [Hbefore _].
  unfold createPolicyEvaluationJobHistoryEntry, digestHistoryEntry.
  rewrite (digest_graph_admitted _ _ _ Hn). cbn [mbind result_bind digest_previous].
  rewrite (digest_graph_admitted _ _ _ Hp) in eo_digest |- *. injection eo_digest as Edig.
  cbn [mbind result_bind validate_predecessor]. rewrite eo_valid.
  cbn [mbind result_bind present Bool.eqb negb reject_when].
  rewrite reject_known.
  2:{ apply negb_false_iff. unfold continues_graph, job_reference in *.
      rewrite <- Edig, eo_version, eo_job, eo_scope, Hver, Ej, Ed, Es, !Z.eqb_refl, sameScope_refl.
      by rewrite !bool_decide_eq_true_2. }
  cbn [mbind result_bind].
  set (definition := entry_definition_of _ _ _ _ _ _).
  assert (Hdef : PolicyEvaluationJobHistoryEntryDefinitionSchema definition = true).
  { unfold PolicyEvaluationJobHistoryEntryDefinitionSchema, PolicyEvaluationJobReferenceSchema, SequenceSchema.
    unfold PolicyEvaluationJobHistoryEntrySchema in Hbefore. apply andb_true_iff in Hbefore as [_ Hbefore].
    cbn. rewrite Hscope, Hid, Hsha, Hbefore, !Hdg, Htime, Hop, Hnc.
    assert (Eseq : (pjob_stateVersion (graph_job next) - 1 =? 0) = false) by (apply Z.eqb_neq; lia).
    rewrite Eseq. cbn. rewrite !andb_true_iff, !boundedInteger_spec.
    split_and!; try lia. unfold operation_of_entry_ok. cbn. rewrite Ej, Hfence.
    destruct operation; try done; cbn [andb].
    - apply negb_true_iff, Habout.
    - destruct Habout as [-> ->]. rewrite Es, sameScope_refl, <- (Hstamp intent eq_refl).
      by rewrite !bool_decide_eq_true_2. }
  rewrite (parse_accepted _ _ Hdef). cbn [mbind result_bind].
  exists {| entry_definition := definition; entry_entrySha256 := digestEntry definition |}.
  unfold validatePolicyEvaluationJobHistoryEntry, digestHistoryEntry. cbn [entry_definition entry_entrySha256].
  set (entry := {| entry_definition := definition; entry_entrySha256 := digestEntry definition |}).
  assert (Hentry : PolicyEvaluationJobHistoryEntrySchema entry = true)
    by (unfold PolicyEvaluationJobHistoryEntrySchema, entry; cbn; by rewrite Hdef, Hde).
  rewrite (parse_accepted _ _ Hentry). cbn [mbind result_bind entry entry_definition entry_entrySha256].
  rewrite (parse_accepted _ _ Hdef). cbn [mbind result_bind].
  rewrite (reject_known (digestEntry definition !== digestEntry definition)) by (by rewrite bool_decide_eq_true_2).
  cbn [mbind result_bind]. split; [done|]. split; [done|]. split; [cbn; lia|].
  split; [done|]. unfold reject_when. by destruct (_ <? _).
Qed.

(** ** The last slot *)

Lemma exhaust_run graph now :
  graph_valid graph -> tick (graph_job graph) now -> pjob_terminal (graph_job graph) = None ->
  pjob_stateVersion (graph_job graph) = MAX_POLICY_EVALUATION_JOB_HISTORY_ENTRIES - 1 ->
  exists ended, exhaustPolicyEvaluationJobHistory graph now = Ok ended /\
    pjob_status (graph_job ended) = job_budget_exhausted.
Proof.
  intros Hg Ht Hopen Hver. pose proof (exhaust_sound graph now Hg (tk_now _ _ Ht)) as Hs.
  unfold exhaustPolicyEvaluationJobHistory, parse_snapshot in *.
  rewrite (parse_accepted _ _ (proj2 (graph_valid_iff _) Hg)) in Hs |- *. cbn [mbind result_bind] in Hs |- *.
  rewrite (parse_accepted _ _ (tk_now _ _ Ht)) in Hs |- *. cbn [mbind result_bind] in Hs |- *.
  assert (Eg : present (pjob_terminal (graph_job graph)) ||
    negb (pjob_stateVersion (graph_job graph) =? MAX_POLICY_EVALUATION_JOB_HISTORY_ENTRIES - 1) ||
    (time now <? time (pjob_updatedAt (graph_job graph))) = false).
  { rewrite Hopen, Hver, Z.eqb_refl. cbn. apply Z.ltb_ge, Ht. }
  rewrite (reject_known _ _ Eg) in Hs |- *. cbn [mbind result_bind] in Hs |- *.
  destruct (chargeUncertainPolicyEvaluationAcquisition graph) as [charged b].
  unfold parse, parse_with in Hs |- *.
  destruct (PolicyEvaluationJobSnapshotSchema _); [|destruct (Hs : False)]. eexists. split; [reflexivity|done].
Qed.

(** ** Intents *)

Lemma later_intents previous next :
  good_graph previous -> graph_later previous next -> good_graph next ->
  pjob_terminal (graph_job previous) = None ->
  intents_of previous ++ created_intents (Some previous) next ++ cancellation_intents (Some previous) next ++
    terminal_intents (Some previous) next = intents_of next.
Proof.
  intros [Hg%graph_valid_iff Hun] Hl _ Hopen. destruct (gl_identity _ _ Hl) as (Ej & Er & Ed & Es & Ec & _).
  assert (Hc : graph_cancellation previous = None).
  { by eapply open_uncancelled. }
  unfold intents_of, created_intents, cancellation_intents, terminal_intents.
  cbn [mbind option_bind present]. rewrite Hc, Hopen. cbn [app].
  unfold outbox_intent, aggregate_id, outbox_payload. by rewrite Ej, Er, Ed, Es, Ec.
Qed.

(** ** One commit *)

Lemma moves_open graph now next :
  good_graph graph -> moves graph now next ->
  tick (graph_job graph) now /\ pjob_terminal (graph_job graph) = None /\
  pjob_stateVersion (graph_job next) = pjob_stateVersion (graph_job graph) + 1 /\
  pjob_updatedAt (graph_job next) = now.
Proof.
  intros Hg Hm. destruct (moves_stamped _ _ _ Hm) as [Enow Ever]. split; [by destruct Hm|]. split; [|done].
  destruct (pjob_terminal (graph_job graph)) as [t|] eqn:Et; [|done]. exfalso.
  pose proof (gl_terminal _ _ (changes_later _ _ _ Hg (or_intror Hm))) as Hsame.
  rewrite Et in Hsame. rewrite Hsame in Ever by done. lia.
Qed.

(** A move of a stored job can always be committed, unless its entry is too large. *)
Lemma commit_runs key stored now epoch operation result :
  digests_sound -> record_valid key stored -> PolicyEvaluationTimeSchema now = true ->
  OperationSchema operation = true -> about_job (stored_snapshot stored) operation ->
  cancellation_stamped now operation ->
  run_operation (stored_snapshot stored) now epoch operation = Ok result ->
  moves (stored_snapshot stored) now result -> history_exhausted result = false ->
  over_ceiling stored result /\
    createPolicyEvaluationJobHistoryEntry (Some (stored_snapshot stored)) (Some (stored_latest stored))
      result operation = Throw PolicyEvaluationJobHistoryError \/
  exists entry intents,
    createPolicyEvaluationJobHistoryEntry (Some (stored_snapshot stored)) (Some (stored_latest stored))
      result operation = Ok entry /\
    history_operation (entry_definition entry) = operation /\
    replayPolicyEvaluationJobHistoryEntry (stored_snapshot stored) entry = Ok result /\
    buildPolicyEvaluationJobOutboxIntents (Some (stored_snapshot stored)) result = Ok intents /\
    inspectStored (extend_record stored result entry intents) (fst key) (snd key) = Ok result.
Proof.
  intros Hd Hr Hn Hop Habout Hstamp Hrun Hm Hlast.
  pose proof Hr as [(created & first & rest & Hh) Ha Ho Hb _].
  destruct (stored_facts _ _ _ _ Hh) as (Hg & He & _ & _).
  pose proof (changes_later _ _ _ Hg (or_intror Hm)) as Hl.
  pose proof (changes_good _ _ _ Hg (or_intror Hm)) as Hgn.
  destruct (moves_open _ _ _ Hg Hm) as (_ & Hopen & Ever & Enow).
  pose proof (admitted_later _ _ _ _ Ha Hl (proj1 Hgn)) as Han.
  assert (Hmax : pjob_stateVersion (graph_job result) <= MAX_POLICY_EVALUATION_JOB_HISTORY_ENTRIES).
  { destruct (Z.eq_dec (pjob_stateVersion (graph_job (stored_snapshot stored)))
      MAX_POLICY_EVALUATION_JOB_HISTORY_ENTRIES) as [E|E]; [|lia]. by destruct (rv_last _ _ Hr E). }
  destruct (create_entry_run (stored_snapshot stored) (stored_latest stored) result operation (fst key) (snd key))
    as (entry & Hes & Heo & Hseq & Hdig & Hentry); try done.
  { exact (proj1 Hgn). }
  { by destruct operation. }
  { by rewrite Enow. }
  destruct (Z.ltb_spec MAX_POLICY_EVALUATION_JOB_HISTORY_ENTRY_BYTES (entryBytes entry)) as [Hbig|_].
  { left. split; [|done]. by exists entry, operation. }
  right. exists entry, (created_intents (Some (stored_snapshot stored)) result ++
    cancellation_intents (Some (stored_snapshot stored)) result ++
    terminal_intents (Some (stored_snapshot stored)) result).
  split; [done|]. split; [by apply (created_entry _ _ _ _ _ Hentry)|].
  split; [by eapply entry_replays|]. split; [by eapply build_intents|].
  pose proof (later_intents _ _ Hg Hl Hgn Hopen) as Hintents. rewrite <- Ho in Hintents.
  assert (Hc : commits stored result entry (extend_record stored result entry
    (created_intents (Some (stored_snapshot stored)) result ++
     cancellation_intents (Some (stored_snapshot stored)) result ++
     terminal_intents (Some (stored_snapshot stored)) result))).
  { constructor; try done; [by exists now, epoch, operation|by eexists]. }
  destruct (commit_valid _ _ _ _ _ Hr Hc Han) as [Hv _]. by apply record_inspects in Hv.
Qed.

(** ** Accepted transitions *)

(** [work] either changes nothing or runs the operation that is recorded. *)
Definition settles (work : Work) (operation : PolicyEvaluationJobSnapshot -> res PolicyOperation) : Prop :=
  forall graph now epoch next, work graph now epoch = Ok next ->
    next = graph \/
    exists recorded_as, operation next = Ok recorded_as /\ identified recorded_as = true /\
      cancellation_stamped now recorded_as /\ run_operation graph now epoch recorded_as = Ok next.

(** The graph that is committed for [next]: itself, or the job ended on the last slot. *)
Definition ends_as (next result : PolicyEvaluationJobSnapshot) : Prop :=
  result = next \/ history_exhausted next = true /\ pjob_status (graph_job result) = job_budget_exhausted.

(** What a prepared mutation leaves. *)
Lemma prepare_runs key stored work operation now epoch next :
  digests_sound -> record_valid key stored -> settles work operation ->
  PolicyEvaluationTimeSchema now = true -> work (stored_snapshot stored) now epoch = Ok next ->
  next = stored_snapshot stored \/
  pjob_stateVersion (graph_job next) <> pjob_stateVersion (graph_job (stored_snapshot stored)) /\
  admitted next (fst key) (snd key) /\
  exists result, ends_as next result /\
    (over_ceiling stored result /\
       prepare stored (stored_snapshot stored) next operation (fst key) (snd key) now =
         Throw PolicyEvaluationJobHistoryError \/
     exists entry intents,
       prepare stored (stored_snapshot stored) next operation (fst key) (snd key) now =
         Ok (result, entry, extend_record stored result entry intents) /\
       OperationSchema (history_operation (entry_definition entry)) = true).
Proof.
  intros Hd Hr Hsettles Hn Hw. pose proof Hr as [(created & first & rest & Hh) Ha _ Hb _].
  destruct (stored_facts _ _ _ _ Hh) as (Hg & _).
  destruct (Hsettles _ _ _ _ Hw) as [->|(op & Eop & Hid & Hstamp & Hrun)]; [by left|].
  destruct (operation_ran _ _ _ _ _ Hg Hid Hrun) as [Hop Habout].
  destruct (run_changes _ _ _ _ _ Hg Hn Hop Hstamp Hrun) as [->|Hm]; [by left|]. right.
  destruct (moves_open _ _ _ Hg Hm) as (Ht & Hopen & Ever & _).
  pose proof (changes_later _ _ _ Hg (or_intror Hm)) as Hl.
  pose proof (changes_good _ _ _ Hg (or_intror Hm)) as Hgn.
  split; [lia|]. split; [exact (admitted_later _ _ _ _ Ha Hl (proj1 Hgn))|].
  unfold prepare. destruct (history_exhausted next) eqn:Hex.
  - assert (Hver : pjob_stateVersion (graph_job (stored_snapshot stored)) =
      MAX_POLICY_EVALUATION_JOB_HISTORY_ENTRIES - 1).
    { unfold history_exhausted in Hex. apply andb_true_iff in Hex as [_ Hex%Z.eqb_eq]. lia. }
    destruct (exhaust_run _ _ (proj1 (graph_valid_iff _) (proj1 Hg)) Ht Hopen Hver) as (ended & Hended & Hst).
    assert (Hm' : moves (stored_snapshot stored) now ended).
    { pose proof (exhaust_sound (stored_snapshot stored) now (proj1 (graph_valid_iff _) (proj1 Hg)) Hn) as Hs.
      by rewrite Hended in Hs. }
    assert (Hae : admitted ended (fst key) (snd key)).
    { eapply admitted_later; [exact Ha|exact (changes_later _ _ _ Hg (or_intror Hm'))|].
      exact (proj1 (changes_good _ _ _ Hg (or_intror Hm'))). }
    rewrite Hended. cbn [mbind result_bind]. rewrite (inspect_admitted _ _ _ Hae). cbn [mbind result_bind].
    exists ended. split; [by right|].
    destruct (commit_runs key stored now epoch op_history_limit ended)
      as [[Hbig He]|(entry & intents & He & Eo & Hrep & Hbuild & Hins)]; try done.
    { by eapply exhausted_terminal. }
    { left. by rewrite He. }
    right. exists entry, intents. split; [|by rewrite Eo].
    rewrite He. cbn [mbind result_bind]. rewrite Hrep. cbn [mbind result_bind]. rewrite Hbuild.
    cbn [mbind result_bind]. by rewrite Hins.
  - cbn [mbind result_bind]. rewrite Eop. cbn [mbind result_bind]. exists next. split; [by left|].
    destruct (commit_runs key stored now epoch op next)
      as [[Hbig He]|(entry & intents & He & Eo & Hrep & Hbuild & Hins)]; try done.
    { left. by rewrite He. }
    right. exists entry, intents. split; [|by rewrite Eo].
    rewrite He. cbn [mbind result_bind]. rewrite Hrep. cbn [mbind result_bind]. rewrite Hbuild.
    cbn [mbind result_bind]. by rewrite Hins.
Qed.

Lemma mutate_runs work operation key st stored now next :
  digests_sound -> memory_valid st -> memory_records st !! key = Some stored -> settles work operation ->
  PolicyEvaluationTimeSchema now = true ->
  work (stored_snapshot stored) now (memory_recoveryEpoch st) = Ok next ->
  exists result, ends_as next result /\
    (over_ceiling stored result /\
       mutate (fst key) (snd key) work operation now st = (Throw PolicyEvaluationJobHistoryError, st) \/
     exists st', mutate (fst key) (snd key) work operation now st = (Ok result, st') /\
       (stored_snapshot <$> memory_records st' !! key) = Some result).
Proof.
  intros Hd Hv Hl Hsettles Hn Hw. pose proof (mv_records _ Hv _ _ Hl) as Hr.
  pose proof (rv_admitted _ _ Hr) as Ha. pose proof (record_inspects _ _ Hr) as Hins.
  destruct (job_parts _ (ad_schema _ _ _ Ha)) as (Hid & _ & Hscope & _).
  rewrite (ad_job _ _ _ Ha) in Hid. rewrite (ad_scope _ _ _ Ha) in Hscope.
  assert (Hread : read (fst key) (snd key) st = Ok (key, stored, stored_snapshot stored)).
  { unfold read. rewrite (proj2 (job_key_Ok _ _ key)) by (destruct key; done).
    cbn [mbind result_bind]. by rewrite Hl, Hins. }
  unfold mutate, mbind, R_bind, reads, lift, mret, R_ret, writes, rejects, lift.
  rewrite Hread, (parse_accepted _ _ Hn), Hw.
  destruct (prepare_runs key stored work operation now (memory_recoveryEpoch st) next)
    as [->|(Hver & Han & result & Hres & Hcase)]; try done.
  - exists (stored_snapshot stored). split; [by left|]. right.
    rewrite (inspect_admitted _ _ _ Ha), Z.eqb_refl, reject_known by (by rewrite bool_decide_eq_true_2).
    exists st. rewrite Hl. done.
  - exists result. split; [exact Hres|]. rewrite (inspect_admitted _ _ _ Han), (proj2 (Z.eqb_neq _ _) Hver).
    destruct Hcase as [[Hbig ->]|(entry & intents & -> & Hop)]; [by left|]. right.
    destruct (history_operation (entry_definition entry)) eqn:Eop;
      try (eexists; split; [reflexivity|];
        cbn [memory_records set_record]; by rewrite lookup_insert_eq).
    unfold reservationKey. rewrite (proj2 (job_key_Ok _ _ key)) by (destruct key; done).
    cbn [mbind result_bind]. unfold OperationSchema in Hop. rewrite !andb_true_iff in Hop.
    rewrite (parse_accepted OpaqueIdSchema reservationId) by tauto. cbn [mbind result_bind].
    eexists; split; [reflexivity|].
    cbn [memory_records set_record set_reservation]. by rewrite lookup_insert_eq.
Qed.

(** ** The methods that mutate *)

Record Mutation : Type := {
  mutation_scope : EvidenceScope;
  mutation_job : string;
  mutation_work : Work;
  mutation_operation : PolicyEvaluationJobSnapshot -> res PolicyOperation;
  mutation_now : PolicyEvaluationTime;
}.

Definition run_mutation (m : Mutation) : R PolicyEvaluationJobSnapshot :=
  mutate (mutation_scope m) (mutation_job m) (mutation_work m) (mutation_operation m) (mutation_now m).

(** The mutation a method call amounts to; a reservation names itself with an
    identifier the process draws, so that it is well formed. *)
Definition mutation_of (call : RepositoryCall) : option Mutation :=
  match call with
  | ClaimCall scope jobId workerId attemptId leaseId now => Some {|
      mutation_scope := scope; mutation_job := jobId; mutation_now := now;
      mutation_work := fun snapshot now epoch =>
        claimPolicyEvaluationJob snapshot now epoch attemptId leaseId workerId;
      mutation_operation := fun next =>
        match pjob_currentLease (graph_job next) with
        | Some lease => Ok (op_claim (please_mutationFence lease))
        | None => Throw TypeError
        end |}
  | HeartbeatCall scope fence now => Some {|
      mutation_scope := scope; mutation_job := pfence_jobId fence; mutation_now := now;
      mutation_work := fun snapshot now epoch => heartbeatPolicyEvaluationJob snapshot now epoch fence;
      mutation_operation := fun _ => Ok (op_heartbeat fence) |}
  | ReserveUsageCall scope fence delta reservationId now =>
      if OpaqueIdSchema reservationId then Some {|
        mutation_scope := scope; mutation_job := pfence_jobId fence; mutation_now := now;
        mutation_work := fun snapshot now epoch => reservePolicyEvaluationUsage snapshot now epoch fence delta;
        mutation_operation := fun _ => Ok (op_reserve fence reservationId delta) |}
      else None
  | InterruptCall scope fence reason now => Some {|
      mutation_scope := scope; mutation_job := pfence_jobId fence; mutation_now := now;
      mutation_work := fun snapshot now epoch => interruptPolicyEvaluationJob snapshot now epoch fence reason;
      mutation_operation := fun _ => Ok (op_interrupt fence reason) |}
  | ReclaimCall scope jobId now => Some {|
      mutation_scope := scope; mutation_job := jobId; mutation_now := now;
      mutation_work := fun snapshot now epoch => reclaimPolicyEvaluationJob snapshot now epoch;
      mutation_operation := fun _ => Ok op_reclaim |}
  | SettleCall scope fence allowanceId usage now => Some {|
      mutation_scope := scope; mutation_job := pfence_jobId fence; mutation_now := now;
      mutation_work := fun snapshot now epoch =>
        settlePolicyEvaluationAcquisition snapshot now epoch fence allowanceId usage;
      mutation_operation := fun _ => Ok (op_settle_acquisition fence allowanceId usage) |}
  | CancelCall scope jobId principalId cancellationId reason now => Some {|
      mutation_scope := scope; mutation_job := jobId; mutation_now := now;
      mutation_work := fun snapshot now _ => cancelPolicyEvaluationJob snapshot {|
        pcancel_jobId := jobId;
        pcancel_cancellationId :=
          default cancellationId (pcancel_cancellationId <$> graph_cancellation snapshot);
        pcancel_scope := scope;
        pcancel_requestedAt := now;
        pcancel_requestedByPrincipalId := principalId;
        pcancel_reason := reason |};
      mutation_operation := fun next =>
        match graph_cancellation next with
        | Some intent => Ok (op_cancel intent)
        | None => Throw ZodError
        end |}
  | ReserveWorkCall scope fence reservationId delta _ now =>
      if OpaqueIdSchema reservationId then Some {|
        mutation_scope := scope; mutation_job := pfence_jobId fence; mutation_now := now;
        mutation_work := fun snapshot now epoch => reservePolicyEvaluationUsage snapshot now epoch fence delta;
        mutation_operation := fun _ => Ok (op_reserve fence reservationId delta) |}
      else None
  | ReserveAcquisitionCall scope fence allowanceId _ now => Some {|
      mutation_scope := scope; mutation_job := pfence_jobId fence; mutation_now := now;
      mutation_work := fun snapshot now epoch =>
        reservePolicyEvaluationAcquisition snapshot now epoch fence allowanceId;
      mutation_operation := fun _ => Ok (op_reserve_acquisition fence allowanceId) |}
  | CreateCall _ _ _ => None
  end.

(** Two methods look before they mutate: the fence is live at a first reading
    of the clock, the arguments are well formed, and the reservation or the
    allowance is a new one. *)
Definition reaches_mutation (call : RepositoryCall) st (stored : StoredPolicyJob) : Prop :=
  match call with
  | ReserveWorkCall scope fence reservationId delta checked _ =>
      PolicyEvaluationTimeSchema checked = true /\ PolicyEvaluationUsageSchema delta = true /\
      is_ok (requirePolicyEvaluationLiveFence (stored_snapshot stored) checked (memory_recoveryEpoch st) fence) =
        true /\
      exists reserved, reservationKey scope (pfence_jobId fence) reservationId = Ok reserved /\
        memory_reservations st !! reserved = None
  | ReserveAcquisitionCall scope fence allowanceId checked _ =>
      OpaqueIdSchema allowanceId = true /\
      is_ok (requirePolicyEvaluationLiveFence (stored_snapshot stored) checked (memory_recoveryEpoch st) fence) =
        true /\
      outstanding_allowance (stored_snapshot stored) = None /\ allowance_used stored allowanceId = false
  | _ => True
  end.

Lemma stored_reads st key stored :
  memory_valid st -> memory_records st !! key = Some stored ->
  read (fst key) (snd key) st = Ok (key, stored, stored_snapshot stored).
Proof.
  intros Hv Hl. pose proof (mv_records _ Hv _ _ Hl) as Hr.
  pose proof (rv_admitted _ _ Hr) as Ha. pose proof (record_inspects _ _ Hr) as Hins.
  destruct (job_parts _ (ad_schema _ _ _ Ha)) as (Hid & _ & Hscope & _).
  rewrite (ad_job _ _ _ Ha) in Hid. rewrite (ad_scope _ _ _ Ha) in Hscope.
  unfold read. rewrite (proj2 (job_key_Ok _ _ key)) by (destruct key; done).
  cbn [mbind result_bind]. by rewrite Hl, Hins.
Qed.

Lemma mutation_runs call m st stored :
  memory_valid st -> mutation_of call = Some m ->
  memory_records st !! ((mutation_scope m, mutation_job m) : JobKey) = Some stored ->
  reaches_mutation call st stored -> after call st = snd (run_mutation m st).
Proof.
  intros Hv Hm Hl Hreach.
  destruct call; cbn [mutation_of] in Hm; try discriminate Hm;
    try (destruct (OpaqueIdSchema _) eqn:Hid; [|discriminate Hm]); injection Hm as <-; try reflexivity;
    pose proof (stored_reads _ _ _ Hv Hl) as Hread;
    cbn [fst snd mutation_scope mutation_job] in Hread; cbn [reaches_mutation] in Hreach; cbn [after].
  - destruct Hreach as (Ht & Hd & Hf & reserved & Er & En).
    destruct (requirePolicyEvaluationLiveFence _ _ _ _) as [[]|] eqn:Ef in Hf; [|discriminate Hf].
    unfold reserveWork, mbind, R_bind, lift, reads. rewrite (parse_accepted _ _ Hid), Hread.
    rewrite (parse_accepted _ _ Ht), Ef, (parse_accepted _ _ Hd), Er, En.
    change (mutate scope (pfence_jobId fence) _ _ now st) with (run_mutation {|
      mutation_scope := scope; mutation_job := pfence_jobId fence; mutation_now := now;
      mutation_work := fun snapshot now epoch => reservePolicyEvaluationUsage snapshot now epoch fence delta;
      mutation_operation := fun _ => Ok (op_reserve fence reservationId delta) |} st).
    destruct (run_mutation _ st) as [[result|error] st']; [|reflexivity].
    destruct (read scope (pfence_jobId fence) st') as [[[read_key read_stored] graph]|error]; reflexivity.
  - destruct Hreach as (Hid & Hf & Hnone & Hused).
    destruct (requirePolicyEvaluationLiveFence _ _ _ _) as [[]|] eqn:Ef in Hf; [|discriminate Hf].
    unfold reserveAcquisition, mbind, R_bind, lift, reads, rejects. rewrite (parse_accepted _ _ Hid), Hread.
    rewrite Ef, Hnone, Hused. unfold reject_when, lift.
    change (mutate scope (pfence_jobId fence) _ _ now st) with (run_mutation {|
      mutation_scope := scope; mutation_job := pfence_jobId fence; mutation_now := now;
      mutation_work := fun snapshot now epoch =>
        reservePolicyEvaluationAcquisition snapshot now epoch fence allowanceId;
      mutation_operation := fun _ => Ok (op_reserve_acquisition fence allowanceId) |} st).
    by destruct (run_mutation _ st) as [[result|error] st'].
Qed.

Lemma settles_exact (f : Work) (op : PolicyOperation) :
  (forall graph now epoch, run_operation graph now epoch op = f graph now epoch) ->
  (forall intent, op <> op_cancel intent) -> identified op = true -> settles f (fun _ => Ok op).
Proof.
  intros Hf Hc Hid graph now epoch next Hw. right. exists op. split; [done|]. split; [done|].
  split; [intros intent E; by destruct (Hc intent)|by rewrite Hf].
Qed.

Lemma mutation_settles call m : mutation_of call = Some m -> settles (mutation_work m) (mutation_operation m).
Proof.
  destruct call; cbn [mutation_of]; intros E; try discriminate E;
    try (destruct (OpaqueIdSchema _) eqn:Hid; [|discriminate E]); injection E as <-;
    cbn [mutation_work mutation_operation];
    try (apply settles_exact; [done|by intros ? [=]|done]).
  - intros graph now' epoch next Hw. right. destruct (claim_runs _ _ _ _ _ _ _ Hw) as (lease & El & Hr).
    rewrite El. eexists. split; [reflexivity|]. split; [done|]. split; [by intros ? [=]|done].
  - intros graph now' epoch next Hw. destruct (graph_cancellation graph) as [c|] eqn:Ec.
    + left. by eapply cancelled_again.
    + right. rewrite (cancel_records _ _ _ Hw Ec). eexists. split; [reflexivity|]. split; [done|].
      split; [by intros ? [= <-]|done].
Qed.

(** C17. The repository commits what the scheduler accepts.  Whatever calls it
    served, with digests that are SHA-256 in hexadecimal, a claim, heartbeat,
    reservation, settlement, interruption, reclaim or cancellation at a valid
    instant that reaches its mutation and whose transition succeeds on the stored
    graph succeeds: of all the mutation validates again (the graph, its entry, the replay of the entry,
    the page and the outbox) only the byte ceiling of the entry can refuse it,
    and then the entry does exceed the ceiling and nothing changes.  It stores
    and returns the transition's graph, or, when that would spend the last
    history slot on an open job, the same job ended with its budget exhausted. *)
Theorem accepted_transition_commits st call m stored next :
  policy_reachable st -> digests_sound -> mutation_of call = Some m ->
  memory_records st !! ((mutation_scope m, mutation_job m) : JobKey) = Some stored ->
  reaches_mutation call st stored ->
  PolicyEvaluationTimeSchema (mutation_now m) = true ->
  mutation_work m (stored_snapshot stored) (mutation_now m) (memory_recoveryEpoch st) = Ok next ->
  exists result, ends_as next result /\
    (run_mutation m st = (Ok result, after call st) /\
       (stored_snapshot <$> memory_records (after call st) !! ((mutation_scope m, mutation_job m) : JobKey)) =
         Some result \/
     over_ceiling stored result /\
       run_mutation m st = (Throw PolicyEvaluationJobHistoryError, st) /\ after call st = st).
Proof.
  intros Hr%reachable_memory Hd Hm Hl Hreach Hn Hw.
  destruct (mutate_runs _ _ _ _ _ _ _ Hd Hr Hl (mutation_settles _ _ Hm) Hn Hw) as (result & Hends & Hcase).
  exists result. split; [exact Hends|]. rewrite (mutation_runs _ _ st _ Hr Hm Hl Hreach).
  destruct Hcase as [[Hbig Hrun]|(st' & Hrun & Hstored)].
  - right. change (run_mutation m st = (Throw PolicyEvaluationJobHistoryError, st)) in Hrun. by rewrite Hrun.
  - left. change (run_mutation m st = (Ok result, st')) in Hrun. by rewrite Hrun.
Qed.
End commit.
