(* ===== verification/PolicyJobUseCases.v ===== *)
(** * Policy job use cases

    [core/src/policy/policy-evaluation-job-use-cases.ts] and
    [policy-evaluation-worker-authorization.ts]: who may enqueue, read, cancel,
    claim and work on a policy job, and what is checked of the answer of the
    repository, which these use cases do not trust.

    The repository is a class of operations on an abstract state.  A use case
    that awaits the repository twice takes what happens to the state between
    the two calls as an argument. *)

From S2P Require Import Prelude Errors Primitives Identity PolicyTime PolicyEvaluationJob.
From S2P Require Import PolicyJobSnapshot PolicyScheduler PolicyJobHistory.
From S2P Require Import MemoryPolicyJobRepository.
#[local] Open Scope Z_scope.

(** ** The repository ports *)

Definition Call (State A : Type) : Type := State -> res A * State.

#[global] Instance Call_ret {State} : MRet (Call State) := fun A a st => (Ok a, st).
#[global] Instance Call_bind {State} : MBind (Call State) := fun A B f m st =>
  match m st with
  | (Ok a, st') => f a st'
  | (Throw e, st') => (Throw e, st')
  end.

Definition checked {State A} (r : res A) : Call State A := fun st => (r, st).

(** What other callers do to the state while this one awaits. *)
Definition meanwhile {State} (others : State -> State) : Call State unit := fun st => (Ok tt, others st).

Class PolicyEvaluationJobReader (State : Type) := {
  port_findJob : EvidenceScope -> string -> Call State (option PolicyEvaluationJobSnapshot);
  port_findHistoryHead : EvidenceScope -> string -> Call State (option PolicyEvaluationJobHistoryHead);
  port_readHistoryPage : PolicyEvaluationJobHistoryHead -> Z -> Call State PolicyEvaluationJobHistoryPage;
}.

Class PolicyEvaluationJobControlRepository (State : Type) := {
  control_reader :: PolicyEvaluationJobReader State;
  port_createJob : PolicyEvaluationRequest -> string -> Call State (bool * PolicyEvaluationJobSnapshot);
  port_cancelJob : EvidenceScope -> string -> string -> string -> PolicyCancellationReason ->
    Call State PolicyEvaluationJobSnapshot;
}.

Class PolicyEvaluationJobWorkerRepository (State : Type) := {
  port_claimJob : EvidenceScope -> string -> string -> string -> string ->
    Call State PolicyEvaluationJobSnapshot;
  port_heartbeatJob : EvidenceScope -> PolicyEvaluationWorkerMutationFence ->
    Call State PolicyEvaluationJobSnapshot;
  port_reserveUsage : EvidenceScope -> PolicyEvaluationWorkerMutationFence -> PolicyEvaluationUsage ->
    Call State PolicyEvaluationJobSnapshot;
  port_interruptJob : EvidenceScope -> PolicyEvaluationWorkerMutationFence ->
    PolicyEvaluationRetryableError -> Call State PolicyEvaluationJobSnapshot;
}.

(** ** Authorization *)

Record JobRoute := {
  jobRoute_principal : PrincipalContext;
  jobRoute_projectId : string;
  jobRoute_environmentId : string;
}.

Definition route_scope (route : JobRoute) (principal : PrincipalContext) : EvidenceScope := {|
  environmentId := jobRoute_environmentId route;
  projectId := jobRoute_projectId route;
  tenantId := principal_tenantId principal
|}.

Section use_cases.
Context (TimestampSchema : string -> bool) `{PolicyDigests} {State : Type}.

Definition authorizedScope (route : JobRoute) (capability : Capability) :
    res (PrincipalContext * EvidenceScope) :=
  principal ← parse (PrincipalContextSchema TimestampSchema) (jobRoute_principal route);
  requireCapability principal capability ;;
  requireEnvironmentAccess (resourceScope principal) (jobRoute_projectId route)
    (jobRoute_environmentId route) ;;
  scope ← parse EvidenceScopeSchema (route_scope route principal);
  Ok (principal, scope).

Definition requirePolicyEvaluationExecution (actor : PrincipalContext) (input : EvidenceScope) : res unit :=
  principal ← parse (PrincipalContextSchema TimestampSchema) actor;
  requireCapability principal policy_evaluation_execute ;;
  reject_when ((principalType principal !== service) ||
               (authentication_method (authentication principal) !== service_token)) ForbiddenError ;;
  scope ← parse EvidenceScopeSchema input;
  reject_when (principal_tenantId principal !== tenantId scope) ForbiddenError ;;
  requireEnvironmentAccess (resourceScope principal) (projectId scope) (environmentId scope).

Definition workerScope (route : JobRoute) : res (PrincipalContext * EvidenceScope) :=
  principal ← parse (PrincipalContextSchema TimestampSchema) (jobRoute_principal route);
  requirePolicyEvaluationExecution principal (route_scope route principal) ;;
  scope ← parse EvidenceScopeSchema (route_scope route principal);
  Ok (principal, scope).

(** ** Answers of the repository *)

Definition returnedJob (raw : PolicyEvaluationJobSnapshot) (scope : EvidenceScope)
    (jobId : option string) : res PolicyEvaluationJobSnapshot :=
  record ← parse_with InvalidPolicyEvaluationJobGraphError PolicyEvaluationJobSnapshotSchema raw;
  validatePolicyEvaluationJobSnapshotRecord scope
    {| jobRef_jobId := default (pjob_jobId (graph_job record)) jobId;
       jobRef_definitionSha256 := pjob_definitionSha256 (graph_job record) |} raw.

(** ** Control *)

(** The request the server makes of the caller's definition. *)
Definition server_request (principal : PrincipalContext) (scope : EvidenceScope)
    (definition : PolicyEvaluationRequestDefinition) (now : PolicyEvaluationTime) :
    PolicyEvaluationRequest := {|
  request_candidate := definition_candidate definition;
  request_evaluationRequestId := definition_evaluationRequestId definition;
  request_evaluationTime := definition_evaluationTime definition;
  request_limits := definition_limits definition;
  request_policy := definition_policy definition;
  request_createdAt := now;
  request_createdByPrincipalId := principalId principal;
  request_definitionSha256 := digestPolicyEvaluationRequestDefinition scope definition;
  request_scope := scope
|}.

(** Everything before the repository is asked. *)
Definition enqueue_head (route : JobRoute) (input : PolicyEvaluationRequestDefinition)
    (now : PolicyEvaluationTime) (newJobId : string) : res (EvidenceScope * PolicyEvaluationRequest * string) :=
  '(principal, scope) ← authorizedScope route policy_evaluate;
  definition ← parse PolicyEvaluationRequestDefinitionSchema input;
  createdAt ← parse UtcMillisecondTextSchema now;
  request ← parse PolicyEvaluationRequestSchema (server_request principal scope definition createdAt);
  jobId ← parse OpaqueIdSchema newJobId;
  Ok (scope, request, jobId).

Definition enqueued (scope : EvidenceScope) (request : PolicyEvaluationRequest) (jobId : string)
    (result : bool * PolicyEvaluationJobSnapshot) : res (bool * PolicyEvaluationJobSnapshot) :=
  let '(created, raw) := result in
  snapshot ← returnedJob raw scope (if created then Some jobId else None);
  reject_when
    ((request_evaluationRequestId (graph_request snapshot) !== request_evaluationRequestId request) ||
     (request_definitionSha256 (graph_request snapshot) !== request_definitionSha256 request))
    InvalidPolicyEvaluationJobGraphError ;;
  Ok (created, snapshot).

Definition enqueuePolicyEvaluationJob `{!PolicyEvaluationJobControlRepository State} (route : JobRoute)
    (input : PolicyEvaluationRequestDefinition) (now : PolicyEvaluationTime) (newJobId : string) :
    Call State (bool * PolicyEvaluationJobSnapshot) :=
  '(scope, request, jobId) ← checked (enqueue_head route input now newJobId);
  result ← port_createJob request jobId;
  checked (enqueued scope request jobId result).

Definition read_head (route : JobRoute) (jobId : string) : res (EvidenceScope * string) :=
  '(_, scope) ← authorizedScope route policy_read;
  jobId ← parse OpaqueIdSchema jobId;
  Ok (scope, jobId).

Definition found_job (scope : EvidenceScope) (jobId : string) (raw : option PolicyEvaluationJobSnapshot) :
    res (option PolicyEvaluationJobSnapshot) :=
  match raw with
  | None => Ok None
  | Some raw => snapshot ← returnedJob raw scope (Some jobId); Ok (Some snapshot)
  end.

Definition readPolicyEvaluationJob `{!PolicyEvaluationJobReader State} (route : JobRoute) (jobId : string) :
    Call State (option PolicyEvaluationJobSnapshot) :=
  '(scope, jobId) ← checked (read_head route jobId);
  raw ← port_findJob scope jobId;
  checked (found_job scope jobId raw).

Definition found_head (scope : EvidenceScope) (jobId : string) (raw : option PolicyEvaluationJobHistoryHead) :
    res (option PolicyEvaluationJobHistoryHead) :=
  match raw with
  | None => Ok None
  | Some raw =>
      head ← parse_with PolicyEvaluationJobHistoryError PolicyEvaluationJobHistoryHeadSchema raw;
      reject_when ((jobRef_jobId (head_job head) !== jobId) || (head_scope head !== scope))
        PolicyEvaluationJobHistoryError ;;
      Ok (Some head)
  end.

Definition readPolicyEvaluationJobHistoryHead `{!PolicyEvaluationJobReader State} (route : JobRoute)
    (jobId : string) : Call State (option PolicyEvaluationJobHistoryHead) :=
  '(scope, jobId) ← checked (read_head route jobId);
  raw ← port_findHistoryHead scope jobId;
  checked (found_head scope jobId raw).

Definition page_head_of (route : JobRoute) (jobId : string) (head : PolicyEvaluationJobHistoryHead)
    (pageIndex : Z) : res (PolicyEvaluationJobHistoryHead * Z) :=
  '(scope, jobId) ← read_head route jobId;
  head ← parse PolicyEvaluationJobHistoryHeadSchema head;
  reject_when ((jobRef_jobId (head_job head) !== jobId) || (head_scope head !== scope)) ForbiddenError ;;
  pageIndex ← parse PolicyEvaluationJobHistoryPageIndexSchema pageIndex;
  Ok (head, pageIndex).

(** Whatever the page fails with, the use case reports a history error. *)
Definition found_page (head : PolicyEvaluationJobHistoryHead) (pageIndex : Z)
    (raw : PolicyEvaluationJobHistoryPage) : res PolicyEvaluationJobHistoryPage :=
  page ← match validatePolicyEvaluationJobHistoryPage head raw with
         | Ok page => Ok page
         | Throw _ => Throw PolicyEvaluationJobHistoryError
         end;
  reject_when (negb (page_pageIndex page =? pageIndex)) PolicyEvaluationJobHistoryError ;;
  Ok page.

Definition readPolicyEvaluationJobHistoryPage `{!PolicyEvaluationJobReader State} (route : JobRoute)
    (jobId : string) (head : PolicyEvaluationJobHistoryHead) (pageIndex : Z) :
    Call State PolicyEvaluationJobHistoryPage :=
  '(head, pageIndex) ← checked (page_head_of route jobId head pageIndex);
  raw ← port_readHistoryPage head pageIndex;
  checked (found_page head pageIndex raw).

(** ** Cancellation *)

Definition cancel_head (route : JobRoute) (jobId : string) : res (PrincipalContext * EvidenceScope * string) :=
  '(principal, scope) ← authorizedScope route policy_evaluation_cancel;
  jobId ← parse OpaqueIdSchema jobId;
  Ok (principal, scope, jobId).

(** The cancellation the job had when it was read first; it binds one actor and reason. *)
Definition retained_cancellation (scope : EvidenceScope) (jobId : string) (principal : PrincipalContext)
    (reason : PolicyCancellationReason) (raw : option PolicyEvaluationJobSnapshot) :
    res (option PolicyEvaluationCancellation) :=
  found ← found_job scope jobId raw;
  let previous := snapshot ← found; graph_cancellation snapshot in
  reject_when
    match previous with
    | Some previous =>
        (pcancel_reason previous !== reason) ||
        (pcancel_requestedByPrincipalId previous !== principalId principal)
    | None => false
    end PolicyEvaluationCancellationConflictError ;;
  Ok previous.

Definition cancellation_id (previous : option PolicyEvaluationCancellation) (newCancellationId : string) :
    res string :=
  match previous with
  | Some previous => Ok (pcancel_cancellationId previous)
  | None => parse OpaqueIdSchema newCancellationId
  end.

Definition cancelled (scope : EvidenceScope) (jobId : string) (principal : PrincipalContext)
    (reason : PolicyCancellationReason) (previous : option PolicyEvaluationCancellation)
    (cancellationId : string) (raw : PolicyEvaluationJobSnapshot) : res PolicyEvaluationJobSnapshot :=
  snapshot ← returnedJob raw scope (Some jobId);
  match graph_cancellation snapshot with
  | None => Throw InvalidPolicyEvaluationJobGraphError
  | Some intent =>
      intent ← parse_with InvalidPolicyEvaluationJobGraphError PolicyEvaluationCancellationSchema intent;
      reject_when
        (present previous && (pcancel_cancellationId intent !== cancellationId) ||
         (pcancel_reason intent !== reason) ||
         (pcancel_requestedByPrincipalId intent !== principalId principal))
        InvalidPolicyEvaluationJobGraphError ;;
      Ok snapshot
  end.

Definition cancelPolicyEvaluationJobRequest `{!PolicyEvaluationJobControlRepository State}
    (route : JobRoute) (jobId : string) (reason : PolicyCancellationReason) (newCancellationId : string)
    (others : State -> State) : Call State PolicyEvaluationJobSnapshot :=
  '(principal, scope, jobId) ← checked (cancel_head route jobId);
  previousRaw ← port_findJob scope jobId;
  previous ← checked (retained_cancellation scope jobId principal reason previousRaw);
  cancellationId ← checked (cancellation_id previous newCancellationId);
  meanwhile others ;;
  raw ← port_cancelJob scope jobId (principalId principal) cancellationId reason;
  checked (cancelled scope jobId principal reason previous cancellationId raw).

(** ** Workers *)

Definition claim_head (route : JobRoute) (jobId newAttemptId newLeaseId : string) :
    res (PrincipalContext * EvidenceScope * string * string * string) :=
  '(principal, scope) ← workerScope route;
  jobId ← parse OpaqueIdSchema jobId;
  attemptId ← parse OpaqueIdSchema newAttemptId;
  leaseId ← parse OpaqueIdSchema newLeaseId;
  Ok (principal, scope, jobId, attemptId, leaseId).

(** The claim is the caller's own, unless it spent the last history slot. *)
Definition claimed (scope : EvidenceScope) (jobId : string) (principal : PrincipalContext)
    (attemptId leaseId : string) (raw : PolicyEvaluationJobSnapshot) : res PolicyEvaluationJobSnapshot :=
  snapshot ← returnedJob raw scope (Some jobId);
  if pjob_status (graph_job snapshot) === job_budget_exhausted then Ok snapshot
  else
    reject_when
      match pjob_currentLease (graph_job snapshot) with
      | Some lease =>
          let current := please_mutationFence lease in
          (pfence_workerId current !== principalId principal) ||
          (pfence_attemptId current !== attemptId) || (pfence_leaseId current !== leaseId)
      | None => true
      end PlainError ;;
    Ok snapshot.

Definition claimPolicyEvaluationJobRequest `{!PolicyEvaluationJobWorkerRepository State} (route : JobRoute)
    (jobId newAttemptId newLeaseId : string) : Call State PolicyEvaluationJobSnapshot :=
  '(principal, scope, jobId, attemptId, leaseId) ← checked (claim_head route jobId newAttemptId newLeaseId);
  raw ← port_claimJob scope jobId (principalId principal) attemptId leaseId;
  checked (claimed scope jobId principal attemptId leaseId raw).

Inductive WorkerOperation : Type :=
| operation_heartbeat
| operation_reserve (input : PolicyEvaluationUsage)
| operation_interrupt (input : PolicyEvaluationRetryableError).

(** The three reasons a worker may give. *)
Definition worker_reason (reason : PolicyEvaluationRetryableError) : bool :=
  match reason with
  | retryable_source_revision_changed | retryable_source_temporarily_unavailable
  | retryable_worker_interrupted => true
  | _ => false
  end.

Definition worker_head (route : JobRoute) (fence : PolicyEvaluationWorkerMutationFence) :
    res (EvidenceScope * PolicyEvaluationWorkerMutationFence) :=
  '(principal, scope) ← workerScope route;
  fence ← parse PolicyEvaluationWorkerMutationFenceSchema fence;
  reject_when (pfence_workerId fence !== principalId principal) ForbiddenError ;;
  Ok (scope, fence).

Definition worker_call `{!PolicyEvaluationJobWorkerRepository State} (scope : EvidenceScope)
    (fence : PolicyEvaluationWorkerMutationFence) (operation : WorkerOperation) :
    Call State PolicyEvaluationJobSnapshot :=
  match operation with
  | operation_heartbeat => port_heartbeatJob scope fence
  | operation_reserve input =>
      delta ← checked (parse PolicyEvaluationUsageSchema input);
      port_reserveUsage scope fence delta
  | operation_interrupt reason =>
      checked (reject_when (negb (worker_reason reason)) PlainError) ;;
      port_interruptJob scope fence reason
  end.

Definition worked (scope : EvidenceScope) (fence : PolicyEvaluationWorkerMutationFence)
    (raw : PolicyEvaluationJobSnapshot) : res PolicyEvaluationJobSnapshot :=
  snapshot ← returnedJob raw scope (Some (pfence_jobId fence));
  reject_when ((pattempt_mutationFence <$> last (graph_attempts snapshot)) !== Some fence) PlainError ;;
  Ok snapshot.

Definition mutatePolicyEvaluationWorkerJob `{!PolicyEvaluationJobWorkerRepository State} (route : JobRoute)
    (fence : PolicyEvaluationWorkerMutationFence) (operation : WorkerOperation) :
    Call State PolicyEvaluationJobSnapshot :=
  '(scope, fence) ← checked (worker_head route fence);
  raw ← worker_call scope fence operation;
  checked (worked scope fence raw).
End use_cases.
