(* ===== verification/PolicyUseCaseProofs.v ===== *)
(** * Policy job use cases: proofs

    Against any repository: what a use case returns was authorized, is a valid
    graph of the job it asked for, and is bound to the caller.  Against the
    in-memory repository: none of these checks ever fails, so that a use case is
    its authorization followed by the method of the repository. *)

From stdpp Require Import relations gmap.
From S2P Require Import Prelude Errors Primitives Identity PolicyTime PolicyEvaluationJob.
From S2P Require Import PolicyJobSnapshot PolicyJobInvariant PolicyScheduler.
From S2P Require Import PolicySchedulerProofs PolicySchedulerContract PolicyJobHistory.
From S2P Require Import PolicySchedulerSystem PolicyHistoryProofs MemoryPolicyJobRepository.
From S2P Require Import PolicyRepositoryProofs PolicyRepositorySystem PolicyRepositoryHistory.
From S2P Require Import PolicyRepositoryCommit PolicyJobUseCases.
#[local] Open Scope Z_scope.

Lemma call_bind_Ok {State A B} (m : Call State A) (f : A -> Call State B) st b st' :
  (m ≫= f) st = (Ok b, st') <-> exists a st1, m st = (Ok a, st1) /\ f a st1 = (Ok b, st').
Proof.
  unfold mbind, Call_bind. destruct (m st) as [[a|e] st1]; split.
  - intros E. by exists a, st1.
  - by intros (? & ? & [= <- <-] & E).
  - done.
  - by intros (? & ? & [=] & _).
Qed.

Lemma checked_Ok {State A} (r : res A) (st : State) a st' : checked r st = (Ok a, st') <-> r = Ok a /\ st' = st.
Proof. unfold checked. split; [by intros [= -> ->]|by intros [-> ->]]. Qed.

Section soundness.
Context (TimestampSchema : string -> bool) `{PolicyDigests} {State : Type}.

(** ** Authorization *)

(** A route whose principal may use [capability] in the environment it names. *)
Record granted (route : JobRoute) (capability : Capability) (scope : EvidenceScope) : Prop := {
  gr_capability : capability ∈ capabilities (jobRoute_principal route);
  gr_access : grants (resourceScope (jobRoute_principal route)) (jobRoute_projectId route)
    (jobRoute_environmentId route);
  gr_scope : scope = route_scope route (jobRoute_principal route);
}.

(** Only a service token may do a worker's job. *)
Record worker_granted (route : JobRoute) (scope : EvidenceScope) : Prop := {
  wg_granted : granted route policy_evaluation_execute scope;
  wg_service : principalType (jobRoute_principal route) = service;
  wg_token : authentication_method (authentication (jobRoute_principal route)) = service_token;
}.

Lemma principal_scope principal :
  PrincipalContextSchema TimestampSchema principal = true -> ResourceScopeSchema (resourceScope principal) = true.
Proof. unfold PrincipalContextSchema. rewrite !andb_true_iff. tauto. Qed.

Lemma capability_Ok principal capability u :
  requireCapability principal capability = Ok u -> capability ∈ capabilities principal.
Proof. by intros Hc%reject_when_Ok%negb_false_iff%includes_true. Qed.

Lemma authorizedScope_Ok route capability principal scope :
  authorizedScope TimestampSchema route capability = Ok (principal, scope) ->
  principal = jobRoute_principal route /\ granted route capability scope.
Proof.
  unfold authorizedScope. intros E. apply bind_Ok in E as (p & [Hp ->]%parse_Ok & E).
  apply bind_Ok in E as (u & Hc%capability_Ok & E). apply bind_Ok in E as (v & Ha & E).
  apply environment_access_Ok in Ha; [|by apply principal_scope].
  apply bind_Ok in E as (s & [_ ->]%parse_Ok & [= <- <-]). split; [done|by constructor].
Qed.

Lemma workerScope_Ok route principal scope :
  workerScope TimestampSchema route = Ok (principal, scope) ->
  principal = jobRoute_principal route /\ worker_granted route scope.
Proof.
  unfold workerScope, requirePolicyEvaluationExecution. intros E. apply bind_Ok in E as (p & [Hp ->]%parse_Ok & E).
  apply bind_Ok in E as (u & Hx & E). apply bind_Ok in E as (s & [_ ->]%parse_Ok & [= <- <-]).
  apply bind_Ok in Hx as (p & [_ ->]%parse_Ok & Hx). apply bind_Ok in Hx as ([] & Hc%capability_Ok & Hx).
  apply bind_Ok in Hx as ([] & Ht%reject_when_Ok & Hx). apply bind_Ok in Hx as (s & [_ ->]%parse_Ok & Hx).
  apply bind_Ok in Hx as ([] & _ & Ha). apply environment_access_Ok in Ha; [|by apply principal_scope].
  apply orb_false_iff in Ht as [H1 H2]. rewrite negb_false_iff in H1, H2.
  apply bool_decide_eq_true in H1, H2. split; [done|]. by repeat constructor.
Qed.

(** ** Answers *)

Lemma returnedJob_Ok raw scope jobId snapshot :
  returnedJob raw scope jobId = Ok snapshot <->
  snapshot = raw /\ admitted raw scope (default (pjob_jobId (graph_job raw)) jobId).
Proof.
  unfold returnedJob. rewrite <- inspect_iff. split.
  - intros E. by apply bind_Ok in E as (r & [_ ->]%parse_with_Ok & E).
  - intros E. pose proof E as [_ []]%inspect_iff. unfold parse_with. rewrite ad_schema. exact E.
Qed.

Lemma returnedJob_run raw scope id : admitted raw scope id -> returnedJob raw scope (Some id) = Ok raw.
Proof. intros Ha. by apply returnedJob_Ok. Qed.

Lemma found_job_Ok scope jobId raw found :
  found_job scope jobId raw = Ok found -> found = raw /\ forall snapshot, raw = Some snapshot -> admitted snapshot scope jobId.
Proof.
  destruct raw as [raw|]; cbn [found_job].
  - intros E. apply bind_Ok in E as (s & [-> Ha]%returnedJob_Ok & [= <-]). split; [done|]. by intros ? [= <-].
  - intros [= <-]. done.
Qed.

(** ** Soundness against any repository *)

Lemma enqueue_sound `{!PolicyEvaluationJobControlRepository State} route input now newJobId st created snapshot st' :
  enqueuePolicyEvaluationJob TimestampSchema route input now newJobId st = (Ok (created, snapshot), st') ->
  exists scope, granted route policy_evaluate scope /\
    admitted snapshot scope (if created then newJobId else pjob_jobId (graph_job snapshot)) /\
    request_evaluationRequestId (graph_request snapshot) = definition_evaluationRequestId input /\
    digestRequest (graph_request snapshot) = digestPolicyEvaluationRequestDefinition scope input.
Proof.
  intros E. apply call_bind_Ok in E as ([[scope request] jobId] & st1 & [Hh ->]%checked_Ok & E).
  apply call_bind_Ok in E as ([c raw] & st2 & _ & [E _]%checked_Ok).
  unfold enqueue_head in Hh. apply bind_Ok in Hh as ([p s] & [-> Hg]%authorizedScope_Ok & Hh).
  apply bind_Ok in Hh as (d & [_ ->]%parse_Ok & Hh). apply bind_Ok in Hh as (t & [_ ->]%parse_Ok & Hh).
  apply bind_Ok in Hh as (r & [_ ->]%parse_Ok & Hh). apply bind_Ok in Hh as (i & [_ ->]%parse_Ok & [= -> <- ->]).
  cbn [enqueued] in E. apply bind_Ok in E as (g & [-> Ha]%returnedJob_Ok & E).
  apply bind_Ok in E as ([] & Hr%reject_when_Ok & [= -> ->]).
  apply orb_false_iff in Hr as [H1 H2]. rewrite negb_false_iff in H1, H2.
  apply bool_decide_eq_true in H1, H2. exists scope. split; [done|].
  split; [by destruct created|]. split; [done|]. rewrite (ad_request _ _ _ Ha), H2. done.
Qed.

Lemma cancel_use_case_sound `{!PolicyEvaluationJobControlRepository State} route jobId reason newCancellationId others st snapshot st' :
  cancelPolicyEvaluationJobRequest TimestampSchema route jobId reason newCancellationId others st = (Ok snapshot, st') ->
  exists scope intent, granted route policy_evaluation_cancel scope /\ admitted snapshot scope jobId /\
    graph_cancellation snapshot = Some intent /\ pcancel_reason intent = reason /\
    pcancel_requestedByPrincipalId intent = principalId (jobRoute_principal route).
Proof.
  intros E. apply call_bind_Ok in E as ([[p scope] id] & st1 & [Hh ->]%checked_Ok & E).
  apply call_bind_Ok in E as (previousRaw & st2 & _ & E).
  apply call_bind_Ok in E as (previous & st3 & _ & E). apply call_bind_Ok in E as (cid & st4 & _ & E).
  apply call_bind_Ok in E as ([] & st5 & _ & E). apply call_bind_Ok in E as (raw & st6 & _ & [E _]%checked_Ok).
  unfold cancel_head in Hh. apply bind_Ok in Hh as ([q s] & [-> Hg]%authorizedScope_Ok & Hh).
  apply bind_Ok in Hh as (i & [_ ->]%parse_Ok & [= <- -> ->]).
  unfold cancelled in E. apply bind_Ok in E as (g & [-> Ha]%returnedJob_Ok & E).
  destruct (graph_cancellation raw) as [intent|] eqn:Ec; [|done].
  apply bind_Ok in E as (i & [_ ->]%parse_with_Ok & E). apply bind_Ok in E as ([] & Hr%reject_when_Ok & [= <-]).
  rewrite !orb_false_iff, !negb_false_iff in Hr. destruct Hr as [[_ H1%bool_decide_eq_true] H2%bool_decide_eq_true].
  by exists scope, intent.
Qed.

(** C30. Whatever a repository answers, a control use case returns only what the
    caller may have: the principal holds the capability in the environment it
    names; the graph is valid and is the one of the job that was asked for;
    an enqueued job carries the caller's definition, under the new id if it was
    created; and a cancellation is the caller's own, for the reason it gave. *)
Theorem policy_control_sound `{!PolicyEvaluationJobControlRepository State} route st :
  (forall input now newJobId created snapshot st',
     enqueuePolicyEvaluationJob TimestampSchema route input now newJobId st = (Ok (created, snapshot), st') ->
     exists scope, granted route policy_evaluate scope /\
       admitted snapshot scope (if created then newJobId else pjob_jobId (graph_job snapshot)) /\
       request_evaluationRequestId (graph_request snapshot) = definition_evaluationRequestId input /\
       digestRequest (graph_request snapshot) = digestPolicyEvaluationRequestDefinition scope input) /\
  (forall jobId snapshot st',
     readPolicyEvaluationJob TimestampSchema route jobId st = (Ok (Some snapshot), st') ->
     exists scope, granted route policy_read scope /\ admitted snapshot scope jobId) /\
  (forall jobId reason newCancellationId others snapshot st',
     cancelPolicyEvaluationJobRequest TimestampSchema route jobId reason newCancellationId others st =
       (Ok snapshot, st') ->
     exists scope intent, granted route policy_evaluation_cancel scope /\ admitted snapshot scope jobId /\
       graph_cancellation snapshot = Some intent /\ pcancel_reason intent = reason /\
       pcancel_requestedByPrincipalId intent = principalId (jobRoute_principal route)).
Proof.
  split; [|split].
  - intros input now newJobId created snapshot st'. apply enqueue_sound.
  - intros jobId snapshot st' E. apply call_bind_Ok in E as ([scope id] & st1 & [Hh ->]%checked_Ok & E).
    apply call_bind_Ok in E as (raw & st2 & _ & [[Eq Ha]%found_job_Ok _]%checked_Ok).
    unfold read_head in Hh. apply bind_Ok in Hh as ([q s] & [_ Hg]%authorizedScope_Ok & Hh).
    apply bind_Ok in Hh as (i & [_ ->]%parse_Ok & [= -> ->]). exists scope. split; [done|by apply Ha].
  - intros jobId reason newCancellationId others snapshot st'. apply cancel_use_case_sound.
Qed.

(** C31. Whatever a repository answers, a worker use case returns only to a
    service principal, authenticated by its token, that may execute policies in
    the environment it names: a claimed job is leased to that principal under
    the new attempt and lease ids, or ended for lack of budget; a mutated job is
    the one of a fence of that principal, and its latest attempt carries it. *)
Theorem policy_worker_sound `{!PolicyEvaluationJobWorkerRepository State} route st :
  (forall jobId newAttemptId newLeaseId snapshot st',
     claimPolicyEvaluationJobRequest TimestampSchema route jobId newAttemptId newLeaseId st = (Ok snapshot, st') ->
     exists scope, worker_granted route scope /\ admitted snapshot scope jobId /\
       (pjob_status (graph_job snapshot) = job_budget_exhausted \/
        exists lease, pjob_currentLease (graph_job snapshot) = Some lease /\
          pfence_workerId (please_mutationFence lease) = principalId (jobRoute_principal route) /\
          pfence_attemptId (please_mutationFence lease) = newAttemptId /\
          pfence_leaseId (please_mutationFence lease) = newLeaseId)) /\
  (forall fence operation snapshot st',
     mutatePolicyEvaluationWorkerJob TimestampSchema route fence operation st = (Ok snapshot, st') ->
     exists scope, worker_granted route scope /\ admitted snapshot scope (pfence_jobId fence) /\
       pfence_workerId fence = principalId (jobRoute_principal route) /\
       pattempt_mutationFence <$> last (graph_attempts snapshot) = Some fence).
Proof.
  split.
  - intros jobId newAttemptId newLeaseId snapshot st' E.
    apply call_bind_Ok in E as ([[[[p scope] id] a] l] & st1 & [Hh ->]%checked_Ok & E).
    apply call_bind_Ok in E as (raw & st2 & _ & [E _]%checked_Ok).
    unfold claim_head in Hh. apply bind_Ok in Hh as ([q s] & [-> Hg]%workerScope_Ok & Hh).
    apply bind_Ok in Hh as (i & [_ ->]%parse_Ok & Hh). apply bind_Ok in Hh as (a' & [_ ->]%parse_Ok & Hh).
    apply bind_Ok in Hh as (l' & [_ ->]%parse_Ok & [= <- -> -> -> ->]).
    unfold claimed in E. apply bind_Ok in E as (g & [-> Ha]%returnedJob_Ok & E).
    exists scope. split; [done|]. case_bool_decide as Hb.
    { injection E as <-. split; [done|by left]. }
    apply bind_Ok in E as ([] & Hr%reject_when_Ok & [= <-]). split; [done|]. right.
    destruct (pjob_currentLease (graph_job raw)) as [lease|]; [|done]. exists lease.
    rewrite !orb_false_iff, !negb_false_iff, !bool_decide_eq_true in Hr. tauto.
  - intros fence operation snapshot st' E.
    apply call_bind_Ok in E as ([scope f] & st1 & [Hh ->]%checked_Ok & E).
    apply call_bind_Ok in E as (raw & st2 & _ & [E _]%checked_Ok).
    unfold worker_head in Hh. apply bind_Ok in Hh as ([q s] & [-> Hg]%workerScope_Ok & Hh).
    apply bind_Ok in Hh as (i & [_ ->]%parse_Ok & Hh). apply bind_Ok in Hh as ([] & Hw%reject_when_Ok & [= -> ->]).
    apply negb_false_iff, bool_decide_eq_true in Hw.
    unfold worked in E. apply bind_Ok in E as (g & [-> Ha]%returnedJob_Ok & E).
    apply bind_Ok in E as ([] & Hr%reject_when_Ok & [= <-]). apply negb_false_iff, bool_decide_eq_true in Hr.
    by exists scope.
Qed.
End soundness.

(** * The in-memory repository behind the policy use cases

    [MemoryPolicyEvaluationJobRepository] implements the ports of the use
    cases.  None of the checks a use case makes of an answer ever fails on it. *)

Section memory.
Context `{PolicyDigests}.
Implicit Types (key : JobKey) (st : PolicyJobMemory).

(** ** The ports *)

#[local] Instance policy_reader : PolicyEvaluationJobReader PolicyJobMemory := {
  port_findJob scope id := reads (findJob scope id);
  port_findHistoryHead scope id := reads (findHistoryHead scope id);
  port_readHistoryPage head pageIndex := reads (readHistoryPage head pageIndex);
}.

(** [now] is what the clock answers during the call. *)
#[local] Instance policy_control (now : PolicyEvaluationTime) :
    PolicyEvaluationJobControlRepository PolicyJobMemory := {
  control_reader := policy_reader;
  port_createJob request id := createJob request id now;
  port_cancelJob scope id principalId cancellationId reason :=
    cancelJob scope id principalId cancellationId reason now;
}.

(** [reservationId] is what the repository draws for an unnamed reservation. *)
#[local] Instance policy_worker (now : PolicyEvaluationTime) (reservationId : string) :
    PolicyEvaluationJobWorkerRepository PolicyJobMemory := {
  port_claimJob scope id workerId attemptId leaseId := claimJob scope id workerId attemptId leaseId now;
  port_heartbeatJob scope fence := heartbeatJob scope fence now;
  port_reserveUsage scope fence delta := reserveUsage scope fence delta reservationId now;
  port_interruptJob scope fence reason := interruptJob scope fence reason now;
}.

(** ** What a mutation answers *)

(** A mutation that returned did its work, or ended the job instead of spending
    the last history slot. *)
Lemma mutate_answer work operation scope id now st result st' :
  memory_valid st -> performs work operation ->
  mutate scope id work operation now st = (Ok result, st') ->
  exists stored next, memory_records st !! ((scope, id) : JobKey) = Some stored /\
    PolicyEvaluationTimeSchema now = true /\
    work (stored_snapshot stored) now (memory_recoveryEpoch st) = Ok next /\ admitted result scope id /\
    (result = next \/
     pjob_stateVersion (graph_job next) <> pjob_stateVersion (graph_job (stored_snapshot stored)) /\
     history_exhausted next = true /\
     exhaustPolicyEvaluationJobHistory (stored_snapshot stored) now = Ok result).
Proof.
  intros Hv Hperf E. unfold mutate, mbind, R_bind, reads, lift, mret, R_ret, writes, rejects, lift in E.
  destruct (read scope id st) as [[[key stored] snapshot]|e] eqn:Hread; [|done].
  destruct (read_Ok _ _ _ _ _ _ Hv Hread) as (-> & Hl & -> & _).
  destruct (parse PolicyEvaluationTimeSchema now) as [now'|] eqn:Hn; [|done]. apply parse_Ok in Hn as [Hn ->].
  destruct (work _ now (memory_recoveryEpoch st)) as [next|] eqn:Hw; [|done].
  destruct (inspect next scope id) as [next'|] eqn:Hi; [|done]. apply inspect_iff in Hi as [-> Ha].
  exists stored, next. split; [done|]. split; [done|]. split; [done|].
  destruct (Z.eqb_spec (pjob_stateVersion (graph_job next))
    (pjob_stateVersion (graph_job (stored_snapshot stored)))) as [Ev|Ev].
  { destruct (reject_when _ _); [|done]. injection E as <- _. split; [done|by left]. }
  destruct (prepare _ _ _ _ _ _ _) as [[[r entry] nextStored]|] eqn:Hp; [|done].
  destruct (prepare_commits _ _ _ _ _ _ _ _ _ _ _ _ Hperf eq_refl Hn Hw Ev Hp) as [_ Har].
  assert (r = result) as ->.
  { destruct (history_operation (entry_definition entry)); try (by injection E).
    destruct (reservationKey _ _ _); [by injection E|done]. }
  split; [done|]. unfold prepare in Hp. apply bind_Ok in Hp as (r & Hres & Hp).
  apply bind_Ok in Hp as (op & _ & Hp). apply bind_Ok in Hp as (en & _ & Hp). apply bind_Ok in Hp as (rp & _ & Hp).
  apply bind_Ok in Hp as (intents & _ & Hp). apply bind_Ok in Hp as (g & _ & [= -> _ _]).
  destruct (history_exhausted next) eqn:Hex.
  - apply bind_Ok in Hres as (ended & Hended & Hr). apply inspect_iff in Hr as [-> _]. by right.
  - injection Hres as ->. by left.
Qed.

Lemma exhausted_status graph now ended :
  exhaustPolicyEvaluationJobHistory graph now = Ok ended ->
  pjob_status (graph_job ended) = job_budget_exhausted.
Proof.
  unfold exhaustPolicyEvaluationJobHistory, parse_snapshot. intros E.
  apply bind_Ok in E as (g & [_ ->]%parse_Ok & E). apply bind_Ok in E as (t & [_ ->]%parse_Ok & E).
  apply bind_Ok in E as ([] & _ & E).
  destruct (chargeUncertainPolicyEvaluationAcquisition graph) as [charged b].
  by apply parse_Ok in E as [_ ->].
Qed.

(** A move leaves the latest attempt under the fence of the lease. *)
Lemma moves_keep_fence graph now next lease :
  graph_valid graph -> pjob_currentLease (graph_job graph) = Some lease -> moves graph now next ->
  pattempt_mutationFence <$> last (graph_attempts next) = Some (please_mutationFence lease).
Proof.
  intros Hg El Hm. destruct (live_lease _ _ Hg El) as (Hs & _ & _ & before & latest & Ea & _ & Eopen & Ef & _).
  destruct Hm as [| | |]; subst; cbn [graph_attempts set_graph sealed_graph closed_graph].
  - by rewrite Ea, last_snoc, <- Ef.
  - by rewrite Ea, update_last_snoc, last_snoc, <- Ef.
  - rewrite Ea, close_open_last, last_snoc. cbn. rewrite <- Ef. unfold closed. by rewrite Eopen.
  - destruct Hclaim as [[Hc|Hc] _ _ _ _ _ _ _ _ _ _ _ _]; by rewrite Hc in Hs.
Qed.

(** ** Checks that never fail *)

Lemma claimed_accepts scope id principal attemptId leaseId now st result st' :
  memory_valid st -> claimJob scope id (principalId principal) attemptId leaseId now st = (Ok result, st') ->
  claimed scope id principal attemptId leaseId result = Ok result.
Proof.
  intros Hv E. destruct (mutate_answer _ _ _ _ _ _ _ _ Hv (claim_performs _ _ _) E)
    as (stored & next & _ & _ & Hw & Ha & Hres).
  unfold claimed. rewrite (returnedJob_run _ _ _ Ha). cbn [mbind result_bind].
  destruct Hres as [->|(_ & _ & Hex)].
  - case_bool_decide; [done|]. cbn beta in Hw.
    assert (exists lease, pjob_currentLease (graph_job next) = Some lease /\
      pfence_attemptId (please_mutationFence lease) = attemptId /\
      pfence_leaseId (please_mutationFence lease) = leaseId /\
      pfence_workerId (please_mutationFence lease) = principalId principal) as (lease & -> & -> & -> & ->).
    { unfold claimPolicyEvaluationJob, increment, parse_snapshot in Hw. inv_res. by eexists. }
    by rewrite reject_known by (by rewrite !bool_decide_eq_true_2).
  - by rewrite bool_decide_eq_true_2 by (by eapply exhausted_status).
Qed.

(** Every worker operation of these use cases leaves the fence on the latest attempt. *)
Lemma worked_accepts op (f : Work) scope fence now st result st' :
  memory_valid st -> identified op = true -> worker_fence op = Some fence ->
  (forall graph now epoch, run_operation graph now epoch op = f graph now epoch) ->
  mutate scope (pfence_jobId fence) f (fun _ => Ok op) now st = (Ok result, st') ->
  worked scope fence result = Ok result.
Proof.
  intros Hv Hid Hf Hrun E. assert (Hc : forall intent, op <> op_cancel intent) by (by intros ? ->).
  destruct (mutate_answer _ _ _ _ _ _ _ _ Hv (perform_exact f op Hrun Hc) E)
    as (stored & next & Hl & Hn & Hw & Ha & Hres).
  unfold worked. rewrite (returnedJob_run _ _ _ Ha). cbn [mbind result_bind].
  destruct (mv_records _ Hv _ _ Hl) as [(created & first & rest & Hh) _ _ _ _].
  destruct (stored_facts _ _ _ _ Hh) as (Hg & _). rewrite <- Hrun in Hw.
  destruct (worker_accepted _ _ _ _ _ _ Hw Hf) as [lease [Elease _ Efence _ _]].
  destruct (operation_ran _ _ _ _ _ Hg Hid Hw) as [Hop _].
  pose proof (proj1 (graph_valid_iff _) (proj1 Hg)) as Hgv.
  assert (Hlast : pattempt_mutationFence <$> last (graph_attempts result) = Some fence).
  { subst fence. destruct Hres as [->|(_ & _ & Hex)].
    - destruct (run_changes _ _ _ _ _ Hg Hn Hop (fun i Hi => False_ind _ (Hc i Hi)) Hw) as [->|Hm].
      + destruct (live_lease _ _ Hgv Elease) as (_ & _ & _ & before & latest & -> & _ & _ & <- & _).
        by rewrite last_snoc.
      + by eapply moves_keep_fence.
    - pose proof (exhaust_sound (stored_snapshot stored) now Hgv Hn) as Hs. rewrite Hex in Hs.
      by eapply moves_keep_fence. }
  rewrite Hlast, reject_known; [done|]. by rewrite bool_decide_eq_true_2.
Qed.

Lemma policy_create_answer request jobId now st created snapshot st' :
  memory_valid st -> createJob request jobId now st = (Ok (created, snapshot), st') ->
  enqueued (request_scope request) request jobId (created, snapshot) = Ok (created, snapshot).
Proof.
  intros Hv E. pose proof (createJob_bound request jobId now st Hv) as Hb.
  pose proof (createJob_outcome request jobId now st) as Ho.
  pose proof (create_keeps request jobId now st Hv) as [Hv' _].
  rewrite E in Hb, Ho, Hv'. cbn [snd] in Hv'.
  destruct Hb as (_ & _ & _ & key & stored & Hq & Hl & Es & Hdef).
  destruct (mv_requests _ Hv' _ _ Hq) as (stored' & Hl' & [= Escope Eid]). rewrite Hl in Hl'. injection Hl' as <-.
  pose proof (rv_admitted _ _ (mv_records _ Hv' _ _ Hl)) as Ha. rewrite <- Escope, Es in Ha. rewrite Es in Eid.
  assert (Hid : admitted snapshot (request_scope request)
    (if created then jobId else pjob_jobId (graph_job snapshot))).
  { destruct created; [|by destruct Ha].
    destruct Ho as [[_ Hnot]|(s & [= Es'] & (_ & _ & _ & Hr) & _)]; [by destruct (Hnot snapshot)|].
    rewrite Es'. exact (rv_admitted _ _ Hr). }
  unfold enqueued. rewrite (proj2 (returnedJob_Ok _ _ _ snapshot)) by (by destruct created).
  cbn [mbind result_bind]. rewrite reject_known; [done|].
  rewrite <- Eid, Hdef. by rewrite !bool_decide_eq_true_2.
Qed.

Lemma policy_find_answer scope id st found :
  findJob scope id st = Ok found -> found_job scope id found = Ok found.
Proof.
  unfold findJob. intros E. apply bind_Ok in E as (key & _ & E).
  destruct (memory_records st !! key) as [stored|]; [|by injection E as <-].
  apply bind_Ok in E as (g & (-> & Ha & _)%inspectStored_Ok & [= <-]). cbn [found_job].
  by rewrite (returnedJob_run _ _ _ Ha).
Qed.

Lemma findHistoryHead_answer scope id st found :
  memory_valid st -> findHistoryHead scope id st = Ok found -> found_head scope id found = Ok found.
Proof.
  intros Hv. unfold findHistoryHead. intros E. apply bind_Ok in E as (key & (-> & _)%job_key_Ok & E).
  destruct (memory_records st !! _) as [stored|] eqn:Hl; [|by injection E as <-].
  apply bind_Ok in E as (g & _ & E). apply bind_Ok in E as (head & Hhead & [= <-]).
  pose proof (record_inspected _ _ (mv_records _ Hv _ _ Hl)) as [Ha [] _ _]. cbn [fst snd] in Ha.
  rewrite (history_head _ eo_valid) in Hhead. injection Hhead as <-.
  destruct (entry_head_valid _ eo_valid) as [_ Hs]. cbn [found_head]. unfold parse_with. rewrite Hs.
  cbn [mbind result_bind head_of head_job head_scope]. rewrite reject_known; [done|].
  rewrite eo_job, eo_scope, (ad_scope _ _ _ Ha). unfold job_reference. cbn [jobRef_jobId].
  rewrite (ad_job _ _ _ Ha). by rewrite !bool_decide_eq_true_2.
Qed.

Lemma readHistoryPage_answer head index st page :
  readHistoryPage head index st = Ok page -> found_page head index page = Ok page.
Proof.
  unfold readHistoryPage. intros E. apply bind_Ok in E as (h & [_ ->]%parse_Ok & E).
  apply bind_Ok in E as ([[k s] g] & _ & E). destruct (entry_at s _) as [anchor|]; [|done].
  apply bind_Ok in E as (a & _ & E). apply bind_Ok in E as ([] & _ & E).
  assert (page = {| page_head := head; page_pageIndex := index; page_entries := page_entries page |}) as Ep.
  { unfold validatePolicyEvaluationJobHistoryPage in E. inv_res. done. }
  unfold found_page. rewrite Ep in E |- *. cbn [page_entries] in E.
  match type of E with validatePolicyEvaluationJobHistoryPage _ ?p = Ok _ =>
    assert (p = {| page_head := head; page_pageIndex := index; page_entries := page_entries page |}) as Eq end.
  { unfold validatePolicyEvaluationJobHistoryPage in E. by inv_res. }
  rewrite Eq in E. rewrite E. cbn. by rewrite Z.eqb_refl.
Qed.

(** ** Cancellation across an await *)

Lemma cancelled_terminal graph :
  good_graph graph -> graph_cancellation graph <> None -> pjob_terminal (graph_job graph) <> None.
Proof. intros [Hg%graph_valid_iff Hun] Hc Ht. apply Hc. by eapply open_uncancelled. Qed.

(** A cancelled job is as it was in every later state. *)
Lemma cancellation_stays calls st key stored stored' :
  memory_valid st -> memory_records st !! key = Some stored ->
  memory_records (run_calls calls st) !! key = Some stored' ->
  graph_cancellation (stored_snapshot stored) <> None -> stored_snapshot stored' = stored_snapshot stored.
Proof.
  intros Hv Hl Hl' Hc. destruct (calls_keep_job calls st key stored Hv Hl) as (s & Hs & Hgl).
  rewrite Hl' in Hs. injection Hs as <-. apply (gl_terminal _ _ Hgl).
  destruct (mv_records _ Hv _ _ Hl) as [(created & first & rest & Hh) _ _ _ _].
  destruct (stored_facts _ _ _ _ Hh) as (Hg & _). by apply cancelled_terminal.
Qed.

Lemma cancelJob_answer scope id principalId cancellationId reason now st result st' :
  memory_valid st -> cancelJob scope id principalId cancellationId reason now st = (Ok result, st') ->
  admitted result scope id /\
  exists stored intent, memory_records st !! ((scope, id) : JobKey) = Some stored /\
    graph_cancellation result = Some intent /\ PolicyEvaluationCancellationSchema intent = true /\
    pcancel_reason intent = reason /\ pcancel_requestedByPrincipalId intent = principalId /\
    (graph_cancellation (stored_snapshot stored) <> None -> result = stored_snapshot stored).
Proof.
  intros Hv E. destruct (mutate_answer _ _ _ _ _ _ _ _ Hv (cancel_performs _ _ _ _ _) E)
    as (stored & next & Hl & _ & Hw & Ha & Hres). cbn beta in Hw. split; [done|].
  assert (Hnext : exists intent, graph_cancellation next = Some intent /\
    pcancel_reason intent = reason /\ pcancel_requestedByPrincipalId intent = principalId /\
    history_exhausted next = false /\
    (graph_cancellation (stored_snapshot stored) <> None -> next = stored_snapshot stored) \/
    next = stored_snapshot stored /\ graph_cancellation next = Some intent /\
    pcancel_reason intent = reason /\ pcancel_requestedByPrincipalId intent = principalId).
  { destruct (graph_cancellation (stored_snapshot stored)) as [c|] eqn:Ec.
    - exists c. right. pose proof (cancelled_again _ _ _ _ Hw Ec) as ->. split; [done|]. split; [done|].
      unfold cancelPolicyEvaluationJob, parse_snapshot in Hw.
      apply bind_Ok in Hw as (g & [_ ->]%parse_Ok & Hw). apply bind_Ok in Hw as (i & [_ ->]%parse_Ok & Hw).
      apply bind_Ok in Hw as ([] & _ & Hw). rewrite Ec in Hw.
      apply bind_Ok in Hw as ([] & Hr%reject_when_Ok & _).
      rewrite !orb_false_iff, !negb_false_iff, !bool_decide_eq_true in Hr. cbn in Hr. tauto.
    - eexists. left. split; [by eapply cancel_records|]. split; [done|]. split; [done|]. split; [|done].
      pose proof (cancel_records _ _ _ Hw Ec) as Hn. unfold cancelPolicyEvaluationJob, parse_snapshot in Hw.
      apply bind_Ok in Hw as (g & [_ ->]%parse_Ok & Hw). apply bind_Ok in Hw as (i & [_ ->]%parse_Ok & Hw).
      apply bind_Ok in Hw as ([] & _ & Hw). rewrite Ec in Hw. apply bind_Ok in Hw as ([] & _ & Hw).
      apply bind_Ok in Hw as (t & _ & Hw). apply bind_Ok in Hw as ([] & _ & Hw). apply bind_Ok in Hw as ([] & _ & Hw).
      destruct (chargeUncertainPolicyEvaluationAcquisition _) as [charged b]. by apply parse_Ok in Hw as [_ ->]. }
  destruct Hnext as [intent Hnext]. exists stored, intent. split; [done|].
  assert (result = next) as ->.
  { destruct Hres as [->|(Hver & Hex & _)]; [done|]. destruct Hnext as [(_ & _ & _ & Hno & _)|[-> _]]; congruence. }
  assert (Hs : forall c, graph_cancellation next = Some c -> PolicyEvaluationCancellationSchema c = true).
  { intros c Ec. pose proof (ad_schema _ _ _ Ha) as Hs. unfold PolicyEvaluationJobSnapshotSchema in Hs.
    rewrite !andb_true_iff, Ec in Hs. cbn [optional] in Hs. tauto. }
  destruct Hnext as [(Ec & -> & -> & _ & Hsame)|(Hsame & Ec & -> & ->)]; split_and!; auto.
Qed.

Lemma cancelled_accepts scope id principal reason previous cancellationId raw intent :
  admitted raw scope id -> graph_cancellation raw = Some intent ->
  PolicyEvaluationCancellationSchema intent = true -> pcancel_reason intent = reason ->
  pcancel_requestedByPrincipalId intent = principalId principal ->
  (previous <> None -> pcancel_cancellationId intent = cancellationId) ->
  cancelled scope id principal reason previous cancellationId raw = Ok raw.
Proof.
  intros Ha Ec Hs Hr Hp Hid. unfold cancelled. rewrite (returnedJob_run _ _ _ Ha). cbn [mbind result_bind].
  rewrite Ec. unfold parse_with. rewrite Hs. cbn [mbind result_bind]. rewrite reject_known; [done|].
  rewrite Hr, Hp, (bool_decide_eq_true_2 (reason = reason)), (bool_decide_eq_true_2 (principalId _ = _)) by done.
  cbn [negb]. rewrite !orb_false_r. destruct previous; [|done]. cbn. by rewrite Hid, bool_decide_eq_true_2.
Qed.

(** ** The use cases without their checks *)

Context (TimestampSchema : string -> bool).

(** The method of the repository a worker operation amounts to. *)
Definition worker_method (scope : EvidenceScope) (fence : PolicyEvaluationWorkerMutationFence)
    (operation : WorkerOperation) (now : PolicyEvaluationTime) (reservationId : string) :
    Call PolicyJobMemory PolicyEvaluationJobSnapshot :=
  match operation with
  | operation_heartbeat => heartbeatJob scope fence now
  | operation_reserve input =>
      delta ← checked (parse PolicyEvaluationUsageSchema input); reserveUsage scope fence delta reservationId now
  | operation_interrupt reason =>
      checked (reject_when (negb (worker_reason reason)) PlainError) ;; interruptJob scope fence reason now
  end.

(** A last check that never fails can be left out. *)
Lemma check_last {A} (m : Call PolicyJobMemory A) (check : A -> res A) st :
  (forall a st', m st = (Ok a, st') -> check a = Ok a) -> (a ← m; checked (check a)) st = m st.
Proof.
  intros Hc. unfold mbind, Call_bind, checked. destruct (m st) as [[a|e] st'] eqn:E; [|done].
  by rewrite (Hc _ _ eq_refl).
Qed.

Lemma bind_head {A B} (head : res A) (f g : A -> Call PolicyJobMemory B) st :
  (forall a, head = Ok a -> f a st = g a st) -> (a ← checked head; f a) st = (a ← checked head; g a) st.
Proof. intros Hf. unfold mbind, Call_bind, checked. destruct head; [by apply Hf|done]. Qed.

Lemma bind_read {A B} (query : PolicyJobMemory -> res A) (f g : A -> Call PolicyJobMemory B) st :
  (forall a, query st = Ok a -> f a st = g a st) ->
  ((reads query : Call PolicyJobMemory A) ≫= f) st = ((reads query : Call PolicyJobMemory A) ≫= g) st.
Proof. intros Hf. unfold mbind, Call_bind, reads. destruct (query st); [by apply Hf|done]. Qed.

Lemma bind_meanwhile {B} (others : PolicyJobMemory -> PolicyJobMemory) (f : unit -> Call PolicyJobMemory B) st :
  (meanwhile others ≫= f) st = f tt (others st).
Proof. done. Qed.

Lemma worker_method_accepts scope fence operation now reservationId st result st' :
  memory_valid st -> OpaqueIdSchema reservationId = true ->
  worker_call (PolicyEvaluationJobWorkerRepository0 := policy_worker now reservationId) scope fence operation st =
    (Ok result, st') ->
  worked scope fence result = Ok result.
Proof.
  intros Hv Hid E. destruct operation; cbn [worker_call] in E.
  - by eapply (worked_accepts (op_heartbeat fence)); [| | | |exact E].
  - apply call_bind_Ok in E as (delta & st1 & [_ ->]%checked_Ok & E).
    by eapply (worked_accepts (op_reserve fence reservationId delta)); [| | | |exact E].
  - apply call_bind_Ok in E as ([] & st1 & [_ ->]%checked_Ok & E).
    by eapply (worked_accepts (op_interrupt fence input)); [| | | |exact E].
Qed.

Definition bare_cancel (route : JobRoute) (jobId : string) (reason : PolicyCancellationReason)
    (newCancellationId : string) (others : PolicyJobMemory -> PolicyJobMemory)
    (now : PolicyEvaluationTime) : Call PolicyJobMemory PolicyEvaluationJobSnapshot :=
  '(principal, scope, jobId) ← checked (cancel_head TimestampSchema route jobId);
  previousRaw ← reads (findJob scope jobId) : Call PolicyJobMemory _;
  previous ← checked (retained_cancellation scope jobId principal reason previousRaw);
  cancellationId ← checked (cancellation_id previous newCancellationId);
  meanwhile others ;;
  cancelJob scope jobId (principalId principal) cancellationId reason now.

Lemma cancel_accepts route jobId reason newCancellationId calls now st :
  memory_valid st ->
  cancelPolicyEvaluationJobRequest (PolicyEvaluationJobControlRepository0 := policy_control now) TimestampSchema
    route jobId reason newCancellationId (run_calls calls) st =
  bare_cancel route jobId reason newCancellationId (run_calls calls) now st.
Proof.
  intros Hv. unfold cancelPolicyEvaluationJobRequest, bare_cancel. apply bind_head.
  intros [[principal scope] id] _. apply bind_read. intros found Hfind.
  apply bind_head. intros previous Hp. apply bind_head. intros cid Hcid.
  rewrite !bind_meanwhile. apply check_last. intros result st' E.
  destruct (calls_evolve calls st Hv) as [Hv' _].
  destruct (cancelJob_answer _ _ _ _ _ _ _ _ _ Hv' E) as (Ha & stored & intent & Hl & Ec & Hs & Hr & Hby & Hsame).
  eapply cancelled_accepts; [done|exact Ec|done|done|done|]. intros Hprev.
  unfold retained_cancellation in Hp. rewrite (policy_find_answer _ _ _ _ Hfind) in Hp.
  cbn [mbind result_bind] in Hp. apply bind_Ok in Hp as ([] & _ & [= <-]).
  unfold findJob in Hfind. apply bind_Ok in Hfind as (key & (-> & _)%job_key_Ok & Hfind).
  destruct (memory_records st !! ((scope, id) : JobKey)) as [before|] eqn:Hb.
  2: { injection Hfind as <-. done. }
  apply bind_Ok in Hfind as (g & (-> & _ & _)%inspectStored_Ok & [= <-]).
  cbn [mbind option_bind] in Hprev, Hcid.
  pose proof (cancellation_stays calls st _ _ _ Hv Hb Hl Hprev) as Eq.
  destruct (graph_cancellation (stored_snapshot before)) as [c|] eqn:Ecb; [|done].
  rewrite Hsame, Eq, Ecb in Ec by (by rewrite Eq, Ecb). injection Ec as <-. by injection Hcid.
Qed.

(** C18. The in-memory repository keeps every promise the use cases check: on any
    reachable memory a use case is exactly its authorization followed by the
    method of the repository, whose answer it never has to reject; the
    cancellation too, whatever calls other callers make between its two awaits. *)
Theorem memory_keeps_policy_contract st now reservationId :
  policy_reachable st -> OpaqueIdSchema reservationId = true ->
  let control := policy_control now in
  let worker := policy_worker now reservationId in
  (forall route input at_ jobId, enqueuePolicyEvaluationJob TimestampSchema route input at_ jobId st =
     ('(_, request, id) ← checked (enqueue_head TimestampSchema route input at_ jobId);
      createJob request id now : Call PolicyJobMemory _) st) /\
  (forall route jobId, readPolicyEvaluationJob TimestampSchema route jobId st =
     ('(scope, id) ← checked (read_head TimestampSchema route jobId);
      reads (findJob scope id) : Call PolicyJobMemory _) st) /\
  (forall route jobId, readPolicyEvaluationJobHistoryHead TimestampSchema route jobId st =
     ('(scope, id) ← checked (read_head TimestampSchema route jobId);
      reads (findHistoryHead scope id) : Call PolicyJobMemory _) st) /\
  (forall route jobId head index, readPolicyEvaluationJobHistoryPage TimestampSchema route jobId head index st =
     ('(head, index) ← checked (page_head_of TimestampSchema route jobId head index);
      reads (readHistoryPage head index) : Call PolicyJobMemory _) st) /\
  (forall route jobId reason newCancellationId calls,
     cancelPolicyEvaluationJobRequest TimestampSchema route jobId reason newCancellationId (run_calls calls) st =
     bare_cancel route jobId reason newCancellationId (run_calls calls) now st) /\
  (forall route jobId attemptId leaseId,
     claimPolicyEvaluationJobRequest TimestampSchema route jobId attemptId leaseId st =
     ('(principal, scope, id, attempt, lease) ← checked (claim_head TimestampSchema route jobId attemptId leaseId);
      claimJob scope id (principalId principal) attempt lease now : Call PolicyJobMemory _) st) /\
  (forall route fence operation, mutatePolicyEvaluationWorkerJob TimestampSchema route fence operation st =
     ('(scope, fence) ← checked (worker_head TimestampSchema route fence);
      worker_method scope fence operation now reservationId) st).
Proof.
  intros Hv%reachable_memory Hid control worker. split_and!.
  - intros route input at_ jobId. apply bind_head. intros [[scope request] id] Hh.
    apply check_last. intros [created snapshot] st' E.
    assert (scope = request_scope request) as ->.
    { unfold enqueue_head in Hh. apply bind_Ok in Hh as ([p s] & _ & Hh). apply bind_Ok in Hh as (d & _ & Hh).
      apply bind_Ok in Hh as (t & _ & Hh). apply bind_Ok in Hh as (r & [_ ->]%parse_Ok & Hh).
      by apply bind_Ok in Hh as (i & _ & [= <- <- _]). }
    by eapply policy_create_answer.
  - intros route jobId. apply bind_head. intros [scope id] _. apply check_last.
    intros found st' [= Hf _]. by eapply policy_find_answer.
  - intros route jobId. apply bind_head. intros [scope id] _. apply check_last.
    intros found st' [= Hf _]. by eapply findHistoryHead_answer.
  - intros route jobId head index. apply bind_head. intros [h i] _. apply check_last.
    intros page st' [= Hf _]. by eapply readHistoryPage_answer.
  - intros route jobId reason newCancellationId calls. by apply cancel_accepts.
  - intros route jobId attemptId leaseId. apply bind_head. intros [[[[p scope] id] a] l] _. apply check_last.
    intros result st' E. by eapply claimed_accepts.
  - intros route fence operation. apply bind_head. intros [scope f] _.
    assert (Em : worker_call scope f operation = worker_method scope f operation now reservationId) by (by destruct operation).
    rewrite <- Em. apply check_last. intros result st' E. by eapply worker_method_accepts.
Qed.
End memory.
