(* ===== verification/PolicyWitnesses.v ===== *)
(** * A concrete policy-evaluation job

    One request, its job and an execution of it: claim, acquisition, heartbeat,
    expiry, a second claim and the deadline.  The properties of the scheduler
    are instantiated on it; everything evaluates. *)

From stdpp Require Import relations.
From Stdlib Require Import Ascii.
From stdpp Require Import gmap.
From S2P Require Import Prelude Errors Primitives Identity PolicyTime PolicyEvaluationJob.
From S2P Require Import PolicyJobSnapshot PolicyJobInvariant PolicyScheduler.
From S2P Require Import PolicySchedulerProofs PolicySchedulerContract PolicyJobHistory.
From S2P Require Import PolicySchedulerSystem PolicyHistoryProofs PolicyJobOutbox.
From S2P Require Import MemoryPolicyJobRepository PolicyRepositoryProofs PolicyRepositorySystem.
From S2P Require Import PolicyRepositoryHistory PolicyRepositoryCommit PolicyJobUseCases.
From S2P Require Import PolicyUseCaseProofs.
#[local] Open Scope Z_scope.

Definition digest_of (c : ascii) : string := String.string_of_list_ascii (replicate 64 c).

(** The instant [seconds] and [milliseconds] after the epoch. *)
Definition at_time (seconds : Z) (milliseconds : list Z) : PolicyEvaluationTime :=
  {| wholeSeconds := seconds; fractionDigits := milliseconds |}.

Definition policy_limits : PolicyEvaluationExecutionLimits := {|
  heartbeatIntervalMilliseconds := 200; leaseDurationMilliseconds := 1000;
  maxAcquisitionRecordBytes := 4096; maxAcquisitionRecords := 10; maxArtifactReadBytes := 0;
  maxAttempts := 2; maxRuleEvaluations := 4; perAttemptTimeoutMilliseconds := 3000;
  retryBackoffMilliseconds := 500; retryableErrors := [retryable_lease_expired];
  totalDeadlineMilliseconds := 10000
|}.

Definition policy_request : PolicyEvaluationRequest := {|
  request_candidate := {| candidateRef_candidateId := "candidate_one";
    candidateRef_candidateVersionId := "candidate_one_v1";
    candidateRef_definitionSha256 := digest_of "a" |};
  request_evaluationRequestId := "request_one";
  request_evaluationTime := at_time 1000 [0; 0; 0];
  request_limits := policy_limits;
  request_policy := {| policyRef_definitionSha256 := digest_of "b"; policyRef_policyId := "policy_one";
    policyRef_policyVersionId := "policy_one_v1" |};
  request_createdAt := at_time 1000 [0; 0; 0];
  request_createdByPrincipalId := "user_one";
  request_definitionSha256 := digest_of "c";
  request_scope := {| environmentId := "env_prod"; projectId := "proj_api"; tenantId := "tenant_one" |}
|}.

(** The value of a computation that succeeds. *)
Definition value_of (fallback : PolicyEvaluationJobSnapshot) (m : res PolicyEvaluationJobSnapshot) :
    PolicyEvaluationJobSnapshot :=
  match m with Ok graph => graph | Throw _ => fallback end.

Definition no_graph : PolicyEvaluationJobSnapshot := {|
  graph_request := policy_request;
  graph_job := {| pjob_jobId := ""; pjob_request := {| requestRef_definitionSha256 := "";
      requestRef_evaluationRequestId := "" |}; pjob_definitionSha256 := "";
    pjob_scope := request_scope policy_request; pjob_createdAt := at_time 0 [];
    pjob_createdByPrincipalId := ""; pjob_deadlineAt := at_time 0 []; pjob_updatedAt := at_time 0 [];
    pjob_stateVersion := 0; pjob_recoveryEpoch := 0; pjob_lastFencingToken := 0;
    pjob_attemptCount := 0; pjob_status := job_queued; pjob_currentLease := None;
    pjob_snapshot := None; pjob_result := None; pjob_retryAt := None; pjob_terminal := None |};
  graph_attempts := []; graph_cancellation := None;
  graph_usage := {| usage_reads := 0; usage_records := 0; usage_recordBytes := 0;
    usage_references := 0; usage_referenceBytes := 0; usage_artifactReadBytes := 0;
    usage_ruleEvaluations := 0 |};
  graph_acquisitionAllowance := None
|}.

Definition queued_graph : PolicyEvaluationJobSnapshot := Eval vm_compute in
  value_of no_graph (createPolicyEvaluationJobGraph policy_request "job_one" (at_time 1000 [2; 5; 0]) 0
    (digest_of "d")).

Definition policy_fence (token : Z) (attemptId leaseId : string) : PolicyEvaluationWorkerMutationFence := {|
  pfence_jobId := "job_one"; pfence_attemptId := attemptId; pfence_workerId := "worker_one";
  pfence_leaseId := leaseId; pfence_fencingToken := token; pfence_recoveryEpoch := 0
|}.

Definition first_fence : PolicyEvaluationWorkerMutationFence := policy_fence 1 "attempt_one" "lease_one".
Definition second_fence : PolicyEvaluationWorkerMutationFence := policy_fence 2 "attempt_two" "lease_two".

(** Each operation and the instant at which it runs. *)
Definition policy_run : list (PolicyEvaluationTime * PolicyOperation) := [
  (at_time 1000 [5; 0; 0], op_claim first_fence);
  (at_time 1000 [6; 0; 0], op_reserve_acquisition first_fence "allowance_one");
  (at_time 1000 [8; 0; 0], op_heartbeat first_fence);
  (at_time 1001 [0; 0; 0], op_settle_acquisition first_fence "allowance_one" (Some {|
     acquired_reads := 2; acquired_records := 2; acquired_references := 1;
     acquired_recordBytes := 512; acquired_referenceBytes := 64 |}));
  (at_time 1003 [0; 0; 0], op_reclaim);
  (at_time 1003 [5; 0; 0], op_claim second_fence)
].

Definition run_next (graph : PolicyEvaluationJobSnapshot) (stamped : PolicyEvaluationTime * PolicyOperation) :
    PolicyEvaluationJobSnapshot :=
  value_of no_graph (run_operation graph (fst stamped) 0 (snd stamped)).

Definition claimed_once : PolicyEvaluationJobSnapshot := Eval vm_compute in
  foldl run_next queued_graph (take 1 policy_run).
Definition before_reclaim : PolicyEvaluationJobSnapshot := Eval vm_compute in
  foldl run_next queued_graph (take 4 policy_run).
Definition claimed_twice : PolicyEvaluationJobSnapshot := Eval vm_compute in
  foldl run_next queued_graph policy_run.

Lemma sample_good graph :
  PolicyEvaluationJobSnapshotSchema graph = true -> graph_cancellation graph = None -> good_graph graph.
Proof. intros H E. split; [done|]. intros Hc. by rewrite E in Hc. Qed.

Lemma queued_good : good_graph queued_graph.
Proof. apply sample_good; [vm_compute|]; reflexivity. Qed.

Lemma run_step graph next now operation :
  PolicyEvaluationTimeSchema now = true -> OperationSchema operation = true ->
  (forall intent, operation <> op_cancel intent) -> run_operation graph now 0 operation = Ok next ->
  step graph next.
Proof. intros Hn Ho Hc Hr. econstructor; [exact Hn|exact Ho| |exact Hr]. intros intent E. by destruct (Hc intent). Qed.

(** The steps of [policy_run], one by one. *)
Lemma run_reachable : rtc step claimed_once claimed_twice.
Proof.
  assert (H : forall l graph, Forall (fun s => PolicyEvaluationTimeSchema (fst s) = true /\
      OperationSchema (snd s) = true /\ forall intent, snd s <> op_cancel intent) l ->
    (forall i s, l !! i = Some s -> run_operation (foldl run_next graph (take i l)) (fst s) 0 (snd s) =
       Ok (foldl run_next graph (take (S i) l))) ->
    rtc step graph (foldl run_next graph l)).
  { induction l as [|s l IH]; intros graph Hl Hr; [constructor|].
    apply Forall_cons in Hl as [(H1 & H2 & H3) Hl]. eapply rtc_l.
    - eapply run_step; [exact H1|exact H2|exact H3|]. apply (Hr 0%nat s). done.
    - apply IH; [done|]. intros i t Hi. apply (Hr (S i) t). done. }
  change claimed_twice with (foldl run_next claimed_once (drop 1 policy_run)).
  apply H.
  - repeat constructor; try done.
  - intros i s Hi. do 5 (destruct i as [|i]; [injection Hi as <-; vm_compute; reflexivity|]). done.
Qed.

(** ** The properties on the sample *)

Lemma add_milliseconds_exact_witness :
  let value := at_time 1000 [9; 9; 9; 5] in
  PolicyEvaluationTimeSchema value = true /\ duration_ok 1 /\
  match addPolicyEvaluationMilliseconds value 1 with
  | Ok sum =>
      PolicyEvaluationTimeSchema sum = true /\
      time sum = time value + 1 * POLICY_EVALUATION_TIME_UNITS_PER_MILLISECOND
  | Throw _ => MAX_TIME_KEY <= time value + 1 * POLICY_EVALUATION_TIME_UNITS_PER_MILLISECOND
  end.
Proof.
  intros value. assert (Hv : PolicyEvaluationTimeSchema value = true) by (vm_compute; reflexivity).
  assert (Hd : duration_ok 1) by (unfold duration_ok, MAX_SAFE_INTEGER; lia).
  split; [exact Hv|]. split; [exact Hd|]. exact (PolicyTime.add_milliseconds_exact value 1 Hv Hd).
Defined.

Lemma claimed_once_good : good_graph claimed_once.
Proof. apply sample_good; [vm_compute|]; reflexivity. Qed.

Lemma claimed_twice_good : good_graph claimed_twice.
Proof. apply sample_good; [vm_compute|]; reflexivity. Qed.


(** From the first claim to the second, by way of an expired lease. *)
Lemma job_only_advances_witness :
  good_graph claimed_once /\ rtc step claimed_once claimed_twice /\
  good_graph claimed_twice /\ graph_later claimed_once claimed_twice.
Proof.
  split; [exact claimed_once_good|]. split; [exact run_reachable|].
  exact (PolicySchedulerSystem.job_only_advances claimed_once claimed_twice claimed_once_good run_reachable).
Defined.

Lemma superseded_fence_refused_witness :
  pfence_fencingToken first_fence < pjob_lastFencingToken (graph_job claimed_twice) /\
  is_ok (run_operation claimed_twice (at_time 1003 [6; 0; 0]) 0 (op_heartbeat first_fence)) = false.
Proof.
  assert (H : pfence_fencingToken first_fence < pjob_lastFencingToken (graph_job claimed_twice))
    by (vm_compute; reflexivity).
  split; [exact H|].
  apply (PolicySchedulerSystem.superseded_fence_refused claimed_twice claimed_twice _ _ _ first_fence).
  - exact claimed_twice_good.
  - apply rtc_refl.
  - reflexivity.
  - exact H.
Defined.

Lemma worker_call_in_time_witness :
  let next := value_of no_graph (run_operation claimed_once (at_time 1000 [8; 0; 0]) 0
                                   (op_heartbeat first_fence)) in
  run_operation claimed_once (at_time 1000 [8; 0; 0]) 0 (op_heartbeat first_fence) = Ok next /\
  exists lease attempt,
    pjob_currentLease (graph_job claimed_once) = Some lease /\
    last (graph_attempts claimed_once) = Some attempt /\
    first_fence = please_mutationFence lease /\ pattempt_mutationFence attempt = first_fence.
Proof.
  intros next.
  assert (E : run_operation claimed_once (at_time 1000 [8; 0; 0]) 0 (op_heartbeat first_fence) = Ok next)
    by (vm_compute; reflexivity).
  split; [exact E|].
  destruct (PolicySchedulerSystem.worker_call_in_time claimed_once (at_time 1000 [8; 0; 0]) 0
    (op_heartbeat first_fence) next first_fence claimed_once_good E eq_refl)
    as (lease & attempt & H1 & H2 & H3 & H4 & _).
  exists lease, attempt. split; [exact H1|]. split; [exact H2|]. split; [exact H3|exact H4].
Defined.

(** The second worker is still holding its lease when the deadline passes. *)
Lemma overdue_job_ends_witness :
  pjob_terminal (graph_job claimed_twice) = None /\
  exists next,
    reclaimPolicyEvaluationJob claimed_twice (at_time 1010 [0; 2; 5]) 0 = Ok next /\
    good_graph next /\ graph_later claimed_twice next /\
    pjob_status (graph_job next) = job_timed_out /\ pjob_currentLease (graph_job next) = None.
Proof.
  split; [reflexivity|].
  destruct (PolicySchedulerSystem.overdue_job_ends claimed_twice (at_time 1010 [0; 2; 5])
    claimed_twice_good) as (next & E & Hg & Hl & Hs & Hc & _).
  - vm_compute. reflexivity.
  - reflexivity.
  - vm_compute. reflexivity.
  - vm_compute. discriminate.
  - vm_compute. discriminate.
  - exists next. split; [exact E|]. split; [exact Hg|]. split; [exact Hl|]. split; [exact Hs|exact Hc].
Defined.

(** ** Digests that tell the states of the sample apart *)

#[local] Instance sample_digests : PolicyDigests := {|
  digestPolicyEvaluationRequestDefinition _ _ := digest_of "c";
  digestJob _ _ _ := digest_of "d";
  digestGraph graph :=
    digest_of (ascii_of_nat (48 + Z.to_nat (pjob_stateVersion (graph_job graph) mod 10)));
  digestEntry definition := digest_of (ascii_of_nat (97 + Z.to_nat (history_sequence definition mod 6)));
  entryBytes _ := 1000;
  pageBytes page := 1000 * Z.of_nat (length (page_entries page))
|}.

Definition no_entry : PolicyEvaluationJobHistoryEntry := {|
  entry_definition := entry_definition_of None None no_graph None "" op_created;
  entry_entrySha256 := ""
|}.

Definition entry_or_none (m : res PolicyEvaluationJobHistoryEntry) : PolicyEvaluationJobHistoryEntry :=
  match m with Ok entry => entry | Throw _ => no_entry end.

Definition created_entry_sample : PolicyEvaluationJobHistoryEntry := Eval vm_compute in
  entry_or_none (createPolicyEvaluationJobHistoryEntry None None queued_graph op_created).

Definition claim_entry : PolicyEvaluationJobHistoryEntry := Eval vm_compute in
  entry_or_none (createPolicyEvaluationJobHistoryEntry (Some queued_graph) (Some created_entry_sample)
    claimed_once (op_claim first_fence)).

Lemma claim_recorded :
  recorded queued_graph created_entry_sample ([] ++ [claim_entry]) claimed_once claim_entry.
Proof.
  eapply (recorded_operation _ _ _ _ _ (at_time 1000 [5; 0; 0]) 0 (op_claim first_fence)).
  - apply recorded_start.
  - vm_compute. reflexivity.
  - vm_compute. reflexivity.
  - intros intent E. discriminate E.
  - vm_compute. reflexivity.
  - vm_compute. reflexivity.
Qed.

Lemma history_replays_witness :
  createPolicyEvaluationJobHistoryEntry None None queued_graph op_created = Ok created_entry_sample /\
  recorded queued_graph created_entry_sample ([] ++ [claim_entry]) claimed_once claim_entry /\
  fold_result replayPolicyEvaluationJobHistoryEntry queued_graph [claim_entry] = Ok claimed_once.
Proof.
  assert (E : createPolicyEvaluationJobHistoryEntry None None queued_graph op_created =
    Ok created_entry_sample) by (vm_compute; reflexivity).
  split; [exact E|]. split; [exact claim_recorded|].
  exact (proj1 (PolicyHistoryProofs.history_replays queued_graph created_entry_sample _ claimed_once
    claim_entry queued_good E claim_recorded)).
Defined.

(** * A concrete policy job repository

    The job of the sample request, created, claimed, given an allowance and
    cancelled through the repository's methods.  The properties of the
    repository are instantiated on it. *)

#[local] Existing Instance sample_digests.

Definition sample_scope : EvidenceScope := request_scope policy_request.
Definition sample_key : JobKey := (sample_scope, "job_one").

Definition repository_calls : list RepositoryCall := [
  CreateCall policy_request "job_one" (at_time 1000 [2; 5; 0]);
  ClaimCall sample_scope "job_one" "worker_one" "attempt_one" "lease_one" (at_time 1000 [5; 0; 0]);
  ReserveAcquisitionCall sample_scope first_fence "allowance_one" (at_time 1000 [6; 0; 0])
    (at_time 1000 [6; 0; 0])
].

Definition cancellation_call : RepositoryCall :=
  CancelCall sample_scope "job_one" "user_one" "cancellation_one" operator_requested (at_time 1000 [7; 0; 0]).

Definition sample_memory : PolicyJobMemory := run_calls repository_calls emptyPolicyMemory.

Definition no_record : StoredPolicyJob := {|
  stored_snapshot := no_graph; stored_latest := no_entry; stored_pages := ∅; stored_outbox := []
|}.

Definition sample_stored : StoredPolicyJob := default no_record (memory_records sample_memory !! sample_key).

Lemma sample_reachable : policy_reachable sample_memory.
Proof. by exists repository_calls. Qed.

Lemma sample_lookup : memory_records sample_memory !! sample_key = Some sample_stored.
Proof. vm_compute. reflexivity. Qed.

(** Creation, claim and allowance each left an entry. *)
Example sample_version : pjob_stateVersion (graph_job (stored_snapshot sample_stored)) = 3.
Proof. vm_compute. reflexivity. Qed.

Example sample_outbox : length (stored_outbox sample_stored) = 1%nat.
Proof. vm_compute. reflexivity. Qed.

(** ** The properties on the sample *)

Lemma stored_history_complete_witness :
  memory_records sample_memory !! sample_key = Some sample_stored /\
  exists created first rest,
    fold_result replayPolicyEvaluationJobHistoryEntry created rest = Ok (stored_snapshot sample_stored) /\
    entries_continue (first :: rest) = true /\ length (first :: rest) = 3%nat.
Proof.
  split; [exact sample_lookup|].
  destruct (PolicyRepositoryHistory.stored_history_complete sample_memory sample_key sample_stored
    sample_reachable sample_lookup) as (created & first & rest & _ & Hf & Hc & _ & Hlen & _).
  exists created, first, rest. split; [exact Hf|]. split; [exact Hc|].
  apply Nat2Z.inj. rewrite <- Hlen. exact sample_version.
Defined.

Lemma job_history_finite_witness :
  memory_records sample_memory !! sample_key = Some sample_stored /\
  3 + job_commits sample_key (replicate 5 cancellation_call) sample_memory <=
    MAX_POLICY_EVALUATION_JOB_HISTORY_ENTRIES.
Proof.
  split; [exact sample_lookup|]. rewrite <- sample_version.
  exact (proj1 (PolicyRepositoryHistory.job_history_finite sample_memory sample_key sample_stored
    (replicate 5 cancellation_call) sample_reachable sample_lookup)).
Defined.

(** Five cancellations change the job once. *)
Example cancelled_once : job_commits sample_key (replicate 5 cancellation_call) sample_memory = 1.
Proof. vm_compute. reflexivity. Qed.

Lemma request_keeps_its_job_witness :
  let calls := tl repository_calls ++ [cancellation_call] in
  let created := fst (createJob policy_request "job_one" (at_time 1000 [2; 5; 0]) emptyPolicyMemory) in
  created = Ok (true, queued_graph) /\
  exists snapshot',
    createJob policy_request "job_two" (at_time 1002 [0; 0; 0])
      (run_calls calls (after (CreateCall policy_request "job_one" (at_time 1000 [2; 5; 0])) emptyPolicyMemory)) =
      (Ok (false, snapshot'),
       run_calls calls (after (CreateCall policy_request "job_one" (at_time 1000 [2; 5; 0])) emptyPolicyMemory)) /\
    graph_later queued_graph snapshot'.
Proof.
  intros calls created. assert (E : created = Ok (true, queued_graph)) by (vm_compute; reflexivity).
  split; [exact E|].
  apply (PolicyRepositoryHistory.request_keeps_its_job emptyPolicyMemory policy_request "job_one"
    (at_time 1000 [2; 5; 0]) true queued_graph calls "job_two" (at_time 1002 [0; 0; 0])).
  - by exists [].
  - exact E.
  - vm_compute. reflexivity.
Defined.

(** The first entry's head still reads the page as it was then. *)
Lemma history_pages_read_back_witness :
  memory_records sample_memory !! sample_key = Some sample_stored /\
  exists first rest, length (first :: rest) = 3%nat /\
    readHistoryPage (head_of first) 0 sample_memory = Ok {|
      page_head := head_of first; page_pageIndex := 0; page_entries := [first] |}.
Proof.
  split; [exact sample_lookup|].
  destruct (PolicyRepositoryHistory.history_pages_read_back sample_memory sample_key sample_stored
    sample_reachable sample_lookup) as (created & first & rest & _ & Hlen & Hread).
  exists first, rest. split; [apply Nat2Z.inj; rewrite Hlen; exact sample_version|].
  rewrite (Hread 0%nat first 0 eq_refl (Z.le_refl 0) (Z.le_refl 0)). vm_compute. reflexivity.
Defined.

Lemma sample_digests_sound : digests_sound.
Proof.
  assert (Hn : forall c, c ∈ map (fun n => ascii_of_nat (48 + n)) (seq 0 10) ++
      map (fun n => ascii_of_nat (97 + n)) (seq 0 6) -> Sha256Schema (digest_of c) = true).
  { apply Forall_forall. repeat constructor. }
  assert (Hin : forall n z base, 0 < z -> ascii_of_nat (base + Z.to_nat (n mod z)) ∈
      map (fun n => ascii_of_nat (base + n)) (seq 0 (Z.to_nat z))).
  { intros n z base Hz. apply list_elem_of_fmap. exists (Z.to_nat (n mod z)). split; [done|].
    apply elem_of_seq. pose proof (Z.mod_pos_bound n z Hz). lia. }
  constructor.
  - intros graph. apply Hn, elem_of_app. left. by apply (Hin _ 10 48%nat).
  - intros definition. apply Hn, elem_of_app. right. by apply (Hin _ 6 97%nat).
Qed.

Definition sample_mutation : Mutation := {|
  mutation_scope := sample_scope; mutation_job := "job_one"; mutation_now := at_time 1000 [7; 0; 0];
  mutation_work := fun snapshot now _ => cancelPolicyEvaluationJob snapshot {|
    pcancel_jobId := "job_one";
    pcancel_cancellationId := default "cancellation_one" (pcancel_cancellationId <$> graph_cancellation snapshot);
    pcancel_scope := sample_scope; pcancel_requestedAt := now; pcancel_requestedByPrincipalId := "user_one";
    pcancel_reason := operator_requested |};
  mutation_operation := fun next =>
    match graph_cancellation next with Some intent => Ok (op_cancel intent) | None => Throw ZodError end
|}.

Definition cancelled_graph : PolicyEvaluationJobSnapshot := Eval vm_compute in
  value_of no_graph (mutation_work sample_mutation (stored_snapshot sample_stored)
    (mutation_now sample_mutation) (memory_recoveryEpoch sample_memory)).

Lemma sample_transition :
  mutation_work sample_mutation (stored_snapshot sample_stored) (mutation_now sample_mutation)
    (memory_recoveryEpoch sample_memory) = Ok cancelled_graph.
Proof. vm_compute. reflexivity. Qed.

Lemma accepted_transition_commits_witness :
  mutation_of cancellation_call = Some sample_mutation /\
  run_mutation sample_mutation sample_memory =
    (Ok cancelled_graph, after cancellation_call sample_memory) /\
  pjob_status (graph_job cancelled_graph) = job_cancelled.
Proof.
  assert (Em : mutation_of cancellation_call = Some sample_mutation) by reflexivity.
  assert (Hn : PolicyEvaluationTimeSchema (mutation_now sample_mutation) = true) by (vm_compute; reflexivity).
  split; [exact Em|].
  destruct (PolicyRepositoryCommit.accepted_transition_commits sample_memory cancellation_call sample_mutation
    sample_stored cancelled_graph sample_reachable sample_digests_sound Em sample_lookup I Hn sample_transition)
    as (result & Hres & [[Hrun _]|[(entry & operation & _ & _ & _ & _ & _ & Hbig) _]]).
  - split; [|reflexivity]. destruct Hres as [->|[Hbad _]]; [exact Hrun|vm_compute in Hbad; discriminate Hbad].
  - vm_compute in Hbig. discriminate Hbig.
Defined.

(** ** The use cases on the sample *)

Definition any_instant (_ : string) : bool := true.

Definition policy_principal (id : string) (type : PrincipalType) (method : AuthenticationMethod)
    (held : list Capability) : PrincipalContext := {|
  authentication := {| authenticatedAt := "2025-01-01T00:00:00Z"; credentialId := Some "credential_one";
                       authentication_method := method |};
  capabilities := held; principalId := id; principalType := type; requestId := "request_0001";
  resourceScope := tenant_scope; roles := [member]; principal_tenantId := "tenant_one"
|}.

Definition policy_route (principal : PrincipalContext) : JobRoute := {|
  jobRoute_principal := principal; jobRoute_projectId := "proj_api"; jobRoute_environmentId := "env_prod"
|}.

Definition operator_route : JobRoute :=
  policy_route (policy_principal "user_one" user oidc [policy_evaluate; policy_read; policy_evaluation_cancel]).
Definition worker_route : JobRoute :=
  policy_route (policy_principal "worker_one" service service_token [policy_evaluation_execute]).

#[local] Existing Instances policy_reader policy_control policy_worker.

Definition sample_control := policy_control (at_time 1000 [7; 0; 0]).
Definition sample_worker := policy_worker (at_time 1000 [7; 0; 0]) "reservation_one".

(** A call that evaluates to an answer. *)
Lemma call_answers {A} (m : res A * PolicyJobMemory) : is_ok (fst m) = true -> exists a st, m = (Ok a, st).
Proof. destruct m as [[a|e] st]; [by exists a, st|done]. Qed.

Lemma policy_control_sound_witness :
  exists snapshot intent,
    fst (cancelPolicyEvaluationJobRequest (PolicyEvaluationJobControlRepository0 := sample_control) any_instant
      operator_route "job_one" operator_requested "cancellation_one" id sample_memory) = Ok snapshot /\
    graph_cancellation snapshot = Some intent /\ pcancel_requestedByPrincipalId intent = "user_one".
Proof.
  destruct (call_answers (cancelPolicyEvaluationJobRequest (PolicyEvaluationJobControlRepository0 := sample_control)
    any_instant operator_route "job_one" operator_requested "cancellation_one" id sample_memory))
    as (snapshot & st' & E); [vm_compute; reflexivity|].
  destruct (PolicyUseCaseProofs.policy_control_sound any_instant (State := PolicyJobMemory)
    (PolicyEvaluationJobControlRepository0 := sample_control) operator_route sample_memory) as (_ & _ & Hc).
  destruct (Hc _ _ _ _ _ _ E) as (scope & intent & _ & _ & Ei & _ & Hby).
  exists snapshot, intent. split; [exact (f_equal fst E)|]. split; [exact Ei|exact Hby].
Defined.

Lemma policy_worker_sound_witness :
  exists snapshot,
    fst (mutatePolicyEvaluationWorkerJob (PolicyEvaluationJobWorkerRepository0 := sample_worker) any_instant
      worker_route first_fence operation_heartbeat sample_memory) = Ok snapshot /\
    pattempt_mutationFence <$> last (graph_attempts snapshot) = Some first_fence.
Proof.
  destruct (call_answers (mutatePolicyEvaluationWorkerJob (PolicyEvaluationJobWorkerRepository0 := sample_worker)
    any_instant worker_route first_fence operation_heartbeat sample_memory))
    as (snapshot & st' & E); [vm_compute; reflexivity|].
  destruct (PolicyUseCaseProofs.policy_worker_sound any_instant (State := PolicyJobMemory)
    (PolicyEvaluationJobWorkerRepository0 := sample_worker) worker_route sample_memory) as (_ & Hm).
  destruct (Hm _ _ _ _ E) as (scope & _ & _ & _ & Hf). exists snapshot.
  split; [exact (f_equal fst E)|exact Hf].
Defined.

Lemma memory_keeps_policy_contract_witness :
  OpaqueIdSchema "reservation_one" = true /\
  claimPolicyEvaluationJobRequest (PolicyEvaluationJobWorkerRepository0 := sample_worker) any_instant worker_route
    "job_one" "attempt_two" "lease_two" sample_memory =
  ('(principal, scope, id, attempt, lease) ←
     checked (claim_head any_instant worker_route "job_one" "attempt_two" "lease_two");
   claimJob scope id (principalId principal) attempt lease (at_time 1000 [7; 0; 0]) : Call PolicyJobMemory _)
    sample_memory.
Proof.
  assert (Hid : OpaqueIdSchema "reservation_one" = true) by (vm_compute; reflexivity). split; [exact Hid|].
  destruct (PolicyUseCaseProofs.memory_keeps_policy_contract any_instant sample_memory (at_time 1000 [7; 0; 0])
    "reservation_one" sample_reachable Hid) as (_ & _ & _ & _ & _ & Hc & _).
  exact (Hc worker_route "job_one" "attempt_two" "lease_two").
Defined.
