(* ===== verification/ReviewerMatching.v ===== *)
(** * Matching reviewers with approval groups

    [packages/core/src/release/match-reviewer-groups.ts]: which distinct
    reviewer stands for which approval group of a release.  The function
    validates and sorts its input, then runs the Hungarian algorithm on a
    matrix of groups against reviewers and placeholder columns.  Arrays are
    lists read with the source's [?? 0] fallbacks; [Number.POSITIVE_INFINITY]
    is [None] in [minimum] and [delta].  Should [delta] stay infinite, no column
    is left, and the source's [do] loop would run on column 0 for ever: the
    model answers [None] there, as it does out of fuel.  [ReviewerAssignment]
    proves that neither happens. *)

From S2P Require Import Prelude Errors Primitives Identity.

Definition MAX_POLICY_APPROVAL_GROUPS : nat := 32.
Definition MAX_RELEASE_QUORUM_REVIEWERS : nat := Z.to_nat 4096.

Record Reviewer := {
  reviewer_principalId : string;
  reviewer_groupIds : list string;
  reviewer_human : bool;
}.

Record ReviewerGroupAssignmentInput := {
  groupIds : list string;
  reviewers : list Reviewer;
  quorum : Z;
  humanGroupIds : list string;
}.

Record MatchedSeat := {
  seat_principalId : string;
  seat_groupId : string;
  seat_humanGroup : bool;
}.

Inductive AssignmentStatus : Type := matched_status | shortfall.

Record ReviewerGroupAssignment := {
  assignment_status : AssignmentStatus;
  assignment_matched : list MatchedSeat;
}.

(** ** The bounded input *)

Definition ids (value : list string) (minimum maximum : nat) : res (list string) :=
  reject_when
    ((length value <? minimum)%nat || (maximum <? length value)%nat ||
     negb (forallb OpaqueIdSchema value) || negb (no_duplicates value))
    InvalidReviewerGroupGraphError ;;
  Ok (sort_by id value).

Definition parse_reviewer (raw : Reviewer) : res Reviewer :=
  reject_when (negb (OpaqueIdSchema (reviewer_principalId raw))) InvalidReviewerGroupGraphError ;;
  memberships ← ids (reviewer_groupIds raw) 0 MAX_POLICY_APPROVAL_GROUPS;
  Ok {| reviewer_principalId := reviewer_principalId raw;
        reviewer_groupIds := memberships;
        reviewer_human := reviewer_human raw |}.

Definition parse_graph (value : ReviewerGroupAssignmentInput) : res ReviewerGroupAssignmentInput :=
  groups ← ids (groupIds value) 1 MAX_POLICY_APPROVAL_GROUPS;
  humanGroups ← ids (humanGroupIds value) 0 MAX_POLICY_APPROVAL_GROUPS;
  reject_when
    (existsb (fun id => negb (includes groups id)) humanGroups ||
     (quorum value <? 1) || (Z.of_nat (length groups) <? quorum value) ||
     (MAX_RELEASE_QUORUM_REVIEWERS <? length (reviewers value))%nat)
    InvalidReviewerGroupGraphError ;;
  parsed ← map_result parse_reviewer (reviewers value);
  let sorted := sort_by reviewer_principalId parsed in
  reject_when (negb (no_duplicates (reviewer_principalId <$> sorted)))
    InvalidReviewerGroupGraphError ;;
  Ok {| groupIds := groups; humanGroupIds := humanGroups; reviewers := sorted;
        quorum := quorum value |}.

(** ** The assignment loop *)

(** The arrays of the outer loop. *)
Record Potentials := {
  rowPotential : list Z;
  columnPotential : list Z;
  owner : list nat;
  previous : list nat;
}.

(** The arrays of the search for an augmenting path. *)
Record Search := {
  search_minimum : list (option Z);
  search_used : list bool;
  search_rowPotential : list Z;
  search_columnPotential : list Z;
  search_previous : list nat;
}.

Record Scan := {
  scan_minimum : list (option Z);
  scan_previous : list nat;
  scan_delta : option Z;
  scan_next : nat;
}.

(** [left < right] where [None] is infinity. *)
Definition less (left right : option Z) : bool :=
  match left, right with
  | Some l, Some r => l <? r
  | Some _, None => true
  | None, _ => false
  end.

Section assign.
Context (cost : nat -> nat -> Z) (rows columns : nat).

Definition scan_candidate (s : Search) (column currentRow : nat) (scan : Scan) (candidate : nat) :
    Scan :=
  if read false (search_used s) candidate then scan else
  let reduced := cost currentRow candidate - read 0 (search_rowPotential s) currentRow
                 - read 0 (search_columnPotential s) candidate in
  let better := less (Some reduced) (read None (scan_minimum scan) candidate) in
  let minimum := if better then <[candidate := Some reduced]> (scan_minimum scan)
                 else scan_minimum scan in
  let previous := if better then <[candidate := column]> (scan_previous scan)
                  else scan_previous scan in
  let closer := less (read None minimum candidate) (scan_delta scan) in
  {| scan_minimum := minimum;
     scan_previous := previous;
     scan_delta := if closer then read None minimum candidate else scan_delta scan;
     scan_next := if closer then candidate else scan_next scan |}.

Definition shift_candidate (owners : list nat) (delta : Z) (s : Search) (candidate : nat) : Search :=
  if read false (search_used s) candidate then
    let assignedRow := read 0%nat owners candidate in
    {| search_minimum := search_minimum s;
       search_used := search_used s;
       search_rowPotential :=
         <[assignedRow := read 0 (search_rowPotential s) assignedRow + delta]> (search_rowPotential s);
       search_columnPotential :=
         <[candidate := read 0 (search_columnPotential s) candidate - delta]> (search_columnPotential s);
       search_previous := search_previous s |}
  else
    {| search_minimum :=
         <[candidate := (fun m => m - delta) <$> read None (search_minimum s) candidate]>
           (search_minimum s);
       search_used := search_used s;
       search_rowPotential := search_rowPotential s;
       search_columnPotential := search_columnPotential s;
       search_previous := search_previous s |}.

(** One turn of the [do] loop from [column]: the next column and the arrays. *)
Definition search_step (owners : list nat) (s : Search) (column : nat) : option (Search * nat) :=
  let s := {| search_minimum := search_minimum s;
              search_used := <[column := true]> (search_used s);
              search_rowPotential := search_rowPotential s;
              search_columnPotential := search_columnPotential s;
              search_previous := search_previous s |} in
  let currentRow := read 0%nat owners column in
  let scan := for_range 1 columns (scan_candidate s column currentRow)
    {| scan_minimum := search_minimum s; scan_previous := search_previous s;
       scan_delta := None; scan_next := 0 |} in
  delta ← scan_delta scan;
  let shifted := for_range 0 (columns + 1) (shift_candidate owners delta)
    {| search_minimum := scan_minimum scan;
       search_used := search_used s;
       search_rowPotential := search_rowPotential s;
       search_columnPotential := search_columnPotential s;
       search_previous := scan_previous scan |} in
  Some (shifted, scan_next scan).

Fixpoint search_free (fuel : nat) (owners : list nat) (s : Search) (column : nat) :
    option (Search * nat) :=
  match fuel with
  | O => None
  | S fuel =>
      '(s, column) ← search_step owners s column;
      if (read 0%nat owners column =? 0)%nat then Some (s, column)
      else search_free fuel owners s column
  end.

(** The second [do] loop: move the owners one column along the path. *)
Fixpoint augment (fuel : nat) (previous owners : list nat) (column : nat) : option (list nat) :=
  match fuel with
  | O => None
  | S fuel =>
      let predecessor := read 0%nat previous column in
      let owners := <[column := read 0%nat owners predecessor]> owners in
      if (predecessor =? 0)%nat then Some owners else augment fuel previous owners predecessor
  end.

(** The body of the outer loop: give [row] a column. *)
Definition assign_row (state : option Potentials) (row : nat) : option Potentials :=
  state ← state;
  let owners := <[0%nat := row]> (owner state) in
  '(s, column) ← search_free (columns + 1) owners
    {| search_minimum := replicate (columns + 1) None;
       search_used := replicate (columns + 1) false;
       search_rowPotential := rowPotential state;
       search_columnPotential := columnPotential state;
       search_previous := previous state |} 0;
  owners ← augment (columns + 1) (search_previous s) owners column;
  Some {| rowPotential := search_rowPotential s;
          columnPotential := search_columnPotential s;
          owner := owners;
          previous := search_previous s |}.

Definition assign : option (list nat) :=
  owner <$> for_range 1 rows assign_row (Some {|
    rowPotential := replicate (rows + 1) 0;
    columnPotential := replicate (columns + 1) 0;
    owner := replicate (columns + 1) 0%nat;
    previous := replicate (columns + 1) 0%nat |}).
End assign.

(** ** The matching *)

Definition member (graph : ReviewerGroupAssignmentInput) (column : nat) (group : string) : bool :=
  match reviewers graph !! (column - 1)%nat with
  | Some reviewer => includes (reviewer_groupIds reviewer) group
  | None => false
  end.

Definition humanSeat (graph : ReviewerGroupAssignmentInput) (reviewer : Reviewer) (group : string) :
    bool :=
  reviewer_human reviewer && includes (humanGroupIds graph) group.

Definition seat_cost (graph : ReviewerGroupAssignmentInput) (row column : nat) : Z :=
  match reviewers graph !! (column - 1)%nat with
  | None => 0
  | Some reviewer =>
      let group := read "" (groupIds graph) (row - 1) in
      if negb (member graph column group) then Z.of_nat (length (groupIds graph)) + 1
      else if humanSeat graph reviewer group then -1 else 0
  end.

(** [reviewers.length + Math.max(rows - quorum, rows - reviewers.length)] *)
Definition matrix_columns (graph : ReviewerGroupAssignmentInput) : nat :=
  let rows := Z.of_nat (length (groupIds graph)) in
  let people := Z.of_nat (length (reviewers graph)) in
  Z.to_nat (people + Z.max (rows - quorum graph) (rows - people)).

Definition seat_of (graph : ReviewerGroupAssignmentInput) (owners : list nat) (column : nat) :
    option MatchedSeat :=
  let row := read 0%nat owners column in
  reviewer ← reviewers graph !! (column - 1)%nat;
  let groupId := read "" (groupIds graph) (row - 1) in
  if (row =? 0)%nat then None
  else if negb (member graph column groupId) then None
  else Some {| seat_principalId := reviewer_principalId reviewer;
               seat_groupId := groupId;
               seat_humanGroup := humanSeat graph reviewer groupId |}.

Definition assignment_of (graph : ReviewerGroupAssignmentInput) (owners : list nat) :
    ReviewerGroupAssignment :=
  let seats := sort_by seat_groupId
    (omap (seat_of graph owners) (seq 1 (length (reviewers graph)))) in
  {| assignment_status :=
       if (quorum graph <=? Z.of_nat (length seats)) &&
          ((length (humanGroupIds graph) =? 0)%nat || existsb seat_humanGroup seats)
       then matched_status else shortfall;
     assignment_matched := seats |}.

Definition matchDistinctReviewerGroups (input : ReviewerGroupAssignmentInput) :
    option (res ReviewerGroupAssignment) :=
  match parse_graph input with
  | Throw e => Some (Throw e)
  | Ok graph =>
      owners ← assign (seat_cost graph) (length (groupIds graph)) (matrix_columns graph);
      Some (Ok (assignment_of graph owners))
  end.

(** Every group can be served, one reviewer stands for one group. *)
Example one_seat :
  matchDistinctReviewerGroups {|
    groupIds := ["security_team"; "release_team"];
    reviewers := [
      {| reviewer_principalId := "user_bob"; reviewer_groupIds := ["release_team"; "security_team"];
         reviewer_human := true |};
      {| reviewer_principalId := "user_ann"; reviewer_groupIds := ["release_team"];
         reviewer_human := false |}];
    quorum := 2; humanGroupIds := ["security_team"] |} =
  Some (Ok {| assignment_status := matched_status; assignment_matched := [
    {| seat_principalId := "user_ann"; seat_groupId := "release_team"; seat_humanGroup := false |};
    {| seat_principalId := "user_bob"; seat_groupId := "security_team"; seat_humanGroup := true |}] |}).
Proof. vm_compute. reflexivity. Qed.
