(* ===== verification/ReviewerAssignment.v ===== *)
(** * The assignment loop is optimal

    The potentials of [ReviewerMatching.assign] are a feasible dual of the
    assignment problem in which every owned column is tight.  [Searching] is the
    invariant of the path search: the used columns form a tree of tight edges
    rooted at column 0, and [minimum] holds the least slack from the tree to
    every other column.  The search ends because each turn uses one more
    column and the owned columns never cover the matrix; moving the owners
    along the path keeps [Assigned].  Weak duality then makes the result
    cheapest among all assignments. *)

From S2P Require Import Prelude ReviewerMatching.
#[local] Open Scope nat_scope.

Section assignment.
Context (cost : nat -> nat -> Z) (rows columns : nat).

(** The columns up to [columns], [hole] apart, own each row up to [k] once. *)
Record owns_each (hole k : nat) (o : nat -> nat) : Prop := {
  owns_bound j : j <= columns -> j <> hole -> o j <= k;
  owns_inj j j' : j <= columns -> j' <= columns -> j <> hole -> j' <> hole ->
    o j = o j' -> o j <> 0 -> j = j';
  owns_onto i : 1 <= i <= k -> exists j, j <= columns /\ j <> hole /\ o j = i;
}.

Definition feasible (u v : nat -> Z) (i : nat) : Prop :=
  forall j, 1 <= j <= columns -> (u i + v j <= cost i j)%Z.

Definition tight (u v : nat -> Z) (i j : nat) : Prop := cost i j = (u i + v j)%Z.

(** The dual conditions on the columns. *)
Record dual (u v : nat -> Z) (o : nat -> nat) : Prop := {
  dual_tight j : 1 <= j <= columns -> o j <> 0 -> tight u v (o j) j;
  dual_sign j : 1 <= j <= columns -> (v j <= 0)%Z;
  dual_free j : 1 <= j <= columns -> o j = 0 -> v j = 0%Z;
}.

(** The outer loop after [k] rows. *)
Record Assigned (k : nat) (p : Potentials) : Prop := {
  assigned_rows : length (rowPotential p) = rows + 1;
  assigned_columns : length (columnPotential p) = columns + 1;
  assigned_owner : length (owner p) = columns + 1;
  assigned_previous : length (previous p) = columns + 1;
  assigned_owns : owns_each 0 k (read 0 (owner p));
  assigned_feasible i : 1 <= i <= k ->
    feasible (read 0%Z (rowPotential p)) (read 0%Z (columnPotential p)) i;
  assigned_dual :
    dual (read 0%Z (rowPotential p)) (read 0%Z (columnPotential p)) (read 0 (owner p));
}.

(** ** The tree of used columns, the latest first *)

Fixpoint rooted (prev : nat -> nat) (edge : nat -> nat -> Prop) (path : list nat) : Prop :=
  match path with
  | [] => False
  | x :: rest =>
      match rest with
      | [] => x = 0
      | _ => 1 <= x <= columns /\ x ∉ rest /\ prev x ∈ rest /\ edge (prev x) x /\
             rooted prev edge rest
      end
  end.

Lemma rooted_bound prev edge path x : rooted prev edge path -> x ∈ path -> x <= columns.
Proof.
  induction path as [|y [|z rest] IH]; [done| |]; intros H Hx.
  - apply list_elem_of_singleton in Hx as ->. simpl in H. lia.
  - destruct H as (? & _ & _ & _ & H). apply elem_of_cons in Hx as [->|Hx]; [lia|by apply IH].
Qed.

Lemma rooted_zero prev edge path : rooted prev edge path -> 0 ∈ path.
Proof.
  induction path as [|y [|z rest] IH]; [done| |]; intros H.
  - simpl in H. subst. by left.
  - destruct H as (_ & _ & _ & _ & H). right. by apply IH.
Qed.

Lemma rooted_nodup prev edge path : rooted prev edge path -> NoDup path.
Proof.
  induction path as [|y [|z rest] IH]; [done| |]; intros H.
  - apply NoDup_singleton.
  - destruct H as (_ & Hn & _ & _ & H). apply NoDup_cons. auto.
Qed.

(** Cutting the tree at one of its columns. *)
Lemma rooted_suffix prev edge path p :
  rooted prev edge path -> p ∈ path ->
  exists rest, rooted prev edge (p :: rest) /\ length rest < length path /\
    forall x, x ∈ rest -> x ∈ path.
Proof.
  induction path as [|y [|z rest] IH]; [done| |]; intros H Hp.
  - apply list_elem_of_singleton in Hp as ->. exists []. split; [done|]. split; [simpl; lia|].
    intros x Hx. by apply elem_of_nil in Hx.
  - apply elem_of_cons in Hp as [->|Hp].
    + exists (z :: rest). split; [done|]. split; [simpl; lia|]. intros x Hx. by right.
    + destruct H as (_ & _ & _ & _ & H). destruct (IH H Hp) as (r & Hr & Hl & Hin).
      exists r. split; [done|]. split; [simpl in *; lia|]. intros x Hx. right. auto.
Qed.

Lemma rooted_ext prev prev' (edge edge' : nat -> nat -> Prop) path :
  (forall x, x ∈ path -> prev' x = prev x) ->
  (forall p x, p ∈ path -> x ∈ path -> 1 <= x <= columns -> edge p x -> edge' p x) ->
  rooted prev edge path -> rooted prev' edge' path.
Proof.
  induction path as [|y [|z rest] IH]; [done|done|]; intros Hp He H.
  destruct H as (Hy & Hn & Hpy & Hedge & H).
  split; [done|]. split; [done|]. rewrite (Hp y) by (by left). split; [done|]. split.
  - apply He; [by right|by left|done|done].
  - apply IH; [intros x Hx; apply Hp; by right|intros p x Hpp Hx Hb; apply He; try done; by right|done].
Qed.

(** ** Moving the owners along the path *)

Lemma owns_move hole p r o :
  owns_each hole r o -> hole <= columns -> p <= columns -> hole <> p ->
  forall o', o' hole = o p -> (forall j, j <> hole -> o' j = o j) -> owns_each p r o'.
Proof.
  intros [Hb Hi Ho] Hh Hp Hne o' Hx Hj. split.
  - intros j Hle Hnp. destruct (decide (j = hole)) as [->|]; [rewrite Hx; auto|].
    rewrite Hj by done. auto.
  - intros j j' Hl Hl' Hn Hn'. destruct (decide (j = hole)) as [->|], (decide (j' = hole)) as [->|].
    + done.
    + rewrite Hx, (Hj j') by done. intros E Hz. destruct Hn'. symmetry. by apply (Hi p j').
    + rewrite Hx, (Hj j) by done. intros E Hz. destruct Hn. by apply (Hi j p).
    + rewrite !Hj by done. by apply Hi.
  - intros i Hr. destruct (Ho i Hr) as (j & Hl & Hn & He). destruct (decide (j = p)) as [->|].
    + exists hole. split; [done|]. split; [done|congruence].
    + exists j. split; [done|]. split; [done|]. by rewrite Hj.
Qed.

Lemma augment_correct u v prev (start : nat -> nat) r fuel : forall owners x rest,
  length owners = columns + 1 -> length rest <= fuel ->
  rooted (read 0 prev) (fun p y => tight u v (start p) y) (x :: rest) -> x <> 0 ->
  owns_each x r (read 0 owners) ->
  (forall y, y ∈ rest -> read 0 owners y = start y /\ start y <> 0) ->
  (forall j, 1 <= j <= columns -> j <> x -> read 0 owners j <> 0 -> tight u v (read 0 owners j) j) ->
  exists owners', augment fuel prev owners x = Some owners' /\
    length owners' = columns + 1 /\ owns_each 0 r (read 0 owners') /\
    (forall j, 1 <= j <= columns -> read 0 owners' j <> 0 -> tight u v (read 0 owners' j) j) /\
    (forall j, 1 <= j <= columns -> read 0 owners' j = 0 -> j <> x /\ read 0 owners j = 0).
Proof.
  induction fuel as [|fuel IH]; intros owners x rest Hlen Hfuel Hroot Hx Howns Hrest Htight.
  { destruct rest; simpl in *; [congruence|lia]. }
  destruct rest as [|z rest']; [simpl in Hroot; congruence|].
  set (rest := z :: rest') in *.
  assert (Hroot' := Hroot). destruct Hroot' as (Hbx & Hnx & Hpx & Hedge & Hr).
  set (p := read 0 prev x) in *. change (rooted (read 0 prev) (fun p y => tight u v (start p) y) rest) in Hr.
  assert (Hpc : p <= columns) by (eapply rooted_bound; eauto).
  assert (Hxp : x <> p) by (intros <-; done).
  destruct (Hrest p Hpx) as [Hop Hop0].
  set (owners1 := <[x:=read 0 owners p]> owners).
  assert (Hr1 : forall j, j <> x -> read 0 owners1 j = read 0 owners j)
    by (intros j Hj; by apply read_insert_ne).
  assert (Hr1x : read 0 owners1 x = read 0 owners p) by (apply read_insert_eq; lia).
  assert (Ho1 : owns_each p r (read 0 owners1)).
  { eapply owns_move; eauto. lia. }
  assert (Ht1 : forall j, 1 <= j <= columns -> j <> p -> read 0 owners1 j <> 0 ->
                tight u v (read 0 owners1 j) j).
  { intros j Hj Hjp. destruct (decide (j = x)) as [->|Hjx].
    - intros _. rewrite Hr1x, Hop. done.
    - rewrite Hr1 by done. intros. by apply Htight. }
  simpl. fold p. fold owners1. destruct (Nat.eqb_spec p 0) as [Hp0|Hp0].
  - exists owners1. split; [done|]. split; [by unfold owners1; rewrite length_insert|].
    rewrite Hp0 in Ho1. split; [done|]. split.
    + intros j Hj. apply Ht1; [done|lia].
    + intros j Hj Hz. destruct (decide (j = x)) as [->|Hjx]; [congruence|].
      rewrite Hr1 in Hz by done. done.
  - destruct (rooted_suffix _ _ _ _ Hr Hpx) as (rest2 & Hroot2 & Hlen2 & Hsub).
    destruct (IH owners1 p rest2) as (owners' & Ha & Hl' & Ho' & Ht' & Hz');
      [by unfold owners1; rewrite length_insert|lia|done|done|done| |done|].
    { intros y Hy. assert (Hyx : y <> x) by (intros ->; apply Hnx, Hsub, Hy).
      rewrite Hr1 by done. by apply Hrest, Hsub. }
    exists owners'. do 4 (split; [done|]). intros j Hj Hz. destruct (Hz' j Hj Hz) as [Hjp Hz1].
    destruct (decide (j = x)) as [->|Hjx]; [congruence|]. rewrite Hr1 in Hz1 by done. done.
Qed.
(** ** One turn of the path search *)

(** The slack of the edge from the row that column [k] owns to column [j]. *)
Definition slack (u v : nat -> Z) (o : nat -> nat) (k j : nat) : Z := (cost (o k) j - u (o k) - v j)%Z.

(** [minimum] and [previous] at a column outside the tree [path]. *)
Definition least_slack (u v : nat -> Z) (o : nat -> nat) (path : list nat) (minimum : option Z)
    (prev j : nat) : Prop :=
  match path with
  | [] => minimum = None
  | _ => exists m, minimum = Some m /\ prev ∈ path /\ m = slack u v o prev j /\
         forall k, k ∈ path -> (m <= slack u v o k j)%Z
  end.

(** The start of a turn of the [do] loop from [column], [path] used before. *)
Record Searching (r : nat) (owners : list nat) (s : Search) (column : nat) (path : list nat) :
    Prop := {
  searching_minimum : length (search_minimum s) = columns + 1;
  searching_used_length : length (search_used s) = columns + 1;
  searching_rows : length (search_rowPotential s) = rows + 1;
  searching_columns : length (search_columnPotential s) = columns + 1;
  searching_previous : length (search_previous s) = columns + 1;
  searching_used j : j <= columns -> read false (search_used s) j = bool_decide (j ∈ path);
  searching_tree : rooted (read 0 (search_previous s))
    (fun p x => tight (read 0%Z (search_rowPotential s)) (read 0%Z (search_columnPotential s))
                  (read 0 owners p) x) (column :: path);
  searching_owned x : x ∈ path -> read 0 owners x <> 0;
  searching_feasible i : 1 <= i <= r -> i < r \/ path <> [] ->
    feasible (read 0%Z (search_rowPotential s)) (read 0%Z (search_columnPotential s)) i;
  searching_dual : dual (read 0%Z (search_rowPotential s)) (read 0%Z (search_columnPotential s))
    (read 0 owners);
  searching_least j : 1 <= j <= columns -> j ∉ path ->
    least_slack (read 0%Z (search_rowPotential s)) (read 0%Z (search_columnPotential s))
      (read 0 owners) path (read None (search_minimum s) j) (read 0 (search_previous s) j) j;
}.

(** The candidates before [t] have been compared, with [column] in the tree. *)
Record Scanned (u v : nat -> Z) (o : nat -> nat) (s : Search) (column : nat) (path : list nat)
    (t : nat) (scan : Scan) : Prop := {
  scanned_minimum : length (scan_minimum scan) = columns + 1;
  scanned_previous : length (scan_previous scan) = columns + 1;
  scanned_tree j : j ∈ column :: path ->
    read 0 (scan_previous scan) j = read 0 (search_previous s) j;
  scanned_later j : t <= j -> read None (scan_minimum scan) j = read None (search_minimum s) j /\
    read 0 (scan_previous scan) j = read 0 (search_previous s) j;
  scanned_least j : 1 <= j <= columns -> j < t -> j ∉ column :: path ->
    least_slack u v o (column :: path) (read None (scan_minimum scan) j)
      (read 0 (scan_previous scan) j) j /\
    exists d, scan_delta scan = Some d /\
      forall m, read None (scan_minimum scan) j = Some m -> (d <= m)%Z;
  scanned_next d : scan_delta scan = Some d ->
    1 <= scan_next scan <= columns /\ scan_next scan < t /\ scan_next scan ∉ column :: path /\
    read None (scan_minimum scan) (scan_next scan) = Some d;
}.

Lemma least_slack_extend u v o column path minimum prev j reduced :
  least_slack u v o path minimum prev j -> reduced = slack u v o column j ->
  least_slack u v o (column :: path)
    (if less (Some reduced) minimum then Some reduced else minimum)
    (if less (Some reduced) minimum then column else prev) j.
Proof.
  intros H ->. simpl. destruct path as [|k0 path].
  - simpl in H. subst. simpl. eexists. split; [done|]. split; [by left|]. split; [done|].
    intros k ->%list_elem_of_singleton. done.
  - destruct H as (m & -> & Hp & -> & Hle). simpl. destruct (Z.ltb_spec (slack u v o column j) (slack u v o prev j)).
    + eexists. split; [done|]. split; [by left|]. split; [done|].
      intros k [->|Hk]%elem_of_cons; [lia|]. specialize (Hle k Hk). lia.
    + eexists. split; [done|]. split; [by right|]. split; [done|].
      intros k [->|Hk]%elem_of_cons; [lia|]. auto.
Qed.
Lemma scan_correct owners s column path :
  let u := read 0%Z (search_rowPotential s) in
  let v := read 0%Z (search_columnPotential s) in
  let o := read 0 owners in
  length (search_minimum s) = columns + 1 -> length (search_previous s) = columns + 1 ->
  (forall j, j <= columns -> read false (search_used s) j = bool_decide (j ∈ column :: path)) ->
  (forall j, 1 <= j <= columns -> j ∉ column :: path ->
    least_slack u v o path (read None (search_minimum s) j) (read 0 (search_previous s) j) j) ->
  Scanned u v o s column path (1 + columns)
    (for_range 1 columns (scan_candidate cost s column (o column))
       {| scan_minimum := search_minimum s; scan_previous := search_previous s;
          scan_delta := None; scan_next := 0 |}).
Proof.
  intros u v o Hm Hp Hu Hl. apply for_range_ind.
  { split; simpl; try done; intros; lia. }
  intros t scan Ht [HSm HSp HSt HSl HSleast HSn]. unfold scan_candidate.
  rewrite Hu by lia. case_bool_decide as Hin.
  { split; try done.
    - intros j Hj. apply HSl. lia.
    - intros j Hj Hjt Hn. apply HSleast; [done| |done]. destruct (decide (j = t)); [by subst|lia].
    - intros d Hd. destruct (HSn d Hd) as (? & ? & ?). split; [done|]. split; [lia|done]. }
  destruct (HSl t) as [Hmt Hpt]; [lia|]. rewrite Hmt.
  set (better := less (Some _) (read None (search_minimum s) t)).
  set (red := (cost (o column) t - _ - _)%Z) in *.
  assert (Hnew := least_slack_extend u v o column path _ _ t red
                    (Hl t ltac:(lia) Hin) eq_refl).
  fold better in Hnew.
  set (minimum := if better then <[t:=Some red]> (scan_minimum scan) else scan_minimum scan).
  set (prevs := if better then <[t:=column]> (scan_previous scan) else scan_previous scan).
  assert (Hmin_t : read None minimum t = if better then Some red else read None (search_minimum s) t).
  { unfold minimum. destruct better; [apply read_insert_eq; lia|done]. }
  assert (Hprev_t : read 0 prevs t = if better then column else read 0 (search_previous s) t).
  { unfold prevs. destruct better; [apply read_insert_eq; lia|done]. }
  assert (Hmin_ne : forall j, j <> t -> read None minimum j = read None (scan_minimum scan) j).
  { intros j Hj. unfold minimum. destruct better; [by apply read_insert_ne|done]. }
  assert (Hprev_ne : forall j, j <> t -> read 0 prevs j = read 0 (scan_previous scan) j).
  { intros j Hj. unfold prevs. destruct better; [by apply read_insert_ne|done]. }
  rewrite <- Hmin_t, <- Hprev_t in Hnew. pose proof Hnew as (m & Hsome & _).
  assert (Hdelta : exists d, (if less (read None minimum t) (scan_delta scan)
              then read None minimum t else scan_delta scan) = Some d /\ (d <= m)%Z /\
              forall d0, scan_delta scan = Some d0 -> (d <= d0)%Z).
  { rewrite Hsome. unfold less. destruct (scan_delta scan) as [d0|].
    - destruct (Z.ltb_spec m d0); eexists; (split; [done|]); (split; [lia|]); intros ? [= <-]; lia.
    - eexists. split; [done|]. split; [lia|done]. }
  split; simpl.
  - unfold minimum. destruct better; by rewrite ?length_insert.
  - unfold prevs. destruct better; by rewrite ?length_insert.
  - intros j Hj. rewrite Hprev_ne by (by intros ->). auto.
  - intros j Hj. rewrite Hmin_ne, Hprev_ne by lia. apply HSl. lia.
  - intros j Hj Hjt Hnin. destruct Hdelta as (d & Hd & Hdm & Hdd). destruct (decide (j = t)) as [->|Hne].
    + split; [done|]. exists d. split; [done|]. intros m' Hm'. congruence.
    + rewrite Hmin_ne, Hprev_ne by done. destruct (HSleast j Hj ltac:(lia) Hnin) as (Hls & d0 & Hd0 & Hle).
      split; [done|]. exists d. split; [done|]. intros m' Hm'. specialize (Hdd _ Hd0). specialize (Hle _ Hm'). lia.
  - intros d. destruct (less (read None minimum t) (scan_delta scan)) eqn:Hless.
    + intros Hd. split; [lia|]. split; [lia|]. done.
    + intros Hd. destruct (HSn d Hd) as (? & Hlt & ? & ?). split; [done|]. split; [lia|].
      split; [done|]. rewrite Hmin_ne by lia. done.
Qed.

(** *** Shifting the potentials of the tree *)

Record Shifted (o : nat -> nat) (tree : list nat) (delta : Z) (s : Search) (t : nat) (s' : Search) :
    Prop := {
  shifted_minimum : length (search_minimum s') = columns + 1;
  shifted_rows : length (search_rowPotential s') = rows + 1;
  shifted_columns : length (search_columnPotential s') = columns + 1;
  shifted_used : search_used s' = search_used s;
  shifted_previous : search_previous s' = search_previous s;
  shifted_least j : j ∉ tree -> j <= columns -> read None (search_minimum s') j =
    if decide (j < t) then (fun m => m - delta)%Z <$> read None (search_minimum s) j
    else read None (search_minimum s) j;
  shifted_row_in j : j ∈ tree -> j < t ->
    read 0%Z (search_rowPotential s') (o j) = (read 0%Z (search_rowPotential s) (o j) + delta)%Z;
  shifted_row_out i : (forall j, j ∈ tree -> j < t -> o j <> i) ->
    read 0%Z (search_rowPotential s') i = read 0%Z (search_rowPotential s) i;
  shifted_column_in j : j ∈ tree -> j < t ->
    read 0%Z (search_columnPotential s') j = (read 0%Z (search_columnPotential s) j - delta)%Z;
  shifted_column_out j : j ∉ tree \/ t <= j ->
    read 0%Z (search_columnPotential s') j = read 0%Z (search_columnPotential s) j;
}.

Lemma shift_correct owners tree delta s :
  let o := read 0 owners in
  length (search_minimum s) = columns + 1 -> length (search_rowPotential s) = rows + 1 ->
  length (search_columnPotential s) = columns + 1 ->
  (forall j, j <= columns -> read false (search_used s) j = bool_decide (j ∈ tree)) ->
  (forall j, j ∈ tree -> o j <= rows) ->
  (forall j j', j ∈ tree -> j' ∈ tree -> o j = o j' -> j = j') ->
  Shifted o tree delta s (0 + (columns + 1))
    (for_range 0 (columns + 1) (shift_candidate owners delta) s).
Proof.
  intros o Hm Hr Hc Hu Hb Hinj. apply for_range_ind.
  { split; try done; intros; try lia. }
  intros t s' Ht [Sm Sr Sc Su Sp Sl Sri Sro Sci Sco]. unfold shift_candidate.
  rewrite Su, Hu by lia. case_bool_decide as Hin; split; simpl; rewrite ?length_insert; try done.
  - intros j Hj Hjc. rewrite Sl by done. assert (j <> t) by (by intros ->).
    do 2 case_decide; by lia || done.
  - intros j Hj Hjt. fold o. destruct (decide (j = t)) as [->|Hne].
    + rewrite read_insert_eq; [|rewrite Sr; specialize (Hb t Hin); lia]. f_equal. apply Sro.
      intros k Hk Hkt E. apply Hinj in E; [lia|done|done].
    + rewrite read_insert_ne; [apply Sri; [done|lia]|]. intros E. apply Hinj in E; [congruence|done|done].
  - intros i Hi. rewrite read_insert_ne by (apply Hi; [done|lia]). apply Sro. intros j Hj Hjt. apply Hi; [done|lia].
  - intros j Hj Hjt. destruct (decide (j = t)) as [->|Hne].
    + rewrite read_insert_eq by lia. f_equal. apply Sco. right. done.
    + rewrite read_insert_ne by done. apply Sci; [done|lia].
  - intros j Hj. destruct (decide (j = t)) as [->|Hne].
    + destruct Hj; [done|lia].
    + rewrite read_insert_ne by done. apply Sco. destruct Hj; [by left|right; lia].
  - intros j Hj Hjc. destruct (decide (j = t)) as [->|Hne].
    + rewrite read_insert_eq by lia. rewrite Sl by done. rewrite decide_False by lia. by rewrite decide_True by lia.
    + rewrite read_insert_ne by done. rewrite Sl by done. do 2 case_decide; by lia || done.
  - intros j Hj Hjt. apply Sri; [done|]. destruct (decide (j = t)); [by subst|lia].
  - intros i Hi. apply Sro. intros j Hj Hjt. apply Hi; [done|lia].
  - intros j Hj Hjt. apply Sci; [done|]. destruct (decide (j = t)); [by subst|lia].
  - intros j Hj. destruct (decide (j = t)) as [->|]; [apply Sco; by left|]. apply Sco. destruct Hj; [by left|right; lia].
Qed.
(** *** The search finds a free column *)

(** Owned columns never cover the matrix. *)
Lemma tree_leaves_room r (o : nat -> nat) tree :
  owns_each (columns + 1) r o -> r <= columns -> NoDup tree -> 0 ∈ tree ->
  (forall j, j ∈ tree -> j <= columns /\ o j <> 0) ->
  length tree <= columns /\ exists j, 1 <= j <= columns /\ j ∉ tree.
Proof.
  intros [Hb Hi _] Hr Hnd H0 Ht.
  assert (Hlen : length tree <= r).
  { rewrite <- (length_fmap o tree), <- (length_seq r 1). apply submseteq_length, NoDup_submseteq.
    - apply NoDup_fmap_2_strong; [|done]. intros j j' Hj Hj' E.
      destruct (Ht j Hj), (Ht j' Hj'). apply Hi; [done..| | |done|done]; lia.
    - intros i (j & -> & Hj)%list_elem_of_fmap. destruct (Ht j Hj) as [Hjc Hnz].
      apply elem_of_seq. specialize (Hb j Hjc ltac:(lia)). lia. }
  split; [lia|]. destruct (decide (Forall (fun j => j ∈ tree) (seq 1 columns))) as [Hall|Hex].
  - exfalso. rewrite Forall_forall in Hall.
    assert (length (seq 0 (columns + 1)) <= length tree); [|rewrite length_seq in *; lia].
    apply submseteq_length, NoDup_submseteq; [apply NoDup_seq|]. intros j Hj%elem_of_seq.
    destruct (decide (j = 0)) as [->|]; [done|]. apply Hall, elem_of_seq. lia.
  - apply not_Forall_Exists in Hex; [|apply _]. apply Exists_exists in Hex as (j & Hj & Hn).
    apply elem_of_seq in Hj. exists j. split; [lia|done].
Qed.

(** What the new potentials are on rows and columns of the tree. *)
Lemma shift_potentials owners tree delta s s' r :
  let o := read 0 owners in
  let u := read 0%Z (search_rowPotential s) in let v := read 0%Z (search_columnPotential s) in
  let u' := read 0%Z (search_rowPotential s') in let v' := read 0%Z (search_columnPotential s') in
  owns_each (columns + 1) r o -> (forall j, j ∈ tree -> j <= columns /\ o j <> 0) ->
  Shifted o tree delta s (0 + (columns + 1)) s' ->
  (forall j, j ∈ tree -> u' (o j) = (u (o j) + delta)%Z /\ v' j = (v j - delta)%Z) /\
  (forall j, j ∉ tree -> v' j = v j) /\
  (forall j, j <= columns -> j ∉ tree -> o j <> 0 -> u' (o j) = u (o j)) /\
  (forall i, (forall j, j ∈ tree -> o j <> i) -> u' i = u i).
Proof.
  intros o u v u' v' [_ Hi _] Ht [_ _ _ _ _ _ Sri Sro Sci Sco].
  assert (Hout : forall i, (forall j, j ∈ tree -> o j <> i) -> u' i = u i).
  { intros i Hi'. apply Sro. intros j Hj _. by apply Hi'. }
  split; [|split; [|split; [|done]]].
  - intros j Hj. destruct (Ht j Hj). split; [apply Sri|apply Sci]; by lia || done.
  - intros j Hj. apply Sco. by left.
  - intros j Hj Hn Hz. apply Hout. intros k Hk E. destruct (Ht k Hk).
    apply Hi in E; [congruence|lia|lia|lia|lia|done].
Qed.

(** *** A shift by the least slack keeps the dual *)

Section shift.
Context (r : nat) (o : nat -> nat) (u v u' v' : nat -> Z) (tree : list nat) (delta : Z).
Hypothesis Htree : forall j, j ∈ tree -> j <= columns /\ o j <> 0.
Hypothesis Hin : forall j, j ∈ tree -> u' (o j) = (u (o j) + delta)%Z /\ v' j = (v j - delta)%Z.
Hypothesis Hcolumn : forall j, j ∉ tree -> v' j = v j.
Hypothesis Howned : forall j, j <= columns -> j ∉ tree -> o j <> 0 -> u' (o j) = u (o j).
Hypothesis Hrow : forall i, (forall j, j ∈ tree -> o j <> i) -> u' i = u i.
Hypothesis Hleast : forall j k, 1 <= j <= columns -> j ∉ tree -> k ∈ tree ->
  (delta <= slack u v o k j)%Z.
(** Before the first shift the tree is column 0, which holds the new row. *)
Hypothesis Hfirst : tree = [0] /\ o 0 = r \/
  (0 <= delta)%Z /\ (forall i, 1 <= i <= r -> feasible u v i).
Hypothesis Hfeasible : forall i, 1 <= i < r -> feasible u v i.

Lemma shift_feasible i : 1 <= i <= r -> feasible u' v' i.
Proof.
  intros Hi j Hj.
  destruct (decide (Exists (fun k => o k = i) tree)) as [Hk|Hk].
  - apply Exists_exists in Hk as (k & Hk & <-). destruct (Hin k Hk) as [-> _].
    destruct (decide (j ∈ tree)) as [Hjt|Hjt].
    + destruct (Hin j Hjt) as [_ ->]. destruct Hfirst as [[-> _]|[_ Hall]].
      * apply list_elem_of_singleton in Hjt. lia.
      * specialize (Hall (o k) Hi j Hj). lia.
    + rewrite (Hcolumn j Hjt). specialize (Hleast j k Hj Hjt Hk). unfold slack in Hleast. lia.
  - assert (Hki : forall k, k ∈ tree -> o k <> i).
    { intros k Hk1 Hk2. apply Hk, Exists_exists. eauto. }
    rewrite (Hrow i Hki). assert (Hf : feasible u v i).
    { destruct Hfirst as [[Ht Ho]|[_ Hall]]; [|by apply Hall]. apply Hfeasible.
      enough (i <> r) by lia. intros ->. apply (Hki 0); [rewrite Ht; by left|done]. }
    specialize (Hf j Hj). destruct (decide (j ∈ tree)) as [Hjt|Hjt].
    + destruct (Hin j Hjt) as [_ ->]. destruct Hfirst as [[Ht _]|[Hd _]]; [|lia].
      rewrite Ht in Hjt. apply list_elem_of_singleton in Hjt. lia.
    + by rewrite (Hcolumn j Hjt).
Qed.

Lemma shift_dual : dual u v o -> dual u' v' o.
Proof.
  intros [Ht Hs Hf]. split; intros j Hj; destruct (decide (j ∈ tree)) as [Hjt|Hjt].
  - intros Hz. specialize (Ht j Hj Hz). unfold tight in *. destruct (Hin j Hjt) as [-> ->]. lia.
  - intros Hz. specialize (Ht j Hj Hz). unfold tight in *.
    rewrite (Hcolumn j Hjt), Howned by (lia || done). done.
  - destruct (Hin j Hjt) as [_ ->]. specialize (Hs j Hj). destruct Hfirst as [[Htr _]|[Hd _]]; [|lia].
    rewrite Htr in Hjt. apply list_elem_of_singleton in Hjt. lia.
  - rewrite (Hcolumn j Hjt). auto.
  - intros Hz. destruct (Htree j Hjt). congruence.
  - intros Hz. rewrite (Hcolumn j Hjt). auto.
Qed.
End shift.

(** Where the shift has taken its least slack, the next edge is tight. *)
Lemma least_slack_shift (u v u' v' : nat -> Z) o tree (minimum : option Z) prev j delta :
  tree <> [] -> j ∉ tree ->
  (forall k, k ∈ tree -> u' (o k) = (u (o k) + delta)%Z /\ v' k = (v k - delta)%Z) ->
  v' j = v j -> least_slack u v o tree minimum prev j ->
  least_slack u' v' o tree ((fun m => m - delta)%Z <$> minimum) prev j.
Proof.
  intros Hne Hj Hin Hv H. destruct tree as [|k0 tree]; [done|].
  destruct H as (m & -> & Hp & -> & Hle). simpl. eexists. split; [done|]. split; [done|].
  unfold slack in *. rewrite Hv. destruct (Hin prev Hp) as [-> _]. split; [lia|].
  intros k Hk. destruct (Hin k Hk) as [-> _]. specialize (Hle k Hk). lia.
Qed.
(** *** The search finds a free column *)

Section search.
Context (r : nat) (owners : list nat).
Hypothesis Howns : owns_each (columns + 1) r (read 0 owners).
Hypothesis Hroot : read 0 owners 0 = r.
Hypothesis Hrows : 1 <= r <= rows.
Hypothesis Hroom : rows <= columns.

(** The arrays of a turn once [column] is marked used. *)
Definition mark (s : Search) (column : nat) : Search := {|
  search_minimum := search_minimum s;
  search_used := <[column := true]> (search_used s);
  search_rowPotential := search_rowPotential s;
  search_columnPotential := search_columnPotential s;
  search_previous := search_previous s
|}.

Lemma mark_used s column path j :
  Searching r owners s column path -> j <= columns ->
  read false (search_used (mark s column)) j = bool_decide (j ∈ column :: path).
Proof.
  intros Hs Hj. simpl. pose proof (searching_used_length _ _ _ _ _ Hs).
  destruct (decide (j = column)) as [->|Hne].
  - rewrite read_insert_eq by lia. rewrite bool_decide_eq_true_2; [done|by left].
  - rewrite read_insert_ne by done. rewrite (searching_used _ _ _ _ _ Hs) by done.
    apply bool_decide_ext. rewrite elem_of_cons. naive_solver.
Qed.

Lemma search_tree s column path :
  Searching r owners s column path -> read 0 owners column <> 0 ->
  forall j, j ∈ column :: path -> j <= columns /\ read 0 owners j <> 0.
Proof.
  intros Hs Hnz j Hj. split; [eapply rooted_bound; [apply Hs|done]|].
  apply elem_of_cons in Hj as [->|Hj]; [done|by apply (searching_owned _ _ _ _ _ Hs)].
Qed.

Lemma search_step_correct s column path :
  Searching r owners s column path -> read 0 owners column <> 0 ->
  length (column :: path) <= columns /\
  exists s' next, search_step cost columns owners s column = Some (s', next) /\
    1 <= next <= columns /\ Searching r owners s' next (column :: path).
Proof.
  intros Hs Hnz. pose proof (search_tree s column path Hs Hnz) as Htree.
  pose proof Hs as [Lm Lu Lr Lc Lp _ Ht _ Hf Hd Hls].
  destruct (tree_leaves_room r _ _ Howns ltac:(lia) (rooted_nodup _ _ _ Ht) (rooted_zero _ _ _ Ht)
              Htree) as [Hlen (free & Hfree & Hfree_n)].
  split; [done|].
  destruct (scan_correct owners (mark s column) column path Lm Lp
    (fun j => mark_used s column path j Hs)
    (fun j Hj Hn => Hls j Hj (fun Hin => Hn (proj2 (elem_of_cons _ _ _) (or_intror Hin)))))
    as [Sm Sp St _ Sleast Snext].
  unfold search_step. fold (mark s column).
  set (scan := for_range 1 columns _ _) in *.
  destruct (Sleast free Hfree ltac:(lia) Hfree_n) as (_ & delta & Hdelta & _).
  rewrite Hdelta. simpl. destruct (Snext delta Hdelta) as (Hnext & _ & Hnext_n & Hmin).
  set (s1 := {| search_minimum := scan_minimum scan; search_used := _; search_rowPotential := _;
                search_columnPotential := _; search_previous := _ |}).
  pose proof (shift_correct owners (column :: path) delta s1 Sm Lr Lc
    (fun j => mark_used s column path j Hs)) as Hshift.
  destruct Howns as [Hob Hoi _].
  specialize (Hshift ltac:(intros j Hj; destruct (Htree j Hj); specialize (Hob j); lia)
    ltac:(intros j j' Hj Hj' E; destruct (Htree j Hj), (Htree j' Hj'); apply Hoi; lia || done)).
  set (s2 := for_range 0 (columns + 1) _ s1) in *.
  destruct (shift_potentials owners _ delta s1 s2 r Howns Htree Hshift) as (Hin & Hcol & Hown & Hrow).
  assert (Hleast : forall j k, 1 <= j <= columns -> j ∉ column :: path -> k ∈ column :: path ->
    (delta <= slack (read 0%Z (search_rowPotential s)) (read 0%Z (search_columnPotential s))
                (read 0%nat owners) k j)%Z).
  { intros j k Hj Hn Hk. destruct (Sleast j Hj ltac:(lia) Hn) as ((m & Hm & _ & _ & Hle) & d & Hd' & Hdm).
    replace d with delta in Hdm by congruence. etrans; [exact (Hdm m Hm)|exact (Hle k Hk)]. }
  destruct (Sleast (scan_next scan) Hnext ltac:(lia) Hnext_n) as (Hls_next & _).
  assert (Hfirst : column :: path = [0] /\ read 0 owners 0 = r \/ (0 <= delta)%Z /\
    forall i, 1 <= i <= r ->
      feasible (read 0%Z (search_rowPotential s)) (read 0%Z (search_columnPotential s)) i).
  { destruct path as [|k0 path]; [left; simpl in Ht; by subst|]. right.
    assert (Hall : forall i, 1 <= i <= r ->
      feasible (read 0%Z (search_rowPotential s)) (read 0%Z (search_columnPotential s)) i)
      by (intros i Hi; apply Hf; [done|by right]).
    split; [|done]. destruct Hls_next as (m & Hm & Hp & Hslack & _).
    replace m with delta in Hslack by congruence. destruct (Htree _ Hp) as [Hpc Hp0].
    specialize (Hob _ Hpc ltac:(lia)).
    assert (Hge := Hall _ (conj (proj1 (Nat.neq_0_le_1 _) Hp0) Hob) _ Hnext).
    unfold slack, mark in Hslack. simpl in Hslack. lia. }
  exists s2, (scan_next scan). split; [done|]. split; [done|].
  destruct Hshift as [Lm' Lr' Lc' Used' Prev' Least' _ _ _ _]. split; try done.
  - rewrite Used'. simpl. by rewrite length_insert.
  - by rewrite Prev'.
  - intros j Hj. rewrite Used'. by apply (mark_used s column path j).
  - split; [done|]. split; [done|]. rewrite Prev'. split; [by destruct Hls_next as (m & _ & ? & _)|]. split.
    + unfold tight. destruct Hls_next as (m & Hm & Hp & Hslack & _).
      replace m with delta in Hslack by congruence. unfold slack in Hslack.
      change (search_previous s1) with (scan_previous scan).
      destruct (Hin _ Hp) as [-> _]. rewrite (Hcol _ Hnext_n). simpl in Hslack |- *. lia.
    + eapply rooted_ext; [| |exact Ht]; [intros x Hx; apply (St x Hx)|].
      intros p x Hp Hx _ He. unfold tight in *. destruct (Hin p Hp) as [-> _], (Hin x Hx) as [_ ->].
      simpl. lia.
  - intros x Hx. by apply Htree.
  - intros i Hi _. by apply (shift_feasible r (read 0 owners)
      (read 0%Z (search_rowPotential s)) (read 0%Z (search_columnPotential s))) with (column :: path) delta;
      try done; intros i' Hi'; apply Hf; [lia|left; lia].
  - by apply (shift_dual r (read 0 owners)
      (read 0%Z (search_rowPotential s)) (read 0%Z (search_columnPotential s)) _ _ (column :: path) delta).
  - intros j Hj Hn. rewrite Prev', Least' by (done || lia). rewrite decide_True by lia.
    apply (least_slack_shift (read 0%Z (search_rowPotential s)) (read 0%Z (search_columnPotential s)));
      [done|done|exact Hin|by apply Hcol|]. apply Sleast; [done|lia|done].
Qed.
(** The search ends at a column nobody owns, within its fuel. *)
Lemma search_free_correct fuel : forall s column path,
  columns < fuel + length path -> Searching r owners s column path -> read 0 owners column <> 0 ->
  exists s' free path', search_free cost columns fuel owners s column = Some (s', free) /\
    1 <= free <= columns /\ read 0 owners free = 0 /\ path' <> [] /\
    length path' <= columns /\ Searching r owners s' free path'.
Proof.
  induction fuel as [|fuel IH]; intros s column path Hfuel Hs Hnz;
    destruct (search_step_correct s column path Hs Hnz) as (Hlen & s' & next & Hstep & Hnext & Hs').
  { simpl in *. lia. }
  simpl. rewrite Hstep. simpl. destruct (Nat.eqb_spec (read 0 owners next) 0) as [Hz|Hz].
  - exists s', next, (column :: path). done.
  - apply (IH _ _ (column :: path)); [simpl; lia|done|done].
Qed.
End search.

(** ** The outer loop *)

Lemma owns_new_row k o r :
  owns_each 0 k o -> r = S k -> forall o', o' 0 = r -> (forall j, j <> 0 -> o' j = o j) ->
  owns_each (columns + 1) r o'.
Proof.
  intros [Hb Hi Ho] -> o' H0 Hj. split.
  - intros j Hc _. destruct (decide (j = 0)) as [->|]; [lia|]. rewrite Hj by done.
    specialize (Hb j Hc). lia.
  - intros j j' Hc Hc' _ _. destruct (decide (j = 0)) as [->|Hz], (decide (j' = 0)) as [->|Hz'].
    + done.
    + rewrite H0, Hj by done. specialize (Hb j' Hc' Hz'). lia.
    + rewrite H0, Hj by done. specialize (Hb j Hc Hz). lia.
    + rewrite !Hj by done. by apply Hi.
  - intros i Hk. destruct (decide (i = S k)) as [->|].
    + exists 0. split; [lia|]. split; [lia|done].
    + destruct (Ho i) as (j & Hc & Hz & He); [lia|]. exists j. split; [done|]. split; [lia|].
      by rewrite Hj.
Qed.

Lemma owns_free hole r o free :
  owns_each hole r o -> columns < hole -> o free = 0 -> owns_each free r o.
Proof.
  intros [Hb Hi Ho] Hh Hz. split.
  - intros j Hc _. apply Hb; lia.
  - intros j j' Hc Hc' _ _. apply Hi; lia.
  - intros i Hk. destruct (Ho i Hk) as (j & Hc & _ & He). exists j. split; [done|].
    split; [|done]. intros ->. lia.
Qed.

Lemma dual_owners u v o o' :
  (forall j, 1 <= j <= columns -> o' j = o j) -> dual u v o -> dual u v o'.
Proof. intros E [Ht Hs Hf]. split; intros j Hj; rewrite ?(E j Hj); auto. Qed.

Lemma search_start k p :
  Assigned k p -> k < rows ->
  Searching (S k) (<[0 := S k]> (owner p)) {|
    search_minimum := replicate (columns + 1) None;
    search_used := replicate (columns + 1) false;
    search_rowPotential := rowPotential p;
    search_columnPotential := columnPotential p;
    search_previous := previous p |} 0 [].
Proof.
  intros [Lr Lc Lo Lp _ Hf Hd] Hk.
  split; simpl; rewrite ?length_replicate; try done.
  - intros j _. apply read_replicate.
  - intros x Hx. by apply elem_of_nil in Hx.
  - intros i Hi [Hlt|]; [|done]. apply Hf. lia.
  - eapply dual_owners; [|done]. intros j Hj. rewrite read_insert_ne by lia. done.
  - intros j _ _. apply read_replicate.
Qed.

Lemma assign_row_correct k p :
  Assigned k p -> k < rows -> rows <= columns ->
  exists p', assign_row cost columns (Some p) (S k) = Some p' /\ Assigned (S k) p'.
Proof.
  intros Hp Hk Hrc. pose proof (search_start k p Hp Hk) as Hstart.
  destruct Hp as [Lr Lc Lo Lp Ho Hf Hd].
  set (owners := <[0 := S k]> (owner p)) in *.
  assert (H0 : read 0 owners 0 = S k) by (apply read_insert_eq; lia).
  assert (Hne : forall j, j <> 0 -> read 0 owners j = read 0 (owner p) j)
    by (intros j Hj; apply read_insert_ne; lia).
  pose proof (owns_new_row k _ (S k) Ho eq_refl _ H0 Hne) as Howns.
  destruct (search_free_correct (S k) owners Howns H0 ltac:(lia) Hrc (columns + 1) _ 0 []
              ltac:(simpl; lia) Hstart ltac:(lia))
    as (s' & free & path & Hsearch & Hfree & Hfree0 & Hpath & Hlen & [_ _ Sr Sc Sp _ St So Sf Sd _]).
  destruct (augment_correct (read 0%Z (search_rowPotential s')) (read 0%Z (search_columnPotential s'))
              (search_previous s') (read 0 owners) (S k) (columns + 1) owners free path)
    as (owners' & Haug & Hl' & Ho' & Ht' & Hz');
    [by unfold owners; rewrite length_insert|lia|done|lia|by apply (owns_free (columns + 1)); [|lia|]
    |by intros y Hy; split; [|apply So]|by intros; apply (dual_tight _ _ _ Sd)|].
  eexists. split.
  { unfold assign_row. simpl. fold owners. rewrite Hsearch. simpl. by rewrite Haug. }
  split; simpl; try done.
  - intros i Hi. apply Sf; [done|by right].
  - split; [done|apply (dual_sign _ _ _ Sd)|]. intros j Hj Hz. apply (dual_free _ _ _ Sd); [done|].
    by apply Hz'.
Qed.

(** *** The loop returns, and what it returns carries a dual certificate *)
Lemma assign_total :
  rows <= columns ->
  exists owners u v, assign cost rows columns = Some owners /\
    owns_each 0 rows (read 0 owners) /\ dual u v (read 0 owners) /\
    forall i, 1 <= i <= rows -> feasible u v i.
Proof.
  intros Hrc. unfold assign.
  set (start := Some _).
  assert (H : exists p, for_range 1 rows (assign_row cost columns) start = Some p /\ Assigned (1 + rows - 1) p).
  { apply (for_range_ind (fun i s => exists p, s = Some p /\ Assigned (i - 1) p)).
    - eexists. split; [done|]. simpl. split; simpl; rewrite ?length_replicate; try done.
      + split; intros; try lia; rewrite ?read_replicate in *; done || lia.
      + intros i Hi. lia.
      + split; intros j Hj; rewrite ?read_replicate; done || lia.
    - intros i s Hi (p & -> & Hp). destruct (assign_row_correct (i - 1) p) as (p' & E & Hp'); [done|lia|done|].
      replace (S (i - 1)) with i in E by lia. exists p'. split; [done|].
      by replace (S i - 1) with (S (i - 1)) by lia. }
  destruct H as (p & E & [_ _ _ _ Ho Hf Hd]). rewrite E. replace (1 + rows - 1) with rows in * by lia.
  exists (owner p), (read 0%Z (rowPotential p)), (read 0%Z (columnPotential p)). done.
Qed.

(** ** Weak duality *)

Definition assignment_cost (o : nat -> nat) : Z :=
  sum_by (fun j => if o j =? 0 then 0%Z else cost (o j) j) (seq 1 columns).

Definition owned (o : nat -> nat) : list nat := filter (fun j => o j <> 0) (seq 1 columns).

Lemma elem_of_owned o j : j ∈ owned o <-> 1 <= j <= columns /\ o j <> 0.
Proof. unfold owned. rewrite list_elem_of_filter, elem_of_seq. naive_solver lia. Qed.

(** The owned columns are the rows, each once. *)
Lemma owned_rows o : owns_each 0 rows o -> o <$> owned o ≡ₚ seq 1 rows.
Proof.
  intros [Hb Hi Ho]. apply NoDup_Permutation; [|apply NoDup_seq|].
  - apply NoDup_fmap_2_strong; [|apply NoDup_filter, NoDup_seq].
    intros j j' Hj%elem_of_owned Hj'%elem_of_owned E. apply Hi; lia || done.
  - intros i. rewrite elem_of_seq, list_elem_of_fmap. split.
    + intros (j & -> & Hj%elem_of_owned). specialize (Hb j). lia.
    + intros Hr. destruct (Ho i ltac:(lia)) as (j & Hc & Hz & <-). exists j. split; [done|].
      apply elem_of_owned. lia.
Qed.

Lemma sum_by_owned (f : nat -> nat -> Z) o l :
  sum_by (fun j => if o j =? 0 then 0%Z else f j (o j)) l =
  sum_by (fun j => f j (o j)) (filter (fun j => o j <> 0) l).
Proof.
  induction l as [|j l IH]; [done|]. rewrite filter_cons. simpl. rewrite IH.
  destruct (Nat.eqb_spec (o j) 0).
  - by rewrite decide_False by (intros ?; done).
  - by rewrite decide_True by done.
Qed.

Lemma sum_rows o (u : nat -> Z) :
  owns_each 0 rows o ->
  sum_by (fun j => if o j =? 0 then 0%Z else u (o j)) (seq 1 columns) = sum_by u (seq 1 rows).
Proof.
  intros Ho. rewrite (sum_by_owned (fun _ => u)). fold (owned o).
  rewrite <- (sum_by_perm u _ _ (owned_rows o Ho)). by rewrite sum_by_fmap.
Qed.

(** No assignment is cheaper than one with a dual certificate. *)
Lemma assignment_optimal o u v o' :
  owns_each 0 rows o -> dual u v o -> (forall i, 1 <= i <= rows -> feasible u v i) ->
  owns_each 0 rows o' -> (assignment_cost o <= assignment_cost o')%Z.
Proof.
  intros Ho [Ht Hs Hf] Hfeas Ho'. unfold assignment_cost.
  assert (E : forall w, owns_each 0 rows w ->
    sum_by (fun j => ((if (w j =? 0)%nat then 0 else u (w j)) + v j)%Z) (seq 1 columns) =
    (sum_by u (seq 1 rows) + sum_by v (seq 1 columns))%Z).
  { intros w Hw. rewrite sum_by_add. by rewrite sum_rows. }
  transitivity (sum_by u (seq 1 rows) + sum_by v (seq 1 columns))%Z.
  - rewrite <- (E o Ho). apply sum_by_le. intros j Hj%elem_of_seq.
    destruct (Nat.eqb_spec (o j) 0) as [Hz|Hz]; [rewrite Hf by (lia || done); lia|].
    specialize (Ht j ltac:(lia) Hz). unfold tight in Ht. lia.
  - rewrite <- (E o' Ho'). apply sum_by_le. intros j Hj%elem_of_seq.
    destruct (Nat.eqb_spec (o' j) 0) as [Hz|Hz]; [specialize (Hs j ltac:(lia)); lia|].
    apply Hfeas; [|lia]. destruct Ho' as [Hb _ _]. specialize (Hb j). lia.
Qed.
End assignment.
