(* ===== verification/ReviewerMatchingProofs.v ===== *)
(** * What the reviewer matching decides

    A seating gives distinct approval groups to distinct reviewers who belong to
    them.  [matchDistinctReviewerGroups] always answers on a bounded input, its
    seats are a seating, and its status is "matched" exactly when some seating
    meets the quorum with a required human seat; no seating that meets the
    quorum has more human seats. *)

From S2P Require Import Prelude Errors Primitives Identity ReviewerMatching ReviewerAssignment.
#[local] Open Scope nat_scope.

Definition seat_real (input : ReviewerGroupAssignmentInput) (seat : MatchedSeat) : Prop :=
  exists reviewer, reviewer ∈ reviewers input /\
    seat_principalId seat = reviewer_principalId reviewer /\
    seat_groupId seat ∈ reviewer_groupIds reviewer /\ seat_groupId seat ∈ groupIds input /\
    seat_humanGroup seat = humanSeat input reviewer (seat_groupId seat).

Record seating (input : ReviewerGroupAssignmentInput) (seats : list MatchedSeat) : Prop := {
  seating_people : NoDup (seat_principalId <$> seats);
  seating_groups : NoDup (seat_groupId <$> seats);
  seating_real seat : seat ∈ seats -> seat_real input seat;
}.

(** The seats suffice for an approval. *)
Definition approves (input : ReviewerGroupAssignmentInput) (seats : list MatchedSeat) : Prop :=
  (quorum input <= Z.of_nat (length seats))%Z /\
  (humanGroupIds input = [] \/ exists seat, seat ∈ seats /\ seat_humanGroup seat = true).

Definition humanSeats (seats : list MatchedSeat) : Z :=
  sum_by (fun seat => if seat_humanGroup seat then 1%Z else 0%Z) seats.

Lemma humanSeats_length seats : (0 <= humanSeats seats <= Z.of_nat (length seats))%Z.
Proof.
  unfold humanSeats. induction seats as [|s l IH]; simpl; [lia|]. destruct (seat_humanGroup s); lia.
Qed.

Lemma humanSeats_pos seats :
  (0 < humanSeats seats)%Z <-> exists seat, seat ∈ seats /\ seat_humanGroup seat = true.
Proof.
  induction seats as [|s l IH]; unfold humanSeats in *; simpl.
  - split; [lia|]. intros (s & Hs & _). by apply elem_of_nil in Hs.
  - setoid_rewrite elem_of_cons. pose proof (humanSeats_length l). unfold humanSeats in *.
    destruct (seat_humanGroup s) eqn:E.
    + split; [eauto|lia].
    + rewrite Z.add_0_l, IH. split; [intros (t & ? & ?); eauto|].
      intros (t & [->|Ht] & Hh); [congruence|eauto].
Qed.

Lemma humanSeats_perm l k : l ≡ₚ k -> humanSeats l = humanSeats k.
Proof. apply sum_by_perm. Qed.

Lemma seating_perm input l k : l ≡ₚ k -> seating input l -> seating input k.
Proof. intros E [Hp Hg Hr]. split; [by rewrite <- E|by rewrite <- E|]. intros s. rewrite <- E. auto. Qed.

Section graph.
Context (graph : ReviewerGroupAssignmentInput).
Abbreviation rows := (length (groupIds graph)).
Abbreviation people := (length (reviewers graph)).
Abbreviation columns := (matrix_columns graph).
Hypothesis Hgroups : NoDup (groupIds graph).
Hypothesis Hpeople : NoDup (reviewer_principalId <$> reviewers graph).
Hypothesis Hquorum : (1 <= quorum graph <= Z.of_nat rows)%Z.

Definition group_at (row : nat) : string := read "" (groupIds graph) (row - 1).

Lemma columns_room : rows <= columns /\ people <= columns.
Proof. unfold matrix_columns. lia. Qed.

Lemma group_at_lookup row : 1 <= row <= rows -> groupIds graph !! (row - 1) = Some (group_at row).
Proof.
  intros H. unfold group_at, read. destruct (lookup_lt_is_Some_2 (groupIds graph) (row - 1)) as [g ->]; [lia|done].
Qed.

Lemma group_at_inj row row' :
  1 <= row <= rows -> 1 <= row' <= rows -> group_at row = group_at row' -> row = row'.
Proof.
  intros H H' E. enough (row - 1 = row' - 1) by lia.
  eapply NoDup_lookup; [exact Hgroups|by apply group_at_lookup|].
  rewrite E. by apply group_at_lookup.
Qed.

(** ** What an assignment of rows to columns seats *)

Definition seats_of (o : nat -> nat) (column : nat) : option MatchedSeat :=
  reviewer ← reviewers graph !! (column - 1);
  if (o column =? 0) then None
  else if negb (member graph column (group_at (o column))) then None
  else Some {| seat_principalId := reviewer_principalId reviewer;
               seat_groupId := group_at (o column);
               seat_humanGroup := humanSeat graph reviewer (group_at (o column)) |}.

Definition seated (o : nat -> nat) : list MatchedSeat := omap (seats_of o) (seq 1 people).

Lemma seats_of_Some o column seat :
  seats_of o column = Some seat <->
  exists reviewer, reviewers graph !! (column - 1) = Some reviewer /\ o column <> 0 /\
    group_at (o column) ∈ reviewer_groupIds reviewer /\
    seat = {| seat_principalId := reviewer_principalId reviewer;
              seat_groupId := group_at (o column);
              seat_humanGroup := humanSeat graph reviewer (group_at (o column)) |}.
Proof.
  unfold seats_of, member. destruct (reviewers graph !! (column - 1)) as [reviewer|]; simpl; [|naive_solver].
  destruct (Nat.eqb_spec (o column) 0); [naive_solver|].
  destruct (includes _ _) eqn:E; simpl.
  - apply includes_true in E. naive_solver.
  - apply includes_false in E. naive_solver.
Qed.

Lemma elem_of_seated o seat :
  seat ∈ seated o <-> exists column, 1 <= column <= people /\ seats_of o column = Some seat.
Proof.
  unfold seated. rewrite list_elem_of_omap. setoid_rewrite elem_of_seq. naive_solver lia.
Qed.

Lemma seated_seating o :
  owns_each columns 0 rows o -> seating graph (seated o).
Proof.
  intros [Hb Hi _]. pose proof columns_room.
  assert (Hbound : forall c, 1 <= c <= people -> o c <> 0 -> 1 <= o c <= rows).
  { intros c Hc Hz. specialize (Hb c). lia. }
  split.
  - unfold seated. rewrite list_fmap_omap. apply NoDup_omap; [apply NoDup_seq|].
    intros c c' p Hc%elem_of_seq Hc'%elem_of_seq (s & Hs & ->)%fmap_Some (s' & Hs' & E)%fmap_Some.
    apply seats_of_Some in Hs as (r & Hr & _ & _ & ->), Hs' as (r' & Hr' & _ & _ & ->). simpl in E.
    enough (c - 1 = c' - 1) by lia. eapply NoDup_lookup; [exact Hpeople| |].
    + by rewrite list_lookup_fmap, Hr.
    + by rewrite list_lookup_fmap, Hr', E.
  - unfold seated. rewrite list_fmap_omap. apply NoDup_omap; [apply NoDup_seq|].
    intros c c' g Hc%elem_of_seq Hc'%elem_of_seq (s & Hs & ->)%fmap_Some (s' & Hs' & E)%fmap_Some.
    apply seats_of_Some in Hs as (r & _ & Hz & _ & ->), Hs' as (r' & _ & Hz' & _ & ->). simpl in E.
    apply Hi; try lia. apply group_at_inj; [apply Hbound; lia|apply Hbound; lia|done].
  - intros s (c & Hc & (r & Hr & Hz & Hg & ->)%seats_of_Some)%elem_of_seated.
    exists r. simpl. split; [by eapply list_elem_of_lookup_2|]. do 2 (split; [done|]). split; [|done].
    eapply list_elem_of_lookup_2, group_at_lookup, Hbound; done.
Qed.

(** ** The cost of an assignment *)

(** An owned column whose reviewer is no member of the group. *)
Definition penalized (o : nat -> nat) (column : nat) : bool :=
  negb (o column =? 0) && negb (member graph column (group_at (o column))).

Definition penalties (o : nat -> nat) : Z :=
  sum_by (fun column => if penalized o column then 1%Z else 0%Z) (seq 1 people).

Lemma column_cost o column :
  1 <= column <= people ->
  (if (o column =? 0) then 0%Z else seat_cost graph (o column) column) =
  ((Z.of_nat rows + 1) * (if penalized o column then 1 else 0) -
   match seats_of o column with Some seat => if seat_humanGroup seat then 1 else 0 | None => 0 end)%Z.
Proof.
  intros Hc. unfold penalized, seats_of, seat_cost, group_at.
  destruct (lookup_lt_is_Some_2 (reviewers graph) (column - 1) ltac:(lia)) as [reviewer E].
  rewrite E. simpl. destruct (o column =? 0); simpl; [lia|].
  destruct (member graph column _); simpl; [|lia]. destruct (humanSeat _ _ _); lia.
Qed.

Lemma cost_of_seats o :
  assignment_cost (seat_cost graph) columns o =
  ((Z.of_nat rows + 1) * penalties o - humanSeats (seated o))%Z.
Proof.
  unfold assignment_cost. pose proof columns_room as [_ Hc].
  replace columns with (people + (columns - people)) by lia. rewrite seq_app, sum_by_app.
  rewrite (sum_by_zero _ (seq (1 + people) _)).
  2:{ intros c Hin%elem_of_seq. destruct (o c =? 0); [done|]. unfold seat_cost.
      by rewrite lookup_ge_None_2 by lia. }
  unfold penalties, seated, humanSeats. rewrite Z.add_0_r.
  assert (Hin : forall c, c ∈ seq 1 people -> 1 <= c <= people) by (intros c Hin%elem_of_seq; lia).
  induction (seq 1 people) as [|c l IH]; csimpl; [lia|].
  rewrite IH by (intros; apply Hin; by right). rewrite column_cost by (apply Hin; left).
  destruct (seats_of o c) as [s|]; simpl; lia.
Qed.
(** ** Every seating that meets the quorum is an assignment without penalty *)

Section placement.
Context (seats : list MatchedSeat).
Hypothesis Hseats : seating graph seats.
Hypothesis Henough : (quorum graph <= Z.of_nat (length seats))%Z.

Definition row_of (group : string) : nat :=
  match list_find (fun g => g = group) (groupIds graph) with Some (i, _) => S i | None => 0 end.

Lemma row_of_spec group :
  group ∈ groupIds graph -> 1 <= row_of group <= rows /\ group_at (row_of group) = group.
Proof.
  intros Hg. unfold row_of.
  destruct (list_find_elem_of (fun g => g = group) (groupIds graph) group Hg eq_refl) as [[i g] E].
  rewrite E. apply list_find_Some in E as (Hi & <- & _). pose proof (lookup_lt_Some _ _ _ Hi).
  split; [lia|]. unfold group_at, read. replace (S i - 1) with i by lia. by rewrite Hi.
Qed.

Definition seat_for (reviewer : Reviewer) : option MatchedSeat :=
  List.find (fun s => bool_decide (seat_principalId s = reviewer_principalId reviewer)) seats.

(** The rows no seat serves; placeholder columns take them. *)
Definition unserved : list nat :=
  filter (fun row => group_at row ∉ seat_groupId <$> seats) (seq 1 rows).

Definition place (column : nat) : nat :=
  match reviewers graph !! (column - 1) with
  | Some reviewer =>
      match seat_for reviewer with Some seat => row_of (seat_groupId seat) | None => 0 end
  | None => read 0 unserved (column - 1 - people)
  end.

Lemma seat_group_known seat : seat ∈ seats -> seat_groupId seat ∈ groupIds graph.
Proof. intros Hs. by destruct (seating_real _ _ Hseats seat Hs) as (r & _ & _ & _ & ? & _). Qed.

Lemma seat_for_Some reviewer seat :
  seat_for reviewer = Some seat ->
  seat ∈ seats /\ seat_principalId seat = reviewer_principalId reviewer.
Proof. intros H%find_Some_key. by rewrite bool_decide_eq_true in H. Qed.

(** The column of a seat. *)
Lemma seat_column seat :
  seat ∈ seats -> exists column reviewer, 1 <= column <= people /\
    reviewers graph !! (column - 1) = Some reviewer /\ seat_for reviewer = Some seat /\
    seat_groupId seat ∈ reviewer_groupIds reviewer /\
    seat_humanGroup seat = humanSeat graph reviewer (seat_groupId seat).
Proof.
  intros Hs. destruct (seating_real _ _ Hseats seat Hs) as (reviewer & Hr & Hp & Hg & _ & Hh).
  apply list_elem_of_lookup in Hr as [i Hi]. pose proof (lookup_lt_Some _ _ _ Hi).
  exists (S i), reviewer. split; [lia|]. replace (S i - 1) with i by lia. split; [done|]. split; [|done].
  unfold seat_for. rewrite <- Hp. apply find_unique; [apply Hseats|done].
Qed.

Lemma place_seat column reviewer seat :
  reviewers graph !! (column - 1) = Some reviewer -> seat_for reviewer = Some seat ->
  place column = row_of (seat_groupId seat).
Proof. intros Hr Hs. unfold place. by rewrite Hr, Hs. Qed.

Lemma place_cases column :
  1 <= column -> place column <> 0 ->
  (exists reviewer seat, reviewers graph !! (column - 1) = Some reviewer /\
     seat_for reviewer = Some seat /\ seat ∈ seats /\
     place column = row_of (seat_groupId seat)) \/
  people < column /\ unserved !! (column - 1 - people) = Some (place column).
Proof.
  intros Hc Hz. unfold place in *. destruct (reviewers graph !! (column - 1)) as [r|] eqn:Hr.
  - left. destruct (seat_for r) as [s|] eqn:Hs; [|done]. exists r, s.
    do 2 (split; [done|]). split; [|done]. by destruct (seat_for_Some _ _ Hs).
  - right. apply lookup_ge_None_1 in Hr. split; [lia|]. unfold read in *.
    by destruct (unserved !! (column - 1 - people)).
Qed.

Lemma elem_of_unserved row :
  row ∈ unserved <-> 1 <= row <= rows /\ group_at row ∉ seat_groupId <$> seats.
Proof. unfold unserved. rewrite list_elem_of_filter, elem_of_seq. naive_solver lia. Qed.

Lemma unserved_length : length unserved + length seats <= rows.
Proof.
  rewrite <- (length_fmap (fun s => row_of (seat_groupId s)) seats), <- length_app.
  rewrite <- (length_seq rows 1). apply submseteq_length, NoDup_submseteq.
  - apply NoDup_app. split; [apply NoDup_filter, NoDup_seq|]. split.
    + intros row [_ Hn]%elem_of_unserved (s & -> & Hs)%list_elem_of_fmap. apply Hn.
      rewrite (proj2 (row_of_spec _ (seat_group_known s Hs))). apply list_elem_of_fmap. eauto.
    + apply NoDup_fmap_2_strong; [|by eapply NoDup_fmap_1, Hseats].
      intros s s' Hs Hs' E. apply (key_unique seat_groupId seats); [apply Hseats|done|done|].
      rewrite <- (proj2 (row_of_spec _ (seat_group_known s Hs))), E.
      by apply row_of_spec, seat_group_known.
  - intros row. rewrite elem_of_app, elem_of_unserved, elem_of_seq.
    intros [?|(s & -> & Hs)%list_elem_of_fmap]; [lia|].
    destruct (row_of_spec _ (seat_group_known s Hs)). lia.
Qed.

Lemma place_owns : owns_each columns 0 rows place.
Proof.
  assert (Hcase : forall c, 1 <= c -> place c <> 0 -> 1 <= place c <= rows).
  { intros c Hc Hz. destruct (place_cases c Hc Hz) as [(r & s & _ & _ & Hs & ->)|[_ Hu]].
    - by apply row_of_spec, seat_group_known.
    - by apply list_elem_of_lookup_2, elem_of_unserved in Hu as [? _]. }
  split.
  - intros c _ Hc. destruct (decide (place c = 0)) as [->|Hz]; [lia|]. apply Hcase; lia.
  - intros c c' _ _ Hc Hc' E Hz. pose proof Hz as Hz'. rewrite E in Hz'.
    destruct (place_cases c ltac:(lia) Hz) as [(r & s & Hr & Hs & Hin & Ep)|[Hp Hu]],
      (place_cases c' ltac:(lia) Hz') as [(r' & s' & Hr' & Hs' & Hin' & Ep')|[Hp' Hu']].
    + destruct (row_of_spec _ (seat_group_known s Hin)) as [_ Hg].
      destruct (row_of_spec _ (seat_group_known s' Hin')) as [_ Hg'].
      assert (s' = s) as ->.
      { apply (key_unique seat_groupId seats); [apply Hseats|done|done|].
        rewrite <- Hg, <- Hg', <- Ep, <- Ep'. by f_equal. }
      apply seat_for_Some in Hs as [_ Hs], Hs' as [_ Hs'].
      enough (c - 1 = c' - 1) by lia. eapply NoDup_lookup; [exact Hpeople| |].
      * by rewrite list_lookup_fmap, Hr.
      * rewrite list_lookup_fmap, Hr'. simpl. congruence.
    + exfalso. apply list_elem_of_lookup_2, elem_of_unserved in Hu' as [_ Hn]. apply Hn.
      rewrite <- E, Ep, (proj2 (row_of_spec _ (seat_group_known s Hin))). apply list_elem_of_fmap. eauto.
    + exfalso. apply list_elem_of_lookup_2, elem_of_unserved in Hu as [_ Hn]. apply Hn.
      rewrite E, Ep', (proj2 (row_of_spec _ (seat_group_known s' Hin'))). apply list_elem_of_fmap. eauto.
    + enough (c - 1 - people = c' - 1 - people) by lia. rewrite E in Hu. eapply NoDup_lookup; [|done|done].
      apply NoDup_filter, NoDup_seq.
  - intros row Hr. destruct (decide (group_at row ∈ seat_groupId <$> seats)) as [Hg|Hg].
    + apply list_elem_of_fmap in Hg as (s & Hg & Hs).
      destruct (seat_column s Hs) as (c & r & Hc & Hrc & Hsf & _). pose proof columns_room.
      exists c. split; [lia|]. split; [lia|]. rewrite (place_seat c r s Hrc Hsf).
      destruct (row_of_spec _ (seat_group_known s Hs)) as [Hb E].
      apply group_at_inj; [done|lia|congruence].
    + assert (Hu : row ∈ unserved) by (by apply elem_of_unserved).
      apply list_elem_of_lookup in Hu as [t Ht]. pose proof (lookup_lt_Some _ _ _ Ht).
      pose proof unserved_length. exists (people + S t). unfold matrix_columns. split; [lia|].
      split; [lia|]. unfold place. rewrite lookup_ge_None_2 by lia.
      unfold read. replace (people + S t - 1 - people) with t by lia. by rewrite Ht.
Qed.

Lemma place_seats column seat : seats_of place column = Some seat -> 1 <= column -> seat ∈ seats.
Proof.
  intros (r & Hr & Hz & Hg & ->)%seats_of_Some Hc.
  destruct (place_cases column Hc Hz) as [(r' & s & Hr' & Hs & Hin & Ep)|[Hp Hu]].
  - replace r' with r in * by congruence. pose proof Hs as [_ Hsp]%seat_for_Some.
    destruct (seating_real _ _ Hseats s Hin) as (r'' & Hr'' & Hp & _ & _ & Hh).
    replace r'' with r in *.
    2:{ apply (key_unique reviewer_principalId (reviewers graph)); [done| |done|congruence].
        by eapply list_elem_of_lookup_2. }
    destruct (row_of_spec _ (seat_group_known s Hin)) as [_ E].
    rewrite Ep, E. rewrite <- Hsp, <- Hh. by destruct s.
  - apply lookup_lt_Some in Hr. lia.
Qed.

Lemma place_seated : seated place ≡ₚ seats.
Proof.
  apply NoDup_Permutation.
  - eapply NoDup_fmap_1, seating_people, seated_seating, place_owns.
  - eapply NoDup_fmap_1, Hseats.
  - intros s. rewrite elem_of_seated. split.
    + intros (c & Hc & Hs). eapply place_seats; [done|lia].
    + intros Hs. destruct (seat_column s Hs) as (c & r & Hc & Hr & Hsf & Hg & Hh). exists c. split; [done|].
      destruct (row_of_spec _ (seat_group_known s Hs)) as [Hb E].
      apply seats_of_Some. exists r. rewrite (place_seat c r s Hr Hsf), E.
      split; [done|]. split; [lia|]. split; [done|].
      pose proof Hsf as [_ <-]%seat_for_Some. rewrite <- Hh. by destruct s.
Qed.

Lemma place_unpenalized : penalties place = 0%Z.
Proof.
  apply sum_by_zero. intros c Hc%elem_of_seq. unfold penalized.
  destruct (Nat.eqb_spec (place c) 0) as [|Hz]; [done|]. simpl.
  destruct (place_cases c ltac:(lia) Hz) as [(r & s & Hr & Hs & Hin & Ep)|[Hp _]]; [|lia].
  destruct (seating_real _ _ Hseats s Hin) as (r' & Hr' & Hp & Hg & _).
  pose proof Hs as [_ Hsp]%seat_for_Some.
  assert (r' = r) as ->.
  { apply (key_unique reviewer_principalId (reviewers graph)); [done|done| |congruence].
    by eapply list_elem_of_lookup_2. }
  unfold member. rewrite Hr, Ep, (proj2 (row_of_spec _ (seat_group_known s Hin))).
  by rewrite (proj2 (includes_true _ _) Hg).
Qed.
End placement.
(** ** The optimum *)

Section optimum.
Context (o : nat -> nat) (u v : nat -> Z).
Hypothesis Ho : owns_each columns 0 rows o.
Hypothesis Hdual : dual (seat_cost graph) columns u v o.
Hypothesis Hfeasible : forall i, 1 <= i <= rows -> feasible (seat_cost graph) columns u v i.

Lemma seated_bound : length (seated o) <= rows.
Proof.
  rewrite <- (length_fmap seat_groupId (seated o)).
  apply submseteq_length, NoDup_submseteq; [by eapply seating_groups, seated_seating|].
  intros g (s & -> & Hs)%list_elem_of_fmap.
  by destruct (seating_real _ _ (seated_seating o Ho) s Hs) as (r & _ & _ & _ & ? & _).
Qed.

(** Without penalties every row but those in placeholder columns is seated. *)
Lemma seated_many : penalties o = 0%Z -> rows <= length (seated o) + (columns - people).
Proof.
  intros Hpen. pose proof columns_room as [_ Hc].
  rewrite <- (length_seq rows 1), <- (Permutation_length (owned_rows (seat_cost graph) _ _ o Ho)), length_fmap.
  unfold owned. replace (seq 1 columns) with (seq 1 people ++ seq (1 + people) (columns - people)).
  2:{ rewrite <- seq_app. f_equal. lia. }
  rewrite filter_app, length_app.
  assert (Hdummy := length_filter (fun j => o j <> 0) (seq (1 + people) (columns - people))).
  rewrite length_seq in Hdummy. enough (length (filter (fun j => o j <> 0) (seq 1 people)) =
    length (seated o)) by lia.
  assert (Hin : forall c, c ∈ seq 1 people -> 1 <= c <= people /\ penalized o c = false).
  { intros c Hin. split; [apply elem_of_seq in Hin; lia|]. destruct (penalized o c) eqn:E; [|done].
    pose proof (sum_by_elem_le (fun c => if penalized o c then 1%Z else 0%Z) _ c
      ltac:(intros y _; simpl; destruct (penalized o y); lia) Hin) as Hle.
    unfold penalties in Hpen. rewrite Hpen, E in Hle. lia. }
  unfold seated. clear Hdummy. induction (seq 1 people) as [|c l IH]; csimpl; [done|].
  destruct (Hin c ltac:(left)) as [Hb Hp]. rewrite filter_cons.
  assert (IH' := IH ltac:(intros; apply Hin; by right)).
  unfold penalized, seats_of in *.
  destruct (lookup_lt_is_Some_2 (reviewers graph) (c - 1) ltac:(lia)) as [r E]. rewrite E. simpl.
  destruct (Nat.eqb_spec (o c) 0) as [Hz|Hz]; simpl in *.
  - by rewrite decide_False by (intros H; done).
  - rewrite decide_True by done. rewrite Hp. simpl. by f_equal.
Qed.

Lemma optimum_seats seats :
  seating graph seats -> (quorum graph <= Z.of_nat (length seats))%Z ->
  (quorum graph <= Z.of_nat (length (seated o)))%Z /\
  (humanSeats seats <= humanSeats (seated o))%Z.
Proof.
  intros Hs Hq. pose proof (assignment_optimal _ _ _ o u v (place seats) Ho Hdual Hfeasible
    (place_owns seats Hs Hq)) as Hopt.
  rewrite !cost_of_seats, (place_unpenalized seats Hs), (humanSeats_perm _ _ (place_seated seats Hs Hq)) in Hopt.
  pose proof (humanSeats_length (seated o)). pose proof (humanSeats_length seats).
  pose proof seated_bound. assert (0 <= penalties o)%Z.
  { apply sum_by_nonneg. intros c _. destruct (penalized o c); lia. }
  assert (Hpen : penalties o = 0%Z) by nia. split; [|rewrite Hpen in Hopt; lia].
  pose proof (seated_many Hpen). assert (length seats <= people).
  { rewrite <- (length_fmap seat_principalId seats), <- (length_fmap reviewer_principalId (reviewers graph)).
    apply submseteq_length, NoDup_submseteq; [apply Hs|].
    intros p (s & -> & Hin)%list_elem_of_fmap. destruct (seating_real _ _ Hs s Hin) as (r & Hr & -> & _).
    by apply list_elem_of_fmap_2. }
  unfold matrix_columns in *. lia.
Qed.
End optimum.

Lemma assignment_seats owners :
  assignment_matched (assignment_of graph owners) ≡ₚ seated (read 0 owners).
Proof. simpl. rewrite sort_by_perm. reflexivity. Qed.

Lemma assignment_status_spec owners :
  assignment_status (assignment_of graph owners) = matched_status <->
  approves graph (assignment_matched (assignment_of graph owners)).
Proof.
  unfold approves. simpl. set (seats := sort_by _ _).
  rewrite <- humanSeats_pos. pose proof (humanSeats_pos seats).
  assert (existsb seat_humanGroup seats = true <-> (0 < humanSeats seats)%Z) as Hh.
  { rewrite humanSeats_pos, existsb_exists. by setoid_rewrite <- list_elem_of_In. }
  destruct (_ && _) eqn:E.
  - apply andb_true_iff in E as [Hq He]. apply Z.leb_le in Hq. apply orb_true_iff in He.
    rewrite Nat.eqb_eq, Hh in He. split; [|done]. intros _. split; [done|].
    destruct He as [He|He]; [left; by apply nil_length_inv|by right].
  - split; [done|]. intros [Hq He]. apply not_true_iff_false in E. destruct E.
    apply andb_true_iff. split; [by apply Z.leb_le|]. apply orb_true_iff. rewrite Nat.eqb_eq, Hh.
    destruct He as [->|He]; [by left|by right].
Qed.

Lemma approves_perm l k : l ≡ₚ k -> approves graph l -> approves graph k.
Proof.
  intros E [Hq Hh]. split; [by rewrite <- E|]. destruct Hh as [?|(s & Hs & Hh)]; [by left|right].
  exists s. by rewrite <- E.
Qed.

Lemma graph_decides :
  exists owners, assign (seat_cost graph) rows columns = Some owners /\
    seating graph (assignment_matched (assignment_of graph owners)) /\
    (assignment_status (assignment_of graph owners) = matched_status <->
     exists seats, seating graph seats /\ approves graph seats) /\
    forall seats, seating graph seats -> (quorum graph <= Z.of_nat (length seats))%Z ->
      (humanSeats seats <= humanSeats (assignment_matched (assignment_of graph owners)))%Z.
Proof.
  destruct (assign_total (seat_cost graph) rows columns (proj1 columns_room))
    as (owners & u & v & Hrun & Ho & Hd & Hf).
  exists owners. split; [done|]. pose proof (assignment_seats owners) as Hp.
  assert (Hsound : seating graph (assignment_matched (assignment_of graph owners))).
  { eapply seating_perm; [by symmetry|]. by apply seated_seating. }
  split; [done|]. split.
  - rewrite assignment_status_spec. split; [eauto|]. intros (seats & Hs & Hq & Hh).
    destruct (optimum_seats _ u v Ho Hd Hf seats Hs Hq) as [Hq' Hle].
    eapply approves_perm; [by symmetry|]. split; [done|].
    destruct Hh as [?|Hh]; [by left|right]. apply humanSeats_pos. apply humanSeats_pos in Hh. lia.
  - intros seats Hs Hq. rewrite (humanSeats_perm _ _ Hp).
    by apply (optimum_seats _ u v Ho Hd Hf seats Hs Hq).
Qed.
End graph.

(** ** The parsed input *)

Lemma ids_Ok value minimum maximum l :
  ids value minimum maximum = Ok l <->
  (minimum <= length value <= maximum /\ forallb OpaqueIdSchema value = true /\ NoDup value) /\
  l = sort_by id value.
Proof.
  unfold ids, no_duplicates. rewrite bind_Ok. setoid_rewrite reject_when_Ok. split.
  - intros (_ & H & [= <-]). breflect. rewrite !Nat.ltb_ge in H. naive_solver.
  - intros ((Hl & -> & Hnd) & ->). exists tt. split; [|done].
    rewrite (proj2 (Nat.ltb_ge _ _)), (proj2 (Nat.ltb_ge _ _)) by lia.
    by rewrite bool_decide_eq_true_2.
Qed.

Definition same_reviewer (raw parsed : Reviewer) : Prop :=
  reviewer_principalId parsed = reviewer_principalId raw /\
  reviewer_human parsed = reviewer_human raw /\
  reviewer_groupIds parsed ≡ₚ reviewer_groupIds raw.

Lemma parse_reviewer_Ok raw parsed :
  parse_reviewer raw = Ok parsed -> same_reviewer raw parsed.
Proof.
  unfold parse_reviewer. intros H. inv_res. apply ids_Ok in H1 as [_ ->]. split; [done|].
  split; [done|]. apply sort_by_perm.
Qed.

Record parsed_from (input graph : ReviewerGroupAssignmentInput) : Prop := {
  parsed_groups : groupIds graph ≡ₚ groupIds input;
  parsed_humans : humanGroupIds graph ≡ₚ humanGroupIds input;
  parsed_quorum : quorum graph = quorum input;
  parsed_reviewers r : r ∈ reviewers input -> exists r', r' ∈ reviewers graph /\ same_reviewer r r';
  parsed_reviewers_back r' : r' ∈ reviewers graph -> exists r, r ∈ reviewers input /\ same_reviewer r r';
}.

Lemma parse_graph_Ok input graph :
  parse_graph input = Ok graph ->
  parsed_from input graph /\ NoDup (groupIds graph) /\
  NoDup (reviewer_principalId <$> reviewers graph) /\
  (1 <= quorum graph <= Z.of_nat (length (groupIds graph)))%Z.
Proof.
  unfold parse_graph. intros H. inv_res.
  match goal with
  | Hg : ids _ 1 _ = _, Hh : ids _ 0 _ = _, Hq : _ || _ = false, Hm : map_result _ _ = _,
    Hu : negb _ = false |- _ =>
      apply ids_Ok in Hg as [(_ & _ & Hnd) ->]; apply ids_Ok in Hh as [_ ->];
      rename Hm into Hr; rename Hu into Hn; rename Hq into Hbounds
  end.
  apply negb_false_iff, bool_decide_eq_true in Hn. rewrite !orb_false_iff, !Z.ltb_ge in Hbounds.
  split; [split; simpl|].
  - apply sort_by_perm.
  - apply sort_by_perm.
  - done.
  - intros r Hin. destruct (map_result_in _ _ _ _ Hr Hin) as (r' & Hin' & Hp).
    exists r'. split; [by rewrite sort_by_perm|by apply parse_reviewer_Ok].
  - intros r'. rewrite sort_by_perm. intros Hin.
    destruct (map_result_out _ _ _ _ Hr Hin) as (r & Hin' & Hp). exists r. split; [done|by apply parse_reviewer_Ok].
  - cbn [groupIds reviewers quorum]. split; [by rewrite sort_by_perm|]. split; [done|]. lia.
Qed.

Lemma same_seat input graph r r' group :
  parsed_from input graph -> same_reviewer r r' ->
  humanSeat graph r' group = humanSeat input r group.
Proof.
  intros H (_ & Hh & _). unfold humanSeat. rewrite Hh. f_equal. apply eq_true_iff_eq.
  by rewrite !includes_true, (parsed_humans _ _ H).
Qed.

Lemma seat_real_parsed input graph seat :
  parsed_from input graph -> seat_real graph seat <-> seat_real input seat.
Proof.
  intros H. unfold seat_real. setoid_rewrite (parsed_groups _ _ H). split.
  - intros (r' & Hr' & Hp & Hg & Hgi & Hh). destruct (parsed_reviewers_back _ _ H r' Hr') as (r & Hr & Hs).
    exists r. rewrite <- (same_seat _ _ _ _ _ H Hs). destruct Hs as (<- & _ & <-). done.
  - intros (r & Hr & Hp & Hg & Hgi & Hh). destruct (parsed_reviewers _ _ H r Hr) as (r' & Hr' & Hs).
    exists r'. rewrite (same_seat _ _ _ _ _ H Hs). destruct Hs as (-> & _ & ->). done.
Qed.

Lemma seating_parsed input graph seats :
  parsed_from input graph -> seating graph seats <-> seating input seats.
Proof.
  intros H. split; intros [Hp Hg Hr]; split; try done; intros s Hs; apply (seat_real_parsed _ _ s H); auto.
Qed.

Lemma approves_parsed input graph seats :
  parsed_from input graph -> approves graph seats <-> approves input seats.
Proof.
  intros H. unfold approves. rewrite (parsed_quorum _ _ H).
  enough (humanGroupIds graph = [] <-> humanGroupIds input = []) by tauto.
  pose proof (parsed_humans _ _ H) as E. split; intros Ez; rewrite Ez in E.
  - by apply Permutation_nil_l in E.
  - by apply Permutation_nil_r in E.
Qed.

(** C7. On every bounded input the matching returns seats that give distinct
    groups to distinct members; it reports "matched" exactly when some such
    seating reaches the quorum with a required human seat, and no seating that
    reaches the quorum has more human seats. *)
Theorem reviewer_matching_decides input graph :
  parse_graph input = Ok graph ->
  exists answer, matchDistinctReviewerGroups input = Some (Ok answer) /\
    seating input (assignment_matched answer) /\
    (assignment_status answer = matched_status <->
     exists seats, seating input seats /\ approves input seats) /\
    forall seats, seating input seats -> (quorum input <= Z.of_nat (length seats))%Z ->
      (humanSeats seats <= humanSeats (assignment_matched answer))%Z.
Proof.
  intros H. pose proof (parse_graph_Ok _ _ H) as (Hp & Hg & Hr & Hq).
  destruct (graph_decides graph Hg Hr Hq) as (owners & Hrun & Hsound & Hstatus & Hbest).
  exists (assignment_of graph owners). unfold matchDistinctReviewerGroups. rewrite H, Hrun.
  split; [done|]. split; [by apply (seating_parsed _ _ _ Hp)|]. split.
  - rewrite Hstatus. split; intros (seats & Hs & Ha); exists seats;
      (split; [by apply (seating_parsed _ _ _ Hp)|by apply (approves_parsed _ _ _ Hp)]).
  - intros seats Hs Hle. apply Hbest; [by apply (seating_parsed _ _ _ Hp)|].
    by rewrite (parsed_quorum _ _ Hp).
Qed.

(** ** The input contract *)

Definition bounded_ids (value : list string) (minimum maximum : nat) : Prop :=
  minimum <= length value <= maximum /\ Forall (fun id => OpaqueIdSchema id = true) value /\ NoDup value.

Record bounded_graph (input : ReviewerGroupAssignmentInput) : Prop := {
  bounded_groups : bounded_ids (groupIds input) 1 32;
  bounded_humans : bounded_ids (humanGroupIds input) 0 32;
  bounded_subset id : id ∈ humanGroupIds input -> id ∈ groupIds input;
  bounded_quorum : (1 <= quorum input <= Z.of_nat (length (groupIds input)))%Z;
  bounded_reviewers : (Z.of_nat (length (reviewers input)) <= 4096)%Z;
  bounded_reviewer r : r ∈ reviewers input ->
    OpaqueIdSchema (reviewer_principalId r) = true /\ bounded_ids (reviewer_groupIds r) 0 32;
  bounded_people : NoDup (reviewer_principalId <$> reviewers input);
}.

Lemma ids_refused value minimum maximum e :
  ids value minimum maximum = Throw e -> e = InvalidReviewerGroupGraphError.
Proof. unfold ids. destruct (_ || _); simpl; congruence. Qed.

Lemma ids_accepts value minimum maximum :
  (exists l, ids value minimum maximum = Ok l) <-> bounded_ids value minimum maximum.
Proof.
  assert (E : forallb OpaqueIdSchema value = true <->
              Forall (fun id => OpaqueIdSchema id = true) value).
  { rewrite Forall_forall, forallb_forall. by setoid_rewrite list_elem_of_In. }
  unfold bounded_ids. setoid_rewrite ids_Ok. setoid_rewrite E. naive_solver.
Qed.

Lemma parse_reviewer_refused r e : parse_reviewer r = Throw e -> e = InvalidReviewerGroupGraphError.
Proof.
  unfold parse_reviewer. rewrite bind_Throw. intros [[_ ?]%reject_when_Throw|(_ & _ & H)]; [done|].
  rewrite bind_Throw in H. destruct H as [?%ids_refused|(? & _ & ?)]; done.
Qed.

Lemma parse_reviewer_accepts r :
  (exists r', parse_reviewer r = Ok r') <->
  OpaqueIdSchema (reviewer_principalId r) = true /\ bounded_ids (reviewer_groupIds r) 0 32.
Proof.
  rewrite <- ids_accepts. unfold parse_reviewer. destruct (OpaqueIdSchema _); simpl.
  - change MAX_POLICY_APPROVAL_GROUPS with 32. destruct (ids _ _ _); simpl; naive_solver.
  - naive_solver.
Qed.

Lemma parsed_principals l k :
  map_result parse_reviewer l = Ok k -> reviewer_principalId <$> k = reviewer_principalId <$> l.
Proof.
  rewrite map_result_Forall2. induction 1 as [|r r' l k Hr Hl IH]; [done|]. csimpl. rewrite IH. f_equal.
  by apply parse_reviewer_Ok in Hr as [-> _].
Qed.

Lemma parse_graph_refused input e :
  parse_graph input = Throw e -> e = InvalidReviewerGroupGraphError.
Proof.
  unfold parse_graph. intros H.
  rewrite bind_Throw in H. destruct H as [?%ids_refused|(groups & _ & H)]; [done|].
  rewrite bind_Throw in H. destruct H as [?%ids_refused|(humans & _ & H)]; [done|].
  rewrite bind_Throw in H. destruct H as [[_ ?]%reject_when_Throw|(_ & _ & H)]; [done|].
  rewrite bind_Throw in H. destruct H as [Hm|(parsed & _ & H)].
  - revert Hm. generalize (reviewers input). induction l as [|r l IH]; simpl; [done|].
    rewrite bind_Throw. intros [?%parse_reviewer_refused|(r' & _ & H)]; [done|].
    rewrite bind_Throw in H. destruct H as [?|(? & _ & ?)]; [auto|done].
  - rewrite bind_Throw in H. destruct H as [[_ ?]%reject_when_Throw|(_ & _ & ?)]; done.
Qed.

Lemma parse_graph_bounded input graph : parse_graph input = Ok graph -> bounded_graph input.
Proof.
  unfold parse_graph. intros H. inv_res.
  match goal with
  | Hg : ids _ 1 _ = Ok ?g, Hh : ids _ 0 _ = Ok ?h, Hq : _ || _ = false, Hm : map_result _ _ = _,
    Hu : negb _ = false |- _ =>
      assert (Hbg := proj1 (ids_accepts _ _ _) (ex_intro _ _ Hg));
      assert (Hbh := proj1 (ids_accepts _ _ _) (ex_intro _ _ Hh));
      apply ids_Ok in Hg as [_ ->]; apply ids_Ok in Hh as [_ ->];
      rename Hm into Hr; rename Hu into Hn; rename Hq into Hb
  end.
  rewrite !orb_false_iff, !Z.ltb_ge, Nat.ltb_ge in Hb. destruct Hb as [[[Hsub Hq1] Hq2] Hlen].
  rewrite (Permutation_length (sort_by_perm id (groupIds input))) in Hq2. split; try done.
  - intros g Hg. destruct (includes (sort_by id (groupIds input)) g) eqn:E.
    + apply includes_true in E. by rewrite sort_by_perm in E.
    + exfalso. apply not_true_iff_false in Hsub. apply Hsub, existsb_exists. exists g.
      rewrite <- list_elem_of_In, sort_by_perm. by rewrite E.
  - unfold MAX_RELEASE_QUORUM_REVIEWERS in Hlen. lia.
  - intros r Hin. apply parse_reviewer_accepts.
    destruct (map_result_in _ _ _ _ Hr Hin) as (r' & _ & ?). eauto.
  - rewrite <- (parsed_principals _ _ Hr). apply negb_false_iff, bool_decide_eq_true in Hn.
    by rewrite sort_by_perm in Hn.
Qed.

Lemma bounded_parse_graph input : bounded_graph input -> exists graph, parse_graph input = Ok graph.
Proof.
  intros [Hg Hh Hsub Hq Hlen Hr Hnd]. apply ids_accepts in Hg as [g Hg], Hh as [h Hh].
  unfold parse_graph, MAX_POLICY_APPROVAL_GROUPS. rewrite Hg, Hh.
  apply ids_Ok in Hg as [_ ->], Hh as [_ ->]. simpl.
  assert (Hm : exists parsed, map_result parse_reviewer (reviewers input) = Ok parsed).
  { clear Hlen Hnd. induction (reviewers input) as [|r l IH]; simpl; [eauto|].
    destruct (proj2 (parse_reviewer_accepts r) (Hr r ltac:(left))) as [r' ->].
    destruct IH as [k ->]; [intros; apply Hr; by right|]. simpl. eauto. }
  destruct Hm as [parsed Hm].
  set (groups := sort_by id (groupIds input)).
  assert (Hin : forall g, g ∈ groups <-> g ∈ groupIds input) by (intros g; unfold groups; by rewrite sort_by_perm).
  assert (Hguard : existsb (fun id => negb (includes groups id)) (sort_by id (humanGroupIds input)) ||
    (quorum input <? 1)%Z || (Z.of_nat (length groups) <? quorum input)%Z ||
    (MAX_RELEASE_QUORUM_REVIEWERS <? length (reviewers input)) = false).
  { rewrite !orb_false_iff, !Z.ltb_ge, Nat.ltb_ge.
    assert (length groups = length (groupIds input)) as -> by apply Permutation_length, sort_by_perm.
    split; [split; [split|]|]; [|lia|lia|].
    - apply not_true_iff_false. intros (x & Hx & Hi)%existsb_exists.
      apply list_elem_of_In in Hx. rewrite sort_by_perm in Hx.
      apply negb_true_iff, includes_false in Hi. apply Hi, Hin. auto.
    - unfold MAX_RELEASE_QUORUM_REVIEWERS. lia. }
  rewrite Hguard.
  simpl. rewrite Hm. simpl.
  unfold no_duplicates. rewrite bool_decide_eq_true_2; [simpl; eauto|].
  rewrite sort_by_perm. by rewrite (parsed_principals _ _ Hm).
Qed.

(** The matching refuses exactly the inputs outside its bounded contract,
    always with [InvalidReviewerGroupGraphError]. *)
Theorem reviewer_graph_contract input :
  (bounded_graph input <-> exists answer, matchDistinctReviewerGroups input = Some (Ok answer)) /\
  (~ bounded_graph input <->
   matchDistinctReviewerGroups input = Some (Throw InvalidReviewerGroupGraphError)).
Proof.
  unfold matchDistinctReviewerGroups. destruct (parse_graph input) as [graph|e] eqn:H.
  - pose proof (parse_graph_bounded _ _ H) as Hb. apply parse_graph_Ok in H as (_ & Hg & Hr & Hq).
    destruct (graph_decides graph Hg Hr Hq) as (owners & -> & _). simpl. naive_solver.
  - pose proof (parse_graph_refused _ _ H) as ->.
    assert (~ bounded_graph input) by (intros (? & ?)%bounded_parse_graph; congruence). naive_solver.
Qed.

(** ** The order of the input *)

Lemma no_duplicates_perm {A} `{EqDecision A} (l k : list A) :
  l ≡ₚ k -> no_duplicates l = no_duplicates k.
Proof. intros E. apply bool_decide_ext. by rewrite E. Qed.

Lemma ids_perm l k minimum maximum : l ≡ₚ k -> ids l minimum maximum = ids k minimum maximum.
Proof.
  intros E. unfold ids.
  rewrite <- (Permutation_length E), <- (forallb_perm _ _ _ E), <- (no_duplicates_perm _ _ E).
  destruct (_ || negb (no_duplicates l)) eqn:H; [done|]. simpl.
  apply orb_false_iff in H as [_ H]. apply negb_false_iff, bool_decide_eq_true in H.
  f_equal. apply sort_by_unique; [done|]. by rewrite list_fmap_id.
Qed.

Lemma parse_reviewer_same r r' : same_reviewer r r' -> parse_reviewer r = parse_reviewer r'.
Proof.
  intros (Hp & Hh & Hg). unfold parse_reviewer. by rewrite Hp, Hh, (ids_perm _ _ _ _ Hg).
Qed.

(** Mapping over a permuted list fails alike, or gives a permuted list. *)
Definition permuted_results {E A} (left right : result E (list A)) : Prop :=
  match left, right with
  | Ok l, Ok k => l ≡ₚ k
  | Throw e, Throw e' => e = e'
  | _, _ => False
  end.

Lemma map_result_perm {E A B} (f : A -> result E B) (error : E) l k :
  (forall x e, f x = Throw e -> e = error) -> l ≡ₚ k ->
  permuted_results (map_result f l) (map_result f k).
Proof.
  intros Hf. assert (Hm : forall l e, map_result f l = Throw e -> e = error).
  { induction l0 as [|x l0 IH]; simpl; [done|]. intros e.
    destruct (f x) as [y|e1] eqn:Ex; simpl; [|intros [= <-]; eauto].
    destruct (map_result f l0) eqn:El; simpl; [done|]. intros [= <-]. eauto. }
  induction 1 as [|x l k H IH|x y l|l k m H1 IH1 H2 IH2]; simpl.
  - constructor.
  - destruct (f x); simpl; [|done]. destruct (map_result f l), (map_result f k); simpl in *; try done.
    by constructor.
  - destruct (f x) as [x'|e] eqn:Ex, (f y) as [y'|e'] eqn:Ey; simpl; try apply Hf in Ex; try apply Hf in Ey;
      destruct (map_result f l) as [k|e''] eqn:El; simpl; try apply Hm in El; subst; try done.
    by constructor.
  - destruct (map_result f l), (map_result f k), (map_result f m); simpl in *; try done.
    + by etrans.
    + congruence.
Qed.

Record same_input (left right : ReviewerGroupAssignmentInput) : Prop := {
  same_groups : groupIds left ≡ₚ groupIds right;
  same_humans : humanGroupIds left ≡ₚ humanGroupIds right;
  same_quorum : quorum left = quorum right;
  same_reviewers : exists permuted,
    reviewers left ≡ₚ permuted /\ Forall2 same_reviewer permuted (reviewers right);
}.

Lemma parse_graph_same left right : same_input left right -> parse_graph left = parse_graph right.
Proof.
  intros [Hg Hh Hq (permuted & Hp & Hs)]. unfold parse_graph.
  rewrite (ids_perm _ _ _ _ Hg), (ids_perm _ _ _ _ Hh), Hq.
  rewrite (Permutation_length Hp), (Forall2_length _ _ _ Hs).
  destruct (ids (groupIds right) _ _) as [groups|]; [|done]. simpl.
  destruct (ids (humanGroupIds right) _ _) as [humans|]; [|done]. simpl.
  destruct (reject_when _ _); [|done]. simpl.
  assert (E : map_result parse_reviewer permuted = map_result parse_reviewer (reviewers right)).
  { clear Hp. induction Hs as [|r r' l k Hr Hl IH]; [done|]. simpl.
    by rewrite (parse_reviewer_same _ _ Hr), IH. }
  pose proof (map_result_perm parse_reviewer InvalidReviewerGroupGraphError _ _
                parse_reviewer_refused Hp) as Hmap.
  rewrite E in Hmap. destruct (map_result _ (reviewers left)) as [l|], (map_result _ (reviewers right)) as [k|];
    simpl in *; [|done|done|by subst].
  assert (Hsorted : sort_by reviewer_principalId l ≡ₚ sort_by reviewer_principalId k)
    by by rewrite !sort_by_perm.
  rewrite (no_duplicates_perm _ _ (fmap_Permutation reviewer_principalId _ _ Hsorted)).
  destruct (no_duplicates _) eqn:Hnd; [|done]. simpl. f_equal. f_equal.
  apply sort_by_unique; [done|]. apply bool_decide_eq_true in Hnd.
  by rewrite sort_by_perm, <- Hmap in Hnd.
Qed.

(** The answer does not depend on the order in which groups, human groups,
    reviewers and memberships are listed. *)
Theorem matching_order_independent left right :
  same_input left right -> matchDistinctReviewerGroups left = matchDistinctReviewerGroups right.
Proof. intros H. unfold matchDistinctReviewerGroups. by rewrite (parse_graph_same _ _ H). Qed.
