(* ===== verification/ExactArithmetic.v ===== *)
(** * Exact comparison arithmetic

    [packages/core/src/evaluation/comparison-exact-arithmetic.ts] and
    [ComparisonExactValueSchema] of
    [packages/contracts/src/evaluation-comparison.ts]: bounded exact decimals
    and rationals, their canonical form, and the descriptive aggregates
    (minimum, maximum, sum, mean, median, nearest-rank quantile). *)

From stdpp Require Import sorting.
From S2P Require Import Prelude Errors Regex BigInts Primitives.
From Stdlib Require Import Ascii.
#[local] Open Scope Z_scope.

(** ** Assurance text

    Lengths are counted in Unicode scalar values.  [normalize("NFC")] is the
    language's own; all that is used of it is that it leaves ASCII alone. *)

Class UnicodeNormalization := {
  normalizeNFC : text -> text;
  normalizeNFC_ascii : forall t, forallb (fun u => (0 <=? u) && (u <=? 127)) t = true ->
    normalizeNFC t = t;
}.

(** The code points iteration yields: a surrogate pair is one, a lone
    surrogate is itself. *)
Fixpoint code_points (value : text) : list Z :=
  match value with
  | [] => []
  | high :: rest =>
      match rest with
      | low :: rest' =>
          if (55296 <=? high) && (high <=? 56319) && (56320 <=? low) && (low <=? 57343)
          then (65536 + (high - 55296) * 1024 + (low - 56320)) :: code_points rest'
          else high :: code_points rest
      | [] => [high]
      end
  end.

Definition unicodeScalarLength (value : text) : option nat :=
  if existsb (fun codePoint => (55296 <=? codePoint) && (codePoint <=? 57343)) (code_points value)
  then None else Some (length (code_points value)).

Definition containsUnsafeDisplayControl (value : text) : bool :=
  existsb (fun codePoint =>
    (codePoint <=? 31) || ((127 <=? codePoint) && (codePoint <=? 159)) ||
    (codePoint =? 1564) || (codePoint =? 8206) || (codePoint =? 8207) ||
    ((8232 <=? codePoint) && (codePoint <=? 8238)) ||
    ((8294 <=? codePoint) && (codePoint <=? 8297))) (code_points value).

Definition boundedCanonicalText `{UnicodeNormalization} (maximumCharacters : nat) (value : text) : bool :=
  (1 <=? length value)%nat && (trim value === value) && (normalizeNFC value === value) &&
  negb (containsUnsafeDisplayControl value) &&
  match unicodeScalarLength value with
  | Some length => (length <=? maximumCharacters)%nat
  | None => false
  end.

Definition AssuranceSummarySchema `{UnicodeNormalization} (value : text) : bool :=
  boundedCanonicalText 512 value.

(** ** Exact values *)

Definition MAX_COMPARISON_SUBJECT_FIXTURES : Z := 500.
Definition MAX_COMPARISON_NUMERIC_OBSERVATIONS : Z := 8000.
Definition MAX_COMPARISON_EXACT_INTEGER_CHARACTERS : nat := 128.
Definition MAX_COMPARISON_EXACT_AGGREGATION_VALUES : Z :=
  MAX_COMPARISON_NUMERIC_OBSERVATIONS * MAX_COMPARISON_SUBJECT_FIXTURES.

Inductive ComparisonExactValue : Type :=
| decimal_value (unit : text) (value : string)
| rational_value (denominator numerator : string) (unit : text).

#[global] Instance ComparisonExactValue_eq_dec : EqDecision ComparisonExactValue.
Proof. solve_decision. Defined.

Definition ExactIntegerSchema (s : string) : bool :=
  (String.length s <=? MAX_COMPARISON_EXACT_INTEGER_CHARACTERS)%nat && test integer_re s.

Definition ExactPositiveIntegerSchema (s : string) : bool :=
  (String.length s <=? MAX_COMPARISON_EXACT_INTEGER_CHARACTERS)%nat && test positive_re s.

(** An optional sign, up to 18 whole digits without leading zeros, and
    optionally a point and up to 18 fractional digits. *)
Definition unsigned_decimal_re : re :=
  Cat (Alt (chr "0"%char) (Cat (one_of [("1", "9")]%char) (at_most 17 digit_re)))
      (maybe (Cat (chr "."%char) (between 1 18 digit_re))).
Definition decimal_re : re := Cat (maybe (chr "-"%char)) unsigned_decimal_re.

Definition ExactDecimalSchema (s : string) : bool :=
  (String.length s <=? 64)%nat && test decimal_re s.

Section schemas.
Context `{UnicodeNormalization}.

Definition ComparisonExactValueSchema (value : ComparisonExactValue) : bool :=
  match value with
  | decimal_value unit value => AssuranceSummarySchema unit && ExactDecimalSchema value
  | rational_value denominator numerator unit =>
      ExactPositiveIntegerSchema denominator && ExactIntegerSchema numerator &&
      AssuranceSummarySchema unit &&
      negb (((BigInt numerator =? 0) && negb (BigInt denominator =? 1)) ||
            negb (greatestCommonDivisor (BigInt numerator) (BigInt denominator) =? 1))
  end.
End schemas.

(** ** Fractions *)

Record ExactFraction := { denominator : Z; numerator : Z }.

(** [ParsedExactValue extends ExactFraction] *)
Record ParsedExactValue := { parsed_fraction : ExactFraction; parsed_unit : text }.

#[global] Instance ExactFraction_eq_dec : EqDecision ExactFraction.
Proof. solve_decision. Defined.
#[global] Instance ParsedExactValue_eq_dec : EqDecision ParsedExactValue.
Proof. solve_decision. Defined.

Definition arithmetic_error {A} (code : ComparisonExactArithmeticErrorCode) : res A :=
  Throw (ComparisonExactArithmeticError code).

Definition normalizeFraction (numerator denominator : Z) : res ExactFraction :=
  if denominator =? 0 then arithmetic_error invalid_value
  else
    let sign := if denominator <? 0 then -1 else 1 in
    let signedNumerator := numerator * sign in
    let positiveDenominator := denominator * sign in
    if signedNumerator =? 0 then Ok {| denominator := 1; numerator := 0 |}
    else
      let divisor := greatestCommonDivisor signedNumerator positiveDenominator in
      Ok {| denominator := Z.quot positiveDenominator divisor;
            numerator := Z.quot signedNumerator divisor |}.

Definition assertResultBounds (value : ExactFraction) : res ExactFraction :=
  if (MAX_COMPARISON_EXACT_INTEGER_CHARACTERS <? String.length (toString (numerator value)))%nat ||
     (MAX_COMPARISON_EXACT_INTEGER_CHARACTERS <? String.length (toString (denominator value)))%nat
  then arithmetic_error result_out_of_bounds
  else Ok value.

(** [text.split(".")] *)
Fixpoint split_dot (l : list ascii) : list (list ascii) :=
  match l with
  | [] => [[]]
  | "."%char :: rest => [] :: split_dot rest
  | c :: rest =>
      match split_dot rest with
      | part :: parts => (c :: part) :: parts
      | [] => [[c]]
      end
  end.

Definition decimalFraction (value : string) : res ExactFraction :=
  let characters := String.list_ascii_of_string value in
  let negative := match characters with "-"%char :: _ => true | _ => false end in
  let unsigned := if negative then tail characters else characters in
  let parts := split_dot unsigned in
  let whole := default ["0"%char] (parts !! 0%nat) in
  let fractional := default [] (parts !! 1%nat) in
  let numerator := BigInt_list (whole ++ fractional) * (if negative then -1 else 1) in
  normalizeFraction numerator (10 ^ Z.of_nat (length fractional)).

Definition compareFractions (left right : ExactFraction) : Z :=
  let difference := numerator left * denominator right - numerator right * denominator left in
  if difference =? 0 then 0 else if difference <? 0 then -1 else 1.

Definition addFractions (left right : ExactFraction) : res ExactFraction :=
  let sharedDivisor := greatestCommonDivisor (denominator left) (denominator right) in
  let leftMultiplier := Z.quot (denominator right) sharedDivisor in
  let rightMultiplier := Z.quot (denominator left) sharedDivisor in
  sum ← normalizeFraction (numerator left * leftMultiplier + numerator right * rightMultiplier)
          (denominator left * leftMultiplier);
  assertResultBounds sum.

Definition divideFraction (value : ExactFraction) (divisor : Z) : res ExactFraction :=
  quotient ← normalizeFraction (numerator value) (denominator value * divisor);
  assertResultBounds quotient.

Definition canonicalFractionOrder (left right : ExactFraction) : Z :=
  let comparison := compareFractions left right in
  if negb (comparison =? 0) then comparison
  else if negb (numerator left =? numerator right) then
    (if numerator left <? numerator right then -1 else 1)
  else if denominator left =? denominator right then 0
  else if denominator left <? denominator right then -1 else 1.

Definition sumOrderedFractions (values : list ExactFraction) : res ExactFraction :=
  fold_result addFractions {| denominator := 1; numerator := 0 |} values.

(** ** Aggregation *)

Record ComparisonExactAggregation := {
  basisPoints : option Z;
  method : string;
  methodVersion : string;
}.

Definition validateAggregation (candidate : ComparisonExactAggregation) : res unit :=
  if existsb (fun m => m === method candidate) ["maximum"; "mean"; "median"; "minimum"; "sum"]%string
  then reject_when (negb (methodVersion candidate === "1.0.0"%string))
         (ComparisonExactArithmeticError invalid_aggregation)
  else
    reject_when (method candidate !== "nearest_rank_quantile"%string)
      (ComparisonExactArithmeticError invalid_aggregation) ;;
    reject_when
      ((methodVersion candidate !== "1.0.0"%string) ||
       match basisPoints candidate with
       | Some points => (points <? 1) || (10000 <? points)
       | None => true
       end) (ComparisonExactArithmeticError invalid_aggregation).

(** [[...parsed].sort(canonicalFractionOrder)]: not after, in the order of the comparator. *)
Definition ordered_before (left right : ParsedExactValue) : Prop :=
  canonicalFractionOrder (parsed_fraction left) (parsed_fraction right) <= 0.

#[global] Instance ordered_before_dec : RelDecision ordered_before.
Proof. intros l r. unfold ordered_before. apply _. Defined.

(** [ordered[index]] *)
Definition nth_fraction (ordered : list ParsedExactValue) (index : Z)
    (code : ComparisonExactArithmeticErrorCode) : res ExactFraction :=
  if index <? 0 then arithmetic_error code
  else match ordered !! Z.to_nat index with
       | Some selected => Ok (parsed_fraction selected)
       | None => arithmetic_error code
       end.

(** The [switch].  The rank is a quotient of safe integers below 2^36, which
    the floating-point division and [Math.floor] compute exactly. *)
Definition aggregate_ordered (ordered : list ParsedExactValue) (aggregation : ComparisonExactAggregation) :
    res ExactFraction :=
  let length := Z.of_nat (length ordered) in
  let fractions := parsed_fraction <$> ordered in
  if method aggregation === "minimum"%string then nth_fraction ordered 0 empty_sample
  else if method aggregation === "maximum"%string then nth_fraction ordered (length - 1) empty_sample
  else if method aggregation === "sum"%string then sumOrderedFractions fractions
  else if method aggregation === "mean"%string then
    total ← sumOrderedFractions fractions; divideFraction total length
  else if method aggregation === "median"%string then
    let upperIndex := length / 2 in
    upper ← nth_fraction ordered upperIndex empty_sample;
    if length mod 2 =? 1 then Ok upper
    else
      lower ← nth_fraction ordered (upperIndex - 1) empty_sample;
      total ← addFractions lower upper; divideFraction total 2
  else
    let rank := (default 0 (basisPoints aggregation) * length + 9999) / 10000 in
    nth_fraction ordered (rank - 1) invalid_aggregation.

Section arithmetic.
Context `{UnicodeNormalization}.

Definition parseExactValue (value : ComparisonExactValue) : res ParsedExactValue :=
  if ComparisonExactValueSchema value then
    match value with
    | rational_value denominator numerator unit =>
        fraction ← normalizeFraction (BigInt numerator) (BigInt denominator);
        Ok {| parsed_fraction := fraction; parsed_unit := unit |}
    | decimal_value unit value =>
        fraction ← decimalFraction value;
        Ok {| parsed_fraction := fraction; parsed_unit := unit |}
    end
  else arithmetic_error invalid_value.

Definition exactValue (value : ExactFraction) (unit : text) : res ComparisonExactValue :=
  normal ← normalizeFraction (numerator value) (denominator value);
  bounded ← assertResultBounds normal;
  parse ComparisonExactValueSchema
    (rational_value (toString (denominator bounded)) (toString (numerator bounded)) unit).

(** Units are never empty text, so [!unit] is that the sample is empty. *)
Definition parseSample (values : list ComparisonExactValue) : res (list ParsedExactValue) :=
  reject_when (length values =? 0)%nat (ComparisonExactArithmeticError empty_sample) ;;
  reject_when (MAX_COMPARISON_EXACT_AGGREGATION_VALUES <? Z.of_nat (length values))
    (ComparisonExactArithmeticError sample_limit_exceeded) ;;
  parsed ← map_result parseExactValue values;
  match head parsed with
  | Some first =>
      reject_when (existsb (fun value => parsed_unit value !== parsed_unit first) parsed)
        (ComparisonExactArithmeticError mixed_units) ;;
      Ok parsed
  | None => arithmetic_error mixed_units
  end.

Definition aggregateComparisonExactValues (values : list ComparisonExactValue)
    (aggregation : ComparisonExactAggregation) : res ComparisonExactValue :=
  validateAggregation aggregation ;;
  parsed ← parseSample values;
  match head parsed with
  | None => arithmetic_error empty_sample
  | Some first =>
      let ordered := merge_sort ordered_before parsed in
      result ← aggregate_ordered ordered aggregation;
      exactValue result (parsed_unit first)
  end.

Definition subtractComparisonExactValues (baseline candidate : ComparisonExactValue) :
    res ComparisonExactValue :=
  parsedBaseline ← parseExactValue baseline;
  parsedCandidate ← parseExactValue candidate;
  reject_when (parsed_unit parsedBaseline !== parsed_unit parsedCandidate)
    (ComparisonExactArithmeticError mixed_units) ;;
  difference ← addFractions (parsed_fraction parsedCandidate)
    {| denominator := denominator (parsed_fraction parsedBaseline);
       numerator := - numerator (parsed_fraction parsedBaseline) |};
  exactValue difference (parsed_unit parsedBaseline).

Definition compareComparisonExactValues (left right : ComparisonExactValue) : res Z :=
  parsedLeft ← parseExactValue left;
  parsedRight ← parseExactValue right;
  reject_when (parsed_unit parsedLeft !== parsed_unit parsedRight)
    (ComparisonExactArithmeticError mixed_units) ;;
  Ok (compareFractions (parsed_fraction parsedLeft) (parsed_fraction parsedRight)).
End arithmetic.
