(* ===== verification/ExactArithmeticProofs.v ===== *)
(** * Exact comparison arithmetic: proofs

    Every exact value denotes a rational number; parsing, normalising, adding,
    dividing, comparing and aggregating are those operations on the rationals,
    and results have one canonical text, whatever the order and the
    representation of the operands. *)

From Stdlib Require Import QArith Ascii Znumtheory.
From stdpp Require Import sorting.
From S2P Require Import Prelude Errors Regex BigInts Primitives ExactArithmetic.
#[local] Open Scope Z_scope.

(** ** Fractions as rationals *)

Definition frac_Q (f : ExactFraction) : Q := numerator f # Z.to_pos (denominator f).

Definition normal (f : ExactFraction) : Prop :=
  0 < denominator f /\ Z.gcd (numerator f) (denominator f) = 1.

Definition bounded (f : ExactFraction) : Prop := assertResultBounds f = Ok f.

Lemma frac_Q_eq f g :
  0 < denominator f -> 0 < denominator g ->
  (frac_Q f == frac_Q g)%Q <-> numerator f * denominator g = numerator g * denominator f.
Proof. intros. unfold frac_Q, Qeq. simpl. rewrite !Z2Pos.id by done. done. Qed.

(** Lowest terms are unique. *)
Lemma normal_unique f g : normal f -> normal g -> (frac_Q f == frac_Q g)%Q -> f = g.
Proof.
  intros [Hf Hgf] [Hg Hgg] H. apply frac_Q_eq in H; [|done..]. destruct f as [d n], g as [e m]; simpl in *.
  assert (Hde : (d | e)).
  { apply (Z.gauss d n e); [exists m; lia|by rewrite Z.gcd_comm]. }
  assert (Hed : (e | d)).
  { apply (Z.gauss e m d); [exists n; lia|by rewrite Z.gcd_comm]. }
  assert (d = e) as -> by (apply Z.divide_antisym_nonneg; lia || done).
  f_equal. nia.
Qed.

Lemma normalize_sign n d :
  d <> 0 -> let s := if d <? 0 then -1 else 1 in s * s = 1 /\ d * s = Z.abs d /\ Z.abs (n * s) = Z.abs n.
Proof. intros Hd s. subst s. destruct (Z.ltb_spec d 0); lia. Qed.

Lemma normalizeFraction_spec n d :
  d <> 0 -> exists f, normalizeFraction n d = Ok f /\ normal f /\
    numerator f * d = n * denominator f /\
    Z.abs (numerator f) <= Z.abs n /\ denominator f <= Z.abs d /\
    (0 < d -> numerator f < 0 -> n < 0).
Proof.
  intros Hd. unfold normalizeFraction. rewrite (proj2 (Z.eqb_neq d 0)) by done.
  destruct (normalize_sign n d Hd) as (Hss & Hds & Hns).
  set (s := if d <? 0 then -1 else 1) in *. rewrite Hds. cbv zeta.
  assert (Hs0 : 0 < d -> s = 1) by (subst s; intros; destruct (Z.ltb_spec d 0); lia).
  destruct (Z.eqb_spec (n * s) 0) as [H0|H0].
  - eexists. split; [done|]. unfold normal. simpl. assert (n = 0) as -> by nia.
    split_and!; try done; lia.
  - rewrite greatestCommonDivisor_gcd. set (g := Z.gcd (n * s) (Z.abs d)).
    assert (Hg : 0 < g).
    { pose proof (Z.gcd_nonneg (n * s) (Z.abs d)). assert (g <> 0); [|lia].
      intros Hg0. apply Z.gcd_eq_0 in Hg0. lia. }
    destruct (Z.gcd_divide_l (n * s) (Z.abs d)) as [a Ha].
    destruct (Z.gcd_divide_r (n * s) (Z.abs d)) as [b Hb]. fold g in Ha, Hb.
    eexists. split; [done|]. simpl.
    assert (Hqa : Z.quot (n * s) g = a) by (rewrite Ha; apply Z.quot_mul; lia).
    assert (Hqb : Z.quot (Z.abs d) g = b) by (rewrite Hb; apply Z.quot_mul; lia).
    rewrite Hqa, Hqb. assert (Hbpos : 0 < b) by nia. unfold normal; simpl. split_and!.
    + done.
    + apply (Z.mul_reg_l _ _ g); [lia|]. rewrite Z.mul_1_r, <- Z.gcd_mul_mono_l_nonneg by lia.
      rewrite (Z.mul_comm g a), (Z.mul_comm g b), <- Ha, <- Hb. done.
    + apply (Z.mul_reg_r _ _ s); [intros ->; lia|].
      replace (a * d * s) with (a * (d * s)) by lia. rewrite Hds, Hb. nia.
    + rewrite <- Hns, Ha, Z.abs_mul. nia.
    + rewrite Hb. nia.
    + intros Hdp Han. rewrite (Hs0 Hdp), Z.mul_1_r in Ha. nia.
Qed.

(** What [normalizeFraction] returns, as a rational. *)
Lemma normalizeFraction_Ok n d f :
  0 < d -> normalizeFraction n d = Ok f -> normal f /\ (frac_Q f == n # Z.to_pos d)%Q.
Proof.
  intros Hd H. destruct (normalizeFraction_spec n d) as (g & Hg & Hn & Hc & _); [lia|].
  assert (f = g) as -> by congruence. split; [done|]. destruct Hn.
  unfold frac_Q, Qeq. simpl. rewrite !Z2Pos.id by done. lia.
Qed.

Lemma normalizeFraction_normal f : normal f -> normalizeFraction (numerator f) (denominator f) = Ok f.
Proof.
  intros Hf. pose proof Hf as [Hd _].
  destruct (normalizeFraction_spec (numerator f) (denominator f)) as (g & Hg & Hn & Hc & _); [lia|].
  rewrite Hg. f_equal. apply normal_unique; [done..|]. destruct Hn. by apply frac_Q_eq.
Qed.

Lemma assertResultBounds_Ok f g : assertResultBounds f = Ok g -> g = f /\ bounded f.
Proof. unfold bounded. unfold assertResultBounds at 1 2. case_match; [done|]. by intros [= <-]. Qed.

Lemma bounded_spec f :
  bounded f <->
  (String.length (toString (numerator f)) <= MAX_COMPARISON_EXACT_INTEGER_CHARACTERS)%nat /\
  (String.length (toString (denominator f)) <= MAX_COMPARISON_EXACT_INTEGER_CHARACTERS)%nat.
Proof.
  unfold bounded, assertResultBounds. destruct (_ || _)%bool eqn:H.
  - rewrite orb_true_iff, !Nat.ltb_lt in H. split; [done|lia].
  - rewrite orb_false_iff, !Nat.ltb_ge in H. done.
Qed.

(** ** Decimal text *)

(** The rational a decimal text denotes: its whole part and its fractional
    part over a power of ten, with its sign. *)
Definition decimal_Q (value : string) : Q :=
  let characters := String.list_ascii_of_string value in
  let '(sign, unsigned) := match characters with
    | "-"%char :: rest => (-1, rest)
    | _ => (1, characters)
    end in
  let whole := digits_value (default [] (split_dot unsigned !! 0%nat)) in
  let fractional := default [] (split_dot unsigned !! 1%nat) in
  (inject_Z sign *
    (inject_Z whole + (digits_value fractional # Z.to_pos (10 ^ Z.of_nat (length fractional)))))%Q.

Definition exact_Q (value : ComparisonExactValue) : Q :=
  match value with
  | decimal_value _ value => decimal_Q value
  | rational_value denominator numerator _ => BigInt numerator # Z.to_pos (BigInt denominator)
  end.

Definition exact_unit (value : ComparisonExactValue) : text :=
  match value with decimal_value unit _ | rational_value _ _ unit => unit end.

Lemma digits_not_dot c l : is_digit c = true -> split_dot (c :: l) =
  match split_dot l with part :: parts => (c :: part) :: parts | [] => [[c]] end.
Proof. destruct c as [[] [] [] [] [] [] [] []]; done. Qed.

Lemma split_dot_digits l : forallb is_digit l = true -> split_dot l = [l].
Proof.
  induction l as [|c l IH]; [done|]. simpl forallb. intros [Hc Hl]%andb_true_iff.
  rewrite digits_not_dot, IH by done. done.
Qed.

Lemma split_dot_point l k :
  forallb is_digit l = true -> forallb is_digit k = true -> split_dot (l ++ "."%char :: k) = [l; k].
Proof.
  intros Hl Hk. induction l as [|c l IH]; simpl forallb in *.
  - simpl. by rewrite split_dot_digits.
  - apply andb_true_iff in Hl as [Hc Hl]. simpl app. rewrite digits_not_dot, IH by done. done.
Qed.

Lemma matched_times n r l :
  matched (times n r) l -> (forall k, matched r k -> exists c, k = [c] /\ is_digit c = true) ->
  forallb is_digit l = true /\ length l = n.
Proof.
  revert l. induction n as [|n IH]; intros l; simpl; [by inversion 1|].
  intros (u & v & -> & Hu & Hv)%matched_cat_inv Hr. destruct (Hr u Hu) as (c & -> & Hc).
  destruct (IH v Hv Hr) as [H1 H2]. simpl. rewrite Hc, H1, H2. done.
Qed.

Lemma matched_at_most n r l :
  matched (at_most n r) l -> (forall k, matched r k -> exists c, k = [c] /\ is_digit c = true) ->
  forallb is_digit l = true /\ (length l <= n)%nat.
Proof.
  revert l. induction n as [|n IH]; intros l; simpl; [by inversion 1|].
  intros Hm Hr. inversion Hm as [| | |? ? ? Hx|? ? ? Hx| |]; subst.
  - inversion Hx; subst. simpl. split; [done|lia].
  - apply matched_cat_inv in Hx as (u & v & -> & Hu & Hv). destruct (Hr u Hu) as (c & -> & Hc).
    destruct (IH v Hv Hr) as [H1 H2]. simpl. rewrite Hc, H1. split; [done|lia].
Qed.

Lemma digit_re_one k : matched digit_re k -> exists c, k = [c] /\ is_digit c = true.
Proof. apply matched_digit. Qed.

(** The shape of decimal text. *)
Lemma decimal_shape s :
  test decimal_re s = true -> exists sign whole frac point,
    String.list_ascii_of_string s = sign ++ whole ++ point /\
    (sign = [] \/ sign = ["-"%char]) /\
    forallb is_digit whole = true /\ (1 <= length whole <= 18)%nat /\
    forallb is_digit frac = true /\ (length frac <= 18)%nat /\
    (point = [] /\ frac = [] \/ point = "."%char :: frac).
Proof.
  intros H%test_spec. unfold decimal_re, unsigned_decimal_re in H.
  apply matched_cat_inv in H as (sign & u & Hs & Hsign & Hu).
  apply matched_cat_inv in Hu as (whole & point & -> & Hw & Hp).
  assert (Hsg : sign = [] \/ sign = ["-"%char]).
  { inversion Hsign as [| | |? ? ? Hx|? ? ? Hx| |]; subst; [left; by inversion Hx|right; by apply matched_chr]. }
  assert (Hwh : forallb is_digit whole = true /\ (1 <= length whole <= 18)%nat).
  { inversion Hw as [| | |? ? ? Hx|? ? ? Hx| |]; subst.
    - apply matched_chr in Hx as ->. simpl. split; [done|lia].
    - apply matched_cat_inv in Hx as (c & k & -> & Hc & Hk).
      destruct (matched_at_most 17 digit_re k Hk digit_re_one) as [Hd Hl].
      apply matched_one_of in Hc as (d & -> & Hd'). simpl in *.
      rewrite orb_false_r, andb_true_iff, !N.leb_le in Hd'. simpl in Hd'.
      split; [|lia]. rewrite Hd, andb_true_r. unfold is_digit. rewrite andb_true_iff, !N.leb_le. lia. }
  destruct Hwh as [Hwd Hwl].
  inversion Hp as [| | |? ? ? Hx|? ? ? Hx| |]; subst.
  - inversion Hx; subst. exists sign, whole, [], []. split_and!; try done; simpl; [lia..|]. by left.
  - apply matched_cat_inv in Hx as (dot & frac & -> & Hd & Hf). apply matched_chr in Hd as ->.
    apply matched_cat_inv in Hf as (f1 & f2 & -> & H1 & H2).
    destruct (matched_times 1 digit_re f1 H1 digit_re_one) as [H1d H1l].
    destruct (matched_at_most 17 digit_re f2 H2 digit_re_one) as [H2d H2l].
    exists sign, whole, (f1 ++ f2), ("."%char :: f1 ++ f2). rewrite forallb_app, length_app, H1d, H2d.
    split_and!; try done; [lia..|]. by right.
Qed.

Lemma starts_with_digit l : forallb is_digit l = true -> l <> [] ->
  exists c k, l = c :: k /\ c <> "-"%char.
Proof.
  destruct l as [|c k]; [done|]. simpl. intros [Hc _]%andb_true_iff _. exists c, k. split; [done|].
  intros ->. by rewrite minus_not_digit in Hc.
Qed.

(** What the code and the denotation make of that shape. *)
Lemma decimal_parts s sign whole frac point :
  String.list_ascii_of_string s = sign ++ whole ++ point ->
  (sign = [] \/ sign = ["-"%char]) ->
  forallb is_digit whole = true -> (1 <= length whole)%nat -> forallb is_digit frac = true ->
  (point = [] /\ frac = [] \/ point = "."%char :: frac) ->
  let sgn := if decide (sign = []) then 1 else -1 in
  decimalFraction s =
    normalizeFraction (digits_value (whole ++ frac) * sgn) (10 ^ Z.of_nat (length frac)) /\
  (decimal_Q s == digits_value (whole ++ frac) * sgn # Z.to_pos (10 ^ Z.of_nat (length frac)))%Q.
Proof.
  intros Hs Hsign Hwd Hwl Hfd Hp sgn.
  assert (Hsp : split_dot (whole ++ point) = whole :: match point with [] => [] | _ => [frac] end).
  { destruct Hp as [[-> ->]| ->]; [by rewrite app_nil_r, split_dot_digits|by apply split_dot_point]. }
  assert (Hpart : default [] (split_dot (whole ++ point) !! 1%nat) = frac).
  { rewrite Hsp. by destruct Hp as [[-> ->]| ->]. }
  assert (Hpart0 : split_dot (whole ++ point) !! 0%nat = Some whole) by (by rewrite Hsp).
  destruct (starts_with_digit whole Hwd) as (c & k & Hck & Hc); [by destruct whole; simpl in *; [lia|]|].
  assert (Hbi : BigInt_list (whole ++ frac) = digits_value (whole ++ frac))
    by (apply BigInt_digits; by rewrite forallb_app, Hwd, Hfd).
  assert (HQ : forall sg, (inject_Z sg * (inject_Z (digits_value whole) +
      (digits_value frac # Z.to_pos (10 ^ Z.of_nat (length frac)))) ==
      digits_value (whole ++ frac) * sg # Z.to_pos (10 ^ Z.of_nat (length frac)))%Q).
  { intros sg. rewrite digits_value_app.
    assert (HP : 0 < 10 ^ Z.of_nat (length frac)) by (apply Z.pow_pos_nonneg; lia).
    revert HP. generalize (10 ^ Z.of_nat (length frac)). intros P HP. unfold Qeq. simpl.
    rewrite ?Pos.mul_1_l, ?Z2Pos.id by done. ring. }
  assert (Hm : match c with "-"%char => true | _ => false end = false).
  { destruct c as [[] [] [] [] [] [] [] []]; done. }
  unfold decimalFraction, decimal_Q. rewrite Hs. cbv zeta. destruct Hsign as [-> | ->]; simpl app.
  - assert (Hh : match whole ++ point with "-"%char :: _ => true | _ => false end = false).
    { rewrite Hck. exact Hm. }
    assert (Hh2 : match whole ++ point with "-"%char :: rest => (-1, rest) | _ => (1, whole ++ point) end =
      (1, whole ++ point)).
    { rewrite Hck. clear -Hc. simpl. destruct c as [[] [] [] [] [] [] [] []]; done. }
    rewrite Hh, Hh2, Hpart, Hpart0. simpl. rewrite Hbi. split; [done|]. apply HQ.
  - cbn [app tail]. cbv beta iota zeta. rewrite !Hpart, !Hpart0. cbn [default from_option id].
    rewrite Hbi. split; [done|]. apply HQ.
Qed.

(** ** Parsing *)

Lemma normal_bounded n d f s t :
  normalizeFraction n d = Ok f -> test integer_re s = true -> BigInt s = n ->
  (String.length s <= MAX_COMPARISON_EXACT_INTEGER_CHARACTERS)%nat ->
  test positive_re t = true -> BigInt t = d ->
  (String.length t <= MAX_COMPARISON_EXACT_INTEGER_CHARACTERS)%nat -> bounded f.
Proof.
  intros H Hs Hn Hsl Ht Hd Htl. apply positive_text in Ht as [Hti Hpos].
  destruct (normalizeFraction_spec n d) as (g & Hg & [Hnd _] & _ & Hna & Hda & Hsg); [lia|].
  assert (f = g) as -> by congruence. apply bounded_spec. split.
  - etrans; [apply (toString_shorter s); subst; try done; lia|done].
  - etrans; [apply (toString_shorter t); subst; try done; lia|done].
Qed.

Section parsing.
Context `{UnicodeNormalization}.

Lemma parseExactValue_accepts v :
  ComparisonExactValueSchema v = true -> exists f,
    parseExactValue v = Ok {| parsed_fraction := f; parsed_unit := exact_unit v |} /\
    normal f /\ bounded f /\ (frac_Q f == exact_Q v)%Q.
Proof.
  intros Hv. unfold parseExactValue. rewrite Hv. destruct v as [unit s|d n unit]; simpl in *.
  - apply andb_true_iff in Hv as [_ [_ Hs]%andb_true_iff].
    destruct (decimal_shape s Hs) as (sign & whole & frac & point & Hl & Hsign & Hw & Hwl & Hf & Hfl & Hp).
    destruct (decimal_parts s sign whole frac point Hl Hsign Hw ltac:(lia) Hf Hp) as [Hdf HdQ].
    set (sgn := if decide (sign = []) then 1 else -1) in *.
    assert (Hd : 0 < 10 ^ Z.of_nat (length frac)) by (apply Z.pow_pos_nonneg; lia).
    destruct (normalizeFraction_spec (digits_value (whole ++ frac) * sgn)
      (10 ^ Z.of_nat (length frac))) as (f & Hnf & Hn & _ & Hna & Hda & _); [lia|].
    exists f. rewrite Hdf, Hnf. split; [done|]. split; [done|].
    split; [|rewrite HdQ; by apply normalizeFraction_Ok].
    assert (Hval : 0 <= digits_value (whole ++ frac) < 10 ^ 36).
    { pose proof (digits_value_bound (whole ++ frac)) as Hb. rewrite forallb_app, Hw, Hf in Hb.
      specialize (Hb eq_refl). split; [lia|]. eapply Z.lt_le_trans; [apply Hb|].
      apply Z.pow_le_mono_r; rewrite ?length_app; lia. }
    assert (10 ^ Z.of_nat (length frac) <= 10 ^ 18) by (apply Z.pow_le_mono_r; lia).
    destruct Hn as [Hnd _]. apply bounded_spec. unfold MAX_COMPARISON_EXACT_INTEGER_CHARACTERS. split.
    + etrans; [apply (toString_bound _ 36)|lia]; [|lia].
      eapply Z.le_lt_trans; [exact Hna|]. rewrite Z.abs_mul.
      assert (Z.abs sgn = 1) as -> by (subst sgn; case_decide; done). lia.
    + etrans; [apply (toString_bound _ 19)|lia]; [|lia].
      rewrite Z.abs_eq by lia. change (10 ^ Z.of_nat 19) with (10 * 10 ^ 18). lia.
  - rewrite !andb_true_iff in Hv. destruct Hv as [[[Hd Hn] _] _].
    apply andb_true_iff in Hd as [Hdl%Nat.leb_le Hd]. apply andb_true_iff in Hn as [Hnl%Nat.leb_le Hn].
    destruct (positive_text d Hd) as [_ Hpos].
    destruct (normalizeFraction_spec (BigInt n) (BigInt d)) as (f & Hf & Hnf & _); [lia|].
    exists f. rewrite Hf. split; [done|]. split; [done|].
    split; [by eapply (normal_bounded _ _ f n d)|by apply normalizeFraction_Ok].
Qed.

Lemma parseExactValue_cases v :
  (ComparisonExactValueSchema v = true /\ exists p, parseExactValue v = Ok p /\
     parsed_unit p = exact_unit v /\ normal (parsed_fraction p) /\ bounded (parsed_fraction p) /\
     (frac_Q (parsed_fraction p) == exact_Q v)%Q) \/
  (ComparisonExactValueSchema v = false /\
   parseExactValue v = Throw (ComparisonExactArithmeticError invalid_value)).
Proof.
  destruct (ComparisonExactValueSchema v) eqn:Hv.
  - left. split; [done|]. destruct (parseExactValue_accepts v Hv) as (f & -> & ?). by eexists.
  - right. split; [done|]. unfold parseExactValue. by rewrite Hv.
Qed.

Lemma parseExactValue_Ok v p :
  parseExactValue v = Ok p -> ComparisonExactValueSchema v = true /\
    parsed_unit p = exact_unit v /\ normal (parsed_fraction p) /\ bounded (parsed_fraction p) /\
    (frac_Q (parsed_fraction p) == exact_Q v)%Q.
Proof.
  destruct (parseExactValue_cases v) as [(Hv & q & -> & ?)|[_ ->]]; [|discriminate].
  intros [= <-]. done.
Qed.

(** *** Results *)

Definition canonical (f : ExactFraction) (unit : text) : ComparisonExactValue :=
  rational_value (toString (denominator f)) (toString (numerator f)) unit.

Lemma canonical_accepted f unit :
  normal f -> bounded f -> AssuranceSummarySchema unit = true ->
  ComparisonExactValueSchema (canonical f unit) = true.
Proof.
  intros [Hd Hg] [Hbn Hbd]%bounded_spec Hu. simpl. rewrite !BigInt_toString, greatestCommonDivisor_gcd.
  unfold ExactPositiveIntegerSchema, ExactIntegerSchema.
  rewrite toString_positive, toString_integer, Hu, Hg by done.
  apply Nat.leb_le in Hbn, Hbd. rewrite Hbn, Hbd. simpl.
  destruct (Z.eqb_spec (numerator f) 0) as [H0|]; [|done]. rewrite H0, Z.gcd_0_l in Hg.
  by replace (denominator f) with 1 by lia.
Qed.

Lemma exactValue_Ok f unit v :
  0 < denominator f -> exactValue f unit = Ok v ->
  exists g, v = canonical g unit /\ normal g /\ bounded g /\ (frac_Q g == frac_Q f)%Q /\
    ComparisonExactValueSchema v = true.
Proof.
  intros Hd H'. unfold exactValue in H'. inv_res.
  match goal with Hx : normalizeFraction _ _ = Ok ?g |- _ =>
    destruct (normalizeFraction_Ok _ _ _ Hd Hx) as [Hn Hq] end.
  match goal with Hx : assertResultBounds _ = Ok _ |- _ =>
    apply assertResultBounds_Ok in Hx as [-> Hb] end.
  by eexists.
Qed.

Lemma exactValue_normal f unit :
  normal f -> bounded f -> AssuranceSummarySchema unit = true ->
  exactValue f unit = Ok (canonical f unit).
Proof.
  intros Hn Hb Hu. unfold exactValue. rewrite (bind_known _ _ _ (normalizeFraction_normal f Hn)).
  rewrite (bind_known _ _ _ Hb). apply parse_accepted. by apply canonical_accepted.
Qed.

Lemma canonical_denotes f unit :
  normal f -> bounded f -> AssuranceSummarySchema unit = true ->
  (exact_Q (canonical f unit) == frac_Q f)%Q /\ exact_unit (canonical f unit) = unit.
Proof. intros. simpl. by rewrite !BigInt_toString. Qed.
End parsing.

(** ** Operations *)

Lemma addFractions_exact f g h :
  0 < denominator f -> 0 < denominator g -> addFractions f g = Ok h ->
  normal h /\ bounded h /\ (frac_Q h == frac_Q f + frac_Q g)%Q.
Proof.
  intros Hf Hg H. unfold addFractions in H. rewrite greatestCommonDivisor_gcd in H.
  set (k := Z.gcd (denominator f) (denominator g)) in *.
  assert (Hk : 0 < k).
  { pose proof (Z.gcd_nonneg (denominator f) (denominator g)). assert (k <> 0); [|lia].
    intros Hk0. apply Z.gcd_eq_0 in Hk0. lia. }
  destruct (Z.gcd_divide_l (denominator f) (denominator g)) as [a Ha]. fold k in Ha.
  destruct (Z.gcd_divide_r (denominator f) (denominator g)) as [b Hb]. fold k in Hb.
  assert (Hqa : Z.quot (denominator f) k = a) by (rewrite Ha; apply Z.quot_mul; lia).
  assert (Hqb : Z.quot (denominator g) k = b) by (rewrite Hb; apply Z.quot_mul; lia).
  assert (Hb0 : 0 < b) by nia. assert (Hprod : 0 < denominator f * b) by nia.
  rewrite Hqa, Hqb in H. inv_res.
  match goal with Hx : normalizeFraction _ _ = Ok _ |- _ =>
    destruct (normalizeFraction_Ok _ _ _ Hprod Hx) as [Hn Hq] end.
  match goal with Hx : assertResultBounds _ = Ok _ |- _ =>
    apply assertResultBounds_Ok in Hx as [-> Hbd] end.
  split; [done|]. split; [done|]. rewrite Hq. unfold frac_Q, Qplus, Qeq. simpl.
  rewrite !Pos2Z.inj_mul, !Z2Pos.id by nia. clear - Ha Hb. revert Ha Hb.
  generalize (Z.quot (denominator f) k) (Z.quot (denominator g) k). intros a b Ha Hb.
  rewrite Ha, Hb. ring.
Qed.

Lemma divideFraction_exact f d h :
  0 < denominator f -> 0 < d -> divideFraction f d = Ok h ->
  normal h /\ bounded h /\ (frac_Q h * inject_Z d == frac_Q f)%Q.
Proof.
  intros Hf Hd H. unfold divideFraction in H. inv_res.
  assert (Hprod : 0 < denominator f * d) by nia.
  match goal with Hx : normalizeFraction _ _ = Ok _ |- _ =>
    destruct (normalizeFraction_Ok _ _ _ Hprod Hx) as [Hn Hq] end.
  match goal with Hx : assertResultBounds _ = Ok _ |- _ =>
    apply assertResultBounds_Ok in Hx as [-> Hbd] end.
  split; [done|]. split; [done|]. rewrite Hq. unfold frac_Q, Qeq. simpl.
  rewrite !Pos2Z.inj_mul, !Z2Pos.id by nia. ring.
Qed.

Lemma compareFractions_Qcompare f g :
  0 < denominator f -> 0 < denominator g ->
  compareFractions f g =
  match (frac_Q f ?= frac_Q g)%Q with Eq => 0 | Lt => -1 | Gt => 1 end.
Proof.
  intros Hf Hg. unfold compareFractions, frac_Q, Qcompare. simpl. rewrite !Z2Pos.id by done.
  destruct (Z.compare_spec (numerator f * denominator g) (numerator g * denominator f)) as [He|Hl|Hl].
  - rewrite He, Z.sub_diag. done.
  - rewrite (proj2 (Z.eqb_neq _ 0)), (proj2 (Z.ltb_lt _ 0)) by lia. done.
  - rewrite (proj2 (Z.eqb_neq _ 0)), (proj2 (Z.ltb_ge _ 0)) by lia. done.
Qed.

Lemma sumOrderedFractions_exact l h :
  Forall (fun f => 0 < denominator f) l -> sumOrderedFractions l = Ok h ->
  0 < denominator h /\ (frac_Q h == foldr Qplus 0 (frac_Q <$> l))%Q.
Proof.
  intros Hl. unfold sumOrderedFractions.
  assert (Hgen : forall a, 0 < denominator a -> fold_result addFractions a l = Ok h ->
    0 < denominator h /\ (frac_Q h == frac_Q a + foldr Qplus 0 (frac_Q <$> l))%Q).
  { induction Hl as [|f l Hf Hl IH]; intros a Ha H; simpl in H.
    - injection H as <-. split; [done|]. simpl. ring.
    - inv_res. match goal with Hx : addFractions _ _ = Ok _ |- _ =>
        destruct (addFractions_exact _ _ _ Ha Hf Hx) as ([Hx0 _] & _ & Hq) end.
      destruct (IH _ Hx0 H) as [Hh Hs]. split; [done|]. rewrite Hs, Hq. cbn [fmap list_fmap foldr]. ring. }
  intros H. destruct (Hgen {| denominator := 1; numerator := 0 |} eq_refl H) as [Hh Hs].
  split; [done|]. rewrite Hs. apply Qplus_0_l.
Qed.

(** ** Ordering *)

Lemma canonical_order_compare f g :
  normal f -> normal g -> canonicalFractionOrder f g = compareFractions f g.
Proof.
  intros Hf Hg. unfold canonicalFractionOrder. destruct (Z.eqb_spec (compareFractions f g) 0) as [H0|]; [|done].
  rewrite H0. cbn [negb]. assert (f = g) as ->.
  { apply normal_unique; [done..|]. destruct Hf, Hg. rewrite compareFractions_Qcompare in H0 by done.
    destruct (frac_Q f ?= frac_Q g)%Q eqn:Hc; try done. by apply Qeq_alt. }
  by rewrite !Z.eqb_refl.
Qed.

Definition Q_before (p q : ParsedExactValue) : Prop :=
  (frac_Q (parsed_fraction p) <= frac_Q (parsed_fraction q))%Q.

Lemma ordered_before_Q p q :
  normal (parsed_fraction p) -> normal (parsed_fraction q) -> ordered_before p q <-> Q_before p q.
Proof.
  intros Hp Hq. unfold ordered_before, Q_before. rewrite canonical_order_compare by done.
  destruct Hp, Hq. rewrite compareFractions_Qcompare, Qle_alt by done.
  destruct (_ ?= _)%Q; split; intros; try done; lia.
Qed.

#[export] Instance ordered_before_total : Total ordered_before.
Proof.
  intros [[d n] u] [[e m] w]. unfold ordered_before, canonicalFractionOrder, compareFractions; simpl.
  destruct (Z.eqb_spec (n * e - m * d) 0), (Z.eqb_spec (m * d - n * e) 0),
    (Z.ltb_spec (n * e - m * d) 0), (Z.ltb_spec (m * d - n * e) 0); simpl; try lia;
  destruct (Z.eqb_spec n m), (Z.eqb_spec m n), (Z.ltb_spec n m), (Z.ltb_spec m n); simpl; try lia;
  destruct (Z.eqb_spec d e), (Z.eqb_spec e d), (Z.ltb_spec d e), (Z.ltb_spec e d); simpl; lia.
Qed.

#[export] Instance Q_before_trans : Transitive Q_before.
Proof. intros p q r. unfold Q_before. apply Qle_trans. Qed.

Definition all_normal (ps : list ParsedExactValue) : Prop := Forall (fun p => normal (parsed_fraction p)) ps.

Lemma sorted_sample ps :
  all_normal ps -> StronglySorted Q_before (merge_sort ordered_before ps).
Proof.
  intros Hn. apply Sorted_StronglySorted; [apply _|].
  assert (Hs : all_normal (merge_sort ordered_before ps)) by (unfold all_normal; by rewrite merge_sort_Permutation).
  revert Hs. pose proof (Sorted_merge_sort ordered_before ps) as H. revert H.
  generalize (merge_sort ordered_before ps). clear. intros l H Hn.
  induction H as [|p l Hl IH Hh]; [constructor|]. apply Forall_cons in Hn as [Hp Hn].
  constructor; [by apply IH|]. destruct Hh as [|q l Hh]; constructor.
  apply Forall_cons in Hn as [Hq _]. by apply ordered_before_Q.
Qed.

(** Sorting forgets the order of the sample. *)
Lemma sorted_unique unit ps ps' :
  all_normal ps -> Forall (fun p => parsed_unit p = unit) ps -> ps ≡ₚ ps' ->
  merge_sort ordered_before ps = merge_sort ordered_before ps'.
Proof.
  intros Hn Hu Hp. assert (Hn' : all_normal ps') by (unfold all_normal; by rewrite <- Hp).
  apply (StronglySorted_unique_strong Q_before); [|by apply sorted_sample..|by rewrite !merge_sort_Permutation].
  intros p q Hpi Hqi Hpq Hqp. rewrite merge_sort_Permutation in Hpi, Hqi. rewrite <- Hp in Hqi.
  unfold all_normal in Hn. rewrite Forall_forall in Hn, Hu. destruct p as [f u], q as [g w].
  pose proof (Hu _ Hpi). pose proof (Hu _ Hqi). simpl in *. f_equal; [|congruence].
  apply normal_unique; [by apply (Hn _ Hpi)|by apply (Hn _ Hqi)|by apply Qle_antisym].
Qed.

(** ** Aggregates of rationals

    What each method computes of a sample in ascending order. *)

Definition aggregate_of (a : ComparisonExactAggregation) (s : list Q) (q : Q) : Prop :=
  let n := Z.of_nat (length s) in
  let at_position i := exists x, 0 <= i /\ s !! Z.to_nat i = Some x /\ (q == x)%Q in
  if method a === "minimum"%string then at_position 0
  else if method a === "maximum"%string then at_position (n - 1)
  else if method a === "sum"%string then (q == foldr Qplus 0 s)%Q
  else if method a === "mean"%string then 0 < n /\ (q * inject_Z n == foldr Qplus 0 s)%Q
  else if method a === "median"%string then
    (n mod 2 = 1 /\ at_position (n / 2)) \/
    (n mod 2 = 0 /\ exists x y, s !! Z.to_nat (n / 2 - 1) = Some x /\ s !! Z.to_nat (n / 2) = Some y /\
       (q * 2 == x + y)%Q)
  else exists rank points, basisPoints a = Some points /\
    (rank - 1) * 10000 < points * n <= rank * 10000 /\ at_position (rank - 1).

Lemma nth_fraction_Ok ps i code f :
  nth_fraction ps i code = Ok f -> 0 <= i /\ exists p, ps !! Z.to_nat i = Some p /\ parsed_fraction p = f.
Proof.
  unfold nth_fraction. destruct (Z.ltb_spec i 0); [done|]. destruct (ps !! _) as [p|] eqn:Hp; [|done].
  intros [= <-]. split; [done|]. eauto.
Qed.

Definition sample_Q (ps : list ParsedExactValue) : list Q := frac_Q ∘ parsed_fraction <$> ps.

Lemma nth_fraction_Q ps i code f :
  nth_fraction ps i code = Ok f ->
  exists x, 0 <= i /\ sample_Q ps !! Z.to_nat i = Some x /\ (frac_Q f == x)%Q.
Proof.
  intros (Hi & p & Hp & <-)%nth_fraction_Ok. eexists. split_and!; [done| |reflexivity].
  unfold sample_Q. by rewrite list_lookup_fmap, Hp.
Qed.

Lemma all_normal_lookup ps i code f : all_normal ps -> nth_fraction ps i code = Ok f -> normal f.
Proof.
  intros Hn (_ & p & Hp & <-)%nth_fraction_Ok. unfold all_normal in Hn. rewrite Forall_forall in Hn.
  by eapply Hn, list_elem_of_lookup_2.
Qed.

Lemma validate_Ok a u :
  validateAggregation a = Ok u ->
  (In (method a) ["maximum"; "mean"; "median"; "minimum"; "sum"]%string) \/
  (method a = "nearest_rank_quantile"%string /\ exists points, basisPoints a = Some points /\ 1 <= points <= 10000).
Proof.
  unfold validateAggregation. case_match eqn:Hm.
  - intros _. left. apply existsb_exists in Hm as (m & Hm & He). breflect. by subst.
  - intros H. right. inv_res. breflect. destruct_and!. split; [done|].
    destruct (basisPoints a); breflect; [|done]. eexists. split; [done|]. tauto.
Qed.

Lemma aggregate_ordered_exact a ps f :
  all_normal ps -> (exists u, validateAggregation a = Ok u) -> aggregate_ordered ps a = Ok f ->
  0 < denominator f /\ aggregate_of a (sample_Q ps) (frac_Q f).
Proof.
  intros Hn [u Hv] H.
  assert (Hpos : Forall (fun f => 0 < denominator f) (parsed_fraction <$> ps)).
  { apply Forall_fmap. eapply Forall_impl; [exact Hn|]. by intros p [? _]. }
  assert (Hlen : length (sample_Q ps) = length ps) by apply length_fmap.
  assert (Hsum : frac_Q <$> (parsed_fraction <$> ps) = sample_Q ps) by (by rewrite <- list_fmap_compose).
  unfold aggregate_ordered, aggregate_of in *. rewrite Hlen. cbv zeta in *.
  repeat case_bool_decide; [| | | | |].
  - split; [by eapply all_normal_lookup|by eapply nth_fraction_Q].
  - split; [by eapply all_normal_lookup|by eapply nth_fraction_Q].
  - rewrite <- Hsum. by apply sumOrderedFractions_exact.
  - inv_res. match goal with Hx : sumOrderedFractions _ = Ok _ |- _ =>
      apply sumOrderedFractions_exact in Hx as [Hx0 Hxs]; [|done] end.
    assert (Hl : 0 < Z.of_nat (length ps)).
    { destruct ps; [|simpl; lia]. exfalso. unfold divideFraction in H. simpl in H. by rewrite Z.mul_0_r in H. }
    destruct (divideFraction_exact _ _ _ Hx0 Hl H) as ([? _] & _ & Hq). split; [done|].
    split; [done|]. by rewrite Hq, Hxs, Hsum.
  - inv_res. match goal with Hx : nth_fraction ps (_ / 2) _ = Ok ?x |- _ =>
      pose proof (all_normal_lookup _ _ _ _ Hn Hx) as Hnx; apply nth_fraction_Q in Hx as (qx & ? & ? & ?) end.
    destruct (Z.eqb_spec (Z.of_nat (length ps) mod 2) 1) as [Ho|He]; inv_res.
    + split; [by destruct Hnx|]. left. split; [done|]. by exists qx.
    + match goal with Hx : nth_fraction ps (_ / 2 - 1) _ = Ok ?x |- _ =>
        pose proof (all_normal_lookup _ _ _ _ Hn Hx) as Hny; apply nth_fraction_Q in Hx as (qy & ? & ? & ?) end.
      match goal with Hx : addFractions _ _ = Ok _ |- _ =>
        apply addFractions_exact in Hx as ([Hs0 _] & _ & Hs); [|by destruct Hny|by destruct Hnx] end.
      destruct (divideFraction_exact _ 2 _ Hs0 ltac:(lia) H) as ([? _] & _ & Hq). split; [done|].
      right. split; [pose proof (Z.mod_pos_bound (Z.of_nat (length ps)) 2); lia|].
      exists qy, qx. split_and!; [done|done|]. change (2%Q) with (inject_Z 2). rewrite Hq, Hs.
      by apply Qplus_comp.
  - apply validate_Ok in Hv as [Hin|(_ & points & Hpt & Hpts)]; [simpl in Hin; naive_solver|].
    rewrite Hpt in H. cbn [default from_option id] in H.
    set (rank := (points * Z.of_nat (length ps) + 9999) / 10000) in *.
    split; [by eapply all_normal_lookup|]. exists rank, points. split; [done|].
    split; [|by eapply nth_fraction_Q].
    pose proof (Z.div_mod (points * Z.of_nat (length ps) + 9999) 10000 ltac:(lia)) as Hd.
    pose proof (Z.mod_pos_bound (points * Z.of_nat (length ps) + 9999) 10000 ltac:(lia)). fold rank in Hd. lia.
Qed.

Lemma aggregate_of_ext a s q q' : (q == q')%Q -> aggregate_of a s q -> aggregate_of a s q'.
Proof.
  intros Hq. unfold aggregate_of. repeat case_bool_decide; cbv zeta.
  1,2: intros (x & ? & ? & Hx); exists x; split_and!; try done; by rewrite <- Hq.
  - by rewrite Hq.
  - rewrite Hq. done.
  - intros [[? (x & ? & ? & Hx)]|(? & x & y & ? & ? & Hx)].
    + left. split; [done|]. exists x. split_and!; try done. by rewrite <- Hq.
    + right. split; [done|]. exists x, y. split_and!; try done. by rewrite <- Hq.
  - intros (rank & points & ? & ? & x & ? & ? & Hx). exists rank, points. split; [done|]. split; [done|].
    exists x. split_and!; try done. by rewrite <- Hq.
Qed.

Section samples.
Context `{UnicodeNormalization}.

(** A sample the aggregation accepts. *)
Record valid_sample (unit : text) (values : list ComparisonExactValue) : Prop := {
  vs_nonempty : values <> [];
  vs_limit : Z.of_nat (length values) <= MAX_COMPARISON_EXACT_AGGREGATION_VALUES;
  vs_values : Forall (fun v => ComparisonExactValueSchema v = true /\ exact_unit v = unit) values;
}.

Lemma parse_all values ps :
  map_result parseExactValue values = Ok ps ->
  Forall2 (fun v p => parseExactValue v = Ok p) values ps /\ all_normal ps /\
  Forall2 Qeq (sample_Q ps) (exact_Q <$> values) /\
  parsed_unit <$> ps = exact_unit <$> values /\ Forall (fun p => bounded (parsed_fraction p)) ps /\
  Forall (fun v => ComparisonExactValueSchema v = true) values.
Proof.
  intros H2%map_result_Forall2. split; [done|]. unfold all_normal, sample_Q.
  induction H2 as [|v p values ps Hp _ IH]; [done|].
  apply parseExactValue_Ok in Hp as (? & ? & ? & ? & ?). destruct IH as (? & ? & ? & ? & ?).
  split_and!; try (by constructor). simpl. by f_equal.
Qed.

Lemma parse_all_accepts values :
  Forall (fun v => ComparisonExactValueSchema v = true) values ->
  exists ps, map_result parseExactValue values = Ok ps.
Proof.
  induction 1 as [|v values Hv _ [ps Hps]]; [by exists []|].
  destruct (parseExactValue_accepts v Hv) as (f & Hf & _).
  eexists. cbn [map_result]. rewrite Hf. unfold mbind, result_bind. by rewrite Hps.
Qed.

Lemma parseSample_iff values ps :
  parseSample values = Ok ps <->
  (exists unit, valid_sample unit values) /\ map_result parseExactValue values = Ok ps.
Proof.
  unfold parseSample. split.
  - intros H'. inv_res. match goal with Hm : map_result _ _ = Ok ?l |- _ => rename Hm into Hps; rename l into qs end.
    destruct (parse_all _ _ Hps) as (_ & _ & _ & Hu & _ & Hv).
    destruct (head qs) as [first|] eqn:Hh; [|discriminate]. inv_res. split; [|done].
    exists (parsed_unit first). constructor.
    + intros ->. done.
    + match goal with Hx : (_ <? _) = false |- _ => apply Z.ltb_ge in Hx; lia end.
    + match goal with Hx : existsb _ _ = false |- _ => rename Hx into He end.
      apply Forall_lookup_2. intros i v Hvi. rewrite Forall_lookup in Hv. split; [by eapply Hv|].
      assert (Hi : (exact_unit <$> values) !! i = Some (exact_unit v)) by (by rewrite list_lookup_fmap, Hvi).
      rewrite <- Hu, list_lookup_fmap in Hi. destruct (ps !! i) as [p|] eqn:Hpi; [|done].
      injection Hi as <-. destruct (decide (parsed_unit p = parsed_unit first)) as [|Hne]; [done|].
      exfalso. apply not_true_iff_false in He. apply He, existsb_exists. exists p.
      split; [by apply list_elem_of_In, (list_elem_of_lookup_2 _ i)|]. breflect. done.
  - intros [[unit []] Hps]. destruct (parse_all _ _ Hps) as (H2 & _ & _ & Hu & _).
    rewrite (bind_known _ _ tt) by (apply reject_known; by destruct values).
    rewrite (bind_known _ _ tt) by (apply reject_known; apply Z.ltb_ge; lia).
    rewrite (bind_known _ _ _ Hps). destruct ps as [|p ps]; [by inversion H2; subst|]. cbn [hd_error].
    rewrite (bind_known _ _ tt); [done|]. apply reject_known, not_true_iff_false.
    intros (q & Hq & He)%existsb_exists. apply list_elem_of_In, list_elem_of_lookup in Hq as [i Hi].
    assert (Hall : Forall (fun u => u = unit) (parsed_unit <$> p :: ps)).
    { rewrite Hu. apply Forall_fmap. eapply Forall_impl; [exact vs_values0|]. by intros v []. }
    apply Forall_fmap in Hall. rewrite Forall_lookup in Hall.
    pose proof (Hall _ _ Hi) as H1. pose proof (Hall 0%nat p eq_refl) as H3. breflect. simpl in *. congruence.
Qed.

(** What a successful aggregation computed. *)
Lemma aggregate_run values a r :
  aggregateComparisonExactValues values a = Ok r <->
  (exists u, validateAggregation a = Ok u) /\ exists unit ps f,
    valid_sample unit values /\ map_result parseExactValue values = Ok ps /\
    aggregate_ordered (merge_sort ordered_before ps) a = Ok f /\ exactValue f unit = Ok r.
Proof.
  unfold aggregateComparisonExactValues. split.
  - intros H'. inv_res. split; [eauto|].
    match goal with Hx : parseSample _ = Ok ?l |- _ => apply parseSample_iff in Hx as [[unit Hu] Hps];
      destruct (head l) as [first|] eqn:Hh; [|discriminate]; rename l into ps end. inv_res.
    exists unit, ps. eexists. split_and!; try done.
    assert (parsed_unit first = unit) as <-; [|done].
    destruct Hu, ps as [|p ps]; [done|]. injection Hh as ->.
    destruct (parse_all _ _ Hps) as (_ & _ & _ & Hun & _). destruct values as [|v values]; [done|].
    injection Hun as -> _. apply Forall_cons in vs_values0 as [[_ ?] _]. done.
  - intros ((u & Hv) & unit & ps & f & Hs & Hps & Hf & Hr).
    rewrite (bind_known _ _ _ Hv), (bind_known _ _ ps) by (apply parseSample_iff; eauto).
    destruct (parse_all _ _ Hps) as (_ & _ & _ & Hun & _). destruct Hs.
    destruct ps as [|p ps], values as [|v values]; try done. cbn [hd_error]. injection Hun as Hpu _.
    apply Forall_cons in vs_values0 as [[_ ?] _].
    rewrite (bind_known _ _ _ Hf), Hpu. by subst.
Qed.
End samples.

(** ** Samples that denote the same rationals *)

Section canonical.
Context `{UnicodeNormalization}.

(** Two exact values for the same quantity. *)
Definition same_quantity (v w : ComparisonExactValue) : Prop :=
  ComparisonExactValueSchema v = true /\ ComparisonExactValueSchema w = true /\
  exact_unit v = exact_unit w /\ (exact_Q v == exact_Q w)%Q.

Lemma same_quantity_parse v w : same_quantity v w -> parseExactValue v = parseExactValue w.
Proof.
  intros (Hv & Hw & Hu & Hq). destruct (parseExactValue_accepts v Hv) as (f & -> & Hf & _ & Hfq).
  destruct (parseExactValue_accepts w Hw) as (g & -> & Hg & _ & Hgq). rewrite Hu.
  assert (f = g) as ->; [|done]. apply normal_unique; [done..|]. by rewrite Hfq, Hgq.
Qed.

Lemma same_quantities_parse values values' :
  Forall2 same_quantity values values' ->
  map_result parseExactValue values = map_result parseExactValue values'.
Proof. induction 1 as [|v w l l' Hvw _ IH]; [done|]. simpl. by rewrite (same_quantity_parse _ _ Hvw), IH. Qed.

Lemma same_quantities_sample unit values values' :
  Forall2 same_quantity values values' -> valid_sample unit values -> valid_sample unit values'.
Proof.
  intros Hs [Hn Hl Hv]. constructor.
  - by destruct Hs.
  - by rewrite <- (Forall2_length _ _ _ Hs).
  - clear Hn Hl. induction Hs as [|v w l l' (_ & Hw & Hu & _) _ IH]; [done|].
    apply Forall_cons in Hv as [[_ ?] Hv]. constructor; [split; [done|congruence]|by apply IH].
Qed.

Lemma permuted_parse values values' ps :
  values ≡ₚ values' -> map_result parseExactValue values = Ok ps ->
  exists ps', map_result parseExactValue values' = Ok ps' /\ ps ≡ₚ ps'.
Proof.
  intros Hp Hps. apply map_result_Forall2 in Hps. revert ps Hps.
  induction Hp as [|v l l' _ IH|v w l|l1 l2 l3 _ IH1 _ IH2]; intros ps Hps.
  - inversion Hps; subst. by exists [].
  - inversion Hps as [|? p ? qs Hv Hqs]; subst. destruct (IH _ Hqs) as (qs' & Hqs' & ?).
    exists (p :: qs'). split; [|by constructor]. apply map_result_Forall2 in Hqs'.
    apply map_result_Forall2. by constructor.
  - inversion Hps as [|? p ? qs1 Hv Hqs]; subst. inversion Hqs as [|? q ? qs Hw Hqs']; subst.
    exists (q :: p :: qs). split; [|constructor]. apply map_result_Forall2. by repeat constructor.
  - destruct (IH1 _ Hps) as (qs & Hqs & ?). apply map_result_Forall2 in Hqs.
    destruct (IH2 _ Hqs) as (rs & Hrs & ?). exists rs. split; [done|by etrans].
Qed.

Lemma aggregate_permuted values values' a r :
  values ≡ₚ values' -> aggregateComparisonExactValues values a = Ok r ->
  aggregateComparisonExactValues values' a = Ok r.
Proof.
  intros Hp. rewrite !aggregate_run. intros (Hv & unit & ps & f & Hs & Hps & Hf & Hr).
  split; [done|]. destruct (permuted_parse _ _ _ Hp Hps) as (ps' & Hps' & Hpp).
  exists unit, ps', f. split_and!; try done.
  - destruct Hs. constructor.
    + intros ->. by apply Permutation_nil_r in Hp.
    + by rewrite <- Hp.
    + by rewrite <- Hp.
  - destruct (parse_all _ _ Hps) as (_ & Hn & _ & Hu & _). rewrite <- (sorted_unique unit ps); try done.
    assert (Hall : Forall (fun u => u = unit) (parsed_unit <$> ps)); [|by apply Forall_fmap in Hall].
    rewrite Hu. apply Forall_fmap. destruct Hs. eapply Forall_impl; [exact vs_values0|]. by intros v [].
Qed.

(** C38. The result of an aggregation depends only on the quantities: two
    samples that list the same quantities, in any order and each as a decimal
    or as a rational, have the same result, down to its text. *)
Theorem aggregate_canonical values middle values' a r :
  Forall2 same_quantity values middle -> middle ≡ₚ values' ->
  aggregateComparisonExactValues values a = Ok r ->
  aggregateComparisonExactValues values' a = Ok r.
Proof.
  intros Hs Hp H1. eapply aggregate_permuted; [exact Hp|]. rewrite aggregate_run in *.
  destruct H1 as (Hv & unit & ps & f & Hvs & Hps & Hf & Hr). split; [done|].
  exists unit, ps, f. rewrite <- (same_quantities_parse _ _ Hs). split_and!; try done.
  by eapply same_quantities_sample.
Qed.

(** C37. Aggregation is exact: a result denotes the aggregate (minimum,
    maximum, sum, mean, median or nearest-rank quantile) of the rationals the
    sample denotes, in the sample's unit, and satisfies the public contract. *)
Theorem aggregate_exact values a r :
  aggregateComparisonExactValues values a = Ok r ->
  exists unit qs s, valid_sample unit values /\ Forall2 Qeq qs (exact_Q <$> values) /\
    s ≡ₚ qs /\ StronglySorted Qle s /\ aggregate_of a s (exact_Q r) /\
    exact_unit r = unit /\ ComparisonExactValueSchema r = true.
Proof.
  intros (Hv & unit & ps & f & Hs & Hps & Hf & Hr)%aggregate_run.
  destruct (parse_all _ _ Hps) as (_ & Hn & Hq & _).
  assert (Hsn : all_normal (merge_sort ordered_before ps)) by (unfold all_normal; by rewrite merge_sort_Permutation).
  destruct (aggregate_ordered_exact _ _ _ Hsn Hv Hf) as [Hd Hagg].
  destruct (exactValue_Ok _ _ _ Hd Hr) as (g & -> & Hg & Hgb & Hgq & Hschema).
  exists unit, (sample_Q ps), (sample_Q (merge_sort ordered_before ps)). split_and!; try done.
  - unfold sample_Q. by rewrite merge_sort_Permutation.
  - pose proof (sorted_sample _ Hn) as Hss. unfold sample_Q. revert Hss.
    generalize (merge_sort ordered_before ps). clear. intros l Hl.
    induction Hl as [|p l Hl IH Hp]; simpl; constructor; [done|]. apply Forall_fmap. exact Hp.
  - apply (aggregate_of_ext _ _ (frac_Q f)); [|done]. simpl. rewrite !BigInt_toString.
    symmetry. exact Hgq.
Qed.

(** The methods that select an observation. *)
Definition selects (a : ComparisonExactAggregation) (n : nat) : Prop :=
  method a ∈ ["minimum"; "maximum"; "nearest_rank_quantile"]%string \/
  (method a = "median"%string /\ Z.of_nat n mod 2 = 1).

Lemma nth_fraction_run ps i code :
  0 <= i < Z.of_nat (length ps) -> exists p, p ∈ ps /\ nth_fraction ps i code = Ok (parsed_fraction p).
Proof.
  intros Hi. destruct (lookup_lt_is_Some_2 ps (Z.to_nat i)) as [p Hp]; [lia|].
  exists p. split; [by eapply list_elem_of_lookup_2|]. unfold nth_fraction.
  destruct (Z.ltb_spec i 0); [lia|]. by rewrite Hp.
Qed.

Ltac not_selected Hs := rewrite !elem_of_cons, elem_of_nil in Hs; intuition congruence.

Lemma selects_run a ps :
  (exists u, validateAggregation a = Ok u) -> selects a (length ps) -> ps <> [] ->
  exists p, p ∈ ps /\ aggregate_ordered ps a = Ok (parsed_fraction p).
Proof.
  intros [u Hv] Hs Hne. assert (Hl : 0 < Z.of_nat (length ps)) by (destruct ps; simpl; [done|lia]).
  unfold aggregate_ordered. cbv zeta. repeat case_bool_decide.
  - apply nth_fraction_run. lia.
  - apply nth_fraction_run. lia.
  - destruct Hs as [Hs|[Hs _]]; [not_selected Hs|congruence].
  - destruct Hs as [Hs|[Hs _]]; [not_selected Hs|congruence].
  - destruct Hs as [Hs|[_ Hodd]]; [not_selected Hs|].
    destruct (nth_fraction_run ps (Z.of_nat (length ps) / 2) empty_sample) as (p & Hp & Hn).
    { split; [apply Z.div_pos; lia|apply Z.div_lt; lia]. }
    exists p. split; [done|]. rewrite (bind_known _ _ _ Hn). by rewrite (proj2 (Z.eqb_eq _ _) Hodd).
  - apply validate_Ok in Hv as [Hin|(_ & points & -> & Hpts)]; [simpl in Hin; naive_solver|].
    apply nth_fraction_run. cbn [default from_option id].
    set (n := Z.of_nat (length ps)) in *.
    pose proof (Z.div_mod (points * n + 9999) 10000 ltac:(lia)).
    pose proof (Z.mod_pos_bound (points * n + 9999) 10000 ltac:(lia)). nia.
Qed.

(** Selecting aggregates cannot fail: on a valid sample with a valid
    method, the minimum, the maximum, a quantile and the median of an odd
    sample always exist, and are the canonical text of an observation. *)
Theorem selection_total values a unit :
  (exists u, validateAggregation a = Ok u) -> valid_sample unit values ->
  selects a (length values) ->
  exists r v, aggregateComparisonExactValues values a = Ok r /\ v ∈ values /\ (exact_Q r == exact_Q v)%Q.
Proof.
  intros Hv Hs Hsel. destruct (parse_all_accepts values) as [ps Hps].
  { destruct Hs. eapply Forall_impl; [exact vs_values0|]. by intros v []. }
  destruct (parse_all _ _ Hps) as (H2 & Hn & _ & _ & Hb & _). pose proof Hs as [].
  destruct (selects_run a (merge_sort ordered_before ps) Hv) as (p & Hp & Hf).
  { by rewrite merge_sort_Permutation, <- (Forall2_length _ _ _ H2). }
  { intros Hnil. pose proof (merge_sort_Permutation ordered_before ps) as Hpm. rewrite Hnil in Hpm.
    apply Permutation_nil_l in Hpm. subst. by inversion H2; subst. }
  rewrite merge_sort_Permutation in Hp. apply list_elem_of_lookup in Hp as [i Hi].
  destruct (Forall2_lookup_r _ _ _ _ _ H2 Hi) as (v & Hvi & Hpv).
  unfold all_normal in Hn. rewrite Forall_lookup in Hn, Hb. specialize (Hn _ _ Hi). specialize (Hb _ _ Hi).
  rewrite Forall_lookup in vs_values0. destruct (vs_values0 _ _ Hvi) as [Hsch Hu].
  assert (Hunit : AssuranceSummarySchema unit = true).
  { subst unit. clear -Hsch. destruct v; simpl in *; rewrite ?andb_true_iff in Hsch; tauto. }
  exists (canonical (parsed_fraction p) unit), v. split; [|split].
  - apply aggregate_run. split; [done|]. exists unit, ps, (parsed_fraction p). split_and!; try done.
    by apply exactValue_normal.
  - by eapply list_elem_of_lookup_2.
  - destruct (canonical_denotes _ _ Hn Hb Hunit) as [-> _]. by apply parseExactValue_Ok in Hpv as (_ & _ & _ & _ & ?).
Qed.

Lemma compare_iff left right c :
  compareComparisonExactValues left right = Ok c <->
  ComparisonExactValueSchema left = true /\ ComparisonExactValueSchema right = true /\
  exact_unit left = exact_unit right /\
  c = match (exact_Q left ?= exact_Q right)%Q with Eq => 0 | Lt => -1 | Gt => 1 end.
Proof.
  unfold compareComparisonExactValues.
  destruct (parseExactValue_cases left) as [(Hl & p & Hp & Hpu & [Hp0 _] & _ & Hpq)|[Hl Hp]].
  2: { rewrite Hp. split; [done|]. intros (? & _). congruence. }
  rewrite (bind_known _ _ _ Hp).
  destruct (parseExactValue_cases right) as [(Hr & q & Hq & Hqu & [Hq0 _] & _ & Hqq)|[Hr Hq]].
  2: { rewrite Hq. split; [done|]. intros (_ & ? & _). congruence. }
  rewrite (bind_known _ _ _ Hq), compareFractions_Qcompare, Hpu, Hqu by done.
  rewrite (Qcompare_comp _ _ Hpq _ _ Hqq). split.
  - intros H'. inv_res. breflect. done.
  - intros (_ & _ & Hu & ->). rewrite (bind_known _ _ tt); [done|]. apply reject_known. by breflect.
Qed.

(** Comparison orders the denoted rationals: it succeeds exactly on two
    valid values of one unit, and returns the sign of their difference. *)
Theorem compare_exact left right c :
  compareComparisonExactValues left right = Ok c <->
  ComparisonExactValueSchema left = true /\ ComparisonExactValueSchema right = true /\
  exact_unit left = exact_unit right /\
  c = match (exact_Q left ?= exact_Q right)%Q with Eq => 0 | Lt => -1 | Gt => 1 end.
Proof. apply compare_iff. Qed.

(** Subtraction is exact: a result denotes the candidate's rational minus
    the baseline's, in their common unit, and satisfies the public contract. *)
Theorem subtract_exact baseline candidate r :
  subtractComparisonExactValues baseline candidate = Ok r ->
  (exact_Q r == exact_Q candidate - exact_Q baseline)%Q /\
  exact_unit r = exact_unit baseline /\ exact_unit baseline = exact_unit candidate /\
  ComparisonExactValueSchema r = true.
Proof.
  unfold subtractComparisonExactValues. intros H'. inv_res.
  repeat match goal with Hx : parseExactValue _ = Ok _ |- _ =>
    apply parseExactValue_Ok in Hx as (_ & ? & [? _] & _ & ?) end. breflect.
  match goal with Hx : addFractions _ _ = Ok _ |- _ =>
    apply addFractions_exact in Hx as ([Hd _] & _ & Hq); [|done..] end.
  destruct (exactValue_Ok _ _ _ Hd H') as (g & -> & _ & _ & Hg & Hsch).
  split_and!; [|done|congruence|done]. simpl. rewrite !BigInt_toString.
  change (frac_Q g == exact_Q candidate - exact_Q baseline)%Q. rewrite Hg, Hq.
  unfold Qminus. apply Qplus_comp; [done|].
  match goal with Hb : (frac_Q (parsed_fraction ?x) == exact_Q baseline)%Q |- _ => rewrite <- Hb end.
  reflexivity.
Qed.
End canonical.

(** The Euclidean loop terminates within its bound and computes the
    greatest common divisor. *)
Theorem greatestCommonDivisor_correct left right :
  greatestCommonDivisor left right = Z.gcd left right.
Proof. apply greatestCommonDivisor_gcd. Qed.
