(* ===== verification/PolicyExactArithmetic.v ===== *)
(** * Exact policy thresholds

    [packages/core/src/policy/policy-exact-arithmetic.ts]: the comparisons a
    release policy makes between retained evidence and its thresholds, none of
    which rounds.  A value whose type the source checks again at run time (a
    comparator, a unit) is a string here. *)

From Stdlib Require Import QArith Ascii.
From S2P Require Import Prelude Errors Regex BigInts Primitives ExactArithmetic.
From S2P Require Import ExactArithmeticProofs.
#[local] Open Scope Z_scope.

(** ** Contracts *)

Inductive ReleasePolicyComparator : Type :=
| cmp_equal | greater_than | greater_than_or_equal | less_than | less_than_or_equal | not_equal.

Definition comparator_of_string (value : string) : option ReleasePolicyComparator :=
  if value === "equal"%string then Some cmp_equal
  else if value === "greater_than"%string then Some greater_than
  else if value === "greater_than_or_equal"%string then Some greater_than_or_equal
  else if value === "less_than"%string then Some less_than
  else if value === "less_than_or_equal"%string then Some less_than_or_equal
  else if value === "not_equal"%string then Some not_equal
  else None.

Definition policy_units : list string :=
  ["artifacts"; "assurance_records"; "attempts"; "basis_points"; "bytes"; "calls"; "cases";
   "evaluation_outcomes"; "events"; "interactions"; "milliseconds"; "provider_cost_microunits";
   "requests"; "tokens"]%string.

Definition ReleasePolicyUnitSchema (unit : string) : bool := existsb (fun u => u === unit) policy_units.

(** The unique text of a decimal: no negative zero, no trailing fractional zero. *)
Definition ReleasePolicyExactDecimalSchema (value : string) : bool :=
  ExactDecimalSchema value &&
  let characters := String.list_ascii_of_string value in
  let negative := match characters with "-"%char :: _ => true | _ => false end in
  let parts := split_dot (if negative then tail characters else characters) in
  let fraction := parts !! 1%nat in
  if (parts !! 0%nat === Some ["0"%char]) &&
     match fraction with
     | None | Some [] => true
     | Some digits => forallb (fun c => c === "0"%char) digits
     end && negative
  then false
  else match fraction with
       | None => true
       | Some digits => negb (last digits === Some "0"%char)
       end.

(** Zero with up to 18 fractional digits, or one with up to 18 zeros. *)
Definition unit_interval_re : re :=
  Alt (Cat (chr "0"%char) (maybe (Cat (chr "."%char) (between 1 18 digit_re))))
      (Cat (chr "1"%char) (maybe (Cat (chr "."%char) (between 1 18 (chr "0"%char))))).

Definition UnitIntervalDecimalSchema (value : string) : bool := test unit_interval_re value.

(** ** Comparisons *)

Record PolicyNumericComparison := { matches : bool; order : Z }.

Inductive PolicyCoverageRatioComparison : Type :=
| ratio_compared (comparison : PolicyNumericComparison)
| ratio_undefined.

Definition policy_error {A} (code : PolicyNumericInputErrorCode) : res A :=
  Throw (PolicyNumericInputError code).

Definition comparator (value : string) : res ReleasePolicyComparator :=
  match comparator_of_string value with
  | Some parsed => Ok parsed
  | None => policy_error invalid_comparator
  end.

Definition comparison (order : Z) (operation : ReleasePolicyComparator) : PolicyNumericComparison := {|
  matches := match operation with
    | cmp_equal => order =? 0
    | greater_than => order =? 1
    | greater_than_or_equal => negb (order =? -1)
    | less_than => order =? -1
    | less_than_or_equal => negb (order =? 1)
    | not_equal => negb (order =? 0)
    end;
  order := order
|}.

Definition assertCount (value : Z) : res unit :=
  reject_when (negb (isSafeInteger value) || (value <? 0)) (PolicyNumericInputError invalid_count).

Definition assertBasisPoints (value minimum : Z) : res unit :=
  reject_when (negb (isSafeInteger value) || (value <? minimum) || (10000 <? value))
    (PolicyNumericInputError invalid_basis_points).

Definition three_way (left right : Z) : Z :=
  if left <? right then -1 else if right <? left then 1 else 0.

Definition comparePolicyCounts (observed threshold : Z) (operation : string) :
    res PolicyNumericComparison :=
  parsedComparator ← comparator operation;
  assertCount observed ;;
  assertCount threshold ;;
  Ok (comparison (three_way observed threshold) parsedComparator).

Definition comparePolicyCoverageRatio (observed total minimumBasisPoints : Z) :
    res PolicyCoverageRatioComparison :=
  assertCount observed ;;
  assertCount total ;;
  assertBasisPoints minimumBasisPoints 1 ;;
  reject_when (total <? observed) (PolicyNumericInputError invalid_population) ;;
  if total =? 0 then Ok ratio_undefined
  else
    let left := observed * 10000 in
    let right := minimumBasisPoints * total in
    Ok (ratio_compared (comparison (three_way left right) greater_than_or_equal)).

(** [text.padStart(n, "0")] *)
Definition padStart (width : nat) (value : string) : string :=
  String.string_of_list_ascii (replicate (width - String.length value) "0"%char ++
    String.list_ascii_of_string value).

Definition threshold_text (basisPoints : Z) : string :=
  if basisPoints =? 10000 then "1" else "0." +:+ padStart 4 (toString basisPoints).

Section thresholds.
Context `{UnicodeNormalization}.

Definition comparePolicyExactThreshold (value : ComparisonExactValue) (threshold unit operation : string) :
    res PolicyNumericComparison :=
  parsedComparator ← comparator operation;
  reject_when (negb (ReleasePolicyUnitSchema unit)) (PolicyNumericInputError invalid_unit) ;;
  reject_when (negb (ReleasePolicyExactDecimalSchema threshold))
    (PolicyNumericInputError invalid_threshold) ;;
  reject_when (negb (ComparisonExactValueSchema value)) (PolicyNumericInputError policy_invalid_value) ;;
  reject_when (exact_unit value !== text_of unit) (PolicyNumericInputError policy_mixed_units) ;;
  compared ← compareComparisonExactValues value (decimal_value (text_of unit) threshold);
  Ok (comparison compared parsedComparator).

Definition comparePolicyProbabilityBound (bound : string) (thresholdBasisPoints : Z) (operation : string) :
    res PolicyNumericComparison :=
  reject_when ((operation !== "at_least"%string) && (operation !== "at_most"%string))
    (PolicyNumericInputError invalid_comparator) ;;
  assertBasisPoints thresholdBasisPoints 0 ;;
  reject_when (negb (UnitIntervalDecimalSchema bound)) (PolicyNumericInputError invalid_probability_bound) ;;
  let unit := text_of "probability" in
  compared ← compareComparisonExactValues (decimal_value unit bound)
    (decimal_value unit (threshold_text thresholdBasisPoints));
  Ok (comparison compared
        (if operation === "at_least"%string then greater_than_or_equal else less_than_or_equal)).
End thresholds.

(** ** What the comparators mean on rationals *)

Definition holds (operation : ReleasePolicyComparator) (left right : Q) : Prop :=
  match operation with
  | cmp_equal => (left == right)%Q
  | greater_than => (right < left)%Q
  | greater_than_or_equal => (right <= left)%Q
  | less_than => (left < right)%Q
  | less_than_or_equal => (left <= right)%Q
  | not_equal => ~ (left == right)%Q
  end.

Definition sign_of (left right : Q) : Z :=
  match (left ?= right)%Q with Eq => 0 | Lt => -1 | Gt => 1 end.

Lemma comparison_holds operation left right :
  matches (comparison (sign_of left right) operation) = true <-> holds operation left right.
Proof.
  unfold sign_of. destruct operation; simpl.
  - rewrite Qeq_alt. by destruct (left ?= right)%Q.
  - rewrite Qlt_alt, <- (Qcompare_antisym left right). by destruct (left ?= right)%Q.
  - rewrite Qle_alt, <- (Qcompare_antisym left right). by destruct (left ?= right)%Q.
  - rewrite Qlt_alt. by destruct (left ?= right)%Q.
  - rewrite Qle_alt. by destruct (left ?= right)%Q.
  - rewrite Qeq_alt. by destruct (left ?= right)%Q.
Qed.

Lemma three_way_sign l r : three_way l r = sign_of (inject_Z l) (inject_Z r).
Proof.
  unfold three_way, sign_of, Qcompare. simpl. rewrite !Z.mul_1_r.
  destruct (Z.compare_spec l r), (Z.ltb_spec l r), (Z.ltb_spec r l); try lia; done.
Qed.

Lemma assertCount_Ok v u : assertCount v = Ok u <-> 0 <= v <= MAX_SAFE_INTEGER.
Proof.
  unfold assertCount. rewrite reject_when_Ok, orb_false_iff, negb_false_iff, isSafeInteger_spec. breflect.
  unfold MAX_SAFE_INTEGER. lia.
Qed.

Lemma assertBasisPoints_Ok v m u : 0 <= m -> assertBasisPoints v m = Ok u <-> m <= v <= 10000.
Proof.
  intros Hm. unfold assertBasisPoints.
  rewrite reject_when_Ok, !orb_false_iff, negb_false_iff, isSafeInteger_spec. breflect.
  unfold MAX_SAFE_INTEGER. lia.
Qed.

(** ** Texts the policy code builds or narrows *)

Lemma unit_interval_decimal s : UnitIntervalDecimalSchema s = true -> ExactDecimalSchema s = true.
Proof.
  intros H%test_spec. unfold ExactDecimalSchema. apply andb_true_iff.
  assert (Hsub : exists head point, String.list_ascii_of_string s = [head] ++ point /\
    matched (Alt (chr "0"%char) (Cat (one_of [("1", "9")]%char) (at_most 17 digit_re))) [head] /\
    matched (maybe (Cat (chr "."%char) (between 1 18 digit_re))) point).
  { assert (Hz : forall n l, matched (at_most n (chr "0"%char)) l -> matched (at_most n digit_re) l).
    { intros n. induction n as [|n IH]; intros l; simpl; [done|].
      intros Hm. inversion Hm as [| | |? ? ? Hx|? ? ? Hx| |]; subst; [by apply matched_alt_l|].
      apply matched_cat_inv in Hx as (u & v & -> & Hu%matched_chr & Hv). subst.
      apply matched_alt_r, matched_cat; [|by apply IH]. apply matched_digit. by exists "0"%char. }
    inversion H as [| | |? ? ? Hx|? ? ? Hx| |]; subst;
      apply matched_cat_inv in Hx as (u & v & -> & Hu%matched_chr & Hv); subst.
    - exists "0"%char, v. split_and!; [done| |done]. by apply matched_alt_l, matched_chr.
    - exists "1"%char, v. split; [done|]. split.
      + apply matched_alt_r. change ["1"%char] with (["1"%char] ++ []).
        apply matched_cat; [|apply matched_alt_l, matched_eps].
        apply matched_one_of. by exists "1"%char.
      + inversion Hv as [| | |? ? ? Hx|? ? ? Hx| |]; subst; [by apply matched_alt_l|].
        apply matched_cat_inv in Hx as (d & w & -> & Hd & Hw). apply matched_alt_r, matched_cat; [done|].
        apply matched_cat_inv in Hw as (w1 & w2 & -> & Hw1 & Hw2).
        apply matched_cat; [|by apply Hz]. simpl in *.
        apply matched_cat_inv in Hw1 as (c & e & -> & Hc%matched_chr & He). subst.
        apply matched_cat; [|done]. apply matched_digit. by exists "0"%char. }
  destruct Hsub as (hd & point & Hs & Hh & Hp).
  assert (Ht : test decimal_re s = true).
  { apply test_spec. rewrite Hs. unfold decimal_re, unsigned_decimal_re.
    apply (matched_cat _ _ [] ([hd] ++ point)); [apply matched_alt_l, matched_eps|by apply matched_cat]. }
  split; [|done]. destruct (decimal_shape s Ht) as (sign & whole & frac & pt & Hl & Hsg & _ & Hwl & _ & Hfl & Hpt).
  apply Nat.leb_le. rewrite string_length_list, Hl, !length_app.
  destruct Hsg as [-> | ->], Hpt as [[-> ->]| ->]; simpl; lia.
Qed.

(** Units are accepted text. *)
Lemma unit_text_accepted `{UnicodeNormalization} u :
  In u ("probability"%string :: policy_units) -> AssuranceSummarySchema (text_of u) = true.
Proof.
  intros Hu. unfold AssuranceSummarySchema, boundedCanonicalText.
  assert (Ha : forallb (fun u => (0 <=? u) && (u <=? 127)) (text_of u) = true)
    by (simpl in Hu; repeat destruct Hu as [<-|Hu]; done || reflexivity).
  rewrite normalizeNFC_ascii by done. simpl in Hu.
  repeat destruct Hu as [<-|Hu]; try done; vm_compute; reflexivity.
Qed.

(** Every threshold text denotes its basis points exactly. *)
Lemma threshold_texts :
  forallb (fun n => Qeq_bool (decimal_Q (threshold_text n)) (n # 10000) &&
    ExactDecimalSchema (threshold_text n)) (seqZ 0 10001) = true.
Proof. vm_compute. reflexivity. Qed.

Lemma threshold_text_exact n :
  0 <= n <= 10000 ->
  (decimal_Q (threshold_text n) == n # 10000)%Q /\ ExactDecimalSchema (threshold_text n) = true.
Proof.
  intros Hn. pose proof threshold_texts as H. rewrite forallb_forall in H.
  specialize (H n). rewrite andb_true_iff, Qeq_bool_iff in H. apply H.
  apply list_elem_of_In, elem_of_seqZ. lia.
Qed.

Lemma comparator_Ok op c : comparator op = Ok c <-> comparator_of_string op = Some c.
Proof. unfold comparator, policy_error. destruct (comparator_of_string op); split; congruence. Qed.

(** A comparison is determined by what it says of the two rationals. *)
Definition compares (c : PolicyNumericComparison) (op : ReleasePolicyComparator) (left right : Q) : Prop :=
  order c = sign_of left right /\ (matches c = true <-> holds op left right).

Lemma comparison_compares op left right : compares (comparison (sign_of left right) op) op left right.
Proof. split; [done|apply comparison_holds]. Qed.

Section properties.
Context `{UnicodeNormalization}.

(** A threshold comparison answers exactly when its comparator, unit,
    threshold and operand are valid and the units agree, and then it says how
    the operand's rational lies to the threshold's, without rounding. *)
Theorem policy_threshold_exact value threshold unit op :
  (forall c, comparePolicyExactThreshold value threshold unit op = Ok c ->
     exists cmp, comparator_of_string op = Some cmp /\ compares c cmp (exact_Q value) (decimal_Q threshold)) /\
  ((exists c, comparePolicyExactThreshold value threshold unit op = Ok c) <->
   comparator_of_string op <> None /\ ReleasePolicyUnitSchema unit = true /\
   ReleasePolicyExactDecimalSchema threshold = true /\ ComparisonExactValueSchema value = true /\
   exact_unit value = text_of unit).
Proof.
  unfold comparePolicyExactThreshold. split.
  - intros c Hc. inv_res. rewrite comparator_Ok in *.
    match goal with Hx : compareComparisonExactValues _ _ = Ok _ |- _ =>
      apply compare_iff in Hx as (_ & _ & _ & ->) end.
    eexists. split; [done|]. apply comparison_compares.
  - split.
    + intros [c Hc]. inv_res. rewrite comparator_Ok in *. breflect. split_and!; try done. congruence.
    + intros (Hop & Hu & Ht & Hv & Heq). destruct (comparator_of_string op) as [cmp|] eqn:Hcmp; [|done].
      apply comparator_Ok in Hcmp. rewrite (bind_known _ _ _ Hcmp).
      rewrite (bind_known _ _ tt) by (apply reject_known; by rewrite Hu).
      rewrite (bind_known _ _ tt) by (apply reject_known; by rewrite Ht).
      rewrite (bind_known _ _ tt) by (apply reject_known; by rewrite Hv).
      rewrite (bind_known _ _ tt) by (apply reject_known; by breflect).
      eexists. erewrite bind_known; [done|]. apply compare_iff. split_and!; try done.
      apply andb_true_iff. split.
      * apply unit_text_accepted. right. unfold ReleasePolicyUnitSchema in Hu.
        apply existsb_exists in Hu as (w & Hw & He). breflect. by subst.
      * unfold ReleasePolicyExactDecimalSchema in Ht. by apply andb_true_iff in Ht as [? _].
Qed.

(** A probability bound is compared with its basis points exactly, on
    every bound of the unit interval and every threshold from 0 to 10000, and
    the call fails on everything else. *)
Theorem policy_probability_exact bound points op :
  (forall c, comparePolicyProbabilityBound bound points op = Ok c ->
     compares c (if op === "at_least"%string then greater_than_or_equal else less_than_or_equal)
       (decimal_Q bound) (points # 10000)) /\
  ((exists c, comparePolicyProbabilityBound bound points op = Ok c) <->
   In op ["at_least"; "at_most"]%string /\ 0 <= points <= 10000 /\
   UnitIntervalDecimalSchema bound = true).
Proof.
  unfold comparePolicyProbabilityBound. cbv zeta. split.
  - intros c Hc. inv_res. rewrite assertBasisPoints_Ok in * by lia.
    match goal with Hx : compareComparisonExactValues _ _ = Ok _ |- _ =>
      apply compare_iff in Hx as (_ & _ & _ & ->) end. cbn [exact_Q].
    match goal with Hx : 0 <= points <= 10000 |- _ =>
      destruct (threshold_text_exact points Hx) as [Hq _] end.
    rewrite (Qcompare_comp _ _ (reflexivity _) _ _ Hq). apply comparison_compares.
  - split.
    + intros [c Hc]. inv_res. rewrite assertBasisPoints_Ok in * by lia. breflect.
      split_and!; try done; try lia. simpl. naive_solver.
    + intros (Hop & Hp & Hb). destruct (threshold_text_exact points Hp) as [_ Ht].
      rewrite (bind_known _ _ tt).
      2: { apply reject_known. simpl in Hop. by destruct Hop as [<-|[<-|[]]]. }
      rewrite (bind_known _ _ tt) by (apply assertBasisPoints_Ok; lia).
      rewrite (bind_known _ _ tt) by (apply reject_known; by rewrite Hb).
      assert (Hu : AssuranceSummarySchema (text_of "probability") = true)
        by (apply unit_text_accepted; by left).
      eexists. erewrite bind_known; [done|]. apply compare_iff.
      split_and!; try done; (apply andb_true_iff; split; [done|]); [by apply unit_interval_decimal|done].
Qed.
End properties.

(** The coverage ratio keeps its whole denominator: it is undefined on an
    empty population, fails on counts that are not a population, and otherwise
    says exactly whether observed over total reaches the basis points. *)
Theorem coverage_ratio_exact observed total points r :
  comparePolicyCoverageRatio observed total points = Ok r <->
  0 <= observed <= total /\ total <= MAX_SAFE_INTEGER /\ 1 <= points <= 10000 /\
  match r with
  | ratio_undefined => total = 0
  | ratio_compared c => 0 < total /\
      c = comparison (sign_of (observed # Z.to_pos total) (points # 10000)) greater_than_or_equal /\
      (matches c = true <-> ((points # 10000) <= (observed # Z.to_pos total))%Q)
  end.
Proof.
  assert (Hsign : 0 < total -> three_way (observed * 10000) (points * total) =
    sign_of (observed # Z.to_pos total) (points # 10000)).
  { intros Ht. rewrite three_way_sign. unfold sign_of, Qcompare. simpl.
    rewrite Z2Pos.id, !Z.mul_1_r by done. done. }
  unfold comparePolicyCoverageRatio. cbv zeta. split.
  - intros H. inv_res. rewrite !assertCount_Ok, assertBasisPoints_Ok in * by lia. breflect.
    destruct (Z.eqb_spec total 0) as [->|Hne]; inv_res; [split_and!; lia|].
    do 3 (split; [lia|]). split; [lia|]. rewrite Hsign by lia. split; [done|]. apply comparison_holds.
  - intros (Ho & Ht & Hp & Hr).
    rewrite (bind_known _ _ tt) by (apply assertCount_Ok; lia).
    rewrite (bind_known _ _ tt) by (apply assertCount_Ok; lia).
    rewrite (bind_known _ _ tt) by (apply assertBasisPoints_Ok; lia).
    rewrite (bind_known _ _ tt) by (apply reject_known; breflect; lia).
    destruct (Z.eqb_spec total 0), r as [c|]; try lia; try done.
    destruct Hr as (Hpos & -> & _). by rewrite Hsign.
Qed.
