(* ===== verification/ReplayPlan.v ===== *)
(** * Replay plans

    [packages/contracts/src/replay-plan.ts] and the recorded-boundary
    invocation of [packages/contracts/src/replay.ts] a plan embeds: the
    immutable definition a durable replay job runs.  [ReplayPlanSchema] is the
    conjunction of the field schemas and of [refineReplayPlan].  Literal fields
    ([schemaVersion], the port and scheme of a destination) carry no
    information and are not represented. *)

From S2P Require Import Prelude Errors Regex Primitives.
From Stdlib Require Import Ascii.

Definition MAX_REPLAY_BUDGET_VALUE : Z := MAX_SAFE_INTEGER.
Definition MAX_REPLAY_BOUNDARIES : nat := 64.
Definition MAX_REPLAY_ATTEMPTS : Z := 32.

(** [values.every((value, index) => index === 0 || values[index - 1] < value)] *)
Fixpoint isStrictlySortedUnique (values : list string) : bool :=
  match values with
  | [] => true
  | v :: rest =>
      match rest with
      | [] => true
      | w :: _ => string_lt v w && isStrictlySortedUnique rest
      end
  end.

(** ** References *)

Inductive ReplayBoundaryKind : Type := data | model | retrieval | tool.
Inductive ReplayBoundaryMode : Type := live_provider | recorded_stub | simulation.

#[global] Instance ReplayBoundaryKind_eq_dec : EqDecision ReplayBoundaryKind.
Proof. solve_decision. Defined.
#[global] Instance ReplayBoundaryMode_eq_dec : EqDecision ReplayBoundaryMode.
Proof. solve_decision. Defined.

Record ReplayReleaseTargetAdapterReference := {
  adapter_name : string;
  adapter_protocolVersion : string;
  adapter_version : string;
}.

Record WorkerProtocolReference := {
  protocol_name : string;
  protocol_version : string;
}.

Record TargetReleaseReference := {
  target_definitionSha256 : string;
  target_targetAdapter : ReplayReleaseTargetAdapterReference;
  target_targetId : string;
  target_targetReleaseId : string;
  target_workerProtocol : WorkerProtocolReference;
}.

Record ReplayRuntimeProfileReference := {
  runtime_definitionSha256 : string;
  runtime_family : string;
  runtime_id : string;
  runtime_version : string;
}.

Inductive ReplayIsolationKind : Type := container | local_child_process.

Record ReplayIsolationProfileReference := {
  isolation_definitionSha256 : string;
  isolation_id : string;
  isolation_kind : ReplayIsolationKind;
  isolation_version : string;
}.

Record ReplayDatasetReference := {
  dataset_datasetId : string;
  dataset_datasetVersionId : string;
  dataset_definitionSha256 : string;
}.

#[global] Instance ReplayReleaseTargetAdapterReference_eq_dec :
  EqDecision ReplayReleaseTargetAdapterReference.
Proof. solve_decision. Defined.
#[global] Instance WorkerProtocolReference_eq_dec : EqDecision WorkerProtocolReference.
Proof. solve_decision. Defined.
#[global] Instance TargetReleaseReference_eq_dec : EqDecision TargetReleaseReference.
Proof. solve_decision. Defined.
#[global] Instance ReplayIsolationKind_eq_dec : EqDecision ReplayIsolationKind.
Proof. solve_decision. Defined.

Definition ReplayReleaseTargetAdapterReferenceSchema (r : ReplayReleaseTargetAdapterReference) :=
  ProtocolTokenSchema (adapter_name r) && ProtocolVersionSchema (adapter_protocolVersion r) &&
  ProtocolVersionSchema (adapter_version r).

Definition WorkerProtocolReferenceSchema (r : WorkerProtocolReference) : bool :=
  ProtocolTokenSchema (protocol_name r) && ProtocolVersionSchema (protocol_version r).

Definition TargetReleaseReferenceSchema (r : TargetReleaseReference) : bool :=
  Sha256Schema (target_definitionSha256 r) &&
  ReplayReleaseTargetAdapterReferenceSchema (target_targetAdapter r) &&
  OpaqueIdSchema (target_targetId r) && OpaqueIdSchema (target_targetReleaseId r) &&
  WorkerProtocolReferenceSchema (target_workerProtocol r).

Definition ReplayRuntimeProfileReferenceSchema (r : ReplayRuntimeProfileReference) : bool :=
  Sha256Schema (runtime_definitionSha256 r) && ProtocolTokenSchema (runtime_family r) &&
  OpaqueIdSchema (runtime_id r) && ProtocolVersionSchema (runtime_version r).

Definition ReplayIsolationProfileReferenceSchema (r : ReplayIsolationProfileReference) : bool :=
  Sha256Schema (isolation_definitionSha256 r) && OpaqueIdSchema (isolation_id r) &&
  ProtocolVersionSchema (isolation_version r).

Definition ReplayDatasetReferenceSchema (r : ReplayDatasetReference) : bool :=
  OpaqueIdSchema (dataset_datasetId r) && OpaqueIdSchema (dataset_datasetVersionId r) &&
  Sha256Schema (dataset_definitionSha256 r).

(** ** Recorded invocations ([replay.ts]) *)

Record ReplayTargetAdapterReference := {
  invocation_adapter_name : string;
  invocation_adapter_version : string;
}.

Record RecordedFixtureReplayReference := {
  fixture_definitionSha256 : string;
  fixture_fixtureId : string;
  fixture_fixtureVersionId : string;
}.

Record RecordedBoundaryReplayRuntimeProfile := {
  profile_clock_instant : timestamp;
  profile_locale : string;
  profile_random_seedHex : string;
  profile_timeZone : string;
}.

Record RecordedBoundaryReplayInvocationDefinition := {
  invocation_fixture : RecordedFixtureReplayReference;
  invocation_invocationId : string;
  invocation_runtime : RecordedBoundaryReplayRuntimeProfile;
  invocation_targetAdapter : ReplayTargetAdapterReference;
}.

Definition LocaleSchema (s : string) : bool :=
  let letters := one_of (upper ++ lower) in
  let alnum := one_of (upper ++ lower ++ digit) in
  length_in 2 64 s &&
  test (Cat (between 2 3 letters) (Star (Cat (chr "-"%char) (between 2 8 alnum)))) s.

Definition TimeZoneSchema (s : string) : bool :=
  let utc := Cat (chr "U"%char) (Cat (chr "T"%char) (chr "C"%char)) in
  let area := plus (one_of (upper ++ lower ++ each ["_"%char])) in
  let place := plus (one_of (upper ++ lower ++ digit ++ each ["."; "_"; "+"; "-"]%char)) in
  length_in 3 128 s && test (Alt utc (Cat area (plus (Cat (chr "/"%char) place)))) s.

Definition ReplayTargetAdapterReferenceSchema (r : ReplayTargetAdapterReference) : bool :=
  ProtocolTokenSchema (invocation_adapter_name r) &&
  ProtocolVersionSchema (invocation_adapter_version r).

Definition RecordedFixtureReplayReferenceSchema (r : RecordedFixtureReplayReference) : bool :=
  Sha256Schema (fixture_definitionSha256 r) && OpaqueIdSchema (fixture_fixtureId r) &&
  OpaqueIdSchema (fixture_fixtureVersionId r).

Definition RecordedBoundaryReplayRuntimeProfileSchema
    (p : RecordedBoundaryReplayRuntimeProfile) : bool :=
  UtcMillisecondTimestampSchema (profile_clock_instant p) && LocaleSchema (profile_locale p) &&
  Sha256Schema (profile_random_seedHex p) && TimeZoneSchema (profile_timeZone p).

Definition RecordedBoundaryReplayInvocationDefinitionSchema
    (i : RecordedBoundaryReplayInvocationDefinition) : bool :=
  RecordedFixtureReplayReferenceSchema (invocation_fixture i) &&
  OpaqueIdSchema (invocation_invocationId i) &&
  RecordedBoundaryReplayRuntimeProfileSchema (invocation_runtime i) &&
  ReplayTargetAdapterReferenceSchema (invocation_targetAdapter i).

(** ** Boundaries *)

Inductive LiveSideEffect : Type :=
| read_only
| idempotent_write (idempotencyKeyScheme : string)
| non_idempotent_write (riskAcceptance : ArtifactContentReference).

Inductive ReplayBudgetMeasurement : Type :=
| estimated | measured | provider_reported | unavailable.

#[global] Instance ReplayBudgetMeasurement_eq_dec : EqDecision ReplayBudgetMeasurement.
Proof. solve_decision. Defined.

Record LiveProviderBoundaryDeclaration := {
  live_boundaryId : string;
  live_credentialId : string;
  live_credentialVersionId : string;
  live_hostname : string;
  live_endpoint_definitionSha256 : string;
  live_endpointProfileId : string;
  live_endpointProfileVersion : string;
  live_kind : ReplayBoundaryKind;
  live_operation : string;
  live_requestBytes : Z;
  live_responseBytes : Z;
  live_sideEffect : LiveSideEffect;
  live_usageSource : ReplayBudgetMeasurement;
}.

(** A recorded boundary's kind is [model] or [tool] only. *)
Record RecordedBoundaryDeclaration := {
  recorded_boundaryId : string;
  recorded_invocation : RecordedBoundaryReplayInvocationDefinition;
  recorded_invocationDefinitionSha256 : string;
  recorded_kind : ReplayBoundaryKind;
}.

Record SimulationBoundaryDeclaration := {
  simulation_boundaryId : string;
  simulation_configurationSha256 : string;
  simulation_kind : ReplayBoundaryKind;
  simulation_qualification : ArtifactContentReference;
  simulation_seedHex : string;
  simulation_simulatorRelease : TargetReleaseReference;
}.

Inductive ReplayBoundaryDeclaration : Type :=
| LiveProviderBoundary (declaration : LiveProviderBoundaryDeclaration)
| RecordedBoundary (declaration : RecordedBoundaryDeclaration)
| SimulationBoundary (declaration : SimulationBoundaryDeclaration).

Definition boundary_boundaryId (b : ReplayBoundaryDeclaration) : string :=
  match b with
  | LiveProviderBoundary d => live_boundaryId d
  | RecordedBoundary d => recorded_boundaryId d
  | SimulationBoundary d => simulation_boundaryId d
  end.

Definition boundary_kind (b : ReplayBoundaryDeclaration) : ReplayBoundaryKind :=
  match b with
  | LiveProviderBoundary d => live_kind d
  | RecordedBoundary d => recorded_kind d
  | SimulationBoundary d => simulation_kind d
  end.

Definition boundary_mode (b : ReplayBoundaryDeclaration) : ReplayBoundaryMode :=
  match b with
  | LiveProviderBoundary _ => live_provider
  | RecordedBoundary _ => recorded_stub
  | SimulationBoundary _ => simulation
  end.

Definition budget_value (v : Z) : bool := (1 <=? v) && (v <=? MAX_REPLAY_BUDGET_VALUE).

Definition DnsHostnameSchema (s : string) : bool :=
  let alnum := one_of (lower ++ digit) in
  let tail := maybe (Cat (at_most 61 (one_of (lower ++ digit ++ each ["-"%char]))) alnum) in
  let label := Cat alnum tail in
  let top := Cat (one_of lower) tail in
  length_in 1 253 s && test (Cat (plus (Cat label (chr "."%char))) top) s.

Definition LiveSideEffectSchema (e : LiveSideEffect) : bool :=
  match e with
  | read_only => true
  | idempotent_write scheme => ProtocolTokenSchema scheme
  | non_idempotent_write risk => ArtifactContentReferenceSchema risk
  end.

Definition ReplayBoundaryDeclarationSchema (b : ReplayBoundaryDeclaration) : bool :=
  match b with
  | LiveProviderBoundary d =>
      OpaqueIdSchema (live_boundaryId d) && OpaqueIdSchema (live_credentialId d) &&
      OpaqueIdSchema (live_credentialVersionId d) && DnsHostnameSchema (live_hostname d) &&
      Sha256Schema (live_endpoint_definitionSha256 d) && OpaqueIdSchema (live_endpointProfileId d) &&
      ProtocolVersionSchema (live_endpointProfileVersion d) &&
      ProtocolTokenSchema (live_operation d) &&
      budget_value (live_requestBytes d) && budget_value (live_responseBytes d) &&
      LiveSideEffectSchema (live_sideEffect d)
  | RecordedBoundary d =>
      OpaqueIdSchema (recorded_boundaryId d) &&
      RecordedBoundaryReplayInvocationDefinitionSchema (recorded_invocation d) &&
      Sha256Schema (recorded_invocationDefinitionSha256 d) &&
      ((recorded_kind d === model) || (recorded_kind d === tool))
  | SimulationBoundary d =>
      OpaqueIdSchema (simulation_boundaryId d) && Sha256Schema (simulation_configurationSha256 d) &&
      ArtifactContentReferenceSchema (simulation_qualification d) &&
      Sha256Schema (simulation_seedHex d) &&
      TargetReleaseReferenceSchema (simulation_simulatorRelease d)
  end.

(** ** Budgets *)

Inductive ReplayBudgetDimension : Type :=
| concurrentInteractions
| elapsedMilliseconds
| emittedArtifactBytes
| inputTokens
| jobAttempts
| modelRequests
| outputTokens
| providerCostMicrounits
| retrievedBytes
| toolCalls.

#[global] Instance ReplayBudgetDimension_eq_dec : EqDecision ReplayBudgetDimension.
Proof. solve_decision. Defined.

Definition REPLAY_BUDGET_DIMENSIONS : list ReplayBudgetDimension :=
  [concurrentInteractions; elapsedMilliseconds; emittedArtifactBytes; inputTokens; jobAttempts;
   modelRequests; outputTokens; providerCostMicrounits; retrievedBytes; toolCalls].

Lemma elem_of_dimensions d : d ∈ REPLAY_BUDGET_DIMENSIONS.
Proof. apply list_elem_of_In. destruct d; simpl; tauto. Qed.

(** An object with one value for each dimension
    ([Record<ReplayBudgetDimension, T>]). *)
Record PerDimension (T : Type) := perDimension {
  at_concurrentInteractions : T;
  at_elapsedMilliseconds : T;
  at_emittedArtifactBytes : T;
  at_inputTokens : T;
  at_jobAttempts : T;
  at_modelRequests : T;
  at_outputTokens : T;
  at_providerCostMicrounits : T;
  at_retrievedBytes : T;
  at_toolCalls : T;
}.
Arguments perDimension {T} _ _ _ _ _ _ _ _ _ _.
Arguments at_concurrentInteractions {T} _.
Arguments at_elapsedMilliseconds {T} _.
Arguments at_emittedArtifactBytes {T} _.
Arguments at_inputTokens {T} _.
Arguments at_jobAttempts {T} _.
Arguments at_modelRequests {T} _.
Arguments at_outputTokens {T} _.
Arguments at_providerCostMicrounits {T} _.
Arguments at_retrievedBytes {T} _.
Arguments at_toolCalls {T} _.

#[global] Instance PerDimension_eq_dec `{EqDecision T} : EqDecision (PerDimension T).
Proof. solve_decision. Defined.

(** [values[dimension]] *)
Definition on {T} (values : PerDimension T) (dimension : ReplayBudgetDimension) : T :=
  match dimension with
  | concurrentInteractions => at_concurrentInteractions values
  | elapsedMilliseconds => at_elapsedMilliseconds values
  | emittedArtifactBytes => at_emittedArtifactBytes values
  | inputTokens => at_inputTokens values
  | jobAttempts => at_jobAttempts values
  | modelRequests => at_modelRequests values
  | outputTokens => at_outputTokens values
  | providerCostMicrounits => at_providerCostMicrounits values
  | retrievedBytes => at_retrievedBytes values
  | toolCalls => at_toolCalls values
  end.

Record BudgetLimit := { budget_limit : Z; budget_measurement : ReplayBudgetMeasurement }.

Abbreviation ReplayBudget := (PerDimension BudgetLimit).

Definition BudgetLimitSchema (l : BudgetLimit) : bool := budget_value (budget_limit l).

Definition ReplayBudgetSchema (b : ReplayBudget) : bool :=
  forallb (fun dimension => BudgetLimitSchema (on b dimension)) REPLAY_BUDGET_DIMENSIONS.

(** ** Retry policies *)

Inductive ReplayRetryableError : Type :=
| retry_boundary_rate_limited
| retry_boundary_temporarily_unavailable
| retry_target_process_interrupted
| retry_target_temporary_failure.

#[global] Instance ReplayRetryableError_eq_dec : EqDecision ReplayRetryableError.
Proof. solve_decision. Defined.

(** The order of the wire names, which [sortedUniqueStrings] compares. *)
Definition retryable_error_name (e : ReplayRetryableError) : string :=
  match e with
  | retry_boundary_rate_limited => "boundary_rate_limited"
  | retry_boundary_temporarily_unavailable => "boundary_temporarily_unavailable"
  | retry_target_process_interrupted => "target_process_interrupted"
  | retry_target_temporary_failure => "target_temporary_failure"
  end.

Inductive ReplayBackoff : Type :=
| backoff_none
| backoff_fixed (delayMilliseconds : Z)
| backoff_exponential (initialDelayMilliseconds maximumDelayMilliseconds multiplier : Z).

Inductive IdempotencyRequirement : Type :=
| destination_supported | no_external_effect | requires_read_only.

#[global] Instance IdempotencyRequirement_eq_dec : EqDecision IdempotencyRequirement.
Proof. solve_decision. Defined.

Record ReplayRetryPolicy := {
  policy_automatic : bool;
  policy_backoff : ReplayBackoff;
  policy_idempotencyRequirement : IdempotencyRequirement;
  policy_maxAttempts : Z;
  policy_perAttemptTimeoutMilliseconds : Z;
  policy_retryableErrors : list ReplayRetryableError;
  policy_totalDeadlineMilliseconds : Z;
}.

Definition MAX_BACKOFF_MILLISECONDS : Z := 3600000.
Definition backoff_delay (v : Z) : bool := (1 <=? v) && (v <=? MAX_BACKOFF_MILLISECONDS).

Definition ReplayBackoffSchema (b : ReplayBackoff) : bool :=
  match b with
  | backoff_none => true
  | backoff_fixed delay => backoff_delay delay
  | backoff_exponential initial maximum multiplier =>
      backoff_delay initial && backoff_delay maximum &&
      (2 <=? multiplier) && (multiplier <=? 16) && negb (maximum <? initial)
  end.

Definition is_backoff_none (b : ReplayBackoff) : bool :=
  match b with backoff_none => true | _ => false end.

Definition refineReplayRetryPolicy (value : ReplayRetryPolicy) : bool :=
  negb (policy_totalDeadlineMilliseconds value <? policy_perAttemptTimeoutMilliseconds value) &&
  negb ((policy_maxAttempts value =? 1) && policy_automatic value) &&
  negb (negb (policy_automatic value) && (0 <? length (policy_retryableErrors value))%nat) &&
  negb (negb (policy_automatic value) && negb (is_backoff_none (policy_backoff value))).

Definition ReplayRetryPolicySchema (p : ReplayRetryPolicy) : bool :=
  ReplayBackoffSchema (policy_backoff p) &&
  (1 <=? policy_maxAttempts p) && (policy_maxAttempts p <=? MAX_REPLAY_ATTEMPTS) &&
  budget_value (policy_perAttemptTimeoutMilliseconds p) &&
  (length (policy_retryableErrors p) <=? 4)%nat &&
  isStrictlySortedUnique (retryable_error_name <$> policy_retryableErrors p) &&
  budget_value (policy_totalDeadlineMilliseconds p) &&
  refineReplayRetryPolicy p.

(** ** Plans *)

Record ReplayPlan := {
  plan_boundaries : list ReplayBoundaryDeclaration;
  plan_budget : ReplayBudget;
  plan_createdAt : timestamp;
  plan_createdByPrincipalId : string;
  plan_dataset : ReplayDatasetReference;
  plan_definitionSha256 : string;
  plan_isolationProfile : ReplayIsolationProfileReference;
  plan_planId : string;
  plan_planVersionId : string;
  plan_retryPolicy : ReplayRetryPolicy;
  plan_runtimeProfile : ReplayRuntimeProfileReference;
  plan_scope : EvidenceScope;
  plan_targetRelease : TargetReleaseReference;
  plan_workerProtocol : WorkerProtocolReference;
}.

(** The constraints [refineReplayPlan] puts on one boundary of the plan. *)
Definition refine_plan_boundary (value : ReplayPlan) (boundary : ReplayBoundaryDeclaration) : bool :=
  let policy := plan_retryPolicy value in
  match boundary with
  | RecordedBoundary d =>
      let planAdapter := target_targetAdapter (plan_targetRelease value) in
      let invocationAdapter := invocation_targetAdapter (recorded_invocation d) in
      (adapter_name planAdapter === invocation_adapter_name invocationAdapter) &&
      (adapter_version planAdapter === invocation_adapter_version invocationAdapter)
  | LiveProviderBoundary d =>
      match live_sideEffect d with
      | non_idempotent_write _ =>
          negb (policy_automatic policy || negb (policy_maxAttempts policy =? 1))
      | idempotent_write _ =>
          negb (policy_automatic policy &&
            (policy_idempotencyRequirement policy !== destination_supported))
      | read_only => true
      end
  | SimulationBoundary _ => true
  end.

Definition refineReplayPlan (value : ReplayPlan) : bool :=
  let protocol := plan_workerProtocol value in
  let target := target_workerProtocol (plan_targetRelease value) in
  let policy := plan_retryPolicy value in
  (protocol_name protocol === protocol_name target) &&
  (protocol_version protocol === protocol_version target) &&
  negb (budget_limit (at_jobAttempts (plan_budget value)) <? policy_maxAttempts policy) &&
  negb (budget_limit (at_elapsedMilliseconds (plan_budget value)) <?
        policy_totalDeadlineMilliseconds policy) &&
  forallb (refine_plan_boundary value) (plan_boundaries value).

Definition ReplayPlanSchema (p : ReplayPlan) : bool :=
  (1 <=? length (plan_boundaries p))%nat &&
  (length (plan_boundaries p) <=? MAX_REPLAY_BOUNDARIES)%nat &&
  forallb ReplayBoundaryDeclarationSchema (plan_boundaries p) &&
  isStrictlySortedUnique (boundary_boundaryId <$> plan_boundaries p) &&
  ReplayBudgetSchema (plan_budget p) &&
  UtcMillisecondTimestampSchema (plan_createdAt p) &&
  OpaqueIdSchema (plan_createdByPrincipalId p) &&
  ReplayDatasetReferenceSchema (plan_dataset p) &&
  Sha256Schema (plan_definitionSha256 p) &&
  ReplayIsolationProfileReferenceSchema (plan_isolationProfile p) &&
  OpaqueIdSchema (plan_planId p) &&
  OpaqueIdSchema (plan_planVersionId p) &&
  ReplayRetryPolicySchema (plan_retryPolicy p) &&
  ReplayRuntimeProfileReferenceSchema (plan_runtimeProfile p) &&
  EvidenceScopeSchema (plan_scope p) &&
  TargetReleaseReferenceSchema (plan_targetRelease p) &&
  WorkerProtocolReferenceSchema (plan_workerProtocol p) &&
  refineReplayPlan p.

(** ** Facts the job and repository proofs use *)

Section plan_facts.
Context (p : ReplayPlan) (valid : ReplayPlanSchema p = true).

Ltac from_valid := revert valid; unfold ReplayPlanSchema; breflect; tauto.

Lemma plan_budget_valid : ReplayBudgetSchema (plan_budget p) = true.
Proof. from_valid. Qed.
Lemma plan_retryPolicy_valid : ReplayRetryPolicySchema (plan_retryPolicy p) = true.
Proof. from_valid. Qed.
Lemma plan_runtimeProfile_valid :
  ReplayRuntimeProfileReferenceSchema (plan_runtimeProfile p) = true.
Proof. from_valid. Qed.
Lemma plan_isolationProfile_valid :
  ReplayIsolationProfileReferenceSchema (plan_isolationProfile p) = true.
Proof. from_valid. Qed.
Lemma plan_targetRelease_valid : TargetReleaseReferenceSchema (plan_targetRelease p) = true.
Proof. from_valid. Qed.
Lemma plan_workerProtocol_valid : WorkerProtocolReferenceSchema (plan_workerProtocol p) = true.
Proof. from_valid. Qed.
Lemma plan_definitionSha256_valid : Sha256Schema (plan_definitionSha256 p) = true.
Proof. from_valid. Qed.
Lemma plan_protocol_matches :
  plan_workerProtocol p = target_workerProtocol (plan_targetRelease p).
Proof.
  revert valid. unfold ReplayPlanSchema, refineReplayPlan. breflect.
  intros H. destruct (plan_workerProtocol p), (target_workerProtocol _); simpl in *.
  f_equal; tauto.
Qed.
End plan_facts.

Lemma ReplayBudgetSchema_spec b :
  ReplayBudgetSchema b = true <->
  forall d, 1 <= budget_limit (on b d) <= MAX_REPLAY_BUDGET_VALUE.
Proof.
  unfold ReplayBudgetSchema. rewrite forallb_forall. unfold BudgetLimitSchema, budget_value.
  split; intros H d; [specialize (H d)|intros _; specialize (H d)]; breflect; [|lia].
  apply H, list_elem_of_In, elem_of_dimensions.
Qed.
