(* ===== verification/ReplayJob.v ===== *)
(** * Durable replay job records

    [packages/contracts/src/replay-job.ts]: jobs, leases, worker fences,
    attempts, cancellation requests and acknowledgements, each with the
    refinement ([superRefine]) its schema adds to its field schemas.  A
    refinement is [true] when it would add no issue. *)

From S2P Require Import Prelude Errors Primitives ReplayPlan.

Definition MAX_REPLAY_CANCELLATION_REASON_CHARACTERS : nat := 512.
Definition MAX_REPLAY_ATTEMPT_ERROR_MESSAGE_CHARACTERS : nat := 1024.

Definition defined {A} (o : option A) : bool := match o with Some _ => true | None => false end.

Lemma defined_true {A} (o : option A) : defined o = true <-> exists a, o = Some a.
Proof. destruct o; naive_solver. Qed.

Lemma defined_false {A} (o : option A) : defined o = false <-> o = None.
Proof. destruct o; naive_solver. Qed.

#[export] Hint Rewrite @defined_true @defined_false : breflect.

(** ** Statuses *)

Inductive ReplayJobTerminalStatus : Type :=
| budget_exhausted | cancelled | failed | succeeded | timed_out.

(** A job status is [queued], [running] or one of the terminal statuses. *)
Inductive ReplayJobStatus : Type :=
| queued
| running
| ended (status : ReplayJobTerminalStatus).

Inductive ReplayJobTerminalCode : Type :=
| budget_limit_reached
| cancellation_committed
| completed
| contract_rejected
| deadline_reached
| execution_failed
| retries_exhausted.

#[global] Instance ReplayJobTerminalStatus_eq_dec : EqDecision ReplayJobTerminalStatus.
Proof. solve_decision. Defined.
#[global] Instance ReplayJobStatus_eq_dec : EqDecision ReplayJobStatus.
Proof. solve_decision. Defined.
#[global] Instance ReplayJobTerminalCode_eq_dec : EqDecision ReplayJobTerminalCode.
Proof. solve_decision. Defined.

(** ** Plan references and worker fences *)

Record ReplayPlanJobReference := {
  ref_definitionSha256 : string;
  ref_planId : string;
  ref_planVersionId : string;
}.

#[global] Instance ReplayPlanJobReference_eq_dec : EqDecision ReplayPlanJobReference.
Proof. solve_decision. Defined.

Definition ReplayPlanJobReferenceSchema (r : ReplayPlanJobReference) : bool :=
  Sha256Schema (ref_definitionSha256 r) && OpaqueIdSchema (ref_planId r) &&
  OpaqueIdSchema (ref_planVersionId r).

Record ReplayWorkerMutationFence := {
  fence_attemptId : string;
  fence_fencingToken : Z;
  fence_jobId : string;
  fence_leaseId : string;
  fence_recoveryEpoch : Z;
  fence_workerId : string;
}.

#[global] Instance ReplayWorkerMutationFence_eq_dec : EqDecision ReplayWorkerMutationFence.
Proof. solve_decision. Defined.

Definition ReplayWorkerMutationFenceSchema (f : ReplayWorkerMutationFence) : bool :=
  OpaqueIdSchema (fence_attemptId f) && SafePositiveIntegerSchema (fence_fencingToken f) &&
  OpaqueIdSchema (fence_jobId f) && OpaqueIdSchema (fence_leaseId f) &&
  SafeNonnegativeIntegerSchema (fence_recoveryEpoch f) && OpaqueIdSchema (fence_workerId f).

(** [sameFence] / [fencesEqual] *)
Definition sameFence (left right : ReplayWorkerMutationFence) : bool :=
  (fence_jobId left === fence_jobId right) &&
  (fence_attemptId left === fence_attemptId right) &&
  (fence_leaseId left === fence_leaseId right) &&
  (fence_workerId left === fence_workerId right) &&
  (fence_fencingToken left =? fence_fencingToken right) &&
  (fence_recoveryEpoch left =? fence_recoveryEpoch right).

(** [plansEqual] *)
Definition plansEqual (left right : ReplayPlanJobReference) : bool :=
  (ref_planId left === ref_planId right) &&
  (ref_planVersionId left === ref_planVersionId right) &&
  (ref_definitionSha256 left === ref_definitionSha256 right).

Lemma sameFence_spec f g : sameFence f g = true <-> f = g.
Proof.
  unfold sameFence. breflect. split; [|by intros ->].
  destruct f, g; simpl. intros [[[[[-> ->] ->] ->] ->] ->]. done.
Qed.

Lemma sameFence_refl f : sameFence f f = true.
Proof. by apply sameFence_spec. Qed.

Lemma plansEqual_spec p q : plansEqual p q = true <-> p = q.
Proof.
  unfold plansEqual. breflect. split; [|by intros ->].
  destruct p, q; simpl. intros [[-> ->] ->]. done.
Qed.

Lemma sameFence_false f g : sameFence f g = false <-> f <> g.
Proof. rewrite <- not_true_iff_false, sameFence_spec. done. Qed.

#[export] Hint Rewrite sameFence_spec sameFence_false plansEqual_spec : breflect.

(** ** Leases *)

Record ReplayLease := {
  lease_acquiredAt : timestamp;
  lease_attemptSequence : Z;
  lease_expiresAt : timestamp;
  lease_heartbeatAt : timestamp;
  lease_mutationFence : ReplayWorkerMutationFence;
  lease_scope : EvidenceScope;
}.

#[global] Instance ReplayLease_eq_dec : EqDecision ReplayLease.
Proof. solve_decision. Defined.

Definition refineReplayLease (value : ReplayLease) : bool :=
  negb (lease_heartbeatAt value <? lease_acquiredAt value) &&
  negb (lease_expiresAt value <=? lease_heartbeatAt value).

Definition ReplayLeaseSchema (l : ReplayLease) : bool :=
  UtcMillisecondTimestampSchema (lease_acquiredAt l) &&
  SafeNonnegativeIntegerSchema (lease_attemptSequence l) &&
  UtcMillisecondTimestampSchema (lease_expiresAt l) &&
  UtcMillisecondTimestampSchema (lease_heartbeatAt l) &&
  ReplayWorkerMutationFenceSchema (lease_mutationFence l) &&
  EvidenceScopeSchema (lease_scope l) &&
  refineReplayLease l.

(** ** Terminal records *)

Record ReplayJobTerminalRecord := {
  terminal_attemptId : option string;
  terminal_code : ReplayJobTerminalCode;
  terminal_committedAt : timestamp;
  terminal_status : ReplayJobTerminalStatus;
}.

#[global] Instance ReplayJobTerminalRecord_eq_dec : EqDecision ReplayJobTerminalRecord.
Proof. solve_decision. Defined.

Definition expectedCodeByStatus (status : ReplayJobTerminalStatus) : list ReplayJobTerminalCode :=
  match status with
  | budget_exhausted => [budget_limit_reached]
  | cancelled => [cancellation_committed]
  | failed => [contract_rejected; execution_failed; retries_exhausted]
  | succeeded => [completed]
  | timed_out => [deadline_reached]
  end.

Definition refineReplayJobTerminalRecord (value : ReplayJobTerminalRecord) : bool :=
  negb ((terminal_status value !== cancelled) && negb (defined (terminal_attemptId value))) &&
  existsb (fun code => code === terminal_code value) (expectedCodeByStatus (terminal_status value)).

Definition ReplayJobTerminalRecordSchema (t : ReplayJobTerminalRecord) : bool :=
  optional OpaqueIdSchema (terminal_attemptId t) &&
  UtcMillisecondTimestampSchema (terminal_committedAt t) &&
  refineReplayJobTerminalRecord t.

(** ** Jobs *)

Record ReplayJob := {
  job_createdAt : timestamp;
  job_createdByPrincipalId : string;
  job_currentLease : option ReplayLease;
  job_jobId : string;
  job_lastFencingToken : Z;
  job_latestAttemptSequence : option Z;
  job_plan : ReplayPlanJobReference;
  job_recoveryEpoch : Z;
  job_scope : EvidenceScope;
  job_startedAt : option timestamp;
  job_stateVersion : Z;
  job_status : ReplayJobStatus;
  job_terminal : option ReplayJobTerminalRecord;
}.

#[global] Instance ReplayJob_eq_dec : EqDecision ReplayJob.
Proof. solve_decision. Defined.

(** No lease, attempt or start has been recorded. *)
Definition no_execution_state (value : ReplayJob) : bool :=
  (job_lastFencingToken value =? 0) && negb (defined (job_currentLease value)) &&
  negb (defined (job_latestAttemptSequence value)) && negb (defined (job_startedAt value)).

Definition refine_queued_job (value : ReplayJob) : bool :=
  no_execution_state value && negb (defined (job_terminal value)).

Definition refine_queued_cancellation (value : ReplayJob) (terminal : ReplayJobTerminalRecord) :=
  no_execution_state value && (terminal_status terminal === cancelled) &&
  negb (terminal_committedAt terminal <? job_createdAt value).

Definition refine_running_job (value : ReplayJob) : bool :=
  match job_currentLease value with
  | Some lease =>
      let fence := lease_mutationFence lease in
      negb (defined (job_terminal value)) &&
      (fence_jobId fence === job_jobId value) &&
      (fence_fencingToken fence =? job_lastFencingToken value) &&
      (fence_recoveryEpoch fence =? job_recoveryEpoch value) &&
      (Some (lease_attemptSequence lease) === job_latestAttemptSequence value) &&
      sameScope (lease_scope lease) (job_scope value)
  | None => false
  end.

Definition refine_terminal_job (value : ReplayJob) : bool :=
  match job_terminal value with
  | Some terminal =>
      negb (defined (job_currentLease value)) &&
      (ended (terminal_status terminal) === job_status value) &&
      negb (terminal_committedAt terminal <? default (job_createdAt value) (job_startedAt value))
  | None => false
  end.

(** What [refineReplayJob] asks of every job an attempt was started for. *)
Definition refine_started_job (value : ReplayJob) : bool :=
  defined (job_startedAt value) && defined (job_latestAttemptSequence value) &&
  negb (job_lastFencingToken value =? 0) &&
  match job_startedAt value with
  | Some startedAt => negb (startedAt <? job_createdAt value)
  | None => true
  end.

Definition refineReplayJob (value : ReplayJob) : bool :=
  match job_status value with
  | queued => refine_queued_job value
  | running => refine_started_job value && refine_running_job value
  | ended status =>
      match job_terminal value with
      | Some terminal =>
          if (status === cancelled) && negb (defined (terminal_attemptId terminal))
          then refine_queued_cancellation value terminal
          else refine_started_job value && refine_terminal_job value
      | None => refine_started_job value && refine_terminal_job value
      end
  end.

Definition ReplayJobSchema (j : ReplayJob) : bool :=
  UtcMillisecondTimestampSchema (job_createdAt j) &&
  OpaqueIdSchema (job_createdByPrincipalId j) &&
  optional ReplayLeaseSchema (job_currentLease j) &&
  OpaqueIdSchema (job_jobId j) &&
  SafeNonnegativeIntegerSchema (job_lastFencingToken j) &&
  optional SafeNonnegativeIntegerSchema (job_latestAttemptSequence j) &&
  ReplayPlanJobReferenceSchema (job_plan j) &&
  SafeNonnegativeIntegerSchema (job_recoveryEpoch j) &&
  EvidenceScopeSchema (job_scope j) &&
  optional UtcMillisecondTimestampSchema (job_startedAt j) &&
  SafePositiveIntegerSchema (job_stateVersion j) &&
  optional ReplayJobTerminalRecordSchema (job_terminal j) &&
  refineReplayJob j.

Record CreateReplayJobRequest := {
  create_jobId : string;
  create_plan : ReplayPlanJobReference;
}.

Definition CreateReplayJobRequestSchema (r : CreateReplayJobRequest) : bool :=
  OpaqueIdSchema (create_jobId r) && ReplayPlanJobReferenceSchema (create_plan r).

(** ** Attempts *)

(** An attempt status is [running], [lease_expired] or a terminal status. *)
Inductive ReplayAttemptStatus : Type :=
| attempt_running
| attempt_lease_expired
| attempt_ended (status : ReplayJobTerminalStatus).

Inductive ReplayEffectCertainty : Type := confirmed | may_have_occurred | no_effect.

Inductive ReplayEffectRetrySafety : Type :=
| not_retryable_effect
| read_only_effect (evidenceSha256 : string)
| destination_idempotency_verified (evidenceSha256 idempotencyKeySha256 : string).

Inductive ReplayAttemptErrorCode : Type :=
| error_accounting_violation
| error_authority_denied
| error_boundary_rate_limited
| error_boundary_temporarily_unavailable
| error_budget_exhausted
| error_cancelled
| error_contract_mismatch
| error_credential_unavailable
| error_deadline_exceeded
| error_effect_uncertain
| error_fixture_unavailable
| error_isolation_failed
| error_lease_expired
| error_target_content_unavailable
| error_target_process_interrupted
| error_target_temporary_failure
| error_worker_internal_error.

Inductive ReplayAttemptRetryDisposition : Type :=
| not_retryable | retry_eligible | retry_scheduled.

#[global] Instance ReplayAttemptStatus_eq_dec : EqDecision ReplayAttemptStatus.
Proof. solve_decision. Defined.
#[global] Instance ReplayEffectCertainty_eq_dec : EqDecision ReplayEffectCertainty.
Proof. solve_decision. Defined.
#[global] Instance ReplayEffectRetrySafety_eq_dec : EqDecision ReplayEffectRetrySafety.
Proof. solve_decision. Defined.
#[global] Instance ReplayAttemptErrorCode_eq_dec : EqDecision ReplayAttemptErrorCode.
Proof. solve_decision. Defined.
#[global] Instance ReplayAttemptRetryDisposition_eq_dec : EqDecision ReplayAttemptRetryDisposition.
Proof. solve_decision. Defined.

(** [Pick<ReplayAttemptError, "effectCertainty" | "effectRetrySafety">] *)
Record ReplayEffect := {
  effectCertainty : ReplayEffectCertainty;
  effectRetrySafety : option ReplayEffectRetrySafety;
}.

Record ReplayAttemptError := {
  error_code : ReplayAttemptErrorCode;
  error_detailsSha256 : option string;
  error_effect : ReplayEffect;
  error_message : text;
}.

Definition ReplayEffectRetrySafetySchema (s : ReplayEffectRetrySafety) : bool :=
  match s with
  | not_retryable_effect => true
  | read_only_effect evidence => Sha256Schema evidence
  | destination_idempotency_verified evidence key => Sha256Schema evidence && Sha256Schema key
  end.

Definition refineReplayAttemptError (value : ReplayAttemptError) : bool :=
  let effect := error_effect value in
  negb (Bool.eqb (effectCertainty effect === no_effect) (defined (effectRetrySafety effect))).

Definition ReplayAttemptErrorSchema (e : ReplayAttemptError) : bool :=
  optional Sha256Schema (error_detailsSha256 e) &&
  optional ReplayEffectRetrySafetySchema (effectRetrySafety (error_effect e)) &&
  canonicalHumanText MAX_REPLAY_ATTEMPT_ERROR_MESSAGE_CHARACTERS (error_message e) &&
  refineReplayAttemptError e.

Record ReplayAttempt := {
  attempt_attemptId : string;
  attempt_attemptSequence : Z;
  attempt_endedAt : option timestamp;
  attempt_error : option ReplayAttemptError;
  attempt_isolationProfile : ReplayIsolationProfileReference;
  attempt_jobId : string;
  attempt_mutationFence : ReplayWorkerMutationFence;
  attempt_plan : ReplayPlanJobReference;
  attempt_result : option ArtifactContentReference;
  attempt_retryDisposition : option ReplayAttemptRetryDisposition;
  attempt_runtimeProfile : ReplayRuntimeProfileReference;
  attempt_scope : EvidenceScope;
  attempt_startedAt : timestamp;
  attempt_status : ReplayAttemptStatus;
  attempt_targetRelease : TargetReleaseReference;
  attempt_workerBuildSha256 : string;
  attempt_workerProtocol : WorkerProtocolReference;
}.

Definition requiredErrorCodes (status : ReplayAttemptStatus) : list ReplayAttemptErrorCode :=
  match status with
  | attempt_ended budget_exhausted => [error_accounting_violation; error_budget_exhausted]
  | attempt_ended cancelled => [error_cancelled]
  | attempt_ended failed =>
      [error_authority_denied; error_boundary_rate_limited;
       error_boundary_temporarily_unavailable; error_contract_mismatch;
       error_credential_unavailable; error_effect_uncertain; error_fixture_unavailable;
       error_isolation_failed; error_target_content_unavailable;
       error_target_process_interrupted; error_target_temporary_failure;
       error_worker_internal_error]
  | attempt_lease_expired => [error_lease_expired]
  | attempt_ended timed_out => [error_deadline_exceeded]
  | attempt_running | attempt_ended succeeded => []
  end.

Definition retryableErrorCodes : list ReplayAttemptErrorCode :=
  [error_boundary_rate_limited; error_boundary_temporarily_unavailable;
   error_target_process_interrupted; error_target_temporary_failure].

(** The identity constraints every attempt satisfies. *)
Definition refine_attempt_identity (value : ReplayAttempt) : bool :=
  let fence := attempt_mutationFence value in
  let target := target_workerProtocol (attempt_targetRelease value) in
  let protocol := attempt_workerProtocol value in
  (fence_attemptId fence === attempt_attemptId value) &&
  (fence_jobId fence === attempt_jobId value) &&
  (protocol_name target === protocol_name protocol) &&
  (protocol_version target === protocol_version protocol).

Definition refine_running_attempt (value : ReplayAttempt) : bool :=
  negb (defined (attempt_endedAt value)) && negb (defined (attempt_error value)) &&
  negb (defined (attempt_result value)) && negb (defined (attempt_retryDisposition value)).

Definition refine_ended_attempt (value : ReplayAttempt) : bool :=
  defined (attempt_endedAt value) && defined (attempt_retryDisposition value) &&
  match attempt_endedAt value with
  | Some endedAt => negb (endedAt <? attempt_startedAt value)
  | None => true
  end.

Definition refine_successful_attempt (value : ReplayAttempt) : bool :=
  defined (attempt_result value) && negb (defined (attempt_error value)) &&
  (attempt_retryDisposition value === Some not_retryable).

(** [retryDisposition !== undefined && retryDisposition !== "not_retryable"] *)
Definition retries (value : ReplayAttempt) : bool :=
  match attempt_retryDisposition value with
  | None | Some not_retryable => false
  | Some _ => true
  end.

Definition refine_unsuccessful_attempt (value : ReplayAttempt) : bool :=
  let status := attempt_status value in
  defined (attempt_error value) && negb (defined (attempt_result value)) &&
  match attempt_error value with
  | Some error => includes (requiredErrorCodes status) (error_code error)
  | None => true
  end &&
  negb ((match attempt_error value with
         | Some error => effectRetrySafety (error_effect error) === Some not_retryable_effect
         | None => false
         end) && (attempt_retryDisposition value !== Some not_retryable)) &&
  negb (retries value && (status !== attempt_lease_expired) &&
        (match attempt_error value with
         | None => true
         | Some error => negb (includes retryableErrorCodes (error_code error))
         end)) &&
  negb (includes [attempt_ended budget_exhausted; attempt_ended cancelled;
                  attempt_ended timed_out] status && retries value) &&
  negb ((status === attempt_lease_expired) &&
        (attempt_retryDisposition value === Some retry_eligible)).

Definition refineReplayAttempt (value : ReplayAttempt) : bool :=
  refine_attempt_identity value &&
  match attempt_status value with
  | attempt_running => refine_running_attempt value
  | attempt_ended succeeded => refine_ended_attempt value && refine_successful_attempt value
  | _ => refine_ended_attempt value && refine_unsuccessful_attempt value
  end.

Definition ReplayAttemptSchema (a : ReplayAttempt) : bool :=
  OpaqueIdSchema (attempt_attemptId a) &&
  SafeNonnegativeIntegerSchema (attempt_attemptSequence a) &&
  optional UtcMillisecondTimestampSchema (attempt_endedAt a) &&
  optional ReplayAttemptErrorSchema (attempt_error a) &&
  ReplayIsolationProfileReferenceSchema (attempt_isolationProfile a) &&
  OpaqueIdSchema (attempt_jobId a) &&
  ReplayWorkerMutationFenceSchema (attempt_mutationFence a) &&
  ReplayPlanJobReferenceSchema (attempt_plan a) &&
  optional ArtifactContentReferenceSchema (attempt_result a) &&
  ReplayRuntimeProfileReferenceSchema (attempt_runtimeProfile a) &&
  EvidenceScopeSchema (attempt_scope a) &&
  UtcMillisecondTimestampSchema (attempt_startedAt a) &&
  TargetReleaseReferenceSchema (attempt_targetRelease a) &&
  Sha256Schema (attempt_workerBuildSha256 a) &&
  WorkerProtocolReferenceSchema (attempt_workerProtocol a) &&
  refineReplayAttempt a.

(** ** Cancellation *)

Inductive ReplayCancellationReasonCode : Type :=
| operator_request | policy_intervention | safety_intervention | superseded.

#[global] Instance ReplayCancellationReasonCode_eq_dec : EqDecision ReplayCancellationReasonCode.
Proof. solve_decision. Defined.

Record RequestReplayCancellation := {
  request_cancellationId : string;
  request_reason : text;
  request_reasonCode : ReplayCancellationReasonCode;
}.

Record ReplayCancellationRequest := {
  cancellation_cancellationId : string;
  cancellation_jobId : string;
  cancellation_reason : text;
  cancellation_reasonCode : ReplayCancellationReasonCode;
  cancellation_requestedAt : timestamp;
  cancellation_requestedByPrincipalId : string;
  cancellation_scope : EvidenceScope;
}.

Inductive ReplayCancellationAction : Type :=
| observed_after_uninterruptible_completion | stop_requested | stopped_before_target_start.

#[global] Instance ReplayCancellationAction_eq_dec : EqDecision ReplayCancellationAction.
Proof. solve_decision. Defined.

Record ReplayCancellationAcknowledgement := {
  ack_acknowledgedAt : timestamp;
  ack_acknowledgementId : string;
  ack_action : ReplayCancellationAction;
  ack_cancellationId : string;
  ack_mutationFence : ReplayWorkerMutationFence;
  ack_scope : EvidenceScope;
}.

#[global] Instance ReplayCancellationRequest_eq_dec : EqDecision ReplayCancellationRequest.
Proof. solve_decision. Defined.
#[global] Instance ReplayCancellationAcknowledgement_eq_dec :
  EqDecision ReplayCancellationAcknowledgement.
Proof. solve_decision. Defined.

Definition RequestReplayCancellationSchema (r : RequestReplayCancellation) : bool :=
  OpaqueIdSchema (request_cancellationId r) &&
  canonicalHumanText MAX_REPLAY_CANCELLATION_REASON_CHARACTERS (request_reason r).

Definition ReplayCancellationRequestSchema (r : ReplayCancellationRequest) : bool :=
  OpaqueIdSchema (cancellation_cancellationId r) && OpaqueIdSchema (cancellation_jobId r) &&
  canonicalHumanText MAX_REPLAY_CANCELLATION_REASON_CHARACTERS (cancellation_reason r) &&
  UtcMillisecondTimestampSchema (cancellation_requestedAt r) &&
  OpaqueIdSchema (cancellation_requestedByPrincipalId r) &&
  EvidenceScopeSchema (cancellation_scope r).

Definition ReplayCancellationAcknowledgementSchema (a : ReplayCancellationAcknowledgement) : bool :=
  UtcMillisecondTimestampSchema (ack_acknowledgedAt a) &&
  OpaqueIdSchema (ack_acknowledgementId a) && OpaqueIdSchema (ack_cancellationId a) &&
  ReplayWorkerMutationFenceSchema (ack_mutationFence a) && EvidenceScopeSchema (ack_scope a).
