(* ===== verification/ReplayJobState.v ===== *)
(** * Durable replay job transitions

    [packages/replay/src/replay-job-state.ts]: the pure transition functions
    of one durable replay job.  A worker owns a running job through a lease;
    every mutation it makes carries the lease's fence, and a claim after expiry
    moves the fencing token forward, which is what makes a stale worker's
    mutations detectable.  The functions validate their inputs and outputs
    against the contract schemas exactly where the source does, and return the
    exception the source throws. *)

From S2P Require Import Prelude Errors Primitives ReplayPlan ReplayJob.

Definition MAX_COUNTER : Z := MAX_SAFE_INTEGER.
Definition MAX_LEASE_DURATION_MILLISECONDS : Z := 24 * 60 * 60 * 1000.

(** ** Options *)

Record CreateQueuedReplayJobOptions := {
  queued_createdAt : timestamp;
  queued_createdByPrincipalId : string;
  queued_request : CreateReplayJobRequest;
  queued_scope : EvidenceScope;
}.

Record ClaimReplayJobOptions := {
  claim_attemptId : string;
  claim_currentAttempt : option ReplayAttempt;
  claim_expiredEffect : option ReplayEffect;
  claim_isolationProfile : ReplayIsolationProfileReference;
  claim_leaseDurationMilliseconds : Z;
  claim_leaseId : string;
  claim_maxAttempts : Z;
  claim_now : timestamp;
  claim_runtimeProfile : ReplayRuntimeProfileReference;
  claim_targetRelease : TargetReleaseReference;
  claim_workerBuildSha256 : string;
  claim_workerId : string;
  claim_workerProtocol : WorkerProtocolReference;
}.

Record ClaimReplayJobResult := {
  claimed_attempt : ReplayAttempt;
  claimed_expiredAttempt : option ReplayAttempt;
  claimed_job : ReplayJob;
  claimed_lease : ReplayLease;
}.

Record CompleteReplayAttemptOptions := {
  complete_cancellationRequested : bool;
  complete_code : ReplayJobTerminalCode;
  complete_error : option ReplayAttemptError;
  complete_now : timestamp;
  complete_result : option ArtifactContentReference;
  complete_status : ReplayJobTerminalStatus;
}.

Record CloseExpiredReplayAttemptOptions := {
  close_effect : ReplayEffect;
  close_now : timestamp;
  close_code : ReplayJobTerminalCode;
  close_status : ReplayJobTerminalStatus;
}.

Record RequestReplayCancellationOptions := {
  cancel_existing : option ReplayCancellationRequest;
  cancel_input : RequestReplayCancellation;
  cancel_now : timestamp;
  cancel_requestedByPrincipalId : string;
}.

Record RequestReplayCancellationResult := {
  cancel_created : bool;
  cancel_job : ReplayJob;
  cancel_request : ReplayCancellationRequest;
}.

(** ** Helpers *)

Definition canonicalTime (value : timestamp) : res timestamp :=
  parse UtcMillisecondTimestampSchema value.

Definition assertLeaseDuration (value : Z) : res unit :=
  reject_when
    (negb (isSafeInteger value) || (value <? 1) || (MAX_LEASE_DURATION_MILLISECONDS <? value))
    (DurableReplayStateError invalid_lease_duration).

Definition addMilliseconds (value : timestamp) (duration : Z) : res timestamp :=
  parse UtcMillisecondTimestampSchema (js_add value duration).

Definition nextCounter (value : Z) : res Z :=
  if MAX_COUNTER <=? value then state_error counter_exhausted else Ok (value + 1).

(** [ReplayLeaseSchema.parse(job.currentLease)] *)
Definition parse_current_lease (job : ReplayJob) : res ReplayLease :=
  match job_currentLease job with
  | Some lease => parse ReplayLeaseSchema lease
  | None => Throw ZodError
  end.

Definition assertCurrentFence (job : ReplayJob) (fence : ReplayWorkerMutationFence)
    (now : timestamp) : res ReplayLease :=
  reject_when (job_status job !== running) (DurableReplayStateError state_conflict) ;;
  currentLease ← parse_current_lease job;
  reject_when (negb (sameFence (lease_mutationFence currentLease) fence))
    (DurableReplayStateError stale_fence) ;;
  reject_when (lease_expiresAt currentLease <=? now)
    (DurableReplayStateError lease_expired) ;;
  Ok currentLease.

Definition assertReplayWorkerMutationFence (jobInput : ReplayJob)
    (fence : ReplayWorkerMutationFence) (nowInput : timestamp) : res ReplayLease :=
  job ← parse ReplayJobSchema jobInput;
  now ← canonicalTime nowInput;
  lease ← assertCurrentFence job fence now;
  parse ReplayLeaseSchema lease.

(** The guard of [assertCurrentAttempt] on the attempt it is given. *)
Definition owns_attempt (job : ReplayJob) (lease : ReplayLease) (attempt : ReplayAttempt) : bool :=
  (attempt_status attempt === attempt_running) &&
  sameFence (attempt_mutationFence attempt) (lease_mutationFence lease) &&
  sameScope (attempt_scope attempt) (job_scope job) &&
  (attempt_attemptSequence attempt =? lease_attemptSequence lease).

Definition assertCurrentAttempt (job : ReplayJob) (attempt : option ReplayAttempt) :
    res ReplayAttempt :=
  currentLease ← parse_current_lease job;
  match attempt with
  | Some attempt =>
      if owns_attempt job currentLease attempt then Ok attempt
      else state_error invalid_attempt_state
  | None => state_error invalid_attempt_state
  end.

(** ** Object spreads: [{...job, ...}], [{...attempt, ...}], [{...lease, ...}] *)

Definition job_with_lease (job : ReplayJob) (lease : ReplayLease) (fencingToken : Z)
    (attemptSequence : option Z) (startedAt : option timestamp) (stateVersion : Z) : ReplayJob := {|
  job_createdAt := job_createdAt job;
  job_createdByPrincipalId := job_createdByPrincipalId job;
  job_currentLease := Some lease;
  job_jobId := job_jobId job;
  job_lastFencingToken := fencingToken;
  job_latestAttemptSequence := attemptSequence;
  job_plan := job_plan job;
  job_recoveryEpoch := job_recoveryEpoch job;
  job_scope := job_scope job;
  job_startedAt := startedAt;
  job_stateVersion := stateVersion;
  job_status := running;
  job_terminal := job_terminal job
|}.

Definition job_with_terminal (job : ReplayJob) (stateVersion : Z)
    (terminal : ReplayJobTerminalRecord) : ReplayJob := {|
  job_createdAt := job_createdAt job;
  job_createdByPrincipalId := job_createdByPrincipalId job;
  job_currentLease := None;
  job_jobId := job_jobId job;
  job_lastFencingToken := job_lastFencingToken job;
  job_latestAttemptSequence := job_latestAttemptSequence job;
  job_plan := job_plan job;
  job_recoveryEpoch := job_recoveryEpoch job;
  job_scope := job_scope job;
  job_startedAt := job_startedAt job;
  job_stateVersion := stateVersion;
  job_status := ended (terminal_status terminal);
  job_terminal := Some terminal
|}.

Definition attempt_with_outcome (attempt : ReplayAttempt) (endedAt : timestamp)
    (error : option ReplayAttemptError) (result : option ArtifactContentReference)
    (retryDisposition : ReplayAttemptRetryDisposition) (status : ReplayAttemptStatus) :
    ReplayAttempt := {|
  attempt_attemptId := attempt_attemptId attempt;
  attempt_attemptSequence := attempt_attemptSequence attempt;
  attempt_endedAt := Some endedAt;
  attempt_error := match error with Some _ => error | None => attempt_error attempt end;
  attempt_isolationProfile := attempt_isolationProfile attempt;
  attempt_jobId := attempt_jobId attempt;
  attempt_mutationFence := attempt_mutationFence attempt;
  attempt_plan := attempt_plan attempt;
  attempt_result := match result with Some _ => result | None => attempt_result attempt end;
  attempt_retryDisposition := Some retryDisposition;
  attempt_runtimeProfile := attempt_runtimeProfile attempt;
  attempt_scope := attempt_scope attempt;
  attempt_startedAt := attempt_startedAt attempt;
  attempt_status := status;
  attempt_targetRelease := attempt_targetRelease attempt;
  attempt_workerBuildSha256 := attempt_workerBuildSha256 attempt;
  attempt_workerProtocol := attempt_workerProtocol attempt
|}.

Definition lease_with_heartbeat (lease : ReplayLease) (expiresAt heartbeatAt : timestamp) :
    ReplayLease := {|
  lease_acquiredAt := lease_acquiredAt lease;
  lease_attemptSequence := lease_attemptSequence lease;
  lease_expiresAt := expiresAt;
  lease_heartbeatAt := heartbeatAt;
  lease_mutationFence := lease_mutationFence lease;
  lease_scope := lease_scope lease
|}.

Definition lease_expired_error (effect : ReplayEffect) : ReplayAttemptError := {|
  error_code := error_lease_expired;
  error_detailsSha256 := None;
  error_effect := effect;
  error_message := text_of "The worker lease expired before a terminal attempt commit."
|}.

(** ** Transitions *)

Definition createQueuedReplayJob (options : CreateQueuedReplayJobOptions) : res ReplayJob :=
  request ← parse CreateReplayJobRequestSchema (queued_request options);
  createdAt ← canonicalTime (queued_createdAt options);
  parse ReplayJobSchema {|
    job_createdAt := createdAt;
    job_createdByPrincipalId := queued_createdByPrincipalId options;
    job_currentLease := None;
    job_jobId := create_jobId request;
    job_lastFencingToken := 0;
    job_latestAttemptSequence := None;
    job_plan := create_plan request;
    job_recoveryEpoch := 0;
    job_scope := queued_scope options;
    job_startedAt := None;
    job_stateVersion := 1;
    job_status := queued;
    job_terminal := None
  |}.

(** The status and expiry guards at the head of [claimReplayJob]. *)
Definition assert_claimable (job : ReplayJob) (now : timestamp) : res unit :=
  match job_status job with
  | queued => Ok tt
  | running =>
      currentLease ← parse_current_lease job;
      reject_when (now <? lease_expiresAt currentLease) (DurableReplayStateError lease_active)
  | ended _ => state_error state_conflict
  end.

(** [expiredEffect.effectRetrySafety?.kind] allows another attempt. *)
Definition retry_safe (effect : ReplayEffect) : bool :=
  (effectCertainty effect === no_effect) ||
  match effectRetrySafety effect with
  | Some (read_only_effect _) | Some (destination_idempotency_verified _ _) => true
  | Some not_retryable_effect | None => false
  end.

(** The attempt a claim replaces, closed as expired at [now]. *)
Definition expire_current_attempt (job : ReplayJob) (options : ClaimReplayJobOptions)
    (now : timestamp) : res (option ReplayAttempt) :=
  if job_status job === running then
    currentAttempt ← assertCurrentAttempt job (claim_currentAttempt options);
    match claim_expiredEffect options with
    | Some expiredEffect =>
        reject_when (negb (retry_safe expiredEffect)) (DurableReplayStateError effect_uncertain) ;;
        expiredAttempt ← parse ReplayAttemptSchema
          (attempt_with_outcome currentAttempt now (Some (lease_expired_error expiredEffect))
             None retry_scheduled attempt_lease_expired);
        Ok (Some expiredAttempt)
    | None => state_error effect_uncertain
    end
  else
    reject_when (defined (claim_currentAttempt options))
      (DurableReplayStateError invalid_attempt_state) ;;
    Ok None.

Definition claimReplayJob (jobInput : ReplayJob) (options : ClaimReplayJobOptions) :
    res ClaimReplayJobResult :=
  job ← parse ReplayJobSchema jobInput;
  now ← canonicalTime (claim_now options);
  assertLeaseDuration (claim_leaseDurationMilliseconds options) ;;
  reject_when (negb (isSafeInteger (claim_maxAttempts options)) || (claim_maxAttempts options <? 1))
    (DurableReplayStateError attempt_limit_reached) ;;
  assert_claimable job now ;;
  attemptSequence ← nextCounter (default (-1) (job_latestAttemptSequence job));
  reject_when (claim_maxAttempts options <=? attemptSequence)
    (DurableReplayStateError attempt_limit_reached) ;;
  fencingToken ← nextCounter (job_lastFencingToken job);
  stateVersion ← nextCounter (job_stateVersion job);
  let mutationFence := {|
    fence_attemptId := claim_attemptId options;
    fence_fencingToken := fencingToken;
    fence_jobId := job_jobId job;
    fence_leaseId := claim_leaseId options;
    fence_recoveryEpoch := job_recoveryEpoch job;
    fence_workerId := claim_workerId options
  |} in
  expiresAt ← addMilliseconds now (claim_leaseDurationMilliseconds options);
  lease ← parse ReplayLeaseSchema {|
    lease_acquiredAt := now;
    lease_attemptSequence := attemptSequence;
    lease_expiresAt := expiresAt;
    lease_heartbeatAt := now;
    lease_mutationFence := mutationFence;
    lease_scope := job_scope job
  |};
  attempt ← parse ReplayAttemptSchema {|
    attempt_attemptId := claim_attemptId options;
    attempt_attemptSequence := attemptSequence;
    attempt_endedAt := None;
    attempt_error := None;
    attempt_isolationProfile := claim_isolationProfile options;
    attempt_jobId := job_jobId job;
    attempt_mutationFence := mutationFence;
    attempt_plan := job_plan job;
    attempt_result := None;
    attempt_retryDisposition := None;
    attempt_runtimeProfile := claim_runtimeProfile options;
    attempt_scope := job_scope job;
    attempt_startedAt := now;
    attempt_status := attempt_running;
    attempt_targetRelease := claim_targetRelease options;
    attempt_workerBuildSha256 := claim_workerBuildSha256 options;
    attempt_workerProtocol := claim_workerProtocol options
  |};
  expiredAttempt ← expire_current_attempt job options now;
  claimedJob ← parse ReplayJobSchema
    (job_with_lease job lease fencingToken (Some attemptSequence)
       (Some (default now (job_startedAt job))) stateVersion);
  Ok {|
    claimed_attempt := attempt;
    claimed_expiredAttempt := expiredAttempt;
    claimed_job := claimedJob;
    claimed_lease := lease
  |}.

Definition heartbeatReplayJob (jobInput : ReplayJob) (fence : ReplayWorkerMutationFence)
    (nowInput : timestamp) (leaseDurationMilliseconds : Z) : res ReplayJob :=
  job ← parse ReplayJobSchema jobInput;
  now ← canonicalTime nowInput;
  assertLeaseDuration leaseDurationMilliseconds ;;
  currentLease ← assertCurrentFence job fence now;
  expiresAt ← addMilliseconds now leaseDurationMilliseconds;
  lease ← parse ReplayLeaseSchema (lease_with_heartbeat currentLease expiresAt now);
  stateVersion ← nextCounter (job_stateVersion job);
  parse ReplayJobSchema
    (job_with_lease job lease (job_lastFencingToken job) (job_latestAttemptSequence job)
       (job_startedAt job) stateVersion).

Definition closeExpiredReplayAttempt (jobInput : ReplayJob) (attemptInput : ReplayAttempt)
    (options : CloseExpiredReplayAttemptOptions) : res (ReplayAttempt * ReplayJob) :=
  job ← parse ReplayJobSchema jobInput;
  attempt ← parse ReplayAttemptSchema attemptInput;
  now ← canonicalTime (close_now options);
  reject_when (job_status job !== running) (DurableReplayStateError state_conflict) ;;
  lease ← parse_current_lease job;
  assertCurrentAttempt job (Some attempt) ;;
  reject_when (now <? lease_expiresAt lease) (DurableReplayStateError lease_active) ;;
  expiredAttempt ← parse ReplayAttemptSchema
    (attempt_with_outcome attempt (lease_expiresAt lease)
       (Some (lease_expired_error (close_effect options))) None
       not_retryable attempt_lease_expired);
  stateVersion ← nextCounter (job_stateVersion job);
  terminalJob ← parse ReplayJobSchema (job_with_terminal job stateVersion {|
    terminal_attemptId := Some (attempt_attemptId attempt);
    terminal_code := close_code options;
    terminal_committedAt := now;
    terminal_status := close_status options
  |});
  Ok (expiredAttempt, terminalJob).

Definition completeReplayAttempt (jobInput : ReplayJob) (attemptInput : ReplayAttempt)
    (fence : ReplayWorkerMutationFence) (options : CompleteReplayAttemptOptions) :
    res (ReplayAttempt * ReplayJob) :=
  job ← parse ReplayJobSchema jobInput;
  attempt ← parse ReplayAttemptSchema attemptInput;
  now ← canonicalTime (complete_now options);
  assertCurrentFence job fence now ;;
  assertCurrentAttempt job (Some attempt) ;;
  reject_when (complete_cancellationRequested options && (complete_status options !== cancelled))
    (DurableReplayStateError cancellation_required) ;;
  completedAttempt ← parse ReplayAttemptSchema
    (attempt_with_outcome attempt now (complete_error options) (complete_result options)
       not_retryable (attempt_ended (complete_status options)));
  stateVersion ← nextCounter (job_stateVersion job);
  completedJob ← parse ReplayJobSchema (job_with_terminal job stateVersion {|
    terminal_attemptId := Some (attempt_attemptId attempt);
    terminal_code := complete_code options;
    terminal_committedAt := now;
    terminal_status := complete_status options
  |});
  Ok (completedAttempt, completedJob).

Definition requestReplayCancellation (jobInput : ReplayJob)
    (options : RequestReplayCancellationOptions) : res RequestReplayCancellationResult :=
  job ← parse ReplayJobSchema jobInput;
  input ← parse RequestReplayCancellationSchema (cancel_input options);
  now ← canonicalTime (cancel_now options);
  match cancel_existing options with
  | Some existingInput =>
      existing ← parse ReplayCancellationRequestSchema existingInput;
      reject_when
        ((cancellation_jobId existing !== job_jobId job) ||
         negb (sameScope (cancellation_scope existing) (job_scope job)) ||
         (cancellation_cancellationId existing !== request_cancellationId input) ||
         (cancellation_reasonCode existing !== request_reasonCode input) ||
         (cancellation_reason existing !== request_reason input))
        (DurableReplayStateError cancellation_conflict) ;;
      Ok {| cancel_created := false; cancel_job := job; cancel_request := existing |}
  | None =>
      reject_when ((job_status job !== queued) && (job_status job !== running))
        (DurableReplayStateError state_conflict) ;;
      request ← parse ReplayCancellationRequestSchema {|
        cancellation_cancellationId := request_cancellationId input;
        cancellation_jobId := job_jobId job;
        cancellation_reason := request_reason input;
        cancellation_reasonCode := request_reasonCode input;
        cancellation_requestedAt := now;
        cancellation_requestedByPrincipalId := cancel_requestedByPrincipalId options;
        cancellation_scope := job_scope job
      |};
      if job_status job === running then
        Ok {| cancel_created := true; cancel_job := job; cancel_request := request |}
      else
        stateVersion ← nextCounter (job_stateVersion job);
        cancelledJob ← parse ReplayJobSchema (job_with_terminal job stateVersion {|
          terminal_attemptId := None;
          terminal_code := cancellation_committed;
          terminal_committedAt := now;
          terminal_status := cancelled
        |});
        Ok {| cancel_created := true; cancel_job := cancelledJob; cancel_request := request |}
  end.

Definition acknowledgeReplayCancellation (jobInput : ReplayJob)
    (requestInput : ReplayCancellationRequest) (fence : ReplayWorkerMutationFence)
    (acknowledgementId : string) (action : ReplayCancellationAction) (nowInput : timestamp) :
    res ReplayCancellationAcknowledgement :=
  job ← parse ReplayJobSchema jobInput;
  request ← parse ReplayCancellationRequestSchema requestInput;
  now ← canonicalTime nowInput;
  assertCurrentFence job fence now ;;
  reject_when
    ((cancellation_jobId request !== job_jobId job) ||
     negb (sameScope (cancellation_scope request) (job_scope job)) ||
     (now <? cancellation_requestedAt request))
    (DurableReplayStateError cancellation_conflict) ;;
  parse ReplayCancellationAcknowledgementSchema {|
    ack_acknowledgedAt := now;
    ack_acknowledgementId := acknowledgementId;
    ack_action := action;
    ack_cancellationId := cancellation_cancellationId request;
    ack_mutationFence := fence;
    ack_scope := job_scope job
  |}.
