(* ===== verification/ReplayJobStateProofs.v ===== *)
(** * Durable replay job transitions: proofs *)

From S2P Require Import Prelude Errors Primitives ReplayPlan ReplayJob ReplayJobState.
From Stdlib Require Import Sorting.Sorted.

(** ** What validity gives *)

(** A valid running job owns exactly one lease, whose fence carries the job's
    last fencing token. *)
Record running_with (job : ReplayJob) (lease : ReplayLease) : Prop := {
  rw_lease : job_currentLease job = Some lease;
  rw_lease_valid : ReplayLeaseSchema lease = true;
  rw_terminal : job_terminal job = None;
  rw_jobId : fence_jobId (lease_mutationFence lease) = job_jobId job;
  rw_token : fence_fencingToken (lease_mutationFence lease) = job_lastFencingToken job;
  rw_epoch : fence_recoveryEpoch (lease_mutationFence lease) = job_recoveryEpoch job;
  rw_sequence : job_latestAttemptSequence job = Some (lease_attemptSequence lease);
  rw_scope : lease_scope lease = job_scope job;
  rw_started : exists s, job_startedAt job = Some s /\ job_createdAt job <= s;
  rw_positive : 0 < job_lastFencingToken job;
}.

Lemma valid_refined job : ReplayJobSchema job = true -> refineReplayJob job = true.
Proof. unfold ReplayJobSchema. breflect. tauto. Qed.

Lemma valid_counters job :
  ReplayJobSchema job = true ->
  0 <= job_lastFencingToken job <= MAX_SAFE_INTEGER /\
  1 <= job_stateVersion job <= MAX_SAFE_INTEGER.
Proof. unfold ReplayJobSchema. breflect. tauto. Qed.

Lemma valid_running job :
  ReplayJobSchema job = true -> job_status job = running ->
  exists lease, running_with job lease.
Proof.
  intros Hv Hs. pose proof (valid_refined _ Hv) as Hr. revert Hv Hr.
  unfold ReplayJobSchema, refineReplayJob, refine_started_job, refine_running_job. rewrite Hs.
  destruct (job_currentLease job) as [lease|] eqn:Hl; simpl; breflect; [|by intros ? [_ ?]].
  intros Hv Hr. exists lease. destruct (job_startedAt job) as [s|] eqn:Hst; breflect; [|naive_solver].
  destruct_and!. constructor; try done; eauto; lia.
Qed.

Lemma parse_current_lease_Ok job lease :
  parse_current_lease job = Ok lease <->
  job_currentLease job = Some lease /\ ReplayLeaseSchema lease = true.
Proof.
  unfold parse_current_lease. destruct (job_currentLease job); [rewrite parse_Ok|]; naive_solver.
Qed.

Lemma running_lease job lease : running_with job lease -> parse_current_lease job = Ok lease.
Proof. intros []. by apply parse_current_lease_Ok. Qed.

(** ** The helpers, as equivalences *)

Lemma canonicalTime_Ok t u :
  canonicalTime t = Ok u <-> MIN_TIMESTAMP <= t <= MAX_TIMESTAMP /\ u = t.
Proof. unfold canonicalTime. by rewrite parse_Ok, UtcMillisecondTimestampSchema_spec. Qed.

Lemma nextCounter_Ok v w : nextCounter v = Ok w <-> v < MAX_COUNTER /\ w = v + 1.
Proof.
  unfold nextCounter. destruct (Z.leb_spec MAX_COUNTER v).
  - split; [discriminate | lia].
  - split; [intros [= <-]; lia | intros [_ ->]; done].
Qed.

Lemma assertLeaseDuration_Ok v u :
  assertLeaseDuration v = Ok u <-> 1 <= v <= MAX_LEASE_DURATION_MILLISECONDS.
Proof.
  unfold assertLeaseDuration. rewrite reject_when_Ok. breflect. rewrite isSafeInteger_spec.
  unfold MAX_LEASE_DURATION_MILLISECONDS, MAX_SAFE_INTEGER. lia.
Qed.

Lemma addMilliseconds_Ok t d u :
  MIN_TIMESTAMP <= t <= MAX_TIMESTAMP -> 0 <= d <= MAX_LEASE_DURATION_MILLISECONDS ->
  addMilliseconds t d = Ok u <-> t + d <= MAX_TIMESTAMP /\ u = t + d.
Proof.
  intros Ht Hd. unfold addMilliseconds. rewrite parse_Ok, UtcMillisecondTimestampSchema_spec.
  unfold MIN_TIMESTAMP, MAX_TIMESTAMP, MAX_LEASE_DURATION_MILLISECONDS in *.
  rewrite js_add_exact by (unfold MAX_SAFE_INTEGER; lia). intuition lia.
Qed.

Lemma assertCurrentFence_Ok job f now lease :
  assertCurrentFence job f now = Ok lease <->
  job_status job = running /\ job_currentLease job = Some lease /\
  ReplayLeaseSchema lease = true /\ lease_mutationFence lease = f /\ now < lease_expiresAt lease.
Proof.
  unfold assertCurrentFence. split.
  - intros H. inv_res. rewrite parse_current_lease_Ok in *. breflect. naive_solver.
  - intros (Hs & Hl & Hv & Hf & He). rewrite Hs.
    rewrite (bind_known _ _ tt) by done. simpl.
    rewrite (bind_known _ _ lease) by (by apply parse_current_lease_Ok).
    subst f. rewrite sameFence_refl.
    rewrite !(bind_known _ _ tt) by (apply reject_known; breflect; lia). done.
Qed.

Lemma assertCurrentAttempt_Ok job o a :
  assertCurrentAttempt job o = Ok a <->
  exists lease, job_currentLease job = Some lease /\ ReplayLeaseSchema lease = true /\
    o = Some a /\ owns_attempt job lease a = true.
Proof.
  unfold assertCurrentAttempt. rewrite bind_Ok. setoid_rewrite parse_current_lease_Ok.
  split.
  - intros (lease & [Hl Hv] & H). exists lease. destruct o as [b|]; [|discriminate].
    destruct (owns_attempt job lease b) eqn:Ho; [|discriminate]. naive_solver.
  - intros (lease & Hl & Hv & -> & Ho). exists lease. split; [done|]. by rewrite Ho.
Qed.

Lemma owns_attempt_true job lease a :
  owns_attempt job lease a = true <->
  attempt_status a = attempt_running /\
  attempt_mutationFence a = lease_mutationFence lease /\ attempt_scope a = job_scope job /\
  attempt_attemptSequence a = lease_attemptSequence lease.
Proof. unfold owns_attempt. breflect. tauto. Qed.

Create Rewrite HintDb transition.

#[export] Hint Rewrite canonicalTime_Ok nextCounter_Ok assertLeaseDuration_Ok
  assertCurrentFence_Ok assertCurrentAttempt_Ok owns_attempt_true
  parse_current_lease_Ok @reject_when_Ok @parse_Ok @bind_Ok : transition.

(** ** What each transition leaves in the job *)

Definition next_sequence (job : ReplayJob) : Z := default (-1) (job_latestAttemptSequence job) + 1.

Lemma assert_claimable_Ok job now u :
  assert_claimable job now = Ok u <->
  job_status job = queued \/
  (job_status job = running /\ exists lease, job_currentLease job = Some lease /\
     ReplayLeaseSchema lease = true /\ lease_expiresAt lease <= now).
Proof.
  unfold assert_claimable. destruct (job_status job); destruct u.
  - naive_solver.
  - rewrite bind_Ok. setoid_rewrite parse_current_lease_Ok. setoid_rewrite reject_when_Ok.
    setoid_rewrite Z.ltb_ge. naive_solver.
  - unfold state_error. naive_solver.
Qed.

(** Everything a successful claim tells about its inputs and its result. *)
Record claim_success (job : ReplayJob) (o : ClaimReplayJobOptions) (r : ClaimReplayJobResult) :
    Prop := {
  cs_job : ReplayJobSchema job = true;
  cs_claimed_job : ReplayJobSchema (claimed_job r) = true;
  cs_now : MIN_TIMESTAMP <= claim_now o <= MAX_TIMESTAMP;
  cs_claimable : job_status job = queued \/
    (job_status job = running /\ exists lease, running_with job lease /\
       lease_expiresAt lease <= claim_now o);
  cs_attempts : next_sequence job < claim_maxAttempts o;
  cs_result : claimed_job r =
    job_with_lease job (claimed_lease r) (job_lastFencingToken job + 1) (Some (next_sequence job))
      (Some (default (claim_now o) (job_startedAt job))) (job_stateVersion job + 1);
  cs_lease_valid : ReplayLeaseSchema (claimed_lease r) = true;
  cs_lease : claimed_lease r = {|
    lease_acquiredAt := claim_now o;
    lease_attemptSequence := next_sequence job;
    lease_expiresAt := claim_now o + claim_leaseDurationMilliseconds o;
    lease_heartbeatAt := claim_now o;
    lease_mutationFence := {|
      fence_attemptId := claim_attemptId o;
      fence_fencingToken := job_lastFencingToken job + 1;
      fence_jobId := job_jobId job;
      fence_leaseId := claim_leaseId o;
      fence_recoveryEpoch := job_recoveryEpoch job;
      fence_workerId := claim_workerId o |};
    lease_scope := job_scope job |};
  cs_attempt_valid : ReplayAttemptSchema (claimed_attempt r) = true;
  cs_attempt : claimed_attempt r = {|
    attempt_attemptId := claim_attemptId o;
    attempt_attemptSequence := next_sequence job;
    attempt_endedAt := None;
    attempt_error := None;
    attempt_isolationProfile := claim_isolationProfile o;
    attempt_jobId := job_jobId job;
    attempt_mutationFence := lease_mutationFence (claimed_lease r);
    attempt_plan := job_plan job;
    attempt_result := None;
    attempt_retryDisposition := None;
    attempt_runtimeProfile := claim_runtimeProfile o;
    attempt_scope := job_scope job;
    attempt_startedAt := claim_now o;
    attempt_status := attempt_running;
    attempt_targetRelease := claim_targetRelease o;
    attempt_workerBuildSha256 := claim_workerBuildSha256 o;
    attempt_workerProtocol := claim_workerProtocol o |};
  cs_expired : expire_current_attempt job o (claim_now o) = Ok (claimed_expiredAttempt r);
}.

Lemma claim_success_intro job o r : claimReplayJob job o = Ok r -> claim_success job o r.
Proof.
  unfold claimReplayJob. intros H. inv_res.
  rewrite ?canonicalTime_Ok, ?nextCounter_Ok, ?assertLeaseDuration_Ok, ?assert_claimable_Ok in *.
  inv_res. rewrite addMilliseconds_Ok in * by (unfold MAX_LEASE_DURATION_MILLISECONDS in *; lia).
  inv_res. breflect. unfold next_sequence. simpl.
  match goal with Hc : job_status _ = queued \/ _ |- _ => rename Hc into Hclaim end.
  constructor; simpl; try done.
  destruct Hclaim as [|(Hs & lease & Hl & Hlv & He)]; [by left|right].
  split; [done|]. destruct (valid_running job) as [lease' Hrw]; [done..|].
  exists lease'. split; [done|]. destruct Hrw. naive_solver.
Qed.

(** ** Completeness: admissible transitions are never refused *)

(** The parts of a valid job that its successors keep. *)
Record kept_valid (job : ReplayJob) : Prop := {
  kv_createdAt : MIN_TIMESTAMP <= job_createdAt job <= MAX_TIMESTAMP;
  kv_createdBy : OpaqueIdSchema (job_createdByPrincipalId job) = true;
  kv_jobId : OpaqueIdSchema (job_jobId job) = true;
  kv_plan : ReplayPlanJobReferenceSchema (job_plan job) = true;
  kv_epoch : 0 <= job_recoveryEpoch job <= MAX_SAFE_INTEGER;
  kv_scope : EvidenceScopeSchema (job_scope job) = true;
  kv_token : 0 <= job_lastFencingToken job <= MAX_SAFE_INTEGER;
  kv_version : 1 <= job_stateVersion job <= MAX_SAFE_INTEGER;
  kv_sequence : optional SafeNonnegativeIntegerSchema (job_latestAttemptSequence job) = true;
  kv_startedAt : optional UtcMillisecondTimestampSchema (job_startedAt job) = true;
}.

Lemma valid_kept job : ReplayJobSchema job = true -> kept_valid job.
Proof. unfold ReplayJobSchema. breflect. intros H. destruct_and!. by constructor. Qed.

Lemma valid_queued job :
  ReplayJobSchema job = true -> job_status job = queued ->
  job_lastFencingToken job = 0 /\ job_currentLease job = None /\
  job_latestAttemptSequence job = None /\ job_startedAt job = None /\ job_terminal job = None.
Proof.
  intros Hv Hs. apply valid_refined in Hv. revert Hv. unfold refineReplayJob. rewrite Hs.
  unfold refine_queued_job, no_execution_state. breflect. tauto.
Qed.

(** A running job is valid when its parts are and its lease is its own. *)
Lemma running_job_valid job lease token sequence started version :
  kept_valid job -> job_terminal job = None ->
  ReplayLeaseSchema lease = true ->
  fence_jobId (lease_mutationFence lease) = job_jobId job ->
  fence_fencingToken (lease_mutationFence lease) = token ->
  fence_recoveryEpoch (lease_mutationFence lease) = job_recoveryEpoch job ->
  lease_attemptSequence lease = sequence -> lease_scope lease = job_scope job ->
  1 <= token <= MAX_SAFE_INTEGER -> 0 <= sequence <= MAX_SAFE_INTEGER ->
  1 <= version <= MAX_SAFE_INTEGER ->
  job_createdAt job <= started <= MAX_TIMESTAMP ->
  ReplayJobSchema (job_with_lease job lease token (Some sequence) (Some started) version) = true.
Proof.
  intros [] Ht Hl Hj Htk He Hq Hsc ????.
  unfold ReplayJobSchema, refineReplayJob, refine_started_job, refine_running_job; simpl.
  rewrite Ht, Hl. simpl. rewrite Hsc, Hq. breflect.
  unfold MIN_TIMESTAMP in *. repeat split; eauto; try lia.
Qed.

(** A job ends validly in the status of the terminal record it commits. *)
Lemma ended_job_valid job attemptId code now status version started sequence :
  kept_valid job ->
  job_startedAt job = Some started -> job_latestAttemptSequence job = Some sequence ->
  0 < job_lastFencingToken job -> job_createdAt job <= started <= now ->
  now <= MAX_TIMESTAMP -> 1 <= version <= MAX_SAFE_INTEGER ->
  OpaqueIdSchema attemptId = true ->
  existsb (fun c => c === code) (expectedCodeByStatus status) = true ->
  ReplayJobSchema (job_with_terminal job version {|
    terminal_attemptId := Some attemptId; terminal_code := code;
    terminal_committedAt := now; terminal_status := status |}) = true.
Proof.
  intros [] Hst Hsq ????? Hcode.
  unfold ReplayJobSchema, refineReplayJob, refine_started_job, refine_terminal_job,
    ReplayJobTerminalRecordSchema, refineReplayJobTerminalRecord; simpl.
  rewrite Hst, Hsq in *. simpl in *. rewrite !andb_false_r. rewrite Hcode.
  breflect. unfold MIN_TIMESTAMP in *. repeat split; eauto; try lia.
Qed.

Definition effect_valid (effect : ReplayEffect) : bool :=
  optional ReplayEffectRetrySafetySchema (effectRetrySafety effect) &&
  negb (Bool.eqb (effectCertainty effect === no_effect) (defined (effectRetrySafety effect))).

Lemma lease_expired_message_valid :
  canonicalHumanText MAX_REPLAY_ATTEMPT_ERROR_MESSAGE_CHARACTERS
    (text_of "The worker lease expired before a terminal attempt commit.") = true.
Proof. vm_compute. reflexivity. Qed.

Lemma lease_expired_error_valid effect :
  effect_valid effect = true -> ReplayAttemptErrorSchema (lease_expired_error effect) = true.
Proof.
  unfold effect_valid, ReplayAttemptErrorSchema, refineReplayAttemptError. simpl.
  rewrite lease_expired_message_valid. breflect. tauto.
Qed.

(** A valid running attempt can be closed as expired at any later instant,
    with any retry disposition the effect allows. *)
Lemma expired_attempt_valid attempt endedAt effect disposition :
  ReplayAttemptSchema attempt = true -> attempt_status attempt = attempt_running ->
  attempt_startedAt attempt <= endedAt <= MAX_TIMESTAMP ->
  effect_valid effect = true ->
  disposition = not_retryable \/ (disposition = retry_scheduled /\ retry_safe effect = true) ->
  ReplayAttemptSchema
    (attempt_with_outcome attempt endedAt (Some (lease_expired_error effect)) None disposition
       attempt_lease_expired) = true.
Proof.
  intros Hv Hs Hend Heff Hdisp. apply lease_expired_error_valid in Heff as Herr.
  revert Hv. unfold ReplayAttemptSchema, refineReplayAttempt. rewrite Hs.
  unfold refine_running_attempt, refine_ended_attempt, refine_unsuccessful_attempt, retries. simpl.
  rewrite Herr. intros Hv. breflect. destruct_and!.
  replace (attempt_result attempt) with (@None ArtifactContentReference) by done. simpl.
  unfold MIN_TIMESTAMP in *. repeat split; eauto; try lia.
  - destruct Hdisp as [->|[-> Hsafe]]; [by right|left].
    destruct effect as [[] [[]|]]; simpl in *; try done; by vm_compute in Heff.
  - by destruct Hdisp as [->|[-> _]].
Qed.

(** The conditions under which a claim must succeed: the job is queued, or it
    is running with an expired lease whose attempt the caller presents, and
    the effect of that attempt allows a retry. *)
Record claim_admissible (job : ReplayJob) (o : ClaimReplayJobOptions) : Prop := {
  ca_job : ReplayJobSchema job = true;
  ca_now : MIN_TIMESTAMP <= claim_now o <= MAX_TIMESTAMP;
  ca_duration : 1 <= claim_leaseDurationMilliseconds o <= MAX_LEASE_DURATION_MILLISECONDS;
  ca_expiry : claim_now o + claim_leaseDurationMilliseconds o <= MAX_TIMESTAMP;
  ca_attempts : next_sequence job < claim_maxAttempts o <= MAX_SAFE_INTEGER;
  ca_token : job_lastFencingToken job < MAX_COUNTER;
  ca_version : job_stateVersion job < MAX_COUNTER;
  ca_attemptId : OpaqueIdSchema (claim_attemptId o) = true;
  ca_leaseId : OpaqueIdSchema (claim_leaseId o) = true;
  ca_workerId : OpaqueIdSchema (claim_workerId o) = true;
  ca_isolation : ReplayIsolationProfileReferenceSchema (claim_isolationProfile o) = true;
  ca_runtime : ReplayRuntimeProfileReferenceSchema (claim_runtimeProfile o) = true;
  ca_target : TargetReleaseReferenceSchema (claim_targetRelease o) = true;
  ca_build : Sha256Schema (claim_workerBuildSha256 o) = true;
  ca_protocol_valid : WorkerProtocolReferenceSchema (claim_workerProtocol o) = true;
  ca_protocol : target_workerProtocol (claim_targetRelease o) = claim_workerProtocol o;
  ca_claimable :
    (job_status job = queued /\ job_createdAt job <= claim_now o /\ claim_currentAttempt o = None) \/
    (job_status job = running /\ exists lease attempt effect,
       job_currentLease job = Some lease /\ lease_expiresAt lease <= claim_now o /\
       claim_currentAttempt o = Some attempt /\ ReplayAttemptSchema attempt = true /\
       owns_attempt job lease attempt = true /\ attempt_startedAt attempt <= claim_now o /\
       claim_expiredEffect o = Some effect /\ effect_valid effect = true /\
       retry_safe effect = true);
}.

Lemma next_sequence_nonneg job : ReplayJobSchema job = true -> 0 <= next_sequence job.
Proof.
  intros Hv. apply valid_kept in Hv as []. unfold next_sequence.
  destruct (job_latestAttemptSequence job); simpl in *; breflect; lia.
Qed.

Lemma admissible_expires job o :
  claim_admissible job o ->
  exists e, expire_current_attempt job o (claim_now o) = Ok e.
Proof.
  intros []. unfold expire_current_attempt.
  destruct ca_claimable0 as [(-> & _ & ->)|(Hs & lease & a & eff & Hl & He & Ha & Hv & Ho & Hst & Hf & Hfv & Hr)].
  - simpl. eauto.
  - rewrite Hs, bool_decide_true by done.
    destruct (valid_running job) as [lease' Hrw]; [done..|].
    assert (lease' = lease) as -> by (destruct Hrw; congruence).
    rewrite (bind_known _ _ a); [|apply assertCurrentAttempt_Ok; exists lease; destruct Hrw; naive_solver].
    rewrite Hf, Hr. rewrite (bind_known _ _ tt) by done.
    rewrite (bind_known _ _ (attempt_with_outcome a (claim_now o) (Some (lease_expired_error eff))
      None retry_scheduled attempt_lease_expired)); [by eauto|].
    apply parse_accepted, expired_attempt_valid; auto; [|lia].
    apply owns_attempt_true in Ho. tauto.
Qed.

Lemma admissible_claimable job o :
  claim_admissible job o -> assert_claimable job (claim_now o) = Ok tt.
Proof.
  intros []. apply assert_claimable_Ok.
  destruct ca_claimable0 as [(? & _)|(Hs & lease & ? & ? & Hl & He & _)]; [by left|right].
  split; [done|]. exists lease. destruct (valid_running job) as [l Hrw]; [done..|].
  destruct Hrw. naive_solver.
Qed.

(** A claim whose conditions hold succeeds: neither a guard nor one of the
    schema validations of the source rejects it. *)
Lemma claim_accepts job o :
  claim_admissible job o -> exists r, claimReplayJob job o = Ok r.
Proof.
  intros Ha. destruct (admissible_expires _ _ Ha) as [e He].
  pose proof (admissible_claimable _ _ Ha) as Hc. pose proof Ha as [].
  pose proof (next_sequence_nonneg job ca_job0) as Hn. pose proof (valid_kept _ ca_job0) as Hk.
  unfold claimReplayJob.
  rewrite (bind_known _ _ job) by (by apply parse_accepted).
  rewrite (bind_known _ _ (claim_now o)) by (by apply canonicalTime_Ok).
  rewrite (bind_known _ _ tt) by (by apply assertLeaseDuration_Ok).
  rewrite (bind_known _ _ tt)
    by (apply reject_known; breflect; rewrite isSafeInteger_spec; unfold MAX_SAFE_INTEGER in *; lia).
  rewrite (bind_known _ _ tt) by done.
  rewrite (bind_known _ _ (next_sequence job))
    by (apply nextCounter_Ok; unfold next_sequence, MAX_COUNTER in *; split; [lia|done]).
  rewrite (bind_known _ _ tt) by (apply reject_known; breflect; lia).
  rewrite (bind_known _ _ (job_lastFencingToken job + 1)) by (by apply nextCounter_Ok).
  rewrite (bind_known _ _ (job_stateVersion job + 1)) by (by apply nextCounter_Ok).
  cbv zeta.
  rewrite (bind_known _ _ (claim_now o + claim_leaseDurationMilliseconds o))
    by (apply addMilliseconds_Ok; lia).
  pose proof Hk as [].
  assert (HL : forall f, ReplayWorkerMutationFenceSchema f = true ->
    ReplayLeaseSchema {| lease_acquiredAt := claim_now o; lease_attemptSequence := next_sequence job;
      lease_expiresAt := claim_now o + claim_leaseDurationMilliseconds o;
      lease_heartbeatAt := claim_now o; lease_mutationFence := f; lease_scope := job_scope job |} = true).
  { intros f Hf. unfold ReplayLeaseSchema, refineReplayLease; simpl. rewrite Hf. breflect.
    repeat split; auto; lia. }
  match goal with |- context [parse ReplayLeaseSchema {| lease_mutationFence := ?f |}] =>
    assert (Hf : ReplayWorkerMutationFenceSchema f = true);
      [unfold ReplayWorkerMutationFenceSchema; simpl; breflect;
       unfold MAX_COUNTER in *; repeat split; auto; lia|];
    specialize (HL f Hf) end.
  rewrite (bind_known _ _ _ (parse_accepted _ _ HL)).
  match goal with |- context [parse ReplayAttemptSchema ?a] =>
    assert (HA : ReplayAttemptSchema a = true) end.
  { unfold ReplayAttemptSchema, refineReplayAttempt, refine_attempt_identity,
      refine_running_attempt; cbn -[ReplayWorkerMutationFenceSchema].
    rewrite Hf, ca_protocol0. breflect. repeat split; auto; lia. }
  rewrite (bind_known _ _ _ (parse_accepted _ _ HA)), (bind_known _ _ _ He).
  eexists. erewrite bind_known; [done|]. apply parse_accepted.
  apply running_job_valid; simpl; auto; try lia.
  - destruct ca_claimable0 as [(Hs & _)|(Hs & _)].
    + by destruct (valid_queued _ ca_job0 Hs) as (_ & _ & _ & _ & ?).
    + by destruct (valid_running _ ca_job0 Hs) as [? []].
  - unfold MAX_COUNTER in *. lia.
  - unfold MAX_COUNTER in *. lia.
  - destruct ca_claimable0 as [(Hs & ? & _)|(Hs & _)].
    + destruct (valid_queued _ ca_job0 Hs) as (_ & _ & _ & -> & _). simpl. lia.
    + destruct (valid_running _ ca_job0 Hs) as [? []]. destruct rw_started0 as (s & Hst & ?).
      rewrite Hst in *. simpl in *. breflect. lia.
Qed.

(** ** Heartbeats, completion, expiry and cancellation *)

Lemma current_fence_running job f now lease :
  ReplayJobSchema job = true -> assertCurrentFence job f now = Ok lease ->
  running_with job lease /\ lease_mutationFence lease = f /\ now < lease_expiresAt lease.
Proof.
  intros Hv (Hs & Hl & _ & Hf & He)%assertCurrentFence_Ok.
  destruct (valid_running job) as [l Hrw]; [done..|].
  assert (l = lease) as -> by (destruct Hrw; congruence). done.
Qed.

Lemma running_status job f now lease :
  assertCurrentFence job f now = Ok lease -> job_status job = running.
Proof. by intros (? & _)%assertCurrentFence_Ok. Qed.

(** A heartbeat is accepted exactly for the holder of the live lease, and only
    moves the lease's heartbeat and expiry and the state version. *)
Lemma heartbeat_iff job f now d job' :
  heartbeatReplayJob job f now d = Ok job' <->
  ReplayJobSchema job = true /\ MIN_TIMESTAMP <= now <= MAX_TIMESTAMP /\
  1 <= d <= MAX_LEASE_DURATION_MILLISECONDS /\ now + d <= MAX_TIMESTAMP /\
  job_stateVersion job < MAX_COUNTER /\
  exists lease, job_status job = running /\ running_with job lease /\
    lease_mutationFence lease = f /\ lease_acquiredAt lease <= now < lease_expiresAt lease /\
    job' = job_with_lease job (lease_with_heartbeat lease (now + d) now)
      (job_lastFencingToken job) (job_latestAttemptSequence job) (job_startedAt job)
      (job_stateVersion job + 1).
Proof.
  unfold heartbeatReplayJob. split.
  - intros H. inv_res. rewrite canonicalTime_Ok, assertLeaseDuration_Ok, nextCounter_Ok in *.
    inv_res. rewrite addMilliseconds_Ok in * by (unfold MAX_LEASE_DURATION_MILLISECONDS in *; lia).
    inv_res. match goal with Hf : assertCurrentFence _ _ _ = Ok ?l |- _ =>
      pose proof (running_status _ _ _ _ Hf) as Hs;
      apply current_fence_running in Hf as (Hrw & Hf & He); [|done]; rename l into lease end.
    match goal with Hl : ReplayLeaseSchema _ = true |- _ => revert Hl end.
    unfold ReplayLeaseSchema, refineReplayLease; simpl. breflect. intros Hl.
    repeat (split; [lia || done|]). exists lease. split_and!; try done; lia.
  - intros (Hv & Hn & Hd & Hx & Hsv & lease & Hs & Hrw & Hf & Ht & ->).
    rewrite (bind_known _ _ job) by (by apply parse_accepted).
    rewrite (bind_known _ _ now) by (by apply canonicalTime_Ok).
    rewrite (bind_known _ _ tt) by (by apply assertLeaseDuration_Ok).
    rewrite (bind_known _ _ lease)
      by (apply assertCurrentFence_Ok; destruct Hrw; repeat split; try done; lia).
    rewrite (bind_known _ _ (now + d)) by (apply addMilliseconds_Ok; lia).
    assert (HL : ReplayLeaseSchema (lease_with_heartbeat lease (now + d) now) = true).
    { destruct Hrw. revert rw_lease_valid0. unfold ReplayLeaseSchema, refineReplayLease; simpl.
      breflect. intros Hl. destruct_and!. repeat split; try done; lia. }
    rewrite (bind_known _ _ _ (parse_accepted _ _ HL)).
    rewrite (bind_known _ _ (job_stateVersion job + 1)) by (by apply nextCounter_Ok).
    apply parse_accepted. destruct Hrw. destruct rw_started0 as (s & Hst & Hs0).
    pose proof (valid_kept _ Hv) as []. rewrite Hst, rw_sequence0 in *. simpl in *. breflect.
    apply running_job_valid; simpl; auto; try (unfold MAX_COUNTER in *; lia).
    by apply valid_kept.
Qed.

Record complete_success (job : ReplayJob) (a : ReplayAttempt) (f : ReplayWorkerMutationFence)
    (o : CompleteReplayAttemptOptions) (a' : ReplayAttempt) (job' : ReplayJob) : Prop := {
  ps_job : ReplayJobSchema job = true;
  ps_job' : ReplayJobSchema job' = true;
  ps_attempt : ReplayAttemptSchema a = true;
  ps_attempt' : ReplayAttemptSchema a' = true;
  ps_status : job_status job = running;
  ps_lease : exists lease, running_with job lease /\ lease_mutationFence lease = f /\
    complete_now o < lease_expiresAt lease /\ owns_attempt job lease a = true;
  ps_cancellation : complete_cancellationRequested o = true -> complete_status o = cancelled;
  ps_now : MIN_TIMESTAMP <= complete_now o <= MAX_TIMESTAMP;
  ps_a' : a' = attempt_with_outcome a (complete_now o) (complete_error o) (complete_result o)
    not_retryable (attempt_ended (complete_status o));
  ps_result : job' = job_with_terminal job (job_stateVersion job + 1) {|
    terminal_attemptId := Some (attempt_attemptId a);
    terminal_code := complete_code o;
    terminal_committedAt := complete_now o;
    terminal_status := complete_status o |};
}.

Lemma complete_success_intro job a f o a' job' :
  completeReplayAttempt job a f o = Ok (a', job') -> complete_success job a f o a' job'.
Proof.
  unfold completeReplayAttempt. intros H. inv_res.
  rewrite canonicalTime_Ok, nextCounter_Ok in *. inv_res.
  match goal with Hf : assertCurrentFence _ _ _ = Ok ?l |- _ =>
    pose proof (running_status _ _ _ _ Hf) as Hs;
    apply current_fence_running in Hf as (Hrw & Hf & He); [|done] end.
  match goal with Ha : assertCurrentAttempt _ _ = Ok _ |- _ =>
    apply assertCurrentAttempt_Ok in Ha as (lease & Hl & _ & [= ->] & Ho) end.
  constructor; try done.
  - eexists. split; [done|]. destruct Hrw. simplify_eq. naive_solver.
  - breflect. intuition congruence.
Qed.

Record close_success (job : ReplayJob) (a : ReplayAttempt)
    (o : CloseExpiredReplayAttemptOptions) (a' : ReplayAttempt) (job' : ReplayJob) : Prop := {
  xs_job : ReplayJobSchema job = true;
  xs_job' : ReplayJobSchema job' = true;
  xs_attempt : ReplayAttemptSchema a = true;
  xs_attempt' : ReplayAttemptSchema a' = true;
  xs_status : job_status job = running;
  xs_now : MIN_TIMESTAMP <= close_now o <= MAX_TIMESTAMP;
  xs_lease : exists lease, running_with job lease /\ lease_expiresAt lease <= close_now o /\
    owns_attempt job lease a = true /\
    a' = attempt_with_outcome a (lease_expiresAt lease)
      (Some (lease_expired_error (close_effect o))) None not_retryable attempt_lease_expired;
  xs_result : job' = job_with_terminal job (job_stateVersion job + 1) {|
    terminal_attemptId := Some (attempt_attemptId a);
    terminal_code := close_code o;
    terminal_committedAt := close_now o;
    terminal_status := close_status o |};
}.

Lemma close_success_intro job a o a' job' :
  closeExpiredReplayAttempt job a o = Ok (a', job') -> close_success job a o a' job'.
Proof.
  unfold closeExpiredReplayAttempt. intros H. inv_res.
  rewrite canonicalTime_Ok, nextCounter_Ok, parse_current_lease_Ok, assertCurrentAttempt_Ok in *.
  inv_res. breflect.
  match goal with Ho : exists _, _ |- _ => destruct Ho as (l & Hl & _ & [= ->] & Ho) end.
  destruct (valid_running job) as [lease Hrw]; [done..|].
  constructor; try done. exists lease.
  match goal with |- running_with _ ?x /\ _ => assert (Some x = job_currentLease job) by (by destruct Hrw) end.
  simplify_eq. split_and!; congruence || done.
Qed.

(** The close of an expired attempt is refused while its lease is live. *)
Lemma close_accepts job a o lease :
  ReplayJobSchema job = true -> ReplayAttemptSchema a = true -> job_status job = running ->
  running_with job lease -> owns_attempt job lease a = true ->
  lease_expiresAt lease <= close_now o <= MAX_TIMESTAMP ->
  attempt_startedAt a <= lease_expiresAt lease -> job_stateVersion job < MAX_COUNTER ->
  (exists s, job_startedAt job = Some s /\ s <= close_now o) ->
  effect_valid (close_effect o) = true ->
  existsb (fun c => c === close_code o) (expectedCodeByStatus (close_status o)) = true ->
  exists r, closeExpiredReplayAttempt job a o = Ok r.
Proof.
  intros Hv Ha Hs Hrw Ho Hx Hst Hsv (s & Hsa & Hsn) Heff Hcode.
  assert (Hx' : MIN_TIMESTAMP <= lease_expiresAt lease).
  { destruct Hrw. revert rw_lease_valid0. unfold ReplayLeaseSchema. breflect. tauto. }
  unfold closeExpiredReplayAttempt.
  rewrite (bind_known _ _ job) by (by apply parse_accepted).
  rewrite (bind_known _ _ a) by (by apply parse_accepted).
  rewrite (bind_known _ _ (close_now o)) by (apply canonicalTime_Ok; split; [lia|done]).
  rewrite (bind_known _ _ tt) by (by rewrite Hs).
  rewrite (bind_known _ _ lease) by (by apply running_lease).
  rewrite (bind_known _ _ a)
    by (apply assertCurrentAttempt_Ok; exists lease; destruct Hrw; naive_solver).
  rewrite (bind_known _ _ tt) by (apply reject_known; breflect; lia).
  erewrite bind_known.
  2: { apply parse_accepted, expired_attempt_valid; auto; [|lia].
       apply owns_attempt_true in Ho; tauto. }
  rewrite (bind_known _ _ (job_stateVersion job + 1)) by (by apply nextCounter_Ok).
  erewrite bind_known; [by eexists|]. apply parse_accepted.
  destruct Hrw, rw_started0 as (s' & Hs' & ?). pose proof (valid_counters _ Hv).
  assert (s' = s) as -> by congruence.
  eapply ended_job_valid; eauto; try (unfold MAX_COUNTER in *; lia); [by apply valid_kept|].
  revert Ha. unfold ReplayAttemptSchema. breflect. tauto.
Qed.

(** ** The life of one job *)

(** One accepted operation on a job, labelled with the fence it was accepted
    under.  A fence-checked write (a heartbeat, a completion, and every
    repository mutation that only asserts its fence) carries its worker's
    fence, a claim the fence it issues. *)
Inductive job_step (job : ReplayJob) : option ReplayWorkerMutationFence -> ReplayJob -> Prop :=
| step_claim o r :
    claimReplayJob job o = Ok r ->
    job_step job (Some (lease_mutationFence (claimed_lease r))) (claimed_job r)
| step_heartbeat f now d job' :
    heartbeatReplayJob job f now d = Ok job' -> job_step job (Some f) job'
| step_mutation f now lease :
    assertReplayWorkerMutationFence job f now = Ok lease -> job_step job (Some f) job
| step_complete a f o a' job' :
    completeReplayAttempt job a f o = Ok (a', job') -> job_step job (Some f) job'
| step_close a o a' job' :
    closeExpiredReplayAttempt job a o = Ok (a', job') -> job_step job None job'
| step_cancel o r :
    requestReplayCancellation job o = Ok r -> job_step job None (cancel_job r).

Inductive job_trace : ReplayJob -> list ReplayWorkerMutationFence -> ReplayJob -> Prop :=
| trace_nil job : job_trace job [] job
| trace_silent job job' fs job'' :
    job_step job None job' -> job_trace job' fs job'' -> job_trace job fs job''
| trace_fence job f job' fs job'' :
    job_step job (Some f) job' -> job_trace job' fs job'' -> job_trace job (f :: fs) job''.

Lemma cancel_success job o r :
  requestReplayCancellation job o = Ok r ->
  ReplayJobSchema job = true /\ ReplayJobSchema (cancel_job r) = true /\
  ReplayCancellationRequestSchema (cancel_request r) = true /\
  cancellation_scope (cancel_request r) = job_scope job /\
  cancellation_jobId (cancel_request r) = job_jobId job /\
  ((cancel_created r = false /\ cancel_job r = job /\ cancel_existing o = Some (cancel_request r)) \/
   (cancel_created r = true /\ cancel_job r = job /\ job_status job = running /\
    cancellation_requestedAt (cancel_request r) = cancel_now o) \/
   (cancel_created r = true /\ job_status job = queued /\
    cancellation_requestedAt (cancel_request r) = cancel_now o /\
    cancel_job r = job_with_terminal job (job_stateVersion job + 1) {|
      terminal_attemptId := None; terminal_code := cancellation_committed;
      terminal_committedAt := cancel_now o; terminal_status := cancelled |})).
Proof.
  unfold requestReplayCancellation. intros H. inv_res. rewrite canonicalTime_Ok in *. inv_res.
  destruct (cancel_existing o) as [e|].
  - inv_res. simpl. breflect. naive_solver.
  - inv_res. case_bool_decide; inv_res; simpl; [naive_solver|].
    rewrite nextCounter_Ok in *. inv_res. breflect. simpl. naive_solver.
Qed.

Lemma job_step_valid job e job' :
  job_step job e job' -> ReplayJobSchema job = true /\ ReplayJobSchema job' = true.
Proof.
  destruct 1 as [o r H|f now d job' H|f now l H|a f o a' job' H|a o a' job' H|o r H].
  - apply claim_success_intro in H as []. done.
  - split; [|unfold heartbeatReplayJob in H; inv_res; done].
    by apply heartbeat_iff in H as (? & _).
  - unfold assertReplayWorkerMutationFence in H. inv_res. done.
  - by apply complete_success_intro in H as [].
  - by apply close_success_intro in H as [].
  - apply cancel_success in H. tauto.
Qed.

(** How a step moves the fencing token: a claim issues the next one, every
    other accepted fence is the fence of the live lease. *)
Lemma job_step_token job e job' :
  job_step job e job' ->
  match e with
  | Some f =>
      fence_fencingToken f = job_lastFencingToken job' /\
      (job_lastFencingToken job' = job_lastFencingToken job + 1 \/
       job_lastFencingToken job' = job_lastFencingToken job /\ job_status job = running /\
       exists lease, running_with job lease /\ lease_mutationFence lease = f)
  | None => job_lastFencingToken job' = job_lastFencingToken job
  end /\
  (job_status job' = running -> match e with
   | Some f => exists lease, running_with job' lease /\ lease_mutationFence lease = f
   | None => job' = job
   end).
Proof.
  intros Hstep. pose proof (job_step_valid _ _ _ Hstep) as [Hv Hv'].
  destruct Hstep as [o r H|f now d job' H|f now l H|a f o a' job' H|a o a' job' H|o r H].
  - apply claim_success_intro in H as []. split.
    + rewrite cs_result0, cs_lease0. simpl. auto.
    + intros Hs. destruct (valid_running _ Hv' Hs) as [l Hl]. exists l. split; [done|].
      destruct Hl. rewrite cs_result0 in rw_lease0. simpl in *. congruence.
  - apply heartbeat_iff in H as (_ & _ & _ & _ & _ & lease & Hs & Hrw & <- & _ & ->). split.
    + split; [by destruct Hrw|]. right. eauto 6.
    + intros Hs'. destruct (valid_running _ Hv' Hs') as [l Hl]. exists l. split; [done|].
      destruct Hl. simpl in *. simplify_eq. done.
  - unfold assertReplayWorkerMutationFence in H. inv_res.
    match goal with Hf : assertCurrentFence _ _ _ = _ |- _ =>
      pose proof (running_status _ _ _ _ Hf); apply current_fence_running in Hf as (Hrw & <- & _) end;
      [|done].
    split; eauto. split; [by destruct Hrw|]. right. eauto 6.
  - apply complete_success_intro in H as []. destruct ps_lease0 as (lease & Hrw & <- & _).
    subst job'. split; [|done]. split; [by destruct Hrw|]. right. simpl. eauto 6.
  - apply close_success_intro in H as []. subst job'. done.
  - apply cancel_success in H as (_ & _ & _ & _ & _ & [(_ & -> & _)|[(_ & -> & _)|(_ & _ & _ & ->)]]); done.
Qed.

(** [g] can no longer be overtaken from below: every fence accepted from
    [job] on is [g] itself or carries a larger token. *)
Definition settled (job : ReplayJob) (g : ReplayWorkerMutationFence) : Prop :=
  fence_fencingToken g <= job_lastFencingToken job /\
  (fence_fencingToken g = job_lastFencingToken job -> job_status job = running ->
   exists lease, running_with job lease /\ lease_mutationFence lease = g).

Lemma settled_step job e job' g :
  job_step job e job' -> settled job g ->
  settled job' g /\
  match e with
  | Some f => f = g \/ fence_fencingToken g < fence_fencingToken f
  | None => True
  end.
Proof.
  intros Hstep [Hle Heq]. apply job_step_token in Hstep as [He Hrun]. destruct e as [f|].
  - destruct He as (Hf & [Ht|(Ht & Hs & lease & Hrw & Hlf)]).
    + split; [|lia]. split; [lia|]. lia.
    + destruct (decide (fence_fencingToken g = job_lastFencingToken job)) as [Hg|Hg].
      * destruct (Heq Hg Hs) as (lease' & Hrw' & Hg').
        assert (lease' = lease) as -> by (destruct Hrw, Hrw'; congruence).
        assert (f = g) as -> by congruence. split; [|by left]. split; [lia|]. auto.
      * split; [|lia]. split; lia.
  - split; [|done]. split; [lia|]. intros Hg Hs. specialize (Hrun Hs) as ->. by apply Heq.
Qed.

Lemma settled_trace job fs job' g :
  job_trace job fs job' -> settled job g ->
  Forall (fun f => f = g \/ fence_fencingToken g < fence_fencingToken f) fs.
Proof.
  induction 1 as [job|job j fs job' Hs _ IH|job f j fs job' Hs _ IH]; intros Hg.
  - constructor.
  - apply IH. by eapply settled_step.
  - destruct (settled_step _ _ _ _ Hs Hg) as [Hg' Hf]. constructor; auto.
Qed.

Lemma accepted_settled job f job' : job_step job (Some f) job' -> settled job' f.
Proof.
  intros Hs. apply job_step_token in Hs as [(Hf & _) Hrun]. split; [lia|]. auto.
Qed.

(** Claims never let two workers interleave. *)
Lemma fences_sorted job fs job' :
  job_trace job fs job' ->
  StronglySorted (fun f g => g = f \/ fence_fencingToken f < fence_fencingToken g) fs.
Proof.
  induction 1 as [job|job j fs job' Hs _ IH|job f j fs job' Hs Ht IH]; [constructor|done|].
  constructor; [done|]. eapply settled_trace; [done|]. by eapply accepted_settled.
Qed.

(** A terminal job only repeats the answer to a cancellation it knows. *)
Lemma terminal_step job e job' :
  job_step job e job' -> defined (job_terminal job) = true -> e = None /\ job' = job.
Proof.
  intros Hstep Hd.
  assert (Hno : job_status job = queued \/ job_status job = running -> False).
  { destruct (job_step_valid _ _ _ Hstep) as [Hv _]. intros [Hs|Hs].
    - apply valid_queued in Hv as (_ & _ & _ & _ & Ht); [|done]. by rewrite Ht in Hd.
    - destruct (valid_running _ Hv Hs) as [l []]. by rewrite rw_terminal0 in Hd. }
  destruct Hstep as [o r H|f now d job' H|f now l H|a f o a' job' H|a o a' job' H|o r H].
  - apply claim_success_intro in H as []. exfalso. apply Hno. tauto.
  - apply heartbeat_iff in H as (_ & _ & _ & _ & _ & l & Hs & _). tauto.
  - unfold assertReplayWorkerMutationFence in H. inv_res.
    match goal with Hf : assertCurrentFence _ _ _ = _ |- _ => apply running_status in Hf end. tauto.
  - apply complete_success_intro in H as []. tauto.
  - apply close_success_intro in H as []. tauto.
  - apply cancel_success in H as (_ & _ & _ & _ & _ & [(_ & ? & _)|[(_ & ? & _)|(_ & ? & _)]]); tauto.
Qed.

(** ** Theorems *)

(** An admissible claim is granted: a queued job, or one whose lease has
    expired under an attempt the caller presents with an effect that allows a
    retry, is claimed for the requested term under the next fencing token, and
    the attempt it supersedes is closed as expired. *)
Theorem admissible_claim_granted job o :
  claim_admissible job o ->
  exists r, claimReplayJob job o = Ok r /\ ReplayJobSchema (claimed_job r) = true /\
    job_status (claimed_job r) = running /\
    job_currentLease (claimed_job r) = Some (claimed_lease r) /\
    fence_fencingToken (lease_mutationFence (claimed_lease r)) = job_lastFencingToken job + 1 /\
    lease_expiresAt (claimed_lease r) = claim_now o + claim_leaseDurationMilliseconds o /\
    attempt_mutationFence (claimed_attempt r) = lease_mutationFence (claimed_lease r) /\
    (job_status job = running -> exists expired, claimed_expiredAttempt r = Some expired /\
       attempt_status expired = attempt_lease_expired).
Proof.
  intros Ha. destruct (claim_accepts _ _ Ha) as [r Hr]. exists r. split; [done|].
  apply claim_success_intro in Hr as []. rewrite cs_result0, cs_lease0 in *. split_and!; try done.
  - by rewrite cs_attempt0.
  - intros Hs. revert cs_expired0. unfold expire_current_attempt. rewrite Hs. simpl. intros H. inv_res.
    destruct (claim_expiredEffect o); inv_res. by eexists.
Qed.

(** A heartbeat is accepted exactly from the owner of a live lease, and
    does nothing but extend that lease and count the change. *)
Theorem heartbeat_exact job f now d job' :
  heartbeatReplayJob job f now d = Ok job' <->
  ReplayJobSchema job = true /\ MIN_TIMESTAMP <= now <= MAX_TIMESTAMP /\
  1 <= d <= MAX_LEASE_DURATION_MILLISECONDS /\ now + d <= MAX_TIMESTAMP /\
  job_stateVersion job < MAX_COUNTER /\
  exists lease, job_status job = running /\ running_with job lease /\
    lease_mutationFence lease = f /\ lease_acquiredAt lease <= now < lease_expiresAt lease /\
    job' = job_with_lease job (lease_with_heartbeat lease (now + d) now)
      (job_lastFencingToken job) (job_latestAttemptSequence job) (job_startedAt job)
      (job_stateVersion job + 1).
Proof. apply heartbeat_iff. Qed.

(** Workers never interleave: along every life of a job, the fences under
    which writes are accepted come in the order their tokens were issued, one
    fence per token. *)
Theorem accepted_fences_ordered job fs job' :
  job_trace job fs job' ->
  StronglySorted (fun f g => g = f \/ fence_fencingToken f < fence_fencingToken g) fs.
Proof. apply fences_sorted. Qed.

(** A terminal record is final: nothing that is accepted afterwards carries
    a fence or changes the job. *)
Theorem terminal_job_final job fs job' :
  job_trace job fs job' -> defined (job_terminal job) = true -> fs = [] /\ job' = job.
Proof.
  induction 1 as [job|job j fs job' Hs _ IH|job f j fs job' Hs Ht IH]; intros Hd; [done|..].
  - destruct (terminal_step _ _ _ Hs Hd) as [_ ->]. by apply IH.
  - by destruct (terminal_step _ _ _ Hs Hd) as [? _].
Qed.
