(* ===== verification/ReplayRetry.v ===== *)
(** * Automatic retry decisions

    [packages/replay/src/replay-retry.ts]: whether a failed attempt may be
    retried automatically, and not before which instant.  The theorems give the
    back-off loop its closed form, characterise eligibility completely, and
    show that an eligible retry still fits the job's total deadline. *)

From S2P Require Import Prelude Errors Primitives ReplayPlan ReplayJob ReplayJobState.
From S2P Require Import ReplayJobStateProofs.

Inductive ReplayRetryBlockedReason : Type :=
| blocked_attempt_limit_reached
| blocked_automatic_retry_disabled
| blocked_deadline_insufficient
| blocked_effect_not_retry_safe
| blocked_error_not_declared.

Inductive ReplayRetryDecision : Type :=
| blocked (reason : ReplayRetryBlockedReason)
| eligible (delayMilliseconds : Z) (notBefore : timestamp).

Record DecideReplayRetryOptions := {
  retry_attemptSequence : Z;
  retry_error : ReplayAttemptError;
  retry_evaluatedAt : option timestamp;
  retry_failedAt : timestamp;
  retry_jobStartedAt : timestamp;
  retry_policy : ReplayRetryPolicy;
}.

(** [n] iterations of the exponential back-off loop. *)
Fixpoint backoff_loop (n : nat) (delay multiplier maximum : Z) : Z :=
  match n with
  | O => delay
  | S n => backoff_loop n (Z.min (delay * multiplier) maximum) multiplier maximum
  end.

Definition retryDelay (policy : ReplayRetryPolicy) (attemptSequence : Z) : Z :=
  match policy_backoff policy with
  | backoff_none => 0
  | backoff_fixed delay => delay
  | backoff_exponential initial maximum multiplier =>
      backoff_loop (Z.to_nat attemptSequence) initial multiplier maximum
  end.

(** The declared class of an attempt error, when it has one. *)
Definition retryable_error_of (code : ReplayAttemptErrorCode) : option ReplayRetryableError :=
  match code with
  | error_boundary_rate_limited => Some retry_boundary_rate_limited
  | error_boundary_temporarily_unavailable => Some retry_boundary_temporarily_unavailable
  | error_target_process_interrupted => Some retry_target_process_interrupted
  | error_target_temporary_failure => Some retry_target_temporary_failure
  | _ => None
  end.

Definition errorDeclared (policy : ReplayRetryPolicy) (error : ReplayAttemptError) : bool :=
  let declaredCode :=
    if error_code error === error_lease_expired then error_target_process_interrupted
    else error_code error in
  existsb (fun code => Some code === retryable_error_of declaredCode)
    (policy_retryableErrors policy).

(** [effectRetrySafe] of this module is the guard [claimReplayJob] repeats. *)
Definition effectRetrySafe (error : ReplayAttemptError) : bool := retry_safe (error_effect error).

Definition decideReplayRetry (options : DecideReplayRetryOptions) : res ReplayRetryDecision :=
  policy ← parse ReplayRetryPolicySchema (retry_policy options);
  error ← parse ReplayAttemptErrorSchema (retry_error options);
  let sequence := retry_attemptSequence options in
  if negb (isSafeInteger sequence) || (sequence <? 0) then Ok (blocked blocked_attempt_limit_reached)
  else if negb (policy_automatic policy) then Ok (blocked blocked_automatic_retry_disabled)
  else if policy_maxAttempts policy <=? js_add sequence 1 then
    Ok (blocked blocked_attempt_limit_reached)
  else if negb (errorDeclared policy error) then Ok (blocked blocked_error_not_declared)
  else if negb (effectRetrySafe error) then Ok (blocked blocked_effect_not_retry_safe)
  else
    failedAt ← canonicalTime (retry_failedAt options);
    startedAt ← canonicalTime (retry_jobStartedAt options);
    evaluatedAt ← match retry_evaluatedAt options with
                  | None => Ok failedAt
                  | Some value => canonicalTime value
                  end;
    let delayMilliseconds := retryDelay policy sequence in
    let notBeforeValue := js_add failedAt delayMilliseconds in
    let deadlineValue := js_add startedAt (policy_totalDeadlineMilliseconds policy) in
    let nextAttemptStartsAt := Z.max notBeforeValue evaluatedAt in
    let nextAttemptCompletesAt :=
      js_add nextAttemptStartsAt (policy_perAttemptTimeoutMilliseconds policy) in
    if (failedAt <? startedAt) || (evaluatedAt <? failedAt) ||
       negb (isSafeInteger notBeforeValue) || negb (isSafeInteger deadlineValue) ||
       negb (isSafeInteger nextAttemptStartsAt) || negb (isSafeInteger nextAttemptCompletesAt) ||
       (deadlineValue <? nextAttemptCompletesAt)
    then Ok (blocked blocked_deadline_insufficient)
    else
      notBefore ← parse UtcMillisecondTimestampSchema notBeforeValue;
      Ok (eligible delayMilliseconds notBefore).

(** ** The back-off loop *)

Lemma backoff_loop_closed n delay multiplier maximum :
  0 <= delay <= maximum -> 1 <= multiplier ->
  backoff_loop n delay multiplier maximum = Z.min (delay * multiplier ^ Z.of_nat n) maximum.
Proof.
  revert delay; induction n as [|n IH]; intros delay Hd Hm; simpl backoff_loop.
  { rewrite Z.pow_0_r. lia. }
  rewrite IH by nia. rewrite Nat2Z.inj_succ, Z.pow_succ_r by lia.
  assert (1 <= multiplier ^ Z.of_nat n) by (assert (0 < multiplier ^ Z.of_nat n) by (apply Z.pow_pos_nonneg; lia); lia).
  destruct (Z.min_spec (delay * multiplier) maximum) as [[? ->]|[? ->]]; [f_equal; nia|].
  rewrite !Z.min_r by nia. done.
Qed.

Lemma ReplayRetryPolicySchema_facts policy :
  ReplayRetryPolicySchema policy = true ->
  ReplayBackoffSchema (policy_backoff policy) = true /\
  1 <= policy_maxAttempts policy <= MAX_REPLAY_ATTEMPTS /\
  1 <= policy_perAttemptTimeoutMilliseconds policy <= policy_totalDeadlineMilliseconds policy /\
  policy_totalDeadlineMilliseconds policy <= MAX_SAFE_INTEGER.
Proof.
  unfold ReplayRetryPolicySchema, refineReplayRetryPolicy, budget_value, MAX_REPLAY_BUDGET_VALUE.
  breflect. intros H. destruct_and!. split_and!; try done; lia.
Qed.

Lemma retryDelay_bounds policy sequence :
  ReplayRetryPolicySchema policy = true ->
  0 <= retryDelay policy sequence <= MAX_BACKOFF_MILLISECONDS.
Proof.
  intros (Hb & _)%ReplayRetryPolicySchema_facts. revert Hb.
  unfold retryDelay, ReplayBackoffSchema, backoff_delay.
  destruct (policy_backoff policy) as [|d|i m k]; breflect; intros Hb;
    [unfold MAX_BACKOFF_MILLISECONDS; lia|lia|].
  rewrite backoff_loop_closed by lia.
  assert (0 < k ^ Z.of_nat (Z.to_nat sequence)) by (apply Z.pow_pos_nonneg; lia). nia.
Qed.

(** The sums the decision makes are exact whenever it does not refuse them. *)
Lemma js_add_guarded a b :
  isSafeInteger (js_add a b) = true -> js_add a b = a + b.
Proof.
  intros H. apply js_add_exact. unfold js_add in H. rewrite js_round_safe in H.
  apply isSafeInteger_spec in H. lia.
Qed.

Lemma js_add_safe a b : isSafeInteger (js_add a b) = isSafeInteger (a + b).
Proof. apply js_round_safe. Qed.

(** ** Eligibility *)

Definition evaluated_at (o : DecideReplayRetryOptions) : timestamp :=
  default (retry_failedAt o) (retry_evaluatedAt o).

(** What a retry promises: the policy asks for it, an attempt is left, the
    error was declared and leaves no unsafe effect, the recorded instants are
    in causal order, and the next attempt, started when its back-off and the
    evaluation allow, still completes within the total deadline. *)
Record retry_allowed (o : DecideReplayRetryOptions) : Prop := {
  ra_policy : ReplayRetryPolicySchema (retry_policy o) = true;
  ra_error : ReplayAttemptErrorSchema (retry_error o) = true;
  ra_automatic : policy_automatic (retry_policy o) = true;
  ra_sequence : 0 <= retry_attemptSequence o;
  ra_attempts : retry_attemptSequence o + 1 < policy_maxAttempts (retry_policy o);
  ra_declared : errorDeclared (retry_policy o) (retry_error o) = true;
  ra_effect : effectRetrySafe (retry_error o) = true;
  ra_startedAt : MIN_TIMESTAMP <= retry_jobStartedAt o;
  ra_causal : retry_jobStartedAt o <= retry_failedAt o <= evaluated_at o;
  ra_evaluatedAt : evaluated_at o <= MAX_TIMESTAMP;
  ra_notBefore :
    retry_failedAt o + retryDelay (retry_policy o) (retry_attemptSequence o) <= MAX_TIMESTAMP;
  ra_deadline :
    Z.max (retry_failedAt o + retryDelay (retry_policy o) (retry_attemptSequence o))
      (evaluated_at o) + policy_perAttemptTimeoutMilliseconds (retry_policy o) <=
    retry_jobStartedAt o + policy_totalDeadlineMilliseconds (retry_policy o);
  ra_safe :
    retry_jobStartedAt o + policy_totalDeadlineMilliseconds (retry_policy o) <= MAX_SAFE_INTEGER;
}.

Lemma evaluated_at_Ok o failedAt u :
  canonicalTime (retry_failedAt o) = Ok failedAt ->
  match retry_evaluatedAt o with None => Ok failedAt | Some value => canonicalTime value end = Ok u <->
  MIN_TIMESTAMP <= evaluated_at o <= MAX_TIMESTAMP /\ u = evaluated_at o.
Proof.
  intros (Hf & ->)%canonicalTime_Ok. unfold evaluated_at.
  destruct (retry_evaluatedAt o) as [v|]; simpl; [apply canonicalTime_Ok|].
  split; [intros [= <-]; done|intros [_ ->]; done].
Qed.

Lemma eligible_sound o d nb :
  decideReplayRetry o = Ok (eligible d nb) ->
  retry_allowed o /\ d = retryDelay (retry_policy o) (retry_attemptSequence o) /\
  nb = retry_failedAt o + d.
Proof.
  unfold decideReplayRetry. intros H. inv_res.
  repeat (match goal with H : (if ?c then _ else _) = _ |- _ =>
    destruct c eqn:?; [discriminate|] end).
  inv_res.
  match goal with Hf : canonicalTime (retry_failedAt o) = Ok ?t,
    He : match retry_evaluatedAt o with _ => _ end = Ok ?u |- _ =>
    pose proof Hf as Hf'; apply (evaluated_at_Ok o _ _ Hf') in He as [? ->] end.
  rewrite canonicalTime_Ok in *. inv_res.
  match goal with H : (if ?c then _ else _) = _ |- _ => destruct c eqn:Hc; [discriminate|] end.
  inv_res. breflect. destruct_and!.
  match goal with Hp : ReplayRetryPolicySchema _ = true |- _ =>
    pose proof (ReplayRetryPolicySchema_facts _ Hp) as (_ & Hma & Hto & Htd);
    pose proof (retryDelay_bounds _ (retry_attemptSequence o) Hp) as Hdel end.
  rewrite !js_add_guarded in * by done.
  unfold MAX_BACKOFF_MILLISECONDS, MIN_TIMESTAMP, MAX_TIMESTAMP, MAX_REPLAY_ATTEMPTS in *.
  repeat match goal with H : isSafeInteger _ = true |- _ => apply isSafeInteger_spec in H end.
  repeat match goal with H : context [js_add ?a ?b] |- _ =>
    rewrite (js_add_exact a b) in H by (unfold MAX_SAFE_INTEGER in *; lia) end.
  split_and!; [|done|done]. constructor; unfold MIN_TIMESTAMP, MAX_TIMESTAMP; try done; lia.
Qed.

Lemma eligible_complete o :
  retry_allowed o ->
  let d := retryDelay (retry_policy o) (retry_attemptSequence o) in
  decideReplayRetry o = Ok (eligible d (retry_failedAt o + d)).
Proof.
  intros [] d. unfold decideReplayRetry.
  pose proof (ReplayRetryPolicySchema_facts _ ra_policy0) as (_ & Hma & Hto & Htd).
  pose proof (retryDelay_bounds _ (retry_attemptSequence o) ra_policy0) as Hdel. fold d in Hdel.
  fold d in ra_notBefore0, ra_deadline0.
  unfold MAX_BACKOFF_MILLISECONDS, MIN_TIMESTAMP, MAX_TIMESTAMP, MAX_REPLAY_ATTEMPTS in *.
  assert (Hsafe : forall v, -62135596800000 <= v <= MAX_SAFE_INTEGER -> isSafeInteger v = true).
  { intros v ?. apply isSafeInteger_spec. unfold MAX_SAFE_INTEGER in *. lia. }
  assert (Hj : forall a b, -62135596800000 <= a + b <= MAX_SAFE_INTEGER -> js_add a b = a + b).
  { intros a b ?. apply js_add_exact. unfold MAX_SAFE_INTEGER in *. lia. }
  rewrite (bind_known _ _ _ (parse_accepted _ _ ra_policy0)).
  rewrite (bind_known _ _ _ (parse_accepted _ _ ra_error0)). cbv zeta.
  rewrite Hsafe by (unfold MAX_SAFE_INTEGER; lia).
  rewrite (proj2 (Z.ltb_ge _ _)) by lia. simpl negb. simpl orb. cbv iota.
  rewrite ra_automatic0. simpl negb. cbv iota.
  rewrite Hj by (unfold MAX_SAFE_INTEGER; lia).
  rewrite (proj2 (Z.leb_gt _ _)) by lia.
  rewrite ra_declared0, ra_effect0. simpl negb. cbv iota.
  assert (Hf : canonicalTime (retry_failedAt o) = Ok (retry_failedAt o))
    by (apply canonicalTime_Ok; unfold MIN_TIMESTAMP, MAX_TIMESTAMP; lia).
  rewrite (bind_known _ _ _ Hf).
  rewrite (bind_known _ _ (retry_jobStartedAt o))
    by (apply canonicalTime_Ok; unfold MIN_TIMESTAMP, MAX_TIMESTAMP; lia).
  rewrite (bind_known _ _ (evaluated_at o))
    by (apply (evaluated_at_Ok o _ _ Hf); unfold MIN_TIMESTAMP, MAX_TIMESTAMP; lia).
  cbv zeta. fold d.
  rewrite !(Hj _ (policy_totalDeadlineMilliseconds _)) by lia.
  rewrite !(Hj (retry_failedAt o) d) by (unfold MAX_SAFE_INTEGER in *; lia).
  rewrite !Hj by lia. rewrite !Hsafe by (unfold MAX_SAFE_INTEGER in *; lia). simpl negb.
  rewrite !(proj2 (Z.ltb_ge _ _)) by lia. simpl.
  rewrite (bind_known _ _ (retry_failedAt o + d)); [done|].
  apply parse_accepted, UtcMillisecondTimestampSchema_spec. unfold MIN_TIMESTAMP, MAX_TIMESTAMP; lia.
Qed.

(** A retry is granted exactly when it is allowed: automatic, within the
    attempt limit, declared, free of unsafe effects, causally ordered and
    able to finish before the job's total deadline; and the instant it is
    granted from is the failure time plus the closed-form back-off delay. *)
Theorem decideReplayRetry_eligible o d nb :
  decideReplayRetry o = Ok (eligible d nb) <->
  retry_allowed o /\ d = retryDelay (retry_policy o) (retry_attemptSequence o) /\
  nb = retry_failedAt o + d.
Proof.
  split; [apply eligible_sound|]. intros (Ha & -> & ->). by apply eligible_complete.
Qed.

(** The exponential back-off loop computes
    [min (initial * multiplier ^ attempt) maximum], so delays never decrease
    from one attempt to the next and stay between the declared bounds. *)
Theorem exponential_backoff_closed_form policy initial maximum multiplier sequence :
  ReplayRetryPolicySchema policy = true ->
  policy_backoff policy = backoff_exponential initial maximum multiplier ->
  0 <= sequence ->
  retryDelay policy sequence = Z.min (initial * multiplier ^ sequence) maximum /\
  initial <= retryDelay policy sequence <= retryDelay policy (sequence + 1) /\
  retryDelay policy (sequence + 1) <= maximum.
Proof.
  intros (Hb & _)%ReplayRetryPolicySchema_facts Hbk Hs. revert Hb.
  unfold retryDelay. rewrite Hbk. unfold ReplayBackoffSchema, backoff_delay. breflect. intros Hb.
  rewrite !backoff_loop_closed, !Z2Nat.id by lia. rewrite Z.pow_add_r, Z.pow_1_r by lia.
  assert (0 < multiplier ^ sequence) by (apply Z.pow_pos_nonneg; lia).
  split_and!; [done|nia|nia|lia].
Qed.
