(* ===== verification/ReplayAccounting.v ===== *)
(** * Replay accounting records

    [packages/contracts/src/replay-accounting.ts]: budget reservations and
    reconciliations (the two kinds of ledger entry), usage observations and
    execution observations, with the refinement each schema adds.  The record
    discriminators ([entryType], [schemaVersion]) are the types themselves. *)

From S2P Require Import Prelude Errors Primitives ReplayPlan ReplayJob.

Definition MAX_REPLAY_ACCOUNTING_VALUE : Z := MAX_SAFE_INTEGER.

(** The wire name of a dimension, which sorted measurement lists compare. *)
Definition dimension_name (d : ReplayBudgetDimension) : string :=
  match d with
  | concurrentInteractions => "concurrentInteractions"
  | elapsedMilliseconds => "elapsedMilliseconds"
  | emittedArtifactBytes => "emittedArtifactBytes"
  | inputTokens => "inputTokens"
  | jobAttempts => "jobAttempts"
  | modelRequests => "modelRequests"
  | outputTokens => "outputTokens"
  | providerCostMicrounits => "providerCostMicrounits"
  | retrievedBytes => "retrievedBytes"
  | toolCalls => "toolCalls"
  end.

(** ** Objects with one value per dimension

    [mapDimensions]: [Object.fromEntries(REPLAY_BUDGET_DIMENSIONS.map(...))],
    for a callback that returns and for one that may throw. *)

Definition mapDimensions {T} (map : ReplayBudgetDimension -> T) : PerDimension T :=
  perDimension (map concurrentInteractions) (map elapsedMilliseconds) (map emittedArtifactBytes)
    (map inputTokens) (map jobAttempts) (map modelRequests) (map outputTokens)
    (map providerCostMicrounits) (map retrievedBytes) (map toolCalls).

Definition tryDimensions {E T} (map : ReplayBudgetDimension -> result E T) :
    result E (PerDimension T) :=
  a ← map concurrentInteractions; b ← map elapsedMilliseconds; c ← map emittedArtifactBytes;
  d ← map inputTokens; e ← map jobAttempts; f ← map modelRequests; g ← map outputTokens;
  h ← map providerCostMicrounits; i ← map retrievedBytes; j ← map toolCalls;
  Ok (perDimension a b c d e f g h i j).

Lemma on_mapDimensions {T} (f : ReplayBudgetDimension -> T) d : on (mapDimensions f) d = f d.
Proof. by destruct d. Qed.

Lemma perDimension_ext {T} (v w : PerDimension T) : (forall d, on v d = on w d) -> v = w.
Proof.
  intros H. destruct v, w.
  pose proof (H concurrentInteractions); pose proof (H elapsedMilliseconds);
  pose proof (H emittedArtifactBytes); pose proof (H inputTokens); pose proof (H jobAttempts);
  pose proof (H modelRequests); pose proof (H outputTokens);
  pose proof (H providerCostMicrounits); pose proof (H retrievedBytes); pose proof (H toolCalls).
  simpl in *. by subst.
Qed.

Lemma tryDimensions_Ok {E T} (f : ReplayBudgetDimension -> result E T) v :
  tryDimensions f = Ok v <-> forall d, f d = Ok (on v d).
Proof.
  unfold tryDimensions. split.
  - intros H. inv_ok. by destruct d.
  - intros H. destruct v as [a b c d e f' g h i j].
    rewrite (bind_known _ _ _ (H concurrentInteractions)),
      (bind_known _ _ _ (H elapsedMilliseconds)), (bind_known _ _ _ (H emittedArtifactBytes)),
      (bind_known _ _ _ (H inputTokens)), (bind_known _ _ _ (H jobAttempts)),
      (bind_known _ _ _ (H modelRequests)), (bind_known _ _ _ (H outputTokens)),
      (bind_known _ _ _ (H providerCostMicrounits)), (bind_known _ _ _ (H retrievedBytes)),
      (bind_known _ _ _ (H toolCalls)). done.
Qed.

(** It is enough that every dimension has a value for one object to exist. *)
Lemma tryDimensions_total {E T} (f : ReplayBudgetDimension -> result E T) g :
  (forall d, f d = Ok (g d)) -> tryDimensions f = Ok (mapDimensions g).
Proof. intros H. apply tryDimensions_Ok. intros d. by rewrite on_mapDimensions. Qed.

Lemma forallb_dimensions (p : ReplayBudgetDimension -> bool) :
  forallb p REPLAY_BUDGET_DIMENSIONS = true <-> forall d, p d = true.
Proof.
  rewrite forallb_forall. split; intros H d; [|intros _; apply H].
  apply H, list_elem_of_In, elem_of_dimensions.
Qed.

(** ** Reservations *)

Record ReplayBudgetReservationDimension := {
  rd_committedBefore : Z;
  rd_limit : Z;
  rd_measurement : ReplayBudgetMeasurement;
  rd_reservedAmount : Z;
}.

Inductive ReplayBudgetWorkReference : Type :=
| attempt_start
| boundary_call (boundaryId : string) (boundaryKind : ReplayBoundaryKind)
| artifact_emission (artifactId : string).

#[global] Instance ReplayBudgetReservationDimension_eq_dec :
  EqDecision ReplayBudgetReservationDimension.
Proof. solve_decision. Defined.
#[global] Instance ReplayBudgetWorkReference_eq_dec : EqDecision ReplayBudgetWorkReference.
Proof. solve_decision. Defined.

Abbreviation ReplayBudgetReservationVector := (PerDimension ReplayBudgetReservationDimension).

Definition refineReservationDimension (value : ReplayBudgetReservationDimension) : bool :=
  negb (rd_limit value - rd_reservedAmount value <? rd_committedBefore value).

Definition ReplayBudgetReservationDimensionSchema (v : ReplayBudgetReservationDimension) : bool :=
  SafeNonnegativeIntegerSchema (rd_committedBefore v) &&
  SafePositiveIntegerSchema (rd_limit v) &&
  SafeNonnegativeIntegerSchema (rd_reservedAmount v) &&
  refineReservationDimension v.

Definition ReplayBudgetReservationVectorSchema (v : ReplayBudgetReservationVector) : bool :=
  forallb (fun d => ReplayBudgetReservationDimensionSchema (on v d)) REPLAY_BUDGET_DIMENSIONS &&
  negb (forallb (fun d => rd_reservedAmount (on v d) =? 0) REPLAY_BUDGET_DIMENSIONS).

Definition ReplayBudgetWorkReferenceSchema (w : ReplayBudgetWorkReference) : bool :=
  match w with
  | attempt_start => true
  | boundary_call boundaryId _ => OpaqueIdSchema boundaryId
  | artifact_emission artifactId => OpaqueIdSchema artifactId
  end.

Record ReplayBudgetReservation := {
  reservation_dimensions : ReplayBudgetReservationVector;
  reservation_ledgerSequence : Z;
  reservation_mutationFence : ReplayWorkerMutationFence;
  reservation_reservationId : string;
  reservation_reservedAt : timestamp;
  reservation_scope : EvidenceScope;
  reservation_work : ReplayBudgetWorkReference;
}.

#[global] Instance ReplayBudgetReservation_eq_dec : EqDecision ReplayBudgetReservation.
Proof. solve_decision. Defined.

Definition ReplayBudgetReservationSchema (r : ReplayBudgetReservation) : bool :=
  ReplayBudgetReservationVectorSchema (reservation_dimensions r) &&
  SafeNonnegativeIntegerSchema (reservation_ledgerSequence r) &&
  ReplayWorkerMutationFenceSchema (reservation_mutationFence r) &&
  OpaqueIdSchema (reservation_reservationId r) &&
  UtcMillisecondTimestampSchema (reservation_reservedAt r) &&
  EvidenceScopeSchema (reservation_scope r) &&
  ReplayBudgetWorkReferenceSchema (reservation_work r).

(** ** Usage and reconciliations *)

Inductive ReplayUsageSource : Type := usage_estimated | usage_measured | usage_provider_reported.

Inductive ReplayUsageUnavailableReason : Type :=
| measurement_failed | provider_did_not_report | source_unavailable.

Inductive ReplayUsageMeasurement : Type :=
| usage_observed (amount : Z) (source : ReplayUsageSource)
| usage_unavailable (reason : ReplayUsageUnavailableReason).

Inductive ReplayBudgetDisposition : Type := disputed | overrun | settled.

#[global] Instance ReplayUsageSource_eq_dec : EqDecision ReplayUsageSource.
Proof. solve_decision. Defined.
#[global] Instance ReplayUsageUnavailableReason_eq_dec : EqDecision ReplayUsageUnavailableReason.
Proof. solve_decision. Defined.
#[global] Instance ReplayUsageMeasurement_eq_dec : EqDecision ReplayUsageMeasurement.
Proof. solve_decision. Defined.
#[global] Instance ReplayBudgetDisposition_eq_dec : EqDecision ReplayBudgetDisposition.
Proof. solve_decision. Defined.

Definition ReplayUsageMeasurementSchema (u : ReplayUsageMeasurement) : bool :=
  match u with
  | usage_observed amount _ => SafeNonnegativeIntegerSchema amount
  | usage_unavailable _ => true
  end.

Record ReplayBudgetReconciliationDimension := {
  rc_actualUsage : ReplayUsageMeasurement;
  rc_disposition : ReplayBudgetDisposition;
  rc_overrunAmount : Z;
  rc_releasedAmount : Z;
  rc_reservedAmount : Z;
}.

#[global] Instance ReplayBudgetReconciliationDimension_eq_dec :
  EqDecision ReplayBudgetReconciliationDimension.
Proof. solve_decision. Defined.

Abbreviation ReplayBudgetReconciliationVector := (PerDimension ReplayBudgetReconciliationDimension).

Definition refineReconciliationDimension (value : ReplayBudgetReconciliationDimension) : bool :=
  match rc_actualUsage value with
  | usage_unavailable _ =>
      (rc_disposition value === disputed) && (rc_releasedAmount value =? 0) &&
      (rc_overrunAmount value =? 0)
  | usage_observed amount _ =>
      if amount <=? rc_reservedAmount value then
        (rc_disposition value === settled) &&
        (rc_releasedAmount value =? rc_reservedAmount value - amount) &&
        (rc_overrunAmount value =? 0)
      else
        (rc_disposition value === overrun) && (rc_releasedAmount value =? 0) &&
        (rc_overrunAmount value =? amount - rc_reservedAmount value)
  end.

Definition ReplayBudgetReconciliationDimensionSchema
    (v : ReplayBudgetReconciliationDimension) : bool :=
  ReplayUsageMeasurementSchema (rc_actualUsage v) &&
  SafeNonnegativeIntegerSchema (rc_overrunAmount v) &&
  SafeNonnegativeIntegerSchema (rc_releasedAmount v) &&
  SafeNonnegativeIntegerSchema (rc_reservedAmount v) &&
  refineReconciliationDimension v.

Definition ReplayBudgetReconciliationVectorSchema (v : ReplayBudgetReconciliationVector) : bool :=
  forallb (fun d => ReplayBudgetReconciliationDimensionSchema (on v d)) REPLAY_BUDGET_DIMENSIONS.

Record ReplayBudgetReconciliation := {
  reconciliation_dimensions : ReplayBudgetReconciliationVector;
  reconciliation_ledgerSequence : Z;
  reconciliation_mutationFence : ReplayWorkerMutationFence;
  reconciliation_reconciledAt : timestamp;
  reconciliation_reconciliationId : string;
  reconciliation_reservationId : string;
  reconciliation_scope : EvidenceScope;
}.

#[global] Instance ReplayBudgetReconciliation_eq_dec : EqDecision ReplayBudgetReconciliation.
Proof. solve_decision. Defined.

Definition ReplayBudgetReconciliationSchema (c : ReplayBudgetReconciliation) : bool :=
  ReplayBudgetReconciliationVectorSchema (reconciliation_dimensions c) &&
  SafeNonnegativeIntegerSchema (reconciliation_ledgerSequence c) &&
  ReplayWorkerMutationFenceSchema (reconciliation_mutationFence c) &&
  UtcMillisecondTimestampSchema (reconciliation_reconciledAt c) &&
  OpaqueIdSchema (reconciliation_reconciliationId c) &&
  OpaqueIdSchema (reconciliation_reservationId c) &&
  EvidenceScopeSchema (reconciliation_scope c).

Inductive ReplayBudgetLedgerEntry : Type :=
| ReservationEntry (reservation : ReplayBudgetReservation)
| ReconciliationEntry (reconciliation : ReplayBudgetReconciliation).

#[global] Instance ReplayBudgetLedgerEntry_eq_dec : EqDecision ReplayBudgetLedgerEntry.
Proof. solve_decision. Defined.

Definition ReplayBudgetLedgerEntrySchema (e : ReplayBudgetLedgerEntry) : bool :=
  match e with
  | ReservationEntry r => ReplayBudgetReservationSchema r
  | ReconciliationEntry c => ReplayBudgetReconciliationSchema c
  end.

(** The fields both kinds of entry have. *)
Definition entry_ledgerSequence (e : ReplayBudgetLedgerEntry) : Z :=
  match e with
  | ReservationEntry r => reservation_ledgerSequence r
  | ReconciliationEntry c => reconciliation_ledgerSequence c
  end.

Definition entry_mutationFence (e : ReplayBudgetLedgerEntry) : ReplayWorkerMutationFence :=
  match e with
  | ReservationEntry r => reservation_mutationFence r
  | ReconciliationEntry c => reconciliation_mutationFence c
  end.

Definition entry_scope (e : ReplayBudgetLedgerEntry) : EvidenceScope :=
  match e with
  | ReservationEntry r => reservation_scope r
  | ReconciliationEntry c => reconciliation_scope c
  end.

(** ** Observations *)

Record UsageMeasurementEntry := {
  measured_dimension : ReplayBudgetDimension;
  measured_usage : ReplayUsageMeasurement;
}.

#[global] Instance UsageMeasurementEntry_eq_dec : EqDecision UsageMeasurementEntry.
Proof. solve_decision. Defined.

Record ReplayUsageObservation := {
  usage_boundaryId : option string;
  usage_measurements : list UsageMeasurementEntry;
  usage_mutationFence : ReplayWorkerMutationFence;
  usage_observationId : string;
  usage_observationSequence : Z;
  usage_observedAt : timestamp;
  usage_scope : EvidenceScope;
  usage_sourceEventSha256 : string;
}.

#[global] Instance ReplayUsageObservation_eq_dec : EqDecision ReplayUsageObservation.
Proof. solve_decision. Defined.

Definition ReplayUsageMeasurementsSchema (values : list UsageMeasurementEntry) : bool :=
  (1 <=? length values)%nat && (length values <=? length REPLAY_BUDGET_DIMENSIONS)%nat &&
  forallb (fun v => ReplayUsageMeasurementSchema (measured_usage v)) values &&
  isStrictlySortedUnique ((fun v => dimension_name (measured_dimension v)) <$> values).

Definition ReplayUsageObservationSchema (o : ReplayUsageObservation) : bool :=
  optional OpaqueIdSchema (usage_boundaryId o) &&
  ReplayUsageMeasurementsSchema (usage_measurements o) &&
  ReplayWorkerMutationFenceSchema (usage_mutationFence o) &&
  OpaqueIdSchema (usage_observationId o) &&
  SafeNonnegativeIntegerSchema (usage_observationSequence o) &&
  UtcMillisecondTimestampSchema (usage_observedAt o) &&
  EvidenceScopeSchema (usage_scope o) &&
  Sha256Schema (usage_sourceEventSha256 o).

Inductive BoundaryOutputOrigin : Type := origin_live | origin_recorded | origin_simulated.
Inductive BoundaryPhase : Type := phase_failed | request_started | response_observed.
Inductive TargetEvent : Type := exited | started | stderr_capped | stdout_capped.
Inductive CancellationEvent : Type :=
| late_completion_observed | request_observed | stop_requested_event
| stopped_before_target_start_event.
Inductive IsolationControl : Type :=
| environment_allowlist | filesystem_mounts | network_policy | no_new_privileges
| output_limits | process_boundary | resource_limits | subprocess_policy.
Inductive IsolationVerdict : Type := verdict_failed | not_verified | verified.

#[global] Instance BoundaryOutputOrigin_eq_dec : EqDecision BoundaryOutputOrigin.
Proof. solve_decision. Defined.
#[global] Instance BoundaryPhase_eq_dec : EqDecision BoundaryPhase.
Proof. solve_decision. Defined.
#[global] Instance TargetEvent_eq_dec : EqDecision TargetEvent.
Proof. solve_decision. Defined.
#[global] Instance CancellationEvent_eq_dec : EqDecision CancellationEvent.
Proof. solve_decision. Defined.
#[global] Instance IsolationControl_eq_dec : EqDecision IsolationControl.
Proof. solve_decision. Defined.
#[global] Instance IsolationVerdict_eq_dec : EqDecision IsolationVerdict.
Proof. solve_decision. Defined.

Record BoundaryExecutionObservation := {
  boundary_obs_afterCancellationRequest : bool;
  boundary_obs_boundaryId : string;
  boundary_obs_boundaryKind : ReplayBoundaryKind;
  boundary_obs_effectCertainty : ReplayEffectCertainty;
  boundary_obs_evidenceSha256 : string;
  boundary_obs_mode : ReplayBoundaryMode;
  boundary_obs_executionOrigin : BoundaryOutputOrigin;
  boundary_obs_phase : BoundaryPhase;
}.

Record TargetExecutionObservation := {
  target_obs_afterCancellationRequest : bool;
  target_obs_evidenceSha256 : string;
  target_obs_event : TargetEvent;
  target_obs_exitCode : option Z;
}.

Record CancellationExecutionObservation := {
  cancellation_obs_cancellationId : string;
  cancellation_obs_event : CancellationEvent;
  cancellation_obs_evidenceSha256 : string;
}.

Record IsolationExecutionObservation := {
  isolation_obs_control : IsolationControl;
  isolation_obs_evidenceSha256 : string;
  isolation_obs_verdict : IsolationVerdict;
}.

#[global] Instance BoundaryExecutionObservation_eq_dec : EqDecision BoundaryExecutionObservation.
Proof. solve_decision. Defined.
#[global] Instance TargetExecutionObservation_eq_dec : EqDecision TargetExecutionObservation.
Proof. solve_decision. Defined.
#[global] Instance CancellationExecutionObservation_eq_dec :
  EqDecision CancellationExecutionObservation.
Proof. solve_decision. Defined.
#[global] Instance IsolationExecutionObservation_eq_dec : EqDecision IsolationExecutionObservation.
Proof. solve_decision. Defined.

Inductive ReplayExecutionObservationPayload : Type :=
| BoundaryObservation (value : BoundaryExecutionObservation)
| CancellationObservation (value : CancellationExecutionObservation)
| IsolationObservation (value : IsolationExecutionObservation)
| TargetObservation (value : TargetExecutionObservation).

#[global] Instance ReplayExecutionObservationPayload_eq_dec :
  EqDecision ReplayExecutionObservationPayload.
Proof. solve_decision. Defined.

Definition expectedOrigin (mode : ReplayBoundaryMode) : BoundaryOutputOrigin :=
  match mode with
  | live_provider => origin_live
  | recorded_stub => origin_recorded
  | simulation => origin_simulated
  end.

Definition BoundaryExecutionObservationSchema (v : BoundaryExecutionObservation) : bool :=
  OpaqueIdSchema (boundary_obs_boundaryId v) && Sha256Schema (boundary_obs_evidenceSha256 v) &&
  (boundary_obs_executionOrigin v === expectedOrigin (boundary_obs_mode v)) &&
  negb ((boundary_obs_mode v !== live_provider) && (boundary_obs_effectCertainty v !== no_effect)).

Definition TargetExecutionObservationSchema (v : TargetExecutionObservation) : bool :=
  Sha256Schema (target_obs_evidenceSha256 v) &&
  optional (fun code => (-1 <=? code) && (code <=? 255)) (target_obs_exitCode v) &&
  Bool.eqb (target_obs_event v === exited) (defined (target_obs_exitCode v)).

Definition CancellationExecutionObservationSchema (v : CancellationExecutionObservation) : bool :=
  OpaqueIdSchema (cancellation_obs_cancellationId v) &&
  Sha256Schema (cancellation_obs_evidenceSha256 v).

Definition IsolationExecutionObservationSchema (v : IsolationExecutionObservation) : bool :=
  Sha256Schema (isolation_obs_evidenceSha256 v).

Definition ReplayExecutionObservationPayloadSchema (p : ReplayExecutionObservationPayload) : bool :=
  match p with
  | BoundaryObservation v => BoundaryExecutionObservationSchema v
  | CancellationObservation v => CancellationExecutionObservationSchema v
  | IsolationObservation v => IsolationExecutionObservationSchema v
  | TargetObservation v => TargetExecutionObservationSchema v
  end.

Record ReplayExecutionObservation := {
  execution_mutationFence : ReplayWorkerMutationFence;
  execution_observationId : string;
  execution_observationSequence : Z;
  execution_observedAt : timestamp;
  execution_payload : ReplayExecutionObservationPayload;
  execution_scope : EvidenceScope;
}.

#[global] Instance ReplayExecutionObservation_eq_dec : EqDecision ReplayExecutionObservation.
Proof. solve_decision. Defined.

Definition ReplayExecutionObservationSchema (o : ReplayExecutionObservation) : bool :=
  ReplayWorkerMutationFenceSchema (execution_mutationFence o) &&
  OpaqueIdSchema (execution_observationId o) &&
  SafeNonnegativeIntegerSchema (execution_observationSequence o) &&
  UtcMillisecondTimestampSchema (execution_observedAt o) &&
  ReplayExecutionObservationPayloadSchema (execution_payload o) &&
  EvidenceScopeSchema (execution_scope o).

(** ** What the vector schemas give, dimension by dimension *)

Lemma reservation_dimension_facts r d :
  ReplayBudgetReservationSchema r = true ->
  let v := on (reservation_dimensions r) d in
  0 <= rd_committedBefore v /\ 0 <= rd_reservedAmount v /\
  rd_committedBefore v + rd_reservedAmount v <= rd_limit v <= MAX_SAFE_INTEGER.
Proof.
  intros H v. unfold ReplayBudgetReservationSchema, ReplayBudgetReservationVectorSchema in H.
  breflect. destruct_and!.
  match goal with H : forallb _ _ = true |- _ =>
    rewrite forallb_dimensions in H; specialize (H d); fold v in H; revert H end.
  unfold ReplayBudgetReservationDimensionSchema, refineReservationDimension. breflect. lia.
Qed.

(** The three amounts of a reconciled dimension balance: what was reserved and
    what overran equals what is still charged and what was released. *)
Definition charge (v : ReplayBudgetReconciliationDimension) : Z :=
  match rc_actualUsage v with
  | usage_observed amount _ => amount
  | usage_unavailable _ => rc_reservedAmount v
  end.

Lemma reconciliation_dimension_facts c d :
  ReplayBudgetReconciliationSchema c = true ->
  let v := on (reconciliation_dimensions c) d in
  0 <= rc_overrunAmount v <= MAX_SAFE_INTEGER /\
  0 <= rc_releasedAmount v <= MAX_SAFE_INTEGER /\
  0 <= rc_reservedAmount v <= MAX_SAFE_INTEGER /\
  rc_reservedAmount v + rc_overrunAmount v = charge v + rc_releasedAmount v /\
  rc_releasedAmount v <= rc_reservedAmount v /\
  (rc_disposition v <> overrun -> rc_overrunAmount v = 0).
Proof.
  intros H v. unfold ReplayBudgetReconciliationSchema, ReplayBudgetReconciliationVectorSchema in H.
  breflect. destruct_and!.
  match goal with H : forallb _ _ = true |- _ =>
    rewrite forallb_dimensions in H; specialize (H d); fold v in H; revert H end.
  unfold ReplayBudgetReconciliationDimensionSchema, refineReconciliationDimension, charge,
    ReplayUsageMeasurementSchema.
  destruct (rc_actualUsage v); [destruct (Z.leb_spec amount (rc_reservedAmount v))|]; breflect;
    intros; destruct_and!; split_and!; try lia; intros; lia || done.
Qed.
