(* ===== verification/ReplayBudget.v ===== *)
(** * The replay budget ledger

    [packages/replay/src/replay-budget.ts]: reserving an amount of every budget
    dimension before work starts, reconciling the reservation with the usage
    that was observed, and folding a ledger into the totals it commits.  The
    theorems show that a reservation is accepted exactly within the plan's
    limits, that a reconciliation balances in every dimension, and that the
    folded total is the sum of what every reservation is still charged, which
    exceeds a limit only by the overruns the ledger reports. *)

From S2P Require Import Prelude Errors Primitives ReplayPlan ReplayJob ReplayAccounting.

Abbreviation ReplayBudgetAmounts := (PerDimension Z).
Abbreviation ReplayUsageMeasurements := (PerDimension ReplayUsageMeasurement).

Record ReserveReplayBudgetOptions := {
  reserve_budget : ReplayBudget;
  reserve_committed : ReplayBudgetAmounts;
  reserve_ledgerSequence : Z;
  reserve_mutationFence : ReplayWorkerMutationFence;
  reserve_requested : ReplayBudgetAmounts;
  reserve_reservationId : string;
  reserve_reservedAt : timestamp;
  reserve_scope : EvidenceScope;
  reserve_work : ReplayBudgetWorkReference;
}.

Record ReconcileReplayBudgetOptions := {
  reconcile_ledgerSequence : Z;
  reconcile_reconciledAt : timestamp;
  reconcile_reconciliationId : string;
  reconcile_usage : ReplayUsageMeasurements;
}.

Record ReplayBudgetLedgerSummary := {
  summary_committed : ReplayBudgetAmounts;
  summary_disputed : list string;
  summary_openReservationIds : list string;
  summary_overruns : list string;
  summary_reconciliationCount : Z;
  summary_reservationCount : Z;
}.

(** ** Parsing amounts and usage

    The key checks of the source are the types [ReplayBudgetAmounts] and
    [ReplayUsageMeasurements]: exactly one value per dimension. *)

Definition amount_ok (value : Z) : bool := isSafeInteger value && negb (value <? 0).

Definition parseAmounts (values : ReplayBudgetAmounts) : res ReplayBudgetAmounts :=
  tryDimensions (fun dimension =>
    parse_with (DurableReplayAccountingError invalid_amounts) amount_ok (on values dimension)).

Definition parseUsage (values : ReplayUsageMeasurements) : res ReplayUsageMeasurements :=
  tryDimensions (fun dimension =>
    parse_with (DurableReplayAccountingError invalid_usage) ReplayUsageMeasurementSchema
      (on values dimension)).

Definition checkedAdd (left right : Z) : res Z :=
  if MAX_REPLAY_ACCOUNTING_VALUE - left <? right then accounting_error arithmetic_overflow
  else Ok (left + right).

Definition emptyReplayBudgetAmounts : ReplayBudgetAmounts := mapDimensions (fun _ => 0).

(** ** Reserving *)

Definition reserveReplayBudget (options : ReserveReplayBudgetOptions) :
    res ReplayBudgetReservation :=
  budget ← parse_with (DurableReplayAccountingError invalid_budget) ReplayBudgetSchema
             (reserve_budget options);
  committed ← parseAmounts (reserve_committed options);
  requested ← parseAmounts (reserve_requested options);
  parse ReplayBudgetReservationSchema {|
    reservation_dimensions := mapDimensions (fun dimension => {|
      rd_committedBefore := on committed dimension;
      rd_limit := budget_limit (on budget dimension);
      rd_measurement := budget_measurement (on budget dimension);
      rd_reservedAmount := on requested dimension |});
    reservation_ledgerSequence := reserve_ledgerSequence options;
    reservation_mutationFence := reserve_mutationFence options;
    reservation_reservationId := reserve_reservationId options;
    reservation_reservedAt := reserve_reservedAt options;
    reservation_scope := reserve_scope options;
    reservation_work := reserve_work options
  |}.

Definition applyReplayBudgetReservation (committedInput : ReplayBudgetAmounts)
    (reservationInput : ReplayBudgetReservation) : res ReplayBudgetAmounts :=
  committed ← parseAmounts committedInput;
  reservation ← parse ReplayBudgetReservationSchema reservationInput;
  tryDimensions (fun dimension =>
    let entry := on (reservation_dimensions reservation) dimension in
    reject_when (negb (rd_committedBefore entry =? on committed dimension))
      (DurableReplayAccountingError accounting_conflict) ;;
    checkedAdd (on committed dimension) (rd_reservedAmount entry)).

(** ** Reconciling *)

Definition reconcile_dimension (reservedAmount : Z) (actualUsage : ReplayUsageMeasurement) :
    ReplayBudgetReconciliationDimension :=
  match actualUsage with
  | usage_unavailable _ => {|
      rc_actualUsage := actualUsage;
      rc_disposition := disputed;
      rc_overrunAmount := 0;
      rc_releasedAmount := 0;
      rc_reservedAmount := reservedAmount |}
  | usage_observed amount _ =>
      if amount <=? reservedAmount then {|
        rc_actualUsage := actualUsage;
        rc_disposition := settled;
        rc_overrunAmount := 0;
        rc_releasedAmount := reservedAmount - amount;
        rc_reservedAmount := reservedAmount |}
      else {|
        rc_actualUsage := actualUsage;
        rc_disposition := overrun;
        rc_overrunAmount := amount - reservedAmount;
        rc_releasedAmount := 0;
        rc_reservedAmount := reservedAmount |}
  end.

Definition reconcileReplayBudget (reservationInput : ReplayBudgetReservation)
    (options : ReconcileReplayBudgetOptions) : res ReplayBudgetReconciliation :=
  reservation ← parse ReplayBudgetReservationSchema reservationInput;
  usage ← parseUsage (reconcile_usage options);
  parse ReplayBudgetReconciliationSchema {|
    reconciliation_dimensions := mapDimensions (fun dimension =>
      reconcile_dimension (rd_reservedAmount (on (reservation_dimensions reservation) dimension))
        (on usage dimension));
    reconciliation_ledgerSequence := reconcile_ledgerSequence options;
    reconciliation_mutationFence := reservation_mutationFence reservation;
    reconciliation_reconciledAt := reconcile_reconciledAt options;
    reconciliation_reconciliationId := reconcile_reconciliationId options;
    reconciliation_reservationId := reservation_reservationId reservation;
    reconciliation_scope := reservation_scope reservation
  |}.

Definition applyReplayBudgetReconciliation (committedInput : ReplayBudgetAmounts)
    (reservationInput : ReplayBudgetReservation)
    (reconciliationInput : ReplayBudgetReconciliation) : res ReplayBudgetAmounts :=
  committed ← parseAmounts committedInput;
  reservation ← parse ReplayBudgetReservationSchema reservationInput;
  reconciliation ← parse ReplayBudgetReconciliationSchema reconciliationInput;
  reject_when
    ((reconciliation_reservationId reconciliation !== reservation_reservationId reservation) ||
     (reconciliation_ledgerSequence reconciliation <=? reservation_ledgerSequence reservation) ||
     negb (sameScope (reconciliation_scope reconciliation) (reservation_scope reservation)) ||
     negb (sameFence (reconciliation_mutationFence reconciliation)
             (reservation_mutationFence reservation)))
    (DurableReplayAccountingError accounting_conflict) ;;
  tryDimensions (fun dimension =>
    let reservedAmount := rd_reservedAmount (on (reservation_dimensions reservation) dimension) in
    let reconciled := on (reconciliation_dimensions reconciliation) dimension in
    reject_when
      (negb (rc_reservedAmount reconciled =? reservedAmount) ||
       (on committed dimension <? rc_releasedAmount reconciled))
      (DurableReplayAccountingError accounting_conflict) ;;
    checkedAdd (on committed dimension - rc_releasedAmount reconciled)
      (rc_overrunAmount reconciled)).

(** ** Folding a ledger

    The local variables of the loop.  [ledger_reservations] is the source's
    insertion-ordered [Map], [ledger_reconciled] its [Set]. *)

Record LedgerState := {
  ledger_committed : ReplayBudgetAmounts;
  ledger_reservations : list ReplayBudgetReservation;
  ledger_reconciled : list string;
  ledger_disputed : list string;
  ledger_overruns : list string;
  ledger_reconciliationCount : Z;
}.

Definition emptyLedger : LedgerState := {|
  ledger_committed := emptyReplayBudgetAmounts;
  ledger_reservations := [];
  ledger_reconciled := [];
  ledger_disputed := [];
  ledger_overruns := [];
  ledger_reconciliationCount := 0
|}.

(** [reservations.get(reservationId)] *)
Definition find_reservation (reservations : list ReplayBudgetReservation) (reservationId : string) :
    option ReplayBudgetReservation :=
  List.find (fun r => reservation_reservationId r === reservationId) reservations.

(** [`${reservationId}:${dimension}`] for the dimensions with a disposition. *)
Definition disposition_labels (entry : ReplayBudgetReconciliation)
    (disposition : ReplayBudgetDisposition) : list string :=
  (fun dimension => reconciliation_reservationId entry +:+ ":" +:+ dimension_name dimension) <$>
  filter (fun dimension => rc_disposition (on (reconciliation_dimensions entry) dimension) = disposition)
    REPLAY_BUDGET_DIMENSIONS.

Definition summarize_entry (state : LedgerState) (indexed : nat * ReplayBudgetLedgerEntry) :
    res LedgerState :=
  let '(index, input) := indexed in
  entry ← parse ReplayBudgetLedgerEntrySchema input;
  reject_when (negb (entry_ledgerSequence entry =? Z.of_nat index))
    (DurableReplayAccountingError ledger_order) ;;
  match entry with
  | ReservationEntry reservation =>
      reject_when
        (defined (find_reservation (ledger_reservations state) (reservation_reservationId reservation)))
        (DurableReplayAccountingError duplicate_entry) ;;
      committed ← applyReplayBudgetReservation (ledger_committed state) reservation;
      Ok {| ledger_committed := committed;
            ledger_reservations := ledger_reservations state ++ [reservation];
            ledger_reconciled := ledger_reconciled state;
            ledger_disputed := ledger_disputed state;
            ledger_overruns := ledger_overruns state;
            ledger_reconciliationCount := ledger_reconciliationCount state |}
  | ReconciliationEntry reconciliation =>
      let reservationId := reconciliation_reservationId reconciliation in
      match find_reservation (ledger_reservations state) reservationId with
      | None => accounting_error missing_reservation
      | Some reservation =>
          reject_when (includes (ledger_reconciled state) reservationId)
            (DurableReplayAccountingError duplicate_entry) ;;
          committed ←
            applyReplayBudgetReconciliation (ledger_committed state) reservation reconciliation;
          Ok {| ledger_committed := committed;
                ledger_reservations := ledger_reservations state;
                ledger_reconciled := ledger_reconciled state ++ [reservationId];
                ledger_disputed := ledger_disputed state ++ disposition_labels reconciliation disputed;
                ledger_overruns := ledger_overruns state ++ disposition_labels reconciliation overrun;
                ledger_reconciliationCount := ledger_reconciliationCount state + 1 |}
      end
  end.

Definition fold_ledger (entries : list ReplayBudgetLedgerEntry) : res LedgerState :=
  fold_result summarize_entry emptyLedger (indexed entries).

Definition open_reservations (state : LedgerState) : list ReplayBudgetReservation :=
  filter (fun r => includes (ledger_reconciled state) (reservation_reservationId r) = false)
    (ledger_reservations state).

Definition summarizeReplayBudgetLedger (entriesInput : list ReplayBudgetLedgerEntry) :
    res ReplayBudgetLedgerSummary :=
  state ← fold_ledger entriesInput;
  Ok {| summary_committed := ledger_committed state;
        summary_disputed := ledger_disputed state;
        summary_openReservationIds := reservation_reservationId <$> open_reservations state;
        summary_overruns := ledger_overruns state;
        summary_reconciliationCount := ledger_reconciliationCount state;
        summary_reservationCount := Z.of_nat (length (ledger_reservations state)) |}.

(** ** The helpers, as equivalences *)

Lemma parseAmounts_Ok v w :
  parseAmounts v = Ok w <-> w = v /\ forall d, 0 <= on v d <= MAX_SAFE_INTEGER.
Proof.
  unfold parseAmounts. rewrite tryDimensions_Ok. setoid_rewrite parse_with_Ok.
  assert (Ha : forall x, amount_ok x = true <-> 0 <= x <= MAX_SAFE_INTEGER).
  { intros x. unfold amount_ok. breflect. rewrite isSafeInteger_spec. lia. }
  split.
  - intros H. split; [apply perDimension_ext; apply H|]. intros d. apply Ha, H.
  - intros [-> H] d. by rewrite Ha.
Qed.

Lemma parseUsage_Ok v w :
  parseUsage v = Ok w <-> w = v /\ forall d, ReplayUsageMeasurementSchema (on v d) = true.
Proof.
  unfold parseUsage. rewrite tryDimensions_Ok. setoid_rewrite parse_with_Ok. split.
  - intros H. split; [apply perDimension_ext; apply H|]. apply H.
  - intros [-> H] d. done.
Qed.

Lemma checkedAdd_Ok a b c :
  checkedAdd a b = Ok c <-> a + b <= MAX_REPLAY_ACCOUNTING_VALUE /\ c = a + b.
Proof.
  unfold checkedAdd. case_match; breflect; [split; [discriminate|lia]|].
  split; [intros [= <-]; lia | intros [_ ->]; done].
Qed.

(** ** Reservations *)

(** Where a request is admitted: every total stays within its limit, and at
    least one dimension is reserved. *)
Definition within_limits (o : ReserveReplayBudgetOptions) : Prop :=
  (forall d, 0 <= on (reserve_committed o) d /\ 0 <= on (reserve_requested o) d /\
     on (reserve_committed o) d + on (reserve_requested o) d <=
       budget_limit (on (reserve_budget o) d)) /\
  exists d, 0 < on (reserve_requested o) d.

Definition reservation_of (o : ReserveReplayBudgetOptions) : ReplayBudgetReservation := {|
  reservation_dimensions := mapDimensions (fun d => {|
    rd_committedBefore := on (reserve_committed o) d;
    rd_limit := budget_limit (on (reserve_budget o) d);
    rd_measurement := budget_measurement (on (reserve_budget o) d);
    rd_reservedAmount := on (reserve_requested o) d |});
  reservation_ledgerSequence := reserve_ledgerSequence o;
  reservation_mutationFence := reserve_mutationFence o;
  reservation_reservationId := reserve_reservationId o;
  reservation_reservedAt := reserve_reservedAt o;
  reservation_scope := reserve_scope o;
  reservation_work := reserve_work o
|}.

(** The identifying fields of a reservation are well formed. *)
Definition reservation_fields (r : ReplayBudgetReservation) : bool :=
  SafeNonnegativeIntegerSchema (reservation_ledgerSequence r) &&
  ReplayWorkerMutationFenceSchema (reservation_mutationFence r) &&
  OpaqueIdSchema (reservation_reservationId r) &&
  UtcMillisecondTimestampSchema (reservation_reservedAt r) &&
  EvidenceScopeSchema (reservation_scope r) &&
  ReplayBudgetWorkReferenceSchema (reservation_work r).

Lemma reservation_vector_spec v :
  ReplayBudgetReservationVectorSchema v = true <->
  (forall d, 0 <= rd_committedBefore (on v d) /\ 0 <= rd_reservedAmount (on v d) /\
     rd_committedBefore (on v d) + rd_reservedAmount (on v d) <= rd_limit (on v d) /\
     1 <= rd_limit (on v d) <= MAX_SAFE_INTEGER) /\
  exists d, 0 < rd_reservedAmount (on v d).
Proof.
  unfold ReplayBudgetReservationVectorSchema. breflect. rewrite forallb_dimensions.
  assert (Hd : forall d, ReplayBudgetReservationDimensionSchema (on v d) = true <->
    0 <= rd_committedBefore (on v d) /\ 0 <= rd_reservedAmount (on v d) /\
     rd_committedBefore (on v d) + rd_reservedAmount (on v d) <= rd_limit (on v d) /\
     1 <= rd_limit (on v d) <= MAX_SAFE_INTEGER).
  { intros d. unfold ReplayBudgetReservationDimensionSchema, refineReservationDimension.
    breflect. lia. }
  setoid_rewrite Hd. split; intros [H1 H2]; (split; [done|]).
  - apply not_true_iff_false in H2. rewrite forallb_dimensions in H2.
    destruct (decide (Exists (fun d => 0 < rd_reservedAmount (on v d)) REPLAY_BUDGET_DIMENSIONS))
      as [He|He].
    + apply Exists_exists in He as (d & _ & He). eauto.
    + destruct H2. intros d. apply Z.eqb_eq. rewrite Exists_exists in He.
      destruct (H1 d) as (_ & ? & _). destruct (Z.eq_dec (rd_reservedAmount (on v d)) 0); [done|].
      destruct He. exists d. split; [apply elem_of_dimensions|lia].
  - apply not_true_iff_false. rewrite forallb_dimensions. intros H3.
    destruct H2 as [d Hd']. specialize (H3 d). breflect. lia.
Qed.

Lemma reservation_schema_split r :
  ReplayBudgetReservationSchema r =
  ReplayBudgetReservationVectorSchema (reservation_dimensions r) && reservation_fields r.
Proof. unfold ReplayBudgetReservationSchema, reservation_fields. by rewrite !andb_assoc. Qed.

Lemma reserve_iff o r :
  reserveReplayBudget o = Ok r <->
  ReplayBudgetSchema (reserve_budget o) = true /\ within_limits o /\
  reservation_fields r = true /\ r = reservation_of o.
Proof.
  unfold reserveReplayBudget. split.
  - intros H. inv_res. rewrite parseAmounts_Ok in *. inv_res.
    match goal with H : ReplayBudgetReservationSchema _ = true |- _ =>
      rewrite reservation_schema_split in H; breflect; destruct H as [Hv Hf];
      apply reservation_vector_spec in Hv as [Hv Hpos]; simpl in Hv, Hpos end.
    setoid_rewrite on_mapDimensions in Hpos.
    split_and!; [done| |done|done]. split; [|done].
    intros d. specialize (Hv d). rewrite on_mapDimensions in Hv. simpl in Hv. lia.
  - intros (Hb & [Hw Hpos] & Hf & ->).
    pose proof (proj1 (ReplayBudgetSchema_spec _) Hb) as Hlim. unfold MAX_REPLAY_BUDGET_VALUE in Hlim.
    rewrite (bind_known _ _ (reserve_budget o)) by (by apply parse_known).
    rewrite (bind_known _ _ (reserve_committed o))
      by (apply parseAmounts_Ok; split; [done|]; intros d; specialize (Hw d); specialize (Hlim d); lia).
    rewrite (bind_known _ _ (reserve_requested o))
      by (apply parseAmounts_Ok; split; [done|]; intros d; specialize (Hw d); specialize (Hlim d); lia).
    apply parse_accepted. rewrite reservation_schema_split. apply andb_true_iff; split; [|done].
    apply reservation_vector_spec. setoid_rewrite on_mapDimensions. simpl. split; [|done].
    intros d. specialize (Hw d). specialize (Hlim d). lia.
Qed.

Lemma apply_reservation_iff committed r committed' :
  applyReplayBudgetReservation committed r = Ok committed' <->
  ReplayBudgetReservationSchema r = true /\
  (forall d, on committed d = rd_committedBefore (on (reservation_dimensions r) d)) /\
  committed' = mapDimensions (fun d =>
    on committed d + rd_reservedAmount (on (reservation_dimensions r) d)).
Proof.
  unfold applyReplayBudgetReservation. split.
  - intros H. inv_res. rewrite parseAmounts_Ok in *. inv_res. rewrite tryDimensions_Ok in H.
    split; [done|]. split.
    + intros d. specialize (H d). inv_res. breflect. lia.
    + apply perDimension_ext. intros d. rewrite on_mapDimensions. specialize (H d). inv_res.
      rewrite checkedAdd_Ok in *. tauto.
  - intros (Hv & Hc & ->).
    pose proof (fun d => reservation_dimension_facts r d Hv) as Hf. simpl in Hf.
    rewrite (bind_known _ _ committed)
      by (apply parseAmounts_Ok; split; [done|]; intros d; specialize (Hf d); rewrite Hc; lia).
    rewrite (bind_known _ _ r) by (by apply parse_accepted).
    apply tryDimensions_total. intros d. specialize (Hf d).
    rewrite (bind_known _ _ tt) by (apply reject_known; rewrite Hc, Z.eqb_refl; done).
    apply checkedAdd_Ok. split; [|done]. rewrite Hc. unfold MAX_REPLAY_ACCOUNTING_VALUE. lia.
Qed.

(** ** Reconciliations *)

Definition reconciliation_of (r : ReplayBudgetReservation) (o : ReconcileReplayBudgetOptions) :
    ReplayBudgetReconciliation := {|
  reconciliation_dimensions := mapDimensions (fun d =>
    reconcile_dimension (rd_reservedAmount (on (reservation_dimensions r) d))
      (on (reconcile_usage o) d));
  reconciliation_ledgerSequence := reconcile_ledgerSequence o;
  reconciliation_mutationFence := reservation_mutationFence r;
  reconciliation_reconciledAt := reconcile_reconciledAt o;
  reconciliation_reconciliationId := reconcile_reconciliationId o;
  reconciliation_reservationId := reservation_reservationId r;
  reconciliation_scope := reservation_scope r
|}.

Lemma reconcile_dimension_valid reserved usage :
  0 <= reserved <= MAX_SAFE_INTEGER -> ReplayUsageMeasurementSchema usage = true ->
  ReplayBudgetReconciliationDimensionSchema (reconcile_dimension reserved usage) = true.
Proof.
  intros Hr Hu. unfold ReplayBudgetReconciliationDimensionSchema, refineReconciliationDimension,
    reconcile_dimension. destruct usage as [amount src|reason]; simpl in *.
  - destruct (Z.leb_spec amount reserved) as [Hle|Hle]; simpl.
    + rewrite (proj2 (Z.leb_le _ _) Hle). breflect. lia || (split_and!; try done; lia).
    + rewrite (proj2 (Z.leb_gt _ _) Hle). breflect. lia || (split_and!; try done; lia).
  - breflect. split_and!; try done; lia.
Qed.

(** Reconciling a valid reservation never fails on the amounts: only the
    identifying fields and the usage values are refused. *)
Lemma reconcile_iff r o c :
  reconcileReplayBudget r o = Ok c <->
  ReplayBudgetReservationSchema r = true /\
  (forall d, ReplayUsageMeasurementSchema (on (reconcile_usage o) d) = true) /\
  0 <= reconcile_ledgerSequence o <= MAX_SAFE_INTEGER /\
  MIN_TIMESTAMP <= reconcile_reconciledAt o <= MAX_TIMESTAMP /\
  OpaqueIdSchema (reconcile_reconciliationId o) = true /\
  c = reconciliation_of r o.
Proof.
  unfold reconcileReplayBudget. split.
  - intros H. inv_res. rewrite parseUsage_Ok in *. inv_res.
    match goal with H : ReplayBudgetReconciliationSchema _ = true |- _ =>
      unfold ReplayBudgetReconciliationSchema in H; simpl in H end.
    breflect. tauto.
  - intros (Hr & Hu & Hs & Ht & Hid & ->).
    rewrite (bind_known _ _ r) by (by apply parse_accepted).
    rewrite (bind_known _ _ (reconcile_usage o)) by (by apply parseUsage_Ok).
    apply parse_accepted. unfold ReplayBudgetReconciliationSchema; simpl.
    pose proof (fun d => reservation_dimension_facts r d Hr) as Hf. simpl in Hf.
    unfold ReplayBudgetReservationSchema in Hr. breflect. destruct_and!.
    split_and!; try done; try lia.
    apply forallb_dimensions. intros d. rewrite on_mapDimensions.
    apply reconcile_dimension_valid; [|done]. specialize (Hf d). lia.
Qed.

(** A reconciliation that closes a reservation. *)
Definition closes (r : ReplayBudgetReservation) (c : ReplayBudgetReconciliation) : Prop :=
  ReplayBudgetReservationSchema r = true /\ ReplayBudgetReconciliationSchema c = true /\
  reconciliation_reservationId c = reservation_reservationId r /\
  reservation_ledgerSequence r < reconciliation_ledgerSequence c /\
  reconciliation_scope c = reservation_scope r /\
  reconciliation_mutationFence c = reservation_mutationFence r /\
  forall d, rc_reservedAmount (on (reconciliation_dimensions c) d) =
            rd_reservedAmount (on (reservation_dimensions r) d).

Lemma reconciliation_of_closes r o c :
  reconcileReplayBudget r o = Ok c -> reservation_ledgerSequence r < reconcile_ledgerSequence o ->
  closes r c.
Proof.
  intros H Hlt. assert (Hc : ReplayBudgetReconciliationSchema c = true).
  { unfold reconcileReplayBudget in H. inv_res. done. }
  apply reconcile_iff in H as (Hr & _ & _ & _ & _ & ->).
  unfold closes. simpl. split_and!; try done. intros d. rewrite on_mapDimensions.
  unfold reconcile_dimension. repeat case_match; done.
Qed.

Lemma apply_reconciliation_iff committed r c committed' :
  applyReplayBudgetReconciliation committed r c = Ok committed' <->
  (forall d, 0 <= on committed d <= MAX_SAFE_INTEGER) /\ closes r c /\
  (forall d, let v := on (reconciliation_dimensions c) d in
     rc_releasedAmount v <= on committed d /\
     on committed d - rc_releasedAmount v + rc_overrunAmount v <= MAX_SAFE_INTEGER) /\
  committed' = mapDimensions (fun d =>
    on committed d - rc_releasedAmount (on (reconciliation_dimensions c) d) +
    rc_overrunAmount (on (reconciliation_dimensions c) d)).
Proof.
  unfold applyReplayBudgetReconciliation. split.
  - intros H. inv_res. rewrite parseAmounts_Ok in *. inv_res. rewrite tryDimensions_Ok in H.
    breflect. destruct_and!.
    assert (Hd : forall d, let v := on (reconciliation_dimensions c) d in
      rc_reservedAmount v = rd_reservedAmount (on (reservation_dimensions r) d) /\
      rc_releasedAmount v <= on committed d /\
      on committed d - rc_releasedAmount v + rc_overrunAmount v <= MAX_SAFE_INTEGER /\
      on committed' d = on committed d - rc_releasedAmount v + rc_overrunAmount v).
    { intros d v. specialize (H d). fold v in H. inv_res. rewrite checkedAdd_Ok in *.
      unfold MAX_REPLAY_ACCOUNTING_VALUE in *. breflect. lia. }
    split; [done|]. split; [|split].
    + unfold closes. split_and!; try done. intros d. apply Hd.
    + intros d. destruct (Hd d) as (_ & ? & ? & _). done.
    + apply perDimension_ext. intros d. rewrite on_mapDimensions. apply Hd.
  - intros (Hc & (Hr & Hcv & Hid & Hsq & Hsc & Hfe & Hra) & Hb & ->).
    rewrite (bind_known _ _ committed) by (by apply parseAmounts_Ok).
    rewrite (bind_known _ _ r) by (by apply parse_accepted).
    rewrite (bind_known _ _ c) by (by apply parse_accepted).
    rewrite (bind_known _ _ tt).
    2: { apply reject_known. rewrite Hid, Hsc, Hfe, sameScope_refl, sameFence_refl. breflect.
         split_and!; try done; lia. }
    apply tryDimensions_total. intros d. specialize (Hb d). simpl in Hb.
    rewrite (bind_known _ _ tt).
    2: { apply reject_known. rewrite Hra, Z.eqb_refl. simpl. breflect. lia. }
    apply checkedAdd_Ok. unfold MAX_REPLAY_ACCOUNTING_VALUE. lia.
Qed.

(** ** What a ledger means *)

Definition reservations_of (entries : list ReplayBudgetLedgerEntry) : list ReplayBudgetReservation :=
  omap (fun e => match e with ReservationEntry r => Some r | ReconciliationEntry _ => None end) entries.

Definition reconciliations_of (entries : list ReplayBudgetLedgerEntry) :
    list ReplayBudgetReconciliation :=
  omap (fun e => match e with ReservationEntry _ => None | ReconciliationEntry c => Some c end) entries.

Definition reconciliation_for (entries : list ReplayBudgetLedgerEntry) (reservationId : string) :
    option ReplayBudgetReconciliation :=
  List.find (fun c => reconciliation_reservationId c === reservationId) (reconciliations_of entries).

(** What a reservation still holds of a dimension: all of it while it is open
    or its usage is unavailable, the observed usage once it is known. *)
Definition charged (entries : list ReplayBudgetLedgerEntry) (d : ReplayBudgetDimension)
    (r : ReplayBudgetReservation) : Z :=
  match reconciliation_for entries (reservation_reservationId r) with
  | Some c => charge (on (reconciliation_dimensions c) d)
  | None => rd_reservedAmount (on (reservation_dimensions r) d)
  end.

Lemma reservations_of_snoc l e :
  reservations_of (l ++ [e]) = reservations_of l ++
    match e with ReservationEntry r => [r] | ReconciliationEntry _ => [] end.
Proof. unfold reservations_of. rewrite omap_app. by destruct e. Qed.

Lemma reconciliations_of_snoc l e :
  reconciliations_of (l ++ [e]) = reconciliations_of l ++
    match e with ReservationEntry _ => [] | ReconciliationEntry c => [c] end.
Proof. unfold reconciliations_of. rewrite omap_app. by destruct e. Qed.

Lemma reconciliation_for_snoc l e i :
  reconciliation_for (l ++ [e]) i =
  match reconciliation_for l i with
  | Some c => Some c
  | None => match e with
            | ReservationEntry _ => None
            | ReconciliationEntry c => if reconciliation_reservationId c === i then Some c else None
            end
  end.
Proof.
  unfold reconciliation_for. rewrite reconciliations_of_snoc, find_app_key. by destruct e.
Qed.

(** What the loop knows after the entries it has read. *)
Record ledger_summary_of (entries : list ReplayBudgetLedgerEntry) (st : LedgerState) : Prop := {
  ls_reservations : ledger_reservations st = reservations_of entries;
  ls_unique : NoDup (reservation_reservationId <$> reservations_of entries);
  ls_reconciled :
    ledger_reconciled st = reconciliation_reservationId <$> reconciliations_of entries;
  ls_closes : forall c, c ∈ reconciliations_of entries ->
    exists r, r ∈ reservations_of entries /\ closes r c;
  ls_committed : forall d,
    on (ledger_committed st) d = sum_by (charged entries d) (reservations_of entries);
  ls_bounds : forall d, 0 <= on (ledger_committed st) d <= MAX_SAFE_INTEGER;
  ls_overruns : ledger_overruns st =
    reconciliations_of entries ≫= (fun c => disposition_labels c overrun);
  ls_disputed : ledger_disputed st =
    reconciliations_of entries ≫= (fun c => disposition_labels c disputed);
  ls_count : ledger_reconciliationCount st = Z.of_nat (length (reconciliations_of entries));
  ls_valid : Forall (fun e => ReplayBudgetLedgerEntrySchema e = true) entries;
  ls_sequence : forall i e, entries !! i = Some e -> entry_ledgerSequence e = Z.of_nat i;
}.

Lemma fold_ledger_snoc l e :
  fold_ledger (l ++ [e]) = (st ← fold_ledger l; summarize_entry st (length l, e)).
Proof.
  unfold fold_ledger. rewrite indexed_snoc, fold_result_app.
  destruct (fold_result _ _ _); [|done]. simpl. unfold mbind, result_bind. by case_match.
Qed.

Lemma find_reservation_None l i :
  find_reservation l i = None <-> i ∉ reservation_reservationId <$> l.
Proof.
  unfold find_reservation. rewrite find_None_key. split.
  - intros H (r & -> & Hr)%list_elem_of_fmap. specialize (H r Hr). breflect. done.
  - intros H r Hr. breflect. intros He. apply H. apply list_elem_of_fmap. eauto.
Qed.

Lemma find_reservation_Some l i r :
  find_reservation l i = Some r -> r ∈ l /\ reservation_reservationId r = i.
Proof. intros [? ?]%find_Some_key. by breflect. Qed.

Lemma reconciliation_for_None l i :
  reconciliation_for l i = None <-> i ∉ reconciliation_reservationId <$> reconciliations_of l.
Proof.
  unfold reconciliation_for. rewrite find_None_key. split.
  - intros H (c & -> & Hc)%list_elem_of_fmap. specialize (H c Hc). breflect. done.
  - intros H c Hc. breflect. intros He. apply H. apply list_elem_of_fmap. eauto.
Qed.

Lemma charged_reservation_snoc l d r r' : charged (l ++ [ReservationEntry r]) d r' = charged l d r'.
Proof. unfold charged. rewrite reconciliation_for_snoc. by destruct (reconciliation_for l _). Qed.

Lemma charged_reconciliation_snoc l d c r' :
  reservation_reservationId r' <> reconciliation_reservationId c ->
  charged (l ++ [ReconciliationEntry c]) d r' = charged l d r'.
Proof.
  intros Hne. unfold charged. rewrite reconciliation_for_snoc.
  destruct (reconciliation_for l _); [done|].
  rewrite bool_decide_eq_false_2 by congruence. done.
Qed.

(** Appending a reservation made from the current totals. *)
Lemma summarize_reservation entries st r st' :
  ledger_summary_of entries st ->
  summarize_entry st (length entries, ReservationEntry r) = Ok st' ->
  ledger_summary_of (entries ++ [ReservationEntry r]) st'.
Proof.
  intros [] H. unfold summarize_entry in H. inv_res. simpl in *.
  rewrite apply_reservation_iff in *. destruct_and!. breflect. subst.
  match goal with H : find_reservation _ _ = None |- _ => rename H into Hnew end.
  rewrite ls_reservations0, find_reservation_None in Hnew.
  match goal with H : ReplayBudgetReservationSchema r = true |- _ =>
    pose proof (fun d => reservation_dimension_facts r d H) as Hr; simpl in Hr end.
  constructor; simpl; rewrite ?reservations_of_snoc, ?reconciliations_of_snoc, ?app_nil_r; auto.
  - by rewrite ls_reservations0.
  - rewrite fmap_app. apply NoDup_app. split_and!; [done| |apply NoDup_singleton].
    intros i Hi ->%list_elem_of_singleton. done.
  - intros c Hc. destruct (ls_closes0 c Hc) as (r' & Hr' & Hcl). exists r'.
    split; [apply elem_of_app; by left|done].
  - intros d. rewrite on_mapDimensions, sum_by_app, ls_committed0. simpl.
    rewrite charged_reservation_snoc. unfold charged at 3.
    rewrite (proj2 (reconciliation_for_None _ _)).
    2: { intros (c & Hi & Hc)%list_elem_of_fmap. destruct (ls_closes0 c Hc) as (r' & Hr' & Hcl).
         apply Hnew, list_elem_of_fmap. exists r'. split; [|done].
         destruct Hcl as (_ & _ & Hi' & _). congruence. }
    rewrite (sum_by_ext (charged (entries ++ [_]) d) (charged entries d)); [lia|].
    intros. apply charged_reservation_snoc.
  - intros d. rewrite on_mapDimensions. specialize (Hr d).
    match goal with H : forall d, on (ledger_committed st) d = _ |- _ => rewrite H end. lia.
  - apply Forall_app. by split; [|constructor].
  - intros i e [He|[Hi He]]%lookup_app_Some; [by apply ls_sequence0|].
    apply list_lookup_singleton_Some in He as [? <-]. simpl. lia.
Qed.

(** Appending a reconciliation of an open reservation. *)
Lemma summarize_reconciliation entries st c st' :
  ledger_summary_of entries st ->
  summarize_entry st (length entries, ReconciliationEntry c) = Ok st' ->
  ledger_summary_of (entries ++ [ReconciliationEntry c]) st'.
Proof.
  intros [] H. unfold summarize_entry in H. inv_res. simpl in *.
  destruct (find_reservation _ _) as [r|] eqn:Hf; [|discriminate]. inv_res.
  rewrite apply_reconciliation_iff in *. destruct_and!. breflect. subst.
  rewrite ls_reservations0 in Hf. apply find_reservation_Some in Hf as [Hr Hid].
  match goal with H : includes _ _ = false |- _ => rename H into Hnew end.
  rewrite ls_reconciled0, includes_false in Hnew.
  match goal with H : closes r c |- _ => pose proof H as Hcl end.
  pose proof (fun d => reconciliation_dimension_facts c d (proj1 (proj2 Hcl))) as Hd. simpl in Hd.
  constructor; simpl; rewrite ?reservations_of_snoc, ?reconciliations_of_snoc, ?app_nil_r; auto.
  - by rewrite fmap_app, ls_reconciled0.
  - intros c' [Hc| ->%list_elem_of_singleton]%elem_of_app; [by apply ls_closes0|eauto].
  - intros d. rewrite on_mapDimensions, ls_committed0.
    rewrite (sum_by_update reservation_reservationId (charged entries d)
      (charged (entries ++ [ReconciliationEntry c]) d) _ r) by
      (auto; intros; apply charged_reconciliation_snoc; congruence).
    unfold charged at 3 4. rewrite reconciliation_for_snoc, Hid.
    rewrite (proj2 (reconciliation_for_None _ _) Hnew).
    rewrite bool_decide_eq_true_2 by done. destruct Hcl as (_ & _ & _ & _ & _ & _ & Ha).
    rewrite <- (Ha d). specialize (Hd d). lia.
  - intros d. rewrite on_mapDimensions. specialize (Hd d).
    match goal with H : forall d, let v := _ in _ |- _ => specialize (H d); simpl in H end.
    specialize (ls_bounds0 d). lia.
  - rewrite bind_app. simpl. by rewrite app_nil_r, ls_overruns0.
  - rewrite bind_app. simpl. by rewrite app_nil_r, ls_disputed0.
  - rewrite length_app. simpl. lia.
  - apply Forall_app. by split; [|constructor].
  - intros i e [He|[Hi He]]%lookup_app_Some; [by apply ls_sequence0|].
    apply list_lookup_singleton_Some in He as [? <-]. simpl. lia.
Qed.

Lemma fold_ledger_summary entries st :
  fold_ledger entries = Ok st -> ledger_summary_of entries st.
Proof.
  revert st. induction entries as [|e l IH] using rev_ind; intros st H.
  { injection H as <-. constructor; simpl; try done; try apply NoDup_nil_2;
      try (by intros c Hc%elem_of_nil);
      intros d; unfold emptyReplayBudgetAmounts; by rewrite on_mapDimensions. }
  rewrite fold_ledger_snoc in H. apply bind_Ok in H as (st0 & H0 & H). specialize (IH _ H0).
  destruct e; [by eapply summarize_reservation|by eapply summarize_reconciliation].
Qed.

(** ** Extending a ledger *)

Lemma find_reservation_elem entries st r :
  ledger_summary_of entries st -> r ∈ reservations_of entries ->
  find_reservation (ledger_reservations st) (reservation_reservationId r) = Some r.
Proof.
  intros [] Hr. rewrite ls_reservations0.
  destruct (find_reservation _ _) as [r'|] eqn:Hf.
  - apply find_reservation_Some in Hf as [Hr' Hid]. f_equal.
    revert ls_unique0 Hr Hr' Hid. clear. generalize (reservations_of entries). intros l.
    induction l as [|x l IH]; simpl; intros Hnd Hr Hr' Hid; [by apply elem_of_nil in Hr|].
    apply NoDup_cons in Hnd as [Hx Hnd].
    apply elem_of_cons in Hr as [->|Hr]; apply elem_of_cons in Hr' as [->|Hr']; auto;
      destruct Hx; apply list_elem_of_fmap; [exists r'|exists r]; auto.
  - apply find_reservation_None in Hf. destruct Hf. apply list_elem_of_fmap. eauto.
Qed.

(** Every recorded reservation has its place in the ledger. *)
Lemma reservation_sequence entries st r :
  ledger_summary_of entries st -> r ∈ reservations_of entries ->
  ReplayBudgetReservationSchema r = true /\
  reservation_ledgerSequence r < Z.of_nat (length entries).
Proof.
  intros [] Hr. unfold reservations_of in Hr. apply list_elem_of_omap in Hr as (e & He & Hm).
  destruct e as [r'|]; [injection Hm as ->|discriminate].
  apply list_elem_of_lookup in He as (i & He). split.
  - rewrite Forall_lookup in ls_valid0. by apply (ls_valid0 _ _ He).
  - rewrite (ls_sequence0 _ _ He : reservation_ledgerSequence r = _).
    apply lookup_lt_Some in He. lia.
Qed.

(** Charges are amounts. *)
Lemma charge_nonneg c d :
  ReplayBudgetReconciliationSchema c = true -> 0 <= charge (on (reconciliation_dimensions c) d).
Proof.
  intros H. pose proof (reconciliation_dimension_facts c d H) as Hf. simpl in Hf.
  unfold ReplayBudgetReconciliationSchema, ReplayBudgetReconciliationVectorSchema in H.
  breflect. destruct_and!.
  match goal with H : forallb _ _ = true |- _ => rewrite forallb_dimensions in H; specialize (H d);
    revert H end.
  unfold ReplayBudgetReconciliationDimensionSchema, charge, ReplayUsageMeasurementSchema.
  destruct (rc_actualUsage _); breflect; lia.
Qed.

Lemma reconciliation_valid entries st c :
  ledger_summary_of entries st -> c ∈ reconciliations_of entries ->
  ReplayBudgetReconciliationSchema c = true.
Proof. intros [] (r & _ & Hc)%ls_closes0. apply Hc. Qed.

Lemma charged_nonneg entries st d r :
  ledger_summary_of entries st -> r ∈ reservations_of entries -> 0 <= charged entries d r.
Proof.
  intros Hls Hr. unfold charged. destruct (reconciliation_for _ _) as [c|] eqn:Hf.
  - unfold reconciliation_for in Hf. apply find_Some_key in Hf as [Hc _].
    apply charge_nonneg. by eapply reconciliation_valid.
  - destruct (reservation_sequence _ _ _ Hls Hr) as [Hv _].
    pose proof (reservation_dimension_facts r d Hv). simpl in *. lia.
Qed.

(** A fresh reservation made from the current totals always fits the ledger. *)
Lemma extend_reservation entries st o r :
  fold_ledger entries = Ok st -> reserveReplayBudget o = Ok r ->
  reserve_committed o = ledger_committed st ->
  reserve_ledgerSequence o = Z.of_nat (length entries) ->
  reserve_reservationId o ∉ reservation_reservationId <$> reservations_of entries ->
  is_ok (fold_ledger (entries ++ [ReservationEntry r])) = true.
Proof.
  intros Hst Hr Hc Hq Hid. rewrite fold_ledger_snoc. rewrite (bind_known _ _ _ Hst).
  pose proof (fold_ledger_summary _ _ Hst) as [].
  assert (Hv : ReplayBudgetReservationSchema r = true)
    by (unfold reserveReplayBudget in Hr; inv_res; done).
  apply reserve_iff in Hr as (_ & _ & _ & ->). apply is_ok_true.
  unfold summarize_entry. rewrite (bind_known _ _ (ReservationEntry (reservation_of o)))
    by (by apply parse_accepted).
  rewrite (bind_known _ _ tt) by (apply reject_known; simpl; rewrite Hq, Z.eqb_refl; done).
  rewrite (bind_known _ _ tt).
  2: { apply reject_known. breflect. rewrite ls_reservations0. by apply find_reservation_None. }
  erewrite bind_known; [by eexists|]. apply apply_reservation_iff. split; [done|]. split; [|done].
  intros d. simpl. rewrite on_mapDimensions. simpl. by rewrite Hc.
Qed.

(** A reconciliation of an open reservation only fails to extend the ledger by
    overflowing the safe-integer range. *)
Lemma extend_reconciliation entries st r o c :
  fold_ledger entries = Ok st -> r ∈ reservations_of entries ->
  reservation_reservationId r ∉ reconciliation_reservationId <$> reconciliations_of entries ->
  reconcileReplayBudget r o = Ok c ->
  reconcile_ledgerSequence o = Z.of_nat (length entries) ->
  is_ok (fold_ledger (entries ++ [ReconciliationEntry c])) = true <->
  forall d, on (ledger_committed st) d - rc_releasedAmount (on (reconciliation_dimensions c) d) +
    rc_overrunAmount (on (reconciliation_dimensions c) d) <= MAX_SAFE_INTEGER.
Proof.
  intros Hst Hr Hopen Hc Hq. rewrite fold_ledger_snoc. rewrite (bind_known _ _ _ Hst).
  pose proof (fold_ledger_summary _ _ Hst) as Hls.
  destruct (reservation_sequence _ _ _ Hls Hr) as [Hrv Hrs].
  assert (Hcl : closes r c) by (eapply reconciliation_of_closes; [done|lia]).
  assert (Hcq : reconciliation_ledgerSequence c = Z.of_nat (length entries))
    by (apply reconcile_iff in Hc as (_ & _ & _ & _ & _ & ->); done).
  pose proof (find_reservation_elem _ _ _ Hls Hr) as Hfind. pose proof Hls as [].
  destruct Hcl as (Hcl1 & Hcv & Hid & Hcl'). pose proof (conj Hcl1 (conj Hcv (conj Hid Hcl'))) as Hcl.
  rewrite is_ok_true. unfold summarize_entry.
  rewrite (bind_known _ _ (ReconciliationEntry c)) by (by apply parse_accepted).
  rewrite (bind_known _ _ tt) by (apply reject_known; simpl; rewrite Hcq, Z.eqb_refl; done).
  cbv zeta. rewrite Hid, Hfind.
  rewrite (bind_known _ _ tt)
    by (apply reject_known; rewrite ls_reconciled0; by apply includes_false).
  split.
  - intros (st' & H). apply bind_Ok in H as (c' & Ha & _).
    apply apply_reconciliation_iff in Ha as (_ & _ & Hb & _). intros d. apply Hb.
  - intros Hb. erewrite bind_known; [by eexists|]. apply apply_reconciliation_iff.
    split_and!; [done..| |done]. intros d v. subst v. split; [|done].
    (* the reservation is open, so the total still holds all of it *)
    pose proof (reconciliation_dimension_facts c d Hcv) as Hd. simpl in Hd.
    assert (Hin : rd_reservedAmount (on (reservation_dimensions r) d) <= on (ledger_committed st) d).
    { rewrite ls_committed0.
      assert (Hch : charged entries d r = rd_reservedAmount (on (reservation_dimensions r) d)).
      { unfold charged. by rewrite (proj2 (reconciliation_for_None _ _) Hopen). }
      rewrite <- Hch. apply sum_by_elem_le; [|done]. intros r' Hr'. by eapply charged_nonneg. }
    destruct Hcl' as (_ & _ & _ & Ha). specialize (Ha d).
    lia.
Qed.

(** ** Limits *)

Definition overrun_total (entries : list ReplayBudgetLedgerEntry) (d : ReplayBudgetDimension) : Z :=
  sum_by (fun c => rc_overrunAmount (on (reconciliation_dimensions c) d)) (reconciliations_of entries).

(** All reservations of the ledger were made under these limits. *)
Definition under_limits (entries : list ReplayBudgetLedgerEntry)
    (limit : ReplayBudgetDimension -> Z) : Prop :=
  forall r d, r ∈ reservations_of entries -> rd_limit (on (reservation_dimensions r) d) = limit d.

Lemma overrun_total_nonneg entries st d :
  ledger_summary_of entries st -> 0 <= overrun_total entries d.
Proof.
  intros Hls. apply sum_by_nonneg. intros c Hc.
  pose proof (reconciliation_dimension_facts c d (reconciliation_valid _ _ _ Hls Hc)).
  simpl in *. lia.
Qed.

Lemma fold_ledger_limits entries st limit d :
  fold_ledger entries = Ok st -> under_limits entries limit -> 0 <= limit d ->
  on (ledger_committed st) d <= limit d + overrun_total entries d.
Proof.
  revert st. induction entries as [|e l IH] using rev_ind; intros st H Hl Hd.
  { injection H as <-. simpl. unfold emptyReplayBudgetAmounts. rewrite on_mapDimensions.
    change (overrun_total [] d) with 0. lia. }
  pose proof (fold_ledger_summary _ _ H) as Hls. rewrite fold_ledger_snoc in H.
  apply bind_Ok in H as (st0 & H0 & H). pose proof (fold_ledger_summary _ _ H0) as Hls0.
  pose proof (overrun_total_nonneg _ _ d Hls0) as Hnn.
  unfold overrun_total in *. rewrite reconciliations_of_snoc, sum_by_app.
  unfold summarize_entry in H. inv_res. simpl in *. destruct e as [r|c].
  - inv_res. simpl. rewrite apply_reservation_iff in *. destruct_and!. subst.
    rewrite on_mapDimensions.
    match goal with H : ReplayBudgetReservationSchema r = true |- _ =>
      pose proof (reservation_dimension_facts r d H) as Hr; simpl in Hr end.
    match goal with H : forall d, on _ d = _ |- _ => specialize (H d) end.
    rewrite <- (Hl r d) by (rewrite reservations_of_snoc; apply elem_of_app; right; constructor). lia.
  - assert (Hl0 : under_limits l limit).
    { intros r d' Hr. apply Hl. rewrite reservations_of_snoc. apply elem_of_app. by left. }
    specialize (IH _ H0 Hl0 Hd).
    destruct (find_reservation _ _) as [r|]; [|discriminate]. inv_res. simpl.
    rewrite apply_reconciliation_iff in *. destruct_and!. subst. rewrite on_mapDimensions.
    match goal with H : closes r c |- _ => destruct H as (_ & Hcv & _) end.
    pose proof (reconciliation_dimension_facts c d Hcv) as Hc. simpl in Hc. lia.
Qed.

Lemma no_overrun_labels c :
  ReplayBudgetReconciliationSchema c = true -> disposition_labels c overrun = [] ->
  forall d, rc_overrunAmount (on (reconciliation_dimensions c) d) = 0.
Proof.
  intros Hc Hl d. pose proof (reconciliation_dimension_facts c d Hc) as Hf. simpl in Hf.
  apply Hf. intros Ho. unfold disposition_labels in Hl. apply fmap_nil_inv in Hl.
  eapply (not_elem_of_nil d). rewrite <- Hl. apply list_elem_of_filter.
  split; [done|apply elem_of_dimensions].
Qed.

Lemma no_overruns_total entries st d :
  ledger_summary_of entries st -> ledger_overruns st = [] -> overrun_total entries d = 0.
Proof.
  intros Hls Ho. pose proof Hls as []. rewrite ls_overruns0 in Ho. unfold overrun_total.
  apply sum_by_zero.
  intros c Hc. apply no_overrun_labels; [by eapply reconciliation_valid|].
  apply elem_of_nil_inv. intros s Hs. eapply (not_elem_of_nil s). rewrite <- Ho.
  apply list_elem_of_bind. eauto.
Qed.

(** ** Properties *)

(** A reservation is admitted exactly when the plan's budget is valid, no
    dimension's committed total plus request exceeds its limit, something is
    requested, and the identifying fields are well formed; the entry records
    exactly the totals and limits it was admitted under. *)
Theorem reserveReplayBudget_admits o r :
  reserveReplayBudget o = Ok r <->
  ReplayBudgetSchema (reserve_budget o) = true /\ within_limits o /\
  reservation_fields r = true /\ r = reservation_of o.
Proof. apply reserve_iff. Qed.

(** Reconciling a reservation made by [reserveReplayBudget] with any
    usage (observed or unavailable) yields a valid entry that balances in
    every dimension, and applying it replaces the reserved amount by what was
    observed (or keeps it, disputed, when usage is unavailable). *)
Theorem reconciliation_balances r o c committed committed' :
  reconcileReplayBudget r o = Ok c ->
  applyReplayBudgetReconciliation committed r c = Ok committed' ->
  ReplayBudgetReconciliationSchema c = true /\
  forall d, let v := on (reconciliation_dimensions c) d in
    let reserved := rd_reservedAmount (on (reservation_dimensions r) d) in
    rc_actualUsage v = on (reconcile_usage o) d /\
    on committed' d = on committed d - reserved +
      match on (reconcile_usage o) d with
      | usage_observed amount _ => amount
      | usage_unavailable _ => reserved
      end.
Proof.
  intros Hc Ha. apply apply_reconciliation_iff in Ha as (_ & (_ & Hv & _ & _ & _ & _ & Hra) & _ & ->).
  split; [done|]. intros d v reserved. apply reconcile_iff in Hc as (_ & _ & _ & _ & _ & ->).
  pose proof (reconciliation_dimension_facts _ d Hv) as Hf. specialize (Hra d). subst v reserved.
  simpl in *. rewrite on_mapDimensions in *. unfold charge in Hf.
  assert (Hu : rc_actualUsage (reconcile_dimension (rd_reservedAmount (on (reservation_dimensions r) d))
    (on (reconcile_usage o) d)) = on (reconcile_usage o) d)
    by (unfold reconcile_dimension; repeat case_match; done).
  split; [done|]. rewrite Hu in Hf. rewrite !on_mapDimensions. clear Hu Hv.
  revert Hf Hra. destruct (on (reconcile_usage o) d); lia.
Qed.

(** The committed total of a ledger is, in every dimension, the sum over
    its reservations of what each is still charged: the whole reservation while
    it is open or disputed, the observed usage once it is reconciled.  The
    open reservations it lists are exactly those without a reconciliation. *)
Theorem summary_committed_total entries s :
  summarizeReplayBudgetLedger entries = Ok s ->
  (forall d, on (summary_committed s) d = sum_by (charged entries d) (reservations_of entries)) /\
  summary_reservationCount s = Z.of_nat (length (reservations_of entries)) /\
  summary_reconciliationCount s = Z.of_nat (length (reconciliations_of entries)) /\
  forall r, r ∈ reservations_of entries ->
    (reservation_reservationId r ∈ summary_openReservationIds s <->
     reconciliation_for entries (reservation_reservationId r) = None).
Proof.
  unfold summarizeReplayBudgetLedger. intros H. inv_res.
  pose proof (fold_ledger_summary _ _ ltac:(eassumption)) as []. simpl.
  split_and!; [done|by rewrite ls_reservations0|done|]. intros r Hr.
  rewrite reconciliation_for_None, <- ls_reconciled0, list_elem_of_fmap. unfold open_reservations.
  setoid_rewrite list_elem_of_filter. setoid_rewrite includes_false. rewrite ls_reservations0.
  split; [intros (r' & -> & ? & _)|intros ?]; eauto.
Qed.

(** C35. A job can exceed a plan limit only through overruns its ledger
    reports: the committed total is at most the limit plus the overruns, and
    within the limit when the summary lists no overrun. *)
Theorem committed_within_limits entries s limit d :
  summarizeReplayBudgetLedger entries = Ok s -> under_limits entries limit -> 0 <= limit d ->
  on (summary_committed s) d <= limit d + overrun_total entries d /\
  (summary_overruns s = [] -> on (summary_committed s) d <= limit d).
Proof.
  unfold summarizeReplayBudgetLedger. intros H Hl Hd. inv_res. simpl.
  match goal with H : fold_ledger _ = Ok _ |- _ => rename H into Hst end.
  pose proof (fold_ledger_limits _ _ _ d Hst Hl Hd) as Hc. split; [done|]. intros Ho.
  pose proof (no_overruns_total _ _ d (fold_ledger_summary _ _ Hst) Ho). lia.
Qed.
