(* ===== verification/ReplayJobSnapshot.v ===== *)
(** * Replay job snapshots

    [packages/contracts/src/replay-job-snapshot.ts]: the consistency contract
    of everything a repository stores about one job.  The boolean
    [refineReplayJobSnapshot] follows the source's refinement check by check;
    [snapshot_valid] states the same contract as propositions, and
    [snapshot_schema_iff] shows they agree, which is what the repository's
    invariant proofs work with. *)

From S2P Require Import Prelude Errors Primitives ReplayPlan ReplayJob ReplayJobState.
From S2P Require Import ReplayAccounting ReplayBudget.
From Stdlib Require Import Sorting.Sorted.

Record ReplayJobSnapshot := {
  snapshot_attempts : list ReplayAttempt;
  snapshot_budgetLedger : list ReplayBudgetLedgerEntry;
  snapshot_cancellationAcknowledgements : list ReplayCancellationAcknowledgement;
  snapshot_cancellationRequest : option ReplayCancellationRequest;
  snapshot_executionObservations : list ReplayExecutionObservation;
  snapshot_job : ReplayJob;
  snapshot_usageObservations : list ReplayUsageObservation;
}.

(** [new Set(values).size === values.length] *)
Definition unique (values : list string) : bool := bool_decide (NoDup values).

(** ** Attempts *)

(** [attemptsById.get(attemptId)]; the identifiers are unique when it is used. *)
Definition attempt_by_id (attempts : list ReplayAttempt) (id : string) : option ReplayAttempt :=
  List.find (fun a => attempt_attemptId a === id) attempts.

(** [attempts[index - 1]] *)
Definition previous_of {A} (l : list A) (index : nat) : option A :=
  match index with O => None | S i => l !! i end.

(** [attempts.at(-1)] *)
Definition latest_of {A} (l : list A) : option A := last l.

(** The replacement of [previous] by [attempt] is out of order. *)
Definition bad_succession (previous attempt : ReplayAttempt) : bool :=
  match attempt_endedAt previous with
  | None => true
  | Some endedAt => attempt_startedAt attempt <? endedAt
  end ||
  (fence_fencingToken (attempt_mutationFence attempt) <=?
     fence_fencingToken (attempt_mutationFence previous)) ||
  (fence_recoveryEpoch (attempt_mutationFence attempt) <?
     fence_recoveryEpoch (attempt_mutationFence previous)).

Definition invalid_attempt (job : ReplayJob) (attempts : list ReplayAttempt)
    (item : nat * ReplayAttempt) : bool :=
  let '(index, attempt) := item in
  (attempt_jobId attempt !== job_jobId job) ||
  negb (attempt_attemptSequence attempt =? Z.of_nat index) ||
  negb (sameScope (attempt_scope attempt) (job_scope job)) ||
  negb (plansEqual (attempt_plan attempt) (job_plan job)) ||
  (job_recoveryEpoch job <? fence_recoveryEpoch (attempt_mutationFence attempt)) ||
  (job_lastFencingToken job <? fence_fencingToken (attempt_mutationFence attempt)) ||
  match previous_of attempts index with
  | Some previous => bad_succession previous attempt
  | None => false
  end.

Definition rootDisagrees (job : ReplayJob) (attempts : list ReplayAttempt) : bool :=
  match latest_of attempts with
  | None => defined (job_latestAttemptSequence job)
  | Some latest =>
      (job_latestAttemptSequence job !== Some (Z.of_nat (length attempts) - 1)) ||
      negb (fence_fencingToken (attempt_mutationFence latest) =? job_lastFencingToken job)
  end.

Definition knownFence (job : ReplayJob) (attempts : list ReplayAttempt)
    (fence : ReplayWorkerMutationFence) : option ReplayAttempt :=
  match attempt_by_id attempts (fence_attemptId fence) with
  | Some attempt =>
      if sameFence (attempt_mutationFence attempt) fence && (fence_jobId fence === job_jobId job)
      then Some attempt else None
  | None => None
  end.

(** The current lease does not own the latest attempt. *)
Definition lease_disagrees (job : ReplayJob) (attempts : list ReplayAttempt) : bool :=
  match job_currentLease job with
  | None => false
  | Some lease =>
      negb (defined (knownFence job attempts (lease_mutationFence lease))) ||
      match latest_of attempts with
      | None => true
      | Some latest =>
          (attempt_status latest !== attempt_running) ||
          negb (sameFence (attempt_mutationFence latest) (lease_mutationFence lease))
      end
  end.

(** The terminal record does not close the latest attempt. *)
Definition terminal_disagrees (job : ReplayJob) (attempts : list ReplayAttempt) : bool :=
  match job_terminal job with
  | None => false
  | Some terminal =>
      match terminal_attemptId terminal with
      | None => false
      | Some id =>
          match attempt_by_id attempts id with
          | None => true
          | Some attempt =>
              (Some (attempt_attemptId attempt) !== (attempt_attemptId <$> latest_of attempts)) ||
              (attempt_status attempt === attempt_running) ||
              match attempt_endedAt attempt with
              | None => true
              | Some endedAt => terminal_committedAt terminal <? endedAt
              end
          end
      end
  end.

Definition validateAttempts (job : ReplayJob) (attempts : list ReplayAttempt) : bool :=
  unique (attempt_attemptId <$> attempts) &&
  unique ((fun a => fence_leaseId (attempt_mutationFence a)) <$> attempts) &&
  negb (existsb (invalid_attempt job attempts) (indexed attempts)) &&
  negb (rootDisagrees job attempts) &&
  negb (lease_disagrees job attempts) &&
  negb (terminal_disagrees job attempts).

(** ** Budget ledger

    The loop returns at the first issue, so it is a fold that stops there. *)

Record BudgetCheck := {
  check_committed : ReplayBudgetAmounts;
  check_reservations : list ReplayBudgetReservation;
  check_reconciliationIds : list string;
  check_reconciledReservations : list string;
}.

Definition issue {A} : result unit A := Throw tt.

Definition check_entry (job : ReplayJob) (attempts : list ReplayAttempt) (state : BudgetCheck)
    (item : nat * ReplayBudgetLedgerEntry) : result unit BudgetCheck :=
  let '(index, entry) := item in
  reject_when
    (negb (entry_ledgerSequence entry =? Z.of_nat index) ||
     negb (sameScope (entry_scope entry) (job_scope job)) ||
     match attempt_by_id attempts (fence_attemptId (entry_mutationFence entry)) with
     | None => true
     | Some attempt => negb (sameFence (attempt_mutationFence attempt) (entry_mutationFence entry))
     end) tt ;;
  match entry with
  | ReservationEntry reservation =>
      let id := reservation_reservationId reservation in
      reject_when (defined (find_reservation (check_reservations state) id)) tt ;;
      committed ← tryDimensions (fun dimension =>
        let current := on (check_committed state) dimension in
        let value := on (reservation_dimensions reservation) dimension in
        let next := js_add current (rd_reservedAmount value) in
        reject_when
          (negb (rd_committedBefore value =? current) || (MAX_REPLAY_ACCOUNTING_VALUE <? next)) tt ;;
        Ok next);
      Ok {| check_committed := committed;
            check_reservations := check_reservations state ++ [reservation];
            check_reconciliationIds := check_reconciliationIds state;
            check_reconciledReservations := check_reconciledReservations state |}
  | ReconciliationEntry reconciliation =>
      let id := reconciliation_reservationId reconciliation in
      match find_reservation (check_reservations state) id with
      | None => issue
      | Some reservation =>
          reject_when
            (includes (check_reconciliationIds state)
               (reconciliation_reconciliationId reconciliation) ||
             includes (check_reconciledReservations state) id ||
             negb (sameScope (reconciliation_scope reconciliation) (reservation_scope reservation)) ||
             negb (sameFence (reconciliation_mutationFence reconciliation)
                     (reservation_mutationFence reservation))) tt ;;
          committed ← tryDimensions (fun dimension =>
            let current := on (check_committed state) dimension in
            let value := on (reconciliation_dimensions reconciliation) dimension in
            let reservedAmount := rd_reservedAmount (on (reservation_dimensions reservation) dimension) in
            let next := js_add (js_sub current (rc_releasedAmount value)) (rc_overrunAmount value) in
            reject_when
              (negb (rc_reservedAmount value =? reservedAmount) ||
               (current <? rc_releasedAmount value) || negb (isSafeInteger next) ||
               (MAX_REPLAY_ACCOUNTING_VALUE <? next)) tt ;;
            Ok next);
          Ok {| check_committed := committed;
                check_reservations := check_reservations state;
                check_reconciliationIds :=
                  check_reconciliationIds state ++ [reconciliation_reconciliationId reconciliation];
                check_reconciledReservations := check_reconciledReservations state ++ [id] |}
      end
  end.

Definition emptyBudgetCheck : BudgetCheck := {|
  check_committed := mapDimensions (fun _ => 0);
  check_reservations := [];
  check_reconciliationIds := [];
  check_reconciledReservations := []
|}.

Definition validateBudgetLedger (job : ReplayJob) (attempts : list ReplayAttempt)
    (entries : list ReplayBudgetLedgerEntry) : bool :=
  is_ok (fold_result (check_entry job attempts) emptyBudgetCheck (indexed entries)).

(** ** Cancellation *)

Definition cancellation_consistent (job : ReplayJob)
    (cancellation : option ReplayCancellationRequest) : bool :=
  match cancellation with
  | Some request =>
      includes [running; ended cancelled] (job_status job) &&
      negb ((cancellation_jobId request !== job_jobId job) ||
            negb (sameScope (cancellation_scope request) (job_scope job)) ||
            (cancellation_requestedAt request <? job_createdAt job))
  | None =>
      match job_terminal job with
      | Some terminal => terminal_code terminal !== cancellation_committed
      | None => true
      end
  end.

Definition invalid_acknowledgement (job : ReplayJob) (attempts : list ReplayAttempt)
    (cancellation : option ReplayCancellationRequest)
    (acknowledgements : list ReplayCancellationAcknowledgement)
    (item : nat * ReplayCancellationAcknowledgement) : bool :=
  let '(index, acknowledgement) := item in
  match cancellation, attempt_by_id attempts (fence_attemptId (ack_mutationFence acknowledgement)) with
  | Some request, Some attempt =>
      (ack_cancellationId acknowledgement !== cancellation_cancellationId request) ||
      negb (sameFence (attempt_mutationFence attempt) (ack_mutationFence acknowledgement)) ||
      negb (sameScope (ack_scope acknowledgement) (job_scope job)) ||
      (ack_acknowledgedAt acknowledgement <? cancellation_requestedAt request) ||
      (ack_acknowledgedAt acknowledgement <? attempt_startedAt attempt) ||
      match previous_of acknowledgements index with
      | Some previous =>
          (ack_acknowledgedAt acknowledgement <? ack_acknowledgedAt previous) ||
          ((ack_acknowledgedAt previous =? ack_acknowledgedAt acknowledgement) &&
           negb (string_lt (ack_acknowledgementId previous) (ack_acknowledgementId acknowledgement)))
      | None => false
      end
  | _, _ => true
  end.

(** ** Observations

    The fields the two kinds of observation share. *)

Record Observation := {
  observation_mutationFence : ReplayWorkerMutationFence;
  observation_observationId : string;
  observation_observationSequence : Z;
  observation_observedAt : timestamp;
  observation_scope : EvidenceScope;
}.

Definition of_execution (o : ReplayExecutionObservation) : Observation := {|
  observation_mutationFence := execution_mutationFence o;
  observation_observationId := execution_observationId o;
  observation_observationSequence := execution_observationSequence o;
  observation_observedAt := execution_observedAt o;
  observation_scope := execution_scope o
|}.

Definition of_usage (o : ReplayUsageObservation) : Observation := {|
  observation_mutationFence := usage_mutationFence o;
  observation_observationId := usage_observationId o;
  observation_observationSequence := usage_observationSequence o;
  observation_observedAt := usage_observedAt o;
  observation_scope := usage_scope o
|}.

Definition observations_of (s : ReplayJobSnapshot) : list Observation :=
  (of_execution <$> snapshot_executionObservations s) ++
  (of_usage <$> snapshot_usageObservations s).

(** [observations.sort((left, right) => left.observationSequence - right.observationSequence)]:
    a stable sort. *)
Fixpoint insert_observation (o : Observation) (l : list Observation) : list Observation :=
  match l with
  | [] => [o]
  | p :: l' =>
      if observation_observationSequence o <=? observation_observationSequence p then o :: l
      else p :: insert_observation o l'
  end.

Definition sort_observations (l : list Observation) : list Observation :=
  foldr insert_observation [] l.

(** [previous.observationSequence >= observation.observationSequence] somewhere *)
Fixpoint strictly_ordered (sequences : list Z) : bool :=
  match sequences with
  | [] => true
  | v :: rest =>
      match rest with
      | [] => true
      | w :: _ => (v <? w) && strictly_ordered rest
      end
  end.

Definition invalid_observation (job : ReplayJob) (attempts : list ReplayAttempt)
    (item : nat * Observation) : bool :=
  let '(index, observation) := item in
  negb (observation_observationSequence observation =? Z.of_nat index) ||
  match attempt_by_id attempts (fence_attemptId (observation_mutationFence observation)) with
  | None => true
  | Some attempt =>
      negb (sameFence (attempt_mutationFence attempt) (observation_mutationFence observation)) ||
      negb (sameScope (observation_scope observation) (job_scope job)) ||
      (observation_observedAt observation <? attempt_startedAt attempt)
  end.

(** A cancellation observation names the durable request. *)
Definition names_request (cancellation : option ReplayCancellationRequest)
    (observation : ReplayExecutionObservation) : bool :=
  match execution_payload observation with
  | CancellationObservation v =>
      Some (cancellation_obs_cancellationId v) === (cancellation_cancellationId <$> cancellation)
  | _ => true
  end.

(** ** The snapshot contract *)

Definition refineReplayJobSnapshot (value : ReplayJobSnapshot) : bool :=
  let job := snapshot_job value in
  let attempts := snapshot_attempts value in
  let cancellation := snapshot_cancellationRequest value in
  let acknowledgements := snapshot_cancellationAcknowledgements value in
  let observations := observations_of value in
  validateAttempts job attempts &&
  validateBudgetLedger job attempts (snapshot_budgetLedger value) &&
  cancellation_consistent job cancellation &&
  unique (ack_acknowledgementId <$> acknowledgements) &&
  negb (existsb (invalid_acknowledgement job attempts cancellation acknowledgements)
          (indexed acknowledgements)) &&
  unique (observation_observationId <$> observations) &&
  strictly_ordered (execution_observationSequence <$> snapshot_executionObservations value) &&
  strictly_ordered (usage_observationSequence <$> snapshot_usageObservations value) &&
  negb (existsb (invalid_observation job attempts) (indexed (sort_observations observations))) &&
  forallb (names_request cancellation) (snapshot_executionObservations value).

Definition ReplayJobSnapshotSchema (s : ReplayJobSnapshot) : bool :=
  forallb ReplayAttemptSchema (snapshot_attempts s) &&
  forallb ReplayBudgetLedgerEntrySchema (snapshot_budgetLedger s) &&
  forallb ReplayCancellationAcknowledgementSchema (snapshot_cancellationAcknowledgements s) &&
  optional ReplayCancellationRequestSchema (snapshot_cancellationRequest s) &&
  forallb ReplayExecutionObservationSchema (snapshot_executionObservations s) &&
  ReplayJobSchema (snapshot_job s) &&
  forallb ReplayUsageObservationSchema (snapshot_usageObservations s) &&
  refineReplayJobSnapshot s.

(** ** The ledger check and the ledger summary

    The contracts package re-implements the fold of
    [summarizeReplayBudgetLedger]; the two agree on every ledger of valid
    entries, up to the fence, scope and reconciliation-identifier checks only
    the snapshot makes. *)

(** The fence belongs to a recorded attempt. *)
Definition fence_known (attempts : list ReplayAttempt) (f : ReplayWorkerMutationFence) : Prop :=
  exists a, attempt_by_id attempts (fence_attemptId f) = Some a /\ attempt_mutationFence a = f.

Definition entry_known (job : ReplayJob) (attempts : list ReplayAttempt)
    (e : ReplayBudgetLedgerEntry) : Prop :=
  entry_scope e = job_scope job /\ fence_known attempts (entry_mutationFence e).

Definition reconciliation_ids (l : list ReplayBudgetLedgerEntry) : list string :=
  reconciliation_reconciliationId <$> reconciliations_of l.

Definition check_of (st : LedgerState) (l : list ReplayBudgetLedgerEntry) : BudgetCheck := {|
  check_committed := ledger_committed st;
  check_reservations := ledger_reservations st;
  check_reconciliationIds := reconciliation_ids l;
  check_reconciledReservations := ledger_reconciled st
|}.

(** The guard every entry passes first. *)
Lemma entry_guard_Ok job attempts index e :
  negb (entry_ledgerSequence e =? Z.of_nat index) ||
  negb (sameScope (entry_scope e) (job_scope job)) ||
  match attempt_by_id attempts (fence_attemptId (entry_mutationFence e)) with
  | None => true
  | Some attempt => negb (sameFence (attempt_mutationFence attempt) (entry_mutationFence e))
  end = false <->
  entry_ledgerSequence e = Z.of_nat index /\ entry_known job attempts e.
Proof.
  unfold entry_known, fence_known. breflect.
  destruct (attempt_by_id _ _) as [a|]; breflect.
  - split; [intros [[? ?] ?]; eauto 6|]. intros (? & ? & a' & [= <-] & ?). auto.
  - split; [intros [_ ?]; discriminate|]. intros (? & ? & a' & ? & ?). discriminate.
Qed.

Lemma js_add_bounded a b :
  0 <= a -> 0 <= b -> a + b <= MAX_SAFE_INTEGER -> js_add a b = a + b.
Proof. intros. apply js_add_exact. lia. Qed.

Lemma check_reservation_iff job attempts l st r cs' :
  ledger_summary_of l st -> ReplayBudgetReservationSchema r = true ->
  check_entry job attempts (check_of st l) (length l, ReservationEntry r) = Ok cs' <->
  entry_known job attempts (ReservationEntry r) /\
  exists st', summarize_entry st (length l, ReservationEntry r) = Ok st' /\
    cs' = check_of st' (l ++ [ReservationEntry r]).
Proof.
  intros Hls Hr. pose proof Hls as [].
  pose proof (fun d => reservation_dimension_facts r d Hr) as Hrd. simpl in Hrd.
  unfold check_entry, summarize_entry. cbn [check_committed check_reservations check_of].
  assert (Hcheck : forall c, tryDimensions (fun dimension =>
      let current := on (ledger_committed st) dimension in
      let value := on (reservation_dimensions r) dimension in
      let next := js_add current (rd_reservedAmount value) in
      reject_when (negb (rd_committedBefore value =? current) ||
        (MAX_REPLAY_ACCOUNTING_VALUE <? next)) tt ;; Ok next) = Ok c <->
      applyReplayBudgetReservation (ledger_committed st) r = Ok c).
  { intros c. rewrite tryDimensions_Ok, apply_reservation_iff. split.
    - intros H. split; [done|]. assert (Hd : forall d, rd_committedBefore (on (reservation_dimensions r) d)
        = on (ledger_committed st) d /\ on c d = js_add (on (ledger_committed st) d)
            (rd_reservedAmount (on (reservation_dimensions r) d))).
      { intros d. specialize (H d). cbv zeta in H. inv_res. breflect. lia. }
      split; [intros d; symmetry; apply Hd|]. apply perDimension_ext. intros d.
      rewrite on_mapDimensions. destruct (Hd d) as [He ->]. specialize (Hrd d).
      apply js_add_bounded; lia.
    - intros (_ & Hc & ->) d. specialize (Hrd d). rewrite on_mapDimensions. cbv zeta.
      rewrite js_add_bounded by (rewrite ?Hc; lia).
      rewrite (bind_known _ _ tt); [done|]. apply reject_known. rewrite Hc, Z.eqb_refl. simpl.
      apply Z.ltb_ge. unfold MAX_REPLAY_ACCOUNTING_VALUE. lia. }
  split.
  - intros H. inv_res.
    match goal with H : _ || _ = false |- _ => apply entry_guard_Ok in H as [Hq Hk] end.
    match goal with H : tryDimensions _ = Ok _ |- _ => apply Hcheck in H as Ha end.
    split; [done|]. eexists. split.
    + rewrite (bind_known _ _ (ReservationEntry r)) by (by apply parse_accepted).
      rewrite (bind_known _ _ tt) by (apply reject_known; rewrite Hq, Z.eqb_refl; done).
      rewrite (bind_known _ _ tt) by (by apply reject_known).
      rewrite (bind_known _ _ _ Ha). done.
    + unfold check_of, reconciliation_ids. simpl. by rewrite reconciliations_of_snoc, app_nil_r.
  - intros (Hk & st' & H & ->). inv_res.
    rewrite (bind_known _ _ tt).
    2: { apply reject_known, entry_guard_Ok. simpl in *. breflect. done. }
    rewrite (bind_known _ _ tt) by (by apply reject_known).
    rewrite (bind_known _ _ _ (proj2 (Hcheck _) ltac:(eassumption))).
    unfold check_of, reconciliation_ids. simpl. by rewrite reconciliations_of_snoc, app_nil_r.
Qed.

Lemma check_reconciliation_iff job attempts l st c cs' :
  ledger_summary_of l st -> ReplayBudgetReconciliationSchema c = true ->
  check_entry job attempts (check_of st l) (length l, ReconciliationEntry c) = Ok cs' <->
  entry_known job attempts (ReconciliationEntry c) /\
  reconciliation_reconciliationId c ∉ reconciliation_ids l /\
  exists st', summarize_entry st (length l, ReconciliationEntry c) = Ok st' /\
    cs' = check_of st' (l ++ [ReconciliationEntry c]).
Proof.
  intros Hls Hc. pose proof Hls as [].
  pose proof (fun d => reconciliation_dimension_facts c d Hc) as Hcd. simpl in Hcd.
  unfold check_entry, summarize_entry.
  cbn [check_committed check_reservations check_reconciliationIds check_reconciledReservations check_of].
  destruct (find_reservation _ _) as [r|] eqn:Hf.
  2: { split; [intros H; inv_res; discriminate|].
       intros (_ & _ & st' & H & _). inv_res. simpl in H. rewrite Hf in H. discriminate. }
  assert (Hr : ReplayBudgetReservationSchema r = true /\
    reservation_ledgerSequence r < Z.of_nat (length l) /\
    reservation_reservationId r = reconciliation_reservationId c).
  { apply find_reservation_Some in Hf as [Hr ?]. rewrite ls_reservations in Hr.
    by destruct (reservation_sequence _ _ _ Hls Hr). }
  assert (Hcheck : forall v,
      reconciliation_ledgerSequence c = Z.of_nat (length l) ->
      applyReplayBudgetReconciliation (ledger_committed st) r c = Ok v <->
      (reconciliation_scope c = reservation_scope r /\
       reconciliation_mutationFence c = reservation_mutationFence r) /\
      tryDimensions (fun dimension =>
        let current := on (ledger_committed st) dimension in
        let value := on (reconciliation_dimensions c) dimension in
        let reservedAmount := rd_reservedAmount (on (reservation_dimensions r) dimension) in
        let next := js_add (js_sub current (rc_releasedAmount value)) (rc_overrunAmount value) in
        reject_when (negb (rc_reservedAmount value =? reservedAmount) ||
          (current <? rc_releasedAmount value) || negb (isSafeInteger next) ||
          (MAX_REPLAY_ACCOUNTING_VALUE <? next)) tt ;; Ok next) = Ok v).
  { intros v Hq. rewrite tryDimensions_Ok, apply_reconciliation_iff. split.
    - intros (_ & (_ & _ & _ & _ & Hs & Hfe & Ha) & Hb & ->). split; [done|].
      intros d. specialize (Hcd d). specialize (Hb d). specialize (ls_bounds d). specialize (Ha d).
      rewrite on_mapDimensions. cbv zeta in *. rewrite js_sub_exact by lia. rewrite js_add_exact by lia.
      rewrite (bind_known _ _ tt); [done|]. apply reject_known.
      rewrite Ha, Z.eqb_refl, (proj2 (isSafeInteger_spec _)) by lia.
      simpl. breflect. unfold MAX_REPLAY_ACCOUNTING_VALUE. lia.
    - intros [[Hs Hfe] H]. assert (Hd : forall d, let v' := on (reconciliation_dimensions c) d in
        rc_reservedAmount v' = rd_reservedAmount (on (reservation_dimensions r) d) /\
        rc_releasedAmount v' <= on (ledger_committed st) d /\
        on (ledger_committed st) d - rc_releasedAmount v' + rc_overrunAmount v' <= MAX_SAFE_INTEGER /\
        on v d = on (ledger_committed st) d - rc_releasedAmount v' + rc_overrunAmount v').
      { intros d. specialize (H d). specialize (Hcd d). specialize (ls_bounds d).
        cbv zeta in *. inv_res. breflect. destruct_and!.
        rewrite js_sub_exact in * by lia.
        match goal with Hn : isSafeInteger _ = true |- _ =>
          unfold js_add in Hn; rewrite js_round_safe in Hn; apply isSafeInteger_spec in Hn end.
        rewrite js_add_exact in * by lia. split_and!; congruence || lia. }
      split; [done|]. split; [|split].
      + unfold closes. destruct Hr as (? & ? & ?). split_and!; try done; try lia. intros d. apply Hd.
      + intros d. destruct (Hd d) as (_ & ? & ? & _). done.
      + apply perDimension_ext. intros d. rewrite on_mapDimensions. apply Hd. }
  split.
  - intros H. inv_res.
    match goal with H : _ || _ = false |- _ => apply entry_guard_Ok in H as [Hq Hk] end.
    simpl in Hq. breflect. destruct_and!.
    match goal with H : tryDimensions _ = Ok _ |- _ => rename H into Ht end.
    match goal with H : includes (reconciliation_ids l) _ = false |- _ =>
      apply includes_false in H end.
    split_and!; [done|done|]. eexists. split.
    + rewrite (bind_known _ _ (ReconciliationEntry c)) by (by apply parse_accepted).
      rewrite (bind_known _ _ tt) by (apply reject_known; simpl; rewrite Hq, Z.eqb_refl; done).
      cbv zeta. rewrite Hf. rewrite (bind_known _ _ tt) by (by apply reject_known).
      erewrite bind_known; [done|]. apply Hcheck; eauto.
    + unfold check_of, reconciliation_ids. simpl. by rewrite reconciliations_of_snoc, fmap_app.
  - intros (Hk & Hi & st' & H & ->). inv_res. simpl in *.
    rewrite Hf in H. inv_res.
    assert (Hq : reconciliation_ledgerSequence c = Z.of_nat (length l)) by (breflect; done).
    match goal with H : applyReplayBudgetReconciliation _ _ _ = Ok _ |- _ =>
      apply (Hcheck _ Hq) in H as [[Hs Hfe] Ht] end.
    match goal with H : includes (ledger_reconciled st) _ = false |- _ => rename H into Hrec end.
    rewrite (bind_known _ _ tt)
      by (by apply reject_known, (entry_guard_Ok job attempts (length l) (ReconciliationEntry c))).
    rewrite (bind_known _ _ tt).
    2: { apply reject_known. rewrite Hs, Hfe, sameScope_refl, sameFence_refl, Hrec.
         by rewrite (proj2 (includes_false _ _) Hi). }
    rewrite (bind_known _ _ _ Ht).
    unfold check_of, reconciliation_ids. simpl. by rewrite reconciliations_of_snoc, fmap_app.
Qed.

(** What [validateBudgetLedger] asks of a ledger of valid entries. *)
Record budget_valid (job : ReplayJob) (attempts : list ReplayAttempt)
    (l : list ReplayBudgetLedgerEntry) : Prop := {
  bv_known : Forall (entry_known job attempts) l;
  bv_ids : NoDup (reconciliation_ids l);
  bv_fold : exists st, fold_ledger l = Ok st;
}.

Lemma fold_check job attempts l cs :
  Forall (fun e => ReplayBudgetLedgerEntrySchema e = true) l ->
  fold_result (check_entry job attempts) emptyBudgetCheck (indexed l) = Ok cs <->
  Forall (entry_known job attempts) l /\ NoDup (reconciliation_ids l) /\
  exists st, fold_ledger l = Ok st /\ cs = check_of st l.
Proof.
  revert cs. induction l as [|e l IH] using rev_ind; intros cs Hv.
  { split; [intros [= <-]|intros (_ & _ & st & [= <-] & ->)]; [|done].
    split_and!; [constructor|apply NoDup_nil_2|by exists emptyLedger]. }
  apply Forall_app in Hv as [Hv [He _]%Forall_cons].
  rewrite indexed_snoc, fold_result_app, fold_ledger_snoc, bind_Ok. setoid_rewrite (IH _ Hv).
  assert (Hone : forall cs0 st, fold_ledger l = Ok st -> cs0 = check_of st l ->
    fold_result (check_entry job attempts) cs0 [(length l, e)] = Ok cs <->
    entry_known job attempts e /\
    (forall c, e = ReconciliationEntry c -> reconciliation_reconciliationId c ∉ reconciliation_ids l) /\
    exists st', summarize_entry st (length l, e) = Ok st' /\ cs = check_of st' (l ++ [e])).
  { intros cs0 st Hst ->. pose proof (fold_ledger_summary _ _ Hst) as Hls.
    change (fold_result _ _ [(length l, e)])
      with (s ← check_entry job attempts (check_of st l) (length l, e); Ok s).
    rewrite bind_Ok. destruct e as [r|c].
    - setoid_rewrite (check_reservation_iff _ _ _ _ _ _ Hls He). split.
      + intros (cs1 & H & [= ->]). destruct H as (? & H). split_and!; done.
      + intros (? & _ & H). exists cs. done.
    - setoid_rewrite (check_reconciliation_iff _ _ _ _ _ _ Hls He). split.
      + intros (cs1 & (? & ? & ?) & [= ->]). split_and!; [done|by intros ? [= <-]|done].
      + intros (? & Hn & H). exists cs. split_and!; auto. }
  assert (Hids : NoDup (reconciliation_ids (l ++ [e])) <-> NoDup (reconciliation_ids l) /\
    forall c, e = ReconciliationEntry c -> reconciliation_reconciliationId c ∉ reconciliation_ids l).
  { unfold reconciliation_ids. rewrite reconciliations_of_snoc. destruct e as [r|c].
    - rewrite app_nil_r. split; [done|]. by intros [? _].
    - rewrite fmap_app, NoDup_app. simpl. split.
      + intros (? & Hn & _). split; [done|]. intros c' [= <-] Hin. apply (Hn _ Hin). constructor.
      + intros [? Hn]. split_and!; [done| |apply NoDup_singleton].
        intros x Hx ->%list_elem_of_singleton. by apply (Hn c). }
  rewrite Forall_app, Forall_singleton, Hids. split.
  - intros (cs0 & (Hk & Hn & st & Hst & Hcs0) & H). apply (Hone _ _ Hst Hcs0) in H as (? & ? & st' & ? & ->).
    split_and!; try done. exists st'. rewrite Hst. done.
  - intros ([Hk Hke] & [Hn Hne] & st' & H & ->). apply bind_Ok in H as (st & Hst & H).
    exists (check_of st l). split; [by eauto|]. apply (Hone _ _ Hst eq_refl). eauto.
Qed.

Lemma validateBudgetLedger_iff job attempts l :
  Forall (fun e => ReplayBudgetLedgerEntrySchema e = true) l ->
  validateBudgetLedger job attempts l = true <-> budget_valid job attempts l.
Proof.
  intros Hv. unfold validateBudgetLedger. rewrite is_ok_true. setoid_rewrite (fold_check _ _ _ _ Hv).
  split; [intros (cs & ? & ? & st & ? & _)|intros [? ? [st ?]]]; [constructor|]; eauto 6.
Qed.

(** ** Sorting observations *)

Lemma insert_max o l x :
  observation_observationSequence o < observation_observationSequence x ->
  insert_observation o (l ++ [x]) = insert_observation o l ++ [x].
Proof.
  intros Hlt. induction l as [|y l IH]; simpl.
  - by rewrite (proj2 (Z.leb_le _ _)) by lia.
  - case_match; [done|]. simpl. by rewrite IH.
Qed.

Lemma insert_into_smaller x l :
  Forall (fun o => observation_observationSequence o < observation_observationSequence x) l ->
  insert_observation x l = l ++ [x].
Proof.
  induction 1 as [|y l Hy _ IH]; simpl; [done|].
  rewrite (proj2 (Z.leb_gt _ _)) by done. by rewrite IH.
Qed.

Lemma sort_observations_elem o l : o ∈ sort_observations l <-> o ∈ l.
Proof.
  assert (Hi : forall x k, o ∈ insert_observation x k <-> o = x \/ o ∈ k).
  { intros x k. induction k as [|y k IH]; simpl.
    - rewrite list_elem_of_singleton, elem_of_nil. tauto.
    - case_match; rewrite !elem_of_cons; [done|]. rewrite IH. tauto. }
  induction l as [|x l IH]; simpl; [done|]. rewrite Hi, elem_of_cons, IH. done.
Qed.

(** A new observation with the largest sequence is sorted to the end, wherever
    it is inserted. *)
Lemma sort_observations_append l x k :
  Forall (fun o => observation_observationSequence o < observation_observationSequence x) (l ++ k) ->
  sort_observations (l ++ x :: k) = sort_observations (l ++ k) ++ [x].
Proof.
  induction l as [|y l IH]; simpl; intros H.
  - apply insert_into_smaller, Forall_forall. intros o Ho. rewrite sort_observations_elem in Ho.
    rewrite Forall_forall in H. by apply H.
  - apply Forall_cons in H as [Hy H]. rewrite IH by done. by apply insert_max.
Qed.

Lemma strictly_ordered_snoc l v :
  strictly_ordered (l ++ [v]) = true <->
  strictly_ordered l = true /\ forall w, last l = Some w -> w < v.
Proof.
  induction l as [|x l IH]; [by split; [intros _; split; [|intros w [=]]|]|].
  destruct l as [|y l].
  - simpl. breflect. split; [intros [? _]; split; [done|intros w [= <-]; done]|].
    intros [_ H]. split; [by apply H|done].
  - change ((x :: y :: l) ++ [v]) with (x :: (y :: l) ++ [v]).
    change (strictly_ordered (x :: (y :: l) ++ [v]))
      with ((x <? y) && strictly_ordered ((y :: l) ++ [v])).
    change (strictly_ordered (x :: y :: l)) with ((x <? y) && strictly_ordered (y :: l)).
    rewrite !andb_true_iff, IH. change (last (x :: y :: l)) with (last (y :: l)). tauto.
Qed.

(** ** The contract as propositions *)

Record attempt_consistent (job : ReplayJob) (index : nat) (a : ReplayAttempt) : Prop := {
  ac_jobId : attempt_jobId a = job_jobId job;
  ac_sequence : attempt_attemptSequence a = Z.of_nat index;
  ac_scope : attempt_scope a = job_scope job;
  ac_plan : attempt_plan a = job_plan job;
  ac_epoch : fence_recoveryEpoch (attempt_mutationFence a) <= job_recoveryEpoch job;
  ac_token : fence_fencingToken (attempt_mutationFence a) <= job_lastFencingToken job;
}.

(** [p] was closed before its replacement [a], under an older fence. *)
Definition succeeded_by (p a : ReplayAttempt) : Prop :=
  (exists e, attempt_endedAt p = Some e /\ e <= attempt_startedAt a) /\
  fence_fencingToken (attempt_mutationFence p) < fence_fencingToken (attempt_mutationFence a) /\
  fence_recoveryEpoch (attempt_mutationFence p) <= fence_recoveryEpoch (attempt_mutationFence a).

Record attempts_valid (job : ReplayJob) (attempts : list ReplayAttempt) : Prop := {
  av_ids : NoDup (attempt_attemptId <$> attempts);
  av_leases : NoDup ((fun a => fence_leaseId (attempt_mutationFence a)) <$> attempts);
  av_each : forall i a, attempts !! i = Some a -> attempt_consistent job i a;
  av_succession : forall i p a,
    attempts !! i = Some p -> attempts !! S i = Some a -> succeeded_by p a;
  av_root : match last attempts with
    | None => job_latestAttemptSequence job = None
    | Some latest =>
        job_latestAttemptSequence job = Some (Z.of_nat (length attempts) - 1) /\
        fence_fencingToken (attempt_mutationFence latest) = job_lastFencingToken job
    end;
  av_lease : forall lease, job_currentLease job = Some lease ->
    exists latest, last attempts = Some latest /\ attempt_status latest = attempt_running /\
      attempt_mutationFence latest = lease_mutationFence lease;
  av_terminal : forall terminal id,
    job_terminal job = Some terminal -> terminal_attemptId terminal = Some id ->
    exists latest endedAt, last attempts = Some latest /\ attempt_attemptId latest = id /\
      attempt_status latest <> attempt_running /\ attempt_endedAt latest = Some endedAt /\
      endedAt <= terminal_committedAt terminal;
}.

Lemma attempt_schema_identity a :
  ReplayAttemptSchema a = true ->
  fence_attemptId (attempt_mutationFence a) = attempt_attemptId a /\
  fence_jobId (attempt_mutationFence a) = attempt_jobId a.
Proof.
  unfold ReplayAttemptSchema, refineReplayAttempt, refine_attempt_identity.
  rewrite !andb_true_iff, !bool_decide_eq_true. tauto.
Qed.

Lemma attempt_by_id_elem attempts a :
  NoDup (attempt_attemptId <$> attempts) -> a ∈ attempts ->
  attempt_by_id attempts (attempt_attemptId a) = Some a.
Proof. apply find_unique. Qed.

Lemma attempt_by_id_Some attempts id a :
  attempt_by_id attempts id = Some a -> a ∈ attempts /\ attempt_attemptId a = id.
Proof. intros [? ?]%find_Some_key. by breflect. Qed.

Lemma invalid_attempt_false job attempts i a :
  invalid_attempt job attempts (i, a) = false <->
  attempt_consistent job i a /\
  forall p, previous_of attempts i = Some p -> succeeded_by p a.
Proof.
  unfold invalid_attempt, bad_succession, succeeded_by.
  destruct (previous_of attempts i) as [p|].
  - destruct (attempt_endedAt p) as [e|] eqn:He; breflect.
    + split.
      * intros H. destruct_and!. split; [constructor; done || lia|]. intros p' [= <-].
        split_and!; [by exists e|lia|lia].
      * intros [[] H]. destruct (H p eq_refl) as ((e' & He' & ?) & ? & ?).
        rewrite He in He'. injection He' as <-. split_and!; done || lia.
    + split; [intros [_ [[? _] _]]; discriminate|].
      intros [_ H]. destruct (H p eq_refl) as ((e' & ? & _) & _). congruence.
  - breflect. split.
    + intros H. destruct_and!. split; [constructor; done || lia|]. intros p' [=].
    + intros [[] _]. split_and!; done || lia.
Qed.

Lemma history_iff job attempts :
  existsb (invalid_attempt job attempts) (indexed attempts) = false <->
  (forall i a, attempts !! i = Some a -> attempt_consistent job i a) /\
  (forall i p a, attempts !! i = Some p -> attempts !! S i = Some a -> succeeded_by p a).
Proof.
  rewrite existsb_indexed. setoid_rewrite invalid_attempt_false. split.
  - intros H. split; [intros i a Ha; apply (H i a Ha)|]. intros i p a Hp Ha.
    destruct (H _ _ Ha) as [_ Hs]. by apply Hs.
  - intros [H1 H2] i a Ha. split; [by apply H1|]. destruct i as [|i]; simpl; [intros p [=]|].
    intros p Hp. by apply (H2 i).
Qed.

Lemma rootDisagrees_false job attempts :
  rootDisagrees job attempts = false <->
  match last attempts with
  | None => job_latestAttemptSequence job = None
  | Some latest =>
      job_latestAttemptSequence job = Some (Z.of_nat (length attempts) - 1) /\
      fence_fencingToken (attempt_mutationFence latest) = job_lastFencingToken job
  end.
Proof.
  unfold rootDisagrees, latest_of. destruct (last attempts); breflect; done.
Qed.

Lemma lease_disagrees_false job attempts :
  Forall (fun a => ReplayAttemptSchema a = true) attempts ->
  NoDup (attempt_attemptId <$> attempts) ->
  (forall i a, attempts !! i = Some a -> attempt_consistent job i a) ->
  lease_disagrees job attempts = false <->
  forall lease, job_currentLease job = Some lease ->
    exists latest, last attempts = Some latest /\ attempt_status latest = attempt_running /\
      attempt_mutationFence latest = lease_mutationFence lease.
Proof.
  intros Hv Hids Hc. unfold lease_disagrees, latest_of.
  destruct (job_currentLease job) as [lease|]; [|split; [intros _ lease [=]|done]].
  destruct (last attempts) as [latest|] eqn:Hl.
  - breflect. split.
    + intros (_ & ? & ?) lease' [= <-]. eauto.
    + intros H. destruct (H lease eq_refl) as (? & [= <-] & Hs & Hf). split_and!; try done.
      exists latest. unfold knownFence. rewrite <- Hf. pose proof (last_elem_of _ _ Hl) as Hin.
      rewrite Forall_forall in Hv. destruct (attempt_schema_identity _ (Hv _ Hin)) as [-> Hj].
      rewrite attempt_by_id_elem, sameFence_refl by done. simpl.
      rewrite bool_decide_eq_true_2; [done|]. rewrite Hj.
      apply list_elem_of_lookup in Hin as [i Hi]. by destruct (Hc _ _ Hi).
  - split; [intros [_ ?]%orb_false_iff; discriminate|]. intros H.
    destruct (H lease eq_refl) as (? & ? & _). discriminate.
Qed.

Lemma terminal_disagrees_false job attempts :
  NoDup (attempt_attemptId <$> attempts) ->
  terminal_disagrees job attempts = false <->
  forall terminal id,
    job_terminal job = Some terminal -> terminal_attemptId terminal = Some id ->
    exists latest endedAt, last attempts = Some latest /\ attempt_attemptId latest = id /\
      attempt_status latest <> attempt_running /\ attempt_endedAt latest = Some endedAt /\
      endedAt <= terminal_committedAt terminal.
Proof.
  intros Hids. unfold terminal_disagrees, latest_of.
  destruct (job_terminal job) as [t|]; [|split; [intros _ t i [=]|done]].
  destruct (terminal_attemptId t) as [id|] eqn:Hid;
    [|split; [intros _ t' i [= <-] ?; congruence|done]].
  split.
  - intros H t' id' [= <-] Hid'. assert (id' = id) as -> by congruence.
    destruct (attempt_by_id attempts id) as [a|] eqn:Ha; [|discriminate].
    apply attempt_by_id_Some in Ha as [Ha Hai]. breflect. destruct H as [[Hla Hst] Hend].
    destruct (last attempts) as [latest|] eqn:Hl; [|discriminate]. injection Hla as Hla.
    assert (latest = a) as ->.
    { apply last_elem_of in Hl. apply attempt_by_id_elem in Hl, Ha; congruence. }
    destruct (attempt_endedAt a) as [e|] eqn:He; [|discriminate]. breflect.
    exists a, e. split_and!; done.
  - intros H. destruct (H t id eq_refl Hid) as (latest & e & Hl & <- & Hs & He & Hle).
    rewrite attempt_by_id_elem, Hl, He by (done || by apply last_elem_of). simpl.
    breflect. split_and!; done.
Qed.

Lemma validateAttempts_iff job attempts :
  Forall (fun a => ReplayAttemptSchema a = true) attempts ->
  validateAttempts job attempts = true <-> attempts_valid job attempts.
Proof.
  intros Hv. unfold validateAttempts, unique.
  rewrite !andb_true_iff, !negb_true_iff, !bool_decide_eq_true, history_iff, rootDisagrees_false.
  split.
  - intros (((((? & ?) & [? ?]) & ?) & Hl) & Ht).
    rewrite lease_disagrees_false in Hl by done. rewrite terminal_disagrees_false in Ht by done.
    by constructor.
  - intros []. rewrite lease_disagrees_false, terminal_disagrees_false by done. done.
Qed.

(** A request the job retains. *)
Record cancellation_valid (job : ReplayJob) (request : ReplayCancellationRequest) : Prop := {
  rv_status : job_status job = running \/ job_status job = ended cancelled;
  rv_jobId : cancellation_jobId request = job_jobId job;
  rv_scope : cancellation_scope request = job_scope job;
  rv_requestedAt : job_createdAt job <= cancellation_requestedAt request;
}.

Definition cancellation_retained (job : ReplayJob)
    (cancellation : option ReplayCancellationRequest) : Prop :=
  match cancellation with
  | Some request => cancellation_valid job request
  | None => forall t, job_terminal job = Some t -> terminal_code t <> cancellation_committed
  end.

Record acknowledgement_valid (job : ReplayJob) (attempts : list ReplayAttempt)
    (cancellation : option ReplayCancellationRequest) (ack : ReplayCancellationAcknowledgement) :
    Prop := {
  kv_request : exists request, cancellation = Some request /\
    ack_cancellationId ack = cancellation_cancellationId request /\
    cancellation_requestedAt request <= ack_acknowledgedAt ack;
  kv_attempt : exists a, attempt_by_id attempts (fence_attemptId (ack_mutationFence ack)) = Some a /\
    attempt_mutationFence a = ack_mutationFence ack /\ attempt_startedAt a <= ack_acknowledgedAt ack;
  kv_scope : ack_scope ack = job_scope job;
}.

Definition acknowledged_before (p a : ReplayCancellationAcknowledgement) : Prop :=
  ack_acknowledgedAt p < ack_acknowledgedAt a \/
  ack_acknowledgedAt p = ack_acknowledgedAt a /\
  string_lt (ack_acknowledgementId p) (ack_acknowledgementId a) = true.

Record observation_valid (job : ReplayJob) (attempts : list ReplayAttempt) (o : Observation) :
    Prop := {
  ov_attempt : exists a,
    attempt_by_id attempts (fence_attemptId (observation_mutationFence o)) = Some a /\
    attempt_mutationFence a = observation_mutationFence o /\
    attempt_startedAt a <= observation_observedAt o;
  ov_scope : observation_scope o = job_scope job;
}.

Record snapshot_valid (s : ReplayJobSnapshot) : Prop := {
  sv_job : ReplayJobSchema (snapshot_job s) = true;
  sv_attempt_records : Forall (fun a => ReplayAttemptSchema a = true) (snapshot_attempts s);
  sv_entry_records :
    Forall (fun e => ReplayBudgetLedgerEntrySchema e = true) (snapshot_budgetLedger s);
  sv_ack_records : Forall (fun a => ReplayCancellationAcknowledgementSchema a = true)
    (snapshot_cancellationAcknowledgements s);
  sv_request_record :
    optional ReplayCancellationRequestSchema (snapshot_cancellationRequest s) = true;
  sv_execution_records : Forall (fun o => ReplayExecutionObservationSchema o = true)
    (snapshot_executionObservations s);
  sv_usage_records : Forall (fun o => ReplayUsageObservationSchema o = true)
    (snapshot_usageObservations s);
  sv_attempts : attempts_valid (snapshot_job s) (snapshot_attempts s);
  sv_ledger : budget_valid (snapshot_job s) (snapshot_attempts s) (snapshot_budgetLedger s);
  sv_cancellation : cancellation_retained (snapshot_job s) (snapshot_cancellationRequest s);
  sv_ack_ids : NoDup (ack_acknowledgementId <$> snapshot_cancellationAcknowledgements s);
  sv_acks : Forall (acknowledgement_valid (snapshot_job s) (snapshot_attempts s)
    (snapshot_cancellationRequest s)) (snapshot_cancellationAcknowledgements s);
  sv_ack_order : forall i p a, snapshot_cancellationAcknowledgements s !! i = Some p ->
    snapshot_cancellationAcknowledgements s !! S i = Some a -> acknowledged_before p a;
  sv_observation_ids : NoDup (observation_observationId <$> observations_of s);
  sv_execution_order :
    strictly_ordered (execution_observationSequence <$> snapshot_executionObservations s) = true;
  sv_usage_order :
    strictly_ordered (usage_observationSequence <$> snapshot_usageObservations s) = true;
  sv_observations :
    Forall (observation_valid (snapshot_job s) (snapshot_attempts s)) (observations_of s);
  sv_observation_order : forall i o, sort_observations (observations_of s) !! i = Some o ->
    observation_observationSequence o = Z.of_nat i;
  sv_names : Forall (fun o => names_request (snapshot_cancellationRequest s) o = true)
    (snapshot_executionObservations s);
}.

Lemma cancellation_consistent_true job c :
  cancellation_consistent job c = true <-> cancellation_retained job c.
Proof.
  unfold cancellation_consistent, cancellation_retained. destruct c as [r|].
  - breflect. rewrite includes_true. split.
    + intros [Hs [[? ?] ?]]. constructor; try done.
      apply elem_of_cons in Hs as [->|Hs]; [by left|]. apply list_elem_of_singleton in Hs as ->. by right.
    + intros []. split_and!; try done. rewrite elem_of_cons, list_elem_of_singleton. tauto.
  - destruct (job_terminal job) as [t|]; [|split; [intros _ t [=]|done]].
    breflect. split; [intros H t' [= <-]; done|intros H; by apply H].
Qed.

Lemma invalid_acknowledgement_false job attempts c acks i a :
  invalid_acknowledgement job attempts c acks (i, a) = false <->
  acknowledgement_valid job attempts c a /\
  forall p, previous_of acks i = Some p -> acknowledged_before p a.
Proof.
  unfold invalid_acknowledgement, acknowledged_before.
  destruct c as [r|]; [|split; [discriminate|intros [[(? & ? & _)] _]; discriminate]].
  destruct (attempt_by_id attempts _) as [b|] eqn:Hb;
    [|split; [discriminate|intros [[_ (? & ? & _)] _]; congruence]].
  breflect. split.
  - intros (((((? & ?) & ?) & ?) & ?) & Hp). split; [constructor; eauto|].
    intros p Hpr. rewrite Hpr in Hp. breflect.
    destruct (Z.lt_ge_cases (ack_acknowledgedAt p) (ack_acknowledgedAt a)); [by left|right].
    destruct Hp as [? [?|?]]; [lia|]. split; [lia|done].
  - intros [[(? & [= <-] & ? & ?) (? & Hb' & ? & ?) ?] Hp].
    rewrite Hb in Hb'. injection Hb' as <-. split_and!; try done.
    destruct (previous_of acks i) as [p|]; [|done]. breflect.
    destruct (Hp p eq_refl) as [?|[? ?]]; [split; [lia|left; lia]|]. split; [lia|by right].
Qed.

Lemma acknowledgements_iff job attempts c acks :
  existsb (invalid_acknowledgement job attempts c acks) (indexed acks) = false <->
  Forall (acknowledgement_valid job attempts c) acks /\
  (forall i p a, acks !! i = Some p -> acks !! S i = Some a -> acknowledged_before p a).
Proof.
  rewrite existsb_indexed. setoid_rewrite invalid_acknowledgement_false. rewrite Forall_lookup. split.
  - intros H. split; [intros i a Ha; apply (H i a Ha)|]. intros i p a Hp Ha.
    destruct (H _ _ Ha) as [_ Hs]. by apply Hs.
  - intros [H1 H2] i a Ha. split; [by eapply H1|]. destruct i as [|i]; simpl; [intros p [=]|].
    intros p Hp. by apply (H2 i).
Qed.

Lemma invalid_observation_false job attempts i o :
  invalid_observation job attempts (i, o) = false <->
  observation_observationSequence o = Z.of_nat i /\ observation_valid job attempts o.
Proof.
  unfold invalid_observation.
  destruct (attempt_by_id attempts _) as [b|] eqn:Hb.
  - breflect. split.
    + intros (? & (? & ?) & ?). split; [done|]. constructor; eauto.
    + intros [? [(? & Hb' & ? & ?) ?]]. rewrite Hb in Hb'. injection Hb' as <-. split_and!; done.
  - split; [intros [_ ?]%orb_false_iff; discriminate|].
    intros [_ [(? & ? & _) _]]. congruence.
Qed.

Lemma observations_iff job attempts l :
  existsb (invalid_observation job attempts) (indexed (sort_observations l)) = false <->
  (forall i o, sort_observations l !! i = Some o -> observation_observationSequence o = Z.of_nat i) /\
  Forall (observation_valid job attempts) l.
Proof.
  rewrite existsb_indexed. setoid_rewrite invalid_observation_false. rewrite Forall_forall. split.
  - intros H. split; [intros i o Ho; apply (H i o Ho)|]. intros o Ho.
    rewrite <- sort_observations_elem in Ho. apply list_elem_of_lookup in Ho as [i Hi]. by destruct (H _ _ Hi).
  - intros [H1 H2] i o Ho. split; [by apply H1|]. apply H2. rewrite <- sort_observations_elem.
    by eapply list_elem_of_lookup_2.
Qed.

(** The contract accepts exactly the valid snapshots. *)
Lemma snapshot_schema_iff s : ReplayJobSnapshotSchema s = true <-> snapshot_valid s.
Proof.
  unfold ReplayJobSnapshotSchema, refineReplayJobSnapshot, unique.
  rewrite !andb_true_iff, !negb_true_iff, !bool_decide_eq_true, !forallb_Forall,
    cancellation_consistent_true, acknowledgements_iff, observations_iff.
  split.
  - intros (((((((Ha & He) & ?) & ?) & ?) & ?) & ?) & Href).
    rewrite validateAttempts_iff, validateBudgetLedger_iff in Href by done.
    destruct Href as (((((((((? & ?) & ?) & ?) & [? ?]) & ?) & ?) & ?) & [? ?]) & ?).
    by constructor.
  - intros []. rewrite validateAttempts_iff, validateBudgetLedger_iff by done. split_and!; done.
Qed.

(** The fence of the live lease is the latest attempt's. *)
Lemma current_fence_known job attempts lease :
  attempts_valid job attempts -> Forall (fun a => ReplayAttemptSchema a = true) attempts ->
  job_currentLease job = Some lease ->
  exists latest, last attempts = Some latest /\ attempt_status latest = attempt_running /\
    attempt_mutationFence latest = lease_mutationFence lease /\
    attempt_by_id attempts (fence_attemptId (lease_mutationFence lease)) = Some latest.
Proof.
  intros [] Hv Hl. destruct (av_lease0 _ Hl) as (latest & Hla & Hs & Hf).
  exists latest. split_and!; try done. rewrite <- Hf.
  pose proof (last_elem_of _ _ Hla) as Hin. rewrite Forall_forall in Hv.
  destruct (attempt_schema_identity _ (Hv _ Hin)) as [-> _]. by apply attempt_by_id_elem.
Qed.

(** ** Theorems *)

(** C36. The snapshot contract's own replay of a ledger and the domain's
    [summarizeReplayBudgetLedger], two implementations of one replay, agree: of
    the ledgers whose entries satisfy their schema, the contract accepts exactly
    those that summarize and in which, besides, every fence and scope is one of
    the job and its attempts and no reconciliation identifier is repeated. *)
Theorem ledger_validators_agree job attempts entries :
  Forall (fun e => ReplayBudgetLedgerEntrySchema e = true) entries ->
  validateBudgetLedger job attempts entries = true <->
  is_ok (summarizeReplayBudgetLedger entries) = true /\
  Forall (entry_known job attempts) entries /\ NoDup (reconciliation_ids entries).
Proof.
  intros Hv. rewrite (validateBudgetLedger_iff _ _ _ Hv), is_ok_true.
  unfold summarizeReplayBudgetLedger. setoid_rewrite bind_Ok. split.
  - intros [? ? [st Hst]]. split; [|done]. eexists. by exists st.
  - intros ((s & st & Hst & _) & ? & ?). constructor; [done..|by exists st].
Qed.
