(* ===== verification/ReplayJobSnapshotProofs.v ===== *)
(** * Snapshot preservation

    What the pure transitions of [ReplayJobState] do to a valid snapshot: an
    attempt history may be extended by a replacement, its last attempt may be
    closed in place, and ledgers, acknowledgements and observations may grow.
    The repository's invariant proof is these lemmas plus bookkeeping. *)

From S2P Require Import Prelude Errors Primitives ReplayPlan ReplayJob ReplayJobState.
From S2P Require Import ReplayJobStateProofs ReplayAccounting ReplayBudget ReplayJobSnapshot.

(** ** Changing the job root and the attempts *)

(** Every attempt that could be named before can be named after, with the
    fence and start it had. *)
Definition attempts_extend (before after : list ReplayAttempt) : Prop :=
  forall id a, attempt_by_id before id = Some a ->
    exists a', attempt_by_id after id = Some a' /\
      attempt_mutationFence a' = attempt_mutationFence a /\
      attempt_startedAt a' = attempt_startedAt a.

(** The fields of the root no transition changes. *)
Definition same_root (job job' : ReplayJob) : Prop :=
  job_jobId job' = job_jobId job /\ job_scope job' = job_scope job /\
  job_createdAt job' = job_createdAt job /\ job_plan job' = job_plan job /\
  job_recoveryEpoch job' = job_recoveryEpoch job /\
  job_createdByPrincipalId job' = job_createdByPrincipalId job.

Lemma same_root_refl job : same_root job job.
Proof. by unfold same_root. Qed.

Lemma attempts_extend_refl attempts : attempts_extend attempts attempts.
Proof. intros id a H. eauto. Qed.

Lemma fence_known_extend before after f :
  attempts_extend before after -> fence_known before f -> fence_known after f.
Proof.
  intros He (a & Ha & Hf). destruct (He _ _ Ha) as (a' & Ha' & Hf' & _).
  exists a'. split; [done|congruence].
Qed.

Lemma budget_valid_extend job job' before after l :
  same_root job job' -> attempts_extend before after ->
  budget_valid job before l -> budget_valid job' after l.
Proof.
  intros (_ & Hs & _) He []. constructor; auto.
  eapply Forall_impl; [exact bv_known|]. intros e [? ?]. split; [congruence|].
  by eapply fence_known_extend.
Qed.

Lemma acknowledgement_valid_extend job job' before after c a :
  same_root job job' -> attempts_extend before after ->
  acknowledgement_valid job before c a -> acknowledgement_valid job' after c a.
Proof.
  intros (_ & Hs & _) He [? (b & Hb & Hf & Ht) ?]. constructor; [done| |congruence].
  destruct (He _ _ Hb) as (b' & ? & ? & ?). exists b'. split_and!; [done|congruence|lia].
Qed.

Lemma observation_valid_extend job job' before after o :
  same_root job job' -> attempts_extend before after ->
  observation_valid job before o -> observation_valid job' after o.
Proof.
  intros (_ & Hs & _) He [(b & Hb & Hf & Ht) ?]. constructor; [|congruence].
  destruct (He _ _ Hb) as (b' & ? & ? & ?). exists b'. split_and!; [done|congruence|lia].
Qed.

(** The snapshot with another root and attempts. *)
Definition with_root (s : ReplayJobSnapshot) (attempts : list ReplayAttempt) (job : ReplayJob) :
    ReplayJobSnapshot := {|
  snapshot_attempts := attempts;
  snapshot_budgetLedger := snapshot_budgetLedger s;
  snapshot_cancellationAcknowledgements := snapshot_cancellationAcknowledgements s;
  snapshot_cancellationRequest := snapshot_cancellationRequest s;
  snapshot_executionObservations := snapshot_executionObservations s;
  snapshot_job := job;
  snapshot_usageObservations := snapshot_usageObservations s
|}.

Lemma with_root_valid s attempts job :
  snapshot_valid s -> same_root (snapshot_job s) job ->
  attempts_extend (snapshot_attempts s) attempts ->
  ReplayJobSchema job = true -> Forall (fun a => ReplayAttemptSchema a = true) attempts ->
  attempts_valid job attempts ->
  cancellation_retained job (snapshot_cancellationRequest s) ->
  snapshot_valid (with_root s attempts job).
Proof.
  intros [] Hr He Hj Ha Hav Hc. constructor; simpl; try done.
  - by eapply budget_valid_extend.
  - eapply Forall_impl; [done|]. intros a. by apply acknowledgement_valid_extend.
  - eapply Forall_impl; [done|]. intros o. by apply observation_valid_extend.
Qed.

(** ** Attempt histories *)

Record history (job : ReplayJob) (attempts : list ReplayAttempt) : Prop := {
  h_ids : NoDup (attempt_attemptId <$> attempts);
  h_leases : NoDup ((fun a => fence_leaseId (attempt_mutationFence a)) <$> attempts);
  h_each : forall i a, attempts !! i = Some a -> attempt_consistent job i a;
  h_succession : forall i p a,
    attempts !! i = Some p -> attempts !! S i = Some a -> succeeded_by p a;
}.

Lemma attempts_history job attempts : attempts_valid job attempts -> history job attempts.
Proof. intros []. by constructor. Qed.

Lemma history_job job job' attempts :
  same_root job job' -> job_lastFencingToken job <= job_lastFencingToken job' ->
  history job attempts -> history job' attempts.
Proof.
  intros (? & ? & _ & ? & ? & _) Ht []. constructor; auto.
  intros i a Ha. destruct (h_each0 i a Ha). constructor; congruence || lia.
Qed.

(** [p'] is the attempt [p], closed. *)
Definition closes_attempt (p p' : ReplayAttempt) : Prop :=
  attempt_attemptId p' = attempt_attemptId p /\
  attempt_attemptSequence p' = attempt_attemptSequence p /\
  attempt_jobId p' = attempt_jobId p /\ attempt_scope p' = attempt_scope p /\
  attempt_plan p' = attempt_plan p /\ attempt_mutationFence p' = attempt_mutationFence p /\
  attempt_startedAt p' = attempt_startedAt p.

Lemma outcome_closes a endedAt e r d s : closes_attempt a (attempt_with_outcome a endedAt e r d s).
Proof. unfold closes_attempt. by simpl. Qed.

Lemma history_close job pre p p' :
  closes_attempt p p' -> history job (pre ++ [p]) -> history job (pre ++ [p']).
Proof.
  intros (Hi & Hq & Hj & Hs & Hpl & Hf & Hst) [].
  assert (Hfm : forall B (f : ReplayAttempt -> B), f p' = f p -> f <$> (pre ++ [p']) = f <$> (pre ++ [p])).
  { intros B f He. rewrite !fmap_app. simpl. by rewrite He. }
  constructor.
  - by rewrite Hfm.
  - rewrite (Hfm _ (fun a => fence_leaseId (attempt_mutationFence a))) by (by rewrite Hf). done.
  - intros i a [Ha|[Hl Ha]]%lookup_app_Some.
    + apply h_each0. by apply lookup_app_l_Some.
    + apply list_lookup_singleton_Some in Ha as [Hi0 <-].
      assert (Hp : (pre ++ [p]) !! i = Some p)
        by (rewrite lookup_app_r by done; by rewrite Hi0).
      destruct (h_each0 _ _ Hp). constructor; congruence || (rewrite Hf; lia).
  - intros i x a Hx [Ha|[Hl Ha]]%lookup_app_Some.
    + rewrite lookup_app_l in Hx by (apply lookup_lt_Some in Ha; lia).
      apply (h_succession0 i); by apply lookup_app_l_Some.
    + apply list_lookup_singleton_Some in Ha as [Hi0 <-].
      assert (Hlt : (i < length pre)%nat) by lia.
      rewrite lookup_app_l in Hx by done.
      assert (Hp : (pre ++ [p]) !! S i = Some p)
        by (rewrite lookup_app_r by done; by rewrite Hi0).
      destruct (h_succession0 i x p ltac:(by apply lookup_app_l_Some) Hp) as (? & ? & ?).
      unfold succeeded_by. by rewrite Hf, Hst.
Qed.

Lemma history_append job l a :
  history job l -> (forall p, last l = Some p -> succeeded_by p a) ->
  attempt_consistent job (length l) a ->
  attempt_attemptId a ∉ attempt_attemptId <$> l ->
  fence_leaseId (attempt_mutationFence a) ∉
    (fun a => fence_leaseId (attempt_mutationFence a)) <$> l ->
  history job (l ++ [a]).
Proof.
  intros [] Hp Hc Hi Hl. constructor.
  - rewrite fmap_app. apply NoDup_app. split_and!; [done| |apply NoDup_singleton].
    by intros x Hx ->%list_elem_of_singleton.
  - rewrite fmap_app. apply NoDup_app. split_and!; [done| |apply NoDup_singleton].
    by intros x Hx ->%list_elem_of_singleton.
  - intros i x [Hx|[Hlen Hx]]%lookup_app_Some; [by apply h_each0|].
    apply list_lookup_singleton_Some in Hx as [Hi0 <-].
    replace i with (length l) by lia. done.
  - intros i x y Hx [Hy|[Hlen Hy]]%lookup_app_Some.
    + rewrite lookup_app_l in Hx by (apply lookup_lt_Some in Hy; lia). by apply (h_succession0 i).
    + apply list_lookup_singleton_Some in Hy as [Hi0 <-].
      assert (length l = S i) as Hlen' by lia.
      rewrite lookup_app_l in Hx by lia. apply Hp. rewrite last_lookup, Hlen'. done.
Qed.

Lemma extend_close pre p p' :
  NoDup (attempt_attemptId <$> (pre ++ [p])) ->
  closes_attempt p p' -> attempts_extend (pre ++ [p]) (pre ++ [p']).
Proof.
  intros Hnd (Hi & _ & _ & _ & _ & Hf & Hst) id a Ha.
  unfold attempt_by_id in *. rewrite find_app_key in *. simpl in *. rewrite Hi.
  destruct (List.find _ pre) as [x|]; [by exists a|].
  case_bool_decide; [|discriminate]. injection Ha as <-. exists p'. done.
Qed.

Lemma extend_append l a : attempts_extend l (l ++ [a]).
Proof.
  intros id x Hx. exists x. unfold attempt_by_id in *. rewrite find_app_key, Hx. done.
Qed.

Lemma extend_trans a b c : attempts_extend a b -> attempts_extend b c -> attempts_extend a c.
Proof.
  intros H1 H2 id x Hx. destruct (H1 _ _ Hx) as (y & Hy & ? & ?).
  destruct (H2 _ _ Hy) as (z & Hz & ? & ?). exists z. split_and!; congruence.
Qed.

(** The running attempt of a valid snapshot is the last of its history. *)
Lemma running_attempt_last job attempts lease :
  attempts_valid job attempts -> job_currentLease job = Some lease ->
  exists pre cur, attempts = pre ++ [cur] /\ attempt_status cur = attempt_running /\
    attempt_mutationFence cur = lease_mutationFence lease /\
    attempt_attemptSequence cur = Z.of_nat (length pre) /\
    job_latestAttemptSequence job = Some (Z.of_nat (length pre)).
Proof.
  intros [] Hl. destruct (av_lease _ Hl) as (cur & Hcur & Hs & Hf).
  apply last_Some in Hcur as [pre ->]. rewrite last_snoc in av_root. destruct av_root as [Hq Ht].
  exists pre, cur. split_and!; try done.
  - assert (Hc : attempt_consistent job (length pre) cur)
      by (apply av_each; rewrite lookup_app_r, Nat.sub_diag by done; done).
    apply Hc.
  - rewrite Hq, length_app. simpl. f_equal. lia.
Qed.

(** ** The transitions on a snapshot *)

Lemma queued_no_attempts job attempts :
  ReplayJobSchema job = true -> job_status job = queued -> attempts_valid job attempts ->
  attempts = [].
Proof.
  intros Hv Hs []. destruct (valid_queued _ Hv Hs) as (_ & _ & Hq & _).
  destruct (last attempts) eqn:Hl; [destruct av_root; congruence|]. by apply last_None.
Qed.

(** What a claim of a running job does to the attempt it replaces. *)
Lemma claim_expires job o r cur :
  claim_success job o r -> job_status job = running -> claim_currentAttempt o = Some cur ->
  exists expired, claimed_expiredAttempt r = Some expired /\
    ReplayAttemptSchema expired = true /\ closes_attempt cur expired /\
    attempt_endedAt expired = Some (claim_now o).
Proof.
  intros [] Hs Hcur. unfold expire_current_attempt in cs_expired.
  rewrite bool_decide_eq_true_2, Hcur in cs_expired by done. inv_res.
  match goal with H : assertCurrentAttempt _ _ = Ok _ |- _ =>
    apply assertCurrentAttempt_Ok in H as (l & _ & _ & [= <-] & _) end.
  destruct (claim_expiredEffect o); [|discriminate]. inv_res.
  match goal with H : Some _ = claimed_expiredAttempt r |- _ => rewrite <- H end.
  eexists. split_and!; [done|done|apply outcome_closes|done].
Qed.

Lemma claim_queued_no_expiry job o r :
  claim_success job o r -> job_status job = queued -> claimed_expiredAttempt r = None.
Proof.
  intros [] Hs. unfold expire_current_attempt in cs_expired.
  rewrite bool_decide_eq_false_2 in cs_expired by congruence. inv_res. done.
Qed.

Definition claimed_attempts (attempts : list ReplayAttempt) (r : ClaimReplayJobResult) :
    list ReplayAttempt :=
  match claimed_expiredAttempt r with
  | Some expired => removelast attempts ++ [expired] ++ [claimed_attempt r]
  | None => attempts ++ [claimed_attempt r]
  end.

Lemma claim_same_root job o r : claim_success job o r -> same_root job (claimed_job r).
Proof. intros []. rewrite cs_result. by unfold same_root. Qed.

(** The new attempt closes the gap between the history and the new root. *)
Lemma claim_attempts_valid job o r attempts :
  claim_success job o r -> Forall (fun a => ReplayAttemptSchema a = true) attempts ->
  attempts_valid job attempts ->
  (job_status job = running -> exists pre cur, attempts = pre ++ [cur] /\
     claim_currentAttempt o = Some cur) ->
  claim_attemptId o ∉ attempt_attemptId <$> attempts ->
  claim_leaseId o ∉ (fun a => fence_leaseId (attempt_mutationFence a)) <$> attempts ->
  attempts_valid (claimed_job r) (claimed_attempts attempts r) /\
  attempts_extend attempts (claimed_attempts attempts r) /\
  Forall (fun a => ReplayAttemptSchema a = true) (claimed_attempts attempts r).
Proof.
  intros Hcs Hv Hav Hcur Hid Hlease. pose proof (claim_same_root _ _ _ Hcs) as Hroot.
  pose proof (attempts_history _ _ Hav) as Hh. pose proof Hcs as [].
  assert (Hmid : exists mid, claimed_attempts attempts r = mid ++ [claimed_attempt r] /\
    history job mid /\ attempts_extend attempts mid /\ length mid = length attempts /\
    Forall (fun a => ReplayAttemptSchema a = true) mid /\
    attempt_attemptId <$> mid = attempt_attemptId <$> attempts /\
    (fun a => fence_leaseId (attempt_mutationFence a)) <$> mid =
      (fun a => fence_leaseId (attempt_mutationFence a)) <$> attempts /\
    (forall p, last mid = Some p -> attempt_endedAt p = Some (claim_now o) /\
       fence_fencingToken (attempt_mutationFence p) <= job_lastFencingToken job /\
       fence_recoveryEpoch (attempt_mutationFence p) <= job_recoveryEpoch job)).
  { unfold claimed_attempts. destruct cs_claimable as [Hs|[Hs _]].
    - rewrite (claim_queued_no_expiry _ _ _ Hcs Hs).
      rewrite (queued_no_attempts _ _ cs_job Hs Hav) in *. exists [].
      split_and!; done || apply attempts_extend_refl.
    - destruct (Hcur Hs) as (pre & cur & -> & Hcurrent).
      destruct (claim_expires _ _ _ _ Hcs Hs Hcurrent) as (e & -> & He & Hcl & Hend).
      rewrite removelast_last. exists (pre ++ [e]). rewrite <- app_assoc.
      pose proof Hcl as (Hi & _ & _ & _ & _ & Hf & _).
      split_and!; try done.
      + by eapply history_close.
      + apply extend_close; [apply Hh|done].
      + by rewrite !length_app.
      + apply Forall_app in Hv as [? _]. apply Forall_app. split; [done|by constructor].
      + rewrite !fmap_app. simpl. by rewrite Hi.
      + rewrite !fmap_app. simpl. by rewrite Hf.
      + intros p Hp. rewrite last_snoc in Hp. injection Hp as <-. rewrite Hf.
        destruct Hh. destruct (h_each0 (length pre) cur); [by rewrite lookup_app_r, Nat.sub_diag|].
        split_and!; done. }
  destruct Hmid as (mid & -> & Hhm & Hext & Hlen & Hvm & Hids & Hleases & Hlast).
  assert (Hseq : next_sequence job = Z.of_nat (length attempts)).
  { destruct Hav. unfold next_sequence. destruct (last attempts) as [l|] eqn:Hl.
    - destruct av_root as [-> _]. simpl. lia.
    - apply last_None in Hl as ->. by rewrite av_root. }
  assert (Htok : job_lastFencingToken (claimed_job r) = job_lastFencingToken job + 1)
    by (by rewrite cs_result).
  assert (Hf : attempt_mutationFence (claimed_attempt r) = lease_mutationFence (claimed_lease r))
    by (by rewrite cs_attempt).
  split_and!.
  - pose proof (history_job _ _ _ Hroot ltac:(lia) Hhm) as Hhm'.
    assert (Hh' : history (claimed_job r) (mid ++ [claimed_attempt r])).
    { apply history_append; [done| | | |].
      - intros p Hp. destruct (Hlast p Hp) as (He & Ht & Hep). unfold succeeded_by.
        rewrite cs_attempt, cs_lease. simpl. split_and!; [eexists; split; [done|lia]|lia|done].
      - rewrite Hlen. rewrite cs_attempt, cs_lease. constructor; simpl;
          rewrite ?cs_result; simpl; done || lia.
      - rewrite Hids, cs_attempt. done.
      - rewrite Hleases, cs_attempt, cs_lease. done. }
    destruct Hh'. constructor; try done.
    + rewrite last_snoc, length_app, Hlen, cs_result, cs_attempt, cs_lease, Hseq. simpl.
      split; [f_equal; lia|done].
    + intros lease. rewrite cs_result. intros [= <-]. exists (claimed_attempt r).
      rewrite last_snoc. split_and!; [done|by rewrite cs_attempt|done].
    + intros t i Ht. exfalso. destruct (valid_running (claimed_job r)) as [l []]; [done| |congruence].
      by rewrite cs_result.
  - eapply extend_trans; [done|]. apply extend_append.
  - apply Forall_app. split; [done|]. by constructor.
Qed.

Lemma claim_snapshot_valid s o r :
  snapshot_valid s -> claimReplayJob (snapshot_job s) o = Ok r ->
  (job_status (snapshot_job s) = running -> snapshot_cancellationRequest s = None /\
     exists pre cur, snapshot_attempts s = pre ++ [cur] /\ claim_currentAttempt o = Some cur) ->
  claim_attemptId o ∉ attempt_attemptId <$> snapshot_attempts s ->
  claim_leaseId o ∉ (fun a => fence_leaseId (attempt_mutationFence a)) <$> snapshot_attempts s ->
  snapshot_valid (with_root s (claimed_attempts (snapshot_attempts s) r) (claimed_job r)).
Proof.
  intros Hs Hr Hrun Hid Hle. apply claim_success_intro in Hr. pose proof Hs as [].
  destruct (claim_attempts_valid _ _ _ (snapshot_attempts s) Hr) as (Hav & Hext & Hv); try done.
  { intros Hst. apply (Hrun Hst). }
  apply with_root_valid; try done; [by eapply claim_same_root|by destruct Hr|].
  assert (Hnone : snapshot_cancellationRequest s = None).
  { pose proof Hr as []. destruct cs_claimable as [Hq|[Hq _]]; [|by apply Hrun].
    destruct (snapshot_cancellationRequest s) as [q|]; [|done].
    destruct sv_cancellation. destruct rv_status; congruence. }
  rewrite Hnone. intros t Ht. pose proof Hr as [].
  destruct (valid_running (claimed_job r)) as [l []]; [done|by rewrite cs_result|congruence].
Qed.

Lemma retained_running job job' c :
  same_root job job' -> cancellation_retained job c -> job_status job' = running ->
  job_terminal job' = None -> cancellation_retained job' c.
Proof.
  intros (Hj & Hs & Hc & _) Hr Hst Ht. destruct c as [q|]; simpl in *.
  - destruct Hr. constructor; [by left|congruence..|lia].
  - intros t. congruence.
Qed.

Lemma heartbeat_snapshot_valid s f now d job' :
  snapshot_valid s -> heartbeatReplayJob (snapshot_job s) f now d = Ok job' ->
  snapshot_valid (with_root s (snapshot_attempts s) job').
Proof.
  intros Hs H. pose proof Hs as [].
  assert (Hv : ReplayJobSchema job' = true) by (unfold heartbeatReplayJob in H; inv_res; done).
  apply heartbeat_iff in H as (_ & _ & _ & _ & _ & lease & Hst & Hrw & <- & _ & ->).
  assert (Hroot : same_root (snapshot_job s) (job_with_lease (snapshot_job s)
    (lease_with_heartbeat lease (now + d) now) (job_lastFencingToken (snapshot_job s))
    (job_latestAttemptSequence (snapshot_job s)) (job_startedAt (snapshot_job s))
    (job_stateVersion (snapshot_job s) + 1))) by (by unfold same_root).
  apply with_root_valid; try done; [apply attempts_extend_refl| |].
  - pose proof (history_job _ _ _ Hroot ltac:(simpl; lia) (attempts_history _ _ sv_attempts)) as [].
    pose proof sv_attempts as []. destruct Hrw. constructor; try done.
    intros l [= <-]. by destruct (av_lease lease rw_lease) as (la & ? & ? & ?); exists la.
  - eapply retained_running; try done. simpl. by destruct Hrw.
Qed.

(** Ending the running attempt in place together with the job root. *)
Lemma end_snapshot_valid s pre cur ended_attempt job' t :
  snapshot_valid s -> snapshot_attempts s = pre ++ [cur] ->
  same_root (snapshot_job s) job' ->
  job_lastFencingToken job' = job_lastFencingToken (snapshot_job s) ->
  job_latestAttemptSequence job' = job_latestAttemptSequence (snapshot_job s) ->
  job_currentLease job' = None -> job_terminal job' = Some t ->
  terminal_attemptId t = Some (attempt_attemptId cur) ->
  ReplayJobSchema job' = true -> ReplayAttemptSchema ended_attempt = true ->
  closes_attempt cur ended_attempt -> attempt_status ended_attempt <> attempt_running ->
  (exists e, attempt_endedAt ended_attempt = Some e /\ e <= terminal_committedAt t) ->
  cancellation_retained job' (snapshot_cancellationRequest s) ->
  snapshot_valid (with_root s (pre ++ [ended_attempt]) job').
Proof.
  intros Hs Hat Hroot Htok Hseq Hl Ht Htid Hv Hva Hcl Hst (e & He & Hle) Hc.
  pose proof Hs as []. pose proof (attempts_history _ _ sv_attempts) as Hh.
  rewrite Hat in *. pose proof Hcl as (Hi & _ & _ & _ & _ & Hf & _).
  apply with_root_valid; try done.
  - rewrite Hat. apply extend_close; [apply Hh|done].
  - apply Forall_app in sv_attempt_records as [? _]. apply Forall_app. split; [done|by constructor].
  - pose proof (history_close _ _ _ _ Hcl (history_job _ _ _ Hroot ltac:(lia) Hh)) as [].
    pose proof sv_attempts as []. rewrite last_snoc in av_root. constructor; try done.
    + rewrite last_snoc, length_app, Hseq, Htok, Hf. by rewrite length_app in av_root.
    + congruence.
    + intros t' id Ht' Hid. rewrite Ht in Ht'. injection Ht' as <-. exists ended_attempt, e.
      rewrite last_snoc. split_and!; try done. congruence.
Qed.

Lemma complete_snapshot_valid s a f o a' job' pre cur :
  snapshot_valid s -> completeReplayAttempt (snapshot_job s) a f o = Ok (a', job') ->
  snapshot_attempts s = pre ++ [cur] -> a = cur ->
  complete_cancellationRequested o = defined (snapshot_cancellationRequest s) ->
  (complete_status o = cancelled -> snapshot_cancellationRequest s <> None) ->
  snapshot_valid (with_root s (pre ++ [a']) job').
Proof.
  intros Hs H Hat -> Hreq Hcan. apply complete_success_intro in H as [].
  assert (Hc : cancellation_retained job' (snapshot_cancellationRequest s)).
  { pose proof Hs as []. destruct (snapshot_cancellationRequest s) as [q|]; simpl in *.
    - specialize (ps_cancellation Hreq). destruct sv_cancellation. subst job'.
      constructor; simpl; try done. right. by rewrite ps_cancellation.
    - intros t Ht. subst job'. injection Ht as <-. simpl. intros Hcode.
      assert (Hterm : includes (expectedCodeByStatus (complete_status o)) cancellation_committed = true).
      { unfold includes. rewrite <- Hcode. revert ps_job'. unfold ReplayJobSchema,
          ReplayJobTerminalRecordSchema, refineReplayJobTerminalRecord; simpl.
        rewrite !andb_true_iff. tauto. }
      apply Hcan; [|done]. by destruct (complete_status o). }
  subst a' job'. eapply (end_snapshot_valid s pre cur); simpl; try done.
  eexists. split; [done|]. simpl. lia.
Qed.

Lemma close_snapshot_valid s a o a' job' pre cur :
  snapshot_valid s -> closeExpiredReplayAttempt (snapshot_job s) a o = Ok (a', job') ->
  snapshot_attempts s = pre ++ [cur] -> a = cur ->
  (if defined (snapshot_cancellationRequest s) then close_status o = cancelled
   else close_code o <> cancellation_committed) ->
  snapshot_valid (with_root s (pre ++ [a']) job').
Proof.
  intros Hs H Hat -> Hcode. apply close_success_intro in H as [].
  destruct xs_lease as (lease & Hrw & Hle & Ho & Ha').
  assert (Hc : cancellation_retained job' (snapshot_cancellationRequest s)).
  { pose proof Hs as []. destruct (snapshot_cancellationRequest s) as [q|]; simpl in *.
    - destruct sv_cancellation. subst job'. constructor; simpl; try done. right. by rewrite Hcode.
    - intros t Ht. subst job'. by injection Ht as <-. }
  subst a' job'. eapply (end_snapshot_valid s pre cur); simpl; try done.
  eexists. split; [done|]. simpl. lia.
Qed.

(** *** Cancellation *)

Definition snapshot_with_request (s : ReplayJobSnapshot) (request : ReplayCancellationRequest)
    (job : ReplayJob) : ReplayJobSnapshot := {|
  snapshot_attempts := snapshot_attempts s;
  snapshot_budgetLedger := snapshot_budgetLedger s;
  snapshot_cancellationAcknowledgements := snapshot_cancellationAcknowledgements s;
  snapshot_cancellationRequest := Some request;
  snapshot_executionObservations := snapshot_executionObservations s;
  snapshot_job := job;
  snapshot_usageObservations := snapshot_usageObservations s
|}.

Lemma no_request_no_acks job attempts acks :
  Forall (acknowledgement_valid job attempts None) acks -> acks = [].
Proof. destruct acks; [done|]. by intros [[(? & ? & _)] _]%Forall_cons. Qed.

Lemma names_request_some o q :
  names_request None o = true -> names_request (Some q) o = true.
Proof. unfold names_request. by destruct (execution_payload o). Qed.

Lemma request_snapshot_valid s o r :
  snapshot_valid s -> snapshot_cancellationRequest s = None ->
  requestReplayCancellation (snapshot_job s) o = Ok r -> cancel_created r = true ->
  job_createdAt (snapshot_job s) <= cancel_now o ->
  snapshot_valid (snapshot_with_request s (cancel_request r) (cancel_job r)).
Proof.
  intros Hs Hnone H Hcr Hnow. apply cancel_success in H as (_ & Hv & Hrv & Hsc & Hji & H).
  pose proof Hs as []. rewrite Hnone in *. apply no_request_no_acks in sv_acks as Hacks.
  assert (Hgoal : forall job', cancel_job r = job' -> same_root (snapshot_job s) job' ->
    attempts_valid job' (snapshot_attempts s) ->
    cancellation_retained job' (Some (cancel_request r)) ->
    snapshot_valid (snapshot_with_request s (cancel_request r) (cancel_job r))).
  { intros job' <- Hroot Hav Hc. constructor; simpl; try done.
    - eapply budget_valid_extend; [done|apply attempts_extend_refl|done].
    - by rewrite Hacks.
    - eapply Forall_impl; [done|]. intros x.
      apply observation_valid_extend; [done|apply attempts_extend_refl].
    - eapply Forall_impl; [done|]. intros x. apply names_request_some. }
  destruct H as [(? & _)|[(_ & Hj & Hst & Hat)|(_ & Hst & Hat & Hj)]]; [congruence| |].
  - apply (Hgoal _ Hj); [apply same_root_refl|done|].
    simpl. constructor; [by left|done|done|congruence || lia].
  - apply (Hgoal _ Hj); [by unfold same_root| |].
    + pose proof (queued_no_attempts _ _ sv_job Hst sv_attempts) as ->.
      destruct (valid_queued _ sv_job Hst) as (_ & _ & Hq & _).
      constructor; simpl; try done; try apply NoDup_nil_2. by intros t i [= <-].
    + simpl. constructor; simpl; [by right|done|done|lia].
Qed.

(** *** Growing the ledger *)

Definition snapshot_with_entry (s : ReplayJobSnapshot) (e : ReplayBudgetLedgerEntry) :
    ReplayJobSnapshot := {|
  snapshot_attempts := snapshot_attempts s;
  snapshot_budgetLedger := snapshot_budgetLedger s ++ [e];
  snapshot_cancellationAcknowledgements := snapshot_cancellationAcknowledgements s;
  snapshot_cancellationRequest := snapshot_cancellationRequest s;
  snapshot_executionObservations := snapshot_executionObservations s;
  snapshot_job := snapshot_job s;
  snapshot_usageObservations := snapshot_usageObservations s
|}.

Lemma entry_snapshot_valid s e :
  snapshot_valid s -> ReplayBudgetLedgerEntrySchema e = true ->
  entry_known (snapshot_job s) (snapshot_attempts s) e ->
  (forall c, e = ReconciliationEntry c ->
     reconciliation_reconciliationId c ∉ reconciliation_ids (snapshot_budgetLedger s)) ->
  is_ok (fold_ledger (snapshot_budgetLedger s ++ [e])) = true ->
  snapshot_valid (snapshot_with_entry s e).
Proof.
  intros [] He Hk Hid Hok. apply is_ok_true in Hok.
  constructor; simpl; try done.
  - apply Forall_app. split; [done|by constructor].
  - destruct sv_ledger. constructor; [|  |done].
    + apply Forall_app. split; [done|by constructor].
    + unfold reconciliation_ids in *. rewrite reconciliations_of_snoc. destruct e as [r|c].
      * by rewrite app_nil_r.
      * rewrite fmap_app. apply NoDup_app. split_and!; [done| |apply NoDup_singleton].
        intros x Hx ->%list_elem_of_singleton. by apply (Hid c).
Qed.

(** *** Growing the acknowledgements *)

Definition snapshot_with_ack (s : ReplayJobSnapshot) (a : ReplayCancellationAcknowledgement) :
    ReplayJobSnapshot := {|
  snapshot_attempts := snapshot_attempts s;
  snapshot_budgetLedger := snapshot_budgetLedger s;
  snapshot_cancellationAcknowledgements := snapshot_cancellationAcknowledgements s ++ [a];
  snapshot_cancellationRequest := snapshot_cancellationRequest s;
  snapshot_executionObservations := snapshot_executionObservations s;
  snapshot_job := snapshot_job s;
  snapshot_usageObservations := snapshot_usageObservations s
|}.

Lemma ack_snapshot_valid s a :
  snapshot_valid s -> ReplayCancellationAcknowledgementSchema a = true ->
  acknowledgement_valid (snapshot_job s) (snapshot_attempts s) (snapshot_cancellationRequest s) a ->
  ack_acknowledgementId a ∉ ack_acknowledgementId <$> snapshot_cancellationAcknowledgements s ->
  (forall p, last (snapshot_cancellationAcknowledgements s) = Some p -> acknowledged_before p a) ->
  snapshot_valid (snapshot_with_ack s a).
Proof.
  intros [] Ha Hav Hid Hlast. constructor; simpl; try done.
  - apply Forall_app. split; [done|by constructor].
  - rewrite fmap_app. apply NoDup_app. split_and!; [done| |apply NoDup_singleton].
    by intros x Hx ->%list_elem_of_singleton.
  - apply Forall_app. split; [done|by constructor].
  - intros i p x Hp [Hx|[Hlen Hx]]%lookup_app_Some.
    + rewrite lookup_app_l in Hp by (apply lookup_lt_Some in Hx; lia). by apply (sv_ack_order i).
    + apply list_lookup_singleton_Some in Hx as [Hi0 <-].
      assert (length (snapshot_cancellationAcknowledgements s) = S i) as Hlen' by lia.
      rewrite lookup_app_l in Hp by lia. apply Hlast. by rewrite last_lookup, Hlen'.
Qed.

(** *** Growing the observations *)

Definition snapshot_with_observations (s : ReplayJobSnapshot)
    (executions : list ReplayExecutionObservation) (usages : list ReplayUsageObservation) :
    ReplayJobSnapshot := {|
  snapshot_attempts := snapshot_attempts s;
  snapshot_budgetLedger := snapshot_budgetLedger s;
  snapshot_cancellationAcknowledgements := snapshot_cancellationAcknowledgements s;
  snapshot_cancellationRequest := snapshot_cancellationRequest s;
  snapshot_executionObservations := executions;
  snapshot_job := snapshot_job s;
  snapshot_usageObservations := usages
|}.

Lemma sort_observations_length l : length (sort_observations l) = length l.
Proof.
  assert (Hi : forall x k, length (insert_observation x k) = S (length k)).
  { intros x k. induction k as [|y k IH]; simpl; [done|]. case_match; simpl; [done|]. by rewrite IH. }
  induction l as [|x l IH]; simpl; [done|]. by rewrite Hi, IH.
Qed.

(** The sequences in use are those below the number of observations. *)
Lemma observation_sequence_bound s o :
  snapshot_valid s -> o ∈ observations_of s ->
  observation_observationSequence o < Z.of_nat (length (observations_of s)).
Proof.
  intros [] Ho. rewrite <- sort_observations_elem in Ho. apply list_elem_of_lookup in Ho as [i Hi].
  rewrite (sv_observation_order _ _ Hi). apply lookup_lt_Some in Hi.
  rewrite sort_observations_length in Hi. lia.
Qed.

Lemma ordered_snoc l v :
  strictly_ordered l = true -> (forall w, w ∈ l -> w < v) -> strictly_ordered (l ++ [v]) = true.
Proof.
  intros Hl Hv. apply strictly_ordered_snoc. split; [done|]. intros w Hw.
  by apply Hv, last_elem_of.
Qed.

Section new_observation.
Context (s : ReplayJobSnapshot) (Hs : snapshot_valid s).
Context (l k : list Observation) (Hlk : observations_of s = l ++ k) (x : Observation).
Context (Hseq : observation_observationSequence x = Z.of_nat (length (observations_of s))).
Context (Hid : observation_observationId x ∉ observation_observationId <$> observations_of s).
Context (Hx : observation_valid (snapshot_job s) (snapshot_attempts s) x).

Lemma new_observation_ids : NoDup (observation_observationId <$> (l ++ x :: k)).
Proof using Hs Hlk Hid.
  pose proof (sv_observation_ids _ Hs) as Hn. rewrite Hlk in Hn, Hid. rewrite fmap_app in *.
  apply (NoDup_Permutation_proper _ (observation_observationId x ::
    (observation_observationId <$> l) ++ (observation_observationId <$> k))).
  - simpl. by rewrite Permutation_middle.
  - apply NoDup_cons. done.
Qed.

Lemma new_observation_valid :
  Forall (observation_valid (snapshot_job s) (snapshot_attempts s)) (l ++ x :: k).
Proof using Hs Hlk Hx.
  pose proof (sv_observations _ Hs) as Hv. rewrite Hlk in Hv.
  apply Forall_app in Hv as [? ?]. apply Forall_app. split; [done|by constructor].
Qed.

Lemma new_observation_order i o :
  sort_observations (l ++ x :: k) !! i = Some o ->
  observation_observationSequence o = Z.of_nat i.
Proof using Hs Hlk Hseq.
  rewrite sort_observations_append.
  - intros [Hi|[Hlen Hi]]%lookup_app_Some.
    + rewrite <- Hlk in Hi. by apply (sv_observation_order _ Hs).
    + apply list_lookup_singleton_Some in Hi as [Hi0 <-]. rewrite Hseq, Hlk.
      rewrite sort_observations_length in *. lia.
  - rewrite <- Hlk. apply Forall_forall. intros p Hp. rewrite Hseq.
    by apply observation_sequence_bound.
Qed.
End new_observation.

Lemma execution_snapshot_valid s o :
  snapshot_valid s -> ReplayExecutionObservationSchema o = true ->
  execution_observationSequence o = Z.of_nat (length (observations_of s)) ->
  execution_observationId o ∉ observation_observationId <$> observations_of s ->
  observation_valid (snapshot_job s) (snapshot_attempts s) (of_execution o) ->
  names_request (snapshot_cancellationRequest s) o = true ->
  snapshot_valid (snapshot_with_observations s (snapshot_executionObservations s ++ [o])
                    (snapshot_usageObservations s)).
Proof.
  intros Hs Ho Hq Hid Hv Hn. pose proof Hs as [].
  assert (Hobs : observations_of (snapshot_with_observations s
      (snapshot_executionObservations s ++ [o]) (snapshot_usageObservations s)) =
    (of_execution <$> snapshot_executionObservations s) ++
      of_execution o :: (of_usage <$> snapshot_usageObservations s)).
  { unfold observations_of; simpl. rewrite fmap_app, <- app_assoc. done. }
  constructor; try done; rewrite ?Hobs; simpl.
  - apply Forall_app. split; [done|by constructor].
  - by apply (new_observation_ids s).
  - rewrite fmap_app. apply ordered_snoc; [done|]. intros w (y & -> & Hy)%list_elem_of_fmap.
    rewrite Hq. change (execution_observationSequence y)
      with (observation_observationSequence (of_execution y)).
    apply observation_sequence_bound; [done|]. apply elem_of_app. left. by apply list_elem_of_fmap_2.
  - by apply (new_observation_valid s).
  - by apply (new_observation_order s).
  - apply Forall_app. split; [done|by constructor].
Qed.

Lemma usage_snapshot_valid s o :
  snapshot_valid s -> ReplayUsageObservationSchema o = true ->
  usage_observationSequence o = Z.of_nat (length (observations_of s)) ->
  usage_observationId o ∉ observation_observationId <$> observations_of s ->
  observation_valid (snapshot_job s) (snapshot_attempts s) (of_usage o) ->
  snapshot_valid (snapshot_with_observations s (snapshot_executionObservations s)
                    (snapshot_usageObservations s ++ [o])).
Proof.
  intros Hs Ho Hq Hid Hv. pose proof Hs as [].
  assert (Hobs : observations_of (snapshot_with_observations s
      (snapshot_executionObservations s) (snapshot_usageObservations s ++ [o])) =
    ((of_execution <$> snapshot_executionObservations s) ++
      (of_usage <$> snapshot_usageObservations s)) ++ of_usage o :: []).
  { unfold observations_of; simpl. rewrite fmap_app, <- app_assoc. done. }
  assert (Hlk : observations_of s = observations_of s ++ []) by (by rewrite app_nil_r).
  constructor; try done; rewrite ?Hobs; simpl.
  - apply Forall_app. split; [done|by constructor].
  - by apply (new_observation_ids s).
  - rewrite fmap_app. apply ordered_snoc; [done|]. intros w (y & -> & Hy)%list_elem_of_fmap.
    rewrite Hq. change (usage_observationSequence y)
      with (observation_observationSequence (of_usage y)).
    apply observation_sequence_bound; [done|]. apply elem_of_app. right. by apply list_elem_of_fmap_2.
  - by apply (new_observation_valid s).
  - by apply (new_observation_order s).
Qed.
