(* ===== verification/ReplayJobOutbox.v ===== *)
(** * Replay job publication intents

    [packages/replay/src/replay-job-outbox.ts]: the outbox messages a
    repository must store in the same transaction as the change they announce.
    A payload is a constructor per event type, with the fields of that event. *)

From S2P Require Import Prelude Errors Primitives ReplayPlan ReplayJob.

Inductive ReplayJobEventType : Type :=
| REPLAY_JOB_CREATED_EVENT_TYPE
| REPLAY_JOB_CANCELLATION_REQUESTED_EVENT_TYPE
| REPLAY_JOB_TERMINAL_EVENT_TYPE.

(** The wire name of an event type. *)
Definition event_name (e : ReplayJobEventType) : string :=
  match e with
  | REPLAY_JOB_CREATED_EVENT_TYPE => "replay.job.created"
  | REPLAY_JOB_CANCELLATION_REQUESTED_EVENT_TYPE => "replay.job.cancellation-requested"
  | REPLAY_JOB_TERMINAL_EVENT_TYPE => "replay.job.terminal"
  end.

Inductive ReplayJobOutboxPayload : Type :=
| created_payload (plan : ReplayPlanJobReference) (environmentId jobId projectId : string)
| cancellation_payload (cancellationId environmentId jobId projectId : string)
    (reasonCode : ReplayCancellationReasonCode)
| terminal_payload (code : ReplayJobTerminalCode) (environmentId jobId projectId : string)
    (stateVersion : Z) (status : ReplayJobStatus).

Record ReplayJobOutboxIntent := {
  intent_aggregateId : string;
  intent_createdAt : timestamp;
  intent_eventType : ReplayJobEventType;
  intent_payload : ReplayJobOutboxPayload;
  intent_tenantId : string;
}.

#[global] Instance ReplayJobEventType_eq_dec : EqDecision ReplayJobEventType.
Proof. solve_decision. Defined.
#[global] Instance ReplayJobOutboxPayload_eq_dec : EqDecision ReplayJobOutboxPayload.
Proof. solve_decision. Defined.
#[global] Instance ReplayJobOutboxIntent_eq_dec : EqDecision ReplayJobOutboxIntent.
Proof. solve_decision. Defined.

(** [{...base(job, createdAt, eventType), payload}] *)
Definition base (job : ReplayJob) (createdAt : timestamp) (eventType : ReplayJobEventType)
    (payload : ReplayJobOutboxPayload) : ReplayJobOutboxIntent := {|
  intent_aggregateId := job_jobId job;
  intent_createdAt := createdAt;
  intent_eventType := eventType;
  intent_payload := payload;
  intent_tenantId := tenantId (job_scope job)
|}.

Definition created_intent (job : ReplayJob) : ReplayJobOutboxIntent :=
  base job (job_createdAt job) REPLAY_JOB_CREATED_EVENT_TYPE
    (created_payload (job_plan job) (environmentId (job_scope job)) (job_jobId job)
       (projectId (job_scope job))).

Definition cancellation_intent (job : ReplayJob) (request : ReplayCancellationRequest) :
    ReplayJobOutboxIntent :=
  base job (cancellation_requestedAt request) REPLAY_JOB_CANCELLATION_REQUESTED_EVENT_TYPE
    (cancellation_payload (cancellation_cancellationId request) (environmentId (job_scope job))
       (job_jobId job) (projectId (job_scope job)) (cancellation_reasonCode request)).

Definition terminal_intent (job : ReplayJob) (terminal : ReplayJobTerminalRecord) :
    ReplayJobOutboxIntent :=
  base job (terminal_committedAt terminal) REPLAY_JOB_TERMINAL_EVENT_TYPE
    (terminal_payload (terminal_code terminal) (environmentId (job_scope job)) (job_jobId job)
       (projectId (job_scope job)) (job_stateVersion job) (job_status job)).

Definition buildReplayJobCreatedOutboxIntent (input : ReplayJob) : res ReplayJobOutboxIntent :=
  job ← parse ReplayJobSchema input;
  Ok (created_intent job).

Definition buildReplayJobCancellationRequestedOutboxIntent (jobInput : ReplayJob)
    (requestInput : ReplayCancellationRequest) : res ReplayJobOutboxIntent :=
  job ← parse ReplayJobSchema jobInput;
  request ← parse ReplayCancellationRequestSchema requestInput;
  reject_when
    ((cancellation_jobId request !== job_jobId job) ||
     (tenantId (cancellation_scope request) !== tenantId (job_scope job)) ||
     (projectId (cancellation_scope request) !== projectId (job_scope job)) ||
     (environmentId (cancellation_scope request) !== environmentId (job_scope job))) TypeError ;;
  Ok (cancellation_intent job request).

Definition buildReplayJobTerminalOutboxIntent (input : ReplayJob) : res ReplayJobOutboxIntent :=
  job ← parse ReplayJobSchema input;
  match job_terminal job with
  | None => Throw TypeError
  | Some terminal => Ok (terminal_intent job terminal)
  end.

(** ** Equivalences *)

Lemma created_intent_Ok job i :
  buildReplayJobCreatedOutboxIntent job = Ok i <->
  ReplayJobSchema job = true /\ i = created_intent job.
Proof.
  unfold buildReplayJobCreatedOutboxIntent. split.
  - intros H. by inv_res.
  - intros [Hv ->]. by rewrite (bind_known _ _ _ (parse_accepted _ _ Hv)).
Qed.

Lemma cancellation_intent_Ok job r i :
  buildReplayJobCancellationRequestedOutboxIntent job r = Ok i <->
  ReplayJobSchema job = true /\ ReplayCancellationRequestSchema r = true /\
  cancellation_jobId r = job_jobId job /\ cancellation_scope r = job_scope job /\
  i = cancellation_intent job r.
Proof.
  unfold buildReplayJobCancellationRequestedOutboxIntent. split.
  - intros H. inv_res. breflect. split_and!; try done; [tauto|].
    destruct (cancellation_scope r), (job_scope job); simpl in *. f_equal; tauto.
  - intros (Hj & Hr & Hi & Hs & ->).
    rewrite (bind_known _ _ _ (parse_accepted _ _ Hj)), (bind_known _ _ _ (parse_accepted _ _ Hr)).
    rewrite (bind_known _ _ tt); [done|]. apply reject_known. breflect. rewrite Hs. done.
Qed.

Lemma terminal_intent_Ok job i :
  buildReplayJobTerminalOutboxIntent job = Ok i <->
  ReplayJobSchema job = true /\ exists t, job_terminal job = Some t /\ i = terminal_intent job t.
Proof.
  unfold buildReplayJobTerminalOutboxIntent. split.
  - intros H. inv_res. destruct (job_terminal job) as [t|]; [|discriminate]. inv_res. eauto.
  - intros (Hv & t & Ht & ->). rewrite (bind_known _ _ _ (parse_accepted _ _ Hv)). by rewrite Ht.
Qed.
