(* ===== verification/MemoryReplayJobRepository.v ===== *)
(** * The in-memory replay job repository: model

    [packages/replay/src/testing/memory-replay-job-repository.ts], the atomic
    reference adapter of the durable replay job port
    ([packages/replay/src/replay-job-repository.ts]).

    The state is the map of jobs by tenant and identifier and the set of
    injected intent failures.  A method runs in the monad [M]: its state
    changes survive an exception, as they do in the language, so that
    atomicity is a theorem and not an artefact of the model.  [structuredClone]
    is the identity on values.  [this.now()] is the argument [nowValue].

    A method that awaits the definition repository is modelled in two parts,
    because other calls may run while it waits: the lookup before the last
    [await], and the synchronous commit after it, which reads the job again.
    The commands arrive parsed by their contract schemas, so [sameJson], which
    compares serialisations, is equality.

    [attempts[i] = attempt] is only ever executed with [i] in range, where
    [js_set] agrees with it. *)

From S2P Require Import Prelude Errors Primitives ReplayPlan ReplayJob ReplayJobState ReplayRetry.
From S2P Require Import ReplayAccounting ReplayBudget ReplayJobSnapshot ReplayJobOutbox.
From stdpp Require Import gmap sorting.
#[local] Open Scope Z_scope.

(** ** State *)

Inductive ReplayJobIntentKind : Type := cancellation_requested | job_created | job_terminal_kind.

#[global] Instance ReplayJobIntentKind_eq_dec : EqDecision ReplayJobIntentKind.
Proof. solve_decision. Defined.

Record StoredReplayJob := {
  stored_attempts : list ReplayAttempt;
  stored_budgetLedger : list ReplayBudgetLedgerEntry;
  stored_cancellationAcknowledgements : list ReplayCancellationAcknowledgement;
  stored_cancellationRequest : option ReplayCancellationRequest;
  stored_executionObservations : list ReplayExecutionObservation;
  stored_intents : gmap string ReplayJobOutboxIntent;
  stored_job : ReplayJob;
  stored_usageObservations : list ReplayUsageObservation;
}.

Record MemoryState := {
  failedIntentKinds : list ReplayJobIntentKind;
  jobs : gmap string (gmap string StoredReplayJob);
}.

Definition emptyMemory : MemoryState := {| failedIntentKinds := []; jobs := ∅ |}.

(** ** The monad of a method call *)

Definition M (A : Type) : Type := MemoryState -> res A * MemoryState.

#[global] Instance M_ret : MRet M := fun A a st => (Ok a, st).
#[global] Instance M_bind : MBind M := fun A B f m st =>
  match m st with
  | (Ok a, st') => f a st'
  | (Throw e, st') => (Throw e, st')
  end.

Definition lift {A} (r : res A) : M A := fun st => (r, st).
Definition throw {A} (e : exn) : M A := lift (Throw e).

(** ** Parameters: the definition repository *)

Record TargetRelease := {
  release_definitionSha256 : string;
  release_scope : EvidenceScope;
  release_targetAdapter : ReplayReleaseTargetAdapterReference;
  release_targetId : string;
  release_targetReleaseId : string;
  release_workerProtocol : WorkerProtocolReference;
}.

Class ReplayDefinitionRepository := {
  findReplayPlan : EvidenceScope -> string -> option ReplayPlan;
  findTargetRelease : EvidenceScope -> string -> option TargetRelease;
}.

(** ** Commands *)

Record CreateReplayJobCommand := {
  createc_createdByPrincipalId : string;
  createc_jobId : string;
  createc_plan : ReplayPlanJobReference;
  createc_scope : EvidenceScope;
}.

Record ClaimDurableReplayJobCommand := {
  claimc_attemptId : string;
  claimc_jobId : string;
  claimc_leaseDurationMilliseconds : Z;
  claimc_leaseId : string;
  claimc_scope : EvidenceScope;
  claimc_workerBuildSha256 : string;
  claimc_workerId : string;
  claimc_workerProtocol : WorkerProtocolReference;
}.

Record HeartbeatDurableReplayJobCommand := {
  heartbeatc_leaseDurationMilliseconds : Z;
  heartbeatc_scope : EvidenceScope;
  heartbeatc_workerFence : ReplayWorkerMutationFence;
}.

Record RequestDurableReplayCancellationCommand := {
  cancelc_input : RequestReplayCancellation;
  cancelc_jobId : string;
  cancelc_requestedByPrincipalId : string;
  cancelc_scope : EvidenceScope;
}.

Record AcknowledgeDurableReplayCancellationCommand := {
  ackc_acknowledgementId : string;
  ackc_action : ReplayCancellationAction;
  ackc_scope : EvidenceScope;
  ackc_workerFence : ReplayWorkerMutationFence;
}.

Record ReserveDurableReplayBudgetCommand := {
  reservec_requested : ReplayBudgetAmounts;
  reservec_reservationId : string;
  reservec_scope : EvidenceScope;
  reservec_work : ReplayBudgetWorkReference;
  reservec_workerFence : ReplayWorkerMutationFence;
}.

Record ReconcileDurableReplayBudgetCommand := {
  reconcilec_reconciliationId : string;
  reconcilec_reservationId : string;
  reconcilec_scope : EvidenceScope;
  reconcilec_usage : ReplayUsageMeasurements;
  reconcilec_workerFence : ReplayWorkerMutationFence;
}.

Record AppendReplayExecutionObservationCommand := {
  executionc_observationId : string;
  executionc_payload : ReplayExecutionObservationPayload;
  executionc_scope : EvidenceScope;
  executionc_workerFence : ReplayWorkerMutationFence;
}.

Record AppendReplayUsageObservationCommand := {
  usagec_boundaryId : option string;
  usagec_measurements : list UsageMeasurementEntry;
  usagec_observationId : string;
  usagec_scope : EvidenceScope;
  usagec_sourceEventSha256 : string;
  usagec_workerFence : ReplayWorkerMutationFence;
}.

Record CompleteDurableReplayJobCommand := {
  completec_code : ReplayJobTerminalCode;
  completec_error : option ReplayAttemptError;
  completec_result : option ArtifactContentReference;
  completec_scope : EvidenceScope;
  completec_status : ReplayJobTerminalStatus;
  completec_workerFence : ReplayWorkerMutationFence;
}.

(** [CreateReplayJobResult] and [RequestDurableReplayCancellationResult]. *)
Record MutationResult := { result_created : bool; result_snapshot : ReplayJobSnapshot }.

Inductive ClaimRefusal : Type := retry_not_ready | terminalized.

Inductive ClaimDurableReplayJobResult : Type :=
| claim_refused (reason : ClaimRefusal) (snapshot : ReplayJobSnapshot)
| claim_granted (snapshot : ReplayJobSnapshot) (workerFence : ReplayWorkerMutationFence).

(** ** Helpers *)

Definition exactPlanReference (job : ReplayJob) (plan : ReplayPlan) : bool :=
  (ref_planId (job_plan job) === plan_planId plan) &&
  (ref_planVersionId (job_plan job) === plan_planVersionId plan) &&
  (ref_definitionSha256 (job_plan job) === plan_definitionSha256 plan) &&
  sameScope (job_scope job) (plan_scope plan).

(** [`${intent.eventType}:${intent.aggregateId}`] *)
Definition intent_key (eventType : ReplayJobEventType) (aggregateId : string) : string :=
  event_name eventType +:+ ":" +:+ aggregateId.

Definition intentKey (intent : ReplayJobOutboxIntent) : string :=
  intent_key (intent_eventType intent) (intent_aggregateId intent).

Definition snapshot (stored : StoredReplayJob) : ReplayJobSnapshot := {|
  snapshot_attempts := stored_attempts stored;
  snapshot_budgetLedger := stored_budgetLedger stored;
  snapshot_cancellationAcknowledgements := stored_cancellationAcknowledgements stored;
  snapshot_cancellationRequest := stored_cancellationRequest stored;
  snapshot_executionObservations := stored_executionObservations stored;
  snapshot_job := stored_job stored;
  snapshot_usageObservations := stored_usageObservations stored
|}.

(** Object spreads of a stored job. *)
Definition with_job (stored : StoredReplayJob) (attempts : list ReplayAttempt) (job : ReplayJob) :
    StoredReplayJob := {|
  stored_attempts := attempts;
  stored_budgetLedger := stored_budgetLedger stored;
  stored_cancellationAcknowledgements := stored_cancellationAcknowledgements stored;
  stored_cancellationRequest := stored_cancellationRequest stored;
  stored_executionObservations := stored_executionObservations stored;
  stored_intents := stored_intents stored;
  stored_job := job;
  stored_usageObservations := stored_usageObservations stored
|}.

Definition with_cancellation (stored : StoredReplayJob) (request : ReplayCancellationRequest)
    (job : ReplayJob) : StoredReplayJob := {|
  stored_attempts := stored_attempts stored;
  stored_budgetLedger := stored_budgetLedger stored;
  stored_cancellationAcknowledgements := stored_cancellationAcknowledgements stored;
  stored_cancellationRequest := Some request;
  stored_executionObservations := stored_executionObservations stored;
  stored_intents := stored_intents stored;
  stored_job := job;
  stored_usageObservations := stored_usageObservations stored
|}.

Definition with_acknowledgement (stored : StoredReplayJob)
    (acknowledgement : ReplayCancellationAcknowledgement) : StoredReplayJob := {|
  stored_attempts := stored_attempts stored;
  stored_budgetLedger := stored_budgetLedger stored;
  stored_cancellationAcknowledgements :=
    stored_cancellationAcknowledgements stored ++ [acknowledgement];
  stored_cancellationRequest := stored_cancellationRequest stored;
  stored_executionObservations := stored_executionObservations stored;
  stored_intents := stored_intents stored;
  stored_job := stored_job stored;
  stored_usageObservations := stored_usageObservations stored
|}.

Definition with_ledger_entry (stored : StoredReplayJob) (entry : ReplayBudgetLedgerEntry) :
    StoredReplayJob := {|
  stored_attempts := stored_attempts stored;
  stored_budgetLedger := stored_budgetLedger stored ++ [entry];
  stored_cancellationAcknowledgements := stored_cancellationAcknowledgements stored;
  stored_cancellationRequest := stored_cancellationRequest stored;
  stored_executionObservations := stored_executionObservations stored;
  stored_intents := stored_intents stored;
  stored_job := stored_job stored;
  stored_usageObservations := stored_usageObservations stored
|}.

Definition with_observations (stored : StoredReplayJob)
    (executionObservations : list ReplayExecutionObservation)
    (usageObservations : list ReplayUsageObservation) : StoredReplayJob := {|
  stored_attempts := stored_attempts stored;
  stored_budgetLedger := stored_budgetLedger stored;
  stored_cancellationAcknowledgements := stored_cancellationAcknowledgements stored;
  stored_cancellationRequest := stored_cancellationRequest stored;
  stored_executionObservations := executionObservations;
  stored_intents := stored_intents stored;
  stored_job := stored_job stored;
  stored_usageObservations := usageObservations
|}.

Definition with_intents (stored : StoredReplayJob) (intents : gmap string ReplayJobOutboxIntent) :
    StoredReplayJob := {|
  stored_attempts := stored_attempts stored;
  stored_budgetLedger := stored_budgetLedger stored;
  stored_cancellationAcknowledgements := stored_cancellationAcknowledgements stored;
  stored_cancellationRequest := stored_cancellationRequest stored;
  stored_executionObservations := stored_executionObservations stored;
  stored_intents := intents;
  stored_job := stored_job stored;
  stored_usageObservations := stored_usageObservations stored
|}.

Definition withIntent (stored : StoredReplayJob) (intent : ReplayJobOutboxIntent) :
    StoredReplayJob :=
  with_intents stored (<[intentKey intent := intent]> (stored_intents stored)).

Definition js_set {A} (l : list A) (index : nat) (value : A) : list A :=
  take index l ++ value :: drop (S index) l.

Definition replaceAttempt (attempts : list ReplayAttempt) (attempt : ReplayAttempt) :
    list ReplayAttempt :=
  js_set attempts (Z.to_nat (attempt_attemptSequence attempt)) attempt.

Definition currentAttempt (stored : StoredReplayJob) : res ReplayAttempt :=
  match job_latestAttemptSequence (stored_job stored) with
  | None => Throw ReplayRepositoryContractError
  | Some sequence =>
      match stored_attempts stored !! Z.to_nat sequence with
      | None => Throw ReplayRepositoryContractError
      | Some attempt => Ok attempt
      end
  end.

Definition exactWorkerProtocol (command : ClaimDurableReplayJobCommand) (plan : ReplayPlan) : bool :=
  (protocol_name (claimc_workerProtocol command) === protocol_name (plan_workerProtocol plan)) &&
  (protocol_version (claimc_workerProtocol command) === protocol_version (plan_workerProtocol plan)).

(** The effect an attempt of this plan may have left behind when its lease
    expires: none without live boundaries, a read when all of them only read,
    and otherwise one that must not be retried. *)
Definition expiredEffect (plan : ReplayPlan) : ReplayEffect :=
  let live := omap (fun boundary =>
    match boundary with LiveProviderBoundary d => Some d | _ => None end) (plan_boundaries plan) in
  if (length live =? 0)%nat then
    {| effectCertainty := no_effect; effectRetrySafety := None |}
  else if forallb (fun d => match live_sideEffect d with read_only => true | _ => false end) live then
    {| effectCertainty := may_have_occurred;
       effectRetrySafety := Some (read_only_effect (plan_definitionSha256 plan)) |}
  else
    {| effectCertainty := may_have_occurred; effectRetrySafety := Some not_retryable_effect |}.

Definition terminalCloseReason (reason : ReplayRetryBlockedReason) :
    ReplayJobTerminalCode * ReplayJobTerminalStatus :=
  match reason with
  | blocked_deadline_insufficient => (deadline_reached, timed_out)
  | blocked_effect_not_retry_safe => (execution_failed, failed)
  | _ => (retries_exhausted, failed)
  end.

Definition hasOpenBudgetReservation (stored : StoredReplayJob) : bool :=
  let reconciledReservationIds :=
    reconciliation_reservationId <$> reconciliations_of (stored_budgetLedger stored) in
  existsb (fun r => negb (includes reconciledReservationIds (reservation_reservationId r)))
    (reservations_of (stored_budgetLedger stored)).

Definition terminalizeExpiredAttempt (stored : StoredReplayJob) (effect : ReplayEffect)
    (now : timestamp) (terminal : ReplayJobTerminalCode * ReplayJobTerminalStatus) :
    res StoredReplayJob :=
  attempt ← currentAttempt stored;
  closed ← closeExpiredReplayAttempt (stored_job stored) attempt {|
    close_effect := effect; close_now := now;
    close_code := fst terminal; close_status := snd terminal |};
  intent ← buildReplayJobTerminalOutboxIntent (snd closed);
  Ok (withIntent (with_job stored (replaceAttempt (stored_attempts stored) (fst closed)) (snd closed))
        intent).

(** ** Private methods *)

Definition parse_now (nowValue : timestamp) : M timestamp :=
  lift (parse UtcMillisecondTimestampSchema nowValue).

Definition find_stored (st : MemoryState) (tenant jobId : string) : option StoredReplayJob :=
  jobs st !! tenant ≫= (fun tenantJobs => tenantJobs !! jobId).

(** [this.jobs.get(tenant)?.get(jobId)] *)
Definition peekJob (tenant jobId : string) : M (option StoredReplayJob) := fun st =>
  (Ok (find_stored st tenant jobId), st).

Definition requireJob (scope : EvidenceScope) (jobId : string) : M StoredReplayJob := fun st =>
  match find_stored st (tenantId scope) jobId with
  | Some stored =>
      if sameScope (job_scope (stored_job stored)) scope then (Ok stored, st)
      else (Throw ReplayJobNotFoundError, st)
  | None => (Throw ReplayJobNotFoundError, st)
  end.

Definition replace (tenant jobId : string) (stored : StoredReplayJob) : M unit := fun st =>
  (Ok tt, {| failedIntentKinds := failedIntentKinds st;
             jobs := <[tenant := <[jobId := stored]> (default ∅ (jobs st !! tenant))]> (jobs st) |}).

Definition requireIntent (stored : StoredReplayJob) (expected : res ReplayJobOutboxIntent) :
    M unit :=
  intent ← lift expected;
  lift (reject_when (stored_intents stored !! intentKey intent !== Some intent)
          ReplayRepositoryContractError).

Definition throwInjectedIntentFailure (kind : ReplayJobIntentKind) : M unit := fun st =>
  if includes (failedIntentKinds st) kind then
    (Throw PlainError,
     {| failedIntentKinds := filter (fun k => k <> kind) (failedIntentKinds st); jobs := jobs st |})
  else (Ok tt, st).

(** ** Lookups before the last [await] *)

Section lookups.
Context `{definitions : ReplayDefinitionRepository}.

Definition requirePlan (job : ReplayJob) : res ReplayPlan :=
  match findReplayPlan (job_scope job) (ref_planVersionId (job_plan job)) with
  | Some plan =>
      if exactPlanReference job plan then Ok plan else Throw ReplayDefinitionLineageError
  | None => Throw ReplayDefinitionLineageError
  end.

Definition createJob_lookup (command : CreateReplayJobCommand) : res unit :=
  match findReplayPlan (createc_scope command) (ref_planVersionId (createc_plan command)) with
  | Some plan =>
      reject_when
        ((plan_planId plan !== ref_planId (createc_plan command)) ||
         (plan_definitionSha256 plan !== ref_definitionSha256 (createc_plan command)))
        ReplayDefinitionLineageError
  | None => Throw ReplayDefinitionLineageError
  end.

(** The plan of the job as it is when the call starts. *)
Definition plan_lookup (scope : EvidenceScope) (jobId : string) : M ReplayPlan :=
  initial ← requireJob scope jobId;
  lift (requirePlan (stored_job initial)).

Definition claimJob_lookup (command : ClaimDurableReplayJobCommand) : M ReplayPlan :=
  plan ← plan_lookup (claimc_scope command) (claimc_jobId command);
  match findTargetRelease (plan_scope plan) (target_targetReleaseId (plan_targetRelease plan)) with
  | None => throw ReplayDefinitionLineageError
  | Some target =>
      lift (reject_when
        ((release_definitionSha256 target !== target_definitionSha256 (plan_targetRelease plan)) ||
         (release_targetId target !== target_targetId (plan_targetRelease plan)) ||
         (release_targetAdapter target !== target_targetAdapter (plan_targetRelease plan)) ||
         (release_workerProtocol target !== target_workerProtocol (plan_targetRelease plan)))
        ReplayDefinitionLineageError) ;;
      lift (reject_when (negb (exactWorkerProtocol command plan)) ReplayDefinitionLineageError) ;;
      lift (reject_when
        (policy_perAttemptTimeoutMilliseconds (plan_retryPolicy plan) <?
           claimc_leaseDurationMilliseconds command) ReplayJobConflictError) ;;
      mret plan
  end.

Definition heartbeatJob_lookup (command : HeartbeatDurableReplayJobCommand) : M unit :=
  plan ← plan_lookup (heartbeatc_scope command) (fence_jobId (heartbeatc_workerFence command));
  lift (reject_when
    (policy_perAttemptTimeoutMilliseconds (plan_retryPolicy plan) <?
       heartbeatc_leaseDurationMilliseconds command) ReplayJobConflictError).
End lookups.

(** ** Commits *)

Definition createJob (command : CreateReplayJobCommand) (nowValue : timestamp) :
    M MutationResult :=
  now ← parse_now nowValue;
  candidate ← lift (createQueuedReplayJob {|
    queued_createdAt := now;
    queued_createdByPrincipalId := createc_createdByPrincipalId command;
    queued_request := {| create_jobId := createc_jobId command; create_plan := createc_plan command |};
    queued_scope := createc_scope command |});
  existing ← peekJob (tenantId (createc_scope command)) (createc_jobId command);
  match existing with
  | Some existing =>
      lift (reject_when
        (negb (sameScope (job_scope (stored_job existing)) (createc_scope command)) ||
         (job_createdByPrincipalId (stored_job existing) !== createc_createdByPrincipalId command) ||
         (job_plan (stored_job existing) !== createc_plan command)) ReplayJobConflictError) ;;
      requireIntent existing (buildReplayJobCreatedOutboxIntent (stored_job existing)) ;;
      mret {| result_created := false; result_snapshot := snapshot existing |}
  | None =>
      intent ← lift (buildReplayJobCreatedOutboxIntent candidate);
      let stored := withIntent {|
        stored_attempts := [];
        stored_budgetLedger := [];
        stored_cancellationAcknowledgements := [];
        stored_cancellationRequest := None;
        stored_executionObservations := [];
        stored_intents := ∅;
        stored_job := candidate;
        stored_usageObservations := [] |} intent in
      throwInjectedIntentFailure job_created ;;
      replace (tenantId (createc_scope command)) (createc_jobId command) stored ;;
      mret {| result_created := true; result_snapshot := snapshot stored |}
  end.

Definition findJob (scope : EvidenceScope) (jobId : string) : M (option ReplayJobSnapshot) :=
  found ← peekJob (tenantId scope) jobId;
  mret match found with
       | Some stored =>
           if sameScope (job_scope (stored_job stored)) scope then Some (snapshot stored) else None
       | None => None
       end.

(** What [claimJob] decides about the job it finds, before it calls
    [claimReplayJob]. *)
Inductive ClaimGate : Type :=
| gate_claim (effect : option ReplayEffect)
| gate_terminalize (effect : ReplayEffect) (terminal : ReplayJobTerminalCode * ReplayJobTerminalStatus)
| gate_not_ready.

Definition expiry_retry_options (plan : ReplayPlan) (attempt : ReplayAttempt) (lease : ReplayLease)
    (startedAt now : timestamp) : DecideReplayRetryOptions := {|
  retry_attemptSequence := attempt_attemptSequence attempt;
  retry_error := lease_expired_error (expiredEffect plan);
  retry_evaluatedAt := Some now;
  retry_failedAt := lease_expiresAt lease;
  retry_jobStartedAt := startedAt;
  retry_policy := plan_retryPolicy plan
|}.

Definition claim_gate (stored : StoredReplayJob) (plan : ReplayPlan) (now : timestamp) :
    res ClaimGate :=
  if job_status (stored_job stored) === running then
    match job_currentLease (stored_job stored) with
    | None => Throw ReplayRepositoryContractError
    | Some lease =>
        if lease_expiresAt lease <=? now then
          let effect := expiredEffect plan in
          attempt ← currentAttempt stored;
          if defined (stored_cancellationRequest stored) then
            Ok (gate_terminalize effect (cancellation_committed, cancelled))
          else if hasOpenBudgetReservation stored then
            Ok (gate_terminalize effect (execution_failed, failed))
          else
            match job_startedAt (stored_job stored) with
            | None => Throw ReplayRepositoryContractError
            | Some startedAt =>
                retry ← decideReplayRetry (expiry_retry_options plan attempt lease startedAt now);
                match retry with
                | blocked reason => Ok (gate_terminalize effect (terminalCloseReason reason))
                | eligible _ notBefore =>
                    if now <? notBefore then Ok gate_not_ready else Ok (gate_claim (Some effect))
                end
            end
        else Ok (gate_claim None)
    end
  else Ok (gate_claim None).

Definition claimJob (command : ClaimDurableReplayJobCommand) (plan : ReplayPlan)
    (nowValue : timestamp) : M ClaimDurableReplayJobResult :=
  stored ← requireJob (claimc_scope command) (claimc_jobId command);
  lift (reject_when (includes (attempt_attemptId <$> stored_attempts stored) (claimc_attemptId command))
          ReplayJobConflictError) ;;
  now ← parse_now nowValue;
  gate ← lift (claim_gate stored plan now);
  match gate with
  | gate_terminalize effect terminal =>
      next ← lift (terminalizeExpiredAttempt stored effect now terminal);
      throwInjectedIntentFailure job_terminal_kind ;;
      replace (tenantId (claimc_scope command)) (claimc_jobId command) next ;;
      mret (claim_refused terminalized (snapshot next))
  | gate_not_ready => mret (claim_refused retry_not_ready (snapshot stored))
  | gate_claim effect =>
      attempt ← (if job_status (stored_job stored) === running
                 then a ← lift (currentAttempt stored); mret (Some a) else mret None);
      claimed ← lift (claimReplayJob (stored_job stored) {|
        claim_attemptId := claimc_attemptId command;
        claim_currentAttempt := attempt;
        claim_expiredEffect := effect;
        claim_isolationProfile := plan_isolationProfile plan;
        claim_leaseDurationMilliseconds := claimc_leaseDurationMilliseconds command;
        claim_leaseId := claimc_leaseId command;
        claim_maxAttempts := policy_maxAttempts (plan_retryPolicy plan);
        claim_now := now;
        claim_runtimeProfile := plan_runtimeProfile plan;
        claim_targetRelease := plan_targetRelease plan;
        claim_workerBuildSha256 := claimc_workerBuildSha256 command;
        claim_workerId := claimc_workerId command;
        claim_workerProtocol := claimc_workerProtocol command |});
      let attempts := match claimed_expiredAttempt claimed with
        | Some expired => replaceAttempt (stored_attempts stored) expired ++ [claimed_attempt claimed]
        | None => stored_attempts stored ++ [claimed_attempt claimed]
        end in
      let next := with_job stored attempts (claimed_job claimed) in
      replace (tenantId (claimc_scope command)) (claimc_jobId command) next ;;
      mret (claim_granted (snapshot next) (lease_mutationFence (claimed_lease claimed)))
  end.

Definition heartbeatJob (command : HeartbeatDurableReplayJobCommand) (nowValue : timestamp) :
    M ReplayJobSnapshot :=
  stored ← requireJob (heartbeatc_scope command) (fence_jobId (heartbeatc_workerFence command));
  now ← parse_now nowValue;
  job ← lift (heartbeatReplayJob (stored_job stored) (heartbeatc_workerFence command) now
                (heartbeatc_leaseDurationMilliseconds command));
  let next := with_job stored (stored_attempts stored) job in
  replace (tenantId (heartbeatc_scope command)) (job_jobId job) next ;;
  mret (snapshot next).

Definition requestCancellation (command : RequestDurableReplayCancellationCommand)
    (nowValue : timestamp) : M MutationResult :=
  stored ← requireJob (cancelc_scope command) (cancelc_jobId command);
  if defined (job_terminal (stored_job stored)) && negb (defined (stored_cancellationRequest stored))
  then mret {| result_created := false; result_snapshot := snapshot stored |}
  else
    now ← parse_now nowValue;
    cancelled ← lift (requestReplayCancellation (stored_job stored) {|
      cancel_existing := stored_cancellationRequest stored;
      cancel_input := cancelc_input command;
      cancel_now := now;
      cancel_requestedByPrincipalId := cancelc_requestedByPrincipalId command |});
    if negb (cancel_created cancelled) then
      requireIntent stored
        (buildReplayJobCancellationRequestedOutboxIntent (stored_job stored) (cancel_request cancelled)) ;;
      (if defined (job_terminal (stored_job stored))
       then requireIntent stored (buildReplayJobTerminalOutboxIntent (stored_job stored))
       else mret tt) ;;
      mret {| result_created := false; result_snapshot := snapshot stored |}
    else
      intent ← lift (buildReplayJobCancellationRequestedOutboxIntent (cancel_job cancelled)
                       (cancel_request cancelled));
      let next := withIntent (with_cancellation stored (cancel_request cancelled) (cancel_job cancelled))
                    intent in
      throwInjectedIntentFailure cancellation_requested ;;
      next ← (if defined (job_terminal (cancel_job cancelled)) then
                terminal ← lift (buildReplayJobTerminalOutboxIntent (cancel_job cancelled));
                throwInjectedIntentFailure job_terminal_kind ;;
                mret (withIntent next terminal)
              else mret next);
      replace (tenantId (cancelc_scope command)) (cancelc_jobId command) next ;;
      mret {| result_created := true; result_snapshot := snapshot next |}.

Definition acknowledgeCancellation (command : AcknowledgeDurableReplayCancellationCommand)
    (nowValue : timestamp) : M ReplayJobSnapshot :=
  stored ← requireJob (ackc_scope command) (fence_jobId (ackc_workerFence command));
  match stored_cancellationRequest stored with
  | None => throw ReplayJobConflictError
  | Some request =>
      now ← parse_now nowValue;
      acknowledgement ← lift (acknowledgeReplayCancellation (stored_job stored) request
        (ackc_workerFence command) (ackc_acknowledgementId command) (ackc_action command) now);
      match List.find (fun a => ack_acknowledgementId a === ackc_acknowledgementId command)
              (stored_cancellationAcknowledgements stored) with
      | Some existing =>
          lift (reject_when
            ((ack_action acknowledgement !== ack_action existing) ||
             (ack_cancellationId acknowledgement !== ack_cancellationId existing) ||
             (ack_mutationFence acknowledgement !== ack_mutationFence existing) ||
             (ack_scope acknowledgement !== ack_scope existing)) ReplayJobConflictError) ;;
          mret (snapshot stored)
      | None =>
          let next := with_acknowledgement stored acknowledgement in
          replace (tenantId (ackc_scope command)) (job_jobId (stored_job stored)) next ;;
          mret (snapshot next)
      end
  end.

Definition reserveBudget (command : ReserveDurableReplayBudgetCommand) (plan : ReplayPlan)
    (nowValue : timestamp) : M ReplayJobSnapshot :=
  stored ← requireJob (reservec_scope command) (fence_jobId (reservec_workerFence command));
  now ← parse_now nowValue;
  lift (assertReplayWorkerMutationFence (stored_job stored) (reservec_workerFence command) now) ;;
  match find_reservation (reservations_of (stored_budgetLedger stored))
          (reservec_reservationId command) with
  | Some existing =>
      let requested := mapDimensions (fun d => rd_reservedAmount (on (reservation_dimensions existing) d)) in
      lift (reject_when
        ((reservation_mutationFence existing !== reservec_workerFence command) ||
         (reservation_work existing !== reservec_work command) ||
         (requested !== reservec_requested command)) ReplayJobConflictError) ;;
      mret (snapshot stored)
  | None =>
      summary ← lift (summarizeReplayBudgetLedger (stored_budgetLedger stored));
      reservation ← lift (reserveReplayBudget {|
        reserve_budget := plan_budget plan;
        reserve_committed := summary_committed summary;
        reserve_ledgerSequence := Z.of_nat (length (stored_budgetLedger stored));
        reserve_mutationFence := reservec_workerFence command;
        reserve_requested := reservec_requested command;
        reserve_reservationId := reservec_reservationId command;
        reserve_reservedAt := now;
        reserve_scope := reservec_scope command;
        reserve_work := reservec_work command |});
      let next := with_ledger_entry stored (ReservationEntry reservation) in
      replace (tenantId (reservec_scope command)) (job_jobId (stored_job stored)) next ;;
      mret (snapshot next)
  end.

Definition reconcileBudget (command : ReconcileDurableReplayBudgetCommand)
    (nowValue : timestamp) : M ReplayJobSnapshot :=
  stored ← requireJob (reconcilec_scope command) (fence_jobId (reconcilec_workerFence command));
  now ← parse_now nowValue;
  lift (assertReplayWorkerMutationFence (stored_job stored) (reconcilec_workerFence command) now) ;;
  match find_reservation (reservations_of (stored_budgetLedger stored))
          (reconcilec_reservationId command) with
  | None => throw ReplayJobConflictError
  | Some reservation =>
      lift (reject_when
        (negb (sameFence (reservation_mutationFence reservation) (reconcilec_workerFence command)))
        ReplayJobConflictError) ;;
      candidate ← lift (reconcileReplayBudget reservation {|
        reconcile_ledgerSequence := Z.of_nat (length (stored_budgetLedger stored));
        reconcile_reconciledAt := now;
        reconcile_reconciliationId := reconcilec_reconciliationId command;
        reconcile_usage := reconcilec_usage command |});
      let reconciliations := reconciliations_of (stored_budgetLedger stored) in
      let existingById := List.find (fun c =>
        reconciliation_reconciliationId c === reconcilec_reconciliationId command) reconciliations in
      let existingForReservation := List.find (fun c =>
        reconciliation_reservationId c === reconcilec_reservationId command) reconciliations in
      match (match existingById with Some c => Some c | None => existingForReservation end) with
      | Some existing =>
          lift (reject_when
            ((reconciliation_reconciliationId existing !== reconciliation_reconciliationId candidate) ||
             (reconciliation_reservationId existing !== reconciliation_reservationId candidate) ||
             (reconciliation_dimensions existing !== reconciliation_dimensions candidate) ||
             negb (sameFence (reconciliation_mutationFence existing)
                     (reconciliation_mutationFence candidate))) ReplayJobConflictError) ;;
          mret (snapshot stored)
      | None =>
          lift (summarizeReplayBudgetLedger
                  (stored_budgetLedger stored ++ [ReconciliationEntry candidate])) ;;
          let next := with_ledger_entry stored (ReconciliationEntry candidate) in
          replace (tenantId (reconcilec_scope command)) (job_jobId (stored_job stored)) next ;;
          mret (snapshot next)
      end
  end.

(** *** Observations *)

(** The observation without its time and sequence. *)
Definition execution_comparable (o : ReplayExecutionObservation) :=
  (execution_mutationFence o, execution_observationId o, execution_payload o, execution_scope o).

Definition usage_comparable (o : ReplayUsageObservation) :=
  (usage_boundaryId o, usage_measurements o, usage_mutationFence o, usage_observationId o,
   usage_scope o, usage_sourceEventSha256 o).

Inductive AnyObservation : Type :=
| AnyExecution (o : ReplayExecutionObservation)
| AnyUsage (o : ReplayUsageObservation).

Definition any_observation (o : AnyObservation) : Observation :=
  match o with AnyExecution o => of_execution o | AnyUsage o => of_usage o end.

(** [sameJson(comparable(existing), comparable(candidate))] *)
Definition same_comparable (left right : AnyObservation) : bool :=
  match left, right with
  | AnyExecution l, AnyExecution r => execution_comparable l === execution_comparable r
  | AnyUsage l, AnyUsage r => usage_comparable l === usage_comparable r
  | _, _ => false
  end.

Definition all_observations (stored : StoredReplayJob) : list AnyObservation :=
  (AnyExecution <$> stored_executionObservations stored) ++
  (AnyUsage <$> stored_usageObservations stored).

Definition appendObservation (stored : StoredReplayJob) (candidate : AnyObservation) :
    M ReplayJobSnapshot :=
  let id := observation_observationId (any_observation candidate) in
  match List.find (fun o => observation_observationId (any_observation o) === id)
          (all_observations stored) with
  | Some existing =>
      lift (reject_when (negb (same_comparable existing candidate)) ReplayJobConflictError) ;;
      mret (snapshot stored)
  | None =>
      let next := match candidate with
        | AnyExecution o =>
            with_observations stored (stored_executionObservations stored ++ [o])
              (stored_usageObservations stored)
        | AnyUsage o =>
            with_observations stored (stored_executionObservations stored)
              (stored_usageObservations stored ++ [o])
        end in
      replace (tenantId (observation_scope (any_observation candidate)))
        (fence_jobId (observation_mutationFence (any_observation candidate))) next ;;
      mret (snapshot next)
  end.

Definition next_observation_sequence (stored : StoredReplayJob) : Z :=
  Z.of_nat (length (stored_executionObservations stored)) +
  Z.of_nat (length (stored_usageObservations stored)).

(** The payload names a boundary of the plan as the plan declares it. *)
Definition payload_boundary_ok (plan : ReplayPlan) (payload : ReplayExecutionObservationPayload) : bool :=
  match payload with
  | BoundaryObservation v =>
      match List.find (fun b => boundary_boundaryId b === boundary_obs_boundaryId v)
              (plan_boundaries plan) with
      | None => false
      | Some boundary =>
          (boundary_kind boundary === boundary_obs_boundaryKind v) &&
          (boundary_mode boundary === boundary_obs_mode v)
      end
  | _ => true
  end.

Definition payload_cancellation_ok (request : option ReplayCancellationRequest)
    (payload : ReplayExecutionObservationPayload) : bool :=
  match payload with
  | CancellationObservation v =>
      Some (cancellation_obs_cancellationId v) === (cancellation_cancellationId <$> request)
  | _ => true
  end.

Definition appendExecutionObservation (command : AppendReplayExecutionObservationCommand)
    (plan : ReplayPlan) (nowValue : timestamp) : M ReplayJobSnapshot :=
  stored ← requireJob (executionc_scope command) (fence_jobId (executionc_workerFence command));
  now ← parse_now nowValue;
  lift (assertReplayWorkerMutationFence (stored_job stored) (executionc_workerFence command) now) ;;
  lift (reject_when (negb (payload_boundary_ok plan (executionc_payload command)))
          ReplayJobConflictError) ;;
  lift (reject_when
          (negb (payload_cancellation_ok (stored_cancellationRequest stored) (executionc_payload command)))
          ReplayJobConflictError) ;;
  candidate ← lift (parse ReplayExecutionObservationSchema {|
    execution_mutationFence := executionc_workerFence command;
    execution_observationId := executionc_observationId command;
    execution_observationSequence := next_observation_sequence stored;
    execution_observedAt := now;
    execution_payload := executionc_payload command;
    execution_scope := executionc_scope command |});
  appendObservation stored (AnyExecution candidate).

Definition appendUsageObservation (command : AppendReplayUsageObservationCommand)
    (plan : ReplayPlan) (nowValue : timestamp) : M ReplayJobSnapshot :=
  stored ← requireJob (usagec_scope command) (fence_jobId (usagec_workerFence command));
  now ← parse_now nowValue;
  lift (assertReplayWorkerMutationFence (stored_job stored) (usagec_workerFence command) now) ;;
  lift (reject_when
    match usagec_boundaryId command with
    | Some boundaryId =>
        negb (existsb (fun b => boundary_boundaryId b === boundaryId) (plan_boundaries plan))
    | None => false
    end ReplayJobConflictError) ;;
  candidate ← lift (parse ReplayUsageObservationSchema {|
    usage_boundaryId := usagec_boundaryId command;
    usage_measurements := usagec_measurements command;
    usage_mutationFence := usagec_workerFence command;
    usage_observationId := usagec_observationId command;
    usage_observationSequence := next_observation_sequence stored;
    usage_observedAt := now;
    usage_scope := usagec_scope command;
    usage_sourceEventSha256 := usagec_sourceEventSha256 command |});
  appendObservation stored (AnyUsage candidate).

(** *** Completion *)

Definition completeJob (command : CompleteDurableReplayJobCommand) (nowValue : timestamp) :
    M ReplayJobSnapshot :=
  stored ← requireJob (completec_scope command) (fence_jobId (completec_workerFence command));
  now ← parse_now nowValue;
  lift (assertReplayWorkerMutationFence (stored_job stored) (completec_workerFence command) now) ;;
  ledger ← lift (summarizeReplayBudgetLedger (stored_budgetLedger stored));
  lift (reject_when (0 <? length (summary_openReservationIds ledger))%nat
          (DurableReplayAccountingError accounting_conflict)) ;;
  lift (reject_when
    ((0 <? length (summary_overruns ledger))%nat && (completec_status command !== budget_exhausted) &&
     negb (defined (stored_cancellationRequest stored)))
    (DurableReplayAccountingError accounting_conflict)) ;;
  lift (reject_when
    (defined (stored_cancellationRequest stored) &&
     negb (existsb (fun a => sameFence (ack_mutationFence a) (completec_workerFence command))
             (stored_cancellationAcknowledgements stored))) ReplayJobConflictError) ;;
  attempt ← lift (currentAttempt stored);
  completed ← lift (completeReplayAttempt (stored_job stored) attempt (completec_workerFence command) {|
    complete_cancellationRequested := defined (stored_cancellationRequest stored);
    complete_code := completec_code command;
    complete_error := completec_error command;
    complete_now := now;
    complete_result := completec_result command;
    complete_status := completec_status command |});
  intent ← lift (buildReplayJobTerminalOutboxIntent (snd completed));
  let next := withIntent
    (with_job stored (replaceAttempt (stored_attempts stored) (fst completed)) (snd completed)) intent in
  throwInjectedIntentFailure job_terminal_kind ;;
  replace (tenantId (completec_scope command)) (job_jobId (stored_job stored)) next ;;
  mret (snapshot next).

(** *** Publication and test control *)

Definition failNextIntent (kind : ReplayJobIntentKind) : M unit := fun st =>
  (Ok tt, {| failedIntentKinds :=
               if includes (failedIntentKinds st) kind then failedIntentKinds st
               else failedIntentKinds st ++ [kind];
             jobs := jobs st |}).

(** The comparator [left < right ? -1 : 1], read as "not after": keys are distinct. *)
Definition key_before (left right : ReplayJobOutboxIntent) : Prop :=
  string_lt (intentKey right) (intentKey left) = false.

#[global] Instance key_before_dec : RelDecision key_before.
Proof. intros l r. unfold key_before. apply _. Defined.

(** The intents of one tenant, in key order.  The order in which the source
    collects them (the insertion order of its maps) does not matter, since the
    keys of one tenant are distinct. *)
Definition publishedIntents (tenant : string) : M (list ReplayJobOutboxIntent) := fun st =>
  let intents := match jobs st !! tenant with
    | None => []
    | Some tenantJobs =>
        (map_to_list tenantJobs).*2 ≫= (fun stored => (map_to_list (stored_intents stored)).*2)
    end in
  (Ok (merge_sort key_before intents), st).

Definition intent_event (kind : ReplayJobIntentKind) : ReplayJobEventType :=
  match kind with
  | cancellation_requested => REPLAY_JOB_CANCELLATION_REQUESTED_EVENT_TYPE
  | job_created => REPLAY_JOB_CREATED_EVENT_TYPE
  | job_terminal_kind => REPLAY_JOB_TERMINAL_EVENT_TYPE
  end.

Definition removeIntent (kind : ReplayJobIntentKind) (tenant jobId : string) : M unit := fun st =>
  match find_stored st tenant jobId with
  | None => (Ok tt, st)
  | Some stored =>
      replace tenant jobId
        (with_intents stored (delete (intent_key (intent_event kind) jobId) (stored_intents stored))) st
  end.
