(* ===== verification/MemoryReplayJobProofs.v ===== *)
(** * The in-memory replay job repository: proofs

    Atomicity (a method that throws leaves every job as it was), isolation (a
    method changes at most the job it names), and the repository invariant:
    whatever sequence of calls a repository serves, in whatever interleaving of
    their lookups and commits, each stored job is a snapshot the contract
    accepts and carries exactly the publication intents of its state. *)

From S2P Require Import Prelude Errors Primitives ReplayPlan ReplayJob ReplayJobState.
From S2P Require Import ReplayJobStateProofs ReplayRetry ReplayAccounting ReplayBudget.
From S2P Require Import ReplayJobSnapshot ReplayJobSnapshotProofs ReplayJobOutbox.
From S2P Require Import MemoryReplayJobRepository.
From stdpp Require Import gmap.
#[local] Open Scope Z_scope.

(** ** Running methods *)

Lemma M_bind_Ok {A B} (m : M A) (f : A -> M B) st b st' :
  (m ≫= f) st = (Ok b, st') <-> exists a st1, m st = (Ok a, st1) /\ f a st1 = (Ok b, st').
Proof.
  unfold mbind, M_bind. destruct (m st) as [[a|e] st1]; split.
  - eauto.
  - by intros (? & ? & [= -> ->] & ?).
  - by intros [=].
  - by intros (? & ? & [=] & _).
Qed.

Lemma lift_run {A} (r : res A) st x st' : lift r st = (x, st') <-> x = r /\ st' = st.
Proof. unfold lift. split; [intros [= <- <-]|intros [-> ->]]; done. Qed.

Lemma mret_run {A} (a : A) (st : MemoryState) x st' :
  (mret a : M A) st = (x, st') <-> x = Ok a /\ st' = st.
Proof. unfold mret, M_ret. split; [intros [= <- <-]|intros [-> ->]]; done. Qed.

Lemma requireJob_Ok scope jobId st s st' :
  requireJob scope jobId st = (Ok s, st') <->
  st' = st /\ find_stored st (tenantId scope) jobId = Some s /\ job_scope (stored_job s) = scope.
Proof.
  unfold requireJob. destruct (find_stored _ _ _) as [x|].
  - destruct (sameScope _ _) eqn:Hs.
    + apply sameScope_spec in Hs. split; [intros [= -> ->]|intros (-> & [= ->] & _)]; done.
    + split; [intros [=]|]. intros (_ & [= ->] & Hsc). apply sameScope_spec in Hsc. congruence.
  - split; [intros [=]|]. by intros (_ & [=] & _).
Qed.

(** The state after [replace]. *)
Definition store (st : MemoryState) (tenant jobId : string) (s : StoredReplayJob) : MemoryState :=
  {| failedIntentKinds := failedIntentKinds st;
     jobs := <[tenant := <[jobId := s]> (default ∅ (jobs st !! tenant))]> (jobs st) |}.

Lemma replace_run tenant jobId s st x st' :
  replace tenant jobId s st = (x, st') <-> x = Ok tt /\ st' = store st tenant jobId s.
Proof. unfold replace, store. split; [intros [= <- <-]|intros [-> ->]]; done. Qed.

Lemma throwInjected_Ok kind st u st' :
  throwInjectedIntentFailure kind st = (Ok u, st') -> st' = st.
Proof. unfold throwInjectedIntentFailure. by case_match; intros [= _ <-]. Qed.

Ltac inv_M_step :=
  match goal with
  | H : (_ ≫= _) _ = (Ok _, _) |- _ => apply M_bind_Ok in H as (? & ? & ? & H)
  | H : lift _ _ = (_, _) |- _ => apply lift_run in H as [? ?]
  | H : throw _ _ = (_, _) |- _ => apply lift_run in H as [? ?]
  | H : parse_now _ _ = (_, _) |- _ => apply lift_run in H as [? ?]
  | H : mret _ _ = (_, _) |- _ => apply mret_run in H as [? ?]
  | H : peekJob _ _ _ = (Ok _, _) |- _ => injection H as ? ?
  | H : requireJob _ _ _ = (Ok _, _) |- _ => apply requireJob_Ok in H as (? & ? & ?)
  | H : replace _ _ _ _ = (_, _) |- _ => apply replace_run in H as [? ?]
  | H : throwInjectedIntentFailure _ _ = (Ok _, _) |- _ => apply throwInjected_Ok in H
  | H : Ok _ = Ok _ |- _ => injection H as ?
  | H : Ok _ = ?r |- _ => is_var r; fail
  | H : Ok _ = _ |- _ => symmetry in H
  | _ => inv_res_step
  end.

Ltac inv_M := repeat inv_M_step.

Lemma find_store st tenant jobId s tenant' jobId' :
  find_stored (store st tenant jobId s) tenant' jobId' =
  if decide (tenant' = tenant /\ jobId' = jobId) then Some s else find_stored st tenant' jobId'.
Proof.
  unfold find_stored, store; simpl. destruct (decide (tenant' = tenant)) as [->|Ht].
  - rewrite lookup_insert_eq. simpl. destruct (decide (jobId' = jobId)) as [->|Hj].
    + rewrite lookup_insert_eq, decide_True by done. done.
    + rewrite lookup_insert_ne, decide_False by (done || tauto).
      destruct (jobs st !! tenant) as [m|]; simpl; [done|apply lookup_empty].
  - by rewrite lookup_insert_ne, decide_False by (done || tauto).
Qed.

(** ** Atomicity

    [ReadOnly m]: [m] never changes the jobs.  [Atomic m]: it does not when it
    throws. *)

Class ReadOnly {A} (m : M A) := read_only : forall st x st', m st = (x, st') -> jobs st' = jobs st.
Class Total {A} (m : M A) := total : forall st e st', m st <> (Throw e, st').
Class Atomic {A} (m : M A) :=
  atomic : forall st e st', m st = (Throw e, st') -> jobs st' = jobs st.

#[export] Instance read_only_lift {A} (r : res A) : ReadOnly (lift r).
Proof. intros st x st' [_ ->]%lift_run. done. Qed.
#[export] Instance read_only_mret {A} (a : A) : ReadOnly (mret a : M A).
Proof. intros st x st' [_ ->]%mret_run. done. Qed.
#[export] Instance read_only_requireJob scope id : ReadOnly (requireJob scope id).
Proof. intros st x st'. unfold requireJob. repeat case_match; by intros [= _ <-]. Qed.
#[export] Instance read_only_peekJob t id : ReadOnly (peekJob t id).
Proof. intros st x st' [= _ <-]. done. Qed.
#[export] Instance read_only_parse_now now : ReadOnly (parse_now now).
Proof. apply _. Qed.
#[export] Instance read_only_throw {A} e : ReadOnly (throw e : M A).
Proof. apply _. Qed.
#[export] Instance read_only_injected kind : ReadOnly (throwInjectedIntentFailure kind).
Proof. intros st x st'. unfold throwInjectedIntentFailure. by case_match; intros [= _ <-]. Qed.
#[export] Instance read_only_bind {A B} (m : M A) (f : A -> M B) :
  ReadOnly m -> (forall a, ReadOnly (f a)) -> ReadOnly (m ≫= f).
Proof.
  intros Hm Hf st x st'. unfold mbind, M_bind. destruct (m st) as [[a|e] st1] eqn:H.
  - intros Hx. rewrite (Hf a _ _ _ Hx). by eapply Hm.
  - intros [= _ <-]. by eapply Hm.
Qed.

#[export] Instance total_peekJob t id : Total (peekJob t id).
Proof. intros st e st' [=]. Qed.
#[export] Instance total_mret {A} (a : A) : Total (mret a : M A).
Proof. intros st e st' [=]. Qed.
#[export] Instance total_replace t j s : Total (replace t j s).
Proof. intros st e st' [=]. Qed.
#[export] Instance total_bind {A B} (m : M A) (f : A -> M B) :
  Total m -> (forall a, Total (f a)) -> Total (m ≫= f).
Proof.
  intros Hm Hf st e st'. unfold mbind, M_bind. destruct (m st) as [[a|e'] st1] eqn:H; [apply Hf|].
  intros [= -> ->]. by apply Hm in H.
Qed.

#[export] Instance atomic_total {A} (m : M A) : Total m -> Atomic m | 10.
Proof. intros Hm st e st' H. by apply Hm in H. Qed.
#[export] Instance atomic_read_only {A} (m : M A) : ReadOnly m -> Atomic m | 10.
Proof. intros Hm st e st'. apply Hm. Qed.
#[export] Instance atomic_bind {A B} (m : M A) (f : A -> M B) :
  ReadOnly m -> (forall a, Atomic (f a)) -> Atomic (m ≫= f).
Proof.
  intros Hm Hf st e st'. unfold mbind, M_bind. destruct (m st) as [[a|e'] st1] eqn:H.
  - intros Hx. rewrite (Hf a _ _ _ Hx). by eapply Hm.
  - intros [= _ <-]. by eapply Hm.
Qed.


#[export] Instance atomic_then_total {A B} (m : M A) (f : A -> M B) :
  Atomic m -> (forall a, Total (f a)) -> Atomic (m ≫= f) | 20.
Proof.
  intros Hm Hf st e st'. unfold mbind, M_bind. destruct (m st) as [[a|e'] st1] eqn:H.
  - intros Hx. by apply Hf in Hx.
  - intros [= _ <-]. by eapply Hm.
Qed.

(** Instances find their way through the branches of a method: what has not
    yet written only reads, and what follows a write cannot throw. *)
Ltac effect_branch := match goal with |- ?C (match ?x with _ => _ end) => destruct x end.
Ltac reads := repeat first [apply _ | apply read_only_bind; [|intros] | effect_branch].
Ltac totals := repeat first [apply _ | apply total_bind; [|intros] | effect_branch].
Ltac atomically :=
  repeat first
    [ effect_branch
    | solve [apply atomic_total; totals]
    | solve [apply atomic_read_only; reads]
    | apply atomic_bind; [solve [reads]|intros]
    | apply atomic_then_total; [|solve [intros; totals]] ].

(** ** The calls a repository serves

    A call that awaits a plan carries the plan its lookup resolved. *)

Inductive Call : Type :=
| CreateCall (command : CreateReplayJobCommand)
| ClaimCall (command : ClaimDurableReplayJobCommand) (plan : ReplayPlan)
| HeartbeatCall (command : HeartbeatDurableReplayJobCommand)
| CancelCall (command : RequestDurableReplayCancellationCommand)
| AcknowledgeCall (command : AcknowledgeDurableReplayCancellationCommand)
| ReserveCall (command : ReserveDurableReplayBudgetCommand) (plan : ReplayPlan)
| ReconcileCall (command : ReconcileDurableReplayBudgetCommand)
| ExecutionCall (command : AppendReplayExecutionObservationCommand) (plan : ReplayPlan)
| UsageCall (command : AppendReplayUsageObservationCommand) (plan : ReplayPlan)
| CompleteCall (command : CompleteDurableReplayJobCommand).

Definition claim_snapshot (r : ClaimDurableReplayJobResult) : ReplayJobSnapshot :=
  match r with claim_refused _ s | claim_granted s _ => s end.

(** The commit of a call, and the snapshot it returns. *)
Definition run (call : Call) (now : timestamp) : M ReplayJobSnapshot :=
  match call with
  | CreateCall c => r ← createJob c now; mret (result_snapshot r)
  | ClaimCall c plan => r ← claimJob c plan now; mret (claim_snapshot r)
  | HeartbeatCall c => heartbeatJob c now
  | CancelCall c => r ← requestCancellation c now; mret (result_snapshot r)
  | AcknowledgeCall c => acknowledgeCancellation c now
  | ReserveCall c plan => reserveBudget c plan now
  | ReconcileCall c => reconcileBudget c now
  | ExecutionCall c plan => appendExecutionObservation c plan now
  | UsageCall c plan => appendUsageObservation c plan now
  | CompleteCall c => completeJob c now
  end.

(** The tenant, scope and job a call names. *)
Definition call_scope (call : Call) : EvidenceScope :=
  match call with
  | CreateCall c => createc_scope c
  | ClaimCall c _ => claimc_scope c
  | HeartbeatCall c => heartbeatc_scope c
  | CancelCall c => cancelc_scope c
  | AcknowledgeCall c => ackc_scope c
  | ReserveCall c _ => reservec_scope c
  | ReconcileCall c => reconcilec_scope c
  | ExecutionCall c _ => executionc_scope c
  | UsageCall c _ => usagec_scope c
  | CompleteCall c => completec_scope c
  end.

Definition call_job (call : Call) : string :=
  match call with
  | CreateCall c => createc_jobId c
  | ClaimCall c _ => claimc_jobId c
  | HeartbeatCall c => fence_jobId (heartbeatc_workerFence c)
  | CancelCall c => cancelc_jobId c
  | AcknowledgeCall c => fence_jobId (ackc_workerFence c)
  | ReserveCall c _ => fence_jobId (reservec_workerFence c)
  | ReconcileCall c => fence_jobId (reconcilec_workerFence c)
  | ExecutionCall c _ => fence_jobId (executionc_workerFence c)
  | UsageCall c _ => fence_jobId (usagec_workerFence c)
  | CompleteCall c => fence_jobId (completec_workerFence c)
  end.

Lemma appendObservation_atomic s o : Atomic (appendObservation s o).
Proof. unfold appendObservation. atomically. Qed.

#[export] Instance requireIntent_reads s i : ReadOnly (requireIntent s i).
Proof. unfold requireIntent. reads. Qed.

Lemma run_atomic call now : Atomic (run call now).
Proof.
  destruct call; unfold run, createJob, claimJob, heartbeatJob, requestCancellation,
    acknowledgeCancellation, reserveBudget, reconcileBudget, appendExecutionObservation,
    appendUsageObservation, completeJob; atomically; apply appendObservation_atomic.
Qed.

(** ** The repository invariant *)

(** The intents a job in this state has published: its creation, its
    cancellation request if it has one, and its end if it has ended. *)
Definition expected_intents (job : ReplayJob) (request : option ReplayCancellationRequest) :
    gmap string ReplayJobOutboxIntent :=
  let created := {[ intentKey (created_intent job) := created_intent job ]} in
  let requested := match request with
    | Some r => <[intentKey (cancellation_intent job r) := cancellation_intent job r]> created
    | None => created
    end in
  match job_terminal job with
  | Some t => <[intentKey (terminal_intent job t) := terminal_intent job t]> requested
  | None => requested
  end.

Record stored_valid (tenant jobId : string) (clock : timestamp) (s : StoredReplayJob) : Prop := {
  st_snapshot : snapshot_valid (snapshot s);
  st_tenant : tenantId (job_scope (stored_job s)) = tenant;
  st_jobId : job_jobId (stored_job s) = jobId;
  st_created : job_createdAt (stored_job s) <= clock;
  st_started : Forall (fun a => attempt_startedAt a <= clock) (stored_attempts s);
  st_intents : stored_intents s = expected_intents (stored_job s) (stored_cancellationRequest s);
}.

Definition memory_valid (clock : timestamp) (st : MemoryState) : Prop :=
  forall tenant jobId s, find_stored st tenant jobId = Some s -> stored_valid tenant jobId clock s.

Lemma stored_valid_later tenant jobId clock clock' s :
  clock <= clock' -> stored_valid tenant jobId clock s -> stored_valid tenant jobId clock' s.
Proof.
  intros Hle []. constructor; try done; [lia|]. eapply Forall_impl; [done|]. simpl. intros; lia.
Qed.

(** What the invariant asks of the callers: identifiers of new leases are
    fresh, acknowledgements arrive in the order of their time and identifier,
    and only a requested cancellation is completed as cancelled. *)
Definition admissible (st : MemoryState) (now : timestamp) (call : Call) : Prop :=
  forall s, find_stored st (tenantId (call_scope call)) (call_job call) = Some s ->
  match call with
  | ClaimCall c _ => claimc_leaseId c ∉
      (fun a => fence_leaseId (attempt_mutationFence a)) <$> stored_attempts s
  | AcknowledgeCall c => forall p, last (stored_cancellationAcknowledgements s) = Some p ->
      ack_acknowledgedAt p < now \/
      ack_acknowledgedAt p = now /\
      string_lt (ack_acknowledgementId p) (ackc_acknowledgementId c) = true
  | CompleteCall c => completec_status c = cancelled -> stored_cancellationRequest s <> None
  | _ => True
  end.

(** ** What a write may change

    A stored job only grows: its identity is fixed, logs are extended at the
    end, an attempt changes once, when it ends, a cancellation request stays,
    a job that has ended never changes, and every other change of the job
    carries a greater state version. *)

Definition attempts_kept (before after : list ReplayAttempt) : Prop :=
  forall i a, before !! i = Some a ->
    after !! i = Some a \/
    (attempt_status a = attempt_running /\ exists a', after !! i = Some a' /\ closes_attempt a a').

Record extends (s s' : StoredReplayJob) : Prop := {
  ex_root : same_root (stored_job s) (stored_job s');
  ex_attempts : attempts_kept (stored_attempts s) (stored_attempts s');
  ex_ledger : stored_budgetLedger s `prefix_of` stored_budgetLedger s';
  ex_acknowledgements : stored_cancellationAcknowledgements s `prefix_of`
    stored_cancellationAcknowledgements s';
  ex_execution : stored_executionObservations s `prefix_of` stored_executionObservations s';
  ex_usage : stored_usageObservations s `prefix_of` stored_usageObservations s';
  ex_request : forall q, stored_cancellationRequest s = Some q ->
    stored_cancellationRequest s' = Some q;
  ex_terminal : forall t, job_terminal (stored_job s) = Some t -> stored_job s' = stored_job s;
  ex_version : stored_job s' = stored_job s \/
    job_stateVersion (stored_job s) < job_stateVersion (stored_job s');
  ex_token : job_lastFencingToken (stored_job s) <= job_lastFencingToken (stored_job s');
}.

Lemma attempts_kept_refl l : attempts_kept l l.
Proof. by left. Qed.

Lemma attempts_kept_app l l' : attempts_kept l (l ++ l').
Proof. intros i a H. left. by apply lookup_app_l_Some. Qed.

Lemma attempts_kept_close pre cur x l :
  attempt_status cur = attempt_running -> closes_attempt cur x ->
  attempts_kept (pre ++ [cur]) (pre ++ [x] ++ l).
Proof.
  intros Hs Hc i a H. apply lookup_app_Some in H as [H|[Hl H]].
  - left. by apply lookup_app_l_Some.
  - right. destruct (i - length pre)%nat eqn:Hi; [|discriminate]. injection H as <-. split; [done|].
    exists x. split; [|done]. by rewrite lookup_app_r, Hi.
Qed.

Lemma extends_refl s : extends s s.
Proof. constructor; try done; [apply attempts_kept_refl|by left]. Qed.

#[export] Instance attempts_kept_trans : Transitive attempts_kept.
Proof.
  intros l1 l2 l3 H1 H2 i a Ha. destruct (H1 i a Ha) as [Hb|(Hr & b & Hb & Hc)]; [by apply H2|].
  right. split; [done|]. destruct (H2 i b Hb) as [?|(_ & c & ? & Hd)]; [by exists b|].
  exists c. split; [done|]. unfold closes_attempt in *. destruct_and!. split_and!; congruence.
Qed.

#[export] Instance extends_preorder : PreOrder extends.
Proof.
  split; [exact extends_refl|]. intros a b c Hab Hbc. destruct Hab, Hbc. constructor; try (by etrans).
  - unfold same_root in *. destruct_and!. split_and!; congruence.
  - auto.
  - intros t Ht. pose proof (ex_terminal0 t Ht) as Hj. rewrite <- Hj. apply (ex_terminal1 t).
    by rewrite Hj.
  - destruct ex_version0 as [Hj|], ex_version1 as [Hj'|]; rewrite ?Hj', ?Hj in *; [by left|right..]; lia.
Qed.

(** A write that does not touch the job or its attempts. *)
Lemma extends_log s s' :
  stored_job s' = stored_job s -> stored_attempts s' = stored_attempts s ->
  stored_budgetLedger s `prefix_of` stored_budgetLedger s' ->
  stored_cancellationAcknowledgements s `prefix_of` stored_cancellationAcknowledgements s' ->
  stored_executionObservations s `prefix_of` stored_executionObservations s' ->
  stored_usageObservations s `prefix_of` stored_usageObservations s' ->
  stored_cancellationRequest s' = stored_cancellationRequest s -> extends s s'.
Proof.
  intros Hj Ha ?? ?? Hq. constructor; try done; try congruence.
  - rewrite Hj. apply same_root_refl.
  - rewrite Ha. apply attempts_kept_refl.
  - by left.
  - by rewrite Hj.
Qed.

Ltac appended := apply extends_log; simpl; try done; by apply prefix_app_r.

(** A transition of the job. *)
Lemma extends_transition s s' :
  same_root (stored_job s) (stored_job s') -> job_terminal (stored_job s) = None ->
  job_stateVersion (stored_job s) < job_stateVersion (stored_job s') ->
  job_lastFencingToken (stored_job s) <= job_lastFencingToken (stored_job s') ->
  attempts_kept (stored_attempts s) (stored_attempts s') ->
  snapshot s' = with_root (snapshot s) (stored_attempts s') (stored_job s') -> extends s s'.
Proof.
  intros Hr Ht Hv Htk Ha [=]. constructor; try done; try congruence.
  5: by right. all: match goal with H : ?x = ?y |- ?y `prefix_of` ?x => by rewrite H end.
Qed.

(** A successful call either only answers, or stores one valid job. *)
Definition outcome (call : Call) (now : timestamp) (st : MemoryState) (snap : ReplayJobSnapshot)
    (st' : MemoryState) : Prop :=
  let tenant := tenantId (call_scope call) in
  (exists s, find_stored st tenant (call_job call) = Some s /\ st' = st /\ snap = snapshot s) \/
  (exists next, st' = store st tenant (call_job call) next /\ snap = snapshot next /\
     stored_valid tenant (call_job call) now next /\
     job_scope (stored_job next) = call_scope call /\
     forall s, find_stored st tenant (call_job call) = Some s -> extends s next).

Lemma answer_outcome call now st s :
  find_stored st (tenantId (call_scope call)) (call_job call) = Some s ->
  outcome call now st (snapshot s) st.
Proof. left. eauto. Qed.

(** A write keeps the identity of the job it changes. *)
Lemma write_outcome call clock now st s next :
  memory_valid clock st -> clock <= now ->
  find_stored st (tenantId (call_scope call)) (call_job call) = Some s ->
  job_scope (stored_job s) = call_scope call ->
  extends s next -> snapshot_valid (snapshot next) ->
  Forall (fun a => attempt_startedAt a <= now) (stored_attempts next) ->
  stored_intents next = expected_intents (stored_job next) (stored_cancellationRequest next) ->
  outcome call now st (snapshot next) (store st (tenantId (call_scope call)) (call_job call) next).
Proof.
  intros Hm Hle Hf Hsc Hext Hv Hst Hi. destruct (Hm _ _ _ Hf). right. exists next.
  pose proof (ex_root _ _ Hext) as (? & ? & ? & _).
  split_and!; [done|done|constructor; try done; congruence || lia|congruence|].
  intros s' Hs'. congruence.
Qed.

Lemma expected_intents_same_root job job' c :
  same_root job job' -> job_terminal job = None -> job_terminal job' = None ->
  expected_intents job' c = expected_intents job c.
Proof.
  intros (Hj & Hs & Hc & Hp & _) Ht Ht'. unfold expected_intents. rewrite Ht, Ht'.
  assert (created_intent job' = created_intent job) as ->
    by (unfold created_intent, base; by rewrite Hj, Hs, Hc, Hp).
  destruct c as [r|]; [|done].
  assert (cancellation_intent job' r = cancellation_intent job r) as ->
    by (unfold cancellation_intent, base; by rewrite Hj, Hs). done.
Qed.

Lemma expected_intents_end job job' c t :
  same_root job job' -> job_terminal job = None -> job_terminal job' = Some t ->
  expected_intents job' c =
  <[intentKey (terminal_intent job' t) := terminal_intent job' t]> (expected_intents job c).
Proof.
  intros (Hj & Hs & Hc & Hp & _) Ht Ht'. unfold expected_intents. rewrite Ht, Ht'.
  assert (created_intent job' = created_intent job) as ->
    by (unfold created_intent, base; by rewrite Hj, Hs, Hc, Hp).
  destruct c as [r|]; [|done].
  assert (cancellation_intent job' r = cancellation_intent job r) as ->
    by (unfold cancellation_intent, base; by rewrite Hj, Hs). done.
Qed.

Lemma snapshot_with_job s attempts job :
  snapshot (with_job s attempts job) = with_root (snapshot s) attempts job.
Proof. done. Qed.

(** The running attempt of a stored job is the one [currentAttempt] returns. *)
Lemma stored_running s lease :
  snapshot_valid (snapshot s) -> job_currentLease (stored_job s) = Some lease ->
  exists pre cur, stored_attempts s = pre ++ [cur] /\ currentAttempt s = Ok cur /\
    attempt_status cur = attempt_running /\
    attempt_mutationFence cur = lease_mutationFence lease /\
    attempt_attemptSequence cur = Z.of_nat (length pre) /\
    forall x, closes_attempt cur x -> replaceAttempt (stored_attempts s) x = pre ++ [x].
Proof.
  intros [] Hl. destruct (running_attempt_last _ _ _ sv_attempts Hl)
    as (pre & cur & Hat & Hs & Hf & Hq & Hseq). simpl in *.
  exists pre, cur. split_and!; try done.
  - unfold currentAttempt. rewrite Hseq, Nat2Z.id, Hat, lookup_app_r, Nat.sub_diag by done. done.
  - intros x (_ & Hx & _). unfold replaceAttempt, js_set. rewrite Hx, Hq, Nat2Z.id, Hat.
    rewrite take_app_length, drop_ge by (rewrite length_app; simpl; lia). done.
Qed.

(** ** One outcome lemma per method *)

Lemma createQueued_facts o job :
  createQueuedReplayJob o = Ok job ->
  ReplayJobSchema job = true /\ job_status job = queued /\ job_currentLease job = None /\
  job_latestAttemptSequence job = None /\ job_terminal job = None /\
  job_jobId job = create_jobId (queued_request o) /\ job_scope job = queued_scope o /\
  job_createdAt job = queued_createdAt o /\ job_plan job = create_plan (queued_request o) /\
  job_createdByPrincipalId job = queued_createdByPrincipalId o.
Proof.
  unfold createQueuedReplayJob. intros H. inv_res. rewrite canonicalTime_Ok in *. destruct_and!.
  subst. split_and!; done.
Qed.

(** The stored job [createJob] writes. *)
Definition fresh_job (job : ReplayJob) : StoredReplayJob :=
  withIntent {|
    stored_attempts := [];
    stored_budgetLedger := [];
    stored_cancellationAcknowledgements := [];
    stored_cancellationRequest := None;
    stored_executionObservations := [];
    stored_intents := ∅;
    stored_job := job;
    stored_usageObservations := [] |} (created_intent job).

Lemma fresh_job_valid job :
  ReplayJobSchema job = true -> job_currentLease job = None ->
  job_latestAttemptSequence job = None -> job_terminal job = None ->
  snapshot_valid (snapshot (fresh_job job)).
Proof.
  intros Hv Hl Hq Ht. constructor; simpl; try done; try apply NoDup_nil_2.
  - constructor; simpl; try done; try apply NoDup_nil_2; congruence.
  - constructor; simpl; try done; try apply NoDup_nil_2. by exists emptyLedger.
  - intros t. congruence.
Qed.

Lemma create_outcome clock st c now snap st' :
  memory_valid clock st -> clock <= now ->
  run (CreateCall c) now st = (Ok snap, st') -> outcome (CreateCall c) now st snap st'.
Proof.
  intros Hm Hle H. unfold run, createJob in H. inv_M.
  match goal with H : createQueuedReplayJob _ = Ok ?j |- _ =>
    apply createQueued_facts in H as (Hv & Hs & Hl & Hq & Ht & Hj & Hsc & Hc & Hp & _);
    simpl in *; rename j into job end.
  destruct (find_stored _ (tenantId (createc_scope c)) (createc_jobId c)) as [s|] eqn:Hf.
  - unfold requireIntent in *. inv_M. subst. by left; exists s.
  - inv_M. rewrite created_intent_Ok in *. destruct_and!. subst. right.
    exists (fresh_job job). split_and!; try done.
    + constructor; simpl; try done; [by apply fresh_job_valid|congruence|].
      unfold expected_intents. by rewrite Ht.
    + simpl. congruence.
Qed.

Lemma heartbeat_outcome clock st c now snap st' :
  memory_valid clock st -> clock <= now ->
  run (HeartbeatCall c) now st = (Ok snap, st') -> outcome (HeartbeatCall c) now st snap st'.
Proof.
  intros Hm Hle H. unfold run, heartbeatJob in H. inv_M. subst.
  match goal with H : find_stored _ _ _ = Some ?x |- _ => rename H into Hf; rename x into s end.
  match goal with H : heartbeatReplayJob _ _ _ _ = Ok ?j |- _ => rename H into Hh; rename j into job end.
  pose proof (Hm _ _ _ Hf) as []. simpl in *.
  pose proof (heartbeat_snapshot_valid (snapshot s) _ _ _ _ st_snapshot0 Hh) as Hv.
  apply heartbeat_iff in Hh as (_ & _ & _ & _ & _ & lease & Hst & Hrw & _ & _ & ->).
  simpl in *. rewrite st_jobId0.
  eapply (write_outcome (HeartbeatCall c)); try done.
  - apply extends_transition; simpl; try done; [by destruct Hrw|lia|apply attempts_kept_refl].
  - eapply Forall_impl; [exact st_started0|]. simpl. intros; lia.
  - simpl. rewrite st_intents0. symmetry. apply expected_intents_same_root; [by unfold same_root|..];
      by destruct Hrw.
Qed.

(** An attempt history whose last attempt is closed in place keeps its starts. *)
Lemma started_close pre cur x clock :
  closes_attempt cur x -> Forall (fun a => attempt_startedAt a <= clock) (pre ++ [cur]) ->
  Forall (fun a => attempt_startedAt a <= clock) (pre ++ [x]).
Proof.
  intros (_ & _ & _ & _ & _ & _ & Hs) [? [? _]%Forall_cons]%Forall_app.
  apply Forall_app. split; [done|]. constructor; [by rewrite Hs|done].
Qed.

Lemma started_later l clock now :
  clock <= now -> Forall (fun a => attempt_startedAt a <= clock) l ->
  Forall (fun a => attempt_startedAt a <= now) l.
Proof. intros. eapply Forall_impl; [done|]. simpl. intros; lia. Qed.

(** What closing an expired attempt writes. *)
Lemma terminalize_outcome call clock now st s effect terminal next :
  memory_valid clock st -> clock <= now ->
  find_stored st (tenantId (call_scope call)) (call_job call) = Some s ->
  job_scope (stored_job s) = call_scope call ->
  terminalizeExpiredAttempt s effect now terminal = Ok next ->
  (if defined (stored_cancellationRequest s) then snd terminal = cancelled
   else fst terminal <> cancellation_committed) ->
  outcome call now st (snapshot next) (store st (tenantId (call_scope call)) (call_job call) next).
Proof.
  intros Hm Hle Hf Hsc H Hterm. unfold terminalizeExpiredAttempt in H. inv_res.
  match goal with H : closeExpiredReplayAttempt _ _ _ = Ok ?p |- _ =>
    rename H into Hc; destruct p as [a' job']; simpl in * end.
  match goal with H : buildReplayJobTerminalOutboxIntent _ = Ok _ |- _ =>
    apply terminal_intent_Ok in H as (_ & t & Ht & ->) end.
  pose proof (Hm _ _ _ Hf) as [].
  pose proof (close_success_intro _ _ _ _ _ Hc) as [].
  destruct xs_lease as (lease & Hrw & _ & _ & Ha'). pose proof Hrw as [].
  destruct (stored_running s lease st_snapshot0 rw_lease) as (pre & cur & Hat & Hcur & Hrc & _ & _ & Hrep).
  assert (Hx : x = cur) by congruence. subst x.
  assert (Hcl : closes_attempt cur a') by (subst a'; apply outcome_closes).
  assert (Hroot : same_root (stored_job s) job') by (by subst job').
  rewrite (Hrep _ Hcl). apply (write_outcome call clock now st s); simpl; try done.
  - apply extends_transition; simpl; try done; [by subst job'; simpl; lia|by subst job'|].
    rewrite Hat. by apply (attempts_kept_close _ _ _ []).
  - apply (close_snapshot_valid (snapshot s) cur _ a' job' pre cur st_snapshot0 Hc Hat eq_refl Hterm).
  - rewrite Hat in st_started0. eapply started_later; [done|]. by eapply started_close.
  - rewrite st_intents0. symmetry. by apply expected_intents_end.
Qed.

Lemma claim_gate_facts s plan now gate :
  claim_gate s plan now = Ok gate ->
  match gate with
  | gate_claim _ => forall lease, job_status (stored_job s) = running ->
      job_currentLease (stored_job s) = Some lease -> lease_expiresAt lease <= now ->
      stored_cancellationRequest s = None
  | gate_terminalize _ terminal =>
      if defined (stored_cancellationRequest s) then snd terminal = cancelled
      else fst terminal <> cancellation_committed
  | gate_not_ready => True
  end.
Proof.
  unfold claim_gate. case_bool_decide as Hs; [|by intros [= <-]].
  destruct (job_currentLease (stored_job s)) as [lease|]; [|discriminate].
  destruct (Z.leb_spec (lease_expiresAt lease) now) as [Hle|Hlt].
  - intros H. inv_res.
    destruct (defined (stored_cancellationRequest s)) eqn:Hd; inv_res; [done|].
    destruct (hasOpenBudgetReservation s); inv_res; [done|].
    destruct (job_startedAt (stored_job s)); [|discriminate]. inv_res.
    match goal with H : match ?r with _ => _ end = _ |- _ => destruct r as [reason|d nb] end.
    + inv_res. by destruct reason.
    + case_match; inv_res; [done|]. intros. by apply defined_false.
  - intros [= <-] l _ [= <-] ?. lia.
Qed.

(** The attempts [claimJob] stores for a granted claim. *)
Definition granted_attempts (s : StoredReplayJob) (r : ClaimReplayJobResult) : list ReplayAttempt :=
  match claimed_expiredAttempt r with
  | Some expired => replaceAttempt (stored_attempts s) expired ++ [claimed_attempt r]
  | None => stored_attempts s ++ [claimed_attempt r]
  end.

(** The attempt a claim of a running job presents is the running one. *)
Definition presents_current (s : StoredReplayJob) (o : ClaimReplayJobOptions) : Prop :=
  job_status (stored_job s) = running ->
  exists a, currentAttempt s = Ok a /\ claim_currentAttempt o = Some a.

Lemma presented_running s o r :
  snapshot_valid (snapshot s) -> claim_success (stored_job s) o r -> presents_current s o ->
  job_status (stored_job s) = running ->
  exists pre cur lease, stored_attempts s = pre ++ [cur] /\ claim_currentAttempt o = Some cur /\
    job_currentLease (stored_job s) = Some lease /\ lease_expiresAt lease <= claim_now o /\
    attempt_status cur = attempt_running /\
    forall x, closes_attempt cur x -> replaceAttempt (stored_attempts s) x = pre ++ [x].
Proof.
  intros Hv [] Hp Hs. destruct cs_claimable as [|[_ (lease & [] & Hle)]]; [congruence|].
  destruct (stored_running s lease Hv rw_lease) as (pre & cur & Hat & Hcur & Hrc & _ & _ & Hrep).
  destruct (Hp Hs) as (a & Ha & Hca). assert (a = cur) as -> by congruence.
  exists pre, cur, lease. done.
Qed.

Lemma granted_attempts_claimed s o r :
  snapshot_valid (snapshot s) -> claim_success (stored_job s) o r -> presents_current s o ->
  granted_attempts s r = claimed_attempts (stored_attempts s) r.
Proof.
  intros Hv Hcs Hp. unfold granted_attempts, claimed_attempts.
  pose proof Hcs as []. destruct cs_claimable as [Hq|[Hr _]].
  - by rewrite (claim_queued_no_expiry _ _ _ Hcs Hq).
  - destruct (presented_running _ _ _ Hv Hcs Hp Hr) as (pre & cur & lease & Hat & Hc & _ & _ & _ & Hrep).
    destruct (claim_expires _ _ _ _ Hcs Hr Hc) as (e & -> & _ & Hcl & _).
    rewrite (Hrep _ Hcl), Hat, removelast_last, <- app_assoc. done.
Qed.

Lemma claimed_kept s o r :
  snapshot_valid (snapshot s) -> claim_success (stored_job s) o r -> presents_current s o ->
  attempts_kept (stored_attempts s) (claimed_attempts (stored_attempts s) r).
Proof.
  intros Hv Hcs Hp. unfold claimed_attempts. pose proof Hcs as [].
  destruct cs_claimable as [Hq|[Hr _]].
  - rewrite (claim_queued_no_expiry _ _ _ Hcs Hq). apply attempts_kept_app.
  - destruct (presented_running _ _ _ Hv Hcs Hp Hr) as (pre & cur & lease & Hat & Hc & _ & _ & Hs & _).
    destruct (claim_expires _ _ _ _ Hcs Hr Hc) as (e & -> & _ & Hcl & _).
    rewrite Hat, removelast_last. by apply attempts_kept_close.
Qed.

Lemma claim_not_ended job o r : claim_success job o r -> job_terminal job = None.
Proof.
  intros []. destruct cs_claimable as [Hq|[_ (l & [] & _)]]; [|done].
  by destruct (valid_queued _ cs_job Hq) as (_ & _ & _ & _ & ?).
Qed.

Lemma grant_outcome clock call now st s o r :
  memory_valid clock st -> clock <= now ->
  find_stored st (tenantId (call_scope call)) (call_job call) = Some s ->
  job_scope (stored_job s) = call_scope call ->
  claimReplayJob (stored_job s) o = Ok r -> claim_now o = now -> presents_current s o ->
  (forall lease, job_status (stored_job s) = running ->
     job_currentLease (stored_job s) = Some lease -> lease_expiresAt lease <= now ->
     stored_cancellationRequest s = None) ->
  claim_attemptId o ∉ attempt_attemptId <$> stored_attempts s ->
  claim_leaseId o ∉ (fun a => fence_leaseId (attempt_mutationFence a)) <$> stored_attempts s ->
  let next := with_job s (granted_attempts s r) (claimed_job r) in
  outcome call now st (snapshot next) (store st (tenantId (call_scope call)) (call_job call) next).
Proof.
  intros Hm Hle Hf Hsc Hr Hnow Hp Hreq Hid Hlid next. pose proof (Hm _ _ _ Hf) as [].
  pose proof (claim_success_intro _ _ _ Hr) as Hcs. subst next.
  assert (Hpres : job_status (stored_job s) = running -> stored_cancellationRequest s = None /\
     exists pre cur, stored_attempts s = pre ++ [cur] /\ claim_currentAttempt o = Some cur).
  { intros Hs. destruct (presented_running _ _ _ st_snapshot0 Hcs Hp Hs)
      as (pre & cur & lease & Hat & Hc & Hl & Hx & _ & _).
    split; [apply (Hreq lease); congruence || lia|eauto]. }
  rewrite (granted_attempts_claimed _ _ _ st_snapshot0 Hcs Hp).
  apply (write_outcome call clock now st s); try done.
  - apply extends_transition; simpl; try done; [by eapply claim_same_root|by eapply claim_not_ended| | |].
    + destruct Hcs. rewrite cs_result. simpl. lia.
    + destruct Hcs. rewrite cs_result. simpl. lia.
    + by eapply claimed_kept.
  - by apply (claim_snapshot_valid (snapshot s) o r).
  - simpl. unfold claimed_attempts. pose proof Hcs as [].
    assert (Ha : Forall (fun a => attempt_startedAt a <= now) [claimed_attempt r])
      by (constructor; [rewrite cs_attempt; simpl; lia|done]).
    pose proof (started_later _ _ _ Hle st_started0) as Hst.
    destruct cs_claimable as [Hq|[Hrun _]].
    + rewrite (claim_queued_no_expiry _ _ _ Hcs Hq). by apply Forall_app.
    + destruct (Hpres Hrun) as (_ & pre & cur & Hat & Hc).
      destruct (claim_expires _ _ _ _ Hcs Hrun Hc) as (e & -> & _ & Hcl & _).
      rewrite Hat, removelast_last in *. rewrite app_assoc. apply Forall_app. split; [|done].
      by eapply started_close.
  - simpl. rewrite st_intents0. symmetry. pose proof Hcs as [].
    apply expected_intents_same_root; [by eapply claim_same_root|by eapply claim_not_ended|].
    destruct (valid_running (claimed_job r)) as [l []]; [done|by rewrite cs_result|done].
Qed.

Lemma claim_outcome clock st c plan now snap st' :
  memory_valid clock st -> clock <= now -> admissible st now (ClaimCall c plan) ->
  run (ClaimCall c plan) now st = (Ok snap, st') -> outcome (ClaimCall c plan) now st snap st'.
Proof.
  intros Hm Hle Hadm H. unfold run, claimJob in H. inv_M.
  match goal with H : find_stored _ _ _ = Some ?x |- _ => rename H into Hf; rename x into s end.
  match goal with H : claim_gate _ _ _ = Ok ?g |- _ =>
    apply claim_gate_facts in H; rename H into Hgate; destruct g as [effect|effect terminal|] end.
  - inv_M. match goal with H : claimReplayJob _ _ = Ok _ |- _ => rename H into Hc end.
    match goal with H : (if _ then _ else _) _ = (Ok ?a, ?s2) |- _ =>
      assert (s2 = st /\ (job_status (stored_job s) = running ->
        exists a', currentAttempt s = Ok a' /\ a = Some a')) as [-> Hcur]
        by (clear - H; case_bool_decide; inv_M; subst; split; try done; intros; eauto) end.
    eapply (grant_outcome clock (ClaimCall c plan) now); try done.
    + simpl. by apply includes_false.
    + simpl. by apply (Hadm s).
  - inv_M. simpl in *. by eapply (terminalize_outcome (ClaimCall c plan) clock).
  - inv_M. by apply answer_outcome.
Qed.

Lemma intent_keys_distinct e e' i i' : e <> e' -> intent_key e i <> intent_key e' i'.
Proof. destruct e, e'; try done; intros _ H; by injection H. Qed.

(** The intents [requestCancellation] adds for a new request. *)
Lemma cancellation_intents s r job' :
  same_root (stored_job s) job' -> job_terminal (stored_job s) = None ->
  stored_intents s = expected_intents (stored_job s) None ->
  expected_intents job' (Some r) =
  match job_terminal job' with
  | Some t => <[intentKey (terminal_intent job' t) := terminal_intent job' t]>
      (<[intentKey (cancellation_intent job' r) := cancellation_intent job' r]> (stored_intents s))
  | None => <[intentKey (cancellation_intent job' r) := cancellation_intent job' r]> (stored_intents s)
  end.
Proof.
  intros (Hj & Hs & Hc & Hp & _) Ht ->. unfold expected_intents. rewrite Ht.
  assert (created_intent job' = created_intent (stored_job s)) as ->
    by (unfold created_intent, base; by rewrite Hj, Hs, Hc, Hp).
  by destruct (job_terminal job').
Qed.

Lemma cancel_existing_kept job o r q :
  requestReplayCancellation job o = Ok r -> cancel_existing o = Some q -> cancel_created r = false.
Proof.
  unfold requestReplayCancellation. intros H He. rewrite He in H. inv_res. done.
Qed.

(** A new request is only recorded for a job that has none and has not ended. *)
Lemma cancel_created_facts s c now r :
  requestReplayCancellation (stored_job s) {|
    cancel_existing := stored_cancellationRequest s;
    cancel_input := cancelc_input c;
    cancel_now := now;
    cancel_requestedByPrincipalId := cancelc_requestedByPrincipalId c |} = Ok r ->
  cancel_created r = true ->
  defined (job_terminal (stored_job s)) && negb (defined (stored_cancellationRequest s)) = false ->
  stored_cancellationRequest s = None /\ job_terminal (stored_job s) = None /\
  same_root (stored_job s) (cancel_job r).
Proof.
  intros Hc Hcr Hb. destruct (stored_cancellationRequest s) as [q|] eqn:Hq.
  - rewrite (cancel_existing_kept _ _ _ q Hc eq_refl) in Hcr. discriminate.
  - rewrite andb_true_r in Hb. apply defined_false in Hb. split_and!; try done.
    apply cancel_success in Hc as (_ & _ & _ & _ & _ & [(? & _)|[(_ & -> & _)|(_ & _ & _ & ->)]]);
      [congruence|done|done].
Qed.

Lemma cancel_extends s o r next :
  requestReplayCancellation (stored_job s) o = Ok r ->
  stored_cancellationRequest s = None -> job_terminal (stored_job s) = None ->
  same_root (stored_job s) (cancel_job r) ->
  snapshot next = snapshot_with_request (snapshot s) (cancel_request r) (cancel_job r) ->
  extends s next.
Proof.
  intros Hc Hq Ht Hr [= Ha Hl Hack Hreq Hex Hj Hu]. constructor; rewrite ?Ha, ?Hl, ?Hack, ?Hex, ?Hj, ?Hu;
    try done; try congruence; [apply attempts_kept_refl|..];
    apply cancel_success in Hc as (_ & _ & _ & _ & _ & [(_ & Hcj & _)|[(_ & Hcj & _)|(_ & _ & _ & ->)]]);
    rewrite ?Hcj; simpl; first [by left|lia|right; lia].
Qed.

Lemma cancel_outcome clock st c now snap st' :
  memory_valid clock st -> clock <= now ->
  run (CancelCall c) now st = (Ok snap, st') -> outcome (CancelCall c) now st snap st'.
Proof.
  intros Hm Hle H. unfold run, requestCancellation in H. inv_M.
  match goal with H : find_stored _ _ _ = Some ?x |- _ => rename H into Hf; rename x into s end.
  match goal with H : (if ?b then _ else _) _ = _ |- _ => destruct b eqn:Hb; inv_M end;
    [by apply answer_outcome|].
  match goal with H : requestReplayCancellation _ _ = Ok ?x |- _ =>
    rename H into Hc; rename x into r end.
  destruct (cancel_created r) eqn:Hcr; simpl in *.
  2: { unfold requireIntent in *. inv_M. 
       match goal with H : (if _ then _ else _) _ = (Ok _, ?s2) |- _ =>
         assert (s2 = st) as -> by (clear - H; case_match; inv_M; by subst) end.
       by apply answer_outcome. }
  inv_M. match goal with H : (if _ then _ else _) _ = (Ok ?n, ?s2) |- _ =>
    rename n into next; rename H into Hnext; rename s2 into st2 end.
  pose proof (Hm _ _ _ Hf) as [].
  rewrite cancellation_intent_Ok in *. inv_M.
  destruct (cancel_created_facts _ _ _ _ Hc Hcr Hb) as (Hq & Ht & Hroot).
  assert (Hn : st2 = st /\ snapshot next =
      snapshot_with_request (snapshot s) (cancel_request r) (cancel_job r) /\
    stored_intents next = expected_intents (cancel_job r) (Some (cancel_request r)) /\
    stored_cancellationRequest next = Some (cancel_request r) /\
    stored_job next = cancel_job r /\ stored_attempts next = stored_attempts s).
  { rewrite Hq in st_intents0. rewrite (cancellation_intents _ _ _ Hroot Ht st_intents0).
    destruct (job_terminal (cancel_job r)) as [t|] eqn:Htr; simpl in Hnext; inv_M; [|by subst].
    rewrite terminal_intent_Ok in *. inv_M.
    match goal with H : exists _, _ |- _ => destruct H as (u & Hu & ->) end.
    assert (u = t) as -> by congruence. by subst. }
  destruct Hn as (-> & Hsn & Hi & Hrq & Hj & Ha). simpl.
  apply (write_outcome (CancelCall c) clock now st s next); try done.
  - by eapply cancel_extends.
  - rewrite Hsn. eapply (request_snapshot_valid (snapshot s)); try done. simpl. lia.
  - rewrite Ha. by eapply started_later.
  - by rewrite Hi, Hj, Hrq.
Qed.

(** The fence a worker mutation carries is the running attempt's. *)
Lemma mutation_fence_current s f now l clock :
  assertReplayWorkerMutationFence (stored_job s) f now = Ok l ->
  snapshot_valid (snapshot s) -> clock <= now ->
  Forall (fun a => attempt_startedAt a <= clock) (stored_attempts s) ->
  job_status (stored_job s) = running /\
  exists a, attempt_by_id (stored_attempts s) (fence_attemptId f) = Some a /\
    attempt_mutationFence a = f /\ attempt_startedAt a <= now.
Proof.
  unfold assertReplayWorkerMutationFence. intros H [] Hle Hst. inv_res.
  match goal with H : assertCurrentFence _ _ _ = Ok _ |- _ =>
    apply assertCurrentFence_Ok in H as (Hs & Hl & _ & <- & _) end.
  split; [done|].
  destruct (current_fence_known _ _ _ sv_attempts sv_attempt_records Hl) as (a & _ & _ & Hf & Ha).
  exists a. split_and!; [done|done|]. apply attempt_by_id_Some in Ha as [Ha _].
  rewrite Forall_forall in Hst. specialize (Hst _ Ha). simpl in *. lia.
Qed.

Lemma asserted_fence job f now l :
  ReplayJobSchema job = true -> assertCurrentFence job f now = Ok l ->
  UtcMillisecondTimestampSchema now = true ->
  assertReplayWorkerMutationFence job f now = Ok l.
Proof.
  intros Hv Hf Hn. unfold assertReplayWorkerMutationFence.
  rewrite (bind_known _ _ _ (parse_accepted _ _ Hv)).
  rewrite (bind_known _ _ now) by (by apply parse_accepted).
  rewrite (bind_known _ _ _ Hf). apply parse_accepted.
  by apply assertCurrentFence_Ok in Hf as (_ & _ & ? & _).
Qed.

Lemma acknowledge_success job q f id action now a :
  acknowledgeReplayCancellation job q f id action now = Ok a ->
  ReplayCancellationAcknowledgementSchema a = true /\
  cancellation_requestedAt q <= now /\
  (exists l, assertCurrentFence job f now = Ok l) /\ ReplayJobSchema job = true /\
  a = {| ack_acknowledgedAt := now; ack_acknowledgementId := id; ack_action := action;
         ack_cancellationId := cancellation_cancellationId q; ack_mutationFence := f;
         ack_scope := job_scope job |}.
Proof.
  unfold acknowledgeReplayCancellation. intros H. inv_res. rewrite canonicalTime_Ok in *.
  destruct_and!. subst. breflect. destruct_and!. split_and!; eauto; lia.
Qed.

Lemma acknowledge_outcome clock st c now snap st' :
  memory_valid clock st -> clock <= now -> admissible st now (AcknowledgeCall c) ->
  run (AcknowledgeCall c) now st = (Ok snap, st') -> outcome (AcknowledgeCall c) now st snap st'.
Proof.
  intros Hm Hle Hadm H. unfold run, acknowledgeCancellation in H. inv_M.
  match goal with H : find_stored _ _ _ = Some ?x |- _ => rename H into Hf; rename x into s end.
  destruct (stored_cancellationRequest s) as [q|] eqn:Hq; [|inv_M; done].
  inv_M. match goal with H : acknowledgeReplayCancellation _ _ _ _ _ _ = Ok _ |- _ =>
    apply acknowledge_success in H as (Hv & Hreq & (l & Hfence) & Hjv & ->) end.
  match goal with H : UtcMillisecondTimestampSchema now = true |- _ => rename H into Hnow end.
  destruct (List.find _ _) as [e|] eqn:He; inv_M; [by apply answer_outcome|].
  pose proof (Hm _ _ _ Hf) as []. simpl in *. rewrite st_jobId0.
  apply (write_outcome (AcknowledgeCall c) clock now st s);
    try done; [appended| |by apply (started_later _ clock)].
  destruct (mutation_fence_current _ _ _ _ _ (asserted_fence _ _ _ _ Hjv Hfence Hnow) st_snapshot0
    Hle st_started0) as (_ & a & Ha & Hfa & Hsa).
  apply (ack_snapshot_valid (snapshot s)); try done; simpl.
  - constructor; simpl; [|eauto|done]. exists q. by rewrite Hq.
  - intros (e & Hei & Hin)%list_elem_of_fmap. rewrite find_None_key in He.
    specialize (He e Hin). breflect. congruence.
  - intros p Hp. unfold acknowledged_before. simpl. by apply (Hadm s Hf).
Qed.

Lemma reserve_outcome clock st c plan now snap st' :
  memory_valid clock st -> clock <= now ->
  run (ReserveCall c plan) now st = (Ok snap, st') -> outcome (ReserveCall c plan) now st snap st'.
Proof.
  intros Hm Hle H. unfold run, reserveBudget in H. inv_M.
  match goal with H : find_stored _ _ _ = Some ?x |- _ => rename H into Hf; rename x into s end.
  destruct (find_reservation _ _) as [e|] eqn:He; inv_M; [by apply answer_outcome|].
  match goal with H : reserveReplayBudget _ = Ok ?x |- _ => rename H into Hr; rename x into r end.
  match goal with H : summarizeReplayBudgetLedger _ = Ok _ |- _ =>
    unfold summarizeReplayBudgetLedger in H; inv_res end.
  match goal with H : fold_ledger _ = Ok ?x |- _ => rename H into Hst; rename x into ls end.
  match goal with H : assertReplayWorkerMutationFence _ _ _ = Ok _ |- _ => rename H into Hfence end.
  pose proof (Hm _ _ _ Hf) as []. simpl in *. rewrite st_jobId0.
  apply (write_outcome (ReserveCall c plan) clock now st s);
    try done; [appended| |by apply (started_later _ clock)].
  destruct (mutation_fence_current _ _ _ _ _ Hfence st_snapshot0 Hle st_started0)
    as (_ & a & Ha & Hfa & _).
  pose proof Hr as Hr'. apply reserve_iff in Hr' as (_ & _ & _ & Hreq).
  apply (entry_snapshot_valid (snapshot s) (ReservationEntry r)); simpl; try done.
  - unfold reserveReplayBudget in Hr. inv_res. done.
  - subst r. split; simpl; [by rewrite st_tenant0 || congruence|]. by exists a.
  - eapply extend_reservation; try done. simpl. by apply find_reservation_None.
Qed.

Lemma reconcile_outcome clock st c now snap st' :
  memory_valid clock st -> clock <= now ->
  run (ReconcileCall c) now st = (Ok snap, st') -> outcome (ReconcileCall c) now st snap st'.
Proof.
  intros Hm Hle H. unfold run, reconcileBudget in H. inv_M.
  match goal with H : find_stored _ _ _ = Some ?x |- _ => rename H into Hf; rename x into s end.
  destruct (find_reservation _ _) as [r|] eqn:Hr; inv_M.
  match goal with H : reconcileReplayBudget _ _ = Ok ?x |- _ => rename H into Hc; rename x into rc end.
  match goal with H : assertReplayWorkerMutationFence _ _ _ = Ok _ |- _ => rename H into Hfence end.
  match goal with H : match ?o with _ => _ end _ = _ |- _ => destruct o as [e|] eqn:He end;
    inv_M; [by apply answer_outcome|].
  match type of He with match ?o with _ => _ end = _ => destruct o eqn:He1; [discriminate|] end.
  match goal with H : summarizeReplayBudgetLedger _ = Ok _ |- _ =>
    unfold summarizeReplayBudgetLedger in H; inv_res end.
  match goal with H : fold_ledger _ = Ok _ |- _ => rename H into Hst end.
  pose proof (Hm _ _ _ Hf) as []. simpl in *. rewrite st_jobId0.
  apply (write_outcome (ReconcileCall c) clock now st s);
    try done; [appended| |by apply (started_later _ clock)].
  destruct (mutation_fence_current _ _ _ _ _ Hfence st_snapshot0 Hle st_started0)
    as (_ & a & Ha & Hfa & _).
  pose proof Hc as Hc'. apply reconcile_iff in Hc' as (_ & _ & _ & _ & _ & Heq).
  apply find_reservation_Some in Hr as [Hrin _].
  apply (entry_snapshot_valid (snapshot s) (ReconciliationEntry rc)); simpl; try done.
  - unfold reconcileReplayBudget in Hc. inv_res. done.
  - pose proof st_snapshot0 as []. destruct sv_ledger. rewrite Forall_forall in bv_known.
    assert (Hk : entry_known (stored_job s) (stored_attempts s) (ReservationEntry r)).
    { apply bv_known. unfold reservations_of in Hrin. apply list_elem_of_omap in Hrin as (x & Hx & Hm').
      destruct x; [by injection Hm' as ->|discriminate]. }
    subst rc. exact Hk.
  - intros c' [= <-] Hin. unfold reconciliation_ids in Hin.
    apply list_elem_of_fmap in Hin as (x & Hxi & Hx). rewrite find_None_key in He1.
    specialize (He1 x Hx). subst rc. simpl in *. breflect. congruence.
  - by rewrite Hst.
Qed.

Lemma observations_snapshot s :
  observations_of (snapshot s) = any_observation <$> all_observations s.
Proof.
  unfold observations_of, all_observations. rewrite fmap_app, <- !list_fmap_compose. done.
Qed.

Lemma next_sequence_length s :
  next_observation_sequence s = Z.of_nat (length (observations_of (snapshot s))).
Proof.
  unfold next_observation_sequence, observations_of. rewrite length_app, !length_fmap. simpl. lia.
Qed.

(** What [appendObservation] does with an observation the snapshot accepts. *)
Lemma append_outcome call clock now st s o snap st' :
  memory_valid clock st -> clock <= now ->
  find_stored st (tenantId (call_scope call)) (call_job call) = Some s ->
  job_scope (stored_job s) = call_scope call ->
  observation_scope (any_observation o) = call_scope call ->
  fence_jobId (observation_mutationFence (any_observation o)) = call_job call ->
  observation_observationSequence (any_observation o) = next_observation_sequence s ->
  observation_valid (stored_job s) (stored_attempts s) (any_observation o) ->
  match o with
  | AnyExecution e => ReplayExecutionObservationSchema e = true /\
      names_request (stored_cancellationRequest s) e = true
  | AnyUsage u => ReplayUsageObservationSchema u = true
  end ->
  appendObservation s o st = (Ok snap, st') -> outcome call now st snap st'.
Proof.
  intros Hm Hle Hf Hsc Hos Hoj Hseq Hov Hschema H. unfold appendObservation in H.
  destruct (List.find _ _) as [e|] eqn:He; inv_M; [by apply answer_outcome|].
  rewrite Hos, Hoj. pose proof (Hm _ _ _ Hf) as [].
  assert (Hfresh : observation_observationId (any_observation o) ∉
    observation_observationId <$> observations_of (snapshot s)).
  { rewrite observations_snapshot. intros (x & Hx & (y & -> & Hy)%list_elem_of_fmap)%list_elem_of_fmap.
    rewrite find_None_key in He. specialize (He y Hy). breflect. congruence. }
  rewrite next_sequence_length in Hseq.
  destruct o as [o|o]; apply (write_outcome call clock now st s); try done;
    try (by apply (started_later _ clock)); try appended.
  - destruct Hschema. by apply (execution_snapshot_valid (snapshot s)).
  - by apply (usage_snapshot_valid (snapshot s)).
Qed.

Lemma execution_outcome clock st c plan now snap st' :
  memory_valid clock st -> clock <= now ->
  run (ExecutionCall c plan) now st = (Ok snap, st') ->
  outcome (ExecutionCall c plan) now st snap st'.
Proof.
  intros Hm Hle H. unfold run, appendExecutionObservation in H. inv_M.
  match goal with H : find_stored _ _ _ = Some ?x |- _ => rename H into Hf; rename x into s end.
  match goal with H : assertReplayWorkerMutationFence _ _ _ = Ok _ |- _ => rename H into Hfence end.
  pose proof (Hm _ _ _ Hf) as []. simpl in *.
  destruct (mutation_fence_current _ _ _ _ _ Hfence st_snapshot0 Hle st_started0)
    as (_ & a & Ha & Hfa & Hsa).
  eapply (append_outcome (ExecutionCall c plan) clock); try done; simpl; try done.
  - constructor; simpl; eauto.
  - split; [done|]. unfold names_request. simpl.
    match goal with H : negb (payload_cancellation_ok _ _) = false |- _ =>
      apply negb_false_iff in H; exact H end.
Qed.

Lemma usage_outcome clock st c plan now snap st' :
  memory_valid clock st -> clock <= now ->
  run (UsageCall c plan) now st = (Ok snap, st') -> outcome (UsageCall c plan) now st snap st'.
Proof.
  intros Hm Hle H. unfold run, appendUsageObservation in H. inv_M.
  match goal with H : find_stored _ _ _ = Some ?x |- _ => rename H into Hf; rename x into s end.
  match goal with H : assertReplayWorkerMutationFence _ _ _ = Ok _ |- _ => rename H into Hfence end.
  pose proof (Hm _ _ _ Hf) as []. simpl in *.
  destruct (mutation_fence_current _ _ _ _ _ Hfence st_snapshot0 Hle st_started0)
    as (_ & a & Ha & Hfa & Hsa).
  eapply (append_outcome (UsageCall c plan) clock); try done; simpl; try done.
  constructor; simpl; eauto.
Qed.

Lemma complete_outcome clock st c now snap st' :
  memory_valid clock st -> clock <= now -> admissible st now (CompleteCall c) ->
  run (CompleteCall c) now st = (Ok snap, st') -> outcome (CompleteCall c) now st snap st'.
Proof.
  intros Hm Hle Hadm H. unfold run, completeJob in H. inv_M.
  match goal with H : find_stored _ _ _ = Some ?x |- _ => rename H into Hf; rename x into s end.
  match goal with H : completeReplayAttempt _ _ _ _ = Ok ?p |- _ =>
    rename H into Hc; destruct p as [a' job']; simpl in * end.
  match goal with H : buildReplayJobTerminalOutboxIntent _ = Ok _ |- _ =>
    apply terminal_intent_Ok in H as (_ & t & Ht & ->) end.
  pose proof (Hm _ _ _ Hf) as []. simpl in *. rewrite st_jobId0.
  pose proof (complete_success_intro _ _ _ _ _ _ Hc) as [].
  destruct ps_lease as (lease & Hrw & _). pose proof Hrw as [].
  destruct (stored_running s lease st_snapshot0 rw_lease) as (pre & cur & Hat & Hcur & Hrc & _ & _ & Hrep).
  match goal with H : currentAttempt s = Ok ?x |- _ => assert (x = cur) as -> by congruence end.
  assert (Hcl : closes_attempt cur a') by (subst a'; apply outcome_closes).
  assert (Hroot : same_root (stored_job s) job') by (by subst job').
  rewrite (Hrep _ Hcl). apply (write_outcome (CompleteCall c) clock now st s); simpl; try done.
  - apply extends_transition; simpl; try done; [by subst job'; simpl; lia|by subst job'|].
    rewrite Hat. by apply (attempts_kept_close _ _ _ []).
  - apply (complete_snapshot_valid (snapshot s) cur _ _ a' job' pre cur st_snapshot0 Hc Hat eq_refl eq_refl).
    by apply (Hadm s).
  - rewrite Hat in st_started0. apply (started_later _ clock); [done|]. by eapply started_close.
  - rewrite st_intents0. symmetry. by apply expected_intents_end.
Qed.

Lemma run_outcome clock st call now snap st' :
  memory_valid clock st -> clock <= now -> admissible st now call ->
  run call now st = (Ok snap, st') -> outcome call now st snap st'.
Proof.
  intros Hm Hle Ha H. destruct call.
  - by eapply create_outcome.
  - by eapply claim_outcome.
  - by eapply heartbeat_outcome.
  - by eapply cancel_outcome.
  - by eapply acknowledge_outcome.
  - by eapply reserve_outcome.
  - by eapply reconcile_outcome.
  - by eapply execution_outcome.
  - by eapply usage_outcome.
  - by eapply complete_outcome.
Qed.

Lemma find_stored_jobs st st' tenant jobId :
  jobs st' = jobs st -> find_stored st' tenant jobId = find_stored st tenant jobId.
Proof. unfold find_stored. by intros ->. Qed.

Lemma run_valid clock st call now r st' :
  memory_valid clock st -> clock <= now -> admissible st now call ->
  run call now st = (r, st') -> memory_valid now st'.
Proof.
  intros Hm Hle Ha H tenant jobId s Hs. destruct r as [snap|e].
  - destruct (run_outcome _ _ _ _ _ _ Hm Hle Ha H) as [(x & _ & -> & _)|(next & -> & _ & Hv & _)].
    + eapply stored_valid_later; [done|]. by apply Hm.
    + rewrite find_store in Hs. case_decide as Hd; [destruct Hd as [-> ->]; by injection Hs as <-|].
      eapply stored_valid_later; [done|]. by apply Hm.
  - pose proof (run_atomic call now _ _ _ H) as Hj. rewrite (find_stored_jobs _ _ _ _ Hj) in Hs.
    eapply stored_valid_later; [done|]. by apply Hm.
Qed.
