(* ===== verification/ReplayRepositorySystem.v ===== *)
(** * The repository as a concurrent system

    Calls to [MemoryReplayJobRepository] overlap: a call looks its plan up, other
    calls run while it awaits, and it commits later.  A [System] is the memory,
    the last server time and the calls that have resolved their plan and not
    committed yet; [system_step] interleaves lookups and commits in any order,
    against definition repositories that may change between lookups.  The
    invariant of [MemoryReplayJobProofs] holds of every reachable system. *)

From S2P Require Import Prelude Errors Primitives ReplayPlan ReplayJob ReplayJobState.
From S2P Require Import ReplayJobStateProofs ReplayAccounting ReplayBudget ReplayJobSnapshot.
From S2P Require Import ReplayJobSnapshotProofs ReplayJobOutbox MemoryReplayJobRepository.
From S2P Require Import MemoryReplayJobProofs.
From stdpp Require Import gmap relations sorting.
#[local] Open Scope Z_scope.

Inductive Request : Type :=
| CreateRequest (command : CreateReplayJobCommand)
| ClaimRequest (command : ClaimDurableReplayJobCommand)
| HeartbeatRequest (command : HeartbeatDurableReplayJobCommand)
| CancelRequest (command : RequestDurableReplayCancellationCommand)
| AcknowledgeRequest (command : AcknowledgeDurableReplayCancellationCommand)
| ReserveRequest (command : ReserveDurableReplayBudgetCommand)
| ReconcileRequest (command : ReconcileDurableReplayBudgetCommand)
| ExecutionRequest (command : AppendReplayExecutionObservationCommand)
| UsageRequest (command : AppendReplayUsageObservationCommand)
| CompleteRequest (command : CompleteDurableReplayJobCommand).

(** Everything a call does before its last [await]. *)
Definition lookup (definitions : ReplayDefinitionRepository) (request : Request) : M Call :=
  match request with
  | CreateRequest c => lift (createJob_lookup c) ;; mret (CreateCall c)
  | ClaimRequest c => plan ← claimJob_lookup c; mret (ClaimCall c plan)
  | HeartbeatRequest c => heartbeatJob_lookup c ;; mret (HeartbeatCall c)
  | CancelRequest c => mret (CancelCall c)
  | AcknowledgeRequest c => mret (AcknowledgeCall c)
  | ReserveRequest c =>
      plan ← plan_lookup (reservec_scope c) (fence_jobId (reservec_workerFence c));
      mret (ReserveCall c plan)
  | ReconcileRequest c => mret (ReconcileCall c)
  | ExecutionRequest c =>
      plan ← plan_lookup (executionc_scope c) (fence_jobId (executionc_workerFence c));
      mret (ExecutionCall c plan)
  | UsageRequest c =>
      plan ← plan_lookup (usagec_scope c) (fence_jobId (usagec_workerFence c));
      mret (UsageCall c plan)
  | CompleteRequest c => mret (CompleteCall c)
  end.

Record System := {
  sys_memory : MemoryState;
  sys_clock : timestamp;
  sys_pending : list Call;
}.

Definition initial (clock : timestamp) : System := {|
  sys_memory := emptyMemory; sys_clock := clock; sys_pending := []
|}.

Inductive system_step (s : System) : System -> Prop :=
| step_lookup definitions request call mem :
    lookup definitions request (sys_memory s) = (Ok call, mem) ->
    system_step s {| sys_memory := mem; sys_clock := sys_clock s;
                     sys_pending := sys_pending s ++ [call] |}
| step_commit before call after now r mem :
    sys_pending s = before ++ call :: after -> sys_clock s <= now ->
    admissible (sys_memory s) now call -> run call now (sys_memory s) = (r, mem) ->
    system_step s {| sys_memory := mem; sys_clock := now; sys_pending := before ++ after |}
| step_fail_intent kind mem :
    failNextIntent kind (sys_memory s) = (Ok tt, mem) ->
    system_step s {| sys_memory := mem; sys_clock := sys_clock s; sys_pending := sys_pending s |}.

Definition reachable (s : System) : Prop := exists clock, rtc system_step (initial clock) s.

(** The plan a pending call resolved. *)
Definition call_plan (call : Call) : option ReplayPlan :=
  match call with
  | ClaimCall _ p | ReserveCall _ p | ExecutionCall _ p | UsageCall _ p => Some p
  | _ => None
  end.

Definition plan_current (st : MemoryState) (call : Call) : Prop :=
  forall plan, call_plan call = Some plan ->
  exists s, find_stored st (tenantId (call_scope call)) (call_job call) = Some s /\
    job_scope (stored_job s) = call_scope call /\
    exactPlanReference (stored_job s) plan = true.

Record system_valid (s : System) : Prop := {
  sys_valid : memory_valid (sys_clock s) (sys_memory s);
  sys_plans : Forall (plan_current (sys_memory s)) (sys_pending s);
}.

(** ** Lookups *)

#[export] Instance plan_lookup_reads `{defs : ReplayDefinitionRepository} scope id :
  ReadOnly (plan_lookup scope id).
Proof. unfold plan_lookup. reads. Qed.

Lemma lookup_reads definitions request : ReadOnly (lookup definitions request).
Proof. destruct request; unfold lookup, claimJob_lookup, heartbeatJob_lookup; reads. Qed.

Lemma requirePlan_Ok `{defs : ReplayDefinitionRepository} job plan :
  requirePlan job = Ok plan -> exactPlanReference job plan = true.
Proof.
  unfold requirePlan. destruct (findReplayPlan _ _) as [p|]; [|discriminate].
  destruct (exactPlanReference job p) eqn:He; [|discriminate]. by intros [= <-].
Qed.

Lemma plan_lookup_Ok `{defs : ReplayDefinitionRepository} scope id st plan st' :
  plan_lookup scope id st = (Ok plan, st') ->
  exists s, find_stored st (tenantId scope) id = Some s /\ job_scope (stored_job s) = scope /\
    exactPlanReference (stored_job s) plan = true.
Proof.
  unfold plan_lookup. intros H. inv_M.
  match goal with H : requirePlan _ = Ok _ |- _ => apply requirePlan_Ok in H end. eauto.
Qed.

Lemma lookup_plan_current definitions request st call st' :
  lookup definitions request st = (Ok call, st') -> plan_current st call.
Proof.
  intros H plan Hp. unfold lookup in H. destruct request; inv_M; try discriminate.
  all: simpl in Hp; injection Hp as <-.
  2,3,4: match goal with H : plan_lookup _ _ _ = _ |- _ => by apply plan_lookup_Ok in H end.
  match goal with H : claimJob_lookup _ _ = _ |- _ => unfold claimJob_lookup in H; inv_M end.
  match goal with H : match ?o with _ => _ end _ = _ |- _ => destruct o; inv_M end.
  match goal with H : plan_lookup _ _ _ = _ |- _ => by apply plan_lookup_Ok in H end.
Qed.

(** ** Plans survive other calls

    No call removes a job or changes its plan, so a plan resolved before an
    [await] is still the plan of the job that the commit finds. *)

Lemma exactPlanReference_root job job' plan :
  same_root job job' -> exactPlanReference job' plan = exactPlanReference job plan.
Proof. intros (_ & Hs & _ & Hp & _). unfold exactPlanReference. by rewrite Hs, Hp. Qed.

Lemma plan_current_run clock st call now r st' other :
  memory_valid clock st -> clock <= now -> admissible st now call ->
  run call now st = (r, st') -> plan_current st other -> plan_current st' other.
Proof.
  intros Hm Hle Ha H Hpc plan Hp. destruct (Hpc plan Hp) as (s & Hs & Hsc & He).
  destruct r as [snap|e].
  - destruct (run_outcome _ _ _ _ _ _ Hm Hle Ha H)
      as [(x & _ & -> & _)|(next & -> & _ & _ & Hns & Hroot)]; [by exists s|].
    rewrite find_store. case_decide as Hd; [|by exists s].
    destruct Hd as [Ht Hj]. rewrite Ht, Hj in Hs. pose proof (ex_root _ _ (Hroot s Hs)) as Hsame.
    exists next. rewrite (exactPlanReference_root _ _ _ Hsame). split_and!; try done.
    destruct Hsame as (_ & -> & _). done.
  - pose proof (run_atomic call now _ _ _ H) as Hj. rewrite (find_stored_jobs _ _ _ _ Hj). by exists s.
Qed.

Lemma system_step_valid s s' : system_step s s' -> system_valid s -> system_valid s'.
Proof.
  intros Hstep [Hv Hp]. destruct Hstep as [defs req call mem H|before call after now r mem Hpe Hle Ha H|kind mem H].
  - pose proof (lookup_reads defs req _ _ _ H) as Hj. constructor; simpl.
    + intros t j x Hx. apply Hv. by rewrite <- (find_stored_jobs _ _ _ _ Hj).
    + apply Forall_app. split.
      * eapply Forall_impl; [exact Hp|]. intros c Hc plan Hpl.
        destruct (Hc plan Hpl) as (x & ?). exists x. by rewrite (find_stored_jobs _ _ _ _ Hj).
      * constructor; [|done]. intros plan Hpl.
        destruct (lookup_plan_current _ _ _ _ _ H plan Hpl) as (x & ?). exists x.
        by rewrite (find_stored_jobs _ _ _ _ Hj).
  - constructor; simpl; [by eapply run_valid|]. rewrite Hpe in Hp.
    apply Forall_app in Hp as [Hb [_ Haf]%Forall_cons]. apply Forall_app.
    split; (eapply Forall_impl; [done|]); intros c; by eapply plan_current_run.
  - injection H as <-. constructor; simpl.
    + intros t j x Hx. by apply Hv.
    + exact Hp.
Qed.

Lemma reachable_valid s : reachable s -> system_valid s.
Proof.
  intros [clock H]. assert (Hi : system_valid (initial clock)).
  { constructor; simpl; [|done]. intros t j x Hx. unfold find_stored in Hx. simpl in Hx.
    rewrite lookup_empty in Hx. discriminate. }
  revert Hi. induction H as [s|a b c Hab _ IH]; [done|]. intros Ha. apply IH.
  by eapply system_step_valid.
Qed.

(** ** Executing an interleaving

    The step relation as a function of scheduler events, so that a concrete
    interleaving is checked by evaluation. *)

Inductive Event : Type :=
| EventLookup (definitions : ReplayDefinitionRepository) (request : Request)
| EventCommit (index : nat) (now : timestamp)
| EventFailIntent (kind : ReplayJobIntentKind).

Definition admits (st : MemoryState) (now : timestamp) (call : Call) : bool :=
  match find_stored st (tenantId (call_scope call)) (call_job call) with
  | None => true
  | Some s =>
      match call with
      | ClaimCall c _ => negb (includes
          ((fun a => fence_leaseId (attempt_mutationFence a)) <$> stored_attempts s) (claimc_leaseId c))
      | AcknowledgeCall c =>
          match last (stored_cancellationAcknowledgements s) with
          | None => true
          | Some p => (ack_acknowledgedAt p <? now) ||
              ((ack_acknowledgedAt p =? now) &&
               string_lt (ack_acknowledgementId p) (ackc_acknowledgementId c))
          end
      | CompleteCall c =>
          (completec_status c !== cancelled) || defined (stored_cancellationRequest s)
      | _ => true
      end
  end.

Definition system_exec (s : System) (e : Event) : option System :=
  match e with
  | EventLookup definitions request =>
      match lookup definitions request (sys_memory s) with
      | (Ok call, mem) => Some {| sys_memory := mem; sys_clock := sys_clock s;
                                  sys_pending := sys_pending s ++ [call] |}
      | (Throw _, _) => None
      end
  | EventCommit index now =>
      match sys_pending s !! index with
      | Some call =>
          if (sys_clock s <=? now) && admits (sys_memory s) now call then
            Some {| sys_memory := snd (run call now (sys_memory s)); sys_clock := now;
                    sys_pending := take index (sys_pending s) ++ drop (S index) (sys_pending s) |}
          else None
      | None => None
      end
  | EventFailIntent kind =>
      Some {| sys_memory := snd (failNextIntent kind (sys_memory s)); sys_clock := sys_clock s;
              sys_pending := sys_pending s |}
  end.

Lemma admits_spec st now call : admits st now call = true <-> admissible st now call.
Proof.
  unfold admits, admissible. destruct (find_stored _ _ _) as [s|].
  2: { split; [|done]. intros _ s [=]. }
  assert (Hone : forall P : StoredReplayJob -> Prop, (forall s', Some s = Some s' -> P s') <-> P s)
    by (intros P; split; [intros H; by apply H|by intros ? s' [= <-]]).
  rewrite (Hone (fun s => match call with ClaimCall _ _ => _ | AcknowledgeCall _ => _ | CompleteCall _ => _ | _ => _ end)).
  destruct call as [| | | |c| | | | |c]; try done.
  - rewrite negb_true_iff. apply includes_false.
  - destruct (last _) as [p|]; [|split; [intros _ ? [=]|done]].
    rewrite orb_true_iff, andb_true_iff, Z.ltb_lt, Z.eqb_eq. split; [by intros ? ? [= <-]|auto].
  - rewrite orb_true_iff, negb_true_iff, bool_decide_eq_false, defined_true. split.
    + intros [?|[q ->]] ?; [done|discriminate].
    + intros H. destruct (decide (completec_status c = cancelled)) as [Hc|]; [right|by left].
      destruct (stored_cancellationRequest s); [eauto|by destruct (H Hc)].
Qed.

Lemma system_exec_step s e s' : system_exec s e = Some s' -> system_step s s'.
Proof.
  destruct e as [defs req|i now|kind]; simpl.
  - destruct (lookup _ _ _) as [[call|] mem] eqn:Hl; [|discriminate]. intros [= <-].
    by eapply step_lookup.
  - destruct (sys_pending s !! i) as [call|] eqn:Hi; [|discriminate].
    destruct (_ && _) eqn:Hb; [|discriminate]. intros [= <-].
    apply andb_true_iff in Hb as [Hle%Z.leb_le Ha%admits_spec].
    eapply step_commit; [by symmetry; apply take_drop_middle|done|done|apply surjective_pairing].
  - intros [= <-]. by apply (step_fail_intent _ kind).
Qed.

Fixpoint system_run (s : System) (events : list Event) : option System :=
  match events with
  | [] => Some s
  | e :: rest => s' ← system_exec s e; system_run s' rest
  end.

Lemma system_run_steps events s s' : system_run s events = Some s' -> rtc system_step s s'.
Proof.
  revert s. induction events as [|e rest IH]; intros s; simpl; [by intros [= ->]|].
  intros (s1 & He & Hr)%bind_Some. eapply rtc_l; [by eapply system_exec_step|by apply IH].
Qed.

(** ** The publication queue *)

Lemma map_values_elem {A} (m : gmap string A) v :
  v ∈ (map_to_list m).*2 <-> exists k, m !! k = Some v.
Proof.
  rewrite list_elem_of_fmap. split.
  - intros ([k x] & -> & H%elem_of_map_to_list). eauto.
  - intros [k H%elem_of_map_to_list]. by exists (k, v).
Qed.

Lemma map_values_NoDup {A} (m : gmap string A) :
  (forall k k' v, m !! k = Some v -> m !! k' = Some v -> k = k') -> NoDup (map_to_list m).*2.
Proof.
  intros Hi. apply NoDup_fmap_2_strong; [|apply NoDup_map_to_list].
  intros [k v] [k' v'] H%elem_of_map_to_list H'%elem_of_map_to_list. simpl. intros <-.
  by rewrite (Hi k k' v).
Qed.

Lemma expected_intents_key job request k i :
  expected_intents job request !! k = Some i -> k = intentKey i /\ intent_aggregateId i = job_jobId job.
Proof.
  assert (Hc : forall k i, ({[ intentKey (created_intent job) := created_intent job ]}
      : gmap string ReplayJobOutboxIntent) !! k = Some i ->
      k = intentKey i /\ intent_aggregateId i = job_jobId job)
    by (intros k' i' [<- <-]%lookup_singleton_Some; done).
  unfold expected_intents. destruct (job_terminal job), request; cbn zeta;
    rewrite ?lookup_insert_Some; naive_solver.
Qed.

#[export] Instance key_before_total : Total key_before.
Proof.
  intros x y. unfold key_before. destruct (string_lt (intentKey y) (intentKey x)) eqn:H; [|by left].
  right. by apply string_lt_asym.
Qed.

Lemma stored_intent clock st tenant jobId s k i :
  memory_valid clock st -> find_stored st tenant jobId = Some s -> stored_intents s !! k = Some i ->
  k = intentKey i /\ intent_aggregateId i = jobId.
Proof.
  intros Hm Hf. destruct (Hm _ _ _ Hf). rewrite st_intents. intros [-> ->]%expected_intents_key. done.
Qed.

Lemma published_spec clock st tenant :
  memory_valid clock st -> exists l, publishedIntents tenant st = (Ok l, st) /\
    Sorted key_before l /\ NoDup l /\
    forall i, i ∈ l <-> exists jobId s k, find_stored st tenant jobId = Some s /\
      stored_intents s !! k = Some i.
Proof.
  intros Hm. eexists. split; [reflexivity|]. split; [apply Sorted_merge_sort, key_before_total|].
  setoid_rewrite merge_sort_Permutation.
  assert (Hfind : forall jobId, find_stored st tenant jobId = (jobs st !! tenant) ≫= (.!! jobId)) by done.
  destruct (jobs st !! tenant) as [m|]; simpl in Hfind.
  2: { split; [apply NoDup_nil_2|]. intros i. split; [by intros ?%elem_of_nil|].
       intros (j & s & k & H & _). by rewrite Hfind in H. }
  split.
  - apply NoDup_bind.
    + intros x y i [j Hj]%map_values_elem [j' Hj']%map_values_elem
        [k Hk]%map_values_elem [k' Hk']%map_values_elem.
      rewrite <- Hfind in Hj, Hj'. destruct (stored_intent _ _ _ _ _ _ _ Hm Hj Hk) as [_ <-].
      destruct (stored_intent _ _ _ _ _ _ _ Hm Hj' Hk') as [_ <-]. congruence.
    + intros x [j Hj]%map_values_elem. apply map_values_NoDup. intros k k' v Hk Hk'.
      rewrite <- Hfind in Hj. destruct (stored_intent _ _ _ _ _ _ _ Hm Hj Hk) as [-> _].
      by destruct (stored_intent _ _ _ _ _ _ _ Hm Hj Hk') as [-> _].
    + apply map_values_NoDup. intros j j' s Hj Hj'. rewrite <- Hfind in Hj, Hj'.
      destruct (Hm _ _ _ Hj), (Hm _ _ _ Hj'). congruence.
  - intros i. rewrite list_elem_of_bind. split.
    + intros (s & [k Hk]%map_values_elem & [j Hj]%map_values_elem). exists j, s, k.
      by rewrite Hfind.
    + intros (j & s & k & Hj & Hk). rewrite Hfind in Hj.
      exists s. split; apply map_values_elem; eauto.
Qed.

(** ** History *)

Lemma run_extends clock st call now r st' tenant jobId x :
  memory_valid clock st -> clock <= now -> admissible st now call ->
  run call now st = (r, st') -> find_stored st tenant jobId = Some x ->
  exists x', find_stored st' tenant jobId = Some x' /\ extends x x'.
Proof.
  intros Hm Hle Ha H Hx. destruct r as [snap|e].
  - destruct (run_outcome _ _ _ _ _ _ Hm Hle Ha H)
      as [(s & _ & -> & _)|(next & -> & _ & _ & _ & Hext)]; [by exists x|].
    rewrite find_store. case_decide as Hd; [|by exists x].
    destruct Hd as [-> ->]. exists next. split; [done|by apply Hext].
  - rewrite (find_stored_jobs _ _ _ _ (run_atomic call now _ _ _ H)). by exists x.
Qed.

Lemma system_step_extends s s' tenant jobId x :
  system_valid s -> system_step s s' -> find_stored (sys_memory s) tenant jobId = Some x ->
  exists x', find_stored (sys_memory s') tenant jobId = Some x' /\ extends x x'.
Proof.
  intros [Hv _] Hstep Hx.
  destruct Hstep as [defs req call mem H|before call after now r mem Hpe Hle Ha H|kind mem H]; simpl.
  - rewrite (find_stored_jobs _ _ _ _ (lookup_reads defs req _ _ _ H)). by exists x.
  - by eapply run_extends.
  - injection H as <-. by exists x.
Qed.

Lemma reachable_extends s s' tenant jobId x :
  reachable s -> rtc system_step s s' -> find_stored (sys_memory s) tenant jobId = Some x ->
  exists x', find_stored (sys_memory s') tenant jobId = Some x' /\ extends x x'.
Proof.
  intros Hr%reachable_valid Hs. revert x. induction Hs as [s|a b c Hab _ IH]; intros x Hx.
  - exists x. split; [done|reflexivity].
  - destruct (system_step_extends _ _ _ _ _ Hr Hab Hx) as (y & Hy & Hxy).
    destruct (IH (system_step_valid _ _ Hab Hr) y Hy) as (z & Hz & Hyz).
    exists z. split; [done|by etrans].
Qed.

(** ** Properties *)

(** C1. Every stored job of every reachable state of the repository, however
    the lookups and commits of the calls it served interleaved, is a snapshot
    [ReplayJobSnapshotSchema] accepts, filed under its own tenant and identifier.
    The calls a state is reached by are those [admissible] describes, at instants
    that do not go back: a claim names a lease the job has not used, a job is
    completed as cancelled only after a cancellation was requested, and an
    acknowledgement follows the last one in the order of time and identifier.
    Outside them the code stores snapshots its schema rejects ([Witnesses]). *)
Theorem reachable_snapshots_valid s tenant jobId x :
  reachable s -> find_stored (sys_memory s) tenant jobId = Some x ->
  ReplayJobSnapshotSchema (snapshot x) = true /\
  tenantId (job_scope (stored_job x)) = tenant /\ job_jobId (stored_job x) = jobId.
Proof.
  intros [Hv _]%reachable_valid Hx. destruct (Hv _ _ _ Hx).
  split_and!; [by apply snapshot_schema_iff|done|done].
Qed.

(** A call that waited for its plan still commits against the plan of its
    job: in every reachable state the plan each pending call resolved is the
    one its job references, although other calls committed meanwhile. *)
Theorem pending_plans_current s call plan :
  reachable s -> call ∈ sys_pending s -> call_plan call = Some plan ->
  exists x, find_stored (sys_memory s) (tenantId (call_scope call)) (call_job call) = Some x /\
    job_scope (stored_job x) = call_scope call /\
    exactPlanReference (stored_job x) plan = true.
Proof.
  intros [_ Hp]%reachable_valid Hc Hpl. rewrite Forall_forall in Hp. by apply (Hp call).
Qed.

(** C6. The publication queue of a tenant is exact: it holds each intent of the
    state of each of its jobs (created, and where they apply cancellation
    requested and terminal) once, nothing else, in key order. *)
Theorem publication_exact s tenant :
  reachable s -> exists l, publishedIntents tenant (sys_memory s) = (Ok l, sys_memory s) /\
    Sorted key_before l /\ NoDup l /\
    forall i, i ∈ l <-> exists jobId x k, find_stored (sys_memory s) tenant jobId = Some x /\
      expected_intents (stored_job x) (stored_cancellationRequest x) !! k = Some i.
Proof.
  intros [Hv _]%reachable_valid. destruct (published_spec _ _ tenant Hv) as (l & Hl & Hs & Hn & Hi).
  exists l. split_and!; try done. intros i. rewrite Hi.
  split; intros (j & x & k & Hx & Hk); exists j, x, k; split; try done;
    destruct (Hv _ _ _ Hx); by rewrite st_intents in *.
Qed.

(** C3. History is append only: along every execution a stored job keeps its
    identity, its budget ledger, acknowledgements and observations only grow at
    the end, an attempt changes once, from running to ended, a cancellation
    request stays, a job that has ended never changes, and any other change of
    the job raises its state version. *)
Theorem history_append_only s s' tenant jobId x :
  reachable s -> rtc system_step s s' -> find_stored (sys_memory s) tenant jobId = Some x ->
  exists x', find_stored (sys_memory s') tenant jobId = Some x' /\ extends x x'.
Proof. apply reachable_extends. Qed.

(** A method that throws leaves every stored job as it was. *)
Theorem failed_call_changes_nothing call now st e st' :
  run call now st = (Throw e, st') -> jobs st' = jobs st.
Proof. apply run_atomic. Qed.

(** A call changes no job but the one it names, in no other tenant, and
    answers from the scope it was given. *)
Theorem call_isolation clock st call now r st' tenant jobId :
  memory_valid clock st -> clock <= now -> admissible st now call ->
  run call now st = (r, st') ->
  (tenant, jobId) <> (tenantId (call_scope call), call_job call) ->
  find_stored st' tenant jobId = find_stored st tenant jobId.
Proof.
  intros Hm Hle Ha H Hne. destruct r as [snap|e].
  - destruct (run_outcome _ _ _ _ _ _ Hm Hle Ha H) as [(s & _ & -> & _)|(next & -> & _)]; [done|].
    rewrite find_store, decide_False; [done|]. intros [-> ->]. done.
  - by rewrite (find_stored_jobs _ _ _ _ (run_atomic call now _ _ _ H)).
Qed.

(** * Worker fencing

    Seven methods of the repository mutate a job on behalf of a worker and
    carry its fence.  A call of one of them succeeds only while the job runs
    under the very lease the fence names; once a later claim has raised the
    fencing token, the superseded worker can never succeed again. *)

Definition call_fence (call : Call) : option ReplayWorkerMutationFence :=
  match call with
  | HeartbeatCall c => Some (heartbeatc_workerFence c)
  | AcknowledgeCall c => Some (ackc_workerFence c)
  | ReserveCall c _ => Some (reservec_workerFence c)
  | ReconcileCall c => Some (reconcilec_workerFence c)
  | ExecutionCall c _ => Some (executionc_workerFence c)
  | UsageCall c _ => Some (usagec_workerFence c)
  | CompleteCall c => Some (completec_workerFence c)
  | CreateCall _ | ClaimCall _ _ | CancelCall _ => None
  end.

(** The job runs under an unexpired lease whose fence is [fence]. *)
Definition holds_lease (job : ReplayJob) (fence : ReplayWorkerMutationFence) (now : timestamp) :
    Prop :=
  job_status job = running /\ exists lease, job_currentLease job = Some lease /\
    lease_mutationFence lease = fence /\ now < lease_expiresAt lease.

Lemma current_fence_holds job f now l : assertCurrentFence job f now = Ok l -> holds_lease job f now.
Proof.
  intros (Hs & Hl & _ & Hf & Hn)%assertCurrentFence_Ok. split; [done|]. exists l. split_and!; try done; lia.
Qed.

Lemma mutation_fence_holds job f now l :
  assertReplayWorkerMutationFence job f now = Ok l -> holds_lease job f now.
Proof. unfold assertReplayWorkerMutationFence. intros H. inv_res.
  rewrite canonicalTime_Ok in *. destruct_and!. subst. by eapply current_fence_holds.
Qed.

Lemma worker_call_holds_lease call f now st snap st' :
  call_fence call = Some f -> run call now st = (Ok snap, st') ->
  fence_jobId f = call_job call /\
  exists s, find_stored st (tenantId (call_scope call)) (call_job call) = Some s /\
    job_scope (stored_job s) = call_scope call /\ holds_lease (stored_job s) f now.
Proof.
  intros Hf H. destruct call; try discriminate; injection Hf as <-; split; try done;
    unfold run, heartbeatJob, acknowledgeCancellation, reserveBudget, reconcileBudget,
      appendExecutionObservation, appendUsageObservation, completeJob in H;
    inv_M; match goal with H : find_stored _ _ _ = Some ?x |- _ => exists x end;
    split; try done; split; try done.
  all: try (eapply mutation_fence_holds; done).
  - match goal with H : heartbeatReplayJob _ _ _ _ = Ok _ |- _ =>
      apply heartbeat_iff in H as (_ & _ & _ & _ & _ & l & Hs & [] & ? & ? & _) end.
    split; [done|]. exists l. split_and!; try done; lia.
  - destruct (stored_cancellationRequest _); inv_M.
    match goal with H : acknowledgeReplayCancellation _ _ _ _ _ _ = Ok _ |- _ =>
      apply acknowledge_success in H as (_ & _ & (l & Hl) & _) end.
    by eapply current_fence_holds.
Qed.

(** The token of a lease is the last one the job issued. *)
Lemma lease_token job lease :
  ReplayJobSchema job = true -> job_status job = running -> job_currentLease job = Some lease ->
  fence_fencingToken (lease_mutationFence lease) = job_lastFencingToken job.
Proof.
  intros Hv Hs Hl. destruct (valid_running _ Hv Hs) as [l []]. congruence.
Qed.

(** A worker mutation succeeds only while its fence is that of the job's
    current, unexpired lease: any other fence, an expired lease, or a job that
    is not running makes the call throw. *)
Theorem worker_call_needs_lease call f now st snap st' :
  call_fence call = Some f -> run call now st = (Ok snap, st') ->
  exists s, find_stored st (tenantId (call_scope call)) (call_job call) = Some s /\
    holds_lease (stored_job s) f now.
Proof.
  intros Hf H. destruct (worker_call_holds_lease _ _ _ _ _ _ Hf H) as (_ & s & Hs & _ & Hl). eauto.
Qed.

(** C2. A superseded worker is fenced off for good: once the job has issued a
    greater fencing token, in every later state of every interleaving a
    mutation that carries the older fence throws and changes nothing. *)
Theorem superseded_worker_fenced s s' x call f now :
  reachable s -> find_stored (sys_memory s) (tenantId (call_scope call)) (call_job call) = Some x ->
  call_fence call = Some f -> fence_fencingToken f < job_lastFencingToken (stored_job x) ->
  rtc system_step s s' ->
  exists e st', run call now (sys_memory s') = (Throw e, st') /\ jobs st' = jobs (sys_memory s').
Proof.
  intros Hr Hx Hf Hlt Hss. destruct (run call now (sys_memory s')) as [[snap|e] st'] eqn:H.
  2: { exists e, st'. split; [done|]. by eapply run_atomic. }
  exfalso. destruct (worker_call_holds_lease _ _ _ _ _ _ Hf H) as (_ & y & Hy & _ & Hrun & l & Hl & Hlf & _).
  destruct (reachable_extends _ _ _ _ _ Hr Hss Hx) as (z & Hz & Hext).
  assert (z = y) as -> by congruence.
  destruct Hr as [clock Hc]. assert (Hr' : reachable s') by (exists clock; by etrans).
  apply reachable_valid in Hr' as [Hv _]. destruct (Hv _ _ _ Hy). destruct st_snapshot.
  pose proof (lease_token _ _ sv_job Hrun Hl) as Ht. rewrite Hlf in Ht. destruct Hext. simpl in *. lia.
Qed.
