(* ===== verification/ReplayIdempotence.v ===== *)
(** * Command idempotence

    Each mutation but claims, heartbeats and completions carries the
    identifier of what it creates.  A client that repeats one, because the
    answer was lost, gets the answer again and changes nothing. *)

From S2P Require Import Prelude Errors Primitives ReplayPlan ReplayJob ReplayJobState.
From S2P Require Import ReplayJobStateProofs ReplayAccounting ReplayBudget ReplayJobSnapshot.
From S2P Require Import ReplayJobSnapshotProofs ReplayJobOutbox MemoryReplayJobRepository.
From S2P Require Import MemoryReplayJobProofs ReplayRepositorySystem.
From stdpp Require Import gmap.
#[local] Open Scope Z_scope.

(** ** Running a method forwards *)

Lemma M_bind_run {A B} (m : M A) (f : A -> M B) st a st1 :
  m st = (Ok a, st1) -> (m ≫= f) st = f a st1.
Proof. unfold mbind, M_bind. by intros ->. Qed.

Lemma requireJob_run st scope jobId s :
  find_stored st (tenantId scope) jobId = Some s -> job_scope (stored_job s) = scope ->
  requireJob scope jobId st = (Ok s, st).
Proof. intros. by apply requireJob_Ok. Qed.

Lemma parse_now_run now st : UtcMillisecondTimestampSchema now = true -> parse_now now st = (Ok now, st).
Proof. intros. unfold parse_now, lift. by rewrite parse_accepted. Qed.

Lemma lift_Ok_run {A} (r : res A) a st : r = Ok a -> lift r st = (Ok a, st).
Proof. by intros ->. Qed.

Ltac run_M :=
  match goal with |- (?m ≫= ?f) ?st = _ =>
    erewrite (M_bind_run m f st) by first
      [ eapply requireJob_run; eassumption
      | apply parse_now_run; assumption
      | apply lift_Ok_run; eassumption
      | apply lift_Ok_run, reject_known; eassumption ]
  end.

(** The fence check a worker mutation repeats. *)
Lemma holds_lease_fence job f now :
  ReplayJobSchema job = true -> UtcMillisecondTimestampSchema now = true -> holds_lease job f now ->
  exists l, assertCurrentFence job f now = Ok l /\ assertReplayWorkerMutationFence job f now = Ok l.
Proof.
  intros Hv Hn (Hs & l & Hl & Hf & Hlt). exists l.
  assert (Hc : assertCurrentFence job f now = Ok l).
  { apply assertCurrentFence_Ok. split_and!; try done.
    destruct (valid_running _ Hv Hs) as [l' []]. congruence. }
  split; [done|by apply asserted_fence].
Qed.

(** An intent the invariant promises is there. *)
Lemma requireIntent_run s expected i st :
  expected = Ok i -> stored_intents s !! intentKey i = Some i -> requireIntent s expected st = (Ok tt, st).
Proof.
  intros -> Hi. unfold requireIntent. rewrite (M_bind_run _ _ st i st) by done.
  apply lift_Ok_run, reject_known. rewrite Hi. breflect. done.
Qed.

Section expected.
Context (tenant jobId : string) (clock : timestamp) (s : StoredReplayJob).
Hypothesis Hs : stored_valid tenant jobId clock s.

Lemma created_intent_stored :
  stored_intents s !! intentKey (created_intent (stored_job s)) = Some (created_intent (stored_job s)).
Proof.
  destruct Hs. rewrite st_intents. unfold expected_intents.
  destruct (job_terminal _), (stored_cancellationRequest s); cbn zeta;
    rewrite ?lookup_insert_ne by (by apply intent_keys_distinct); apply lookup_singleton_eq.
Qed.

Lemma cancellation_intent_stored q :
  stored_cancellationRequest s = Some q ->
  stored_intents s !! intentKey (cancellation_intent (stored_job s) q) =
  Some (cancellation_intent (stored_job s) q).
Proof.
  destruct Hs. rewrite st_intents. unfold expected_intents. intros ->.
  destruct (job_terminal _); cbn zeta; [|apply lookup_insert_eq].
  rewrite lookup_insert_ne by (by apply intent_keys_distinct). apply lookup_insert_eq.
Qed.

Lemma terminal_intent_stored t :
  job_terminal (stored_job s) = Some t ->
  stored_intents s !! intentKey (terminal_intent (stored_job s) t) =
  Some (terminal_intent (stored_job s) t).
Proof.
  destruct Hs. rewrite st_intents. unfold expected_intents. intros ->. apply lookup_insert_eq.
Qed.

Lemma stored_job_valid : ReplayJobSchema (stored_job s) = true.
Proof. destruct Hs, st_snapshot. done. Qed.
End expected.

(** ** What a successful call leaves behind

    [answers call now s]: a job stored as [s] already answers the call. *)

Lemma createQueued_later o now job :
  createQueuedReplayJob o = Ok job -> UtcMillisecondTimestampSchema now = true ->
  exists job', createQueuedReplayJob {|
    queued_createdAt := now;
    queued_createdByPrincipalId := queued_createdByPrincipalId o;
    queued_request := queued_request o;
    queued_scope := queued_scope o |} = Ok job'.
Proof.
  unfold createQueuedReplayJob. intros H Hn. inv_res.
  match goal with H : CreateReplayJobRequestSchema _ = true |- _ => rename H into Hr end.
  eexists. simpl. rewrite (bind_known _ _ _ (parse_accepted _ _ Hr)).
  rewrite (bind_known _ _ now) by (by apply parse_accepted).
  apply parse_accepted. match goal with H : ReplayJobSchema _ = true |- _ => revert H end.
  unfold ReplayJobSchema; simpl. breflect. intros. destruct_and!. split_and!; done.
Qed.

Lemma create_answers c job clock st s now :
  find_stored st (tenantId (createc_scope c)) (createc_jobId c) = Some s ->
  stored_valid (tenantId (createc_scope c)) (createc_jobId c) clock s ->
  createQueuedReplayJob {|
    queued_createdAt := now;
    queued_createdByPrincipalId := createc_createdByPrincipalId c;
    queued_request := {| create_jobId := createc_jobId c; create_plan := createc_plan c |};
    queued_scope := createc_scope c |} = Ok job ->
  job_scope (stored_job s) = createc_scope c ->
  job_createdByPrincipalId (stored_job s) = createc_createdByPrincipalId c ->
  job_plan (stored_job s) = createc_plan c ->
  UtcMillisecondTimestampSchema now = true ->
  run (CreateCall c) now st = (Ok (snapshot s), st).
Proof.
  intros Hf Hv Hc Hsc Hp Hpl Hn. unfold run, createJob. rewrite (M_bind_run _ _ st {|
    result_created := false; result_snapshot := snapshot s |} st); [done|].
  run_M. run_M. rewrite (M_bind_run _ _ st (Some s) st) by (unfold peekJob; by rewrite Hf).
  rewrite (M_bind_run _ _ st tt st).
  2: { apply lift_Ok_run, reject_known. breflect. by rewrite Hsc. }
  rewrite (M_bind_run _ _ st tt st); [done|]. eapply requireIntent_run.
  - apply created_intent_Ok. split; [|done]. by eapply stored_job_valid.
  - by eapply created_intent_stored.
Qed.

(** A request as its input describes it. *)
Definition describes (input : RequestReplayCancellation) (q : ReplayCancellationRequest) : Prop :=
  RequestReplayCancellationSchema input = true /\
  cancellation_cancellationId q = request_cancellationId input /\
  cancellation_reasonCode q = request_reasonCode input /\
  cancellation_reason q = request_reason input.

Lemma request_described job o r :
  requestReplayCancellation job o = Ok r -> describes (cancel_input o) (cancel_request r).
Proof.
  unfold requestReplayCancellation. intros H. inv_res.
  match goal with H : match cancel_existing o with _ => _ end = _ |- _ =>
    destruct (cancel_existing o) as [e|] end; inv_res.
  - breflect. unfold describes. tauto.
  - match goal with H : (if ?b then _ else _) = _ |- _ => destruct b end; inv_res; done.
Qed.

Lemma request_again job q o :
  ReplayJobSchema job = true -> ReplayCancellationRequestSchema q = true ->
  UtcMillisecondTimestampSchema (cancel_now o) = true -> cancel_existing o = Some q ->
  cancellation_jobId q = job_jobId job -> cancellation_scope q = job_scope job ->
  describes (cancel_input o) q ->
  requestReplayCancellation job o =
    Ok {| cancel_created := false; cancel_job := job; cancel_request := q |}.
Proof.
  intros Hj Hq Hn He Hi Hs (Hin & H1 & H2 & H3). unfold requestReplayCancellation.
  rewrite (bind_known _ _ _ (parse_accepted _ _ Hj)), (bind_known _ _ _ (parse_accepted _ _ Hin)).
  rewrite (bind_known _ _ (cancel_now o)) by (by apply parse_accepted).
  rewrite He, (bind_known _ _ _ (parse_accepted _ _ Hq)), (bind_known _ _ tt); [done|].
  apply reject_known. breflect. by rewrite Hs.
Qed.

Lemma cancel_answers c q clock st s now :
  find_stored st (tenantId (cancelc_scope c)) (cancelc_jobId c) = Some s ->
  stored_valid (tenantId (cancelc_scope c)) (cancelc_jobId c) clock s ->
  job_scope (stored_job s) = cancelc_scope c ->
  stored_cancellationRequest s = Some q -> describes (cancelc_input c) q ->
  UtcMillisecondTimestampSchema now = true ->
  run (CancelCall c) now st = (Ok (snapshot s), st).
Proof.
  intros Hf Hv Hsc Hq Hd Hn. unfold run, requestCancellation. rewrite (M_bind_run _ _ st {|
    result_created := false; result_snapshot := snapshot s |} st); [done|].
  run_M. rewrite Hq, andb_false_r. run_M.
  pose proof (stored_job_valid _ _ _ _ Hv) as Hj. pose proof Hv as [[] _ _ _ _ _].
  simpl in *. rewrite Hq in *. destruct sv_cancellation.
  simpl in sv_request_record.
  rewrite (M_bind_run _ _ st {| cancel_created := false; cancel_job := stored_job s;
    cancel_request := q |} st) by (apply lift_Ok_run, request_again; done).
  cbn [cancel_created negb cancel_request]. rewrite (M_bind_run _ _ st tt st).
  2: { eapply requireIntent_run; [|by eapply cancellation_intent_stored].
       by apply cancellation_intent_Ok. }
  rewrite (M_bind_run _ _ st tt st); [done|].
  destruct (job_terminal (stored_job s)) as [t|] eqn:Ht; [|done].
  eapply requireIntent_run; [|by eapply terminal_intent_stored]. apply terminal_intent_Ok. eauto.
Qed.

(** The record that answers a repeated command. *)
Definition acknowledged_as (c : AcknowledgeDurableReplayCancellationCommand) (s : StoredReplayJob)
    (q : ReplayCancellationRequest) : Prop :=
  OpaqueIdSchema (ackc_acknowledgementId c) = true /\
  ReplayWorkerMutationFenceSchema (ackc_workerFence c) = true /\
  exists a, List.find (fun a => ack_acknowledgementId a === ackc_acknowledgementId c)
      (stored_cancellationAcknowledgements s) = Some a /\
    ack_action a = ackc_action c /\ ack_cancellationId a = cancellation_cancellationId q /\
    ack_mutationFence a = ackc_workerFence c /\ ack_scope a = job_scope (stored_job s).

Lemma acknowledge_again job q f id action now l :
  ReplayJobSchema job = true -> ReplayCancellationRequestSchema q = true ->
  UtcMillisecondTimestampSchema now = true -> assertCurrentFence job f now = Ok l ->
  cancellation_jobId q = job_jobId job -> cancellation_scope q = job_scope job ->
  cancellation_requestedAt q <= now -> OpaqueIdSchema id = true ->
  ReplayWorkerMutationFenceSchema f = true ->
  acknowledgeReplayCancellation job q f id action now = Ok {|
    ack_acknowledgedAt := now; ack_acknowledgementId := id; ack_action := action;
    ack_cancellationId := cancellation_cancellationId q; ack_mutationFence := f;
    ack_scope := job_scope job |}.
Proof.
  intros Hj Hq Hn Hf Hi Hs Ht Hid Hfs. unfold acknowledgeReplayCancellation.
  rewrite (bind_known _ _ _ (parse_accepted _ _ Hj)), (bind_known _ _ _ (parse_accepted _ _ Hq)).
  rewrite (bind_known _ _ now) by (by apply parse_accepted). rewrite (bind_known _ _ _ Hf).
  rewrite (bind_known _ _ tt) by (apply reject_known; breflect; split_and!; [done|done|lia]).
  apply parse_accepted. unfold ReplayCancellationAcknowledgementSchema; simpl.
  unfold ReplayCancellationRequestSchema in Hq. unfold ReplayJobSchema in Hj.
  breflect. destruct_and!. split_and!; done.
Qed.

Lemma acknowledge_answers c q clock st s now :
  find_stored st (tenantId (ackc_scope c)) (fence_jobId (ackc_workerFence c)) = Some s ->
  stored_valid (tenantId (ackc_scope c)) (fence_jobId (ackc_workerFence c)) clock s ->
  job_scope (stored_job s) = ackc_scope c ->
  stored_cancellationRequest s = Some q -> acknowledged_as c s q ->
  cancellation_requestedAt q <= now -> holds_lease (stored_job s) (ackc_workerFence c) now ->
  UtcMillisecondTimestampSchema now = true ->
  run (AcknowledgeCall c) now st = (Ok (snapshot s), st).
Proof.
  intros Hf Hv Hsc Hq (Hid & Hfs & a & Ha & Hac & Hci & Hmf & Has) Ht Hl Hn.
  pose proof (stored_job_valid _ _ _ _ Hv) as Hj.
  destruct (holds_lease_fence _ _ _ Hj Hn Hl) as (l & Hcf & _).
  pose proof Hv as [[] _ _ _ _ _]. simpl in *. unfold acknowledgeCancellation.
  run_M. rewrite Hq in *. destruct sv_cancellation. simpl in sv_request_record.
  run_M. erewrite M_bind_run by (apply lift_Ok_run; by eapply acknowledge_again).
  rewrite Ha. rewrite (M_bind_run _ _ st tt st); [done|].
  apply lift_Ok_run, reject_known. simpl. breflect. done.
Qed.

Definition reserved_as (c : ReserveDurableReplayBudgetCommand) (s : StoredReplayJob) : Prop :=
  exists r, find_reservation (reservations_of (stored_budgetLedger s)) (reservec_reservationId c) = Some r /\
    reservation_mutationFence r = reservec_workerFence c /\ reservation_work r = reservec_work c /\
    mapDimensions (fun d => rd_reservedAmount (on (reservation_dimensions r) d)) = reservec_requested c.

Lemma reserve_answers c plan clock st s now :
  find_stored st (tenantId (reservec_scope c)) (fence_jobId (reservec_workerFence c)) = Some s ->
  stored_valid (tenantId (reservec_scope c)) (fence_jobId (reservec_workerFence c)) clock s ->
  job_scope (stored_job s) = reservec_scope c -> reserved_as c s ->
  holds_lease (stored_job s) (reservec_workerFence c) now ->
  UtcMillisecondTimestampSchema now = true ->
  run (ReserveCall c plan) now st = (Ok (snapshot s), st).
Proof.
  intros Hf Hv Hsc (r & Hr & Hrf & Hrw & Hra) Hl Hn.
  destruct (holds_lease_fence _ _ _ (stored_job_valid _ _ _ _ Hv) Hn Hl) as (l & _ & Hfl).
  simpl. unfold reserveBudget. run_M. run_M. run_M. rewrite Hr. cbv zeta.
  rewrite (M_bind_run _ _ st tt st); [done|].
  apply lift_Ok_run, reject_known. breflect. done.
Qed.

(** The reconciliation a repeated command finds, and the candidate it builds. *)
Definition reconciled_as (c : ReconcileDurableReplayBudgetCommand) (s : StoredReplayJob) : Prop :=
  (forall d, ReplayUsageMeasurementSchema (on (reconcilec_usage c) d) = true) /\
  OpaqueIdSchema (reconcilec_reconciliationId c) = true /\
  exists r k, find_reservation (reservations_of (stored_budgetLedger s)) (reconcilec_reservationId c) = Some r /\
    ReplayBudgetReservationSchema r = true /\
    reservation_mutationFence r = reconcilec_workerFence c /\
    List.find (fun x => reconciliation_reconciliationId x === reconcilec_reconciliationId c)
      (reconciliations_of (stored_budgetLedger s)) = Some k /\
    reconciliation_reservationId k = reconcilec_reservationId c /\
    reconciliation_mutationFence k = reconcilec_workerFence c /\
    reconciliation_dimensions k = mapDimensions (fun d =>
      reconcile_dimension (rd_reservedAmount (on (reservation_dimensions r) d))
        (on (reconcilec_usage c) d)).

Lemma reconcile_answers c clock st s now :
  find_stored st (tenantId (reconcilec_scope c)) (fence_jobId (reconcilec_workerFence c)) = Some s ->
  stored_valid (tenantId (reconcilec_scope c)) (fence_jobId (reconcilec_workerFence c)) clock s ->
  job_scope (stored_job s) = reconcilec_scope c -> reconciled_as c s ->
  holds_lease (stored_job s) (reconcilec_workerFence c) now ->
  Z.of_nat (length (stored_budgetLedger s)) <= MAX_SAFE_INTEGER ->
  UtcMillisecondTimestampSchema now = true ->
  run (ReconcileCall c) now st = (Ok (snapshot s), st).
Proof.
  intros Hf Hv Hsc (Hu & Hid & r & k & Hr & Hrv & Hrf & Hk & Hkr & Hkf & Hkd) Hl Hlen Hn.
  destruct (holds_lease_fence _ _ _ (stored_job_valid _ _ _ _ Hv) Hn Hl) as (l & _ & Hfl).
  simpl. unfold reconcileBudget. run_M. run_M. run_M. rewrite Hr.
  rewrite (M_bind_run _ _ st tt st) by (apply lift_Ok_run, reject_known; breflect; done).
  erewrite M_bind_run.
  2: { apply lift_Ok_run, reconcile_iff. simpl. apply UtcMillisecondTimestampSchema_spec in Hn.
       split_and!; done || lia. }
  cbv zeta. rewrite Hk. rewrite (M_bind_run _ _ st tt st); [done|].
  apply find_reservation_Some in Hr as [_ Hri]. apply find_Some_key in Hk as [_ Hki].
  apply lift_Ok_run, reject_known. simpl. breflect. split_and!; congruence.
Qed.

(** The observation that answers a repeated command. *)
Definition observed_as (o : AnyObservation) (s : StoredReplayJob) : Prop :=
  exists e, List.find (fun x => observation_observationId (any_observation x) ===
      observation_observationId (any_observation o)) (all_observations s) = Some e /\
    same_comparable e o = true.

Lemma append_answers s o st : observed_as o s -> appendObservation s o st = (Ok (snapshot s), st).
Proof.
  intros (e & He & Hs). unfold appendObservation. rewrite He. by rewrite Hs.
Qed.

(** The observation a command builds; [sequence] and [now] are not compared. *)
Definition execution_of (c : AppendReplayExecutionObservationCommand) (sequence : Z)
    (now : timestamp) : ReplayExecutionObservation := {|
  execution_mutationFence := executionc_workerFence c;
  execution_observationId := executionc_observationId c;
  execution_observationSequence := sequence;
  execution_observedAt := now;
  execution_payload := executionc_payload c;
  execution_scope := executionc_scope c |}.

Definition usage_of (c : AppendReplayUsageObservationCommand) (sequence : Z) (now : timestamp) :
    ReplayUsageObservation := {|
  usage_boundaryId := usagec_boundaryId c;
  usage_measurements := usagec_measurements c;
  usage_mutationFence := usagec_workerFence c;
  usage_observationId := usagec_observationId c;
  usage_observationSequence := sequence;
  usage_observedAt := now;
  usage_scope := usagec_scope c;
  usage_sourceEventSha256 := usagec_sourceEventSha256 c |}.

Lemma observed_execution c s q n q' n' :
  observed_as (AnyExecution (execution_of c q n)) s -> observed_as (AnyExecution (execution_of c q' n')) s.
Proof. by intros ([e|e] & He & Hs); [exists (AnyExecution e)|exists (AnyUsage e)]. Qed.

Lemma observed_usage c s q n q' n' :
  observed_as (AnyUsage (usage_of c q n)) s -> observed_as (AnyUsage (usage_of c q' n')) s.
Proof. by intros ([e|e] & He & Hs); [exists (AnyExecution e)|exists (AnyUsage e)]. Qed.

Lemma execution_answers c plan clock st s q n now :
  find_stored st (tenantId (executionc_scope c)) (fence_jobId (executionc_workerFence c)) = Some s ->
  stored_valid (tenantId (executionc_scope c)) (fence_jobId (executionc_workerFence c)) clock s ->
  job_scope (stored_job s) = executionc_scope c ->
  payload_boundary_ok plan (executionc_payload c) = true ->
  payload_cancellation_ok (stored_cancellationRequest s) (executionc_payload c) = true ->
  ReplayExecutionObservationSchema (execution_of c q n) = true ->
  observed_as (AnyExecution (execution_of c q n)) s ->
  holds_lease (stored_job s) (executionc_workerFence c) now ->
  next_observation_sequence s <= MAX_SAFE_INTEGER ->
  UtcMillisecondTimestampSchema now = true ->
  run (ExecutionCall c plan) now st = (Ok (snapshot s), st).
Proof.
  intros Hf Hv Hsc Hb Hp Hsch Ho Hl Hq Hn.
  destruct (holds_lease_fence _ _ _ (stored_job_valid _ _ _ _ Hv) Hn Hl) as (l & _ & Hfl).
  simpl. unfold appendExecutionObservation. run_M. run_M. run_M.
  rewrite Hb, Hp. rewrite (M_bind_run _ _ st tt st) by done. rewrite (M_bind_run _ _ st tt st) by done.
  rewrite (M_bind_run _ _ st (execution_of c (next_observation_sequence s) now) st).
  2: { apply lift_Ok_run, parse_accepted. revert Hsch.
       unfold ReplayExecutionObservationSchema; simpl. breflect. intros. destruct_and!. split_and!; try done.
       unfold next_observation_sequence. lia. }
  by apply append_answers, (observed_execution _ _ q n).
Qed.

Lemma usage_answers c plan clock st s q n now :
  find_stored st (tenantId (usagec_scope c)) (fence_jobId (usagec_workerFence c)) = Some s ->
  stored_valid (tenantId (usagec_scope c)) (fence_jobId (usagec_workerFence c)) clock s ->
  job_scope (stored_job s) = usagec_scope c ->
  (forall b, usagec_boundaryId c = Some b ->
     existsb (fun x => boundary_boundaryId x === b) (plan_boundaries plan) = true) ->
  ReplayUsageObservationSchema (usage_of c q n) = true ->
  observed_as (AnyUsage (usage_of c q n)) s ->
  holds_lease (stored_job s) (usagec_workerFence c) now ->
  next_observation_sequence s <= MAX_SAFE_INTEGER ->
  UtcMillisecondTimestampSchema now = true ->
  run (UsageCall c plan) now st = (Ok (snapshot s), st).
Proof.
  intros Hf Hv Hsc Hb Hsch Ho Hl Hq Hn.
  destruct (holds_lease_fence _ _ _ (stored_job_valid _ _ _ _ Hv) Hn Hl) as (l & _ & Hfl).
  simpl. unfold appendUsageObservation. run_M. run_M. run_M.
  rewrite (M_bind_run _ _ st tt st).
  2: { apply lift_Ok_run, reject_known. destruct (usagec_boundaryId c); [|done]. by rewrite Hb. }
  rewrite (M_bind_run _ _ st (usage_of c (next_observation_sequence s) now) st).
  2: { apply lift_Ok_run, parse_accepted. revert Hsch.
       unfold ReplayUsageObservationSchema; simpl. breflect. intros. destruct_and!. split_and!; try done.
       unfold next_observation_sequence. lia. }
  by apply append_answers, (observed_usage _ _ q n).
Qed.

(** ** Repeating a call *)

Definition retryable (call : Call) : bool :=
  match call with
  | ClaimCall _ _ | HeartbeatCall _ | CompleteCall _ => false
  | _ => true
  end.

(** What a stored job that answers a call made at [now] records about it. *)
Definition records (call : Call) (now : timestamp) (s : StoredReplayJob) : Prop :=
  match call with
  | CreateCall c =>
      job_createdByPrincipalId (stored_job s) = createc_createdByPrincipalId c /\
      job_plan (stored_job s) = createc_plan c /\
      exists job, createQueuedReplayJob {|
        queued_createdAt := now;
        queued_createdByPrincipalId := createc_createdByPrincipalId c;
        queued_request := {| create_jobId := createc_jobId c; create_plan := createc_plan c |};
        queued_scope := createc_scope c |} = Ok job
  | CancelCall c =>
      (stored_cancellationRequest s = None /\ defined (job_terminal (stored_job s)) = true) \/
      exists q, stored_cancellationRequest s = Some q /\ describes (cancelc_input c) q
  | AcknowledgeCall c => exists q, stored_cancellationRequest s = Some q /\
      acknowledged_as c s q /\ cancellation_requestedAt q <= now
  | ReserveCall c _ => reserved_as c s
  | ReconcileCall c => reconciled_as c s
  | ExecutionCall c plan =>
      payload_boundary_ok plan (executionc_payload c) = true /\
      payload_cancellation_ok (stored_cancellationRequest s) (executionc_payload c) = true /\
      exists q n, ReplayExecutionObservationSchema (execution_of c q n) = true /\
        observed_as (AnyExecution (execution_of c q n)) s
  | UsageCall c plan =>
      (forall b, usagec_boundaryId c = Some b ->
         existsb (fun x => boundary_boundaryId x === b) (plan_boundaries plan) = true) /\
      exists q n, ReplayUsageObservationSchema (usage_of c q n) = true /\
        observed_as (AnyUsage (usage_of c q n)) s
  | _ => False
  end.

(** The next position of the log a call would extend is still a safe integer. *)
Definition has_room (call : Call) (s : StoredReplayJob) : Prop :=
  match call with
  | ReconcileCall _ => Z.of_nat (length (stored_budgetLedger s)) <= MAX_SAFE_INTEGER
  | ExecutionCall _ _ | UsageCall _ _ => next_observation_sequence s <= MAX_SAFE_INTEGER
  | _ => True
  end.

Lemma records_answers call clock now now' st s :
  memory_valid clock st -> find_stored st (tenantId (call_scope call)) (call_job call) = Some s ->
  job_scope (stored_job s) = call_scope call -> records call now s -> has_room call s ->
  (forall f, call_fence call = Some f -> holds_lease (stored_job s) f now') ->
  now <= now' -> UtcMillisecondTimestampSchema now' = true ->
  run call now' st = (Ok (snapshot s), st).
Proof.
  intros Hm Hf Hsc Hr Hroom Hl Hle Hn. pose proof (Hm _ _ _ Hf) as Hv.
  destruct call; simpl in *; try done.
  - destruct Hr as (Hp & Hpl & job & Hj). destruct (createQueued_later _ _ _ Hj Hn) as [job' Hj'].
    by eapply create_answers.
  - destruct Hr as [[Hq Ht]|(q & Hq & Hd)]; [|by eapply cancel_answers].
    unfold requestCancellation. rewrite (M_bind_run _ _ st {|
      result_created := false; result_snapshot := snapshot s |} st); [done|].
    run_M. by rewrite Hq, Ht.
  - destruct Hr as (q & Hq & Ha & Ht). eapply acknowledge_answers; try done; [lia|auto].
  - eapply reserve_answers; try done. auto.
  - eapply reconcile_answers; try done. auto.
  - destruct Hr as (Hb & Hp & q & n & Hs & Ho). eapply execution_answers; try done. auto.
  - destruct Hr as (Hb & q & n & Hs & Ho). eapply usage_answers; try done. auto.
Qed.

(** ** A successful call is recorded *)

Definition recorded (call : Call) (now : timestamp) (snap : ReplayJobSnapshot) (st' : MemoryState) :
    Prop :=
  exists s', find_stored st' (tenantId (call_scope call)) (call_job call) = Some s' /\
    snap = snapshot s' /\ job_scope (stored_job s') = call_scope call /\ records call now s'.

Lemma find_stored_same st tenant jobId s : find_stored (store st tenant jobId s) tenant jobId = Some s.
Proof. by rewrite find_store, decide_True. Qed.

Lemma find_last {A} (p : A -> bool) l x :
  List.find p l = None -> p x = true -> List.find p (l ++ [x]) = Some x.
Proof. intros Hn Hx. rewrite find_app_key, Hn. simpl. by rewrite Hx. Qed.

Ltac found_store := match goal with H : find_stored _ _ _ = Some ?x |- _ => rename H into Hf; rename x into s end.

Lemma create_recorded c now st snap st' :
  run (CreateCall c) now st = (Ok snap, st') -> recorded (CreateCall c) now snap st'.
Proof.
  intros H. unfold run, createJob in H. inv_M.
  match goal with H : createQueuedReplayJob _ = Ok ?j |- _ => rename H into Hq; rename j into job end.
  pose proof (createQueued_facts _ _ Hq) as (_ & _ & _ & _ & _ & _ & Hs & _ & Hp & Hb). simpl in *.
  destruct (find_stored _ _ _) as [s|] eqn:Hf.
  - unfold requireIntent in *. inv_M. subst. exists s. breflect. destruct_and!.
    unfold records. split_and!; eauto.
  - inv_M. subst. eexists. split; [apply find_stored_same|]. split; [done|]. split; [done|].
    split_and!; eauto.
Qed.

Lemma cancel_recorded c now st snap st' :
  run (CancelCall c) now st = (Ok snap, st') -> recorded (CancelCall c) now snap st'.
Proof.
  intros H. unfold run, requestCancellation in H. inv_M. found_store.
  match goal with H : (if ?b then _ else _) _ = _ |- _ => destruct b eqn:Hb; inv_M end.
  { exists s. apply andb_true_iff in Hb as [Ht Hq%negb_true_iff%defined_false].
    split_and!; try done. by left. }
  match goal with H : requestReplayCancellation _ _ = Ok ?x |- _ => rename H into Hc; rename x into r end.
  pose proof (request_described _ _ _ Hc) as Hd. simpl in Hd.
  destruct (cancel_created r) eqn:Hcr; simpl in *; inv_M.
  - destruct (cancel_created_facts _ _ _ _ Hc Hcr Hb) as (Hq & Ht & Hroot).
    match goal with H : (if _ then _ else _) _ = (Ok ?n, _) |- _ =>
      assert (Hn : stored_cancellationRequest n = Some (cancel_request r) /\ stored_job n = cancel_job r)
        by (case_match; inv_M; by subst) end.
    destruct Hn as [Hn Hj]. eexists. split; [apply find_stored_same|]. split_and!; [done| |right; eauto].
    rewrite Hj. destruct Hroot as (_ & -> & _). done.
  - unfold requireIntent in *. inv_M. match goal with H : (if _ then _ else _) _ = (Ok _, ?s2) |- _ =>
      assert (s2 = st) as -> by (case_match; inv_M; by subst) end.
    exists s. split_and!; try done. right. exists (cancel_request r). split; [|done].
    apply cancel_success in Hc as (_ & _ & _ & _ & _ & [(_ & _ & ?)|[(? & _)|(? & _)]]); simpl in *; congruence.
Qed.

Lemma acknowledge_recorded clock c now st snap st' :
  memory_valid clock st ->
  run (AcknowledgeCall c) now st = (Ok snap, st') -> recorded (AcknowledgeCall c) now snap st'.
Proof.
  intros Hm H. unfold run, acknowledgeCancellation in H. inv_M. found_store.
  destruct (stored_cancellationRequest s) as [q|] eqn:Hq; [|inv_M; done]. inv_M.
  match goal with H : acknowledgeReplayCancellation _ _ _ _ _ _ = Ok _ |- _ =>
    apply acknowledge_success in H as (Hv & Hreq & _ & _ & ->) end.
  assert (Hid : OpaqueIdSchema (ackc_acknowledgementId c) = true /\
    ReplayWorkerMutationFenceSchema (ackc_workerFence c) = true)
    by (unfold ReplayCancellationAcknowledgementSchema in Hv; simpl in Hv; breflect; tauto).
  destruct Hid as [Hid Hfs].
  destruct (List.find _ _) as [e|] eqn:He; inv_M.
  - exists s. split_and!; try done. exists q. split; [done|]. split; [|done].
    split; [done|]. split; [done|]. exists e. breflect. destruct_and!. done.
  - match goal with H : job_scope _ = _ |- _ => rename H into Hsc end.
    destruct (Hm _ _ _ Hf). rewrite st_jobId. eexists. split; [apply find_stored_same|]. split_and!; [done|done|]. exists q. split; [done|]. split; [|done].
    split; [done|]. split; [done|]. eexists. split.
    { apply find_last; [done|by apply bool_decide_eq_true]. }
    by split_and!.
Qed.

Lemma reserve_recorded clock c plan now st snap st' :
  memory_valid clock st ->
  run (ReserveCall c plan) now st = (Ok snap, st') -> recorded (ReserveCall c plan) now snap st'.
Proof.
  intros Hm H. unfold run, reserveBudget in H. inv_M. found_store.
  destruct (find_reservation _ _) as [e|] eqn:He; inv_M.
  - exists s. split_and!; try done. exists e. breflect. destruct_and!. done.
  - match goal with H : reserveReplayBudget _ = Ok _ |- _ => apply reserve_iff in H as (_ & _ & _ & ->) end.
    match goal with H : job_scope _ = _ |- _ => rename H into Hsc end.
    destruct (Hm _ _ _ Hf). rewrite st_jobId. eexists. split; [apply find_stored_same|].
    split_and!; [done|done|]. eexists. split.
    { simpl. rewrite reservations_of_snoc. apply find_last; [done|by apply bool_decide_eq_true]. }
    split; [done|]. split; [done|]. apply perDimension_ext. intros d.
    rewrite on_mapDimensions. simpl. by rewrite on_mapDimensions.
Qed.

Lemma reconcile_recorded clock c now st snap st' :
  memory_valid clock st ->
  run (ReconcileCall c) now st = (Ok snap, st') -> recorded (ReconcileCall c) now snap st'.
Proof.
  intros Hm H. unfold run, reconcileBudget in H. inv_M. found_store.
  destruct (find_reservation _ _) as [r|] eqn:Hr; inv_M.
  match goal with H : reconcileReplayBudget _ _ = Ok _ |- _ =>
    apply reconcile_iff in H as (Hv & Hu & _ & _ & Hid & ->) end. simpl in *.
  match goal with H : match ?o with _ => _ end _ = _ |- _ => destruct o as [e|] eqn:He end; inv_M.
  - assert (Hk : List.find (fun c' => reconciliation_reconciliationId c' === reconcilec_reconciliationId c)
        (reconciliations_of (stored_budgetLedger s)) = Some e).
    { destruct (List.find _ _) as [k|] eqn:Hk in He; [congruence|].
      rewrite find_None_key in Hk. apply find_Some_key in He as [He _]. specialize (Hk e He).
      breflect. tauto. }
    exists s. do 5 (split; [done|]). breflect. destruct_and!. exists r, e.
    apply find_reservation_Some in Hr as Hri. destruct Hri as [_ Hri]. split_and!; congruence.
  - match goal with H : match ?o with _ => _ end = None |- _ => destruct o eqn:Hk; [discriminate|] end.
    match goal with H : job_scope _ = _ |- _ => rename H into Hsc end.
    destruct (Hm _ _ _ Hf). rewrite st_jobId. eexists. split; [apply find_stored_same|].
    do 4 (split; [done|]). exists r. eexists. simpl.
    rewrite reservations_of_snoc, reconciliations_of_snoc, app_nil_r. breflect.
    apply find_reservation_Some in Hr as Hri. destruct Hri as [_ Hri].
    split; [done|]. split; [done|]. split; [done|].
    split; [apply find_last; [done|by apply bool_decide_eq_true]|by split_and!].
Qed.

Lemma same_comparable_refl o : same_comparable o o = true.
Proof. destruct o; simpl; by apply bool_decide_eq_true. Qed.

(** [appendObservation] leaves its observation, or the one it answers with. *)
Lemma append_observed clock call st s o snap st' :
  memory_valid clock st -> find_stored st (tenantId (call_scope call)) (call_job call) = Some s ->
  job_scope (stored_job s) = call_scope call ->
  observation_scope (any_observation o) = call_scope call ->
  fence_jobId (observation_mutationFence (any_observation o)) = call_job call ->
  appendObservation s o st = (Ok snap, st') ->
  exists s', find_stored st' (tenantId (call_scope call)) (call_job call) = Some s' /\
    snap = snapshot s' /\ job_scope (stored_job s') = call_scope call /\
    stored_cancellationRequest s' = stored_cancellationRequest s /\ observed_as o s'.
Proof.
  intros Hm Hf Hsc Hos Hoj H. unfold appendObservation in H.
  destruct (List.find _ _) as [e|] eqn:He; inv_M.
  - exists s. do 4 (split; [done|]). exists e. split; [done|].
    match goal with H : negb _ = false |- _ => by apply negb_false_iff in H end.
  - rewrite Hos, Hoj. eexists. split; [apply find_stored_same|]. split; [done|].
    unfold observed_as. destruct o as [o|o]; (split; [done|split; [done|]]); eexists;
      (split; [|apply same_comparable_refl]).
    + unfold all_observations in *.
      cbn [with_observations stored_executionObservations stored_usageObservations].
      rewrite find_app_key in He.
      destruct (List.find _ (AnyExecution <$> _)) eqn:He1; [discriminate|].
      rewrite fmap_app, <- app_assoc, find_app_key, He1. simpl. by rewrite bool_decide_eq_true_2.
    + unfold all_observations in *.
      cbn [with_observations stored_executionObservations stored_usageObservations].
      rewrite fmap_app, app_assoc.
      apply find_last; [done|by apply bool_decide_eq_true].
Qed.

Lemma execution_recorded clock c plan now st snap st' :
  memory_valid clock st ->
  run (ExecutionCall c plan) now st = (Ok snap, st') -> recorded (ExecutionCall c plan) now snap st'.
Proof.
  intros Hm H. unfold run, appendExecutionObservation in H. inv_M. found_store.
  match goal with H : negb (payload_boundary_ok _ _) = false |- _ => apply negb_false_iff in H end.
  match goal with H : negb (payload_cancellation_ok _ _) = false |- _ => apply negb_false_iff in H end.
  match goal with H : appendObservation _ _ _ = _ |- _ =>
    apply (append_observed clock (ExecutionCall c plan)) in H; try done end.
  match goal with H : exists _, _ |- _ => destruct H as (s' & Hf' & Hsn & Hsc' & Hq & Ho) end.
  exists s'. do 3 (split; [done|]). simpl. rewrite Hq. split; [done|]. split; [done|].
  by exists (next_observation_sequence s), now.
Qed.

Lemma usage_recorded clock c plan now st snap st' :
  memory_valid clock st ->
  run (UsageCall c plan) now st = (Ok snap, st') -> recorded (UsageCall c plan) now snap st'.
Proof.
  intros Hm H. unfold run, appendUsageObservation in H. inv_M. found_store.
  match goal with H : match usagec_boundaryId c with _ => _ end = false |- _ => rename H into Hb end.
  match goal with H : appendObservation _ _ _ = _ |- _ =>
    apply (append_observed clock (UsageCall c plan)) in H; try done end.
  match goal with H : exists _, _ |- _ => destruct H as (s' & Hf' & Hsn & Hsc' & Hq & Ho) end.
  exists s'. do 3 (split; [done|]). split.
  - intros b Hbi. rewrite Hbi in Hb. by apply negb_false_iff in Hb.
  - by exists (next_observation_sequence s), now.
Qed.

Lemma run_recorded clock call now st snap st' :
  memory_valid clock st -> retryable call = true -> run call now st = (Ok snap, st') ->
  recorded call now snap st'.
Proof.
  intros Hm Hr H. destruct call; try discriminate.
  - by apply create_recorded in H.
  - by apply cancel_recorded in H.
  - by eapply acknowledge_recorded.
  - by eapply reserve_recorded.
  - by eapply reconcile_recorded.
  - by eapply execution_recorded.
  - by eapply usage_recorded.
Qed.

