(* ===== verification/ReplayJobControl.v ===== *)
(** * Control-plane use cases

    [create-replay-job.ts], [request-replay-cancellation.ts],
    [read-replay-job.ts] and [replay-job-control-validation.ts] of
    [packages/replay/src]: who may act on a job, and what is checked of the
    answer of the repository, which these use cases do not trust.

    The repository is a class of operations on an abstract state
    ([ReplayJobControlRepository]); the use cases are proved safe against every
    instance, and the in-memory repository is shown to be an instance they
    never have to reject. *)

From S2P Require Import Prelude Errors Primitives Identity ReplayPlan ReplayJob ReplayJobState.
From S2P Require Import ReplayJobStateProofs ReplayAccounting ReplayBudget ReplayJobSnapshot.
From S2P Require Import ReplayJobSnapshotProofs ReplayJobOutbox MemoryReplayJobRepository.
From S2P Require Import MemoryReplayJobProofs ReplayRepositorySystem ReplayIdempotence.
From stdpp Require Import gmap.
#[local] Open Scope Z_scope.

(** ** The repository port *)

Class ReplayJobControlRepository (State : Type) := {
  repository_createJob : CreateReplayJobCommand -> State -> res MutationResult * State;
  repository_findJob : EvidenceScope -> string -> State -> res (option ReplayJobSnapshot) * State;
  repository_requestCancellation :
    RequestDurableReplayCancellationCommand -> State -> res MutationResult * State;
}.

(** ** Validation of answers *)

Definition validatedReplayJobSnapshot (input : ReplayJobSnapshot) (scope : EvidenceScope) (jobId : string) :
    res ReplayJobSnapshot :=
  snapshot ← parse_with ReplayRepositoryContractError ReplayJobSnapshotSchema input;
  reject_when ((job_jobId (snapshot_job snapshot) !== jobId) ||
               negb (sameScope (job_scope (snapshot_job snapshot)) scope)) ReplayRepositoryContractError ;;
  Ok snapshot.

Definition validatedReplayJobMutationResult (input : MutationResult) (scope : EvidenceScope)
    (jobId : string) : res MutationResult :=
  snapshot ← validatedReplayJobSnapshot (result_snapshot input) scope jobId;
  Ok {| result_created := result_created input; result_snapshot := snapshot |}.

(** ** Commands *)

(** The fields every control command has. *)
Record ControlRoute := {
  route_environmentId : string;
  route_jobId : string;
  route_principal : PrincipalContext;
  route_projectId : string;
}.

Record CreateDurableReplayJobCommand := {
  create_route : ControlRoute;
  create_request : CreateReplayJobRequest;
}.

Record RequestReplayJobCancellationCommand := {
  cancellation_route : ControlRoute;
  cancellation_input : RequestReplayCancellation;
}.

(** [Schema.safeParse(input)], failing with the use case's own error. *)
Definition valid_input {A} (accepts : A -> bool) (input : A) : res A :=
  parse_with InvalidReplayJobInputError accepts input.

Section use_cases.
Context (TimestampSchema : string -> bool) {State : Type} `{ReplayJobControlRepository State}.

(** The common head of the three use cases: the principal, its capability,
    its access to the environment, the exact scope and the job identifier. *)
Definition authorize (route : ControlRoute) (capability : Capability) :
    res (PrincipalContext * EvidenceScope * string) :=
  principal ← valid_input (PrincipalContextSchema TimestampSchema) (route_principal route);
  requireCapability principal capability ;;
  requireEnvironmentAccess (resourceScope principal) (route_projectId route) (route_environmentId route) ;;
  scope ← valid_input EvidenceScopeSchema {|
    environmentId := route_environmentId route;
    projectId := route_projectId route;
    tenantId := principal_tenantId principal |};
  jobId ← valid_input OpaqueIdSchema (route_jobId route);
  Ok (principal, scope, jobId).

(** [plansEqual] of [create-replay-job.ts] *)
Definition created_as_requested (principal : PrincipalContext) (request : CreateReplayJobRequest)
    (result : MutationResult) : bool :=
  let job := snapshot_job (result_snapshot result) in
  (job_createdByPrincipalId job === principalId principal) &&
  plansEqual (job_plan job) (create_plan request) &&
  negb (result_created result && ((job_status job !== queued) || negb (job_stateVersion job =? 1))).

Definition create_head (command : CreateDurableReplayJobCommand) :
    res (PrincipalContext * EvidenceScope * string) :=
  head ← authorize (create_route command) replay_run;
  let '(_, _, jobId) := head in
  request ← valid_input CreateReplayJobRequestSchema (create_request command);
  reject_when (create_jobId request !== jobId) InvalidReplayJobInputError ;;
  Ok head.

Definition CreateDurableReplayJob_execute (command : CreateDurableReplayJobCommand) (state : State) :
    res MutationResult * State :=
  match create_head command with
  | Throw e => (Throw e, state)
  | Ok (principal, scope, jobId) =>
      let '(answer, state') := repository_createJob {|
        createc_createdByPrincipalId := principalId principal;
        createc_jobId := jobId;
        createc_plan := create_plan (create_request command);
        createc_scope := scope |} state in
      ((input ← answer;
        result ← validatedReplayJobMutationResult input scope jobId;
        reject_when (negb (created_as_requested principal (create_request command) result))
          ReplayRepositoryContractError ;;
        Ok result), state')
  end.

Definition cancellationMatches (stored : ReplayCancellationRequest) (request : RequestReplayCancellation) :
    bool :=
  (cancellation_cancellationId stored === request_cancellationId request) &&
  (cancellation_reasonCode stored === request_reasonCode request) &&
  (cancellation_reason stored === request_reason request).

Definition cancelled_as_requested (principal : PrincipalContext) (request : RequestReplayCancellation)
    (result : MutationResult) : bool :=
  match snapshot_cancellationRequest (result_snapshot result) with
  | None =>
      negb (result_created result || negb (defined (job_terminal (snapshot_job (result_snapshot result)))))
  | Some stored =>
      negb (negb (cancellationMatches stored request) ||
            (result_created result && (cancellation_requestedByPrincipalId stored !== principalId principal)))
  end.

Definition cancellation_head (command : RequestReplayJobCancellationCommand) :
    res (PrincipalContext * EvidenceScope * string) :=
  head ← authorize (cancellation_route command) replay_cancel;
  valid_input RequestReplayCancellationSchema (cancellation_input command) ;;
  Ok head.

Definition RequestDurableReplayCancellation_execute (command : RequestReplayJobCancellationCommand)
    (state : State) : res MutationResult * State :=
  match cancellation_head command with
  | Throw e => (Throw e, state)
  | Ok (principal, scope, jobId) =>
      let '(answer, state') := repository_requestCancellation {|
        cancelc_input := cancellation_input command;
        cancelc_jobId := jobId;
        cancelc_requestedByPrincipalId := principalId principal;
        cancelc_scope := scope |} state in
      ((input ← answer;
        result ← validatedReplayJobMutationResult input scope jobId;
        reject_when (negb (cancelled_as_requested principal (cancellation_input command) result))
          ReplayRepositoryContractError ;;
        Ok result), state')
  end.

Definition ReadReplayJob_execute (route : ControlRoute) (state : State) :
    res ReplayJobSnapshot * State :=
  match authorize route replay_read with
  | Throw e => (Throw e, state)
  | Ok (_, scope, jobId) =>
      let '(answer, state') := repository_findJob scope jobId state in
      ((found ← answer;
        match found with
        | None => Throw ReplayJobNotFoundError
        | Some stored => validatedReplayJobSnapshot stored scope jobId
        end), state')
  end.

(** ** Safety against any repository *)

(** A route whose principal may use [capability] in the environment it names. *)
Record authorized (route : ControlRoute) (capability : Capability) (scope : EvidenceScope) : Prop := {
  au_capability : capability ∈ capabilities (route_principal route);
  au_access : grants (resourceScope (route_principal route)) (route_projectId route)
    (route_environmentId route);
  au_scope : scope = {| environmentId := route_environmentId route; projectId := route_projectId route;
                        tenantId := principal_tenantId (route_principal route) |};
}.

Lemma authorize_Ok route capability principal scope jobId :
  authorize route capability = Ok (principal, scope, jobId) ->
  principal = route_principal route /\ jobId = route_jobId route /\ authorized route capability scope /\
  EvidenceScopeSchema scope = true /\ OpaqueIdSchema jobId = true.
Proof.
  unfold authorize, valid_input, requireCapability. intros H1. inv_res. split_and!; try done.
  match goal with Hp : PrincipalContextSchema _ _ = true |- _ => unfold PrincipalContextSchema in Hp; breflect end.
  constructor; [by apply includes_true|eapply environment_access_Ok; [tauto|eassumption]|done].
Qed.

Lemma validated_snapshot_Ok input scope jobId s :
  validatedReplayJobSnapshot input scope jobId = Ok s <->
  s = input /\ ReplayJobSnapshotSchema input = true /\ job_jobId (snapshot_job input) = jobId /\
  job_scope (snapshot_job input) = scope.
Proof.
  unfold validatedReplayJobSnapshot. split.
  - intros H1. inv_res. breflect. destruct_and!. done.
  - intros (-> & Hv & Hj & Hs). rewrite (bind_known _ _ input) by (by apply parse_known).
    rewrite (bind_known _ _ tt); [done|]. apply reject_known. breflect. done.
Qed.

Lemma validated_result_Ok input scope jobId r :
  validatedReplayJobMutationResult input scope jobId = Ok r <->
  r = input /\ ReplayJobSnapshotSchema (result_snapshot input) = true /\
  job_jobId (snapshot_job (result_snapshot input)) = jobId /\
  job_scope (snapshot_job (result_snapshot input)) = scope.
Proof.
  unfold validatedReplayJobMutationResult. rewrite bind_Ok. setoid_rewrite validated_snapshot_Ok. split.
  - intros (s & (-> & ? & ? & ?) & [= <-]). destruct input. done.
  - intros (-> & ? & ? & ?). eexists. split; [done|]. by destruct input.
Qed.

(** Whatever the repository answers, a creation that returns was
    authorized, and returns a valid snapshot of the very job, scope, plan and
    creator it asked for, fresh if it says so. *)
Theorem create_sound command state result state' :
  CreateDurableReplayJob_execute command state = (Ok result, state') ->
  exists scope, authorized (create_route command) replay_run scope /\
    let s := result_snapshot result in
    ReplayJobSnapshotSchema s = true /\ job_jobId (snapshot_job s) = route_jobId (create_route command) /\
    create_jobId (create_request command) = route_jobId (create_route command) /\
    job_scope (snapshot_job s) = scope /\
    job_plan (snapshot_job s) = create_plan (create_request command) /\
    job_createdByPrincipalId (snapshot_job s) = principalId (route_principal (create_route command)) /\
    (result_created result = true -> job_status (snapshot_job s) = queued /\ job_stateVersion (snapshot_job s) = 1).
Proof.
  unfold CreateDurableReplayJob_execute. destruct (create_head command) as [[[p scope] id]|e] eqn:Hh; [|done].
  destruct (repository_createJob _ _) as [answer st'']. intros [= Hr <-].
  unfold create_head, valid_input in Hh. inv_res.
  match goal with Hx : (let '(_, _) := ?h in _) = _ |- _ => destruct h as [[p' scope'] id']; inv_res end.
  match goal with Hx : authorize _ _ = Ok _ |- _ => apply authorize_Ok in Hx as (-> & -> & Ha & _) end.
  match goal with Hx : validatedReplayJobMutationResult _ _ _ = Ok _ |- _ =>
    apply validated_result_Ok in Hx as (-> & Hv & Hj & Hs) end.
  match goal with Hx : negb (created_as_requested _ _ _) = false |- _ =>
    apply negb_false_iff in Hx; unfold created_as_requested in Hx end.
  exists scope. split; [done|]. breflect. destruct_and!. split_and!; try done.
  intros Hc. rewrite Hc in *. naive_solver.
Qed.

(** Whatever the repository answers, a cancellation request that returns
    was authorized, and either the snapshot retains exactly the request that
    was made, under this principal if it is new, or the job had ended without
    one. *)
Theorem cancellation_sound command state result state' :
  RequestDurableReplayCancellation_execute command state = (Ok result, state') ->
  exists scope, authorized (cancellation_route command) replay_cancel scope /\
    let s := result_snapshot result in
    ReplayJobSnapshotSchema s = true /\
    job_jobId (snapshot_job s) = route_jobId (cancellation_route command) /\
    job_scope (snapshot_job s) = scope /\
    match snapshot_cancellationRequest s with
    | Some q => describes (cancellation_input command) q /\
        (result_created result = true -> cancellation_requestedByPrincipalId q =
           principalId (route_principal (cancellation_route command)))
    | None => result_created result = false /\ exists t, job_terminal (snapshot_job s) = Some t
    end.
Proof.
  unfold RequestDurableReplayCancellation_execute.
  destruct (cancellation_head command) as [[[p scope] id]|e] eqn:Hh; [|done].
  destruct (repository_requestCancellation _ _) as [answer st'']. intros [= Hr <-].
  unfold cancellation_head, valid_input in Hh. inv_res.
  match goal with Hx : authorize _ _ = Ok _ |- _ => apply authorize_Ok in Hx as (-> & -> & Ha & _) end.
  match goal with Hx : validatedReplayJobMutationResult _ _ _ = Ok _ |- _ =>
    apply validated_result_Ok in Hx as (-> & Hv & Hj & Hs) end.
  match goal with Hx : negb (cancelled_as_requested _ _ _) = false |- _ =>
    apply negb_false_iff in Hx; unfold cancelled_as_requested, cancellationMatches in Hx end.
  exists scope. split; [done|]. do 3 (split; [done|]). unfold describes.
  destruct (snapshot_cancellationRequest _) as [q|]; breflect; destruct_and!; [|naive_solver].
  split; [naive_solver|]. intros Hc. rewrite Hc in *. naive_solver.
Qed.

(** Whatever the repository answers, a read that returns was authorized
    and returns a valid snapshot of the very job and scope it named. *)
Theorem read_sound route state s state' :
  ReadReplayJob_execute route state = (Ok s, state') ->
  exists scope, authorized route replay_read scope /\ ReplayJobSnapshotSchema s = true /\
    job_jobId (snapshot_job s) = route_jobId route /\ job_scope (snapshot_job s) = scope.
Proof.
  unfold ReadReplayJob_execute. destruct (authorize route replay_read) as [[[p scope] id]|e] eqn:Hh; [|done].
  destruct (repository_findJob _ _ _) as [answer st'']. intros [= Hr <-]. inv_res.
  match goal with Hx : match ?f with _ => _ end = _ |- _ => destruct f as [stored|]; [|discriminate] end.
  apply authorize_Ok in Hh as (-> & -> & Ha & _). apply validated_snapshot_Ok in Hr as (-> & ? & ? & ?).
  by exists scope.
Qed.
End use_cases.

(** ** The in-memory repository as an instance

    An undisturbed call: its lookup and its commit at [now]. *)

#[export] Instance memory_control (definitions : ReplayDefinitionRepository) (now : timestamp) :
    ReplayJobControlRepository MemoryState := {|
  repository_createJob := fun c => lift (createJob_lookup c) ;; createJob c now;
  repository_findJob := findJob;
  repository_requestCancellation := fun c => requestCancellation c now;
|}.

(** *** Answers of the in-memory repository *)

Lemma memory_validated clock st s scope jobId :
  memory_valid clock st -> find_stored st (tenantId scope) jobId = Some s ->
  job_scope (stored_job s) = scope -> validatedReplayJobSnapshot (snapshot s) scope jobId = Ok (snapshot s).
Proof.
  intros Hm Hf Hs. destruct (Hm _ _ _ Hf). apply validated_snapshot_Ok.
  split_and!; try done. by apply snapshot_schema_iff.
Qed.

Lemma findJob_answer clock st scope jobId r st' :
  memory_valid clock st -> findJob scope jobId st = (r, st') ->
  st' = st /\ exists o, r = Ok o /\
    forall s, o = Some s -> validatedReplayJobSnapshot s scope jobId = Ok s.
Proof.
  intros Hm. unfold findJob, peekJob. unfold mbind, M_bind, mret, M_ret. intros [= <- <-].
  split; [done|]. eexists. split; [done|]. intros s.
  destruct (find_stored _ _ _) as [x|] eqn:Hf; [|done]. destruct (sameScope _ _) eqn:Hs; [|done].
  apply sameScope_spec in Hs. intros [= <-]. by eapply memory_validated.
Qed.

(** What a creation that returned stored. *)
Lemma createJob_answer clock st c now r st' :
  memory_valid clock st -> clock <= now -> createJob c now st = (Ok r, st') ->
  validatedReplayJobMutationResult r (createc_scope c) (createc_jobId c) = Ok r /\
  job_createdByPrincipalId (snapshot_job (result_snapshot r)) = createc_createdByPrincipalId c /\
  job_plan (snapshot_job (result_snapshot r)) = createc_plan c /\
  (result_created r = true -> job_status (snapshot_job (result_snapshot r)) = queued /\
     job_stateVersion (snapshot_job (result_snapshot r)) = 1).
Proof.
  intros Hm Hle H.
  assert (Hrun : run (CreateCall c) now st = (Ok (result_snapshot r), st'))
    by (simpl; by rewrite (M_bind_run _ _ _ _ _ H)).
  destruct (create_recorded _ _ _ _ _ Hrun) as (s & Hs & Hsn & Hsc & Hby & Hpl & _). simpl in *.
  rewrite Hsn. split; [|split; [done|split; [done|]]].
  - apply validated_result_Ok. rewrite Hsn. assert (Hm' : memory_valid now st').
    { by apply (run_valid clock st (CreateCall c) now (Ok (result_snapshot r))). }
    destruct (Hm' _ _ _ Hs). split_and!; try done. by apply snapshot_schema_iff.
  - intros Hcr. unfold createJob in H. inv_M.
    match goal with Hx : createQueuedReplayJob _ = Ok ?j |- _ => unfold createQueuedReplayJob in Hx end. inv_res.
    destruct (find_stored _ _ _) as [found|]; inv_M; [unfold requireIntent in *; inv_M; subst; done|].
    subst. rewrite <- Hsn. done.
Qed.

Definition not_contract_error {A} (r : res A) : Prop := r <> Throw ReplayRepositoryContractError.

Lemma bind_not_contract {A B} (m : M A) (f : A -> M B) st :
  not_contract_error (fst (m st)) ->
  (forall a st1, m st = (Ok a, st1) -> not_contract_error (fst (f a st1))) ->
  not_contract_error (fst ((m ≫= f) st)).
Proof.
  unfold mbind, M_bind. destruct (m st) as [[a|e] st1]; simpl; [auto|]. unfold not_contract_error.
  congruence.
Qed.

Lemma lift_not_contract {A} (r : res A) st : not_contract_error r -> not_contract_error (fst (lift r st)).
Proof. done. Qed.

Lemma parse_not_contract {A} (accepts : A -> bool) v : not_contract_error (parse accepts v).
Proof. unfold not_contract_error, parse, parse_with. by destruct (accepts v). Qed.

Lemma reject_not_contract b e : e <> ReplayRepositoryContractError -> not_contract_error (reject_when b e).
Proof. unfold not_contract_error, reject_when. destruct b; congruence. Qed.

Lemma injected_not_contract kind st : not_contract_error (fst (throwInjectedIntentFailure kind st)).
Proof. unfold throwInjectedIntentFailure, not_contract_error. by case_match. Qed.

Lemma res_bind_not_contract {A B} (m : res A) (f : A -> res B) :
  not_contract_error m -> (forall a, m = Ok a -> not_contract_error (f a)) -> not_contract_error (m ≫= f).
Proof. unfold not_contract_error. destruct m; simpl; [auto|]. unfold mbind, result_bind. congruence. Qed.

(** *** The in-memory repository never breaks the contract *)

Lemma requireIntent_not_contract s expected i st :
  expected = Ok i -> stored_intents s !! intentKey i = Some i ->
  not_contract_error (fst (requireIntent s expected st)).
Proof. intros He Hi. by rewrite (requireIntent_run s expected i st He Hi). Qed.

Lemma createJob_not_contract clock st c now :
  memory_valid clock st -> not_contract_error (fst (createJob c now st)).
Proof.
  intros Hm. unfold createJob.
  apply bind_not_contract; [apply parse_not_contract|]. intros t st1 [_ ->]%lift_run.
  apply bind_not_contract.
  { apply lift_not_contract. unfold createQueuedReplayJob.
    repeat (apply res_bind_not_contract; [apply parse_not_contract|intros ? _]). apply parse_not_contract. }
  intros job st1 [_ ->]%lift_run. apply bind_not_contract; [done|]. intros found st1 [= <- <-].
  destruct (find_stored _ _ _) as [s|] eqn:Hf.
  - pose proof (Hm _ _ _ Hf) as Hv. apply bind_not_contract; [by apply lift_not_contract, reject_not_contract|].
    intros ? st1 [_ ->]%lift_run. apply bind_not_contract; [|done].
    eapply requireIntent_not_contract; [|by eapply created_intent_stored].
    apply created_intent_Ok. split; [by eapply stored_job_valid|done].
  - apply bind_not_contract.
    { apply lift_not_contract, res_bind_not_contract; [apply parse_not_contract|done]. }
    intros i st1 [_ ->]%lift_run. apply bind_not_contract; [apply injected_not_contract|].
    intros ? st1 _. done.
Qed.

Lemma createJob_lookup_not_contract `{defs : ReplayDefinitionRepository} c : not_contract_error (createJob_lookup c).
Proof. unfold createJob_lookup. destruct (findReplayPlan _ _); [by apply reject_not_contract|done]. Qed.

Lemma requestReplayCancellation_not_contract job o : not_contract_error (requestReplayCancellation job o).
Proof.
  unfold requestReplayCancellation.
  do 3 (apply res_bind_not_contract; [apply parse_not_contract|intros ? _]).
  destruct (cancel_existing o).
  - apply res_bind_not_contract; [apply parse_not_contract|intros ? _].
    apply res_bind_not_contract; [by apply reject_not_contract|done].
  - apply res_bind_not_contract; [by apply reject_not_contract|intros ? _].
    apply res_bind_not_contract; [apply parse_not_contract|intros ? _]. case_match; [done|].
    apply res_bind_not_contract; [unfold nextCounter; by case_match|intros ? _].
    apply res_bind_not_contract; [apply parse_not_contract|done].
Qed.

Lemma terminal_intent_not_contract job : not_contract_error (buildReplayJobTerminalOutboxIntent job).
Proof.
  unfold buildReplayJobTerminalOutboxIntent. apply res_bind_not_contract; [apply parse_not_contract|].
  intros ? _. by case_match.
Qed.

Lemma cancellation_intent_not_contract job q :
  not_contract_error (buildReplayJobCancellationRequestedOutboxIntent job q).
Proof.
  unfold buildReplayJobCancellationRequestedOutboxIntent.
  do 2 (apply res_bind_not_contract; [apply parse_not_contract|intros ? _]).
  by apply res_bind_not_contract; [apply reject_not_contract|].
Qed.

(** A repeated request finds its intents where the invariant says they are. *)
Lemma repeated_request_not_contract tenant jobId clock s r o st (k : M MutationResult) :
  stored_valid tenant jobId clock s ->
  requestReplayCancellation (stored_job s) o = Ok r -> cancel_created r = false ->
  cancel_existing o = stored_cancellationRequest s -> not_contract_error (fst (k st)) ->
  not_contract_error (fst ((requireIntent s
      (buildReplayJobCancellationRequestedOutboxIntent (stored_job s) (cancel_request r)) ;;
    (if defined (job_terminal (stored_job s))
     then requireIntent s (buildReplayJobTerminalOutboxIntent (stored_job s)) else mret tt) ;; k) st)).
Proof.
  intros Hv Hr Hc He Hk. apply cancel_success in Hr as (Hj & _ & Hqv & Hqs & Hqi & Hcases).
  destruct Hcases as [(_ & _ & Hex)|[(? & _)|(? & _)]]; [|congruence..].
  rewrite He in Hex.
  assert (Hi : requireIntent s (buildReplayJobCancellationRequestedOutboxIntent (stored_job s)
      (cancel_request r)) st = (Ok tt, st)).
  { eapply requireIntent_run; [|by eapply cancellation_intent_stored]. by apply cancellation_intent_Ok. }
  rewrite (M_bind_run _ _ _ _ _ Hi).
  assert (Ht : (if defined (job_terminal (stored_job s))
      then requireIntent s (buildReplayJobTerminalOutboxIntent (stored_job s)) else mret tt) st = (Ok tt, st)).
  { destruct (job_terminal (stored_job s)) as [t|] eqn:Ht; [|done].
    eapply requireIntent_run; [|by eapply terminal_intent_stored]. apply terminal_intent_Ok. eauto. }
  by rewrite (M_bind_run _ _ _ _ _ Ht).
Qed.

Lemma requestCancellation_not_contract clock st c now :
  memory_valid clock st -> not_contract_error (fst (requestCancellation c now st)).
Proof.
  intros Hm. unfold requestCancellation. apply bind_not_contract.
  { unfold requireJob. repeat case_match; done. }
  intros s st1 (-> & Hf & Hsc)%requireJob_Ok. pose proof (Hm _ _ _ Hf) as Hv. case_match; [done|].
  apply bind_not_contract; [apply parse_not_contract|]. intros t st1 [_ ->]%lift_run.
  apply bind_not_contract; [apply lift_not_contract, requestReplayCancellation_not_contract|].
  intros r st1 [Hr ->]%lift_run. destruct (cancel_created r) eqn:Hc.
  2: { eapply repeated_request_not_contract; try done. }
  cbn [negb]. apply bind_not_contract; [apply lift_not_contract, cancellation_intent_not_contract|].
  intros i st1 [_ ->]%lift_run. apply bind_not_contract; [apply injected_not_contract|].
  intros ? st1 _. apply bind_not_contract; [|done]. case_match; [|done].
  apply bind_not_contract; [apply lift_not_contract, terminal_intent_not_contract|].
  intros ? st2 _. apply bind_not_contract; [apply injected_not_contract|done].
Qed.

(** What a cancellation that returned stored. *)
Lemma requestCancellation_answer clock st c now r st' :
  memory_valid clock st -> clock <= now -> requestCancellation c now st = (Ok r, st') ->
  validatedReplayJobMutationResult r (cancelc_scope c) (cancelc_jobId c) = Ok r /\
  match snapshot_cancellationRequest (result_snapshot r) with
  | Some q => describes (cancelc_input c) q /\
      (result_created r = true -> cancellation_requestedByPrincipalId q = cancelc_requestedByPrincipalId c)
  | None => result_created r = false /\ defined (job_terminal (snapshot_job (result_snapshot r))) = true
  end.
Proof.
  intros Hm Hle H.
  assert (Hrun : run (CancelCall c) now st = (Ok (result_snapshot r), st'))
    by (simpl; by rewrite (M_bind_run _ _ _ _ _ H)).
  destruct (cancel_recorded _ _ _ _ _ Hrun) as (s & Hs & Hsn & Hsc & Hrec). simpl in Hs, Hsc, Hrec.
  rewrite Hsn. split.
  - apply validated_result_Ok. rewrite Hsn. assert (Hm' : memory_valid now st')
      by (by apply (run_valid clock st (CancelCall c) now (Ok (result_snapshot r)))).
    destruct (Hm' _ _ _ Hs). split_and!; try done. by apply snapshot_schema_iff.
  - clear Hrun Hs. unfold requestCancellation in H. inv_M.
    match goal with Hx : find_stored _ _ _ = Some ?x |- _ => rename x into stored end.
    match goal with Hx : (if ?b then _ else _) _ = _ |- _ => destruct b eqn:Hb; inv_M end.
    { simpl in *. destruct Hrec as [[-> Ht]|(q & -> & Hd)]; [done|]. by split. }
    match goal with Hx : requestReplayCancellation _ _ = Ok ?x |- _ => rename Hx into Hc; rename x into k end.
    destruct (cancel_created k) eqn:Hcr; simpl in *; inv_M.
    + destruct (cancel_created_facts _ _ _ _ Hc Hcr Hb) as (Hq & Ht & _).
      match goal with Hx : (if _ then _ else _) _ = (Ok ?n, _) |- _ =>
        assert (Hn : stored_cancellationRequest n = Some (cancel_request k))
          by (case_match; inv_M; by subst) end.
      assert (Hsq : stored_cancellationRequest s = Some (cancel_request k)).
      { apply (f_equal snapshot_cancellationRequest) in Hsn. simpl in Hsn. congruence. }
      rewrite Hsq in *. destruct Hrec as [[? _]|(q & [= <-] & Hd)]; [done|]. split; [done|]. intros _.
      unfold requestReplayCancellation in Hc. simpl in Hc. rewrite Hq in Hc. inv_res.
      match goal with Hx : (if ?b then _ else _) = Ok _ |- _ => destruct b end; inv_res; done.
    + unfold requireIntent in *. inv_M.
      match goal with Hx : (if _ then _ else _) _ = (Ok _, _) |- _ => clear Hx end.
      assert (Hsq : stored_cancellationRequest s = Some (cancel_request k)).
      { apply cancel_success in Hc as (_ & _ & _ & _ & _ & [(_ & _ & ?)|[(? & _)|(? & _)]]); simpl in *; [|congruence..].
        apply (f_equal snapshot_cancellationRequest) in Hsn. simpl in Hsn. congruence. }
      rewrite Hsq in *. destruct Hrec as [[? _]|(q & [= <-] & Hd)]; [done|]. done.
Qed.

Lemma valid_input_not_contract {A} (accepts : A -> bool) v : not_contract_error (valid_input accepts v).
Proof. unfold not_contract_error, valid_input, parse_with. by destruct (accepts v). Qed.

Lemma authorize_not_contract TimestampSchema route capability :
  not_contract_error (authorize TimestampSchema route capability).
Proof.
  unfold authorize, requireCapability, requireEnvironmentAccess, requireProjectAccess.
  apply res_bind_not_contract; [apply valid_input_not_contract|intros ? _].
  apply res_bind_not_contract; [by apply reject_not_contract|intros ? _].
  apply res_bind_not_contract; [|intros ? _].
  { apply res_bind_not_contract; [case_match; [done|by apply reject_not_contract]|intros ? _].
    case_match; [done|by apply reject_not_contract]. }
  do 2 (apply res_bind_not_contract; [apply valid_input_not_contract|intros ? _]). done.
Qed.

Lemma create_head_not_contract TimestampSchema command :
  not_contract_error (create_head TimestampSchema command).
Proof.
  unfold create_head. apply res_bind_not_contract; [apply authorize_not_contract|]. intros [[? ?] ?] _.
  apply res_bind_not_contract; [apply valid_input_not_contract|intros ? _].
  by apply res_bind_not_contract; [apply reject_not_contract|].
Qed.

Lemma cancellation_head_not_contract TimestampSchema command :
  not_contract_error (cancellation_head TimestampSchema command).
Proof.
  unfold cancellation_head. apply res_bind_not_contract; [apply authorize_not_contract|intros ? _].
  by apply res_bind_not_contract; [apply valid_input_not_contract|].
Qed.

(** A thrown head is thrown as it is. *)
Lemma head_not_contract {A B} (m : res A) e : not_contract_error m -> m = Throw e -> not_contract_error (Throw e : res B).
Proof. unfold not_contract_error. congruence. Qed.

Lemma answer_not_contract {A B} (answer : res A) (k : A -> res B) :
  not_contract_error answer -> (forall a, answer = Ok a -> exists b, k a = Ok b) ->
  not_contract_error (answer ≫= k).
Proof.
  intros Ha Hk. apply res_bind_not_contract; [done|]. intros a Hans. destruct (Hk a Hans) as [b ->]. done.
Qed.

Lemma memory_create_contract TimestampSchema definitions clock st now command :
  memory_valid clock st -> clock <= now ->
  not_contract_error (fst (CreateDurableReplayJob_execute (H := memory_control definitions now)
    TimestampSchema command st)).
Proof.
  intros Hm Hle. unfold CreateDurableReplayJob_execute.
  destruct (create_head _ _) as [[[p scope] id]|e] eqn:Hh.
  2: { eapply head_not_contract; [apply create_head_not_contract|exact Hh]. }
  cbn [repository_createJob memory_control].
  match goal with |- context [?m st] => destruct (m st) as [answer st'] eqn:Hrun end. simpl.
  apply answer_not_contract.
  - replace answer with (fst (answer, st')) by done. rewrite <- Hrun.
    apply bind_not_contract; [apply lift_not_contract, createJob_lookup_not_contract|].
    intros ? st1 [_ ->]%lift_run. by eapply createJob_not_contract.
  - intros r ->. apply M_bind_Ok in Hrun as (? & st1 & [_ ->]%lift_run & Hrun).
    destruct (createJob_answer _ _ _ _ _ _ Hm Hle Hrun) as (Hva & Hby & Hpl & Hfresh). simpl in *.
    eexists. rewrite (bind_known _ _ _ Hva), (bind_known _ _ tt); [done|].
    apply reject_known, negb_false_iff. unfold created_as_requested. breflect.
    split_and!; [done|done|]. destruct (result_created r); [right; by apply Hfresh|by left].
Qed.

Lemma memory_cancellation_contract TimestampSchema definitions clock st now command :
  memory_valid clock st -> clock <= now ->
  not_contract_error (fst (RequestDurableReplayCancellation_execute (H := memory_control definitions now)
    TimestampSchema command st)).
Proof.
  intros Hm Hle. unfold RequestDurableReplayCancellation_execute.
  destruct (cancellation_head _ _) as [[[p scope] id]|e] eqn:Hh.
  2: { eapply head_not_contract; [apply cancellation_head_not_contract|exact Hh]. }
  cbn [repository_requestCancellation memory_control].
  match goal with |- context [requestCancellation ?c now st] =>
    destruct (requestCancellation c now st) as [answer st'] eqn:Hrun end. simpl.
  apply answer_not_contract.
  - replace answer with (fst (answer, st')) by done. rewrite <- Hrun. by eapply requestCancellation_not_contract.
  - intros r ->. destruct (requestCancellation_answer _ _ _ _ _ _ Hm Hle Hrun) as [Hva Hq]. simpl in *.
    eexists. rewrite (bind_known _ _ _ Hva), (bind_known _ _ tt); [done|].
    apply reject_known, negb_false_iff. unfold cancelled_as_requested.
    destruct (snapshot_cancellationRequest _) as [q|].
    + destruct Hq as [(_ & H1 & H2 & H3) Hby]. unfold cancellationMatches. rewrite H1, H2, H3.
      rewrite !bool_decide_eq_true_2 by done. destruct (result_created r); [|done].
      rewrite Hby by done. by rewrite bool_decide_eq_true_2.
    + destruct Hq as [-> ->]. done.
Qed.

(** C5. The use cases never have to reject the in-memory repository on a
    memory whose stored jobs satisfy the snapshot contract at its clock, as those
    that [admissible] calls reach do: whatever they ask, at any instant not
    before that clock and against any definitions, they do not report a
    repository contract violation. *)
Theorem memory_keeps_contract TimestampSchema definitions clock st now :
  memory_valid clock st -> clock <= now ->
  let repository := memory_control definitions now in
  (forall command, not_contract_error (fst (CreateDurableReplayJob_execute TimestampSchema command st))) /\
  (forall command, not_contract_error
     (fst (RequestDurableReplayCancellation_execute TimestampSchema command st))) /\
  (forall route, not_contract_error (fst (ReadReplayJob_execute TimestampSchema route st))).
Proof.
  intros Hm Hle repository. split_and!.
  - intros command. by eapply memory_create_contract.
  - intros command. by eapply memory_cancellation_contract.
  - intros route. unfold ReadReplayJob_execute.
    destruct (authorize _ _ _) as [[[p scope] id]|e] eqn:Hh.
    2: { eapply head_not_contract; [apply authorize_not_contract|exact Hh]. }
    subst repository; unfold repository_findJob, memory_control.
    destruct (findJob scope id st) as [answer st'] eqn:Hrun. simpl.
    destruct (findJob_answer _ _ _ _ _ _ Hm Hrun) as (_ & o & -> & Hv).
    rewrite (bind_known _ _ o) by done. destruct o as [s|]; [|done]. by rewrite (Hv s eq_refl).
Qed.
