(* ===== verification/OrderedMap.v ===== *)
(** * Maps in insertion order

    A JavaScript [Map]: [get] by key, [set] that replaces in place or appends,
    and [new Map(entries)], whose last entry for a key wins while its position
    is that of the first. *)

From S2P Require Import Prelude.

Section ordered_map.
Context {K A : Type} `{EqDecision K}.
Implicit Types (m : list (K * A)) (k : K) (v : A).

Fixpoint map_get m k : option A :=
  match m with
  | [] => None
  | (k', v) :: rest => if k' === k then Some v else map_get rest k
  end.

Fixpoint map_set m k v : list (K * A) :=
  match m with
  | [] => [(k, v)]
  | (k', v') :: rest => if k' === k then (k', v) :: rest else (k', v') :: map_set rest k v
  end.

(** [new Map(entries)] *)
Definition map_of (entries : list (K * A)) : list (K * A) :=
  foldl (fun m entry => map_set m entry.1 entry.2) [] entries.

Definition map_has m k : bool := bool_decide (is_Some (map_get m k)).

(** ** What a map is known by: its entries, at most one per key *)

Lemma map_get_set m k v j : map_get (map_set m k v) j = if k === j then Some v else map_get m j.
Proof.
  induction m as [|[k' v'] m IH]; simpl; [done|].
  repeat (case_bool_decide || simpl); try rewrite IH; repeat case_bool_decide; congruence.
Qed.

Lemma map_set_keys m k v :
  (map_set m k v).*1 = if bool_decide (k ∈ m.*1) then m.*1 else m.*1 ++ [k].
Proof.
  induction m as [|[k' v'] m IH]; csimpl; [done|].
  destruct (decide (k' = k)) as [->|Hk].
  - rewrite (bool_decide_eq_true_2 (k = k)) by done. csimpl.
    rewrite bool_decide_eq_true_2; [done|]. by left.
  - rewrite (bool_decide_eq_false_2 (k' = k)) by done. csimpl. rewrite IH. destruct (decide (k ∈ m.*1)) as [Hin|Hin].
    + rewrite !bool_decide_eq_true_2; [done|by right|done].
    + rewrite !bool_decide_eq_false_2; [done| |done].
      intros [->|?]%elem_of_cons; done.
Qed.

Lemma map_set_NoDup m k v : NoDup m.*1 -> NoDup (map_set m k v).*1.
Proof.
  intros H. rewrite map_set_keys. case_bool_decide as Hin; [done|].
  apply NoDup_app. split; [done|]. split; [|apply NoDup_singleton].
  intros x Hx ->%list_elem_of_singleton. done.
Qed.

Lemma map_of_snoc entries entry :
  map_of (entries ++ [entry]) = map_set (map_of entries) entry.1 entry.2.
Proof. unfold map_of. by rewrite foldl_app. Qed.

Lemma map_of_NoDup entries : NoDup (map_of entries).*1.
Proof.
  induction entries as [|e l IH] using rev_ind; [constructor|].
  rewrite map_of_snoc. by apply map_set_NoDup.
Qed.

Lemma map_of_keys entries k : k ∈ (map_of entries).*1 <-> k ∈ entries.*1.
Proof.
  induction entries as [|e l IH] using rev_ind; [done|].
  rewrite map_of_snoc, map_set_keys, fmap_app, elem_of_app, <- IH. simpl.
  rewrite list_elem_of_singleton. case_bool_decide as Hin.
  - naive_solver.
  - by rewrite elem_of_app, list_elem_of_singleton.
Qed.

Lemma map_get_None m k : map_get m k = None <-> k ∉ m.*1.
Proof.
  induction m as [|[k' v] m IH]; simpl.
  { split; [intros _; apply not_elem_of_nil|done]. }
  rewrite not_elem_of_cons. case_bool_decide; naive_solver.
Qed.

Lemma map_get_is_Some m k : is_Some (map_get m k) <-> k ∈ m.*1.
Proof.
  destruct (map_get m k) eqn:E.
  - split; [|done]. intros _. apply dec_stable. by rewrite <- map_get_None, E.
  - apply map_get_None in E. split; [by intros [? [=]]|done].
Qed.

Lemma map_get_elem m k v : map_get m k = Some v -> (k, v) ∈ m.
Proof.
  induction m as [|[k' v'] m IH]; simpl; [done|].
  case_bool_decide; [intros [= ->]; subst; by left|]. right. by apply IH.
Qed.

Lemma map_get_NoDup m k v : NoDup m.*1 -> map_get m k = Some v <-> (k, v) ∈ m.
Proof.
  intros Hnd. split; [apply map_get_elem|].
  induction m as [|[k' v'] m IH]; simpl; [by intros ?%elem_of_nil|].
  simpl in Hnd. apply NoDup_cons in Hnd as [Hk Hnd]. intros [[= -> ->]|Hin]%elem_of_cons.
  - by rewrite bool_decide_eq_true_2.
  - rewrite bool_decide_eq_false_2; [by apply IH|]. intros ->. apply Hk.
    apply list_elem_of_fmap. by exists (k, v).
Qed.

Lemma map_of_get_elem entries k v : map_get (map_of entries) k = Some v -> (k, v) ∈ entries.
Proof.
  induction entries as [|e l IH] using rev_ind; [done|].
  rewrite map_of_snoc, map_get_set, elem_of_app. case_bool_decide as He.
  - intros [= <-]. right. subst. rewrite list_elem_of_singleton. by destruct e.
  - intros H. left. by apply IH.
Qed.

(** Entries whose keys are unique are the map. *)
Lemma map_set_fresh m k v : k ∉ m.*1 -> map_set m k v = m ++ [(k, v)].
Proof.
  induction m as [|[k' v'] m IH]; simpl; [done|]. rewrite not_elem_of_cons. intros [Hne Hk].
  rewrite bool_decide_eq_false_2 by congruence. by rewrite IH.
Qed.

Lemma map_of_unique entries : NoDup entries.*1 -> map_of entries = entries.
Proof.
  induction entries as [|[k v] l IH] using rev_ind; [done|].
  rewrite fmap_app, NoDup_app. intros (Hl & Hd & _). rewrite map_of_snoc, IH by done. simpl.
  apply map_set_fresh. intros Hk. apply (Hd k Hk). simpl. by left.
Qed.
End ordered_map.

(** [new Map(values.map((value) => [key(value), value]))] *)
Definition map_by {K A} `{EqDecision K} (key : A -> K) (values : list A) : list (K * A) :=
  map_of ((fun value => (key value, value)) <$> values).

Lemma map_by_keys {K A} `{EqDecision K} (key : A -> K) values k :
  is_Some (map_get (map_by key values) k) <-> k ∈ key <$> values.
Proof. unfold map_by. by rewrite map_get_is_Some, map_of_keys, <- list_fmap_compose. Qed.

Lemma map_by_get {K A} `{EqDecision K} (key : A -> K) values k v :
  map_get (map_by key values) k = Some v -> v ∈ values /\ key v = k.
Proof.
  intros (w & [= -> ->] & Hw)%map_of_get_elem%list_elem_of_fmap. done.
Qed.

(** [[...new Set(values)].sort()]: the distinct values in order. *)
Definition sorted_set (values : list string) : list string := sort_by id (remove_dups values).

Lemma elem_of_sorted_set values v : v ∈ sorted_set values <-> v ∈ values.
Proof. unfold sorted_set. by rewrite sort_by_perm, elem_of_remove_dups. Qed.

Lemma sorted_set_NoDup values : NoDup (sorted_set values).
Proof. unfold sorted_set. rewrite sort_by_perm. apply NoDup_remove_dups. Qed.

(** The same set is written the same way. *)
Lemma sorted_set_ext values values' :
  (forall v, v ∈ values <-> v ∈ values') -> sorted_set values = sorted_set values'.
Proof.
  intros E. unfold sorted_set. apply sort_by_unique.
  - apply NoDup_Permutation; [apply NoDup_remove_dups..|].
    intros v. by rewrite !elem_of_remove_dups.
  - rewrite list_fmap_id. apply NoDup_remove_dups.
Qed.

(** [[...values].sort()] of a [Set] of values written with [name]. *)
Definition sorted_set_by {A} `{EqDecision A} (name : A -> string) (values : list A) : list A :=
  sort_by name (remove_dups values).

Lemma elem_of_sorted_set_by {A} `{EqDecision A} (name : A -> string) values v :
  v ∈ sorted_set_by name values <-> v ∈ values.
Proof. unfold sorted_set_by. by rewrite sort_by_perm, elem_of_remove_dups. Qed.

Lemma sorted_set_by_NoDup {A} `{EqDecision A} (name : A -> string) values :
  NoDup (sorted_set_by name values).
Proof. unfold sorted_set_by. rewrite sort_by_perm. apply NoDup_remove_dups. Qed.

Lemma sorted_set_by_nil {A} `{EqDecision A} (name : A -> string) values :
  sorted_set_by name values = [] <-> values = [].
Proof.
  split; [|by intros ->]. intros E. destruct values as [|v l]; [done|].
  assert (H : v ∈ sorted_set_by name (v :: l)) by (apply elem_of_sorted_set_by; by left).
  rewrite E in H. by apply elem_of_nil in H.
Qed.
