(* ===== verification/ComparisonContracts.v ===== *)
(** * Comparison contracts

    [packages/contracts/src/evaluation-comparison.ts] without the exact values
    (see [ExactArithmetic]): comparison definitions and evidence snapshots, with
    every refinement.  Literal fields carry no information and are not
    represented.  Totals are JavaScript numbers: a sum is rounded, and a schema
    that asks for a safe integer refuses it when it was. *)

From S2P Require Import Prelude Errors Primitives ExactArithmetic PolicyTime ReplayPlan ReplayJob.
From S2P Require Import ReplayAccounting.
#[local] Open Scope Z_scope.

(** ** Keys of references *)

(** [`${left}:${right}`] *)
Definition joined (s t : string) : string := (s ++ ":" ++ t)%string.

Definition joined_text (t t' : text) : text := t ++ [58] ++ t'.

Fixpoint isStrictlySortedText (values : list text) : bool :=
  match values with
  | [] => true
  | v :: rest =>
      match rest with
      | [] => true
      | w :: _ => text_lt v w && isStrictlySortedText rest
      end
  end.

Definition distinct {A} `{EqDecision A} (values : list A) : bool := bool_decide (NoDup values).

(** ** References *)

Record AssessmentReference := {
  assessmentRef_assessmentId : string;
  assessmentRef_definitionSha256 : string;
}.

Record ModelAssuranceAssessmentReference := {
  extensionRef_assessmentExtensionId : string;
  extensionRef_definitionSha256 : string;
}.

Record CriterionSetReference := {
  criterionSet_criterionSetId : string;
  criterionSet_criterionSetVersionId : string;
  criterionSet_definitionSha256 : string;
}.

Record CriterionReference := {
  criterion_criterionId : string;
  criterion_criterionSet : CriterionSetReference;
}.

Record RegressionFixtureVersionReference := {
  fixtureRef_fixtureId : string;
  fixtureRef_fixtureVersionId : string;
  fixtureRef_definitionSha256 : string;
}.

Record EvaluationDatasetVersionReference := {
  datasetRef_datasetId : string;
  datasetRef_datasetVersionId : string;
  datasetRef_definitionSha256 : string;
}.

Record EvaluationReplayResultReference := {
  replayRef_attemptId : string;
  replayRef_completedAt : PolicyEvaluationTime;
  replayRef_jobId : string;
  replayRef_plan : ReplayPlanJobReference;
  replayRef_result : ArtifactContentReference;
  replayRef_targetRelease : TargetReleaseReference;
}.

Record RawObservationReference := {
  rawRef_definitionSha256 : string;
  rawRef_observationId : string;
}.

Record ComparisonDefinitionReference := {
  comparisonRef_comparisonId : string;
  comparisonRef_comparisonVersionId : string;
  comparisonRef_definitionSha256 : string;
}.

#[global] Instance AssessmentReference_eq_dec : EqDecision AssessmentReference.
Proof. solve_decision. Defined.
#[global] Instance ModelAssuranceAssessmentReference_eq_dec : EqDecision ModelAssuranceAssessmentReference.
Proof. solve_decision. Defined.
#[global] Instance CriterionSetReference_eq_dec : EqDecision CriterionSetReference.
Proof. solve_decision. Defined.
#[global] Instance CriterionReference_eq_dec : EqDecision CriterionReference.
Proof. solve_decision. Defined.
#[global] Instance RegressionFixtureVersionReference_eq_dec : EqDecision RegressionFixtureVersionReference.
Proof. solve_decision. Defined.
#[global] Instance EvaluationDatasetVersionReference_eq_dec : EqDecision EvaluationDatasetVersionReference.
Proof. solve_decision. Defined.
#[global] Instance EvaluationReplayResultReference_eq_dec : EqDecision EvaluationReplayResultReference.
Proof. solve_decision. Defined.
#[global] Instance RawObservationReference_eq_dec : EqDecision RawObservationReference.
Proof. solve_decision. Defined.
#[global] Instance ComparisonDefinitionReference_eq_dec : EqDecision ComparisonDefinitionReference.
Proof. solve_decision. Defined.

Definition AssessmentReferenceSchema (r : AssessmentReference) : bool :=
  OpaqueIdSchema (assessmentRef_assessmentId r) && Sha256Schema (assessmentRef_definitionSha256 r).

Definition ModelAssuranceAssessmentReferenceSchema (r : ModelAssuranceAssessmentReference) : bool :=
  OpaqueIdSchema (extensionRef_assessmentExtensionId r) && Sha256Schema (extensionRef_definitionSha256 r).

Definition CriterionSetReferenceSchema (r : CriterionSetReference) : bool :=
  OpaqueIdSchema (criterionSet_criterionSetId r) && OpaqueIdSchema (criterionSet_criterionSetVersionId r) &&
  Sha256Schema (criterionSet_definitionSha256 r).

Definition CriterionReferenceSchema (r : CriterionReference) : bool :=
  OpaqueIdSchema (criterion_criterionId r) && CriterionSetReferenceSchema (criterion_criterionSet r).

Definition RegressionFixtureVersionReferenceSchema (r : RegressionFixtureVersionReference) : bool :=
  OpaqueIdSchema (fixtureRef_fixtureId r) && OpaqueIdSchema (fixtureRef_fixtureVersionId r) &&
  Sha256Schema (fixtureRef_definitionSha256 r).

Definition EvaluationDatasetVersionReferenceSchema (r : EvaluationDatasetVersionReference) : bool :=
  OpaqueIdSchema (datasetRef_datasetId r) && OpaqueIdSchema (datasetRef_datasetVersionId r) &&
  Sha256Schema (datasetRef_definitionSha256 r).

Definition EvaluationReplayResultReferenceSchema (r : EvaluationReplayResultReference) : bool :=
  OpaqueIdSchema (replayRef_attemptId r) && PolicyEvaluationTimeSchema (replayRef_completedAt r) &&
  OpaqueIdSchema (replayRef_jobId r) && ReplayPlanJobReferenceSchema (replayRef_plan r) &&
  ArtifactContentReferenceSchema (replayRef_result r) && TargetReleaseReferenceSchema (replayRef_targetRelease r).

Definition RawObservationReferenceSchema (r : RawObservationReference) : bool :=
  Sha256Schema (rawRef_definitionSha256 r) && OpaqueIdSchema (rawRef_observationId r).

Definition ComparisonDefinitionReferenceSchema (r : ComparisonDefinitionReference) : bool :=
  OpaqueIdSchema (comparisonRef_comparisonId r) && OpaqueIdSchema (comparisonRef_comparisonVersionId r) &&
  Sha256Schema (comparisonRef_definitionSha256 r).

Definition assessment_key (r : AssessmentReference) : string :=
  joined (assessmentRef_assessmentId r) (assessmentRef_definitionSha256 r).
Definition extension_key (r : ModelAssuranceAssessmentReference) : string :=
  joined (extensionRef_assessmentExtensionId r) (extensionRef_definitionSha256 r).
Definition fixture_version_key (r : RegressionFixtureVersionReference) : string :=
  joined (fixtureRef_fixtureId r) (fixtureRef_fixtureVersionId r).

(** ** Vocabularies *)

Inductive EvidenceKind : Type :=
| agent_run | agent_handoff | model_generate | tool_execute | retrieval_query | memory_access
| guardrail_check_kind | policy_decision | evaluation_score | artifact_change | custom_kind.

Definition evidence_kind_name (kind : EvidenceKind) : string :=
  match kind with
  | agent_run => "agent.run" | agent_handoff => "agent.handoff" | model_generate => "model.generate"
  | tool_execute => "tool.execute" | retrieval_query => "retrieval.query"
  | memory_access => "memory.access" | guardrail_check_kind => "guardrail.check"
  | policy_decision => "policy.decision" | evaluation_score => "evaluation.score"
  | artifact_change => "artifact.change" | custom_kind => "custom"
  end.

Inductive EvidenceStatus : Type := status_unset | status_ok | status_error.

Definition evidence_status_name (status : EvidenceStatus) : string :=
  match status with status_unset => "unset" | status_ok => "ok" | status_error => "error" end.

Inductive EvaluationVerdict : Type :=
| verdict_abstain | verdict_error | verdict_fail | verdict_not_applicable | verdict_pass.

Inductive AssessmentEligibilityReason : Type :=
| ar_criterion_not_approved | ar_criterion_not_applicable | ar_critical_counterevidence
| ar_digest_mismatch | ar_human_review_required | ar_insufficient_coverage
| ar_insufficient_evidence_classes | ar_insufficient_independent_quorum | ar_invalid_provenance
| ar_missing_non_model_evidence | ar_qualification_not_current | ar_source_identity_not_verified
| ar_source_review_not_current | ar_unresolved_disagreement | ar_unsupported_statistical_assumptions.

Definition assessment_reason_name (reason : AssessmentEligibilityReason) : string :=
  match reason with
  | ar_criterion_not_approved => "criterion_not_approved"
  | ar_criterion_not_applicable => "criterion_not_applicable"
  | ar_critical_counterevidence => "critical_counterevidence"
  | ar_digest_mismatch => "digest_mismatch"
  | ar_human_review_required => "human_review_required"
  | ar_insufficient_coverage => "insufficient_coverage"
  | ar_insufficient_evidence_classes => "insufficient_evidence_classes"
  | ar_insufficient_independent_quorum => "insufficient_independent_quorum"
  | ar_invalid_provenance => "invalid_provenance"
  | ar_missing_non_model_evidence => "missing_non_model_evidence"
  | ar_qualification_not_current => "qualification_not_current"
  | ar_source_identity_not_verified => "source_identity_not_verified"
  | ar_source_review_not_current => "source_review_not_current"
  | ar_unresolved_disagreement => "unresolved_disagreement"
  | ar_unsupported_statistical_assumptions => "unsupported_statistical_assumptions"
  end.

Inductive ModelAssuranceIneligibilityReason : Type :=
| mr_base_assessment_ineligible | mr_assurance_lineage_mismatch | mr_assurance_scope_mismatch
| mr_blind_incomplete | mr_blind_invalid | mr_calibration_incompatible | mr_calibration_stale
| mr_calibration_unavailable | mr_critical_counterevidence | mr_critique_invalid
| mr_human_review_conflicted | mr_human_review_expired | mr_human_review_missing
| mr_human_review_protocol_mismatch | mr_human_review_quorum_shortfall | mr_human_review_invalid
| mr_independence_correlated | mr_independence_unverified | mr_injection_qualification_failed
| mr_model_qualification_stale | mr_model_qualification_unqualified | mr_model_qualification_invalid
| mr_non_model_evidence_missing | mr_non_model_evidence_invalid | mr_order_sensitive_result
| mr_source_stale | mr_unresolved_disagreement.

Definition assurance_reason_name (reason : ModelAssuranceIneligibilityReason) : string :=
  match reason with
  | mr_base_assessment_ineligible => "base_assessment_ineligible"
  | mr_assurance_lineage_mismatch => "assurance_lineage_mismatch"
  | mr_assurance_scope_mismatch => "assurance_scope_mismatch"
  | mr_blind_incomplete => "blind_incomplete"
  | mr_blind_invalid => "blind_invalid"
  | mr_calibration_incompatible => "calibration_incompatible"
  | mr_calibration_stale => "calibration_stale"
  | mr_calibration_unavailable => "calibration_unavailable"
  | mr_critical_counterevidence => "critical_counterevidence"
  | mr_critique_invalid => "critique_invalid"
  | mr_human_review_conflicted => "human_review_conflicted"
  | mr_human_review_expired => "human_review_expired"
  | mr_human_review_missing => "human_review_missing"
  | mr_human_review_protocol_mismatch => "human_review_protocol_mismatch"
  | mr_human_review_quorum_shortfall => "human_review_quorum_shortfall"
  | mr_human_review_invalid => "human_review_invalid"
  | mr_independence_correlated => "independence_correlated"
  | mr_independence_unverified => "independence_unverified"
  | mr_injection_qualification_failed => "injection_qualification_failed"
  | mr_model_qualification_stale => "model_qualification_stale"
  | mr_model_qualification_unqualified => "model_qualification_unqualified"
  | mr_model_qualification_invalid => "model_qualification_invalid"
  | mr_non_model_evidence_missing => "non_model_evidence_missing"
  | mr_non_model_evidence_invalid => "non_model_evidence_invalid"
  | mr_order_sensitive_result => "order_sensitive_result"
  | mr_source_stale => "source_stale"
  | mr_unresolved_disagreement => "unresolved_disagreement"
  end.

#[global] Instance EvidenceKind_eq_dec : EqDecision EvidenceKind.
Proof. solve_decision. Defined.
#[global] Instance EvidenceStatus_eq_dec : EqDecision EvidenceStatus.
Proof. solve_decision. Defined.
#[global] Instance EvaluationVerdict_eq_dec : EqDecision EvaluationVerdict.
Proof. solve_decision. Defined.
#[global] Instance AssessmentEligibilityReason_eq_dec : EqDecision AssessmentEligibilityReason.
Proof. solve_decision. Defined.
#[global] Instance ModelAssuranceIneligibilityReason_eq_dec : EqDecision ModelAssuranceIneligibilityReason.
Proof. solve_decision. Defined.

(** ** Definitions *)

Definition MAX_COMPARISON_SUBJECT_ASSESSMENTS : Z := 128.
Definition MAX_COMPARISON_STRATA : Z := 64.
Definition MAX_COMPARISON_METRICS : Z := 128.
Definition MAX_COMPARISON_ARTIFACTS : Z := 4000.
Definition MAX_COMPARISON_SAFETY_EVENTS : Z := 4000.
Definition MAX_COMPARISON_OMISSIONS : Z := 4000.
Definition MAX_COMPARISON_COUNT : Z := MAX_SAFE_INTEGER.

(** [z.array(...).min(low).max(high)] *)
Definition sized {A} (low high : Z) (values : list A) : bool :=
  (low <=? Z.of_nat (length values)) && (Z.of_nat (length values) <=? high).

Definition exactAssessmentReferences (references : list AssessmentReference) : bool :=
  forallb AssessmentReferenceSchema references && sized 0 MAX_COMPARISON_SUBJECT_ASSESSMENTS references &&
  isStrictlySortedUnique (assessment_key <$> references).

Definition exactModelAssuranceReferences (references : list ModelAssuranceAssessmentReference) : bool :=
  forallb ModelAssuranceAssessmentReferenceSchema references &&
  sized 0 MAX_COMPARISON_SUBJECT_ASSESSMENTS references &&
  isStrictlySortedUnique (extension_key <$> references).

Record ComparisonSubjectFixture := {
  subject_assessments : list AssessmentReference;
  subject_fixture : RegressionFixtureVersionReference;
  subject_modelAssuranceAssessments : list ModelAssuranceAssessmentReference;
  subject_replay : EvaluationReplayResultReference;
}.

Definition ComparisonSubjectFixtureSchema (value : ComparisonSubjectFixture) : bool :=
  exactAssessmentReferences (subject_assessments value) &&
  RegressionFixtureVersionReferenceSchema (subject_fixture value) &&
  exactModelAssuranceReferences (subject_modelAssuranceAssessments value) &&
  EvaluationReplayResultReferenceSchema (subject_replay value).

Definition subjectFixtureKey (value : ComparisonSubjectFixture) : string :=
  fixture_version_key (subject_fixture value).

Record ComparisonSubject := {
  subject_dataset : EvaluationDatasetVersionReference;
  subject_fixtures : list ComparisonSubjectFixture;
}.

#[global] Instance ComparisonSubjectFixture_eq_dec : EqDecision ComparisonSubjectFixture.
Proof. solve_decision. Defined.
#[global] Instance ComparisonSubject_eq_dec : EqDecision ComparisonSubject.
Proof. solve_decision. Defined.

Definition ComparisonSubjectSchema (value : ComparisonSubject) : bool :=
  EvaluationDatasetVersionReferenceSchema (subject_dataset value) &&
  forallb ComparisonSubjectFixtureSchema (subject_fixtures value) &&
  sized 1 MAX_COMPARISON_SUBJECT_FIXTURES (subject_fixtures value) &&
  isStrictlySortedUnique (subjectFixtureKey <$> subject_fixtures value).

Inductive NumericAggregation : Type :=
| aggregation_maximum | aggregation_mean | aggregation_median | aggregation_minimum | aggregation_sum
| aggregation_nearest_rank_quantile (basisPoints : Z).

Definition NumericAggregationSchema (value : NumericAggregation) : bool :=
  match value with
  | aggregation_nearest_rank_quantile basisPoints => (1 <=? basisPoints) && (basisPoints <=? 10000)
  | _ => true
  end.

Inductive SafetyEventKind : Type :=
| safety_guardrail_check | safety_replay_intervention | safety_uncertain_side_effect.

Inductive AssuranceDimension : Type :=
| assessment_eligibility | calibration_availability | counterevidence | disagreement | human_review
| model_assurance_eligibility.

Inductive ComparisonAssuranceCondition : Type :=
| assessment_eligible | assessment_ineligible | calibration_available | calibration_incompatible
| calibration_stale | calibration_unavailable | critical_counterevidence_absent
| critical_counterevidence_present | disagreement_absent | human_review_available
| human_review_conflicted | human_review_expired | human_review_invalid | human_review_missing
| human_review_protocol_mismatch | human_review_quorum_shortfall | model_assurance_eligible
| model_assurance_ineligible | order_sensitive_result | unresolved_disagreement.

(** [comparisonAssuranceConditions]: the dimension a condition belongs to. *)
Definition condition_dimension (condition : ComparisonAssuranceCondition) : AssuranceDimension :=
  match condition with
  | assessment_eligible | assessment_ineligible => assessment_eligibility
  | calibration_available | calibration_incompatible | calibration_stale | calibration_unavailable =>
      calibration_availability
  | critical_counterevidence_absent | critical_counterevidence_present => counterevidence
  | disagreement_absent | order_sensitive_result | unresolved_disagreement => disagreement
  | human_review_available | human_review_conflicted | human_review_expired | human_review_invalid
  | human_review_missing | human_review_protocol_mismatch | human_review_quorum_shortfall => human_review
  | model_assurance_eligible | model_assurance_ineligible => model_assurance_eligibility
  end.

Inductive CoverageDimension : Type := coverage_abstention | coverage_decided | coverage_error | coverage_observed.

#[global] Instance AssuranceDimension_eq_dec : EqDecision AssuranceDimension.
Proof. solve_decision. Defined.

(** [COMPARISON_REPLAY_USAGE_UNITS] *)
Definition replay_usage_unit (dimension : ReplayBudgetDimension) : text :=
  text_of
    match dimension with
    | concurrentInteractions => "interactions"
    | elapsedMilliseconds => "milliseconds"
    | emittedArtifactBytes => "bytes"
    | inputTokens => "tokens"
    | jobAttempts => "attempts"
    | modelRequests => "requests"
    | outputTokens => "tokens"
    | providerCostMicrounits => "provider_cost_microunits"
    | retrievedBytes => "bytes"
    | toolCalls => "calls"
    end.

Inductive ComparisonMetricKind : Type :=
| trace_event_count (eventKind : EvidenceKind) (eventStatus : option EvidenceStatus)
| evaluation_verdict_count (criterion : CriterionReference) (verdict : EvaluationVerdict)
| numeric_measurement (aggregation : NumericAggregation) (measurementName unit_ : text)
| replay_usage (aggregation : NumericAggregation) (dimension : ReplayBudgetDimension) (unit_ : text)
| safety_event_count (eventKind : SafetyEventKind)
| artifact_set
| assurance_state_count (condition : ComparisonAssuranceCondition) (dimension : AssuranceDimension)
| coverage_count (criterion : CriterionReference) (dimension : CoverageDimension).

Record ComparisonMetric := {
  metric_label : text;
  metric_metricId : string;
  metric_stratumId : string;
  metric_kind : ComparisonMetricKind;
}.

Record ComparisonStratum := {
  stratum_fixtureIds : list string;
  stratum_label : text;
  stratum_stratumId : string;
}.

Record ComparisonDefinition := {
  comparison_baseline : ComparisonSubject;
  comparison_minimumPairedCoverageBasisPoints : Z;
  comparison_candidate : ComparisonSubject;
  comparison_comparisonId : string;
  comparison_comparisonVersionId : string;
  comparison_description : option text;
  comparison_metrics : list ComparisonMetric;
  comparison_name : text;
  comparison_predecessor : option (string * string);
  comparison_strata : list ComparisonStratum;
  comparison_createdAt : timestamp;
  comparison_createdByPrincipalId : string;
  comparison_definitionSha256 : string;
  comparison_scope : EvidenceScope;
}.

Definition fixture_ids (subject : ComparisonSubject) : list string :=
  (fun value => fixtureRef_fixtureId (subject_fixture value)) <$> subject_fixtures subject.

Definition refineComparisonPopulation (value : ComparisonDefinition) : bool :=
  forallb (fun stratum =>
    forallb (includes (fixture_ids (comparison_baseline value) ++ fixture_ids (comparison_candidate value)))
      (stratum_fixtureIds stratum)) (comparison_strata value) &&
  forallb (fun metric => includes (stratum_stratumId <$> comparison_strata value) (metric_stratumId metric))
    (comparison_metrics value).

Definition refineComparisonDefinition (value : ComparisonDefinition) : bool :=
  ((fst <$> comparison_predecessor value) !== Some (comparison_comparisonVersionId value)) &&
  (comparison_baseline value !== comparison_candidate value) &&
  refineComparisonPopulation value.

Section definitions.
Context `{UnicodeNormalization}.

Definition ComparisonMetricSchema (value : ComparisonMetric) : bool :=
  AssuranceSummarySchema (metric_label value) && OpaqueIdSchema (metric_metricId value) &&
  OpaqueIdSchema (metric_stratumId value) &&
  match metric_kind value with
  | trace_event_count _ _ | safety_event_count _ | artifact_set => true
  | evaluation_verdict_count criterion _ => CriterionReferenceSchema criterion
  | numeric_measurement aggregation measurementName unit_ =>
      NumericAggregationSchema aggregation && AssuranceSummarySchema measurementName &&
      AssuranceSummarySchema unit_
  | replay_usage aggregation dimension unit_ =>
      NumericAggregationSchema aggregation && AssuranceSummarySchema unit_ &&
      (unit_ === replay_usage_unit dimension)
  | assurance_state_count condition dimension => condition_dimension condition === dimension
  | coverage_count criterion _ => CriterionReferenceSchema criterion
  end.

Definition ComparisonStratumSchema (value : ComparisonStratum) : bool :=
  forallb OpaqueIdSchema (stratum_fixtureIds value) &&
  sized 1 MAX_COMPARISON_SUBJECT_FIXTURES (stratum_fixtureIds value) &&
  isStrictlySortedUnique (stratum_fixtureIds value) && AssuranceSummarySchema (stratum_label value) &&
  OpaqueIdSchema (stratum_stratumId value).

Definition ComparisonDefinitionRecordSchema (value : ComparisonDefinition) : bool :=
  ComparisonSubjectSchema (comparison_baseline value) &&
  (1 <=? comparison_minimumPairedCoverageBasisPoints value) &&
  (comparison_minimumPairedCoverageBasisPoints value <=? 10000) &&
  ComparisonSubjectSchema (comparison_candidate value) &&
  OpaqueIdSchema (comparison_comparisonId value) && OpaqueIdSchema (comparison_comparisonVersionId value) &&
  optional AssuranceSummarySchema (comparison_description value) &&
  forallb ComparisonMetricSchema (comparison_metrics value) &&
  sized 1 MAX_COMPARISON_METRICS (comparison_metrics value) &&
  isStrictlySortedUnique (metric_metricId <$> comparison_metrics value) &&
  AssuranceSummarySchema (comparison_name value) &&
  optional (fun predecessor => OpaqueIdSchema (fst predecessor) && Sha256Schema (snd predecessor))
    (comparison_predecessor value) &&
  forallb ComparisonStratumSchema (comparison_strata value) &&
  sized 1 MAX_COMPARISON_STRATA (comparison_strata value) &&
  isStrictlySortedUnique (stratum_stratumId <$> comparison_strata value) &&
  UtcMillisecondTimestampSchema (comparison_createdAt value) &&
  OpaqueIdSchema (comparison_createdByPrincipalId value) &&
  Sha256Schema (comparison_definitionSha256 value) && EvidenceScopeSchema (comparison_scope value) &&
  refineComparisonDefinition value.
End definitions.
