(* ===== verification/ComparisonSnapshot.v ===== *)
(** * Comparison evidence snapshots

    The second part of [packages/contracts/src/evaluation-comparison.ts]: what
    a snapshot retains of each fixture (trace counts, usage, verdict counts,
    numeric observations, assurance states, artifacts, safety events), the
    omissions it declares, and the rules that tie them together. *)

From S2P Require Import Prelude Errors Primitives ExactArithmetic PolicyTime ReplayPlan ReplayJob.
From S2P Require Import ReplayAccounting OrderedMap ComparisonContracts.
#[local] Open Scope Z_scope.

Inductive ComparisonRole : Type := baseline_role | candidate_role.

#[global] Instance ComparisonRole_eq_dec : EqDecision ComparisonRole.
Proof. solve_decision. Defined.

Definition SafeComparisonCountSchema (count : Z) : bool := (0 <=? count) && (count <=? MAX_COMPARISON_COUNT).
Definition PositiveComparisonCountSchema (count : Z) : bool := (1 <=? count) && (count <=? MAX_COMPARISON_COUNT).

(** [values.reduce((sum, entry) => sum + count(entry), 0)] *)
Definition number_sum {A} (count : A -> Z) (values : list A) : Z :=
  foldl (fun sum entry => js_add sum (count entry)) 0 values.

(** ** Traces *)

Record TraceKindCount := { kindCount_count : Z; kindCount_kind : EvidenceKind }.
Record TraceKindStatusCount := {
  jointCount_count : Z;
  jointCount_kind : EvidenceKind;
  jointCount_status : EvidenceStatus;
}.
Record TraceStatusCount := { statusCount_count : Z; statusCount_status : EvidenceStatus }.

Record ComparisonTraceStructure := {
  trace_eventCount : Z;
  trace_eventKinds : list TraceKindCount;
  trace_eventKindStatuses : list TraceKindStatusCount;
  trace_eventStatuses : list TraceStatusCount;
}.

(** [counts.set(key, (counts.get(key) ?? 0) + entry.count)] over the entries. *)
Definition projected_counts {A} (key : A -> string) (count : A -> Z) (entries : list A) : list (string * Z) :=
  foldl (fun counts entry =>
    map_set counts (key entry) (js_add (default 0 (map_get counts (key entry))) (count entry))) [] entries.

Definition joint_key (entry : TraceKindStatusCount) : string :=
  joined (evidence_kind_name (jointCount_kind entry)) (evidence_status_name (jointCount_status entry)).

Definition trace_totals_agree (value : ComparisonTraceStructure) : bool :=
  let kindTotal := number_sum kindCount_count (trace_eventKinds value) in
  let kindStatusTotal := number_sum jointCount_count (trace_eventKindStatuses value) in
  let statusTotal := number_sum statusCount_count (trace_eventStatuses value) in
  isSafeInteger kindTotal && isSafeInteger kindStatusTotal && isSafeInteger statusTotal &&
  (kindTotal =? trace_eventCount value) && (kindStatusTotal =? trace_eventCount value) &&
  (statusTotal =? trace_eventCount value).

Definition trace_projections_agree (value : ComparisonTraceStructure) : bool :=
  let jointKindCounts := projected_counts (fun entry => evidence_kind_name (jointCount_kind entry))
    jointCount_count (trace_eventKindStatuses value) in
  let jointStatusCounts := projected_counts (fun entry => evidence_status_name (jointCount_status entry))
    jointCount_count (trace_eventKindStatuses value) in
  (length (trace_eventKinds value) =? length jointKindCounts)%nat &&
  forallb (fun entry =>
    map_get jointKindCounts (evidence_kind_name (kindCount_kind entry)) === Some (kindCount_count entry))
    (trace_eventKinds value) &&
  (length (trace_eventStatuses value) =? length jointStatusCounts)%nat &&
  forallb (fun entry =>
    map_get jointStatusCounts (evidence_status_name (statusCount_status entry)) ===
      Some (statusCount_count entry))
    (trace_eventStatuses value).

Definition ComparisonTraceStructureSchema (value : ComparisonTraceStructure) : bool :=
  SafeComparisonCountSchema (trace_eventCount value) &&
  forallb (fun entry => PositiveComparisonCountSchema (kindCount_count entry)) (trace_eventKinds value) &&
  sized 0 11 (trace_eventKinds value) &&
  isStrictlySortedUnique ((fun entry => evidence_kind_name (kindCount_kind entry)) <$> trace_eventKinds value) &&
  forallb (fun entry => PositiveComparisonCountSchema (jointCount_count entry))
    (trace_eventKindStatuses value) &&
  sized 0 33 (trace_eventKindStatuses value) &&
  isStrictlySortedUnique (joint_key <$> trace_eventKindStatuses value) &&
  forallb (fun entry => PositiveComparisonCountSchema (statusCount_count entry)) (trace_eventStatuses value) &&
  sized 0 3 (trace_eventStatuses value) &&
  isStrictlySortedUnique
    ((fun entry => evidence_status_name (statusCount_status entry)) <$> trace_eventStatuses value) &&
  trace_totals_agree value && trace_projections_agree value.

(** ** Usage *)

Inductive ComparisonUsageSource : Type := usage_estimated | usage_measured | usage_provider_reported.

Inductive ComparisonUsageUnavailableReason : Type :=
| usage_measurement_failed | usage_provider_did_not_report | usage_source_unavailable.

Definition usage_source_name (source : ComparisonUsageSource) : string :=
  match source with
  | usage_estimated => "estimated" | usage_measured => "measured"
  | usage_provider_reported => "provider_reported"
  end.

Definition usage_reason_name (reason : ComparisonUsageUnavailableReason) : string :=
  match reason with
  | usage_measurement_failed => "measurement_failed"
  | usage_provider_did_not_report => "provider_did_not_report"
  | usage_source_unavailable => "source_unavailable"
  end.

Definition usageSources (sources : list ComparisonUsageSource) : bool :=
  sized 1 3 sources && isStrictlySortedUnique (usage_source_name <$> sources).

Definition unavailableUsageReasons (reasons : list ComparisonUsageUnavailableReason) : bool :=
  sized 1 3 reasons && isStrictlySortedUnique (usage_reason_name <$> reasons).

Inductive ComparisonUsageValue : Type :=
| usage_available (amount observedCount : Z) (sources : list ComparisonUsageSource)
| usage_partial (amount observedCount : Z) (sources : list ComparisonUsageSource) (unavailableCount : Z)
    (unavailableReasons : list ComparisonUsageUnavailableReason)
| usage_unavailable (unavailableCount : Z) (unavailableReasons : list ComparisonUsageUnavailableReason).

Definition ComparisonUsageValueSchema (value : ComparisonUsageValue) : bool :=
  match value with
  | usage_available amount observedCount sources =>
      SafeComparisonCountSchema amount && PositiveComparisonCountSchema observedCount && usageSources sources
  | usage_partial amount observedCount sources unavailableCount unavailableReasons =>
      SafeComparisonCountSchema amount && PositiveComparisonCountSchema observedCount &&
      usageSources sources && PositiveComparisonCountSchema unavailableCount &&
      unavailableUsageReasons unavailableReasons
  | usage_unavailable unavailableCount unavailableReasons =>
      PositiveComparisonCountSchema unavailableCount && unavailableUsageReasons unavailableReasons
  end.

Record ComparisonUsageDimension := {
  usage_dimension : ReplayBudgetDimension;
  usage_value : ComparisonUsageValue;
}.

(** ** Verdicts *)

Record ComparisonVerdictCounts := {
  counts_abstain : Z;
  counts_error : Z;
  counts_fail : Z;
  counts_notApplicable : Z;
  counts_pass : Z;
  counts_total : Z;
}.

Definition ComparisonVerdictCountsSchema (value : ComparisonVerdictCounts) : bool :=
  forallb SafeComparisonCountSchema
    [counts_abstain value; counts_error value; counts_fail value; counts_notApplicable value;
     counts_pass value; counts_total value] &&
  let reconstructed :=
    js_add (js_add (js_add (js_add (counts_abstain value) (counts_error value)) (counts_fail value))
      (counts_notApplicable value)) (counts_pass value) in
  isSafeInteger reconstructed && (reconstructed =? counts_total value).

Record ComparisonEvaluationOutcome := {
  outcome_assessment : AssessmentReference;
  outcome_criterion : CriterionReference;
  outcome_counts : ComparisonVerdictCounts;
}.

Definition ComparisonEvaluationOutcomeSchema (value : ComparisonEvaluationOutcome) : bool :=
  AssessmentReferenceSchema (outcome_assessment value) && CriterionReferenceSchema (outcome_criterion value) &&
  ComparisonVerdictCountsSchema (outcome_counts value).

Definition outcome_key (value : ComparisonEvaluationOutcome) : string :=
  joined (criterion_criterionId (outcome_criterion value)) (assessment_key (outcome_assessment value)).

(** ** Observations, assurance, artifacts, safety *)

Record ComparisonNumericObservation := {
  numeric_measurementName : text;
  numeric_observation : RawObservationReference;
  numeric_unit : text;
  numeric_value : string;
}.

Definition numeric_key (value : ComparisonNumericObservation) : text :=
  joined_text (numeric_measurementName value)
    (joined_text (numeric_unit value)
      (text_of (joined (rawRef_observationId (numeric_observation value))
        (rawRef_definitionSha256 (numeric_observation value))))).

Inductive ComparisonAssuranceState : Type :=
| assessment_state (eligible : bool) (reasons : list AssessmentEligibilityReason)
    (reference : AssessmentReference)
| model_assurance_state (eligible : bool) (reasons : list ModelAssuranceIneligibilityReason)
    (reference : ModelAssuranceAssessmentReference).

(** Eligibility and reasons agree. *)
Definition reasons_agree {A} (eligible : bool) (reasons : list A) : bool :=
  negb ((eligible && negb (length reasons =? 0)%nat) || (negb eligible && (length reasons =? 0)%nat)).

Definition ComparisonAssuranceStateSchema (value : ComparisonAssuranceState) : bool :=
  match value with
  | assessment_state eligible reasons reference =>
      sized 0 15 reasons && isStrictlySortedUnique (assessment_reason_name <$> reasons) &&
      AssessmentReferenceSchema reference && reasons_agree eligible reasons
  | model_assurance_state eligible reasons reference =>
      sized 0 27 reasons && isStrictlySortedUnique (assurance_reason_name <$> reasons) &&
      ModelAssuranceAssessmentReferenceSchema reference && reasons_agree eligible reasons
  end.

(** [`${value.kind}:${exactAssuranceReferenceKey(value.reference)}`] *)
Definition assurance_key (value : ComparisonAssuranceState) : string :=
  match value with
  | assessment_state _ _ reference => joined "assessment" (assessment_key reference)
  | model_assurance_state _ _ reference => joined "model_assurance" (extension_key reference)
  end.

Inductive ComparisonArtifactAvailability : Type :=
| artifact_available | artifact_revoked | artifact_unavailable.

#[global] Instance ComparisonArtifactAvailability_eq_dec : EqDecision ComparisonArtifactAvailability.
Proof. solve_decision. Defined.

Record ComparisonArtifactState := {
  state_artifact : ArtifactContentReference;
  state_availability : ComparisonArtifactAvailability;
}.

#[global] Instance SafetyEventKind_eq_dec : EqDecision SafetyEventKind.
Proof. solve_decision. Defined.

Record ComparisonSafetyEvent := {
  safety_eventId : string;
  safety_kind : SafetyEventKind;
  safety_occurredAt : timestamp;
  safety_sourceId : string;
  safety_sourceSha256 : string;
}.

Definition ComparisonSafetyEventSchema (value : ComparisonSafetyEvent) : bool :=
  OpaqueIdSchema (safety_eventId value) && UtcMillisecondTimestampSchema (safety_occurredAt value) &&
  OpaqueIdSchema (safety_sourceId value) && Sha256Schema (safety_sourceSha256 value).

(** ** Omissions *)

Inductive ComparisonOmission : Type :=
| artifact_omission (fixtureId artifactId : string) (revoked : bool)
| assessment_omission (fixtureId : string) (assessment : AssessmentReference)
| classified_content_omission (fixtureId : string) (projectionKey : text)
| numeric_measurement_omission (fixtureId : string) (measurementName : text) (over_limit : bool) (unit_ : text)
| model_assurance_omission (fixtureId : string) (assessment : ModelAssuranceAssessmentReference).

Definition omission_fixtureId (value : ComparisonOmission) : string :=
  match value with
  | artifact_omission fixtureId _ _ | assessment_omission fixtureId _
  | classified_content_omission fixtureId _ | numeric_measurement_omission fixtureId _ _ _
  | model_assurance_omission fixtureId _ => fixtureId
  end.

Definition comparisonOmissionKey (value : ComparisonOmission) : text :=
  match value with
  | artifact_omission fixtureId artifactId _ => text_of (joined fixtureId (joined "artifact" artifactId))
  | assessment_omission fixtureId assessment =>
      text_of (joined fixtureId (joined "assessment" (assessment_key assessment)))
  | classified_content_omission fixtureId projectionKey =>
      joined_text (text_of (joined fixtureId "classified_content")) projectionKey
  | numeric_measurement_omission fixtureId measurementName _ unit_ =>
      joined_text (text_of (joined fixtureId "numeric_measurement")) (joined_text measurementName unit_)
  | model_assurance_omission fixtureId assessment =>
      text_of (joined fixtureId (joined "model_assurance_assessment" (extension_key assessment)))
  end.

(** ** Snapshots *)

Record ComparisonEvidenceFixtureSnapshot := {
  snapshot_artifacts : list ComparisonArtifactState;
  snapshot_assurance : list ComparisonAssuranceState;
  snapshot_evaluationOutcomes : list ComparisonEvaluationOutcome;
  snapshot_fixture : RegressionFixtureVersionReference;
  snapshot_numericObservations : list ComparisonNumericObservation;
  snapshot_replay : EvaluationReplayResultReference;
  snapshot_safetyEvents : list ComparisonSafetyEvent;
  snapshot_trace : ComparisonTraceStructure;
  snapshot_usage : list ComparisonUsageDimension;
}.

Record ComparisonEvidenceSnapshot := {
  evidence_comparison : ComparisonDefinitionReference;
  evidence_dataset : EvaluationDatasetVersionReference;
  evidence_fixtures : list ComparisonEvidenceFixtureSnapshot;
  evidence_knownLimitations : list text;
  evidence_omissions : list ComparisonOmission;
  evidence_role : ComparisonRole;
  evidence_snapshotId : string;
  evidence_sourceCutoff : timestamp;
  evidence_createdAt : timestamp;
  evidence_createdByPrincipalId : string;
  evidence_definitionSha256 : string;
  evidence_scope : EvidenceScope;
}.

Definition snapshot_fixtureId (value : ComparisonEvidenceFixtureSnapshot) : string :=
  fixtureRef_fixtureId (snapshot_fixture value).

Definition retained_artifact_ids (value : ComparisonEvidenceSnapshot) : list string :=
  mjoin ((fun fixture => (fun state => artifactId (state_artifact state)) <$> snapshot_artifacts fixture)
    <$> evidence_fixtures value).

(** One omission against the fixture it names. *)
Definition omission_agrees (fixture : ComparisonEvidenceFixtureSnapshot) (omission : ComparisonOmission) : bool :=
  match omission with
  | numeric_measurement_omission _ measurementName _ unit_ =>
      negb (existsb (fun observation =>
        (numeric_measurementName observation === measurementName) && (numeric_unit observation === unit_))
        (snapshot_numericObservations fixture))
  | assessment_omission _ assessment =>
      negb (existsb (fun assurance =>
        match assurance with
        | assessment_state _ _ reference => reference === assessment
        | model_assurance_state _ _ _ => false
        end) (snapshot_assurance fixture))
  | model_assurance_omission _ assessment =>
      negb (existsb (fun assurance =>
        match assurance with
        | model_assurance_state _ _ reference => reference === assessment
        | assessment_state _ _ _ => false
        end) (snapshot_assurance fixture))
  | artifact_omission _ artifact_id revoked =>
      match List.find (fun state => artifactId (state_artifact state) === artifact_id)
              (snapshot_artifacts fixture) with
      | Some retained =>
          state_availability retained === (if revoked then artifact_revoked else artifact_unavailable)
      | None => false
      end
  | classified_content_omission _ _ => true
  end.

(** No issue: artifact identities are retained once in the whole snapshot, and
    every omission names a retained fixture it agrees with. *)
Definition refineComparisonEvidenceSnapshot (value : ComparisonEvidenceSnapshot) : bool :=
  let fixtures := map_by snapshot_fixtureId (evidence_fixtures value) in
  distinct (retained_artifact_ids value) &&
  (Z.of_nat (length (retained_artifact_ids value)) <=? MAX_COMPARISON_ARTIFACTS) &&
  forallb (fun omission =>
    match map_get fixtures (omission_fixtureId omission) with
    | Some fixture => omission_agrees fixture omission
    | None => false
    end) (evidence_omissions value).

Section schemas.
Context `{UnicodeNormalization}.

Definition ComparisonNumericObservationSchema (value : ComparisonNumericObservation) : bool :=
  AssuranceSummarySchema (numeric_measurementName value) &&
  RawObservationReferenceSchema (numeric_observation value) && AssuranceSummarySchema (numeric_unit value) &&
  ExactDecimalSchema (numeric_value value).

Definition ComparisonOmissionSchema (value : ComparisonOmission) : bool :=
  OpaqueIdSchema (omission_fixtureId value) &&
  match value with
  | artifact_omission _ artifactId _ => OpaqueIdSchema artifactId
  | assessment_omission _ assessment => AssessmentReferenceSchema assessment
  | classified_content_omission _ projectionKey => AssuranceSummarySchema projectionKey
  | numeric_measurement_omission _ measurementName _ unit_ =>
      AssuranceSummarySchema measurementName && AssuranceSummarySchema unit_
  | model_assurance_omission _ assessment => ModelAssuranceAssessmentReferenceSchema assessment
  end.

Definition ComparisonEvidenceFixtureSnapshotSchema (value : ComparisonEvidenceFixtureSnapshot) : bool :=
  forallb (fun state => ArtifactContentReferenceSchema (state_artifact state)) (snapshot_artifacts value) &&
  sized 0 MAX_COMPARISON_ARTIFACTS (snapshot_artifacts value) &&
  isStrictlySortedUnique
    ((fun state => joined (artifactId (state_artifact state)) (sha256 (state_artifact state)))
      <$> snapshot_artifacts value) &&
  isStrictlySortedUnique ((fun state => artifactId (state_artifact state)) <$> snapshot_artifacts value) &&
  forallb ComparisonAssuranceStateSchema (snapshot_assurance value) &&
  sized 0 (MAX_COMPARISON_SUBJECT_ASSESSMENTS * 2) (snapshot_assurance value) &&
  isStrictlySortedUnique (assurance_key <$> snapshot_assurance value) &&
  forallb ComparisonEvaluationOutcomeSchema (snapshot_evaluationOutcomes value) &&
  sized 0 MAX_COMPARISON_SUBJECT_ASSESSMENTS (snapshot_evaluationOutcomes value) &&
  isStrictlySortedUnique (outcome_key <$> snapshot_evaluationOutcomes value) &&
  RegressionFixtureVersionReferenceSchema (snapshot_fixture value) &&
  forallb ComparisonNumericObservationSchema (snapshot_numericObservations value) &&
  sized 0 MAX_COMPARISON_NUMERIC_OBSERVATIONS (snapshot_numericObservations value) &&
  isStrictlySortedText (numeric_key <$> snapshot_numericObservations value) &&
  EvaluationReplayResultReferenceSchema (snapshot_replay value) &&
  forallb ComparisonSafetyEventSchema (snapshot_safetyEvents value) &&
  sized 0 MAX_COMPARISON_SAFETY_EVENTS (snapshot_safetyEvents value) &&
  isStrictlySortedUnique (safety_eventId <$> snapshot_safetyEvents value) &&
  ComparisonTraceStructureSchema (snapshot_trace value) &&
  forallb (fun entry => ComparisonUsageValueSchema (usage_value entry)) (snapshot_usage value) &&
  sized 0 10 (snapshot_usage value) &&
  isStrictlySortedUnique ((fun entry => dimension_name (usage_dimension entry)) <$> snapshot_usage value).

Definition ComparisonEvidenceSnapshotSchema (value : ComparisonEvidenceSnapshot) : bool :=
  ComparisonDefinitionReferenceSchema (evidence_comparison value) &&
  EvaluationDatasetVersionReferenceSchema (evidence_dataset value) &&
  forallb ComparisonEvidenceFixtureSnapshotSchema (evidence_fixtures value) &&
  sized 1 MAX_COMPARISON_SUBJECT_FIXTURES (evidence_fixtures value) &&
  isStrictlySortedUnique ((fun value => fixture_version_key (snapshot_fixture value)) <$> evidence_fixtures value) &&
  forallb AssuranceSummarySchema (evidence_knownLimitations value) &&
  sized 0 64 (evidence_knownLimitations value) && isStrictlySortedText (evidence_knownLimitations value) &&
  forallb ComparisonOmissionSchema (evidence_omissions value) &&
  sized 0 MAX_COMPARISON_OMISSIONS (evidence_omissions value) &&
  isStrictlySortedText (comparisonOmissionKey <$> evidence_omissions value) &&
  OpaqueIdSchema (evidence_snapshotId value) &&
  UtcMillisecondTimestampSchema (evidence_sourceCutoff value) &&
  UtcMillisecondTimestampSchema (evidence_createdAt value) &&
  OpaqueIdSchema (evidence_createdByPrincipalId value) &&
  Sha256Schema (evidence_definitionSha256 value) && EvidenceScopeSchema (evidence_scope value) &&
  refineComparisonEvidenceSnapshot value &&
  negb (evidence_createdAt value <? evidence_sourceCutoff value).
End schemas.
