(* ===== verification/ComparisonResults.v ===== *)
(** * Comparison results

    [packages/contracts/src/evaluation-comparison-result.ts], the parts a
    derivation fills in: cases and their pairing summary, comparability, metric
    samples, values and results, verdict transitions and marginals, and safety
    counts. *)

From S2P Require Import Prelude Errors BigInts Primitives ExactArithmetic ReplayPlan.
From S2P Require Import ComparisonContracts ComparisonSnapshot.
From Stdlib Require Import Ascii.
#[local] Open Scope Z_scope.

Definition MAX_COMPARISON_RESULT_REASONS : Z := 32.

(** ** Cases *)

Inductive ComparisonMissingCaseReason : Type :=
| fixture_absent | snapshot_omission | missing_source_unavailable.

Inductive ComparisonInvalidCaseReason : Type :=
| ambiguous_pairing | digest_mismatch | invalid_source_integrity | nonterminal_replay
| case_scope_mismatch | unresolved_lineage.

Definition invalid_case_name (reason : ComparisonInvalidCaseReason) : string :=
  match reason with
  | ambiguous_pairing => "ambiguous_pairing" | digest_mismatch => "digest_mismatch"
  | invalid_source_integrity => "invalid_source_integrity" | nonterminal_replay => "nonterminal_replay"
  | case_scope_mismatch => "scope_mismatch" | unresolved_lineage => "unresolved_lineage"
  end.

Inductive ComparisonCaseState : Type :=
| paired_case (baseline candidate : RegressionFixtureVersionReference)
| baseline_only_case (baseline : RegressionFixtureVersionReference)
    (candidateMissingReason : ComparisonMissingCaseReason)
| candidate_only_case (baselineMissingReason : ComparisonMissingCaseReason)
    (candidate : RegressionFixtureVersionReference)
| invalid_case (baseline candidate : option RegressionFixtureVersionReference)
    (reasons : list ComparisonInvalidCaseReason).

Record ComparisonCase := { case_fixtureId : string; case_state : ComparisonCaseState }.

#[global] Instance ComparisonMissingCaseReason_eq_dec : EqDecision ComparisonMissingCaseReason.
Proof. solve_decision. Defined.
#[global] Instance ComparisonInvalidCaseReason_eq_dec : EqDecision ComparisonInvalidCaseReason.
Proof. solve_decision. Defined.
#[global] Instance ComparisonCaseState_eq_dec : EqDecision ComparisonCaseState.
Proof. solve_decision. Defined.
#[global] Instance ComparisonCase_eq_dec : EqDecision ComparisonCase.
Proof. solve_decision. Defined.

Definition case_baseline (value : ComparisonCase) : option RegressionFixtureVersionReference :=
  match case_state value with
  | paired_case baseline _ | baseline_only_case baseline _ => Some baseline
  | candidate_only_case _ _ => None
  | invalid_case baseline _ _ => baseline
  end.

Definition case_candidate (value : ComparisonCase) : option RegressionFixtureVersionReference :=
  match case_state value with
  | paired_case _ candidate | candidate_only_case _ candidate => Some candidate
  | baseline_only_case _ _ => None
  | invalid_case _ candidate _ => candidate
  end.

Definition ComparisonCaseSchema (value : ComparisonCase) : bool :=
  OpaqueIdSchema (case_fixtureId value) &&
  optional RegressionFixtureVersionReferenceSchema (case_baseline value) &&
  optional RegressionFixtureVersionReferenceSchema (case_candidate value) &&
  match case_state value with
  | invalid_case baseline candidate reasons =>
      sized 1 6 reasons && isStrictlySortedUnique (invalid_case_name <$> reasons) &&
      ((baseline !== None) || (candidate !== None))
  | _ => true
  end &&
  optional (fun baseline => fixtureRef_fixtureId baseline === case_fixtureId value) (case_baseline value) &&
  optional (fun candidate => fixtureRef_fixtureId candidate === case_fixtureId value) (case_candidate value).

Definition is_paired (value : ComparisonCase) : bool :=
  match case_state value with paired_case _ _ => true | _ => false end.
Definition is_baseline_only (value : ComparisonCase) : bool :=
  match case_state value with baseline_only_case _ _ => true | _ => false end.
Definition is_candidate_only (value : ComparisonCase) : bool :=
  match case_state value with candidate_only_case _ _ => true | _ => false end.
Definition is_invalid (value : ComparisonCase) : bool :=
  match case_state value with invalid_case _ _ _ => true | _ => false end.

Record ComparisonPairingSummary := {
  pairing_baselineOnlyCount : Z;
  pairing_candidateOnlyCount : Z;
  pairing_invalidCount : Z;
  pairing_pairedCount : Z;
  pairing_requestedCount : Z;
}.

Definition ComparisonPairingSummarySchema (value : ComparisonPairingSummary) : bool :=
  forallb SafeComparisonCountSchema
    [pairing_baselineOnlyCount value; pairing_candidateOnlyCount value; pairing_invalidCount value;
     pairing_pairedCount value; pairing_requestedCount value] &&
  let reconstructed :=
    js_add (js_add (js_add (pairing_baselineOnlyCount value) (pairing_candidateOnlyCount value))
      (pairing_invalidCount value)) (pairing_pairedCount value) in
  isSafeInteger reconstructed && (reconstructed =? pairing_requestedCount value).

(** ** Comparability *)

Inductive ComparisonComparabilityReason : Type :=
| calibration_mismatch | criterion_mismatch | dataset_mismatch | fixture_mismatch
| insufficient_paired_coverage | source_integrity_invalid | method_mismatch | missing_source_evidence
| population_mismatch | unit_mismatch | unresolved_critical_counterevidence
| unsupported_statistical_assumptions.

Definition comparability_reason_name (reason : ComparisonComparabilityReason) : string :=
  match reason with
  | calibration_mismatch => "calibration_mismatch" | criterion_mismatch => "criterion_mismatch"
  | dataset_mismatch => "dataset_mismatch" | fixture_mismatch => "fixture_mismatch"
  | insufficient_paired_coverage => "insufficient_paired_coverage"
  | source_integrity_invalid => "invalid_source_integrity" | method_mismatch => "method_mismatch"
  | missing_source_evidence => "missing_source_evidence" | population_mismatch => "population_mismatch"
  | unit_mismatch => "unit_mismatch"
  | unresolved_critical_counterevidence => "unresolved_critical_counterevidence"
  | unsupported_statistical_assumptions => "unsupported_statistical_assumptions"
  end.

#[global] Instance ComparisonComparabilityReason_eq_dec : EqDecision ComparisonComparabilityReason.
Proof. solve_decision. Defined.

Inductive ComparabilityStatus : Type := comparable | incomparable | partially_comparable.

#[global] Instance ComparabilityStatus_eq_dec : EqDecision ComparabilityStatus.
Proof. solve_decision. Defined.

Record ComparisonComparability := {
  comparability_reasons : list ComparisonComparabilityReason;
  comparability_status : ComparabilityStatus;
}.

Definition ComparisonComparabilitySchema (value : ComparisonComparability) : bool :=
  sized 0 MAX_COMPARISON_RESULT_REASONS (comparability_reasons value) &&
  isStrictlySortedUnique (comparability_reason_name <$> comparability_reasons value) &&
  negb (((comparability_status value === comparable) && negb (length (comparability_reasons value) =? 0)%nat) ||
        ((comparability_status value !== comparable) && (length (comparability_reasons value) =? 0)%nat)).

(** ** Metric samples *)

(** The counts of one population: the two roles and the pairs. *)
Record SampleCounts := {
  sample_invalidCount : Z;
  sample_missingCount : Z;
  sample_observedCount : Z;
  sample_totalCount : Z;
  sample_unavailableCount : Z;
}.

Record ComparisonMetricSampleCounts := {
  samples_baseline : SampleCounts;
  samples_candidate : SampleCounts;
  samples_paired : SampleCounts;
}.

Definition safe_sample (value : SampleCounts) : bool :=
  forallb SafeComparisonCountSchema
    [sample_invalidCount value; sample_missingCount value; sample_observedCount value;
     sample_totalCount value; sample_unavailableCount value].

Definition sample_reconstructs (value : SampleCounts) : bool :=
  let total :=
    js_add (js_add (js_add (sample_invalidCount value) (sample_missingCount value))
      (sample_observedCount value)) (sample_unavailableCount value) in
  isSafeInteger total && (total =? sample_totalCount value).

Definition ComparisonMetricSampleCountsSchema (value : ComparisonMetricSampleCounts) : bool :=
  let baseline := samples_baseline value in
  let candidate := samples_candidate value in
  let paired := samples_paired value in
  safe_sample baseline && safe_sample candidate && safe_sample paired &&
  negb ((sample_observedCount baseline <? sample_observedCount paired) ||
        (sample_observedCount candidate <? sample_observedCount paired)) &&
  sample_reconstructs baseline && sample_reconstructs candidate && sample_reconstructs paired &&
  negb ((sample_totalCount baseline <? sample_totalCount paired) ||
        (sample_totalCount candidate <? sample_totalCount paired)) &&
  negb ((js_add (sample_missingCount baseline) (sample_missingCount candidate) <? sample_missingCount paired) ||
        (js_add (sample_unavailableCount baseline) (sample_unavailableCount candidate) <?
           sample_unavailableCount paired) ||
        (js_add (sample_invalidCount baseline) (sample_invalidCount candidate) <? sample_invalidCount paired)).

(** ** Metric values *)

Inductive ComparisonMetricUnavailableReason : Type :=
| baseline_missing | candidate_missing | insufficient_observations | invalid_observations
| measurement_unavailable | source_over_limit.

Definition unavailable_reason_name (reason : ComparisonMetricUnavailableReason) : string :=
  match reason with
  | baseline_missing => "baseline_missing" | candidate_missing => "candidate_missing"
  | insufficient_observations => "insufficient_observations"
  | invalid_observations => "invalid_observations"
  | measurement_unavailable => "measurement_unavailable" | source_over_limit => "source_over_limit"
  end.

Inductive MetricDirection : Type := decreased | increased | unchanged.

#[global] Instance ComparisonMetricUnavailableReason_eq_dec : EqDecision ComparisonMetricUnavailableReason.
Proof. solve_decision. Defined.
#[global] Instance MetricDirection_eq_dec : EqDecision MetricDirection.
Proof. solve_decision. Defined.

Inductive ComparisonMetricValue : Type :=
| metric_available (baseline candidate delta : ComparisonExactValue) (direction : MetricDirection)
| metric_unavailable (reasons : list ComparisonMetricUnavailableReason)
| metric_incomparable (baseline candidate : option ComparisonExactValue)
    (reasons : list ComparisonComparabilityReason).

#[global] Instance ComparisonMetricValue_eq_dec : EqDecision ComparisonMetricValue.
Proof. solve_decision. Defined.

Definition exact_unit (value : ComparisonExactValue) : text :=
  match value with decimal_value unit _ | rational_value _ _ unit => unit end.

(** [exactDecimalParts] *)
Definition exactDecimalParts (value : string) : Z * Z :=
  let characters := String.list_ascii_of_string value in
  let negative := match characters with "-"%char :: _ => true | _ => false end in
  let parts := split_dot (if negative then tail characters else characters) in
  let whole := default ["0"%char] (parts !! 0%nat) in
  let fraction := default [] (parts !! 1%nat) in
  (BigInt_list (whole ++ fraction) * (if negative then -1 else 1), Z.of_nat (length fraction)).

Definition exactFraction (value : ComparisonExactValue) : ExactFraction :=
  match value with
  | rational_value denominator numerator _ =>
      {| denominator := BigInt denominator; numerator := BigInt numerator |}
  | decimal_value _ value =>
      let '(integer, scale) := exactDecimalParts value in
      let denominator := 10 ^ scale in
      let divisor := greatestCommonDivisor integer denominator in
      {| denominator := Z.quot denominator divisor; numerator := Z.quot integer divisor |}
  end.

Record ExactDelta := { delta_matches : bool; delta_sign : Z }.

Definition exactDelta (baseline candidate delta : ComparisonExactValue) : ExactDelta :=
  let baselineFraction := exactFraction baseline in
  let candidateFraction := exactFraction candidate in
  let deltaFraction := exactFraction delta in
  let expectedNumerator :=
    numerator candidateFraction * denominator baselineFraction -
    numerator baselineFraction * denominator candidateFraction in
  let expectedDenominator := denominator candidateFraction * denominator baselineFraction in
  {| delta_matches :=
       expectedNumerator * denominator deltaFraction =? numerator deltaFraction * expectedDenominator;
     delta_sign :=
       if numerator deltaFraction =? 0 then 0 else if numerator deltaFraction <? 0 then -1 else 1 |}.

Definition direction_of (sign : Z) : MetricDirection :=
  if sign =? 0 then unchanged else if sign <? 0 then decreased else increased.

Section values.
Context `{UnicodeNormalization}.

Definition ComparisonMetricValueSchema (value : ComparisonMetricValue) : bool :=
  match value with
  | metric_available baseline candidate delta direction =>
      ComparisonExactValueSchema baseline && ComparisonExactValueSchema candidate &&
      ComparisonExactValueSchema delta &&
      negb ((exact_unit baseline !== exact_unit candidate) || (exact_unit baseline !== exact_unit delta)) &&
      delta_matches (exactDelta baseline candidate delta) &&
      (direction === direction_of (delta_sign (exactDelta baseline candidate delta)))
  | metric_unavailable reasons =>
      sized 1 6 reasons && isStrictlySortedUnique (unavailable_reason_name <$> reasons)
  | metric_incomparable baseline candidate reasons =>
      optional ComparisonExactValueSchema baseline && optional ComparisonExactValueSchema candidate &&
      sized 1 MAX_COMPARISON_RESULT_REASONS reasons &&
      isStrictlySortedUnique (comparability_reason_name <$> reasons)
  end.
End values.

(** ** Usage provenance and metric results *)

Inductive MetricKind : Type :=
| kind_artifact_set | kind_assurance_state_count | kind_coverage_count | kind_evaluation_verdict_count
| kind_numeric_measurement | kind_replay_usage | kind_safety_event_count | kind_trace_event_count.

#[global] Instance MetricKind_eq_dec : EqDecision MetricKind.
Proof. solve_decision. Defined.

(** [COMPARISON_COUNT_METRIC_UNITS] *)
Definition count_metric_unit (kind : MetricKind) : option text :=
  match kind with
  | kind_artifact_set => Some (text_of "artifacts")
  | kind_assurance_state_count => Some (text_of "assurance_records")
  | kind_coverage_count => Some (text_of "cases")
  | kind_evaluation_verdict_count => Some (text_of "evaluation_outcomes")
  | kind_safety_event_count | kind_trace_event_count => Some (text_of "events")
  | kind_numeric_measurement | kind_replay_usage => None
  end.

Record ComparisonUsageMetricRoleProvenance := {
  provenance_completeCount : Z;
  provenance_observedSources : list ComparisonUsageSource;
  provenance_partialCount : Z;
  provenance_unavailableCount : Z;
  provenance_unavailableReasons : list ComparisonUsageUnavailableReason;
}.

Definition ComparisonUsageMetricRoleProvenanceSchema (value : ComparisonUsageMetricRoleProvenance) : bool :=
  let hasObservedUsage := (0 <? provenance_completeCount value) || (0 <? provenance_partialCount value) in
  let hasUnavailableUsage := (0 <? provenance_partialCount value) || (0 <? provenance_unavailableCount value) in
  SafeComparisonCountSchema (provenance_completeCount value) &&
  sized 0 3 (provenance_observedSources value) &&
  isStrictlySortedUnique (usage_source_name <$> provenance_observedSources value) &&
  SafeComparisonCountSchema (provenance_partialCount value) &&
  SafeComparisonCountSchema (provenance_unavailableCount value) &&
  sized 0 3 (provenance_unavailableReasons value) &&
  isStrictlySortedUnique (usage_reason_name <$> provenance_unavailableReasons value) &&
  isSafeInteger (js_add (js_add (provenance_completeCount value) (provenance_partialCount value))
    (provenance_unavailableCount value)) &&
  (hasObservedUsage === negb (length (provenance_observedSources value) =? 0)%nat) &&
  (hasUnavailableUsage === negb (length (provenance_unavailableReasons value) =? 0)%nat).

Record ComparisonUsageMetricProvenance := {
  provenance_baseline : ComparisonUsageMetricRoleProvenance;
  provenance_candidate : ComparisonUsageMetricRoleProvenance;
}.

Record ComparisonMetricResult := {
  result_kind : MetricKind;
  result_metricId : string;
  result_samples : ComparisonMetricSampleCounts;
  result_unit : text;
  result_usageProvenance : option ComparisonUsageMetricProvenance;
  result_value : ComparisonMetricValue;
}.

Definition exact_values (value : ComparisonMetricValue) : list ComparisonExactValue :=
  match value with
  | metric_available baseline candidate delta _ => [baseline; candidate; delta]
  | metric_incomparable baseline candidate _ => option_list baseline ++ option_list candidate
  | metric_unavailable _ => []
  end.

Definition provenance_reconstructs (provenance : ComparisonUsageMetricRoleProvenance) (sample : SampleCounts) : bool :=
  (provenance_completeCount provenance =? sample_observedCount sample) &&
  (js_add (provenance_partialCount provenance) (provenance_unavailableCount provenance) =?
     sample_unavailableCount sample).

Definition refineComparisonMetricResult (value : ComparisonMetricResult) : bool :=
  match count_metric_unit (result_kind value) with
  | Some canonicalCountUnit => result_unit value === canonicalCountUnit
  | None => true
  end &&
  forallb (fun exact => exact_unit exact === result_unit value) (exact_values (result_value value)) &&
  match result_value value with
  | metric_available _ _ _ _ => negb (sample_observedCount (samples_paired (result_samples value)) =? 0)
  | _ => true
  end &&
  match result_usageProvenance value with
  | None => result_kind value !== kind_replay_usage
  | Some provenance =>
      (result_kind value === kind_replay_usage) &&
      provenance_reconstructs (provenance_baseline provenance) (samples_baseline (result_samples value)) &&
      provenance_reconstructs (provenance_candidate provenance) (samples_candidate (result_samples value))
  end.

Definition ComparisonMetricResultSchema `{UnicodeNormalization} (value : ComparisonMetricResult) : bool :=
  OpaqueIdSchema (result_metricId value) && ComparisonMetricSampleCountsSchema (result_samples value) &&
  AssuranceSummarySchema (result_unit value) &&
  optional (fun provenance =>
    ComparisonUsageMetricRoleProvenanceSchema (provenance_baseline provenance) &&
    ComparisonUsageMetricRoleProvenanceSchema (provenance_candidate provenance))
    (result_usageProvenance value) &&
  ComparisonMetricValueSchema (result_value value) && refineComparisonMetricResult value.

(** ** Verdict transitions *)

Record ComparisonVerdictTransition := {
  transition_baseline : EvaluationVerdict;
  transition_candidate : EvaluationVerdict;
  transition_count : Z;
  transition_criterion : CriterionReference;
}.

Definition ComparisonVerdictTransitionSchema (value : ComparisonVerdictTransition) : bool :=
  PositiveComparisonCountSchema (transition_count value) &&
  CriterionReferenceSchema (transition_criterion value).

Inductive ComparisonVerdictTransitionUnavailableReason : Type :=
| ambiguous_aggregate_pairing | assessment_mismatch | invalid_paired_evidence | missing_paired_evidence
| outcome_count_mismatch.

Definition transition_reason_name (reason : ComparisonVerdictTransitionUnavailableReason) : string :=
  match reason with
  | ambiguous_aggregate_pairing => "ambiguous_aggregate_pairing"
  | assessment_mismatch => "assessment_mismatch"
  | invalid_paired_evidence => "invalid_paired_evidence"
  | missing_paired_evidence => "missing_paired_evidence"
  | outcome_count_mismatch => "outcome_count_mismatch"
  end.

#[global] Instance ComparisonVerdictTransitionUnavailableReason_eq_dec :
  EqDecision ComparisonVerdictTransitionUnavailableReason.
Proof. solve_decision. Defined.

Inductive ComparisonVerdictTransitionAvailability : Type :=
| transition_available (pairedCount : Z)
| transition_unavailable (reasons : list ComparisonVerdictTransitionUnavailableReason).

Definition ComparisonVerdictTransitionAvailabilitySchema
    (value : ComparisonVerdictTransitionAvailability) : bool :=
  match value with
  | transition_available pairedCount => SafeComparisonCountSchema pairedCount
  | transition_unavailable reasons =>
      sized 1 5 reasons && isStrictlySortedUnique (transition_reason_name <$> reasons)
  end.

Record ComparisonVerdictMarginal := {
  marginal_baseline : ComparisonVerdictCounts;
  marginal_candidate : ComparisonVerdictCounts;
  marginal_criterion : CriterionReference;
  marginal_transition : ComparisonVerdictTransitionAvailability;
}.

Definition ComparisonVerdictMarginalSchema (value : ComparisonVerdictMarginal) : bool :=
  ComparisonVerdictCountsSchema (marginal_baseline value) &&
  ComparisonVerdictCountsSchema (marginal_candidate value) &&
  CriterionReferenceSchema (marginal_criterion value) &&
  ComparisonVerdictTransitionAvailabilitySchema (marginal_transition value) &&
  match marginal_transition value with
  | transition_unavailable _ => true
  | transition_available pairedCount =>
      (pairedCount <=? counts_total (marginal_baseline value)) &&
      (pairedCount <=? counts_total (marginal_candidate value))
  end.

(** ** Safety counts *)

Record ComparisonCountDelta := { delta_baseline : Z; delta_candidate : Z; delta_delta : Z }.

Definition ComparisonCountDeltaSchema (value : ComparisonCountDelta) : bool :=
  SafeComparisonCountSchema (delta_baseline value) && SafeComparisonCountSchema (delta_candidate value) &&
  isSafeInteger (delta_delta value) &&
  let expected := js_sub (delta_candidate value) (delta_baseline value) in
  isSafeInteger expected && (delta_delta value =? expected).

Record ComparisonSafetyCount := { safetyCount_counts : ComparisonCountDelta; safetyCount_kind : SafetyEventKind }.

Definition ComparisonSafetyCountSchema (value : ComparisonSafetyCount) : bool :=
  ComparisonCountDeltaSchema (safetyCount_counts value).
