(* ===== verification/ComparisonPairing.v ===== *)
(** * Pairing of comparison evidence

    [packages/core/src/evaluation/comparison-pairing.ts]: a comparison
    definition and the two snapshots it binds become one case per logical
    fixture, the counts of the cases, and the comparability of the whole. *)

From S2P Require Import Prelude Errors Primitives ExactArithmetic ReplayPlan OrderedMap.
From S2P Require Import ComparisonContracts ComparisonSnapshot ComparisonResults.
#[local] Open Scope Z_scope.

Definition pairing_error {A} (code : ComparisonPairingErrorCode) : res A := Throw (ComparisonPairingError code).

Record PairComparisonEvidenceInput := {
  input_baseline : ComparisonEvidenceSnapshot;
  input_candidate : ComparisonEvidenceSnapshot;
  input_comparison : ComparisonDefinition;
}.

Record ComparisonPairingResult := {
  paired_cases : list ComparisonCase;
  paired_comparability : ComparisonComparability;
  paired_summary : ComparisonPairingSummary;
}.

Definition exactComparisonReference (comparison : ComparisonDefinition) : ComparisonDefinitionReference :=
  {| comparisonRef_comparisonId := comparison_comparisonId comparison;
     comparisonRef_comparisonVersionId := comparison_comparisonVersionId comparison;
     comparisonRef_definitionSha256 := comparison_definitionSha256 comparison |}.

Definition fixtureReferenceKey (value : RegressionFixtureVersionReference) : string :=
  joined (fixtureRef_fixtureId value)
    (joined (fixtureRef_fixtureVersionId value) (fixtureRef_definitionSha256 value)).

Definition exactDatasetKey (value : EvaluationDatasetVersionReference) : string :=
  joined (datasetRef_datasetId value) (joined (datasetRef_datasetVersionId value) (datasetRef_definitionSha256 value)).

Definition sameStringSet (values values' : list string) : bool := sort_by id values === sort_by id values'.

(** [assurance.filter(...).map((value) => key(value.reference))] of either kind. *)
Definition retained_assessments (actual : ComparisonEvidenceFixtureSnapshot) : list AssessmentReference :=
  omap (fun value =>
    match value with
    | assessment_state _ _ reference => Some reference
    | model_assurance_state _ _ _ => None
    end) (snapshot_assurance actual).

Definition retained_extensions (actual : ComparisonEvidenceFixtureSnapshot) :
    list ModelAssuranceAssessmentReference :=
  omap (fun value =>
    match value with
    | model_assurance_state _ _ reference => Some reference
    | assessment_state _ _ _ => None
    end) (snapshot_assurance actual).

(** The reasons in the order they are added to the set. *)
Definition integrity_reasons (expected : ComparisonSubjectFixture) (actual : ComparisonEvidenceFixtureSnapshot) :
    list ComparisonInvalidCaseReason :=
  let expectedAssessments := assessment_key <$> subject_assessments expected in
  let expectedModelAssurance := extension_key <$> subject_modelAssuranceAssessments expected in
  (if (fixtureRef_fixtureId (subject_fixture expected) !== fixtureRef_fixtureId (snapshot_fixture actual)) ||
      (fixtureRef_fixtureVersionId (subject_fixture expected) !==
         fixtureRef_fixtureVersionId (snapshot_fixture actual))
   then [unresolved_lineage]
   else if fixtureRef_definitionSha256 (subject_fixture expected) !==
             fixtureRef_definitionSha256 (snapshot_fixture actual)
   then [digest_mismatch] else []) ++
  (if subject_replay expected !== snapshot_replay actual then [unresolved_lineage] else []) ++
  (if negb (sameStringSet expectedAssessments (assessment_key <$> retained_assessments actual))
   then [unresolved_lineage] else []) ++
  (if existsb (fun outcome => negb (includes expectedAssessments (assessment_key (outcome_assessment outcome))))
        (snapshot_evaluationOutcomes actual)
   then [unresolved_lineage] else []) ++
  (if negb (sameStringSet expectedModelAssurance (extension_key <$> retained_extensions actual))
   then [unresolved_lineage] else []).

Definition fixtureIntegrityReasons (expected : ComparisonSubjectFixture)
    (actual : ComparisonEvidenceFixtureSnapshot) : list ComparisonInvalidCaseReason :=
  sorted_set_by invalid_case_name (integrity_reasons expected actual).

(** [values.filter((value, index) => index === 0 || values[index - 1] !== value)] *)
Fixpoint drop_repeats {A} `{EqDecision A} (values : list A) : list A :=
  match values with
  | [] => []
  | v :: rest => v :: match rest with
                      | [] => []
                      | w :: _ => if v === w then tail (drop_repeats rest) else drop_repeats rest
                      end
  end.

Definition assertSnapshotEnvelope (comparison : ComparisonDefinition) (subject : ComparisonSubject)
    (snapshot : ComparisonEvidenceSnapshot) : res unit :=
  reject_when (evidence_scope snapshot !== comparison_scope comparison)
    (ComparisonPairingError scope_mismatch) ;;
  reject_when (evidence_comparison snapshot !== exactComparisonReference comparison)
    (ComparisonPairingError comparison_reference_mismatch) ;;
  reject_when (evidence_dataset snapshot !== subject_dataset subject)
    (ComparisonPairingError dataset_reference_mismatch).

Definition subject_fixtureId (value : ComparisonSubjectFixture) : string :=
  fixtureRef_fixtureId (subject_fixture value).

Definition assertNoUnexpectedFixtures (expected : list (string * ComparisonSubjectFixture))
    (actual : list (string * ComparisonEvidenceFixtureSnapshot)) : res unit :=
  reject_when (existsb (fun entry => negb (map_has expected entry.1)) actual)
    (ComparisonPairingError snapshot_subject_mismatch).

Definition missingReason (expected : option ComparisonSubjectFixture) : ComparisonMissingCaseReason :=
  match expected with Some _ => snapshot_omission | None => fixture_absent end.

Definition role_reasons (expected : option ComparisonSubjectFixture)
    (actual : option ComparisonEvidenceFixtureSnapshot) : list ComparisonInvalidCaseReason :=
  match expected, actual with
  | Some expected, Some actual => fixtureIntegrityReasons expected actual
  | _, _ => []
  end.

(** [actual?.fixture ?? expected?.fixture] *)
Definition known_fixture (expected : option ComparisonSubjectFixture)
    (actual : option ComparisonEvidenceFixtureSnapshot) : option RegressionFixtureVersionReference :=
  match actual with
  | Some actual => Some (snapshot_fixture actual)
  | None => subject_fixture <$> expected
  end.

Definition caseForFixture (fixtureId : string) (baselineExpected candidateExpected : option ComparisonSubjectFixture)
    (baselineActual candidateActual : option ComparisonEvidenceFixtureSnapshot) : res ComparisonCase :=
  let reasons := drop_repeats (sort_by invalid_case_name
    (role_reasons baselineExpected baselineActual ++ role_reasons candidateExpected candidateActual)) in
  let case state := parse ComparisonCaseSchema {| case_fixtureId := fixtureId; case_state := state |} in
  match baselineActual, candidateActual with
  | None, None =>
      case (invalid_case (subject_fixture <$> baselineExpected) (subject_fixture <$> candidateExpected)
              [unresolved_lineage])
  | _, _ =>
      if (0 <? length reasons)%nat
      then case (invalid_case (known_fixture baselineExpected baselineActual)
                   (known_fixture candidateExpected candidateActual) reasons)
      else
        match baselineActual, candidateActual with
        | Some baseline, Some candidate =>
            case (paired_case (snapshot_fixture baseline) (snapshot_fixture candidate))
        | Some baseline, None =>
            case (baseline_only_case (snapshot_fixture baseline) (missingReason candidateExpected))
        | None, Some candidate =>
            case (candidate_only_case (missingReason baselineExpected) (snapshot_fixture candidate))
        | None, None => Throw ZodError
        end
  end.

(** The reasons one retained assurance state adds. *)
Definition assurance_reasons (assurance : ComparisonAssuranceState) : list ComparisonComparabilityReason :=
  match assurance with
  | assessment_state _ reasons _ =>
      (if includes reasons ar_critical_counterevidence then [unresolved_critical_counterevidence] else []) ++
      (if includes reasons ar_unsupported_statistical_assumptions
       then [unsupported_statistical_assumptions] else [])
  | model_assurance_state _ reasons _ =>
      if includes reasons mr_critical_counterevidence then [unresolved_critical_counterevidence] else []
  end.

Definition snapshot_reasons (snapshot : ComparisonEvidenceSnapshot) : list ComparisonComparabilityReason :=
  mjoin ((fun fixture => mjoin (assurance_reasons <$> snapshot_assurance fixture)) <$> evidence_fixtures snapshot).

Definition differs_by_fixture (value : ComparisonCase) : bool :=
  match case_state value with
  | paired_case baseline candidate => fixtureReferenceKey baseline !== fixtureReferenceKey candidate
  | _ => false
  end.

Definition count_cases (state : ComparisonCase -> bool) (cases : list ComparisonCase) : Z :=
  Z.of_nat (length (List.filter state cases)).

Definition comparability_set (comparison : ComparisonDefinition) (cases : list ComparisonCase)
    (baseline candidate : ComparisonEvidenceSnapshot) : list ComparisonComparabilityReason :=
  (if exactDatasetKey (subject_dataset (comparison_baseline comparison)) !==
        exactDatasetKey (subject_dataset (comparison_candidate comparison))
   then [dataset_mismatch] else []) ++
  (if count_cases is_paired cases * 10000 <?
        Z.of_nat (length cases) * comparison_minimumPairedCoverageBasisPoints comparison
   then [insufficient_paired_coverage] else []) ++
  (if existsb is_invalid cases then [source_integrity_invalid] else []) ++
  (if existsb (fun value => is_baseline_only value || is_candidate_only value) cases
   then [missing_source_evidence] else []) ++
  (if existsb differs_by_fixture cases then [fixture_mismatch] else []) ++
  snapshot_reasons baseline ++ snapshot_reasons candidate.

Definition deriveComparability (comparison : ComparisonDefinition) (cases : list ComparisonCase)
    (baseline candidate : ComparisonEvidenceSnapshot) : res ComparisonComparability :=
  let reasons := comparability_set comparison cases baseline candidate in
  let orderedReasons := sorted_set_by comparability_reason_name reasons in
  let hasFatalReason := includes reasons unresolved_critical_counterevidence in
  parse ComparisonComparabilitySchema
    {| comparability_reasons := orderedReasons;
       comparability_status :=
         if (length orderedReasons =? 0)%nat then comparable
         else if (count_cases is_paired cases =? 0) || hasFatalReason then incomparable
         else partially_comparable |}.

Section pairing.
Context `{UnicodeNormalization}.

Definition parseComparison (value : ComparisonDefinition) : res ComparisonDefinition :=
  parse_with (ComparisonPairingError invalid_comparison_definition) ComparisonDefinitionRecordSchema value.

Definition parseSnapshot (value : ComparisonEvidenceSnapshot) (role : ComparisonRole) :
    res ComparisonEvidenceSnapshot :=
  parsed ← parse_with (ComparisonPairingError invalid_evidence_snapshot) ComparisonEvidenceSnapshotSchema value;
  reject_when (evidence_role parsed !== role) (ComparisonPairingError role_mismatch) ;;
  Ok parsed.

Definition pairComparisonEvidence (input : PairComparisonEvidenceInput) : res ComparisonPairingResult :=
  comparison ← parseComparison (input_comparison input);
  baseline ← parseSnapshot (input_baseline input) baseline_role;
  candidate ← parseSnapshot (input_candidate input) candidate_role;
  assertSnapshotEnvelope comparison (comparison_baseline comparison) baseline ;;
  assertSnapshotEnvelope comparison (comparison_candidate comparison) candidate ;;
  reject_when (evidence_snapshotId baseline === evidence_snapshotId candidate)
    (ComparisonPairingError snapshot_subject_mismatch) ;;
  let baselineExpected := map_by subject_fixtureId (subject_fixtures (comparison_baseline comparison)) in
  let candidateExpected := map_by subject_fixtureId (subject_fixtures (comparison_candidate comparison)) in
  let baselineActual := map_by snapshot_fixtureId (evidence_fixtures baseline) in
  let candidateActual := map_by snapshot_fixtureId (evidence_fixtures candidate) in
  assertNoUnexpectedFixtures baselineExpected baselineActual ;;
  assertNoUnexpectedFixtures candidateExpected candidateActual ;;
  let fixtureIds := sorted_set (baselineExpected.*1 ++ candidateExpected.*1) in
  cases ← map_result (fun fixtureId =>
    caseForFixture fixtureId (map_get baselineExpected fixtureId) (map_get candidateExpected fixtureId)
      (map_get baselineActual fixtureId) (map_get candidateActual fixtureId)) fixtureIds;
  pairing ← parse ComparisonPairingSummarySchema
    {| pairing_baselineOnlyCount := count_cases is_baseline_only cases;
       pairing_candidateOnlyCount := count_cases is_candidate_only cases;
       pairing_invalidCount := count_cases is_invalid cases;
       pairing_pairedCount := count_cases is_paired cases;
       pairing_requestedCount := Z.of_nat (length cases) |};
  comparability ← deriveComparability comparison cases baseline candidate;
  Ok {| paired_cases := cases; paired_comparability := comparability; paired_summary := pairing |}.
End pairing.
