(* ===== verification/ComparisonKeys.v ===== *)
(** * Keys of comparison records

    The code identifies a reference by its parts joined with colons.  An
    identifier has no colon, so the key of a valid reference determines it, and
    a list whose keys are strictly sorted has no reference twice. *)

From S2P Require Import Prelude Errors Regex Primitives ReplayPlan OrderedMap ComparisonContracts.
From S2P Require Import ComparisonSnapshot ComparisonResults ComparisonPairing.
From Stdlib Require Import Ascii.
#[local] Open Scope Z_scope.

(** ** Characters an expression cannot produce *)

Fixpoint avoids (c : ascii) (r : re) : bool :=
  match r with
  | Empty | Eps => true
  | Cls p => negb (p c)
  | Cat r s | Alt r s => avoids c r && avoids c s
  | Star r => avoids c r
  end.

Lemma avoids_sound c r l : matched r l -> avoids c r = true -> c ∉ l.
Proof.
  induction 1; simpl; rewrite ?andb_true_iff, ?negb_true_iff, ?elem_of_app, ?list_elem_of_singleton;
    try (intros; apply not_elem_of_nil); try tauto.
  congruence.
Qed.

Definition colon_free (s : string) : Prop := ":"%char ∉ String.list_ascii_of_string s.

#[local] Transparent OpaqueIdSchema Sha256Schema.

Lemma opaque_colon_free s : OpaqueIdSchema s = true -> colon_free s.
Proof.
  unfold OpaqueIdSchema, Sha256Schema. intros H%test_spec. eapply avoids_sound; [exact H|reflexivity].
Qed.

Lemma sha_colon_free s : Sha256Schema s = true -> colon_free s.
Proof.
  unfold OpaqueIdSchema, Sha256Schema. intros H%test_spec. eapply avoids_sound; [exact H|reflexivity].
Qed.

(** ** Joined keys *)

Lemma list_ascii_app s t :
  String.list_ascii_of_string (s ++ t) = String.list_ascii_of_string s ++ String.list_ascii_of_string t.
Proof. induction s as [|c s IH]; simpl; [done|]. by f_equal. Qed.

Lemma list_ascii_inj s t : String.list_ascii_of_string s = String.list_ascii_of_string t -> s = t.
Proof.
  intros E. rewrite <- (String.string_of_list_ascii_of_string s), E.
  apply String.string_of_list_ascii_of_string.
Qed.

Lemma split_at {A} (x : A) l k l' k' :
  x ∉ l -> x ∉ l' -> l ++ x :: k = l' ++ x :: k' -> l = l' /\ k = k'.
Proof.
  revert l'. induction l as [|y l IH]; intros [|y' l'] Hl Hl' E; simpl in *.
  - by injection E.
  - injection E as <- _. exfalso. apply Hl'. by left.
  - injection E as -> _. exfalso. apply Hl. by left.
  - injection E as -> E. apply not_elem_of_cons in Hl as [_ Hl], Hl' as [_ Hl'].
    by destruct (IH l' Hl Hl' E) as [-> ->].
Qed.

Lemma joined_inj s t s' t' :
  colon_free s -> colon_free s' -> joined s t = joined s' t' -> s = s' /\ t = t'.
Proof.
  intros Hs Hs' E. unfold joined in E. apply (f_equal String.list_ascii_of_string) in E.
  rewrite !list_ascii_app in E. simpl in E. apply split_at in E as [E1 E2]; [|done|done].
  split; by apply list_ascii_inj.
Qed.

Create HintDb keys.
#[export] Hint Resolve opaque_colon_free sha_colon_free : keys.

(** Takes equations between joined keys apart. *)
Ltac split_keys :=
  repeat match goal with
  | H : joined _ _ = joined _ _ |- _ => apply joined_inj in H as [? ?]; [|by eauto with keys|by eauto with keys]
  end.

(** The schemas of references, as conjunctions. *)
Ltac key_facts := repeat match goal with H : _ && _ = true |- _ => apply andb_true_iff in H as [? ?] end.

Lemma assessment_key_inj r r' :
  AssessmentReferenceSchema r = true -> AssessmentReferenceSchema r' = true ->
  assessment_key r = assessment_key r' -> r = r'.
Proof.
  destruct r, r'. unfold AssessmentReferenceSchema, assessment_key. simpl. intros. key_facts.
  split_keys. by subst.
Qed.

Lemma extension_key_inj r r' :
  ModelAssuranceAssessmentReferenceSchema r = true -> ModelAssuranceAssessmentReferenceSchema r' = true ->
  extension_key r = extension_key r' -> r = r'.
Proof.
  destruct r, r'. unfold ModelAssuranceAssessmentReferenceSchema, extension_key. simpl. intros. key_facts.
  split_keys. by subst.
Qed.

Lemma fixtureReferenceKey_inj r r' :
  RegressionFixtureVersionReferenceSchema r = true -> RegressionFixtureVersionReferenceSchema r' = true ->
  fixtureReferenceKey r = fixtureReferenceKey r' -> r = r'.
Proof.
  destruct r, r'. unfold RegressionFixtureVersionReferenceSchema, fixtureReferenceKey. simpl. intros.
  key_facts. split_keys. by subst.
Qed.

Lemma exactDatasetKey_inj r r' :
  EvaluationDatasetVersionReferenceSchema r = true -> EvaluationDatasetVersionReferenceSchema r' = true ->
  exactDatasetKey r = exactDatasetKey r' -> r = r'.
Proof.
  destruct r, r'. unfold EvaluationDatasetVersionReferenceSchema, exactDatasetKey. simpl. intros.
  key_facts. split_keys. by subst.
Qed.

(** ** Strictly sorted keys *)

#[global] Instance string_lt_trans : Transitive (fun s t => string_lt s t = true).
Proof.
  intros s t u. rewrite !string_lt_compare. intros H1 H2.
  assert (strings.String.le s u) as Hle.
  { transitivity t; unfold strings.String.le, String.leb; by rewrite ?H1, ?H2. }
  unfold strings.String.le, String.leb in Hle. destruct (String.compare s u) eqn:E; [|done|done].
  apply String.compare_eq_iff in E as ->. rewrite String.compare_antisym, H2 in H1. discriminate.
Qed.

Lemma string_lt_irrefl s : string_lt s s = false.
Proof.
  destruct (string_lt s s) eqn:E; [|done]. pose proof (string_lt_asym _ _ E). congruence.
Qed.

Lemma strictly_sorted_head v values :
  isStrictlySortedUnique (v :: values) = true ->
  isStrictlySortedUnique values = true /\ Forall (fun w => string_lt v w = true) values.
Proof.
  revert v. induction values as [|w values IH]; intros v; [by split|].
  change (isStrictlySortedUnique (v :: w :: values)) with (string_lt v w && isStrictlySortedUnique (w :: values)).
  intros [Hlt Hs]%andb_true_iff. destruct (IH w Hs) as [_ Hall]. split; [done|].
  constructor; [done|]. eapply Forall_impl; [exact Hall|]. intros u Hu. by apply (string_lt_trans v w u).
Qed.

Lemma strictly_sorted_NoDup values : isStrictlySortedUnique values = true -> NoDup values.
Proof.
  induction values as [|v values IH]; [constructor|]. intros [Hs Hall]%strictly_sorted_head.
  constructor; [|by apply IH]. intros Hv. rewrite Forall_forall in Hall. specialize (Hall v Hv).
  by rewrite string_lt_irrefl in Hall.
Qed.

(** A sorted list without repetition is strictly sorted. *)
Lemma sorted_distinct_strict {A} (name : A -> string) values :
  Inj eq eq name -> Sorted.StronglySorted (key_le name) values -> NoDup values ->
  isStrictlySortedUnique (name <$> values) = true.
Proof.
  intros Hinj Hs Hn. induction Hs as [|v rest Hs IH Hall]; [done|]. apply NoDup_cons in Hn as [Hv Hn].
  destruct rest as [|w rest]; [done|]. specialize (IH Hn). csimpl in *.
  rewrite IH, andb_true_r. apply Forall_cons in Hall as [Hle _]. apply string_lt_compare.
  apply key_le_spec in Hle. unfold strings.String.le, String.leb in Hle.
  destruct (String.compare (name v) (name w)) eqn:E; [|done|done].
  apply String.compare_eq_iff, Hinj in E as ->. exfalso. apply Hv. by left.
Qed.

Lemma sort_by_sorted {A} (name : A -> string) values :
  Sorted.StronglySorted (key_le name) (sort_by name values).
Proof. apply sorting.StronglySorted_merge_sort; apply _. Qed.

(** Dropping repeats from a sorted list leaves each value once. *)
Lemma drop_repeats_cons {A} `{EqDecision A} (v : A) values :
  drop_repeats (v :: values) =
    v :: (if head values === Some v then tail (drop_repeats values) else drop_repeats values).
Proof.
  destruct values as [|w values]; [done|]. cbn [drop_repeats head].
  destruct (decide (v = w)) as [->|Hne].
  - by rewrite !bool_decide_eq_true_2.
  - rewrite !bool_decide_eq_false_2 by congruence. done.
Qed.

Lemma drop_repeats_head {A} `{EqDecision A} (values : list A) : head (drop_repeats values) = head values.
Proof. by destruct values. Qed.

Lemma drop_repeats_elem {A} `{EqDecision A} (values : list A) x : x ∈ drop_repeats values <-> x ∈ values.
Proof.
  induction values as [|v values IH]; [done|]. rewrite drop_repeats_cons, !elem_of_cons.
  case_bool_decide as Hh; [|by rewrite IH]. rewrite <- IH.
  rewrite <- drop_repeats_head in Hh. destruct (drop_repeats values) as [|w rest]; [done|].
  injection Hh as ->. simpl. rewrite elem_of_cons. tauto.
Qed.

Lemma drop_repeats_sorted {A} `{EqDecision A} (name : A -> string) (values : list A) :
  Inj eq eq name -> Sorted.StronglySorted (key_le name) values ->
  Sorted.StronglySorted (key_le name) (drop_repeats values) /\ NoDup (drop_repeats values).
Proof.
  intros Hinj. induction 1 as [|v rest Hs [IHs IHn] Hall]; [by split; constructor|].
  rewrite drop_repeats_cons. case_bool_decide as Hh.
  - rewrite <- drop_repeats_head in Hh. destruct (drop_repeats rest) as [|w l]; [done|].
    injection Hh as ->. done.
  - split.
    + constructor; [done|]. apply Forall_forall. intros u Hu.
      rewrite drop_repeats_elem in Hu.
      by apply (proj1 (Forall_forall _ _) Hall).
    + apply NoDup_cons. split; [|done]. rewrite drop_repeats_elem. intros Hv. apply Hh.
      destruct rest as [|w rest]; [by apply elem_of_nil in Hv|]. simpl. f_equal.
      apply Forall_cons in Hall as [Hvw _]. apply elem_of_cons in Hv as [->|Hv]; [done|].
      inversion Hs as [|? ? _ Hw]; subst. rewrite Forall_forall in Hw. specialize (Hw v Hv).
      apply key_le_spec in Hvw, Hw. apply Hinj. by apply (anti_symm strings.String.le).
Qed.

Lemma sorted_distinct_reasons {A} `{EqDecision A} (name : A -> string) (values : list A) :
  Inj eq eq name -> isStrictlySortedUnique (name <$> drop_repeats (sort_by name values)) = true.
Proof.
  intros Hinj. destruct (drop_repeats_sorted name (sort_by name values) Hinj (sort_by_sorted name values)).
  by apply sorted_distinct_strict.
Qed.

(** A list without repetition over a vocabulary is no longer than it. *)
Lemma vocabulary_bound {A} (vocabulary values : list A) :
  (forall v, v ∈ vocabulary) -> NoDup values -> (length values <= length vocabulary)%nat.
Proof. intros Hall Hnd. apply submseteq_length, NoDup_submseteq; [done|]. intros v _. apply Hall. Qed.

Lemma sorted_set_by_strict {A} `{EqDecision A} (name : A -> string) values :
  Inj eq eq name -> isStrictlySortedUnique (name <$> sorted_set_by name values) = true.
Proof.
  intros Hinj. apply sorted_distinct_strict; [done|apply sort_by_sorted|apply sorted_set_by_NoDup].
Qed.

(** Names of a small vocabulary are distinct. *)
Ltac name_inj := intros x y; destruct x, y; (reflexivity || discriminate).

#[global] Instance invalid_case_name_inj : Inj eq eq invalid_case_name.
Proof. name_inj. Qed.
#[global] Instance comparability_reason_name_inj : Inj eq eq comparability_reason_name.
Proof. name_inj. Qed.
#[global] Instance unavailable_reason_name_inj : Inj eq eq unavailable_reason_name.
Proof. name_inj. Qed.
#[global] Instance transition_reason_name_inj : Inj eq eq transition_reason_name.
Proof. name_inj. Qed.

Lemma sized_spec {A} low high (values : list A) :
  sized low high values = true <-> low <= Z.of_nat (length values) <= high.
Proof. unfold sized. breflect. lia. Qed.

(** Equal as sets, for lists without repetition. *)
Lemma sameStringSet_perm values values' : sameStringSet values values' = true <-> values ≡ₚ values'.
Proof.
  unfold sameStringSet. rewrite bool_decide_eq_true. split.
  - intros E. by rewrite <- (sort_by_perm id values), E, sort_by_perm.
  - intros E. apply (sorting.Sorted_unique_strong (key_le id)).
    + intros x y _ _. rewrite !key_le_spec. apply (anti_symm strings.String.le).
    + apply sorting.Sorted_merge_sort. apply _.
    + apply sorting.Sorted_merge_sort. apply _.
    + by rewrite !sort_by_perm.
Qed.

Lemma fmap_inj_perm {A} (key : A -> string) l k :
  NoDup (key <$> l) -> NoDup (key <$> k) ->
  (forall x y, x ∈ l -> y ∈ k -> key x = key y -> x = y) ->
  key <$> l ≡ₚ key <$> k <-> (forall x, x ∈ l <-> x ∈ k).
Proof.
  intros Hl Hk Hinj. split.
  - intros E x. assert (Hk' : forall v, v ∈ key <$> l <-> v ∈ key <$> k) by (intros v; by rewrite E).
    split; intros Hx.
    + destruct (proj1 (list_elem_of_fmap _ _ _) (proj1 (Hk' (key x)) (list_elem_of_fmap_2 _ _ _ Hx)))
        as (y & Ey & Hy). by rewrite (Hinj x y Hx Hy Ey).
    + destruct (proj1 (list_elem_of_fmap _ _ _) (proj2 (Hk' (key x)) (list_elem_of_fmap_2 _ _ _ Hx)))
        as (y & Ey & Hy). by rewrite <- (Hinj y x Hy Hx (eq_sym Ey)).
  - intros E. apply NoDup_Permutation; [done|done|]. intros v. rewrite !list_elem_of_fmap.
    by setoid_rewrite E.
Qed.

(** ** Sums of counts *)

Lemma js_add_counts a b : 0 <= a -> 0 <= b -> a + b <= MAX_SAFE_INTEGER -> js_add a b = a + b.
Proof. intros. apply js_add_exact. lia. Qed.

Lemma js_add4_counts a b c d :
  0 <= a -> 0 <= b -> 0 <= c -> 0 <= d -> a + b + c + d <= MAX_SAFE_INTEGER ->
  js_add (js_add (js_add a b) c) d = a + b + c + d.
Proof. intros. rewrite (js_add_counts a b), (js_add_counts (a + b) c) by lia. apply js_add_counts; lia. Qed.

Lemma js_add_nonneg a b : 0 <= a -> 0 <= b -> 0 <= js_add a b.
Proof.
  intros Ha Hb. pose proof (js_add_gt a b) as Hg. destruct (Z.ltb_spec MAX_SAFE_INTEGER (a + b)) as [H|H].
  - apply Z.ltb_lt in Hg. unfold MAX_SAFE_INTEGER in Hg. lia.
  - rewrite js_add_exact; lia.
Qed.

(** A sum that ends up safe was exact. *)
Lemma js_add_within a b : 0 <= a -> 0 <= b -> js_add a b <= MAX_SAFE_INTEGER -> js_add a b = a + b /\ a <= MAX_SAFE_INTEGER.
Proof.
  intros Ha Hb Hs. pose proof (js_add_gt a b) as Hg. rewrite (proj2 (Z.ltb_ge _ _) Hs) in Hg.
  symmetry in Hg. apply Z.ltb_ge in Hg. split; [apply js_add_exact|]; lia.
Qed.

Lemma js_add5_counts a b c d e :
  0 <= a -> 0 <= b -> 0 <= c -> 0 <= d -> 0 <= e ->
  js_add (js_add (js_add (js_add a b) c) d) e <= MAX_SAFE_INTEGER ->
  js_add (js_add (js_add (js_add a b) c) d) e = a + b + c + d + e.
Proof.
  intros Ha Hb Hc Hd He Hs. assert (H1 := js_add_nonneg a b Ha Hb).
  assert (H2 := js_add_nonneg _ c H1 Hc). assert (H3 := js_add_nonneg _ d H2 Hd).
  destruct (js_add_within _ e H3 He Hs) as [E4 S4]. destruct (js_add_within _ d H2 Hd S4) as [E3 S3].
  destruct (js_add_within _ c H1 Hc S3) as [E2 S2]. destruct (js_add_within a b Ha Hb S2) as [E1 _]. lia.
Qed.

(** A count that is safe is not larger than its bound. *)
Lemma safe_count_spec v : SafeComparisonCountSchema v = true <-> 0 <= v <= MAX_SAFE_INTEGER.
Proof. unfold SafeComparisonCountSchema, MAX_COMPARISON_COUNT. breflect. lia. Qed.

Lemma positive_count_spec v : PositiveComparisonCountSchema v = true <-> 1 <= v <= MAX_SAFE_INTEGER.
Proof. unfold PositiveComparisonCountSchema, MAX_COMPARISON_COUNT. breflect. lia. Qed.

(** ** Filters by a boolean *)

Lemma NoDup_filter_bool {A} (p : A -> bool) l : NoDup l -> NoDup (List.filter p l).
Proof. intros Hn. by apply NoDup_ListNoDup, List.NoDup_filter, NoDup_ListNoDup. Qed.

Lemma filter_elem {A} (p : A -> bool) l x : x ∈ List.filter p l <-> x ∈ l /\ p x = true.
Proof. by rewrite list_elem_of_In, filter_In, <- list_elem_of_In. Qed.

Lemma filter_ext_elem {A} (p q : A -> bool) l : (forall x, x ∈ l -> p x = q x) -> List.filter p l = List.filter q l.
Proof.
  induction l as [|x l IH]; intros E; simpl; [done|]. rewrite (E x) by by left.
  rewrite IH by (intros y Hy; apply E; by right). done.
Qed.
