(* ===== verification/ComparisonPairingProofs.v ===== *)
(** * Pairing: totality and exactness

    Pairing answers exactly for the inputs whose records are valid and belong
    together, never with a contract error of its own making; each logical
    fixture of either subject is one case, whose state says which side retained
    faithful evidence of it. *)

From S2P Require Import Prelude Errors Primitives ExactArithmetic ReplayPlan OrderedMap.
From S2P Require Import ComparisonContracts ComparisonSnapshot ComparisonResults.
From S2P Require Import ComparisonPairing ComparisonKeys.
#[local] Open Scope Z_scope.

(** ** The fixture each side binds and retains *)

Definition expected_of (subject : ComparisonSubject) (id : string) : option ComparisonSubjectFixture :=
  map_get (map_by subject_fixtureId (subject_fixtures subject)) id.

Definition actual_of (snapshot : ComparisonEvidenceSnapshot) (id : string) :
    option ComparisonEvidenceFixtureSnapshot :=
  map_get (map_by snapshot_fixtureId (evidence_fixtures snapshot)) id.

(** What a snapshot retains of a fixture is what the subject binds. *)
Record faithful (expected : ComparisonSubjectFixture) (actual : ComparisonEvidenceFixtureSnapshot) : Prop := {
  f_fixture : snapshot_fixture actual = subject_fixture expected;
  f_replay : snapshot_replay actual = subject_replay expected;
  f_assessments : forall r, r ∈ retained_assessments actual <-> r ∈ subject_assessments expected;
  f_outcomes : forall o, o ∈ snapshot_evaluationOutcomes actual ->
    outcome_assessment o ∈ subject_assessments expected;
  f_extensions : forall r, r ∈ retained_extensions actual <-> r ∈ subject_modelAssuranceAssessments expected;
}.

(** ** Schema facts *)

Lemma forallb_elem {A} (p : A -> bool) l : forallb p l = true <-> forall x, x ∈ l -> p x = true.
Proof. rewrite forallb_forall. by setoid_rewrite list_elem_of_In. Qed.

Ltac list_facts := repeat match goal with
  | H : sized _ _ _ = true |- _ => apply sized_spec in H
  | H : forallb _ _ = true |- _ => rewrite forallb_elem in H
  end.

Section schema_facts.
Context `{UnicodeNormalization}.

Lemma definition_facts d :
  ComparisonDefinitionRecordSchema d = true ->
  ComparisonSubjectSchema (comparison_baseline d) = true /\
  ComparisonSubjectSchema (comparison_candidate d) = true /\
  1 <= comparison_minimumPairedCoverageBasisPoints d <= 10000.
Proof. unfold ComparisonDefinitionRecordSchema. intros Hd. key_facts. breflect. split_and!; try done; lia. Qed.

Lemma subject_facts s :
  ComparisonSubjectSchema s = true ->
  EvaluationDatasetVersionReferenceSchema (subject_dataset s) = true /\
  (forall f, f ∈ subject_fixtures s -> ComparisonSubjectFixtureSchema f = true) /\
  1 <= Z.of_nat (length (subject_fixtures s)) <= 500.
Proof.
  unfold ComparisonSubjectSchema. intros Hs. key_facts. list_facts. done.
Qed.

Lemma snapshot_facts s :
  ComparisonEvidenceSnapshotSchema s = true ->
  EvaluationDatasetVersionReferenceSchema (evidence_dataset s) = true /\
  (forall f, f ∈ evidence_fixtures s -> ComparisonEvidenceFixtureSnapshotSchema f = true) /\
  1 <= Z.of_nat (length (evidence_fixtures s)) <= 500.
Proof.
  unfold ComparisonEvidenceSnapshotSchema. intros Hs. key_facts. list_facts. done.
Qed.

(** What the proofs use of one retained fixture. *)
Record fixture_contract (f : ComparisonEvidenceFixtureSnapshot) : Prop := {
  fc_fixture : RegressionFixtureVersionReferenceSchema (snapshot_fixture f) = true;
  fc_assurance : forall a, a ∈ snapshot_assurance f -> ComparisonAssuranceStateSchema a = true;
  fc_assurance_keys : NoDup (assurance_key <$> snapshot_assurance f);
  fc_outcomes : forall o, o ∈ snapshot_evaluationOutcomes f -> ComparisonEvaluationOutcomeSchema o = true;
  fc_outcome_count : Z.of_nat (length (snapshot_evaluationOutcomes f)) <= 128;
  fc_outcome_keys : NoDup (outcome_key <$> snapshot_evaluationOutcomes f);
  fc_events : Z.of_nat (length (snapshot_safetyEvents f)) <= 4000;
  fc_trace : ComparisonTraceStructureSchema (snapshot_trace f) = true;
}.

Lemma fixture_facts f : ComparisonEvidenceFixtureSnapshotSchema f = true -> fixture_contract f.
Proof.
  unfold ComparisonEvidenceFixtureSnapshotSchema. intros Hf. key_facts. list_facts.
  split; first [done | by apply strictly_sorted_NoDup
    | unfold MAX_COMPARISON_SUBJECT_ASSESSMENTS, MAX_COMPARISON_SAFETY_EVENTS in *; lia].
Qed.
End schema_facts.

Lemma subject_fixture_facts f :
  ComparisonSubjectFixtureSchema f = true ->
  RegressionFixtureVersionReferenceSchema (subject_fixture f) = true /\
  (forall r, r ∈ subject_assessments f -> AssessmentReferenceSchema r = true) /\
  NoDup (assessment_key <$> subject_assessments f) /\
  (forall r, r ∈ subject_modelAssuranceAssessments f -> ModelAssuranceAssessmentReferenceSchema r = true) /\
  NoDup (extension_key <$> subject_modelAssuranceAssessments f).
Proof.
  unfold ComparisonSubjectFixtureSchema, exactAssessmentReferences, exactModelAssuranceReferences.
  intros Hf. key_facts. list_facts. split_and!; try done; by apply strictly_sorted_NoDup.
Qed.

(** ** Integrity reasons *)

Lemma retained_assessments_contract f :
  fixture_contract f ->
  (forall r, r ∈ retained_assessments f -> AssessmentReferenceSchema r = true) /\
  NoDup (assessment_key <$> retained_assessments f).
Proof.
  intros [_ Ha Hk _ _ _ _ _]. unfold retained_assessments. split.
  - intros r (a & Hin & Er)%list_elem_of_omap. specialize (Ha a Hin). destruct a; [|done].
    injection Er as ->. unfold ComparisonAssuranceStateSchema in Ha. by key_facts.
  - clear Ha. induction (snapshot_assurance f) as [|a l IH]; [constructor|].
    csimpl in Hk. apply NoDup_cons in Hk as [Hfresh Hk]. specialize (IH Hk).
    destruct a as [e rs r|e rs r]; csimpl; [|done]. apply NoDup_cons. split; [|done].
    intros (r' & Ek & (a & Hin & Er)%list_elem_of_omap)%list_elem_of_fmap. apply Hfresh.
    destruct a as [e' rs' r''|]; [|done]. injection Er as ->. apply list_elem_of_fmap.
    exists (assessment_state e' rs' r'). split; [|done]. simpl. by rewrite Ek.
Qed.

Lemma retained_extensions_contract f :
  fixture_contract f ->
  (forall r, r ∈ retained_extensions f -> ModelAssuranceAssessmentReferenceSchema r = true) /\
  NoDup (extension_key <$> retained_extensions f).
Proof.
  intros [_ Ha Hk _ _ _ _ _]. unfold retained_extensions. split.
  - intros r (a & Hin & Er)%list_elem_of_omap. specialize (Ha a Hin). destruct a; [done|].
    injection Er as ->. unfold ComparisonAssuranceStateSchema in Ha. by key_facts.
  - clear Ha. induction (snapshot_assurance f) as [|a l IH]; [constructor|].
    csimpl in Hk. apply NoDup_cons in Hk as [Hfresh Hk]. specialize (IH Hk).
    destruct a as [e rs r|e rs r]; csimpl; [done|]. apply NoDup_cons. split; [|done].
    intros (r' & Ek & (a & Hin & Er)%list_elem_of_omap)%list_elem_of_fmap. apply Hfresh.
    destruct a as [|e' rs' r'']; [done|]. injection Er as ->. apply list_elem_of_fmap.
    exists (model_assurance_state e' rs' r'). split; [|done]. simpl. by rewrite Ek.
Qed.

Lemma if_nil {A} (c : bool) (x : A) : (if c then [x] else []) = [] <-> c = false.
Proof. by destruct c. Qed.

(** The comparisons of keys, as statements about the references. *)
Lemma assessments_agree e a :
  ComparisonSubjectFixtureSchema e = true -> fixture_contract a ->
  sameStringSet (assessment_key <$> subject_assessments e) (assessment_key <$> retained_assessments a) = true <->
  (forall r, r ∈ subject_assessments e <-> r ∈ retained_assessments a).
Proof.
  intros (_ & He & Hek & _)%subject_fixture_facts Ha. destruct (retained_assessments_contract a Ha) as [Hra Hrk].
  rewrite sameStringSet_perm. apply fmap_inj_perm; try done. intros ????; apply assessment_key_inj; auto.
Qed.

Lemma extensions_agree e a :
  ComparisonSubjectFixtureSchema e = true -> fixture_contract a ->
  sameStringSet (extension_key <$> subject_modelAssuranceAssessments e) (extension_key <$> retained_extensions a) =
    true <->
  (forall r, r ∈ subject_modelAssuranceAssessments e <-> r ∈ retained_extensions a).
Proof.
  intros (_ & _ & _ & He & Hek)%subject_fixture_facts Ha. destruct (retained_extensions_contract a Ha) as [Hra Hrk].
  rewrite sameStringSet_perm. apply fmap_inj_perm; try done. intros ????; apply extension_key_inj; auto.
Qed.

Lemma outcomes_agree e a :
  ComparisonSubjectFixtureSchema e = true -> fixture_contract a ->
  existsb (fun outcome => negb (includes (assessment_key <$> subject_assessments e)
    (assessment_key (outcome_assessment outcome)))) (snapshot_evaluationOutcomes a) = false <->
  (forall o, o ∈ snapshot_evaluationOutcomes a -> outcome_assessment o ∈ subject_assessments e).
Proof.
  intros (_ & He & _)%subject_fixture_facts Ha. rewrite <- not_true_iff_false, existsb_exists. split.
  - intros Hno o Ho. destruct (decide (outcome_assessment o ∈ subject_assessments e)) as [|Hn]; [done|].
    exfalso. apply Hno. exists o. split; [by apply list_elem_of_In|]. apply negb_true_iff, includes_false.
    intros (r & Ek & Hr)%list_elem_of_fmap. apply Hn.
    assert (Ho' := fc_outcomes _ Ha o Ho). unfold ComparisonEvaluationOutcomeSchema in Ho'. key_facts.
    rewrite (assessment_key_inj (outcome_assessment o) r); auto.
  - intros Hall (o & Ho%list_elem_of_In & Hneg). apply negb_true_iff, includes_false in Hneg.
    apply Hneg, list_elem_of_fmap. eauto.
Qed.

(** A fixture raises no reason exactly when it is faithful. *)
Lemma integrity_nil e a :
  ComparisonSubjectFixtureSchema e = true -> fixture_contract a ->
  fixtureIntegrityReasons e a = [] <-> faithful e a.
Proof.
  intros He Ha. unfold fixtureIntegrityReasons. rewrite sorted_set_by_nil. unfold integrity_reasons. cbv zeta.
  rewrite !app_nil, !if_nil, !negb_false_iff, bool_decide_eq_true.
  rewrite (assessments_agree e a He Ha), (extensions_agree e a He Ha), (outcomes_agree e a He Ha). split.
  - intros (Hf & Hr & Hs & Ho & Hx).
    split; [|by rewrite Hr|by intros r; rewrite Hs|done|by intros r; rewrite Hx].
    destruct (subject_fixture e), (snapshot_fixture a). simpl in *.
    repeat case_bool_decide; simpl in Hf; try done. by subst.
  - intros [Ef Er Hs Ho Hx]. rewrite Ef, Er, !bool_decide_eq_true_2 by done.
    split_and!; [done|done|by intros r; rewrite Hs|done|by intros r; rewrite Hx].
Qed.

Definition same_version (e : ComparisonSubjectFixture) (a : ComparisonEvidenceFixtureSnapshot) : Prop :=
  fixtureRef_fixtureId (subject_fixture e) = fixtureRef_fixtureId (snapshot_fixture a) /\
  fixtureRef_fixtureVersionId (subject_fixture e) = fixtureRef_fixtureVersionId (snapshot_fixture a).

(** The snapshot retains what the subject binds, leaving the digest aside. *)
Record lineage_kept (e : ComparisonSubjectFixture) (a : ComparisonEvidenceFixtureSnapshot) : Prop := {
  lk_version : same_version e a;
  lk_replay : subject_replay e = snapshot_replay a;
  lk_assessments : forall r, r ∈ subject_assessments e <-> r ∈ retained_assessments a;
  lk_outcomes : forall o, o ∈ snapshot_evaluationOutcomes a -> outcome_assessment o ∈ subject_assessments e;
  lk_extensions : forall r, r ∈ subject_modelAssuranceAssessments e <-> r ∈ retained_extensions a;
}.

(** Why a retained fixture is refused. *)
Definition flawed (e : ComparisonSubjectFixture) (a : ComparisonEvidenceFixtureSnapshot)
    (reason : ComparisonInvalidCaseReason) : Prop :=
  match reason with
  | digest_mismatch =>
      same_version e a /\
      fixtureRef_definitionSha256 (subject_fixture e) <> fixtureRef_definitionSha256 (snapshot_fixture a)
  | unresolved_lineage => ~ lineage_kept e a
  | _ => False
  end.

Lemma elem_of_if {A} (c : bool) (x y : A) : y ∈ (if c then [x] else []) <-> c = true /\ y = x.
Proof. destruct c; [rewrite list_elem_of_singleton|rewrite elem_of_nil]; naive_solver. Qed.

Lemma integrity_elem e a reason :
  ComparisonSubjectFixtureSchema e = true -> fixture_contract a ->
  reason ∈ fixtureIntegrityReasons e a <-> flawed e a reason.
Proof.
  intros He Ha. unfold fixtureIntegrityReasons. rewrite elem_of_sorted_set_by. unfold integrity_reasons. cbv zeta.
  pose proof (assessments_agree e a He Ha) as Hs. pose proof (extensions_agree e a He Ha) as Hx.
  pose proof (outcomes_agree e a He Ha) as Ho.
  assert (Hv : same_version e a <->
    (fixtureRef_fixtureId (subject_fixture e) !== fixtureRef_fixtureId (snapshot_fixture a)) ||
    (fixtureRef_fixtureVersionId (subject_fixture e) !== fixtureRef_fixtureVersionId (snapshot_fixture a)) = false)
    by (unfold same_version; by breflect).
  assert (Hk : lineage_kept e a <-> same_version e a /\ (subject_replay e !== snapshot_replay a) = false /\
    (forall r, r ∈ subject_assessments e <-> r ∈ retained_assessments a) /\
    (forall o, o ∈ snapshot_evaluationOutcomes a -> outcome_assessment o ∈ subject_assessments e) /\
    (forall r, r ∈ subject_modelAssuranceAssessments e <-> r ∈ retained_extensions a)).
  { rewrite negb_false_iff, bool_decide_eq_true. split; [by intros []|]. by intros (? & ? & ? & ? & ?). }
  rewrite <- Hs, <- Hx, <- Ho in Hk. clear Hs Hx Ho.
  assert (Hd : fixtureRef_definitionSha256 (subject_fixture e) <> fixtureRef_definitionSha256 (snapshot_fixture a) <->
    (fixtureRef_definitionSha256 (subject_fixture e) !== fixtureRef_definitionSha256 (snapshot_fixture a)) = true)
    by by breflect.
  rewrite !elem_of_app, !elem_of_if.
  destruct reason; cbn [flawed]; rewrite ?Hk, ?Hv, ?Hd; clear Hk Hv Hd;
    generalize (subject_replay e !== snapshot_replay a); intros b2;
    generalize (fixtureRef_definitionSha256 (subject_fixture e) !== fixtureRef_definitionSha256 (snapshot_fixture a));
    intros b6; destruct (_ || _), b2, (sameStringSet (assessment_key <$> _) _), (existsb _ _),
      (sameStringSet (extension_key <$> _) _), b6;
    simpl; rewrite ?elem_of_nil, ?list_elem_of_singleton; intuition discriminate.
Qed.

(** ** The state of a case *)

Definition combined_reasons (baselineExpected candidateExpected : option ComparisonSubjectFixture)
    (baselineActual candidateActual : option ComparisonEvidenceFixtureSnapshot) :
    list ComparisonInvalidCaseReason :=
  drop_repeats (sort_by invalid_case_name
    (role_reasons baselineExpected baselineActual ++ role_reasons candidateExpected candidateActual)).

Definition case_of (baselineExpected candidateExpected : option ComparisonSubjectFixture)
    (baselineActual candidateActual : option ComparisonEvidenceFixtureSnapshot) : ComparisonCaseState :=
  match combined_reasons baselineExpected candidateExpected baselineActual candidateActual with
  | [] =>
      match baselineActual, candidateActual with
      | Some baseline, Some candidate => paired_case (snapshot_fixture baseline) (snapshot_fixture candidate)
      | Some baseline, None => baseline_only_case (snapshot_fixture baseline) (missingReason candidateExpected)
      | None, Some candidate => candidate_only_case (missingReason baselineExpected) (snapshot_fixture candidate)
      | None, None =>
          invalid_case (subject_fixture <$> baselineExpected) (subject_fixture <$> candidateExpected)
            [unresolved_lineage]
      end
  | reasons =>
      invalid_case (known_fixture baselineExpected baselineActual)
        (known_fixture candidateExpected candidateActual) reasons
  end.

(** What one side of a fixture is known to satisfy once the records are parsed. *)
Record side (id : string) (expected : option ComparisonSubjectFixture)
    (actual : option ComparisonEvidenceFixtureSnapshot) : Prop := {
  side_expected : forall e, expected = Some e ->
    ComparisonSubjectFixtureSchema e = true /\ subject_fixtureId e = id;
  side_actual : forall a, actual = Some a -> fixture_contract a /\ snapshot_fixtureId a = id;
  side_bound : is_Some actual -> is_Some expected;
}.

Lemma known_side id expected actual r :
  side id expected actual -> known_fixture expected actual = Some r ->
  RegressionFixtureVersionReferenceSchema r = true /\ fixtureRef_fixtureId r = id.
Proof.
  intros [He Ha _] E. destruct actual as [a|]; simpl in E.
  - injection E as <-. destruct (Ha a eq_refl) as [Hc <-]. split; [apply Hc|done].
  - destruct expected as [e|]; [|done]. injection E as <-. destruct (He e eq_refl) as [Hs <-].
    split; [|done]. by apply subject_fixture_facts in Hs as (? & _).
Qed.

Lemma known_is_Some id expected actual :
  side id expected actual -> is_Some expected -> is_Some (known_fixture expected actual).
Proof. intros _ [e ->]. destruct actual; simpl; eauto. Qed.

Lemma optional_side id (o : option RegressionFixtureVersionReference) :
  (forall r, o = Some r -> RegressionFixtureVersionReferenceSchema r = true /\ fixtureRef_fixtureId r = id) ->
  optional RegressionFixtureVersionReferenceSchema o = true /\
  optional (fun r => fixtureRef_fixtureId r === id) o = true.
Proof.
  intros Ho. destruct o as [r|]; simpl; [|done]. destruct (Ho r eq_refl) as [-> ->].
  by rewrite bool_decide_eq_true_2.
Qed.

Lemma combined_reasons_accepted be ce ba ca :
  combined_reasons be ce ba ca <> [] ->
  sized 1 6 (combined_reasons be ce ba ca) = true /\
  isStrictlySortedUnique (invalid_case_name <$> combined_reasons be ce ba ca) = true.
Proof.
  intros Hne. split; [|apply sorted_distinct_reasons, _]. apply sized_spec. split.
  - destruct (combined_reasons be ce ba ca); [done|]. simpl. lia.
  - pose proof (vocabulary_bound [ambiguous_pairing; digest_mismatch; invalid_source_integrity; nonterminal_replay;
        case_scope_mismatch; unresolved_lineage] (combined_reasons be ce ba ca)) as Hb.
    simpl in Hb. assert (length (combined_reasons be ce ba ca) <= 6)%nat; [|lia]. apply Hb.
    + intros []; repeat (first [by left|right]).
    + apply (drop_repeats_sorted invalid_case_name); [apply _|apply sort_by_sorted].
Qed.

Lemma side_opaque id be ce ba ca :
  side id be ba -> side id ce ca -> is_Some be \/ is_Some ce -> OpaqueIdSchema id = true.
Proof.
  intros Hb Hc Hsome. assert (exists r, RegressionFixtureVersionReferenceSchema r = true /\
    fixtureRef_fixtureId r = id) as (r & Hr & <-).
  { destruct Hsome as [Hs|Hs].
    - destruct (known_is_Some id be ba Hb Hs) as [r Hr]. exists r. by apply (known_side id be ba).
    - destruct (known_is_Some id ce ca Hc Hs) as [r Hr]. exists r. by apply (known_side id ce ca). }
  unfold RegressionFixtureVersionReferenceSchema in Hr. by key_facts.
Qed.

Lemma case_accepted id be ce ba ca :
  side id be ba -> side id ce ca -> is_Some be \/ is_Some ce ->
  ComparisonCaseSchema {| case_fixtureId := id; case_state := case_of be ce ba ca |} = true.
Proof.
  intros Hb Hc Hsome.
  assert (Hside : forall bo co, bo = known_fixture be ba \/ bo = None -> co = known_fixture ce ca \/ co = None ->
    optional RegressionFixtureVersionReferenceSchema bo && optional RegressionFixtureVersionReferenceSchema co &&
    (optional (fun r => fixtureRef_fixtureId r === id) bo &&
     optional (fun r => fixtureRef_fixtureId r === id) co) = true).
  { intros bo co Hbo Hco. destruct (optional_side id bo) as [-> ->].
    { intros r ->. destruct Hbo as [E|[=]]. by apply (known_side id be ba). }
    destruct (optional_side id co) as [-> ->]; [|done].
    intros r ->. destruct Hco as [E|[=]]. by apply (known_side id ce ca). }
  assert (Hkeep : bool_decide (known_fixture be ba = None) && bool_decide (known_fixture ce ca = None) = false).
  { destruct Hsome as [Hs|Hs].
    - destruct (known_is_Some id be ba Hb Hs) as [r ->]. by rewrite bool_decide_eq_false_2.
    - destruct (known_is_Some id ce ca Hc Hs) as [r ->]. rewrite (bool_decide_eq_false_2 (Some r = None)) by done.
      by rewrite andb_false_r. }
  unfold ComparisonCaseSchema, case_of. cbn [case_fixtureId case_state].
  rewrite (side_opaque id be ce ba ca) by done. rewrite andb_true_l.
  pose proof (combined_reasons_accepted be ce ba ca) as Hreasons.
  destruct (combined_reasons be ce ba ca) as [|reason reasons] eqn:Er.
  - destruct ba as [b|], ca as [c|]; cbn [case_baseline case_candidate case_state];
      [pose proof (Hside (Some (snapshot_fixture b)) (Some (snapshot_fixture c))) as Hs
      |pose proof (Hside (Some (snapshot_fixture b)) None) as Hs
      |pose proof (Hside None (Some (snapshot_fixture c))) as Hs
      |pose proof (Hside (known_fixture be None) (known_fixture ce None)) as Hs];
      specialize (Hs ltac:(simpl; auto) ltac:(simpl; auto)).
    all: rewrite !andb_true_iff in Hs; destruct Hs as [[Hs1 Hs2] [Hs3 Hs4]];
      simpl in Hs1, Hs2, Hs3, Hs4, Hkeep |- *; rewrite ?Hs1, ?Hs2, ?Hs3, ?Hs4; try done.
    simpl. rewrite andb_true_r. by rewrite <- negb_andb, Hkeep.
  - destruct Hreasons as [H1 H2]; [done|]. cbn [case_baseline case_candidate case_state].
    pose proof (Hside (known_fixture be ba) (known_fixture ce ca) ltac:(auto) ltac:(auto)) as Hs.
    rewrite !andb_true_iff in Hs. destruct Hs as [[Hs1 Hs2] [Hs3 Hs4]].
    rewrite Hs1, Hs2, Hs3, Hs4, H1, H2. simpl. by rewrite <- negb_andb, Hkeep.
Qed.

Lemma caseForFixture_Ok id be ce ba ca :
  side id be ba -> side id ce ca -> is_Some be \/ is_Some ce ->
  caseForFixture id be ce ba ca = Ok {| case_fixtureId := id; case_state := case_of be ce ba ca |}.
Proof.
  intros Hb Hc Hsome. pose proof (case_accepted id be ce ba ca Hb Hc Hsome) as Ha.
  unfold caseForFixture. unfold case_of in *. fold (combined_reasons be ce ba ca).
  destruct ba as [b|], ca as [c|].
  4: { assert (Er : combined_reasons be ce None None = []).
       { unfold combined_reasons, role_reasons. by destruct be, ce. }
       rewrite Er in *. by apply parse_accepted. }
  all: destruct (combined_reasons be ce _ _) as [|reason reasons]; by apply parse_accepted.
Qed.

(** ** What a state says *)

Definition evidenced (expected : option ComparisonSubjectFixture)
    (actual : option ComparisonEvidenceFixtureSnapshot) : Prop :=
  exists e a, expected = Some e /\ actual = Some a /\ faithful e a.

Lemma combined_nil be ce ba ca :
  combined_reasons be ce ba ca = [] <-> role_reasons be ba = [] /\ role_reasons ce ca = [].
Proof.
  unfold combined_reasons. rewrite <- app_nil. split.
  - intros E. destruct (role_reasons be ba ++ role_reasons ce ca) as [|x l]; [done|]. exfalso.
    assert (Hx : x ∈ drop_repeats (sort_by invalid_case_name (x :: l))).
    { rewrite drop_repeats_elem, sort_by_perm. by left. }
    rewrite E in Hx. by apply elem_of_nil in Hx.
  - by intros ->.
Qed.

(** A retained side raises no reason exactly when it is faithful. *)
Lemma retained_clean id expected a :
  side id expected (Some a) -> role_reasons expected (Some a) = [] <-> evidenced expected (Some a).
Proof.
  intros [He Ha Hb]. destruct (Hb ltac:(eauto)) as [e ->]. simpl.
  rewrite integrity_nil by (apply He + apply Ha; done). unfold evidenced. naive_solver.
Qed.

Lemma absent_clean expected : role_reasons expected None = [].
Proof. by destruct expected. Qed.

Lemma absent_not_evidenced expected : ~ evidenced expected None.
Proof. by intros (e & a & _ & [=] & _). Qed.

Definition state_of_case id be ce ba ca : ComparisonCase :=
  {| case_fixtureId := id; case_state := case_of be ce ba ca |}.

Lemma case_states id be ce ba ca :
  side id be ba -> side id ce ca ->
  let c := state_of_case id be ce ba ca in
  (is_paired c = true <-> evidenced be ba /\ evidenced ce ca) /\
  (is_baseline_only c = true <-> evidenced be ba /\ ca = None) /\
  (is_candidate_only c = true <-> ba = None /\ evidenced ce ca).
Proof.
  intros Hb Hc. pose proof (combined_nil be ce ba ca) as Hn.
  unfold state_of_case, is_paired, is_baseline_only, is_candidate_only, case_of. cbn [case_state].
  assert (Hbc : forall a, ba = Some a -> role_reasons be ba = [] <-> evidenced be ba).
  { intros a ->. by apply (retained_clean id). }
  assert (Hcc : forall a, ca = Some a -> role_reasons ce ca = [] <-> evidenced ce ca).
  { intros a ->. by apply (retained_clean id). }
  pose proof (absent_not_evidenced be) as Nb. pose proof (absent_not_evidenced ce) as Nc.
  pose proof (absent_clean be) as Ab. pose proof (absent_clean ce) as Ac.
  destruct ba as [a|], ca as [a'|];
    try specialize (Hbc _ eq_refl); try specialize (Hcc _ eq_refl);
    destruct (combined_reasons be ce _ _); split_and!; try (split; [discriminate|]); naive_solver.
Qed.

(** The references of a pair are the ones its subjects bind. *)
Lemma paired_references id be ce ba ca x y :
  side id be ba -> side id ce ca -> case_of be ce ba ca = paired_case x y ->
  subject_fixture <$> be = Some x /\ subject_fixture <$> ce = Some y.
Proof.
  intros Hb Hc E.
  assert (Hp : is_paired (state_of_case id be ce ba ca) = true).
  { unfold is_paired, state_of_case. cbn [case_state]. by rewrite E. }
  apply (case_states id be ce ba ca Hb Hc) in Hp as [(e & a & -> & -> & Hf) (e' & a' & -> & -> & Hf')].
  unfold case_of in E. destruct (combined_reasons _ _ _ _); [|done]. injection E as <- <-. simpl.
  by rewrite (f_fixture _ _ Hf), (f_fixture _ _ Hf').
Qed.

(** A side of a fixture is refused for a reason. *)
Definition side_refused (expected : option ComparisonSubjectFixture)
    (actual : option ComparisonEvidenceFixtureSnapshot) (reason : ComparisonInvalidCaseReason) : Prop :=
  exists e a, expected = Some e /\ actual = Some a /\ flawed e a reason.

Lemma role_reasons_elem id expected actual reason :
  side id expected actual -> reason ∈ role_reasons expected actual <-> side_refused expected actual reason.
Proof.
  intros [He Ha Hb]. unfold side_refused. destruct actual as [a|].
  - destruct (Hb ltac:(eauto)) as [e ->]. simpl.
    rewrite integrity_elem by (apply He + apply Ha; done). naive_solver.
  - rewrite absent_clean, elem_of_nil. naive_solver.
Qed.

(** An invalid case names every reason, in order. *)
Lemma invalid_reasons id be ce ba ca x y reasons :
  side id be ba -> side id ce ca -> case_of be ce ba ca = invalid_case x y reasons ->
  isStrictlySortedUnique (invalid_case_name <$> reasons) = true /\
  forall reason, reason ∈ reasons <->
    side_refused be ba reason \/ side_refused ce ca reason \/ ba = None /\ ca = None /\ reason = unresolved_lineage.
Proof.
  intros Hb Hc E.
  assert (Hel : forall reason, reason ∈ combined_reasons be ce ba ca <-> side_refused be ba reason \/ side_refused ce ca reason).
  { intros reason. unfold combined_reasons.
    by rewrite drop_repeats_elem, sort_by_perm, elem_of_app, (role_reasons_elem id be ba), (role_reasons_elem id ce ca). }
  unfold case_of in E. pose proof (combined_reasons_accepted be ce ba ca) as Hacc.
  destruct (combined_reasons be ce ba ca) as [|reason0 rest] eqn:Er.
  - destruct ba as [b|], ca as [c|]; try discriminate E. injection E as _ _ <-. split; [done|].
    intros reason. rewrite list_elem_of_singleton. split; [tauto|].
    intros [(? & ? & _ & [=] & _)|[(? & ? & _ & [=] & _)|(_ & _ & ->)]]. done.
  - injection E as _ _ <-. split; [apply Hacc; discriminate|]. intros reason. rewrite Hel. split; [tauto|].
    intros [?|[?|(-> & -> & _)]]; [tauto|tauto|]. exfalso.
    unfold combined_reasons in Er. by rewrite !absent_clean in Er.
Qed.

(** A one-sided case names the fixture its subject binds, and whether the other
    subject lists it. *)
Definition absence (expected : option ComparisonSubjectFixture) (why : ComparisonMissingCaseReason) : Prop :=
  match expected with Some _ => why = snapshot_omission | None => why = fixture_absent end.

Lemma one_sided_details id be ce ba ca :
  side id be ba -> side id ce ca ->
  (forall x why, case_of be ce ba ca = baseline_only_case x why -> subject_fixture <$> be = Some x /\ absence ce why) /\
  (forall why y, case_of be ce ba ca = candidate_only_case why y -> subject_fixture <$> ce = Some y /\ absence be why).
Proof.
  intros Hb Hc. destruct (case_states id be ce ba ca Hb Hc) as (_ & Hbo & Hco).
  unfold is_baseline_only, is_candidate_only, state_of_case in Hbo, Hco. cbn [case_state] in Hbo, Hco.
  split; intros x why E; rewrite E in *.
  - destruct (proj1 Hbo eq_refl) as [(e & a & -> & -> & Hf) ->]. unfold case_of in E.
    destruct (combined_reasons _ _ _ _); [|done]. injection E as <- <-. simpl. rewrite (f_fixture _ _ Hf).
    split; [done|]. by destruct ce.
  - destruct (proj1 Hco eq_refl) as [-> (e & a & -> & -> & Hf)]. unfold case_of in E.
    destruct (combined_reasons _ _ _ _); [|done]. injection E as <- <-. simpl. rewrite (f_fixture _ _ Hf).
    split; [done|]. by destruct be.
Qed.

(** ** Counting *)

Lemma count_cases_cons state c cases :
  count_cases state (c :: cases) = (if state c then 1 else 0) + count_cases state cases.
Proof. unfold count_cases. simpl. destruct (state c); simpl; lia. Qed.

Lemma count_partition cases :
  count_cases is_baseline_only cases + count_cases is_candidate_only cases + count_cases is_invalid cases +
    count_cases is_paired cases = Z.of_nat (length cases).
Proof.
  induction cases as [|c cases IH]; [done|]. rewrite !count_cases_cons. simpl length.
  destruct c as [id []]; simpl; lia.
Qed.

Lemma count_cases_bound state cases : 0 <= count_cases state cases <= Z.of_nat (length cases).
Proof. unfold count_cases. pose proof (List.filter_length_le state cases). lia. Qed.

Lemma count_cases_all state cases :
  count_cases state cases = Z.of_nat (length cases) <-> forall c, c ∈ cases -> state c = true.
Proof.
  induction cases as [|c cases IH]; [split; [intros _ c Hc; by apply elem_of_nil in Hc|done]|].
  rewrite count_cases_cons. pose proof (count_cases_bound state cases). simpl length. split.
  - intros E x [->|Hx]%elem_of_cons; destruct (state _) eqn:Es in E; try done; try lia; apply IH; (done || lia).
  - intros Hall. rewrite (Hall c) by by left. assert (count_cases state cases = Z.of_nat (length cases)); [|lia].
    apply IH. intros x Hx. apply Hall. by right.
Qed.

Lemma count_cases_zero state cases :
  count_cases state cases = 0 <-> forall c, c ∈ cases -> state c = false.
Proof.
  induction cases as [|c cases IH]; [split; [intros _ c Hc; by apply elem_of_nil in Hc|done]|].
  rewrite count_cases_cons. pose proof (count_cases_bound state cases). split.
  - intros E x [->|Hx]%elem_of_cons; destruct (state c) eqn:Es; try lia; try done. apply IH; (done || lia).
  - intros Hall. rewrite (Hall c) by by left. apply IH. intros x Hx. apply Hall. by right.
Qed.

(** ** The run of a pairing *)

Lemma expected_of_Some subject id e :
  expected_of subject id = Some e -> e ∈ subject_fixtures subject /\ subject_fixtureId e = id.
Proof. apply map_by_get. Qed.

Lemma actual_of_Some snapshot id a :
  actual_of snapshot id = Some a -> a ∈ evidence_fixtures snapshot /\ snapshot_fixtureId a = id.
Proof. apply map_by_get. Qed.

Lemma expected_of_is_Some subject id : is_Some (expected_of subject id) <-> id ∈ fixture_ids subject.
Proof. apply map_by_keys. Qed.

Lemma actual_of_is_Some snapshot id :
  is_Some (actual_of snapshot id) <-> id ∈ snapshot_fixtureId <$> evidence_fixtures snapshot.
Proof. apply map_by_keys. Qed.

Lemma map_by_names {A} (key : A -> string) values id : id ∈ (map_by key values).*1 <-> id ∈ key <$> values.
Proof. unfold map_by. by rewrite map_of_keys, <- list_fmap_compose. Qed.

(** The snapshot belongs to the comparison, on one side. *)
Definition belongs (comparison : ComparisonDefinition) (subject : ComparisonSubject)
    (snapshot : ComparisonEvidenceSnapshot) : bool :=
  (evidence_scope snapshot === comparison_scope comparison) &&
  (evidence_comparison snapshot === exactComparisonReference comparison) &&
  (evidence_dataset snapshot === subject_dataset subject).

Definition within (subject : ComparisonSubject) (snapshot : ComparisonEvidenceSnapshot) : bool :=
  forallb (includes (fixture_ids subject)) (snapshot_fixtureId <$> evidence_fixtures snapshot).

Definition case_at (input : PairComparisonEvidenceInput) (id : string) : ComparisonCase :=
  state_of_case id (expected_of (comparison_baseline (input_comparison input)) id)
    (expected_of (comparison_candidate (input_comparison input)) id)
    (actual_of (input_baseline input) id) (actual_of (input_candidate input) id).

Definition compared_ids (comparison : ComparisonDefinition) : list string :=
  sorted_set (fixture_ids (comparison_baseline comparison) ++ fixture_ids (comparison_candidate comparison)).

Definition pairing_of (input : PairComparisonEvidenceInput) : ComparisonPairingResult :=
  let comparison := input_comparison input in
  let cases := case_at input <$> compared_ids comparison in
  let reasons := comparability_set comparison cases (input_baseline input) (input_candidate input) in
  {| paired_cases := cases;
     paired_comparability :=
       {| comparability_reasons := sorted_set_by comparability_reason_name reasons;
          comparability_status :=
            if (length (sorted_set_by comparability_reason_name reasons) =? 0)%nat then comparable
            else if (count_cases is_paired cases =? 0) || includes reasons unresolved_critical_counterevidence
            then incomparable else partially_comparable |};
     paired_summary :=
       {| pairing_baselineOnlyCount := count_cases is_baseline_only cases;
          pairing_candidateOnlyCount := count_cases is_candidate_only cases;
          pairing_invalidCount := count_cases is_invalid cases;
          pairing_pairedCount := count_cases is_paired cases;
          pairing_requestedCount := Z.of_nat (length cases) |} |}.

Lemma deriveComparability_Ok comparison cases b c :
  exists v, deriveComparability comparison cases b c = Ok v /\
    v = {| comparability_reasons :=
             sorted_set_by comparability_reason_name (comparability_set comparison cases b c);
           comparability_status :=
             if (length (sorted_set_by comparability_reason_name (comparability_set comparison cases b c)) =? 0)%nat
             then comparable
             else if (count_cases is_paired cases =? 0) ||
                       includes (comparability_set comparison cases b c) unresolved_critical_counterevidence
             then incomparable else partially_comparable |}.
Proof.
  eexists. split; [|reflexivity]. unfold deriveComparability. apply parse_accepted.
  unfold ComparisonComparabilitySchema. cbn [comparability_reasons comparability_status].
  set (l := comparability_set comparison cases b c).
  rewrite sorted_set_by_strict by apply _.
  assert (Hb : (length (sorted_set_by comparability_reason_name l) <= 12)%nat).
  { apply (vocabulary_bound [calibration_mismatch; criterion_mismatch; dataset_mismatch; fixture_mismatch;
      insufficient_paired_coverage; source_integrity_invalid; method_mismatch; missing_source_evidence;
      population_mismatch; unit_mismatch; unresolved_critical_counterevidence;
      unsupported_statistical_assumptions]); [|apply sorted_set_by_NoDup].
    intros []; repeat (first [by left|right]). }
  rewrite (proj2 (sized_spec 0 _ _)) by (unfold MAX_COMPARISON_RESULT_REASONS; lia).
  destruct (length (sorted_set_by comparability_reason_name l) =? 0)%nat eqn:E; [done|].
  by destruct ((count_cases is_paired cases =? 0) || includes l unresolved_critical_counterevidence).
Qed.

Section run.
Context `{UnicodeNormalization}.

Definition pairable (input : PairComparisonEvidenceInput) : bool :=
  let comparison := input_comparison input in
  ComparisonDefinitionRecordSchema comparison &&
  (ComparisonEvidenceSnapshotSchema (input_baseline input) &&
   (evidence_role (input_baseline input) === baseline_role)) &&
  (ComparisonEvidenceSnapshotSchema (input_candidate input) &&
   (evidence_role (input_candidate input) === candidate_role)) &&
  belongs comparison (comparison_baseline comparison) (input_baseline input) &&
  belongs comparison (comparison_candidate comparison) (input_candidate input) &&
  (evidence_snapshotId (input_baseline input) !== evidence_snapshotId (input_candidate input)) &&
  within (comparison_baseline comparison) (input_baseline input) &&
  within (comparison_candidate comparison) (input_candidate input).

Lemma envelope_guard comparison subject snapshot :
  if belongs comparison subject snapshot
  then assertSnapshotEnvelope comparison subject snapshot = Ok tt
  else exists code, assertSnapshotEnvelope comparison subject snapshot = Throw (ComparisonPairingError code).
Proof.
  unfold belongs, assertSnapshotEnvelope, reject_when. repeat case_bool_decide; simpl; eauto.
Qed.

Lemma within_guard subject snapshot :
  let m := assertNoUnexpectedFixtures (map_by subject_fixtureId (subject_fixtures subject))
             (map_by snapshot_fixtureId (evidence_fixtures snapshot)) in
  if within subject snapshot then m = Ok tt else exists code, m = Throw (ComparisonPairingError code).
Proof.
  intros m. unfold m, assertNoUnexpectedFixtures, within.
  set (c := existsb _ _). assert (Hc : c = negb (forallb (includes (fixture_ids subject))
      (snapshot_fixtureId <$> evidence_fixtures snapshot))).
  { apply eq_true_iff_eq. unfold c. rewrite existsb_exists, negb_true_iff, <- not_true_iff_false, forallb_elem.
    split.
    - intros ([id a] & Hin%list_elem_of_In & Hno) Hall. apply negb_true_iff in Hno. simpl in Hno.
      assert (Hid : id ∈ snapshot_fixtureId <$> evidence_fixtures snapshot).
      { apply map_by_names, list_elem_of_fmap. by exists (id, a). }
      specialize (Hall id Hid). apply includes_true, expected_of_is_Some in Hall.
      unfold map_has in Hno. apply bool_decide_eq_false in Hno. by apply Hno.
    - intros Hno. destruct (decide (Forall (fun id => id ∈ fixture_ids subject)
          (snapshot_fixtureId <$> evidence_fixtures snapshot))) as [Hall|Hex].
      + exfalso. apply Hno. intros id Hid. apply includes_true. by apply (proj1 (Forall_forall _ _) Hall).
      + apply not_Forall_Exists, Exists_exists in Hex as (id & Hid & Hn); [|apply _].
        apply map_by_names in Hid. apply list_elem_of_fmap in Hid as ([id' a] & -> & Hin).
        exists (id', a). split; [by apply list_elem_of_In|]. simpl in *. apply negb_true_iff.
        unfold map_has. apply bool_decide_eq_false_2. intros Hs. apply Hn. by apply expected_of_is_Some. }
  rewrite Hc. destruct (forallb _ _); simpl; eauto.
Qed.

Lemma role_guard snapshot role :
  let ok := ComparisonEvidenceSnapshotSchema snapshot && (evidence_role snapshot === role) in
  (ok = true -> parseSnapshot snapshot role = Ok snapshot) /\
  (ok = false -> exists code, parseSnapshot snapshot role = Throw (ComparisonPairingError code)).
Proof.
  unfold parseSnapshot, parse_with, reject_when.
  destruct (ComparisonEvidenceSnapshotSchema snapshot); simpl; [|split; [done|intros _; by eexists]].
  case_bool_decide; simpl; (split; [done|]); intros Hf; try done. by eexists.
Qed.

Lemma sides input :
  pairable input = true ->
  forall id,
    side id (expected_of (comparison_baseline (input_comparison input)) id) (actual_of (input_baseline input) id) /\
    side id (expected_of (comparison_candidate (input_comparison input)) id) (actual_of (input_candidate input) id).
Proof.
  unfold pairable. intros Hp id. key_facts.
  destruct (definition_facts (input_comparison input)) as (Hsb & Hsc & _); [done|].
  apply subject_facts in Hsb as (_ & Hsb & _), Hsc as (_ & Hsc & _).
  destruct (snapshot_facts (input_baseline input)) as (_ & Hb & _); [done|].
  destruct (snapshot_facts (input_candidate input)) as (_ & Hc & _); [done|].
  unfold within in *. list_facts.
  split; split.
  - intros e (He & Hid)%expected_of_Some. split; [by apply Hsb|done].
  - intros a (Ha & Hid)%actual_of_Some. split; [by apply fixture_facts, Hb|done].
  - intros Hid%actual_of_is_Some. apply expected_of_is_Some, includes_true. auto.
  - intros e (He & Hid)%expected_of_Some. split; [by apply Hsc|done].
  - intros a (Ha & Hid)%actual_of_Some. split; [by apply fixture_facts, Hc|done].
  - intros Hid%actual_of_is_Some. apply expected_of_is_Some, includes_true. auto.
Qed.

Lemma pairable_fixtures input :
  pairable input = true ->
  (forall f, f ∈ evidence_fixtures (input_baseline input) -> fixture_contract f) /\
  (forall f, f ∈ evidence_fixtures (input_candidate input) -> fixture_contract f).
Proof.
  unfold pairable. intros Hp. key_facts.
  destruct (snapshot_facts (input_baseline input)) as (_ & Hb & _); [done|].
  destruct (snapshot_facts (input_candidate input)) as (_ & Hc & _); [done|].
  split; intros f Hf; apply fixture_facts; auto.
Qed.
Lemma compared_ids_length comparison :
  ComparisonDefinitionRecordSchema comparison = true ->
  1 <= Z.of_nat (length (compared_ids comparison)) <= 1000.
Proof.
  intros (Hb & Hc & _)%definition_facts. apply subject_facts in Hb as (_ & _ & Hb), Hc as (_ & _ & Hc).
  unfold compared_ids, fixture_ids. split.
  - destruct (subject_fixtures (comparison_baseline comparison)) as [|f l] eqn:E; [simpl in Hb; lia|].
    set (ids := sorted_set _). assert (Hin : subject_fixtureId f ∈ ids).
    { apply elem_of_sorted_set. by left. }
    destruct ids; [by apply elem_of_nil in Hin|]. simpl. lia.
  - set (l := _ ++ _). assert (length (sorted_set l) <= length l)%nat.
    { apply submseteq_length, NoDup_submseteq; [apply sorted_set_NoDup|]. intros v. by rewrite elem_of_sorted_set. }
    unfold l in *. rewrite length_app, !length_fmap in *. lia.
Qed.

(** The ids a pairing visits, from the maps it builds. *)
Lemma visited_ids comparison :
  sorted_set ((map_by subject_fixtureId (subject_fixtures (comparison_baseline comparison))).*1 ++
    (map_by subject_fixtureId (subject_fixtures (comparison_candidate comparison))).*1) = compared_ids comparison.
Proof. apply sorted_set_ext. intros v. by rewrite !elem_of_app, !map_by_names. Qed.

Lemma cases_Ok input :
  pairable input = true ->
  map_result (fun id =>
    caseForFixture id (expected_of (comparison_baseline (input_comparison input)) id)
      (expected_of (comparison_candidate (input_comparison input)) id)
      (actual_of (input_baseline input) id) (actual_of (input_candidate input) id))
    (compared_ids (input_comparison input)) = Ok (case_at input <$> compared_ids (input_comparison input)).
Proof.
  intros Hp. apply map_result_Forall2. apply Forall2_fmap_r, Forall_Forall2_diag, Forall_forall.
  intros id Hid. destruct (sides input Hp id) as [Hb Hc]. apply caseForFixture_Ok; [done|done|].
  rewrite !expected_of_is_Some. by apply elem_of_sorted_set, elem_of_app in Hid.
Qed.

Lemma summary_accepted cases :
  Z.of_nat (length cases) <= 1000 ->
  ComparisonPairingSummarySchema
    {| pairing_baselineOnlyCount := count_cases is_baseline_only cases;
       pairing_candidateOnlyCount := count_cases is_candidate_only cases;
       pairing_invalidCount := count_cases is_invalid cases;
       pairing_pairedCount := count_cases is_paired cases;
       pairing_requestedCount := Z.of_nat (length cases) |} = true.
Proof.
  intros Hl. unfold ComparisonPairingSummarySchema.
  cbn [pairing_baselineOnlyCount pairing_candidateOnlyCount pairing_invalidCount pairing_pairedCount
       pairing_requestedCount].
  pose proof (count_partition cases). pose proof (count_cases_bound is_baseline_only cases).
  pose proof (count_cases_bound is_candidate_only cases). pose proof (count_cases_bound is_invalid cases).
  pose proof (count_cases_bound is_paired cases).
  rewrite js_add4_counts by (unfold MAX_SAFE_INTEGER; lia). cbn [forallb].
  rewrite !(proj2 (safe_count_spec _)) by (unfold MAX_SAFE_INTEGER; lia).
  rewrite !andb_true_l, andb_true_iff, isSafeInteger_spec, Z.eqb_eq. unfold MAX_SAFE_INTEGER. lia.
Qed.

(** One guard more: it throws, or what follows does. *)
Lemma refused_next {A B} (m : res A) (k : A -> res B) (ok rest : bool) a :
  (ok = true -> m = Ok a) ->
  (ok = false -> exists code, m = Throw (ComparisonPairingError code)) ->
  (rest = false -> exists code, k a = Throw (ComparisonPairingError code)) ->
  ok && rest = false -> exists code, (m ≫= k) = Throw (ComparisonPairingError code).
Proof.
  destruct ok; simpl; [intros -> _ Hk; [|done] | intros _ Hm _ _; destruct Hm as [code ->]; by eexists].
  apply Hk.
Qed.

Lemma refused_last {A B} (m : res A) (k : A -> res B) (ok : bool) :
  (ok = false -> exists code, m = Throw (ComparisonPairingError code)) ->
  ok = false -> exists code, (m ≫= k) = Throw (ComparisonPairingError code).
Proof. intros Hm Hf. destruct (Hm Hf) as [code ->]. by eexists. Qed.

Lemma guard_true {A} (ok : bool) (m : res A) a (P : Prop) :
  (if ok then m = Ok a else P) -> ok = true -> m = Ok a.
Proof. by intros Hm ->. Qed.

Lemma guard_false {A} (ok : bool) (m : res A) a (P : Prop) :
  (if ok then m = Ok a else P) -> ok = false -> P.
Proof. by intros Hm ->. Qed.

Lemma refused input :
  pairable input = false -> exists code, pairComparisonEvidence input = Throw (ComparisonPairingError code).
Proof.
  unfold pairable. rewrite <- !(andb_assoc _ _ _).
  rewrite (andb_assoc (ComparisonEvidenceSnapshotSchema (input_baseline input))),
    (andb_assoc (ComparisonEvidenceSnapshotSchema (input_candidate input))).
  unfold pairComparisonEvidence.
  apply (refused_next _ _ _ _ (input_comparison input)); [apply parse_known|by intros Hf; eexists; apply parse_with_Throw|].
  apply (refused_next _ _ _ _ (input_baseline input)); [apply role_guard..|].
  apply (refused_next _ _ _ _ (input_candidate input)); [apply role_guard..|].
  apply (refused_next _ _ _ _ tt); [apply (guard_true _ _ _ _ (envelope_guard _ _ _))
    |apply (guard_false _ _ _ _ (envelope_guard _ _ _))|].
  apply (refused_next _ _ _ _ tt); [apply (guard_true _ _ _ _ (envelope_guard _ _ _))
    |apply (guard_false _ _ _ _ (envelope_guard _ _ _))|].
  apply (refused_next _ _ _ _ tt); [intros Hn; by apply reject_known, negb_true_iff
    |by intros Hn%negb_false_iff; eexists; apply reject_when_Throw|].
  apply (refused_next _ _ _ _ tt); [apply (guard_true _ _ _ _ (within_guard _ _))
    |apply (guard_false _ _ _ _ (within_guard _ _))|].
  apply refused_last, (guard_false _ _ _ _ (within_guard _ _)).
Qed.

(** Pairing answers exactly for the inputs that belong together; every other
    input is refused with a pairing error. *)
Lemma pair_run input :
  if pairable input then pairComparisonEvidence input = Ok (pairing_of input)
  else exists code, pairComparisonEvidence input = Throw (ComparisonPairingError code).
Proof.
  destruct (pairable input) eqn:Hp.
  - pose proof (cases_Ok input Hp) as Hcases.
    unfold pairable in Hp. key_facts.
    pose proof (compared_ids_length (input_comparison input) ltac:(done)) as Hlen.
    unfold pairComparisonEvidence, parseComparison. erewrite bind_known by (by apply parse_known).
    erewrite bind_known by (apply role_guard; by apply andb_true_iff).
    erewrite bind_known by (apply role_guard; by apply andb_true_iff).
    pose proof (envelope_guard (input_comparison input) (comparison_baseline (input_comparison input))
      (input_baseline input)) as He1.
    pose proof (envelope_guard (input_comparison input) (comparison_candidate (input_comparison input))
      (input_candidate input)) as He2.
    pose proof (within_guard (comparison_baseline (input_comparison input)) (input_baseline input)) as Hw1.
    pose proof (within_guard (comparison_candidate (input_comparison input)) (input_candidate input)) as Hw2.
    cbv zeta in Hw1, Hw2.
    repeat match goal with E : _ = true, H : (if _ then _ else _) |- _ => rewrite E in H end.
    rewrite (bind_known _ _ _ He1), (bind_known _ _ _ He2).
    rewrite (bind_known _ _ tt) by (apply reject_known; by apply negb_true_iff).
    rewrite (bind_known _ _ _ Hw1), (bind_known _ _ _ Hw2). rewrite visited_ids.
    rewrite (bind_known _ _ _ Hcases).
    erewrite bind_known by (apply parse_accepted, summary_accepted; rewrite length_fmap; lia).
    destruct (deriveComparability_Ok (input_comparison input)
      (case_at input <$> compared_ids (input_comparison input)) (input_baseline input)
      (input_candidate input)) as (v & -> & ->). reflexivity.
  - by apply refused.
Qed.
End run.

(** ** Claims *)

Section claims.
Context `{UnicodeNormalization}.

Lemma pairing_run input r :
  pairComparisonEvidence input = Ok r -> pairable input = true /\ r = pairing_of input.
Proof.
  intros E. pose proof (pair_run input) as Hr. destruct (pairable input).
  - rewrite Hr in E. by injection E as <-.
  - destruct Hr as [code Hr]. by rewrite Hr in E.
Qed.

(** C26. Pairing is total on what belongs together: it answers exactly when the
    definition and both snapshots are valid, have their roles, bind this
    comparison, its scope and its datasets, are two snapshots and retain no
    fixture outside their subject.  Otherwise the error is its own: the schemas
    of cases, of the summary and of comparability, which it parses its results
    with, never refuse what it built. *)
Theorem pairing_answers input :
  match pairComparisonEvidence input with
  | Ok _ => pairable input = true
  | Throw e => pairable input = false /\ exists code, e = ComparisonPairingError code
  end.
Proof.
  pose proof (pair_run input) as Hr. destruct (pairable input).
  - by rewrite Hr.
  - destruct Hr as [code ->]. eauto.
Qed.

Lemma case_at_elem input c :
  c ∈ paired_cases (pairing_of input) -> c = case_at input (case_fixtureId c).
Proof. by intros (id & -> & _)%list_elem_of_fmap. Qed.

(** Both snapshots retained what their subjects bind. *)
Definition evidenced_at (subject : ComparisonSubject) (snapshot : ComparisonEvidenceSnapshot) (id : string) : Prop :=
  evidenced (expected_of subject id) (actual_of snapshot id).

(** C19. One case per logical fixture: the cases are the fixture ids of either
    subject, each once and in order; a case is paired exactly when both
    snapshots retain faithful evidence of the fixture (same version, replay,
    assessments and extensions, no outcome of another assessment), one-sided
    exactly when one does and the other retains nothing, and invalid otherwise.
    A pair or a single side names the versions the subjects bind, and a single
    side whether the other subject lists the fixture.  An invalid case gives, in
    order, exactly the reasons either side is refused for: another digest under
    the same version, or a broken lineage, which is also the reason when neither
    snapshot retains the fixture.  The summary counts each of the four classes. *)
Theorem pairing_cases_exact input r :
  pairComparisonEvidence input = Ok r ->
  let comparison := input_comparison input in
  let expected_here := expected_of (comparison_baseline comparison) in
  let expected_there := expected_of (comparison_candidate comparison) in
  let actual_here := actual_of (input_baseline input) in
  let actual_there := actual_of (input_candidate input) in
  let here := evidenced_at (comparison_baseline comparison) (input_baseline input) in
  let there := evidenced_at (comparison_candidate comparison) (input_candidate input) in
  isStrictlySortedUnique (case_fixtureId <$> paired_cases r) = true /\
  (forall id, id ∈ case_fixtureId <$> paired_cases r <->
     id ∈ fixture_ids (comparison_baseline comparison) \/ id ∈ fixture_ids (comparison_candidate comparison)) /\
  (forall c, c ∈ paired_cases r ->
     let id := case_fixtureId c in
     (is_paired c = true <-> here id /\ there id) /\
     (is_baseline_only c = true <-> here id /\ actual_there id = None) /\
     (is_candidate_only c = true <-> actual_here id = None /\ there id) /\
     match case_state c with
     | paired_case x y =>
         subject_fixture <$> expected_here id = Some x /\ subject_fixture <$> expected_there id = Some y
     | baseline_only_case x why => subject_fixture <$> expected_here id = Some x /\ absence (expected_there id) why
     | candidate_only_case why y => subject_fixture <$> expected_there id = Some y /\ absence (expected_here id) why
     | invalid_case _ _ reasons =>
         isStrictlySortedUnique (invalid_case_name <$> reasons) = true /\
         forall reason, reason ∈ reasons <->
           side_refused (expected_here id) (actual_here id) reason \/
           side_refused (expected_there id) (actual_there id) reason \/
           actual_here id = None /\ actual_there id = None /\ reason = unresolved_lineage
     end) /\
  paired_summary r = {|
    pairing_baselineOnlyCount := count_cases is_baseline_only (paired_cases r);
    pairing_candidateOnlyCount := count_cases is_candidate_only (paired_cases r);
    pairing_invalidCount := count_cases is_invalid (paired_cases r);
    pairing_pairedCount := count_cases is_paired (paired_cases r);
    pairing_requestedCount := Z.of_nat (length (paired_cases r)) |} /\
  count_cases is_baseline_only (paired_cases r) + count_cases is_candidate_only (paired_cases r) +
    count_cases is_invalid (paired_cases r) + count_cases is_paired (paired_cases r) =
    Z.of_nat (length (paired_cases r)).
Proof.
  intros [Hp ->]%pairing_run. cbv zeta.
  assert (Hids : case_fixtureId <$> paired_cases (pairing_of input) = compared_ids (input_comparison input)).
  { simpl. rewrite <- list_fmap_compose. apply list_fmap_id. }
  rewrite Hids. split_and!.
  - pose proof (sorted_distinct_strict id (compared_ids (input_comparison input)) ltac:(by intros ??)) as Hs.
    rewrite list_fmap_id in Hs. apply Hs; [apply sort_by_sorted|apply sorted_set_NoDup].
  - intros id. unfold compared_ids. by rewrite elem_of_sorted_set, elem_of_app.
  - intros c ->%case_at_elem. cbn [case_at state_of_case case_fixtureId].
    destruct (sides input Hp (case_fixtureId c)) as [Hb Hc].
    destruct (case_states _ _ _ _ _ Hb Hc) as (H1 & H2 & H3). split_and!; try done.
    destruct (one_sided_details _ _ _ _ _ Hb Hc) as [Hbo Hco].
    unfold case_at, state_of_case. cbn [case_state].
    destruct (case_of _ _ _ _) as [x y|x why|why y|x y reasons] eqn:E.
    + by apply (paired_references _ _ _ _ _ x y Hb Hc).
    + by apply Hbo.
    + by apply Hco.
    + by apply (invalid_reasons _ _ _ _ _ x y reasons Hb Hc).
  - done.
  - apply count_partition.
Qed.

(** ** Comparability *)

Definition critical (assurance : ComparisonAssuranceState) : Prop :=
  match assurance with
  | assessment_state _ reasons _ => ar_critical_counterevidence ∈ reasons
  | model_assurance_state _ reasons _ => mr_critical_counterevidence ∈ reasons
  end.

Definition unsupported (assurance : ComparisonAssuranceState) : Prop :=
  match assurance with
  | assessment_state _ reasons _ => ar_unsupported_statistical_assumptions ∈ reasons
  | model_assurance_state _ _ _ => False
  end.

(** Some retained assurance state of the snapshot. *)
Definition retains (P : ComparisonAssuranceState -> Prop) (snapshot : ComparisonEvidenceSnapshot) : Prop :=
  exists f a, f ∈ evidence_fixtures snapshot /\ a ∈ snapshot_assurance f /\ P a.

Lemma snapshot_reasons_elem s r :
  r ∈ snapshot_reasons s <-> retains (fun a => r ∈ assurance_reasons a) s.
Proof.
  unfold snapshot_reasons, retains. rewrite list_elem_of_join. split.
  - intros (l & Hr & (f & -> & Hf)%list_elem_of_fmap).
    apply list_elem_of_join in Hr as (k & Hr & (a & -> & Ha)%list_elem_of_fmap). eauto.
  - intros (f & a & Hf & Ha & Hr). eexists. split; [|apply list_elem_of_fmap; eauto].
    apply list_elem_of_join. eexists. split; [exact Hr|]. apply list_elem_of_fmap. eauto.
Qed.

Lemma elem_if {A} (c : bool) (x y : A) : y ∈ (if c then [x] else []) <-> c = true /\ y = x.
Proof.
  destruct c; [rewrite list_elem_of_singleton|rewrite elem_of_nil]; intuition discriminate.
Qed.

Lemma raised a r :
  r ∈ assurance_reasons a <->
  (r = unresolved_critical_counterevidence /\ critical a) \/
  (r = unsupported_statistical_assumptions /\ unsupported a).
Proof.
  destruct a as [e rs ref|e rs ref]; simpl; rewrite ?elem_of_app, !elem_if, !includes_true; tauto.
Qed.

Lemma snapshot_reason s r :
  r ∈ snapshot_reasons s <->
  (r = unresolved_critical_counterevidence /\ retains critical s) \/
  (r = unsupported_statistical_assumptions /\ retains unsupported s).
Proof.
  rewrite snapshot_reasons_elem. unfold retains. setoid_rewrite raised. naive_solver.
Qed.

Lemma fatal_reason comparison cases b c :
  includes (comparability_set comparison cases b c) unresolved_critical_counterevidence = true <->
  retains critical b \/ retains critical c.
Proof.
  rewrite includes_true. unfold comparability_set. rewrite !elem_of_app, !elem_if, !snapshot_reason.
  intuition discriminate.
Qed.

Lemma existsb_false_elem {A} (p : A -> bool) l : existsb p l = false <-> forall x, x ∈ l -> p x = false.
Proof.
  rewrite <- not_true_iff_false, existsb_exists. setoid_rewrite <- list_elem_of_In. split.
  - intros Hn x Hx. apply not_true_iff_false. eauto.
  - intros Hall (x & Hx & E). by rewrite (Hall x Hx) in E.
Qed.

Lemma snapshot_reasons_nil s :
  snapshot_reasons s = [] <-> ~ retains critical s /\ ~ retains unsupported s.
Proof.
  split.
  - intros E. split; intros Hr.
    + assert (Hin : unresolved_critical_counterevidence ∈ snapshot_reasons s) by (apply snapshot_reason; auto).
      rewrite E in Hin. by apply elem_of_nil in Hin.
    + assert (Hin : unsupported_statistical_assumptions ∈ snapshot_reasons s) by (apply snapshot_reason; auto).
      rewrite E in Hin. by apply elem_of_nil in Hin.
  - intros [Hc Hu]. apply elem_of_nil_inv. intros r [[_ ?]|[_ ?]]%snapshot_reason; done.
Qed.

(** No reason at all. *)
Lemma comparability_set_nil comparison cases b c :
  1 <= comparison_minimumPairedCoverageBasisPoints comparison <= 10000 ->
  comparability_set comparison cases b c = [] <->
  exactDatasetKey (subject_dataset (comparison_baseline comparison)) =
    exactDatasetKey (subject_dataset (comparison_candidate comparison)) /\
  (forall x, x ∈ cases -> is_paired x = true /\ differs_by_fixture x = false) /\
  (~ retains critical b /\ ~ retains unsupported b) /\ (~ retains critical c /\ ~ retains unsupported c).
Proof.
  intros Hmin. unfold comparability_set.
  rewrite !app_nil, !if_nil, !snapshot_reasons_nil, negb_false_iff, bool_decide_eq_true, Z.ltb_ge,
    !existsb_false_elem.
  assert (Hstate : forall x, is_paired x = true <->
      is_invalid x = false /\ is_baseline_only x || is_candidate_only x = false).
  { intros [id []]; simpl; intuition discriminate. }
  split.
  - intros (? & _ & Hi & Ho & Hd & ?). split_and!; try tauto. intros x Hx. split; [|auto].
    apply Hstate. auto.
  - intros (? & Hc & ?). assert (Hall : count_cases is_paired cases = Z.of_nat (length cases)).
    { apply count_cases_all. intros x Hx. by apply Hc. }
    split_and!; try tauto; [rewrite Hall; nia|..]; intros x Hx; destruct (Hc x Hx) as [Hp Hd]; try done;
      by apply Hstate in Hp as [? ?].
Qed.

Lemma differs_false id be ce ba ca :
  side id be ba -> side id ce ca -> is_paired (state_of_case id be ce ba ca) = true ->
  differs_by_fixture (state_of_case id be ce ba ca) = false <->
  subject_fixture <$> be = subject_fixture <$> ce.
Proof.
  intros Hb Hc Hp. unfold is_paired, differs_by_fixture, state_of_case in *. cbn [case_state] in *.
  destruct (case_of be ce ba ca) as [x y| | |] eqn:E; try done.
  destruct (paired_references id be ce ba ca x y Hb Hc E) as [Ex Ey]. rewrite Ex, Ey.
  rewrite negb_false_iff, bool_decide_eq_true. split; [|by intros [= ->]]. intros Ek. f_equal.
  destruct be as [e|]; [|done]. destruct ce as [e'|]; [|done]. injection Ex as <-. injection Ey as <-.
  destruct (side_expected _ _ _ Hb e eq_refl) as [(He & _)%subject_fixture_facts _].
  destruct (side_expected _ _ _ Hc e' eq_refl) as [(He' & _)%subject_fixture_facts _].
  by apply fixtureReferenceKey_inj.
Qed.

(** Nothing stands in the way of a comparison. *)
Definition clear (input : PairComparisonEvidenceInput) : Prop :=
  let comparison := input_comparison input in
  let baseline := comparison_baseline comparison in
  let candidate := comparison_candidate comparison in
  subject_dataset baseline = subject_dataset candidate /\
  (forall id, id ∈ fixture_ids baseline \/ id ∈ fixture_ids candidate ->
     evidenced_at baseline (input_baseline input) id /\ evidenced_at candidate (input_candidate input) id /\
     subject_fixture <$> expected_of baseline id = subject_fixture <$> expected_of candidate id) /\
  (forall s, s = input_baseline input \/ s = input_candidate input ->
     ~ retains critical s /\ ~ retains unsupported s).

Definition reasons_of (input : PairComparisonEvidenceInput) : list ComparisonComparabilityReason :=
  comparability_set (input_comparison input) (paired_cases (pairing_of input)) (input_baseline input)
    (input_candidate input).

Lemma pairable_definition input :
  pairable input = true -> ComparisonDefinitionRecordSchema (input_comparison input) = true.
Proof. unfold pairable. intros Hp. by key_facts. Qed.

(** A pair of one version, in terms of the subjects. *)
Lemma same_pair input id :
  pairable input = true ->
  is_paired (case_at input id) = true /\ differs_by_fixture (case_at input id) = false <->
  evidenced_at (comparison_baseline (input_comparison input)) (input_baseline input) id /\
  evidenced_at (comparison_candidate (input_comparison input)) (input_candidate input) id /\
  subject_fixture <$> expected_of (comparison_baseline (input_comparison input)) id =
    subject_fixture <$> expected_of (comparison_candidate (input_comparison input)) id.
Proof.
  intros Hp. destruct (sides input Hp id) as [Hb Hc].
  destruct (case_states _ _ _ _ _ Hb Hc) as (H1 & _). unfold case_at. split.
  - intros [Hpair Hdiff]. rewrite (differs_false _ _ _ _ _ Hb Hc Hpair) in Hdiff.
    by apply H1 in Hpair as [? ?].
  - intros (Hx & Hy & Ez). assert (Hpair := proj2 H1 (conj Hx Hy)). split; [done|].
    by apply (differs_false _ _ _ _ _ Hb Hc Hpair).
Qed.

Lemma clear_iff input : pairable input = true -> reasons_of input = [] <-> clear input.
Proof.
  intros Hp. pose proof (pairable_definition input Hp) as (Hsb & Hsc & Hmin)%definition_facts.
  apply subject_facts in Hsb as (Hdb & _ & _), Hsc as (Hdc & _ & _).
  unfold reasons_of, clear. rewrite comparability_set_nil by done.
  assert (Hk : exactDatasetKey (subject_dataset (comparison_baseline (input_comparison input))) =
      exactDatasetKey (subject_dataset (comparison_candidate (input_comparison input))) <->
      subject_dataset (comparison_baseline (input_comparison input)) =
      subject_dataset (comparison_candidate (input_comparison input))).
  { split; [by apply exactDatasetKey_inj|by intros ->]. }
  rewrite Hk. cbn [paired_cases pairing_of]. split.
  - intros (Hx & Hy & Hz & Hw). split_and!; [done| |by intros s [->| ->]].
    intros id Hid. apply (same_pair input id Hp), Hy, list_elem_of_fmap. exists id. split; [done|].
    by apply elem_of_sorted_set, elem_of_app.
  - intros (Hx & Hy & Hz). split_and!; [done| |apply Hz; auto|apply Hz; auto|apply Hz; auto|apply Hz; auto].
    intros x (id & -> & Hid)%list_elem_of_fmap. apply (same_pair input id Hp), Hy.
    by apply elem_of_app, elem_of_sorted_set.
Qed.

(** Without a pair there is a reason: the coverage. *)
Lemma unpaired_reason input :
  pairable input = true -> count_cases is_paired (paired_cases (pairing_of input)) = 0 -> reasons_of input <> [].
Proof.
  intros Hp E El. pose proof (pairable_definition input Hp) as Hd.
  pose proof (compared_ids_length _ Hd) as Hlen. apply definition_facts in Hd as (_ & _ & Hmin).
  apply (comparability_set_nil _ _ _ _ Hmin) in El as (_ & Hall & _).
  assert (Hfull : count_cases is_paired (paired_cases (pairing_of input)) =
      Z.of_nat (length (paired_cases (pairing_of input)))).
  { apply count_cases_all. intros x Hx. by apply Hall. }
  rewrite E in Hfull. cbn [paired_cases pairing_of] in Hfull. rewrite length_fmap in Hfull. lia.
Qed.

(** C27. A comparison is comparable exactly when nothing stands in its way: one
    dataset for both subjects, every case a pair of the same fixture version,
    and no retained state with critical counterevidence or unsupported
    statistical assumptions (the required coverage is then met, whatever it
    is); it is incomparable exactly when no pair is left or some retained state
    has critical counterevidence, and partially comparable otherwise. *)
Theorem comparability_exact input r :
  pairComparisonEvidence input = Ok r ->
  let status := comparability_status (paired_comparability r) in
  (status = comparable <-> clear input) /\
  (status = incomparable <->
     (forall c, c ∈ paired_cases r -> is_paired c = false) \/
     retains critical (input_baseline input) \/ retains critical (input_candidate input)) /\
  (status = comparable <-> comparability_reasons (paired_comparability r) = []).
Proof.
  intros [Hp ->]%pairing_run. cbv zeta.
  rewrite <- (clear_iff input Hp), <- (count_cases_zero is_paired).
  pose proof (unpaired_reason input Hp) as Hempty.
  pose proof (fatal_reason (input_comparison input) (paired_cases (pairing_of input)) (input_baseline input)
    (input_candidate input)) as Hfatal.
  rewrite <- Hfatal. fold (reasons_of input) in *.
  change (paired_comparability (pairing_of input)) with
    {| comparability_reasons := sorted_set_by comparability_reason_name (reasons_of input);
       comparability_status :=
         if (length (sorted_set_by comparability_reason_name (reasons_of input)) =? 0)%nat then comparable
         else if (count_cases is_paired (paired_cases (pairing_of input)) =? 0) ||
                   includes (reasons_of input) unresolved_critical_counterevidence
         then incomparable else partially_comparable |}.
  cbn [comparability_reasons comparability_status]. rewrite sorted_set_by_nil.
  destruct (Nat.eqb_spec (length (sorted_set_by comparability_reason_name (reasons_of input))) 0) as [E|E];
    rewrite length_zero_iff_nil, sorted_set_by_nil in E.
  - rewrite E in *. split_and!; [done| |done]. split; [done|]. intros [H0|H0]; [|done]. by destruct (Hempty H0).
  - destruct (Z.eqb_spec (count_cases is_paired (paired_cases (pairing_of input))) 0) as [H0|H0]; simpl;
      [|destruct (includes (reasons_of input) unresolved_critical_counterevidence)]; intuition discriminate.
Qed.
End claims.
