(* ===== verification/ComparisonVerdicts.v ===== *)
(** * Verdict marginals and transitions

    [packages/core/src/evaluation/comparison-verdict-transitions.ts]: the
    verdict counts of each criterion over a snapshot, and the transitions from
    baseline to candidate verdicts where the aggregate counts determine them.
    Sums are [bigint]s; [checkedCount] brings one back to a safe number. *)

From S2P Require Import Prelude Errors Primitives ExactArithmetic ReplayPlan OrderedMap.
From S2P Require Import ComparisonContracts ComparisonSnapshot ComparisonResults.
From S2P Require Import ComparisonPairing.
#[local] Open Scope Z_scope.

Definition verdictFields : list EvaluationVerdict :=
  [verdict_abstain; verdict_error; verdict_fail; verdict_not_applicable; verdict_pass].

Definition verdict_name (verdict : EvaluationVerdict) : string :=
  match verdict with
  | verdict_abstain => "abstain" | verdict_error => "error" | verdict_fail => "fail"
  | verdict_not_applicable => "not_applicable" | verdict_pass => "pass"
  end.

(** [counts[verdictCountFields[verdict]]] *)
Definition countForVerdict (counts : ComparisonVerdictCounts) (verdict : EvaluationVerdict) : Z :=
  match verdict with
  | verdict_abstain => counts_abstain counts
  | verdict_error => counts_error counts
  | verdict_fail => counts_fail counts
  | verdict_not_applicable => counts_notApplicable counts
  | verdict_pass => counts_pass counts
  end.

Record ComparisonVerdictTransitionDerivation := {
  derived_verdictMarginals : list ComparisonVerdictMarginal;
  derived_verdictTransitions : list ComparisonVerdictTransition;
}.

Record ExactTransitionCount := {
  exact_baseline : EvaluationVerdict;
  exact_candidate : EvaluationVerdict;
  exact_count : Z;
  exact_criterion : CriterionReference;
}.

Abbreviation transition_map := (list (string * ExactTransitionCount)).

Definition exactCriterionKey (value : CriterionReference) : string :=
  joined (criterionSet_criterionSetId (criterion_criterionSet value))
    (joined (criterionSet_criterionSetVersionId (criterion_criterionSet value))
      (joined (criterionSet_definitionSha256 (criterion_criterionSet value)) (criterion_criterionId value))).

Definition exactAssessmentKey (outcome : ComparisonEvaluationOutcome) : string :=
  assessment_key (outcome_assessment outcome).

(** [fixtureMap(snapshot)] *)
Definition fixtureMap (snapshot : ComparisonEvidenceSnapshot) : list (string * ComparisonEvidenceFixtureSnapshot) :=
  map_by snapshot_fixtureId (evidence_fixtures snapshot).

Definition outcomesForCriterion (fixture : option ComparisonEvidenceFixtureSnapshot) (criterionKey : string) :
    list ComparisonEvaluationOutcome :=
  match fixture with
  | Some fixture =>
      List.filter (fun outcome => exactCriterionKey (outcome_criterion outcome) === criterionKey)
        (snapshot_evaluationOutcomes fixture)
  | None => []
  end.

Definition checkedCount (value : Z) : res Z := if MAX_SAFE_INTEGER <? value then Throw RangeError else Ok value.

Definition emptyCounts : ComparisonVerdictCounts := Build_ComparisonVerdictCounts 0 0 0 0 0 0.

Definition addOutcomeCounts (target counts : ComparisonVerdictCounts) : ComparisonVerdictCounts :=
  {| counts_abstain := counts_abstain target + counts_abstain counts;
     counts_error := counts_error target + counts_error counts;
     counts_fail := counts_fail target + counts_fail counts;
     counts_notApplicable := counts_notApplicable target + counts_notApplicable counts;
     counts_pass := counts_pass target + counts_pass counts;
     counts_total := counts_total target + counts_total counts |}.

(** The two nested loops of [marginalCounts]. *)
Definition aggregateCounts (snapshot : ComparisonEvidenceSnapshot) (criterionKey : string) :
    ComparisonVerdictCounts :=
  foldl (fun aggregate fixture =>
    foldl (fun aggregate outcome => addOutcomeCounts aggregate (outcome_counts outcome)) aggregate
      (outcomesForCriterion (Some fixture) criterionKey)) emptyCounts (evidence_fixtures snapshot).

Definition marginalCounts (snapshot : ComparisonEvidenceSnapshot) (criterionKey : string) :
    res ComparisonVerdictCounts :=
  let aggregate := aggregateCounts snapshot criterionKey in
  abstain ← checkedCount (counts_abstain aggregate);
  error ← checkedCount (counts_error aggregate);
  fail ← checkedCount (counts_fail aggregate);
  notApplicable ← checkedCount (counts_notApplicable aggregate);
  pass ← checkedCount (counts_pass aggregate);
  total ← checkedCount (counts_total aggregate);
  Ok (Build_ComparisonVerdictCounts abstain error fail notApplicable pass total).

Definition nonzeroVerdicts (counts : ComparisonVerdictCounts) : list EvaluationVerdict :=
  List.filter (fun verdict => 0 <? countForVerdict counts verdict) verdictFields.

Definition transition_key (criterion : CriterionReference) (baseline candidate : EvaluationVerdict) : string :=
  joined (exactCriterionKey criterion) (joined (verdict_name baseline) (verdict_name candidate)).

(** [existing.count += BigInt(count)] changes the entry the map holds. *)
Definition addTransition (transitions : transition_map) (criterion : CriterionReference)
    (baseline candidate : EvaluationVerdict) (count : Z) : transition_map :=
  let key := transition_key criterion baseline candidate in
  match map_get transitions key with
  | Some existing =>
      map_set transitions key
        {| exact_baseline := exact_baseline existing; exact_candidate := exact_candidate existing;
           exact_count := exact_count existing + count; exact_criterion := exact_criterion existing |}
  | None =>
      map_set transitions key
        {| exact_baseline := baseline; exact_candidate := candidate; exact_count := count;
           exact_criterion := criterion |}
  end.

Definition addUniqueAggregateTransitions (transitions : transition_map) (criterion : CriterionReference)
    (baseline candidate : ComparisonVerdictCounts) : transition_map * bool :=
  let baselineVerdicts := nonzeroVerdicts baseline in
  let candidateVerdicts := nonzeroVerdicts candidate in
  if counts_total baseline =? 0 then (transitions, true)
  else
    match baselineVerdicts with
    | [baselineVerdict] =>
        (foldl (fun transitions candidateVerdict =>
           addTransition transitions criterion baselineVerdict candidateVerdict
             (countForVerdict candidate candidateVerdict)) transitions candidateVerdicts, true)
    | _ =>
        match candidateVerdicts with
        | [candidateVerdict] =>
            (foldl (fun transitions baselineVerdict =>
               addTransition transitions criterion baselineVerdict candidateVerdict
                 (countForVerdict baseline baselineVerdict)) transitions baselineVerdicts, true)
        | _ => (transitions, false)
        end
    end.

Definition exactAssessmentMap (outcomes : list ComparisonEvaluationOutcome) :
    list (string * ComparisonEvaluationOutcome) := map_by exactAssessmentKey outcomes.

Definition sameOrderedKeys (baseline candidate : list (string * ComparisonEvaluationOutcome)) : bool :=
  (length baseline =? length candidate)%nat && forallb (map_has candidate) baseline.*1.

Definition nonempty {A} (values : list A) : bool := negb (length values =? 0)%nat.

Definition invalidCaseContainsCriterion (comparisonCase : ComparisonCase) (criterionKey : string)
    (baselineFixtures candidateFixtures : list (string * ComparisonEvidenceFixtureSnapshot)) : bool :=
  if negb (is_invalid comparisonCase) then false
  else
    nonempty (outcomesForCriterion (map_get baselineFixtures (case_fixtureId comparisonCase)) criterionKey) ||
    nonempty (outcomesForCriterion (map_get candidateFixtures (case_fixtureId comparisonCase)) criterionKey).

(** The variables of [deriveCriterionTransitions] its loops assign. *)
Record CriterionState := {
  cs_reasons : list ComparisonVerdictTransitionUnavailableReason;
  cs_transitions : transition_map;
  cs_pairedCount : Z;
  cs_pairedFixtureCount : Z;
}.

Definition add_reason (reason : ComparisonVerdictTransitionUnavailableReason) (state : CriterionState) :
    CriterionState :=
  {| cs_reasons := cs_reasons state ++ [reason]; cs_transitions := cs_transitions state;
     cs_pairedCount := cs_pairedCount state; cs_pairedFixtureCount := cs_pairedFixtureCount state |}.

(** One assessment of a pair. *)
Definition assessment_step (criterion : CriterionReference)
    (candidateByAssessment : list (string * ComparisonEvaluationOutcome)) (state : CriterionState)
    (entry : string * ComparisonEvaluationOutcome) : res CriterionState :=
  match map_get candidateByAssessment entry.1 with
  | None => Throw TypeError
  | Some candidateOutcome =>
      let baseline := outcome_counts entry.2 in
      let candidate := outcome_counts candidateOutcome in
      if negb (counts_total baseline =? counts_total candidate) then Ok (add_reason outcome_count_mismatch state)
      else
        let '(transitions, unique) :=
          addUniqueAggregateTransitions (cs_transitions state) criterion baseline candidate in
        if negb unique then
          Ok (add_reason ambiguous_aggregate_pairing
            {| cs_reasons := cs_reasons state; cs_transitions := transitions;
               cs_pairedCount := cs_pairedCount state;
               cs_pairedFixtureCount := cs_pairedFixtureCount state |})
        else
          Ok {| cs_reasons := cs_reasons state; cs_transitions := transitions;
                cs_pairedCount := cs_pairedCount state + counts_total baseline;
                cs_pairedFixtureCount := cs_pairedFixtureCount state |}
  end.

(** One case. *)
Definition case_step (criterion : CriterionReference)
    (baselineFixtures candidateFixtures : list (string * ComparisonEvidenceFixtureSnapshot))
    (state : CriterionState) (comparisonCase : ComparisonCase) : res CriterionState :=
  let criterionKey := exactCriterionKey criterion in
  let state :=
    if invalidCaseContainsCriterion comparisonCase criterionKey baselineFixtures candidateFixtures
    then add_reason invalid_paired_evidence state else state in
  if negb (is_paired comparisonCase) then Ok state
  else
    let state :=
      {| cs_reasons := cs_reasons state; cs_transitions := cs_transitions state;
         cs_pairedCount := cs_pairedCount state; cs_pairedFixtureCount := cs_pairedFixtureCount state + 1 |} in
    let baselineOutcomes :=
      outcomesForCriterion (map_get baselineFixtures (case_fixtureId comparisonCase)) criterionKey in
    let candidateOutcomes :=
      outcomesForCriterion (map_get candidateFixtures (case_fixtureId comparisonCase)) criterionKey in
    if (length baselineOutcomes =? 0)%nat || (length candidateOutcomes =? 0)%nat
    then Ok (add_reason missing_paired_evidence state)
    else
      let baselineByAssessment := exactAssessmentMap baselineOutcomes in
      let candidateByAssessment := exactAssessmentMap candidateOutcomes in
      if negb (sameOrderedKeys baselineByAssessment candidateByAssessment)
      then Ok (add_reason assessment_mismatch state)
      else fold_result (assessment_step criterion candidateByAssessment) state baselineByAssessment.

Record CriterionDerivation := {
  derivation_pairedCount : option Z;
  derivation_reasons : list ComparisonVerdictTransitionUnavailableReason;
  derivation_transitions : list ComparisonVerdictTransition;
}.

Definition transition_of (value : ExactTransitionCount) : res ComparisonVerdictTransition :=
  count ← checkedCount (exact_count value);
  parse ComparisonVerdictTransitionSchema
    {| transition_baseline := exact_baseline value; transition_candidate := exact_candidate value;
       transition_count := count; transition_criterion := exact_criterion value |}.

Definition initial_state : CriterionState :=
  {| cs_reasons := []; cs_transitions := []; cs_pairedCount := 0; cs_pairedFixtureCount := 0 |}.

Definition deriveCriterionTransitions (criterion : CriterionReference) (cases : list ComparisonCase)
    (baselineFixtures candidateFixtures : list (string * ComparisonEvidenceFixtureSnapshot)) :
    res CriterionDerivation :=
  state ← fold_result (case_step criterion baselineFixtures candidateFixtures) initial_state cases;
  let state := if cs_pairedFixtureCount state =? 0 then add_reason missing_paired_evidence state else state in
  if nonempty (cs_reasons state) then
    Ok {| derivation_pairedCount := None;
          derivation_reasons := sorted_set_by transition_reason_name (cs_reasons state);
          derivation_transitions := [] |}
  else
    pairedCount ← checkedCount (cs_pairedCount state);
    transitions ← map_result (fun entry => transition_of entry.2) (sort_by fst (cs_transitions state));
    Ok {| derivation_pairedCount := Some pairedCount; derivation_reasons := [];
          derivation_transitions := transitions |}.

Definition all_outcomes (snapshot : ComparisonEvidenceSnapshot) : list ComparisonEvaluationOutcome :=
  mjoin (snapshot_evaluationOutcomes <$> evidence_fixtures snapshot).

(** [criteria]: by exact key, the last reference seen. *)
Definition criteria_of (input : PairComparisonEvidenceInput) : list (string * CriterionReference) :=
  map_of ((fun outcome => (exactCriterionKey (outcome_criterion outcome), outcome_criterion outcome)) <$>
    (all_outcomes (input_baseline input) ++ all_outcomes (input_candidate input))).

Definition criterion_step (input : PairComparisonEvidenceInput) (cases : list ComparisonCase)
    (derived : ComparisonVerdictTransitionDerivation) (entry : string * CriterionReference) :
    res ComparisonVerdictTransitionDerivation :=
  let '(criterionKey, criterion) := entry in
  derivation ← deriveCriterionTransitions criterion cases (fixtureMap (input_baseline input))
    (fixtureMap (input_candidate input));
  baseline ← marginalCounts (input_baseline input) criterionKey;
  candidate ← marginalCounts (input_candidate input) criterionKey;
  marginal ← parse ComparisonVerdictMarginalSchema
    {| marginal_baseline := baseline; marginal_candidate := candidate; marginal_criterion := criterion;
       marginal_transition :=
         match derivation_pairedCount derivation with
         | None => transition_unavailable (derivation_reasons derivation)
         | Some pairedCount => transition_available pairedCount
         end |};
  Ok {| derived_verdictMarginals := derived_verdictMarginals derived ++ [marginal];
        derived_verdictTransitions := derived_verdictTransitions derived ++ derivation_transitions derivation |}.

Definition deriveComparisonVerdictTransitions `{UnicodeNormalization} (input : PairComparisonEvidenceInput) :
    res ComparisonVerdictTransitionDerivation :=
  pairing ← pairComparisonEvidence input;
  let criteria := criteria_of input in
  reject_when (MAX_COMPARISON_SUBJECT_ASSESSMENTS <? Z.of_nat (length criteria)) RangeError ;;
  fold_result (criterion_step input (paired_cases pairing))
    {| derived_verdictMarginals := []; derived_verdictTransitions := [] |} (sort_by fst criteria).
