(* ===== verification/ComparisonTransport.v ===== *)
(** * Unique transition matrices

    What an aggregate can say of individual transitions: counts of verdicts
    before and after are the row and column sums of a matrix of transitions.
    The matrix is unique exactly when one side has a single verdict, which is
    when [addUniqueAggregateTransitions] adds it. *)

From S2P Require Import Prelude Errors Primitives ReplayPlan OrderedMap ComparisonContracts.
From S2P Require Import ComparisonSnapshot ComparisonResults ComparisonPairing ComparisonKeys.
From S2P Require Import ComparisonVerdicts.
#[local] Open Scope Z_scope.

(** ** Matrices of transitions *)

Abbreviation verdict_counts := (EvaluationVerdict -> Z).
Abbreviation matrix := (EvaluationVerdict -> EvaluationVerdict -> Z).

Definition total (f : verdict_counts) : Z := sum_by f verdictFields.

Record transports (M : matrix) (b c : verdict_counts) : Prop := {
  t_nonneg : forall i j, 0 <= M i j;
  t_rows : forall i, total (M i) = b i;
  t_columns : forall j, total (fun i => M i j) = c j;
}.

Definition unique_transport (b c : verdict_counts) : Prop :=
  exists M, transports M b c /\ forall M', transports M' b c -> forall i j, M' i j = M i j.

Lemma verdict_elem v : v ∈ verdictFields.
Proof. destruct v; repeat (first [by left|right]). Qed.

Lemma total_zero f i : (forall j, 0 <= f j) -> total f = 0 -> f i = 0.
Proof.
  intros Hf E. pose proof (sum_by_elem_le f verdictFields i (fun y _ => Hf y) (verdict_elem i)).
  specialize (Hf i). unfold total in E. lia.
Qed.

Lemma total_positive f : (forall j, 0 <= f j) -> 0 < total f -> exists i, 0 < f i.
Proof.
  intros Hf Ht. destruct (decide (Exists (fun i => 0 < f i) verdictFields)) as [Hex|Hno].
  { apply Exists_exists in Hex as (i & _ & Hi). eauto. }
  exfalso. assert (total f = 0); [|lia]. apply sum_by_zero. intros i Hi. specialize (Hf i).
  destruct (Z.eq_dec (f i) 0); [done|]. exfalso. apply Hno, Exists_exists. exists i. split; [done|lia].
Qed.

(** [f] with one more at [i]. *)
Definition bump (f : verdict_counts) (i : EvaluationVerdict) : verdict_counts :=
  fun x => f x + if decide (x = i) then 1 else 0.

Lemma total_bump f i : total (bump f i) = total f + 1.
Proof.
  assert (E : forall g : verdict_counts, total g = g verdict_abstain + (g verdict_error + (g verdict_fail +
    (g verdict_not_applicable + (g verdict_pass + 0))))) by done.
  rewrite !E. unfold bump. destruct i; repeat (destruct (decide _); try congruence); lia.
Qed.

Lemma total_ext f g : (forall i, f i = g i) -> total f = total g.
Proof. intros E. apply sum_by_ext. auto. Qed.

Definition bump_at (M : matrix) (i j : EvaluationVerdict) : matrix :=
  fun x => if decide (x = i) then bump (M x) j else M x.

Lemma bump_transports M b c i j : transports M b c -> transports (bump_at M i j) (bump b i) (bump c j).
Proof.
  intros [Hn Hr Hc]. split.
  - intros x y. unfold bump_at, bump. specialize (Hn x y). repeat destruct (decide _); lia.
  - intros x. unfold bump_at. unfold bump at 2. destruct (decide (x = i)); [rewrite total_bump|]; rewrite Hr; lia.
  - intros y. unfold bump at 1. rewrite <- Hc. destruct (decide (y = j)) as [->|Hy].
    + rewrite <- (total_bump _ i). apply total_ext. intros x. unfold bump_at, bump.
      repeat destruct (decide _); done || lia.
    + rewrite Z.add_0_r. apply total_ext. intros x. unfold bump_at, bump. repeat destruct (decide _); done || lia.
Qed.

(** [f] with one less at [i]. *)
Definition drop (f : verdict_counts) (i : EvaluationVerdict) : verdict_counts :=
  fun x => f x - if decide (x = i) then 1 else 0.

Lemma bump_drop f i x : bump (drop f i) i x = f x.
Proof. unfold bump, drop. destruct (decide _); lia. Qed.

Lemma total_drop f i : total (drop f i) = total f - 1.
Proof.
  pose proof (total_bump (drop f i) i) as E. rewrite (total_ext _ f) in E by apply bump_drop. lia.
Qed.

Lemma drop_nonneg f i : (forall x, 0 <= f x) -> 0 < f i -> forall x, 0 <= drop f i x.
Proof. intros Hf Hi x. unfold drop. specialize (Hf x). destruct (decide _); subst; lia. Qed.

Lemma transports_ext M b c b' c' :
  (forall i, b i = b' i) -> (forall j, c j = c' j) -> transports M b c -> transports M b' c'.
Proof. intros Eb Ec [Hn Hr Hc]. split; [done|intros i; by rewrite Hr|intros j; by rewrite Hc]. Qed.

(** Equal totals have a matrix. *)
Lemma transport_exists b c :
  (forall i, 0 <= b i) -> (forall j, 0 <= c j) -> total b = total c -> exists M, transports M b c.
Proof.
  intros Hb. remember (Z.to_nat (total b)) as n eqn:En. revert b c Hb En.
  induction n as [|n IH]; intros b c Hb En Hc Et.
  - assert (0 <= total b) by (apply sum_by_nonneg; auto). assert (total b = 0) by lia.
    exists (fun _ _ => 0). split; [done|intros i|intros j].
    + by rewrite (total_zero b i).
    + rewrite (total_zero c j); [done|done|lia].
  - destruct (total_positive b Hb) as [i Hi]; [lia|]. destruct (total_positive c Hc) as [j Hj]; [lia|].
    destruct (IH (drop b i) (drop c j)) as [M HM].
    + by apply drop_nonneg.
    + rewrite total_drop. lia.
    + by apply drop_nonneg.
    + rewrite !total_drop. lia.
    + exists (bump_at M i j). apply (transports_ext _ (bump (drop b i) i) (bump (drop c j) j));
        [apply bump_drop..|]. by apply bump_transports.
Qed.

(** A single row or column leaves one matrix. *)
Definition row_matrix (r : EvaluationVerdict) (c : verdict_counts) : matrix :=
  fun i j => if decide (i = r) then c j else 0.

Definition transpose (M : matrix) : matrix := fun i j => M j i.

Lemma transports_transpose M b c : transports M b c -> transports (transpose M) c b.
Proof. intros [Hn Hr Hc]. split; unfold transpose; auto. Qed.

Lemma total_single r (x : Z) : total (fun i => if decide (i = r) then x else 0) = x.
Proof. destruct r; vm_compute; by destruct x. Qed.

Lemma row_transports r b c :
  (forall j, 0 <= c j) -> (forall i, i <> r -> b i = 0) -> total b = total c ->
  transports (row_matrix r c) b c.
Proof.
  intros Hc Hb Et. split; unfold row_matrix.
  - intros i j. destruct (decide _); auto with lia.
  - intros i. destruct (decide (i = r)) as [->|Hi].
    + change (total c = b r). rewrite <- Et, <- (total_single r (b r)). apply total_ext. intros i.
      destruct (decide (i = r)); subst; auto.
    + by rewrite Hb.
  - intros j. apply total_single.
Qed.

Lemma row_forced r M b c :
  transports M b c -> (forall i, i <> r -> b i = 0) -> forall i j, M i j = row_matrix r c i j.
Proof.
  intros [Hn Hr Hc] Hb.
  assert (Hz : forall i j, i <> r -> M i j = 0).
  { intros i j Hi. apply total_zero; [auto|]. by rewrite Hr, Hb. }
  intros i j. unfold row_matrix. destruct (decide (i = r)) as [->|Hi]; [|auto].
  rewrite <- Hc, <- (total_single r (M r j)). apply total_ext. intros i.
  destruct (decide (i = r)) as [->|Hi]; [done|by rewrite Hz].
Qed.

(** Two rows and two columns leave more than one. *)
Lemma two_by_two b c r r' k k' :
  (forall i, 0 <= b i) -> (forall j, 0 <= c j) -> total b = total c ->
  r <> r' -> 0 < b r -> 0 < b r' -> k <> k' -> 0 < c k -> 0 < c k' ->
  exists M M', transports M b c /\ transports M' b c /\ M r k <> M' r k.
Proof.
  intros Hb Hc Et Hr Hbr Hbr' Hk Hck Hck'.
  assert (Hbr1 : 0 < drop b r r') by (unfold drop; destruct (decide _); congruence || lia).
  assert (Hck1 : 0 < drop c k k') by (unfold drop; destruct (decide _); congruence || lia).
  destruct (transport_exists (drop (drop b r) r') (drop (drop c k) k')) as [N HN].
  { apply drop_nonneg; [by apply drop_nonneg|done]. }
  { apply drop_nonneg; [by apply drop_nonneg|done]. }
  { rewrite !total_drop. lia. }
  assert (Eb : forall i, bump (bump (drop (drop b r) r') r') r i = b i).
  { intros i. unfold bump, drop. repeat destruct (decide _); lia. }
  assert (Ec : forall j, bump (bump (drop (drop c k) k') k') k j = c j).
  { intros j. unfold bump, drop. repeat destruct (decide _); lia. }
  assert (Ec' : forall j, bump (bump (drop (drop c k) k') k) k' j = c j).
  { intros j. unfold bump, drop. repeat destruct (decide _); lia. }
  exists (bump_at (bump_at N r' k') r k), (bump_at (bump_at N r' k) r k'). split_and!.
  - eapply transports_ext; [exact Eb|exact Ec|]. by do 2 apply bump_transports.
  - eapply transports_ext; [exact Eb|exact Ec'|]. by do 2 apply bump_transports.
  - unfold bump_at, bump. repeat destruct (decide _); congruence || lia.
Qed.

(** ** Counts of verdicts *)

Lemma verdict_counts_facts counts :
  ComparisonVerdictCountsSchema counts = true ->
  (forall v, 0 <= countForVerdict counts v <= MAX_SAFE_INTEGER) /\
  total (countForVerdict counts) = counts_total counts /\ 0 <= counts_total counts <= MAX_SAFE_INTEGER.
Proof.
  unfold ComparisonVerdictCountsSchema. cbv zeta. intros Hv. key_facts.
  cbn [forallb] in *. key_facts. rewrite !safe_count_spec in *.
  match goal with E : isSafeInteger _ = true, T : (_ =? _) = true |- _ =>
    apply Z.eqb_eq in T; rename T into Et; rename E into Es end.
  assert (Hsum : counts_abstain counts + counts_error counts + counts_fail counts + counts_notApplicable counts +
      counts_pass counts = counts_total counts).
  { apply isSafeInteger_spec in Es. rewrite <- Et. symmetry.
    apply js_add5_counts; lia. }
  split_and!; try lia.
  - intros []; simpl; lia.
  - unfold total. simpl. lia.
Qed.

Lemma nonzero_elem counts v : v ∈ nonzeroVerdicts counts <-> 0 < countForVerdict counts v.
Proof.
  unfold nonzeroVerdicts. rewrite list_elem_of_In, filter_In, <- list_elem_of_In, Z.ltb_lt.
  split; [tauto|]. split; [apply verdict_elem|done].
Qed.

Lemma nonzero_NoDup counts : NoDup (nonzeroVerdicts counts).
Proof.
  apply NoDup_ListNoDup, List.NoDup_filter, NoDup_ListNoDup.
  apply (bool_decide_eq_true_1 (NoDup verdictFields)). reflexivity.
Qed.

(** A sum over the verdicts is a sum over the nonzero ones. *)
Lemma total_nonzero counts :
  (forall v, 0 <= countForVerdict counts v) ->
  sum_by (countForVerdict counts) (nonzeroVerdicts counts) = total (countForVerdict counts).
Proof.
  intros Hn. unfold nonzeroVerdicts, total. induction verdictFields as [|v l IH]; [done|]. simpl.
  specialize (Hn v). destruct (Z.ltb_spec 0 (countForVerdict counts v)); simpl; lia.
Qed.

(** ** Adding transitions *)

Definition entry_count (transitions : transition_map) (criterion : CriterionReference)
    (i j : EvaluationVerdict) : Z :=
  match map_get transitions (transition_key criterion i j) with
  | Some entry => exact_count entry
  | None => 0
  end.

(** Entries stand under their own key, with a positive count. *)
Definition entry_ok (criterion : CriterionReference) (entry : string * ExactTransitionCount) : Prop :=
  entry.1 = transition_key criterion (exact_baseline entry.2) (exact_candidate entry.2) /\
  exact_criterion entry.2 = criterion /\ 0 < exact_count entry.2.

Definition entries_ok (criterion : CriterionReference) (transitions : transition_map) : Prop :=
  Forall (entry_ok criterion) transitions /\ NoDup transitions.*1.

Lemma verdict_colon_free v : colon_free (verdict_name v).
Proof. unfold colon_free. destruct v; simpl; rewrite !not_elem_of_cons; by repeat split; try apply not_elem_of_nil. Qed.

Lemma verdict_name_inj v w : verdict_name v = verdict_name w -> v = w.
Proof. destruct v, w; (reflexivity || discriminate). Qed.

Lemma joined_cancel s t t' : joined s t = joined s t' -> t = t'.
Proof.
  unfold joined. intros E. apply (f_equal String.list_ascii_of_string) in E. rewrite !list_ascii_app in E.
  apply app_inv_head in E. simpl in E. injection E as E. by apply list_ascii_inj.
Qed.

Lemma transition_key_inj criterion i j i' j' :
  transition_key criterion i j = transition_key criterion i' j' -> i = i' /\ j = j'.
Proof.
  unfold transition_key. intros E%joined_cancel. apply joined_inj in E as [E1 E2]; [|apply verdict_colon_free..].
  split; by apply verdict_name_inj.
Qed.

Lemma map_set_entries {K A} `{EqDecision K} (P : K * A -> Prop) m k v :
  Forall P m -> P (k, v) -> Forall P (map_set m k v).
Proof.
  induction 1 as [|[k' v'] m Hx Hm IH]; intros Hkv; simpl; [by constructor|].
  case_bool_decide; [subst; by constructor|]. constructor; auto.
Qed.

Lemma addTransition_count transitions criterion i j n i' j' :
  entry_count (addTransition transitions criterion i j n) criterion i' j' =
  entry_count transitions criterion i' j' + if decide (i' = i /\ j' = j) then n else 0.
Proof.
  unfold entry_count, addTransition.
  destruct (decide (i' = i /\ j' = j)) as [[-> ->]|Hne].
  - destruct (map_get transitions (transition_key criterion i j)) as [e|] eqn:E;
      rewrite map_get_set, bool_decide_eq_true_2; simpl; done || lia.
  - assert (Hk : transition_key criterion i j <> transition_key criterion i' j').
    { intros [-> ->]%transition_key_inj. by apply Hne. }
    destruct (map_get transitions (transition_key criterion i j)) as [e|] eqn:E;
      rewrite map_get_set, bool_decide_eq_false_2 by done; destruct (map_get _ _); lia.
Qed.

Lemma addTransition_ok transitions criterion i j n :
  0 < n -> entries_ok criterion transitions -> entries_ok criterion (addTransition transitions criterion i j n).
Proof.
  intros Hn [Hall Hnd]. unfold addTransition.
  destruct (map_get transitions (transition_key criterion i j)) as [e|] eqn:E; (split; [|by apply map_set_NoDup]).
  - apply map_get_elem in E. pose proof (proj1 (Forall_forall _ _) Hall _ E) as (Hk & Hc & Hp). simpl in *.
    apply map_set_entries; [done|]. split_and!; simpl; [done|done|lia].
  - apply map_set_entries; [done|]. by split_and!.
Qed.

(** Adding along a column of distinct verdicts. *)
Lemma addColumn_count criterion j (count : verdict_counts) verdicts transitions i' j' :
  NoDup verdicts ->
  entry_count (foldl (fun t i => addTransition t criterion i j (count i)) transitions verdicts) criterion i' j' =
  entry_count transitions criterion i' j' + if decide (i' ∈ verdicts /\ j' = j) then count i' else 0.
Proof.
  intros Hnd. revert transitions. induction Hnd as [|v l Hv Hl IH]; intros t; simpl.
  - lia.
  - rewrite IH, addTransition_count.
    repeat match goal with |- context [decide ?P] => destruct (decide P) end;
      rewrite ?elem_of_cons in *; destruct_and?; subst; try lia; exfalso; naive_solver.
Qed.

Lemma addRow_count criterion i (count : verdict_counts) verdicts transitions i' j' :
  NoDup verdicts ->
  entry_count (foldl (fun t j => addTransition t criterion i j (count j)) transitions verdicts) criterion i' j' =
  entry_count transitions criterion i' j' + if decide (i' = i /\ j' ∈ verdicts) then count j' else 0.
Proof.
  intros Hnd. revert transitions. induction Hnd as [|v l Hv Hl IH]; intros t; simpl.
  - destruct (decide _) as [[_ Hn]|_]; [by apply elem_of_nil in Hn|lia].
  - rewrite IH, addTransition_count.
    repeat match goal with |- context [decide ?P] => destruct (decide P) end;
      rewrite ?elem_of_cons in *; destruct_and?; subst; try lia; exfalso; naive_solver.
Qed.

Lemma addMany_ok {A} criterion (at_ : A -> EvaluationVerdict * EvaluationVerdict) (count : A -> Z) items transitions :
  (forall x, x ∈ items -> 0 < count x) -> entries_ok criterion transitions ->
  entries_ok criterion
    (foldl (fun t x => addTransition t criterion (at_ x).1 (at_ x).2 (count x)) transitions items).
Proof.
  revert transitions. induction items as [|x items IH]; intros t Hc Ht; simpl; [done|].
  apply IH; [intros y Hy; apply Hc; by right|]. apply addTransition_ok; [|done]. apply Hc. by left.
Qed.

(** ** The code adds the unique matrix, or nothing *)

Lemma single_verdict counts r :
  (forall v, 0 <= countForVerdict counts v) -> nonzeroVerdicts counts = [r] ->
  forall i, i <> r -> countForVerdict counts i = 0.
Proof.
  intros Hn E i Hi. specialize (Hn i). destruct (Z.eq_dec (countForVerdict counts i) 0); [done|].
  assert (Hin : i ∈ nonzeroVerdicts counts) by (apply nonzero_elem; lia).
  rewrite E in Hin. by apply list_elem_of_singleton in Hin.
Qed.

Lemma two_verdicts counts :
  (forall v, 0 <= countForVerdict counts v) -> 0 < total (countForVerdict counts) ->
  (forall r, nonzeroVerdicts counts <> [r]) ->
  exists r r', r <> r' /\ 0 < countForVerdict counts r /\ 0 < countForVerdict counts r'.
Proof.
  intros Hn Ht Hno. pose proof (total_nonzero counts Hn) as Hs. pose proof (nonzero_NoDup counts) as Hnd.
  pose proof (nonzero_elem counts) as He.
  destruct (nonzeroVerdicts counts) as [|r [|r' l]]; [simpl in Hs; lia|by destruct (Hno r)|].
  exists r, r'. apply NoDup_cons in Hnd as [Hr _]. split; [|split; apply He].
  - intros ->. apply Hr. by left.
  - by left.
  - right. by left.
Qed.

(** What an addition does to the map: it adds the matrix. *)
Definition adds (criterion : CriterionReference) (M : matrix) (before after : transition_map) : Prop :=
  (forall i j, entry_count after criterion i j = entry_count before criterion i j + M i j) /\
  (entries_ok criterion before -> entries_ok criterion after).

Lemma unique_added transitions criterion b c :
  ComparisonVerdictCountsSchema b = true -> ComparisonVerdictCountsSchema c = true ->
  counts_total b = counts_total c ->
  let '(after, unique) := addUniqueAggregateTransitions transitions criterion b c in
  if unique then
    exists M, transports M (countForVerdict b) (countForVerdict c) /\
      (forall M', transports M' (countForVerdict b) (countForVerdict c) -> forall i j, M' i j = M i j) /\
      adds criterion M transitions after
  else after = transitions /\ ~ unique_transport (countForVerdict b) (countForVerdict c).
Proof.
  intros (Hb & Hbt & _)%verdict_counts_facts (Hc & Hct & _)%verdict_counts_facts Et.
  assert (Hb' : forall v, 0 <= countForVerdict b v) by apply Hb.
  assert (Hc' : forall v, 0 <= countForVerdict c v) by apply Hc.
  assert (Htot : total (countForVerdict b) = total (countForVerdict c)) by lia.
  unfold addUniqueAggregateTransitions. destruct (Z.eqb_spec (counts_total b) 0) as [H0|H0].
  { exists (fun _ _ => 0). split_and!.
    - split; [done|intros i|intros j].
      + symmetry. apply total_zero; [done|lia].
      + symmetry. apply total_zero; [done|lia].
    - intros M' [Hn Hr _] i j. apply total_zero; [auto|]. rewrite Hr. apply total_zero; [done|lia].
    - split; [intros; lia|done]. }
  assert (Hpos : 0 < total (countForVerdict b)).
  { assert (0 <= total (countForVerdict b)) by (apply sum_by_nonneg; auto). lia. }
  assert (Hrow : forall r, nonzeroVerdicts b = [r] ->
    exists M, transports M (countForVerdict b) (countForVerdict c) /\
      (forall M', transports M' (countForVerdict b) (countForVerdict c) -> forall i j, M' i j = M i j) /\
      adds criterion M transitions
        (foldl (fun t j => addTransition t criterion r j (countForVerdict c j)) transitions (nonzeroVerdicts c))).
  { intros r E. pose proof (single_verdict b r Hb' E) as Hz. exists (row_matrix r (countForVerdict c)).
    split_and!; [by apply row_transports|intros M' HM'; by apply (row_forced r M' (countForVerdict b))|].
    split.
    - intros i j. rewrite addRow_count by apply nonzero_NoDup. f_equal. unfold row_matrix.
      specialize (Hc' j). pose proof (nonzero_elem c j) as He.
      repeat destruct (decide _); try tauto; destruct (Z.eq_dec (countForVerdict c j) 0); try lia;
        exfalso; apply n; split; [done|]; apply He; lia.
    - apply (addMany_ok criterion (fun j => (r, j))). intros j Hj. by apply nonzero_elem. }
  assert (Hcolumn : forall k, nonzeroVerdicts c = [k] ->
    exists M, transports M (countForVerdict b) (countForVerdict c) /\
      (forall M', transports M' (countForVerdict b) (countForVerdict c) -> forall i j, M' i j = M i j) /\
      adds criterion M transitions
        (foldl (fun t i => addTransition t criterion i k (countForVerdict b i)) transitions (nonzeroVerdicts b))).
  { intros k E. pose proof (single_verdict c k Hc' E) as Hz. exists (transpose (row_matrix k (countForVerdict b))).
    split_and!.
    - by apply transports_transpose, row_transports.
    - intros M' HM' i j. apply transports_transpose in HM'.
      by apply (row_forced k (transpose M') (countForVerdict c)).
    - split.
      + intros i j. rewrite addColumn_count by apply nonzero_NoDup. f_equal. unfold transpose, row_matrix.
        specialize (Hb' i). pose proof (nonzero_elem b i) as He.
        repeat destruct (decide _); try tauto; destruct (Z.eq_dec (countForVerdict b i) 0); try lia;
          exfalso; apply n; split; [|done]; apply He; lia.
      + apply (addMany_ok criterion (fun i => (i, k))). intros i Hi. by apply nonzero_elem. }
  assert (Hmany : (forall r, nonzeroVerdicts b <> [r]) -> (forall k, nonzeroVerdicts c <> [k]) ->
    ~ unique_transport (countForVerdict b) (countForVerdict c)).
  { intros Hnb Hnc (M & _ & Hu). destruct (two_verdicts b Hb' Hpos Hnb) as (r & r' & Hr & Hbr & Hbr').
    destruct (two_verdicts c Hc') as (k & k' & Hk & Hck & Hck'); [lia|done|].
    destruct (two_by_two (countForVerdict b) (countForVerdict c) r r' k k') as (M1 & M2 & H1 & H2 & Hne); try done.
    apply Hne. by rewrite (Hu M1 H1), (Hu M2 H2). }
  destruct (nonzeroVerdicts b) as [|r [|r' l]] eqn:Eb;
    [|by apply Hrow|]; (destruct (nonzeroVerdicts c) as [|k [|k' l']] eqn:Ec; [|by apply Hcolumn|]);
    (split; [done|]; by apply Hmany).
Qed.

(** C24. Transitions are only what the counts determine: for verdict counts with
    equal totals, [addUniqueAggregateTransitions] succeeds exactly when there
    is one matrix of transitions with these counts as its row and column sums;
    it then adds exactly this matrix to the map (each entry under its own key
    and positive), and otherwise adds nothing. *)
Theorem aggregate_transitions_unique criterion b c :
  ComparisonVerdictCountsSchema b = true -> ComparisonVerdictCountsSchema c = true ->
  counts_total b = counts_total c ->
  let '(after, unique) := addUniqueAggregateTransitions [] criterion b c in
  (unique = true <-> unique_transport (countForVerdict b) (countForVerdict c)) /\
  (unique = true -> transports (entry_count after criterion) (countForVerdict b) (countForVerdict c)) /\
  (unique = false -> after = []) /\ entries_ok criterion after.
Proof.
  intros Hb Hc Et. pose proof (unique_added [] criterion b c Hb Hc Et) as Hu.
  destruct (addUniqueAggregateTransitions [] criterion b c) as [after []].
  - destruct Hu as (M & HM & Hall & Hadd & Hok). split_and!.
    + split; [|done]. intros _. by exists M.
    + intros _. destruct HM as [Hn Hr Hcol].
      assert (E : forall i j, entry_count after criterion i j = M i j).
      { intros i j. rewrite Hadd. unfold entry_count. simpl. lia. }
      split; [intros i j; by rewrite E|intros i|intros j].
      * rewrite <- Hr. apply total_ext. auto.
      * rewrite <- Hcol. apply total_ext. auto.
    + done.
    + apply Hok. split; constructor.
  - destruct Hu as [-> Hno]. split_and!; [done|done|done|]. split; constructor.
Qed.
