(* ===== verification/ComparisonVerdictProofs.v ===== *)
(** * Verdict transitions balance

    The transitions of a criterion, where they are available, have the paired
    counts of both snapshots as their sums, and the derivation fails only for
    counts it cannot represent. *)

From S2P Require Import Prelude Errors Primitives ExactArithmetic ReplayPlan OrderedMap.
From S2P Require Import ComparisonContracts ComparisonSnapshot ComparisonResults.
From S2P Require Import ComparisonPairing ComparisonKeys ComparisonPairingProofs.
From S2P Require Import ComparisonVerdicts ComparisonTransport.
#[local] Open Scope Z_scope.

(** ** Sums over a transition map *)

Definition row_sum (criterion : CriterionReference) (t : transition_map) (v : EvaluationVerdict) : Z :=
  total (entry_count t criterion v).
Definition column_sum (criterion : CriterionReference) (t : transition_map) (v : EvaluationVerdict) : Z :=
  total (fun i => entry_count t criterion i v).

Definition count_where (p : ExactTransitionCount -> bool) (t : transition_map) : Z :=
  sum_by (fun entry => if p entry.2 then exact_count entry.2 else 0) t.

Lemma entry_count_cons criterion entry t i j :
  entries_ok criterion (entry :: t) ->
  entry_count (entry :: t) criterion i j =
    (if decide (i = exact_baseline entry.2 /\ j = exact_candidate entry.2) then exact_count entry.2 else 0) +
    entry_count t criterion i j.
Proof.
  destruct entry as [k e]. intros [(Hk & _ & _)%Forall_cons_1%proj1 [Hfresh _]%NoDup_cons]. simpl in *. subst k.
  unfold entry_count. simpl. destruct (decide (i = exact_baseline e /\ j = exact_candidate e)) as [[-> ->]|Hne].
  - rewrite bool_decide_eq_true_2 by done. apply map_get_None in Hfresh. rewrite Hfresh. lia.
  - rewrite bool_decide_eq_false_2; [done|]. intros [<- <-]%transition_key_inj. by apply Hne.
Qed.

Lemma entries_ok_tail criterion entry t : entries_ok criterion (entry :: t) -> entries_ok criterion t.
Proof. intros [[_ H]%Forall_cons [_ Hn]%NoDup_cons]. by split. Qed.

Lemma total_add (f g : EvaluationVerdict -> Z) : total (fun i => f i + g i) = total f + total g.
Proof. apply sum_by_add. Qed.

Lemma row_sum_entries criterion t v :
  entries_ok criterion t -> row_sum criterion t v = count_where (fun e => exact_baseline e === v) t.
Proof.
  induction t as [|[k e] t IH]; intros Hok; [done|]. unfold row_sum, count_where in *. simpl.
  rewrite <- (IH (entries_ok_tail _ _ _ Hok)).
  rewrite (total_ext _ (fun j => (if decide (j = exact_candidate e)
      then (if bool_decide (exact_baseline e = v) then exact_count e else 0) else 0) +
    entry_count t criterion v j)).
  - by rewrite total_add, total_single.
  - intros j. rewrite entry_count_cons by done. simpl. f_equal.
    repeat destruct (decide _); repeat case_bool_decide; naive_solver.
Qed.

Lemma column_sum_entries criterion t v :
  entries_ok criterion t -> column_sum criterion t v = count_where (fun e => exact_candidate e === v) t.
Proof.
  induction t as [|[k e] t IH]; intros Hok; [done|]. unfold column_sum, count_where in *. simpl.
  rewrite <- (IH (entries_ok_tail _ _ _ Hok)).
  rewrite (total_ext _ (fun i => (if decide (i = exact_baseline e)
      then (if bool_decide (exact_candidate e = v) then exact_count e else 0) else 0) +
    entry_count t criterion i v)).
  - by rewrite total_add, total_single.
  - intros i. rewrite entry_count_cons by done. simpl. f_equal.
    repeat destruct (decide _); repeat case_bool_decide; naive_solver.
Qed.

Lemma all_entries criterion t :
  entries_ok criterion t -> total (row_sum criterion t) = sum_by (fun entry => exact_count entry.2) t.
Proof.
  intros Hok. rewrite (total_ext _ (fun v => count_where (fun e => exact_baseline e === v) t))
    by (intros v; by apply row_sum_entries).
  clear Hok. induction t as [|[k e] t IH]; [done|]. unfold count_where in *. simpl. rewrite <- IH.
  transitivity (total (fun v => (if decide (v = exact_baseline e) then exact_count e else 0)) +
    total (fun v => sum_by (fun entry => if exact_baseline entry.2 === v then exact_count entry.2 else 0) t)).
  - rewrite <- total_add. apply total_ext. intros v. f_equal. destruct (decide _); case_bool_decide; congruence.
  - by rewrite total_single.
Qed.

(** ** What a stretch of the loop gains *)

Definition verdict_sum (v : EvaluationVerdict) (outcomes : list ComparisonEvaluationOutcome) : Z :=
  sum_by (fun o => countForVerdict (outcome_counts o) v) outcomes.
Definition outcome_sum (outcomes : list ComparisonEvaluationOutcome) : Z :=
  sum_by (fun o => counts_total (outcome_counts o)) outcomes.

Record gain (criterion : CriterionReference) (s s' : CriterionState)
    (bs cs : list ComparisonEvaluationOutcome) : Prop := {
  g_rows : forall v, row_sum criterion (cs_transitions s') v =
    row_sum criterion (cs_transitions s) v + verdict_sum v bs;
  g_columns : forall v, column_sum criterion (cs_transitions s') v =
    column_sum criterion (cs_transitions s) v + verdict_sum v cs;
  g_paired : cs_pairedCount s' = cs_pairedCount s + outcome_sum bs;
  g_totals : outcome_sum bs = outcome_sum cs;
  g_entries : entries_ok criterion (cs_transitions s) -> entries_ok criterion (cs_transitions s');
}.

Lemma gain_refl criterion s s' :
  cs_transitions s' = cs_transitions s -> cs_pairedCount s' = cs_pairedCount s -> gain criterion s s' [] [].
Proof. intros Et Ep. split; rewrite ?Et, ?Ep; unfold verdict_sum, outcome_sum; simpl; try done; intros; lia. Qed.

Lemma gain_trans criterion s1 s2 s3 bs cs bs' cs' :
  gain criterion s1 s2 bs cs -> gain criterion s2 s3 bs' cs' -> gain criterion s1 s3 (bs ++ bs') (cs ++ cs').
Proof.
  intros [R1 C1 P1 T1 E1] [R2 C2 P2 T2 E2]. unfold verdict_sum, outcome_sum in *.
  split; unfold verdict_sum, outcome_sum; intros; rewrite ?sum_by_app; auto.
  - rewrite R2, R1. lia.
  - rewrite C2, C1. lia.
  - lia.
  - lia.
Qed.

Lemma gain_perm criterion s s' bs cs bs' cs' :
  bs ≡ₚ bs' -> cs ≡ₚ cs' -> gain criterion s s' bs cs -> gain criterion s s' bs' cs'.
Proof.
  intros Hb Hc [R C P T E]. unfold verdict_sum, outcome_sum in *.
  assert (Eb : forall f, sum_by f bs = sum_by f bs') by (intros f; by apply sum_by_perm).
  assert (Ec : forall f, sum_by f cs = sum_by f cs') by (intros f; by apply sum_by_perm).
  split; unfold verdict_sum, outcome_sum; auto; intros; rewrite <- ?Eb, <- ?Ec; auto.
Qed.

(** Two counters in step change nothing else. *)
Lemma gain_same criterion s1 s1' s2 bs cs :
  cs_transitions s1 = cs_transitions s1' -> cs_pairedCount s1 = cs_pairedCount s1' ->
  gain criterion s1 s2 bs cs -> gain criterion s1' s2 bs cs.
Proof. intros Et Ep [R C P T E]. split; rewrite <- ?Et, <- ?Ep; done. Qed.

Definition valid_outcome (o : ComparisonEvaluationOutcome) : Prop :=
  ComparisonVerdictCountsSchema (outcome_counts o) = true.

(** Reasons are only ever added. *)
Lemma assessment_step_case criterion cm s entry s' :
  assessment_step criterion cm s entry = Ok s' -> valid_outcome entry.2 ->
  (forall o, map_get cm entry.1 = Some o -> valid_outcome o) ->
  cs_reasons s' = [] ->
  cs_reasons s = [] /\ cs_pairedFixtureCount s' = cs_pairedFixtureCount s /\
  exists o, map_get cm entry.1 = Some o /\ gain criterion s s' [entry.2] [o].
Proof.
  unfold assessment_step. destruct (map_get cm entry.1) as [o|]; [|done]. intros Hs Hb Hc Hr.
  specialize (Hc o eq_refl).
  destruct (Z.eqb_spec (counts_total (outcome_counts entry.2)) (counts_total (outcome_counts o))) as [Et|_];
    simpl in Hs; [|by injection Hs as <-; apply app_eq_nil in Hr as [_ ?]].
  pose proof (unique_added (cs_transitions s) criterion _ _ Hb Hc Et) as Hu.
  destruct (addUniqueAggregateTransitions (cs_transitions s) criterion (outcome_counts entry.2) (outcome_counts o))
    as [after []]; simpl in Hs; injection Hs as <-; [|by apply app_eq_nil in Hr as [_ ?]].
  destruct Hu as (M & HM & _ & Hadd & Hok). simpl in *. split_and!; [done|done|]. exists o. split; [done|].
  split; simpl; unfold row_sum, column_sum, verdict_sum, outcome_sum; simpl; try lia; try done.
  - intros v. rewrite (total_ext _ (fun j => entry_count (cs_transitions s) criterion v j + M v j)) by auto.
    rewrite total_add. change (total (fun j => M v j)) with (total (M v)). rewrite (t_rows _ _ _ HM). lia.
  - intros v. rewrite (total_ext _ (fun i => entry_count (cs_transitions s) criterion i v + M i v)) by auto.
    rewrite total_add, (t_columns _ _ _ HM). lia.
Qed.

Lemma assessment_loop criterion cm entries s s' :
  fold_result (assessment_step criterion cm) s entries = Ok s' ->
  Forall (fun entry => valid_outcome entry.2) entries ->
  (forall k o, map_get cm k = Some o -> valid_outcome o) ->
  cs_reasons s' = [] ->
  cs_reasons s = [] /\ cs_pairedFixtureCount s' = cs_pairedFixtureCount s /\
  gain criterion s s' entries.*2 (omap (fun entry => map_get cm entry.1) entries).
Proof.
  intros Hf Hv Hc. revert s Hf. induction Hv as [|entry entries He Hv IH]; intros s Hf Hr; simpl in Hf.
  - injection Hf as <-. split_and!; [done|done|by apply gain_refl].
  - apply bind_Ok in Hf as (s1 & Hs1 & Hf). destruct (IH s1 Hf Hr) as (Hr1 & Hp1 & Hg1).
    destruct (assessment_step_case _ _ _ _ _ Hs1 He (Hc _) Hr1) as (Hr0 & Hp0 & o & Ho & Hg0).
    split_and!; [done|congruence|]. csimpl. rewrite Ho.
    exact (gain_trans _ _ _ _ [entry.2] [o] _ _ Hg0 Hg1).
Qed.

Lemma assessment_step_runs criterion cm entry s :
  is_Some (map_get cm entry.1) -> exists s', assessment_step criterion cm s entry = Ok s'.
Proof.
  intros [o Ho]. unfold assessment_step. rewrite Ho. destruct (negb _); [by eexists|].
  destruct (addUniqueAggregateTransitions _ _ _ _) as [t []]; by eexists.
Qed.

(** The loop over assessments never fails when the other side has them all. *)
Lemma assessment_loop_runs criterion cm entries s :
  Forall (fun entry => is_Some (map_get cm entry.1)) entries ->
  exists s', fold_result (assessment_step criterion cm) s entries = Ok s'.
Proof.
  intros Hall. revert s. induction Hall as [|entry entries Ho Hall IH]; intros s; cbn [fold_result]; [by eexists|].
  destruct (assessment_step_runs criterion cm entry s Ho) as [s1 ->]. apply IH.
Qed.

(** ** The outcomes of one criterion *)

Lemma outcomes_elem fixture key o :
  o ∈ outcomesForCriterion (Some fixture) key <->
  o ∈ snapshot_evaluationOutcomes fixture /\ exactCriterionKey (outcome_criterion o) = key.
Proof.
  simpl. by rewrite list_elem_of_In, filter_In, <- list_elem_of_In, bool_decide_eq_true.
Qed.

Lemma NoDup_fmap_filter {A B} (f : A -> B) (p : A -> bool) l : NoDup (f <$> l) -> NoDup (f <$> List.filter p l).
Proof.
  induction l as [|x l IH]; simpl; intros Hn; [constructor|]. apply NoDup_cons in Hn as [Hx Hn].
  destruct (p x); [|by apply IH]. csimpl. apply NoDup_cons. split; [|by apply IH].
  intros (y & Ey & Hy)%list_elem_of_fmap. apply Hx, list_elem_of_fmap. exists y. split; [done|].
  apply list_elem_of_In. apply list_elem_of_In, filter_In in Hy. tauto.
Qed.

Lemma exactCriterionKey_inj r r' :
  CriterionReferenceSchema r = true -> CriterionReferenceSchema r' = true ->
  exactCriterionKey r = exactCriterionKey r' -> r = r'.
Proof.
  destruct r as [i [a b c]], r' as [i' [a' b' c']].
  unfold CriterionReferenceSchema, CriterionSetReferenceSchema, exactCriterionKey. simpl. intros. key_facts.
  split_keys. by subst.
Qed.

(** Within one criterion an assessment has one outcome. *)
Lemma assessments_unique fixture key :
  fixture_contract fixture -> NoDup (exactAssessmentKey <$> outcomesForCriterion (Some fixture) key).
Proof.
  intros Hf. pose proof (NoDup_fmap_filter outcome_key
    (fun o => exactCriterionKey (outcome_criterion o) === key) _ (fc_outcome_keys _ Hf)) as Hn.
  change (List.filter _ _) with (outcomesForCriterion (Some fixture) key) in Hn.
  assert (Hin : forall o, o ∈ outcomesForCriterion (Some fixture) key ->
    CriterionReferenceSchema (outcome_criterion o) = true /\ exactCriterionKey (outcome_criterion o) = key).
  { intros o [Ho Hk]%outcomes_elem. split; [|done]. apply (fc_outcomes _ Hf) in Ho.
    unfold ComparisonEvaluationOutcomeSchema in Ho. by key_facts. }
  induction (outcomesForCriterion (Some fixture) key) as [|o l IH]; [constructor|].
  csimpl in *. apply NoDup_cons in Hn as [Ho Hn]. apply NoDup_cons. split.
  - intros (o' & Ek & Ho')%list_elem_of_fmap. apply Ho, list_elem_of_fmap. exists o'. split; [|done].
    destruct (Hin o) as [Hv Hk]; [by left|]. destruct (Hin o') as [Hv' Hk']; [by right|].
    unfold outcome_key. rewrite (exactCriterionKey_inj _ _ Hv Hv') by congruence.
    unfold exactAssessmentKey in Ek. by rewrite Ek.
  - apply IH; [done|]. intros o' Ho'. apply Hin. by right.
Qed.

(** ** One case, and all of them *)

Lemma outcomes_valid fixture key :
  fixture_contract fixture -> Forall valid_outcome (outcomesForCriterion (Some fixture) key).
Proof.
  intros Hf. apply Forall_forall. intros o [Ho _]%outcomes_elem. apply (fc_outcomes _ Hf) in Ho.
  unfold ComparisonEvaluationOutcomeSchema in Ho. by key_facts.
Qed.

Lemma assessment_map_unique outcomes :
  NoDup (exactAssessmentKey <$> outcomes) ->
  exactAssessmentMap outcomes = (fun o => (exactAssessmentKey o, o)) <$> outcomes.
Proof. intros Hn. apply map_of_unique. by rewrite <- list_fmap_compose. Qed.

Lemma assessment_map_get outcomes o :
  NoDup (exactAssessmentKey <$> outcomes) -> o ∈ outcomes ->
  map_get (exactAssessmentMap outcomes) (exactAssessmentKey o) = Some o.
Proof.
  intros Hn Ho. rewrite assessment_map_unique by done. apply map_get_NoDup.
  - by rewrite <- list_fmap_compose.
  - apply list_elem_of_fmap. by exists o.
Qed.

Lemma omap_fmap_keys {K A B} (f : K -> option B) (key : A -> K) (l : list A) :
  omap (fun x => f (key x)) l = omap f (key <$> l).
Proof. induction l as [|x l IH]; csimpl; [done|]. rewrite IH. done. Qed.

Lemma omap_all {A B} (f : A -> option B) (g : B -> A) (l : list B) :
  (forall y, y ∈ l -> f (g y) = Some y) -> omap f (g <$> l) = l.
Proof.
  induction l as [|y l IH]; intros Hf; csimpl; [done|]. rewrite (Hf y) by by left.
  f_equal. apply IH. intros z Hz. apply Hf. by right.
Qed.

(** With the same keys, the candidate outcomes looked up are all of them. *)
Lemma candidates_looked_up bs cs :
  NoDup (exactAssessmentKey <$> bs) -> NoDup (exactAssessmentKey <$> cs) ->
  sameOrderedKeys (exactAssessmentMap bs) (exactAssessmentMap cs) = true ->
  Forall (fun entry => is_Some (map_get (exactAssessmentMap cs) entry.1)) (exactAssessmentMap bs) /\
  omap (fun entry => map_get (exactAssessmentMap cs) entry.1) (exactAssessmentMap bs) ≡ₚ cs.
Proof.
  intros Hb Hc [Hl Hall]%andb_true_iff. apply Nat.eqb_eq in Hl. rewrite forallb_elem in Hall.
  assert (Hk : Forall (fun entry => is_Some (map_get (exactAssessmentMap cs) entry.1)) (exactAssessmentMap bs)).
  { apply Forall_forall. intros entry He.
    assert (Hh : map_has (exactAssessmentMap cs) entry.1 = true) by (apply Hall, list_elem_of_fmap; eauto).
    unfold map_has in Hh. by apply bool_decide_eq_true in Hh. }
  split; [done|]. rewrite omap_fmap_keys.
  rewrite (assessment_map_unique bs Hb) in *. rewrite <- list_fmap_compose. simpl.
  assert (Ekeys : exactAssessmentKey <$> bs ≡ₚ exactAssessmentKey <$> cs).
  { apply submseteq_length_Permutation.
    - apply NoDup_submseteq; [done|]. intros k (o & -> & Ho)%list_elem_of_fmap.
      rewrite Forall_forall in Hk. specialize (Hk (exactAssessmentKey o, o)).
      apply (map_by_keys exactAssessmentKey cs), Hk, list_elem_of_fmap. by exists o.
    - rewrite (assessment_map_unique cs Hc), !length_fmap in Hl. rewrite !length_fmap. lia. }
  change ((fun x => exactAssessmentKey x) <$> bs) with (exactAssessmentKey <$> bs).
  rewrite Ekeys.
  by rewrite (omap_all _ exactAssessmentKey cs) by (intros o Ho; by apply assessment_map_get).
Qed.

Section cases.
Context (criterion : CriterionReference).
Context (bf cf : list (string * ComparisonEvidenceFixtureSnapshot)).
Context (Hbf : forall id f, map_get bf id = Some f -> fixture_contract f).
Context (Hcf : forall id f, map_get cf id = Some f -> fixture_contract f).

Definition outcomes_at (fixtures : list (string * ComparisonEvidenceFixtureSnapshot)) (c : ComparisonCase) :
    list ComparisonEvaluationOutcome :=
  outcomesForCriterion (map_get fixtures (case_fixtureId c)) (exactCriterionKey criterion).

Lemma outcomes_at_facts fixtures c :
  (forall id f, map_get fixtures id = Some f -> fixture_contract f) ->
  Forall valid_outcome (outcomes_at fixtures c) /\ NoDup (exactAssessmentKey <$> outcomes_at fixtures c).
Proof.
  intros Hf. unfold outcomes_at. destruct (map_get fixtures (case_fixtureId c)) as [f|] eqn:E.
  - split; [by apply outcomes_valid, (Hf _ _ E)|by apply assessments_unique, (Hf _ _ E)].
  - split; constructor.
Qed.

Lemma add_reason_not_nil r s : cs_reasons (add_reason r s) <> [].
Proof. simpl. intros [_ ?]%app_eq_nil. done. Qed.

Lemma case_step_runs s c : exists s', case_step criterion bf cf s c = Ok s'.
Proof.
  unfold case_step. destruct (negb (is_paired c)); [by eexists|]. fold (outcomes_at bf c) (outcomes_at cf c).
  destruct (_ || _); [by eexists|].
  destruct (sameOrderedKeys _ _) eqn:E; simpl; [|by eexists].
  apply assessment_loop_runs. by apply candidates_looked_up;
    [apply (outcomes_at_facts bf c Hbf)|apply (outcomes_at_facts cf c Hcf)|].
Qed.

Lemma case_step_case s c s' :
  case_step criterion bf cf s c = Ok s' -> cs_reasons s' = [] ->
  cs_reasons s = [] /\
  if is_paired c then gain criterion s s' (outcomes_at bf c) (outcomes_at cf c) else s' = s.
Proof.
  unfold case_step. destruct (outcomes_at_facts bf c Hbf) as [Hbv Hbn].
  destruct (outcomes_at_facts cf c Hcf) as [Hcv Hcn]. fold (outcomes_at bf c) (outcomes_at cf c) in *.
  set (s1 := if invalidCaseContainsCriterion _ _ _ _ then _ else s).
  assert (Hs1 : cs_reasons s1 = [] -> s1 = s).
  { unfold s1. destruct (invalidCaseContainsCriterion _ _ _ _); [|done]. by intros ?%add_reason_not_nil. }
  destruct (is_paired c); simpl; [|intros [= <-] Hr; specialize (Hs1 Hr); by rewrite <- Hs1].
  set (s2 := Build_CriterionState _ _ _ _).
  destruct (_ || _); [by intros [= <-] ?%add_reason_not_nil|].
  destruct (sameOrderedKeys _ _) eqn:E; simpl; [|by intros [= <-] ?%add_reason_not_nil].
  intros Hf Hr. destruct (candidates_looked_up _ _ Hbn Hcn E) as [_ Hperm].
  apply assessment_loop in Hf as (Hr2 & _ & Hg); [|..|done].
  - assert (Er : s1 = s) by by apply Hs1. split; [by rewrite <- Er|].
    apply (gain_same _ s2); [by simpl; rewrite Er|by simpl; rewrite Er|].
    eapply gain_perm; [| |exact Hg]; [|done].
    rewrite assessment_map_unique, <- list_fmap_compose by done. by rewrite list_fmap_id.
  - rewrite assessment_map_unique by done. apply Forall_fmap. eapply Forall_impl; [exact Hbv|done].
  - intros k o [Ho _]%map_by_get. by apply (proj1 (Forall_forall _ _) Hcv).
Qed.

Lemma cases_loop cases s s' :
  fold_result (case_step criterion bf cf) s cases = Ok s' -> cs_reasons s' = [] ->
  cs_reasons s = [] /\
  gain criterion s s' (mjoin (outcomes_at bf <$> List.filter is_paired cases))
    (mjoin (outcomes_at cf <$> List.filter is_paired cases)).
Proof.
  revert s. induction cases as [|c cases IH]; intros s; cbn [fold_result].
  - intros [= <-] Hr. split; [done|by apply gain_refl].
  - intros (s1 & Hs1 & Hf)%bind_Ok Hr. destruct (IH s1 Hf Hr) as [Hr1 Hg1].
    destruct (case_step_case s c s1 Hs1 Hr1) as [Hr0 Hg0]. split; [done|]. simpl.
    destruct (is_paired c); [|by rewrite <- Hg0]. exact (gain_trans _ _ _ _ _ _ _ _ Hg0 Hg1).
Qed.

Lemma cases_loop_runs cases s : exists s', fold_result (case_step criterion bf cf) s cases = Ok s'.
Proof.
  revert s. induction cases as [|c cases IH]; intros s; cbn [fold_result]; [by eexists|].
  destruct (case_step_runs s c) as [s1 ->]. apply IH.
Qed.
End cases.

(** ** The derivation of one criterion *)

Lemma checkedCount_Ok v n : checkedCount v = Ok n <-> v <= MAX_SAFE_INTEGER /\ n = v.
Proof. unfold checkedCount. destruct (Z.ltb_spec MAX_SAFE_INTEGER v); naive_solver lia. Qed.

Lemma checkedCount_Throw v e : checkedCount v = Throw e -> e = RangeError.
Proof. unfold checkedCount. destruct (_ <? _); congruence. Qed.

(** The transitions written out are the entries of the map. *)
Definition written (entry : string * ExactTransitionCount) (t : ComparisonVerdictTransition) : Prop :=
  transition_baseline t = exact_baseline entry.2 /\ transition_candidate t = exact_candidate entry.2 /\
  transition_count t = exact_count entry.2 /\ transition_criterion t = exact_criterion entry.2.

Lemma transition_of_Ok entry t : transition_of entry.2 = Ok t -> written entry t.
Proof.
  unfold transition_of. intros (n & [_ ->]%checkedCount_Ok & [_ ->]%parse_Ok)%bind_Ok. by split_and!.
Qed.

Lemma transition_of_runs criterion entry :
  CriterionReferenceSchema criterion = true -> entry_ok criterion entry -> exact_count entry.2 <= MAX_SAFE_INTEGER ->
  exists t, transition_of entry.2 = Ok t.
Proof.
  intros Hc (_ & He & Hp) Hm. unfold transition_of, checkedCount.
  rewrite (proj2 (Z.ltb_ge _ _) Hm). eexists. simpl. apply parse_accepted.
  unfold ComparisonVerdictTransitionSchema. simpl. rewrite He, Hc, andb_true_r. apply positive_count_spec. lia.
Qed.

Definition transitions_where (p : ComparisonVerdictTransition -> bool) (ts : list ComparisonVerdictTransition) : Z :=
  sum_by (fun t => if p t then transition_count t else 0) ts.

Lemma written_sum (p : ComparisonVerdictTransition -> bool) (q : ExactTransitionCount -> bool) entries ts :
  Forall2 written entries ts -> (forall entry t, written entry t -> p t = q entry.2) ->
  transitions_where p ts = count_where q entries.
Proof.
  intros Hw Hpq. unfold transitions_where, count_where. induction Hw as [|entry t entries ts Hwt Hw IH]; [done|].
  simpl. rewrite IH, (Hpq entry t Hwt). destruct Hwt as (_ & _ & -> & _). done.
Qed.

Lemma verdict_sum_total bs :
  Forall valid_outcome bs -> total (fun v => verdict_sum v bs) = outcome_sum bs.
Proof.
  unfold verdict_sum, outcome_sum. induction 1 as [|o bs Ho Hbs IH]; [done|]. simpl.
  rewrite <- IH, total_add. apply verdict_counts_facts in Ho as (_ & Ht & _).
  change (total (fun i => countForVerdict (outcome_counts o) i)) with (total (countForVerdict (outcome_counts o))).
  lia.
Qed.

(** Available transitions of [criterion] for the paired outcomes [bs] and [cs]. *)
Record balanced (criterion : CriterionReference) (bs cs : list ComparisonEvaluationOutcome) (n : Z)
    (ts : list ComparisonVerdictTransition) : Prop := {
  b_rows : forall v, transitions_where (fun t => transition_baseline t === v) ts = verdict_sum v bs;
  b_columns : forall v, transitions_where (fun t => transition_candidate t === v) ts = verdict_sum v cs;
  b_count : transitions_where (fun _ => true) ts = n;
  b_baseline : outcome_sum bs = n;
  b_candidate : outcome_sum cs = n;
  b_criterion : Forall (fun t => transition_criterion t = criterion) ts;
}.

Section derivation.
Context (criterion : CriterionReference).
Context (bf cf : list (string * ComparisonEvidenceFixtureSnapshot)).
Context (Hbf : forall id f, map_get bf id = Some f -> fixture_contract f).
Context (Hcf : forall id f, map_get cf id = Some f -> fixture_contract f).

Definition paired_outcomes (fixtures : list (string * ComparisonEvidenceFixtureSnapshot))
    (cases : list ComparisonCase) : list ComparisonEvaluationOutcome :=
  mjoin (outcomes_at criterion fixtures <$> List.filter is_paired cases).

Lemma paired_outcomes_valid fixtures cases :
  (forall id f, map_get fixtures id = Some f -> fixture_contract f) ->
  Forall valid_outcome (paired_outcomes fixtures cases).
Proof.
  intros Hf. apply Forall_forall. intros o (l & Ho & (c & -> & _)%list_elem_of_fmap)%list_elem_of_join.
  destruct (outcomes_at_facts criterion fixtures c Hf) as [Hv _]. by apply (proj1 (Forall_forall _ _) Hv).
Qed.

(** What the loop leaves when no reason was added. *)
Lemma loop_balance cases s :
  fold_result (case_step criterion bf cf) initial_state cases = Ok s -> cs_reasons s = [] ->
  entries_ok criterion (cs_transitions s) /\
  (forall v, count_where (fun e => exact_baseline e === v) (cs_transitions s) =
    verdict_sum v (paired_outcomes bf cases)) /\
  (forall v, count_where (fun e => exact_candidate e === v) (cs_transitions s) =
    verdict_sum v (paired_outcomes cf cases)) /\
  cs_pairedCount s = outcome_sum (paired_outcomes bf cases) /\
  cs_pairedCount s = outcome_sum (paired_outcomes cf cases) /\
  count_where (fun _ => true) (cs_transitions s) = cs_pairedCount s.
Proof.
  intros Hf Hr. destruct (cases_loop criterion bf cf Hbf Hcf cases _ _ Hf Hr) as [_ [R C P T E]].
  fold (paired_outcomes bf cases) (paired_outcomes cf cases) in *.
  assert (Hok : entries_ok criterion (cs_transitions s)) by (apply E; split; constructor).
  assert (Hrow : forall v, row_sum criterion (cs_transitions s) v = verdict_sum v (paired_outcomes bf cases)).
  { intros v. rewrite R. done. }
  assert (Hcol : forall v, column_sum criterion (cs_transitions s) v = verdict_sum v (paired_outcomes cf cases)).
  { intros v. rewrite C. done. }
  simpl in P. split_and!; [done|..].
  - intros v. by rewrite <- (row_sum_entries criterion), Hrow.
  - intros v. by rewrite <- (column_sum_entries criterion), Hcol.
  - lia.
  - lia.
  - transitivity (total (row_sum criterion (cs_transitions s))); [by rewrite all_entries|].
    rewrite (total_ext _ (fun v => verdict_sum v (paired_outcomes bf cases))) by done.
    rewrite verdict_sum_total by (by apply paired_outcomes_valid). lia.
Qed.

Lemma derivation_Ok cases d :
  deriveCriterionTransitions criterion cases bf cf = Ok d ->
  match derivation_pairedCount d with
  | Some n => balanced criterion (paired_outcomes bf cases) (paired_outcomes cf cases) n (derivation_transitions d) /\
      n <= MAX_SAFE_INTEGER
  | None => derivation_transitions d = [] /\
      ComparisonVerdictTransitionAvailabilitySchema (transition_unavailable (derivation_reasons d)) = true
  end.
Proof.
  unfold deriveCriterionTransitions. intros (s & Hf & Hd)%bind_Ok.
  set (s1 := if _ =? _ then _ else s) in Hd. destruct (nonempty (cs_reasons s1)) eqn:Er.
  - injection Hd as <-. simpl. split; [done|]. rewrite sorted_set_by_strict by apply _.
    rewrite andb_true_r. apply sized_spec. split.
    + assert (Hne : sorted_set_by transition_reason_name (cs_reasons s1) <> []).
      { rewrite sorted_set_by_nil. intros E. by rewrite E in Er. }
      destruct (sorted_set_by transition_reason_name (cs_reasons s1)); [done|]. simpl. lia.
    + pose proof (vocabulary_bound [ambiguous_aggregate_pairing; assessment_mismatch; invalid_paired_evidence;
        missing_paired_evidence; outcome_count_mismatch]
        (sorted_set_by transition_reason_name (cs_reasons s1))) as Hb.
      cbn [length] in Hb. apply Nat2Z.inj_le in Hb; [done|intros []; repeat (first [by left|right])|].
      apply sorted_set_by_NoDup.
  - assert (Er1 : cs_reasons s1 = []) by (unfold nonempty in Er; by destruct (cs_reasons s1)).
    assert (Es : s1 = s).
    { unfold s1 in *. destruct (cs_pairedFixtureCount s =? 0); [|done]. by apply add_reason_not_nil in Er1. }
    rewrite Es in *. apply bind_Ok in Hd as (n & [Hn ->]%checkedCount_Ok & Hd).
    apply bind_Ok in Hd as (ts & Hts%map_result_Forall2 & [= <-]). simpl.
    destruct (loop_balance cases s Hf Er1) as (Hok & Hrow & Hcol & Hb & Hc & Hall). split; [|done].
    assert (Hw : Forall2 written (sort_by fst (cs_transitions s)) ts).
    { eapply Forall2_impl; [exact Hts|]. intros entry t. apply transition_of_Ok. }
    assert (Hsort : forall q, count_where q (sort_by fst (cs_transitions s)) = count_where q (cs_transitions s)).
    { intros q. apply sum_by_perm, sort_by_perm. }
    split; try done.
    + intros v. rewrite <- Hrow, <- Hsort. apply written_sum; [done|]. by intros entry t (-> & _).
    + intros v. rewrite <- Hcol, <- Hsort. apply written_sum; [done|]. by intros entry t (_ & -> & _).
    + rewrite <- Hall, <- Hsort. by apply written_sum.
    + destruct Hok as [Hok _]. apply Forall_forall. intros t Ht.
      destruct (proj1 (list_elem_of_lookup _ _) Ht) as [i Hi].
      destruct (Forall2_lookup_r _ _ _ _ _ Hw Hi) as (entry & He & (_ & _ & _ & ->)).
      apply list_elem_of_lookup_2 in He. rewrite sort_by_perm in He.
      by apply (proj1 (Forall_forall _ _) Hok) in He as (_ & -> & _).
Qed.

(** It fails only for a paired count that is not safe. *)
Lemma derivation_runs cases :
  CriterionReferenceSchema criterion = true ->
  (exists d, deriveCriterionTransitions criterion cases bf cf = Ok d) \/
  deriveCriterionTransitions criterion cases bf cf = Throw RangeError.
Proof.
  intros Hcr. unfold deriveCriterionTransitions.
  destruct (cases_loop_runs criterion bf cf Hbf Hcf cases initial_state) as [s Hs]. rewrite (bind_known _ _ _ Hs).
  set (s1 := if _ =? _ then _ else s). destruct (nonempty (cs_reasons s1)) eqn:Er; [left; by eexists|].
  assert (Er1 : cs_reasons s1 = []) by (unfold nonempty in Er; by destruct (cs_reasons s1)).
  assert (Es : s1 = s).
  { unfold s1 in *. destruct (cs_pairedFixtureCount s =? 0); [|done]. by apply add_reason_not_nil in Er1. }
  rewrite Es in *. destruct (loop_balance cases s Hs Er1) as ([Hok _] & _ & _ & _ & _ & Hall).
  destruct (Z.ltb_spec MAX_SAFE_INTEGER (cs_pairedCount s)) as [Hbig|Hsmall].
  { right. unfold checkedCount. by rewrite (proj2 (Z.ltb_lt _ _) Hbig). }
  left. setoid_rewrite (bind_known _ _ _ (proj2 (checkedCount_Ok _ _) (conj Hsmall eq_refl))).
  assert (Hruns : Forall (fun entry => exists t, transition_of entry.2 = Ok t) (sort_by fst (cs_transitions s))).
  { apply Forall_forall. intros entry He. rewrite sort_by_perm in He. rewrite Forall_forall in Hok.
    apply (transition_of_runs criterion); [done|by apply Hok|].
    assert (Hle := sum_by_elem_le (fun entry => exact_count entry.2) (cs_transitions s) entry).
    unfold count_where in Hall. simpl in Hall. rewrite <- Hall in Hsmall.
    etransitivity; [apply Hle|exact Hsmall]; [|done]. intros y Hy. apply Hok in Hy as (_ & _ & Hp). lia. }
  apply Forall_exists_Forall2_l in Hruns as [ts Hts]. apply map_result_Forall2 in Hts. rewrite Hts. by eexists.
Qed.
End derivation.

(** ** Marginals *)

Definition criterion_outcomes (snapshot : ComparisonEvidenceSnapshot) (key : string) :
    list ComparisonEvaluationOutcome :=
  mjoin ((fun f => outcomesForCriterion (Some f) key) <$> evidence_fixtures snapshot).

Lemma sum_by_mjoin {A} (f : A -> Z) (ls : list (list A)) : sum_by f (mjoin ls) = sum_by (sum_by f) ls.
Proof. induction ls as [|l ls IH]; csimpl; [done|]. by rewrite sum_by_app, IH. Qed.

Lemma add_outcomes_count l target v :
  countForVerdict (foldl (fun aggregate outcome => addOutcomeCounts aggregate (outcome_counts outcome)) target l) v =
  countForVerdict target v + verdict_sum v l.
Proof.
  unfold verdict_sum. revert target. induction l as [|o l IH]; intros target; simpl; [lia|].
  rewrite IH. destruct v; simpl; lia.
Qed.

Lemma add_outcomes_total l target :
  counts_total (foldl (fun aggregate outcome => addOutcomeCounts aggregate (outcome_counts outcome)) target l) =
  counts_total target + outcome_sum l.
Proof.
  unfold outcome_sum. revert target. induction l as [|o l IH]; intros target; simpl; [lia|].
  rewrite IH. simpl. lia.
Qed.

Lemma aggregate_loop (of_fixture : ComparisonEvidenceFixtureSnapshot -> list ComparisonEvaluationOutcome)
    fixtures target :
  let after := foldl (fun aggregate fixture =>
    foldl (fun aggregate outcome => addOutcomeCounts aggregate (outcome_counts outcome)) aggregate
      (of_fixture fixture)) target fixtures in
  (forall v, countForVerdict after v =
     countForVerdict target v + verdict_sum v (mjoin (of_fixture <$> fixtures))) /\
  counts_total after = counts_total target + outcome_sum (mjoin (of_fixture <$> fixtures)).
Proof.
  revert target. induction fixtures as [|f fixtures IH]; intros target; cbn [foldl].
  - split; [intros v|]; unfold verdict_sum, outcome_sum; simpl; lia.
  - destruct (IH (foldl (fun aggregate outcome => addOutcomeCounts aggregate (outcome_counts outcome)) target
      (of_fixture f))) as [Hv Ht]. csimpl. split.
    + intros v. rewrite Hv, add_outcomes_count. unfold verdict_sum. rewrite sum_by_app. lia.
    + rewrite Ht, add_outcomes_total. unfold outcome_sum. rewrite sum_by_app. lia.
Qed.

Lemma aggregateCounts_sums snapshot key :
  (forall v, countForVerdict (aggregateCounts snapshot key) v = verdict_sum v (criterion_outcomes snapshot key)) /\
  counts_total (aggregateCounts snapshot key) = outcome_sum (criterion_outcomes snapshot key).
Proof.
  destruct (aggregate_loop (fun f => outcomesForCriterion (Some f) key) (evidence_fixtures snapshot) emptyCounts)
    as [Hv Ht]. split; [intros v|].
  - unfold aggregateCounts, criterion_outcomes. rewrite Hv. by destruct v.
  - unfold aggregateCounts, criterion_outcomes. by rewrite Ht.
Qed.

Lemma counts_accepted m :
  (forall v, 0 <= countForVerdict m v) -> total (countForVerdict m) = counts_total m ->
  counts_total m <= MAX_SAFE_INTEGER -> ComparisonVerdictCountsSchema m = true.
Proof.
  intros Hn Ht Hm. destruct m as [a e f n p t]. unfold ComparisonVerdictCountsSchema.
  pose proof (Hn verdict_abstain); pose proof (Hn verdict_error); pose proof (Hn verdict_fail);
    pose proof (Hn verdict_not_applicable); pose proof (Hn verdict_pass).
  unfold total in Ht. cbn [counts_abstain counts_error counts_fail counts_notApplicable counts_pass counts_total
    countForVerdict sum_by foldr verdictFields] in *.
  rewrite (js_add4_counts a e f n), js_add_counts by lia. cbn [forallb].
  rewrite !(proj2 (safe_count_spec _)) by lia. rewrite !andb_true_l, andb_true_iff, isSafeInteger_spec, Z.eqb_eq. lia.
Qed.

Lemma marginalCounts_Ok snapshot key m :
  marginalCounts snapshot key = Ok m -> Forall valid_outcome (criterion_outcomes snapshot key) ->
  (forall v, countForVerdict m v = verdict_sum v (criterion_outcomes snapshot key)) /\
  counts_total m = outcome_sum (criterion_outcomes snapshot key) /\ ComparisonVerdictCountsSchema m = true.
Proof.
  destruct (aggregateCounts_sums snapshot key) as [Hv Ht]. unfold marginalCounts. intros Hm Hvalid.
  assert (E : m = aggregateCounts snapshot key /\ counts_total m <= MAX_SAFE_INTEGER).
  { repeat match goal with
    | H : (_ ≫= _) = Ok _ |- _ => apply bind_Ok in H as (? & [? ->]%checkedCount_Ok & H)
    end. injection Hm as <-. split; [by destruct (aggregateCounts snapshot key)|done]. }
  destruct E as [-> Hmax]. split_and!; [done|done|].
  apply counts_accepted; [|rewrite Ht, <- verdict_sum_total by done; by apply total_ext|done].
  intros v. rewrite Hv. apply sum_by_nonneg. intros o Ho. rewrite Forall_forall in Hvalid.
  apply (verdict_counts_facts (outcome_counts o)), Hvalid, Ho.
Qed.

Lemma marginalCounts_runs snapshot key :
  (exists m, marginalCounts snapshot key = Ok m) \/ marginalCounts snapshot key = Throw RangeError.
Proof.
  unfold marginalCounts, checkedCount.
  repeat match goal with |- context [MAX_SAFE_INTEGER <? ?x] => destruct (MAX_SAFE_INTEGER <? x); [by right|simpl] end.
  left. by eexists.
Qed.

Lemma criterion_outcomes_valid snapshot key :
  (forall f, f ∈ evidence_fixtures snapshot -> fixture_contract f) ->
  Forall valid_outcome (criterion_outcomes snapshot key).
Proof.
  intros Hf. apply Forall_forall. intros o (l & Ho & (f & -> & Hin)%list_elem_of_fmap)%list_elem_of_join.
  exact (proj1 (Forall_forall _ _) (outcomes_valid f key (Hf f Hin)) o Ho).
Qed.

Lemma outcome_sum_nonneg l : Forall valid_outcome l -> 0 <= outcome_sum l.
Proof.
  intros Hl. apply sum_by_nonneg. intros o Ho. rewrite Forall_forall in Hl.
  by apply (verdict_counts_facts (outcome_counts o)), Hl.
Qed.

Lemma sum_by_submseteq {A} (f : A -> Z) l k :
  (forall x, x ∈ k -> 0 <= f x) -> l ⊆+ k -> sum_by f l <= sum_by f k.
Proof.
  intros Hf [k' E]%submseteq_Permutation. rewrite (sum_by_perm f k (l ++ k')) by done. rewrite sum_by_app.
  assert (0 <= sum_by f k'); [|lia]. apply sum_by_nonneg. intros x Hx. apply Hf. rewrite E, elem_of_app. by right.
Qed.

(** The paired outcomes of a criterion are some of the outcomes its marginal counts. *)
Lemma paired_within criterion snapshot cases :
  (forall f, f ∈ evidence_fixtures snapshot -> fixture_contract f) -> NoDup (case_fixtureId <$> cases) ->
  outcome_sum (paired_outcomes criterion (fixtureMap snapshot) cases) <=
  outcome_sum (criterion_outcomes snapshot (exactCriterionKey criterion)).
Proof.
  intros Hf Hnd. unfold paired_outcomes, criterion_outcomes, outcome_sum at 1 2. rewrite !sum_by_mjoin, !sum_by_fmap.
  set (g := fun f => outcome_sum (outcomesForCriterion (Some f) (exactCriterionKey criterion))).
  set (kept := omap (fun c => map_get (fixtureMap snapshot) (case_fixtureId c)) (List.filter is_paired cases)).
  assert (Ek : sum_by (fun c => outcome_sum (outcomes_at criterion (fixtureMap snapshot) c))
      (List.filter is_paired cases) = sum_by g kept).
  { unfold kept. clear Hnd. induction (List.filter is_paired cases) as [|c l IH]; [done|]. csimpl. unfold outcomes_at at 1.
    destruct (map_get (fixtureMap snapshot) (case_fixtureId c)) as [f|]; csimpl; rewrite IH; [done|].
    unfold outcome_sum. simpl. lia. }
  unfold outcome_sum in Ek at 1. rewrite Ek. apply sum_by_submseteq.
  - intros f Hin. by apply outcome_sum_nonneg, outcomes_valid, Hf.
  - apply NoDup_submseteq.
    + unfold kept. apply NoDup_omap.
      * apply NoDup_ListNoDup, List.NoDup_filter, NoDup_ListNoDup. by apply NoDup_fmap_1 in Hnd.
      * intros c c' f Hc Hc' [_ E]%map_by_get [_ E']%map_by_get.
        apply list_elem_of_In, filter_In in Hc as [Hc%list_elem_of_In _], Hc' as [Hc'%list_elem_of_In _].
        apply (key_unique case_fixtureId cases); [done|done|done|]. congruence.
    + intros f (c & _ & [Hin _]%map_by_get)%list_elem_of_omap. done.
Qed.

(** ** All criteria *)

Lemma map_contract snapshot :
  (forall f, f ∈ evidence_fixtures snapshot -> fixture_contract f) ->
  forall id f, map_get (fixtureMap snapshot) id = Some f -> fixture_contract f.
Proof. intros Hf id f [Hin _]%map_by_get. by apply Hf. Qed.

(** What is derived for one criterion. *)
Record criterion_result (input : PairComparisonEvidenceInput) (cases : list ComparisonCase)
    (m : ComparisonVerdictMarginal) (ts : list ComparisonVerdictTransition) : Prop := {
  cr_baseline : forall v, countForVerdict (marginal_baseline m) v =
    verdict_sum v (criterion_outcomes (input_baseline input) (exactCriterionKey (marginal_criterion m)));
  cr_candidate : forall v, countForVerdict (marginal_candidate m) v =
    verdict_sum v (criterion_outcomes (input_candidate input) (exactCriterionKey (marginal_criterion m)));
  cr_transitions :
    match marginal_transition m with
    | transition_available n =>
        balanced (marginal_criterion m)
          (paired_outcomes (marginal_criterion m) (fixtureMap (input_baseline input)) cases)
          (paired_outcomes (marginal_criterion m) (fixtureMap (input_candidate input)) cases) n ts
    | transition_unavailable _ => ts = []
    end;
}.

Definition entry_valid (entry : string * CriterionReference) : Prop :=
  entry.1 = exactCriterionKey entry.2 /\ CriterionReferenceSchema entry.2 = true.

Section steps.
Context (input : PairComparisonEvidenceInput) (cases : list ComparisonCase).
Context (Hb : forall f, f ∈ evidence_fixtures (input_baseline input) -> fixture_contract f).
Context (Hc : forall f, f ∈ evidence_fixtures (input_candidate input) -> fixture_contract f).
Context (Hids : NoDup (case_fixtureId <$> cases)).

Lemma criterion_step_Ok derived entry d :
  entry_valid entry -> criterion_step input cases derived entry = Ok d ->
  exists m ts, derived_verdictMarginals d = derived_verdictMarginals derived ++ [m] /\
    derived_verdictTransitions d = derived_verdictTransitions derived ++ ts /\
    marginal_criterion m = entry.2 /\ criterion_result input cases m ts.
Proof.
  destruct entry as [key criterion]. intros [Hk _]. simpl in Hk. subst key. unfold criterion_step.
  intros (dv & Hdv & (b & Hbm & (c & Hcm & (m & [_ ->]%parse_Ok & [= <-])%bind_Ok)%bind_Ok)%bind_Ok)%bind_Ok.
  destruct (marginalCounts_Ok _ _ _ Hbm (criterion_outcomes_valid _ _ Hb)) as (Hbv & _ & _).
  destruct (marginalCounts_Ok _ _ _ Hcm (criterion_outcomes_valid _ _ Hc)) as (Hcv & _ & _).
  apply derivation_Ok in Hdv; [|by apply map_contract|by apply map_contract].
  eexists _, _. split_and!; [done|done|done|]. split; [done|done|]. simpl.
  destruct (derivation_pairedCount dv); by destruct Hdv.
Qed.

Lemma criterion_step_runs derived entry :
  entry_valid entry ->
  (exists d, criterion_step input cases derived entry = Ok d) \/
  criterion_step input cases derived entry = Throw RangeError.
Proof.
  destruct entry as [key criterion]. intros [Hk Hcr]. simpl in Hk, Hcr. subst key. unfold criterion_step.
  destruct (derivation_runs criterion (fixtureMap (input_baseline input)) (fixtureMap (input_candidate input))
    (map_contract _ Hb) (map_contract _ Hc) cases Hcr) as [[dv Hdv]|E]; [|right; by rewrite E].
  rewrite !(bind_known _ _ _ Hdv).
  destruct (marginalCounts_runs (input_baseline input) (exactCriterionKey criterion)) as [[b Hbm]|E];
    [|right; by rewrite E].
  rewrite !(bind_known _ _ _ Hbm).
  destruct (marginalCounts_runs (input_candidate input) (exactCriterionKey criterion)) as [[c Hcm]|E];
    [|right; by rewrite E].
  rewrite !(bind_known _ _ _ Hcm). left. eexists. erewrite bind_known; [reflexivity|]. apply parse_accepted.
  destruct (marginalCounts_Ok _ _ _ Hbm (criterion_outcomes_valid _ _ Hb)) as (_ & Hbt & Hbs).
  destruct (marginalCounts_Ok _ _ _ Hcm (criterion_outcomes_valid _ _ Hc)) as (_ & Hct & Hcs).
  apply derivation_Ok in Hdv; [|by apply map_contract|by apply map_contract].
  pose proof (paired_within criterion (input_baseline input) cases Hb Hids) as Hpb.
  pose proof (paired_within criterion (input_candidate input) cases Hc Hids) as Hpc.
  unfold ComparisonVerdictMarginalSchema.
  cbn [marginal_baseline marginal_candidate marginal_criterion marginal_transition].
  rewrite Hbs, Hcs, Hcr. destruct (derivation_pairedCount dv) as [n|]; destruct Hdv as [Hdv Hmax].
  - destruct Hdv as [_ _ _ Eb Ec _]. rewrite Hbt, Hct. cbn [ComparisonVerdictTransitionAvailabilitySchema].
    rewrite (proj2 (safe_count_spec n)); [|split; [|done]].
    + rewrite !andb_true_l, andb_true_iff, !Z.leb_le. lia.
    + rewrite <- Eb. apply outcome_sum_nonneg, paired_outcomes_valid. by apply map_contract.
  - by rewrite Hmax.
Qed.

Lemma criteria_fold entries derived d :
  Forall entry_valid entries -> fold_result (criterion_step input cases) derived entries = Ok d ->
  exists results, derived_verdictMarginals d = derived_verdictMarginals derived ++ results.*1 /\
    derived_verdictTransitions d = derived_verdictTransitions derived ++ mjoin results.*2 /\
    Forall2 (fun entry r => marginal_criterion r.1 = entry.2 /\ criterion_result input cases r.1 r.2) entries results.
Proof.
  intros Hv. revert derived. induction Hv as [|entry entries He Hv IH]; intros derived; cbn [fold_result].
  - intros [= <-]. exists []. rewrite !app_nil_r. by split_and!.
  - intros (d1 & Hd1 & Hf)%bind_Ok. destruct (criterion_step_Ok _ _ _ He Hd1) as (m & ts & Em & Et & Hm & Hr).
    destruct (IH d1 Hf) as (results & Em' & Et' & Hall). exists ((m, ts) :: results). csimpl.
    rewrite Em', Et', Em, Et, <- !app_assoc. split_and!; [done|done|]. by constructor.
Qed.

Lemma criteria_fold_runs entries derived :
  Forall entry_valid entries ->
  (exists d, fold_result (criterion_step input cases) derived entries = Ok d) \/
  fold_result (criterion_step input cases) derived entries = Throw RangeError.
Proof.
  intros Hv. revert derived. induction Hv as [|entry entries He Hv IH]; intros derived; cbn [fold_result].
  - left. by eexists.
  - destruct (criterion_step_runs derived entry He) as [[d1 ->]| ->]; [apply IH|by right].
Qed.
End steps.

(** The transitions of one result among all. *)
Lemma results_filter (results : list (ComparisonVerdictMarginal * list ComparisonVerdictTransition)) r :
  NoDup ((fun r => marginal_criterion r.1) <$> results) -> r ∈ results ->
  (forall r', r' ∈ results -> Forall (fun t => transition_criterion t = marginal_criterion r'.1) r'.2) ->
  List.filter (fun t => bool_decide (transition_criterion t = marginal_criterion r.1)) (mjoin results.*2) = r.2.
Proof.
  assert (Hnone : forall c ts, Forall (fun t => transition_criterion t <> c) ts ->
    List.filter (fun t => bool_decide (transition_criterion t = c)) ts = []).
  { intros c ts. induction 1 as [|t ts Ht Hts IH]; [done|]. simpl. by rewrite bool_decide_eq_false_2. }
  assert (Hall : forall c ts, Forall (fun t => transition_criterion t = c) ts ->
    List.filter (fun t => bool_decide (transition_criterion t = c)) ts = ts).
  { intros c ts. induction 1 as [|t ts Ht Hts IH]; [done|]. simpl. by rewrite bool_decide_eq_true_2, IH. }
  induction results as [|r0 results IH]; intros Hnd Hr Hown; [by apply elem_of_nil in Hr|].
  csimpl in *. apply NoDup_cons in Hnd as [Hfresh Hnd]. rewrite List.filter_app.
  assert (Hown0 := Hown r0 ltac:(by left)). apply elem_of_cons in Hr as [->|Hr].
  - rewrite Hall by done. rewrite Hnone; [by rewrite app_nil_r|].
    apply Forall_forall. intros t (l & Ht & (r' & -> & Hr')%list_elem_of_fmap)%list_elem_of_join Ec.
    apply Hfresh, list_elem_of_fmap. exists r'. split; [|done]. rewrite <- Ec.
    by apply (proj1 (Forall_forall _ _) (Hown r' ltac:(by right))).
  - rewrite Hnone, IH; [done|done|done|intros r' Hr'; apply Hown; by right|].
    eapply Forall_impl; [exact Hown0|]. intros t Et Ec. apply Hfresh, list_elem_of_fmap.
    exists r. split; [congruence|done].
Qed.

(** An outcome that a fixture of either snapshot retains. *)
Definition retained_outcome (input : PairComparisonEvidenceInput) (o : ComparisonEvaluationOutcome) : Prop :=
  exists f, (f ∈ evidence_fixtures (input_baseline input) \/ f ∈ evidence_fixtures (input_candidate input)) /\
    o ∈ snapshot_evaluationOutcomes f.

Lemma all_outcomes_retained input o :
  o ∈ all_outcomes (input_baseline input) ++ all_outcomes (input_candidate input) <-> retained_outcome input o.
Proof.
  unfold all_outcomes, retained_outcome. rewrite elem_of_app, !list_elem_of_join. split.
  - intros [(l & Ho & (f & -> & Hf)%list_elem_of_fmap)|(l & Ho & (f & -> & Hf)%list_elem_of_fmap)]; exists f; auto.
  - intros (f & [Hf|Hf] & Ho); [left|right]; exists (snapshot_evaluationOutcomes f);
      (split; [done|]); apply list_elem_of_fmap; eauto.
Qed.

Section criteria.
Context (input : PairComparisonEvidenceInput).
Context (Hb : forall f, f ∈ evidence_fixtures (input_baseline input) -> fixture_contract f).
Context (Hc : forall f, f ∈ evidence_fixtures (input_candidate input) -> fixture_contract f).

Lemma retained_criterion_valid o :
  retained_outcome input o -> CriterionReferenceSchema (outcome_criterion o) = true.
Proof using Hb Hc.
  intros (f & Hf & Ho). assert (Hfc : fixture_contract f) by naive_solver. apply (fc_outcomes _ Hfc) in Ho.
  unfold ComparisonEvaluationOutcomeSchema in Ho. by key_facts.
Qed.

Lemma criteria_entry entry :
  entry ∈ criteria_of input ->
  exists o, retained_outcome input o /\ entry = (exactCriterionKey (outcome_criterion o), outcome_criterion o).
Proof.
  intros Hin. unfold criteria_of in Hin. destruct entry as [key criterion].
  apply map_get_NoDup in Hin; [|apply map_of_NoDup]. apply map_of_get_elem in Hin.
  apply list_elem_of_fmap in Hin as (o & E & Ho%all_outcomes_retained). by exists o.
Qed.

Lemma criteria_valid entry : entry ∈ criteria_of input -> entry_valid entry.
Proof using Hb Hc.
  intros (o & Ho & ->)%criteria_entry. split; [done|]. by apply retained_criterion_valid.
Qed.

(** The criteria are those of the retained outcomes. *)
Lemma criteria_elem criterion :
  criterion ∈ (criteria_of input).*2 <-> exists o, retained_outcome input o /\ outcome_criterion o = criterion.
Proof using Hb Hc.
  split.
  - intros (entry & -> & (o & Ho & ->)%criteria_entry)%list_elem_of_fmap. by exists o.
  - intros (o & Ho & <-).
    assert (Hkey : exactCriterionKey (outcome_criterion o) ∈ (criteria_of input).*1).
    { unfold criteria_of. rewrite map_of_keys, <- list_fmap_compose. apply list_elem_of_fmap. exists o.
      split; [done|]. by apply all_outcomes_retained. }
    apply list_elem_of_fmap in Hkey as (entry & Ek & Hin). destruct (criteria_entry entry Hin) as (o' & Ho' & ->).
    simpl in Ek. apply exactCriterionKey_inj in Ek; [|by apply retained_criterion_valid..].
    apply list_elem_of_fmap. by exists (exactCriterionKey (outcome_criterion o'), outcome_criterion o').
Qed.
End criteria.

(** ** Claims *)

Section claims.
Context `{UnicodeNormalization}.

Lemma case_ids_NoDup input : NoDup (case_fixtureId <$> paired_cases (pairing_of input)).
Proof. simpl. rewrite <- list_fmap_compose, list_fmap_id. apply sorted_set_NoDup. Qed.

Lemma sorted_criteria_valid input :
  pairable input = true -> Forall entry_valid (sort_by fst (criteria_of input)).
Proof.
  intros Hp. destruct (pairable_fixtures input Hp) as [Hb Hc]. apply Forall_forall. intros entry He.
  rewrite sort_by_perm in He. by apply criteria_valid in He.
Qed.

(** C25. Transitions balance: in every derivation, the criteria of the outcomes
    either snapshot retains have one marginal each, which counts all outcomes of
    the criterion in each snapshot, and there is no other marginal; and either no
    transition of the criterion is written, or the transitions of the criterion
    have, verdict by verdict, the outcomes of the paired fixtures as their sums,
    on the baseline and on the candidate side, and the paired count the marginal
    states is the number of these outcomes on both sides. *)
Theorem verdict_transitions_balance input d :
  deriveComparisonVerdictTransitions input = Ok d ->
  let cases := paired_cases (pairing_of input) in
  NoDup (marginal_criterion <$> derived_verdictMarginals d) /\
  (forall criterion, criterion ∈ marginal_criterion <$> derived_verdictMarginals d <->
     exists o, retained_outcome input o /\ outcome_criterion o = criterion) /\
  forall m, m ∈ derived_verdictMarginals d ->
    let criterion := marginal_criterion m in
    let before := paired_outcomes criterion (fixtureMap (input_baseline input)) cases in
    let after := paired_outcomes criterion (fixtureMap (input_candidate input)) cases in
    let written := List.filter (fun t => bool_decide (transition_criterion t = criterion))
      (derived_verdictTransitions d) in
    (forall v, countForVerdict (marginal_baseline m) v =
       verdict_sum v (criterion_outcomes (input_baseline input) (exactCriterionKey criterion))) /\
    (forall v, countForVerdict (marginal_candidate m) v =
       verdict_sum v (criterion_outcomes (input_candidate input) (exactCriterionKey criterion))) /\
    match marginal_transition m with
    | transition_unavailable _ => written = []
    | transition_available n =>
        (forall v, transitions_where (fun t => transition_baseline t === v) written = verdict_sum v before) /\
        (forall v, transitions_where (fun t => transition_candidate t === v) written = verdict_sum v after) /\
        transitions_where (fun _ => true) written = n /\ outcome_sum before = n /\ outcome_sum after = n
    end.
Proof.
  intros Hd cases. unfold deriveComparisonVerdictTransitions in Hd. apply bind_Ok in Hd as (p & [Hp ->]%pairing_run & Hd). cbv zeta in Hd.
  apply bind_Ok in Hd as ([] & _ & Hd). destruct (pairable_fixtures input Hp) as [Hb Hc].
  apply (criteria_fold _ _ Hb Hc) in Hd as (results & Em & Et & Hall); [|by apply sorted_criteria_valid].
  simpl in Em, Et.
  assert (Hcr : marginal_criterion <$> results.*1 = (sort_by fst (criteria_of input)).*2).
  { clear -Hall. induction Hall as [|e r es rs [Hr _] Hall IH]; csimpl; [done|]. by rewrite Hr, IH. }
  assert (Hnd : NoDup (marginal_criterion <$> results.*1)).
  { rewrite Hcr. apply (NoDup_fmap_1 exactCriterionKey). rewrite <- list_fmap_compose.
    rewrite (list_fmap_ext _ fst).
    - rewrite sort_by_perm. apply map_of_NoDup.
    - intros i e He. apply list_elem_of_lookup_2 in He. symmetry.
      by apply (proj1 (Forall_forall _ _) (sorted_criteria_valid input Hp) e He). }
  rewrite Em. split; [done|]. split.
  { intros criterion. rewrite Hcr, sort_by_perm. by apply criteria_elem. }
  intros m ([m' ts] & -> & Hin)%list_elem_of_fmap. simpl.
  assert (Hres : forall r, r ∈ results -> criterion_result input cases r.1 r.2).
  { intros r [i Hi]%list_elem_of_lookup. by destruct (Forall2_lookup_r _ _ _ _ _ Hall Hi) as (e & _ & _ & Hr). }
  destruct (Hres _ Hin) as [Hbase Hcand Htrans]. simpl in *. split_and!; [done|done|].
  rewrite Et. pose proof (results_filter results (m', ts)) as Hfilter. simpl in Hfilter.
  rewrite Hfilter; [|by rewrite <- list_fmap_compose in Hnd|done|].
  - destruct (marginal_transition m') as [n|rs]; [|done]. by destruct Htrans.
  - intros r Hr. destruct (Hres r Hr) as [_ _ Hown]. destruct (marginal_transition r.1); [apply Hown|].
    rewrite Hown. constructor.
Qed.

(** The derivation fails only for what it cannot represent: it answers or
    throws a range error for an input that can be paired, and otherwise throws
    the pairing error; the lookups it asserts and the schemas it parses its
    marginals and transitions with never fail. *)
Theorem verdict_derivation_errors input :
  match deriveComparisonVerdictTransitions input with
  | Ok _ => pairable input = true
  | Throw e =>
      (pairable input = true /\ e = RangeError) \/
      (pairable input = false /\ exists code, e = ComparisonPairingError code)
  end.
Proof.
  unfold deriveComparisonVerdictTransitions. pose proof (pair_run input) as Hrun.
  destruct (pairable input) eqn:Hp; [|destruct Hrun as [code ->]; simpl; right; eauto].
  rewrite Hrun. simpl. destruct (pairable_fixtures input Hp) as [Hb Hc].
  unfold reject_when. destruct (_ <? _); simpl; [by left|].
  destruct (criteria_fold_runs input (paired_cases (pairing_of input)) Hb Hc (case_ids_NoDup input)
    (sort_by fst (criteria_of input)) {| derived_verdictMarginals := []; derived_verdictTransitions := [] |}
    (sorted_criteria_valid input Hp)) as [[d Hd]|E].
  - simpl in Hd. by rewrite Hd.
  - simpl in E. rewrite E. by left.
Qed.
End claims.
