(* ===== verification/ComparisonMetrics.v ===== *)
(** * Count metrics of a comparison

    [packages/core/src/evaluation/comparison-safety-metrics.ts] and
    [comparison-trace-metrics.ts]: a metric classifies each fixture of its
    stratum on both sides, counts the classes, and compares the sums over the
    paired fixtures.  Both files declare the functions of the first section,
    with the same text. *)

From S2P Require Import Prelude Errors BigInts Primitives ExactArithmetic ReplayPlan OrderedMap.
From S2P Require Import ComparisonContracts ComparisonSnapshot ComparisonResults.
From S2P Require Import ComparisonPairing ComparisonKeys ComparisonPairingProofs.
From S2P Require Import ComparisonVerdicts.
#[local] Open Scope Z_scope.

Inductive ObservationState : Type := observed_invalid | observed_missing | observed_present.

#[global] Instance ObservationState_eq_dec : EqDecision ObservationState.
Proof. solve_decision. Defined.

Record ClassifiedObservation := { classified_state : ObservationState; classified_value : option Z }.

Record ClassifiedPopulation := {
  population_byFixtureId : list (string * ClassifiedObservation);
  population_invalidCount : Z;
  population_missingCount : Z;
  population_observedCount : Z;
  population_totalCount : Z;
}.

(** [caseMap(cases)] *)
Definition caseMap (cases : list ComparisonCase) : list (string * ComparisonCase) := map_by case_fixtureId cases.

Definition subjectFixtureIds (subject : ComparisonSubject) (stratumFixtureIds : list string) : list string :=
  List.filter (includes (fixture_ids subject)) stratumFixtureIds.

Definition classifyObservation (value : ComparisonEvidenceFixtureSnapshot -> Z)
    (fixtures : list (string * ComparisonEvidenceFixtureSnapshot)) (comparisonCase : option ComparisonCase)
    (fixtureId : string) : ClassifiedObservation :=
  match comparisonCase with
  | None => {| classified_state := observed_invalid; classified_value := None |}
  | Some comparisonCase =>
      if is_invalid comparisonCase then {| classified_state := observed_invalid; classified_value := None |}
      else
        match map_get fixtures fixtureId with
        | None => {| classified_state := observed_missing; classified_value := None |}
        | Some fixture =>
            {| classified_state := observed_present; classified_value := Some (value fixture) |}
        end
  end.

Definition pairedState (baseline candidate : ClassifiedObservation) : ObservationState :=
  if (classified_state baseline === observed_invalid) || (classified_state candidate === observed_invalid)
  then observed_invalid
  else if (classified_state baseline === observed_missing) || (classified_state candidate === observed_missing)
  then observed_missing else observed_present.

Definition populationFromMap (byFixtureId : list (string * ClassifiedObservation)) : ClassifiedPopulation :=
  let count state :=
    Z.of_nat (length (List.filter (fun entry => classified_state entry.2 === state) byFixtureId)) in
  {| population_byFixtureId := byFixtureId; population_invalidCount := count observed_invalid;
     population_missingCount := count observed_missing; population_observedCount := count observed_present;
     population_totalCount := Z.of_nat (length byFixtureId) |}.

Definition exactCount (value : Z) (unit_ : text) : ComparisonExactValue :=
  rational_value "1" (toString value) unit_.

Definition observedSum (population : ClassifiedPopulation) (fixtureIds : list string) : Z :=
  foldl (fun sum fixtureId =>
    sum + default 0 (map_get (population_byFixtureId population) fixtureId ≫= classified_value)) 0 fixtureIds.

Definition unavailableMetricReasons (baseline candidate paired : ClassifiedPopulation) :
    list ComparisonMetricUnavailableReason :=
  sorted_set_by unavailable_reason_name
    ([insufficient_observations] ++
     (if population_observedCount baseline =? 0 then [baseline_missing] else []) ++
     (if population_observedCount candidate =? 0 then [candidate_missing] else []) ++
     (if 0 <? population_invalidCount baseline + population_invalidCount candidate + population_invalidCount paired
      then [invalid_observations] else [])).

Definition sample_of (population : ClassifiedPopulation) : SampleCounts :=
  {| sample_invalidCount := population_invalidCount population;
     sample_missingCount := population_missingCount population;
     sample_observedCount := population_observedCount population;
     sample_totalCount := population_totalCount population;
     sample_unavailableCount := 0 |}.

(** The paired observation of a fixture, [{ state: "invalid" }] where a side has none. *)
Definition pairedObservation (baseline candidate : ClassifiedPopulation) (fixtureId : string) :
    ClassifiedObservation :=
  let absent := {| classified_state := observed_invalid; classified_value := None |} in
  {| classified_state :=
       pairedState (default absent (map_get (population_byFixtureId baseline) fixtureId))
         (default absent (map_get (population_byFixtureId candidate) fixtureId));
     classified_value := None |}.

Definition paired_at (cases : list (string * ComparisonCase)) (fixtureId : string) : bool :=
  match map_get cases fixtureId with Some comparisonCase => is_paired comparisonCase | None => false end.

Section metrics.
Context `{UnicodeNormalization}.

Definition metricResult (baseline candidate paired : ClassifiedPopulation) (observedPairedFixtureIds : list string)
    (kind : MetricKind) (metricId : string) (unit_ : text) : res ComparisonMetricResult :=
  samples ← parse ComparisonMetricSampleCountsSchema
    {| samples_baseline := sample_of baseline; samples_candidate := sample_of candidate;
       samples_paired := sample_of paired |};
  let result value :=
    {| result_kind := kind; result_metricId := metricId; result_samples := samples; result_unit := unit_;
       result_usageProvenance := None; result_value := value |} in
  if population_observedCount paired =? 0 then
    parse ComparisonMetricResultSchema
      (result (metric_unavailable (unavailableMetricReasons baseline candidate paired)))
  else
    let baselineValue := exactCount (observedSum baseline observedPairedFixtureIds) unit_ in
    let candidateValue := exactCount (observedSum candidate observedPairedFixtureIds) unit_ in
    ordering ← compareComparisonExactValues candidateValue baselineValue;
    delta ← subtractComparisonExactValues baselineValue candidateValue;
    parse ComparisonMetricResultSchema
      (result (metric_available baselineValue candidateValue delta (direction_of ordering))).

(** ** Safety events *)

Definition safetyEventKinds : list SafetyEventKind :=
  [safety_guardrail_check; safety_replay_intervention; safety_uncertain_side_effect].

Definition safetyCount (kind : SafetyEventKind) (fixture : ComparisonEvidenceFixtureSnapshot) : Z :=
  Z.of_nat (length (List.filter (fun event => safety_kind event === kind) (snapshot_safetyEvents fixture))).

Definition classifySafetyPopulation (fixtures : list (string * ComparisonEvidenceFixtureSnapshot))
    (cases : list (string * ComparisonCase)) (fixtureIds : list string) (kind : SafetyEventKind) :
    ClassifiedPopulation :=
  populationFromMap
    (map_of ((fun fixtureId =>
       (fixtureId, classifyObservation (safetyCount kind) fixtures (map_get cases fixtureId) fixtureId))
       <$> fixtureIds)).

Definition safety_metric_step (input : PairComparisonEvidenceInput) (cases : list (string * ComparisonCase))
    (metric : ComparisonMetric) (kind : SafetyEventKind) : res ComparisonMetricResult :=
  match map_get (map_by stratum_stratumId (comparison_strata (input_comparison input))) (metric_stratumId metric) with
  | None => Throw TypeError
  | Some stratum =>
      let comparison := input_comparison input in
      let baseline := classifySafetyPopulation (fixtureMap (input_baseline input)) cases
        (subjectFixtureIds (comparison_baseline comparison) (stratum_fixtureIds stratum)) kind in
      let candidate := classifySafetyPopulation (fixtureMap (input_candidate input)) cases
        (subjectFixtureIds (comparison_candidate comparison) (stratum_fixtureIds stratum)) kind in
      let pairedByFixtureId := foldl (fun map fixtureId =>
        if paired_at cases fixtureId then map_set map fixtureId (pairedObservation baseline candidate fixtureId)
        else map) [] (stratum_fixtureIds stratum) in
      let paired := populationFromMap pairedByFixtureId in
      let observedPairedFixtureIds :=
        (List.filter (fun entry => classified_state entry.2 === observed_present) (population_byFixtureId paired)).*1 in
      metricResult baseline candidate paired observedPairedFixtureIds kind_safety_event_count
        (metric_metricId metric) (text_of "events")
  end.

Definition deriveComparisonSafetyMetrics (input : PairComparisonEvidenceInput) : res (list ComparisonMetricResult) :=
  pairing ← pairComparisonEvidence input;
  let cases := caseMap (paired_cases pairing) in
  fold_result (fun results metric =>
    match metric_kind metric with
    | safety_event_count kind => result ← safety_metric_step input cases metric kind; Ok (results ++ [result])
    | _ => Ok results
    end) [] (comparison_metrics (input_comparison input)).

(** [countEvents]: a paired fixture is in the map, reading it would throw otherwise. *)
Definition countEvents (pairedFixtureIds : list string)
    (fixtures : list (string * ComparisonEvidenceFixtureSnapshot)) (kind : SafetyEventKind) : res Z :=
  fold_result (fun total fixtureId =>
    match map_get fixtures fixtureId with
    | None => Throw TypeError
    | Some fixture => Ok (js_add total (safetyCount kind fixture))
    end) 0 pairedFixtureIds.

Definition deriveComparisonSafetyCounts (input : PairComparisonEvidenceInput) : res (list ComparisonSafetyCount) :=
  pairing ← pairComparisonEvidence input;
  let pairedFixtureIds := case_fixtureId <$> List.filter is_paired (paired_cases pairing) in
  if (length pairedFixtureIds =? 0)%nat then Ok []
  else
    map_result (fun kind =>
      baseline ← countEvents pairedFixtureIds (fixtureMap (input_baseline input)) kind;
      candidate ← countEvents pairedFixtureIds (fixtureMap (input_candidate input)) kind;
      parse ComparisonSafetyCountSchema
        {| safetyCount_counts :=
             {| delta_baseline := baseline; delta_candidate := candidate; delta_delta := js_sub candidate baseline |};
           safetyCount_kind := kind |}) safetyEventKinds.

(** ** Trace events *)

Definition traceCount (eventKind : EvidenceKind) (eventStatus : option EvidenceStatus)
    (fixture : ComparisonEvidenceFixtureSnapshot) : Z :=
  match eventStatus with
  | None =>
      match List.find (fun entry => kindCount_kind entry === eventKind)
              (trace_eventKinds (snapshot_trace fixture)) with
      | Some entry => kindCount_count entry
      | None => 0
      end
  | Some status =>
      match List.find (fun entry => (jointCount_kind entry === eventKind) && (jointCount_status entry === status))
              (trace_eventKindStatuses (snapshot_trace fixture)) with
      | Some entry => jointCount_count entry
      | None => 0
      end
  end.

(** The trace file counts the classes while it fills the map. *)
Definition classifyTracePopulation (value : ComparisonEvidenceFixtureSnapshot -> Z)
    (fixtures : list (string * ComparisonEvidenceFixtureSnapshot)) (cases : list (string * ComparisonCase))
    (fixtureIds : list string) : ClassifiedPopulation :=
  foldl (fun population fixtureId =>
    let classified := classifyObservation value fixtures (map_get cases fixtureId) fixtureId in
    let bump state := if classified_state classified === state then 1 else 0 in
    {| population_byFixtureId := map_set (population_byFixtureId population) fixtureId classified;
       population_invalidCount := population_invalidCount population + bump observed_invalid;
       population_missingCount := population_missingCount population + bump observed_missing;
       population_observedCount := population_observedCount population + bump observed_present;
       population_totalCount := population_totalCount population |})
    {| population_byFixtureId := []; population_invalidCount := 0; population_missingCount := 0;
       population_observedCount := 0; population_totalCount := Z.of_nat (length fixtureIds) |} fixtureIds.

Definition trace_metric_step (input : PairComparisonEvidenceInput) (cases : list (string * ComparisonCase))
    (metric : ComparisonMetric) (eventKind : EvidenceKind) (eventStatus : option EvidenceStatus) :
    res ComparisonMetricResult :=
  match map_get (map_by stratum_stratumId (comparison_strata (input_comparison input))) (metric_stratumId metric) with
  | None => Throw TypeError
  | Some stratum =>
      let comparison := input_comparison input in
      let value := traceCount eventKind eventStatus in
      let baseline := classifyTracePopulation value (fixtureMap (input_baseline input)) cases
        (subjectFixtureIds (comparison_baseline comparison) (stratum_fixtureIds stratum)) in
      let candidate := classifyTracePopulation value (fixtureMap (input_candidate input)) cases
        (subjectFixtureIds (comparison_candidate comparison) (stratum_fixtureIds stratum)) in
      let pairedFixtureIds := List.filter (paired_at cases) (stratum_fixtureIds stratum) in
      let pairedByFixtureId := foldl (fun map fixtureId =>
        map_set map fixtureId (pairedObservation baseline candidate fixtureId)) [] pairedFixtureIds in
      let observedPairedFixtureIds := List.filter (fun fixtureId =>
        match map_get pairedByFixtureId fixtureId with
        | Some observation => classified_state observation === observed_present
        | None => false
        end) pairedFixtureIds in
      metricResult baseline candidate (populationFromMap pairedByFixtureId) observedPairedFixtureIds
        kind_trace_event_count (metric_metricId metric) (text_of "events")
  end.

Definition deriveComparisonTraceMetrics (input : PairComparisonEvidenceInput) : res (list ComparisonMetricResult) :=
  pairing ← pairComparisonEvidence input;
  let cases := caseMap (paired_cases pairing) in
  fold_result (fun results metric =>
    match metric_kind metric with
    | trace_event_count eventKind eventStatus =>
        result ← trace_metric_step input cases metric eventKind eventStatus; Ok (results ++ [result])
    | _ => Ok results
    end) [] (comparison_metrics (input_comparison input)).
End metrics.

(** * What a retained trace counts

    A trace structure a snapshot may retain has three views of one population
    of events: by kind, by status, and by both.  The schema compares sums of
    JavaScript numbers; they are exact, and the count a metric reads is the
    number of the events it asks for. *)

(** The events of a kind, and of a status if one is asked for. *)
Definition trace_events (eventKind : EvidenceKind) (eventStatus : option EvidenceStatus)
    (value : ComparisonTraceStructure) : Z :=
  sum_by jointCount_count
    (List.filter (fun entry =>
       (jointCount_kind entry === eventKind) &&
       match eventStatus with Some status => jointCount_status entry === status | None => true end)
       (trace_eventKindStatuses value)).

(** ** Sums and projections *)

Lemma number_sum_from {A} (count : A -> Z) acc values :
  0 <= acc -> (forall x, x ∈ values -> 0 <= count x) ->
  foldl (fun sum entry => js_add sum (count entry)) acc values <= MAX_SAFE_INTEGER ->
  acc <= MAX_SAFE_INTEGER /\
  foldl (fun sum entry => js_add sum (count entry)) acc values = acc + sum_by count values.
Proof.
  revert acc. induction values as [|x values IH]; intros acc Ha Hc Hs; simpl in *; [lia|].
  assert (Hx : 0 <= count x) by (apply Hc; by left).
  destruct (IH (js_add acc (count x))) as [Hm Heq]; [by apply js_add_nonneg|intros y Hy; apply Hc; by right|done|].
  destruct (js_add_within acc (count x) Ha Hx Hm) as [E Hacc]. split; [done|]. rewrite Heq, E. lia.
Qed.

Lemma number_sum_exact {A} (count : A -> Z) values :
  (forall x, x ∈ values -> 0 <= count x) -> number_sum count values <= MAX_SAFE_INTEGER ->
  number_sum count values = sum_by count values.
Proof. intros Hc Hs. by destruct (number_sum_from count 0 values ltac:(lia) Hc Hs). Qed.

Lemma sum_by_cons {A} (f : A -> Z) x l : sum_by f (x :: l) = f x + sum_by f l.
Proof. reflexivity. Qed.

Lemma projected_from {A} (key : A -> string) (count : A -> Z) values counts :
  (forall x, x ∈ values -> 0 <= count x) ->
  (forall k, 0 <= default 0 (map_get counts k) /\
     default 0 (map_get counts k) + sum_by count values <= MAX_SAFE_INTEGER) ->
  forall k, map_get (foldl (fun counts entry =>
      map_set counts (key entry) (js_add (default 0 (map_get counts (key entry))) (count entry))) counts values) k =
    match List.filter (fun x => key x === k) values with
    | [] => map_get counts k
    | found => Some (default 0 (map_get counts k) + sum_by count found)
    end.
Proof.
  revert counts. induction values as [|x values IH]; intros counts Hc Hb k; [done|].
  assert (Hx : 0 <= count x) by (apply Hc; by left).
  assert (Hrest : 0 <= sum_by count values) by (apply sum_by_nonneg; intros y Hy; apply Hc; by right).
  assert (Hj : js_add (default 0 (map_get counts (key x))) (count x) = default 0 (map_get counts (key x)) + count x).
  { destruct (Hb (key x)) as [Hn Hm]. rewrite sum_by_cons in Hm. apply js_add_counts; lia. }
  cbn [foldl]. rewrite Hj, IH; [|intros y Hy; apply Hc; by right|].
  - cbn [List.filter]. rewrite !map_get_set. repeat case_bool_decide; try done; subst.
    destruct (List.filter _ values); simpl; f_equal; lia.
  - intros k'. rewrite map_get_set. destruct (Hb k') as [Hn Hm], (Hb (key x)) as [Hn' Hm']. rewrite sum_by_cons in Hm, Hm'.
    case_bool_decide; simpl; lia.
Qed.

Lemma projected_get {A} (key : A -> string) (count : A -> Z) values k :
  (forall x, x ∈ values -> 0 <= count x) -> sum_by count values <= MAX_SAFE_INTEGER ->
  map_get (projected_counts key count values) k =
    match List.filter (fun x => key x === k) values with
    | [] => None
    | found => Some (sum_by count found)
    end.
Proof. intros Hc Hs. unfold projected_counts. rewrite projected_from; [done|done|]. intros k'. simpl. lia. Qed.

(** At most one element of a list without repeated keys has what a key decides. *)
Lemma filter_unique {A K} (key : A -> K) (p : A -> bool) values :
  NoDup (key <$> values) -> (forall x y, p x = true -> p y = true -> key x = key y) ->
  List.filter p values = option_list (List.find p values).
Proof.
  intros Hn Hp. induction values as [|x values IH]; [done|]. csimpl in *.
  apply NoDup_cons in Hn as [Hx Hn]. destruct (p x) eqn:E; [|by apply IH].
  simpl. f_equal. rewrite IH by done. destruct (List.find p values) as [y|] eqn:Ey; [|done].
  apply List.find_some in Ey as [Hy Hpy]. destruct Hx. apply list_elem_of_fmap. exists y.
  split; [by apply Hp|by apply list_elem_of_In].
Qed.

(** ** The three views *)

#[global] Instance evidence_kind_name_inj : Inj eq eq evidence_kind_name.
Proof. name_inj. Qed.
#[global] Instance evidence_status_name_inj : Inj eq eq evidence_status_name.
Proof. name_inj. Qed.

Lemma evidence_kind_colon_free k : colon_free (evidence_kind_name k).
Proof. unfold colon_free. destruct k; simpl; rewrite !not_elem_of_cons; by repeat split; try apply not_elem_of_nil. Qed.

Lemma joint_key_inj e e' :
  joint_key e = joint_key e' -> jointCount_kind e = jointCount_kind e' /\ jointCount_status e = jointCount_status e'.
Proof.
  intros [Hk Hs]%joined_inj; [|apply evidence_kind_colon_free..].
  split; by apply (inj _).
Qed.

Record trace_contract (value : ComparisonTraceStructure) : Prop := {
  tc_positive : forall e, e ∈ trace_eventKindStatuses value -> 0 < jointCount_count e;
  tc_joint_distinct : NoDup (joint_key <$> trace_eventKindStatuses value);
  tc_total : sum_by jointCount_count (trace_eventKindStatuses value) = trace_eventCount value;
  tc_safe : trace_eventCount value <= MAX_SAFE_INTEGER;
  tc_kinds_distinct : NoDup ((fun e => evidence_kind_name (kindCount_kind e)) <$> trace_eventKinds value);
  tc_projections : trace_projections_agree value = true;
}.

Lemma trace_facts value : ComparisonTraceStructureSchema value = true -> trace_contract value.
Proof.
  intros Hv. unfold ComparisonTraceStructureSchema in Hv. key_facts. list_facts.
  match goal with H : trace_totals_agree _ = true |- _ => unfold trace_totals_agree in H end. key_facts.
  repeat match goal with H : isStrictlySortedUnique _ = true |- _ => apply strictly_sorted_NoDup in H end.
  match goal with H : SafeComparisonCountSchema _ = true |- _ => apply safe_count_spec in H end.
  assert (Hpos : forall e, e ∈ trace_eventKindStatuses value -> 0 < jointCount_count e).
  { intros e He. match goal with Hc : forall x, x ∈ trace_eventKindStatuses _ -> _ |- _ =>
      apply Hc, positive_count_spec in He end. lia. }
  split; try done; [|lia].
  match goal with H : (number_sum jointCount_count _ =? _) = true |- _ => apply Z.eqb_eq in H; rewrite <- H end.
  symmetry. apply number_sum_exact; [intros x Hx; apply Hpos in Hx; lia|lia].
Qed.

Lemma traceCount_status kind status f :
  trace_contract (snapshot_trace f) ->
  traceCount kind (Some status) f = trace_events kind (Some status) (snapshot_trace f).
Proof.
  intros Ht. unfold traceCount, trace_events. rewrite (filter_unique joint_key); [|apply Ht|].
  - destruct (List.find _ _); simpl; lia.
  - intros x y. rewrite !andb_true_iff, !bool_decide_eq_true. unfold joint_key.
    intros [Hk Hs] [Hk' Hs']. by rewrite Hk, Hs, Hk', Hs'.
Qed.

(** The projection by kind, as the schema computes it. *)
Abbreviation kind_counts value := (projected_counts (fun e => evidence_kind_name (jointCount_kind e))
  jointCount_count (trace_eventKindStatuses value)).

Lemma kind_counts_get value kind :
  trace_contract value ->
  map_get (kind_counts value) (evidence_kind_name kind) =
    if existsb (fun e => jointCount_kind e === kind) (trace_eventKindStatuses value)
    then Some (trace_events kind None value) else None.
Proof.
  intros Ht. rewrite projected_get.
  - unfold trace_events. generalize (trace_eventKindStatuses value). intros entries.
    rewrite (filter_ext_elem (fun e => (jointCount_kind e === kind) && true)
      (fun e => evidence_kind_name (jointCount_kind e) === evidence_kind_name kind)).
    + destruct (List.filter _ entries) as [|x found] eqn:E.
      * destruct (existsb _ entries) eqn:Ex; [|done]. apply existsb_exists in Ex as (e & He & Hk).
        apply bool_decide_eq_true in Hk. exfalso.
        assert (Hin : e ∈ List.filter (fun e => evidence_kind_name (jointCount_kind e) === evidence_kind_name kind) entries).
        { apply filter_elem. split; [by apply list_elem_of_In|]. apply bool_decide_eq_true. by rewrite Hk. }
        rewrite E in Hin. by apply elem_of_nil in Hin.
      * assert (Hin : x ∈ List.filter (fun e => evidence_kind_name (jointCount_kind e) === evidence_kind_name kind) entries)
          by (rewrite E; by left).
        apply filter_elem in Hin as [Hin Hk]. apply bool_decide_eq_true in Hk.
        rewrite (proj2 (existsb_exists _ _)); [done|]. exists x. split; [by apply list_elem_of_In|].
        apply bool_decide_eq_true. by apply (inj _).
    + intros e _. rewrite andb_true_r. apply bool_decide_ext. split; [by intros ->|apply (inj _)].
  - intros e He. apply Ht in He. lia.
  - rewrite tc_total by done. by apply Ht.
Qed.

Lemma kind_counts_NoDup value : NoDup (kind_counts value).*1.
Proof.
  unfold projected_counts. generalize (trace_eventKindStatuses value). intros entries.
  assert (Hn : NoDup (@nil (string * Z)).*1) by constructor. revert Hn.
  generalize (@nil (string * Z)). induction entries as [|e entries IH]; intros counts Hn; [done|].
  simpl. apply IH. by apply map_set_NoDup.
Qed.

(** Every kind with events is listed, and only those. *)
Lemma kinds_complete value :
  trace_contract value ->
  (fun e => evidence_kind_name (kindCount_kind e)) <$> trace_eventKinds value ≡ₚ (kind_counts value).*1.
Proof.
  intros Ht. pose proof (tc_projections _ Ht) as Hp. unfold trace_projections_agree in Hp. key_facts. list_facts.
  apply submseteq_length_Permutation.
  - apply NoDup_submseteq; [apply Ht|]. intros name (e & -> & He)%list_elem_of_fmap.
    apply map_get_is_Some. match goal with Hk : forall x, x ∈ trace_eventKinds _ -> _ |- _ => apply Hk in He end.
    apply bool_decide_eq_true in He. rewrite He. by eexists.
  - rewrite !length_fmap. match goal with Hl : (length (trace_eventKinds _) =? _)%nat = true |- _ =>
      apply Nat.eqb_eq in Hl; lia end.
Qed.

Lemma traceCount_kind kind f :
  trace_contract (snapshot_trace f) -> traceCount kind None f = trace_events kind None (snapshot_trace f).
Proof.
  intros Ht. set (value := snapshot_trace f) in *. unfold traceCount. fold value.
  pose proof (kind_counts_get value kind Ht) as Hget.
  destruct (List.find _ _) as [entry|] eqn:E.
  - apply List.find_some in E as [He%list_elem_of_In Hk]. apply bool_decide_eq_true in Hk.
    pose proof (tc_projections _ Ht) as Hp. unfold trace_projections_agree in Hp. key_facts. list_facts.
    match goal with Hc : forall x, x ∈ trace_eventKinds _ -> _ |- _ => apply Hc in He end.
    apply bool_decide_eq_true in He. rewrite Hk in He. rewrite He in Hget.
    destruct (existsb _ _); [by injection Hget|done].
  - destruct (existsb _ _) eqn:Ex.
    + assert (Hin : evidence_kind_name kind ∈ (kind_counts value).*1)
        by (apply map_get_is_Some; rewrite Hget; by eexists).
      rewrite <- kinds_complete in Hin by done. apply list_elem_of_fmap in Hin as (e & Hk & He).
      apply List.find_none with (x := e) in E; [|by apply list_elem_of_In].
      apply bool_decide_eq_false in E. destruct E. symmetry. by apply (inj _).
    + symmetry. apply sum_by_zero. intros e [He Hk]%filter_elem. rewrite andb_true_r in Hk.
      assert (existsb (fun e => jointCount_kind e === kind) (trace_eventKindStatuses value) = true); [|congruence].
      apply existsb_exists. exists e. split; [by apply list_elem_of_In|done].
Qed.

(** What a trace metric reads is the number of the events it asks for. *)
Lemma traceCount_events kind status f :
  ComparisonTraceStructureSchema (snapshot_trace f) = true ->
  traceCount kind status f = trace_events kind status (snapshot_trace f).
Proof.
  intros Ht%trace_facts. destruct status; [by apply traceCount_status|by apply traceCount_kind].
Qed.
