(* ===== verification/ComparisonMetricProofs.v ===== *)
(** * Count metrics are exact

    The safety and trace metrics of a comparison are the sums over the paired
    fixtures of the stratum, their difference and its sign; no schema, lookup
    or arithmetic bound on the way refuses. *)

From S2P Require Import Prelude Errors BigInts Primitives ExactArithmetic ExactArithmeticProofs.
From S2P Require Import ReplayPlan OrderedMap ComparisonContracts ComparisonSnapshot.
From S2P Require Import ComparisonResults ComparisonPairing ComparisonKeys.
From S2P Require Import ComparisonPairingProofs ComparisonVerdicts ComparisonMetrics.
#[local] Open Scope Z_scope.

(** ** Populations *)

Definition classified (value : ComparisonEvidenceFixtureSnapshot -> Z)
    (fixtures : list (string * ComparisonEvidenceFixtureSnapshot)) (cases : list (string * ComparisonCase))
    (fixtureId : string) : ClassifiedObservation :=
  classifyObservation value fixtures (map_get cases fixtureId) fixtureId.

(** The map over distinct ids, as a list. *)
Definition entries {A} (f : string -> A) (ids : list string) : list (string * A) := (fun id => (id, f id)) <$> ids.

Lemma entries_keys {A} (f : string -> A) ids : (entries f ids).*1 = ids.
Proof. unfold entries. rewrite <- list_fmap_compose. apply list_fmap_id. Qed.

Lemma entries_get {A} (f : string -> A) ids id : id ∈ ids -> map_get (entries f ids) id = Some (f id).
Proof.
  unfold entries. induction ids as [|i ids IH]; intros Hin; [by apply elem_of_nil in Hin|]. csimpl.
  case_bool_decide as E; [by subst|]. apply IH. by apply elem_of_cons in Hin as [->|].
Qed.

Lemma entries_get_None {A} (f : string -> A) ids id : id ∉ ids -> map_get (entries f ids) id = None.
Proof. intros Hn. apply map_get_None. by rewrite entries_keys. Qed.

Lemma foldl_map_set {A} (f : string -> A) ids m :
  NoDup ids -> (forall id, id ∈ ids -> id ∉ m.*1) ->
  foldl (fun m id => map_set m id (f id)) m ids = m ++ entries f ids.
Proof.
  intros Hnd. revert m. induction Hnd as [|i ids Hi Hnd IH]; intros m Hm; simpl.
  - unfold entries. by rewrite app_nil_r.
  - rewrite map_set_fresh by (apply Hm; by left). rewrite IH.
    + by rewrite <- app_assoc.
    + intros id Hid. rewrite fmap_app, elem_of_app. simpl. rewrite list_elem_of_singleton.
      intros [Hin| ->]; [|done]. apply (Hm id); [by right|done].
Qed.

Lemma map_of_entries {A} (f : string -> A) ids : NoDup ids -> map_of (entries f ids) = entries f ids.
Proof. intros Hn. apply map_of_unique. by rewrite entries_keys. Qed.

Lemma foldl_filter {A S} (p : A -> bool) (step : S -> A -> S) s l :
  foldl (fun s x => if p x then step s x else s) s l = foldl step s (List.filter p l).
Proof. revert s. induction l as [|x l IH]; intros s; simpl; [done|]. destruct (p x); simpl; apply IH. Qed.

Definition population (value : ComparisonEvidenceFixtureSnapshot -> Z)
    (fixtures : list (string * ComparisonEvidenceFixtureSnapshot)) (cases : list (string * ComparisonCase))
    (ids : list string) : ClassifiedPopulation := populationFromMap (entries (classified value fixtures cases) ids).

Lemma safety_population fixtures cases ids kind :
  NoDup ids -> classifySafetyPopulation fixtures cases ids kind = population (safetyCount kind) fixtures cases ids.
Proof.
  intros Hn. unfold classifySafetyPopulation, population.
  f_equal. by apply (map_of_entries (classified (safetyCount kind) fixtures cases)).
Qed.

(** The number of ids of a class. *)
Definition class_count (f : string -> ClassifiedObservation) (state : ObservationState) (ids : list string) : Z :=
  Z.of_nat (length (List.filter (fun id => bool_decide (classified_state (f id) = state)) ids)).

Lemma entries_class (f : string -> ClassifiedObservation) state ids :
  Z.of_nat (length (List.filter (fun entry => bool_decide (classified_state entry.2 = state)) (entries f ids))) =
  class_count f state ids.
Proof.
  unfold class_count, entries. induction ids as [|i ids IH]; [done|]. csimpl. case_bool_decide; simpl; lia.
Qed.

Lemma class_count_cons f state i ids :
  class_count f state (i :: ids) = (if bool_decide (classified_state (f i) = state) then 1 else 0) + class_count f state ids.
Proof. unfold class_count. simpl. case_bool_decide; simpl; lia. Qed.

Lemma class_partition f ids :
  class_count f observed_invalid ids + class_count f observed_missing ids + class_count f observed_present ids =
  Z.of_nat (length ids).
Proof.
  induction ids as [|i ids IH]; [done|]. rewrite !class_count_cons. cbn [length].
  destruct (classified_state (f i)); repeat case_bool_decide; simplify_eq; lia.
Qed.

Lemma class_count_bound f state ids : 0 <= class_count f state ids <= Z.of_nat (length ids).
Proof. unfold class_count. pose proof (List.filter_length_le (fun id => bool_decide (classified_state (f id) = state)) ids). lia. Qed.

Lemma population_eq f ids :
  populationFromMap (entries f ids) =
  {| population_byFixtureId := entries f ids; population_invalidCount := class_count f observed_invalid ids;
     population_missingCount := class_count f observed_missing ids;
     population_observedCount := class_count f observed_present ids;
     population_totalCount := Z.of_nat (length ids) |}.
Proof.
  unfold populationFromMap. f_equal; [apply entries_class..|]. unfold entries. by rewrite length_fmap.
Qed.

Lemma trace_population value fixtures cases ids :
  NoDup ids -> classifyTracePopulation value fixtures cases ids = population value fixtures cases ids.
Proof.
  intros Hn. unfold population, classifyTracePopulation. rewrite population_eq.
  set (f := classified value fixtures cases).
  assert (Hloop : forall ids p, NoDup ids -> (forall id, id ∈ ids -> id ∉ (population_byFixtureId p).*1) ->
    foldl (fun population fixtureId =>
      let classified := classifyObservation value fixtures (map_get cases fixtureId) fixtureId in
      let bump state := if classified_state classified === state then 1 else 0 in
      {| population_byFixtureId := map_set (population_byFixtureId population) fixtureId classified;
         population_invalidCount := population_invalidCount population + bump observed_invalid;
         population_missingCount := population_missingCount population + bump observed_missing;
         population_observedCount := population_observedCount population + bump observed_present;
         population_totalCount := population_totalCount population |}) p ids =
    {| population_byFixtureId := population_byFixtureId p ++ entries f ids;
       population_invalidCount := population_invalidCount p + class_count f observed_invalid ids;
       population_missingCount := population_missingCount p + class_count f observed_missing ids;
       population_observedCount := population_observedCount p + class_count f observed_present ids;
       population_totalCount := population_totalCount p |}).
  { clear. induction ids as [|i ids IH]; intros p Hnd Hp; cbn [foldl].
    - unfold entries, class_count. destruct p. simpl. rewrite app_nil_r. f_equal; lia.
    - apply NoDup_cons in Hnd as [Hi Hnd]. cbv zeta.
      change (classifyObservation value fixtures (map_get cases i) i) with (f i). rewrite IH; [|done|].
      + cbn [population_byFixtureId population_invalidCount population_missingCount population_observedCount
             population_totalCount].
        rewrite map_set_fresh by (apply Hp; by left). rewrite !class_count_cons. f_equal; [|lia..].
        by rewrite <- app_assoc.
      + intros id Hid. cbn [population_byFixtureId]. rewrite map_set_fresh by (apply Hp; by left).
        rewrite fmap_app, elem_of_app. simpl. rewrite list_elem_of_singleton.
        intros [Hin| ->]; [|done]. apply (Hp id); [by right|done]. }
  rewrite Hloop; [|done|intros; apply not_elem_of_nil]. simpl. done.
Qed.

(** ** Whole numbers as exact values *)

Definition whole (n : Z) : ExactFraction := {| denominator := 1; numerator := n |}.

(** Far beyond any sum of counts, far below the 128 characters of a value. *)
Definition small (n : Z) : Prop := Z.abs n < 10 ^ 126.

Lemma whole_normal n : normal (whole n).
Proof. split; simpl; [lia|apply Z.gcd_1_r]. Qed.

Lemma whole_bounded n : small n -> bounded (whole n).
Proof.
  intros Hn. apply bounded_spec. cbn [numerator denominator whole]. split.
  - apply (Nat.le_trans _ 127); [|unfold MAX_COMPARISON_EXACT_INTEGER_CHARACTERS; lia].
    apply toString_bound; [exact Hn|lia].
  - apply Nat.leb_le. reflexivity.
Qed.

Section counts.
Context `{UnicodeNormalization}.
Context (unit_ : text) (Hunit : AssuranceSummarySchema unit_ = true).

Lemma exactCount_canonical n : exactCount n unit_ = canonical (whole n) unit_.
Proof. reflexivity. Qed.

Lemma exactCount_accepted n : small n -> ComparisonExactValueSchema (exactCount n unit_) = true.
Proof. intros Hn. rewrite exactCount_canonical. apply canonical_accepted; [apply whole_normal|by apply whole_bounded|done]. Qed.

Lemma parse_count n :
  small n -> parseExactValue (exactCount n unit_) = Ok {| parsed_fraction := whole n; parsed_unit := unit_ |}.
Proof.
  intros Hn. unfold parseExactValue. rewrite exactCount_accepted by done. unfold exactCount.
  change (BigInt "1") with 1. rewrite BigInt_toString.
  by rewrite (bind_known _ _ _ (normalizeFraction_normal (whole n) (whole_normal n))).
Qed.

Lemma compare_counts a b :
  small a -> small b ->
  compareComparisonExactValues (exactCount a unit_) (exactCount b unit_) =
    Ok (if a - b =? 0 then 0 else if a - b <? 0 then -1 else 1).
Proof.
  intros Ha Hb. unfold compareComparisonExactValues.
  rewrite (bind_known _ _ _ (parse_count a Ha)), (bind_known _ _ _ (parse_count b Hb)). cbn [parsed_unit parsed_fraction].
  rewrite (bind_known _ _ tt) by (apply reject_known; by rewrite bool_decide_eq_true_2).
  unfold compareFractions. cbn [numerator denominator whole]. by rewrite !Z.mul_1_r.
Qed.

Lemma subtract_counts b c :
  small b -> small c -> small (c - b) ->
  subtractComparisonExactValues (exactCount b unit_) (exactCount c unit_) = Ok (exactCount (c - b) unit_).
Proof.
  intros Hb Hc Hd. unfold subtractComparisonExactValues.
  rewrite (bind_known _ _ _ (parse_count b Hb)), (bind_known _ _ _ (parse_count c Hc)). cbn [parsed_unit parsed_fraction].
  rewrite (bind_known _ _ tt) by (apply reject_known; by rewrite bool_decide_eq_true_2).
  assert (Hadd : addFractions (whole c) (whole (- b)) = Ok (whole (c - b))).
  { unfold addFractions. cbn [numerator denominator whole]. change (greatestCommonDivisor 1 1) with 1.
    change (Z.quot 1 1) with 1. rewrite !Z.mul_1_r, Z.add_opp_r.
    rewrite (bind_known _ _ _ (normalizeFraction_normal (whole (c - b)) (whole_normal _))).
    by apply whole_bounded. }
  cbn [numerator denominator whole]. fold (whole (- b)). rewrite (bind_known _ _ _ Hadd).
  apply exactValue_normal; [apply whole_normal|by apply whole_bounded|done].
Qed.

(** The value of a metric: both sums, their difference and its direction. *)
Definition difference (b c : Z) : ComparisonMetricValue :=
  metric_available (exactCount b unit_) (exactCount c unit_) (exactCount (c - b) unit_) (direction_of (c - b)).

Lemma direction_of_sign d : direction_of (if d =? 0 then 0 else if d <? 0 then -1 else 1) = direction_of d.
Proof. unfold direction_of. by destruct (d =? 0), (d <? 0). Qed.

Lemma difference_accepted b c :
  small b -> small c -> small (c - b) -> ComparisonMetricValueSchema (difference b c) = true.
Proof.
  intros Hb Hc Hd. unfold difference, ComparisonMetricValueSchema.
  rewrite !exactCount_accepted by done. unfold exactCount at 1 2 3 4. cbn [ComparisonResults.exact_unit].
  rewrite !bool_decide_eq_true_2 by done.
  unfold exactDelta, exactFraction, exactCount. cbn [numerator denominator delta_matches delta_sign].
  change (BigInt "1") with 1. rewrite !BigInt_toString, direction_of_sign, bool_decide_eq_true_2 by done.
  rewrite !Z.mul_1_r, Z.eqb_refl. done.
Qed.
End counts.

(** ** The result of a metric *)

Lemma observedSum_entries (f : string -> ClassifiedObservation) ids P :
  (forall id, id ∈ P -> id ∈ ids) ->
  observedSum (populationFromMap (entries f ids)) P = sum_by (fun id => default 0 (classified_value (f id))) P.
Proof.
  intros Hin. unfold observedSum. cbn [populationFromMap population_byFixtureId].
  assert (Hloop : forall s, foldl (fun sum fixtureId =>
      sum + default 0 (map_get (entries f ids) fixtureId ≫= classified_value)) s P =
    s + sum_by (fun id => default 0 (classified_value (f id))) P); [|by rewrite Hloop].
  induction P as [|id P IH]; intros s; simpl; [lia|]. rewrite IH by (intros id' Hid'; apply Hin; by right).
  rewrite entries_get by (apply Hin; by left). simpl. lia.
Qed.

Definition all_present (f : string -> ClassifiedObservation) (P : list string) : Prop :=
  forall id, id ∈ P -> classified_state (f id) = observed_present.

Lemma class_count_present f P :
  all_present f P ->
  class_count f observed_present P = Z.of_nat (length P) /\ class_count f observed_invalid P = 0 /\
  class_count f observed_missing P = 0.
Proof.
  intros Hp. pose proof (class_partition f P). pose proof (class_count_bound f observed_invalid P).
  pose proof (class_count_bound f observed_missing P).
  assert (class_count f observed_present P = Z.of_nat (length P)); [|lia]. clear -Hp.
  induction P as [|id P IH]; [done|]. rewrite class_count_cons, IH by (intros id' Hid'; apply Hp; by right).
  rewrite bool_decide_eq_true_2 by (apply Hp; by left). cbn [length]. lia.
Qed.

Lemma present_within f ids P :
  NoDup P -> (forall id, id ∈ P -> id ∈ ids) -> all_present f P ->
  Z.of_nat (length P) <= class_count f observed_present ids.
Proof.
  intros Hn Hin Hp. unfold class_count. apply inj_le. apply submseteq_length, NoDup_submseteq; [done|].
  intros id Hid. apply filter_elem. split; [auto|]. apply bool_decide_eq_true. by apply Hp.
Qed.

(** The population of one side, as the samples state it. *)
Definition samples_of (f : string -> ClassifiedObservation) (ids : list string) : SampleCounts :=
  {| sample_invalidCount := class_count f observed_invalid ids;
     sample_missingCount := class_count f observed_missing ids;
     sample_observedCount := class_count f observed_present ids;
     sample_totalCount := Z.of_nat (length ids); sample_unavailableCount := 0 |}.

Lemma samples_reconstruct f ids :
  Z.of_nat (length ids) <= 1000 -> safe_sample (samples_of f ids) = true /\ sample_reconstructs (samples_of f ids) = true.
Proof.
  intros Hl. pose proof (class_partition f ids). pose proof (class_count_bound f observed_invalid ids).
  pose proof (class_count_bound f observed_missing ids). pose proof (class_count_bound f observed_present ids).
  unfold safe_sample, sample_reconstructs, samples_of.
  cbn [sample_invalidCount sample_missingCount sample_observedCount sample_totalCount sample_unavailableCount forallb].
  split.
  - rewrite !(proj2 (safe_count_spec _)) by (unfold MAX_SAFE_INTEGER; lia). done.
  - rewrite js_add4_counts by (unfold MAX_SAFE_INTEGER; lia).
    rewrite andb_true_iff, isSafeInteger_spec, Z.eqb_eq. unfold MAX_SAFE_INTEGER. lia.
Qed.

Lemma samples_accepted fb fc fp ids_b ids_c P :
  Z.of_nat (length ids_b) <= 1000 -> Z.of_nat (length ids_c) <= 1000 -> NoDup P ->
  (forall id, id ∈ P -> id ∈ ids_b /\ id ∈ ids_c) ->
  all_present fb P -> all_present fc P -> all_present fp P ->
  ComparisonMetricSampleCountsSchema
    {| samples_baseline := samples_of fb ids_b; samples_candidate := samples_of fc ids_c;
       samples_paired := samples_of fp P |} = true.
Proof.
  intros Hlb Hlc Hn Hin Hb Hc Hp.
  assert (Hlp : Z.of_nat (length P) <= 1000).
  { assert (length P <= length ids_b)%nat; [|lia]. apply submseteq_length, NoDup_submseteq; [done|].
    intros id Hid. by apply Hin. }
  destruct (samples_reconstruct fb ids_b Hlb) as [B1 B2]. destruct (samples_reconstruct fc ids_c Hlc) as [C1 C2].
  destruct (samples_reconstruct fp P Hlp) as [P1 P2].
  unfold ComparisonMetricSampleCountsSchema. cbn [samples_baseline samples_candidate samples_paired].
  rewrite B1, B2, C1, C2, P1, P2. unfold samples_of.
  cbn [sample_invalidCount sample_missingCount sample_observedCount sample_totalCount sample_unavailableCount].
  destruct (class_count_present fp P Hp) as (-> & -> & ->).
  pose proof (present_within fb ids_b P Hn (fun id Hid => proj1 (Hin id Hid)) Hb).
  pose proof (present_within fc ids_c P Hn (fun id Hid => proj2 (Hin id Hid)) Hc).
  pose proof (class_count_bound fb observed_present ids_b). pose proof (class_count_bound fc observed_present ids_c).
  pose proof (js_add_nonneg (class_count fb observed_missing ids_b) (class_count fc observed_missing ids_c)
    (proj1 (class_count_bound _ _ _)) (proj1 (class_count_bound _ _ _))).
  pose proof (js_add_nonneg (class_count fb observed_invalid ids_b) (class_count fc observed_invalid ids_c)
    (proj1 (class_count_bound _ _ _)) (proj1 (class_count_bound _ _ _))).
  pose proof (js_add_nonneg 0 0 ltac:(lia) ltac:(lia)).
  repeat (rewrite (proj2 (Z.ltb_ge _ _)) by lia). done.
Qed.

Section result.
Context `{UnicodeNormalization}.

Lemma unavailable_accepted b c p :
  ComparisonMetricValueSchema (metric_unavailable (unavailableMetricReasons b c p)) = true.
Proof.
  unfold ComparisonMetricValueSchema, unavailableMetricReasons.
  rewrite sorted_set_by_strict, andb_true_r by apply _. apply sized_spec. set (l := _ ++ _). split.
  - assert (Hin : insufficient_observations ∈ sorted_set_by unavailable_reason_name l)
      by (apply elem_of_sorted_set_by; by left).
    destruct (sorted_set_by unavailable_reason_name l); [by apply elem_of_nil in Hin|]. simpl. lia.
  - pose proof (vocabulary_bound [baseline_missing; candidate_missing; insufficient_observations;
      invalid_observations; measurement_unavailable; source_over_limit] (sorted_set_by unavailable_reason_name l)) as Hb.
    cbn [length] in Hb. apply Nat2Z.inj_le in Hb; [done|intros []; repeat (first [by left|right])|].
    apply sorted_set_by_NoDup.
Qed.

Lemma events_unit : AssuranceSummarySchema (text_of "events") = true.
Proof.
  unfold AssuranceSummarySchema, boundedCanonicalText.
  rewrite normalizeNFC_ascii by reflexivity. vm_compute. reflexivity.
Qed.

Definition count_kind (kind : MetricKind) : Prop := count_metric_unit kind = Some (text_of "events").

(** The result over observations [fb] and [fc] of the two sides and pairs [P]. *)
Definition expected_result (fb fc fp : string -> ClassifiedObservation) (ids_b ids_c P : list string)
    (kind : MetricKind) (metricId : string) (value : ComparisonMetricValue) : ComparisonMetricResult :=
  {| result_kind := kind; result_metricId := metricId;
     result_samples :=
       {| samples_baseline := samples_of fb ids_b; samples_candidate := samples_of fc ids_c;
          samples_paired := samples_of fp P |};
     result_unit := text_of "events"; result_usageProvenance := None; result_value := value |}.

Lemma metricResult_run fb fc fp ids_b ids_c P kind metricId b c :
  Z.of_nat (length ids_b) <= 1000 -> Z.of_nat (length ids_c) <= 1000 -> NoDup P ->
  (forall id, id ∈ P -> id ∈ ids_b /\ id ∈ ids_c) ->
  all_present fb P -> all_present fc P -> all_present fp P ->
  b = sum_by (fun id => default 0 (classified_value (fb id))) P ->
  c = sum_by (fun id => default 0 (classified_value (fc id))) P ->
  small b -> small c -> small (c - b) -> count_kind kind -> OpaqueIdSchema metricId = true ->
  exists value,
    metricResult (populationFromMap (entries fb ids_b)) (populationFromMap (entries fc ids_c))
      (populationFromMap (entries fp P)) P kind metricId (text_of "events") =
      Ok (expected_result fb fc fp ids_b ids_c P kind metricId value) /\
    match P with
    | [] => exists reasons, value = metric_unavailable reasons /\ insufficient_observations ∈ reasons
    | _ => value = difference (text_of "events") b c
    end.
Proof.
  intros Hlb Hlc Hn Hin Hb Hc Hp Eb Ec Sb Sc Sd Hk Hid. unfold metricResult.
  assert (Hs : forall f ids, sample_of (populationFromMap (entries f ids)) = samples_of f ids).
  { intros f ids. by rewrite population_eq. }
  rewrite !Hs. rewrite (bind_known _ _ _ (parse_accepted _ _ (samples_accepted fb fc fp ids_b ids_c P Hlb Hlc Hn Hin Hb Hc Hp))).
  cbv zeta. rewrite !observedSum_entries by (intros id Hi; by apply Hin). rewrite <- Eb, <- Ec.
  assert (Ep : population_observedCount (populationFromMap (entries fp P)) = Z.of_nat (length P)).
  { rewrite population_eq. cbn [population_observedCount]. by apply class_count_present. }
  rewrite Ep.
  assert (Hres : forall value, ComparisonMetricValueSchema value = true ->
    forallb (fun exact => ComparisonResults.exact_unit exact === text_of "events") (exact_values value) = true ->
    (match value with metric_available _ _ _ _ => P <> [] | _ => True end) ->
    ComparisonMetricResultSchema (expected_result fb fc fp ids_b ids_c P kind metricId value) = true).
  { intros value Hv Hu Hne. unfold ComparisonMetricResultSchema, refineComparisonMetricResult, expected_result.
    cbn [result_kind result_metricId result_samples result_unit result_usageProvenance result_value optional].
    rewrite Hid, Hv, Hu, Hk, (samples_accepted fb fc fp ids_b ids_c P), events_unit by done.
    rewrite bool_decide_eq_true_2 by done.
    assert (Hu' : kind <> kind_replay_usage) by (intros ->; done). rewrite (bool_decide_eq_false_2 (kind = _)) by done.
    cbn [samples_paired samples_of sample_observedCount]. destruct (class_count_present fp P Hp) as (-> & _).
    destruct value; try done. destruct P; [done|]. simpl. done. }
  destruct P as [|id P'] eqn:EP; cbn [length].
  - eexists. split; [rewrite Z.eqb_refl; apply parse_accepted, Hres; [apply unavailable_accepted|done|done]|].
    eexists. split; [done|]. apply elem_of_sorted_set_by. by left.
  - eexists. split; [|reflexivity]. rewrite (proj2 (Z.eqb_neq _ _)) by lia.
    rewrite (bind_known _ _ _ (compare_counts (text_of "events") events_unit c b Sc Sb)).
    rewrite (bind_known _ _ _ (subtract_counts (text_of "events") events_unit b c Sb Sc Sd)).
    rewrite direction_of_sign. apply (parse_accepted _ (expected_result _ _ _ _ _ _ _ _ (difference _ b c))), Hres; [|done|done].
    apply difference_accepted; [apply events_unit|done..].
Qed.
End result.

(** ** The populations of a metric *)

Definition count_at (value : ComparisonEvidenceFixtureSnapshot -> Z) (snapshot : ComparisonEvidenceSnapshot)
    (id : string) : Z := match actual_of snapshot id with Some fixture => value fixture | None => 0 end.

Definition paired_ids (input : PairComparisonEvidenceInput) (ids : list string) : list string :=
  List.filter (fun id => is_paired (case_at input id)) ids.

(** The ids of one subject whose case is valid and which the snapshot retains. *)
Definition observed_ids (input : PairComparisonEvidenceInput) (snapshot : ComparisonEvidenceSnapshot)
    (ids : list string) : list string :=
  List.filter (fun id => negb (is_invalid (case_at input id)) && bool_decide (is_Some (actual_of snapshot id))) ids.

(** What a metric over the stratum [ids] must say. *)
Record metric_exact (input : PairComparisonEvidenceInput) (kind : MetricKind)
    (value : ComparisonEvidenceFixtureSnapshot -> Z) (metricId : string) (ids : list string)
    (r : ComparisonMetricResult) : Prop := {
  me_kind : result_kind r = kind;
  me_metricId : result_metricId r = metricId;
  me_unit : result_unit r = text_of "events";
  me_paired : sample_observedCount (samples_paired (result_samples r)) = Z.of_nat (length (paired_ids input ids)) /\
    sample_totalCount (samples_paired (result_samples r)) = Z.of_nat (length (paired_ids input ids));
  me_baseline :
    let here := subjectFixtureIds (comparison_baseline (input_comparison input)) ids in
    sample_totalCount (samples_baseline (result_samples r)) = Z.of_nat (length here) /\
    sample_observedCount (samples_baseline (result_samples r)) =
      Z.of_nat (length (observed_ids input (input_baseline input) here));
  me_candidate :
    let there := subjectFixtureIds (comparison_candidate (input_comparison input)) ids in
    sample_totalCount (samples_candidate (result_samples r)) = Z.of_nat (length there) /\
    sample_observedCount (samples_candidate (result_samples r)) =
      Z.of_nat (length (observed_ids input (input_candidate input) there));
  me_value :
    let b := sum_by (count_at value (input_baseline input)) (paired_ids input ids) in
    let c := sum_by (count_at value (input_candidate input)) (paired_ids input ids) in
    match paired_ids input ids with
    | [] => exists reasons, result_value r = metric_unavailable reasons /\ insufficient_observations ∈ reasons
    | _ => result_value r = difference (text_of "events") b c
    end;
}.

Section populations.
Context `{UnicodeNormalization}.

Lemma definition_strata d :
  ComparisonDefinitionRecordSchema d = true ->
  (forall m, m ∈ comparison_metrics d -> OpaqueIdSchema (metric_metricId m) = true /\
     is_Some (map_get (map_by stratum_stratumId (comparison_strata d)) (metric_stratumId m))) /\
  (forall s, s ∈ comparison_strata d ->
     NoDup (stratum_fixtureIds s) /\ Z.of_nat (length (stratum_fixtureIds s)) <= 500 /\
     forall id, id ∈ stratum_fixtureIds s -> id ∈ compared_ids d).
Proof.
  unfold ComparisonDefinitionRecordSchema, refineComparisonDefinition, refineComparisonPopulation. intros Hd.
  key_facts. list_facts. split.
  - intros m Hm. split.
    + assert (Hs : ComparisonMetricSchema m = true) by auto. unfold ComparisonMetricSchema in Hs. by key_facts.
    + apply map_by_keys, includes_true. auto.
  - intros s Hs. assert (Hsc : ComparisonStratumSchema s = true) by auto. unfold ComparisonStratumSchema in Hsc.
    key_facts. list_facts. split_and!; [by apply strictly_sorted_NoDup|unfold MAX_COMPARISON_SUBJECT_FIXTURES in *; lia|].
    intros id Hid. apply elem_of_sorted_set, includes_true.
    match goal with Hf : forall x, x ∈ comparison_strata d -> forallb _ _ = true |- _ =>
      apply (proj1 (forallb_elem _ _) (Hf s Hs) id Hid) end.
Qed.

Lemma caseMap_get input id :
  id ∈ compared_ids (input_comparison input) ->
  map_get (caseMap (paired_cases (pairing_of input))) id = Some (case_at input id).
Proof.
  intros Hid. unfold caseMap, map_by. cbn [paired_cases pairing_of]. rewrite <- list_fmap_compose.
  change ((fun value : ComparisonCase => (case_fixtureId value, value)) ∘ case_at input)
    with (fun id => (id, case_at input id)).
  fold (entries (case_at input) (compared_ids (input_comparison input))).
  rewrite map_of_entries by apply sorted_set_NoDup. by apply entries_get.
Qed.

Context (input : PairComparisonEvidenceInput) (Hp : pairable input = true).

Lemma paired_retained id :
  is_paired (case_at input id) = true ->
  is_Some (actual_of (input_baseline input) id) /\ is_Some (actual_of (input_candidate input) id) /\
  id ∈ fixture_ids (comparison_baseline (input_comparison input)) /\
  id ∈ fixture_ids (comparison_candidate (input_comparison input)).
Proof.
  destruct (sides input Hp id) as [Hb Hc]. intros Hpair.
  destruct (proj1 (proj1 (case_states _ _ _ _ _ Hb Hc)) Hpair) as [(e & a & He & Ha & _) (e' & a' & He' & Ha' & _)].
  split_and!; [by eexists|by eexists|apply expected_of_is_Some; by eexists..].
Qed.

Definition seen (value : ComparisonEvidenceFixtureSnapshot -> Z) (snapshot : ComparisonEvidenceSnapshot) :
    string -> ClassifiedObservation :=
  classified value (fixtureMap snapshot) (caseMap (paired_cases (pairing_of input))).

Lemma seen_at value snapshot id :
  id ∈ compared_ids (input_comparison input) ->
  seen value snapshot id =
    if is_invalid (case_at input id) then {| classified_state := observed_invalid; classified_value := None |}
    else match actual_of snapshot id with
         | None => {| classified_state := observed_missing; classified_value := None |}
         | Some fixture => {| classified_state := observed_present; classified_value := Some (value fixture) |}
         end.
Proof. intros Hid. unfold seen, classified, classifyObservation. by rewrite caseMap_get. Qed.

Lemma seen_paired value snapshot id :
  id ∈ compared_ids (input_comparison input) -> is_paired (case_at input id) = true ->
  is_Some (actual_of snapshot id) ->
  classified_state (seen value snapshot id) = observed_present /\
  default 0 (classified_value (seen value snapshot id)) = count_at value snapshot id.
Proof.
  intros Hid Hpair [f Hf]. rewrite seen_at by done. unfold count_at. rewrite Hf.
  unfold is_paired, is_invalid in *. by destruct (case_state (case_at input id)).
Qed.

Lemma observed_count value snapshot ids :
  (forall id, id ∈ ids -> id ∈ compared_ids (input_comparison input)) ->
  class_count (seen value snapshot) observed_present ids =
    Z.of_nat (length (observed_ids input snapshot ids)).
Proof.
  intros Hin. unfold observed_ids. induction ids as [|id ids IH]; [done|].
  rewrite class_count_cons, IH by (intros id' Hid'; apply Hin; by right).
  rewrite seen_at by (apply Hin; by left). cbn [List.filter].
  destruct (is_invalid (case_at input id)); cbn [negb andb classified_state]; [done|].
  destruct (actual_of snapshot id) eqn:E; cbn [classified_state].
  - rewrite (bool_decide_eq_true_2 (is_Some _)) by (by eexists). rewrite bool_decide_eq_true_2 by done.
    cbn [length]. lia.
  - rewrite (bool_decide_eq_false_2 (is_Some _)) by (by intros [? [=]]). rewrite bool_decide_eq_false_2 by done. lia.
Qed.

Lemma sum_small (f : string -> Z) ids :
  Z.of_nat (length ids) <= 500 -> (forall id, 0 <= f id <= MAX_SAFE_INTEGER) ->
  0 <= sum_by f ids <= 500 * MAX_SAFE_INTEGER.
Proof.
  intros Hl Hf. split; [apply sum_by_nonneg; intros; apply Hf|].
  assert (Hb : sum_by f ids <= Z.of_nat (length ids) * MAX_SAFE_INTEGER); [|unfold MAX_SAFE_INTEGER in *; lia].
  clear Hl. induction ids as [|id ids IH]; [done|].
  change (sum_by f (id :: ids)) with (f id + sum_by f ids). cbn [length].
  rewrite Nat2Z.inj_succ, Z.mul_succ_l. specialize (Hf id). lia.
Qed.

(** The fixtures of a stratum and a count that is safe on a retained fixture. *)
Section stratum.
Context (ids : list string) (Hnd : NoDup ids) (Hl : Z.of_nat (length ids) <= 500).
Context (Hin : forall id, id ∈ ids -> id ∈ compared_ids (input_comparison input)).
Context (value : ComparisonEvidenceFixtureSnapshot -> Z).
Context (Hvalue : forall f, fixture_contract f -> 0 <= value f <= MAX_SAFE_INTEGER).

Let here := subjectFixtureIds (comparison_baseline (input_comparison input)) ids.
Let there := subjectFixtureIds (comparison_candidate (input_comparison input)) ids.
Let fb := seen value (input_baseline input).
Let fc := seen value (input_candidate input).
Let P := paired_ids input ids.

Lemma paired_in_subjects id : id ∈ P -> id ∈ here /\ id ∈ there.
Proof.
  intros [Hi Hpair]%filter_elem. destruct (paired_retained id Hpair) as (_ & _ & Hb & Hc).
  split; apply filter_elem; (split; [done|]); by apply includes_true.
Qed.

Lemma paired_seen id :
  id ∈ P ->
  (classified_state (fb id) = observed_present /\
     default 0 (classified_value (fb id)) = count_at value (input_baseline input) id) /\
  classified_state (fc id) = observed_present /\
    default 0 (classified_value (fc id)) = count_at value (input_candidate input) id.
Proof.
  intros [Hi Hpair]%filter_elem. pose proof (paired_retained id Hpair) as (Hb & Hc & _).
  split; (apply seen_paired; [by apply Hin|done|done]).
Qed.

Lemma pairs_present id :
  id ∈ P ->
  classified_state (pairedObservation (populationFromMap (entries fb here)) (populationFromMap (entries fc there)) id) =
    observed_present.
Proof.
  intros Hi. unfold pairedObservation, pairedState. cbn [classified_state populationFromMap population_byFixtureId].
  destruct (paired_in_subjects id Hi). rewrite !entries_get by done. simpl.
  destruct (paired_seen id Hi) as [[-> _] [-> _]]. reflexivity.
Qed.

Lemma paired_sum_bound snapshot :
  (forall f, f ∈ evidence_fixtures snapshot -> fixture_contract f) ->
  0 <= sum_by (count_at value snapshot) P <= 500 * MAX_SAFE_INTEGER.
Proof.
  intros Hf. apply sum_small.
  - pose proof (List.filter_length_le (fun id => is_paired (case_at input id)) ids). unfold P, paired_ids. lia.
  - intros id. unfold count_at. destruct (actual_of snapshot id) eqn:E; [|unfold MAX_SAFE_INTEGER; lia].
    apply actual_of_Some in E as [E _]. auto.
Qed.

Lemma small_bound n : Z.abs n <= 500 * MAX_SAFE_INTEGER -> small n.
Proof. intros Hn. unfold small. eapply Z.le_lt_trans; [exact Hn|]. by apply Z.ltb_lt. Qed.

Lemma expected_exact kind metricId v :
  match P with
  | [] => exists reasons, v = metric_unavailable reasons /\ insufficient_observations ∈ reasons
  | _ => v = difference (text_of "events") (sum_by (count_at value (input_baseline input)) P)
               (sum_by (count_at value (input_candidate input)) P)
  end ->
  metric_exact input kind value metricId ids
    (expected_result fb fc (pairedObservation (populationFromMap (entries fb here)) (populationFromMap (entries fc there)))
       here there P kind metricId v).
Proof.
  intros Hv. assert (Hsub : forall subject id, id ∈ subjectFixtureIds subject ids ->
    id ∈ compared_ids (input_comparison input)) by (intros subject id [Hi _]%filter_elem; auto).
  unfold expected_result. split;
    cbn [result_kind result_metricId result_unit result_samples result_value samples_paired samples_baseline
         samples_candidate]; unfold samples_of; cbn [sample_observedCount sample_totalCount]; try done.
  - split; [|done]. by destruct (class_count_present _ P pairs_present) as (-> & _).
  - split; [done|]. apply observed_count. apply Hsub.
  - split; [done|]. apply observed_count. apply Hsub.
Qed.

(** Both sides and the pairs of a stratum, whatever is counted. *)
Lemma metric_step kind metricId :
  count_kind kind -> OpaqueIdSchema metricId = true ->
  let pb := populationFromMap (entries fb here) in
  let pc := populationFromMap (entries fc there) in
  exists r,
    metricResult pb pc (populationFromMap (entries (pairedObservation pb pc) P)) P kind metricId (text_of "events") = Ok r /\
    metric_exact input kind value metricId ids r.
Proof.
  intros Hk Hid. cbv zeta. destruct (pairable_fixtures input Hp) as [Hfb Hfc].
  pose proof (paired_sum_bound _ Hfb) as Hsb. pose proof (paired_sum_bound _ Hfc) as Hsc.
  assert (Hbound : forall p, Z.of_nat (length (List.filter p ids)) <= 1000).
  { intros p. pose proof (List.filter_length_le p ids). lia. }
  destruct (metricResult_run fb fc (pairedObservation (populationFromMap (entries fb here))
      (populationFromMap (entries fc there))) here there P kind metricId
    (sum_by (count_at value (input_baseline input)) P) (sum_by (count_at value (input_candidate input)) P))
    as (v & Hrun & Hv); try done; try apply Hbound.
  - by apply NoDup_filter_bool.
  - apply paired_in_subjects.
  - intros id Hi. by apply paired_seen.
  - intros id Hi. by apply paired_seen.
  - exact pairs_present.
  - apply sum_by_ext. intros id Hi. symmetry. by apply paired_seen.
  - apply sum_by_ext. intros id Hi. symmetry. by apply paired_seen.
  - apply small_bound. lia.
  - apply small_bound. lia.
  - apply small_bound. lia.
  - eexists. split; [exact Hrun|]. by apply expected_exact.
Qed.
End stratum.

(** What is counted matters on retained fixtures only. *)
Lemma metric_exact_ext kind value value' metricId ids r :
  (forall f, fixture_contract f -> value f = value' f) ->
  metric_exact input kind value metricId ids r -> metric_exact input kind value' metricId ids r.
Proof.
  intros E Hm. destruct (pairable_fixtures input Hp) as [Hfb Hfc].
  assert (Hat : forall snapshot, (forall f, f ∈ evidence_fixtures snapshot -> fixture_contract f) ->
    sum_by (count_at value snapshot) (paired_ids input ids) = sum_by (count_at value' snapshot) (paired_ids input ids)).
  { intros snapshot Hf. apply sum_by_ext. intros id _. unfold count_at. destruct (actual_of snapshot id) eqn:Ea; [|done].
    apply actual_of_Some in Ea as [Ea _]. by apply E, Hf. }
  destruct Hm. split; try done. cbv zeta. by rewrite <- !Hat.
Qed.
End populations.

(** ** The counts of one fixture *)

Lemma safetyCount_bound kind f : fixture_contract f -> 0 <= safetyCount kind f <= 4000.
Proof.
  intros Hf. pose proof (fc_events _ Hf). unfold safetyCount.
  pose proof (List.filter_length_le (fun event => safety_kind event === kind) (snapshot_safetyEvents f)). lia.
Qed.

Lemma safetyCount_safe kind f : fixture_contract f -> 0 <= safetyCount kind f <= MAX_SAFE_INTEGER.
Proof. intros Hf. pose proof (safetyCount_bound kind f Hf). unfold MAX_SAFE_INTEGER. lia. Qed.

Lemma traceCount_safe eventKind status f : fixture_contract f -> 0 <= traceCount eventKind status f <= MAX_SAFE_INTEGER.
Proof.
  intros Hf. pose proof (fc_trace _ Hf) as Ht. unfold ComparisonTraceStructureSchema in Ht. key_facts. list_facts.
  unfold traceCount. destruct status as [status|].
  - destruct (List.find _ _) as [entry|] eqn:E; [|unfold MAX_SAFE_INTEGER; lia].
    apply find_Some_key in E as [E _].
    match goal with Hc : forall x, x ∈ trace_eventKindStatuses _ -> _ |- _ =>
      apply Hc, positive_count_spec in E end. lia.
  - destruct (List.find _ _) as [entry|] eqn:E; [|unfold MAX_SAFE_INTEGER; lia].
    apply find_Some_key in E as [E _].
    match goal with Hc : forall x, x ∈ trace_eventKinds _ -> _ |- _ => apply Hc, positive_count_spec in E end. lia.
Qed.

Section steps.
Context `{UnicodeNormalization}.
Context (input : PairComparisonEvidenceInput) (Hp : pairable input = true).

(** The stratum a metric names. *)
Definition stratum_of (metric : ComparisonMetric) : option ComparisonStratum :=
  map_get (map_by stratum_stratumId (comparison_strata (input_comparison input))) (metric_stratumId metric).

Lemma stratum_facts metric :
  metric ∈ comparison_metrics (input_comparison input) ->
  OpaqueIdSchema (metric_metricId metric) = true /\
  exists stratum, stratum_of metric = Some stratum /\ NoDup (stratum_fixtureIds stratum) /\
    Z.of_nat (length (stratum_fixtureIds stratum)) <= 500 /\
    forall id, id ∈ stratum_fixtureIds stratum -> id ∈ compared_ids (input_comparison input).
Proof.
  intros Hm. destruct (definition_strata _ (pairable_definition input Hp)) as [Hmetrics Hstrata].
  destruct (Hmetrics metric Hm) as [Hid [stratum Hs]]. split; [done|]. exists stratum. split; [done|].
  apply map_by_get in Hs as [Hs _]. by apply Hstrata.
Qed.

Lemma paired_at_case id :
  id ∈ compared_ids (input_comparison input) ->
  paired_at (caseMap (paired_cases (pairing_of input))) id = is_paired (case_at input id).
Proof. intros Hid. unfold paired_at. by rewrite caseMap_get. Qed.

Lemma paired_filter ids :
  (forall id, id ∈ ids -> id ∈ compared_ids (input_comparison input)) ->
  List.filter (paired_at (caseMap (paired_cases (pairing_of input)))) ids = paired_ids input ids.
Proof. intros Hin. apply filter_ext_elem. intros id Hid. by apply paired_at_case, Hin. Qed.

Lemma present_entries (f : string -> ClassifiedObservation) ids :
  (forall id, id ∈ ids -> classified_state (f id) = observed_present) ->
  (List.filter (fun entry => bool_decide (classified_state entry.2 = observed_present)) (entries f ids)).*1 = ids.
Proof.
  unfold entries. induction ids as [|id ids IH]; intros Hall; [done|]. csimpl.
  rewrite bool_decide_eq_true_2 by (apply Hall; by left). csimpl. rewrite IH; [done|].
  intros id' Hid'. apply Hall. by right.
Qed.

Lemma safety_step metric kind :
  metric ∈ comparison_metrics (input_comparison input) ->
  exists stratum r, stratum_of metric = Some stratum /\
    safety_metric_step input (caseMap (paired_cases (pairing_of input))) metric kind = Ok r /\
    metric_exact input kind_safety_event_count (safetyCount kind) (metric_metricId metric)
      (stratum_fixtureIds stratum) r.
Proof.
  intros Hm. destruct (stratum_facts metric Hm) as (Hid & stratum & Hs & Hnd & Hl & Hin).
  pose proof (pairs_present input Hp _ Hin (safetyCount kind)) as Hpresent.
  destruct (metric_step input Hp _ Hnd Hl Hin (safetyCount kind) (safetyCount_safe kind) kind_safety_event_count
    (metric_metricId metric) eq_refl Hid) as (r & Hr & Hexact).
  exists stratum, r. split; [done|]. split; [|done]. unfold safety_metric_step. fold (stratum_of metric). rewrite Hs.
  rewrite !safety_population by by apply NoDup_filter_bool. unfold population. fold (seen input (safetyCount kind)).
  rewrite foldl_filter, paired_filter by done.
  rewrite (foldl_map_set (pairedObservation _ _)); [|by apply NoDup_filter_bool|by intros ? _ ?%elem_of_nil].
  rewrite app_nil_l. cbn [population_byFixtureId populationFromMap] in Hpresent |- *.
  rewrite present_entries by exact Hpresent. exact Hr.
Qed.

Lemma trace_step metric eventKind status :
  metric ∈ comparison_metrics (input_comparison input) ->
  exists stratum r, stratum_of metric = Some stratum /\
    trace_metric_step input (caseMap (paired_cases (pairing_of input))) metric eventKind status = Ok r /\
    metric_exact input kind_trace_event_count (fun f => trace_events eventKind status (snapshot_trace f))
      (metric_metricId metric) (stratum_fixtureIds stratum) r.
Proof.
  intros Hm. destruct (stratum_facts metric Hm) as (Hid & stratum & Hs & Hnd & Hl & Hin).
  pose proof (pairs_present input Hp _ Hin (traceCount eventKind status)) as Hpresent.
  destruct (metric_step input Hp _ Hnd Hl Hin (traceCount eventKind status) (traceCount_safe eventKind status)
    kind_trace_event_count (metric_metricId metric) eq_refl Hid) as (r & Hr & Hexact).
  exists stratum, r. split; [done|].
  split; [|eapply metric_exact_ext; [done| |exact Hexact]; intros f Hf; by apply traceCount_events, Hf]. unfold trace_metric_step. fold (stratum_of metric). rewrite Hs.
  rewrite !trace_population by by apply NoDup_filter_bool. unfold population.
  fold (seen input (traceCount eventKind status)). rewrite paired_filter by done.
  rewrite (foldl_map_set (pairedObservation _ _)); [|by apply NoDup_filter_bool|by intros ? _ ?%elem_of_nil].
  rewrite app_nil_l. rewrite (filter_ext_elem _ (fun _ => true) (paired_ids input (stratum_fixtureIds stratum))).
  - rewrite List.filter_true. exact Hr.
  - intros id Hi. rewrite entries_get by done. apply bool_decide_eq_true. by apply Hpresent.
Qed.
End steps.

(** ** Claims *)

Lemma fold_result_ext {E A S} (f g : S -> A -> result E S) s l :
  (forall s x, f s x = g s x) -> fold_result f s l = fold_result g s l.
Proof.
  intros Hfg. revert s. induction l as [|x l IH]; intros s; simpl; [done|]. rewrite Hfg.
  destruct (g s x); [apply IH|done].
Qed.

(** A loop that collects the results of the items a selector picks. *)
Lemma collected {A B K} (select : A -> option K) (step : A -> K -> res B) (P : A -> K -> B -> Prop) items acc :
  (forall x k, x ∈ items -> select x = Some k -> exists r, step x k = Ok r /\ P x k r) ->
  exists rs,
    fold_result (fun results x =>
      match select x with Some k => r ← step x k; Ok (results ++ [r]) | None => Ok results end) acc items =
      Ok (acc ++ rs) /\
    Forall2 (fun xk r => P xk.1 xk.2 r) (omap (fun x => pair x <$> select x) items) rs.
Proof.
  revert acc. induction items as [|x items IH]; intros acc Hstep; cbn [fold_result].
  - exists []. rewrite app_nil_r. split; [done|constructor].
  - csimpl. destruct (select x) as [k|] eqn:Es.
    + destruct (Hstep x k ltac:(by left) Es) as (r & Hr & HP).
      destruct (IH (acc ++ [r])) as (rs & Hrs & Hall); [intros y k' Hy; apply Hstep; by right|].
      exists (r :: rs). simpl. rewrite Hr. simpl. rewrite Hrs, <- app_assoc. split; [done|]. by constructor.
    + simpl. apply IH. intros y k' Hy. apply Hstep. by right.
Qed.

Definition safety_kind_of (metric : ComparisonMetric) : option SafetyEventKind :=
  match metric_kind metric with safety_event_count kind => Some kind | _ => None end.

Definition trace_kind_of (metric : ComparisonMetric) : option (EvidenceKind * option EvidenceStatus) :=
  match metric_kind metric with trace_event_count kind status => Some (kind, status) | _ => None end.

Section claims.
Context `{UnicodeNormalization}.

(** C28. Safety metrics are exact and never fail: for an input that can be
    paired, every safety metric of the definition has one result, in order,
    over the fixtures of its stratum: the number of pairs, both populations
    with the fixtures observed on each side, and the number of safety events of
    the kind over the pairs on both sides with their exact difference and its
    direction, or unavailability when there is no pair. *)
Theorem safety_metrics_exact input :
  pairable input = true ->
  exists results, deriveComparisonSafetyMetrics input = Ok results /\
    Forall2 (fun entry r => exists stratum, stratum_of input entry.1 = Some stratum /\
        metric_exact input kind_safety_event_count (safetyCount entry.2) (metric_metricId entry.1)
          (stratum_fixtureIds stratum) r)
      (omap (fun metric => pair metric <$> safety_kind_of metric) (comparison_metrics (input_comparison input)))
      results.
Proof.
  intros Hp. unfold deriveComparisonSafetyMetrics. pose proof (pair_run input) as Hrun. rewrite Hp in Hrun.
  rewrite (bind_known _ _ _ Hrun). cbv zeta.
  destruct (collected safety_kind_of (safety_metric_step input (caseMap (paired_cases (pairing_of input))))
    (fun metric kind r => exists stratum, stratum_of input metric = Some stratum /\
        metric_exact input kind_safety_event_count (safetyCount kind) (metric_metricId metric)
          (stratum_fixtureIds stratum) r) (comparison_metrics (input_comparison input)) []) as (rs & Hrs & Hall).
  { intros metric kind Hm _. destruct (safety_step input Hp metric kind Hm) as (stratum & r & Hs & Hr & He). eauto. }
  exists rs. split; [|done]. rewrite app_nil_l in Hrs. rewrite <- Hrs. apply fold_result_ext. intros results metric.
  unfold safety_kind_of. by destruct (metric_kind metric).
Qed.

(** C29. Trace metrics are exact and never fail: the same for the number of
    events of a kind, and of a kind with a status, whichever of its three views
    of the trace the code reads it from. *)
Theorem trace_metrics_exact input :
  pairable input = true ->
  exists results, deriveComparisonTraceMetrics input = Ok results /\
    Forall2 (fun entry r => exists stratum, stratum_of input entry.1 = Some stratum /\
        metric_exact input kind_trace_event_count (fun f => trace_events entry.2.1 entry.2.2 (snapshot_trace f))
          (metric_metricId entry.1) (stratum_fixtureIds stratum) r)
      (omap (fun metric => pair metric <$> trace_kind_of metric) (comparison_metrics (input_comparison input)))
      results.
Proof.
  intros Hp. unfold deriveComparisonTraceMetrics. pose proof (pair_run input) as Hrun. rewrite Hp in Hrun.
  rewrite (bind_known _ _ _ Hrun). cbv zeta.
  destruct (collected trace_kind_of
    (fun metric selected => trace_metric_step input (caseMap (paired_cases (pairing_of input))) metric selected.1 selected.2)
    (fun metric selected r => exists stratum, stratum_of input metric = Some stratum /\
        metric_exact input kind_trace_event_count (fun f => trace_events selected.1 selected.2 (snapshot_trace f))
          (metric_metricId metric) (stratum_fixtureIds stratum) r) (comparison_metrics (input_comparison input)) []) as (rs & Hrs & Hall).
  { intros metric [kind status] Hm _.
    destruct (trace_step input Hp metric kind status Hm) as (stratum & r & Hs & Hr & He). eauto. }
  exists rs. split; [|done]. rewrite app_nil_l in Hrs. rewrite <- Hrs. apply fold_result_ext. intros results metric.
  unfold trace_kind_of. by destruct (metric_kind metric).
Qed.

(** ** Safety counts over all pairs *)

Lemma countEvents_sum snapshot kind ids :
  (forall f, f ∈ evidence_fixtures snapshot -> fixture_contract f) ->
  (forall id, id ∈ ids -> is_Some (actual_of snapshot id)) -> Z.of_nat (length ids) <= 1000 ->
  countEvents ids (fixtureMap snapshot) kind = Ok (sum_by (count_at (safetyCount kind) snapshot) ids) /\
  0 <= sum_by (count_at (safetyCount kind) snapshot) ids <= 4000000.
Proof.
  intros Hf Hids Hl.
  assert (Hloop : forall total, 0 <= total -> total + 4000 * Z.of_nat (length ids) <= MAX_SAFE_INTEGER ->
    fold_result (fun total fixtureId =>
      match map_get (fixtureMap snapshot) fixtureId with
      | None => Throw TypeError
      | Some fixture => Ok (js_add total (safetyCount kind fixture))
      end) total ids = Ok (total + sum_by (count_at (safetyCount kind) snapshot) ids) /\
    0 <= sum_by (count_at (safetyCount kind) snapshot) ids <= 4000 * Z.of_nat (length ids)).
  { clear Hl. induction ids as [|id ids IH]; intros t H0 Ht; cbn [fold_result length] in *.
    - simpl. rewrite Z.add_0_r. split; [done|lia].
    - destruct (Hids id ltac:(by left)) as [f Hid].
      change (map_get (fixtureMap snapshot) id) with (actual_of snapshot id). rewrite Hid.
      destruct (actual_of_Some _ _ _ Hid) as [Hin _]. pose proof (safetyCount_bound kind f (Hf f Hin)) as Hb.
      change (sum_by (count_at (safetyCount kind) snapshot) (id :: ids)) with
        (count_at (safetyCount kind) snapshot id + sum_by (count_at (safetyCount kind) snapshot) ids).
      assert (Ec : count_at (safetyCount kind) snapshot id = safetyCount kind f) by (unfold count_at; by rewrite Hid).
      rewrite !Ec, js_add_counts by lia.
      change ((Ok (t + safetyCount kind f) : res Z) ≫= _) with
        (fold_result (fun total fixtureId =>
          match map_get (fixtureMap snapshot) fixtureId with
          | None => Throw TypeError
          | Some fixture => Ok (js_add total (safetyCount kind fixture))
          end) (t + safetyCount kind f) ids).
      destruct (IH ltac:(intros id' Hid'; apply Hids; by right) (t + safetyCount kind f)) as [-> Hs]; [lia|lia|].
      split; [f_equal; lia|lia]. }
  destruct (Hloop 0) as [E Hb]; [lia|unfold MAX_SAFE_INTEGER; lia|]. split; [exact E|lia].
Qed.

(** Safety counts are exact and never fail: for an input that can be
    paired the result is empty when no fixture is paired, and otherwise states
    for each of the three kinds, in order, the number of its events over all
    pairs on both sides and their exact difference. *)
Theorem safety_counts_exact input :
  pairable input = true ->
  let pairs := paired_ids input (compared_ids (input_comparison input)) in
  exists counts, deriveComparisonSafetyCounts input = Ok counts /\
    safetyCount_kind <$> counts = (if (length pairs =? 0)%nat then [] else safetyEventKinds) /\
    forall count, count ∈ counts ->
      let b := sum_by (count_at (safetyCount (safetyCount_kind count)) (input_baseline input)) pairs in
      let c := sum_by (count_at (safetyCount (safetyCount_kind count)) (input_candidate input)) pairs in
      safetyCount_counts count = {| delta_baseline := b; delta_candidate := c; delta_delta := c - b |}.
Proof.
  intros Hp. cbv zeta. unfold deriveComparisonSafetyCounts. pose proof (pair_run input) as Hrun. rewrite Hp in Hrun.
  rewrite (bind_known _ _ _ Hrun). cbv zeta.
  assert (Eids : case_fixtureId <$> List.filter is_paired (paired_cases (pairing_of input)) =
    paired_ids input (compared_ids (input_comparison input))).
  { cbn [paired_cases pairing_of]. unfold paired_ids. clear.
    induction (compared_ids (input_comparison input)) as [|id ids IH]; [done|]. csimpl.
    destruct (is_paired (case_at input id)); csimpl; by rewrite IH. }
  rewrite Eids. set (pairs := paired_ids input _).
  destruct (length pairs =? 0)%nat; [exists []; split_and!; [done|done|]; by intros ? ?%elem_of_nil|].
  destruct (pairable_fixtures input Hp) as [Hb Hc].
  assert (Hl : Z.of_nat (length pairs) <= 1000).
  { pose proof (compared_ids_length _ (pairable_definition input Hp)).
    pose proof (List.filter_length_le (fun id => is_paired (case_at input id)) (compared_ids (input_comparison input))).
    unfold pairs, paired_ids. lia. }
  assert (Hret : forall id, id ∈ pairs ->
    is_Some (actual_of (input_baseline input) id) /\ is_Some (actual_of (input_candidate input) id)).
  { intros id Hid. apply filter_elem in Hid as [_ Hpair]. by destruct (paired_retained input Hp id Hpair) as (? & ? & _). }
  set (count_of := fun kind => {| safetyCount_counts :=
    {| delta_baseline := sum_by (count_at (safetyCount kind) (input_baseline input)) pairs;
       delta_candidate := sum_by (count_at (safetyCount kind) (input_candidate input)) pairs;
       delta_delta := sum_by (count_at (safetyCount kind) (input_candidate input)) pairs -
         sum_by (count_at (safetyCount kind) (input_baseline input)) pairs |}; safetyCount_kind := kind |}).
  exists (count_of <$> safetyEventKinds). split_and!.
  - apply map_result_Forall2, Forall2_fmap_r, Forall_Forall2_diag, Forall_forall. intros kind _.
    destruct (countEvents_sum (input_baseline input) kind pairs Hb (fun id Hid => proj1 (Hret id Hid)) Hl) as [Eb Bb].
    destruct (countEvents_sum (input_candidate input) kind pairs Hc (fun id Hid => proj2 (Hret id Hid)) Hl) as [Ec Bc].
    rewrite (bind_known _ _ _ Eb), (bind_known _ _ _ Ec).
    rewrite js_sub_exact by (unfold MAX_SAFE_INTEGER; lia). apply parse_accepted.
    unfold ComparisonSafetyCountSchema, ComparisonCountDeltaSchema.
    unfold count_of. cbn [safetyCount_counts delta_baseline delta_candidate delta_delta].
    rewrite js_sub_exact by (unfold MAX_SAFE_INTEGER; lia).
    rewrite !(proj2 (safe_count_spec _)), Z.eqb_refl by (unfold MAX_SAFE_INTEGER; lia).
    rewrite (proj2 (isSafeInteger_spec _)) by (unfold MAX_SAFE_INTEGER; lia). done.
  - done.
  - intros count (kind & -> & _)%list_elem_of_fmap. done.
Qed.
End claims.
