(* ===== verification/Samples.v ===== *)
(** * Concrete jobs

    One plan, its definitions, and an interleaving of two workers on one job:
    the concrete inputs on which the properties are instantiated.  Everything
    here evaluates. *)

From S2P Require Import Prelude Errors Primitives Identity ExactArithmetic ReplayPlan ReplayJob.
From S2P Require Import ReplayJobState ReplayJobStateProofs ReplayRetry ReplayAccounting.
From S2P Require Import ReplayBudget ReplayJobSnapshot ReplayJobOutbox MemoryReplayJobRepository.
From S2P Require Import MemoryReplayJobProofs ReplayRepositorySystem ReplayJobControl.
From stdpp Require Import gmap relations.
From Stdlib Require Import Ascii.
#[local] Open Scope Z_scope.

Definition sha (c : ascii) : string := String.string_of_list_ascii (replicate 64 c).

(** ** A plan *)

Definition sample_scope : EvidenceScope := {|
  environmentId := "env_prod"; projectId := "proj_api"; tenantId := "tenant_one"
|}.

Definition other_scope : EvidenceScope := {|
  environmentId := "env_prod"; projectId := "proj_api"; tenantId := "tenant_two"
|}.

Definition sample_protocol : WorkerProtocolReference := {|
  protocol_name := "proofstack.worker"; protocol_version := "1.0.0"
|}.

Definition sample_target : TargetReleaseReference := {|
  target_definitionSha256 := sha "a";
  target_targetAdapter := {| adapter_name := "node-process"; adapter_protocolVersion := "1";
                             adapter_version := "2.1.0" |};
  target_targetId := "target_api";
  target_targetReleaseId := "release_7";
  target_workerProtocol := sample_protocol
|}.

Definition sample_invocation : RecordedBoundaryReplayInvocationDefinition := {|
  invocation_fixture := {| fixture_definitionSha256 := sha "b"; fixture_fixtureId := "fixture_one";
                           fixture_fixtureVersionId := "fixture_one_v1" |};
  invocation_invocationId := "invocation_one";
  invocation_runtime := {| profile_clock_instant := 1000; profile_locale := "en-GB";
                           profile_random_seedHex := sha "0"; profile_timeZone := "Europe/London" |};
  invocation_targetAdapter := {| invocation_adapter_name := "node-process";
                                 invocation_adapter_version := "2.1.0" |}
|}.

Definition every {T} (value : T) : PerDimension T := mapDimensions (fun _ => value).

Definition sample_budget : ReplayBudget := every {|
  budget_limit := 1000000; budget_measurement := measured
|}.

Definition sample_policy : ReplayRetryPolicy := {|
  policy_automatic := true;
  policy_backoff := backoff_exponential 100 1000 2;
  policy_idempotencyRequirement := no_external_effect;
  policy_maxAttempts := 3;
  policy_perAttemptTimeoutMilliseconds := 60000;
  policy_retryableErrors := [retry_target_process_interrupted; retry_target_temporary_failure];
  policy_totalDeadlineMilliseconds := 600000
|}.

Definition sample_runtime : ReplayRuntimeProfileReference := {|
  runtime_definitionSha256 := sha "c"; runtime_family := "node"; runtime_id := "runtime_node";
  runtime_version := "22.0.0"
|}.

Definition sample_isolation : ReplayIsolationProfileReference := {|
  isolation_definitionSha256 := sha "d"; isolation_id := "isolation_default";
  isolation_kind := container; isolation_version := "1.0.0"
|}.

Definition sample_plan : ReplayPlan := {|
  plan_boundaries := [RecordedBoundary {|
    recorded_boundaryId := "boundary_search"; recorded_invocation := sample_invocation;
    recorded_invocationDefinitionSha256 := sha "e"; recorded_kind := tool |}];
  plan_budget := sample_budget;
  plan_createdAt := 500;
  plan_createdByPrincipalId := "user_alice";
  plan_dataset := {| dataset_datasetId := "dataset_one"; dataset_datasetVersionId := "dataset_one_v1";
                     dataset_definitionSha256 := sha "f" |};
  plan_definitionSha256 := sha "1";
  plan_isolationProfile := sample_isolation;
  plan_planId := "plan_nightly";
  plan_planVersionId := "plan_nightly_v1";
  plan_retryPolicy := sample_policy;
  plan_runtimeProfile := sample_runtime;
  plan_scope := sample_scope;
  plan_targetRelease := sample_target;
  plan_workerProtocol := sample_protocol
|}.

Example sample_plan_valid : ReplayPlanSchema sample_plan = true.
Proof. vm_compute. reflexivity. Qed.

Definition sample_reference : ReplayPlanJobReference := {|
  ref_definitionSha256 := sha "1"; ref_planId := "plan_nightly"; ref_planVersionId := "plan_nightly_v1"
|}.

(** A repository that holds this plan and its release, in its scope. *)
#[export] Instance sample_definitions : ReplayDefinitionRepository := {|
  findReplayPlan := fun scope id =>
    if sameScope scope sample_scope && (id === "plan_nightly_v1")%string then Some sample_plan else None;
  findTargetRelease := fun scope id =>
    if sameScope scope sample_scope && (id === "release_7")%string then Some {|
      release_definitionSha256 := sha "a"; release_scope := sample_scope;
      release_targetAdapter := target_targetAdapter sample_target; release_targetId := "target_api";
      release_targetReleaseId := "release_7"; release_workerProtocol := sample_protocol |}
    else None
|}.

(** ** Commands *)

Definition create_command : CreateReplayJobCommand := {|
  createc_createdByPrincipalId := "user_alice"; createc_jobId := "job_one";
  createc_plan := sample_reference; createc_scope := sample_scope
|}.

Definition claim_command (attempt lease worker : string) : ClaimDurableReplayJobCommand := {|
  claimc_attemptId := attempt; claimc_jobId := "job_one"; claimc_leaseDurationMilliseconds := 5000;
  claimc_leaseId := lease; claimc_scope := sample_scope; claimc_workerBuildSha256 := sha "2";
  claimc_workerId := worker; claimc_workerProtocol := sample_protocol
|}.

(** The fences of the two workers: the second claims after the first's lease
    has expired. *)
Definition first_fence : ReplayWorkerMutationFence := {|
  fence_attemptId := "attempt_one"; fence_fencingToken := 1; fence_jobId := "job_one";
  fence_leaseId := "lease_one"; fence_recoveryEpoch := 0; fence_workerId := "worker_one"
|}.

Definition second_fence : ReplayWorkerMutationFence := {|
  fence_attemptId := "attempt_two"; fence_fencingToken := 2; fence_jobId := "job_one";
  fence_leaseId := "lease_two"; fence_recoveryEpoch := 0; fence_workerId := "worker_two"
|}.

Definition heartbeat_command (fence : ReplayWorkerMutationFence) : HeartbeatDurableReplayJobCommand := {|
  heartbeatc_leaseDurationMilliseconds := 4000; heartbeatc_scope := sample_scope;
  heartbeatc_workerFence := fence
|}.

Definition reserve_command (fence : ReplayWorkerMutationFence) : ReserveDurableReplayBudgetCommand := {|
  reservec_requested := every 100; reservec_reservationId := "reservation_one";
  reservec_scope := sample_scope; reservec_work := boundary_call "boundary_search" tool;
  reservec_workerFence := fence
|}.

(** Every dimension is measured but one, whose usage the provider did not report. *)
Definition sample_usage : ReplayUsageMeasurements := {|
  at_concurrentInteractions := usage_observed 1 usage_measured;
  at_elapsedMilliseconds := usage_observed 40 usage_measured;
  at_emittedArtifactBytes := usage_observed 0 usage_measured;
  at_inputTokens := usage_observed 140 usage_measured;
  at_jobAttempts := usage_observed 1 usage_measured;
  at_modelRequests := usage_observed 0 usage_measured;
  at_outputTokens := usage_observed 20 usage_measured;
  at_providerCostMicrounits := usage_unavailable provider_did_not_report;
  at_retrievedBytes := usage_observed 100 usage_measured;
  at_toolCalls := usage_observed 1 usage_measured
|}.

Definition reconcile_command (fence : ReplayWorkerMutationFence) : ReconcileDurableReplayBudgetCommand := {|
  reconcilec_reconciliationId := "reconciliation_one"; reconcilec_reservationId := "reservation_one";
  reconcilec_scope := sample_scope; reconcilec_usage := sample_usage; reconcilec_workerFence := fence
|}.

Definition cancel_command : RequestDurableReplayCancellationCommand := {|
  cancelc_input := {| request_cancellationId := "cancellation_one";
                      request_reason := text_of "No longer needed";
                      request_reasonCode := operator_request |};
  cancelc_jobId := "job_one"; cancelc_requestedByPrincipalId := "user_alice";
  cancelc_scope := sample_scope
|}.

Definition acknowledge_command (id : string) (fence : ReplayWorkerMutationFence) :
    AcknowledgeDurableReplayCancellationCommand := {|
  ackc_acknowledgementId := id; ackc_action := stop_requested; ackc_scope := sample_scope;
  ackc_workerFence := fence
|}.

Definition complete_command (fence : ReplayWorkerMutationFence) : CompleteDurableReplayJobCommand := {|
  completec_code := cancellation_committed;
  completec_error := Some {|
    error_code := error_cancelled;
    error_detailsSha256 := None;
    error_effect := {| effectCertainty := no_effect; effectRetrySafety := None |};
    error_message := text_of "Stopped on request" |};
  completec_result := None; completec_scope := sample_scope; completec_status := cancelled;
  completec_workerFence := fence
|}.

(** ** An interleaving

    Both workers look the plan up before either claims.  The first claims,
    reserves and reconciles, and loses its lease at 7000; the second claims at
    8000, and stops when the job is cancelled. *)

Definition look (request : Request) : Event := EventLookup sample_definitions request.
Definition call_now (request : Request) (now : timestamp) : list Event :=
  [look request; EventCommit 0 now].

Definition claimed_events : list Event :=
  call_now (CreateRequest create_command) 1000 ++
  [look (ClaimRequest (claim_command "attempt_one" "lease_one" "worker_one"));
   look (ClaimRequest (claim_command "attempt_two" "lease_two" "worker_two"));
   EventCommit 0 2000].

(** The second worker's claim is still pending. *)
Definition pending_events : list Event :=
  claimed_events ++
  [look (HeartbeatRequest (heartbeat_command first_fence)); EventCommit 1 3000;
   look (ReserveRequest (reserve_command first_fence)); EventCommit 1 3100;
   look (ReconcileRequest (reconcile_command first_fence)); EventCommit 1 3200].

Definition superseded_events : list Event := pending_events ++ [EventCommit 0 8000].

Definition cancelled_events : list Event :=
  superseded_events ++
  call_now (CancelRequest cancel_command) 8500 ++
  call_now (AcknowledgeRequest (acknowledge_command "ack_one" second_fence)) 8600.

Definition ended_events : list Event :=
  cancelled_events ++ call_now (CompleteRequest (complete_command second_fence)) 9000.

Definition system_after (events : list Event) : System :=
  default (initial 0) (system_run (initial 0) events).

Definition job_after (events : list Event) : option StoredReplayJob :=
  find_stored (sys_memory (system_after events)) "tenant_one" "job_one".

Definition runs (events : list Event) : bool := defined (system_run (initial 0) events).

Lemma system_after_reachable events : runs events = true -> reachable (system_after events).
Proof.
  intros Hr. exists 0. apply (system_run_steps events). unfold system_after, runs in *.
  by destruct (system_run _ _).
Qed.

Lemma memory_after_valid events : runs events = true ->
  memory_valid (sys_clock (system_after events)) (sys_memory (system_after events)).
Proof. intros Hr. by apply reachable_valid, system_after_reachable. Qed.

Lemma system_after_more events more : runs (events ++ more) = true ->
  rtc system_step (system_after events) (system_after (events ++ more)).
Proof.
  unfold runs, system_after. intros Hr.
  assert (Happ : forall l s, system_run s (l ++ more) = s' ← system_run s l; system_run s' more).
  { induction l as [|e l IH]; intros s; [done|]. simpl. unfold mbind, option_bind.
    destruct (system_exec s e); [apply IH|done]. }
  rewrite Happ in *. destruct (system_run _ events) as [s|]; [|done]. simpl in *.
  destruct (system_run s more) as [s'|] eqn:Hm; [|done]. by apply (system_run_steps more).
Qed.

Example ended_runs : runs ended_events = true.
Proof. vm_compute. reflexivity. Qed.

Example ended_status :
  (fun x => (job_status (stored_job x), length (stored_attempts x))) <$> job_after ended_events
  = Some (ended cancelled, 2%nat).
Proof. vm_compute. reflexivity. Qed.
