(* ===== verification/Witnesses.v ===== *)
(** * The properties at concrete inputs

    For each property with hypotheses, an instance whose hypotheses hold, on the
    jobs of [Samples]; and, at the end, the traces that show what the in-memory
    repository and its contract disagree on. *)

From S2P Require Import Prelude Errors Regex BigInts Primitives Identity ReviewerMatching.
From S2P Require Import ReviewerAssignment ReviewerMatchingProofs ExactArithmetic.
From S2P Require Import ExactArithmeticProofs PolicyExactArithmetic ReplayPlan ReplayJob.
From S2P Require Import ReplayJobState ReplayJobStateProofs ReplayRetry ReplayAccounting.
From S2P Require Import ReplayBudget ReplayJobSnapshot ReplayJobSnapshotProofs ReplayJobOutbox.
From S2P Require Import MemoryReplayJobRepository MemoryReplayJobProofs ReplayRepositorySystem.
From S2P Require Import ReplayIdempotence ReplayJobControl Samples.
From stdpp Require Import gmap relations sorting.
From Stdlib Require Import Ascii QArith.
#[local] Open Scope string_scope.
#[local] Open Scope list_scope.
#[local] Open Scope Z_scope.

(** The evaluation of a closed computation. *)
Ltac evaluate := vm_compute; reflexivity.
(** A stored job of an interleaving of [Samples]. *)
Ltac stored x Hx events :=
  destruct (job_after events) as [x|] eqn:Hx; [|vm_compute in Hx; discriminate Hx].

(** ** The repository *)

Lemma reachable_snapshots_valid_witness :
  exists x, job_after ended_events = Some x /\ ReplayJobSnapshotSchema (snapshot x) = true.
Proof.
  stored x Hx ended_events. exists x. split; [done|].
  apply (reachable_snapshots_valid (system_after ended_events) "tenant_one" "job_one" x); [|exact Hx].
  apply system_after_reachable. evaluate.
Defined.

Lemma pending_plans_current_witness :
  exists x, job_after pending_events = Some x /\ exactPlanReference (stored_job x) sample_plan = true.
Proof.
  destruct (pending_plans_current (system_after pending_events)
    (ClaimCall (claim_command "attempt_two" "lease_two" "worker_two") sample_plan) sample_plan)
    as (x & Hx & _ & He).
  - apply system_after_reachable. evaluate.
  - assert (H : sys_pending (system_after pending_events) =
      [ClaimCall (claim_command "attempt_two" "lease_two" "worker_two") sample_plan]) by evaluate.
    rewrite H. constructor.
  - reflexivity.
  - exists x. split; [exact Hx|exact He].
Defined.

Lemma publication_exact_witness :
  exists l, fst (publishedIntents "tenant_one" (sys_memory (system_after ended_events))) = Ok l /\
    NoDup l.
Proof.
  destruct (publication_exact (system_after ended_events) "tenant_one") as (l & Hl & _ & Hn & _).
  - apply system_after_reachable. evaluate.
  - exists l. split; [by rewrite Hl|done].
Defined.

Lemma history_append_only_witness :
  exists x x', job_after pending_events = Some x /\ job_after ended_events = Some x' /\ extends x x'.
Proof.
  stored x Hx pending_events. exists x.
  destruct (history_append_only (system_after pending_events) (system_after ended_events)
    "tenant_one" "job_one" x) as (x' & Hx' & He).
  - apply system_after_reachable. evaluate.
  - unfold ended_events, cancelled_events, superseded_events. rewrite <- !app_assoc.
    apply system_after_more. evaluate.
  - exact Hx.
  - exists x'. split; [done|]. split; [exact Hx'|exact He].
Defined.

(** The first worker, superseded, still tries to reserve. *)
Definition late_call : Call := ReserveCall (reserve_command first_fence) sample_plan.

Lemma failed_call_changes_nothing_witness :
  let st := sys_memory (system_after superseded_events) in
  fst (run late_call 8100 st) = Throw (DurableReplayStateError stale_fence) /\
  jobs (snd (run late_call 8100 st)) = jobs st.
Proof.
  intros st. assert (He : fst (run late_call 8100 st) = Throw (DurableReplayStateError stale_fence))
    by evaluate. split; [exact He|].
  apply (failed_call_changes_nothing late_call 8100 st (DurableReplayStateError stale_fence)).
  rewrite <- He. apply surjective_pairing.
Defined.

Lemma call_isolation_witness :
  let s := system_after cancelled_events in
  let st' := snd (run (CompleteCall (complete_command second_fence)) 9000 (sys_memory s)) in
  find_stored st' "tenant_two" "job_one" = find_stored (sys_memory s) "tenant_two" "job_one".
Proof.
  intros s st'.
  apply (call_isolation (sys_clock s) (sys_memory s) (CompleteCall (complete_command second_fence)) 9000
    (fst (run (CompleteCall (complete_command second_fence)) 9000 (sys_memory s)))).
  - apply memory_after_valid. evaluate.
  - intros H. vm_compute in H. discriminate H.
  - apply admits_spec. evaluate.
  - apply surjective_pairing.
  - discriminate.
Defined.

Lemma worker_call_needs_lease_witness :
  let st := sys_memory (system_after superseded_events) in
  exists s, find_stored st "tenant_one" "job_one" = Some s /\ holds_lease (stored_job s) second_fence 8100.
Proof.
  intros st.
  destruct (run (HeartbeatCall (heartbeat_command second_fence)) 8100 st) as [[snap|e] st'] eqn:Hrun.
  2: { apply (f_equal fst) in Hrun. vm_compute in Hrun. discriminate Hrun. }
  apply (worker_call_needs_lease (HeartbeatCall (heartbeat_command second_fence)) second_fence 8100 st snap st');
    [reflexivity|exact Hrun].
Defined.

Lemma superseded_worker_fenced_witness :
  exists e st', run late_call 9500 (sys_memory (system_after ended_events)) = (Throw e, st') /\
    jobs st' = jobs (sys_memory (system_after ended_events)).
Proof.
  stored x Hx superseded_events.
  apply (superseded_worker_fenced (system_after superseded_events) (system_after ended_events) x
    late_call first_fence 9500).
  - apply system_after_reachable. evaluate.
  - exact Hx.
  - reflexivity.
  - assert (Ht : option_map (fun x => 1 <? job_lastFencingToken (stored_job x)) (job_after superseded_events)
      = Some true) by evaluate.
    rewrite Hx in Ht. injection Ht as Ht. by apply Z.ltb_lt.
  - unfold ended_events, cancelled_events. rewrite <- !app_assoc. apply system_after_more. evaluate.
Defined.

Definition repeated_call : Call := ReserveCall {|
  reservec_requested := every 50; reservec_reservationId := "reservation_two";
  reservec_scope := sample_scope; reservec_work := attempt_start;
  reservec_workerFence := second_fence |} sample_plan.


(** ** The job state machine *)

Definition queued_job : ReplayJob :=
  match job_after (call_now (CreateRequest create_command) 1000) with
  | Some x => stored_job x
  | None => {| job_createdAt := 0; job_createdByPrincipalId := ""; job_currentLease := None;
               job_jobId := ""; job_lastFencingToken := 0; job_latestAttemptSequence := None;
               job_plan := sample_reference; job_recoveryEpoch := 0; job_scope := sample_scope;
               job_startedAt := None; job_stateVersion := 1; job_status := queued;
               job_terminal := None |}
  end.

Definition claim_options : ClaimReplayJobOptions := {|
  claim_attemptId := "attempt_one"; claim_currentAttempt := None; claim_expiredEffect := None;
  claim_isolationProfile := sample_isolation; claim_leaseDurationMilliseconds := 5000;
  claim_leaseId := "lease_one"; claim_maxAttempts := 3; claim_now := 2000;
  claim_runtimeProfile := sample_runtime; claim_targetRelease := sample_target;
  claim_workerBuildSha256 := sha "2"%char; claim_workerId := "worker_one";
  claim_workerProtocol := sample_protocol
|}.

Lemma admissible_claim_granted_witness :
  exists r, claimReplayJob queued_job claim_options = Ok r /\ job_status (claimed_job r) = running.
Proof.
  destruct (admissible_claim_granted queued_job claim_options) as (r & Hr & _ & Hs & _).
  - constructor; lazymatch goal with
      | |- _ \/ _ => left; split; [evaluate|split; [vm_compute; congruence|evaluate]]
      | |- _ /\ _ => vm_compute; split; congruence
      | |- _ <= _ => vm_compute; congruence
      | |- _ => evaluate
      end.
  - exists r. split; [exact Hr|exact Hs].
Defined.

(** The job's claim, as a trace of one fence. *)
Lemma claimed_trace : exists job', job_trace queued_job [first_fence] job'.
Proof.
  destruct (claimReplayJob queued_job claim_options) as [r|e] eqn:Hr.
  2: { vm_compute in Hr. discriminate Hr. }
  exists (claimed_job r). assert (Hf : first_fence = lease_mutationFence (claimed_lease r)).
  { assert (Hc : match claimReplayJob queued_job claim_options with
      | Ok r => Some (lease_mutationFence (claimed_lease r)) | Throw _ => None end = Some first_fence)
      by evaluate. rewrite Hr in Hc. by injection Hc as ->. }
  rewrite Hf. eapply trace_fence; [by apply (step_claim _ claim_options)|apply trace_nil].
Qed.

Lemma accepted_fences_ordered_witness :
  StronglySorted (fun f g => g = f \/ fence_fencingToken f < fence_fencingToken g) [first_fence].
Proof.
  destruct claimed_trace as [job' Ht]. apply (accepted_fences_ordered queued_job [first_fence] job' Ht).
Defined.

Definition ended_job : ReplayJob := default queued_job (stored_job <$> job_after ended_events).

Lemma terminal_job_final_witness : job_trace ended_job [] ended_job /\ [] = @nil ReplayWorkerMutationFence.
Proof.
  split; [apply trace_nil|].
  apply (terminal_job_final ended_job [] ended_job); [apply trace_nil|evaluate].
Defined.

(** ** Retries and budgets *)

Lemma exponential_backoff_closed_form_witness :
  retryDelay sample_policy 2 = 400 /\ retryDelay sample_policy 2 <= retryDelay sample_policy 3.
Proof.
  destruct (exponential_backoff_closed_form sample_policy 100 1000 2 2) as (H & (_ & Hm) & _);
    [evaluate|reflexivity|lia|]. split; [exact H|exact Hm].
Defined.

Definition sample_ledger : list ReplayBudgetLedgerEntry :=
  default [] (stored_budgetLedger <$> job_after superseded_events).

Definition sample_reservation : option ReplayBudgetReservation := reservations_of sample_ledger !! 0%nat.

Definition reconcile_options : ReconcileReplayBudgetOptions := {|
  reconcile_ledgerSequence := 1; reconcile_reconciledAt := 3200;
  reconcile_reconciliationId := "reconciliation_one"; reconcile_usage := sample_usage
|}.

Lemma reconciliation_balances_witness :
  exists r c committed, sample_reservation = Some r /\ reconcileReplayBudget r reconcile_options = Ok c /\
    applyReplayBudgetReconciliation (every 100) r c = Ok committed /\
    at_inputTokens committed = 140 /\ at_providerCostMicrounits committed = 100.
Proof.
  destruct sample_reservation as [r|] eqn:Hr; [|vm_compute in Hr; discriminate Hr].
  destruct (reconcileReplayBudget r reconcile_options) as [c|e] eqn:Hc.
  2: { vm_compute in Hr. injection Hr as <-. vm_compute in Hc. discriminate Hc. }
  destruct (applyReplayBudgetReconciliation (every 100) r c) as [committed|e] eqn:Ha.
  2: { vm_compute in Hr. injection Hr as <-. vm_compute in Hc. injection Hc as <-.
       vm_compute in Ha. discriminate Ha. }
  destruct (reconciliation_balances r reconcile_options c (every 100) committed Hc Ha) as [_ Hd].
  exists r, c, committed. split; [done|]. split; [done|]. split; [done|].
  vm_compute in Hr. injection Hr as <-.
  split; [exact (proj2 (Hd inputTokens))|exact (proj2 (Hd providerCostMicrounits))].
Defined.

Lemma summary_committed_total_witness :
  exists s, summarizeReplayBudgetLedger sample_ledger = Ok s /\ at_inputTokens (summary_committed s) = 140.
Proof.
  destruct (summarizeReplayBudgetLedger sample_ledger) as [s|e] eqn:Hs; [|vm_compute in Hs; discriminate Hs].
  destruct (summary_committed_total sample_ledger s Hs) as [Hc _]. exists s. split; [done|].
  rewrite (Hc inputTokens : at_inputTokens (summary_committed s) = _). evaluate.
Defined.

Lemma committed_within_limits_witness :
  exists s, summarizeReplayBudgetLedger sample_ledger = Ok s /\
    at_inputTokens (summary_committed s) <= 1000000 + overrun_total sample_ledger inputTokens.
Proof.
  destruct (summarizeReplayBudgetLedger sample_ledger) as [s|e] eqn:Hs; [|vm_compute in Hs; discriminate Hs].
  exists s. split; [done|].
  apply (committed_within_limits sample_ledger s (fun _ => 1000000) inputTokens); [exact Hs| |lia].
  intros r d Hr. assert (Hall : Forall (fun r => forall d, rd_limit (on (reservation_dimensions r) d) = 1000000)
    (reservations_of sample_ledger)).
  { destruct sample_ledger as [|e l] eqn:Hl; vm_compute in Hl; [discriminate Hl|]. rewrite <- Hl.
    vm_compute. constructor; [intros []; reflexivity|constructor]. }
  rewrite Forall_forall in Hall. by apply Hall.
Defined.

Lemma ledger_validators_agree_witness :
  exists x, job_after superseded_events = Some x /\
    (validateBudgetLedger (stored_job x) (stored_attempts x) (stored_budgetLedger x) = true <->
     is_ok (summarizeReplayBudgetLedger (stored_budgetLedger x)) = true /\
     Forall (entry_known (stored_job x) (stored_attempts x)) (stored_budgetLedger x) /\
     NoDup (reconciliation_ids (stored_budgetLedger x))).
Proof.
  stored x Hx superseded_events. exists x. split; [done|].
  apply (ledger_validators_agree (stored_job x) (stored_attempts x) (stored_budgetLedger x)).
  assert (Hv : forallb ReplayBudgetLedgerEntrySchema sample_ledger = true) by evaluate.
  unfold sample_ledger in Hv. rewrite Hx in Hv. by apply forallb_Forall.
Defined.

(** ** Exact arithmetic

    On ASCII units any normalization that keeps ASCII is the identity. *)

#[local] Instance ascii_normalization : UnicodeNormalization := {|
  normalizeNFC := fun t => t; normalizeNFC_ascii := fun t _ => eq_refl
|}.

Definition milliseconds : text := text_of "ms".
Definition decimal_sample (s : string) : ComparisonExactValue := decimal_value milliseconds s.
Definition third (s : string) : ComparisonExactValue := rational_value "3" s milliseconds.

Definition mean : ComparisonExactAggregation := {|
  basisPoints := None; method := "mean"; methodVersion := "1.0.0"
|}.

Definition ninety_fifth : ComparisonExactAggregation := {|
  basisPoints := Some 9500; method := "nearest_rank_quantile"; methodVersion := "1.0.0"
|}.

Definition latencies : list ComparisonExactValue :=
  [decimal_sample "12.5"; third "1"; decimal_sample "0.25"; rational_value "2" "7" milliseconds].

(** Seven halves as a decimal, and the sample in another order. *)
Definition latencies_respelled : list ComparisonExactValue :=
  [decimal_sample "12.5"; third "1"; decimal_sample "0.25"; decimal_sample "3.5"].
Definition latencies_reordered : list ComparisonExactValue :=
  [decimal_sample "3.5"; decimal_sample "12.5"; third "1"; decimal_sample "0.25"].

Lemma aggregate_canonical_witness :
  aggregateComparisonExactValues latencies_reordered mean =
  Ok (rational_value "48" "199" milliseconds).
Proof.
  apply (aggregate_canonical latencies latencies_respelled latencies_reordered mean).
  - repeat constructor; evaluate.
  - change (latencies_reordered ≡ₚ [decimal_sample "12.5"; third "1"; decimal_sample "0.25"; decimal_sample "3.5"])
      || symmetry. apply (Permutation_app_comm [decimal_sample "3.5"]).
  - evaluate.
Defined.

Lemma aggregate_exact_witness :
  exists qs s, Forall2 Qeq qs (exact_Q <$> latencies) /\ s ≡ₚ qs /\
    aggregate_of mean s (exact_Q (rational_value "48" "199" milliseconds)).
Proof.
  destruct (aggregate_exact latencies mean (rational_value "48" "199" milliseconds))
    as (unit & qs & s & _ & Hqs & Hp & _ & Ha & _); [evaluate|].
  exists qs, s. split; [exact Hqs|split; [exact Hp|exact Ha]].
Defined.

Lemma selection_total_witness :
  exists r v, aggregateComparisonExactValues latencies ninety_fifth = Ok r /\ v ∈ latencies /\
    (exact_Q r == exact_Q v)%Q.
Proof.
  apply (selection_total latencies ninety_fifth milliseconds).
  - exists tt. evaluate.
  - constructor; [discriminate|vm_compute; congruence|]. repeat constructor; evaluate.
  - left. right. right. left.
Defined.

Lemma subtract_exact_witness :
  (exact_Q (rational_value "12" "-73" milliseconds) ==
   exact_Q (third "1") - exact_Q (rational_value "12" "77" milliseconds))%Q.
Proof.
  apply (subtract_exact (rational_value "12" "77" milliseconds) (third "1")). evaluate.
Defined.

(** ** Access *)

Definition staging_scope : ResourceScope := restricted_scope
  [{| environmentIds := Some ["env_prod"; "env_test"]; scope_projectId := "proj_api" |};
   {| environmentIds := None; scope_projectId := "proj_web" |}].

Definition narrow_scope : ResourceScope := restricted_scope
  [{| environmentIds := Some ["env_test"]; scope_projectId := "proj_api" |}].

Lemma environment_access_exact_witness :
  requireEnvironmentAccess staging_scope "proj_api" "env_dev" <> Ok tt /\
  ~ grants staging_scope "proj_api" "env_dev".
Proof.
  assert (H : requireEnvironmentAccess staging_scope "proj_api" "env_dev" <> Ok tt)
    by (vm_compute; discriminate).
  split; [exact H|]. intros Hg. apply H.
  apply (environment_access_exact staging_scope "proj_api" "env_dev"); [evaluate|exact Hg].
Defined.

Lemma delegation_exact_witness :
  canDelegateResourceScope staging_scope narrow_scope = true /\
  (canDelegateResourceScope staging_scope narrow_scope = true <->
   forall project environment, grants narrow_scope project environment ->
     grants staging_scope project environment).
Proof. split; [reflexivity|]. apply (delegation_exact staging_scope narrow_scope); evaluate. Defined.

(** ** The control plane *)

Definition any_instant (_ : string) : bool := true.

Definition sample_principal : PrincipalContext := {|
  authentication := {| authenticatedAt := "2025-01-01T00:00:00Z"; credentialId := Some "credential_one";
                       authentication_method := oidc |};
  capabilities := [replay_run; replay_read; replay_cancel];
  principalId := "user_alice"; principalType := user; requestId := "request_0001";
  resourceScope := staging_scope; roles := [Identity.member]; principal_tenantId := "tenant_one"
|}.

Definition sample_route : ControlRoute := {|
  route_environmentId := "env_prod"; route_jobId := "job_one"; route_principal := sample_principal;
  route_projectId := "proj_api"
|}.

Definition control_create : CreateDurableReplayJobCommand := {|
  create_route := sample_route;
  create_request := {| create_jobId := "job_one"; create_plan := sample_reference |}
|}.

Definition control_cancel : RequestReplayJobCancellationCommand := {|
  cancellation_route := sample_route; cancellation_input := cancelc_input cancel_command
|}.

Abbreviation control_at now := (memory_control sample_definitions now).

(** A call that evaluates to an answer. *)
Lemma ok_run {A S} (m : res A * S) : is_ok (fst m) = true -> exists a s, m = (Ok a, s).
Proof. destruct m as [[a|e] s]; [by exists a, s|done]. Qed.

Lemma create_sound_witness :
  exists result, fst (CreateDurableReplayJob_execute (H := control_at 1000) any_instant control_create
      emptyMemory) = Ok result /\ job_createdByPrincipalId (snapshot_job (result_snapshot result)) = "user_alice".
Proof.
  destruct (ok_run (CreateDurableReplayJob_execute (H := control_at 1000) any_instant control_create
    emptyMemory)) as (result & state' & Hr); [evaluate|].
  destruct (create_sound (H := control_at 1000) any_instant control_create emptyMemory result state' Hr)
    as (scope & _ & _ & _ & _ & _ & _ & Hby & _).
  exists result. split; [exact (f_equal fst Hr)|exact Hby].
Defined.

Lemma cancellation_sound_witness :
  exists result, fst (RequestDurableReplayCancellation_execute (H := control_at 8500) any_instant
      control_cancel (sys_memory (system_after superseded_events))) = Ok result /\
    job_jobId (snapshot_job (result_snapshot result)) = "job_one".
Proof.
  destruct (ok_run (RequestDurableReplayCancellation_execute (H := control_at 8500) any_instant
    control_cancel (sys_memory (system_after superseded_events)))) as (result & state' & Hr); [evaluate|].
  destruct (cancellation_sound (H := control_at 8500) any_instant control_cancel _ result state' Hr)
    as (scope & _ & _ & Hj & _).
  exists result. split; [exact (f_equal fst Hr)|exact Hj].
Defined.

Lemma read_sound_witness :
  exists s, fst (ReadReplayJob_execute (H := control_at 0) any_instant sample_route
      (sys_memory (system_after ended_events))) = Ok s /\ ReplayJobSnapshotSchema s = true.
Proof.
  destruct (ok_run (ReadReplayJob_execute (H := control_at 0) any_instant sample_route
    (sys_memory (system_after ended_events)))) as (s & state' & Hr); [evaluate|].
  destruct (read_sound (H := control_at 0) any_instant sample_route _ s state' Hr) as (scope & _ & Hv & _).
  exists s. split; [exact (f_equal fst Hr)|exact Hv].
Defined.

Lemma memory_keeps_contract_witness :
  not_contract_error (fst (CreateDurableReplayJob_execute (H := memory_control sample_definitions 9500)
    any_instant control_create (sys_memory (system_after ended_events)))).
Proof.
  destruct (memory_keeps_contract any_instant sample_definitions (sys_clock (system_after ended_events))
    (sys_memory (system_after ended_events)) 9500) as [Hcreate _].
  - apply memory_after_valid. evaluate.
  - vm_compute. congruence.
  - exact (Hcreate control_create).
Defined.

(** ** Where the in-memory repository is laxer than its contract

    Each call succeeds and stores a snapshot that [ReplayJobSnapshotSchema]
    rejects: the callers' obligations of [admissible] are not checked. *)

Definition stores_rejected (events : list Event) (call : Call) (now : timestamp) : Prop :=
  match fst (run call now (sys_memory (system_after events))) with
  | Ok snap => ReplayJobSnapshotSchema snap = false
  | Throw _ => False
  end.

(** [claimJob] compares new attempt identifiers with those of the job's
    attempts, but not lease identifiers: the expired lease's can be reused. *)
Lemma claim_reuses_lease_id :
  stores_rejected pending_events (ClaimCall (claim_command "attempt_two" "lease_one" "worker_two") sample_plan) 8000.
Proof. vm_compute. reflexivity. Qed.

(** [completeJob] commits a cancellation nobody requested. *)
Lemma complete_cancels_unrequested :
  stores_rejected claimed_events (CompleteCall (complete_command first_fence)) 4000.
Proof. vm_compute. reflexivity. Qed.

(** [acknowledgeCancellation] appends acknowledgements in the order of the
    calls, the contract wants them in the order of time and identifier. *)
Lemma acknowledgement_order_unchecked :
  stores_rejected cancelled_events (AcknowledgeCall (acknowledge_command "ack_aaa" second_fence)) 8600.
Proof. vm_compute. reflexivity. Qed.

(** * The properties of the core packages at concrete inputs

    For each property of the reviewer matching with hypotheses, an instance
    whose hypotheses hold. *)

(** ** Reviewer matching *)

Definition sample_reviewers : ReviewerGroupAssignmentInput := {|
  groupIds := ["security_team"; "release_team"; "legal_team"];
  reviewers := [
    {| reviewer_principalId := "user_bob"; reviewer_groupIds := ["release_team"; "security_team"];
       reviewer_human := true |};
    {| reviewer_principalId := "user_ann"; reviewer_groupIds := ["release_team"];
       reviewer_human := false |}];
  quorum := 2; humanGroupIds := ["security_team"]
|}.

Definition sample_graph : ReviewerGroupAssignmentInput :=
  match parse_graph sample_reviewers with Ok graph => graph | Throw _ => sample_reviewers end.

Lemma reviewer_matching_decides_witness :
  parse_graph sample_reviewers = Ok sample_graph /\
  exists answer, matchDistinctReviewerGroups sample_reviewers = Some (Ok answer) /\
    seating sample_reviewers (assignment_matched answer) /\
    (assignment_status answer = matched_status <->
     exists seats, seating sample_reviewers seats /\ approves sample_reviewers seats) /\
    forall seats, seating sample_reviewers seats ->
      (quorum sample_reviewers <= Z.of_nat (length seats))%Z ->
      (humanSeats seats <= humanSeats (assignment_matched answer))%Z.
Proof.
  assert (H : parse_graph sample_reviewers = Ok sample_graph) by (vm_compute; reflexivity).
  split; [exact H|]. exact (reviewer_matching_decides sample_reviewers sample_graph H).
Defined.

Definition reversed_reviewers : ReviewerGroupAssignmentInput := {|
  groupIds := rev (groupIds sample_reviewers);
  reviewers := rev (reviewers sample_reviewers);
  quorum := 2; humanGroupIds := ["security_team"]
|}.

Lemma matching_order_independent_witness :
  same_input sample_reviewers reversed_reviewers /\
  matchDistinctReviewerGroups sample_reviewers = matchDistinctReviewerGroups reversed_reviewers.
Proof.
  assert (H : same_input sample_reviewers reversed_reviewers).
  { split; [apply Permutation_rev|reflexivity|reflexivity|].
    exists (rev (reviewers sample_reviewers)). split; [apply Permutation_rev|].
    apply Forall_Forall2_diag, Forall_forall. intros r _. by split. }
  split; [exact H|]. exact (matching_order_independent _ _ H).
Defined.
