(* ===== verification/ComparisonWitnesses.v ===== *)
(** * A concrete comparison

    Two runs of one dataset of two fixtures; the candidate retains evidence of
    the first only.  The properties of pairing, verdict transitions and count
    metrics are instantiated on it. *)

From S2P Require Import Prelude Errors Primitives ExactArithmetic PolicyTime ReplayPlan ReplayJob.
From S2P Require Import OrderedMap ComparisonContracts ComparisonSnapshot ComparisonResults.
From S2P Require Import ComparisonPairing ComparisonPairingProofs ComparisonVerdicts.
From S2P Require Import ComparisonTransport ComparisonVerdictProofs ComparisonMetrics.
From S2P Require Import ComparisonMetricProofs Samples.
From Stdlib Require Import Ascii.
#[local] Open Scope Z_scope.

(** Text of the comparison is plain ASCII, which normalisation keeps. *)
#[local] Instance plain_normalization : UnicodeNormalization := {|
  normalizeNFC := fun t => t;
  normalizeNFC_ascii := fun _ _ => eq_refl
|}.

Definition compared_fixture (id : string) (digest : ascii) : RegressionFixtureVersionReference := {|
  fixtureRef_fixtureId := id; fixtureRef_fixtureVersionId := (id ++ "_v1")%string;
  fixtureRef_definitionSha256 := sha digest
|}.

Definition compared_replay (attempt job : string) : EvaluationReplayResultReference := {|
  replayRef_attemptId := attempt;
  replayRef_completedAt := {| wholeSeconds := 1000; fractionDigits := [0; 0; 0] |};
  replayRef_jobId := job;
  replayRef_plan := sample_reference;
  replayRef_result := {| artifactId := "artifact_result"; classification := internal;
                         mediaType := "application/json"; redactedAt := None;
                         sha256 := sha "9"; sizeBytes := 100 |};
  replayRef_targetRelease := sample_target
|}.

Definition compared_assessment (id : string) : AssessmentReference := {|
  assessmentRef_assessmentId := id; assessmentRef_definitionSha256 := sha "7"
|}.

Definition compared_criterion : CriterionReference := {|
  criterion_criterionId := "criterion_one";
  criterion_criterionSet := {| criterionSet_criterionSetId := "set_one";
    criterionSet_criterionSetVersionId := "set_one_v1"; criterionSet_definitionSha256 := sha "8" |}
|}.

Definition compared_subject (attempt assessment : string) : ComparisonSubject := {|
  subject_dataset := {| datasetRef_datasetId := "dataset_one"; datasetRef_datasetVersionId := "dataset_one_v1";
                        datasetRef_definitionSha256 := sha "f" |};
  subject_fixtures := [
    {| subject_assessments := [compared_assessment assessment]; subject_fixture := compared_fixture "fixture_a" "1";
       subject_modelAssuranceAssessments := []; subject_replay := compared_replay attempt "job_a" |};
    {| subject_assessments := []; subject_fixture := compared_fixture "fixture_b" "2";
       subject_modelAssuranceAssessments := []; subject_replay := compared_replay attempt "job_b" |}]
|}.

Definition compared_metric (id : string) (kind : ComparisonMetricKind) : ComparisonMetric := {|
  metric_label := text_of id; metric_metricId := id; metric_stratumId := "stratum_all"; metric_kind := kind
|}.

Definition compared_definition : ComparisonDefinition := {|
  comparison_baseline := compared_subject "attempt_before" "assessment_one";
  comparison_minimumPairedCoverageBasisPoints := 5000;
  comparison_candidate := compared_subject "attempt_after" "assessment_one";
  comparison_comparisonId := "comparison_one";
  comparison_comparisonVersionId := "comparison_one_v1";
  comparison_description := None;
  comparison_metrics := [
    compared_metric "metric_agent" (trace_event_count agent_run None);
    compared_metric "metric_guard" (safety_event_count safety_guardrail_check);
    compared_metric "metric_tools" (trace_event_count tool_execute (Some status_error))];
  comparison_name := text_of "release seven";
  comparison_predecessor := None;
  comparison_strata := [
    {| stratum_fixtureIds := ["fixture_a"; "fixture_b"]; stratum_label := text_of "all";
       stratum_stratumId := "stratum_all" |}];
  comparison_createdAt := 500;
  comparison_createdByPrincipalId := "user_alice";
  comparison_definitionSha256 := sha "3";
  comparison_scope := sample_scope
|}.

Definition compared_counts (fail pass : Z) : ComparisonVerdictCounts := {|
  counts_abstain := 0; counts_error := 0; counts_fail := fail; counts_notApplicable := 0;
  counts_pass := pass; counts_total := fail + pass
|}.

Definition compared_event (id : string) (kind : SafetyEventKind) : ComparisonSafetyEvent := {|
  safety_eventId := id; safety_kind := kind; safety_occurredAt := 900; safety_sourceId := "source_one";
  safety_sourceSha256 := sha "4"
|}.

(** [failed] tool calls after one agent run. *)
Definition compared_trace (failed : Z) : ComparisonTraceStructure := {|
  trace_eventCount := 1 + failed;
  trace_eventKinds := [{| kindCount_count := 1; kindCount_kind := agent_run |};
                       {| kindCount_count := failed; kindCount_kind := tool_execute |}];
  trace_eventKindStatuses := [
    {| jointCount_count := 1; jointCount_kind := agent_run; jointCount_status := status_ok |};
    {| jointCount_count := failed; jointCount_kind := tool_execute; jointCount_status := status_error |}];
  trace_eventStatuses := [{| statusCount_count := failed; statusCount_status := status_error |};
                          {| statusCount_count := 1; statusCount_status := status_ok |}]
|}.

Definition retained_fixture (fixture : RegressionFixtureVersionReference) (replay : EvaluationReplayResultReference)
    (assurance : list ComparisonAssuranceState) (outcomes : list ComparisonEvaluationOutcome)
    (events : list ComparisonSafetyEvent) (failed : Z) : ComparisonEvidenceFixtureSnapshot := {|
  snapshot_artifacts := []; snapshot_assurance := assurance; snapshot_evaluationOutcomes := outcomes;
  snapshot_fixture := fixture; snapshot_numericObservations := []; snapshot_replay := replay;
  snapshot_safetyEvents := events; snapshot_trace := compared_trace failed; snapshot_usage := []
|}.

Definition retained_first (attempt assessment : string) (counts : ComparisonVerdictCounts)
    (events : list ComparisonSafetyEvent) (failed : Z) : ComparisonEvidenceFixtureSnapshot :=
  retained_fixture (compared_fixture "fixture_a" "1") (compared_replay attempt "job_a")
    [assessment_state true [] (compared_assessment assessment)]
    [{| outcome_assessment := compared_assessment assessment; outcome_criterion := compared_criterion;
        outcome_counts := counts |}] events failed.

Definition compared_snapshot (role : ComparisonRole) (id : string)
    (fixtures : list ComparisonEvidenceFixtureSnapshot) : ComparisonEvidenceSnapshot := {|
  evidence_comparison := exactComparisonReference compared_definition;
  evidence_dataset := subject_dataset (compared_subject "attempt_before" "assessment_one");
  evidence_fixtures := fixtures;
  evidence_knownLimitations := [];
  evidence_omissions := [];
  evidence_role := role;
  evidence_snapshotId := id;
  evidence_sourceCutoff := 2000;
  evidence_createdAt := 2001;
  evidence_createdByPrincipalId := "user_alice";
  evidence_definitionSha256 := sha "5";
  evidence_scope := sample_scope
|}.

Definition compared_input : PairComparisonEvidenceInput := {|
  input_baseline := compared_snapshot baseline_role "snapshot_before" [
    retained_first "attempt_before" "assessment_one" (compared_counts 1 3)
      [compared_event "event_one" safety_guardrail_check; compared_event "event_two" safety_replay_intervention] 3;
    retained_fixture (compared_fixture "fixture_b" "2") (compared_replay "attempt_before" "job_b") [] []
      [compared_event "event_six" safety_guardrail_check] 2];
  input_candidate := compared_snapshot candidate_role "snapshot_after" [
    retained_first "attempt_after" "assessment_one" (compared_counts 0 4)
      [compared_event "event_five" safety_guardrail_check;
       compared_event "event_four" safety_guardrail_check] 1];
  input_comparison := compared_definition
|}.

Lemma compared_input_pairable : pairable compared_input = true.
Proof. vm_compute. reflexivity. Qed.

Definition compared_pairing : ComparisonPairingResult := {|
  paired_cases := [
    {| case_fixtureId := "fixture_a";
       case_state := paired_case (compared_fixture "fixture_a" "1") (compared_fixture "fixture_a" "1") |};
    {| case_fixtureId := "fixture_b";
       case_state := baseline_only_case (compared_fixture "fixture_b" "2") snapshot_omission |}];
  paired_comparability := {| comparability_reasons := [missing_source_evidence];
                             comparability_status := partially_comparable |};
  paired_summary := {| pairing_baselineOnlyCount := 1; pairing_candidateOnlyCount := 0;
                       pairing_invalidCount := 0; pairing_pairedCount := 1; pairing_requestedCount := 2 |}
|}.

Lemma compared_input_pairs : pairComparisonEvidence compared_input = Ok compared_pairing.
Proof. vm_compute. reflexivity. Qed.

Lemma pairing_cases_exact_witness :
  pairComparisonEvidence compared_input = Ok compared_pairing /\
  isStrictlySortedUnique (case_fixtureId <$> paired_cases compared_pairing) = true.
Proof.
  split; [exact compared_input_pairs|]. apply (pairing_cases_exact compared_input _ compared_input_pairs).
Defined.

Lemma comparability_exact_witness :
  pairComparisonEvidence compared_input = Ok compared_pairing /\
  (comparability_status (paired_comparability compared_pairing) = comparable <-> clear compared_input).
Proof.
  split; [exact compared_input_pairs|]. apply (comparability_exact compared_input _ compared_input_pairs).
Defined.

(** One failing of four outcomes becomes passing: one matrix. *)
Lemma aggregate_transitions_unique_witness :
  (addUniqueAggregateTransitions [] compared_criterion (compared_counts 1 3) (compared_counts 0 4)).2 = true /\
  unique_transport (countForVerdict (compared_counts 1 3)) (countForVerdict (compared_counts 0 4)).
Proof.
  split; [vm_compute; reflexivity|].
  apply (proj1 (aggregate_transitions_unique compared_criterion (compared_counts 1 3) (compared_counts 0 4)
    eq_refl eq_refl eq_refl)).
  vm_compute. reflexivity.
Defined.

Definition compared_derivation : ComparisonVerdictTransitionDerivation :=
  match deriveComparisonVerdictTransitions compared_input with
  | Ok d => d
  | Throw _ => {| derived_verdictMarginals := []; derived_verdictTransitions := [] |}
  end.

Lemma compared_input_derives : deriveComparisonVerdictTransitions compared_input = Ok compared_derivation.
Proof. vm_compute. reflexivity. Qed.

Example compared_transitions :
  (fun t => (transition_baseline t, transition_candidate t, transition_count t)) <$>
    derived_verdictTransitions compared_derivation =
  [(verdict_fail, verdict_pass, 1); (verdict_pass, verdict_pass, 3)].
Proof. vm_compute. reflexivity. Qed.

Lemma verdict_transitions_balance_witness :
  deriveComparisonVerdictTransitions compared_input = Ok compared_derivation /\
  NoDup (marginal_criterion <$> derived_verdictMarginals compared_derivation).
Proof.
  split; [exact compared_input_derives|].
  apply (verdict_transitions_balance compared_input compared_derivation compared_input_derives).
Defined.

Lemma safety_metrics_exact_witness :
  pairable compared_input = true /\
  exists results, deriveComparisonSafetyMetrics compared_input = Ok results.
Proof.
  split; [exact compared_input_pairable|].
  destruct (safety_metrics_exact compared_input compared_input_pairable) as (results & E & _). by exists results.
Defined.

Lemma trace_metrics_exact_witness :
  pairable compared_input = true /\
  exists results, deriveComparisonTraceMetrics compared_input = Ok results.
Proof.
  split; [exact compared_input_pairable|].
  destruct (trace_metrics_exact compared_input compared_input_pairable) as (results & E & _). by exists results.
Defined.

(** The numerators of both sides of each metric: one agent run on each side,
    and one failed tool call of the candidate for three of the baseline. *)
Definition metric_summary (result : ComparisonMetricResult) : string * option (string * string) :=
  (result_metricId result,
   match result_value result with
   | metric_available (rational_value _ before _) (rational_value _ after _) _ _ => Some (before, after)
   | _ => None
   end).

Definition summaries (results : res (list ComparisonMetricResult)) : list (string * option (string * string)) :=
  match results with Ok results => metric_summary <$> results | Throw _ => [] end.

Example compared_metrics :
  summaries (deriveComparisonTraceMetrics compared_input) =
    [("metric_agent", Some ("1", "1")); ("metric_tools", Some ("3", "1"))]%string /\
  summaries (deriveComparisonSafetyMetrics compared_input) = [("metric_guard", Some ("1", "2"))]%string.
Proof. vm_compute. auto. Qed.
