(* ===== verification/CanonicalJson.v ===== *)
(** * Canonical JSON

    [packages/contracts/src/evaluation-definition-encoding.ts]: the text and the
    bytes whose SHA-256 identifies an immutable definition.  A value is a tree,
    so it has no cycle; holes in arrays, prototypes and symbol keys, which the
    encoder refuses, have no representation. *)

From stdpp Require Import gmap sorting.
From S2P Require Import Prelude Errors BigInts Primitives PolicyTime ExactArithmetic.
#[local] Open Scope Z_scope.

(** ** Numbers

    A finite number other than zero is given by the shortest decimal that
    denotes it, which is what ECMAScript's [Number::toString] prints: its digits
    [d1 d2 ... dk] stand for [0.d1 d2 ... dk] times ten to the [point], as [n]
    does there.  A zero has no digits, and [-0] is a negative one. *)
Record JsNumber := {
  number_negative : bool;
  number_digits : list Z;
  number_point : Z;
}.

#[global] Instance JsNumber_eq_dec : EqDecision JsNumber.
Proof. solve_decision. Defined.

(** An integer in the range where every integer is a number of its own. *)
Definition integer_number (value : Z) : JsNumber :=
  let digits := digit_value <$> decimal_digits (Z.abs value) in
  let significant := strip_zeros digits in {|
    number_negative := value <? 0;
    number_digits := significant;
    number_point := if (length significant =? 0)%nat then 0 else Z.of_nat (length digits)
  |}.

Definition digits_text (digits : list Z) : text := (fun d => 48 + d) <$> digits.

Definition exponent_text (exponent : Z) : text :=
  [101; if exponent <? 0 then 45 else 43] ++ text_of (toString (Z.abs exponent)).

(** The four forms of [Number::toString], for digits [k] in number and [n]. *)
Definition unsigned_number_text (digits : list Z) (point : Z) : text :=
  let count := Z.of_nat (length digits) in
  if (count <=? point) && (point <=? 21) then
    digits_text (digits ++ replicate (Z.to_nat (point - count)) 0)
  else if (0 <? point) && (point <=? 21) then
    digits_text (take (Z.to_nat point) digits) ++ [46] ++ digits_text (drop (Z.to_nat point) digits)
  else if (-6 <? point) && (point <=? 0) then
    [48; 46] ++ digits_text (replicate (Z.to_nat (- point)) 0 ++ digits)
  else
    digits_text (take 1 digits) ++
    match drop 1 digits with [] => [] | rest => [46] ++ digits_text rest end ++ exponent_text (point - 1).

(** [JSON.stringify(value)] of a finite number. *)
Definition number_text (value : JsNumber) : text :=
  match number_digits value with
  | [] => [48]
  | digits => (if number_negative value then [45] else []) ++ unsigned_number_text digits (number_point value)
  end.

(** ** Values *)

(** The members of an object are in insertion order.  [JNonFinite] is [NaN] or
    an infinity and [JUndefined] a value JSON does not have. *)
Inductive Json : Type :=
| JNull
| JBool (value : bool)
| JNumber (value : JsNumber)
| JNonFinite
| JString (value : text)
| JArray (items : list Json)
| JObject (members : list (text * Json))
| JUndefined.

Definition MAX_CANONICAL_NESTING_DEPTH : nat := 64.
Definition MAX_CANONICAL_KEY_ENCODINGS : nat := 256.

(** ** Text *)

Definition is_surrogate (codePoint : Z) : bool := (55296 <=? codePoint) && (codePoint <=? 57343).

Definition containsUnpairedSurrogate (value : text) : bool := existsb is_surrogate (code_points value).

Definition hex_digit (value : Z) : Z := if value <? 10 then 48 + value else 87 + value.

(** One code unit inside a [JSON.stringify]ed string. *)
Definition stringify_unit (codeUnit : Z) : text :=
  if codeUnit =? 34 then [92; 34]
  else if codeUnit =? 92 then [92; 92]
  else if codeUnit =? 8 then [92; 98]
  else if codeUnit =? 9 then [92; 116]
  else if codeUnit =? 10 then [92; 110]
  else if codeUnit =? 12 then [92; 102]
  else if codeUnit =? 13 then [92; 114]
  else if codeUnit <? 32 then [92; 117; 48; 48; hex_digit (codeUnit / 16); hex_digit (codeUnit mod 16)]
  else [codeUnit].

(** [JSON.stringify(value)] of a string without unpaired surrogates. *)
Definition stringify_text (value : text) : text := [34] ++ concat (stringify_unit <$> value) ++ [34].

(** [items.join(",")] *)
Fixpoint join_comma (items : list text) : text :=
  match items with
  | [] => []
  | item :: rest => item ++ concat ((fun next => 44 :: next) <$> rest)
  end.

(** ** Objects *)

(** [Object.keys(value).sort()]: the order of code units. *)
Definition member_le {A} (left right : text * A) : Prop := text_lt right.1 left.1 = false.

#[global] Instance member_le_dec {A} : RelDecision (@member_le A).
Proof. intros l r. unfold member_le. apply _. Defined.

Definition sort_members {A} (members : list (text * A)) : list (text * A) :=
  merge_sort member_le members.

(** [keyEncodings]: the encoded keys this call has met, at most 256 of them. *)
Abbreviation KeyEncodings := (gmap text text).

Definition encodeKey (key : text) (keyEncodings : KeyEncodings) : res (text * KeyEncodings) :=
  match keyEncodings !! key with
  | Some encodedKey => Ok (encodedKey, keyEncodings)
  | None =>
      reject_when (containsUnpairedSurrogate key) TypeError ;;
      let encodedKey := stringify_text key in
      Ok (encodedKey,
          if (size keyEncodings <? MAX_CANONICAL_KEY_ENCODINGS)%nat
          then <[key := encodedKey]> keyEncodings else keyEncodings)
  end.

(** A loop that collects one text per item and threads the encoded keys. *)
Fixpoint each_encoded {A} (encode : A -> KeyEncodings -> res (text * KeyEncodings))
    (items : list A) (keyEncodings : KeyEncodings) : res (list text * KeyEncodings) :=
  match items with
  | [] => Ok ([], keyEncodings)
  | item :: rest =>
      '(encoded, keyEncodings) ← encode item keyEncodings;
      '(others, keyEncodings) ← each_encoded encode rest keyEncodings;
      Ok (encoded :: others, keyEncodings)
  end.

(** ** Serialization *)

(** [levels] is [MAX_CANONICAL_NESTING_DEPTH + 1 - depth]. *)
Fixpoint canonicalJson (levels : nat) (value : Json) (keyEncodings : KeyEncodings) :
    res (text * KeyEncodings) :=
  match levels with
  | O => Throw RangeError
  | S levels =>
      match value with
      | JNull => Ok (text_of "null", keyEncodings)
      | JBool value => Ok (text_of (if value then "true" else "false"), keyEncodings)
      | JNumber value => Ok (number_text value, keyEncodings)
      | JNonFinite => Throw TypeError
      | JString value =>
          reject_when (containsUnpairedSurrogate value) TypeError ;;
          Ok (stringify_text value, keyEncodings)
      | JUndefined => Throw TypeError
      | JArray items =>
          '(encoded, keyEncodings) ← each_encoded (canonicalJson levels) items keyEncodings;
          Ok ([91] ++ join_comma encoded ++ [93], keyEncodings)
      | JObject members =>
          '(encoded, keyEncodings) ←
            each_encoded (fun member keyEncodings =>
              '(encodedKey, keyEncodings) ← encodeKey member.1 keyEncodings;
              '(encodedValue, keyEncodings) ← canonicalJson levels member.2 keyEncodings;
              Ok (encodedKey ++ [58] ++ encodedValue, keyEncodings))
              (sort_members members) keyEncodings;
          Ok ([123] ++ join_comma encoded ++ [125], keyEncodings)
      end
  end.

Definition serializeEvaluationCanonicalJson (value : Json) : res text :=
  '(serialized, _) ← canonicalJson (S MAX_CANONICAL_NESTING_DEPTH) value ∅;
  Ok serialized.

(** ** UTF-8 *)

(** The first loop of [encodeUtf8]. *)
Fixpoint utf8_length (value : text) : nat :=
  match value with
  | [] => 0
  | code :: rest =>
      if code <=? 127 then 1 + utf8_length rest
      else if code <=? 2047 then 2 + utf8_length rest
      else if (55296 <=? code) && (code <=? 56319) then
        4 + match rest with [] => 0 | _ :: rest => utf8_length rest end
      else 3 + utf8_length rest
  end.

(** The bytes the second loop writes for one code point. *)
Definition utf8_of (codePoint : Z) : list Z :=
  if codePoint <=? 127 then [codePoint]
  else if codePoint <=? 2047 then
    [Z.lor 192 (Z.shiftr codePoint 6); Z.lor 128 (Z.land codePoint 63)]
  else if codePoint <=? 65535 then
    [Z.lor 224 (Z.shiftr codePoint 12); Z.lor 128 (Z.land (Z.shiftr codePoint 6) 63);
     Z.lor 128 (Z.land codePoint 63)]
  else
    [Z.lor 240 (Z.shiftr codePoint 18); Z.lor 128 (Z.land (Z.shiftr codePoint 12) 63);
     Z.lor 128 (Z.land (Z.shiftr codePoint 6) 63); Z.lor 128 (Z.land codePoint 63)].

Definition utf8_bytes (value : text) : list Z := concat (utf8_of <$> code_points value).

(** The loop without the host's encoder: it writes into [new Uint8Array(byteLength)],
    where a byte past the end is lost and one not written is zero. *)
Definition encodeUtf8_portable (value : text) : list Z :=
  resize (utf8_length value) 0 (utf8_bytes value).

(** The host's [TextEncoder], which hosts may lack; its documented meaning is
    UTF-8 of every text without unpaired surrogates. *)
Class NativeTextEncoder := {
  nativeEncode : option (text -> list Z);
  nativeEncode_utf8 : forall encode value, nativeEncode = Some encode ->
    containsUnpairedSurrogate value = false -> encode value = utf8_bytes value;
}.

Section encoding.
Context `{NativeTextEncoder}.

Definition encodeUtf8 (value : text) : list Z :=
  match nativeEncode with
  | Some encode => encode value
  | None => encodeUtf8_portable value
  end.

Definition encodeEvaluationCanonicalJson (value : Json) : res (list Z) :=
  serialized ← serializeEvaluationCanonicalJson value;
  Ok (encodeUtf8 serialized).
End encoding.

(** ** Definitions *)

Definition EVALUATION_DEFINITION_ENCODING_VERSION : string := "proofstack.evaluation-definition-jcs.v1".

Definition scope_json (scope : EvidenceScope) : Json :=
  JObject [(text_of "environmentId", JString (text_of (environmentId scope)));
           (text_of "projectId", JString (text_of (projectId scope)));
           (text_of "tenantId", JString (text_of (tenantId scope)))].

Definition definition_json (definitionDomain schemaVersion : string) (scope : EvidenceScope)
    (definition : Json) : Json :=
  JObject [(text_of "definition", definition);
           (text_of "definitionDomain", JString (text_of definitionDomain));
           (text_of "encodingVersion", JString (text_of EVALUATION_DEFINITION_ENCODING_VERSION));
           (text_of "schemaVersion", JString (text_of schemaVersion));
           (text_of "scope", scope_json scope)].

Definition encodeDefinition `{NativeTextEncoder} (definitionDomain schemaVersion : string)
    (scope : EvidenceScope) (definition : Json) : res (list Z) :=
  encodeEvaluationCanonicalJson (definition_json definitionDomain schemaVersion scope definition).
