(* ===== verification/CanonicalJsonProofs.v ===== *)
(** * Canonical JSON determines the value

    The reference is a normal form, [canonical], whose members are sorted, and
    a plain printer, [render], which the encoder agrees with whatever keys it
    has cached.  Both the printer and UTF-8 are injective. *)

From stdpp Require Import gmap sorting.
From S2P Require Import Prelude Errors BigInts Primitives PolicyTime ExactArithmetic CanonicalJson.
From Stdlib Require Import Ascii.
#[local] Open Scope Z_scope.

(** ** The order of keys *)

Lemma text_lt_irrefl t : text_lt t t = false.
Proof. induction t as [|u t IH]; simpl; [done|]. rewrite IH, Z.ltb_irrefl, andb_false_r. done. Qed.

Lemma text_lt_trans t1 t2 t3 : text_lt t1 t2 = true -> text_lt t2 t3 = true -> text_lt t1 t3 = true.
Proof.
  revert t2 t3. induction t1 as [|u t1 IH]; intros [|v t2] [|w t3]; simpl; try done.
  breflect. intros [H|[-> H]] [H'|[-> H']]; [left; lia|left; lia|left; lia|right; eauto].
Qed.

Lemma text_lt_total t1 t2 : text_lt t1 t2 = true \/ t1 = t2 \/ text_lt t2 t1 = true.
Proof.
  revert t2. induction t1 as [|u t1 IH]; intros [|v t2]; simpl; auto.
  destruct (Z.lt_trichotomy u v) as [H|[->|H]].
  - left. breflect. lia.
  - rewrite Z.ltb_irrefl, Z.eqb_refl. simpl. destruct (IH t2) as [?|[->|?]]; auto.
  - right. right. breflect. lia.
Qed.

Lemma text_lt_asym t1 t2 : text_lt t1 t2 = true -> text_lt t2 t1 = false.
Proof.
  intros H. apply not_true_iff_false. intros H'. pose proof (text_lt_trans _ _ _ H H') as Hn.
  by rewrite text_lt_irrefl in Hn.
Qed.

#[global] Instance member_le_trans {A} : Transitive (@member_le A).
Proof.
  unfold member_le. intros x y z H1 H2. destruct (text_lt_total x.1 y.1) as [H|[H|H]].
  - destruct (text_lt_total y.1 z.1) as [H'|[H'|H']]; [|by rewrite <- H'|congruence].
    by apply text_lt_asym, (text_lt_trans _ y.1).
  - by rewrite H.
  - congruence.
Qed.

#[global] Instance member_le_total {A} : Total (@member_le A).
Proof.
  intros x y. unfold member_le. destruct (text_lt_total x.1 y.1) as [H|[H|H]].
  - left. by apply text_lt_asym.
  - left. rewrite H. apply text_lt_irrefl.
  - right. by apply text_lt_asym.
Qed.

Lemma sort_members_perm {A} (l : list (text * A)) : sort_members l ≡ₚ l.
Proof. apply merge_sort_Permutation. Qed.

Lemma sort_members_sorted {A} (l : list (text * A)) : Sorted member_le (sort_members l).
Proof. apply Sorted_merge_sort. apply _. Qed.

(** With distinct keys a sorted list is the only one. *)
Lemma sorted_members_unique {A} (l k : list (text * A)) :
  Sorted member_le l -> Sorted member_le k -> l ≡ₚ k -> NoDup l.*1 -> l = k.
Proof.
  intros Hl Hk E Hnd. apply (Sorted_unique_strong member_le); [|done..].
  intros x y Hx Hy H1 H2. rewrite <- E in Hy. apply (key_unique fst l); [done..|].
  unfold member_le in *. destruct (text_lt_total x.1 y.1) as [?|[?|?]]; congruence.
Qed.

Lemma sort_members_fmap {A B} (f : A -> B) (l : list (text * A)) :
  NoDup l.*1 -> sort_members ((fun m => (m.1, f m.2)) <$> l) = (fun m => (m.1, f m.2)) <$> sort_members l.
Proof.
  intros Hnd. apply sorted_members_unique.
  - apply sort_members_sorted.
  - pose proof (sort_members_sorted l) as Hs. induction Hs as [|x k Hs IH Hh]; csimpl; [constructor|].
    constructor; [done|]. destruct Hh; csimpl; [constructor|by constructor].
  - by rewrite !sort_members_perm.
  - rewrite sort_members_perm, <- list_fmap_compose. exact Hnd.
Qed.

(** ** The reference *)

(** A number as JSON writes it: [-0] is written [0]. *)
Definition plain_zero (value : JsNumber) : JsNumber :=
  match number_digits value with
  | [] => {| number_negative := false; number_digits := []; number_point := 0 |}
  | _ => value
  end.

Lemma number_text_plain value : number_text (plain_zero value) = number_text value.
Proof. unfold plain_zero, number_text. by destruct (number_digits value) eqn:E; simpl; rewrite ?E. Qed.

(** Decimal digits, of which neither the first nor the last is a zero. *)
Definition number_ok (value : JsNumber) : bool :=
  forallb is_decimal_digit (number_digits value) &&
  bool_decide (head (number_digits value) <> Some 0) && bool_decide (last (number_digits value) <> Some 0).

(** The same value with the members of every object in the order of their keys. *)
Fixpoint canonical (value : Json) : Json :=
  match value with
  | JNumber value => JNumber (plain_zero value)
  | JArray items => JArray (canonical <$> items)
  | JObject members => JObject (sort_members ((fun member => (member.1, canonical member.2)) <$> members))
  | _ => value
  end.

(** The text of a value in the order it is given. *)
Fixpoint render (value : Json) : text :=
  match value with
  | JNull => text_of "null"
  | JBool value => text_of (if value then "true" else "false")
  | JNumber value => number_text value
  | JString value => stringify_text value
  | JArray items => [91] ++ join_comma (render <$> items) ++ [93]
  | JObject members =>
      [123] ++ join_comma ((fun member => stringify_text member.1 ++ [58] ++ render member.2) <$> members) ++ [125]
  | JNonFinite | JUndefined => []
  end.

(** Objects have distinct keys, strings are made of 16-bit code units and
    numbers of decimal digits. *)
Definition is_text (value : text) : bool := forallb (fun u => (0 <=? u) && (u <=? 65535)) value.

Fixpoint well_formed (value : Json) : bool :=
  match value with
  | JNumber value => number_ok value
  | JString value => is_text value
  | JArray items => forallb well_formed items
  | JObject members =>
      bool_decide (NoDup members.*1) && forallb (fun member => is_text member.1 && well_formed member.2) members
  | _ => true
  end.

(** The values the encoder admits at a depth: JSON, nested no deeper than the
    levels left, in Unicode scalar values. *)
Fixpoint admissible (levels : nat) (value : Json) : bool :=
  match levels with
  | O => false
  | S levels =>
      match value with
      | JNonFinite | JUndefined => false
      | JString value => negb (containsUnpairedSurrogate value)
      | JArray items => forallb (admissible levels) items
      | JObject members =>
          forallb (fun member => negb (containsUnpairedSurrogate member.1) && admissible levels member.2) members
      | _ => true
      end
  end.

Definition admitted (value : Json) : bool := admissible (S MAX_CANONICAL_NESTING_DEPTH) value.

(** ** The encoder prints the canonical value *)

(** Every cached key has its own encoding. *)
Definition cache_ok (keyEncodings : KeyEncodings) : Prop :=
  forall key encoded, keyEncodings !! key = Some encoded ->
    encoded = stringify_text key /\ containsUnpairedSurrogate key = false.

(** A call succeeds exactly when [ok], with [out], and keeps the cache. *)
Definition encodes {A} (result : res (A * KeyEncodings)) (ok : bool) (out : A) : Prop :=
  match result with
  | Ok (encoded, keyEncodings) => ok = true /\ encoded = out /\ cache_ok keyEncodings
  | Throw _ => ok = false
  end.

Lemma encodes_bind {A B : Type} (m : res (A * KeyEncodings)) (ok : bool) (out : A)
    (f : A * KeyEncodings -> res (B * KeyEncodings)) (ok' : bool) (out' : B) :
  encodes m ok out -> (forall k, cache_ok k -> encodes (f (out, k)) ok' out') ->
  encodes (m ≫= f) (ok && ok') out'.
Proof.
  intros Hm Hf. destruct m as [[encoded k]|e]; simpl in *.
  - destruct Hm as (-> & -> & Hk). by apply Hf.
  - by rewrite Hm.
Qed.

Lemma encodes_ok {A} (out : A) k : cache_ok k -> encodes (Ok (out, k)) true out.
Proof. done. Qed.

Lemma encodeKey_encodes key k :
  cache_ok k -> encodes (encodeKey key k) (negb (containsUnpairedSurrogate key)) (stringify_text key).
Proof.
  intros Hk. unfold encodeKey. destruct (k !! key) as [encoded|] eqn:E.
  - destruct (Hk _ _ E) as [-> ->]. done.
  - destruct (containsUnpairedSurrogate key) eqn:Hs; simpl; [done|]. split_and!; try done.
    case_match; [|done]. intros key' encoded' [[-> <-]|[_ ?]]%lookup_insert_Some; [done|by apply Hk].
Qed.

Lemma each_encoded_encodes {A} (encode : A -> KeyEncodings -> res (text * KeyEncodings)) ok out items k :
  (forall x k, x ∈ items -> cache_ok k -> encodes (encode x k) (ok x) (out x)) -> cache_ok k ->
  encodes (each_encoded encode items k) (forallb ok items) (out <$> items).
Proof.
  revert k. induction items as [|x items IH]; intros k Hx Hk; simpl; [done|].
  eapply encodes_bind; [apply Hx; [by left|done]|]. intros k1 Hk1. rewrite <- (andb_true_r (forallb ok items)).
  eapply encodes_bind; [apply IH; [|done]|].
  - intros y k2 Hy. apply Hx. by right.
  - intros k2 Hk2. by apply encodes_ok.
Qed.

Lemma canonicalJson_encodes levels value k :
  well_formed value = true -> cache_ok k ->
  encodes (canonicalJson levels value k) (admissible levels value) (render (canonical value)).
Proof.
  revert value k. induction levels as [|levels IH]; intros value k Hv Hk; [done|].
  destruct value as [| |value| |value|items|members|]; simpl; try done.
  - by rewrite number_text_plain.
  - by destruct (containsUnpairedSurrogate value).
  - rewrite <- (andb_true_r (forallb _ _)). eapply encodes_bind.
    + apply (each_encoded_encodes _ (admissible levels) (fun v => render (canonical v))); [|done].
      intros x k' Hx. apply IH. simpl in Hv. rewrite forallb_forall in Hv. by apply Hv, list_elem_of_In.
    + intros k' Hk'. simpl. rewrite <- list_fmap_compose. by apply encodes_ok.
  - simpl in Hv. breflect. destruct Hv as [Hnd Hv].
    rewrite <- (forallb_perm _ _ _ (sort_members_perm members)), <- (andb_true_r (forallb _ _)).
    eapply encodes_bind.
    + apply (each_encoded_encodes _ _
        (fun m => stringify_text m.1 ++ [58] ++ render (canonical m.2))); [|done].
      intros x k' Hx Hk'. eapply encodes_bind; [by apply encodeKey_encodes|]. intros k1 Hk1.
      rewrite <- (andb_true_r (admissible levels x.2)). eapply encodes_bind.
      * apply IH; [|done]. rewrite forallb_forall in Hv. rewrite sort_members_perm in Hx.
        apply list_elem_of_In, Hv in Hx. by apply andb_true_iff in Hx as [_ ?].
      * intros k2 Hk2. by apply encodes_ok.
    + intros k' Hk'. simpl. rewrite sort_members_fmap, <- list_fmap_compose by done. by apply encodes_ok.
Qed.

(** The cache of encoded keys is invisible: the text is the printed normal
    form, and there is one exactly for admitted values. *)
Lemma serialize_iff value serialized :
  well_formed value = true ->
  serializeEvaluationCanonicalJson value = Ok serialized <->
  admitted value = true /\ serialized = render (canonical value).
Proof.
  intros Hv. unfold serializeEvaluationCanonicalJson, admitted. generalize (S MAX_CANONICAL_NESTING_DEPTH).
  intros levels. pose proof (canonicalJson_encodes levels value ∅ Hv ltac:(done)) as H.
  unfold mbind, result_bind. destruct (canonicalJson levels value ∅) as [[s k]|e]; unfold encodes in H.
  - destruct H as (-> & -> & _). split; [intros [= <-]; done|intros [_ ->]; done].
  - rewrite H. split; [done|by intros [? _]].
Qed.

(** ** The printer is injective *)

(** Induction on a value and on everything inside it. *)
Lemma Json_nested_ind (P : Json -> Prop) :
  P JNull -> (forall b, P (JBool b)) -> (forall n, P (JNumber n)) -> P JNonFinite ->
  (forall t, P (JString t)) -> (forall items, Forall P items -> P (JArray items)) ->
  (forall members : list (text * Json), Forall (fun m => P m.2) members -> P (JObject members)) ->
  P JUndefined -> forall value, P value.
Proof.
  intros Hnull Hbool Hnum Hnf Hstr Harr Hobj Hund. fix IH 1. intros [|b|n| |t|items|members|].
  - apply Hnull.
  - apply Hbool.
  - apply Hnum.
  - apply Hnf.
  - apply Hstr.
  - apply Harr. induction items; constructor; [apply IH|done].
  - apply Hobj. induction members; constructor; [apply IH|done].
  - apply Hund.
Qed.

(** Two texts with a run of characters of one class in front of anything else. *)
Lemma run_split (p : Z -> bool) (l l' r r' : text) :
  forallb p l = true -> forallb p l' = true ->
  (forall u, head r = Some u -> p u = false) -> (forall u, head r' = Some u -> p u = false) ->
  l ++ r = l' ++ r' -> l = l' /\ r = r'.
Proof.
  intros Hl Hl' Hr Hr'. revert l' Hl'. induction l as [|u l IH]; intros [|u' l'] Hl' E; simpl in *; breflect.
  - done.
  - destruct Hl' as [Hu' _]. subst r. specialize (Hr u' eq_refl). congruence.
  - destruct Hl as [Hu _]. subst r'. specialize (Hr' u eq_refl). congruence.
  - destruct Hl as [_ Hl], Hl' as [_ Hl']. injection E as -> E.
    destruct (IH Hl l' Hl' E) as [-> ->]. done.
Qed.

Lemma hex_digit_inj d e : 0 <= d < 16 -> 0 <= e < 16 -> hex_digit d = hex_digit e -> d = e.
Proof. unfold hex_digit. intros. repeat case_match; breflect; lia. Qed.

Lemma is_text_cons u t : is_text (u :: t) = true -> 0 <= u /\ is_text t = true.
Proof. unfold is_text. simpl. breflect. intros [[? ?] ?]. done. Qed.

Lemma stringify_unit_inj u v a b :
  0 <= u -> 0 <= v -> stringify_unit u ++ a = stringify_unit v ++ b -> u = v /\ a = b.
Proof.
  intros Hu Hv E. unfold stringify_unit in E.
  repeat case_match; breflect; subst; simpl in E; injection E as ?; subst; try (split; [congruence|done]); try lia.
  all: split; [|done].
  pose proof (Z.div_mod u 16 ltac:(lia)). pose proof (Z.div_mod v 16 ltac:(lia)).
  pose proof (Z.mod_pos_bound u 16 ltac:(lia)). pose proof (Z.mod_pos_bound v 16 ltac:(lia)).
  assert (u / 16 < 2) by (apply Z.div_lt_upper_bound; lia).
  assert (v / 16 < 2) by (apply Z.div_lt_upper_bound; lia).
  assert (0 <= u / 16) by (apply Z.div_pos; lia). assert (0 <= v / 16) by (apply Z.div_pos; lia).
  assert (u / 16 = v / 16) by (apply hex_digit_inj; lia).
  assert (u mod 16 = v mod 16) by (apply hex_digit_inj; lia). lia.
Qed.

Lemma stringify_unit_head u : exists c rest, stringify_unit u = c :: rest /\ c <> 34.
Proof. unfold stringify_unit. repeat case_match; breflect; eexists _, _; (split; [done|lia]). Qed.

Lemma stringify_text_inj t t' r r' :
  is_text t = true -> is_text t' = true -> stringify_text t ++ r = stringify_text t' ++ r' -> t = t' /\ r = r'.
Proof.
  unfold stringify_text. intros Ht Ht' E. simpl in E. injection E as E. rewrite <- !app_assoc in E.
  revert t' Ht' E. induction t as [|u t IH]; intros [|u' t'] Ht' E; csimpl in *.
  - by injection E as ->.
  - destruct (stringify_unit_head u') as (c & rest & Hc & Hn). rewrite Hc in E. simpl in E. congruence.
  - destruct (stringify_unit_head u) as (c & rest & Hc & Hn). rewrite Hc in E. simpl in E. congruence.
  - apply is_text_cons in Ht as [Hu Ht], Ht' as [Hu' Ht']. rewrite <- !app_assoc in E.
    apply stringify_unit_inj in E as [-> E]; [|done..].
    destruct (IH Ht t' Ht' E) as [-> ->]. done.
Qed.

(** The end of the text of a value inside an array or an object. *)
Definition stops (r : text) : Prop := forall u, head r = Some u -> In u [44; 93; 125].

Lemma stops_cons u r : In u [44; 93; 125] -> stops (u :: r).
Proof. intros Hu v [= <-]. done. Qed.

Lemma stops_nil : stops [].
Proof. done. Qed.

#[local] Hint Resolve stops_cons stops_nil in_eq in_cons : core.

Lemma join_comma_inj {A} (P : A -> Prop) (enc : A -> text) (l l' : list A) close r r' :
  In close [93; 125] ->
  (forall x, P x -> exists c rest, enc x = c :: rest /\ c <> close) ->
  Forall P l -> Forall P l' ->
  (forall x y s s', x ∈ l -> P y -> stops s -> stops s' -> enc x ++ s = enc y ++ s' -> x = y /\ s = s') ->
  join_comma (enc <$> l) ++ close :: r = join_comma (enc <$> l') ++ close :: r' -> l = l' /\ r = r'.
Proof.
  intros Hclose Hhead Hl Hl' Hinj E.
  assert (Hstop : forall k s, stops (concat ((fun next => 44 :: next) <$> (enc <$> k)) ++ close :: s)).
  { intros [|y k] s; csimpl; apply stops_cons; [right; done|by left]. }
  assert (Htail : forall k k', Forall P k' -> (forall x, x ∈ k -> x ∈ l) ->
    concat ((fun next => 44 :: next) <$> (enc <$> k)) ++ close :: r =
    concat ((fun next => 44 :: next) <$> (enc <$> k')) ++ close :: r' -> k = k' /\ r = r').
  { assert (Hne : close <> 44) by (simpl in Hclose; lia). clear E. induction k as [|x k IH]; intros [|y k'] Hk' Hk E; csimpl in *.
    - by injection E as ->.
    - congruence.
    - congruence.
    - apply Forall_cons in Hk' as [Hy Hk']. injection E as E. rewrite <- !app_assoc in E.
      apply Hinj in E as [-> E]; [|by apply Hk; left|done|by apply Hstop..].
      destruct (IH k' Hk') as [-> ->]; [|done|done]. intros z Hz. apply Hk. by right. }
  destruct l as [|x l], l' as [|y l']; csimpl in *.
  - by injection E as ->.
  - apply Forall_cons in Hl' as [Hy _]. destruct (Hhead y Hy) as (c & rest & Hc & Hn).
    rewrite Hc in E. simpl in E. congruence.
  - apply Forall_cons in Hl as [Hx _]. destruct (Hhead x Hx) as (c & rest & Hc & Hn).
    rewrite Hc in E. simpl in E. congruence.
  - apply Forall_cons in Hl' as [Hy Hl']. rewrite <- !app_assoc in E.
    apply Hinj in E as [-> E]; [|by left|done|by apply Hstop..].
    destruct (Htail l l' Hl') as [-> ->]; [|done|done]. intros z Hz. by right.
Qed.

(** *** Numbers

    The text of a number is made of digits before the point, digits after it and
    an exponent, from which the number is read back. *)

Definition digit_unit (u : Z) : bool := (48 <=? u) && (u <=? 57).

Definition point_text (fraction : list Z) : text :=
  match fraction with [] => [] | _ => [46] ++ digits_text fraction end.

Definition exponent_part (exponent : option Z) : text := default [] (exponent_text <$> exponent).

Definition number_parts (digits : list Z) (point : Z) : list Z * list Z * option Z :=
  let count := Z.of_nat (length digits) in
  if (count <=? point) && (point <=? 21) then (digits ++ replicate (Z.to_nat (point - count)) 0, [], None)
  else if (0 <? point) && (point <=? 21) then
    (take (Z.to_nat point) digits, drop (Z.to_nat point) digits, None)
  else if (-6 <? point) && (point <=? 0) then ([0], replicate (Z.to_nat (- point)) 0 ++ digits, None)
  else (take 1 digits, drop 1 digits, Some (point - 1)).

Fixpoint drop_zeros (digits : list Z) : list Z :=
  match digits with
  | [] => []
  | d :: rest => if d =? 0 then drop_zeros rest else digits
  end.

(** The number that such parts denote. *)
Definition read_number (negative : bool) (parts : list Z * list Z * option Z) : JsNumber :=
  let '(whole, fraction, exponent) := parts in
  let digits := drop_zeros (whole ++ fraction) in
  match strip_zeros digits with
  | [] => plain_zero (integer_number 0)
  | significant => {|
      number_negative := negative;
      number_digits := significant;
      number_point :=
        Z.of_nat (length digits) - Z.of_nat (length fraction) + default 0 exponent |}
  end.

Lemma strip_zeros_app digits n : last digits <> Some 0 -> strip_zeros (digits ++ replicate n 0) = digits.
Proof.
  intros Hl. induction digits as [|d digits IH]; simpl.
  - clear Hl. by induction n as [|n IH]; simpl; [|rewrite IH].
  - destruct digits as [|e digits].
    + simpl in *. rewrite IH by done. destruct (Z.eqb_spec d 0); [congruence|done].
    + rewrite IH by done. done.
Qed.

Lemma drop_zeros_replicate n digits : drop_zeros (replicate n 0 ++ digits) = drop_zeros digits.
Proof. by induction n. Qed.

Lemma drop_zeros_head digits : head digits <> Some 0 -> drop_zeros digits = digits.
Proof. destruct digits as [|d digits]; simpl; [done|]. destruct (Z.eqb_spec d 0); congruence. Qed.

(** Digits between zeros, where [point] of them come before the point. *)
Lemma read_number_between negative digits point whole fraction exponent a b :
  digits <> [] -> head digits <> Some 0 -> last digits <> Some 0 ->
  whole ++ fraction = replicate a 0 ++ digits ++ replicate b 0 ->
  Z.of_nat (length whole) - Z.of_nat a + default 0 exponent = point ->
  read_number negative (whole, fraction, exponent) =
    {| number_negative := negative; number_digits := digits; number_point := point |}.
Proof.
  intros Hne Hh Hl E Hp. unfold read_number. rewrite E, drop_zeros_replicate, drop_zeros_head.
  - rewrite strip_zeros_app by done. destruct digits as [|d digits]; [done|]. f_equal. rewrite <- Hp.
    apply (f_equal length) in E. rewrite !length_app, !length_replicate in E.
    rewrite length_app, length_replicate. lia.
  - destruct digits; [done|]. exact Hh.
Qed.

Lemma read_parts negative digits point :
  digits <> [] -> head digits <> Some 0 -> last digits <> Some 0 ->
  read_number negative (number_parts digits point) =
    {| number_negative := negative; number_digits := digits; number_point := point |}.
Proof.
  intros Hne Hh Hl. assert (Hpos : (1 <= length digits)%nat) by (destruct digits; simpl; [done|lia]).
  unfold number_parts. repeat case_match; breflect.
  - apply (read_number_between _ _ _ _ _ _ 0 (Z.to_nat (point - Z.of_nat (length digits)))); try done.
    + by rewrite app_nil_r.
    + rewrite length_app, length_replicate. simpl. lia.
  - apply (read_number_between _ _ _ _ _ _ 0 0); try done.
    + rewrite take_drop. simpl. by rewrite app_nil_r.
    + rewrite length_take. simpl. lia.
  - apply (read_number_between _ _ _ _ _ _ (S (Z.to_nat (- point))) 0); try done.
    + simpl. by rewrite app_nil_r.
    + simpl. lia.
  - apply (read_number_between _ _ _ _ _ _ 0 0); try done.
    + rewrite take_drop. simpl. by rewrite app_nil_r.
    + rewrite length_take. destruct (length digits); simpl; lia.
Qed.

(** The four forms are the parts in a row. *)
Lemma unsigned_number_parts digits point :
  let '(whole, fraction, exponent) := number_parts digits point in
  unsigned_number_text digits point = digits_text whole ++ point_text fraction ++ exponent_part exponent.
Proof.
  unfold unsigned_number_text, number_parts. unfold point_text, exponent_part.
  destruct ((Z.of_nat (length digits) <=? point) && (point <=? 21)) eqn:E1; [by rewrite !app_nil_r|].
  destruct ((0 <? point) && (point <=? 21)) eqn:E2.
  - simpl. rewrite app_nil_r. f_equal. destruct (drop (Z.to_nat point) digits) as [|d l] eqn:E; [|done].
    apply (f_equal length) in E. rewrite length_drop in E. simpl in E. breflect. lia.
  - destruct ((-6 <? point) && (point <=? 0)) eqn:E3; [|by destruct (drop 1 digits)].
    simpl. rewrite app_nil_r. destruct (replicate (Z.to_nat (- point)) 0 ++ digits) eqn:E; [|done].
    apply app_eq_nil in E as [E ->]. apply (f_equal length) in E.
    rewrite length_replicate in E. simpl in *. breflect. lia.
Qed.

Definition digit_list (digits : list Z) : bool := forallb is_decimal_digit digits.

Lemma digit_list_zeros n : digit_list (replicate n 0) = true.
Proof. by induction n. Qed.

Lemma number_parts_digits digits point :
  digits <> [] -> digit_list digits = true ->
  let '(whole, fraction, _) := number_parts digits point in
  whole <> [] /\ digit_list whole = true /\ digit_list fraction = true.
Proof.
  unfold digit_list. intros Hne Hd.
  assert (Hsplit : forall n, digit_list (take n digits) = true /\ digit_list (drop n digits) = true).
  { intros n. rewrite <- andb_true_iff. unfold digit_list. by rewrite <- forallb_app, take_drop. }
  unfold number_parts. repeat case_match; simplify_eq; breflect.
  - split_and!; [by destruct digits| |done]. rewrite forallb_app, Hd. apply digit_list_zeros.
  - split_and!; [|apply Hsplit..]. destruct digits; [done|]. by destruct (Z.to_nat point) eqn:E; [lia|].
  - split_and!; [done..|]. rewrite forallb_app, Hd, andb_true_r. apply digit_list_zeros.
  - split_and!; [|apply Hsplit..]. by destruct digits.
Qed.

Lemma digits_text_units digits : digit_list digits = true -> forallb digit_unit (digits_text digits) = true.
Proof.
  unfold digit_list, digits_text. rewrite !forallb_forall.
  intros H u (d & -> & Hd%list_elem_of_In%H)%list_elem_of_In%list_elem_of_fmap.
  unfold is_decimal_digit, digit_unit in *. breflect. lia.
Qed.

Lemma digits_text_inj l k : digits_text l = digits_text k -> l = k.
Proof. apply list_fmap_eq_inj. intros d e. lia. Qed.

Lemma text_of_inj s t : text_of s = text_of t -> s = t.
Proof.
  unfold text_of. intros E. apply (f_equal (fmap (fun z => ascii_of_N (Z.to_N z)))) in E.
  rewrite <- !list_fmap_compose in E.
  assert (Hid : forall l : list ascii, (fun z => ascii_of_N (Z.to_N z)) ∘ (fun c => Z.of_N (N_of_ascii c)) <$> l = l).
  { intros l. rewrite <- (list_fmap_id l) at 2. apply list_fmap_ext. intros _ c _. simpl.
    rewrite N2Z.id. apply ascii_N_embedding. }
  rewrite !Hid in E. apply (f_equal String.string_of_list_ascii) in E.
  by rewrite !String.string_of_list_ascii_of_string in E.
Qed.

Lemma toString_units n : 0 <= n -> forallb digit_unit (text_of (toString n)) = true.
Proof.
  intros Hn. unfold text_of. rewrite list_of_toString. unfold toString_list. rewrite (proj2 (Z.ltb_ge n 0)) by lia.
  destruct (decimal_digits_spec n Hn) as (_ & H & _).
  rewrite forallb_forall in *. intros u (c & -> & Hc%list_elem_of_In%H)%list_elem_of_In%list_elem_of_fmap.
  unfold is_digit, digit_unit in *. apply andb_true_iff in Hc as [?%N.leb_le ?%N.leb_le]. breflect. lia.
Qed.

Lemma toString_inj n m : text_of (toString n) = text_of (toString m) -> n = m.
Proof. intros E%text_of_inj%(f_equal BigInt). by rewrite !BigInt_toString in E. Qed.

(** What may follow digits: no digit. *)
Definition ends (r : text) : Prop := forall u, head r = Some u -> digit_unit u = false.

Lemma stops_ends r : stops r -> ends r.
Proof. intros Hr u Hu%Hr. simpl in Hu. by destruct Hu as [<-|[<-|[<-|[]]]]. Qed.

Lemma exponent_ends exponent r : stops r -> ends (exponent_part exponent ++ r).
Proof. intros Hr. destruct exponent; [|by apply stops_ends]. intros u [= <-]. done. Qed.

Lemma exponent_inj exponent exponent' r r' :
  stops r -> stops r' -> exponent_part exponent ++ r = exponent_part exponent' ++ r' ->
  exponent = exponent' /\ r = r'.
Proof.
  intros Hr Hr'. destruct exponent as [e|], exponent' as [e'|]; cbn; intros E.
  - injection E as Hsign E. apply (run_split digit_unit) in E as [E ->]; [|try apply toString_units; lia..| |].
    + apply toString_inj in E. split; [|done]. f_equal.
      destruct (Z.ltb_spec e 0), (Z.ltb_spec e' 0); lia || congruence.
    + by apply stops_ends.
    + by apply stops_ends.
  - subst r'. exfalso. by destruct (Hr' _ eq_refl) as [|[|[|[]]]].
  - subst r. exfalso. by destruct (Hr _ eq_refl) as [|[|[|[]]]].
  - by subst.
Qed.

Lemma fraction_inj fraction fraction' exponent exponent' r r' :
  digit_list fraction = true -> digit_list fraction' = true -> stops r -> stops r' ->
  point_text fraction ++ exponent_part exponent ++ r = point_text fraction' ++ exponent_part exponent' ++ r' ->
  fraction = fraction' /\ exponent_part exponent ++ r = exponent_part exponent' ++ r'.
Proof.
  intros Hf Hf' Hr Hr' E.
  assert (Hpoint : forall e s, stops s -> head (exponent_part e ++ s) <> Some 46).
  { intros [e|] s Hs; [done|]. intros Hh. by destruct (Hs _ Hh) as [|[|[|[]]]]. }
  destruct fraction as [|d l], fraction' as [|d' l']; unfold point_text in E.
  - done.
  - exfalso. by apply (f_equal head) in E as H%Hpoint.
  - exfalso. symmetry in E. by apply (f_equal head) in E as H%Hpoint.
  - rewrite <- !app_assoc in E. apply app_inv_head in E.
    apply (run_split digit_unit (digits_text (d :: l)) (digits_text (d' :: l'))) in E as [E ->];
      [|by apply digits_text_units..|by apply exponent_ends|by apply exponent_ends].
    apply digits_text_inj in E. done.
Qed.

Lemma parts_ends fraction exponent r : stops r -> ends (point_text fraction ++ exponent_part exponent ++ r).
Proof. intros Hr. destruct fraction; [by apply exponent_ends|]. intros u [= <-]. done. Qed.

Lemma number_text_parts value :
  number_ok value = true -> exists (sign : bool) whole fraction exponent,
    number_text value = (if sign then [45] else []) ++ digits_text whole ++ point_text fraction ++ exponent_part exponent /\
    whole <> [] /\ digit_list whole = true /\ digit_list fraction = true /\
    read_number sign (whole, fraction, exponent) = plain_zero value.
Proof.
  unfold number_ok. breflect. intros [[Hd Hh] Hl]. destruct value as [sign digits point]. cbn [number_digits] in *.
  unfold number_text, plain_zero. cbn [number_negative number_digits number_point].
  destruct digits as [|d l] eqn:E; [exists false, [0], [], None; by split_and!|]. rewrite <- E in *.
  assert (Hne : digits <> []) by (by rewrite E).
  pose proof (unsigned_number_parts digits point) as Ht. pose proof (number_parts_digits digits point Hne Hd) as Hp.
  pose proof (read_parts sign digits point Hne Hh Hl) as Hread.
  destruct (number_parts digits point) as [[whole fraction] exponent]. rewrite Ht.
  exists sign, whole, fraction, exponent. destruct Hp as (? & ? & ?). by split_and!.
Qed.

Lemma digits_text_head whole r :
  whole <> [] -> digit_list whole = true -> exists u rest, digits_text whole ++ r = u :: rest /\ digit_unit u = true.
Proof.
  intros Hne Hw%digits_text_units. destruct whole as [|d l]; [done|]. simpl in *.
  apply andb_true_iff in Hw as [? _]. by eexists _, _.
Qed.

(** The text of a number determines it, but for the sign of zero. *)
Lemma number_inj v w r r' :
  number_ok v = true -> number_ok w = true -> stops r -> stops r' ->
  number_text v ++ r = number_text w ++ r' -> plain_zero v = plain_zero w /\ r = r'.
Proof.
  intros (s & I & F & e & -> & HI & HdI & HdF & <-)%number_text_parts
    (s' & I' & F' & e' & -> & HI' & HdI' & HdF' & <-)%number_text_parts Hr Hr' E.
  rewrite <- !app_assoc in E.
  assert (s = s') as <-.
  { destruct (digits_text_head I (point_text F ++ exponent_part e ++ r) HI HdI) as (u & k & Hu & Du).
    destruct (digits_text_head I' (point_text F' ++ exponent_part e' ++ r') HI' HdI') as (u' & k' & Hu' & Du').
    destruct s, s'; simpl in E; try done; rewrite ?Hu, ?Hu' in E; injection E as Hq _; subst; discriminate. }
  apply app_inv_head in E. apply (run_split digit_unit) in E as [EI E];
    [|by apply digits_text_units..|by apply parts_ends|by apply parts_ends].
  apply digits_text_inj in EI as ->. apply fraction_inj in E as [-> E]; [|done..].
  by apply exponent_inj in E as [-> ->].
Qed.

Lemma number_text_head v : number_ok v = true -> exists u rest, number_text v = u :: rest /\ (u = 45 \/ digit_unit u = true).
Proof.
  intros (s & I & F & e & -> & HI & HdI & _)%number_text_parts. destruct s; [by eexists _, _; eauto|].
  destruct (digits_text_head I (point_text F ++ exponent_part e) HI HdI) as (u & k & -> & Du). eauto.
Qed.

(** **** Integers *)

Lemma last_strip_zeros l : last (strip_zeros l) <> Some 0.
Proof.
  induction l as [|d l IH]; simpl; [done|]. destruct (strip_zeros l) as [|e k] eqn:E; [|done].
  destruct (Z.eqb_spec d 0); [done|]. simpl. congruence.
Qed.

Lemma decimal_value_ascii l : PolicyTime.decimal_value (digit_value <$> l) = digits_value l.
Proof.
  induction l as [|c l IH] using rev_ind; [done|]. rewrite fmap_app, PolicyTime.decimal_value_app, digits_value_app, IH.
  rewrite length_fmap. done.
Qed.

(** The digits of an integer are its significant ones and the zeros that follow them. *)
Lemma integer_digits value :
  exists digits zeros,
    digit_value <$> decimal_digits (Z.abs value) = digits ++ replicate zeros 0 /\
    integer_number value = {|
      number_negative := value <? 0; number_digits := digits;
      number_point := if (length digits =? 0)%nat then 0 else Z.of_nat (length digits + zeros) |} /\
    number_ok (integer_number value) = true /\
    PolicyTime.decimal_value (digits ++ replicate zeros 0) = Z.abs value.
Proof.
  destruct (decimal_digits_spec (Z.abs value) ltac:(lia)) as (Hv & Hd & Hh & Hne).
  unfold integer_number. set (l := digit_value <$> decimal_digits (Z.abs value)).
  assert (Hl : digit_list l = true).
  { unfold digit_list, l. rewrite forallb_forall in *.
    intros d (c & -> & Hc%list_elem_of_In%Hd)%list_elem_of_In%list_elem_of_fmap.
    unfold is_digit, is_decimal_digit, digit_value in *. apply andb_true_iff in Hc as [?%N.leb_le ?%N.leb_le].
    breflect. lia. }
  assert (Hval : PolicyTime.decimal_value l = Z.abs value) by (unfold l; by rewrite decimal_value_ascii).
  destruct (strip_zeros_spec l) as [n E]. exists (strip_zeros l), n. split_and!; [done| | |by rewrite <- E].
  - f_equal. case_match; [done|]. f_equal. rewrite E at 1. by rewrite length_app, length_replicate.
  - unfold number_ok. cbn [number_digits]. rewrite strip_zeros_valid by done. breflect. split; [|apply last_strip_zeros].
    split; [done|]. destruct (decide (value = 0)) as [->|Hz]; [done|].
    destruct Hh as (c & k & Hc & Hpos); [lia|]. unfold l in E |- *. rewrite Hc in E |- *.
    destruct (strip_zeros _) as [|d k']; [done|]. simpl in E |- *. injection E as <- _. intros [= ?]. lia.
Qed.

Lemma integer_number_ok value : number_ok (integer_number value) = true.
Proof. by destruct (integer_digits value) as (? & ? & _ & _ & ? & _). Qed.

Lemma integer_number_plain value : plain_zero (integer_number value) = integer_number value.
Proof.
  destruct (integer_digits value) as (digits & n & _ & -> & _ & Hv). unfold plain_zero. cbn [number_digits].
  destruct digits; [|done]. simpl in *.
  assert (Z.abs value = 0) by (rewrite <- Hv; clear; induction n as [|n IH]; [done|apply IH]).
  by rewrite (proj2 (Z.ltb_ge value 0)) by lia.
Qed.

Lemma integer_number_inj v w : integer_number v = integer_number w -> v = w.
Proof.
  destruct (integer_digits v) as (d & n & _ & -> & _ & Hv), (integer_digits w) as (d' & n' & _ & -> & _ & Hw).
  intros [= Hs -> Hp]. assert (Z.abs v = Z.abs w).
  { rewrite <- Hv, <- Hw. destruct d' as [|e k].
    - simpl. assert (Hz : forall n, PolicyTime.decimal_value (replicate n 0) = 0)
        by (clear; intros n; induction n as [|n IH]; [done|apply IH]). by rewrite !Hz.
    - simpl in Hp. by replace n' with n by lia. }
  destruct (Z.ltb_spec v 0), (Z.ltb_spec w 0); lia || congruence.
Qed.

(** Below [10^21] an integer is written as it is. *)
Lemma integer_number_text value :
  Z.abs value < 10 ^ 21 -> number_text (integer_number value) = text_of (toString value).
Proof.
  intros Hb. destruct (integer_digits value) as (digits & n & Hd & -> & _ & Hv).
  assert (Htext : text_of (toString value) = (if value <? 0 then [45] else []) ++ digits_text (digits ++ replicate n 0)).
  { unfold text_of, digits_text. rewrite list_of_toString, <- Hd, <- list_fmap_compose. unfold toString_list.
    assert (Hu : forall l : list ascii, (fun d => 48 + d) ∘ digit_value <$> l = (fun c => Z.of_N (N_of_ascii c)) <$> l)
      by (intros l; apply list_fmap_ext; intros _ c _; unfold digit_value; simpl; lia).
    rewrite Hu. destruct (Z.ltb_spec value 0); [rewrite Z.abs_neq by lia|rewrite Z.abs_eq by lia]; done. }
  rewrite Htext. unfold number_text. cbn [number_digits number_negative number_point].
  destruct digits as [|d k] eqn:Ed.
  - assert (Z.abs value = 0) by (rewrite <- Hv; clear; induction n as [|n IH]; [done|apply IH]).
    assert (value = 0) as -> by lia. apply (f_equal length) in Hd. rewrite length_fmap, length_app, length_replicate in Hd.
    simpl in Hd. subst n. done.
  - rewrite <- Ed in *. rewrite (proj2 (Nat.eqb_neq (length digits) 0)) by (rewrite Ed; simpl; lia).
    f_equal. unfold unsigned_number_text.
    pose proof (decimal_digits_length (Z.abs value) 21 ltac:(lia) ltac:(lia)) as Hlen.
    apply (f_equal length) in Hd. rewrite length_fmap, length_app, length_replicate in Hd.
    rewrite (proj2 (Z.leb_le _ _)), (proj2 (Z.leb_le _ 21)) by lia. cbn [andb]. do 3 f_equal. lia.
Qed.

Lemma stringify_text_cons t : exists rest, stringify_text t = 34 :: rest.
Proof. by eexists. Qed.

#[local] Opaque stringify_text.

(** *** Values *)

Definition scalar_text (value : text) : bool := is_text value && negb (containsUnpairedSurrogate value).

Lemma scalar_is_text t : scalar_text t = true -> is_text t = true.
Proof. by intros [? _]%andb_true_iff. Qed.

#[local] Hint Resolve scalar_is_text : core.

(** Every part of the value is JSON, in Unicode scalar values, and no zero is
    negative. *)
Fixpoint clean (value : Json) : bool :=
  match value with
  | JNonFinite | JUndefined => false
  | JNumber value => number_ok value && bool_decide (plain_zero value = value)
  | JString value => scalar_text value
  | JArray items => forallb clean items
  | JObject members => forallb (fun member => scalar_text member.1 && clean member.2) members
  | _ => true
  end.

(** The first character tells the constructor. *)
Definition leading (value : Json) : list Z :=
  match value with
  | JNull => [110]
  | JBool value => [if value then 116 else 102]
  | JNumber _ => [45; 48; 49; 50; 51; 52; 53; 54; 55; 56; 57]
  | JString _ => [34]
  | JArray _ => [91]
  | JObject _ => [123]
  | JNonFinite | JUndefined => []
  end.

Lemma render_leading value : clean value = true -> exists c rest, render value = c :: rest /\ In c (leading value).
Proof.
  destruct value as [|[]|n| |t|items|members|]; simpl; intros Hc; try done;
    try (eexists _, _; split; [done|by left]);
    try (destruct (stringify_text_cons t) as [rest ->]; exists 34, rest; split; [done|by left]).
  apply andb_true_iff in Hc as [Hn _]. destruct (number_text_head n Hn) as (u & rest & -> & Hu).
  exists u, rest. split; [done|]. unfold digit_unit in Hu. breflect. lia.
Qed.

Lemma leading_agree v w c : In c (leading v) -> In c (leading w) ->
  match v, w with
  | JNull, JNull | JNumber _, JNumber _ | JString _, JString _ | JArray _, JArray _ | JObject _, JObject _ => True
  | JBool a, JBool b => a = b
  | _, _ => False
  end.
Proof. destruct v as [|[]|?| |?|?|?|], w as [|[]|?| |?|?|?|]; simpl; intros; done || lia. Qed.

Lemma clean_members members :
  forallb (fun m => scalar_text m.1 && clean m.2) members = true ->
  Forall (fun m : text * Json => scalar_text m.1 = true /\ clean m.2 = true) members.
Proof.
  rewrite forallb_forall, Forall_forall. intros H m Hm%list_elem_of_In%H. by apply andb_true_iff in Hm.
Qed.

Lemma clean_items items : forallb clean items = true -> Forall (fun v => clean v = true) items.
Proof. rewrite forallb_forall, Forall_forall. intros H v Hv. by apply H, list_elem_of_In. Qed.

Lemma leading_not_close v c : In c (leading v) -> c <> 93 /\ c <> 125.
Proof. destruct v as [|[]|?| |?|?|?|]; simpl; intros; lia. Qed.

Lemma render_inj v w r r' :
  clean v = true -> clean w = true -> stops r -> stops r' -> render v ++ r = render w ++ r' -> v = w /\ r = r'.
Proof.
  revert w r r'. induction v as [|b|n| |t|items IH|members IH|] using Json_nested_ind; intros w r r' Hv Hw Hr Hr' E;
    destruct (render_leading _ Hv) as (c & rest & Hc & Hlead), (render_leading _ Hw) as (c' & rest' & Hc' & Hlead');
    assert (c' = c) as -> by (rewrite Hc, Hc' in E; simpl in E; congruence);
    pose proof (leading_agree _ _ _ Hlead Hlead') as Hsame; clear Hc Hc' Hlead Hlead' rest rest';
    destruct w as [|b'|n'| |t'|items'|members'|]; try done; simpl in E, Hv, Hw.
  - by injection E as ->.
  - subst. by apply app_inv_head in E as ->.
  - breflect. destruct Hv as [Hn Hv], Hw as [Hn' Hw]. apply number_inj in E as [E ->]; [|done..].
    rewrite Hv, Hw in E. by subst.
  - apply stringify_text_inj in E as [-> ->]; auto.
  - injection E as E. rewrite <- !app_assoc in E.
    apply (join_comma_inj (fun v => clean v = true)) in E as [-> ->]; [done|by left| |by apply clean_items..|].
    + intros x Hx. destruct (render_leading x Hx) as (d & rest & Hd & Hlead). exists d, rest.
      split; [done|]. by apply leading_not_close in Hlead as [? ?].
    + intros x y s s' Hx Hy Hs Hs' E'. rewrite Forall_forall in IH. apply (IH x Hx); [|done..].
      apply clean_items in Hv. rewrite Forall_forall in Hv. by apply Hv.
  - injection E as E. rewrite <- !app_assoc in E.
    apply (join_comma_inj (fun m => scalar_text m.1 = true /\ clean m.2 = true)) in E as [-> ->];
      [done|by right; left| |by apply clean_members..|].
    + intros x _. destruct (stringify_text_cons x.1) as [rest ->]. eexists 34, _. split; [done|lia].
    + intros [k x] [k' y] s s' Hx [Hk' Hy] Hs Hs' E'. cbn [fst snd] in *. rewrite <- !app_assoc in E'.
      apply clean_members in Hv. rewrite Forall_forall in Hv, IH. destruct (Hv _ Hx) as [Hk Hcx].
      apply stringify_text_inj in E' as [-> E']; [|auto..]. injection E' as E'.
      destruct (IH _ Hx y s s' Hcx Hy Hs Hs' E') as [Exy ->]. simpl in Exy. by subst.
Qed.
