(* ===== verification/CanonicalIdentity.v ===== *)
(** * What a canonical encoding identifies

    UTF-8 determines the text it encodes, on both paths of the encoder; the
    bytes of an admitted value determine its normal form, and those of a
    definition determine its domain, version, scope and content. *)

From stdpp Require Import sorting.
From S2P Require Import Prelude Errors BigInts Primitives PolicyTime ExactArithmetic CanonicalJson.
From S2P Require Import CanonicalJsonProofs.
#[local] Open Scope Z_scope.

(** ** Code points *)

Definition is_code_point (c : Z) : bool := (0 <=? c) && (c <=? 1114111) && negb (is_surrogate c).

(** The code units of a code point. *)
Definition units_of (c : Z) : text :=
  if c <? 65536 then [c] else [55296 + (c - 65536) / 1024; 56320 + (c - 65536) mod 1024].

(** The cases in which [code_points] reads a text. *)
Lemma code_points_ind (P : text -> list Z -> Prop) :
  P [] [] ->
  (forall high low rest, 55296 <= high <= 56319 -> 56320 <= low <= 57343 -> P rest (code_points rest) ->
     P (high :: low :: rest) ((65536 + (high - 55296) * 1024 + (low - 56320)) :: code_points rest)) ->
  (forall u rest, (55296 <= u <= 56319 -> forall low, head rest = Some low -> ~ 56320 <= low <= 57343) ->
     P rest (code_points rest) -> P (u :: rest) (u :: code_points rest)) ->
  forall value, P value (code_points value).
Proof.
  intros H0 H2 H1 value.
  cut (P value (code_points value) /\ forall u, P (u :: value) (code_points (u :: value))); [by intros [? _]|].
  induction value as [|low rest [IH IHu]].
  - split; [done|]. intros u. by apply (H1 u []).
  - split; [apply IHu|]. intros u. cbn [code_points]. destruct (_ && _ && _ && _) eqn:E; breflect.
    + apply H2; [lia|lia|done].
    + apply (H1 u (low :: rest)); [|apply IHu]. intros Hu low' [= <-]. lia.
Qed.

(** The code points spell the text. *)
Lemma units_of_code_points value :
  is_text value = true -> concat (units_of <$> code_points value) = value.
Proof.
  apply (code_points_ind (fun value points => is_text value = true -> concat (units_of <$> points) = value));
    [done| |].
  - intros high low rest Hh Hl IH. unfold is_text. csimpl. breflect. intros [_ [_ Hr]]. rewrite IH by done.
    unfold units_of. destruct (Z.ltb_spec (65536 + (high - 55296) * 1024 + (low - 56320)) 65536); [lia|].
    replace (65536 + (high - 55296) * 1024 + (low - 56320) - 65536)
      with ((low - 56320) + (high - 55296) * 1024) by lia.
    rewrite Z.div_add, Z.mod_add, Z.div_small, Z.mod_small by lia. simpl. do 2 f_equal; lia.
  - intros u rest _ IH. unfold is_text. csimpl. breflect. intros [[_ Hu] Hr]. rewrite IH by done.
    unfold units_of. destruct (Z.ltb_spec u 65536); [done|lia].
Qed.

Lemma code_points_inj v w :
  is_text v = true -> is_text w = true -> code_points v = code_points w -> v = w.
Proof. intros Hv Hw E. by rewrite <- (units_of_code_points v), <- (units_of_code_points w), E. Qed.

(** A text without unpaired surrogates has scalar code points. *)
Lemma code_points_scalar value :
  is_text value = true -> containsUnpairedSurrogate value = false ->
  Forall (fun c => is_code_point c = true) (code_points value).
Proof.
  unfold containsUnpairedSurrogate.
  apply (code_points_ind (fun value points => is_text value = true -> existsb is_surrogate points = false ->
    Forall (fun c => is_code_point c = true) points)); [constructor| |].
  - intros high low rest Hh Hl IH. unfold is_text. simpl. breflect. intros [_ [_ Hr]] [_ Hs].
    constructor; [|by apply IH]. unfold is_code_point, is_surrogate. breflect. lia.
  - intros u rest _ IH. unfold is_text. simpl. breflect. intros [[? ?] Hr] [Hu Hs].
    constructor; [|by apply IH]. unfold is_code_point. rewrite Hu. breflect. lia.
Qed.

(** ** Bytes *)

(** Setting the marker bits adds the marker. *)
Lemma marker_bits :
  forallb (fun x => Z.lor 192 x =? 192 + x) (seqZ 0 32) && forallb (fun x => Z.lor 128 x =? 128 + x) (seqZ 0 64) &&
  forallb (fun x => Z.lor 224 x =? 224 + x) (seqZ 0 16) && forallb (fun x => Z.lor 240 x =? 240 + x) (seqZ 0 8) = true.
Proof. vm_compute. reflexivity. Qed.

Lemma marker_adds m n :
  In (m, n) [(192, 32); (128, 64); (224, 16); (240, 8)] ->
  forall x, 0 <= x < n -> Z.lor m x = m + x.
Proof.
  intros Hin x Hx. pose proof marker_bits as H. rewrite !andb_true_iff, !forallb_forall in H.
  destruct H as [[[H1 H2] H3] H4].
  assert (Hs : forall k, x < k -> In x (seqZ 0 k)) by (intros; apply list_elem_of_In, elem_of_seqZ; lia).
  simpl in Hin. destruct Hin as [[= <- <-]|[[= <- <-]|[[= <- <-]|[[= <- <-]|[]]]]]; apply Z.eqb_eq.
  - apply H1, Hs. lia.
  - apply H2, Hs. lia.
  - apply H3, Hs. lia.
  - apply H4, Hs. lia.
Qed.

Lemma shiftr_div c n : 0 <= n -> Z.shiftr c n = c / 2 ^ n.
Proof. intros. by apply Z.shiftr_div_pow2. Qed.

Lemma land_63 c : Z.land c 63 = c mod 64.
Proof. apply (Z.land_ones c 6). lia. Qed.

(** The bytes of a code point, as arithmetic. *)
Definition utf8_arithmetic (c : Z) : list Z :=
  if c <=? 127 then [c]
  else if c <=? 2047 then [192 + c / 64; 128 + c mod 64]
  else if c <=? 65535 then [224 + c / 4096; 128 + c / 64 mod 64; 128 + c mod 64]
  else [240 + c / 262144; 128 + c / 4096 mod 64; 128 + c / 64 mod 64; 128 + c mod 64].

Lemma utf8_of_arithmetic c : 0 <= c <= 1114111 -> utf8_of c = utf8_arithmetic c.
Proof.
  intros Hc. unfold utf8_of, utf8_arithmetic. rewrite !shiftr_div, !land_63 by lia.
  assert (Hm : forall d, Z.lor 128 (d mod 64) = 128 + d mod 64).
  { intros d. apply (marker_adds 128 64); [simpl; auto|]. apply Z.mod_pos_bound. lia. }
  rewrite !Hm. repeat case_match; breflect; f_equal.
  - apply (marker_adds 192 32); [simpl; auto|]. split; [apply Z.div_pos; lia|apply Z.div_lt_upper_bound; lia].
  - apply (marker_adds 224 16); [simpl; auto|]. split; [apply Z.div_pos; lia|apply Z.div_lt_upper_bound; lia].
  - apply (marker_adds 240 8); [simpl; auto|]. split; [apply Z.div_pos; lia|apply Z.div_lt_upper_bound; lia].
Qed.

Lemma utf8_arithmetic_inj c d a b :
  0 <= c <= 1114111 -> 0 <= d <= 1114111 ->
  utf8_arithmetic c ++ a = utf8_arithmetic d ++ b -> c = d /\ a = b.
Proof.
  intros Hc Hd. unfold utf8_arithmetic.
  repeat case_match; breflect; simpl; intros E; injection E; intros; subst;
    try (split; [Z.to_euclidean_division_equations; lia|done]); exfalso; Z.to_euclidean_division_equations; lia.
Qed.

Lemma utf8_concat_inj l k :
  Forall (fun c => is_code_point c = true) l -> Forall (fun c => is_code_point c = true) k ->
  concat (utf8_of <$> l) = concat (utf8_of <$> k) -> l = k.
Proof.
  assert (Hr : forall c, is_code_point c = true -> 0 <= c <= 1114111)
    by (unfold is_code_point; intros; breflect; lia).
  assert (Hne : forall c, utf8_arithmetic c <> []) by (intros; unfold utf8_arithmetic; by repeat case_match).
  intros Hl. revert k. induction Hl as [|c l Hc Hl IH]; intros k Hk E; destruct Hk as [|d k Hd Hk]; csimpl in *; [done|..].
  - rewrite utf8_of_arithmetic in E by auto. symmetry in E. apply app_eq_nil in E as [E _]. by apply Hne in E.
  - rewrite utf8_of_arithmetic in E by auto. apply app_eq_nil in E as [E _]. by apply Hne in E.
  - rewrite !utf8_of_arithmetic in E by auto. apply utf8_arithmetic_inj in E as [-> E]; [|auto..].
    by rewrite (IH k).
Qed.

Lemma utf8_bytes_inj v w :
  is_text v = true -> is_text w = true ->
  containsUnpairedSurrogate v = false -> containsUnpairedSurrogate w = false ->
  utf8_bytes v = utf8_bytes w -> v = w.
Proof.
  intros Hv Hw Sv Sw E. apply code_points_inj; [done..|].
  apply utf8_concat_inj; [by apply code_points_scalar..|done].
Qed.

(** The first loop counts the bytes the second writes. *)
Lemma utf8_length_bytes value :
  is_text value = true -> containsUnpairedSurrogate value = false ->
  utf8_length value = length (utf8_bytes value).
Proof.
  unfold containsUnpairedSurrogate, utf8_bytes.
  apply (code_points_ind (fun value points => is_text value = true -> existsb is_surrogate points = false ->
    utf8_length value = length (concat (utf8_of <$> points)))); [done| |].
  - intros high low rest Hh Hl IH. unfold is_text. csimpl. breflect. intros [_ [_ Hr]] [_ Hs].
    rewrite length_app, <- (IH Hr Hs). unfold utf8_of. repeat case_match; breflect; simpl; lia.
  - intros u rest _ IH. unfold is_text. csimpl. breflect. intros [[? ?] Hr] [Hu Hs].
    rewrite length_app, <- (IH Hr Hs). unfold is_surrogate, utf8_of in *. repeat case_match; breflect; simpl; lia.
Qed.

(** The array the portable loop allocates is exactly filled. *)
Lemma portable_exact value :
  is_text value = true -> containsUnpairedSurrogate value = false ->
  encodeUtf8_portable value = utf8_bytes value.
Proof.
  intros Ht Hs. unfold encodeUtf8_portable. rewrite utf8_length_bytes by done. apply resize_all.
Qed.

Lemma encodeUtf8_exact `{NativeTextEncoder} value :
  is_text value = true -> containsUnpairedSurrogate value = false -> encodeUtf8 value = utf8_bytes value.
Proof.
  intros Ht Hs. unfold encodeUtf8. destruct nativeEncode as [encode|] eqn:E; [|by apply portable_exact].
  by apply nativeEncode_utf8.
Qed.

(** ** Scalar text *)

Lemma scalar_text_iff t : scalar_text t = true <-> is_text t = true /\ containsUnpairedSurrogate t = false.
Proof. unfold scalar_text. by breflect. Qed.

(** After a text without unpaired surrogates, reading starts afresh. *)
Lemma code_points_app a b :
  containsUnpairedSurrogate a = false -> code_points (a ++ b) = code_points a ++ code_points b.
Proof.
  unfold containsUnpairedSurrogate.
  apply (code_points_ind (fun a points => existsb is_surrogate points = false ->
    code_points (a ++ b) = points ++ code_points b)); [done| |].
  - intros high low rest Hh Hl IH. simpl. breflect. intros [_ Hs]. rewrite <- (IH Hs).
    rewrite (proj2 (Z.leb_le 55296 high)), (proj2 (Z.leb_le high 56319)), (proj2 (Z.leb_le 56320 low)),
      (proj2 (Z.leb_le low 57343)) by lia. done.
  - intros u rest _ IH. cbn [existsb]. rewrite orb_false_iff. intros [Hu Hs]. cbn [app]. rewrite <- (IH Hs).
    unfold is_surrogate in Hu. cbn [code_points]. destruct (rest ++ b) as [|low rest']; [done|].
    destruct (_ && _ && _ && _) eqn:E; [|done]. breflect. lia.
Qed.

Lemma scalar_app a b : scalar_text a = true -> scalar_text b = true -> scalar_text (a ++ b) = true.
Proof.
  rewrite !scalar_text_iff. unfold is_text. intros [Ha Sa] [Hb Sb]. rewrite forallb_app, Ha, Hb.
  split; [done|]. unfold containsUnpairedSurrogate in *. rewrite code_points_app, existsb_app, Sa, Sb by done. done.
Qed.

(** Code units that are no surrogates at all. *)
Definition plain_text (t : text) : bool := forallb (fun u => (0 <=? u) && (u <=? 65535) && negb (is_surrogate u)) t.

Lemma plain_scalar t : plain_text t = true -> scalar_text t = true.
Proof.
  induction t as [|u t IH]; [done|]. unfold plain_text. simpl. rewrite andb_true_iff. intros [Hu Ht].
  change (u :: t) with ([u] ++ t). apply scalar_app; [|by apply IH].
  apply scalar_text_iff. unfold is_text, containsUnpairedSurrogate. simpl. breflect. by destruct Hu as [[? ?] ->].
Qed.

Lemma plain_ascii s : plain_text (text_of s) = true.
Proof.
  unfold plain_text, text_of. apply forallb_forall. intros u (c & -> & _)%list_elem_of_In%list_elem_of_fmap.
  pose proof (Ascii.N_ascii_bounded c) as Hb. unfold is_surrogate. breflect. lia.
Qed.

(** Digits are plain text. *)
Lemma digits_plain l : forallb is_decimal_digit l = true -> plain_text (digits_text l) = true.
Proof.
  unfold plain_text, digits_text. rewrite !forallb_Forall, Forall_fmap. intros H. apply (Forall_impl _ _ _ H). intros d.
  unfold is_decimal_digit, is_surrogate. simpl. breflect. lia.
Qed.

Lemma plain_app a b : plain_text a = true -> plain_text b = true -> plain_text (a ++ b) = true.
Proof. unfold plain_text. rewrite forallb_app. by intros -> ->. Qed.

Definition ascii_text (t : text) : bool := forallb (fun u => (0 <=? u) && (u <=? 127)) t.

Lemma ascii_app a b : ascii_text a = true -> ascii_text b = true -> ascii_text (a ++ b) = true.
Proof. unfold ascii_text. rewrite forallb_app. by intros -> ->. Qed.

Lemma ascii_plain t : ascii_text t = true -> plain_text t = true.
Proof.
  unfold ascii_text, plain_text, is_surrogate. rewrite !forallb_forall. intros H u Hu%H. breflect. lia.
Qed.

Lemma units_ascii t : forallb digit_unit t = true -> ascii_text t = true.
Proof.
  unfold ascii_text, digit_unit. rewrite !forallb_forall. intros H u Hu%H. breflect. lia.
Qed.

(** Numbers are written in ASCII. *)
Lemma number_text_ascii value : number_ok value = true -> ascii_text (number_text value) = true.
Proof.
  intros (sign & whole & fraction & exponent & -> & _ & Hw & Hf & _)%number_text_parts. repeat apply ascii_app.
  - by destruct sign.
  - by apply units_ascii, digits_text_units.
  - destruct fraction as [|d l]; [done|]. apply (ascii_app [46]); [done|]. by apply units_ascii, digits_text_units.
  - destruct exponent as [e|]; [|done]. unfold exponent_part, exponent_text. cbn [fmap option_fmap option_map default].
    apply ascii_app; [by case_match|]. apply units_ascii, toString_units. lia.
Qed.

Lemma scalar_concat l : Forall (fun t => scalar_text t = true) l -> scalar_text (concat l) = true.
Proof. induction 1; simpl; [done|]. by apply scalar_app. Qed.

Lemma stringify_unit_plain u : 0 <= u <= 65535 -> is_surrogate u = false -> plain_text (stringify_unit u) = true.
Proof.
  intros Hu Hs. unfold stringify_unit. repeat case_match; try reflexivity; breflect.
  - assert (0 <= u / 16 < 2) by (split; [apply Z.div_pos; lia|apply Z.div_lt_upper_bound; lia]).
    pose proof (Z.mod_pos_bound u 16 ltac:(lia)). unfold plain_text, hex_digit, is_surrogate. simpl.
    repeat case_match; breflect; lia.
  - unfold plain_text. simpl. rewrite Hs. breflect. lia.
Qed.

Lemma stringify_scalar t : scalar_text t = true -> scalar_text (stringify_text t) = true.
Proof.
  rewrite (scalar_text_iff t). intros [Ht Hs]. revert Ht Hs. unfold containsUnpairedSurrogate, stringify_text.
  intros Ht Hs. apply scalar_app; [done|]. apply scalar_app; [|done]. revert Ht Hs.
  apply (code_points_ind (fun t points => is_text t = true -> existsb is_surrogate points = false ->
    scalar_text (concat (stringify_unit <$> t)) = true)); [done| |].
  - intros high low rest Hh Hl IH. unfold is_text. csimpl. breflect. intros [_ [_ Hr]] [_ Hs].
    replace (stringify_unit high) with [high] by (unfold stringify_unit; repeat case_match; breflect; lia || done).
    replace (stringify_unit low) with [low] by (unfold stringify_unit; repeat case_match; breflect; lia || done).
    rewrite app_assoc. apply scalar_app; [|by apply IH].
    apply scalar_text_iff. unfold is_text, containsUnpairedSurrogate, is_surrogate. simpl.
    rewrite (proj2 (Z.leb_le 55296 high)), (proj2 (Z.leb_le high 56319)), (proj2 (Z.leb_le 56320 low)),
      (proj2 (Z.leb_le low 57343)) by lia. simpl. breflect. lia.
  - intros u rest _ IH. unfold is_text. csimpl. breflect. intros [Hu Hr] [Hs Hsr].
    apply scalar_app; [|by apply IH]. apply plain_scalar, stringify_unit_plain; [lia|done].
Qed.

Lemma join_scalar l : Forall (fun t => scalar_text t = true) l -> scalar_text (join_comma l) = true.
Proof.
  intros [|t k Ht Hk]; [done|]. simpl. apply scalar_app; [done|]. apply scalar_concat, Forall_fmap.
  apply (Forall_impl _ _ _ Hk). intros next Hn. by apply (scalar_app [44]).
Qed.

(** The text of a value is scalar. *)
Lemma render_scalar v : clean v = true -> scalar_text (render v) = true.
Proof.
  induction v as [|b|n| |t|items IH|members IH|] using Json_nested_ind; cbn [clean render]; intros Hv; try done.
  - by destruct b.
  - apply andb_true_iff in Hv as [Hv _]. by apply plain_scalar, ascii_plain, number_text_ascii.
  - by apply stringify_scalar.
  - apply scalar_app; [done|]. apply scalar_app; [|done]. apply join_scalar, Forall_fmap.
    apply clean_items in Hv. rewrite Forall_forall in *. intros x Hx. by apply IH, Hv.
  - apply scalar_app; [done|]. apply scalar_app; [|done]. apply join_scalar, Forall_fmap.
    apply clean_members in Hv. rewrite Forall_forall in *. intros m Hm. destruct (Hv m Hm) as [Hk Hc].
    apply scalar_app; [by apply stringify_scalar|]. by apply (scalar_app [58]), IH.
Qed.

(** The normal form of an admitted value is clean. *)
Lemma clean_canonical levels v :
  well_formed v = true -> admissible levels v = true -> clean (canonical v) = true.
Proof.
  revert v. induction levels as [|levels IH]; intros v Hv Ha; [done|].
  destruct v as [| |n| |t|items|members|]; simpl in *; try done.
  - unfold plain_zero. destruct (number_digits n) eqn:E; [done|]. rewrite Hv, bool_decide_true; [done|]. by rewrite E.
  - unfold scalar_text. by rewrite Hv.
  - rewrite forallb_forall in *. intros x (y & -> & Hy%list_elem_of_In)%list_elem_of_In%list_elem_of_fmap. auto.
  - apply andb_true_iff in Hv as [Hnd Hv]. rewrite (forallb_perm _ _ _ (sort_members_perm _)).
    rewrite forallb_forall in *. intros x (y & -> & Hy%list_elem_of_In)%list_elem_of_In%list_elem_of_fmap.
    specialize (Hv _ Hy). specialize (Ha _ Hy). simpl. unfold scalar_text. breflect.
    destruct Hv as [-> Hv], Ha as [-> Ha]. simpl. auto.
Qed.

(** ** Bytes *)

Section identity.
Context `{NativeTextEncoder}.

Lemma encode_iff v bytes :
  well_formed v = true ->
  encodeEvaluationCanonicalJson v = Ok bytes <->
  admitted v = true /\ bytes = utf8_bytes (render (canonical v)).
Proof.
  intros Hv. unfold encodeEvaluationCanonicalJson. rewrite bind_Ok. setoid_rewrite (serialize_iff v _ Hv).
  assert (Hu : admitted v = true -> encodeUtf8 (render (canonical v)) = utf8_bytes (render (canonical v))).
  { intros Ha. apply (clean_canonical _ _ Hv), render_scalar, scalar_text_iff in Ha as [? ?].
    by apply encodeUtf8_exact. }
  split.
  - intros (s & [Ha ->] & [= <-]). by rewrite Hu.
  - intros [Ha ->]. eexists. split; [done|]. by rewrite Hu.
Qed.

(** Equal bytes, equal normal forms. *)
Lemma encode_inj v w bytes :
  well_formed v = true -> well_formed w = true ->
  encodeEvaluationCanonicalJson v = Ok bytes -> encodeEvaluationCanonicalJson w = Ok bytes ->
  canonical v = canonical w.
Proof.
  intros Hv Hw [Av ->]%encode_iff [Aw E]%encode_iff; [|done..].
  pose proof (clean_canonical _ _ Hv Av) as Cv. pose proof (clean_canonical _ _ Hw Aw) as Cw.
  pose proof (render_scalar _ Cv) as [Tv Sv]%scalar_text_iff.
  pose proof (render_scalar _ Cw) as [Tw Sw]%scalar_text_iff.
  apply utf8_bytes_inj in E; [|done..].
  apply (render_inj _ _ [] []); [done|done|apply stops_nil|apply stops_nil|by rewrite E].
Qed.

(** C21. The canonical encoder answers exactly for JSON nested at most 64 levels
    deep in Unicode scalar values, with any finite numbers, each given by the
    shortest decimal that denotes it.  The bytes of two such values are the same
    exactly when the values are the same up to the order of the members of their
    objects and the sign of zero: neither the four ways a number is written, nor
    the cache of encoded keys, nor the choice between the host's UTF-8 encoder
    and the portable loops shows. *)
Theorem canonical_bytes_identify v w :
  well_formed v = true -> well_formed w = true ->
  is_ok (encodeEvaluationCanonicalJson v) = admitted v /\
  (admitted v = true -> admitted w = true ->
   encodeEvaluationCanonicalJson v = encodeEvaluationCanonicalJson w <-> canonical v = canonical w).
Proof.
  intros Hv Hw. split.
  - apply eq_true_iff_eq. split.
    + destruct (encodeEvaluationCanonicalJson v) as [bytes|] eqn:E; [|done]. by apply encode_iff in E as [? _].
    + intros Ha. by rewrite (proj2 (encode_iff v _ Hv) (conj Ha eq_refl)).
  - intros Av Aw.
    pose proof (proj2 (encode_iff v _ Hv) (conj Av eq_refl)) as Ev.
    pose proof (proj2 (encode_iff w _ Hw) (conj Aw eq_refl)) as Ew. split.
    + intros E. apply (encode_inj v w _ Hv Hw Ev). by rewrite <- E.
    + intros E. by rewrite Ev, Ew, E.
Qed.

(** ** Definitions *)

Lemma is_text_ascii s : is_text (text_of s) = true.
Proof. by apply scalar_is_text, plain_scalar, plain_ascii. Qed.

Lemma scope_well_formed scope : well_formed (scope_json scope) = true.
Proof. destruct scope as [e p t]. simpl. by rewrite !is_text_ascii. Qed.

Lemma definition_well_formed d sv scope def :
  well_formed def = true -> well_formed (definition_json d sv scope def) = true.
Proof.
  intros Hdef. unfold definition_json. cbn [well_formed]. rewrite andb_true_iff. split; [done|].
  cbn [forallb fst snd well_formed]. by rewrite Hdef, scope_well_formed, !is_text_ascii.
Qed.

Lemma canonical_scope scope : canonical (scope_json scope) = scope_json scope.
Proof.
  by destruct scope.
Qed.

(** The members of a definition are already in the order of their keys. *)
Lemma canonical_definition d sv scope def :
  canonical (definition_json d sv scope def) = definition_json d sv scope (canonical def).
Proof.
  by destruct scope.
Qed.

Lemma admissible_definition levels d sv scope def :
  admissible (S (S levels)) def = true -> admissible (S (S (S levels))) (definition_json d sv scope def) = true.
Proof.
  intros Hdef. unfold definition_json, scope_json. set (l := S (S levels)) in *.
  assert (Ht : forall s, containsUnpairedSurrogate (text_of s) = false)
    by (intros s; by apply scalar_text_iff, plain_scalar, plain_ascii).
  cbn [admissible forallb fst snd]. rewrite Hdef. unfold l. cbn [admissible forallb fst snd]. by rewrite !Ht.
Qed.

Lemma definition_admitted d sv scope def :
  admissible MAX_CANONICAL_NESTING_DEPTH def = true -> admitted (definition_json d sv scope def) = true.
Proof. apply (admissible_definition 62). Qed.

(** C40. The object that is hashed for an evaluation definition, whichever the 33
    encoders and whatever their schemas accept: for two definitions nested at
    most 63 levels deep, in two scopes and of two domains and schema versions,
    the bytes are the same exactly when the domain, the schema version, the
    tenant, the project and the environment are, and the contents are the same
    up to the order of members and the sign of zero. *)
Theorem definition_encoding_separates d d' sv sv' scope scope' def def' :
  well_formed def = true -> well_formed def' = true ->
  admissible MAX_CANONICAL_NESTING_DEPTH def = true -> admissible MAX_CANONICAL_NESTING_DEPTH def' = true ->
  encodeDefinition d sv scope def = encodeDefinition d' sv' scope' def' <->
  d = d' /\ sv = sv' /\ scope = scope' /\ canonical def = canonical def'.
Proof.
  intros Hw Hw' Ha%(definition_admitted d sv scope) Ha'%(definition_admitted d' sv' scope').
  apply (definition_well_formed d sv scope) in Hw. apply (definition_well_formed d' sv' scope') in Hw'.
  pose proof (proj2 (encode_iff _ _ Hw) (conj Ha eq_refl)) as E.
  pose proof (proj2 (encode_iff _ _ Hw') (conj Ha' eq_refl)) as E'. unfold encodeDefinition. split.
  - rewrite E'. intros Heq. apply (encode_inj _ _ _ Hw Hw' Heq) in E'. rewrite !canonical_definition in E'.
    unfold definition_json, scope_json in E'. destruct scope, scope'. injection E' as H1 H2 H3 H4 H5 H6.
    split_and!; [by apply text_of_inj|by apply text_of_inj| |done]. f_equal; by apply text_of_inj.
  - intros (<- & <- & <- & Hc). rewrite E, E', !canonical_definition, Hc. done.
Qed.
End identity.
