(* ===== verification/PolicySources.v ===== *)
(** * Sources a policy evaluation retains

    [packages/contracts/src/policy-evaluation-source-reference.ts]: the union of
    exact references to immutable records, the repository identity of a source
    as a text key, and the schema of such keys; the observation of
    [policy-evaluation-manifest.ts].  References of two and of three opaque
    fields share a record each. *)

From S2P Require Import Prelude Errors Regex Primitives PolicyTime PolicyEvaluationJob.
From S2P Require Import PolicyJobSnapshot ExactArithmetic ReplayPlan ReplayJob.
From S2P Require Import ComparisonContracts ComparisonSnapshot ComparisonResults.
From S2P Require Import ComparisonPairing ComparisonKeys.
From Stdlib Require Import Ascii.
#[local] Open Scope Z_scope.

(** ** References *)

(** An identifier and the digest of the record. *)
Record NamedReference := { named_id : string; named_definitionSha256 : string }.

(** A logical identifier, the identifier of the version, and the digest. *)
Record VersionedReference := {
  versioned_id : string;
  versioned_versionId : string;
  versioned_definitionSha256 : string;
}.

Record ReleaseCandidateComparisonReference := {
  candidateComparison_definitionSha256 : string;
  candidateComparison_resultId : string;
}.

Record ComparisonEvidenceSnapshotReference := {
  snapshotRole_definitionSha256 : string;
  snapshotRole_role : ComparisonRole;
  snapshotRole_snapshotId : string;
}.

Record EvaluationRunResultReference := {
  runResult_definitionSha256 : string;
  runResult_evaluationRunId : string;
  runResult_resultId : string;
}.

#[global] Instance NamedReference_eq_dec : EqDecision NamedReference.
Proof. solve_decision. Defined.
#[global] Instance VersionedReference_eq_dec : EqDecision VersionedReference.
Proof. solve_decision. Defined.
#[global] Instance ReleaseCandidateComparisonReference_eq_dec : EqDecision ReleaseCandidateComparisonReference.
Proof. solve_decision. Defined.
#[global] Instance ComparisonEvidenceSnapshotReference_eq_dec : EqDecision ComparisonEvidenceSnapshotReference.
Proof. solve_decision. Defined.
#[global] Instance EvaluationRunResultReference_eq_dec : EqDecision EvaluationRunResultReference.
Proof. solve_decision. Defined.
#[global] Instance ReplayRuntimeProfileReference_eq_dec : EqDecision ReplayRuntimeProfileReference.
Proof. solve_decision. Defined.
#[global] Instance ReplayIsolationProfileReference_eq_dec : EqDecision ReplayIsolationProfileReference.
Proof. solve_decision. Defined.

Definition NamedReferenceSchema (r : NamedReference) : bool :=
  OpaqueIdSchema (named_id r) && Sha256Schema (named_definitionSha256 r).

Definition VersionedReferenceSchema (r : VersionedReference) : bool :=
  OpaqueIdSchema (versioned_id r) && OpaqueIdSchema (versioned_versionId r) &&
  Sha256Schema (versioned_definitionSha256 r).

(** The version of an endpoint profile is a protocol version. *)
Definition EndpointProfileReferenceSchema (r : VersionedReference) : bool :=
  Sha256Schema (versioned_definitionSha256 r) && OpaqueIdSchema (versioned_id r) &&
  ProtocolVersionSchema (versioned_versionId r).

Definition ReleaseCandidateComparisonReferenceSchema (r : ReleaseCandidateComparisonReference) : bool :=
  Sha256Schema (candidateComparison_definitionSha256 r) && OpaqueIdSchema (candidateComparison_resultId r).

Definition ComparisonEvidenceSnapshotReferenceSchema (r : ComparisonEvidenceSnapshotReference) : bool :=
  Sha256Schema (snapshotRole_definitionSha256 r) && OpaqueIdSchema (snapshotRole_snapshotId r).

Definition EvaluationRunResultReferenceSchema (r : EvaluationRunResultReference) : bool :=
  Sha256Schema (runResult_definitionSha256 r) && OpaqueIdSchema (runResult_evaluationRunId r) &&
  OpaqueIdSchema (runResult_resultId r).

(** ** The union *)

Inductive PolicyEvaluationSourceReference : Type :=
| source_protocol_definition (reference : NamedReference)
| source_endpoint_profile (reference : VersionedReference)
| source_aggregation_policy (reference : VersionedReference)
| source_assessment (reference : AssessmentReference)
| source_discovery_record (reference : NamedReference)
| source_evaluation_run_rejection (reference : NamedReference)
| source_model_assisted_evaluator_spec (reference : VersionedReference)
| source_blinded_plan (reference : VersionedReference)
| source_blinded_result (reference : NamedReference)
| source_calibration_report (reference : NamedReference)
| source_comparison_definition (reference : ComparisonDefinitionReference)
| source_comparison_result (reference : ReleaseCandidateComparisonReference)
| source_comparison_snapshot (reference : ComparisonEvidenceSnapshotReference)
| source_criterion_set (reference : CriterionSetReference)
| source_criterion_set_status (reference : NamedReference)
| source_dataset_version (reference : EvaluationDatasetVersionReference)
| source_evaluation_aggregate (reference : NamedReference)
| source_evaluation_run (reference : NamedReference)
| source_evaluation_implementation_registration (reference : VersionedReference)
| source_evaluation_run_result (reference : EvaluationRunResultReference)
| source_evaluator_spec (reference : VersionedReference)
| source_human_review_protocol (reference : VersionedReference)
| source_human_review_record (reference : NamedReference)
| source_human_reviewer_independence (reference : NamedReference)
| source_independence_declaration (reference : NamedReference)
| source_independent_critique (reference : NamedReference)
| source_model_assurance_assessment (reference : ModelAssuranceAssessmentReference)
| source_model_evaluator_profile (reference : VersionedReference)
| source_model_qualification_report (reference : NamedReference)
| source_model_qualification_suite (reference : VersionedReference)
| source_oracle_spec (reference : VersionedReference)
| source_policy_installation_binding (reference : VersionedReference)
| source_qualification_fixture_set (reference : VersionedReference)
| source_qualification_report (reference : NamedReference)
| source_qualification_policy (reference : VersionedReference)
| source_raw_observation (reference : RawObservationReference)
| source_regression_fixture_version (reference : RegressionFixtureVersionReference)
| source_release_candidate (reference : ReleaseCandidateReference)
| source_release_policy (reference : ReleasePolicyReference)
| source_replay_isolation_profile (reference : ReplayIsolationProfileReference)
| source_replay_plan (reference : ReplayPlanJobReference)
| source_replay_result (reference : EvaluationReplayResultReference)
| source_replay_runtime_profile (reference : ReplayRuntimeProfileReference)
| source_runtime_adapter (reference : VersionedReference)
| source_source_review (reference : NamedReference)
| source_source_reviewer_qualification (reference : NamedReference)
| source_source_snapshot (reference : NamedReference)
| source_target_release (reference : TargetReleaseReference).

#[global] Instance PolicyEvaluationSourceReference_eq_dec : EqDecision PolicyEvaluationSourceReference.
Proof. solve_decision. Defined.

(** The [kind] of a source. *)
Definition source_kind (value : PolicyEvaluationSourceReference) : string :=
  match value with
  | source_protocol_definition _ => "protocol_definition"
  | source_endpoint_profile _ => "endpoint_profile"
  | source_aggregation_policy _ => "aggregation_policy"
  | source_assessment _ => "assessment"
  | source_discovery_record _ => "discovery_record"
  | source_evaluation_run_rejection _ => "evaluation_run_rejection"
  | source_model_assisted_evaluator_spec _ => "model_assisted_evaluator_spec"
  | source_blinded_plan _ => "blinded_plan"
  | source_blinded_result _ => "blinded_result"
  | source_calibration_report _ => "calibration_report"
  | source_comparison_definition _ => "comparison_definition"
  | source_comparison_result _ => "comparison_result"
  | source_comparison_snapshot _ => "comparison_snapshot"
  | source_criterion_set _ => "criterion_set"
  | source_criterion_set_status _ => "criterion_set_status"
  | source_dataset_version _ => "dataset_version"
  | source_evaluation_aggregate _ => "evaluation_aggregate"
  | source_evaluation_run _ => "evaluation_run"
  | source_evaluation_implementation_registration _ => "evaluation_implementation_registration"
  | source_evaluation_run_result _ => "evaluation_run_result"
  | source_evaluator_spec _ => "evaluator_spec"
  | source_human_review_protocol _ => "human_review_protocol"
  | source_human_review_record _ => "human_review_record"
  | source_human_reviewer_independence _ => "human_reviewer_independence"
  | source_independence_declaration _ => "independence_declaration"
  | source_independent_critique _ => "independent_critique"
  | source_model_assurance_assessment _ => "model_assurance_assessment"
  | source_model_evaluator_profile _ => "model_evaluator_profile"
  | source_model_qualification_report _ => "model_qualification_report"
  | source_model_qualification_suite _ => "model_qualification_suite"
  | source_oracle_spec _ => "oracle_spec"
  | source_policy_installation_binding _ => "policy_installation_binding"
  | source_qualification_fixture_set _ => "qualification_fixture_set"
  | source_qualification_report _ => "qualification_report"
  | source_qualification_policy _ => "qualification_policy"
  | source_raw_observation _ => "raw_observation"
  | source_regression_fixture_version _ => "regression_fixture_version"
  | source_release_candidate _ => "release_candidate"
  | source_release_policy _ => "release_policy"
  | source_replay_isolation_profile _ => "replay_isolation_profile"
  | source_replay_plan _ => "replay_plan"
  | source_replay_result _ => "replay_result"
  | source_replay_runtime_profile _ => "replay_runtime_profile"
  | source_runtime_adapter _ => "runtime_adapter"
  | source_source_review _ => "source_review"
  | source_source_reviewer_qualification _ => "source_reviewer_qualification"
  | source_source_snapshot _ => "source_snapshot"
  | source_target_release _ => "target_release"
  end.

(** The kinds the union registers, in its order. *)
Definition source_kinds : list string :=
  ["protocol_definition";
   "endpoint_profile";
   "aggregation_policy";
   "assessment";
   "discovery_record";
   "evaluation_run_rejection";
   "model_assisted_evaluator_spec";
   "blinded_plan";
   "blinded_result";
   "calibration_report";
   "comparison_definition";
   "comparison_result";
   "comparison_snapshot";
   "criterion_set";
   "criterion_set_status";
   "dataset_version";
   "evaluation_aggregate";
   "evaluation_run";
   "evaluation_implementation_registration";
   "evaluation_run_result";
   "evaluator_spec";
   "human_review_protocol";
   "human_review_record";
   "human_reviewer_independence";
   "independence_declaration";
   "independent_critique";
   "model_assurance_assessment";
   "model_evaluator_profile";
   "model_qualification_report";
   "model_qualification_suite";
   "oracle_spec";
   "policy_installation_binding";
   "qualification_fixture_set";
   "qualification_report";
   "qualification_policy";
   "raw_observation";
   "regression_fixture_version";
   "release_candidate";
   "release_policy";
   "replay_isolation_profile";
   "replay_plan";
   "replay_result";
   "replay_runtime_profile";
   "runtime_adapter";
   "source_review";
   "source_reviewer_qualification";
   "source_snapshot";
   "target_release"]%string.

Definition PolicyEvaluationSourceReferenceSchema (value : PolicyEvaluationSourceReference) : bool :=
  match value with
  | source_protocol_definition reference => NamedReferenceSchema reference
  | source_endpoint_profile reference => EndpointProfileReferenceSchema reference
  | source_aggregation_policy reference => VersionedReferenceSchema reference
  | source_assessment reference => AssessmentReferenceSchema reference
  | source_discovery_record reference => NamedReferenceSchema reference
  | source_evaluation_run_rejection reference => NamedReferenceSchema reference
  | source_model_assisted_evaluator_spec reference => VersionedReferenceSchema reference
  | source_blinded_plan reference => VersionedReferenceSchema reference
  | source_blinded_result reference => NamedReferenceSchema reference
  | source_calibration_report reference => NamedReferenceSchema reference
  | source_comparison_definition reference => ComparisonDefinitionReferenceSchema reference
  | source_comparison_result reference => ReleaseCandidateComparisonReferenceSchema reference
  | source_comparison_snapshot reference => ComparisonEvidenceSnapshotReferenceSchema reference
  | source_criterion_set reference => CriterionSetReferenceSchema reference
  | source_criterion_set_status reference => NamedReferenceSchema reference
  | source_dataset_version reference => EvaluationDatasetVersionReferenceSchema reference
  | source_evaluation_aggregate reference => NamedReferenceSchema reference
  | source_evaluation_run reference => NamedReferenceSchema reference
  | source_evaluation_implementation_registration reference => VersionedReferenceSchema reference
  | source_evaluation_run_result reference => EvaluationRunResultReferenceSchema reference
  | source_evaluator_spec reference => VersionedReferenceSchema reference
  | source_human_review_protocol reference => VersionedReferenceSchema reference
  | source_human_review_record reference => NamedReferenceSchema reference
  | source_human_reviewer_independence reference => NamedReferenceSchema reference
  | source_independence_declaration reference => NamedReferenceSchema reference
  | source_independent_critique reference => NamedReferenceSchema reference
  | source_model_assurance_assessment reference => ModelAssuranceAssessmentReferenceSchema reference
  | source_model_evaluator_profile reference => VersionedReferenceSchema reference
  | source_model_qualification_report reference => NamedReferenceSchema reference
  | source_model_qualification_suite reference => VersionedReferenceSchema reference
  | source_oracle_spec reference => VersionedReferenceSchema reference
  | source_policy_installation_binding reference => VersionedReferenceSchema reference
  | source_qualification_fixture_set reference => VersionedReferenceSchema reference
  | source_qualification_report reference => NamedReferenceSchema reference
  | source_qualification_policy reference => VersionedReferenceSchema reference
  | source_raw_observation reference => RawObservationReferenceSchema reference
  | source_regression_fixture_version reference => RegressionFixtureVersionReferenceSchema reference
  | source_release_candidate reference => ReleaseCandidateReferenceSchema reference
  | source_release_policy reference => ReleasePolicyReferenceSchema reference
  | source_replay_isolation_profile reference => ReplayIsolationProfileReferenceSchema reference
  | source_replay_plan reference => ReplayPlanJobReferenceSchema reference
  | source_replay_result reference => EvaluationReplayResultReferenceSchema reference
  | source_replay_runtime_profile reference => ReplayRuntimeProfileReferenceSchema reference
  | source_runtime_adapter reference => VersionedReferenceSchema reference
  | source_source_review reference => NamedReferenceSchema reference
  | source_source_reviewer_qualification reference => NamedReferenceSchema reference
  | source_source_snapshot reference => NamedReferenceSchema reference
  | source_target_release reference => TargetReleaseReferenceSchema reference
  end.

(** The fields that, with the kind, are the repository identity of a source. *)
Definition source_identity (value : PolicyEvaluationSourceReference) : string * option string :=
  match value with
  | source_protocol_definition reference => (named_id reference, None)
  | source_endpoint_profile reference => (versioned_id reference, Some (versioned_versionId reference))
  | source_aggregation_policy reference => (versioned_versionId reference, None)
  | source_assessment reference => (assessmentRef_assessmentId reference, None)
  | source_discovery_record reference => (named_id reference, None)
  | source_evaluation_run_rejection reference => (named_id reference, None)
  | source_model_assisted_evaluator_spec reference => (versioned_versionId reference, None)
  | source_blinded_plan reference => (versioned_versionId reference, None)
  | source_blinded_result reference => (named_id reference, None)
  | source_calibration_report reference => (named_id reference, None)
  | source_comparison_definition reference => (comparisonRef_comparisonVersionId reference, None)
  | source_comparison_result reference => (candidateComparison_resultId reference, None)
  | source_comparison_snapshot reference => (snapshotRole_snapshotId reference, None)
  | source_criterion_set reference => (criterionSet_criterionSetVersionId reference, None)
  | source_criterion_set_status reference => (named_id reference, None)
  | source_dataset_version reference => (datasetRef_datasetVersionId reference, None)
  | source_evaluation_aggregate reference => (named_id reference, None)
  | source_evaluation_run reference => (named_id reference, None)
  | source_evaluation_implementation_registration reference => (versioned_id reference, Some (versioned_versionId reference))
  | source_evaluation_run_result reference => (runResult_resultId reference, None)
  | source_evaluator_spec reference => (versioned_versionId reference, None)
  | source_human_review_protocol reference => (versioned_versionId reference, None)
  | source_human_review_record reference => (named_id reference, None)
  | source_human_reviewer_independence reference => (named_id reference, None)
  | source_independence_declaration reference => (named_id reference, None)
  | source_independent_critique reference => (named_id reference, None)
  | source_model_assurance_assessment reference => (extensionRef_assessmentExtensionId reference, None)
  | source_model_evaluator_profile reference => (versioned_versionId reference, None)
  | source_model_qualification_report reference => (named_id reference, None)
  | source_model_qualification_suite reference => (versioned_versionId reference, None)
  | source_oracle_spec reference => (versioned_versionId reference, None)
  | source_policy_installation_binding reference => (versioned_versionId reference, None)
  | source_qualification_fixture_set reference => (versioned_versionId reference, None)
  | source_qualification_report reference => (named_id reference, None)
  | source_qualification_policy reference => (versioned_id reference, Some (versioned_versionId reference))
  | source_raw_observation reference => (rawRef_observationId reference, None)
  | source_regression_fixture_version reference => (fixtureRef_fixtureVersionId reference, None)
  | source_release_candidate reference => (candidateRef_candidateVersionId reference, None)
  | source_release_policy reference => (policyRef_policyVersionId reference, None)
  | source_replay_isolation_profile reference => (isolation_id reference, Some (isolation_version reference))
  | source_replay_plan reference => (ref_planVersionId reference, None)
  | source_replay_result reference => (replayRef_attemptId reference, None)
  | source_replay_runtime_profile reference => (runtime_id reference, Some (runtime_version reference))
  | source_runtime_adapter reference => (versioned_versionId reference, None)
  | source_source_review reference => (named_id reference, None)
  | source_source_reviewer_qualification reference => (named_id reference, None)
  | source_source_snapshot reference => (named_id reference, None)
  | source_target_release reference => (target_targetReleaseId reference, None)
  end.

(** ** Keys *)

Definition policyEvaluationSourceReferenceKey (value : PolicyEvaluationSourceReference) : string :=
  match source_identity value with
  | (id, None) => joined (source_kind value) id
  | (id, Some version) => joined (source_kind value) (joined id version)
  end.

(** [text.split(":")] *)
Fixpoint split_colon (l : list ascii) : list (list ascii) :=
  match l with
  | [] => [[]]
  | ":"%char :: rest => [] :: split_colon rest
  | c :: rest =>
      match split_colon rest with
      | part :: parts => (c :: part) :: parts
      | [] => [[c]]
      end
  end.

Definition split_key (value : string) : list string :=
  String.string_of_list_ascii <$> split_colon (String.list_ascii_of_string value).

Definition composite_kinds : list string :=
  ["evaluation_implementation_registration"; "qualification_policy"]%string.
Definition profile_kinds : list string := ["replay_runtime_profile"; "replay_isolation_profile"]%string.

Definition key_version_ok (kind : string) (version : option string) : bool :=
  if kind === "endpoint_profile"%string then
    match version with Some version => ProtocolVersionSchema version | None => false end
  else if includes profile_kinds kind then
    match version with Some version => ProtocolVersionSchema version | None => false end
  else if includes composite_kinds kind then
    match version with Some version => OpaqueIdSchema version | None => false end
  else match version with Some _ => false | None => true end.

Definition PolicyEvaluationSourceKeySchema (value : string) : bool :=
  length_in 7 168 value &&
  match split_key value with
  | kind :: id :: ([] as rest) | kind :: id :: ([_] as rest) =>
      includes source_kinds kind && OpaqueIdSchema id && key_version_ok kind (head rest)
  | _ => false
  end.

(** ** Observations and witnesses *)

Inductive SourceUnavailableReason : Type :=
| record_invalid | reference_mismatch | not_yet_available.

#[global] Instance SourceUnavailableReason_eq_dec : EqDecision SourceUnavailableReason.
Proof. solve_decision. Defined.

(** The observations that are not verified. *)
Inductive UnavailableObservation : Type :=
| observation_missing
| observation_unavailable (reason : SourceUnavailableReason).

#[global] Instance UnavailableObservation_eq_dec : EqDecision UnavailableObservation.
Proof. solve_decision. Defined.

Record Witness := { witness_source : PolicyEvaluationSourceReference; witness_recordSha256 : string }.

#[global] Instance Witness_eq_dec : EqDecision Witness.
Proof. solve_decision. Defined.

Definition WitnessSchema (value : Witness) : bool :=
  PolicyEvaluationSourceReferenceSchema (witness_source value) && Sha256Schema (witness_recordSha256 value).

(** * Keys of sources

    The text key of an accepted source is accepted by the schema of keys, and
    two sources have one key exactly when they name the same record. *)

(** ** How long a match can be *)

Fixpoint shortest (r : re) : nat :=
  match r with
  | Empty | Eps | Star _ => 0
  | Cls _ => 1
  | Cat r s => shortest r + shortest s
  | Alt r s => shortest r `min` shortest s
  end.

Fixpoint longest (r : re) : option nat :=
  match r with
  | Empty | Eps => Some 0%nat
  | Cls _ => Some 1%nat
  | Cat r s => m ← longest r; n ← longest s; Some (m + n)%nat
  | Alt r s => m ← longest r; n ← longest s; Some (m `max` n)%nat
  | Star _ => None
  end.

Lemma matched_length r l :
  matched r l -> (shortest r <= length l)%nat /\ forall n, longest r = Some n -> (length l <= n)%nat.
Proof.
  induction 1 as [| |r s u v _ [IH1 IH2] _ [IH3 IH4]|r s u _ [IH1 IH2]|r s u _ [IH1 IH2]| |];
    simpl; rewrite ?length_app; split; try lia; try (intros n [= <-]; lia);
    intros n Hn; destruct (longest r), (longest s); simplify_eq/=.
  - specialize (IH2 _ eq_refl). specialize (IH4 _ eq_refl). lia.
  - specialize (IH2 _ eq_refl). lia.
  - specialize (IH2 _ eq_refl). lia.
Qed.

#[local] Transparent OpaqueIdSchema ProtocolVersionSchema.

Lemma opaque_length s : OpaqueIdSchema s = true -> (3 <= String.length s <= 64)%nat.
Proof.
  unfold OpaqueIdSchema. intros H%test_spec%matched_length. rewrite BigInts.string_length_list.
  destruct H as [H1 H2]. split; [exact H1|]. by apply H2.
Qed.

Lemma version_length s : ProtocolVersionSchema s = true -> (1 <= String.length s <= 64)%nat.
Proof.
  unfold ProtocolVersionSchema, length_in. intros [[H1 H2]%andb_true_iff _]%andb_true_iff.
  apply Nat.leb_le in H1, H2. lia.
Qed.

Lemma version_colon_free s : ProtocolVersionSchema s = true -> colon_free s.
Proof.
  unfold ProtocolVersionSchema. intros [_ H%test_spec]%andb_true_iff. eapply avoids_sound; [exact H|reflexivity].
Qed.

#[local] Opaque OpaqueIdSchema ProtocolVersionSchema.

(** ** Splitting at colons *)

Lemma split_colon_free l : ":"%char ∉ l -> split_colon l = [l].
Proof.
  induction l as [|c l IH]; [done|]. intros [Hc Hl]%not_elem_of_cons. simpl. rewrite (IH Hl).
  destruct c as [[] [] [] [] [] [] [] []]; done.
Qed.

Lemma split_colon_cons l k : ":"%char ∉ l -> split_colon (l ++ ":"%char :: k) = l :: split_colon k.
Proof.
  induction l as [|c l IH]; [done|]. intros [Hc Hl]%not_elem_of_cons. simpl. rewrite (IH Hl).
  destruct c as [[] [] [] [] [] [] [] []]; done.
Qed.

Lemma split_key_one s : colon_free s -> split_key s = [s].
Proof.
  intros H. unfold split_key. rewrite split_colon_free by done. csimpl.
  by rewrite String.string_of_list_ascii_of_string.
Qed.

Lemma split_key_joined s t : colon_free s -> split_key (joined s t) = s :: split_key t.
Proof.
  intros H. unfold split_key, joined. rewrite list_ascii_app. csimpl. rewrite list_ascii_app. simpl.
  rewrite split_colon_cons by done. csimpl. by rewrite String.string_of_list_ascii_of_string.
Qed.

(** ** Kinds and identities *)

Lemma kind_colon_free v : colon_free (source_kind v).
Proof. destruct v; unfold colon_free; cbn [source_kind]; apply (bool_decide_unpack _); by vm_compute. Qed.

Lemma kind_known v : includes source_kinds (source_kind v) = true.
Proof. by destruct v. Qed.

Lemma kind_length v :
  (7 <= String.length (source_kind v) <= 38)%nat /\
  ((snd (source_identity v) <> None) -> (String.length (source_kind v) <= 38)%nat).
Proof. destruct v; simpl; split; intros; lia. Qed.

Ltac reference_facts :=
  unfold EndpointProfileReferenceSchema, NamedReferenceSchema, VersionedReferenceSchema,
    AssessmentReferenceSchema, ComparisonDefinitionReferenceSchema, ReleaseCandidateComparisonReferenceSchema,
    ComparisonEvidenceSnapshotReferenceSchema, CriterionSetReferenceSchema,
    EvaluationDatasetVersionReferenceSchema, EvaluationRunResultReferenceSchema,
    ModelAssuranceAssessmentReferenceSchema, RawObservationReferenceSchema,
    RegressionFixtureVersionReferenceSchema, ReleaseCandidateReferenceSchema, ReleasePolicyReferenceSchema,
    ReplayIsolationProfileReferenceSchema, ReplayPlanJobReferenceSchema,
    EvaluationReplayResultReferenceSchema, ReplayRuntimeProfileReferenceSchema, TargetReleaseReferenceSchema in *;
  key_facts.

(** The identity of an accepted source has the form its kind asks for. *)
Lemma identity_ok v :
  PolicyEvaluationSourceReferenceSchema v = true ->
  OpaqueIdSchema (source_identity v).1 = true /\ key_version_ok (source_kind v) (source_identity v).2 = true.
Proof.
  intros H. destruct v; simpl in H; reference_facts; (split; [assumption|]); (reflexivity || assumption).
Qed.

Lemma key_version_facts kind version :
  key_version_ok kind (Some version) = true ->
  colon_free version /\ (1 <= String.length version <= 64)%nat /\ key_version_ok kind None = false.
Proof.
  unfold key_version_ok. repeat case_match; try done; intros Hv; split_and!; try done;
    try (by apply version_colon_free); try (by apply version_length); try (by apply opaque_colon_free);
    apply opaque_length in Hv; lia.
Qed.

Lemma joined_length s t : String.length (joined s t) = (String.length s + 1 + String.length t)%nat.
Proof. unfold joined. rewrite !BigInts.string_length_list, !list_ascii_app, !length_app. simpl. lia. Qed.

Lemma key_accepted v :
  PolicyEvaluationSourceReferenceSchema v = true ->
  PolicyEvaluationSourceKeySchema (policyEvaluationSourceReferenceKey v) = true.
Proof.
  intros Hv. destruct (identity_ok v Hv) as [Hid Hver]. pose proof (kind_length v) as [Hk _].
  unfold PolicyEvaluationSourceKeySchema, policyEvaluationSourceReferenceKey, length_in.
  destruct (source_identity v) as [id [version|]] eqn:E; simpl in Hid, Hver; pose proof (opaque_length _ Hid).
  - destruct (key_version_facts _ _ Hver) as (Hc & Hlen & _).
    rewrite !split_key_joined by auto using kind_colon_free with keys. rewrite split_key_one by done. cbn [head].
    rewrite kind_known, Hid, Hver, !joined_length. apply andb_true_iff. split; [|done].
    apply andb_true_iff. split; apply Nat.leb_le; lia.
  - rewrite !split_key_joined by apply kind_colon_free. rewrite split_key_one by auto with keys. cbn [head].
    rewrite kind_known, Hid, Hver, !joined_length. apply andb_true_iff. split; [|done].
    apply andb_true_iff. split; apply Nat.leb_le; lia.
Qed.

(** C22. The key of every accepted source reference is accepted as a key, and
    two accepted sources have the same key exactly when they are of the same
    kind and name the same record of the repository; in particular references
    of different kinds never share a manifest entry. *)
Theorem source_keys_identify v w :
  PolicyEvaluationSourceReferenceSchema v = true -> PolicyEvaluationSourceReferenceSchema w = true ->
  PolicyEvaluationSourceKeySchema (policyEvaluationSourceReferenceKey v) = true /\
  (policyEvaluationSourceReferenceKey v = policyEvaluationSourceReferenceKey w <->
   source_kind v = source_kind w /\ source_identity v = source_identity w).
Proof.
  intros Hv Hw. split; [by apply key_accepted|]. unfold policyEvaluationSourceReferenceKey. split.
  - destruct (identity_ok v Hv) as [Iv Vv], (identity_ok w Hw) as [Iw Vw].
    destruct (source_identity v) as [id [ver|]], (source_identity w) as [id' [ver'|]]; simpl in *; intros E;
      apply joined_inj in E as [Ek E]; try apply kind_colon_free; rewrite <- Ek in Vw.
    + apply joined_inj in E as [-> ->]; [done|by apply opaque_colon_free..].
    + apply key_version_facts in Vv as (_ & _ & Hn). congruence.
    + apply key_version_facts in Vw as (_ & _ & Hn). congruence.
    + by subst.
  - intros [-> ->]. done.
Qed.
