(* ===== verification/ReleasePolicyRules.v ===== *)
(** * Rules of release policies

    [packages/contracts/src/release-policy.ts]: the rules a policy is made of and
    the predicates they state, with every refinement.  Literal fields are left
    out. *)

From S2P Require Import Prelude Errors Primitives ExactArithmetic PolicyExactArithmetic.
From S2P Require Import ReplayPlan PolicyTime ReplayAccounting PolicyEvaluationJob.
From S2P Require Import ComparisonContracts ComparisonSnapshot ComparisonResults PolicySources.
#[local] Open Scope Z_scope.

Definition MAX_POLICY_APPROVAL_GROUPS : Z := 32.
Definition MAX_POLICY_APPROVAL_ROLES : Z := 32.
Definition MAX_POLICY_SOURCES : Z := 64.
Definition MAX_POLICY_COUNT : Z := MAX_SAFE_INTEGER.

(** [sortedUniqueStrings] *)
Definition sortedUniqueStrings (item : string -> bool) (minimum maximum : Z) (values : list string) : bool :=
  forallb item values && sized minimum maximum values && isStrictlySortedUnique values.

(** ** Sources *)

Record QualifiedSourceReference := {
  qualified_review : NamedReference;
  qualified_source : NamedReference;
}.

#[global] Instance QualifiedSourceReference_eq_dec : EqDecision QualifiedSourceReference.
Proof. solve_decision. Defined.

Definition QualifiedSourceReferenceSchema (value : QualifiedSourceReference) : bool :=
  NamedReferenceSchema (qualified_review value) && NamedReferenceSchema (qualified_source value).

Definition qualifiedSourceKey (value : QualifiedSourceReference) : string :=
  joined (named_id (qualified_source value))
    (joined (named_definitionSha256 (qualified_source value))
      (joined (named_id (qualified_review value)) (named_definitionSha256 (qualified_review value)))).

Definition sortedQualifiedSources (minimum : Z) (values : list QualifiedSourceReference) : bool :=
  forallb QualifiedSourceReferenceSchema values && sized minimum MAX_POLICY_SOURCES values &&
  isStrictlySortedUnique (qualifiedSourceKey <$> values).

(** ** Vocabularies *)

Inductive ReleasePolicyMode : Type := advisory_mode | mandatory_mode.

Inductive CriterionSeverity : Type :=
| severity_informational | severity_low | severity_moderate | severity_high | severity_critical.

Inductive ThresholdOperand : Type := operand_baseline | operand_candidate | operand_delta.

(** The populations of a metric; each predicate admits some of them. *)
Inductive MetricPopulation : Type :=
| baseline_observed | candidate_observed | paired_observed
| baseline_total | candidate_total | paired_total.

Definition is_sample_class (value : MetricPopulation) : bool :=
  match value with
  | baseline_observed | candidate_observed | paired_observed | paired_total => true
  | _ => false
  end.

Definition is_numerator (value : MetricPopulation) : bool :=
  match value with baseline_observed | candidate_observed | paired_observed => true | _ => false end.

Definition is_denominator (value : MetricPopulation) : bool :=
  match value with baseline_total | candidate_total | paired_total => true | _ => false end.

Inductive AssessmentSampleClass : Type := samples_decided | samples_observed.
Inductive IntervalBound : Type := lower_bound | upper_bound.
Inductive BoundComparator : Type := at_least | at_most.
Inductive ArtifactComponentKind : Type :=
| component_build_artifact | component_model_resolution | component_prompt | component_tool_contract.

#[global] Instance ReleasePolicyMode_eq_dec : EqDecision ReleasePolicyMode.
Proof. solve_decision. Defined.
#[global] Instance CriterionSeverity_eq_dec : EqDecision CriterionSeverity.
Proof. solve_decision. Defined.
#[global] Instance ThresholdOperand_eq_dec : EqDecision ThresholdOperand.
Proof. solve_decision. Defined.
#[global] Instance MetricPopulation_eq_dec : EqDecision MetricPopulation.
Proof. solve_decision. Defined.
#[global] Instance AssessmentSampleClass_eq_dec : EqDecision AssessmentSampleClass.
Proof. solve_decision. Defined.
#[global] Instance IntervalBound_eq_dec : EqDecision IntervalBound.
Proof. solve_decision. Defined.
#[global] Instance BoundComparator_eq_dec : EqDecision BoundComparator.
Proof. solve_decision. Defined.
#[global] Instance ArtifactComponentKind_eq_dec : EqDecision ArtifactComponentKind.
Proof. solve_decision. Defined.
#[global] Instance SafetyEventKind_eq_dec : EqDecision SafetyEventKind.
Proof. solve_decision. Defined.
#[global] Instance ReleasePolicyComparator_eq_dec : EqDecision ReleasePolicyComparator.
Proof. solve_decision. Defined.

(** ** Predicates *)

Record PolicyApprovalRequirement := {
  approval_excludeCandidateAuthor : bool;
  approval_humanReviewerGroupIds : list string;
  approval_independenceGroupIds : list string;
  approval_quorum : Z;
  approval_reviewerRoleIds : list string;
}.

#[global] Instance PolicyApprovalRequirement_eq_dec : EqDecision PolicyApprovalRequirement.
Proof. solve_decision. Defined.

Inductive ReleasePolicyPredicate : Type :=
| comparison_threshold (comparator : ReleasePolicyComparator) (comparison : ComparisonDefinitionReference)
    (metricId : string) (metricKind : MetricKind) (operand : ThresholdOperand) (threshold unit_ : string)
| coverage_floor_samples (comparison : ComparisonDefinitionReference) (metricId : string) (minimumCount : Z)
    (sampleClass : MetricPopulation)
| coverage_floor_ratio (comparison : ComparisonDefinitionReference) (denominator : MetricPopulation)
    (metricId : string) (minimumBasisPoints : Z) (numerator : MetricPopulation)
| coverage_floor_assessment (assessment : AssessmentReference) (minimumCount : Z)
    (sampleClass : AssessmentSampleClass)
| uncertainty_bound (assessment : AssessmentReference) (bound : IntervalBound) (comparator : BoundComparator)
    (confidenceLevelBasisPoints thresholdBasisPoints : Z)
| eligibility_evaluation (assessment : AssessmentReference)
| eligibility_model_assurance (assessment : ModelAssuranceAssessmentReference)
| artifact_required (allowedMediaTypes : list string) (componentKind : ArtifactComponentKind)
    (maximumDataClassification : DataClassification) (role : string)
| safety_event_ceiling (comparison : ComparisonDefinitionReference) (eventClass : SafetyEventKind)
    (maximumCount : Z) (metricId : string)
| approval_required (requirement : PolicyApprovalRequirement).

#[global] Instance ReleasePolicyPredicate_eq_dec : EqDecision ReleasePolicyPredicate.
Proof. solve_decision. Defined.

(** [allowedUnitsByMetricKind] *)
Definition replay_usage_units : list text :=
  replay_usage_unit <$> [concurrentInteractions; elapsedMilliseconds; emittedArtifactBytes; inputTokens;
    jobAttempts; modelRequests; outputTokens; providerCostMicrounits; retrievedBytes; toolCalls].

Definition allowed_unit (metricKind : MetricKind) (unit_ : string) : bool :=
  match count_metric_unit metricKind with
  | Some canonicalUnit => text_of unit_ === canonicalUnit
  | None => includes replay_usage_units (text_of unit_)
  end.

(** Numerator and denominator of a ratio count the same population. *)
Definition same_population (numerator denominator : MetricPopulation) : bool :=
  match numerator with
  | baseline_observed => denominator === baseline_total
  | candidate_observed => denominator === candidate_total
  | _ => denominator === paired_total
  end.

Definition PolicyApprovalRequirementSchema (value : PolicyApprovalRequirement) : bool :=
  sortedUniqueStrings OpaqueIdSchema 0 MAX_POLICY_APPROVAL_GROUPS (approval_humanReviewerGroupIds value) &&
  sortedUniqueStrings OpaqueIdSchema 1 MAX_POLICY_APPROVAL_GROUPS (approval_independenceGroupIds value) &&
  boundedInteger 1 MAX_POLICY_APPROVAL_ROLES (approval_quorum value) &&
  sortedUniqueStrings OpaqueIdSchema 1 MAX_POLICY_APPROVAL_ROLES (approval_reviewerRoleIds value) &&
  negb (Z.of_nat (length (approval_independenceGroupIds value)) <? approval_quorum value) &&
  forallb (includes (approval_independenceGroupIds value)) (approval_humanReviewerGroupIds value).

Definition ReleasePolicyPredicateSchema (value : ReleasePolicyPredicate) : bool :=
  match value with
  | comparison_threshold _ comparison metricId metricKind _ threshold unit_ =>
      ComparisonDefinitionReferenceSchema comparison && OpaqueIdSchema metricId &&
      (metricKind !== kind_numeric_measurement) && ReleasePolicyExactDecimalSchema threshold &&
      ReleasePolicyUnitSchema unit_ && allowed_unit metricKind unit_
  | coverage_floor_samples comparison metricId minimumCount sampleClass =>
      ComparisonDefinitionReferenceSchema comparison && OpaqueIdSchema metricId &&
      boundedInteger 0 MAX_POLICY_COUNT minimumCount && is_sample_class sampleClass
  | coverage_floor_ratio comparison denominator metricId minimumBasisPoints numerator =>
      ComparisonDefinitionReferenceSchema comparison && is_denominator denominator && OpaqueIdSchema metricId &&
      boundedInteger 1 10000 minimumBasisPoints && is_numerator numerator &&
      same_population numerator denominator
  | coverage_floor_assessment assessment minimumCount _ =>
      AssessmentReferenceSchema assessment && boundedInteger 0 MAX_POLICY_COUNT minimumCount
  | uncertainty_bound assessment _ _ confidenceLevelBasisPoints thresholdBasisPoints =>
      AssessmentReferenceSchema assessment && boundedInteger 5000 9999 confidenceLevelBasisPoints &&
      boundedInteger 0 10000 thresholdBasisPoints
  | eligibility_evaluation assessment => AssessmentReferenceSchema assessment
  | eligibility_model_assurance assessment => ModelAssuranceAssessmentReferenceSchema assessment
  | artifact_required allowedMediaTypes _ _ role =>
      sortedUniqueStrings ArtifactMediaTypeSchema 1 32 allowedMediaTypes && OpaqueIdSchema role
  | safety_event_ceiling comparison _ maximumCount metricId =>
      ComparisonDefinitionReferenceSchema comparison && boundedInteger 0 MAX_POLICY_COUNT maximumCount &&
      OpaqueIdSchema metricId
  | approval_required requirement => PolicyApprovalRequirementSchema requirement
  end.

(** The [kind] of a predicate. *)
Inductive PredicateKind : Type :=
| predicate_comparison_threshold | predicate_coverage_floor | predicate_uncertainty_bound
| predicate_eligibility_required | predicate_artifact_required | predicate_safety_event_ceiling
| predicate_approval_required.

#[global] Instance PredicateKind_eq_dec : EqDecision PredicateKind.
Proof. solve_decision. Defined.

Definition predicate_kind (value : ReleasePolicyPredicate) : PredicateKind :=
  match value with
  | comparison_threshold _ _ _ _ _ _ _ => predicate_comparison_threshold
  | coverage_floor_samples _ _ _ _ | coverage_floor_ratio _ _ _ _ _ | coverage_floor_assessment _ _ _ =>
      predicate_coverage_floor
  | uncertainty_bound _ _ _ _ _ => predicate_uncertainty_bound
  | eligibility_evaluation _ | eligibility_model_assurance _ => predicate_eligibility_required
  | artifact_required _ _ _ _ => predicate_artifact_required
  | safety_event_ceiling _ _ _ _ => predicate_safety_event_ceiling
  | approval_required _ => predicate_approval_required
  end.

(** [predicate.comparison], where a predicate has one, and [predicate.metricId]. *)
Definition predicate_comparison (value : ReleasePolicyPredicate) : option ComparisonDefinitionReference :=
  match value with
  | comparison_threshold _ comparison _ _ _ _ _ | coverage_floor_samples comparison _ _ _
  | coverage_floor_ratio comparison _ _ _ _ | safety_event_ceiling comparison _ _ _ => Some comparison
  | _ => None
  end.

Definition predicate_metricId (value : ReleasePolicyPredicate) : option string :=
  match value with
  | comparison_threshold _ _ metricId _ _ _ _ | coverage_floor_samples _ metricId _ _
  | coverage_floor_ratio _ _ metricId _ _ | safety_event_ceiling _ _ _ metricId => Some metricId
  | _ => None
  end.

(** ** Rules *)

Record ReleasePolicyRule := {
  rule_nonWaivable : bool;
  rule_predicate : ReleasePolicyPredicate;
  rule_rationale : text;
  rule_ruleId : string;
  rule_severity : CriterionSeverity;
  rule_sources : list QualifiedSourceReference;
}.

#[global] Instance ReleasePolicyRule_eq_dec : EqDecision ReleasePolicyRule.
Proof. solve_decision. Defined.

Definition AssuranceRationaleSchema `{UnicodeNormalization} (value : text) : bool :=
  boundedCanonicalText 4096 value.

Definition ReleasePolicyRuleSchema `{UnicodeNormalization} (value : ReleasePolicyRule) : bool :=
  ReleasePolicyPredicateSchema (rule_predicate value) && AssuranceRationaleSchema (rule_rationale value) &&
  OpaqueIdSchema (rule_ruleId value) && sortedQualifiedSources 1 (rule_sources value).
