(* ===== verification/ComparisonSelection.v ===== *)
(** * Selecting the comparisons of a policy

    [packages/contracts/src/policy-evaluation-comparison-selection.ts] and the
    part of [packages/core/src/policy/policy-evaluation-comparison-selection.ts]
    that classifies, for every comparison a policy names, which results of the
    candidate stand for it.  Equal canonical texts are equal values. *)

From stdpp Require sorting.
From S2P Require Import Prelude Errors Primitives PolicyTime PolicyEvaluationJob.
From S2P Require Import PolicyJobSnapshot ExactArithmetic PolicyExactArithmetic ReplayPlan.
From S2P Require Import OrderedMap ComparisonContracts ComparisonSnapshot ComparisonResults.
From S2P Require Import ComparisonPairing ComparisonKeys PolicySources ReleasePolicyRules.
#[local] Open Scope Z_scope.

Definition MAX_RELEASE_CANDIDATE_COMPARISONS : Z := 64.

(** ** Contracts *)

Inductive MemberObservation : Type :=
| member_missing
| member_unavailable (reason : SourceUnavailableReason)
| member_verified (baselineSnapshot candidateSnapshot : ComparisonEvidenceSnapshotReference)
    (comparison : ComparisonDefinitionReference) (latestSourceCutoff : timestamp) (recordSha256 : string).

Record PolicyEvaluationCandidateComparisonMember := {
  member_observation : MemberObservation;
  member_reference : ReleaseCandidateComparisonReference;
}.

Definition PolicyEvaluationCandidateComparisonMemberSchema
    (value : PolicyEvaluationCandidateComparisonMember) : bool :=
  match member_observation value with
  | member_missing | member_unavailable _ => true
  | member_verified baselineSnapshot candidateSnapshot comparison latestSourceCutoff recordSha256 =>
      ComparisonEvidenceSnapshotReferenceSchema baselineSnapshot &&
      ComparisonEvidenceSnapshotReferenceSchema candidateSnapshot &&
      ComparisonDefinitionReferenceSchema comparison && UtcMillisecondTimestampSchema latestSourceCutoff &&
      Sha256Schema recordSha256 && (snapshotRole_role baselineSnapshot === baseline_role) &&
      (snapshotRole_role candidateSnapshot === candidate_role)
  end &&
  ReleaseCandidateComparisonReferenceSchema (member_reference value).

(** [CandidateComparisonReferencesSchema], with bounds on the length. *)
Definition CandidateComparisonReferencesSchema (minimum maximum : Z)
    (values : list ReleaseCandidateComparisonReference) : bool :=
  forallb ReleaseCandidateComparisonReferenceSchema values && sized minimum maximum values &&
  isStrictlySortedUnique (candidateComparison_resultId <$> values).

Inductive ComparisonResolution : Type :=
| selection_unique (result : ReleaseCandidateComparisonReference)
| selection_missing
| selection_ambiguous (matches unresolvedMembers : list ReleaseCandidateComparisonReference)
| selection_unresolved (knownMatches unresolvedMembers : list ReleaseCandidateComparisonReference).

Record PolicyEvaluationComparisonResolution := {
  resolution_comparison : ComparisonDefinitionReference;
  resolution_status : ComparisonResolution;
}.

#[global] Instance ComparisonResolution_eq_dec : EqDecision ComparisonResolution.
Proof. solve_decision. Defined.
#[global] Instance PolicyEvaluationComparisonResolution_eq_dec : EqDecision PolicyEvaluationComparisonResolution.
Proof. solve_decision. Defined.

Definition PolicyEvaluationComparisonResolutionSchema (value : PolicyEvaluationComparisonResolution) : bool :=
  ComparisonDefinitionReferenceSchema (resolution_comparison value) &&
  match resolution_status value with
  | selection_unique result => ReleaseCandidateComparisonReferenceSchema result
  | selection_missing => true
  | selection_ambiguous matches unresolvedMembers =>
      CandidateComparisonReferencesSchema 2 MAX_RELEASE_CANDIDATE_COMPARISONS matches &&
      CandidateComparisonReferencesSchema 0 MAX_RELEASE_CANDIDATE_COMPARISONS unresolvedMembers
  | selection_unresolved knownMatches unresolvedMembers =>
      CandidateComparisonReferencesSchema 0 1 knownMatches &&
      CandidateComparisonReferencesSchema 1 MAX_RELEASE_CANDIDATE_COMPARISONS unresolvedMembers
  end.

Record PolicyEvaluationComparisonInventory := {
  inventory_candidate : ReleaseCandidateReference;
  inventory_members : list PolicyEvaluationCandidateComparisonMember;
  inventory_policy : ReleasePolicyReference;
  inventory_policyComparisons : list PolicyEvaluationComparisonResolution;
  inventory_request : PolicyEvaluationRequestReference;
  inventory_scope : EvidenceScope;
}.

Definition is_verified (member : PolicyEvaluationCandidateComparisonMember) : bool :=
  match member_observation member with member_verified _ _ _ _ _ => true | _ => false end.

Definition verified_comparison (member : PolicyEvaluationCandidateComparisonMember) :
    option ComparisonDefinitionReference :=
  match member_observation member with
  | member_verified _ _ comparison _ _ => Some comparison
  | _ => None
  end.

Definition unreadable_members (members : list PolicyEvaluationCandidateComparisonMember) :
    list ReleaseCandidateComparisonReference :=
  member_reference <$> List.filter (fun member => negb (is_verified member)) members.

Definition matching_members (members : list PolicyEvaluationCandidateComparisonMember)
    (comparison : ComparisonDefinitionReference) : list ReleaseCandidateComparisonReference :=
  member_reference <$> List.filter (fun member => verified_comparison member === Some comparison) members.

Definition resolution_accounts (members : list PolicyEvaluationCandidateComparisonMember)
    (resolution : PolicyEvaluationComparisonResolution) : bool :=
  let unreadable := unreadable_members members in
  let matches := matching_members members (resolution_comparison resolution) in
  if (2 <=? length matches)%nat then
    match resolution_status resolution with
    | selection_ambiguous matches' unresolvedMembers => (matches' === matches) && (unresolvedMembers === unreadable)
    | _ => false
    end
  else if (1 <=? length unreadable)%nat then
    match resolution_status resolution with
    | selection_unresolved knownMatches unresolvedMembers =>
        (knownMatches === matches) && (unresolvedMembers === unreadable)
    | _ => false
    end
  else if (length matches =? 1)%nat then
    match resolution_status resolution with
    | selection_unique result => Some result === matches !! 0%nat
    | _ => false
    end
  else match resolution_status resolution with selection_missing => true | _ => false end.

Definition refineInventory (value : PolicyEvaluationComparisonInventory) : bool :=
  isStrictlySortedUnique
    ((fun member => candidateComparison_resultId (member_reference member)) <$> inventory_members value) &&
  isStrictlySortedUnique
    ((fun resolution => comparisonRef_comparisonVersionId (resolution_comparison resolution)) <$>
       inventory_policyComparisons value) &&
  forallb (resolution_accounts (inventory_members value)) (inventory_policyComparisons value).

Definition PolicyEvaluationComparisonInventorySchema (value : PolicyEvaluationComparisonInventory) : bool :=
  ReleaseCandidateReferenceSchema (inventory_candidate value) &&
  forallb PolicyEvaluationCandidateComparisonMemberSchema (inventory_members value) &&
  sized 1 MAX_RELEASE_CANDIDATE_COMPARISONS (inventory_members value) &&
  ReleasePolicyReferenceSchema (inventory_policy value) &&
  forallb PolicyEvaluationComparisonResolutionSchema (inventory_policyComparisons value) &&
  sized 0 MAX_POLICY_RULES (inventory_policyComparisons value) &&
  PolicyEvaluationRequestReferenceSchema (inventory_request value) &&
  EvidenceScopeSchema (inventory_scope value) && refineInventory value.

(** ** Classification *)

(** The comparisons of the rules' predicates, one per repository identity. *)
Definition collect_reference (byIdentity : list (string * ComparisonDefinitionReference))
    (rule : ReleasePolicyRule) : res (list (string * ComparisonDefinitionReference)) :=
  match predicate_comparison (rule_predicate rule) with
  | None => Ok byIdentity
  | Some comparison =>
      let previous := map_get byIdentity (comparisonRef_comparisonVersionId comparison) in
      reject_when ((previous !== None) && (previous !== Some comparison))
        (PolicyEvaluationComparisonSelectionError policy_comparison_reference_conflict) ;;
      Ok (map_set byIdentity (comparisonRef_comparisonVersionId comparison) comparison)
  end.

Definition policyComparisonReferences (rules : list ReleasePolicyRule) : res (list ComparisonDefinitionReference) :=
  byIdentity ← fold_result collect_reference [] rules;
  Ok (sort_by comparisonRef_comparisonVersionId (snd <$> byIdentity)).

Definition resolve (members : list PolicyEvaluationCandidateComparisonMember)
    (comparison : ComparisonDefinitionReference) : PolicyEvaluationComparisonResolution :=
  let unreadable := unreadable_members members in
  let matches := matching_members members comparison in
  {| resolution_comparison := comparison;
     resolution_status :=
       if (2 <=? length matches)%nat then selection_ambiguous matches unreadable
       else if (1 <=? length unreadable)%nat then selection_unresolved matches unreadable
       else match matches with
            | [result] => selection_unique result
            | _ => selection_missing
            end |}.

Definition resolutions (references : list ComparisonDefinitionReference)
    (members : list PolicyEvaluationCandidateComparisonMember) : list PolicyEvaluationComparisonResolution :=
  resolve members <$> references.

(** [inventory]: a refusal of the contract becomes a selection error. *)
Definition comparison_inventory (candidate : ReleaseCandidateReference) (policy : ReleasePolicyReference)
    (rules : list ReleasePolicyRule) (request : PolicyEvaluationRequestReference) (scope : EvidenceScope)
    (members : list PolicyEvaluationCandidateComparisonMember) : res PolicyEvaluationComparisonInventory :=
  references ← policyComparisonReferences rules;
  parse_with (PolicyEvaluationComparisonSelectionError selection_contract_invalid)
    PolicyEvaluationComparisonInventorySchema
    {| inventory_candidate := candidate; inventory_members := members; inventory_policy := policy;
       inventory_policyComparisons := resolutions references members; inventory_request := request;
       inventory_scope := scope |}.

(** * The contract of a comparison selection determines it *)

(** ** Sorted keys *)

Lemma strictly_sorted_cons v values :
  isStrictlySortedUnique values = true -> Forall (fun w => string_lt v w = true) values ->
  isStrictlySortedUnique (v :: values) = true.
Proof.
  intros Hs Hall. destruct values as [|w values]; [done|]. apply Forall_cons in Hall as [Hlt _].
  change (string_lt v w && isStrictlySortedUnique (w :: values) = true). by rewrite Hlt.
Qed.

(** A part of a strictly sorted list is strictly sorted. *)
Lemma strictly_sorted_filter {A} (key : A -> string) (p : A -> bool) l :
  isStrictlySortedUnique (key <$> l) = true -> isStrictlySortedUnique (key <$> List.filter p l) = true.
Proof.
  induction l as [|x l IH]; [done|]. csimpl. intros [Hs Hall]%strictly_sorted_head.
  destruct (p x); [|by apply IH]. csimpl. apply strictly_sorted_cons; [by apply IH|].
  rewrite Forall_forall in *. intros k (y & -> & Hy)%list_elem_of_fmap. apply Hall.
  apply list_elem_of_fmap. exists y. split; [done|].
  by apply list_elem_of_In, filter_In, proj1, list_elem_of_In in Hy.
Qed.

(** Sorting by distinct keys sorts strictly. *)
Lemma sort_by_strict {A} (key : A -> string) l :
  NoDup (key <$> l) -> isStrictlySortedUnique (key <$> sort_by key l) = true.
Proof.
  intros Hnd. assert (Hs : Sorted.StronglySorted (key_le key) (sort_by key l)).
  { apply Sorted.Sorted_StronglySorted; [apply key_le_trans|]. apply sorting.Sorted_merge_sort. apply _. }
  rewrite <- (sort_by_perm key l) in Hnd. induction Hs as [|x k Hs IH Hall]; [done|]. csimpl in *.
  apply NoDup_cons in Hnd as [Hx Hnd]. apply strictly_sorted_cons; [by apply IH|].
  rewrite Forall_forall in Hall. rewrite Forall_forall. intros v (y & -> & Hy)%list_elem_of_fmap.
  pose proof (Hall _ Hy) as Hle. unfold key_le in Hle.
  destruct (string_lt (key x) (key y)) eqn:E; [done|]. exfalso. apply Hx.
  apply list_elem_of_fmap. exists y. split; [|done]. apply String.compare_eq_iff.
  unfold string_lt in *. rewrite (String.compare_antisym (key x) (key y)) in *.
  by destruct (String.compare (key y) (key x)).
Qed.

(** ** The contract and the classification *)

(** A resolution accounts for every member exactly when it is the classification. *)
Lemma accounts_iff members resolution :
  resolution_accounts members resolution = true <->
  resolution = resolve members (resolution_comparison resolution).
Proof.
  destruct resolution as [comparison status]. unfold resolution_accounts, resolve. cbn [resolution_comparison resolution_status].
  generalize (unreadable_members members) (matching_members members comparison). intros unreadable found.
  destruct (2 <=? length found)%nat eqn:H2; [|destruct (1 <=? length unreadable)%nat eqn:H1; [|]].
  - destruct status; split; intros H; try done; breflect; by destruct_and?; simplify_eq.
  - destruct status; split; intros H; try done; breflect; by destruct_and?; simplify_eq.
  - apply Nat.leb_gt in H2. destruct found as [|result [|second rest]]; simpl in *; [| |lia].
    + by destruct status.
    + destruct status; split; intros H; try done; breflect; by simplify_eq.
Qed.

(** ** The comparisons of the rules *)

Definition named (rules : list ReleasePolicyRule) : list ComparisonDefinitionReference :=
  omap (fun rule => predicate_comparison (rule_predicate rule)) rules.

(** One version of a comparison is always named by the same reference. *)
Definition one_reference (references : list ComparisonDefinitionReference) : Prop :=
  forall c c', c ∈ references -> c' ∈ references ->
    comparisonRef_comparisonVersionId c = comparisonRef_comparisonVersionId c' -> c = c'.

Definition collected (byIdentity : list (string * ComparisonDefinitionReference))
    (references : list ComparisonDefinitionReference) : Prop :=
  NoDup byIdentity.*1 /\ one_reference references /\
  forall k c, map_get byIdentity k = Some c <-> c ∈ references /\ k = comparisonRef_comparisonVersionId c.

Lemma map_set_length {K A} `{EqDecision K} (m : list (K * A)) k v : (length (map_set m k v) <= S (length m))%nat.
Proof. induction m as [|[k' v'] m IH]; simpl; [lia|]. case_bool_decide; simpl; lia. Qed.

Lemma collected_add m references c :
  collected m references -> map_get m (comparisonRef_comparisonVersionId c) = None \/
    map_get m (comparisonRef_comparisonVersionId c) = Some c ->
  collected (map_set m (comparisonRef_comparisonVersionId c) c) (references ++ [c]).
Proof.
  intros (Hnd & Hone & Hget) Hprev.
  assert (Hsame : forall d, d ∈ references ->
    comparisonRef_comparisonVersionId d = comparisonRef_comparisonVersionId c -> d = c).
  { intros d Hd E. assert (Hg : map_get m (comparisonRef_comparisonVersionId c) = Some d) by (by apply Hget).
    destruct Hprev; congruence. }
  split_and!; [by apply map_set_NoDup| |].
  - intros d d'. rewrite !elem_of_app, !list_elem_of_singleton. intros [Hd| ->] [Hd'| ->] E; auto.
    symmetry. by apply Hsame.
  - intros k d. rewrite map_get_set, elem_of_app, list_elem_of_singleton. case_bool_decide as Hk.
    + split; [intros [= ->]; auto|]. subst k. intros [[Hd| ->] E]; [|done]. by rewrite (Hsame d).
    + rewrite Hget. split; [intros [? ?]; auto|]. intros [[Hd| ->] ->]; [done|]. by destruct Hk.
Qed.

(** One rule adds its comparison, unless its version is known by another reference. *)
Lemma collect_one m rule :
  match predicate_comparison (rule_predicate rule) with
  | None => collect_reference m rule = Ok m
  | Some c =>
      let previous := map_get m (comparisonRef_comparisonVersionId c) in
      (previous = None \/ previous = Some c) /\
        collect_reference m rule = Ok (map_set m (comparisonRef_comparisonVersionId c) c) \/
      (exists d, previous = Some d /\ d <> c) /\
        collect_reference m rule =
          Throw (PolicyEvaluationComparisonSelectionError policy_comparison_reference_conflict)
  end.
Proof.
  unfold collect_reference. destruct (predicate_comparison (rule_predicate rule)) as [c|]; [|done].
  cbv zeta. destruct (map_get m _) as [d|]; simpl; [|left; split; [by left|done]].
  destruct (decide (d = c)) as [->|Hd].
  - left. split; [by right|]. by rewrite (bool_decide_eq_true_2 (Some c = Some c)).
  - right. split; [by exists d|]. rewrite (bool_decide_eq_false_2 (Some d = Some c)) by congruence. done.
Qed.

Lemma collect_references rules m references :
  collected m references ->
  match fold_result collect_reference m rules with
  | Ok m' => collected m' (references ++ named rules) /\ (length m' <= length m + length rules)%nat
  | Throw e => e = PolicyEvaluationComparisonSelectionError policy_comparison_reference_conflict /\
      ~ one_reference (references ++ named rules)
  end.
Proof.
  revert m references. induction rules as [|rule rules IH]; intros m references Hm.
  - simpl. rewrite app_nil_r. split; [done|lia].
  - unfold named. cbn [fold_result]. csimpl. fold (named rules). pose proof (collect_one m rule) as Hone.
    destruct (predicate_comparison (rule_predicate rule)) as [c|]; cbv zeta in Hone.
    + destruct Hone as [[Hprev ->]|[(d & Hd & Hne) ->]].
      * simpl. pose proof (IH _ _ (collected_add m references c Hm Hprev)) as H.
        rewrite <- app_assoc in H. simpl in H. pose proof (map_set_length m (comparisonRef_comparisonVersionId c) c).
        destruct (fold_result _ _ _); [|done]. destruct H as [H Hl]. split; [done|]. lia.
      * simpl. split; [done|]. intros Hone. apply Hne. destruct Hm as (_ & _ & Hget).
        apply Hget in Hd as [Hd E]. apply Hone; [|apply elem_of_app; right; by left|done].
        apply elem_of_app. by left.
    + rewrite Hone. simpl. pose proof (IH _ _ Hm) as H. destruct (fold_result _ _ _); [|done].
      destruct H as [H Hl]. split; [done|]. lia.
Qed.

Lemma references_spec rules :
  match policyComparisonReferences rules with
  | Ok references => one_reference (named rules) /\ (forall c, c ∈ references <-> c ∈ named rules) /\
      isStrictlySortedUnique (comparisonRef_comparisonVersionId <$> references) = true /\
      (length references <= length rules)%nat
  | Throw e => e = PolicyEvaluationComparisonSelectionError policy_comparison_reference_conflict /\
      ~ one_reference (named rules)
  end.
Proof.
  unfold policyComparisonReferences.
  assert (H0 : collected [] []).
  { split_and!; [constructor|by intros c c' ?%elem_of_nil|]. intros k c. split; [done|by intros [?%elem_of_nil _]]. }
  pose proof (collect_references rules [] [] H0) as H. destruct (fold_result _ _ _) as [m|e]; simpl in *; [|done].
  destruct H as [(Hnd & Hone & Hget) Hl].
  assert (Hkey : comparisonRef_comparisonVersionId <$> m.*2 = m.*1).
  { rewrite <- list_fmap_compose. apply list_fmap_ext. intros i [k c] Hi%list_elem_of_lookup_2. simpl.
    apply (map_get_NoDup m k c Hnd), Hget in Hi as [_ ->]. done. }
  split_and!; [done| | |].
  - intros c. rewrite sort_by_perm. split.
    + intros ([k d] & -> & Hi)%list_elem_of_fmap. by apply (map_get_NoDup m k d Hnd), Hget in Hi as [? _].
    + intros Hc. apply list_elem_of_fmap. exists (comparisonRef_comparisonVersionId c, c). split; [done|].
      by apply (map_get_NoDup m _ _ Hnd), Hget.
  - apply sort_by_strict. by rewrite Hkey.
  - rewrite sort_by_perm, length_fmap. lia.
Qed.

Section selection.
Context (members : list PolicyEvaluationCandidateComparisonMember).
Context (Hvalid : forallb PolicyEvaluationCandidateComparisonMemberSchema members = true).
Context (Hsize : sized 1 MAX_RELEASE_CANDIDATE_COMPARISONS members = true).
Context (Hsorted : isStrictlySortedUnique
  ((fun member => candidateComparison_resultId (member_reference member)) <$> members) = true).

Lemma part_valid (p : PolicyEvaluationCandidateComparisonMember -> bool) low high :
  low <= Z.of_nat (length (List.filter p members)) <= high ->
  CandidateComparisonReferencesSchema low high (member_reference <$> List.filter p members) = true.
Proof.
  intros Hl. unfold CandidateComparisonReferencesSchema. rewrite !andb_true_iff. split_and!.
  - apply forallb_forall. intros r (m & -> & Hm%list_elem_of_In)%list_elem_of_In%list_elem_of_fmap.
    apply filter_In in Hm as [Hm _]. rewrite forallb_forall in Hvalid. apply Hvalid in Hm.
    unfold PolicyEvaluationCandidateComparisonMemberSchema in Hm. by apply andb_true_iff in Hm as [_ ?].
  - apply sized_spec. by rewrite length_fmap.
  - rewrite <- list_fmap_compose.
    exact (strictly_sorted_filter (fun member => candidateComparison_resultId (member_reference member)) p members Hsorted).
Qed.

Lemma part_size (p : PolicyEvaluationCandidateComparisonMember -> bool) :
  Z.of_nat (length (List.filter p members)) <= MAX_RELEASE_CANDIDATE_COMPARISONS.
Proof. apply sized_spec in Hsize. pose proof (List.filter_length_le p members). lia. Qed.

Lemma resolve_valid comparison :
  ComparisonDefinitionReferenceSchema comparison = true ->
  PolicyEvaluationComparisonResolutionSchema (resolve members comparison) = true.
Proof.
  intros Hc. unfold PolicyEvaluationComparisonResolutionSchema, resolve. cbn [resolution_comparison resolution_status]. rewrite Hc, andb_true_l.
  pose proof (part_size (fun member => verified_comparison member === Some comparison)) as Hm.
  pose proof (part_size (fun member => negb (is_verified member))) as Hu.
  pose proof (part_valid (fun member => verified_comparison member === Some comparison)) as Pm.
  pose proof (part_valid (fun member => negb (is_verified member))) as Pu.
  unfold unreadable_members, matching_members in *. rewrite !length_fmap.
  destruct (Nat.leb_spec 2 (length (List.filter (fun member => verified_comparison member === Some comparison) members))).
  - rewrite Pm, Pu by lia. done.
  - destruct (Nat.leb_spec 1 (length (List.filter (fun member => negb (is_verified member)) members))).
    + rewrite Pm, Pu by lia. done.
    + specialize (Pm 0 1 ltac:(lia)).
      destruct (member_reference <$> List.filter (fun member => verified_comparison member === Some comparison) members)
        as [|r [|]]; [done| |done].
      unfold CandidateComparisonReferencesSchema in Pm. rewrite !andb_true_iff in Pm. destruct Pm as [[Pm _] _].
      simpl in Pm. by rewrite andb_true_r in Pm.
Qed.
End selection.

(** C20. The selection of comparisons is total and determined: for a valid
    policy and candidate inventory it fails only when one version of a
    comparison is named by two different references; otherwise the inventory it
    builds passes its own contract and has exactly one resolution per named
    comparison.  Conversely every inventory the contract accepts, whoever built
    it, resolves each of its comparisons as the classification does. *)
Theorem comparison_selection_exact `{UnicodeNormalization} candidate policy rules request scope members :
  ReleaseCandidateReferenceSchema candidate = true -> ReleasePolicyReferenceSchema policy = true ->
  forallb ReleasePolicyRuleSchema rules = true -> sized 1 MAX_POLICY_RULES rules = true ->
  PolicyEvaluationRequestReferenceSchema request = true -> EvidenceScopeSchema scope = true ->
  forallb PolicyEvaluationCandidateComparisonMemberSchema members = true ->
  sized 1 MAX_RELEASE_CANDIDATE_COMPARISONS members = true ->
  isStrictlySortedUnique
    ((fun member => candidateComparison_resultId (member_reference member)) <$> members) = true ->
  match comparison_inventory candidate policy rules request scope members with
  | Ok inventory => one_reference (named rules) /\
      (forall c, c ∈ resolution_comparison <$> inventory_policyComparisons inventory <-> c ∈ named rules) /\
      inventory_policyComparisons inventory =
        resolve members <$> (resolution_comparison <$> inventory_policyComparisons inventory)
  | Throw e => e = PolicyEvaluationComparisonSelectionError policy_comparison_reference_conflict /\
      ~ one_reference (named rules)
  end /\
  forall inventory, PolicyEvaluationComparisonInventorySchema inventory = true ->
    Forall (fun resolution =>
      resolution = resolve (inventory_members inventory) (resolution_comparison resolution))
      (inventory_policyComparisons inventory).
Proof.
  intros Hc Hp Hrules Hn Hr Hs Hm Hsize Hsort. split.
  - unfold comparison_inventory. pose proof (references_spec rules) as Href.
    destruct (policyComparisonReferences rules) as [references|e]; [|done].
    destruct Href as (Hone & Hnamed & Hstrict & Hlen). cbn [mbind result_bind].
    assert (Hid : resolution_comparison <$> resolutions references members = references).
    { unfold resolutions. rewrite <- list_fmap_compose. apply list_fmap_id. }
    rewrite parse_known; [cbn [inventory_policyComparisons]; by rewrite Hid|].
    unfold PolicyEvaluationComparisonInventorySchema, refineInventory. simpl.
    rewrite Hc, Hm, Hsize, Hp, Hr, Hs, Hsort. rewrite !andb_true_iff. split_and!; try done.
    + apply forallb_forall. intros r (c & -> & Hin)%list_elem_of_In%list_elem_of_fmap.
      apply resolve_valid; [done..|]. apply Hnamed, list_elem_of_omap in Hin as (rule & Hrule & Ec).
      rewrite forallb_forall in Hrules. apply list_elem_of_In, Hrules in Hrule.
      unfold ReleasePolicyRuleSchema in Hrule. rewrite !andb_true_iff in Hrule. destruct Hrule as [[[Hpred _] _] _].
      destruct (rule_predicate rule); simplify_eq/=; by rewrite !andb_true_iff in Hpred; destruct_and!.
    + apply sized_spec. apply sized_spec in Hn. unfold resolutions. rewrite length_fmap. lia.
    + change (isStrictlySortedUnique ((comparisonRef_comparisonVersionId ∘ resolution_comparison) <$>
        resolutions references members) = true). by rewrite list_fmap_compose, Hid.
    + apply forallb_forall. intros r (c & -> & _)%list_elem_of_In%list_elem_of_fmap. by apply accounts_iff.
  - intros inventory Hi. unfold PolicyEvaluationComparisonInventorySchema, refineInventory in Hi.
    rewrite !andb_true_iff in Hi. destruct_and!. apply Forall_forall. intros r Hin%list_elem_of_In.
    apply accounts_iff. by match goal with Ha : forallb (resolution_accounts _) _ = true |- _ =>
      rewrite forallb_forall in Ha; apply Ha end.
Qed.
