(* ===== verification/PolicyProjection.v ===== *)
(** * What a policy rule is evaluated on

    [packages/contracts/src/policy-evaluation-snapshot-rules.ts]: the projection
    of the sealed evidence one rule needs, and of the records it projects the
    parts it keeps ([evaluation-assessment.ts], [evaluation-model-assessment.ts],
    [artifact.ts]).  Equal canonical texts are equal values; the nine counts of
    an aggregate are at most ten thousand, so that their sums are exact. *)

From S2P Require Import Prelude Errors BigInts Primitives ExactArithmetic PolicyExactArithmetic.
From S2P Require Import ReplayPlan PolicyTime ReplayAccounting PolicyEvaluationJob.
From S2P Require Import PolicyJobSnapshot ComparisonContracts ComparisonSnapshot.
From S2P Require Import ComparisonResults PolicySources ReleasePolicyRules ComparisonSelection.
From Stdlib Require Import Ascii.
#[local] Open Scope Z_scope.

(** ** Aggregates *)

Definition MAX_EVALUATION_AGGREGATE_MEMBERS : Z := 10000.
Definition SafeCountSchema : Z -> bool := boundedInteger 0 MAX_EVALUATION_AGGREGATE_MEMBERS.

Record EvaluationAggregateCounts := {
  aggregate_abstainCount : Z;
  aggregate_applicableCount : Z;
  aggregate_attemptedCount : Z;
  aggregate_decidedCount : Z;
  aggregate_errorCount : Z;
  aggregate_failCount : Z;
  aggregate_notApplicableCount : Z;
  aggregate_passCount : Z;
  aggregate_selectedCount : Z;
}.

Definition EvaluationAggregateCountsSchema (value : EvaluationAggregateCounts) : bool :=
  forallb SafeCountSchema
    [aggregate_abstainCount value; aggregate_applicableCount value; aggregate_attemptedCount value;
     aggregate_decidedCount value; aggregate_errorCount value; aggregate_failCount value;
     aggregate_notApplicableCount value; aggregate_passCount value; aggregate_selectedCount value] &&
  let selected := aggregate_passCount value + aggregate_failCount value + aggregate_abstainCount value +
    aggregate_notApplicableCount value + aggregate_errorCount value in
  (aggregate_selectedCount value =? selected) && (aggregate_attemptedCount value =? selected) &&
  (aggregate_applicableCount value =?
     aggregate_passCount value + aggregate_failCount value + aggregate_abstainCount value +
     aggregate_errorCount value) &&
  (aggregate_decidedCount value =? aggregate_passCount value + aggregate_failCount value).

Inductive EvaluationSamplingAssumption : Type :=
| assumption_supported (evidence : list ArtifactContentReference)
| assumption_unsupported (limitations : list text)
| assumption_not_required.

Record WilsonInterval := {
  wilson_confidenceLevelBasisPoints : Z;
  wilson_lowerBound : string;
  wilson_successCount : Z;
  wilson_trialCount : Z;
  wilson_upperBound : string;
}.

(** [scaled]: the eighteen fractional digits of a decimal in the unit interval. *)
Definition scaled_unit_decimal (value : string) : Z :=
  let parts := split_dot (String.list_ascii_of_string value) in
  let whole := default ["0"%char] (parts !! 0%nat) in
  let fraction := default [] (parts !! 1%nat) in
  BigInt_list whole * 10 ^ 18 +
  BigInt_list (fraction ++ replicate (18 - length fraction) "0"%char).

Definition compareUnitDecimals (left right : string) : Z :=
  let difference := scaled_unit_decimal left - scaled_unit_decimal right in
  if difference <? 0 then -1 else if 0 <? difference then 1 else 0.

Definition WilsonIntervalSchema (value : WilsonInterval) : bool :=
  boundedInteger 5000 9999 (wilson_confidenceLevelBasisPoints value) &&
  UnitIntervalDecimalSchema (wilson_lowerBound value) && SafeCountSchema (wilson_successCount value) &&
  SafeCountSchema (wilson_trialCount value) && (0 <? wilson_trialCount value) &&
  UnitIntervalDecimalSchema (wilson_upperBound value) &&
  negb (wilson_trialCount value <? wilson_successCount value) &&
  negb (0 <? compareUnitDecimals (wilson_lowerBound value) (wilson_upperBound value)).

Inductive IntervalNotReportedReason : Type := method_not_requested | no_decided_cases | unsupported_assumption.

Inductive EvaluationPassInterval : Type :=
| interval_reported (interval : WilsonInterval)
| interval_not_reported (reason : IntervalNotReportedReason).

Inductive AggregationMethod : Type :=
| method_descriptive_counts
| method_wilson_score_interval (confidenceLevelBasisPoints : Z).

Definition AggregationMethodSchema (value : AggregationMethod) : bool :=
  match value with
  | method_descriptive_counts => true
  | method_wilson_score_interval confidence => boundedInteger 5000 9999 confidence
  end.

Record AggregateProjection := {
  projection_counts : EvaluationAggregateCounts;
  projection_samplingAssumption : EvaluationSamplingAssumption;
  projection_passInterval : EvaluationPassInterval;
}.

Definition is_supported (value : EvaluationSamplingAssumption) : bool :=
  match value with assumption_supported _ => true | _ => false end.

(** ** Retained records *)

(** [retained(projection)] *)
Inductive Retained (A : Type) : Type :=
| retained_verified (witness : Witness) (projection : A)
| retained_unavailable (source : PolicyEvaluationSourceReference) (observation : UnavailableObservation).
Arguments retained_verified {A} witness projection.
Arguments retained_unavailable {A} source observation.

Definition RetainedSchema {A} (accepts : A -> bool) (value : Retained A) : bool :=
  match value with
  | retained_verified witness projection => WitnessSchema witness && accepts projection
  | retained_unavailable asked _ => PolicyEvaluationSourceReferenceSchema asked
  end.

(** The source a retained or an unreadable record was asked from. *)
Definition captured_source {A} (value : Retained A) : PolicyEvaluationSourceReference :=
  match value with
  | retained_verified witness _ => witness_source witness
  | retained_unavailable asked _ => asked
  end.

(** ** Assessments *)

Inductive Applicability : Type := dim_applicable | dim_not_applicable | dim_undetermined.
Inductive CoverageState : Type := coverage_sufficient | coverage_insufficient | coverage_unavailable.
Inductive IndependenceState : Type := independence_insufficient | independence_sufficient.
Inductive IntegrityState : Type := integrity_invalid | integrity_unverified | integrity_verified.
Inductive QualificationState : Type := qualification_current | qualification_invalid | qualification_not_current.
Inductive FreshnessState : Type := freshness_current | freshness_not_current | freshness_unknown.
Inductive IdentityState : Type := identity_disputed | identity_unverified | identity_verified.
Inductive AssumptionState : Type := assumptions_not_required | assumptions_supported | assumptions_unsupported.

Record AssessmentDimensions := {
  dimension_applicability : Applicability;
  dimension_coverage : CoverageState;
  dimension_independence : IndependenceState;
  dimension_integrity : IntegrityState;
  dimension_qualification : QualificationState;
  dimension_sourceFreshness : FreshnessState;
  dimension_sourceIdentity : IdentityState;
  dimension_statisticalAssumptions : AssumptionState;
}.

Inductive AssessmentEligibility : Type :=
| assessment_is_eligible
| assessment_is_ineligible (reasons : list AssessmentEligibilityReason).

Definition AssessmentEligibilitySchema (value : AssessmentEligibility) : bool :=
  match value with
  | assessment_is_eligible => true
  | assessment_is_ineligible reasons =>
      sized 1 15 reasons && isStrictlySortedUnique (assessment_reason_name <$> reasons)
  end.

Inductive Eligibility : Type := eligible | ineligible.
Inductive CountField : Type := field_decidedCount | field_attemptedCount.

#[global] Instance Eligibility_eq_dec : EqDecision Eligibility.
Proof. solve_decision. Defined.
#[global] Instance CountField_eq_dec : EqDecision CountField.
Proof. solve_decision. Defined.

Inductive AssessmentOperand : Type :=
| operand_coverage_count (aggregate : Retained AggregateProjection)
    (aggregationPolicy : Retained AggregationMethod) (field : CountField)
| operand_uncertainty_interval (aggregate : Retained AggregateProjection)
    (aggregationPolicy : Retained AggregationMethod) (field : IntervalBound)
| operand_evaluation_eligibility (eligibility : AssessmentEligibility) (dimensions : AssessmentDimensions)
| operand_model_eligibility (eligibility : Eligibility) (reasons : list ModelAssuranceIneligibilityReason)
    (baseAssessment : AssessmentReference).

Inductive AssessmentBinding : Type :=
| binding_not_declared
| binding_assessment_unavailable (observation : UnavailableObservation)
| binding_inputs_retained (assessment : Witness) (operand : AssessmentOperand).

(** ** Comparisons *)

Record ComparisonMetricInput := {
  input_definitionIndex : Z;
  input_resultIndex : Z;
  input_stratumIndex : Z;
  input_definition : ComparisonMetric;
  input_result : ComparisonMetricResult;
  input_stratum : ComparisonStratum;
  input_minimumPairedCoverageBasisPoints : Z;
  input_comparability : ComparisonComparability;
  input_pairing : ComparisonPairingSummary;
  input_latestSourceCutoff : timestamp;
  input_comparisonWitness : Witness;
  input_resultWitness : Witness;
  input_baselineSnapshot : Witness;
  input_candidateSnapshot : Witness;
}.

Inductive ComparisonUnusableReason : Type := selection_is_unresolved | records_unavailable | lineage_invalid.

Inductive ComparisonBinding : Type :=
| binding_comparison_unusable (reason : ComparisonUnusableReason)
| binding_metric_missing
| binding_metric_bound (metric : ComparisonMetricInput).

(** The kind and the unit of a metric definition. *)
Definition kind_of_metric (kind : ComparisonMetricKind) : MetricKind :=
  match kind with
  | trace_event_count _ _ => kind_trace_event_count
  | evaluation_verdict_count _ _ => kind_evaluation_verdict_count
  | numeric_measurement _ _ _ => kind_numeric_measurement
  | replay_usage _ _ _ => kind_replay_usage
  | safety_event_count _ => kind_safety_event_count
  | artifact_set => kind_artifact_set
  | assurance_state_count _ _ => kind_assurance_state_count
  | coverage_count _ _ => kind_coverage_count
  end.

Definition unit_of_metric (kind : ComparisonMetricKind) : text :=
  match kind with
  | numeric_measurement _ _ unit_ | replay_usage _ _ unit_ => unit_
  | _ => default [] (count_metric_unit (kind_of_metric kind))
  end.

(** ** Artifacts *)

Record ArtifactOwnership := {
  ownership_artifactId : string;
  ownership_boundAt : timestamp;
  ownership_boundByPrincipalId : string;
  ownership_fixtureId : string;
  ownership_fixtureVersionId : string;
  ownership_scope : EvidenceScope;
}.

Definition ArtifactOwnershipSchema (value : ArtifactOwnership) : bool :=
  OpaqueIdSchema (ownership_artifactId value) && UtcMillisecondTimestampSchema (ownership_boundAt value) &&
  OpaqueIdSchema (ownership_boundByPrincipalId value) && OpaqueIdSchema (ownership_fixtureId value) &&
  OpaqueIdSchema (ownership_fixtureVersionId value) && EvidenceScopeSchema (ownership_scope value).

Inductive ArtifactUnavailableReason : Type :=
| artifact_reference_unsupported | artifact_record_invalid | artifact_reference_mismatch
| artifact_not_yet_available | artifact_reserved | artifact_tombstoned | artifact_purged
| artifact_retention_expired | artifact_object_missing | artifact_content_integrity_failed.

Inductive PolicyEvaluationArtifactObservation : Type :=
| artifact_verified (sha256 : string) (sizeBytes : Z)
| artifact_missing
| artifact_unavailable (reason : ArtifactUnavailableReason).

Inductive ArtifactBinding : Type :=
| binding_component_missing
| binding_model_alias
| binding_artifact_declared (reference : ArtifactContentReference)
    (catalog : option (string * option ArtifactOwnership)) (observation : PolicyEvaluationArtifactObservation).

(** The observations made on a valid catalog record. *)
Definition has_valid_catalog (observation : PolicyEvaluationArtifactObservation) : bool :=
  match observation with
  | artifact_verified _ _ => true
  | artifact_missing => false
  | artifact_unavailable
      (artifact_reference_unsupported | artifact_record_invalid | artifact_reference_mismatch) => false
  | artifact_unavailable _ => true
  end.

Definition is_some {A} (value : option A) : bool := match value with Some _ => true | None => false end.

Definition ArtifactBindingSchema (value : ArtifactBinding) : bool :=
  match value with
  | binding_component_missing | binding_model_alias => true
  | binding_artifact_declared reference catalog observation =>
      ArtifactContentReferenceSchema reference &&
      optional (fun '(recordSha256, ownership) =>
        Sha256Schema recordSha256 && optional ArtifactOwnershipSchema ownership) catalog &&
      match observation with
      | artifact_verified sha256 sizeBytes => Sha256Schema sha256 && SafePositiveIntegerSchema sizeBytes
      | _ => true
      end
  end.

(** ** Inputs *)

Inductive RuleInput : Type :=
| input_comparison (selection : PolicyEvaluationComparisonResolution) (binding : ComparisonBinding)
| input_assessment (source : PolicyEvaluationSourceReference) (binding : AssessmentBinding)
| input_artifact (binding : ArtifactBinding)
| input_approval.

Record PolicyEvaluationRuleProjection := {
  frame_ruleIndex : Z;
  frame_rule : ReleasePolicyRule;
  frame_input : RuleInput;
}.

Section schemas.
Context `{UnicodeNormalization}.

Definition sortedUniqueText (maximum : Z) (values : list text) : bool :=
  forallb AssuranceSummarySchema values && sized 0 maximum values && isStrictlySortedText values.

Definition EvaluationSamplingAssumptionSchema (value : EvaluationSamplingAssumption) : bool :=
  match value with
  | assumption_supported evidence =>
      forallb ArtifactContentReferenceSchema evidence && sized 1 16 evidence &&
      isStrictlySortedUnique ((fun r => joined (artifactId r) (sha256 r)) <$> evidence)
  | assumption_unsupported limitations => sortedUniqueText 16 limitations && sized 1 16 limitations
  | assumption_not_required => true
  end.

Definition AggregateProjectionSchema (value : AggregateProjection) : bool :=
  EvaluationAggregateCountsSchema (projection_counts value) &&
  EvaluationSamplingAssumptionSchema (projection_samplingAssumption value) &&
  match projection_passInterval value with
  | interval_not_reported _ => true
  | interval_reported interval =>
      WilsonIntervalSchema interval && is_supported (projection_samplingAssumption value) &&
      (wilson_successCount interval =? aggregate_passCount (projection_counts value)) &&
      (wilson_trialCount interval =? aggregate_decidedCount (projection_counts value))
  end.

Definition AggregateSchema : Retained AggregateProjection -> bool := RetainedSchema AggregateProjectionSchema.
Definition AggregationPolicySchema : Retained AggregationMethod -> bool := RetainedSchema AggregationMethodSchema.

Definition AssessmentOperandSchema (value : AssessmentOperand) : bool :=
  match value with
  | operand_coverage_count aggregate aggregationPolicy _ | operand_uncertainty_interval aggregate aggregationPolicy _ =>
      AggregateSchema aggregate && AggregationPolicySchema aggregationPolicy
  | operand_evaluation_eligibility eligibility _ => AssessmentEligibilitySchema eligibility
  | operand_model_eligibility eligibility reasons baseAssessment =>
      sized 0 27 reasons && isStrictlySortedUnique (assurance_reason_name <$> reasons) &&
      AssessmentReferenceSchema baseAssessment &&
      ((eligibility === eligible) === (length reasons =? 0)%nat)
  end.

Definition AssessmentBindingSchema (value : AssessmentBinding) : bool :=
  match value with
  | binding_not_declared | binding_assessment_unavailable _ => true
  | binding_inputs_retained assessment operand => WitnessSchema assessment && AssessmentOperandSchema operand
  end.

Definition ComparisonMetricInputSchema (value : ComparisonMetricInput) : bool :=
  boundedInteger 0 (MAX_COMPARISON_METRICS - 1) (input_definitionIndex value) &&
  boundedInteger 0 (MAX_COMPARISON_METRICS - 1) (input_resultIndex value) &&
  boundedInteger 0 (MAX_COMPARISON_STRATA - 1) (input_stratumIndex value) &&
  ComparisonMetricSchema (input_definition value) && ComparisonMetricResultSchema (input_result value) &&
  ComparisonStratumSchema (input_stratum value) &&
  boundedInteger 1 10000 (input_minimumPairedCoverageBasisPoints value) &&
  ComparisonComparabilitySchema (input_comparability value) &&
  ComparisonPairingSummarySchema (input_pairing value) &&
  UtcMillisecondTimestampSchema (input_latestSourceCutoff value) &&
  WitnessSchema (input_comparisonWitness value) && WitnessSchema (input_resultWitness value) &&
  WitnessSchema (input_baselineSnapshot value) && WitnessSchema (input_candidateSnapshot value).

Definition RuleInputSchema (value : RuleInput) : bool :=
  match value with
  | input_comparison selection binding =>
      PolicyEvaluationComparisonResolutionSchema selection &&
      match binding with binding_metric_bound metric => ComparisonMetricInputSchema metric | _ => true end
  | input_assessment asked binding =>
      PolicyEvaluationSourceReferenceSchema asked && AssessmentBindingSchema binding
  | input_artifact binding => ArtifactBindingSchema binding
  | input_approval => true
  end.
End schemas.

(** ** The refinement of a projection *)

Definition is_unique (selection : PolicyEvaluationComparisonResolution) : bool :=
  match resolution_status selection with selection_unique _ => true | _ => false end.

(** The witnesses of a metric are of the comparison, its one result and the
    snapshots of the two roles. *)
Definition metric_sources_ok (comparison : ComparisonDefinitionReference)
    (selection : PolicyEvaluationComparisonResolution) (metric : ComparisonMetricInput) : bool :=
  (witness_source (input_comparisonWitness metric) === source_comparison_definition comparison) &&
  match resolution_status selection with
  | selection_unique result => witness_source (input_resultWitness metric) === source_comparison_result result
  | _ => false
  end &&
  match witness_source (input_baselineSnapshot metric) with
  | source_comparison_snapshot reference => snapshotRole_role reference === baseline_role
  | _ => false
  end &&
  match witness_source (input_candidateSnapshot metric) with
  | source_comparison_snapshot reference => snapshotRole_role reference === candidate_role
  | _ => false
  end.

Definition metric_identity_ok (metricId : option string) (metric : ComparisonMetricInput) : bool :=
  let definition := input_definition metric in
  let result := input_result metric in
  (Some (metric_metricId definition) === metricId) && (Some (result_metricId result) === metricId) &&
  (kind_of_metric (metric_kind definition) === result_kind result) &&
  (unit_of_metric (metric_kind definition) === result_unit result) &&
  (metric_stratumId definition === stratum_stratumId (input_stratum metric)).

Definition comparison_input_ok (predicate : ReleasePolicyPredicate) (comparison : ComparisonDefinitionReference)
    (selection : PolicyEvaluationComparisonResolution) (binding : ComparisonBinding) : bool :=
  (resolution_comparison selection === comparison) &&
  match binding with
  | binding_comparison_unusable selection_is_unresolved => negb (is_unique selection)
  | _ => is_unique selection
  end &&
  match binding with
  | binding_metric_bound metric =>
      metric_identity_ok (predicate_metricId predicate) metric && metric_sources_ok comparison selection metric
  | _ => true
  end.

(** The source a predicate names for its assessment. *)
Definition assessment_source (predicate : ReleasePolicyPredicate) : option PolicyEvaluationSourceReference :=
  match predicate with
  | coverage_floor_assessment assessment _ _ | uncertainty_bound assessment _ _ _ _
  | eligibility_evaluation assessment => Some (source_assessment assessment)
  | eligibility_model_assurance assessment => Some (source_model_assurance_assessment assessment)
  | _ => None
  end.

Definition operand_matches (predicate : ReleasePolicyPredicate) (operand : AssessmentOperand) : bool :=
  match predicate, operand with
  | coverage_floor_assessment _ _ sampleClass, operand_coverage_count _ _ field =>
      field === match sampleClass with samples_decided => field_decidedCount | samples_observed => field_attemptedCount end
  | uncertainty_bound _ bound _ _ _, operand_uncertainty_interval _ _ field => field === bound
  | eligibility_evaluation _, operand_evaluation_eligibility _ _ => true
  | eligibility_model_assurance _, operand_model_eligibility _ _ _ => true
  | _, _ => false
  end.

Definition aggregate_sources_ok (operand : AssessmentOperand) : bool :=
  match operand with
  | operand_coverage_count aggregate aggregationPolicy _ | operand_uncertainty_interval aggregate aggregationPolicy _ =>
      (source_kind (captured_source aggregate) === "evaluation_aggregate"%string) &&
      (source_kind (captured_source aggregationPolicy) === "aggregation_policy"%string)
  | _ => true
  end.

Definition assessment_input_ok (predicate : ReleasePolicyPredicate) (source : PolicyEvaluationSourceReference)
    (binding : AssessmentBinding) : bool :=
  (Some source === assessment_source predicate) &&
  match binding with
  | binding_inputs_retained assessment operand =>
      (witness_source assessment === source) && operand_matches predicate operand && aggregate_sources_ok operand
  | _ => true
  end.

Definition artifact_input_ok (componentKind : ArtifactComponentKind) (binding : ArtifactBinding) : bool :=
  match binding with
  | binding_component_missing => true
  | binding_model_alias => componentKind === component_model_resolution
  | binding_artifact_declared reference catalog observation =>
      (has_valid_catalog observation === is_some catalog) &&
      match observation with
      | artifact_verified digest size =>
          is_some catalog && (digest === sha256 reference) && (size =? sizeBytes reference)
      | _ => true
      end
  end.

(** Every rule keeps the family of input its predicate owns. *)
Definition projection_input_ok (predicate : ReleasePolicyPredicate) (input : RuleInput) : bool :=
  match predicate, input with
  | approval_required _, input_approval => true
  | artifact_required _ componentKind _ _, input_artifact binding => artifact_input_ok componentKind binding
  | (comparison_threshold _ _ _ _ _ _ _ | coverage_floor_samples _ _ _ _ | coverage_floor_ratio _ _ _ _ _
    | safety_event_ceiling _ _ _ _), input_comparison selection binding =>
      match predicate_comparison predicate with
      | Some comparison => comparison_input_ok predicate comparison selection binding
      | None => false
      end
  | (coverage_floor_assessment _ _ _ | uncertainty_bound _ _ _ _ _ | eligibility_evaluation _
    | eligibility_model_assurance _), input_assessment asked binding =>
      assessment_input_ok predicate asked binding
  | _, _ => false
  end.

Definition PolicyEvaluationRuleProjectionSchema `{UnicodeNormalization}
    (value : PolicyEvaluationRuleProjection) : bool :=
  boundedInteger 0 (MAX_POLICY_RULES - 1) (frame_ruleIndex value) &&
  ReleasePolicyRuleSchema (frame_rule value) && RuleInputSchema (frame_input value) &&
  projection_input_ok (rule_predicate (frame_rule value)) (frame_input value).
