(* ===== verification/PolicyRuleResult.v ===== *)
(** * Results of policy rules

    [packages/contracts/src/policy-evaluation-result.ts]: the outcome of one
    rule, the exact operands it was decided on and the refinement that keeps
    the two consistent.  Literal fields ([method], [samplingAssumption]) are
    left out of the records, and written in the encoded text. *)

From S2P Require Import Prelude Errors BigInts Primitives ExactArithmetic PolicyExactArithmetic.
From S2P Require Import ReplayPlan PolicyEvaluationJob ComparisonContracts ComparisonResults.
From S2P Require Import PolicySources ReleasePolicyRules PolicyProjection CanonicalJson.
From Stdlib Require Import Ascii.
#[local] Open Scope Z_scope.

Definition MAX_POLICY_EVALUATION_RULE_RESULT_BYTES : Z := 2 * 1024.

(** ** Vocabularies *)

Inductive PolicyEvaluationRuleOutcome : Type :=
| outcome_satisfied | outcome_violated | outcome_indeterminate | outcome_not_applicable.

Inductive PolicyEvaluationUnresolvedReason : Type :=
| unresolved_approval_not_evaluated | unresolved_artifact_content_unavailable
| unresolved_artifact_reference_unavailable | unresolved_assessment_not_declared
| unresolved_assessment_unavailable | unresolved_candidate_authority_unverified
| unresolved_comparison_ambiguous | unresolved_comparison_lineage_invalid
| unresolved_comparison_missing | unresolved_comparison_unresolved
| unresolved_criterion_authority_unverified | unresolved_evidence_incomparable
| unresolved_evidence_unqualified | unresolved_interval_confidence_mismatch
| unresolved_interval_method_mismatch | unresolved_interval_unavailable
| unresolved_metric_missing | unresolved_metric_type_mismatch
| unresolved_metric_value_unavailable | unresolved_model_resolution_missing
| unresolved_policy_authority_unverified | unresolved_policy_expired
| unresolved_policy_not_effective | unresolved_policy_superseded | unresolved_policy_withdrawn
| unresolved_required_selector_unknown | unresolved_sampling_assumption_unsupported
| unresolved_source_unavailable | unresolved_zero_denominator.

Inductive PolicyEvaluationLimitation : Type :=
| limitation_approval_not_evaluated | limitation_declared_reference_authority_only
| limitation_external_object_observation_only | limitation_historical_observation_only
| limitation_incomplete_candidate_population.

(** The populations a count is taken of; each evidence admits some of them. *)
Inductive CountPopulation : Type :=
| baselineObservedCount | candidateObservedCount | pairedObservedCount
| pairedTotalCount | baselineTotalCount | candidateTotalCount
| decidedCount | attemptedCount.

Inductive AssessmentClass : Type := class_evaluation | class_model_assurance.

Inductive ArtifactStatus : Type :=
| status_component_missing | status_artifact_missing | status_verified
| status_media_type_disallowed | status_classification_disallowed.

#[global] Instance PolicyEvaluationRuleOutcome_eq_dec : EqDecision PolicyEvaluationRuleOutcome.
Proof. solve_decision. Defined.
#[global] Instance PolicyEvaluationUnresolvedReason_eq_dec : EqDecision PolicyEvaluationUnresolvedReason.
Proof. solve_decision. Defined.
#[global] Instance PolicyEvaluationLimitation_eq_dec : EqDecision PolicyEvaluationLimitation.
Proof. solve_decision. Defined.
#[global] Instance CountPopulation_eq_dec : EqDecision CountPopulation.
Proof. solve_decision. Defined.
#[global] Instance AssessmentClass_eq_dec : EqDecision AssessmentClass.
Proof. solve_decision. Defined.
#[global] Instance ArtifactStatus_eq_dec : EqDecision ArtifactStatus.
Proof. solve_decision. Defined.

Definition is_count_population (value : CountPopulation) : bool :=
  match value with baselineTotalCount | candidateTotalCount => false | _ => true end.

Definition is_numerator_population (value : CountPopulation) : bool :=
  match value with baselineObservedCount | candidateObservedCount | pairedObservedCount => true | _ => false end.

Definition is_denominator_population (value : CountPopulation) : bool :=
  match value with baselineTotalCount | candidateTotalCount | pairedTotalCount => true | _ => false end.

(** [population.replace("ObservedCount", "TotalCount")] *)
Definition total_population (value : CountPopulation) : CountPopulation :=
  match value with
  | baselineObservedCount => baselineTotalCount
  | candidateObservedCount => candidateTotalCount
  | pairedObservedCount => pairedTotalCount
  | _ => value
  end.

(** ** Evidence *)

Inductive PolicyEvaluationRuleEvidence : Type :=
| not_evaluated (reason : PolicyEvaluationUnresolvedReason)
| applicability_mismatch
| exact_threshold (operand : ThresholdOperand) (value : ComparisonExactValue) (threshold unit_ : string)
    (comparator : ReleasePolicyComparator) (order : Z)
| count_floor (population : CountPopulation) (observedCount minimumCount order : Z)
| ratio_floor (numeratorPopulation denominatorPopulation : CountPopulation)
    (numerator denominator minimumBasisPoints order : Z)
| uncertainty_evidence (bound : IntervalBound) (value : string) (thresholdBasisPoints : Z)
    (comparator : BoundComparator) (confidenceLevelBasisPoints successCount trialCount order : Z)
| eligibility_evidence (assessmentClass : AssessmentClass) (eligibility : Eligibility)
| artifact_evidence (status : ArtifactStatus) (reference : option ArtifactContentReference)
| safety_ceiling (eventClass : SafetyEventKind) (observedCount maximumCount : Z)
    (candidatePopulationComplete : bool) (order : Z).

Definition Count : Z -> bool := SafeNonnegativeIntegerSchema.
Definition Order (value : Z) : bool := (value =? -1) || (value =? 0) || (value =? 1).

Definition PolicyEvaluationRuleEvidenceSchema `{UnicodeNormalization} (value : PolicyEvaluationRuleEvidence) : bool :=
  match value with
  | not_evaluated _ | applicability_mismatch => true
  | exact_threshold _ value threshold unit_ _ order =>
      ComparisonExactValueSchema value && ReleasePolicyExactDecimalSchema threshold &&
      ReleasePolicyUnitSchema unit_ && Order order
  | count_floor population observedCount minimumCount order =>
      is_count_population population && Count observedCount && Count minimumCount && Order order
  | ratio_floor numeratorPopulation denominatorPopulation numerator denominator minimumBasisPoints order =>
      is_numerator_population numeratorPopulation && is_denominator_population denominatorPopulation &&
      Count numerator && Count denominator && (0 <? denominator) &&
      boundedInteger 1 10000 minimumBasisPoints && Order order
  | uncertainty_evidence _ value thresholdBasisPoints _ confidence successCount trialCount order =>
      UnitIntervalDecimalSchema value && boundedInteger 0 10000 thresholdBasisPoints &&
      boundedInteger 5000 9999 confidence && Count successCount && Count trialCount && (0 <? trialCount) &&
      Order order
  | eligibility_evidence _ _ => true
  | artifact_evidence _ reference => optional ArtifactContentReferenceSchema reference
  | safety_ceiling _ observedCount maximumCount _ order =>
      Count observedCount && Count maximumCount && Order order
  end.

Record PolicyEvaluationRuleResult := {
  ruleResult_ruleIndex : Z;
  ruleResult_ruleId : string;
  ruleResult_predicateKind : PredicateKind;
  ruleResult_outcome : PolicyEvaluationRuleOutcome;
  ruleResult_evidence : PolicyEvaluationRuleEvidence;
  ruleResult_limitations : list PolicyEvaluationLimitation;
}.

(** ** The encoded text *)

Definition outcome_name (value : PolicyEvaluationRuleOutcome) : string :=
  match value with
  | outcome_satisfied => "satisfied" | outcome_violated => "violated"
  | outcome_indeterminate => "indeterminate" | outcome_not_applicable => "not_applicable"
  end.

Definition unresolved_reason_name (value : PolicyEvaluationUnresolvedReason) : string :=
  match value with
  | unresolved_approval_not_evaluated => "approval_not_evaluated"
  | unresolved_artifact_content_unavailable => "artifact_content_unavailable"
  | unresolved_artifact_reference_unavailable => "artifact_reference_unavailable"
  | unresolved_assessment_not_declared => "assessment_not_declared"
  | unresolved_assessment_unavailable => "assessment_unavailable"
  | unresolved_candidate_authority_unverified => "candidate_authority_unverified"
  | unresolved_comparison_ambiguous => "comparison_ambiguous"
  | unresolved_comparison_lineage_invalid => "comparison_lineage_invalid"
  | unresolved_comparison_missing => "comparison_missing"
  | unresolved_comparison_unresolved => "comparison_unresolved"
  | unresolved_criterion_authority_unverified => "criterion_authority_unverified"
  | unresolved_evidence_incomparable => "evidence_incomparable"
  | unresolved_evidence_unqualified => "evidence_unqualified"
  | unresolved_interval_confidence_mismatch => "interval_confidence_mismatch"
  | unresolved_interval_method_mismatch => "interval_method_mismatch"
  | unresolved_interval_unavailable => "interval_unavailable"
  | unresolved_metric_missing => "metric_missing"
  | unresolved_metric_type_mismatch => "metric_type_mismatch"
  | unresolved_metric_value_unavailable => "metric_value_unavailable"
  | unresolved_model_resolution_missing => "model_resolution_missing"
  | unresolved_policy_authority_unverified => "policy_authority_unverified"
  | unresolved_policy_expired => "policy_expired"
  | unresolved_policy_not_effective => "policy_not_effective"
  | unresolved_policy_superseded => "policy_superseded"
  | unresolved_policy_withdrawn => "policy_withdrawn"
  | unresolved_required_selector_unknown => "required_selector_unknown"
  | unresolved_sampling_assumption_unsupported => "sampling_assumption_unsupported"
  | unresolved_source_unavailable => "source_unavailable"
  | unresolved_zero_denominator => "zero_denominator"
  end.

Definition limitation_name (value : PolicyEvaluationLimitation) : string :=
  match value with
  | limitation_approval_not_evaluated => "approval_not_evaluated"
  | limitation_declared_reference_authority_only => "declared_reference_authority_only"
  | limitation_external_object_observation_only => "external_object_observation_only"
  | limitation_historical_observation_only => "historical_observation_only"
  | limitation_incomplete_candidate_population => "incomplete_candidate_population"
  end.

Definition population_name (value : CountPopulation) : string :=
  match value with
  | baselineObservedCount => "baselineObservedCount" | candidateObservedCount => "candidateObservedCount"
  | pairedObservedCount => "pairedObservedCount" | pairedTotalCount => "pairedTotalCount"
  | baselineTotalCount => "baselineTotalCount" | candidateTotalCount => "candidateTotalCount"
  | decidedCount => "decidedCount" | attemptedCount => "attemptedCount"
  end.

Definition predicate_kind_name (value : PredicateKind) : string :=
  match value with
  | predicate_comparison_threshold => "comparison_threshold" | predicate_coverage_floor => "coverage_floor"
  | predicate_uncertainty_bound => "uncertainty_bound"
  | predicate_eligibility_required => "eligibility_required"
  | predicate_artifact_required => "artifact_required"
  | predicate_safety_event_ceiling => "safety_event_ceiling" | predicate_approval_required => "approval_required"
  end.

Definition comparator_name (value : ReleasePolicyComparator) : string :=
  match value with
  | cmp_equal => "equal" | greater_than => "greater_than" | greater_than_or_equal => "greater_than_or_equal"
  | less_than => "less_than" | less_than_or_equal => "less_than_or_equal" | not_equal => "not_equal"
  end.

Definition bound_comparator_name (value : BoundComparator) : string :=
  match value with at_least => "at_least" | at_most => "at_most" end.

Definition bound_name (value : IntervalBound) : string :=
  match value with lower_bound => "lower" | upper_bound => "upper" end.

Definition operand_name (value : ThresholdOperand) : string :=
  match value with
  | operand_baseline => "baseline" | operand_candidate => "candidate" | operand_delta => "delta"
  end.

Definition assessment_class_name (value : AssessmentClass) : string :=
  match value with class_evaluation => "evaluation" | class_model_assurance => "model_assurance" end.

Definition eligibility_name (value : Eligibility) : string :=
  match value with eligible => "eligible" | ineligible => "ineligible" end.

Definition artifact_status_name (value : ArtifactStatus) : string :=
  match value with
  | status_component_missing => "component_missing" | status_artifact_missing => "artifact_missing"
  | status_verified => "verified" | status_media_type_disallowed => "media_type_disallowed"
  | status_classification_disallowed => "classification_disallowed"
  end.

Definition event_class_name (value : SafetyEventKind) : string :=
  match value with
  | safety_guardrail_check => "guardrail_check"
  | safety_replay_intervention => "replay_safety_intervention"
  | safety_uncertain_side_effect => "uncertain_side_effect"
  end.

Definition classification_name (value : DataClassification) : string :=
  match value with
  | metadata => "metadata" | internal => "internal" | confidential => "confidential" | restricted => "restricted"
  end.

Definition redaction_stage_name (value : RedactionStage) : string :=
  match value with source => "source" | ingest => "ingest" | retention => "retention" end.

(** Members of JSON objects. *)
Definition ascii_member (key value : string) : text * Json := (text_of key, JString (text_of value)).
Definition number_member (key : string) (value : Z) : text * Json := (text_of key, JNumber (integer_number value)).

Definition exact_value_json (value : ComparisonExactValue) : Json :=
  match value with
  | decimal_value unit value =>
      JObject [ascii_member "representation" "decimal"; (text_of "unit", JString unit); ascii_member "value" value]
  | rational_value denominator numerator unit =>
      JObject [ascii_member "denominator" denominator; ascii_member "numerator" numerator;
               ascii_member "representation" "rational"; (text_of "unit", JString unit)]
  end.

(** [JSON.parse(JSON.stringify(value))] leaves an undefined [redactedAt] out. *)
Definition artifact_reference_json (value : ArtifactContentReference) : Json :=
  JObject ([ascii_member "artifactId" (artifactId value);
            ascii_member "classification" (classification_name (classification value));
            ascii_member "mediaType" (mediaType value)] ++
           match redactedAt value with
           | Some stage => [ascii_member "redactedAt" (redaction_stage_name stage)]
           | None => []
           end ++
           [ascii_member "sha256" (sha256 value); number_member "sizeBytes" (sizeBytes value)]).

Definition evidence_json (value : PolicyEvaluationRuleEvidence) : Json :=
  match value with
  | not_evaluated reason =>
      JObject [ascii_member "kind" "not_evaluated"; ascii_member "reason" (unresolved_reason_name reason)]
  | applicability_mismatch => JObject [ascii_member "kind" "applicability_mismatch"]
  | exact_threshold operand value threshold unit_ comparator order =>
      JObject [ascii_member "kind" "exact_threshold"; ascii_member "operand" (operand_name operand);
               (text_of "value", exact_value_json value); ascii_member "threshold" threshold;
               ascii_member "unit" unit_; ascii_member "comparator" (comparator_name comparator);
               number_member "order" order]
  | count_floor population observedCount minimumCount order =>
      JObject [ascii_member "kind" "count_floor"; ascii_member "population" (population_name population);
               number_member "observedCount" observedCount; number_member "minimumCount" minimumCount;
               number_member "order" order]
  | ratio_floor numeratorPopulation denominatorPopulation numerator denominator minimumBasisPoints order =>
      JObject [ascii_member "kind" "ratio_floor";
               ascii_member "numeratorPopulation" (population_name numeratorPopulation);
               ascii_member "denominatorPopulation" (population_name denominatorPopulation);
               number_member "numerator" numerator; number_member "denominator" denominator;
               number_member "minimumBasisPoints" minimumBasisPoints; number_member "order" order]
  | uncertainty_evidence bound value thresholdBasisPoints comparator confidence successCount trialCount order =>
      JObject [ascii_member "kind" "uncertainty_bound"; ascii_member "bound" (bound_name bound);
               ascii_member "value" value; number_member "thresholdBasisPoints" thresholdBasisPoints;
               ascii_member "comparator" (bound_comparator_name comparator);
               ascii_member "method" "wilson_score_interval"; ascii_member "methodVersion" "1.0.0";
               number_member "confidenceLevelBasisPoints" confidence;
               number_member "successCount" successCount; number_member "trialCount" trialCount;
               ascii_member "samplingAssumption" "supported"; number_member "order" order]
  | eligibility_evidence assessmentClass eligibility =>
      JObject [ascii_member "kind" "eligibility";
               ascii_member "assessmentClass" (assessment_class_name assessmentClass);
               ascii_member "eligibility" (eligibility_name eligibility)]
  | artifact_evidence status reference =>
      JObject [ascii_member "kind" "artifact"; ascii_member "status" (artifact_status_name status);
               (text_of "reference", match reference with
                                     | Some reference => artifact_reference_json reference
                                     | None => JNull
                                     end)]
  | safety_ceiling eventClass observedCount maximumCount candidatePopulationComplete order =>
      JObject [ascii_member "kind" "safety_ceiling"; ascii_member "eventClass" (event_class_name eventClass);
               number_member "observedCount" observedCount; number_member "maximumCount" maximumCount;
               (text_of "candidatePopulationComplete", JBool candidatePopulationComplete);
               number_member "order" order]
  end.

Definition rule_result_json (value : PolicyEvaluationRuleResult) : Json :=
  JObject [number_member "ruleIndex" (ruleResult_ruleIndex value);
           ascii_member "ruleId" (ruleResult_ruleId value);
           ascii_member "predicateKind" (predicate_kind_name (ruleResult_predicateKind value));
           ascii_member "outcome" (outcome_name (ruleResult_outcome value));
           (text_of "evidence", evidence_json (ruleResult_evidence value));
           (text_of "limitations",
            JArray ((fun limitation => JString (text_of (limitation_name limitation))) <$>
                      ruleResult_limitations value))].

(** ** The refinement *)

(** [decimalFraction] of this file: it does not reduce. *)
Definition retainedFraction (value : string) : ExactFraction :=
  let characters := String.list_ascii_of_string value in
  let negative := match characters with "-"%char :: _ => true | _ => false end in
  let parts := split_dot (if negative then tail characters else characters) in
  let whole := default [] (parts !! 0%nat) in
  let fraction := default [] (parts !! 1%nat) in
  {| denominator := 10 ^ Z.of_nat (length fraction);
     numerator := BigInt_list (whole ++ fraction) * (if negative then -1 else 1) |}.

Definition sign (value : Z) : Z := if value <? 0 then -1 else if 0 <? value then 1 else 0.

Definition operandFraction (value : ComparisonExactValue) : ExactFraction :=
  match value with
  | decimal_value _ value => retainedFraction value
  | rational_value denominator numerator _ =>
      {| denominator := BigInt denominator; numerator := BigInt numerator |}
  end.

Definition expected_kind (evidence : PolicyEvaluationRuleEvidence) : option PredicateKind :=
  match evidence with
  | not_evaluated _ | applicability_mismatch => None
  | exact_threshold _ _ _ _ _ _ => Some predicate_comparison_threshold
  | count_floor _ _ _ _ | ratio_floor _ _ _ _ _ _ => Some predicate_coverage_floor
  | uncertainty_evidence _ _ _ _ _ _ _ _ => Some predicate_uncertainty_bound
  | eligibility_evidence _ _ => Some predicate_eligibility_required
  | artifact_evidence _ _ => Some predicate_artifact_required
  | safety_ceiling _ _ _ _ _ => Some predicate_safety_event_ceiling
  end.

(** A partial safety population: known violations stand, nothing else does. *)
Definition incomplete_safety (evidence : PolicyEvaluationRuleEvidence) : bool :=
  match evidence with safety_ceiling _ _ _ complete _ => negb complete | _ => false end.

(** The operands agree with one another. *)
Definition operands_consistent (evidence : PolicyEvaluationRuleEvidence) : bool :=
  match evidence with
  | exact_threshold _ value _ unit_ _ _ => exact_unit value === text_of unit_
  | ratio_floor numeratorPopulation denominatorPopulation numerator denominator _ _ =>
      negb (denominator <? numerator) && (denominatorPopulation === total_population numeratorPopulation)
  | uncertainty_evidence _ _ _ _ _ successCount trialCount _ => negb (trialCount <? successCount)
  | artifact_evidence status reference => (status === status_component_missing) === (reference === None)
  | _ => true
  end.

(** The evidence bears the verdict out, orderings apart. *)
Definition verdict_consistent (value : PolicyEvaluationRuleResult) : bool :=
  let outcome := ruleResult_outcome value in
  match ruleResult_evidence value with
  | safety_ceiling _ _ _ complete _ =>
      negb ((outcome === outcome_satisfied) && negb complete) &&
      (complete || includes (ruleResult_limitations value) limitation_incomplete_candidate_population)
  | eligibility_evidence _ eligibility => (outcome === outcome_satisfied) === (eligibility === eligible)
  | artifact_evidence status _ => (outcome === outcome_satisfied) === (status === status_verified)
  | _ => true
  end.

(** The order the operands have ([actualOrder]) and the one retained. *)
Definition ordering (evidence : PolicyEvaluationRuleEvidence) : option (Z * Z) :=
  match evidence with
  | exact_threshold _ value threshold _ _ order =>
      let actual := operandFraction value in
      let threshold := retainedFraction threshold in
      Some (sign (numerator actual * denominator threshold - numerator threshold * denominator actual), order)
  | ratio_floor _ _ numerator denominator minimumBasisPoints order =>
      Some (sign (numerator * 10000 - minimumBasisPoints * denominator), order)
  | uncertainty_evidence _ value thresholdBasisPoints _ _ _ _ order =>
      let bound := retainedFraction value in
      Some (sign (numerator bound * 10000 - thresholdBasisPoints * denominator bound), order)
  | count_floor _ observedCount minimumCount order => Some (sign (observedCount - minimumCount), order)
  | safety_ceiling _ observedCount maximumCount _ order => Some (sign (observedCount - maximumCount), order)
  | _ => None
  end.

Definition verdict (matches : bool) : PolicyEvaluationRuleOutcome :=
  if matches then outcome_satisfied else outcome_violated.

(** The outcome the retained order asks for. *)
Definition expected_outcome (evidence : PolicyEvaluationRuleEvidence) : option PolicyEvaluationRuleOutcome :=
  match evidence with
  | exact_threshold _ _ _ _ comparator order =>
      Some (verdict match comparator with
                    | cmp_equal => order =? 0
                    | not_equal => negb (order =? 0)
                    | greater_than => order =? 1
                    | greater_than_or_equal => negb (order =? -1)
                    | less_than => order =? -1
                    | less_than_or_equal => negb (order =? 1)
                    end)
  | uncertainty_evidence _ _ _ comparator _ _ _ order =>
      Some (verdict match comparator with at_least => negb (order =? -1) | at_most => negb (order =? 1) end)
  | safety_ceiling _ _ _ complete order =>
      Some (if order =? 1 then outcome_violated
            else if complete then outcome_satisfied else outcome_indeterminate)
  | count_floor _ _ _ order | ratio_floor _ _ _ _ _ order =>
      Some (if order =? -1 then outcome_violated else outcome_satisfied)
  | _ => None
  end.

Section schema.
Context `{UnicodeNormalization} `{NativeTextEncoder}.

(** The encoder fails on no value the shape accepts; a failure would surface
    as an exception of the parse as well. *)
Definition within_rule_result_ceiling (value : PolicyEvaluationRuleResult) : bool :=
  match encodeEvaluationCanonicalJson (rule_result_json value) with
  | Ok bytes => Z.of_nat (length bytes) <=? MAX_POLICY_EVALUATION_RULE_RESULT_BYTES
  | Throw _ => false
  end.

Definition refinePolicyEvaluationRuleResult (value : PolicyEvaluationRuleResult) : bool :=
  let evidence := ruleResult_evidence value in
  let outcome := ruleResult_outcome value in
  let predicateKind := ruleResult_predicateKind value in
  within_rule_result_ceiling value &&
  match evidence with
  | not_evaluated reason =>
      (outcome === outcome_indeterminate) &&
      ((predicateKind === predicate_approval_required) === (reason === unresolved_approval_not_evaluated))
  | applicability_mismatch =>
      (predicateKind !== predicate_approval_required) && (outcome === outcome_not_applicable)
  | _ =>
      (predicateKind !== predicate_approval_required) && (Some predicateKind === expected_kind evidence) &&
      ((outcome === outcome_satisfied) || (outcome === outcome_violated) ||
       (incomplete_safety evidence && (outcome === outcome_indeterminate))) &&
      operands_consistent evidence && verdict_consistent value &&
      optional (fun '(actualOrder, order) => actualOrder =? order) (ordering evidence) &&
      optional (fun expected => outcome === expected) (expected_outcome evidence)
  end.

Definition PolicyEvaluationRuleResultSchema (value : PolicyEvaluationRuleResult) : bool :=
  boundedInteger 0 (MAX_POLICY_RULES - 1) (ruleResult_ruleIndex value) &&
  OpaqueIdSchema (ruleResult_ruleId value) &&
  PolicyEvaluationRuleEvidenceSchema (ruleResult_evidence value) &&
  sized 0 5 (ruleResult_limitations value) &&
  isStrictlySortedUnique (limitation_name <$> ruleResult_limitations value) &&
  refinePolicyEvaluationRuleResult value.
End schema.
