(* ===== verification/PolicyRuleResultProofs.v ===== *)
(** * The size of a canonical encoding, and of rule results

    A value whose texts need no escapes is encoded one byte per code unit, so
    that a bound on its parts bounds the bytes ([json_size]); and the texts the
    identifier, digest, media type and number schemas accept need none. *)

From S2P Require Import Prelude Errors Regex BigInts Primitives PolicyEvaluationJob.
From S2P Require Import ExactArithmetic ExactArithmeticProofs PolicyExactArithmetic ReplayPlan.
From S2P Require Import ComparisonContracts ComparisonResults CanonicalJson CanonicalJsonProofs.
From S2P Require Import CanonicalIdentity PolicySources ReleasePolicyRules PolicyProjection.
From S2P Require Import PolicyRuleResult.
From Stdlib Require Import Ascii.
From Stdlib Require Import QArith Ascii.
#[local] Open Scope Z_scope.

(** ** Quiet texts *)

(** Printable ASCII, without the quotation mark and the backslash. *)
Definition quiet_unit (u : Z) : bool := (32 <=? u) && (u <=? 126) && negb (u =? 34) && negb (u =? 92).
Definition quiet_text (t : text) : bool := forallb quiet_unit t.
Definition quiet_char (c : ascii) : bool := quiet_unit (Z.of_N (N_of_ascii c)).
Definition quiet_string (s : string) : bool := forallb quiet_char (String.list_ascii_of_string s).

Lemma quiet_text_of s : quiet_text (text_of s) = quiet_string s.
Proof.
  unfold quiet_text, quiet_string, text_of. induction (String.list_ascii_of_string s) as [|c l IH]; csimpl; [done|].
  by rewrite IH.
Qed.

Lemma length_text_of s : length (text_of s) = String.length s.
Proof. unfold text_of. by rewrite length_fmap, string_length_list. Qed.

(** Expressions whose every class admits quiet characters only. *)
Definition all_ascii : list ascii := ascii_of_nat <$> seq 0 256.

Lemma all_ascii_complete c : c ∈ all_ascii.
Proof.
  apply list_elem_of_fmap. exists (nat_of_ascii c). split; [by rewrite ascii_nat_embedding|].
  apply elem_of_seq. pose proof (nat_ascii_bounded c). lia.
Qed.

Fixpoint quiet_re (r : re) : bool :=
  match r with
  | Empty | Eps => true
  | Cls p => forallb (fun c => implb (p c) (quiet_char c)) all_ascii
  | Cat r s | Alt r s => quiet_re r && quiet_re s
  | Star r => quiet_re r
  end.

Lemma quiet_re_sound r l : matched r l -> quiet_re r = true -> forallb quiet_char l = true.
Proof.
  induction 1 as [|p c Hc| | | | |]; cbn [quiet_re]; rewrite ?andb_true_iff, ?forallb_app; try done; try tauto.
  - rewrite forallb_forall. intros H. specialize (H c). rewrite Hc in H. cbn [forallb].
    rewrite andb_true_r. apply H, list_elem_of_In, all_ascii_complete.
  - intros [H1 H2]. apply andb_true_iff. auto.
  - intros H1. apply andb_true_iff. auto.
Qed.

Lemma quiet_test r s : test r s = true -> quiet_re r = true -> quiet_string s = true.
Proof. intros H%test_spec. by apply quiet_re_sound. Qed.

Lemma longest_test r s n : test r s = true -> longest r = Some n -> (String.length s <= n)%nat.
Proof. intros [_ H]%test_spec%matched_length. rewrite string_length_list. apply H. Qed.

#[local] Transparent OpaqueIdSchema Sha256Schema ArtifactMediaTypeSchema.

Lemma opaque_quiet s : OpaqueIdSchema s = true -> quiet_string s = true.
Proof. unfold OpaqueIdSchema. intros H. eapply quiet_test; [exact H|vm_compute; reflexivity]. Qed.

Lemma sha_quiet s : Sha256Schema s = true -> quiet_string s = true.
Proof. unfold Sha256Schema. intros H. eapply quiet_test; [exact H|vm_compute; reflexivity]. Qed.

Lemma sha_length s : Sha256Schema s = true -> (String.length s <= 64)%nat.
Proof. unfold Sha256Schema. intros H. eapply longest_test; [exact H|vm_compute; reflexivity]. Qed.

Lemma media_quiet s : ArtifactMediaTypeSchema s = true -> quiet_string s = true.
Proof.
  unfold ArtifactMediaTypeSchema. intros [_ H]%andb_true_iff.
  eapply quiet_test; [exact H|vm_compute; reflexivity].
Qed.

Lemma media_length s : ArtifactMediaTypeSchema s = true -> (String.length s <= 255)%nat.
Proof.
  unfold ArtifactMediaTypeSchema, length_in. intros [[_ H]%andb_true_iff _]%andb_true_iff. by apply Nat.leb_le.
Qed.

#[local] Opaque OpaqueIdSchema Sha256Schema ArtifactMediaTypeSchema.

Lemma decimal_quiet s : ExactDecimalSchema s = true -> quiet_string s = true /\ (String.length s <= 64)%nat.
Proof.
  intros [Hl%Nat.leb_le H]%andb_true_iff. split; [|done]. eapply quiet_test; [exact H|vm_compute; reflexivity].
Qed.

Lemma integer_quiet s : ExactIntegerSchema s = true -> quiet_string s = true /\ (String.length s <= 128)%nat.
Proof.
  intros [Hl%Nat.leb_le H]%andb_true_iff. split; [|done]. eapply quiet_test; [exact H|vm_compute; reflexivity].
Qed.

Lemma positive_quiet s : ExactPositiveIntegerSchema s = true -> quiet_string s = true /\ (String.length s <= 128)%nat.
Proof.
  intros [Hl%Nat.leb_le H]%andb_true_iff. split; [|done]. eapply quiet_test; [exact H|vm_compute; reflexivity].
Qed.

Lemma unit_decimal_quiet s : UnitIntervalDecimalSchema s = true -> quiet_string s = true /\ (String.length s <= 64)%nat.
Proof. intros H%unit_interval_decimal. by apply decimal_quiet. Qed.

Lemma safe_integer_length v : isSafeInteger v = true -> (String.length (toString v) <= 17)%nat.
Proof.
  rewrite isSafeInteger_spec. unfold MAX_SAFE_INTEGER. intros Hv. apply toString_bound; [|lia].
  change (10 ^ Z.of_nat 16) with 10000000000000000. lia.
Qed.

(** ** Plain values *)

(** Nested at most [levels] deep, in quiet texts, each key once. *)
Fixpoint plain (levels : nat) (value : Json) : bool :=
  match levels with
  | O => false
  | S levels =>
      match value with
      | JNonFinite | JUndefined => false
      | JNumber value => number_ok value
      | JString value => quiet_text value
      | JArray items => forallb (plain levels) items
      | JObject members =>
          bool_decide (NoDup members.*1) &&
          forallb (fun member => quiet_text member.1 && plain levels member.2) members
      | _ => true
      end
  end.

Fixpoint json_size (value : Json) : nat :=
  match value with
  | JNull => 4
  | JBool _ => 5
  | JNumber value => length (number_text value)
  | JString value => length value + 2
  | JArray items => 2 + list_sum ((fun item => json_size item + 1) <$> items)
  | JObject members => 2 + list_sum ((fun member => length member.1 + 4 + json_size member.2) <$> members)
  | JNonFinite | JUndefined => 0
  end%nat.

Lemma plain_mono levels levels' v : (levels <= levels')%nat -> plain levels v = true -> plain levels' v = true.
Proof.
  revert levels' v. induction levels as [|levels IH]; intros [|levels'] v Hl Hv; try done; try lia.
  destruct v as [| | | | |items|members|]; simpl in *; try done.
  - rewrite forallb_forall in *. intros x Hx. apply IH; [lia|]. by apply Hv.
  - apply andb_true_iff in Hv as [Hnd Hv]. rewrite Hnd. cbn [andb]. rewrite forallb_forall in *. intros m Hm.
    apply Hv, andb_true_iff in Hm as [Hk Hm]. rewrite Hk. apply IH; [lia|done].
Qed.

Lemma quiet_scalar t : quiet_text t = true -> scalar_text t = true.
Proof.
  intros H. apply plain_scalar. unfold plain_text, quiet_text in *. rewrite forallb_forall in *.
  intros u Hu%H. unfold quiet_unit, is_surrogate in *. breflect. lia.
Qed.

Lemma plain_admissible levels v : plain levels v = true -> well_formed v = true /\ admissible levels v = true.
Proof.
  revert v. induction levels as [|levels IH]; intros v Hv; [done|].
  destruct v as [| | | |t|items|members|]; simpl in *; try done.
  - apply quiet_scalar, scalar_text_iff in Hv as [-> ->]. done.
  - rewrite !forallb_forall in *. split; intros x Hx%Hv%IH; tauto.
  - apply andb_true_iff in Hv as [-> Hv]. simpl. rewrite !forallb_forall in *.
    split; intros m Hm%Hv; apply andb_true_iff in Hm as [Hk Hm%IH];
      apply quiet_scalar, scalar_text_iff in Hk as [Hk1 Hk2]; rewrite ?Hk1, ?Hk2; simpl; tauto.
Qed.

(** ** Sizes *)

Lemma list_sum_perm l k : l ≡ₚ k -> list_sum l = list_sum k.
Proof. unfold list_sum. induction 1; simpl; lia. Qed.

Lemma json_size_canonical v : json_size (canonical v) = json_size v.
Proof.
  induction v as [| | | | |items IH|members IH|] using Json_nested_ind; try done; cbn [canonical json_size];
    rewrite ?number_text_plain; try done; f_equal.
  - f_equal. rewrite <- list_fmap_compose. apply list_fmap_ext. intros i x Hx. simpl. f_equal.
    rewrite Forall_forall in IH. by eapply IH, list_elem_of_lookup_2.
  - rewrite (list_sum_perm _ _ (fmap_Permutation _ _ _ (sort_members_perm _))).
    rewrite <- list_fmap_compose. f_equal. apply list_fmap_ext. intros i x Hx. simpl. f_equal.
    rewrite Forall_forall in IH. by eapply IH, list_elem_of_lookup_2.
Qed.

Lemma plain_canonical levels v : plain levels v = true -> plain levels (canonical v) = true.
Proof.
  revert v. induction levels as [|levels IH]; intros v Hv; [done|].
  destruct v as [| |n| |t|items|members|]; simpl in *; try done.
  - unfold plain_zero. by case_match.
  - rewrite forallb_forall in *. intros x (y & -> & Hy%list_elem_of_In)%list_elem_of_In%list_elem_of_fmap. auto.
  - apply andb_true_iff in Hv as [Hnd Hv]. rewrite bool_decide_eq_true in Hnd.
    rewrite andb_true_iff, (forallb_perm _ _ _ (sort_members_perm _)), bool_decide_eq_true. split.
    + rewrite (fmap_Permutation _ _ _ (sort_members_perm _)), <- list_fmap_compose. done.
    + rewrite forallb_forall in *. intros x (y & -> & Hy%list_elem_of_In)%list_elem_of_In%list_elem_of_fmap.
      apply Hv, andb_true_iff in Hy as [Hk Hy]. simpl. rewrite Hk. by apply IH.
Qed.

(** No more units than [n], all of them ASCII. *)
Definition measures (t : text) (n : nat) : Prop := ascii_text t = true /\ (length t <= n)%nat.

Lemma measures_app t u m n : measures t m -> measures u n -> measures (t ++ u) (m + n).
Proof.
  intros [Ht Hm] [Hu Hn]. split; [|rewrite length_app; lia]. unfold ascii_text in *.
  by rewrite forallb_app, Ht, Hu.
Qed.

Lemma measures_le t m n : measures t m -> (m <= n)%nat -> measures t n.
Proof. intros [? ?] ?. split; [done|lia]. Qed.

Lemma stringify_measures t : quiet_text t = true -> measures (stringify_text t) (length t + 2).
Proof.
  intros H. unfold stringify_text.
  assert (Hq : concat (stringify_unit <$> t) = t).
  { revert H. unfold quiet_text. induction t as [|u t IH]; [done|]. csimpl. intros [Hu Ht]%andb_true_iff.
    rewrite (IH Ht). unfold quiet_unit, stringify_unit in *. breflect.
    repeat (rewrite (proj2 (Z.eqb_neq _ _)); [|lia]). by rewrite (proj2 (Z.ltb_ge _ _)) by lia. }
  rewrite Hq. split; [|rewrite !length_app; simpl; lia]. unfold ascii_text. rewrite !forallb_app. simpl.
  rewrite andb_true_r. unfold quiet_text in H. rewrite forallb_forall in *. intros u Hu%H.
  unfold quiet_unit in Hu. breflect. lia.
Qed.

Lemma join_measures {A} (render : A -> text) (weight : A -> nat) items :
  Forall (fun x => measures (render x) (weight x)) items ->
  measures (join_comma (render <$> items)) (list_sum ((fun x => weight x + 1)%nat <$> items)).
Proof.
  assert (Hrest : forall items, Forall (fun x => measures (render x) (weight x)) items ->
    measures (concat ((fun next => 44 :: next) <$> (render <$> items)))
      (list_sum ((fun x => weight x + 1)%nat <$> items))).
  { induction 1 as [|x l Hx Hl IH]; [by split|].
    apply (measures_app (44 :: render x) _ (weight x + 1)); [|done].
    rewrite Nat.add_comm. by apply (measures_app [44] _ 1). }
  intros [|x l Hx Hl]; [by split|]. csimpl.
  apply (measures_app (render x) _ (weight x + 1)); [|by apply Hrest]. eapply measures_le; [exact Hx|lia].
Qed.

Lemma render_measures levels v : plain levels v = true -> measures (render v) (json_size v).
Proof.
  revert v. induction levels as [|levels IH]; intros v Hv; [done|].
  destruct v as [|[]|n| |t|items|members|]; cbn [plain render json_size] in *; try done.
  - split; [done|]. by apply Nat.leb_le.
  - split; [by apply number_text_ascii|done].
  - by apply stringify_measures.
  - change (2 + ?n)%nat with (1 + (1 + n))%nat. rewrite (Nat.add_comm 1 (list_sum _)).
    apply (measures_app [91] _ 1); [done|]. apply measures_app; [|done].
    apply join_measures, Forall_forall. intros x Hx. rewrite forallb_forall in Hv. by apply IH, Hv, list_elem_of_In.
  - apply andb_true_iff in Hv as [_ Hv].
    change (2 + ?n)%nat with (1 + (1 + n))%nat. rewrite (Nat.add_comm 1 (list_sum _)).
    apply (measures_app [123] _ 1); [done|]. apply measures_app; [|done].
    replace (list_sum _) with
      (list_sum ((fun m : text * Json => (length m.1 + 2 + (1 + json_size m.2)) + 1)%nat <$> members))
      by (f_equal; apply list_fmap_ext; intros; lia).
    apply (join_measures (fun m => stringify_text m.1 ++ [58] ++ render m.2)
      (fun m => length m.1 + 2 + (1 + json_size m.2))%nat), Forall_forall.
    intros m Hm. rewrite forallb_forall in Hv. apply list_elem_of_In, Hv, andb_true_iff in Hm as [Hk Hm].
    apply measures_app; [by apply stringify_measures|]. by apply (measures_app [58] _ 1), IH.
Qed.

Lemma ascii_bytes t : ascii_text t = true -> utf8_bytes t = t.
Proof.
  unfold ascii_text, utf8_bytes. induction t as [|u t IH]; [done|]. cbn [forallb].
  intros [Hu Ht]%andb_true_iff.
  assert (Hc : code_points (u :: t) = u :: code_points t).
  { cbn [code_points]. destruct t as [|low t']; [done|]. breflect. by rewrite (proj2 (Z.leb_gt _ _)) by lia. }
  rewrite Hc. csimpl. rewrite (IH Ht). unfold utf8_of. breflect. by rewrite (proj2 (Z.leb_le _ _)) by lia.
Qed.

(** A plain value is encoded, in no more bytes than its size. *)
Lemma plain_encoded `{NativeTextEncoder} levels v :
  (levels <= S MAX_CANONICAL_NESTING_DEPTH)%nat -> plain levels v = true ->
  exists bytes, encodeEvaluationCanonicalJson v = Ok bytes /\ (length bytes <= json_size v)%nat.
Proof.
  intros Hl Hv%(plain_mono _ _ _ Hl). destruct (plain_admissible _ _ Hv) as [Hw Ha].
  exists (utf8_bytes (render (canonical v))). split; [by apply encode_iff|].
  pose proof (render_measures _ _ (plain_canonical _ _ Hv)) as [Hm Hs].
  rewrite ascii_bytes by done. by rewrite json_size_canonical in Hs.
Qed.

(** * The size and the orderings of rule results

    The encoded form of an accepted rule result never reaches its ceiling, and
    the ordering its refinement recomputes is the one of the rationals its
    operands denote. *)

(** ** Encodable values *)

(** A value the encoder accepts, in at most [size] bytes, and a member of an
    object that is one. *)
Definition encodable (levels : nat) (value : Json) (size : nat) : Prop :=
  plain levels value = true /\ (json_size value <= size)%nat.

Definition fits (levels : nat) (member : text * Json) (size : nat) : Prop :=
  quiet_text member.1 = true /\ plain levels member.2 = true /\
  (length member.1 + 4 + json_size member.2 <= size)%nat.

(** A string without escapes of at most [n] characters. *)
Definition brief (n : nat) (s : string) : bool := quiet_string s && (String.length s <=? n)%nat.

Lemma brief_intro n s : quiet_string s = true -> (String.length s <= n)%nat -> brief n s = true.
Proof. intros Hq Hl. unfold brief. rewrite Hq. by apply Nat.leb_le. Qed.

Lemma encodable_object levels members sizes size :
  bool_decide (NoDup members.*1) = true -> Forall2 (fits levels) members sizes ->
  (2 + list_sum sizes <=? size)%nat = true -> encodable (S levels) (JObject members) size.
Proof.
  intros Hnd Hm Hs%Nat.leb_le. unfold encodable. cbn [plain json_size]. rewrite Hnd. cbn [andb].
  assert (H : forallb (fun m => quiet_text m.1 && plain levels m.2) members = true /\
    (list_sum ((fun m => length m.1 + 4 + json_size m.2)%nat <$> members) <= list_sum sizes)%nat).
  { clear -Hm. induction Hm as [|m n ms ns (Hk & Hp & Hl) _ [IH1 IH2]]; [done|]. csimpl.
    unfold list_sum in *. rewrite Hk, Hp, IH1. split; [done|]. simpl. lia. }
  destruct H as [-> H]. split; [done|lia].
Qed.

Lemma encodable_mono levels levels' value size :
  encodable levels value size -> (levels <= levels')%nat -> encodable levels' value size.
Proof. intros [Hp Hs] Hl. split; [by apply (plain_mono levels)|done]. Qed.

Lemma fits_ascii n levels key value :
  quiet_string key = true -> brief n value = true ->
  fits (S levels) (ascii_member key value) (String.length key + n + 6).
Proof.
  intros Hk [Hv Hl%Nat.leb_le]%andb_true_iff. unfold fits, ascii_member. simpl.
  rewrite !quiet_text_of, !length_text_of. split_and!; [done|done|lia].
Qed.

Lemma fits_number levels key value :
  quiet_string key = true -> isSafeInteger value = true ->
  fits (S levels) (number_member key value) (String.length key + 21).
Proof.
  intros Hk Hv. pose proof (safe_integer_length _ Hv) as Hl. unfold fits, number_member. cbn [fst snd plain json_size].
  rewrite integer_number_text, quiet_text_of, !length_text_of.
  - split_and!; [done|apply integer_number_ok|lia].
  - apply isSafeInteger_spec in Hv. unfold MAX_SAFE_INTEGER in Hv. lia.
Qed.

Lemma fits_value levels key value size :
  quiet_string key = true -> encodable levels value size ->
  fits levels (text_of key, value) (String.length key + 4 + size).
Proof. intros Hk [Hp Hs]. unfold fits. simpl. rewrite quiet_text_of, length_text_of. split_and!; [done|done|lia]. Qed.

Create HintDb encoding.
#[export] Hint Extern 0 (brief _ (String _ _) = true) => reflexivity : encoding.

(** An explicit object whose parts are encodable. *)
Ltac fits_member :=
  lazymatch goal with
  | |- fits _ (ascii_member _ _) _ =>
      first [ apply (fits_ascii 36); [reflexivity|solve [eauto 2 with encoding]]
            | apply (fits_ascii 64); [reflexivity|solve [eauto 2 with encoding]]
            | apply (fits_ascii 128); [reflexivity|solve [eauto 2 with encoding]]
            | apply (fits_ascii 255); [reflexivity|solve [eauto 2 with encoding]] ]
  | |- fits _ (number_member _ _) _ => apply fits_number; [reflexivity|solve [eauto 2 with encoding]]
  | |- fits _ (text_of _, _) _ => apply fits_value; [reflexivity|solve [eauto 2 with encoding]]
  end.

Ltac encode_object :=
  eapply encodable_object;
  [vm_compute; reflexivity|repeat (constructor; [fits_member|]); constructor|vm_compute; reflexivity].

(** ** The parts of a result *)

Lemma brief_enumerations :
  (forall v, brief 36 (outcome_name v) = true) /\ (forall v, brief 36 (unresolved_reason_name v) = true) /\
  (forall v, brief 36 (limitation_name v) = true) /\ (forall v, brief 36 (population_name v) = true) /\
  (forall v, brief 36 (predicate_kind_name v) = true) /\ (forall v, brief 36 (comparator_name v) = true) /\
  (forall v, brief 36 (bound_comparator_name v) = true) /\ (forall v, brief 36 (bound_name v) = true).
Proof. split_and!; intros []; reflexivity. Qed.

Lemma brief_classes :
  (forall v, brief 36 (operand_name v) = true) /\ (forall v, brief 36 (assessment_class_name v) = true) /\
  (forall v, brief 36 (eligibility_name v) = true) /\ (forall v, brief 36 (artifact_status_name v) = true) /\
  (forall v, brief 36 (event_class_name v) = true) /\ (forall v, brief 36 (classification_name v) = true) /\
  (forall v, brief 36 (redaction_stage_name v) = true).
Proof. split_and!; intros []; reflexivity. Qed.

Lemma brief_unit u : ReleasePolicyUnitSchema u = true -> brief 36 u = true.
Proof.
  unfold ReleasePolicyUnitSchema. intros (w & Hw & He)%existsb_exists. breflect. subst w. simpl in Hw.
  by repeat destruct Hw as [<-|Hw].
Qed.

Lemma brief_opaque s : OpaqueIdSchema s = true -> brief 64 s = true.
Proof. intros H. apply brief_intro; [by apply opaque_quiet|]. by apply opaque_length in H as [_ H]. Qed.

Lemma brief_sha s : Sha256Schema s = true -> brief 64 s = true.
Proof. intros H. apply brief_intro; [by apply sha_quiet|by apply sha_length]. Qed.

Lemma brief_media s : ArtifactMediaTypeSchema s = true -> brief 255 s = true.
Proof. intros H. apply brief_intro; [by apply media_quiet|by apply media_length]. Qed.

Lemma brief_decimal s : ExactDecimalSchema s = true -> brief 64 s = true.
Proof. intros [? ?]%decimal_quiet. by apply brief_intro. Qed.

Lemma brief_unit_decimal s : UnitIntervalDecimalSchema s = true -> brief 64 s = true.
Proof. intros [? ?]%unit_decimal_quiet. by apply brief_intro. Qed.

Lemma brief_integer s : ExactIntegerSchema s = true -> brief 128 s = true.
Proof. intros [? ?]%integer_quiet. by apply brief_intro. Qed.

Lemma brief_positive s : ExactPositiveIntegerSchema s = true -> brief 128 s = true.
Proof. intros [? ?]%positive_quiet. by apply brief_intro. Qed.

Lemma safe_range low high v : - MAX_SAFE_INTEGER <= low -> high <= MAX_SAFE_INTEGER -> low <= v <= high -> isSafeInteger v = true.
Proof. intros. apply isSafeInteger_spec. lia. Qed.

Lemma safe_order v : Order v = true -> isSafeInteger v = true.
Proof. unfold Order. intros Hv. breflect. apply (safe_range (-1) 1); [done|done|lia]. Qed.

Lemma safe_Count v : Count v = true -> isSafeInteger v = true.
Proof. unfold Count. intros Hv. breflect. by apply (safe_range 0 MAX_SAFE_INTEGER). Qed.

Lemma safe_bounded low high v :
  - MAX_SAFE_INTEGER <= low -> high <= MAX_SAFE_INTEGER -> boundedInteger low high v = true -> isSafeInteger v = true.
Proof. unfold boundedInteger. intros ?? Hv. breflect. by apply (safe_range low high). Qed.

#[export] Hint Resolve brief_opaque brief_sha brief_media brief_unit brief_unit_decimal brief_decimal
  brief_integer brief_positive safe_order safe_Count : encoding.
#[export] Hint Extern 0 (brief 36 _ = true) => apply brief_enumerations : encoding.
#[export] Hint Extern 0 (brief 36 _ = true) => apply brief_classes : encoding.
#[export] Hint Extern 1 (isSafeInteger _ = true) =>
  eapply safe_bounded; [| |eassumption]; unfold MAX_SAFE_INTEGER; lia : encoding.

Lemma exact_value_encodable `{UnicodeNormalization} v u :
  ComparisonExactValueSchema v = true -> exact_unit v = text_of u -> ReleasePolicyUnitSchema u = true ->
  encodable 2 (exact_value_json v) 450.
Proof.
  intros Hv Hu Hs. destruct v as [unit s|d n unit]; simpl in *; subst unit;
    change (text_of "unit", JString (text_of u)) with (ascii_member "unit" u); breflect.
  - destruct Hv. encode_object.
  - destruct Hv as [[[? ?] _] _]. encode_object.
Qed.

Lemma artifact_reference_encodable r :
  ArtifactContentReferenceSchema r = true -> encodable 2 (artifact_reference_json r) 700.
Proof.
  intros Hr. unfold ArtifactContentReferenceSchema in Hr. breflect. destruct Hr as [[[[? ?] ?] Hl] Hh].
  assert (isSafeInteger (sizeBytes r) = true).
  { apply (safe_range 1 MAX_ARTIFACT_CONTENT_BYTES); [done|done|lia]. }
  unfold artifact_reference_json. destruct (redactedAt r) as [stage|]; cbn [app]; encode_object.
Qed.

(** The evidence of a rule, in its own bytes. *)
Lemma evidence_encodable `{UnicodeNormalization} e :
  PolicyEvaluationRuleEvidenceSchema e = true -> operands_consistent e = true -> encodable 3 (evidence_json e) 1000.
Proof.
  intros He Hc. destruct e as [reason| |op v t u cmp o|p oc mc o|np dp n d bp o|b v bp cmp cl s t o|c el|st r|ec oc mc cp o];
    cbn [PolicyEvaluationRuleEvidenceSchema operands_consistent evidence_json] in *; rewrite ?andb_true_iff in He;
    repeat match goal with Hx : _ /\ _ |- _ => destruct Hx end.
  - encode_object.
  - encode_object.
  - apply bool_decide_eq_true in Hc.
    assert (Ht : ExactDecimalSchema t = true).
    { match goal with Hx : ReleasePolicyExactDecimalSchema t = true |- _ =>
        unfold ReleasePolicyExactDecimalSchema in Hx; by apply andb_true_iff in Hx as [Hx _] end. }
    pose proof (exact_value_encodable v u ltac:(done) Hc ltac:(done)). encode_object.
  - encode_object.
  - encode_object.
  - encode_object.
  - encode_object.
  - destruct r as [r|]; simpl in He.
    + apply artifact_reference_encodable in He. encode_object.
    + assert (encodable 2 JNull 4) by (split; done). encode_object.
  - assert (encodable 2 (JBool cp) 5) by (split; done). encode_object.
Qed.

(** ** The ceiling *)

(** What the shape of a result asks, without the ceiling. *)
Definition shaped `{UnicodeNormalization} (value : PolicyEvaluationRuleResult) : bool :=
  boundedInteger 0 (MAX_POLICY_RULES - 1) (ruleResult_ruleIndex value) &&
  OpaqueIdSchema (ruleResult_ruleId value) && PolicyEvaluationRuleEvidenceSchema (ruleResult_evidence value) &&
  sized 0 5 (ruleResult_limitations value) && operands_consistent (ruleResult_evidence value).

Lemma limitations_encodable limitations :
  (length limitations <= 5)%nat ->
  encodable 2 (JArray ((fun l => JString (text_of (limitation_name l))) <$> limitations)) 197.
Proof.
  intros Hl. assert (H : forallb (plain 1) ((fun l => JString (text_of (limitation_name l))) <$> limitations) = true /\
    (list_sum ((fun item => json_size item + 1)%nat <$>
       ((fun l => JString (text_of (limitation_name l))) <$> limitations)) <= length limitations * 39)%nat).
  { clear Hl. induction limitations as [|l k [IH1 IH2]]; [done|]. unfold list_sum in *. rewrite !fmap_cons.
    cbn [forallb json_size foldr]. rewrite length_text_of, IH1.
    change (plain 1 (JString (text_of (limitation_name l)))) with (quiet_text (text_of (limitation_name l))).
    rewrite quiet_text_of.
    destruct (andb_prop _ _ ((proj1 (proj2 (proj2 brief_enumerations))) l)) as [-> Hb%Nat.leb_le].
    split; [done|]. cbn [length]. lia. }
  destruct H as [H1 H2]. split; [done|]. cbn [json_size]. lia.
Qed.

Lemma shaped_within_ceiling `{UnicodeNormalization} `{NativeTextEncoder} r :
  shaped r = true -> within_rule_result_ceiling r = true.
Proof.
  unfold shaped, sized. rewrite !andb_true_iff. intros [[[[Hi Hid] He] [_ Hl%Z.leb_le]] Hc].
  pose proof (evidence_encodable _ He Hc).
  pose proof (limitations_encodable (ruleResult_limitations r) ltac:(lia)).
  assert (isSafeInteger (ruleResult_ruleIndex r) = true) by (by apply (safe_bounded 0 (MAX_POLICY_RULES - 1))).
  assert (Hr : encodable 4 (rule_result_json r) 1700).
  { assert (encodable 3 (JArray ((fun l => JString (text_of (limitation_name l))) <$> ruleResult_limitations r)) 197)
      by (eapply encodable_mono; [eassumption|lia]).
    unfold rule_result_json. encode_object. }
  destruct Hr as [Hp Hs]. unfold within_rule_result_ceiling.
  destruct (plain_encoded 4 _ ltac:(unfold MAX_CANONICAL_NESTING_DEPTH; lia) Hp) as (bytes & -> & Hb).
  apply Z.leb_le. unfold MAX_POLICY_EVALUATION_RULE_RESULT_BYTES. lia.
Qed.

(** ** Orderings *)

(** The retained fraction is not reduced, but it denotes the same rational. *)
Lemma retainedFraction_exact s :
  ExactDecimalSchema s = true ->
  0 < denominator (retainedFraction s) /\ (frac_Q (retainedFraction s) == decimal_Q s)%Q.
Proof.
  intros [_ Hs]%andb_true_iff.
  destruct (decimal_shape s Hs) as (sg & whole & frac & point & Hl & Hsign & Hw & Hwl & Hf & _ & Hp).
  destruct (decimal_parts s sg whole frac point Hl Hsign Hw ltac:(lia) Hf Hp) as [Hdf HdQ].
  assert (Hd : 0 < denominator (retainedFraction s)) by (apply Z.pow_pos_nonneg; simpl; lia).
  split; [done|]. rewrite HdQ.
  assert (Hsame : decimalFraction s =
    normalizeFraction (numerator (retainedFraction s)) (denominator (retainedFraction s))).
  { unfold decimalFraction, retainedFraction. cbv zeta. cbn [numerator denominator].
    assert (Hne : forall l, default ["0"%char] (split_dot l !! 0%nat) = default [] (split_dot l !! 0%nat)).
    { intros [|c l]; [done|]. cbn [split_dot].
      destruct (split_dot l) as [|p ps]; repeat case_match; done. }
    by rewrite Hne. }
  rewrite Hsame in Hdf.
  destruct (normalizeFraction_spec (numerator (retainedFraction s)) (denominator (retainedFraction s)))
    as (f & E & _); [lia|].
  pose proof (proj2 (normalizeFraction_Ok _ _ _ Hd E)) as H1. rewrite Hdf in E.
  apply normalizeFraction_Ok in E as [_ H2]; [|apply Z.pow_pos_nonneg; lia].
  rewrite <- H2, H1. reflexivity.
Qed.

Lemma operandFraction_exact `{UnicodeNormalization} v :
  ComparisonExactValueSchema v = true ->
  0 < denominator (operandFraction v) /\ (frac_Q (operandFraction v) == exact_Q v)%Q.
Proof.
  destruct v as [u s|d n u]; simpl; intros Hv; breflect.
  - apply retainedFraction_exact. tauto.
  - destruct Hv as [[[[_ Hd]%andb_true_iff _] _] _]. apply positive_text in Hd as [_ Hd]. done.
Qed.

#[global] Instance sign_of_proper : Proper (Qeq ==> Qeq ==> eq) sign_of.
Proof. intros a b Hab c d Hcd. unfold sign_of. by rewrite Hab, Hcd. Qed.

Lemma sign_of_frac f g :
  0 < denominator f -> 0 < denominator g ->
  sign (numerator f * denominator g - numerator g * denominator f) = sign_of (frac_Q f) (frac_Q g).
Proof.
  intros Hf Hg. unfold sign, sign_of, frac_Q, Qcompare. simpl. rewrite !Z2Pos.id by done.
  destruct (Z.compare_spec (numerator f * denominator g) (numerator g * denominator f)), (Z.ltb_spec (numerator f * denominator g - numerator g * denominator f) 0),
    (Z.ltb_spec 0 (numerator f * denominator g - numerator g * denominator f)); lia.
Qed.

Lemma sign_exact `{UnicodeNormalization} v s :
  ComparisonExactValueSchema v = true -> ExactDecimalSchema s = true ->
  sign (numerator (operandFraction v) * denominator (retainedFraction s) -
        numerator (retainedFraction s) * denominator (operandFraction v)) = sign_of (exact_Q v) (decimal_Q s).
Proof.
  intros [Hv Ev]%operandFraction_exact [Hs Es]%retainedFraction_exact. by rewrite sign_of_frac, Ev, Es.
Qed.

Lemma sign_points s points :
  ExactDecimalSchema s = true ->
  sign (numerator (retainedFraction s) * 10000 - points * denominator (retainedFraction s)) =
  sign_of (decimal_Q s) (points # 10000).
Proof.
  intros [Hs Es]%retainedFraction_exact. rewrite <- Es.
  apply (sign_of_frac (retainedFraction s) {| denominator := 10000; numerator := points |}); [done|simpl; lia].
Qed.

Lemma sign_three_way l r : sign (l - r) = three_way l r.
Proof. unfold sign, three_way. repeat case_match; breflect; lia. Qed.
