(* ===== verification/PolicyPredicate.v ===== *)
(** * Evaluating the predicate of a policy rule

    [packages/core/src/policy/evaluate-policy-predicate-projection.ts].  The
    two branches on the method of an interval compare literals and are left
    out; every other branch is here, the [TypeError]s included. *)

From S2P Require Import Prelude Errors BigInts Primitives ExactArithmetic PolicyExactArithmetic.
From S2P Require Import ReplayPlan PolicyEvaluationJob ComparisonContracts ComparisonResults.
From S2P Require Import PolicySources ReleasePolicyRules ComparisonSelection PolicyProjection.
From S2P Require Import CanonicalJson PolicyRuleResult.
#[local] Open Scope Z_scope.

(** ** [Number(text)]

    The double nearest to a rational, ties to even, as a significand and a
    binary exponent.  The texts are decimals of at most 128 digits with at most
    18 of them fractional, far from overflow and from the subnormals. *)

Definition round_half_even (n d : Z) : Z :=
  let q := n / d in
  let r := n mod d in
  if 2 * r <? d then q else if d <? 2 * r then q + 1 else if Z.even q then q else q + 1.

(** [n / d] scaled by [2 ^ (- exponent)], as a fraction. *)
Definition scale_down (n d exponent : Z) : Z * Z :=
  if exponent <? 0 then (n * 2 ^ (- exponent), d) else (n, d * 2 ^ exponent).

(** The integer part of the binary logarithm of [n / d]. *)
Definition log2_quotient (n d : Z) : Z :=
  let guess := Z.log2 n - Z.log2 d in
  let '(n', d') := scale_down n d guess in
  if d' <=? n' then guess else guess - 1.

Definition nearest_double (n d : Z) : Z * Z :=
  if n =? 0 then (0, 0)
  else
    let exponent := log2_quotient (Z.abs n) d - 52 in
    let '(n', d') := scale_down (Z.abs n) d exponent in
    (Z.sgn n * round_half_even n' d', exponent).

(** The integer a double is, when it is one. *)
Definition double_integer (value : Z * Z) : option Z :=
  let '(significand, exponent) := value in
  if 0 <=? exponent then Some (significand * 2 ^ exponent)
  else if significand mod 2 ^ (- exponent) =? 0 then Some (significand / 2 ^ (- exponent))
  else None.

(** [Number(value.representation === "decimal" ? value.value : value.numerator)],
    when it is an integer; the zeros are one. *)
Definition Number_integer (value : ComparisonExactValue) : option Z :=
  match value with
  | decimal_value _ value =>
      let fraction := retainedFraction value in
      double_integer (nearest_double (numerator fraction) (denominator fraction))
  | rational_value _ numerator _ => double_integer (nearest_double (BigInt numerator) 1)
  end.

(** ** Populations *)

Definition populations (population : MetricPopulation) : CountPopulation :=
  match population with
  | baseline_observed => baselineObservedCount
  | candidate_observed => candidateObservedCount
  | paired_observed => pairedObservedCount
  | paired_total => pairedTotalCount
  | baseline_total => baselineTotalCount
  | candidate_total => candidateTotalCount
  end.

(** [samples[population]] *)
Definition sample_count (samples : ComparisonMetricSampleCounts) (population : MetricPopulation) : Z :=
  match population with
  | baseline_observed => sample_observedCount (samples_baseline samples)
  | candidate_observed => sample_observedCount (samples_candidate samples)
  | paired_observed => sample_observedCount (samples_paired samples)
  | paired_total => sample_totalCount (samples_paired samples)
  | baseline_total => sample_totalCount (samples_baseline samples)
  | candidate_total => sample_totalCount (samples_candidate samples)
  end.

(** [ranks] *)
Definition classification_rank (value : DataClassification) : Z :=
  match value with metadata => 0 | internal => 1 | confidential => 2 | restricted => 3 end.

Definition count_field_population (field : CountField) : CountPopulation :=
  match field with field_decidedCount => decidedCount | field_attemptedCount => attemptedCount end.

Definition aggregate_count (counts : EvaluationAggregateCounts) (field : CountField) : Z :=
  match field with
  | field_decidedCount => aggregate_decidedCount counts
  | field_attemptedCount => aggregate_attemptedCount counts
  end.

Definition interval_bound (interval : WilsonInterval) (field : IntervalBound) : string :=
  match field with
  | lower_bound => wilson_lowerBound interval
  | upper_bound => wilson_upperBound interval
  end.

(** [value[predicate.operand]] *)
Definition threshold_operand (baseline candidate delta : ComparisonExactValue) (operand : ThresholdOperand) :
    ComparisonExactValue :=
  match operand with
  | operand_baseline => baseline
  | operand_candidate => candidate
  | operand_delta => delta
  end.

Definition historical : list PolicyEvaluationLimitation := [limitation_historical_observation_only].
Definition incomplete_population : list PolicyEvaluationLimitation :=
  [limitation_historical_observation_only; limitation_incomplete_candidate_population].

Definition aggregate_of_operand (operand : AssessmentOperand) :
    option (Retained AggregateProjection * Retained AggregationMethod) :=
  match operand with
  | operand_coverage_count aggregate policy _ | operand_uncertainty_interval aggregate policy _ =>
      Some (aggregate, policy)
  | _ => None
  end.

Section evaluation.
Context `{UnicodeNormalization} `{NativeTextEncoder}.

Section frame.
Context (frame : PolicyEvaluationRuleProjection).

Definition rule_result (outcome : PolicyEvaluationRuleOutcome) (evidence : PolicyEvaluationRuleEvidence)
    (limitations : list PolicyEvaluationLimitation) : res PolicyEvaluationRuleResult :=
  parse PolicyEvaluationRuleResultSchema
    {| ruleResult_ruleIndex := frame_ruleIndex frame;
       ruleResult_ruleId := rule_ruleId (frame_rule frame);
       ruleResult_predicateKind := predicate_kind (rule_predicate (frame_rule frame));
       ruleResult_outcome := outcome;
       ruleResult_evidence := evidence;
       ruleResult_limitations := limitations |}.

Definition unresolved (reason : PolicyEvaluationUnresolvedReason) : res PolicyEvaluationRuleResult :=
  rule_result outcome_indeterminate (not_evaluated reason) historical.

Definition evaluate_artifact (allowedMediaTypes : list string) (maximumDataClassification : DataClassification)
    (input : RuleInput) : res PolicyEvaluationRuleResult :=
  match input with
  | input_artifact binding =>
      match binding with
      | binding_component_missing =>
          rule_result outcome_violated (artifact_evidence status_component_missing None) historical
      | binding_model_alias => unresolved unresolved_model_resolution_missing
      | binding_artifact_declared reference catalog observation =>
          if negb (includes allowedMediaTypes (mediaType reference)) then
            rule_result outcome_violated (artifact_evidence status_media_type_disallowed (Some reference)) historical
          else if classification_rank maximumDataClassification <? classification_rank (classification reference) then
            rule_result outcome_violated (artifact_evidence status_classification_disallowed (Some reference)) historical
          else
            match observation with
            | artifact_missing =>
                rule_result outcome_violated (artifact_evidence status_artifact_missing (Some reference)) historical
            | artifact_unavailable _ => unresolved unresolved_artifact_content_unavailable
            | artifact_verified _ _ =>
                match catalog with
                | None => unresolved unresolved_artifact_reference_unavailable
                | Some _ =>
                    rule_result outcome_satisfied (artifact_evidence status_verified (Some reference))
                      [limitation_external_object_observation_only; limitation_historical_observation_only]
                end
            end
      end
  | _ => Throw TypeError
  end.

(** The aggregate branches of an assessment. *)
Definition evaluate_aggregate (predicate : ReleasePolicyPredicate) (aggregate : AggregateProjection)
    (operand : AssessmentOperand) : res PolicyEvaluationRuleResult :=
  match predicate, operand with
  | coverage_floor_assessment _ minimumCount _, operand_coverage_count _ _ field =>
      let observedCount := aggregate_count (projection_counts aggregate) field in
      compared ← comparePolicyCounts observedCount minimumCount "greater_than_or_equal";
      rule_result (verdict (matches compared))
        (count_floor (count_field_population field) observedCount minimumCount (order compared)) historical
  | uncertainty_bound _ bound comparator confidence thresholdBasisPoints, operand_uncertainty_interval _ _ field =>
      if negb (is_supported (projection_samplingAssumption aggregate)) then
        unresolved unresolved_sampling_assumption_unsupported
      else
        match projection_passInterval aggregate with
        | interval_not_reported _ => unresolved unresolved_interval_unavailable
        | interval_reported interval =>
            if negb (wilson_confidenceLevelBasisPoints interval =? confidence) then
              unresolved unresolved_interval_confidence_mismatch
            else
              let value := interval_bound interval field in
              compared ← comparePolicyProbabilityBound value thresholdBasisPoints (bound_comparator_name comparator);
              rule_result (verdict (matches compared))
                (uncertainty_evidence bound value thresholdBasisPoints comparator
                   (wilson_confidenceLevelBasisPoints interval) (wilson_successCount interval)
                   (wilson_trialCount interval) (order compared)) historical
        end
  | _, _ => Throw TypeError
  end.

Definition evaluate_eligibility (assessmentClass : AssessmentClass) (operand : AssessmentOperand) :
    res PolicyEvaluationRuleResult :=
  let conclude eligibility :=
    rule_result (verdict (eligibility === eligible)) (eligibility_evidence assessmentClass eligibility) historical in
  match operand with
  | operand_evaluation_eligibility assessment_is_eligible _ => conclude eligible
  | operand_evaluation_eligibility (assessment_is_ineligible _) _ => conclude ineligible
  | operand_model_eligibility eligibility _ _ => conclude eligibility
  | _ => Throw TypeError
  end.

Definition evaluate_assessment (predicate : ReleasePolicyPredicate) (binding : AssessmentBinding) :
    res PolicyEvaluationRuleResult :=
  match binding with
  | binding_not_declared => unresolved unresolved_assessment_not_declared
  | binding_assessment_unavailable _ => unresolved unresolved_assessment_unavailable
  | binding_inputs_retained _ operand =>
      match predicate with
      | eligibility_evaluation _ => evaluate_eligibility class_evaluation operand
      | eligibility_model_assurance _ => evaluate_eligibility class_model_assurance operand
      | _ =>
          match aggregate_of_operand operand with
          | None => Throw TypeError
          | Some (retained_verified _ aggregate, retained_verified _ _) =>
              evaluate_aggregate predicate aggregate operand
          | Some _ => unresolved unresolved_source_unavailable
          end
      end
  end.

Definition evaluate_samples (samples : ComparisonMetricSampleCounts) (sampleClass : MetricPopulation)
    (minimumCount : Z) : res PolicyEvaluationRuleResult :=
  let observedCount := sample_count samples sampleClass in
  compared ← comparePolicyCounts observedCount minimumCount "greater_than_or_equal";
  rule_result (verdict (matches compared))
    (count_floor (populations sampleClass) observedCount minimumCount (order compared)) historical.

Definition evaluate_ratio (samples : ComparisonMetricSampleCounts) (numeratorClass denominatorClass : MetricPopulation)
    (minimumBasisPoints : Z) : res PolicyEvaluationRuleResult :=
  let numerator := sample_count samples numeratorClass in
  let denominator := sample_count samples denominatorClass in
  compared ← comparePolicyCoverageRatio numerator denominator minimumBasisPoints;
  match compared with
  | ratio_undefined => unresolved unresolved_zero_denominator
  | ratio_compared comparison =>
      rule_result (verdict (matches comparison))
        (ratio_floor (populations numeratorClass) (populations denominatorClass) numerator denominator
           minimumBasisPoints (order comparison)) historical
  end.

Definition evaluate_threshold (metric : ComparisonMetricInput) (comparator : ReleasePolicyComparator)
    (metricKind : MetricKind) (operand : ThresholdOperand) (threshold unit_ : string) :
    res PolicyEvaluationRuleResult :=
  if (kind_of_metric (metric_kind (input_definition metric)) !== metricKind) ||
     (result_unit (input_result metric) !== text_of unit_) then unresolved unresolved_metric_type_mismatch
  else if comparability_status (input_comparability metric) !== comparable then
    unresolved unresolved_evidence_incomparable
  else
    match result_value (input_result metric) with
    | metric_available baseline candidate delta _ =>
        let value := threshold_operand baseline candidate delta operand in
        compared ← comparePolicyExactThreshold value threshold unit_ (comparator_name comparator);
        rule_result (verdict (matches compared))
          (exact_threshold operand value threshold unit_ comparator (order compared)) historical
    | _ => unresolved unresolved_metric_value_unavailable
    end.

Definition candidate_population_complete (samples : ComparisonMetricSampleCounts) : bool :=
  (0 <? sample_count samples candidate_total) &&
  (sample_count samples candidate_observed =? sample_count samples candidate_total) &&
  (sample_count samples paired_observed =? sample_count samples candidate_total).

(** [Number.isSafeInteger(observedCount) && observedCount >= 0], and exact. *)
Definition observed_events (value : ComparisonExactValue) : res (option Z) :=
  match Number_integer value with
  | None => Ok None
  | Some observedCount =>
      if negb (isSafeInteger observedCount) || (observedCount <? 0) then Ok None
      else
        compared ← compareComparisonExactValues value
          (decimal_value (text_of "events") (toString observedCount));
        Ok (if compared =? 0 then Some observedCount else None)
  end.

Definition conclude_ceiling (samples : ComparisonMetricSampleCounts) (eventClass : SafetyEventKind)
    (observedCount maximumCount : Z) : res PolicyEvaluationRuleResult :=
  compared ← comparePolicyCounts observedCount maximumCount "less_than_or_equal";
  let complete := candidate_population_complete samples in
  if matches compared && negb complete then
    rule_result outcome_indeterminate (not_evaluated unresolved_evidence_unqualified) incomplete_population
  else
    rule_result (verdict (matches compared))
      (safety_ceiling eventClass observedCount maximumCount complete (order compared))
      (if complete then historical else incomplete_population).

Definition whole_rational (value : ComparisonExactValue) : bool :=
  match value with rational_value denominator _ _ => denominator === "1"%string | _ => true end.

Definition evaluate_ceiling (metric : ComparisonMetricInput) (eventClass : SafetyEventKind) (maximumCount : Z) :
    res PolicyEvaluationRuleResult :=
  if negb match metric_kind (input_definition metric) with
          | safety_event_count eventKind => eventKind === eventClass
          | _ => false
          end || (result_unit (input_result metric) !== text_of "events")
  then unresolved unresolved_metric_type_mismatch
  else
    match result_value (input_result metric) with
    | metric_available _ value _ _ =>
        if negb (whole_rational value) then unresolved unresolved_metric_type_mismatch
        else
          observed ← observed_events value;
          match observed with
          | None => unresolved unresolved_metric_type_mismatch
          | Some observedCount =>
              conclude_ceiling (result_samples (input_result metric)) eventClass observedCount maximumCount
          end
    | _ => unresolved unresolved_metric_value_unavailable
    end.

Definition evaluate_comparison (predicate : ReleasePolicyPredicate)
    (selection : PolicyEvaluationComparisonResolution) (binding : ComparisonBinding) :
    res PolicyEvaluationRuleResult :=
  match binding with
  | binding_comparison_unusable lineage_invalid => unresolved unresolved_comparison_lineage_invalid
  | binding_comparison_unusable records_unavailable => unresolved unresolved_source_unavailable
  | binding_comparison_unusable selection_is_unresolved =>
      unresolved match resolution_status selection with
                 | selection_ambiguous _ _ => unresolved_comparison_ambiguous
                 | selection_missing => unresolved_comparison_missing
                 | _ => unresolved_comparison_unresolved
                 end
  | binding_metric_missing => unresolved unresolved_metric_missing
  | binding_metric_bound metric =>
      let samples := result_samples (input_result metric) in
      match predicate with
      | coverage_floor_samples _ _ minimumCount sampleClass => evaluate_samples samples sampleClass minimumCount
      | coverage_floor_ratio _ denominator _ minimumBasisPoints numerator =>
          evaluate_ratio samples numerator denominator minimumBasisPoints
      | comparison_threshold comparator _ _ metricKind operand threshold unit_ =>
          evaluate_threshold metric comparator metricKind operand threshold unit_
      | safety_event_ceiling _ eventClass maximumCount _ => evaluate_ceiling metric eventClass maximumCount
      | _ => Throw TypeError
      end
  end.
End frame.

Definition evaluatePolicyPredicateProjection (raw : PolicyEvaluationRuleProjection) :
    res PolicyEvaluationRuleResult :=
  frame ← parse PolicyEvaluationRuleProjectionSchema raw;
  match rule_predicate (frame_rule frame), frame_input frame with
  | approval_required _, _ =>
      rule_result frame outcome_indeterminate (not_evaluated unresolved_approval_not_evaluated)
        [limitation_approval_not_evaluated; limitation_historical_observation_only]
  | artifact_required allowedMediaTypes _ maximumDataClassification _, input =>
      evaluate_artifact frame allowedMediaTypes maximumDataClassification input
  | predicate, input_assessment _ binding => evaluate_assessment frame predicate binding
  | predicate, input_comparison selection binding => evaluate_comparison frame predicate selection binding
  | _, _ => Throw TypeError
  end.
End evaluation.
