(* ===== verification/PolicyPredicateProofs.v ===== *)
(** * What a predicate evaluation decides: proofs

    First the counts: [Number(text)] of a text that denotes a whole number in the safe range is
    that number, so that the event count a safety ceiling reads back is exact,
    and refused exactly when the evidence is not such a count.  Then the
    evaluation itself, against a proposition per predicate ([decided]). *)

From Stdlib Require Import QArith Ascii.
From Stdlib Require Import QArith.
From S2P Require Import Prelude Errors Regex BigInts Primitives PolicyEvaluationJob.
From S2P Require Import ExactArithmetic ExactArithmeticProofs PolicyExactArithmetic ReplayPlan.
From S2P Require Import ComparisonContracts ComparisonSnapshot ComparisonResults ComparisonKeys.
From S2P Require Import CanonicalJson PolicySources ReleasePolicyRules ComparisonSelection.
From S2P Require Import PolicyProjection PolicyRuleResult PolicyRuleResultProofs PolicyPredicate.
#[local] Open Scope Z_scope.

(** ** Doubles *)

Lemma round_half_even_exact k d : 0 < d -> round_half_even (k * d) d = k.
Proof.
  intros Hd. unfold round_half_even. rewrite Z.div_mul, Z.mod_mul by lia. cbv zeta.
  by rewrite (proj2 (Z.ltb_lt _ _)) by lia.
Qed.

Lemma log2_quotient_exact a d : 0 < a -> 0 < d -> log2_quotient (a * d) d = Z.log2 a.
Proof.
  intros Ha Hd. unfold log2_quotient. cbv zeta.
  pose proof (Z.log2_mul_below a d ltac:(lia) ltac:(lia)). pose proof (Z.log2_mul_above a d ltac:(lia) ltac:(lia)).
  pose proof (Z.log2_nonneg a). pose proof (Z.log2_spec a Ha) as [Hlo Hhi].
  assert (Hc : Z.log2 (a * d) - Z.log2 d = Z.log2 a \/ Z.log2 (a * d) - Z.log2 d = Z.succ (Z.log2 a)) by lia.
  unfold scale_down. destruct Hc as [-> | ->].
  - rewrite (proj2 (Z.ltb_ge _ _)) by lia. rewrite (proj2 (Z.leb_le _ _)); [done|]. nia.
  - rewrite (proj2 (Z.ltb_ge _ _)) by lia. rewrite (proj2 (Z.leb_gt _ _)); [lia|]. nia.
Qed.

(** Whole numbers of at most 53 bits are doubles. *)
Lemma nearest_double_whole k d :
  Z.abs k < 2 ^ 53 -> 0 < d -> double_integer (nearest_double (k * d) d) = Some k.
Proof.
  intros Hk Hd. unfold nearest_double. destruct (Z.eqb_spec (k * d) 0) as [H0|H0].
  - assert (k = 0) as -> by nia. done.
  - assert (Ha : 0 < Z.abs k) by nia. rewrite Z.abs_mul, (Z.abs_eq d), log2_quotient_exact by lia.
    assert (Hl : Z.log2 (Z.abs k) <= 52) by (apply Z.lt_succ_r, Z.log2_lt_pow2; lia).
    assert (Hs : Z.sgn (k * d) = Z.sgn k) by (rewrite Z.sgn_mul, (Z.sgn_pos d) by lia; lia).
    unfold scale_down, double_integer. destruct (Z.ltb_spec (Z.log2 (Z.abs k) - 52) 0) as [Hlt|Hge].
    + rewrite (proj2 (Z.leb_gt _ _)) by lia.
      replace (Z.abs k * d * 2 ^ (- (Z.log2 (Z.abs k) - 52))) with (Z.abs k * 2 ^ (- (Z.log2 (Z.abs k) - 52)) * d) by ring.
      rewrite round_half_even_exact, Hs, Z.mul_assoc, (Z.mul_comm (Z.sgn k)), Z.abs_sgn by done.
      assert (Hp : 2 ^ (- (Z.log2 (Z.abs k) - 52)) <> 0) by (apply Z.pow_nonzero; lia).
      by rewrite Z.mod_mul, Z.div_mul by done.
    + assert (Z.log2 (Z.abs k) - 52 = 0) as -> by lia. change (2 ^ 0) with 1. rewrite (Z.mul_1_r d), round_half_even_exact by done. simpl.
      f_equal. rewrite Hs, Z.mul_1_r, Z.mul_comm. apply Z.abs_sgn.
Qed.

(** ** Texts of counts *)

Lemma at_most_digits n l :
  forallb is_digit l = true -> (length l <= n)%nat -> matched (Regex.at_most n digit_re) l.
Proof.
  revert l. induction n as [|n IH]; intros [|c l] Hd Hl; simpl in *; try lia;
    try (apply matched_alt_l, matched_eps); [apply matched_eps|].
  apply andb_true_iff in Hd as [Hc Hd]. change (c :: l) with ([c] ++ l).
  apply matched_alt_r, matched_cat; [apply matched_digit; by exists c|]. apply IH; [done|lia].
Qed.

Lemma one_to_nine c : is_digit c = true -> 1 <= digit_value c -> matched (one_of [("1", "9")]%char) [c].
Proof.
  unfold is_digit, digit_value. rewrite andb_true_iff, !N.leb_le. intros Hd Hv. apply matched_one_of.
  exists c. split; [done|]. simpl. rewrite orb_false_r, andb_true_iff, !N.leb_le. simpl in *. lia.
Qed.

(** [String(observedCount)] is a decimal that denotes the count. *)
Lemma count_text k :
  0 <= k <= MAX_SAFE_INTEGER -> ExactDecimalSchema (toString k) = true /\ (decimal_Q (toString k) == inject_Z k)%Q.
Proof.
  intros Hk. destruct (decimal_digits_spec k) as (Hv & Hd & Hh & Hne); [lia|].
  assert (Hl : String.list_ascii_of_string (toString k) = decimal_digits k).
  { rewrite list_of_toString. unfold toString_list. by rewrite (proj2 (Z.ltb_ge _ _)) by lia. }
  assert (Hlen : (length (decimal_digits k) <= 16)%nat).
  { apply decimal_digits_length; [|lia]. unfold MAX_SAFE_INTEGER in Hk.
    change (10 ^ Z.of_nat 16) with 10000000000000000. lia. }
  split.
  - apply andb_true_iff. split; [apply Nat.leb_le; rewrite string_length_list, Hl; lia|].
    apply test_spec. rewrite Hl. unfold decimal_re, unsigned_decimal_re.
    change (decimal_digits k) with ([] ++ decimal_digits k).
    apply matched_cat; [apply matched_alt_l, matched_eps|].
    rewrite <- (app_nil_r (decimal_digits k)). apply matched_cat; [|apply matched_alt_l, matched_eps].
    destruct (decide (k = 0)) as [->|]; [by apply matched_alt_l, matched_chr|].
    destruct Hh as (c & l & E & Hc); [lia|]. rewrite E in *. simpl in Hd, Hlen. apply andb_true_iff in Hd as [Hdc Hd].
    change (c :: l) with ([c] ++ l). apply matched_alt_r, matched_cat; [by apply one_to_nine|].
    apply at_most_digits; [done|lia].
  - destruct (decimal_parts (toString k) [] (decimal_digits k) [] []) as [_ ->]; try done.
    + by rewrite Hl, app_nil_r.
    + by left.
    + destruct (decimal_digits k); simpl; [done|lia].
    + by left.
    + rewrite app_nil_r, Hv. simpl. rewrite Z.mul_1_r. reflexivity.
Qed.

(** ** Observed events *)

Section events.
Context `{UnicodeNormalization}.

Lemma Number_integer_whole v k :
  ComparisonExactValueSchema v = true -> whole_rational v = true -> (exact_Q v == inject_Z k)%Q ->
  Z.abs k < 2 ^ 53 -> Number_integer v = Some k.
Proof.
  intros Hv Hw Hq Hk. pose proof (operandFraction_exact v Hv) as [Hd Hf]. rewrite Hq in Hf.
  unfold frac_Q, Qeq in Hf. simpl in Hf. rewrite Z.mul_1_r, Z2Pos.id in Hf by done.
  destruct v as [u s|d n u]; simpl in *.
  - rewrite Hf. by apply nearest_double_whole.
  - breflect. subst d. change (BigInt "1") with 1 in *. rewrite Z.mul_1_r in Hf. rewrite Hf.
    rewrite <- (Z.mul_1_r k) at 1. apply nearest_double_whole; [done|lia].
Qed.

(** A denominator of one is written one. *)
Lemma positive_one d : test positive_re d = true -> BigInt d = 1 -> d = "1"%string.
Proof.
  intros Ht Hv. apply test_spec, matched_positive in Ht as (c & k & Hl & Hd & Hc).
  unfold BigInt in Hv. rewrite BigInt_digits in Hv by done. rewrite Hl in Hv, Hd. change (c :: k) with ([c] ++ k) in Hv.
  rewrite digits_value_app in Hv. change (digits_value [c]) with (digit_value c) in Hv.
  pose proof Hd as Hd'. simpl in Hd'. apply andb_true_iff in Hd' as [Hdc Hk].
  pose proof (digits_value_bound k Hk) as Hb.
  assert (Hp : 1 <= 10 ^ Z.of_nat (length k)) by (pose proof (Z.pow_pos_nonneg 10 (Z.of_nat (length k)) ltac:(lia) ltac:(lia)); lia).
  assert (Hk0 : k = []).
  { destruct k as [|c' k']; [done|]. exfalso.
    assert (10 <= 10 ^ Z.of_nat (length (c' :: k'))).
    { replace 10 with (10 ^ 1) at 1 by lia. apply Z.pow_le_mono_r; simpl; lia. }
    nia. }
  subst k. assert (Hc1 : digit_value c = 1) by (change (digits_value []) with 0 in Hv; simpl in Hv; lia).
  assert (c = "1"%char) as ->.
  { unfold digit_value, is_digit in *. rewrite andb_true_iff, !N.leb_le in Hdc.
    rewrite <- (ascii_N_embedding c). change "1"%char with (ascii_of_N 49). f_equal. simpl in *. lia. }
  rewrite <- (String.string_of_list_ascii_of_string d), Hl. done.
Qed.

Lemma whole_value v k :
  ComparisonExactValueSchema v = true -> (exact_Q v == inject_Z k)%Q -> whole_rational v = true.
Proof.
  destruct v as [u s|d n u]; simpl; [done|]. intros Hv Hq. breflect.
  destruct Hv as [[[[_ Hd]%andb_true_iff _] _] [_ Hg]]. rewrite greatestCommonDivisor_gcd in Hg.
  apply positive_text in Hd as Hp. destruct Hp as [_ Hp].
  apply positive_one; [done|]. unfold Qeq in Hq. simpl in Hq. rewrite Z.mul_1_r, Z2Pos.id in Hq by done.
  rewrite Hq, Z.gcd_comm, Z.mul_comm, Z.gcd_mul_diag_l in Hg by lia. done.
Qed.

(** Reading an event count back answers always, with the count exactly when
    the value is one in the safe range. *)
Lemma observed_events_exact v :
  ComparisonExactValueSchema v = true -> exact_unit v = text_of "events" -> whole_rational v = true ->
  exists observed, observed_events v = Ok observed /\
    forall k, observed = Some k <-> 0 <= k <= MAX_SAFE_INTEGER /\ (exact_Q v == inject_Z k)%Q.
Proof.
  intros Hv Hu Hw. unfold observed_events.
  assert (Hnone : forall k, 0 <= k <= MAX_SAFE_INTEGER /\ (exact_Q v == inject_Z k)%Q -> Number_integer v = Some k).
  { intros k [Hk Hq]. apply Number_integer_whole; [done..|]. unfold MAX_SAFE_INTEGER in Hk. lia. }
  destruct (Number_integer v) as [n|] eqn:En.
  2: { exists None. split; [done|]. intros k. split; [done|]. by intros Hk%Hnone. }
  destruct (negb (isSafeInteger n) || (n <? 0)) eqn:Es.
  { exists None. split; [done|]. intros k. split; [done|]. intros Hk. pose proof (Hnone k Hk) as [= ->].
    rewrite orb_true_iff, negb_true_iff in Es. destruct Hk as [Hk _], Es as [Es|Es%Z.ltb_lt]; [|lia].
    apply not_true_iff_false in Es. destruct Es. apply isSafeInteger_spec. unfold MAX_SAFE_INTEGER in *. lia. }
  rewrite orb_false_iff, negb_false_iff, isSafeInteger_spec, Z.ltb_ge in Es.
  destruct (count_text n) as [Ht Hq]; [unfold MAX_SAFE_INTEGER in *; lia|].
  erewrite bind_known.
  2: { apply compare_iff. split_and!; [done| |done|reflexivity]. simpl. rewrite Ht, andb_true_r.
       apply unit_text_accepted. simpl. tauto. }
  eexists. split; [reflexivity|]. intros k. simpl. rewrite Hq.
  assert (Hcmp : (exact_Q v ?= inject_Z n)%Q = Eq <-> (exact_Q v == inject_Z n)%Q) by (symmetry; apply Qeq_alt).
  destruct (exact_Q v ?= inject_Z n)%Q eqn:E; simpl.
  - split; [intros [= ->]; split; [lia|by apply Hcmp]|]. by intros Hk%Hnone.
  - split; [done|]. intros Hk. pose proof (Hnone k Hk) as [= ->]. destruct Hk as [_ Hk%Hcmp]. done.
  - split; [done|]. intros Hk. pose proof (Hnone k Hk) as [= ->]. destruct Hk as [_ Hk%Hcmp]. done.
Qed.
End events.

(** * What a predicate evaluation decides

    A rule is satisfied or violated exactly when the retained evidence decides
    its predicate, read as a statement about rationals, counts, eligibility and
    artifacts; otherwise it is indeterminate; and no branch ever throws. *)

(** ** What the evidence says *)

Definition answers (answer : bool) (P : Prop) : Prop := if answer then P else ~ P.

(** The operand a threshold is compared with, of the metric's own kind and
    unit, from comparable evidence. *)
Definition threshold_known (metric : ComparisonMetricInput) (metricKind : MetricKind) (unit_ : string)
    (operand : ThresholdOperand) (value : ComparisonExactValue) : Prop :=
  kind_of_metric (metric_kind (input_definition metric)) = metricKind /\
  result_unit (input_result metric) = text_of unit_ /\
  comparability_status (input_comparability metric) = comparable /\
  exists baseline candidate delta direction,
    result_value (input_result metric) = metric_available baseline candidate delta direction /\
    value = threshold_operand baseline candidate delta operand.

(** The candidate's whole number of events of a class. *)
Definition counts_events (metric : ComparisonMetricInput) (eventClass : SafetyEventKind) (count : Z) : Prop :=
  metric_kind (input_definition metric) = safety_event_count eventClass /\
  result_unit (input_result metric) = text_of "events" /\ 0 <= count <= MAX_SAFE_INTEGER /\
  exists baseline candidate delta direction,
    result_value (input_result metric) = metric_available baseline candidate delta direction /\
    (exact_Q candidate == inject_Z count)%Q.

(** Every candidate of the population was observed, in a pair. *)
Definition complete_population (samples : ComparisonMetricSampleCounts) : Prop :=
  0 < sample_count samples candidate_total /\
  sample_count samples candidate_observed = sample_count samples candidate_total /\
  sample_count samples paired_observed = sample_count samples candidate_total.

Definition interval_known (aggregate : AggregateProjection) (confidence : Z) (interval : WilsonInterval) : Prop :=
  is_supported (projection_samplingAssumption aggregate) = true /\
  projection_passInterval aggregate = interval_reported interval /\
  wilson_confidenceLevelBasisPoints interval = confidence.

Definition within_bound (comparator : BoundComparator) (points : Z) (value : string) : Prop :=
  holds match comparator with at_least => greater_than_or_equal | at_most => less_than_or_equal end
    (decimal_Q value) (points # 10000).

Definition comparison_decided (answer : bool) (predicate : ReleasePolicyPredicate) (metric : ComparisonMetricInput) :
    Prop :=
  let samples := result_samples (input_result metric) in
  match predicate with
  | comparison_threshold comparator _ _ metricKind operand threshold unit_ =>
      exists value, threshold_known metric metricKind unit_ operand value /\
        answers answer (holds comparator (exact_Q value) (decimal_Q threshold))
  | coverage_floor_samples _ _ minimumCount sampleClass =>
      answers answer (minimumCount <= sample_count samples sampleClass)
  | coverage_floor_ratio _ denominator _ minimumBasisPoints numerator =>
      0 < sample_count samples denominator /\
      answers answer
        (minimumBasisPoints * sample_count samples denominator <= sample_count samples numerator * 10000)
  | safety_event_ceiling _ eventClass maximumCount _ =>
      exists count, counts_events metric eventClass count /\
        if answer then count <= maximumCount /\ complete_population samples else maximumCount < count
  | _ => False
  end.

Definition assessment_decided (answer : bool) (predicate : ReleasePolicyPredicate) (operand : AssessmentOperand) :
    Prop :=
  match predicate, operand with
  | coverage_floor_assessment _ minimumCount _,
    operand_coverage_count (retained_verified _ aggregate) (retained_verified _ _) field =>
      answers answer (minimumCount <= aggregate_count (projection_counts aggregate) field)
  | uncertainty_bound _ _ comparator confidence points,
    operand_uncertainty_interval (retained_verified _ aggregate) (retained_verified _ _) field =>
      exists interval, interval_known aggregate confidence interval /\
        answers answer (within_bound comparator points (interval_bound interval field))
  | eligibility_evaluation _, operand_evaluation_eligibility eligibility _ =>
      answers answer (eligibility = assessment_is_eligible)
  | eligibility_model_assurance _, operand_model_eligibility eligibility _ _ => answers answer (eligibility = eligible)
  | _, _ => False
  end.

Definition artifact_decided (answer : bool) (allowedMediaTypes : list string) (maximum : DataClassification)
    (binding : ArtifactBinding) : Prop :=
  match binding with
  | binding_component_missing => answer = false
  | binding_model_alias => False
  | binding_artifact_declared reference _ observation =>
      let allowed := mediaType reference ∈ allowedMediaTypes /\
        classification_rank (classification reference) <= classification_rank maximum in
      if answer then allowed /\ exists digest size, observation = artifact_verified digest size
      else ~ allowed \/ observation = artifact_missing
  end.

(** The evidence answers a predicate, with yes or with no. *)
Definition decided (answer : bool) (predicate : ReleasePolicyPredicate) (input : RuleInput) : Prop :=
  match predicate, input with
  | approval_required _, _ => False
  | artifact_required allowedMediaTypes _ maximum _, input_artifact binding =>
      artifact_decided answer allowedMediaTypes maximum binding
  | _, input_comparison _ (binding_metric_bound metric) => comparison_decided answer predicate metric
  | _, input_assessment _ (binding_inputs_retained _ operand) => assessment_decided answer predicate operand
  | _, _ => False
  end.

Lemma counts_events_unique metric eventClass eventClass' k k' :
  counts_events metric eventClass k -> counts_events metric eventClass' k' -> k = k'.
Proof.
  intros (_ & _ & _ & b & c & d & dir & E & Hk) (_ & _ & _ & b' & c' & d' & dir' & E' & Hk').
  assert (c = c') by congruence. subst c'. rewrite Hk in Hk'. unfold Qeq in Hk'. simpl in Hk'. lia.
Qed.

Lemma decided_once predicate input : decided true predicate input -> decided false predicate input -> False.
Proof.
  destruct predicate, input as [sel [r| |m]|src [|o|w op]|bind|]; cbn [decided comparison_decided]; try done;
    unfold answers; try tauto.
  - intros (v & (_ & _ & _ & b & c & d & dir & E & ->) & Hv) (v' & (_ & _ & _ & b' & c' & d' & dir' & E' & ->) & Hv').
    congruence.
  - destruct op as [[] [] f|[] [] f|e d|e r b]; simpl; try done; tauto.
  - destruct op as [[] [] f|[] [] f|e d|e r b]; simpl; try done.
    intros (i & (_ & E & _) & Hi) (i' & (_ & E' & _) & Hi'). unfold answers in *. congruence.
  - destruct op; simpl; try done; tauto.
  - destruct op; simpl; try done; tauto.
  - destruct bind as [| |r c o]; simpl; try done. intros [Ha (d & s & ->)] [Hn|?]; [tauto|done].
  - intros (k & Hk & Hle & _) (k' & Hk' & Hgt). rewrite (counts_events_unique _ _ _ _ _ Hk Hk') in Hle. lia.
Qed.

(** ** Comparisons of counts *)

Lemma comparator_name_known c : comparator_of_string (comparator_name c) = Some c.
Proof. by destruct c. Qed.

Lemma three_way_order a b : Order (three_way a b) = true.
Proof. unfold Order, three_way. by repeat case_match. Qed.

Lemma sign_of_order q r : Order (sign_of q r) = true.
Proof. unfold Order, sign_of. by destruct (q ?= r)%Q. Qed.

Lemma counts_compared a b c :
  0 <= a <= MAX_SAFE_INTEGER -> 0 <= b <= MAX_SAFE_INTEGER ->
  comparePolicyCounts a b (comparator_name c) = Ok (comparison (three_way a b) c).
Proof.
  intros Ha Hb. unfold comparePolicyCounts.
  rewrite (bind_known _ _ c) by (apply comparator_Ok, comparator_name_known).
  rewrite (bind_known _ _ tt) by (by apply assertCount_Ok).
  by rewrite (bind_known _ _ tt) by (by apply assertCount_Ok).
Qed.

Lemma floor_matches a b : matches (comparison (three_way a b) greater_than_or_equal) = (b <=? a).
Proof. unfold comparison, three_way. simpl. repeat case_match; breflect; apply eq_true_iff_eq; breflect; lia. Qed.

Lemma ceiling_matches a b : matches (comparison (three_way a b) less_than_or_equal) = (a <=? b).
Proof. unfold comparison, three_way. simpl. repeat case_match; breflect; apply eq_true_iff_eq; breflect; lia. Qed.

(** The order asks for the outcome its comparison gives. *)
Lemma floor_expected o :
  verdict (matches (comparison o greater_than_or_equal)) ===
  (if o =? -1 then outcome_violated else outcome_satisfied) = true.
Proof. simpl. by destruct (o =? -1). Qed.

Lemma answers_bool (b : bool) (P : Prop) : (b = true <-> P) -> answers b P.
Proof. destruct b; unfold answers; [tauto|]. intros H HP. by apply H in HP. Qed.

Lemma answers_leb a b : answers (b <=? a) (b <= a).
Proof. apply answers_bool, Z.leb_le. Qed.

(** What a comparison says determines it. *)
Lemma compares_unique c op l r : compares c op l r -> c = comparison (sign_of l r) op.
Proof.
  destruct c as [m o]. intros [Ho Hm]. simpl in *. subst o. unfold comparison. f_equal.
  apply eq_true_iff_eq. rewrite Hm. symmetry. apply (comparison_holds op).
Qed.

(** ** Forming results *)

Section evaluation.
Context `{UnicodeNormalization} `{NativeTextEncoder}.

Definition made (frame : PolicyEvaluationRuleProjection) (outcome : PolicyEvaluationRuleOutcome)
    (evidence : PolicyEvaluationRuleEvidence) (limitations : list PolicyEvaluationLimitation) :
    PolicyEvaluationRuleResult :=
  {| ruleResult_ruleIndex := frame_ruleIndex frame;
     ruleResult_ruleId := rule_ruleId (frame_rule frame);
     ruleResult_predicateKind := predicate_kind (rule_predicate (frame_rule frame));
     ruleResult_outcome := outcome;
     ruleResult_evidence := evidence;
     ruleResult_limitations := limitations |}.

Definition used_limitations : list (list PolicyEvaluationLimitation) :=
  [historical; incomplete_population;
   [limitation_approval_not_evaluated; limitation_historical_observation_only];
   [limitation_external_object_observation_only; limitation_historical_observation_only]].

Section frame.
Context (frame : PolicyEvaluationRuleProjection).
Context (Hframe : PolicyEvaluationRuleProjectionSchema frame = true).

Lemma frame_parts :
  boundedInteger 0 (MAX_POLICY_RULES - 1) (frame_ruleIndex frame) = true /\
  OpaqueIdSchema (rule_ruleId (frame_rule frame)) = true /\
  ReleasePolicyPredicateSchema (rule_predicate (frame_rule frame)) = true /\
  RuleInputSchema (frame_input frame) = true /\
  projection_input_ok (rule_predicate (frame_rule frame)) (frame_input frame) = true.
Proof.
  unfold PolicyEvaluationRuleProjectionSchema, ReleasePolicyRuleSchema in Hframe.
  rewrite !andb_true_iff in Hframe. tauto.
Qed.

Lemma rule_result_made o e l :
  In l used_limitations -> PolicyEvaluationRuleEvidenceSchema e = true -> operands_consistent e = true ->
  (within_rule_result_ceiling (made frame o e l) = true -> refinePolicyEvaluationRuleResult (made frame o e l) = true) ->
  rule_result frame o e l = Ok (made frame o e l).
Proof.
  intros Hl He Hc Hr. destruct frame_parts as (Hi & Hid & _).
  assert (Hll : sized 0 5 l = true /\ isStrictlySortedUnique (limitation_name <$> l) = true).
  { simpl in Hl. repeat destruct Hl as [<-|Hl]; done. }
  destruct Hll as [Hs Hu]. apply parse_known.
  change (PolicyEvaluationRuleResultSchema (made frame o e l) = true).
  unfold PolicyEvaluationRuleResultSchema. rewrite Hr.
  - cbn [made ruleResult_ruleIndex ruleResult_ruleId ruleResult_evidence ruleResult_limitations].
    by rewrite Hi, Hid, He, Hs, Hu.
  - apply shaped_within_ceiling. unfold shaped.
    cbn [made ruleResult_ruleIndex ruleResult_ruleId ruleResult_evidence ruleResult_limitations].
    by rewrite Hi, Hid, He, Hs, Hc.
Qed.

Lemma made_accepted o e l :
  rule_result frame o e l = Ok (made frame o e l) ->
  rule_result frame o e l = Ok (made frame o e l) /\ PolicyEvaluationRuleResultSchema (made frame o e l) = true.
Proof. intros E. split; [done|]. unfold rule_result, parse in E. by apply parse_with_Ok in E as [? _]. Qed.

Definition sound (result : res PolicyEvaluationRuleResult) : Prop :=
  let predicate := rule_predicate (frame_rule frame) in
  exists outcome evidence limitations,
    result = Ok (made frame outcome evidence limitations) /\
    PolicyEvaluationRuleResultSchema (made frame outcome evidence limitations) = true /\
    match outcome with
    | outcome_satisfied => decided true predicate (frame_input frame)
    | outcome_violated => decided false predicate (frame_input frame)
    | outcome_indeterminate => forall answer, ~ decided answer predicate (frame_input frame)
    | outcome_not_applicable => False
    end.

Lemma indeterminate_sound reason l :
  In l used_limitations ->
  (predicate_kind (rule_predicate (frame_rule frame)) = predicate_approval_required <->
   reason = unresolved_approval_not_evaluated) ->
  (forall answer, ~ decided answer (rule_predicate (frame_rule frame)) (frame_input frame)) ->
  sound (rule_result frame outcome_indeterminate (not_evaluated reason) l).
Proof.
  intros Hl Hk Hd. exists outcome_indeterminate, (not_evaluated reason), l.
  apply and_assoc. split; [|exact Hd]. apply made_accepted.
  apply rule_result_made; [done..|]. intros Hc. unfold refinePolicyEvaluationRuleResult. rewrite Hc.
  cbn [made ruleResult_evidence ruleResult_outcome ruleResult_predicateKind].
  by rewrite (bool_decide_ext _ _ Hk), (bool_decide_eq_true_2 (bool_decide _ = bool_decide _)) by reflexivity.
Qed.

Lemma unresolved_sound reason :
  predicate_kind (rule_predicate (frame_rule frame)) <> predicate_approval_required ->
  reason <> unresolved_approval_not_evaluated ->
  (forall answer, ~ decided answer (rule_predicate (frame_rule frame)) (frame_input frame)) ->
  sound (unresolved frame reason).
Proof. intros Hk Hr Hd. apply indeterminate_sound; [by left|by split|done]. Qed.

(** A verdict on evidence of the predicate's own family. *)
Lemma verdict_sound (answer : bool) e l :
  In l used_limitations -> PolicyEvaluationRuleEvidenceSchema e = true -> operands_consistent e = true ->
  expected_kind e = Some (predicate_kind (rule_predicate (frame_rule frame))) ->
  verdict_consistent (made frame (verdict answer) e l) = true ->
  optional (fun '(actualOrder, order) => actualOrder =? order) (ordering e) = true ->
  optional (fun expected => verdict answer === expected) (expected_outcome e) = true ->
  decided answer (rule_predicate (frame_rule frame)) (frame_input frame) ->
  sound (rule_result frame (verdict answer) e l).
Proof.
  intros Hl He Hc Hk Hv Ho Hx Hd. exists (verdict answer), e, l.
  apply and_assoc. split; [|by destruct answer]. apply made_accepted.
  apply rule_result_made; [done..|]. intros Hceil. unfold refinePolicyEvaluationRuleResult. rewrite Hceil.
  cbn [made ruleResult_evidence ruleResult_outcome ruleResult_predicateKind].
  assert (Hna : predicate_kind (rule_predicate (frame_rule frame)) <> predicate_approval_required).
  { intros E. rewrite E in Hk. clear -Hk. destruct e; discriminate Hk. }
  rewrite (bool_decide_eq_false_2 _ Hna), Hk, (bool_decide_eq_true_2 (Some _ = Some _)) by reflexivity. rewrite Hc, Hv, Ho, Hx.
  assert (Hout : (verdict answer === outcome_satisfied) || (verdict answer === outcome_violated) = true)
    by (by destruct answer).
  rewrite Hout. clear -Hk. destruct e; (discriminate Hk || reflexivity).
Qed.

(** *** Artifacts *)

Lemma evaluate_artifact_sound media kind maximum role binding :
  rule_predicate (frame_rule frame) = artifact_required media kind maximum role ->
  frame_input frame = input_artifact binding ->
  sound (evaluate_artifact frame media maximum (input_artifact binding)).
Proof.
  intros Hp Hi. destruct frame_parts as (_ & _ & _ & Hin & Hok). rewrite Hp, Hi in Hok. rewrite Hi in Hin.
  simpl in Hin, Hok. cbn [evaluate_artifact].
  assert (Hverdict : forall answer status reference l,
    In l used_limitations -> optional ArtifactContentReferenceSchema reference = true ->
    (status === status_component_missing) === (reference === None) = true ->
    answer = bool_decide (status = status_verified) -> artifact_decided answer media maximum binding ->
    sound (rule_result frame (verdict answer) (artifact_evidence status reference) l)).
  { intros answer status reference l Hl Hr Hs Ha Hd. apply verdict_sound; rewrite ?Hp, ?Hi; try done.
    subst answer. cbn [verdict_consistent made ruleResult_evidence ruleResult_outcome]. by destruct status. }
  destruct binding as [| |reference catalog observation].
  - by apply (Hverdict false); [left|..].
  - apply unresolved_sound; rewrite ?Hp, ?Hi; try done. intros answer Hd. exact Hd.
  - cbn [ArtifactBindingSchema] in Hin. rewrite !andb_true_iff in Hin. destruct Hin as [[Hr _] _].
    destruct (includes media (mediaType reference)) eqn:Hm; cbn [negb].
    2: { apply (Hverdict false); [by left|done..|]. left. apply includes_false in Hm. tauto. }
    apply includes_true in Hm. destruct (Z.ltb_spec (classification_rank maximum) (classification_rank (classification reference))) as [Hc|Hc].
    { apply (Hverdict false); [by left|done..|]. left. lia. }
    destruct observation as [digest size| |reason].
    + destruct catalog as [[record owner]|]; [|apply andb_true_iff in Hok as [Hok _]; discriminate Hok].
      apply (Hverdict true); [simpl; tauto|done..|]. split; [done|]. by eexists _, _.
    + apply (Hverdict false); [by left|done..|]. by right.
    + apply unresolved_sound; rewrite ?Hp, ?Hi; try done. intros []; simpl.
      * by intros [_ (? & ? & ?)].
      * intros [?|?]; [tauto|done].
Qed.

(** *** Comparison metrics *)

Section metric.
Context (selection : PolicyEvaluationComparisonResolution) (metric : ComparisonMetricInput).
Context (Hinput : frame_input frame = input_comparison selection (binding_metric_bound metric)).

Lemma metric_parts :
  ComparisonMetricSampleCountsSchema (result_samples (input_result metric)) = true /\
  ComparisonMetricValueSchema (result_value (input_result metric)) = true /\
  refineComparisonMetricResult (input_result metric) = true.
Proof.
  destruct frame_parts as (_ & _ & _ & Hin & _). rewrite Hinput in Hin. simpl in Hin.
  unfold ComparisonMetricInputSchema, ComparisonMetricResultSchema in Hin. rewrite !andb_true_iff in Hin. tauto.
Qed.

Lemma observed_within samples :
  safe_sample samples = true -> sample_reconstructs samples = true ->
  0 <= sample_observedCount samples <= sample_totalCount samples /\ sample_totalCount samples <= MAX_SAFE_INTEGER.
Proof.
  unfold safe_sample, sample_reconstructs. cbn [forallb]. cbv zeta.
  rewrite !andb_true_iff, !safe_count_spec, isSafeInteger_spec, Z.eqb_eq.
  intros (Hi & Hm & Ho & Ht & Hu & _) [[_ Hs] E].
  pose proof (js_add_nonneg _ _ (proj1 Hi) (proj1 Hm)) as H1.
  pose proof (js_add_nonneg _ _ H1 (proj1 Ho)) as H2.
  destruct (js_add_within _ _ H2 (proj1 Hu) Hs) as [E1 S1].
  destruct (js_add_within _ _ H1 (proj1 Ho) S1) as [E2 _]. lia.
Qed.

Lemma counts_safe population :
  0 <= sample_count (result_samples (input_result metric)) population <= MAX_SAFE_INTEGER.
Proof.
  destruct metric_parts as [Hs _]. unfold ComparisonMetricSampleCountsSchema in Hs. cbv zeta in Hs.
  rewrite !andb_true_iff in Hs.
  pose proof (observed_within (samples_baseline (result_samples (input_result metric)))).
  pose proof (observed_within (samples_candidate (result_samples (input_result metric)))).
  pose proof (observed_within (samples_paired (result_samples (input_result metric)))).
  destruct population; cbn [sample_count]; intuition lia.
Qed.

Lemma ratio_within numerator denominator :
  same_population numerator denominator = true -> is_numerator numerator = true ->
  let samples := result_samples (input_result metric) in
  sample_count samples numerator <= sample_count samples denominator.
Proof.
  intros Hp Hn. destruct metric_parts as [Hs _]. unfold ComparisonMetricSampleCountsSchema in Hs. cbv zeta in Hs.
  rewrite !andb_true_iff in Hs.
  pose proof (observed_within (samples_baseline (result_samples (input_result metric)))).
  pose proof (observed_within (samples_candidate (result_samples (input_result metric)))).
  pose proof (observed_within (samples_paired (result_samples (input_result metric)))).
  destruct numerator; try done; cbn [same_population] in Hp; apply bool_decide_eq_true in Hp; subst denominator;
    cbn [sample_count]; cbv zeta; intuition lia.
Qed.

Lemma evaluate_samples_sound definition metricId minimumCount sampleClass :
  rule_predicate (frame_rule frame) = coverage_floor_samples definition metricId minimumCount sampleClass ->
  sound (evaluate_samples frame (result_samples (input_result metric)) sampleClass minimumCount).
Proof.
  intros Hp. destruct frame_parts as (_ & _ & Hpred & _). rewrite Hp in Hpred. simpl in Hpred.
  rewrite !andb_true_iff in Hpred. destruct Hpred as [[_ Hm] Hc].
  assert (Hmin : 0 <= minimumCount <= MAX_SAFE_INTEGER).
  { unfold boundedInteger, MAX_POLICY_COUNT in Hm. breflect. lia. }
  pose proof (counts_safe sampleClass) as Ho. unfold evaluate_samples. cbv zeta.
  rewrite (bind_known _ _ _ (counts_compared _ _ greater_than_or_equal Ho Hmin)).
  apply verdict_sound; rewrite ?Hp, ?Hinput; try done.
  - by left.
  - cbn [PolicyEvaluationRuleEvidenceSchema order comparison]. rewrite three_way_order, !andb_true_r.
    assert (is_count_population (populations sampleClass) = true) as -> by (by destruct sampleClass).
    unfold Count. cbn [andb]. by rewrite andb_true_iff, !SafeNonnegativeIntegerSchema_spec.
  - simpl. apply Z.eqb_eq, sign_three_way.
  - by apply floor_expected.
  - rewrite floor_matches. apply answers_leb.
Qed.

Lemma ratio_order n d points : 0 < d -> sign (n * 10000 - points * d) = sign_of (n # Z.to_pos d) (points # 10000).
Proof.
  intros Hd. apply (sign_of_frac {| numerator := n; denominator := d |} {| numerator := points; denominator := 10000 |});
    simpl; lia.
Qed.

Lemma ratio_holds n d points : 0 < d ->
  matches (comparison (sign_of (n # Z.to_pos d) (points # 10000)) greater_than_or_equal) = (points * d <=? n * 10000).
Proof.
  intros Hd. rewrite <- ratio_order by done. unfold sign. simpl.
  repeat case_match; breflect; apply eq_true_iff_eq; breflect; lia.
Qed.

Lemma evaluate_ratio_sound definition denominator metricId points numerator :
  rule_predicate (frame_rule frame) = coverage_floor_ratio definition denominator metricId points numerator ->
  sound (evaluate_ratio frame (result_samples (input_result metric)) numerator denominator points).
Proof.
  intros Hp. destruct frame_parts as (_ & _ & Hpred & _). rewrite Hp in Hpred. simpl in Hpred.
  rewrite !andb_true_iff in Hpred. destruct Hpred as [[[[[_ Hd] _] Hm] Hn] Hs].
  pose proof (ratio_within _ _ Hs Hn) as Hle. cbv zeta in Hle.
  pose proof (counts_safe numerator) as Hsn. pose proof (counts_safe denominator) as Hsd.
  assert (Hpoints : 1 <= points <= 10000) by (unfold boundedInteger in Hm; breflect; lia).
  unfold evaluate_ratio. cbv zeta.
  set (n := sample_count _ numerator) in *. set (d := sample_count _ denominator) in *.
  destruct (Z.eqb_spec d 0) as [Hd0|Hd0].
  - rewrite (bind_known _ _ ratio_undefined) by (apply coverage_ratio_exact; lia).
    apply unresolved_sound; rewrite ?Hp, ?Hinput; try done. intros answer [Hpos _]. fold d in Hpos. lia.
  - assert (Hpos : 0 < d) by lia.
    rewrite (bind_known _ _ (ratio_compared (comparison (sign_of (n # Z.to_pos d) (points # 10000)) greater_than_or_equal)))
      by (apply coverage_ratio_exact; split_and!; (lia || done || apply (comparison_holds greater_than_or_equal))).
    apply verdict_sound; rewrite ?Hp, ?Hinput; try done.
    + by left.
    + cbn [PolicyEvaluationRuleEvidenceSchema order comparison]. rewrite sign_of_order, Hm, !andb_true_r.
      assert (is_numerator_population (populations numerator) = true) as -> by (by destruct numerator).
      assert (is_denominator_population (populations denominator) = true) as -> by (by destruct denominator).
      unfold Count. cbn [andb]. rewrite !andb_true_iff, !SafeNonnegativeIntegerSchema_spec, Z.ltb_lt. done.
    + cbn [operands_consistent]. rewrite andb_true_iff, negb_true_iff, Z.ltb_ge, bool_decide_eq_true. split; [done|].
      destruct numerator; try done; cbn [same_population] in Hs; apply bool_decide_eq_true in Hs; by rewrite Hs.
    + simpl. by apply Z.eqb_eq, ratio_order.
    + by apply floor_expected.
    + rewrite ratio_holds by done. split; [done|]. apply answers_leb.
Qed.

Lemma evaluate_threshold_sound comparator definition metricId metricKind operand threshold unit_ :
  rule_predicate (frame_rule frame) = comparison_threshold comparator definition metricId metricKind operand threshold unit_ ->
  sound (evaluate_threshold frame metric comparator metricKind operand threshold unit_).
Proof.
  intros Hp. destruct frame_parts as (_ & _ & Hpred & _). rewrite Hp in Hpred. simpl in Hpred.
  rewrite !andb_true_iff in Hpred. destruct Hpred as [[[_ Ht] Hu] _].
  destruct metric_parts as (_ & Hv & Hr). unfold evaluate_threshold.
  assert (Hun : forall reason, reason <> unresolved_approval_not_evaluated ->
    (forall value, ~ threshold_known metric metricKind unit_ operand value) -> sound (unresolved frame reason)).
  { intros reason Hreason Hno. apply unresolved_sound; rewrite ?Hp, ?Hinput; try done.
    intros answer (value & Hk & _). by apply (Hno value). }
  destruct (_ || _)%bool eqn:Htype.
  { apply Hun; [done|]. intros value (Hk & Hunit & _). rewrite Hk, Hunit, !bool_decide_eq_true_2 in Htype by done. done. }
  rewrite orb_false_iff, !negb_false_iff, !bool_decide_eq_true in Htype. destruct Htype as [Hk Hunit].
  destruct (decide (comparability_status (input_comparability metric) = comparable)) as [Hc|Hc].
  2: { rewrite bool_decide_eq_false_2 by done. apply Hun; [done|]. by intros value (_ & _ & Hc' & _). }
  rewrite bool_decide_eq_true_2 by done. cbn [negb].
  destruct (result_value (input_result metric)) as [baseline candidate delta direction|reasons|b c reasons] eqn:Ev.
  2, 3: apply Hun; [done|]; intros value (_ & _ & _ & b' & c' & d' & dir' & E & _); congruence.
  cbv zeta. set (value := threshold_operand baseline candidate delta operand).
  assert (Hval : ComparisonExactValueSchema value = true /\ exact_unit value = text_of unit_).
  { simpl in Hv. unfold refineComparisonMetricResult in Hr. rewrite Ev, Hunit in Hr. simpl in Hr.
    rewrite !andb_true_iff, !bool_decide_eq_true in Hr. rewrite !andb_true_iff in Hv.
    subst value. destruct operand; simpl; intuition auto. }
  destruct Hval as [Hval Hvu].
  destruct (proj2 (proj2 (policy_threshold_exact value threshold unit_ (comparator_name comparator)))) as [c Hcmp].
  { rewrite comparator_name_known. done. }
  rewrite (bind_known _ _ _ Hcmp).
  destruct (proj1 (policy_threshold_exact _ _ _ _) _ Hcmp) as (cmp & Hname & Hcompares).
  rewrite comparator_name_known in Hname. injection Hname as <-. apply compares_unique in Hcompares as ->.
  assert (Hdec : ExactDecimalSchema threshold = true)
    by (unfold ReleasePolicyExactDecimalSchema in Ht; by apply andb_true_iff in Ht as [? _]).
  apply verdict_sound; rewrite ?Hp, ?Hinput; try done.
  - by left.
  - cbn [PolicyEvaluationRuleEvidenceSchema order comparison]. by rewrite Hval, Ht, Hu, sign_of_order.
  - cbn [operands_consistent]. by apply bool_decide_eq_true.
  - cbn [ordering optional]. by rewrite sign_exact, Z.eqb_refl.
  - cbn [expected_outcome optional order comparison matches]. by apply bool_decide_eq_true; destruct comparator.
  - exists value. split; [|apply answers_bool, comparison_holds].
    split_and!; try done. by exists baseline, candidate, delta, direction.
Qed.

Lemma population_complete_spec samples :
  candidate_population_complete samples = true <-> complete_population samples.
Proof. unfold candidate_population_complete, complete_population. breflect. tauto. Qed.

Lemma conclude_ceiling_sound definition eventClass maximumCount metricId count :
  rule_predicate (frame_rule frame) = safety_event_ceiling definition eventClass maximumCount metricId ->
  counts_events metric eventClass count ->
  sound (conclude_ceiling frame (result_samples (input_result metric)) eventClass count maximumCount).
Proof.
  intros Hp Hcount. destruct frame_parts as (_ & _ & Hpred & _). rewrite Hp in Hpred. simpl in Hpred.
  rewrite !andb_true_iff in Hpred. destruct Hpred as [[_ Hm] _].
  assert (Hmax : 0 <= maximumCount <= MAX_SAFE_INTEGER) by (unfold boundedInteger, MAX_POLICY_COUNT in Hm; breflect; lia).
  pose proof Hcount as (_ & _ & Hrange & _). unfold conclude_ceiling. cbv zeta.
  rewrite (bind_known _ _ _ (counts_compared _ _ less_than_or_equal Hrange Hmax)), ceiling_matches.
  pose proof (population_complete_spec (result_samples (input_result metric))) as Hcomplete.
  set (complete := candidate_population_complete _) in *.
  destruct ((count <=? maximumCount) && negb complete) eqn:Hpartial.
  - apply andb_true_iff in Hpartial as [Hle%Z.leb_le Hc%negb_true_iff].
    apply indeterminate_sound; rewrite ?Hp, ?Hinput; [simpl; tauto|done|].
    intros []; simpl; intros (count' & Hcount' & Hanswer);
      rewrite (counts_events_unique _ _ _ _ _ Hcount' Hcount) in Hanswer; [|lia].
    destruct Hanswer as [_ Hanswer%Hcomplete]. congruence.
  - apply verdict_sound; rewrite ?Hp, ?Hinput; try done.
    + destruct complete; simpl; tauto.
    + cbn [PolicyEvaluationRuleEvidenceSchema order comparison]. rewrite three_way_order.
      unfold Count. by rewrite !andb_true_iff, !SafeNonnegativeIntegerSchema_spec.
    + cbn [verdict_consistent made ruleResult_evidence ruleResult_outcome ruleResult_limitations].
      by destruct (count <=? maximumCount), complete.
    + simpl. apply Z.eqb_eq, sign_three_way.
    + cbn [expected_outcome optional order comparison]. rewrite <- ceiling_matches in *. simpl in *.
      by destruct (three_way count maximumCount =? 1), complete.
    + exists count. split; [done|]. destruct (Z.leb_spec count maximumCount); [|done].
      split; [done|]. apply Hcomplete. by destruct complete.
Qed.

Lemma evaluate_ceiling_sound definition eventClass maximumCount metricId :
  rule_predicate (frame_rule frame) = safety_event_ceiling definition eventClass maximumCount metricId ->
  sound (evaluate_ceiling frame metric eventClass maximumCount).
Proof.
  intros Hp. destruct metric_parts as (_ & Hv & Hr). unfold evaluate_ceiling.
  assert (Hun : forall reason, reason <> unresolved_approval_not_evaluated ->
    (forall count, ~ counts_events metric eventClass count) -> sound (unresolved frame reason)).
  { intros reason Hreason Hno. apply unresolved_sound; rewrite ?Hp, ?Hinput; try done.
    intros answer (count & Hk & _). by apply (Hno count). }
  destruct (_ || _)%bool eqn:Htype.
  { apply Hun; [done|]. intros count (Hk & Hunit & _). rewrite Hk, Hunit, !bool_decide_eq_true_2 in Htype by done. done. }
  rewrite orb_false_iff, !negb_false_iff, bool_decide_eq_true in Htype. destruct Htype as [Hk Hunit].
  assert (Hkind : metric_kind (input_definition metric) = safety_event_count eventClass).
  { destruct (metric_kind (input_definition metric)); try done. apply bool_decide_eq_true in Hk. by subst. }
  destruct (result_value (input_result metric)) as [baseline candidate delta direction|reasons|b c reasons] eqn:Ev.
  2, 3: apply Hun; [done|]; intros count (_ & _ & _ & b' & c' & d' & dir' & E & _); congruence.
  assert (Hval : ComparisonExactValueSchema candidate = true /\ exact_unit candidate = text_of "events").
  { simpl in Hv. unfold refineComparisonMetricResult in Hr. rewrite Ev, Hunit in Hr. simpl in Hr.
    rewrite !andb_true_iff, !bool_decide_eq_true in Hr. rewrite !andb_true_iff in Hv. intuition auto. }
  destruct Hval as [Hval Hvu].
  assert (Hiff : forall count, counts_events metric eventClass count <->
    0 <= count <= MAX_SAFE_INTEGER /\ (exact_Q candidate == inject_Z count)%Q).
  { intros count. unfold counts_events. rewrite Ev. split.
    - intros (_ & _ & Hrange & b' & c' & d' & dir' & [= <- <- <- <-] & Hq). done.
    - intros [Hrange Hq]. do 3 (split; [done|]). by exists baseline, candidate, delta, direction. }
  destruct (whole_rational candidate) eqn:Hw; cbn [negb].
  2: { apply Hun; [done|]. intros count [_ Hq]%Hiff. apply whole_value in Hq; [congruence|done]. }
  destruct (observed_events_exact candidate Hval Hvu Hw) as (observed & Ho & Hobserved).
  rewrite (bind_known _ _ _ Ho). destruct observed as [count|].
  - apply (conclude_ceiling_sound definition _ _ metricId); [done|]. by apply Hiff, Hobserved.
  - apply Hun; [done|]. intros count Hcount%Hiff%Hobserved. done.
Qed.
End metric.

(** *** Assessments *)

Section assessment.
Context (asked : PolicyEvaluationSourceReference) (assessment : Witness) (operand : AssessmentOperand).
Context (Hinput : frame_input frame = input_assessment asked (binding_inputs_retained assessment operand)).

Lemma operand_schema : AssessmentOperandSchema operand = true.
Proof.
  destruct frame_parts as (_ & _ & _ & Hin & _). rewrite Hinput in Hin. simpl in Hin.
  rewrite !andb_true_iff in Hin. tauto.
Qed.

Lemma evaluate_counts_sound reference minimumCount sampleClass w aggregate w' method field :
  rule_predicate (frame_rule frame) = coverage_floor_assessment reference minimumCount sampleClass ->
  operand = operand_coverage_count (retained_verified w aggregate) (retained_verified w' method) field ->
  sound (evaluate_aggregate frame (rule_predicate (frame_rule frame)) aggregate operand).
Proof.
  intros Hp E. pose proof operand_schema as Hs. destruct frame_parts as (_ & _ & Hpred & _).
  pose proof Hinput as Hin. rewrite E in Hs, Hin |- *.
  rewrite Hp in Hpred |- *. simpl in Hpred. apply andb_true_iff in Hpred as [_ Hm].
  assert (Hmin : 0 <= minimumCount <= MAX_SAFE_INTEGER) by (unfold boundedInteger, MAX_POLICY_COUNT in Hm; breflect; lia).
  assert (Ho : 0 <= aggregate_count (projection_counts aggregate) field <= MAX_SAFE_INTEGER).
  { cbn [AssessmentOperandSchema] in Hs. unfold AggregateSchema, RetainedSchema, AggregateProjectionSchema,
      EvaluationAggregateCountsSchema, SafeCountSchema, boundedInteger, MAX_EVALUATION_AGGREGATE_MEMBERS in Hs.
    cbn [forallb] in Hs. rewrite !andb_true_iff, !Z.leb_le in Hs. unfold MAX_SAFE_INTEGER.
    destruct field; cbn [aggregate_count]; lia. }
  cbn [evaluate_aggregate]. cbv zeta.
  rewrite (bind_known _ _ _ (counts_compared _ _ greater_than_or_equal Ho Hmin)).
  apply verdict_sound; rewrite ?Hp, ?Hin; try done.
  - by left.
  - cbn [PolicyEvaluationRuleEvidenceSchema order comparison]. rewrite three_way_order, !andb_true_r.
    assert (is_count_population (count_field_population field) = true) as -> by (by destruct field).
    unfold Count. cbn [andb]. by rewrite andb_true_iff, !SafeNonnegativeIntegerSchema_spec.
  - simpl. apply Z.eqb_eq, sign_three_way.
  - by apply floor_expected.
  - rewrite floor_matches. apply answers_leb.
Qed.

Lemma evaluate_interval_sound reference bound comparator confidence points w aggregate w' method field :
  rule_predicate (frame_rule frame) = uncertainty_bound reference bound comparator confidence points ->
  operand = operand_uncertainty_interval (retained_verified w aggregate) (retained_verified w' method) field ->
  sound (evaluate_aggregate frame (rule_predicate (frame_rule frame)) aggregate operand).
Proof.
  intros Hp E. pose proof operand_schema as Hs. destruct frame_parts as (_ & _ & Hpred & _).
  pose proof Hinput as Hin. rewrite E in Hs, Hin |- *.
  rewrite Hp in Hpred |- *. simpl in Hpred. rewrite !andb_true_iff in Hpred. destruct Hpred as [[_ Hconf] Hm].
  cbn [evaluate_aggregate].
  assert (Hun : forall reason, reason <> unresolved_approval_not_evaluated ->
    (forall interval, ~ interval_known aggregate confidence interval) -> sound (unresolved frame reason)).
  { intros reason Hreason Hno. apply unresolved_sound; rewrite ?Hp, ?Hin; try done.
    intros answer (interval & Hk & _). by apply (Hno interval). }
  destruct (is_supported (projection_samplingAssumption aggregate)) eqn:Hsup; cbn [negb].
  2: { apply Hun; [done|]. intros i (Hk & _). congruence. }
  destruct (projection_passInterval aggregate) as [interval|reason] eqn:Hi.
  2: { apply Hun; [done|]. intros i (_ & Hk & _). congruence. }
  destruct (Z.eqb_spec (wilson_confidenceLevelBasisPoints interval) confidence) as [Hc|Hc]; cbn [negb].
  2: { apply Hun; [done|]. intros i (_ & Hk & Hk'). congruence. }
  assert (Hw : WilsonIntervalSchema interval = true).
  { cbn [AssessmentOperandSchema] in Hs. unfold AggregateSchema, RetainedSchema, AggregateProjectionSchema in Hs.
    rewrite Hi, !andb_true_iff in Hs. tauto. }
  unfold WilsonIntervalSchema in Hw. rewrite !andb_true_iff in Hw.
  destruct Hw as [[[[[[[Hwc Hlo] Hsc] Htc] Hpos] Hup] Hle] _].
  assert (Hv : UnitIntervalDecimalSchema (interval_bound interval field) = true) by (by destruct field).
  assert (Hpoints : 0 <= points <= 10000) by (unfold boundedInteger in Hm; breflect; lia).
  cbv zeta. set (value := interval_bound interval field) in *.
  destruct (proj2 (proj2 (policy_probability_exact value points (bound_comparator_name comparator)))) as [c Hcmp].
  { split_and!; [destruct comparator; simpl; tauto|lia|lia|done]. }
  rewrite (bind_known _ _ _ Hcmp). apply (proj1 (policy_probability_exact _ _ _)), compares_unique in Hcmp as ->.
  assert (Hop : (if bound_comparator_name comparator === "at_least"%string then greater_than_or_equal else less_than_or_equal) =
    match comparator with at_least => greater_than_or_equal | at_most => less_than_or_equal end) by (by destruct comparator).
  rewrite Hop. apply verdict_sound; rewrite ?Hp, ?Hin; try done.
  - by left.
  - cbn [PolicyEvaluationRuleEvidenceSchema order comparison]. rewrite Hv, Hm, Hwc, sign_of_order, Hpos.
    unfold SafeCountSchema, boundedInteger, MAX_EVALUATION_AGGREGATE_MEMBERS in Hsc, Htc. unfold Count. breflect.
    unfold MAX_SAFE_INTEGER. split_and!; done || lia.
  - cbn [ordering optional]. apply Z.eqb_eq, sign_points. by apply unit_interval_decimal.
  - cbn [expected_outcome optional]. apply bool_decide_eq_true. by destruct comparator.
  - exists interval. split; [done|]. apply answers_bool, comparison_holds.
Qed.
End assessment.

Lemma evaluate_eligibility_sound asked assessment operand assessmentClass (given : Eligibility) :
  frame_input frame = input_assessment asked (binding_inputs_retained assessment operand) ->
  predicate_kind (rule_predicate (frame_rule frame)) = predicate_eligibility_required ->
  (decided (given === eligible) (rule_predicate (frame_rule frame)) (frame_input frame)) ->
  sound (rule_result frame (verdict (given === eligible)) (eligibility_evidence assessmentClass given) historical).
Proof.
  intros Hinput Hk Hd. apply verdict_sound; try done; [by left|by rewrite Hk|].
  cbn [verdict_consistent made ruleResult_evidence ruleResult_outcome]. by destruct given.
Qed.

Lemma evaluate_assessment_sound asked binding :
  frame_input frame = input_assessment asked binding ->
  sound (evaluate_assessment frame (rule_predicate (frame_rule frame)) binding).
Proof.
  intros Hinput. destruct frame_parts as (_ & _ & _ & _ & Hok). rewrite Hinput in Hok.
  assert (Hun : forall reason, reason <> unresolved_approval_not_evaluated ->
    (forall answer, ~ decided answer (rule_predicate (frame_rule frame)) (frame_input frame)) ->
    sound (unresolved frame reason)).
  { intros reason Hr Hd. apply unresolved_sound; [|done..]. intros Hk.
    destruct (rule_predicate (frame_rule frame)); simpl in Hk, Hok; discriminate. }
  unfold evaluate_assessment. destruct binding as [|o|w operand].
  1, 2: apply Hun; [done|]; rewrite Hinput; intros answer Hd; by destruct (rule_predicate (frame_rule frame)).
  assert (Hm : operand_matches (rule_predicate (frame_rule frame)) operand = true).
  { destruct (rule_predicate (frame_rule frame)); cbn [projection_input_ok] in Hok; try discriminate;
      unfold assessment_input_ok in Hok; rewrite !andb_true_iff in Hok; tauto. }
  destruct (rule_predicate (frame_rule frame)) as [| | |reference minimum cls|reference bound cmp conf points|reference|reference| | |] eqn:Hp;
    try discriminate Hok; destruct operand as [aggregate policy field|aggregate policy field|e d|e reasons base];
    try discriminate Hm; cbn [aggregate_of_operand evaluate_eligibility].
  - destruct aggregate as [wa aggregate|], policy as [wp method|].
    1: rewrite <- Hp; by eapply evaluate_counts_sound.
    all: apply Hun; [done|]; rewrite Hinput; intros answer Hd; exact Hd.
  - destruct aggregate as [wa aggregate|], policy as [wp method|].
    1: rewrite <- Hp; by eapply evaluate_interval_sound.
    all: apply Hun; [done|]; rewrite Hinput; intros answer Hd; exact Hd.
  - destruct e as [|reasons].
    + apply (evaluate_eligibility_sound _ _ _ _ eligible Hinput); rewrite Hp, ?Hinput; done.
    + apply (evaluate_eligibility_sound _ _ _ _ ineligible Hinput); rewrite Hp, ?Hinput; done.
  - apply (evaluate_eligibility_sound _ _ _ _ e Hinput); rewrite Hp, ?Hinput; [done|].
    apply answers_bool. apply bool_decide_eq_true.
Qed.

Lemma evaluate_comparison_sound selection binding :
  frame_input frame = input_comparison selection binding ->
  sound (evaluate_comparison frame (rule_predicate (frame_rule frame)) selection binding).
Proof.
  intros Hinput. destruct frame_parts as (_ & _ & _ & _ & Hok). rewrite Hinput in Hok.
  assert (Hun : forall reason, reason <> unresolved_approval_not_evaluated ->
    (forall metric, binding <> binding_metric_bound metric) -> sound (unresolved frame reason)).
  { intros reason Hr Hb. apply unresolved_sound; [|done|].
    - intros Hk. destruct (rule_predicate (frame_rule frame)); simpl in Hk, Hok; discriminate.
    - rewrite Hinput. intros answer Hd. destruct (rule_predicate (frame_rule frame)), binding as [| |m]; try done;
        by destruct (Hb m). }
  unfold evaluate_comparison. destruct binding as [[| |]| |metric].
  1-4: apply Hun; [|done]; by repeat case_match.
  destruct (rule_predicate (frame_rule frame)) eqn:Hp; try discriminate Hok.
  - by eapply evaluate_threshold_sound.
  - by eapply evaluate_samples_sound.
  - by eapply evaluate_ratio_sound.
  - by eapply evaluate_ceiling_sound.
Qed.
End frame.

Lemma evaluation_sound frame :
  PolicyEvaluationRuleProjectionSchema frame = true -> sound frame (evaluatePolicyPredicateProjection frame).
Proof.
  intros Hframe. unfold evaluatePolicyPredicateProjection. rewrite (bind_known _ _ frame) by (by apply parse_known).
  destruct (frame_parts _ Hframe) as (_ & _ & _ & _ & Hok).
  pose proof (evaluate_comparison_sound _ Hframe) as Hcomparison.
  pose proof (evaluate_assessment_sound _ Hframe) as Hassessment.
  pose proof (evaluate_artifact_sound _ Hframe) as Hartifact.
  destruct (rule_predicate (frame_rule frame)) eqn:Hp, (frame_input frame) eqn:Hi; try discriminate Hok; eauto.
  apply indeterminate_sound; rewrite ?Hp, ?Hi; [done|simpl; tauto|done|intros answer Hd; exact Hd].
Qed.

(** C8. The evaluation of an accepted rule projection never fails: it returns
    the result of that rule, which satisfies the result contract with its
    ordering, consistency and size checks, and which says satisfied (violated)
    exactly when the retained evidence decides the predicate with yes (no), as
    a statement about exact rationals, counts, eligibility and artifacts. *)
Theorem predicate_evaluation_exact frame :
  PolicyEvaluationRuleProjectionSchema frame = true ->
  exists result, evaluatePolicyPredicateProjection frame = Ok result /\
    PolicyEvaluationRuleResultSchema result = true /\
    ruleResult_ruleIndex result = frame_ruleIndex frame /\
    ruleResult_ruleId result = rule_ruleId (frame_rule frame) /\
    ruleResult_predicateKind result = predicate_kind (rule_predicate (frame_rule frame)) /\
    ruleResult_outcome result <> outcome_not_applicable /\
    forall answer, ruleResult_outcome result = verdict answer <->
      decided answer (rule_predicate (frame_rule frame)) (frame_input frame).
Proof.
  intros Hframe. destruct (evaluation_sound frame Hframe) as (o & e & l & E & Hr & Ho). exists (made frame o e l).
  do 2 (split; [done|]). do 3 (split; [done|]).
  cbn [made ruleResult_outcome]. split; [by destruct o|].
  pose proof (decided_once (rule_predicate (frame_rule frame)) (frame_input frame)) as Hx.
  intros []; destruct o; simpl in *; split; try done; tauto || (intros Hd; by apply Ho in Hd).
Qed.
End evaluation.
