(* ===== verification/ReleaseDecisionContracts.v ===== *)
(** * Release decisions and their inputs

    [packages/contracts/src/release-decision-input.ts] and
    [packages/contracts/src/release-decision.ts]: the input a decision is asked
    for, the findings it is derived from and the decision itself, with every
    refinement and the byte ceilings on their canonical encodings.  Literal
    fields are left out of the records and written in the encoded text. *)

From S2P Require Import Prelude Errors BigInts Primitives ExactArithmetic PolicyTime ReplayPlan.
From S2P Require Import PolicyEvaluationJob PolicyJobHistory ComparisonContracts.
From S2P Require Import ReleasePolicyRules CanonicalJson PolicyRuleResult.
#[local] Open Scope Z_scope.

Definition MAX_RELEASE_DECISION_INPUT_DEFINITION_BYTES : Z := 64 * 1024.
Definition MAX_RELEASE_DECISION_APPROVAL_READS : Z := 4096.
Definition MAX_RELEASE_DECISION_DEFINITION_BYTES : Z := 2 * 1024 * 1024.
Definition MAX_RELEASE_POLICY_SELECTION_POLICIES : Z := 16.

(** ** References *)

Record ReleasePolicySelectionReference := {
  selectionRef_selectionId : string;
  selectionRef_selectionVersionId : string;
  selectionRef_definitionSha256 : string;
  selectionRef_installationId : string;
  selectionRef_gateTargetId : string;
}.

Definition ReleasePolicySelectionReferenceSchema (value : ReleasePolicySelectionReference) : bool :=
  OpaqueIdSchema (selectionRef_selectionId value) && OpaqueIdSchema (selectionRef_selectionVersionId value) &&
  Sha256Schema (selectionRef_definitionSha256 value) && OpaqueIdSchema (selectionRef_installationId value) &&
  OpaqueIdSchema (selectionRef_gateTargetId value).

(** A reference that is an identifier and a digest, under the name its record gives it. *)
Record DigestReference := { digestRef_id : string; digestRef_definitionSha256 : string }.

Definition DigestReferenceSchema (value : DigestReference) : bool :=
  OpaqueIdSchema (digestRef_id value) && Sha256Schema (digestRef_definitionSha256 value).

(** [ReleaseApprovalReferenceSchema], [ReleaseDecisionInputReferenceSchema] and
    [ReleaseDecisionAuthoritySnapshotReferenceSchema] *)
Abbreviation ReleaseApprovalReference := DigestReference.
Abbreviation ReleaseDecisionInputReference := DigestReference.
Abbreviation ReleaseDecisionAuthoritySnapshotReference := DigestReference.

#[global] Instance DigestReference_eq_dec : EqDecision DigestReference.
Proof. solve_decision. Defined.

Inductive PublisherType : Type := publisher_user | publisher_service.

Record ReleaseDecisionPublisherReceipt := {
  publisher_principalId : string;
  publisher_principalType : PublisherType;
  publisher_authenticatedAt : PolicyEvaluationTime;
  publisher_credentialId : string;
  publisher_requestId : text;
}.

Definition ReleaseDecisionPublisherReceiptSchema (value : ReleaseDecisionPublisherReceipt) : bool :=
  OpaqueIdSchema (publisher_principalId value) && UtcMillisecondTextSchema (publisher_authenticatedAt value) &&
  OpaqueIdSchema (publisher_credentialId value) &&
  (1 <=? length (publisher_requestId value))%nat && (length (publisher_requestId value) <=? 128)%nat &&
  negb (containsUnpairedSurrogate (publisher_requestId value)).

(** ** Inputs *)

Inductive DecisionMode : Type := observation_only | enforce.

#[global] Instance DecisionMode_eq_dec : EqDecision DecisionMode.
Proof. solve_decision. Defined.

Record ReleaseDecisionVerificationLimits := {
  verification_maxAcquisitionRecords : Z;
  verification_maxAcquisitionRecordBytes : Z;
  verification_maxApprovalRecords : Z;
}.

Definition ReleaseDecisionVerificationLimitsSchema (value : ReleaseDecisionVerificationLimits) : bool :=
  boundedInteger 2 MAX_POLICY_EVALUATION_ACQUISITION_RECORDS (verification_maxAcquisitionRecords value) &&
  boundedInteger 1 MAX_POLICY_EVALUATION_ACQUISITION_RECORD_BYTES (verification_maxAcquisitionRecordBytes value) &&
  boundedInteger 0 MAX_RELEASE_DECISION_APPROVAL_READS (verification_maxApprovalRecords value).

Record PlannedReleasePolicyEvaluation := {
  planned_mode : ReleasePolicyMode;
  planned_request : PolicyEvaluationRequestDefinition;
  planned_requestSha256 : string;
}.

Definition PlannedReleasePolicyEvaluationSchema (value : PlannedReleasePolicyEvaluation) : bool :=
  PolicyEvaluationRequestDefinitionSchema (planned_request value) && Sha256Schema (planned_requestSha256 value).

Record ReleaseDecisionInputDefinition := {
  input_decisionInputRequestId : string;
  input_candidate : ReleaseCandidateReference;
  input_selection : ReleasePolicySelectionReference;
  input_rationale : text;
  input_scope : EvidenceScope;
  input_mode : DecisionMode;
  input_publisher : ReleaseDecisionPublisherReceipt;
  input_createdAt : PolicyEvaluationTime;
  input_expiresAt : PolicyEvaluationTime;
  input_verificationLimits : ReleaseDecisionVerificationLimits;
  input_evaluations : list PlannedReleasePolicyEvaluation;
}.

Definition planned_policyId (value : PlannedReleasePolicyEvaluation) : string :=
  policyRef_policyId (definition_policy (planned_request value)).
Definition planned_requestId (value : PlannedReleasePolicyEvaluation) : string :=
  definition_evaluationRequestId (planned_request value).

(** ** Findings *)

Inductive RuleStatus : Type := rule_satisfied | rule_unresolved | rule_non_waivable_violation.

Inductive RuleReason : Type :=
| evaluation_satisfied | normal_approval_applied | scoped_exception_applied | original_policy_unavailable
| current_policy_unavailable | reason_candidate_authority_unverified | policy_inapplicable
| policy_applicability_unknown | evidence_indeterminate | reason_non_waivable_violation
| normal_approval_unavailable | exception_unavailable | review_opposed | review_escalated.

#[global] Instance RuleStatus_eq_dec : EqDecision RuleStatus.
Proof. solve_decision. Defined.
#[global] Instance RuleReason_eq_dec : EqDecision RuleReason.
Proof. solve_decision. Defined.

Record ReleaseDecisionRuleFinding := {
  finding_ruleId : string;
  finding_ruleIndex : Z;
  finding_predicateKind : PredicateKind;
  finding_originalOutcome : PolicyEvaluationRuleOutcome;
  finding_nonWaivable : bool;
  finding_status : RuleStatus;
  finding_reason : RuleReason;
  finding_supportingApprovals : list ReleaseApprovalReference;
}.

Definition refineReleaseDecisionRuleFinding (value : ReleaseDecisionRuleFinding) : bool :=
  let reason := finding_reason value in
  let outcome := finding_originalOutcome value in
  let approval := reason === normal_approval_applied in
  let exception := reason === scoped_exception_applied in
  let approvalRequired := finding_predicateKind value === predicate_approval_required in
  match finding_status value with
  | rule_satisfied =>
      (approval || exception || (reason === evaluation_satisfied)) &&
      negb (approval && (negb approvalRequired || (outcome !== outcome_indeterminate))) &&
      negb (exception && (approvalRequired || (outcome !== outcome_violated) || finding_nonWaivable value)) &&
      negb ((reason === evaluation_satisfied) && ((outcome !== outcome_satisfied) || approvalRequired))
  | rule_non_waivable_violation =>
      (outcome === outcome_violated) && finding_nonWaivable value &&
      (reason === reason_non_waivable_violation) && negb approvalRequired
  | rule_unresolved =>
      negb (approval || exception || (reason === evaluation_satisfied) || (reason === reason_non_waivable_violation))
  end &&
  ((approval || exception) === negb (length (finding_supportingApprovals value) =? 0)%nat) &&
  negb (approvalRequired && (outcome !== outcome_indeterminate)).

Definition ReleaseDecisionRuleFindingSchema (value : ReleaseDecisionRuleFinding) : bool :=
  OpaqueIdSchema (finding_ruleId value) && boundedInteger 0 (MAX_POLICY_RULES - 1) (finding_ruleIndex value) &&
  forallb DigestReferenceSchema (finding_supportingApprovals value) &&
  sized 0 MAX_POLICY_APPROVAL_GROUPS (finding_supportingApprovals value) &&
  strictly_sorted (digestRef_id <$> finding_supportingApprovals value) &&
  refineReleaseDecisionRuleFinding value.

Inductive PolicyUnavailableReason : Type :=
| unavailable_request_missing | unavailable_result_missing | original_graph_unavailable
| original_graph_ambiguous | original_graph_invalid.

#[global] Instance PolicyUnavailableReason_eq_dec : EqDecision PolicyUnavailableReason.
Proof. solve_decision. Defined.

Inductive PolicyFindingState : Type :=
| policy_evaluated (job : PolicyEvaluationJobReference) (snapshot : PolicyEvaluationSnapshotReference)
    (evaluation : PolicyEvaluationResultReference) (ruleCount : Z) (rules : list ReleaseDecisionRuleFinding)
| policy_unavailable (reason : PolicyUnavailableReason) (job : option PolicyEvaluationJobReference)
    (jobStatus : option PolicyEvaluationJobStatus) (snapshot : option PolicyEvaluationSnapshotReference).

Record ReleaseDecisionPolicyFinding := {
  finding_policy : ReleasePolicyReference;
  finding_request : PolicyEvaluationRequestReference;
  finding_mode : ReleasePolicyMode;
  finding_state : PolicyFindingState;
}.

Definition is_defined {A} (value : option A) : bool := match value with Some _ => true | None => false end.

Definition refineReleaseDecisionPolicyFinding (value : ReleaseDecisionPolicyFinding) : bool :=
  match finding_state value with
  | policy_unavailable reason job jobStatus snapshot =>
      (is_defined job === is_defined jobStatus) && negb (is_defined snapshot && negb (is_defined job)) &&
      negb ((reason === unavailable_request_missing) && (is_defined job || is_defined snapshot))
  | policy_evaluated _ _ _ ruleCount rules =>
      (ruleCount =? Z.of_nat (length rules)) && strictly_sorted (finding_ruleId <$> rules) &&
      forallb (fun '(index, rule) => finding_ruleIndex rule =? Z.of_nat index) (indexed rules)
  end.

Definition ReleaseDecisionPolicyFindingSchema (value : ReleaseDecisionPolicyFinding) : bool :=
  ReleasePolicyReferenceSchema (finding_policy value) &&
  PolicyEvaluationRequestReferenceSchema (finding_request value) &&
  match finding_state value with
  | policy_evaluated job snapshot evaluation ruleCount rules =>
      PolicyEvaluationJobReferenceSchema job && PolicyEvaluationSnapshotReferenceSchema snapshot &&
      PolicyEvaluationResultReferenceSchema evaluation && boundedInteger 1 MAX_POLICY_RULES ruleCount &&
      forallb ReleaseDecisionRuleFindingSchema rules && sized 1 MAX_POLICY_RULES rules
  | policy_unavailable _ job _ snapshot =>
      optional PolicyEvaluationJobReferenceSchema job && optional PolicyEvaluationSnapshotReferenceSchema snapshot
  end &&
  refineReleaseDecisionPolicyFinding value.

(** ** What the parts of a list of findings are *)

Definition finding_job (value : ReleaseDecisionPolicyFinding) : option PolicyEvaluationJobReference :=
  match finding_state value with
  | policy_evaluated job _ _ _ _ => Some job
  | policy_unavailable _ job _ _ => job
  end.

Definition finding_snapshot (value : ReleaseDecisionPolicyFinding) : option PolicyEvaluationSnapshotReference :=
  match finding_state value with
  | policy_evaluated _ snapshot _ _ _ => Some snapshot
  | policy_unavailable _ _ _ snapshot => snapshot
  end.

Definition finding_evaluation (value : ReleaseDecisionPolicyFinding) : option PolicyEvaluationResultReference :=
  match finding_state value with
  | policy_evaluated _ _ evaluation _ _ => Some evaluation
  | policy_unavailable _ _ _ _ => None
  end.

(** [policy.rules] of an evaluated policy. *)
Definition finding_rules (value : ReleaseDecisionPolicyFinding) : list ReleaseDecisionRuleFinding :=
  match finding_state value with policy_evaluated _ _ _ _ rules => rules | policy_unavailable _ _ _ _ => [] end.

Definition finding_unavailable (value : ReleaseDecisionPolicyFinding) : bool :=
  match finding_state value with policy_evaluated _ _ _ _ _ => false | policy_unavailable _ _ _ _ => true end.

Definition finding_jobIds (policies : list ReleaseDecisionPolicyFinding) : list string :=
  omap (fun policy => jobRef_jobId <$> finding_job policy) policies.
Definition finding_snapshotIds (policies : list ReleaseDecisionPolicyFinding) : list string :=
  omap (fun policy => snapshotRef_snapshotId <$> finding_snapshot policy) policies.
Definition finding_evaluationIds (policies : list ReleaseDecisionPolicyFinding) : list string :=
  omap (fun policy => resultRef_evaluationId <$> finding_evaluation policy) policies.

(** [supports] *)
Definition supporting_approvals (policies : list ReleaseDecisionPolicyFinding) : list ReleaseApprovalReference :=
  concat ((fun policy => concat (finding_supportingApprovals <$> finding_rules policy)) <$> policies).

Definition mandatory_findings (policies : list ReleaseDecisionPolicyFinding) : list ReleaseDecisionPolicyFinding :=
  filter (fun policy => finding_mode policy = mandatory_mode) policies.

(** [rejected] and [unresolved] of the mandatory policies. *)
Definition policy_rejected (policy : ReleaseDecisionPolicyFinding) : bool :=
  existsb (fun rule => finding_status rule === rule_non_waivable_violation) (finding_rules policy).
Definition policy_unresolved (policy : ReleaseDecisionPolicyFinding) : bool :=
  finding_unavailable policy ||
  existsb (fun rule => finding_status rule === rule_unresolved) (finding_rules policy).

(** ** Decisions *)

Inductive ReleaseDecisionDisposition : Type := advisory | proceed | hold | reject.

Inductive ReleaseDecisionSelectionState : Type :=
| state_current | state_unavailable | state_not_effective | state_expired | state_withdrawn
| state_superseded | state_conflicting.

#[global] Instance ReleaseDecisionDisposition_eq_dec : EqDecision ReleaseDecisionDisposition.
Proof. solve_decision. Defined.
#[global] Instance ReleaseDecisionSelectionState_eq_dec : EqDecision ReleaseDecisionSelectionState.
Proof. solve_decision. Defined.

Record ReleaseDecisionDefinition := {
  decision_decisionId : string;
  decision_scope : EvidenceScope;
  decision_input : ReleaseDecisionInputReference;
  decision_candidate : ReleaseCandidateReference;
  decision_selection : ReleasePolicySelectionReference;
  decision_mode : DecisionMode;
  decision_selectionState : ReleaseDecisionSelectionState;
  decision_authoritySnapshot : ReleaseDecisionAuthoritySnapshotReference;
  decision_publisher : ReleaseDecisionPublisherReceipt;
  decision_decidedAt : PolicyEvaluationTime;
  decision_expiresAt : PolicyEvaluationTime;
  decision_rationale : text;
  decision_disposition : ReleaseDecisionDisposition;
  decision_policies : list ReleaseDecisionPolicyFinding;
}.

(** The disposition the contract expects. *)
Definition expected_disposition (selectionState : ReleaseDecisionSelectionState) (mode : DecisionMode)
    (policies : list ReleaseDecisionPolicyFinding) : ReleaseDecisionDisposition :=
  if selectionState !== state_current then hold
  else if mode === observation_only then advisory
  else if existsb policy_rejected (mandatory_findings policies) then reject
  else if existsb policy_unresolved (mandatory_findings policies) then hold
  else proceed.
