(* ===== verification/ReleaseDecisionEncoding.v ===== *)
(** * The encoded forms of decisions and their inputs

    What [encodeEvaluationCanonicalJson] is applied to in
    [packages/contracts/src/release-decision-input.ts] and
    [packages/contracts/src/release-decision.ts], and the two definition schemas
    whose last check is the size of that encoding.  An instant is written as the
    text it is read from. *)

From S2P Require Import Prelude Errors BigInts Primitives ExactArithmetic PolicyTime ReplayPlan.
From S2P Require Import PolicyEvaluationJob PolicyJobHistory ComparisonContracts.
From S2P Require Import ReleasePolicyRules CanonicalJson PolicyRuleResult.
From S2P Require Import ReleaseDecisionContracts.
#[local] Open Scope Z_scope.

(** ** Instants *)

(** The year, month and day of a day counted from 1970-01-01. *)
Definition civil_date (day : Z) : Z * Z * Z :=
  let shifted := day + 719468 in
  let era := shifted / 146097 in
  let dayOfEra := shifted mod 146097 in
  let yearOfEra := (dayOfEra - dayOfEra / 1460 + dayOfEra / 36524 - dayOfEra / 146096) / 365 in
  let dayOfYear := dayOfEra - (365 * yearOfEra + yearOfEra / 4 - yearOfEra / 100) in
  let shiftedMonth := (5 * dayOfYear + 2) / 153 in
  let month := if shiftedMonth <? 10 then shiftedMonth + 3 else shiftedMonth - 9 in
  (yearOfEra + era * 400 + (if month <=? 2 then 1 else 0), month, dayOfYear - (153 * shiftedMonth + 2) / 5 + 1).

(** [YYYY-MM-DDTHH:MM:SS[.fraction]Z] *)
Definition time_text (value : PolicyEvaluationTime) : text :=
  let '(year, month, day) := civil_date (wholeSeconds value / 86400) in
  let second := wholeSeconds value mod 86400 in
  digits_text (fixed_digits 4 year) ++ [45] ++ digits_text (fixed_digits 2 month) ++ [45] ++
  digits_text (fixed_digits 2 day) ++ [84] ++ digits_text (fixed_digits 2 (second / 3600)) ++ [58] ++
  digits_text (fixed_digits 2 (second / 60 mod 60)) ++ [58] ++ digits_text (fixed_digits 2 (second mod 60)) ++
  match fractionDigits value with [] => [] | digits => [46] ++ digits_text digits end ++ [90].

Definition text_member (key : string) (value : text) : text * Json := (text_of key, JString value).
Definition time_member (key : string) (value : PolicyEvaluationTime) : text * Json := text_member key (time_text value).
Definition member (key : string) (value : Json) : text * Json := (text_of key, value).

(** A member that is left out when its value is [undefined]. *)
Definition optional_member {A} (key : string) (encode : A -> Json) (value : option A) : list (text * Json) :=
  match value with Some value => [member key (encode value)] | None => [] end.

(** ** References *)

Definition named_digest_json (key : string) (id digest : string) : Json :=
  JObject [ascii_member key id; ascii_member "definitionSha256" digest].

Definition candidate_json (value : ReleaseCandidateReference) : Json :=
  JObject [ascii_member "candidateId" (candidateRef_candidateId value);
           ascii_member "candidateVersionId" (candidateRef_candidateVersionId value);
           ascii_member "definitionSha256" (candidateRef_definitionSha256 value)].

Definition policy_json (value : ReleasePolicyReference) : Json :=
  JObject [ascii_member "definitionSha256" (policyRef_definitionSha256 value);
           ascii_member "policyId" (policyRef_policyId value);
           ascii_member "policyVersionId" (policyRef_policyVersionId value)].

Definition selection_json (value : ReleasePolicySelectionReference) : Json :=
  JObject [ascii_member "selectionId" (selectionRef_selectionId value);
           ascii_member "selectionVersionId" (selectionRef_selectionVersionId value);
           ascii_member "definitionSha256" (selectionRef_definitionSha256 value);
           ascii_member "installationId" (selectionRef_installationId value);
           ascii_member "gateTargetId" (selectionRef_gateTargetId value)].

Definition request_json (value : PolicyEvaluationRequestReference) : Json :=
  named_digest_json "evaluationRequestId" (requestRef_evaluationRequestId value) (requestRef_definitionSha256 value).
Definition job_json (value : PolicyEvaluationJobReference) : Json :=
  named_digest_json "jobId" (jobRef_jobId value) (jobRef_definitionSha256 value).
Definition snapshot_json (value : PolicyEvaluationSnapshotReference) : Json :=
  named_digest_json "snapshotId" (snapshotRef_snapshotId value) (snapshotRef_definitionSha256 value).
Definition evaluation_json (value : PolicyEvaluationResultReference) : Json :=
  named_digest_json "evaluationId" (resultRef_evaluationId value) (resultRef_definitionSha256 value).
Definition digest_json (key : string) (value : DigestReference) : Json :=
  named_digest_json key (digestRef_id value) (digestRef_definitionSha256 value).

Definition publisher_json (value : ReleaseDecisionPublisherReceipt) : Json :=
  let '(principalType, authenticationMethod) :=
    match publisher_principalType value with
    | publisher_user => ("user", "oidc")
    | publisher_service => ("service", "service_token")
    end%string in
  JObject [ascii_member "principalId" (publisher_principalId value); ascii_member "principalType" principalType;
           ascii_member "authenticationMethod" authenticationMethod;
           time_member "authenticatedAt" (publisher_authenticatedAt value);
           ascii_member "credentialId" (publisher_credentialId value);
           text_member "requestId" (publisher_requestId value)].

(** ** Inputs *)

Definition mode_name (value : ReleasePolicyMode) : string :=
  match value with advisory_mode => "advisory" | mandatory_mode => "mandatory" end.
Definition decision_mode_name (value : DecisionMode) : string :=
  match value with observation_only => "observation_only" | enforce => "enforce" end.

Definition limits_json (value : PolicyEvaluationExecutionLimits) : Json :=
  JObject [number_member "heartbeatIntervalMilliseconds" (heartbeatIntervalMilliseconds value);
           number_member "leaseDurationMilliseconds" (leaseDurationMilliseconds value);
           number_member "maxAcquisitionRecordBytes" (maxAcquisitionRecordBytes value);
           number_member "maxAcquisitionRecords" (maxAcquisitionRecords value);
           number_member "maxArtifactReadBytes" (maxArtifactReadBytes value);
           number_member "maxAttempts" (maxAttempts value);
           number_member "maxRuleEvaluations" (maxRuleEvaluations value);
           number_member "perAttemptTimeoutMilliseconds" (perAttemptTimeoutMilliseconds value);
           number_member "retryBackoffMilliseconds" (retryBackoffMilliseconds value);
           member "retryableErrors"
             (JArray ((fun e => JString (text_of (policy_retryable_name e))) <$> retryableErrors value));
           number_member "totalDeadlineMilliseconds" (totalDeadlineMilliseconds value)].

Definition request_definition_json (value : PolicyEvaluationRequestDefinition) : Json :=
  JObject [member "algorithm" (JObject [ascii_member "id" "proofstack.deterministic-policy";
                                        ascii_member "version" "1.0.0"]);
           member "candidate" (candidate_json (definition_candidate value));
           ascii_member "evaluationRequestId" (definition_evaluationRequestId value);
           time_member "evaluationTime" (definition_evaluationTime value);
           member "limits" (limits_json (definition_limits value));
           member "policy" (policy_json (definition_policy value))].

Definition planned_json (value : PlannedReleasePolicyEvaluation) : Json :=
  JObject [ascii_member "mode" (mode_name (planned_mode value));
           member "request" (request_definition_json (planned_request value));
           ascii_member "requestSha256" (planned_requestSha256 value)].

Definition input_definition_json (value : ReleaseDecisionInputDefinition) : Json :=
  JObject [ascii_member "decisionInputRequestId" (input_decisionInputRequestId value);
           member "candidate" (candidate_json (input_candidate value));
           member "selection" (selection_json (input_selection value));
           text_member "rationale" (input_rationale value);
           member "scope" (scope_json (input_scope value));
           ascii_member "mode" (decision_mode_name (input_mode value));
           member "publisher" (publisher_json (input_publisher value));
           time_member "createdAt" (input_createdAt value);
           time_member "expiresAt" (input_expiresAt value);
           member "verificationLimits"
             (JObject [number_member "maxAcquisitionRecords"
                         (verification_maxAcquisitionRecords (input_verificationLimits value));
                       number_member "maxAcquisitionRecordBytes"
                         (verification_maxAcquisitionRecordBytes (input_verificationLimits value));
                       number_member "maxApprovalRecords"
                         (verification_maxApprovalRecords (input_verificationLimits value))]);
           member "evaluations" (JArray (planned_json <$> input_evaluations value))].

(** The validity of an instant up to another: positive and at most one hour. *)
Definition valid_interval (from until : PolicyEvaluationTime) : bool :=
  (time from <? time until) &&
  (time until - time from <=?
     MAX_POLICY_EVALUATION_DEADLINE_MILLISECONDS * POLICY_EVALUATION_TIME_UNITS_PER_MILLISECOND).

(** A definition is within its ceiling; the encoder fails on none that has the
    accepted shape. *)
Definition encoded_within `{NativeTextEncoder} (maximum : Z) (value : Json) : bool :=
  match encodeEvaluationCanonicalJson value with
  | Ok bytes => Z.of_nat (length bytes) <=? maximum
  | Throw _ => false
  end.

Definition refineReleaseDecisionInputDefinition (value : ReleaseDecisionInputDefinition) : bool :=
  valid_interval (input_createdAt value) (input_expiresAt value) &&
  negb (time (input_createdAt value) <? time (publisher_authenticatedAt (input_publisher value))) &&
  ((input_mode value === enforce) ===
     existsb (fun evaluation => planned_mode evaluation === mandatory_mode) (input_evaluations value)) &&
  strictly_sorted (planned_policyId <$> input_evaluations value) &&
  distinct (planned_requestId <$> input_evaluations value) &&
  forallb (fun evaluation =>
    let request := planned_request evaluation in
    (definition_candidate request === input_candidate value) &&
    (definition_evaluationTime request === input_createdAt value)) (input_evaluations value).

Definition ReleaseDecisionInputDefinitionSchema `{UnicodeNormalization} `{NativeTextEncoder}
    (value : ReleaseDecisionInputDefinition) : bool :=
  OpaqueIdSchema (input_decisionInputRequestId value) && ReleaseCandidateReferenceSchema (input_candidate value) &&
  ReleasePolicySelectionReferenceSchema (input_selection value) && AssuranceRationaleSchema (input_rationale value) &&
  EvidenceScopeSchema (input_scope value) && ReleaseDecisionPublisherReceiptSchema (input_publisher value) &&
  PolicyEvaluationTimeSchema (input_createdAt value) && PolicyEvaluationTimeSchema (input_expiresAt value) &&
  ReleaseDecisionVerificationLimitsSchema (input_verificationLimits value) &&
  forallb PlannedReleasePolicyEvaluationSchema (input_evaluations value) &&
  sized 0 MAX_RELEASE_POLICY_SELECTION_POLICIES (input_evaluations value) &&
  refineReleaseDecisionInputDefinition value &&
  encoded_within MAX_RELEASE_DECISION_INPUT_DEFINITION_BYTES (input_definition_json value).

(** ** Decisions *)

Definition status_name (value : RuleStatus) : string :=
  match value with
  | rule_satisfied => "satisfied" | rule_unresolved => "unresolved"
  | rule_non_waivable_violation => "non_waivable_violation"
  end.

Definition rule_reason_name (value : RuleReason) : string :=
  match value with
  | evaluation_satisfied => "evaluation_satisfied" | normal_approval_applied => "normal_approval_applied"
  | scoped_exception_applied => "scoped_exception_applied"
  | original_policy_unavailable => "original_policy_unavailable"
  | current_policy_unavailable => "current_policy_unavailable"
  | reason_candidate_authority_unverified => "candidate_authority_unverified"
  | policy_inapplicable => "policy_inapplicable" | policy_applicability_unknown => "policy_applicability_unknown"
  | evidence_indeterminate => "evidence_indeterminate"
  | reason_non_waivable_violation => "non_waivable_violation"
  | normal_approval_unavailable => "normal_approval_unavailable" | exception_unavailable => "exception_unavailable"
  | review_opposed => "review_opposed" | review_escalated => "review_escalated"
  end.

Definition policy_unavailable_name (value : PolicyUnavailableReason) : string :=
  match value with
  | unavailable_request_missing => "request_missing" | unavailable_result_missing => "result_missing"
  | original_graph_unavailable => "original_graph_unavailable"
  | original_graph_ambiguous => "original_graph_ambiguous" | original_graph_invalid => "original_graph_invalid"
  end.

Definition job_status_name (value : PolicyEvaluationJobStatus) : string :=
  match value with
  | job_queued => "queued" | job_acquiring => "acquiring" | job_sealed => "sealed" | job_running => "running"
  | job_retry_ready => "retry_ready" | job_completed => "completed" | job_failed => "failed"
  | job_timed_out => "timed_out" | job_budget_exhausted => "budget_exhausted" | job_cancelled => "cancelled"
  end.

Definition disposition_name (value : ReleaseDecisionDisposition) : string :=
  match value with advisory => "advisory" | proceed => "proceed" | hold => "hold" | reject => "reject" end.

Definition selection_state_name (value : ReleaseDecisionSelectionState) : string :=
  match value with
  | state_current => "current" | state_unavailable => "unavailable" | state_not_effective => "not_effective"
  | state_expired => "expired" | state_withdrawn => "withdrawn" | state_superseded => "superseded"
  | state_conflicting => "conflicting"
  end.

Definition rule_finding_json (value : ReleaseDecisionRuleFinding) : Json :=
  JObject [ascii_member "ruleId" (finding_ruleId value); number_member "ruleIndex" (finding_ruleIndex value);
           ascii_member "predicateKind" (predicate_kind_name (finding_predicateKind value));
           ascii_member "originalOutcome" (outcome_name (finding_originalOutcome value));
           member "nonWaivable" (JBool (finding_nonWaivable value));
           ascii_member "status" (status_name (finding_status value));
           ascii_member "reason" (rule_reason_name (finding_reason value));
           member "supportingApprovals" (JArray (digest_json "approvalId" <$> finding_supportingApprovals value))].

Definition policy_finding_json (value : ReleaseDecisionPolicyFinding) : Json :=
  JObject ([member "policy" (policy_json (finding_policy value));
            member "request" (request_json (finding_request value));
            ascii_member "mode" (mode_name (finding_mode value))] ++
           match finding_state value with
           | policy_evaluated job snapshot evaluation ruleCount rules =>
               [ascii_member "state" "evaluated"; member "job" (job_json job);
                member "snapshot" (snapshot_json snapshot); member "evaluation" (evaluation_json evaluation);
                number_member "ruleCount" ruleCount; member "rules" (JArray (rule_finding_json <$> rules))]
           | policy_unavailable reason job jobStatus snapshot =>
               [ascii_member "state" "unavailable"; ascii_member "reason" (policy_unavailable_name reason)] ++
               optional_member "job" job_json job ++
               optional_member "jobStatus" (fun status => JString (text_of (job_status_name status))) jobStatus ++
               optional_member "snapshot" snapshot_json snapshot
           end).

Definition decision_definition_json (value : ReleaseDecisionDefinition) : Json :=
  JObject [ascii_member "decisionId" (decision_decisionId value);
           member "scope" (scope_json (decision_scope value));
           member "input" (digest_json "decisionInputRequestId" (decision_input value));
           member "candidate" (candidate_json (decision_candidate value));
           member "selection" (selection_json (decision_selection value));
           ascii_member "mode" (decision_mode_name (decision_mode value));
           ascii_member "selectionState" (selection_state_name (decision_selectionState value));
           member "authoritySnapshot" (digest_json "authoritySnapshotId" (decision_authoritySnapshot value));
           member "algorithm" (JObject [ascii_member "id" "proofstack.accountable-release-decision";
                                        ascii_member "version" "1.0.0"]);
           member "publisher" (publisher_json (decision_publisher value));
           time_member "decidedAt" (decision_decidedAt value);
           time_member "expiresAt" (decision_expiresAt value);
           text_member "rationale" (decision_rationale value);
           ascii_member "disposition" (disposition_name (decision_disposition value));
           member "policies" (JArray (policy_finding_json <$> decision_policies value))].

Definition refineReleaseDecisionDefinition (value : ReleaseDecisionDefinition) : bool :=
  let policies := decision_policies value in
  negb (time (decision_decidedAt value) <? time (publisher_authenticatedAt (decision_publisher value))) &&
  valid_interval (decision_decidedAt value) (decision_expiresAt value) &&
  strictly_sorted ((fun policy => policyRef_policyId (finding_policy policy)) <$> policies) &&
  ((decision_mode value === enforce) === negb (length (mandatory_findings policies) =? 0)%nat) &&
  distinct ((fun policy => requestRef_evaluationRequestId (finding_request policy)) <$> policies) &&
  distinct (finding_jobIds policies) && distinct (finding_snapshotIds policies) &&
  distinct (finding_evaluationIds policies) &&
  negb (MAX_RELEASE_DECISION_APPROVAL_READS <? Z.of_nat (length (supporting_approvals policies))) &&
  distinct (digestRef_id <$> supporting_approvals policies) &&
  (decision_disposition value ===
     expected_disposition (decision_selectionState value) (decision_mode value) policies).

Definition ReleaseDecisionDefinitionSchema `{UnicodeNormalization} `{NativeTextEncoder}
    (value : ReleaseDecisionDefinition) : bool :=
  OpaqueIdSchema (decision_decisionId value) && EvidenceScopeSchema (decision_scope value) &&
  DigestReferenceSchema (decision_input value) && ReleaseCandidateReferenceSchema (decision_candidate value) &&
  ReleasePolicySelectionReferenceSchema (decision_selection value) &&
  DigestReferenceSchema (decision_authoritySnapshot value) &&
  ReleaseDecisionPublisherReceiptSchema (decision_publisher value) &&
  PolicyEvaluationTimeSchema (decision_decidedAt value) && PolicyEvaluationTimeSchema (decision_expiresAt value) &&
  AssuranceRationaleSchema (decision_rationale value) &&
  forallb ReleaseDecisionPolicyFindingSchema (decision_policies value) &&
  sized 0 MAX_RELEASE_POLICY_SELECTION_POLICIES (decision_policies value) &&
  refineReleaseDecisionDefinition value &&
  encoded_within MAX_RELEASE_DECISION_DEFINITION_BYTES (decision_definition_json value).
