(* ===== verification/ReleaseDecision.v ===== *)
(** * Deciding a release

    [packages/core/src/release/classify-release-rule.ts], the decision table
    that turns the result of a rule and its reviews into a finding, and
    [packages/core/src/release/derive-release-disposition.ts], which turns the
    findings of every policy into the disposition of the release.  An error of a
    schema is rethrown as the error of the function. *)

From S2P Require Import Prelude Errors Primitives ExactArithmetic PolicyTime ReplayPlan.
From S2P Require Import PolicyEvaluationJob PolicyJobHistory ComparisonContracts.
From S2P Require Import ReleasePolicyRules CanonicalJson PolicyRuleResult.
From S2P Require Import ReleaseDecisionContracts ReleaseDecisionEncoding.
#[local] Open Scope Z_scope.

(** ** Classifying a rule *)

Inductive PolicyState : Type :=
| state_of_active | state_of_not_effective | state_of_expired | state_of_withdrawn | state_of_superseded
| state_of_authority_unavailable.

Inductive ReviewState : Type :=
| review_unavailable | review_insufficient | review_conditions_unresolved | review_conflicted
| review_is_opposed | review_is_escalated | review_matched.

Inductive RuleApplicability : Type := applicability_match | applicability_mismatched | applicability_unknown.
Inductive CandidateAuthority : Type := authority_qualified | authority_unqualified | authority_unavailable.

#[global] Instance PolicyState_eq_dec : EqDecision PolicyState.
Proof. solve_decision. Defined.
#[global] Instance ReviewState_eq_dec : EqDecision ReviewState.
Proof. solve_decision. Defined.
#[global] Instance RuleApplicability_eq_dec : EqDecision RuleApplicability.
Proof. solve_decision. Defined.
#[global] Instance CandidateAuthority_eq_dec : EqDecision CandidateAuthority.
Proof. solve_decision. Defined.

Record ReleaseRuleClassificationInput := {
  classified_rule : ReleasePolicyRule;
  classified_result : PolicyEvaluationRuleResult;
  classified_applicability : RuleApplicability;
  classified_candidateAuthority : CandidateAuthority;
  classified_originalPolicyState : PolicyState;
  classified_currentPolicyState : PolicyState;
  classified_normalApproval : ReviewState;
  classified_ruleException : ReviewState;
}.

Record ReleaseRuleClassification := {
  classification_status : RuleStatus;
  classification_originalOutcome : PolicyEvaluationRuleOutcome;
  classification_reason : RuleReason;
}.

Section decisions.
Context `{UnicodeNormalization} `{NativeTextEncoder}.

(** [parse]: the states are typed here, so that only the schemas and the
    identity of the rule can refuse. *)
Definition parse_classification (input : ReleaseRuleClassificationInput) : res ReleaseRuleClassificationInput :=
  let rule := classified_rule input in
  let result := classified_result input in
  reject_when (negb (ReleasePolicyRuleSchema rule)) InvalidReleaseRuleObservationError ;;
  reject_when (negb (PolicyEvaluationRuleResultSchema result)) InvalidReleaseRuleObservationError ;;
  reject_when ((rule_ruleId rule !== ruleResult_ruleId result) ||
               (predicate_kind (rule_predicate rule) !== ruleResult_predicateKind result))
    InvalidReleaseRuleObservationError ;;
  Ok input.

Definition classifyReleaseRule (input : ReleaseRuleClassificationInput) : res ReleaseRuleClassification :=
  value ← parse_classification input;
  let outcome := ruleResult_outcome (classified_result value) in
  let conclude status reason :=
    Ok {| classification_status := status; classification_originalOutcome := outcome;
          classification_reason := reason |} in
  let unresolved := conclude rule_unresolved in
  let satisfied := conclude rule_satisfied in
  if classified_originalPolicyState value !== state_of_active then unresolved original_policy_unavailable
  else if classified_currentPolicyState value !== state_of_active then unresolved current_policy_unavailable
  else if classified_candidateAuthority value !== authority_qualified then
    unresolved reason_candidate_authority_unverified
  else if (classified_applicability value === applicability_mismatched) || (outcome === outcome_not_applicable) then
    unresolved policy_inapplicable
  else if classified_applicability value === applicability_unknown then unresolved policy_applicability_unknown
  else if predicate_kind (rule_predicate (classified_rule value)) === predicate_approval_required then
    if classified_normalApproval value === review_is_opposed then unresolved review_opposed
    else if classified_normalApproval value === review_is_escalated then unresolved review_escalated
    else if classified_normalApproval value === review_matched then satisfied normal_approval_applied
    else unresolved normal_approval_unavailable
  else if outcome === outcome_satisfied then satisfied evaluation_satisfied
  else if outcome === outcome_indeterminate then unresolved evidence_indeterminate
  else if rule_nonWaivable (classified_rule value) then
    conclude rule_non_waivable_violation reason_non_waivable_violation
  else if classified_ruleException value === review_is_opposed then unresolved review_opposed
  else if classified_ruleException value === review_is_escalated then unresolved review_escalated
  else if classified_ruleException value === review_matched then satisfied scoped_exception_applied
  else unresolved exception_unavailable.

(** ** Deriving the disposition *)

(** The loop that matches each finding with its planned evaluation. *)
Definition matches_plan (policy : ReleaseDecisionPolicyFinding) (planned : PlannedReleasePolicyEvaluation) : bool :=
  let request := planned_request planned in
  (finding_mode policy === planned_mode planned) &&
  (policyRef_policyId (finding_policy policy) === policyRef_policyId (definition_policy request)) &&
  (policyRef_policyVersionId (finding_policy policy) === policyRef_policyVersionId (definition_policy request)) &&
  (policyRef_definitionSha256 (finding_policy policy) === policyRef_definitionSha256 (definition_policy request)) &&
  (requestRef_evaluationRequestId (finding_request policy) === definition_evaluationRequestId request) &&
  (requestRef_definitionSha256 (finding_request policy) === planned_requestSha256 planned).

Definition plan_mismatch (evaluations : list PlannedReleasePolicyEvaluation)
    (entry : nat * ReleaseDecisionPolicyFinding) : bool :=
  match evaluations !! entry.1 with
  | None => true
  | Some planned => negb (matches_plan entry.2 planned)
  end.

Definition inventory_error : exn := InvalidReleaseDecisionInventoryError.

Definition deriveReleaseDisposition (request : ReleaseDecisionInputDefinition)
    (selectionState : ReleaseDecisionSelectionState) (policies : list ReleaseDecisionPolicyFinding) :
    res ReleaseDecisionDisposition :=
  reject_when (negb (ReleaseDecisionInputDefinitionSchema request)) inventory_error ;;
  reject_when (negb (length policies =? length (input_evaluations request))%nat) inventory_error ;;
  reject_when (negb (forallb ReleaseDecisionPolicyFindingSchema policies)) inventory_error ;;
  reject_when (existsb (plan_mismatch (input_evaluations request)) (indexed policies)) inventory_error ;;
  reject_when (negb (distinct (finding_jobIds policies))) inventory_error ;;
  reject_when (negb (distinct (finding_snapshotIds policies))) inventory_error ;;
  reject_when (negb (distinct (finding_evaluationIds policies))) inventory_error ;;
  let supports := supporting_approvals policies in
  reject_when
    ((verification_maxApprovalRecords (input_verificationLimits request) <? Z.of_nat (length supports)) ||
     negb (distinct (digestRef_id <$> supports))) inventory_error ;;
  if selectionState !== state_current then Ok hold
  else if input_mode request === observation_only then Ok advisory
  else
    let mandatory := mandatory_findings policies in
    if existsb policy_rejected mandatory then Ok reject
    else if existsb policy_unresolved mandatory then Ok hold
    else Ok proceed.
End decisions.
