(* ===== verification/ReleaseDecisionProofs.v ===== *)
(** * What a release decision stands on

    The decision table classifies every rule as its observations say and always
    forms a finding the contract accepts; a release proceeds exactly when every
    mandatory policy was evaluated and all its rules are satisfied; and the
    disposition derived from an inventory is the one the decision contract
    recomputes from it. *)

From S2P Require Import Prelude Errors Primitives PolicyTime PolicyEvaluationJob PolicyJobHistory.
From S2P Require Import ExactArithmetic ReplayPlan ComparisonContracts CanonicalJson.
From S2P Require Import ReleasePolicyRules PolicyRuleResult ReleaseDecisionContracts.
From S2P Require Import ReleaseDecisionEncoding ReleaseDecision.
#[local] Open Scope Z_scope.

(** Decides the equation a run branches on first. *)
Ltac decide_guard :=
  let decide_on P := (let E := fresh "E" in
    destruct (decide P) as [E|E]; [rewrite (bool_decide_eq_true_2 P E)|rewrite (bool_decide_eq_false_2 P E)]) in
  lazymatch goal with
  | |- exists _ _, (if bool_decide ?P then _ else _) = _ /\ _ => decide_on P
  | |- exists _ _, (if negb (bool_decide ?P) then _ else _) = _ /\ _ => decide_on P
  | |- exists _ _, (if bool_decide ?P || _ then _ else _) = _ /\ _ => decide_on P
  end; cbn [negb orb].

(** A row that leaves the rule unresolved, which its guard excludes from the others. *)
Ltac refuse_row_by Hun :=
  eexists _, _; split; [reflexivity|]; apply Hun;
  [done|done|done|intros (? & ? & ? & ?); intuition congruence|intros (? & ? & ? & ?) []; intuition congruence].

Section decisions.
Context `{UnicodeNormalization} `{NativeTextEncoder}.

(** ** The decision table *)

Definition observed (input : ReleaseRuleClassificationInput) : Prop :=
  ReleasePolicyRuleSchema (classified_rule input) = true /\
  PolicyEvaluationRuleResultSchema (classified_result input) = true /\
  rule_ruleId (classified_rule input) = ruleResult_ruleId (classified_result input) /\
  predicate_kind (rule_predicate (classified_rule input)) = ruleResult_predicateKind (classified_result input).

(** The policy applied then and applies now, to this candidate. *)
Definition in_force (input : ReleaseRuleClassificationInput) : Prop :=
  classified_originalPolicyState input = state_of_active /\ classified_currentPolicyState input = state_of_active /\
  classified_candidateAuthority input = authority_qualified /\ classified_applicability input = applicability_match.

Definition needs_approval (input : ReleaseRuleClassificationInput) : Prop :=
  predicate_kind (rule_predicate (classified_rule input)) = predicate_approval_required.

Definition outcome_of (input : ReleaseRuleClassificationInput) : PolicyEvaluationRuleOutcome :=
  ruleResult_outcome (classified_result input).

Lemma parse_classification_Ok input value :
  parse_classification input = Ok value <-> observed input /\ value = input.
Proof.
  unfold parse_classification, observed. split.
  - intros Hp. inv_ok. breflect. done.
  - intros [(H1 & H2 & H3 & H4) ->]. rewrite H1, H2, H3, H4, !bool_decide_eq_true_2 by done. done.
Qed.

(** Approval predicates are never computed. *)
Lemma approval_is_indeterminate input :
  observed input -> needs_approval input -> outcome_of input = outcome_indeterminate.
Proof.
  intros (_ & Hr & _ & Hk) Ha. unfold needs_approval, outcome_of in *. rewrite Ha in Hk.
  unfold PolicyEvaluationRuleResultSchema, refinePolicyEvaluationRuleResult in Hr. rewrite <- Hk in Hr.
  rewrite !andb_true_iff in Hr. destruct Hr as [_ [_ Hr]].
  destruct (ruleResult_evidence (classified_result input)); [|discriminate Hr..].
  apply andb_true_iff in Hr as [Hr _]. by apply bool_decide_eq_true in Hr.
Qed.

(** The finding of a classified rule. *)
Definition finding_of (input : ReleaseRuleClassificationInput) (classification : ReleaseRuleClassification)
    (approvals : list ReleaseApprovalReference) : ReleaseDecisionRuleFinding :=
  {| finding_ruleId := rule_ruleId (classified_rule input);
     finding_ruleIndex := ruleResult_ruleIndex (classified_result input);
     finding_predicateKind := ruleResult_predicateKind (classified_result input);
     finding_originalOutcome := classification_originalOutcome classification;
     finding_nonWaivable := rule_nonWaivable (classified_rule input);
     finding_status := classification_status classification;
     finding_reason := classification_reason classification;
     finding_supportingApprovals := approvals |}.

(** A reason that a review, not the evaluation, gave. *)
Definition by_review (reason : RuleReason) : bool :=
  (reason === normal_approval_applied) || (reason === scoped_exception_applied).

(** What each row of the table says of the rule. *)
Definition resolved (input : ReleaseRuleClassificationInput) (reason : RuleReason) : Prop :=
  match reason with
  | evaluation_satisfied => ~ needs_approval input /\ outcome_of input = outcome_satisfied
  | normal_approval_applied => needs_approval input /\ classified_normalApproval input = review_matched
  | scoped_exception_applied =>
      ~ needs_approval input /\ outcome_of input = outcome_violated /\
      rule_nonWaivable (classified_rule input) = false /\ classified_ruleException input = review_matched
  | _ => False
  end.

Definition violated_for_good (input : ReleaseRuleClassificationInput) : Prop :=
  ~ needs_approval input /\ outcome_of input = outcome_violated /\ rule_nonWaivable (classified_rule input) = true.

Definition row (input : ReleaseRuleClassificationInput) (status : RuleStatus) (reason : RuleReason) : Prop :=
  match status with
  | rule_satisfied => in_force input /\ resolved input reason
  | rule_non_waivable_violation =>
      in_force input /\ violated_for_good input /\ reason = reason_non_waivable_violation
  | rule_unresolved =>
      by_review reason = false /\ reason <> evaluation_satisfied /\ reason <> reason_non_waivable_violation /\
      ~ (in_force input /\ (violated_for_good input \/ exists reason, resolved input reason))
  end.

Lemma classification_row input :
  observed input ->
  exists status reason,
    classifyReleaseRule input = Ok {| classification_status := status;
      classification_originalOutcome := outcome_of input; classification_reason := reason |} /\
    row input status reason.
Proof.
  intros Ho. pose proof (approval_is_indeterminate input Ho) as Hind.
  unfold classifyReleaseRule. rewrite (bind_known _ _ input) by (by apply parse_classification_Ok).
  fold (outcome_of input). cbv zeta.
  assert (Hun : forall reason, by_review reason = false -> reason <> evaluation_satisfied ->
    reason <> reason_non_waivable_violation ->
    (in_force input -> violated_for_good input -> False) ->
    (in_force input -> forall reason, ~ resolved input reason) -> row input rule_unresolved reason).
  { intros reason H1 H2 H3 H4 H5. split_and!; [done..|]. intros [Hf [Hv|[r Hr]]]; [by apply H4|by apply (H5 Hf r)]. }
  unfold in_force, violated_for_good, resolved, needs_approval in *.
  do 3 (decide_guard; [|refuse_row_by Hun]).
  do 2 (decide_guard; [refuse_row_by Hun|]). decide_guard; [refuse_row_by Hun|].
  assert (Hmatch : classified_applicability input = applicability_match)
    by (by destruct (classified_applicability input)).
  decide_guard.
  - do 2 (decide_guard; [refuse_row_by Hun|]). decide_guard; [|refuse_row_by Hun].
    eexists _, _. split; [reflexivity|]. done.
  - decide_guard; [eexists _, _; split; [reflexivity|]; done|]. decide_guard; [refuse_row_by Hun|].
    assert (Hv : outcome_of input = outcome_violated) by (by destruct (outcome_of input)).
    destruct (rule_nonWaivable (classified_rule input)) eqn:Hw.
    { eexists _, _. split; [reflexivity|]. done. }
    do 2 (decide_guard; [refuse_row_by Hun|]). decide_guard; [|refuse_row_by Hun].
    eexists _, _. split; [reflexivity|]. done.
Qed.

Lemma classified input c :
  classifyReleaseRule input = Ok c ->
  observed input /\ classification_originalOutcome c = outcome_of input /\
  row input (classification_status c) (classification_reason c).
Proof.
  intros Hc. assert (Ho : observed input).
  { unfold classifyReleaseRule in Hc. apply bind_Ok in Hc as (v & Hv & _). by apply parse_classification_Ok in Hv as [? _]. }
  split; [done|]. destruct (classification_row input Ho) as (status & reason & E & Hrow).
  rewrite E in Hc. by injection Hc as <-.
Qed.

Lemma resolved_not_violated input reason : resolved input reason -> violated_for_good input -> False.
Proof. unfold violated_for_good. destruct reason; simpl; intuition congruence. Qed.

(** C12. Classification answers exactly on a valid rule with a valid result of
    that rule, and fails with its own error otherwise.  A rule is satisfied
    exactly when its policy was and is active for a qualified, matching
    candidate and the evaluation was satisfied, an approval rule has a matched
    approval or a waivable violation a matched exception; a known violation of a
    rule that cannot be waived is final whatever the reviews say; and everything
    else stays unresolved. *)
Theorem classification_exact input :
  (classifyReleaseRule input = Throw InvalidReleaseRuleObservationError \/ exists c, classifyReleaseRule input = Ok c) /\
  (is_ok (classifyReleaseRule input) = true <-> observed input) /\
  forall c, classifyReleaseRule input = Ok c ->
    classification_originalOutcome c = ruleResult_outcome (classified_result input) /\
    (classification_status c = rule_satisfied <-> in_force input /\ exists reason, resolved input reason) /\
    (classification_status c = rule_non_waivable_violation <-> in_force input /\ violated_for_good input).
Proof.
  split; [|split].
  - destruct (classifyReleaseRule input) as [c|e] eqn:E; [right; by exists c|left].
    unfold classifyReleaseRule in E. apply bind_Throw in E as [E|(v & _ & E)].
    + unfold parse_classification in E. repeat (apply bind_Throw in E as [E|(? & _ & E)];
        [apply reject_when_Throw in E as [_ ->]; done|]). done.
    + cbv zeta in E. repeat (case_match; try discriminate E).
  - rewrite is_ok_true. split; [by intros (c & (Ho & _)%classified)|]. intros Ho.
    destruct (classification_row input Ho) as (status & reason & E & _). by eexists.
  - intros c (Ho & Hout & Hrow)%classified. split; [done|].
    destruct (classification_status c); simpl in Hrow; (split; split; try done; try tauto).
    + intros _. split; [tauto|]. exists (classification_reason c). tauto.
    + intros [_ Hv]. destruct (resolved_not_violated input (classification_reason c)); tauto.
    + intros [Hf [r Hr]]. destruct (resolved_not_violated input r); tauto.
Qed.

(** *** Findings *)

Lemma row_refines input c approvals :
  observed input -> classification_originalOutcome c = outcome_of input ->
  row input (classification_status c) (classification_reason c) ->
  by_review (classification_reason c) = negb (length approvals =? 0)%nat ->
  refineReleaseDecisionRuleFinding (finding_of input c approvals) = true.
Proof.
  intros Ho Hout Hrow Hl. pose proof (approval_is_indeterminate input Ho) as Hind.
  pose proof Ho as (_ & _ & _ & Hk). unfold refineReleaseDecisionRuleFinding, by_review in *.
  cbn [finding_of finding_reason finding_originalOutcome finding_predicateKind finding_status finding_nonWaivable
    finding_supportingApprovals]. rewrite Hout, <- Hk, <- Hl. unfold needs_approval in *.
  clear Ho Hk Hl Hout. unfold row, violated_for_good, needs_approval, by_review in Hrow.
  destruct (decide (predicate_kind (rule_predicate (classified_rule input)) = predicate_approval_required)) as [Ha|Ha].
  - pose proof (Hind Ha) as Hi. clear Hind. rewrite Ha, Hi in *.
    destruct (classification_status c), (classification_reason c); simpl in Hrow;
      try reflexivity; exfalso; intuition (discriminate || congruence).
  - rewrite (bool_decide_eq_false_2 _ Ha).
    destruct (classification_status c), (classification_reason c); simpl in Hrow; try reflexivity;
      try (exfalso; intuition (discriminate || congruence)).
    + by destruct Hrow as (_ & _ & ->).
    + by destruct Hrow as (_ & _ & -> & -> & _).
    + by destruct Hrow as (_ & (_ & -> & ->) & _).
Qed.

(** C39. Whatever rule is classified, the finding made of it is one the decision
    contract accepts, with supporting approvals exactly when a review is the
    reason. *)
Theorem classified_finding_accepted input c approvals :
  classifyReleaseRule input = Ok c ->
  forallb DigestReferenceSchema approvals = true -> sized 0 MAX_POLICY_APPROVAL_GROUPS approvals = true ->
  strictly_sorted (digestRef_id <$> approvals) = true ->
  ReleaseDecisionRuleFindingSchema (finding_of input c approvals) =
    (by_review (classification_reason c) === negb (length approvals =? 0)%nat).
Proof.
  intros (Ho & Hout & Hrow)%classified Ha Hs Hu. pose proof Ho as (Hrule & Hresult & _).
  unfold ReleaseDecisionRuleFindingSchema.
  cbn [finding_of finding_ruleId finding_ruleIndex finding_supportingApprovals]. rewrite Ha, Hs, Hu.
  assert (Hid : OpaqueIdSchema (rule_ruleId (classified_rule input)) = true).
  { unfold ReleasePolicyRuleSchema in Hrule. rewrite !andb_true_iff in Hrule. tauto. }
  assert (Hi : boundedInteger 0 (MAX_POLICY_RULES - 1) (ruleResult_ruleIndex (classified_result input)) = true).
  { unfold PolicyEvaluationRuleResultSchema in Hresult. rewrite !andb_true_iff in Hresult. tauto. }
  rewrite Hid, Hi. cbn [andb].
  destruct (decide (by_review (classification_reason c) = negb (length approvals =? 0)%nat)) as [Hl|Hl].
  - rewrite (bool_decide_eq_true_2 _ Hl). by apply row_refines.
  - rewrite (bool_decide_eq_false_2 _ Hl). unfold refineReleaseDecisionRuleFinding.
    cbn [finding_of finding_reason finding_supportingApprovals]. fold (by_review (classification_reason c)).
    rewrite (bool_decide_eq_false_2 _ Hl). by rewrite andb_false_r.
Qed.
End decisions.

(** * What a disposition stands on

    An inventory of findings is accepted exactly when it answers the request
    policy by policy; the release proceeds, or is rejected, exactly as the
    mandatory policies say; and the decision contract accepts a derived
    disposition and no other. *)

Lemma guarded_Ok {E A} (c : bool) (e : E) (k : result E A) b : (reject_when c e ;; k) = Ok b <-> c = false /\ k = Ok b.
Proof. destruct c; unfold reject_when; simpl; naive_solver. Qed.

Lemma distinct_true {A} `{EqDecision A} (l : list A) : distinct l = true <-> NoDup l.
Proof. apply bool_decide_eq_true. Qed.

(** A key that related elements share is the same list. *)
Lemma Forall2_fmap_eq {A B C} (R : A -> B -> Prop) (f : A -> C) (g : B -> C) l k :
  (forall x y, R x y -> f x = g y) -> Forall2 R l k -> f <$> l = g <$> k.
Proof. intros Hfg. induction 1; csimpl; [done|]. f_equal; auto. Qed.

Section dispositions.
Context `{UnicodeNormalization} `{NativeTextEncoder}.

(** ** The inventory *)

(** A finding per planned evaluation, in order, no job, seal, result or approval
    counted twice, and no more approvals than the request pays for. *)
Record complete_inventory (request : ReleaseDecisionInputDefinition) (policies : list ReleaseDecisionPolicyFinding) :
    Prop := {
  inventory_request : ReleaseDecisionInputDefinitionSchema request = true;
  inventory_plan : Forall2 (fun policy planned => matches_plan policy planned = true) policies (input_evaluations request);
  inventory_findings : Forall (fun policy => ReleaseDecisionPolicyFindingSchema policy = true) policies;
  inventory_jobs : NoDup (finding_jobIds policies);
  inventory_snapshots : NoDup (finding_snapshotIds policies);
  inventory_evaluations : NoDup (finding_evaluationIds policies);
  inventory_supports_bound :
    Z.of_nat (length (supporting_approvals policies)) <= verification_maxApprovalRecords (input_verificationLimits request);
  inventory_supports : NoDup (digestRef_id <$> supporting_approvals policies);
}.

Lemma planned_exactly policies evaluations :
  (length policies = length evaluations /\ existsb (plan_mismatch evaluations) (indexed policies) = false) <->
  Forall2 (fun policy planned => matches_plan policy planned = true) policies evaluations.
Proof.
  rewrite existsb_indexed, Forall2_same_length_lookup. unfold plan_mismatch. simpl.
  split; intros [Hl Hm]; (split; [done|]).
  - intros i policy planned Hp He. specialize (Hm i policy Hp). rewrite He in Hm. by apply negb_false_iff.
  - intros i policy Hp. destruct (lookup_lt_is_Some_2 evaluations i) as [planned He].
    { rewrite <- Hl. by apply lookup_lt_Some in Hp. }
    rewrite He, (Hm i policy planned Hp He). done.
Qed.

Lemma disposition_body request state policies d :
  (if state !== state_current then Ok hold
   else if input_mode request === observation_only then Ok advisory
   else if existsb policy_rejected (mandatory_findings policies) then Ok reject
   else if existsb policy_unresolved (mandatory_findings policies) then Ok hold
   else Ok proceed : res ReleaseDecisionDisposition) = Ok d <->
  d = expected_disposition state (input_mode request) policies.
Proof. unfold expected_disposition. repeat case_match; naive_solver. Qed.

Lemma disposition_Ok request state policies d :
  deriveReleaseDisposition request state policies = Ok d <->
  complete_inventory request policies /\ d = expected_disposition state (input_mode request) policies.
Proof.
  unfold deriveReleaseDisposition. rewrite !guarded_Ok, !negb_false_iff, orb_false_iff, negb_false_iff, !distinct_true.
  rewrite Nat.eqb_eq, Z.ltb_ge, forallb_Forall.
  cbv zeta. rewrite disposition_body.
  pose proof (planned_exactly policies (input_evaluations request)) as Hplan.
  split.
  - intros (? & ? & ? & ? & ? & ? & ? & [? ?] & ->). split; [|done]. split; try done. by apply Hplan.
  - intros [[] ->]. destruct Hplan as [_ Hplan]. destruct Hplan; [done|]. tauto.
Qed.

(** ** The mandatory policies *)

(** The policy was evaluated and every one of its rules is satisfied. *)
Definition policy_satisfied (policy : ReleaseDecisionPolicyFinding) : Prop :=
  match finding_state policy with
  | policy_evaluated _ _ _ _ rules => Forall (fun rule => finding_status rule = rule_satisfied) rules
  | policy_unavailable _ _ _ _ => False
  end.

(** One of its rules is violated and cannot be waived. *)
Definition policy_violated (policy : ReleaseDecisionPolicyFinding) : Prop :=
  exists rule, rule ∈ finding_rules policy /\ finding_originalOutcome rule = outcome_violated /\
    finding_nonWaivable rule = true /\ finding_status rule = rule_non_waivable_violation.

(** The finding that answers a mandatory policy the request planned. *)
Definition answers_mandatory (request : ReleaseDecisionInputDefinition)
    (policies : list ReleaseDecisionPolicyFinding) (policy : ReleaseDecisionPolicyFinding) : Prop :=
  exists index planned, input_evaluations request !! index = Some planned /\
    planned_mode planned = mandatory_mode /\ policies !! index = Some policy.

Lemma mandatory_answers request policies policy :
  complete_inventory request policies ->
  policy ∈ mandatory_findings policies <-> answers_mandatory request policies policy.
Proof.
  intros Hc. pose proof (inventory_plan _ _ Hc) as Hplan. unfold mandatory_findings.
  rewrite list_elem_of_filter, list_elem_of_lookup. split.
  - intros (Hm & index & Hp). destruct (Forall2_lookup_l _ _ _ _ _ Hplan Hp) as (planned & He & Hmatch).
    exists index, planned. split_and!; [done| |done]. unfold matches_plan in Hmatch. breflect. naive_solver congruence.
  - intros (index & planned & He & Hm & Hp). split; [|by exists index].
    pose proof (Forall2_lookup_lr _ _ _ _ _ _ Hplan Hp He) as Hmatch. unfold matches_plan in Hmatch.
    breflect. naive_solver congruence.
Qed.

Lemma policy_satisfied_iff policy :
  policy_rejected policy = false /\ policy_unresolved policy = false <-> policy_satisfied policy.
Proof.
  unfold policy_rejected, policy_unresolved, policy_satisfied, finding_rules, finding_unavailable.
  destruct (finding_state policy) as [job snapshot evaluation count rules|]; [|naive_solver]. simpl.
  induction rules as [|rule rules IH]; simpl; [naive_solver|]. rewrite Forall_cons, <- IH.
  rewrite !orb_false_iff, !bool_decide_eq_false. destruct (finding_status rule); naive_solver.
Qed.

Lemma policy_violated_iff policy :
  ReleaseDecisionPolicyFindingSchema policy = true -> policy_rejected policy = true <-> policy_violated policy.
Proof.
  intros Hs. unfold policy_rejected. rewrite existsb_exists. setoid_rewrite <- list_elem_of_In.
  setoid_rewrite bool_decide_eq_true. split; [|intros (rule & Hr & _ & _ & Hst); by exists rule].
  intros (rule & Hr & Hst). exists rule. split_and!; [done| | |done].
  all: unfold finding_rules in Hr; unfold ReleaseDecisionPolicyFindingSchema in Hs.
  all: destruct (finding_state policy); [|by apply elem_of_nil in Hr].
  all: rewrite !andb_true_iff, (forallb_Forall ReleaseDecisionRuleFindingSchema), Forall_forall in Hs.
  all: destruct Hs as [[_ [[_ Hs] _]] _]; specialize (Hs rule Hr).
  all: unfold ReleaseDecisionRuleFindingSchema, refineReleaseDecisionRuleFinding in Hs; rewrite Hst in Hs.
  all: rewrite !andb_true_iff, !bool_decide_eq_true in Hs; tauto.
Qed.

Lemma expected_proceed state mode policies :
  expected_disposition state mode policies = proceed <->
  state = state_current /\ mode = enforce /\ forall policy, policy ∈ mandatory_findings policies -> policy_satisfied policy.
Proof.
  unfold expected_disposition. setoid_rewrite <- policy_satisfied_iff.
  destruct (decide (state = state_current)) as [->|Hs]; [|rewrite bool_decide_eq_false_2 by done; naive_solver].
  destruct mode; [simpl; naive_solver|]. simpl.
  destruct (existsb policy_rejected _) eqn:Er; [|destruct (existsb policy_unresolved _) eqn:Eu].
  1-2: split; [done|intros (_ & _ & Hall)].
  - apply existsb_exists in Er as (policy & Hp%list_elem_of_In & Hr). destruct (Hall policy Hp). congruence.
  - apply existsb_exists in Eu as (policy & Hp%list_elem_of_In & Hr). destruct (Hall policy Hp). congruence.
  - split; [|done]. intros _. split_and!; [done..|]. intros policy Hp%list_elem_of_In.
    split; apply not_true_iff_false; intros Hx; [apply not_true_iff_false in Er; apply Er
      |apply not_true_iff_false in Eu; apply Eu]; apply existsb_exists; by exists policy.
Qed.

Lemma expected_reject state mode policies :
  Forall (fun policy => ReleaseDecisionPolicyFindingSchema policy = true) policies ->
  expected_disposition state mode policies = reject <->
  state = state_current /\ mode = enforce /\ exists policy, policy ∈ mandatory_findings policies /\ policy_violated policy.
Proof.
  intros Hall. unfold expected_disposition.
  destruct (decide (state = state_current)) as [->|Hs]; [|rewrite bool_decide_eq_false_2 by done; naive_solver].
  destruct mode; [simpl; naive_solver|]. simpl.
  assert (Hv : existsb policy_rejected (mandatory_findings policies) = true <->
    exists policy, policy ∈ mandatory_findings policies /\ policy_violated policy).
  { rewrite existsb_exists. setoid_rewrite <- list_elem_of_In. rewrite Forall_forall in Hall.
    split; intros (policy & Hp & Hx); exists policy; (split; [done|]);
      apply list_elem_of_filter in Hp as [_ Hp]; by apply (policy_violated_iff policy (Hall policy Hp)). }
  rewrite <- Hv. repeat case_match; naive_solver.
Qed.

(** C9. A disposition is derived exactly from a complete inventory, and any
    other fails with the inventory error.  The release proceeds exactly when the
    selection is current, the request enforces and each mandatory policy it
    planned was evaluated with all its rules satisfied; and it is rejected
    exactly when one of them has a violated rule that cannot be waived. *)
Theorem release_proceeds_exactly request state policies :
  (deriveReleaseDisposition request state policies = Throw InvalidReleaseDecisionInventoryError \/
   exists disposition, deriveReleaseDisposition request state policies = Ok disposition) /\
  (is_ok (deriveReleaseDisposition request state policies) = true <-> complete_inventory request policies) /\
  (deriveReleaseDisposition request state policies = Ok proceed <->
   complete_inventory request policies /\ state = state_current /\ input_mode request = enforce /\
   forall policy, answers_mandatory request policies policy -> policy_satisfied policy) /\
  (deriveReleaseDisposition request state policies = Ok reject <->
   complete_inventory request policies /\ state = state_current /\ input_mode request = enforce /\
   exists policy, answers_mandatory request policies policy /\ policy_violated policy).
Proof.
  split_and!.
  - destruct (deriveReleaseDisposition request state policies) as [d|e] eqn:E; [right; by exists d|left].
    unfold deriveReleaseDisposition in E. repeat (apply bind_Throw in E as [E|(? & _ & E)];
      [apply reject_when_Throw in E as [_ ->]; done|]). repeat case_match; done.
  - rewrite is_ok_true. split; [by intros (d & [? _]%disposition_Ok)|].
    intros Hc. eexists. by apply disposition_Ok.
  - rewrite disposition_Ok. split; intros [Hc Hx]; (split; [done|]).
    + symmetry in Hx. apply expected_proceed in Hx as (? & ? & Hx). split_and!; [done..|].
      intros policy. rewrite <- mandatory_answers by done. apply Hx.
    + symmetry. apply expected_proceed. destruct Hx as (? & ? & Hx). split_and!; [done..|].
      intros policy. rewrite mandatory_answers by done. apply Hx.
  - rewrite disposition_Ok. split; intros [Hc Hx]; (split; [done|]); pose proof (inventory_findings _ _ Hc) as Hall.
    + symmetry in Hx. apply expected_reject in Hx as (? & ? & policy & Hp & Hx); [|done]. split_and!; [done..|].
      exists policy. by rewrite <- mandatory_answers.
    + symmetry. apply expected_reject; [done|]. destruct Hx as (? & ? & policy & Hp & Hx). split_and!; [done..|].
      exists policy. by rewrite mandatory_answers.
Qed.

(** ** The decision made of it *)

Lemma matches_plan_fields policy planned :
  matches_plan policy planned = true ->
  policyRef_policyId (finding_policy policy) = planned_policyId planned /\
  requestRef_evaluationRequestId (finding_request policy) = planned_requestId planned /\
  finding_mode policy = planned_mode planned.
Proof. unfold matches_plan. rewrite !andb_true_iff, !bool_decide_eq_true. tauto. Qed.

Lemma planned_mandatory policies evaluations :
  Forall2 (fun policy planned => matches_plan policy planned = true) policies evaluations ->
  existsb (fun planned => planned_mode planned === mandatory_mode) evaluations =
    negb (length (mandatory_findings policies) =? 0)%nat.
Proof.
  unfold mandatory_findings. induction 1 as [|policy planned policies evaluations Hm _ IH]; [done|].
  rewrite filter_cons. simpl. rewrite IH. apply matches_plan_fields in Hm as (_ & _ & ->). by case_decide as E; rewrite ?E;
    [|rewrite (bool_decide_eq_false_2 _ E)].
Qed.

(** The refinement of a decision made of a complete inventory. *)
Lemma refine_derived request state policies disposition decision :
  deriveReleaseDisposition request state policies = Ok disposition ->
  decision_policies decision = policies -> decision_mode decision = input_mode request ->
  decision_selectionState decision = state ->
  refineReleaseDecisionDefinition decision =
    negb (time (decision_decidedAt decision) <? time (publisher_authenticatedAt (decision_publisher decision))) &&
    valid_interval (decision_decidedAt decision) (decision_expiresAt decision) &&
    (decision_disposition decision === disposition).
Proof.
  intros [Hc ->]%disposition_Ok <- Hmode <-. unfold refineReleaseDecisionDefinition.
  pose proof (inventory_plan _ _ Hc) as Hplan. pose proof (inventory_request _ _ Hc) as Hr.
  unfold ReleaseDecisionInputDefinitionSchema in Hr. rewrite !andb_true_iff in Hr.
  destruct Hr as [[[[[_ Hlimits] _] _] Hrefine] _].
  unfold ReleaseDecisionVerificationLimitsSchema, boundedInteger in Hlimits.
  unfold refineReleaseDecisionInputDefinition in Hrefine. rewrite !andb_true_iff, !bool_decide_eq_true in Hrefine.
  destruct Hrefine as [[[[_ Hm] Hsorted] Hrequests] _]. breflect.
  rewrite <- (Forall2_fmap_eq _ _ _ _ _ (fun x y h => proj1 (matches_plan_fields x y h)) Hplan) in Hsorted.
  rewrite <- (Forall2_fmap_eq _ _ _ _ _ (fun x y h => proj1 (proj2 (matches_plan_fields x y h))) Hplan) in Hrequests.
  rewrite Hsorted, Hmode, Hm, Hrequests, (planned_mandatory _ _ Hplan), bool_decide_eq_true_2 by done.
  rewrite !(proj2 (distinct_true _)) by apply Hc.
  rewrite (proj2 (Z.ltb_ge MAX_RELEASE_DECISION_APPROVAL_READS _)).
  - by rewrite !andb_true_r.
  - pose proof (inventory_supports_bound _ _ Hc). lia.
Qed.

(** The fields a decision adds to its findings, mode and selection state. *)
Definition own_fields_valid (decision : ReleaseDecisionDefinition) : bool :=
  OpaqueIdSchema (decision_decisionId decision) && EvidenceScopeSchema (decision_scope decision) &&
  DigestReferenceSchema (decision_input decision) && ReleaseCandidateReferenceSchema (decision_candidate decision) &&
  ReleasePolicySelectionReferenceSchema (decision_selection decision) &&
  DigestReferenceSchema (decision_authoritySnapshot decision) &&
  ReleaseDecisionPublisherReceiptSchema (decision_publisher decision) &&
  PolicyEvaluationTimeSchema (decision_decidedAt decision) && PolicyEvaluationTimeSchema (decision_expiresAt decision) &&
  AssuranceRationaleSchema (decision_rationale decision).

(** C23. A decision made of a complete inventory, under the mode of its request
    and the state of its selection, is accepted by the whole decision contract
    exactly when its disposition is the derived one, its other fields satisfy
    their schemas, its publisher was authenticated no later than it was decided,
    it is valid for a positive time of at most an hour, and its canonical
    encoding stays within the byte ceiling: no other check of the contract, which
    recomputes the disposition from the findings, can refuse it. *)
Theorem derived_disposition_accepted request state policies disposition decision :
  deriveReleaseDisposition request state policies = Ok disposition ->
  decision_policies decision = policies -> decision_mode decision = input_mode request ->
  decision_selectionState decision = state ->
  ReleaseDecisionDefinitionSchema decision = true <->
    decision_disposition decision = disposition /\ own_fields_valid decision = true /\
    time (publisher_authenticatedAt (decision_publisher decision)) <= time (decision_decidedAt decision) /\
    valid_interval (decision_decidedAt decision) (decision_expiresAt decision) = true /\
    exists bytes, encodeEvaluationCanonicalJson (decision_definition_json decision) = Ok bytes /\
      Z.of_nat (length bytes) <= MAX_RELEASE_DECISION_DEFINITION_BYTES.
Proof.
  intros Hd Hp Hmode Hstate. pose proof (refine_derived _ _ _ _ _ Hd Hp Hmode Hstate) as Hrefine.
  apply disposition_Ok in Hd as [Hc _].
  assert (Hfindings : forallb ReleaseDecisionPolicyFindingSchema (decision_policies decision) = true)
    by (rewrite Hp, forallb_Forall; apply Hc).
  assert (Hsized : sized 0 MAX_RELEASE_POLICY_SELECTION_POLICIES (decision_policies decision) = true).
  { pose proof (inventory_request _ _ Hc) as Hr. unfold ReleaseDecisionInputDefinitionSchema in Hr.
    rewrite !andb_true_iff in Hr. destruct Hr as [[[_ Hs] _] _]. rewrite Hp.
    pose proof (Forall2_length _ _ _ (inventory_plan _ _ Hc)) as Hlen. unfold sized in *. by rewrite Hlen. }
  unfold ReleaseDecisionDefinitionSchema. fold (own_fields_valid decision).
  rewrite Hfindings, Hsized, Hrefine, !andb_true_r. unfold encoded_within.
  destruct (encodeEvaluationCanonicalJson _) as [bytes|error]; breflect; [|naive_solver].
  split; [intros [[? [[? ?] ?]] ?]; split_and!; try done; by exists bytes|].
  intros (? & ? & ? & ? & bytes' & [= <-] & ?). tauto.
Qed.
End dispositions.
