(* ===== verification/DefinitionEncoders.v ===== *)
(** * The encoders of definitions

    The functions that produce the bytes a definition is hashed from, for
    policy-evaluation requests and jobs and for release decisions and their
    inputs.  Each parses its definition and the scope, and encodes both with the
    name of the definition's domain, of the encoding and of the schema version.
    The encoders of evaluation definitions, of which
    [packages/contracts/src/evaluation-definition-encoding.ts] has 33, parse with
    schemas this development does not have, and are left out. *)

From S2P Require Import Prelude Errors BigInts Primitives ExactArithmetic PolicyTime ReplayPlan.
From S2P Require Import PolicyEvaluationJob PolicyJobHistory ComparisonContracts.
From S2P Require Import ReleasePolicyRules CanonicalJson PolicyRuleResult.
From S2P Require Import ReleaseDecisionContracts ReleaseDecisionEncoding.
#[local] Open Scope Z_scope.

(** ** Requests, jobs, decision inputs and decisions *)

(** The immutable part of a policy-evaluation job. *)
Record PolicyEvaluationJobDefinition := {
  jobDefinition_jobId : string;
  jobDefinition_request : PolicyEvaluationRequestReference;
}.

Definition PolicyEvaluationJobDefinitionSchema (value : PolicyEvaluationJobDefinition) : bool :=
  OpaqueIdSchema (jobDefinition_jobId value) && PolicyEvaluationRequestReferenceSchema (jobDefinition_request value).

Definition job_definition_json (value : PolicyEvaluationJobDefinition) : Json :=
  JObject [ascii_member "jobId" (jobDefinition_jobId value);
           member "request" (request_json (jobDefinition_request value))].

(** The object that is encoded for a definition. *)
Definition envelope (definitionDomain encodingVersion schemaVersion : string) (scope : EvidenceScope)
    (definition : Json) : Json :=
  JObject [member "definition" definition;
           ascii_member "definitionDomain" definitionDomain;
           ascii_member "encodingVersion" encodingVersion;
           ascii_member "schemaVersion" schemaVersion;
           member "scope" (scope_json scope)].

Section encoders.
Context `{UnicodeNormalization} `{NativeTextEncoder}.

Definition encodePolicyEvaluationRequestDefinition (scope : EvidenceScope)
    (definition : PolicyEvaluationRequestDefinition) : res (list Z) :=
  scope ← parse EvidenceScopeSchema scope;
  definition ← parse PolicyEvaluationRequestDefinitionSchema definition;
  encodeEvaluationCanonicalJson
    (envelope "proofstack.policy-evaluation-request.v1" "proofstack.policy-evaluation-request-definition-jcs.v1"
       "0.1" scope (request_definition_json definition)).

Definition encodePolicyEvaluationJobDefinition (scope : EvidenceScope)
    (definition : PolicyEvaluationJobDefinition) : res (list Z) :=
  scope ← parse EvidenceScopeSchema scope;
  definition ← parse PolicyEvaluationJobDefinitionSchema definition;
  encodeEvaluationCanonicalJson
    (envelope "proofstack.policy-evaluation-job.v1" "proofstack.policy-evaluation-job-definition-jcs.v1"
       "0.1" scope (job_definition_json definition)).

(** The scope must be the one the definition carries. *)
Definition encodeReleaseDecisionInputDefinition (scope : EvidenceScope)
    (definition : ReleaseDecisionInputDefinition) : res (list Z) :=
  scope ← parse EvidenceScopeSchema scope;
  definition ← parse ReleaseDecisionInputDefinitionSchema definition;
  scope ← parse (sameScope (input_scope definition)) scope;
  encodeEvaluationCanonicalJson
    (envelope "proofstack.release-decision-input.v1" "proofstack.release-decision-input-definition-jcs.v1"
       "0.1" scope (input_definition_json definition)).

Definition encodeReleaseDecisionDefinition (scope : EvidenceScope)
    (definition : ReleaseDecisionDefinition) : res (list Z) :=
  scope ← parse EvidenceScopeSchema scope;
  definition ← parse ReleaseDecisionDefinitionSchema definition;
  scope ← parse (sameScope (decision_scope definition)) scope;
  encodeEvaluationCanonicalJson
    (envelope "proofstack.release-decision.v1" "proofstack.release-decision-definition-jcs.v1"
       "0.1" scope (decision_definition_json definition)).

(** ** A definition of any of the four kinds *)

Inductive ScopedDefinition : Type :=
| scoped_request (scope : EvidenceScope) (definition : PolicyEvaluationRequestDefinition)
| scoped_job (scope : EvidenceScope) (definition : PolicyEvaluationJobDefinition)
| scoped_decision_input (scope : EvidenceScope) (definition : ReleaseDecisionInputDefinition)
| scoped_decision (scope : EvidenceScope) (definition : ReleaseDecisionDefinition).

Definition encodeScoped (value : ScopedDefinition) : res (list Z) :=
  match value with
  | scoped_request scope definition => encodePolicyEvaluationRequestDefinition scope definition
  | scoped_job scope definition => encodePolicyEvaluationJobDefinition scope definition
  | scoped_decision_input scope definition => encodeReleaseDecisionInputDefinition scope definition
  | scoped_decision scope definition => encodeReleaseDecisionDefinition scope definition
  end.
End encoders.
