(* ===== verification/DefinitionIdentity.v ===== *)
(** * What the digest of a request or a decision covers

    The encoded text of a policy-evaluation request, of a decision input and of
    a decision determines every field of it.  An encoding identifies the values
    it is given when two of them with one normal form are the same (the class
    [Identified]); an instant is determined by its text. *)

From S2P Require Import Prelude Errors BigInts Primitives PolicyTime PolicyEvaluationJob.
From S2P Require Import PolicyJobHistory ExactArithmetic ReplayPlan ComparisonContracts.
From S2P Require Import CanonicalJson CanonicalJsonProofs ReleasePolicyRules PolicyRuleResult.
From S2P Require Import ReleaseDecisionContracts ReleaseDecisionEncoding DefinitionEncoders.
#[local] Open Scope Z_scope.

(** ** Dates *)

(** The year of the era, counted from March, and the day of that year. *)
Definition year_of_era (dayOfEra : Z) : Z :=
  (dayOfEra - dayOfEra / 1460 + dayOfEra / 36524 - dayOfEra / 146096) / 365.
Definition day_of_year (dayOfEra : Z) : Z :=
  let year := year_of_era dayOfEra in dayOfEra - (365 * year + year / 4 - year / 100).

Lemma year_of_era_bound day : 0 <= day < 146097 -> 0 <= year_of_era day < 400.
Proof. unfold year_of_era. intros H. Z.to_euclidean_division_equations. lia. Qed.

Lemma day_of_year_bound day : 0 <= day < 146097 -> 0 <= day_of_year day <= 365.
Proof. unfold day_of_year, year_of_era. intros H. cbv zeta. Z.to_euclidean_division_equations. lia. Qed.

(** The month counted from March and the day of it. *)
Definition month_day (dayOfYear : Z) : Z * Z :=
  let shiftedMonth := (5 * dayOfYear + 2) / 153 in
  (if shiftedMonth <? 10 then shiftedMonth + 3 else shiftedMonth - 9,
   dayOfYear - (153 * shiftedMonth + 2) / 5 + 1).

Lemma month_day_bound d : 0 <= d <= 365 -> 1 <= (month_day d).1 <= 12 /\ 1 <= (month_day d).2 <= 31.
Proof.
  intros H. unfold month_day. cbv zeta. cbn [fst snd].
  destruct (Z.ltb_spec ((5 * d + 2) / 153) 10); Z.to_euclidean_division_equations; lia.
Qed.

Lemma month_day_inj d d' : 0 <= d <= 365 -> 0 <= d' <= 365 -> month_day d = month_day d' -> d = d'.
Proof.
  intros H H'. unfold month_day. cbv zeta. intros [= Em Ed].
  assert (E : (5 * d + 2) / 153 = (5 * d' + 2) / 153).
  { destruct (Z.ltb_spec ((5 * d + 2) / 153) 10), (Z.ltb_spec ((5 * d' + 2) / 153) 10);
      Z.to_euclidean_division_equations; lia. }
  rewrite E in Ed. lia.
Qed.

Lemma civil_date_eq day :
  let era := (day + 719468) / 146097 in
  let dayOfEra := (day + 719468) mod 146097 in
  let '(month, dayOfMonth) := month_day (day_of_year dayOfEra) in
  civil_date day = (year_of_era dayOfEra + era * 400 + (if month <=? 2 then 1 else 0), month, dayOfMonth).
Proof. reflexivity. Qed.

Lemma civil_date_inj day day' : civil_date day = civil_date day' -> day = day'.
Proof.
  pose proof (civil_date_eq day) as E. pose proof (civil_date_eq day') as E'. cbv zeta in E, E'.
  set (era := (day + 719468) / 146097) in *. set (doe := (day + 719468) mod 146097) in *.
  set (era' := (day' + 719468) / 146097) in *. set (doe' := (day' + 719468) mod 146097) in *.
  assert (Hd : 0 <= doe < 146097) by (apply Z.mod_pos_bound; lia).
  assert (Hd' : 0 <= doe' < 146097) by (apply Z.mod_pos_bound; lia).
  pose proof (month_day_inj _ _ (day_of_year_bound _ Hd) (day_of_year_bound _ Hd')) as Hinj.
  pose proof (year_of_era_bound _ Hd). pose proof (year_of_era_bound _ Hd').
  destruct (month_day (day_of_year doe)) as [m d], (month_day (day_of_year doe')) as [m' d'].
  rewrite E, E'. intros [= Ey -> ->]. specialize (Hinj eq_refl).
  assert (Hy : year_of_era doe = year_of_era doe') by lia. assert (He : era = era') by lia.
  unfold day_of_year in Hinj. cbv zeta in Hinj. rewrite Hy in Hinj.
  pose proof (Z.div_mod (day + 719468) 146097 ltac:(lia)). pose proof (Z.div_mod (day' + 719468) 146097 ltac:(lia)). lia.
Qed.

(** January and February come last in a year counted from March. *)
Lemma early_month d : 0 <= d <= 365 -> (month_day d).1 <= 2 -> 306 <= d.
Proof.
  intros H. unfold month_day. cbv zeta. cbn [fst].
  destruct (Z.ltb_spec ((5 * d + 2) / 153) 10); Z.to_euclidean_division_equations; lia.
Qed.

(** Of the seconds the contract admits, every part of the date has its width. *)
Lemma civil_date_width day year month dayOfMonth :
  MIN_WHOLE_SECONDS / 86400 <= day <= MAX_WHOLE_SECONDS / 86400 -> civil_date day = (year, month, dayOfMonth) ->
  0 <= year < 10000 /\ 0 <= month < 100 /\ 0 <= dayOfMonth < 100.
Proof.
  change (MIN_WHOLE_SECONDS / 86400) with (-719162). change (MAX_WHOLE_SECONDS / 86400) with 2932896.
  intros Hb E. pose proof (civil_date_eq day) as Ed. cbv zeta in Ed.
  set (doe := (day + 719468) mod 146097) in *. set (era := (day + 719468) / 146097) in *.
  assert (Hdiv : day + 719468 = 146097 * era + doe) by (apply Z.div_mod; lia).
  assert (Hd : 0 <= doe < 146097) by (apply Z.mod_pos_bound; lia).
  pose proof (year_of_era_bound _ Hd) as Hy. pose proof (day_of_year_bound _ Hd) as Hdoy.
  pose proof (month_day_bound _ Hdoy) as Hm. pose proof (early_month _ Hdoy) as He.
  assert (Hera : 0 <= era <= 24) by lia.
  assert (Hlast : era = 24 -> year_of_era doe = 399 -> day_of_year doe <= 305).
  { intros -> Hl. unfold day_of_year. cbv zeta. rewrite Hl. change (399 / 4) with 99. change (399 / 100) with 3. lia. }
  destruct (month_day _) as [m d]. cbn [fst snd] in *. rewrite E in Ed. injection Ed as -> -> ->.
  destruct (Z.leb_spec m 2); lia.
Qed.

(** ** Texts *)

Lemma length_digits_text l : length (digits_text l) = length l.
Proof. apply length_fmap. Qed.

(** Padded numbers followed by anything. *)
Lemma digits_app_inj n x y rest rest' :
  0 <= x < 10 ^ Z.of_nat n -> 0 <= y < 10 ^ Z.of_nat n ->
  digits_text (fixed_digits n x) ++ rest = digits_text (fixed_digits n y) ++ rest' -> x = y /\ rest = rest'.
Proof.
  intros Hx Hy E. apply app_inj_1 in E as [E ->]; [|by rewrite !length_digits_text, !length_fixed_digits].
  split; [|done]. apply digits_text_inj, (f_equal PolicyTime.decimal_value) in E. by rewrite !PolicyTime.decimal_value_fixed in E.
Qed.

Lemma fraction_text_inj digits digits' :
  match digits with [] => [] | z :: l => [46] ++ digits_text (z :: l) end ++ [90] =
  match digits' with [] => [] | z :: l => [46] ++ digits_text (z :: l) end ++ [90] -> digits = digits'.
Proof.
  destruct digits as [|d l], digits' as [|d' l']; intros E; try done.
  apply app_inj_tail in E as [E _]. apply (app_inv_head [46]) in E. by apply digits_text_inj.
Qed.

Lemma time_text_inj v w :
  PolicyEvaluationTimeSchema v = true -> PolicyEvaluationTimeSchema w = true -> time_text v = time_text w -> v = w.
Proof.
  assert (Hb : forall v, PolicyEvaluationTimeSchema v = true ->
    MIN_WHOLE_SECONDS / 86400 <= wholeSeconds v / 86400 <= MAX_WHOLE_SECONDS / 86400).
  { intros x Hx. unfold PolicyEvaluationTimeSchema in Hx. breflect.
    split; apply Z.div_le_mono; lia. }
  intros Hv%Hb Hw%Hb. unfold time_text. 
  destruct (civil_date (wholeSeconds v / 86400)) as [[y m] d] eqn:Ev.
  destruct (civil_date (wholeSeconds w / 86400)) as [[y' m'] d'] eqn:Ew.
  pose proof (civil_date_width _ _ _ _ Hv Ev) as (? & ? & ?). pose proof (civil_date_width _ _ _ _ Hw Ew) as (? & ? & ?).
  pose proof (Z.mod_pos_bound (wholeSeconds v) 86400 ltac:(lia)). pose proof (Z.mod_pos_bound (wholeSeconds w) 86400 ltac:(lia)).
  set (s := wholeSeconds v mod 86400) in *. set (s' := wholeSeconds w mod 86400) in *.
  assert (0 <= s / 3600 < 100 /\ 0 <= s / 60 mod 60 < 100 /\ 0 <= s mod 60 < 100 /\
          0 <= s' / 3600 < 100 /\ 0 <= s' / 60 mod 60 < 100 /\ 0 <= s' mod 60 < 100) by
    (Z.to_euclidean_division_equations; lia).
  intros E. apply digits_app_inj in E as [-> E]; [|simpl; lia..]. apply (app_inv_head [45]) in E.
  apply digits_app_inj in E as [-> E]; [|simpl; lia..]. apply (app_inv_head [45]) in E.
  apply digits_app_inj in E as [-> E]; [|simpl; lia..]. apply (app_inv_head [84]) in E.
  apply digits_app_inj in E as [Eh E]; [|simpl; lia..]. apply (app_inv_head [58]) in E.
  apply digits_app_inj in E as [Em E]; [|simpl; lia..]. apply (app_inv_head [58]) in E.
  apply digits_app_inj in E as [Es E]; [|simpl; lia..]. apply fraction_text_inj in E.
  rewrite <- Ew in Ev. apply civil_date_inj in Ev.
  destruct v as [sv fv], w as [sw fw]. cbn [wholeSeconds fractionDigits] in *. f_equal; [|done].
  subst s s'. Z.to_euclidean_division_equations. lia.
Qed.

(** * Records that their encoded text identifies

    An encoding identifies the values it is given when two of them with one
    normal form are the same.  Objects whose members have the same distinct
    keys agree member by member. *)

Class Identified {A} (encode : A -> Json) (valid : A -> Prop) : Prop :=
  identified a b : valid a -> valid b -> canonical (encode a) = canonical (encode b) -> a = b.

(** ** Objects *)

Definition normal_members (members : list (text * Json)) : list (text * Json) :=
  (fun member => (member.1, canonical member.2)) <$> members.

Lemma normal_keys members : (normal_members members).*1 = members.*1.
Proof. unfold normal_members. by rewrite <- list_fmap_compose. Qed.

Lemma canonical_members_perm members members' :
  canonical (JObject members) = canonical (JObject members') -> normal_members members ≡ₚ normal_members members'.
Proof.
  intros E. injection E as E. rewrite <- (sort_members_perm (normal_members members)).
  unfold normal_members. rewrite E. apply sort_members_perm.
Qed.

Lemma canonical_keys members members' :
  canonical (JObject members) = canonical (JObject members') -> members.*1 ≡ₚ members'.*1.
Proof. intros E%canonical_members_perm. rewrite <- (normal_keys members), <- (normal_keys members'). by rewrite E. Qed.

Lemma canonical_has_key key members members' :
  canonical (JObject members) = canonical (JObject members') ->
  includes members.*1 key = includes members'.*1 key.
Proof. intros E%canonical_keys. apply eq_true_iff_eq. by rewrite !includes_true, E. Qed.

(** A member that both objects have, wherever it stands. *)
Lemma canonical_member members members' i j key value value' :
  NoDup members'.*1 -> canonical (JObject members) = canonical (JObject members') ->
  members !! i = Some (key, value) -> members' !! j = Some (key, value') -> canonical value = canonical value'.
Proof.
  intros Hnd E%canonical_members_perm Hi Hj.
  assert (H1 : (key, canonical value) ∈ normal_members members').
  { rewrite <- E. apply (list_elem_of_lookup_2 _ i). unfold normal_members. by rewrite list_lookup_fmap, Hi. }
  assert (H2 : (key, canonical value') ∈ normal_members members').
  { apply (list_elem_of_lookup_2 _ j). unfold normal_members. by rewrite list_lookup_fmap, Hj. }
  assert (Hk : NoDup (fst <$> normal_members members')) by (by rewrite normal_keys).
  by pose proof (key_unique fst _ _ _ Hk H1 H2 eq_refl) as [= ->].
Qed.

Lemma canonical_fields members members' :
  members.*1 = members'.*1 -> NoDup members.*1 -> canonical (JObject members) = canonical (JObject members') ->
  Forall2 (fun m m' => canonical m.2 = canonical m'.2) members members'.
Proof.
  intros Hk Hnd E. apply Forall2_same_length_lookup.
  split; [by rewrite <- (length_fmap fst members), Hk, length_fmap|].
  intros i [key value] [key' value'] Hi Hj. simpl.
  assert (key = key') as <-.
  { apply (f_equal (fun keys => keys !! i)) in Hk. rewrite !list_lookup_fmap, Hi, Hj in Hk. by injection Hk. }
  apply (canonical_member members members' i i key); [by rewrite <- Hk|done..].
Qed.

(** ** Leaves and lists *)

#[global] Instance identified_list {A} (encode : A -> Json) valid :
  Identified encode valid -> Identified (fun l => JArray (encode <$> l)) (Forall valid).
Proof.
  intros He l k Hl Hk E. cbn [canonical] in E. injection E as E. revert k Hk E.
  induction Hl as [|x l Hx Hl IH]; intros [|y k] Hk E; try discriminate E; [done|].
  apply Forall_cons in Hk as [Hy Hk]. csimpl in E. injection E as E Er.
  f_equal; [by apply He|by apply IH].
Qed.

(** Keys that are written out are told apart by computation. *)
Ltac distinct_keys := match goal with |- NoDup ?keys =>
  apply (bool_decide_eq_true_1 (NoDup keys)); vm_compute; reflexivity end.

(** Names of different constructors differ. *)
Ltac distinct_names := intros [] []; first [reflexivity | discriminate].

Lemma JNumber_inj v w : JNumber v = JNumber w -> v = w.
Proof. by intros [= ->]. Qed.

Lemma integer_identified v w :
  canonical (JNumber (integer_number v)) = canonical (JNumber (integer_number w)) -> v = w.
Proof. cbn [canonical]. rewrite !integer_number_plain. by intros E%JNumber_inj%integer_number_inj. Qed.

Lemma JString_inj t t' : JString t = JString t' -> t = t'.
Proof. by intros [= ->]. Qed.

(** The leaves of an equation between encoded records. *)
Ltac equal_leaves :=
  repeat match goal with
  | H : canonical (JString _) = canonical (JString _) |- _ => cbn [canonical] in H
  | H : canonical (JNumber _) = canonical (JNumber _) |- _ => apply integer_identified in H
  | H : canonical (JBool _) = canonical (JBool _) |- _ => cbn [canonical] in H
  | H : JString _ = JString _ |- _ => apply JString_inj in H
  | H : text_of _ = text_of _ |- _ => apply text_of_inj in H
  | H : JBool _ = JBool _ |- _ => injection H as H
  end.

(** The members of an equation between objects of one shape. *)
Ltac equal_members H :=
  apply canonical_fields in H; [|reflexivity|distinct_keys];
  repeat (let E := fresh "E" in apply Forall2_cons in H as [E H];
          cbn [snd fst member ascii_member number_member text_member time_member] in E);
  clear H.

(** ** Names *)

#[local] Instance retryable_inj : Inj (=) (=) policy_retryable_name.
Proof. distinct_names. Qed.
#[local] Instance mode_inj : Inj (=) (=) mode_name.
Proof. distinct_names. Qed.
#[local] Instance decision_mode_inj : Inj (=) (=) decision_mode_name.
Proof. distinct_names. Qed.
#[local] Instance predicate_kind_inj : Inj (=) (=) predicate_kind_name.
Proof. distinct_names. Qed.
#[local] Instance outcome_inj : Inj (=) (=) outcome_name.
Proof. distinct_names. Qed.
#[local] Instance status_inj : Inj (=) (=) status_name.
Proof. distinct_names. Qed.
#[local] Instance rule_reason_inj : Inj (=) (=) rule_reason_name.
Proof. distinct_names. Qed.
#[local] Instance policy_unavailable_inj : Inj (=) (=) policy_unavailable_name.
Proof. distinct_names. Qed.
#[local] Instance job_status_inj : Inj (=) (=) job_status_name.
Proof. distinct_names. Qed.
#[local] Instance disposition_inj : Inj (=) (=) disposition_name.
Proof. distinct_names. Qed.
#[local] Instance selection_state_inj : Inj (=) (=) selection_state_name.
Proof. distinct_names. Qed.

(** ** References *)

Abbreviation anything := (fun _ => True).

Ltac same_record x y :=
  intros _ _ E; equal_members E; equal_leaves; destruct x, y; simpl in *; by subst.

#[local] Instance scope_identified : Identified scope_json anything.
Proof. intros x y. same_record x y. Qed.
#[local] Instance candidate_identified : Identified candidate_json anything.
Proof. intros x y. same_record x y. Qed.
#[local] Instance policy_identified : Identified policy_json anything.
Proof. intros x y. same_record x y. Qed.
#[local] Instance selection_identified : Identified selection_json anything.
Proof. intros x y. same_record x y. Qed.
#[local] Instance request_identified : Identified request_json anything.
Proof. intros x y. same_record x y. Qed.
#[local] Instance job_identified : Identified job_json anything.
Proof. intros x y. same_record x y. Qed.
#[local] Instance snapshot_identified : Identified snapshot_json anything.
Proof. intros x y. same_record x y. Qed.
#[local] Instance evaluation_identified : Identified evaluation_json anything.
Proof. intros x y. same_record x y. Qed.

#[local] Instance approval_identified : Identified (digest_json "approvalId") anything.
Proof. intros x y. same_record x y. Qed.
#[local] Instance decision_input_identified : Identified (digest_json "decisionInputRequestId") anything.
Proof. intros x y. same_record x y. Qed.
#[local] Instance authority_identified : Identified (digest_json "authoritySnapshotId") anything.
Proof. intros x y. same_record x y. Qed.

(** A list of values none of which needs a condition. *)
Lemma anything_holds {A} (l : list A) : Forall anything l.
Proof. by apply Forall_true. Qed.

(** Turns the equations that are left into equations between fields. *)
Ltac equal_fields :=
  equal_leaves;
  repeat match goal with
  | H : canonical (scope_json _) = _ |- _ => apply scope_identified in H; [|exact I..]
  | H : canonical (candidate_json _) = _ |- _ => apply candidate_identified in H; [|exact I..]
  | H : canonical (policy_json _) = _ |- _ => apply policy_identified in H; [|exact I..]
  | H : canonical (selection_json _) = _ |- _ => apply selection_identified in H; [|exact I..]
  | H : canonical (request_json _) = _ |- _ => apply request_identified in H; [|exact I..]
  | H : canonical (job_json _) = _ |- _ => apply job_identified in H; [|exact I..]
  | H : canonical (snapshot_json _) = _ |- _ => apply snapshot_identified in H; [|exact I..]
  | H : canonical (evaluation_json _) = _ |- _ => apply evaluation_identified in H; [|exact I..]
  | H : time_text _ = time_text _ |- _ => apply time_text_inj in H; [|assumption..]
  | H : ?name ?x = ?name ?y :> string |- _ => apply (inj name) in H
  end.

#[local] Instance retryable_identified :
  Identified (fun e => JString (text_of (policy_retryable_name e))) anything.
Proof. intros x y _ _ E. equal_leaves. by apply (inj _) in E. Qed.

#[local] Instance limits_identified : Identified limits_json anything.
Proof.
  intros x y _ _ E. equal_members E. equal_leaves.
  apply (identified_list _ _ retryable_identified) in E9; [|apply anything_holds..].
  destruct x, y; simpl in *; by subst.
Qed.

#[local] Instance request_definition_identified :
  Identified request_definition_json (fun value => PolicyEvaluationRequestDefinitionSchema value = true).
Proof.
  intros x y Hx Hy E. unfold PolicyEvaluationRequestDefinitionSchema in *. rewrite !andb_true_iff in *.
  destruct Hx as [[[_ Hx] _] _], Hy as [[[_ Hy] _] _]. 
  equal_members E. equal_fields. apply limits_identified in E4; [|exact I..].
  destruct x, y; simpl in *; by subst.
Qed.

#[local] Instance planned_identified :
  Identified planned_json (fun value => PlannedReleasePolicyEvaluationSchema value = true).
Proof.
  intros x y Hx Hy E. unfold PlannedReleasePolicyEvaluationSchema in *. rewrite !andb_true_iff in *.
  equal_members E. equal_fields. apply request_definition_identified in E1; [|tauto..].
  destruct x, y; simpl in *; by subst.
Qed.

#[local] Instance publisher_identified :
  Identified publisher_json (fun value => ReleaseDecisionPublisherReceiptSchema value = true).
Proof.
  intros x y Hx Hy E. unfold ReleaseDecisionPublisherReceiptSchema, UtcMillisecondTextSchema in *.
  rewrite !andb_true_iff in *. destruct Hx as [[[[[_ [Hx _]] _] _] _] _], Hy as [[[[[_ [Hy _]] _] _] _] _].
  unfold publisher_json in E. destruct x as [xi [] xt xc xr], y as [yi [] yt yc yr];
    cbn [publisher_principalType publisher_authenticatedAt] in *;
    equal_members E; equal_fields; simpl in *; subst; discriminate || done.
Qed.

(** ** Inputs and findings *)

#[local] Instance input_identified `{UnicodeNormalization} `{NativeTextEncoder} :
  Identified input_definition_json (fun value => ReleaseDecisionInputDefinitionSchema value = true).
Proof.
  intros x y Hx Hy E. unfold ReleaseDecisionInputDefinitionSchema in Hx, Hy. rewrite !andb_true_iff in Hx, Hy.
  rewrite forallb_Forall in Hx, Hy. destruct_and!.
  equal_members E. equal_fields. equal_members E9. equal_fields.
  match goal with Ep : canonical (publisher_json _) = _ |- _ => apply publisher_identified in Ep; [|assumption..] end.
  match goal with El : canonical (JArray _) = _ |- _ =>
    apply (identified_list _ _ planned_identified) in El; [|assumption..] end.
  destruct x as [xi xc xs xr xo xm xp xf xu [] xe], y as [yi yc ys yr yo ym yp yf yu [] ye]; simpl in *; by subst.
Qed.

#[local] Instance rule_finding_identified : Identified rule_finding_json anything.
Proof.
  intros x y _ _ E. equal_members E. equal_fields.
  apply (identified_list _ _ approval_identified) in E7; [|apply anything_holds..].
  destruct x, y; simpl in *; by subst.
Qed.

(** Two objects of which one has a member the other lacks. *)
Ltac different_keys E :=
  first [apply (canonical_has_key (text_of "job")) in E; vm_compute in E; discriminate E
        |apply (canonical_has_key (text_of "jobStatus")) in E; vm_compute in E; discriminate E
        |apply (canonical_has_key (text_of "snapshot")) in E; vm_compute in E; discriminate E].

#[local] Instance policy_finding_identified : Identified policy_finding_json anything.
Proof.
  intros [xp xr xm xs] [yp yr ym ys] _ _ E. unfold policy_finding_json in E.
  destruct xs as [xj xn xe xc xl|xw xj xt xn], ys as [yj yn ye yc yl|yw yj yt yn];
    cbn [finding_policy finding_request finding_mode finding_state app] in E.
  - equal_members E. equal_fields. apply (identified_list _ _ rule_finding_identified) in E8; [|apply anything_holds..].
    by subst.
  - apply (canonical_member _ _ 3 3 (text_of "state") (JString (text_of "evaluated")) (JString (text_of "unavailable")))
      in E; [discriminate E| |reflexivity|reflexivity]. destruct yj, yt, yn; cbn [optional_member app]; distinct_keys.
  - apply (canonical_member _ _ 3 3 (text_of "state") (JString (text_of "unavailable")) (JString (text_of "evaluated")))
      in E; [discriminate E|distinct_keys|reflexivity|reflexivity].
  - destruct xj, xt, xn, yj, yt, yn; cbn [optional_member app] in E; first [different_keys E | idtac];
      equal_members E; equal_fields; by subst.
Qed.

(** ** Jobs and decisions *)

#[local] Instance job_definition_identified : Identified job_definition_json anything.
Proof. intros x y _ _ E. equal_members E. equal_fields. destruct x, y; simpl in *; by subst. Qed.

#[local] Instance decision_identified `{UnicodeNormalization} `{NativeTextEncoder} :
  Identified decision_definition_json (fun value => ReleaseDecisionDefinitionSchema value = true).
Proof.
  intros x y Hx Hy E. unfold ReleaseDecisionDefinitionSchema in Hx, Hy. rewrite !andb_true_iff in Hx, Hy.
  destruct_and!. equal_members E. equal_fields.
  match goal with Ep : canonical (publisher_json _) = _ |- _ => apply publisher_identified in Ep; [|assumption..] end.
  match goal with Ei : canonical (digest_json "decisionInputRequestId" _) = _ |- _ =>
    apply decision_input_identified in Ei; [|exact I..] end.
  match goal with Ea : canonical (digest_json "authoritySnapshotId" _) = _ |- _ =>
    apply authority_identified in Ea; [|exact I..] end.
  match goal with El : canonical (JArray (policy_finding_json <$> _)) = _ |- _ =>
    apply (identified_list _ _ policy_finding_identified) in El; [|apply anything_holds..] end.
  destruct x, y; simpl in *; by subst.
Qed.
