(* ===== verification/DefinitionEncodingProofs.v ===== *)
(** * What the encoders of definitions promise

    An accepted definition is always encoded, and the bytes determine its kind,
    its scope and every field of it. *)

From S2P Require Import Prelude Errors BigInts Primitives ExactArithmetic PolicyTime ReplayPlan.
From S2P Require Import PolicyEvaluationJob PolicyJobHistory ComparisonContracts.
From S2P Require Import ReleasePolicyRules CanonicalJson CanonicalJsonProofs CanonicalIdentity.
From S2P Require Import PolicyRuleResult ReleaseDecisionContracts ReleaseDecisionEncoding.
From S2P Require Import DefinitionIdentity DefinitionEncoders.
#[local] Open Scope Z_scope.

(** ** Values the encoder takes *)

Definition encodable (levels : nat) (value : Json) : Prop :=
  well_formed value = true /\ admissible levels value = true.

Lemma encodable_text levels t : scalar_text t = true -> encodable (S levels) (JString t).
Proof. intros [Ht Hs]%scalar_text_iff. split; simpl; by rewrite ?Ht, ?Hs. Qed.

Lemma ascii_scalar s : scalar_text (text_of s) = true.
Proof. apply plain_scalar, plain_ascii. Qed.

Lemma encodable_ascii levels s : encodable (S levels) (JString (text_of s)).
Proof. apply encodable_text, ascii_scalar. Qed.
Lemma encodable_number levels n : encodable (S levels) (JNumber (integer_number n)).
Proof. split; [apply integer_number_ok|done]. Qed.
Lemma encodable_bool levels b : encodable (S levels) (JBool b).
Proof. done. Qed.

Lemma encodable_list {A} levels (encode : A -> Json) l :
  Forall (fun x => encodable levels (encode x)) l -> encodable (S levels) (JArray (encode <$> l)).
Proof.
  intros H. unfold encodable. simpl. rewrite !forallb_Forall, !Forall_fmap.
  by apply Forall_and, (Forall_impl _ _ _ H).
Qed.

Lemma object_encodable levels members :
  bool_decide (NoDup members.*1) = true ->
  Forall (fun member => scalar_text member.1 = true /\ encodable levels member.2) members ->
  encodable (S levels) (JObject members).
Proof.
  intros Hnd H. unfold encodable. cbn [well_formed admissible]. rewrite Hnd. simpl. rewrite !forallb_Forall.
  apply Forall_and, (Forall_impl _ _ _ H). intros m [[Hk Hs]%scalar_text_iff [Hw Ha]]. by rewrite Hk, Hs, Hw, Ha.
Qed.

Lemma time_text_plain v : PolicyEvaluationTimeSchema v = true -> plain_text (time_text v) = true.
Proof.
  unfold PolicyEvaluationTimeSchema. rewrite !andb_true_iff. intros [_ Hd]. unfold time_text.
  destruct (civil_date _) as [[year month] day].
  repeat (apply plain_app; [first [reflexivity | apply digits_plain, fixed_digits_valid | idtac]|]); [|done].
  destruct (fractionDigits v) as [|z l]; [done|]. apply plain_app; [done|]. by apply digits_plain.
Qed.

Lemma encodable_time levels v : PolicyEvaluationTimeSchema v = true -> encodable (S levels) (JString (time_text v)).
Proof. intros H%time_text_plain%plain_scalar. by apply encodable_text. Qed.

Lemma rationale_scalar `{UnicodeNormalization} t :
  is_text t = true -> AssuranceRationaleSchema t = true -> scalar_text t = true.
Proof.
  intros Ht Hr. apply scalar_text_iff. split; [done|]. unfold AssuranceRationaleSchema, boundedCanonicalText in Hr.
  apply andb_true_iff in Hr as [_ Hr]. unfold unicodeScalarLength in Hr.
  by destruct (existsb _ _) eqn:E in Hr.
Qed.

Create HintDb encodable.
#[local] Hint Resolve encodable_ascii encodable_number encodable_bool encodable_time : encodable.

Ltac encodable_members :=
  apply object_encodable; [reflexivity|];
  repeat (apply Forall_cons; split; [split; [by apply ascii_scalar|
    cbn [snd member ascii_member number_member text_member time_member]; try solve [auto 3 with encodable]]|]);
  try by apply Forall_nil.

(** ** Definitions *)

Lemma encodable_scope levels v : encodable (S (S levels)) (scope_json v).
Proof. encodable_members. Qed.
Lemma encodable_named levels key id digest :
  bool_decide (NoDup [text_of key; text_of "definitionSha256"]) = true ->
  encodable (S (S levels)) (named_digest_json key id digest).
Proof.
  intros Hk. apply object_encodable; [exact Hk|]. do 2 (apply Forall_cons; split;
    [split; [apply ascii_scalar|apply encodable_ascii]|]). by apply Forall_nil.
Qed.
Lemma encodable_candidate levels v : encodable (S (S levels)) (candidate_json v).
Proof. encodable_members. Qed.
Lemma encodable_policy levels v : encodable (S (S levels)) (policy_json v).
Proof. encodable_members. Qed.
Lemma encodable_selection levels v : encodable (S (S levels)) (selection_json v).
Proof. encodable_members. Qed.

Lemma encodable_request levels v : encodable (S (S levels)) (request_json v).
Proof. by apply encodable_named. Qed.
Lemma encodable_job levels v : encodable (S (S levels)) (job_json v).
Proof. by apply encodable_named. Qed.
Lemma encodable_snapshot levels v : encodable (S (S levels)) (snapshot_json v).
Proof. by apply encodable_named. Qed.
Lemma encodable_evaluation levels v : encodable (S (S levels)) (evaluation_json v).
Proof. by apply encodable_named. Qed.
Lemma encodable_digest levels key v :
  bool_decide (NoDup [text_of key; text_of "definitionSha256"]) = true -> encodable (S (S levels)) (digest_json key v).
Proof. apply encodable_named. Qed.

#[local] Hint Resolve encodable_scope encodable_candidate encodable_policy encodable_selection encodable_request
  encodable_job encodable_snapshot encodable_evaluation : encodable.
#[local] Hint Extern 1 (encodable _ (digest_json _ _)) => apply encodable_digest; reflexivity : encodable.

Lemma encodable_limits levels v : encodable (S (S (S levels))) (limits_json v).
Proof.
  encodable_members. apply encodable_list, Forall_true. intros e. apply encodable_ascii.
Qed.
#[local] Hint Resolve encodable_limits : encodable.

Lemma encodable_request_definition levels v :
  PolicyEvaluationRequestDefinitionSchema v = true -> encodable (S (S (S (S levels)))) (request_definition_json v).
Proof.
  unfold PolicyEvaluationRequestDefinitionSchema. rewrite !andb_true_iff. intros H. destruct_and!.
  encodable_members. encodable_members.
Qed.
#[local] Hint Resolve encodable_request_definition : encodable.

Lemma encodable_planned levels v :
  PlannedReleasePolicyEvaluationSchema v = true -> encodable (S (S (S (S (S levels))))) (planned_json v).
Proof.
  unfold PlannedReleasePolicyEvaluationSchema. rewrite !andb_true_iff. intros H. destruct_and!.
  encodable_members.
Qed.

Lemma encodable_publisher levels v :
  is_text (publisher_requestId v) = true -> ReleaseDecisionPublisherReceiptSchema v = true ->
  encodable (S (S levels)) (publisher_json v).
Proof.
  intros Ht. unfold ReleaseDecisionPublisherReceiptSchema, UtcMillisecondTextSchema.
  rewrite !andb_true_iff, negb_true_iff. intros H. destruct_and!. unfold publisher_json.
  destruct (publisher_principalType v); encodable_members; by apply encodable_text, scalar_text_iff.
Qed.
#[local] Hint Resolve encodable_publisher encodable_planned : encodable.

Lemma encodable_job_definition levels v : encodable (S (S (S levels))) (job_definition_json v).
Proof. encodable_members. Qed.

Lemma encodable_input `{UnicodeNormalization} `{NativeTextEncoder} levels v :
  is_text (input_rationale v) = true -> is_text (publisher_requestId (input_publisher v)) = true ->
  ReleaseDecisionInputDefinitionSchema v = true -> encodable (7 + levels) (input_definition_json v).
Proof.
  intros Hr Hp. unfold ReleaseDecisionInputDefinitionSchema. rewrite !andb_true_iff, forallb_Forall.
  intros Hv. destruct_and!. encodable_members.
  - by apply encodable_text, rationale_scalar.
  - encodable_members.
  - apply encodable_list. match goal with H : Forall _ (input_evaluations v) |- _ => apply (Forall_impl _ _ _ H) end.
    intros x. apply encodable_planned.
Qed.

Lemma encodable_rule_finding levels v : encodable (S (S (S (S levels)))) (rule_finding_json v).
Proof.
  encodable_members. apply encodable_list, Forall_true. intros x. by apply encodable_digest.
Qed.

Lemma encodable_policy_finding levels v : encodable (6 + levels) (policy_finding_json v).
Proof.
  unfold policy_finding_json. destruct (finding_state v) as [job snapshot evaluation count rules|reason job status snapshot].
  - encodable_members. apply encodable_list, Forall_true. intros x. apply encodable_rule_finding.
  - destruct job, status, snapshot; cbn [app optional_member]; encodable_members.
Qed.

Lemma encodable_decision `{UnicodeNormalization} `{NativeTextEncoder} levels v :
  is_text (decision_rationale v) = true -> is_text (publisher_requestId (decision_publisher v)) = true ->
  ReleaseDecisionDefinitionSchema v = true -> encodable (8 + levels) (decision_definition_json v).
Proof.
  intros Hr Hp. unfold ReleaseDecisionDefinitionSchema. rewrite !andb_true_iff.
  intros Hv. destruct_and!. encodable_members.
  - encodable_members.
  - by apply encodable_text, rationale_scalar.
  - apply encodable_list, Forall_true. intros x. apply encodable_policy_finding.
Qed.

(** ** Envelopes *)

Lemma encodable_envelope levels domain encoding version scope definition :
  (1 <= levels)%nat -> encodable (S levels) definition ->
  encodable (S (S levels)) (envelope domain encoding version scope definition).
Proof. intros Hl Hd. destruct levels as [|levels]; [lia|]. encodable_members. Qed.

(** The members of an envelope are already in the order of their keys. *)
Lemma canonical_envelope domain encoding version scope definition :
  canonical (envelope domain encoding version scope definition) =
  envelope domain encoding version scope (canonical definition).
Proof. by destruct scope. Qed.

Lemma envelope_inj domain domain' encoding encoding' version version' scope scope' definition definition' :
  canonical (envelope domain encoding version scope definition) =
    canonical (envelope domain' encoding' version' scope' definition') ->
  domain = domain' /\ scope = scope' /\ canonical definition = canonical definition'.
Proof.
  intros E. unfold envelope in E. equal_members E. equal_leaves.
  match goal with H : canonical (scope_json _) = _ |- _ => apply scope_identified in H; [|exact I..] end. done.
Qed.

Section encoding.
Context `{UnicodeNormalization} `{NativeTextEncoder}.

(** What the encoder of a kind is applied to. *)
Definition envelope_of (value : ScopedDefinition) : Json :=
  match value with
  | scoped_request scope definition =>
      envelope "proofstack.policy-evaluation-request.v1" "proofstack.policy-evaluation-request-definition-jcs.v1"
        "0.1" scope (request_definition_json definition)
  | scoped_job scope definition =>
      envelope "proofstack.policy-evaluation-job.v1" "proofstack.policy-evaluation-job-definition-jcs.v1"
        "0.1" scope (job_definition_json definition)
  | scoped_decision_input scope definition =>
      envelope "proofstack.release-decision-input.v1" "proofstack.release-decision-input-definition-jcs.v1"
        "0.1" scope (input_definition_json definition)
  | scoped_decision scope definition =>
      envelope "proofstack.release-decision.v1" "proofstack.release-decision-definition-jcs.v1"
        "0.1" scope (decision_definition_json definition)
  end.

(** Accepted by the schemas of its kind. *)
Definition accepted (value : ScopedDefinition) : bool :=
  match value with
  | scoped_request scope definition => EvidenceScopeSchema scope && PolicyEvaluationRequestDefinitionSchema definition
  | scoped_job scope definition => EvidenceScopeSchema scope && PolicyEvaluationJobDefinitionSchema definition
  | scoped_decision_input scope definition =>
      EvidenceScopeSchema scope && ReleaseDecisionInputDefinitionSchema definition &&
      sameScope (input_scope definition) scope
  | scoped_decision scope definition =>
      EvidenceScopeSchema scope && ReleaseDecisionDefinitionSchema definition &&
      sameScope (decision_scope definition) scope
  end.

(** Its texts are JavaScript strings. *)
Definition representable (value : ScopedDefinition) : bool :=
  match value with
  | scoped_request _ _ | scoped_job _ _ => true
  | scoped_decision_input _ definition =>
      is_text (input_rationale definition) && is_text (publisher_requestId (input_publisher definition))
  | scoped_decision _ definition =>
      is_text (decision_rationale definition) && is_text (publisher_requestId (decision_publisher definition))
  end.

Lemma encodeScoped_accepted v :
  encodeScoped v = if accepted v then encodeEvaluationCanonicalJson (envelope_of v) else Throw ZodError.
Proof.
  destruct v; simpl; unfold encodePolicyEvaluationRequestDefinition,
    encodePolicyEvaluationJobDefinition, encodeReleaseDecisionInputDefinition, encodeReleaseDecisionDefinition,
    parse, parse_with; destruct (EvidenceScopeSchema scope); simpl; try done.
  all: by repeat (case_match; simpl).
Qed.

Lemma envelope_encodable v :
  representable v = true -> accepted v = true -> encodable (S MAX_CANONICAL_NESTING_DEPTH) (envelope_of v).
Proof.
  intros Hr Hp. destruct v as [scope d|scope d|scope d|scope d];
    cbn [envelope_of accepted representable] in *; rewrite ?andb_true_iff in Hr; rewrite ?andb_true_iff in Hp;
    apply (encodable_envelope 63); try lia.
  - apply encodable_request_definition; tauto.
  - apply encodable_job_definition.
  - apply (encodable_input 57); tauto.
  - apply (encodable_decision 56); tauto.
Qed.

(** The bytes of an accepted definition. *)
Lemma accepted_encoded v :
  representable v = true -> accepted v = true ->
  encodeEvaluationCanonicalJson (envelope_of v) = Ok (utf8_bytes (render (canonical (envelope_of v)))).
Proof. intros Hr Hp. destruct (envelope_encodable v Hr Hp) as [Hw Ha]. by apply (encode_iff _ _ Hw). Qed.

(** Equal normal forms of the envelopes. *)
Lemma same_envelope v w :
  accepted v = true -> accepted w = true -> canonical (envelope_of v) = canonical (envelope_of w) -> v = w.
Proof.
  intros Hv Hw E.
  destruct v as [s d|s d|s d|s d], w as [s' d'|s' d'|s' d'|s' d']; cbn [envelope_of accepted] in *;
    apply envelope_inj in E as (Ed & <- & E); rewrite ?andb_true_iff in Hv; rewrite ?andb_true_iff in Hw;
    try discriminate Ed.
  - apply request_definition_identified in E; [by subst|tauto..].
  - apply job_definition_identified in E; [by subst|done..].
  - apply input_identified in E; [by subst|tauto..].
  - apply decision_identified in E; [by subst|tauto..].
Qed.

(** C11. For policy-evaluation requests and jobs, release-decision inputs and
    release decisions whose texts are JavaScript strings: encoding answers
    exactly when the schemas of the kind accept the scope and the definition,
    and the bytes of two accepted definitions are the same exactly when they are
    one definition of one kind and scope.  The bytes that are hashed determine
    the definition to its last field, instant and rationale. *)
Theorem hashed_definitions_separate v w :
  representable v = true -> representable w = true ->
  is_ok (encodeScoped v) = accepted v /\
  (accepted v = true -> accepted w = true -> encodeScoped v = encodeScoped w <-> v = w).
Proof.
  intros Hv Hw. rewrite !encodeScoped_accepted. split.
  - destruct (accepted v) eqn:Av; [|done]. by rewrite accepted_encoded.
  - intros Av Aw. rewrite Av, Aw. split; [|by intros ->].
    destruct (envelope_encodable v Hv Av) as [Wv _], (envelope_encodable w Hw Aw) as [Ww _].
    pose proof (accepted_encoded v Hv Av) as Ev. pose proof (accepted_encoded w Hw Aw) as Ew.
    rewrite Ew. intros E. by apply same_envelope, (encode_inj _ _ _ Wv Ww E Ew).
Qed.
End encoding.
