(* ===== verification/DecisionWitnesses.v ===== *)
(** * A concrete release decision

    A policy with two rules, the comparisons and the assessment they name, the
    evaluation of one of them, its classification, and the disposition of the
    release.  The properties with hypotheses are instantiated on it. *)

From S2P Require Import Prelude Errors Primitives ExactArithmetic PolicyTime ReplayPlan.
From S2P Require Import PolicyEvaluationJob PolicyJobHistory ComparisonContracts.
From S2P Require Import ComparisonSnapshot CanonicalJson CanonicalJsonProofs CanonicalIdentity.
From S2P Require Import PolicySources ReleasePolicyRules ComparisonSelection PolicyProjection.
From S2P Require Import PolicyRuleResult PolicyPredicate PolicyPredicateProofs.
From S2P Require Import ReleaseDecisionContracts ReleaseDecisionEncoding ReleaseDecision.
From S2P Require Import ReleaseDecisionProofs DefinitionEncoders DefinitionEncodingProofs Samples.
From S2P Require Import PolicyWitnesses.
From Stdlib Require Import Ascii.
#[local] Open Scope Z_scope.

(** ASCII is its own normal form, and the portable encoder is always used. *)
#[local] Instance unchanged_normalization : UnicodeNormalization := {|
  normalizeNFC := fun t => t; normalizeNFC_ascii := fun _ _ => eq_refl
|}.

Lemma no_native_encoder (encode : text -> list Z) value :
  None = Some encode -> containsUnpairedSurrogate value = false -> encode value = utf8_bytes value.
Proof. done. Qed.

#[local] Instance portable_only : NativeTextEncoder := {|
  nativeEncode := None; nativeEncode_utf8 := no_native_encoder
|}.

(** ** Canonical definitions *)

Definition js_number (negative : bool) (digits : list Z) (point : Z) : Json :=
  JNumber {| number_negative := negative; number_digits := digits; number_point := point |}.

(** [[-0, 1.5, 1e30]], and the other forms a number takes. *)
Example number_forms :
  encodeEvaluationCanonicalJson (JArray [js_number true [] 0; js_number false [1; 5] 1; js_number false [1] 31]) =
    Ok (text_of "[0,1.5,1e+30]") /\
  encodeEvaluationCanonicalJson (JArray [js_number true [1; 2; 5] (-1); js_number false [1; 2; 5] (-9);
    js_number false [7] 3; js_number false [1] 21; (number_member "revision" (-120)).2]) =
    Ok (text_of "[-0.0125,1.25e-10,700,100000000000000000000,-120]").
Proof. split; vm_compute; reflexivity. Qed.

Definition candidate_definition : Json :=
  JObject [ascii_member "name" "release seven"; (text_of "revision", js_number false [] 0);
           (text_of "tags", JArray [JString [233; 55357; 56832]; js_number false [1; 5] 1])].
Definition candidate_reordered : Json :=
  JObject [(text_of "tags", JArray [JString [233; 55357; 56832]; js_number false [1; 5] 1]);
           (text_of "revision", js_number true [] 0); ascii_member "name" "release seven"].

(** Two objects with their members in different orders and zeros of different
    signs have one identity. *)
Lemma canonical_bytes_identify_witness :
  is_ok (encodeEvaluationCanonicalJson candidate_definition) = true /\
  encodeEvaluationCanonicalJson candidate_definition = encodeEvaluationCanonicalJson candidate_reordered.
Proof.
  destruct (canonical_bytes_identify candidate_definition candidate_reordered) as [Hok Heq];
    [vm_compute; reflexivity..|].
  split; [rewrite Hok; vm_compute; reflexivity|].
  apply Heq; vm_compute; reflexivity.
Defined.

(** The same content in another schema version has other bytes. *)
Lemma definition_encoding_separates_witness :
  let scope := {| tenantId := "tenant"; projectId := "project"; environmentId := "production" |} in
  encodeDefinition "proofstack.comparison-definition.v1" "0.7" scope candidate_definition <>
    encodeDefinition "proofstack.comparison-definition.v1" "0.6" scope candidate_reordered.
Proof.
  intros scope E.
  destruct (proj1 (definition_encoding_separates "proofstack.comparison-definition.v1"
    "proofstack.comparison-definition.v1" "0.7" "0.6" scope scope candidate_definition candidate_reordered
    ltac:(vm_compute; reflexivity) ltac:(vm_compute; reflexivity) ltac:(vm_compute; reflexivity)
    ltac:(vm_compute; reflexivity)) E) as (_ & Hv & _). discriminate Hv.
Defined.

(** ** Sources *)

Definition decision_aggregate : PolicyEvaluationSourceReference :=
  source_evaluation_aggregate {| named_id := "aggregate_one"; named_definitionSha256 := sha "4" |}.
Definition decision_aggregation : PolicyEvaluationSourceReference :=
  source_aggregation_policy {| versioned_id := "aggregation_one"; versioned_versionId := "aggregation_one_v1";
                               versioned_definitionSha256 := sha "5" |}.

Lemma source_keys_identify_witness :
  PolicyEvaluationSourceKeySchema (policyEvaluationSourceReferenceKey decision_aggregate) = true /\
  policyEvaluationSourceReferenceKey decision_aggregate <> policyEvaluationSourceReferenceKey decision_aggregation.
Proof.
  destruct (source_keys_identify decision_aggregate decision_aggregation) as [Hok Heq]; [vm_compute; reflexivity..|].
  split; [exact Hok|]. intros [Hk _]%Heq. discriminate Hk.
Defined.

(** ** A policy *)

Definition decision_comparison : ComparisonDefinitionReference := {|
  comparisonRef_comparisonId := "comparison_one"; comparisonRef_comparisonVersionId := "comparison_one_v1";
  comparisonRef_definitionSha256 := sha "6"
|}.
Definition decision_assessment : AssessmentReference := {|
  assessmentRef_assessmentId := "assessment_one"; assessmentRef_definitionSha256 := sha "7"
|}.

Definition decision_rule (id : string) (predicate : ReleasePolicyPredicate) : ReleasePolicyRule := {|
  rule_nonWaivable := true; rule_predicate := predicate; rule_rationale := text_of "Agreed with the owners.";
  rule_ruleId := id; rule_severity := severity_high;
  rule_sources := [{| qualified_review := {| named_id := "review_one"; named_definitionSha256 := sha "8" |};
                      qualified_source := {| named_id := "source_one"; named_definitionSha256 := sha "9" |} |}]
|}.

(** At least five cases of the assessment are decided. *)
Definition floor_rule : ReleasePolicyRule :=
  decision_rule "rule_floor" (coverage_floor_assessment decision_assessment 5 samples_decided).
Definition ceiling_rule : ReleasePolicyRule :=
  decision_rule "rule_safety" (safety_event_ceiling decision_comparison safety_guardrail_check 0 "metric_guard").

Definition decision_candidate_reference : ReleaseCandidateReference := {|
  candidateRef_candidateId := "candidate_one"; candidateRef_candidateVersionId := "candidate_one_v1";
  candidateRef_definitionSha256 := sha "a"
|}.
Definition decision_policy_reference : ReleasePolicyReference := {|
  policyRef_definitionSha256 := sha "b"; policyRef_policyId := "policy_one"; policyRef_policyVersionId := "policy_one_v1"
|}.
Definition decision_request_reference : PolicyEvaluationRequestReference := {|
  requestRef_definitionSha256 := sha "c"; requestRef_evaluationRequestId := "request_one"
|}.

Definition decision_snapshot (id : string) (role : ComparisonRole) : ComparisonEvidenceSnapshotReference := {|
  snapshotRole_definitionSha256 := sha "d"; snapshotRole_role := role; snapshotRole_snapshotId := id
|}.
Definition decision_members : list PolicyEvaluationCandidateComparisonMember := [
  {| member_observation := member_verified (decision_snapshot "snapshot_before" baseline_role)
       (decision_snapshot "snapshot_after" candidate_role) decision_comparison 500 (sha "e");
     member_reference := {| candidateComparison_definitionSha256 := sha "f"; candidateComparison_resultId := "result_one" |} |}].

(** The only verified result of the comparison stands for it. *)
Lemma comparison_selection_exact_witness :
  exists inventory,
    comparison_inventory decision_candidate_reference decision_policy_reference [ceiling_rule; floor_rule]
      decision_request_reference sample_scope decision_members = Ok inventory /\
    resolution_status <$> inventory_policyComparisons inventory =
      [selection_unique {| candidateComparison_definitionSha256 := sha "f";
                           candidateComparison_resultId := "result_one" |}].
Proof.
  pose proof (comparison_selection_exact decision_candidate_reference decision_policy_reference
    [ceiling_rule; floor_rule] decision_request_reference sample_scope decision_members
    ltac:(vm_compute; reflexivity) ltac:(vm_compute; reflexivity) ltac:(vm_compute; reflexivity)
    ltac:(vm_compute; reflexivity) ltac:(vm_compute; reflexivity) ltac:(vm_compute; reflexivity)
    ltac:(vm_compute; reflexivity) ltac:(vm_compute; reflexivity) ltac:(vm_compute; reflexivity)) as [H _].
  destruct (comparison_inventory _ _ _ _ _ _) as [inventory|] eqn:E; [|vm_compute in E; discriminate E].
  exists inventory. split; [reflexivity|]. destruct H as (_ & _ & ->).
  vm_compute in E. injection E as <-. vm_compute. reflexivity.
Defined.

(** ** The evaluation of a rule *)

(** Ten cases, eight of them decided. *)
Definition decision_counts : EvaluationAggregateCounts := {|
  aggregate_abstainCount := 1; aggregate_applicableCount := 10; aggregate_attemptedCount := 10;
  aggregate_decidedCount := 8; aggregate_errorCount := 1; aggregate_failCount := 2;
  aggregate_notApplicableCount := 0; aggregate_passCount := 6; aggregate_selectedCount := 10
|}.

Definition floor_projection : PolicyEvaluationRuleProjection := {|
  frame_ruleIndex := 0; frame_rule := floor_rule;
  frame_input := input_assessment (source_assessment decision_assessment)
    (binding_inputs_retained
      {| witness_source := source_assessment decision_assessment; witness_recordSha256 := sha "1" |}
      (operand_coverage_count
        (retained_verified {| witness_source := decision_aggregate; witness_recordSha256 := sha "2" |}
          {| projection_counts := decision_counts; projection_samplingAssumption := assumption_not_required;
             projection_passInterval := interval_not_reported method_not_requested |})
        (retained_verified {| witness_source := decision_aggregation; witness_recordSha256 := sha "3" |}
          method_descriptive_counts)
        field_decidedCount))
|}.

(** Eight decided cases decide that the floor of five is reached. *)
Lemma predicate_evaluation_exact_witness :
  exists result, evaluatePolicyPredicateProjection floor_projection = Ok result /\
    ruleResult_outcome result = outcome_satisfied /\
    decided true (coverage_floor_assessment decision_assessment 5 samples_decided) (frame_input floor_projection).
Proof.
  assert (Hframe : PolicyEvaluationRuleProjectionSchema floor_projection = true) by (vm_compute; reflexivity).
  destruct (predicate_evaluation_exact floor_projection Hframe) as (result & E & _ & _ & _ & _ & _ & Hd).
  exists result. split; [exact E|].
  assert (Ho : ruleResult_outcome result = outcome_satisfied) by (vm_compute in E; injection E as <-; reflexivity).
  split; [exact Ho|]. exact (proj1 (Hd true) Ho).
Defined.

(** ** Its classification *)

Definition floor_result : PolicyEvaluationRuleResult := {|
  ruleResult_ruleIndex := 0; ruleResult_ruleId := "rule_floor"; ruleResult_predicateKind := predicate_coverage_floor;
  ruleResult_outcome := outcome_satisfied; ruleResult_evidence := count_floor decidedCount 8 5 1;
  ruleResult_limitations := [limitation_declared_reference_authority_only]
|}.

Definition floor_classification : ReleaseRuleClassificationInput := {|
  classified_rule := floor_rule; classified_result := floor_result; classified_applicability := applicability_match;
  classified_candidateAuthority := authority_qualified; classified_originalPolicyState := state_of_active;
  classified_currentPolicyState := state_of_active; classified_normalApproval := review_unavailable;
  classified_ruleException := review_unavailable
|}.

Definition floor_finding : ReleaseDecisionRuleFinding :=
  finding_of floor_classification
    {| classification_status := rule_satisfied; classification_originalOutcome := outcome_satisfied;
       classification_reason := evaluation_satisfied |} [].

Lemma classified_finding_accepted_witness :
  classifyReleaseRule floor_classification = Ok {| classification_status := rule_satisfied;
    classification_originalOutcome := outcome_satisfied; classification_reason := evaluation_satisfied |} /\
  ReleaseDecisionRuleFindingSchema floor_finding = true.
Proof.
  assert (E : classifyReleaseRule floor_classification = Ok {| classification_status := rule_satisfied;
    classification_originalOutcome := outcome_satisfied; classification_reason := evaluation_satisfied |})
    by (vm_compute; reflexivity).
  split; [exact E|]. unfold floor_finding.
  rewrite (classified_finding_accepted floor_classification _ [] E); vm_compute; reflexivity.
Defined.

(** A violated ceiling that cannot be waived stays violated, whatever the reviews say. *)
Definition ceiling_classification : ReleaseRuleClassificationInput := {|
  classified_rule := ceiling_rule;
  classified_result := {| ruleResult_ruleIndex := 1; ruleResult_ruleId := "rule_safety";
    ruleResult_predicateKind := predicate_safety_event_ceiling; ruleResult_outcome := outcome_violated;
    ruleResult_evidence := safety_ceiling safety_guardrail_check 2 0 true 1;
    ruleResult_limitations := [limitation_historical_observation_only] |};
  classified_applicability := applicability_match; classified_candidateAuthority := authority_qualified;
  classified_originalPolicyState := state_of_active; classified_currentPolicyState := state_of_active;
  classified_normalApproval := review_matched; classified_ruleException := review_matched
|}.

Lemma classification_exact_witness :
  exists c, classifyReleaseRule ceiling_classification = Ok c /\
    classification_status c = rule_non_waivable_violation /\ violated_for_good ceiling_classification.
Proof.
  pose proof (classification_exact ceiling_classification) as (_ & _ & H).
  destruct (classifyReleaseRule ceiling_classification) as [c|] eqn:E in |- *; [|vm_compute in E; discriminate E].
  exists c. specialize (H c E) as (_ & _ & H).
  assert (Hs : classification_status c = rule_non_waivable_violation) by (vm_compute in E; injection E as <-; reflexivity).
  split; [reflexivity|]. split; [exact Hs|]. exact (proj2 (proj1 H Hs)).
Defined.

(** ** The disposition *)

Definition decision_publisher_receipt : ReleaseDecisionPublisherReceipt := {|
  publisher_principalId := "user_alice"; publisher_principalType := publisher_user;
  publisher_authenticatedAt := at_time 900 [0; 0; 0]; publisher_credentialId := "session_one";
  publisher_requestId := text_of "request 1"
|}.

Definition decision_selection_reference : ReleasePolicySelectionReference := {|
  selectionRef_selectionId := "selection_one"; selectionRef_selectionVersionId := "selection_one_v1";
  selectionRef_definitionSha256 := sha "4"; selectionRef_installationId := "installation_one";
  selectionRef_gateTargetId := "gate_one"
|}.

(** The policy is mandatory and was evaluated for the candidate. *)
Definition decision_request : ReleaseDecisionInputDefinition := {|
  input_decisionInputRequestId := "decision_request_one"; input_candidate := decision_candidate_reference;
  input_selection := decision_selection_reference; input_rationale := text_of "Ship it when it is ready.";
  input_scope := sample_scope; input_mode := enforce; input_publisher := decision_publisher_receipt;
  input_createdAt := at_time 1000 [0; 0; 0]; input_expiresAt := at_time 1600 [0; 0; 0];
  input_verificationLimits := {| verification_maxAcquisitionRecords := 10;
    verification_maxAcquisitionRecordBytes := 4096; verification_maxApprovalRecords := 4 |};
  input_evaluations := [
    {| planned_mode := mandatory_mode;
       planned_request := {| definition_candidate := decision_candidate_reference;
         definition_evaluationRequestId := "request_one"; definition_evaluationTime := at_time 1000 [0; 0; 0];
         definition_limits := policy_limits; definition_policy := decision_policy_reference |};
       planned_requestSha256 := sha "c" |}]
|}.

Definition decision_findings : list ReleaseDecisionPolicyFinding := [
  {| finding_policy := decision_policy_reference; finding_request := decision_request_reference;
     finding_mode := mandatory_mode;
     finding_state := policy_evaluated {| jobRef_jobId := "job_one"; jobRef_definitionSha256 := sha "1" |}
       {| snapshotRef_snapshotId := "snapshot_one"; snapshotRef_definitionSha256 := sha "2" |}
       {| resultRef_evaluationId := "evaluation_one"; resultRef_definitionSha256 := sha "3" |} 1 [floor_finding] |}].

Definition decision_made (disposition : ReleaseDecisionDisposition) : ReleaseDecisionDefinition := {|
  decision_decisionId := "decision_one"; decision_scope := sample_scope;
  decision_input := {| digestRef_id := "decision_request_one"; digestRef_definitionSha256 := sha "5" |};
  decision_candidate := decision_candidate_reference; decision_selection := decision_selection_reference;
  decision_mode := enforce; decision_selectionState := state_current;
  decision_authoritySnapshot := {| digestRef_id := "authority_one"; digestRef_definitionSha256 := sha "6" |};
  decision_publisher := decision_publisher_receipt; decision_decidedAt := at_time 1200 [0; 0; 0];
  decision_expiresAt := at_time 1500 [0; 0; 0]; decision_rationale := text_of "Every rule is satisfied.";
  decision_disposition := disposition; decision_policies := decision_findings
|}.

Lemma release_proceeds_exactly_witness :
  complete_inventory decision_request decision_findings /\
  forall policy, answers_mandatory decision_request decision_findings policy -> policy_satisfied policy.
Proof.
  pose proof (release_proceeds_exactly decision_request state_current decision_findings) as (_ & _ & H & _).
  assert (E : deriveReleaseDisposition decision_request state_current decision_findings = Ok proceed)
    by (vm_compute; reflexivity).
  apply H in E as (Hc & _ & _ & Hall). split; [exact Hc|exact Hall].
Defined.

(** The contract accepts the decision to proceed and no decision to hold. *)
Lemma derived_disposition_accepted_witness :
  deriveReleaseDisposition decision_request state_current decision_findings = Ok proceed /\
  ReleaseDecisionDefinitionSchema (decision_made proceed) = true /\
  ReleaseDecisionDefinitionSchema (decision_made hold) <> true.
Proof.
  assert (E : deriveReleaseDisposition decision_request state_current decision_findings = Ok proceed)
    by (vm_compute; reflexivity).
  split; [exact E|]. split.
  - apply (derived_disposition_accepted _ _ _ _ (decision_made proceed) E eq_refl eq_refl eq_refl).
    split; [reflexivity|]. split; [vm_compute; reflexivity|]. split; [vm_compute; discriminate|].
    split; [vm_compute; reflexivity|].
    destruct (encodeEvaluationCanonicalJson (decision_definition_json (decision_made proceed))) as [bytes|] eqn:Eb;
      [|vm_compute in Eb; discriminate Eb].
    exists bytes. split; [reflexivity|]. vm_compute in Eb. injection Eb as <-. vm_compute. discriminate.
  - intros H. apply (derived_disposition_accepted _ _ _ _ (decision_made hold) E eq_refl eq_refl eq_refl) in H.
    destruct H as [H _]. discriminate H.
Defined.

(** The whole decision is one the contract accepts. *)
Example decision_accepted : ReleaseDecisionDefinitionSchema (decision_made proceed) = true.
Proof. vm_compute. reflexivity. Qed.

(** Two decisions that differ in their rationale alone have different bytes. *)
Definition decision_reworded : ReleaseDecisionDefinition := {|
  decision_decisionId := "decision_one"; decision_scope := sample_scope;
  decision_input := {| digestRef_id := "decision_request_one"; digestRef_definitionSha256 := sha "5" |};
  decision_candidate := decision_candidate_reference; decision_selection := decision_selection_reference;
  decision_mode := enforce; decision_selectionState := state_current;
  decision_authoritySnapshot := {| digestRef_id := "authority_one"; digestRef_definitionSha256 := sha "6" |};
  decision_publisher := decision_publisher_receipt; decision_decidedAt := at_time 1200 [0; 0; 0];
  decision_expiresAt := at_time 1500 [0; 0; 0]; decision_rationale := text_of "Every rule was satisfied.";
  decision_disposition := proceed; decision_policies := decision_findings
|}.

Lemma hashed_definitions_separate_witness :
  is_ok (encodeScoped (scoped_decision sample_scope (decision_made proceed))) = true /\
  encodeScoped (scoped_decision sample_scope (decision_made proceed)) <>
    encodeScoped (scoped_decision sample_scope decision_reworded).
Proof.
  destruct (hashed_definitions_separate (scoped_decision sample_scope (decision_made proceed))
    (scoped_decision sample_scope decision_reworded)) as [Hok Heq]; [vm_compute; reflexivity..|].
  split; [rewrite Hok; vm_compute; reflexivity|].
  intros E. apply Heq in E; [discriminate E|vm_compute; reflexivity..].
Defined.
